(* ===== verification/_CoqProject ===== *)
-Q . S2P
Prelude.v
Utf8.v
Rtp.v
Rtcp.v
Translator.v
Relay.v
Replay.v
Srtp.v
Srtcp.v
SrtcpGcm.v
Jitter.v
T140.v
Dtmf.v
Base64.v
Bencode.v
Text.v
Crypto.v
Stun.v
Turn.v
StunClient.v
Net.v
Sdes.v
SecureLeg.v
Ice.v
IceText.v
IceAgent.v
TurnAuth.v
TurnServer.v
TurnClient.v
CallFloor.v
RangeCoder.v
RangeStream.v
Codec.v
OpusPacket.v
AmrPayload.v
AmrStream.v
Concealment.v
G711.v
Mixer.v
TextMixer.v
G726.v
Li.v
X3.v
Bridge.v
Reception.v
RoomCodec.v
SeatGate.v
ForwardRoom.v
RoomSafety.v
