(* ===== verification/Prelude.v ===== *)
(** * siphon-rtp: a shallow embedding of the media engine's packet logic

    siphon-rtp is a media relay for SIP and WebRTC calls.  Datagrams enter
    through a datapath (UDP sockets or an XDP program in the kernel), pass the
    layered gates of the relay (classification, source latch), are decrypted,
    reordered, transcoded or rewritten, and leave towards the other party; a
    control protocol sets the calls up, and a built-in STUN/TURN server lets
    clients behind NATs reach the relay.  This library models the packet-level
    core of that program: pure functions as functions, stateful components as
    records with one definition per operation, fallible code in [res] with a
    panic as a value of its own, and machine integers as [Z] with wrap-around,
    saturation and shifts written out.

    ** Files

    - [Prelude]: outcomes ([res]), integers, byte strings with Rust's indexing
      and slicing (out of range is [Panic]), big-endian codecs, and the lemmas,
      hints and tactics the other files share.
    - [Utf8]: UTF-8 validation as the Rust standard library performs it and
      reports its errors, for the components that receive text.
    - [Rtp]: crates/siphon-rtp-media/src/rtp.rs, parser and writer.
    - [Rtcp]: crates/siphon-rtp-media/src/rtcp.rs, compound parser, report and
      APP writers, the APP iterator, sender-SSRC rewriting, demultiplexing.
    - [Relay]: crates/siphon-rtp-ebpf-common/src/rewrite.rs and loss.rs (the
      arithmetic the kernel program runs), the latch step of the UDP backend and
      of the XDP program, and crates/siphon-rtp-engine/src/reply_latch.rs.
    - [Replay], [Srtp], [Srtcp]: crates/siphon-rtp-srtp/src/lib.rs, kdf.rs,
      srtcp.rs and the MKI of sdes.rs.  AES counter mode and HMAC come from
      third-party crates: the class [SrtpCrypto] names what the code calls and
      [SrtpCryptoLaws] the output sizes it relies on, the only hypotheses.
    - [SrtcpGcm]: crates/siphon-rtp-srtp/src/srtcp_gcm.rs, with AES-GCM as the
      parameter [GcmCrypto] and its inverse law [GcmLaws].
    - [Text]: the string functions of the standard library the text parsers use.
    - [Sdes]: crates/siphon-rtp-srtp/src/sdes.rs, with base64 as the parameter
      [Base64Engine]; [SecureLeg]: crates/siphon-rtp-srtp/src/leg.rs.
    - [Jitter]: crates/siphon-rtp-media/src/jitter.rs.
    - [T140]: crates/siphon-rtp-media/src/t140.rs, RED coding and the real-time
      text reassembler.
    - [Dtmf]: crates/siphon-rtp-media/src/dtmf.rs, telephone events: detector,
      generator, digit sequences, rescaling.
    - [Base64]: crates/siphon-rtp-proto/src/base64.rs.
    - [Bencode]: crates/siphon-rtp-ngcompat/src/bencode.rs.
    - [Crypto]: the hand-written SHA-1, HMAC-SHA1 and CRC-32 of
      crates/siphon-rtp-stun/src/lib.rs, with published test vectors.
    - [Stun]: the rest of that file: parser, builder, integrity, addresses.
    - [Turn]: crates/siphon-rtp-stun/src/turn.rs and the stream reader of
      crates/siphon-rtp-turn/src/server.rs.
    - [StunClient]: crates/siphon-rtp-stun/src/client.rs, retransmission and the
      ICE connectivity checks.
    - [Net]: the text of IP addresses as the standard library prints and
      parses them.
    - [Ice]: crates/siphon-rtp-ice/src/candidate.rs and checklist.rs;
      [IceText]: the SDP text of candidates and options in candidate.rs.
    - [IceAgent]: crates/siphon-rtp-ice/src/agent.rs.
    - [TurnAuth]: crates/siphon-rtp-turn/src/credentials.rs and the peer policy
      of lib.rs.
    - [TurnServer]: crates/siphon-rtp-turn/src/manager.rs, the allocation actor
      with every handler, its reaper and its loop.
    - [TurnClient]: crates/siphon-rtp-stun/src/turn_client.rs, the client of such
      a server.
    - [Translator]: crates/siphon-rtp-media/src/translator.rs, one stream out of the
      talkers of a forwarding room.
    - [CallFloor]: the floor-control relay of a call in crates/siphon-rtp-engine/src
      (call_floor.rs, floor_srtcp.rs, app_events.rs, ingress.rs) with the source
      filter of crates/siphon-rtp-datapath/src/lib.rs.
    - [Codec]: the shared part of crates/siphon-rtp-codec/src/lib.rs and l16.rs.
    - [RangeCoder], [RangeStream]: crates/siphon-rtp-codec/src/opus/range_coder.rs,
      the entropy coder of Opus, and what its two ends do to each other;
      [OpusPacket]: opus/packet.rs of the same crate.
    - [AmrPayload]: both RFC 4867 payload codecs, amr/payload.rs and amr/rtp.rs;
      [AmrStream]: amr/mode_control.rs and amr/stream.rs, with the speech codec
      behind the class [FrameCodec].
    - [Concealment], [G711]: g711/plc.rs and g711.rs.
    - [Mixer]: crates/siphon-rtp-media/src/mixer.rs, the conference mix bus;
      [TextMixer]: text_mixer.rs beside it, the real-time text of a conference.
    - [G726]: crates/siphon-rtp-codec/src/g726.rs, the ADPCM codec with its
      predictor and quantiser state.
    - [Li]: crates/siphon-rtp-li/src/lib.rs, attributes.rs, inbound.rs and clock.rs,
      the X2/X3 framing of intercepted traffic.
    - [X3]: crates/siphon-rtp-engine/src/x3.rs, the taps and the delivery task.  The
      bounded channel between them is the class [Channel] with its laws (an
      instance on lists shows they can hold); the TLS connection is the environment
      of a step, and one turn of the serving loop is one atomic step.
    - [Bridge]: crates/siphon-rtp-engine/src/srtp_bridge.rs, with the plaintext taps
      of plain_tap.rs and the address rule of crates/siphon-rtp-datapath/src/lib.rs.
      Legs live in a store and are named by handles, as both directions of a call
      and a re-offer share them.
    - [Reception]: crates/siphon-rtp-media/src/ingress.rs, the receiver statistics of
      RFC 3550, with the binary64 arithmetic of [SpecFloat].
    - [RoomCodec]: which codec a forwarding room carries and which offers may join it,
      crates/siphon-rtp-engine/src/forward/codec.rs with the codec description of
      crates/siphon-rtp-codec/src/factory.rs.
    - [SeatGate]: crates/siphon-rtp-engine/src/seat_gate.rs, the layers a seat's
      datagram passes.
    - [ForwardRoom]: crates/siphon-rtp-engine/src/forward/room.rs and room/app.rs, the
      actor of forward/registry.rs and the writer side of floor_channel.rs: one chosen
      talker to every other seat.  It composes [SeatGate], one [Translator] per seat,
      [SecureLeg], [Reception] and the floor protection of [CallFloor].
    - [RoomSafety]: what such a room sends, over every history of its actor.

    State and operations carry the names of the source ([JitterBuffer_push] is
    [JitterBuffer::push]); a record's fields carry a short prefix.  A buffer the
    source writes in place is passed and returned; an iterator is its state.

    ** What the theorems show

    - Codecs: the RTP, RTCP and ChannelData parsers accept exactly the datagrams
      of the wire layout and never panic ([rtp_parse_exact],
      lemmas [rtcp_parse_exact] and [channel_data_exact]); what the writers produce is parsed back
      (lemmas [bencode_roundtrip], [stun_build_parse], [app_roundtrip],
      [rtp_write_parse_roundtrip], [sender_report_roundtrip],
      [binding_response_roundtrip], [base64_roundtrip]); hostile input is survived
      (lemmas [bencode_decode_safe], [stun_hostile_input]).
    - Relay: incremental checksums equal a full recomputation; a latched stream
      cannot be hijacked by a sender that does not know its SSRC
      ([latch_hijack_safe]); the kernel's latch refines the shared state machine
      ([kernel_latch_refines]) except when RTCP comes before any RTP
      (lemma [kernel_latch_wider_after_rtcp]); the loss counter counts gaps.
    - SRTP and SRTCP: the replay window refines the set of all received indices
      ([replay_window_refines]); index estimation recovers the true packet index
      (lemma [index_estimate_exact]); a protected stream is recovered byte for byte
      from any delivery order ([srtp_stream_roundtrip], lemma
      [srtcp_stream_roundtrip]); a rejected packet changes nothing
      ([srtp_unprotect_safe]).  An SDES line is read exactly
      (lemma [sdes_line_exact]), and legs keyed from two exchanged lines carry mixed
      RTP and RTCP through losses and failovers to standbys
      ([secure_leg_call]).  With AES-GCM no initialisation vector is used twice
      ([gcm_iv_never_reused]) and the receiver refines a ring of keys with the
      set of indices received under each ([gcm_receiver_refines]); a checkpoint
      taken after the last index was used breaks the former
      ([checkpoint_after_exhaustion_reuses_iv]).
    - Jitter buffer: bounded, ordered, each frame at most once, nothing invented,
      nothing lost uncounted ([jitter_ordered_exactly_once],
      lemmas [jitter_bounded] and [jitter_pop_exact]).
    - Real-time text: RED coding is exact in both directions
      (lemma [red_coding_exact]); over lost, duplicated and reordered packets the
      reassembler does what a receiver knowing the true generation indices would
      ([t140_refines_spec]), keeps every byte while redundancy covers the losses
      even when characters are cut in two (lemma [t140_lossless]), and on any input
      emits bounded, valid UTF-8 (lemma [t140_hostile_safe]).  One weakness is shown:
      a truncated character swallows text of the next block
      ([truncated_char_swallows_text]).
    - Telephone events: playing a digit sequence ends after the packets it should
      take (lemma [dtmf_playback_terminates]) and the detector reports each press once,
      whatever the losses that leave one End packet (lemma [dtmf_detects_played]).
    - ICE: a checklist holds the compatible pairs, pruned, ordered and with one
      pair per foundation to start from (lemma [ice_checklist_formed]); a STUN
      transaction keeps RFC 8489's timetable and gives up
      ([stun_transaction_timetable]); the agent keeps its state consistent on
      every run and selects only checked and nominated pairs
      ([ice_agent_invariant]), is not moved by anything unauthenticated
      (lemma [ice_unauthenticated_ignored]) and resolves a role conflict in one
      exchange (lemma [ice_role_conflict_resolved]), unless two checks cross
      (lemma [ice_crossing_checks_flip_back]).  A candidate's line is parsed back to
      the candidate, any white space between its fields allowed
      (lemma [candidate_text_exact]).
    - TURN: stream reassembly is independent of segmentation
      (lemma [turn_stream_reassembly]); nonces and long-term credentials are checked
      exactly (lemmas [authenticate_exact], [nonce_exact]); the allocation actor keeps
      its tables, quotas, datapath endpoints and kernel routes consistent in
      every reachable state ([turn_server_invariant]), relays only under a
      permission or channel and the peer policy ([turn_relay_gated]), and grants
      nothing without credentials ([turn_needs_credentials]).  The default peer
      policy is characterised exactly, including that it lets IPv4-mapped IPv6
      forms of denied addresses through (lemma [default_policy_exact]).  The client
      never gives two peers one channel before the numbers run out
      ([turn_client_channels]), stops after the refusals it may answer
      ([turn_refusals_end]) and, run against the modelled server, obtains an
      allocation in two exchanges ([turn_client_server_allocate]).
    - Rooms: the translator gives listeners one continuous stream
      ([translator_continuous]); a forwarding room never panics, and what it sends is
      one fan-out of a packet of the chosen seat that passed every layer of its gate,
      or a report or APP packet, each datagram toward a seat that can be reached and
      under that seat's own key ([room_safe]), but two payloads may share an SRTP index
      when a talker starts out of order (lemma [reordered_start_reuses_keystream]); an
      offer is admitted exactly if the room can carry it (lemma [room_admit_exact]);
      reception reports say what RFC 3550 defines over the packets that arrived
      ([reception_report_exact]); the mix bus lets each participant hear exactly the
      loudest speakers but itself, and the routing overrides ([mixer_hears]); text
      typed in a conference is distributed exactly ([text_mixer_distributes]) and, over
      a lossy path, shown whole by the reassembler ([text_mixer_delivers]).
    - Floor control: messages pass only from keyed or latched legs ([floor_gate]) and
      a message sent by one engine is the event of another
      ([floor_message_delivered]).
    - Lawful interception: PDUs written one behind another and cut anywhere are read
      back exactly ([li_framing_exact]); what the delivery task's successive
      connections wrote, then what is held, are the packets the buffer accepted, in
      order, and what it refused is counted ([x3_delivers]); one packet escapes the
      count of what a cut connection lost (lemma [x3_forgets_the_held_packet]).
    - Bridge: a datagram is withheld, or was authenticated under its party's key and
      leaves re-encrypted toward the other party, over any history of calls, taps and
      hostile datagrams ([bridge_safe]); two parties talking through it hear each
      other, and nobody else, byte for byte ([bridge_call]).
    - Audio codecs: the Opus range decoder recovers every sequence of symbols the
      encoder wrote into a large enough buffer ([range_coder_roundtrip]); the Opus
      packet parser accepts exactly RFC 6716's packets (lemma
      [opus_packet_exact]); the two
      AMR payload codecs are equivalent ([amr_payload_equivalence]), the mode decision
      respects what was negotiated and reaches what is asked for
      ([amr_mode_control]), and a stream's packet is heard as sent
      ([amr_stream_delivers]); G.711 companding keeps order and a bound on its error
      ([g711_companding]) and the concealing decoder is a function of what was
      received ([g711_concealment_refines]); G.726 stays in its ranges on any input
      ([g726_well_typed]) and its two ends never drift apart ([g726_decoder_tracks]); L16 is exact (lemma [l16_roundtrip]).

    ** Bounds and fuel

    A loop whose recursion is not structural takes fuel and returns [Panic] when
    it runs out, so that "never panics" also says the fuel is enough.  Packet
    walks take one more turn than the datagram has bytes (each turn consumes at
    least the four bytes of a header); [fold16] takes three turns (a 32-bit sum
    folds to 16 bits in two); [enforce_cap] takes one turn per sequence number;
    the bencode parser takes twice the input's length plus two (a value and a
    list turn each consume a byte); the RED header loop takes two more turns than
    the blocks it admits; text decoding takes one more turn than it has bytes
    (each turn but the last skips one); a playback step takes at most three turns
    of its loop (a finished digit, the next one, its first packet); padding loops take as many turns as their
    modulus; the fan-out of a room takes one turn per seat and one to find there is none
    left; a range coder normalises in at most four turns; the Opus padding loop
    and the AMR bit readers take one more turn than the input has bytes or bits.  Counters of 64 bits that only grow (statistics, ticks, relayed
    bytes) are unbounded integers; sequence numbers, timestamps, indices,
    checksums and lengths keep their width.

    ** What is not modelled

    Sockets and tasks (their answers and calls appear as explicit inputs and
    effects), channels other than by their laws, the kernel's packet loads and maps,
    tracing, serde glue, AES, base64 and the HMAC crate, and the TLS and DTLS
    libraries: there is no code of the repository behind those names.  The signal
    processing of the speech codecs (AMR, EVS, Opus, GSM, G.722) and the
    floating-point filters are specified by test vectors rather than by properties; their
    interface to the modelled parts is [FrameCodec].  The call control of
    siphon-rtp-engine (lib.rs, media_pipeline.rs, conference.rs) is asynchronous
    orchestration of the parts modelled here, over state shared between tasks; only its
    self-contained machines ([Bridge], [X3], [CallFloor], [ForwardRoom], the reply
    latches of [Relay]) are modelled.  A forwarding room is modelled without seats in
    another codec than its own, which need the speech codecs.  Mutex poisoning, which follows only a panic, is left out
    with the panics shown not to happen. *)

From stdpp Require Import base list numbers option.
From stdpp Require Import gmap.
From Stdlib Require Import Lia ZArith.

Open Scope Z_scope.

(** ** Outcomes of Rust code

    A fallible Rust function ends in one of three ways: it returns [Ok], it
    returns [Err], or it panics (an index or slice out of range, an
    underflowing [usize] subtraction in a checked build).  Keeping [Panic] as a
    third constructor lets the theorems state that hostile input never panics. *)

Inductive res (E A : Type) : Type :=
| Ok (a : A)
| Err (e : E)
| Panic.
Arguments Ok {E A} _.
Arguments Err {E A} _.
Arguments Panic {E A}.

#[export] Instance res_ret E : MRet (res E) := fun A a => Ok a.
#[export] Instance res_bind E : MBind (res E) := fun A B f m =>
  match m with Ok a => f a | Err e => Err e | Panic => Panic end.

(** [opt.ok_or(e)?] *)
Definition ok_or {E A} (o : option A) (e : E) : res E A :=
  match o with Some a => Ok a | None => Err e end.

(** [Result::map_err] *)
Definition map_err {E F A} (f : E -> F) (r : res E A) : res F A :=
  match r with Ok a => Ok a | Err e => Err (f e) | Panic => Panic end.

Definition no_panic {E A} (r : res E A) : Prop :=
  match r with Panic => False | _ => True end.

Definition is_ok {E A} (r : res E A) : bool :=
  match r with Ok _ => true | _ => false end.

(** ** Machine integers

    A w-bit unsigned integer is a [Z] in [0, 2^w); the operations that wrap in
    the source reduce modulo [2^w] here. *)

Definition wrap (w : Z) (x : Z) : Z := x mod 2 ^ w.
Definition fits (w : Z) (x : Z) : Prop := 0 <= x < 2 ^ w.

Definition wrapping_add (w x y : Z) : Z := wrap w (x + y).
Definition wrapping_sub (w x y : Z) : Z := wrap w (x - y).

(** Reinterpretation of a w-bit pattern as a signed integer ([as i16], [as i32]). *)
Definition to_signed (w x : Z) : Z := if x <? 2 ^ (w - 1) then x else x - 2 ^ w.

Definition saturating_add (w x y : Z) : Z := Z.min (x + y) (2 ^ w - 1).
Definition saturating_mul (w x y : Z) : Z := Z.min (x * y) (2 ^ w - 1).
Definition saturating_sub (x y : Z) : Z := Z.max 0 (x - y).
Definition div_ceil (x y : Z) : Z := (x + y - 1) / y.
Definition b2z (b : bool) : Z := if b then 1 else 0.

(** ** Byte strings *)

Abbreviation bytes := (list Z).

Definition is_byte (b : Z) : Prop := 0 <= b < 256.
Definition bytes_ok (l : bytes) : Prop := Forall is_byte l.

Definition len {A} (l : list A) : Z := Z.of_nat (length l).

(** [&l[a..b]] without the range check, total. *)
Definition sub {A} (l : list A) (a b : Z) : list A :=
  take (Z.to_nat (b - a)) (drop (Z.to_nat a) l).

(** [l[i]]: panics out of range. *)
Definition idx {E A} (l : list A) (i : Z) : res E A :=
  if 0 <=? i then match l !! Z.to_nat i with Some b => Ok b | None => Panic end
  else Panic.

(** [l.get(i)] *)
Definition get_at {A} (l : list A) (i : Z) : option A :=
  if 0 <=? i then l !! Z.to_nat i else None.

(** [&l[a..b]]: panics unless [a <= b <= l.len()]. *)
Definition slice {E A} (l : list A) (a b : Z) : res E (list A) :=
  if (0 <=? a) && (a <=? b) && (b <=? len l) then Ok (sub l a b) else Panic.

(** [l.get(a..b)] *)
Definition get_range {A} (l : list A) (a b : Z) : option (list A) :=
  if (0 <=? a) && (a <=? b) && (b <=? len l) then Some (sub l a b) else None.

(** [a - b] on [usize]. *)
Definition usub {E} (a b : Z) : res E Z := if b <=? a then Ok (a - b) else Panic.

(** [out[a..a + bs.len()].copy_from_slice(bs)] *)
Definition copy_at {E A} (out : list A) (a : Z) (bs : list A) : res E (list A) :=
  if (0 <=? a) && (a + len bs <=? len out)
  then Ok (take (Z.to_nat a) out ++ bs ++ drop (Z.to_nat (a + len bs)) out)
  else Panic.

(** [out[i] = b] *)
Definition set_at {E A} (out : list A) (i : Z) (b : A) : res E (list A) :=
  copy_at out i [b].

(** [uN::from_be_bytes] and [to_be_bytes], for any width in bytes. *)
Fixpoint be_dec_acc (acc : Z) (l : bytes) : Z :=
  match l with [] => acc | b :: t => be_dec_acc (acc * 256 + b) t end.
Definition be_dec (l : bytes) : Z := be_dec_acc 0 l.

Fixpoint be_enc (n : nat) (x : Z) : bytes :=
  match n with
  | O => []
  | S n' => (x / 256 ^ Z.of_nat n') mod 256 :: be_enc n' x
  end.

(** [u16::from_be_bytes([l[i], l[i + 1]])] and its 32-bit sibling. *)
Definition be16_at {E} (l : bytes) (i : Z) : res E Z :=
  a ← idx l i; b ← idx l (i + 1); mret (be_dec [a; b]).
Definition be32_at {E} (l : bytes) (i : Z) : res E Z :=
  a ← idx l i; b ← idx l (i + 1); c ← idx l (i + 2); d ← idx l (i + 3);
  mret (be_dec [a; b; c; d]).

(** ** Hint databases and tactics *)

Create HintDb bytes_db discriminated.
Create Rewrite HintDb len_db.

(** ** Outcome lemmas *)

Lemma bind_Ok {E A B} (f : A -> res E B) a : (x ← Ok a; f x) = f a.
Proof. done. Qed.

Lemma bind_Ok_inv {E A B} (m : res E A) (f : A -> res E B) b :
  (x ← m; f x) = Ok b -> exists a, m = Ok a /\ f a = Ok b.
Proof. destruct m; simpl; naive_solver. Qed.

Tactic Notation "bind_inv" hyp(H) simple_intropattern(x) simple_intropattern(Hx) :=
  apply bind_Ok_inv in H as (x & Hx & H).

Lemma no_panic_bind {E A B} (m : res E A) (f : A -> res E B) :
  no_panic m -> (forall a, m = Ok a -> no_panic (f a)) -> no_panic (x ← m; f x).
Proof. destruct m; simpl; naive_solver. Qed.

Lemma ok_or_no_panic {E A} (o : option A) (e : E) : no_panic (ok_or o e).
Proof. by destruct o. Qed.

(** ** Lengths *)

Lemma len_nonneg {A} (l : list A) : 0 <= len l.
Proof. unfold len. lia. Qed.

Lemma len_nil {A} : len (@nil A) = 0.
Proof. done. Qed.

Lemma len_cons {A} (x : A) l : len (x :: l) = 1 + len l.
Proof. unfold len. simpl. lia. Qed.

Lemma len_app {A} (l1 l2 : list A) : len (l1 ++ l2) = len l1 + len l2.
Proof. unfold len. rewrite length_app. lia. Qed.

Lemma len_take {A} (l : list A) n : len (take n l) = Z.min (Z.of_nat n) (len l).
Proof. unfold len. rewrite length_take. lia. Qed.

Lemma len_drop {A} (l : list A) n : len (drop n l) = Z.max 0 (len l - Z.of_nat n).
Proof. unfold len. rewrite length_drop. lia. Qed.

Lemma len_map {A B} (f : A -> B) l : len (map f l) = len l.
Proof. unfold len. by rewrite length_map. Qed.

Lemma len_replicate {A} n (x : A) : len (replicate n x) = Z.of_nat n.
Proof. unfold len. by rewrite length_replicate. Qed.

Lemma len_zero_iff {A} (l : list A) : len l = 0 <-> l = [].
Proof. unfold len. destruct l; simpl; split; intros; try done; lia. Qed.

Lemma to_nat_len {A} (l : list A) : Z.to_nat (len l) = length l.
Proof. unfold len. lia. Qed.

#[export] Hint Rewrite @len_nil @len_cons @len_app @len_take @len_drop @len_map
  @len_replicate : len_db.

(** Split [Forall P [x1; ...; xn]] into its instances. *)
Ltac forall_list := repeat first [apply Forall_nil_2 | apply Forall_cons_2].

(** Length goals: normalise [len] and decide linearly. *)
Ltac len_lia :=
  repeat match goal with
  | |- context [@len ?A ?l] =>
      lazymatch goal with
      | _ : 0 <= @len A l |- _ => fail
      | _ => pose proof (@len_nonneg A l)
      end
  | H : context [@len ?A ?l] |- _ =>
      lazymatch goal with
      | _ : 0 <= @len A l |- _ => fail
      | _ => pose proof (@len_nonneg A l)
      end
  end;
  autorewrite with len_db in *; unfold len in *; simpl length in *; lia.

(** ** Indexing and slicing *)

Lemma idx_lookup {E A} (l : list A) i x :
  0 <= i -> l !! Z.to_nat i = Some x -> @idx E A l i = Ok x.
Proof. intros Hi Hx. unfold idx. rewrite (proj2 (Z.leb_le 0 i) Hi). by rewrite Hx. Qed.

Lemma idx_in_range {E A} (l : list A) i :
  0 <= i < len l -> exists x, @idx E A l i = Ok x /\ l !! Z.to_nat i = Some x.
Proof.
  intros Hi. destruct (lookup_lt_is_Some_2 l (Z.to_nat i)) as [x Hx].
  { unfold len in Hi. lia. }
  exists x. split; [|done]. apply idx_lookup; [lia|done].
Qed.

Lemma idx_Ok_inv {E A} (l : list A) i x :
  @idx E A l i = Ok x -> 0 <= i < len l /\ l !! Z.to_nat i = Some x.
Proof.
  unfold idx. destruct (Z.leb_spec 0 i); [|done].
  destruct (l !! Z.to_nat i) eqn:Hl; [|done]. intros [= ->].
  apply lookup_lt_Some in Hl as ?. unfold len. split; [lia|done].
Qed.

Lemma idx_no_panic {E A} (l : list A) i : 0 <= i < len l -> no_panic (@idx E A l i).
Proof. intros Hi. destruct (@idx_in_range E A l i Hi) as (x & -> & _). done. Qed.

Lemma idx_cons_0 {E A} (x : A) l : @idx E A (x :: l) 0 = Ok x.
Proof. done. Qed.

Lemma idx_app_r {E A} (l1 l2 : list A) i :
  len l1 <= i -> @idx E A (l1 ++ l2) i = idx l2 (i - len l1).
Proof.
  intros Hi. pose proof (len_nonneg l1). unfold idx.
  rewrite (proj2 (Z.leb_le 0 i)), (proj2 (Z.leb_le 0 (i - len l1))) by lia.
  rewrite lookup_app_r by (unfold len in *; lia).
  do 2 f_equal. by replace (Z.to_nat i - length l1)%nat with (Z.to_nat (i - len l1)) by (unfold len; lia).
Qed.

Lemma idx_app_l {E A} (l1 l2 : list A) i :
  0 <= i < len l1 -> @idx E A (l1 ++ l2) i = idx l1 i.
Proof.
  intros Hi. unfold idx. rewrite lookup_app_l by (unfold len in *; lia). done.
Qed.

Lemma idx_take {E A} (l : list A) n i :
  0 <= i < Z.of_nat n -> @idx E A (take n l) i = idx l i.
Proof. intros Hi. unfold idx. rewrite lookup_take_lt by lia. done. Qed.

Lemma idx_drop {E A} (l : list A) n i :
  0 <= i -> @idx E A (drop n l) i = idx l (Z.of_nat n + i).
Proof.
  intros Hi. unfold idx. rewrite lookup_drop.
  rewrite (proj2 (Z.leb_le 0 i)), (proj2 (Z.leb_le 0 (Z.of_nat n + i))) by lia.
  by replace (Z.to_nat (Z.of_nat n + i)) with (n + Z.to_nat i)%nat by lia.
Qed.

Lemma slice_Ok {E A} (l : list A) a b :
  0 <= a <= b -> b <= len l -> @slice E A l a b = Ok (sub l a b).
Proof.
  intros [? ?] ?. unfold slice.
  by rewrite (proj2 (Z.leb_le 0 a)), (proj2 (Z.leb_le a b)), (proj2 (Z.leb_le b (len l))).
Qed.

Lemma get_range_Some_iff {A} (l : list A) a b r :
  get_range l a b = Some r <-> (0 <= a <= b /\ b <= len l) /\ r = sub l a b.
Proof.
  unfold get_range.
  destruct (Z.leb_spec 0 a), (Z.leb_spec a b), (Z.leb_spec b (len l)); simpl;
    split; intros H'; naive_solver lia.
Qed.

Lemma get_range_Some {A} (l : list A) a b :
  0 <= a <= b -> b <= len l -> get_range l a b = Some (sub l a b).
Proof. intros. by apply get_range_Some_iff. Qed.

Lemma get_range_None_iff {A} (l : list A) a b :
  get_range l a b = None <-> ~ (0 <= a <= b /\ b <= len l).
Proof.
  destruct (get_range l a b) eqn:H.
  - apply get_range_Some_iff in H. naive_solver.
  - split; [intros _ Hr|done]. by rewrite get_range_Some in H by tauto.
Qed.

Lemma usub_Ok {E} a b : b <= a -> @usub E a b = Ok (a - b).
Proof. intros. unfold usub. by rewrite (proj2 (Z.leb_le b a)). Qed.

Lemma len_sub {A} (l : list A) a b : 0 <= a <= b -> b <= len l -> len (sub l a b) = b - a.
Proof. intros. unfold sub. rewrite len_take, len_drop. lia. Qed.

Lemma sub_full {A} (l : list A) : sub l 0 (len l) = l.
Proof. unfold sub. rewrite Z.sub_0_r, to_nat_len. simpl. by rewrite drop_0, firstn_all. Qed.

Lemma sub_app_mid {A} (l1 l2 l3 : list A) a b :
  a = len l1 -> b = len l1 + len l2 -> sub (l1 ++ l2 ++ l3) a b = l2.
Proof.
  intros -> ->. unfold sub.
  replace (Z.to_nat (len l1 + len l2 - len l1)) with (length l2) by (unfold len; lia).
  rewrite to_nat_len, drop_app_length. by rewrite take_app_length.
Qed.

Lemma sub_app_end {A} (l1 l2 : list A) a b :
  a = len l1 -> b = len l1 + len l2 -> sub (l1 ++ l2) a b = l2.
Proof. intros. rewrite <- (app_nil_r l2) at 1. by apply sub_app_mid. Qed.

Lemma sub_app_begin {A} (l1 l2 : list A) b : b = len l1 -> sub (l1 ++ l2) 0 b = l1.
Proof. intros. apply (sub_app_mid [] l1 l2); done. Qed.

Lemma bytes_ok_sub l a b : bytes_ok l -> bytes_ok (sub l a b).
Proof. intros. unfold sub, bytes_ok. by apply Forall_take, Forall_drop. Qed.

Lemma bytes_ok_app l1 l2 : bytes_ok (l1 ++ l2) <-> bytes_ok l1 /\ bytes_ok l2.
Proof. apply Forall_app. Qed.

Lemma bytes_ok_cons b l : bytes_ok (b :: l) <-> is_byte b /\ bytes_ok l.
Proof. apply Forall_cons. Qed.

Lemma bytes_ok_nil : bytes_ok [].
Proof. constructor. Qed.

Lemma bytes_ok_idx {E} l i b : bytes_ok l -> @idx E Z l i = Ok b -> is_byte b.
Proof.
  intros Hl [_ Hb]%idx_Ok_inv. unfold bytes_ok in Hl. rewrite Forall_lookup in Hl. eauto.
Qed.

(** Writing a packet front to back: [out] has been overwritten by [pre] so far. *)
Lemma copy_at_seq {E A} (pre out bs : list A) a :
  a = len pre -> len pre + len bs <= len out ->
  @copy_at E A (pre ++ drop (length pre) out) a bs =
  Ok ((pre ++ bs) ++ drop (length (pre ++ bs)) out).
Proof.
  intros -> Hle. pose proof (len_nonneg pre). pose proof (len_nonneg bs). unfold copy_at.
  rewrite (proj2 (Z.leb_le 0 (len pre))) by lia.
  rewrite (proj2 (Z.leb_le _ _)) by (rewrite len_app, len_drop; unfold len in *; lia). simpl.
  rewrite to_nat_len, take_app_length. f_equal. rewrite <- app_assoc. do 2 f_equal.
  rewrite drop_app_ge by (unfold len; lia). rewrite drop_drop. f_equal.
  rewrite length_app. unfold len. lia.
Qed.

Lemma copy_at_first {E A} (out bs : list A) :
  len bs <= len out -> @copy_at E A out 0 bs = Ok (bs ++ drop (length bs) out).
Proof. intros. exact (@copy_at_seq E A [] out bs 0 eq_refl H). Qed.

(** ** Big-endian integers *)

Lemma be_enc_length n x : length (be_enc n x) = n.
Proof. induction n; simpl; congruence. Qed.

Lemma len_be_enc n x : len (be_enc n x) = Z.of_nat n.
Proof. unfold len. by rewrite be_enc_length. Qed.

#[export] Hint Rewrite len_be_enc : len_db.

Lemma be_enc_bytes n x : bytes_ok (be_enc n x).
Proof. induction n; constructor; [apply Z.mod_pos_bound; lia|done]. Qed.

Lemma be_dec_acc_app acc l1 l2 : be_dec_acc acc (l1 ++ l2) = be_dec_acc (be_dec_acc acc l1) l2.
Proof. revert acc. induction l1; simpl; auto. Qed.

Lemma be_dec_acc_shift acc l : be_dec_acc acc l = acc * 256 ^ len l + be_dec l.
Proof.
  revert acc. induction l as [|b l IH]; intros acc.
  - unfold len, be_dec. simpl. lia.
  - change (be_dec (b :: l)) with (be_dec_acc b l). cbn [be_dec_acc].
    rewrite IH, (IH b), len_cons, Z.pow_add_r by (try apply len_nonneg; lia). lia.
Qed.

Lemma be_dec_cons b l : be_dec (b :: l) = b * 256 ^ len l + be_dec l.
Proof. change (be_dec (b :: l)) with (be_dec_acc b l). apply be_dec_acc_shift. Qed.

Lemma be_dec_bound l : bytes_ok l -> 0 <= be_dec l < 256 ^ len l.
Proof.
  induction 1 as [|b l Hb Hl IH]; [done|].
  rewrite be_dec_cons, len_cons, Z.pow_add_r by (try apply len_nonneg; lia).
  unfold is_byte in Hb. nia.
Qed.

Lemma be_dec_enc n x : be_dec (be_enc n x) = x mod 256 ^ Z.of_nat n.
Proof.
  induction n as [|n IH]; [simpl; by rewrite Z.mod_1_r|].
  cbn [be_enc]. rewrite be_dec_cons, IH, len_be_enc.
  replace (Z.of_nat (S n)) with (Z.of_nat n + 1) by lia.
  rewrite Z.pow_add_r, Z.pow_1_r by lia.
  rewrite Z.rem_mul_r by (try apply Z.pow_nonzero; lia). lia.
Qed.

Lemma be_dec_enc_fits n x : 0 <= x < 256 ^ Z.of_nat n -> be_dec (be_enc n x) = x.
Proof. intros. rewrite be_dec_enc. by apply Z.mod_small. Qed.

Lemma be_enc_add_high n m x y :
  Z.of_nat n <= m -> be_enc n (y * 256 ^ m + x) = be_enc n x.
Proof.
  induction n as [|n IH]; intros Hn; [done|]. cbn [be_enc]. rewrite IH by lia. f_equal.
  replace m with ((m - Z.of_nat n - 1) + 1 + Z.of_nat n) by lia.
  rewrite !Z.pow_add_r, Z.pow_1_r by lia.
  rewrite Z.mul_assoc, Z.div_add_l by (apply Z.pow_nonzero; lia).
  by rewrite Z.mul_assoc, Z.add_comm, Z.mod_add by lia.
Qed.

Lemma be_enc_dec l : bytes_ok l -> be_enc (length l) (be_dec l) = l.
Proof.
  induction 1 as [|b l Hb Hl IH]; [done|].
  cbn [length be_enc]. pose proof (be_dec_bound l Hl) as Hd. unfold is_byte in Hb.
  fold (len l). rewrite be_dec_cons.
  assert (0 < 256 ^ len l) by (apply Z.pow_pos_nonneg; [lia|apply len_nonneg]).
  f_equal.
  - rewrite Z.div_add_l, (Z.div_small (be_dec l)), Z.add_0_r by lia. apply Z.mod_small; lia.
  - rewrite be_enc_add_high by (unfold len; lia). done.
Qed.

Lemma be_enc_split n m x :
  be_enc (n + m) x = be_enc n (x / 256 ^ Z.of_nat m) ++ be_enc m x.
Proof.
  induction n as [|n IH]; [done|]. cbn [be_enc Nat.add app]. rewrite IH. f_equal.
  rewrite Z.div_div by (try apply Z.pow_nonzero; try apply Z.pow_pos_nonneg; lia).
  rewrite <- Z.pow_add_r by lia. do 3 f_equal. lia.
Qed.

(** ** Finite checks over bytes *)

(** A boolean fact about a byte is decided by running it on all 256 values. *)
Lemma byte_forall (P : Z -> bool) b :
  forallb P (seqZ 0 256) = true -> is_byte b -> P b = true.
Proof.
  intros H Hb. rewrite forallb_forall in H. apply H.
  apply list_elem_of_In, elem_of_seqZ. unfold is_byte in Hb. lia.
Qed.


(** A finite check on a bounded non-negative integer, counting in [Z]. *)
Fixpoint all_from (n : nat) (i : Z) (P : Z -> bool) : bool :=
  match n with O => true | S n => P i && all_from n (i + 1) P end.

Lemma below_forall (P : Z -> bool) n b :
  all_from (Z.to_nat n) 0 P = true -> 0 <= b < n -> P b = true.
Proof.
  assert (forall k i, all_from k i P = true -> i <= b < i + Z.of_nat k -> P b = true) as H.
  { induction k as [|k IH]; intros i H Hb; [lia|]. cbn [all_from] in H. apply andb_true_iff in H as [Hi H].
    destruct (decide (b = i)) as [->|]; [done|]. apply (IH (i + 1)); [done|lia]. }
  intros Ha Hb. apply (H (Z.to_nat n) 0); [done|lia].
Qed.

(** ** Cutting a buffer into consecutive fields *)

Lemma sub_split {A} (l : list A) a b c :
  0 <= a <= b -> b <= c -> sub l a c = sub l a b ++ sub l b c.
Proof.
  intros. unfold sub.
  replace (Z.to_nat (c - a)) with (Z.to_nat (b - a) + Z.to_nat (c - b))%nat by lia.
  rewrite <- (take_take_drop _ (Z.to_nat (b - a))), drop_drop.
  do 3 f_equal. lia.
Qed.

Lemma sub_nil {A} (l : list A) a : sub l a a = [].
Proof. unfold sub. by rewrite Z.sub_diag. Qed.

Lemma sub_one {E A} (l : list A) i x : @idx E A l i = Ok x -> sub l i (i + 1) = [x].
Proof.
  intros [Hi Hx]%idx_Ok_inv. unfold sub.
  replace (Z.to_nat (i + 1 - i)) with 1%nat by lia.
  rewrite (drop_S _ _ _ Hx). done.
Qed.

Lemma sub_app_r {A} (l1 l2 : list A) a b :
  len l1 <= a <= b -> sub (l1 ++ l2) a b = sub l2 (a - len l1) (b - len l1).
Proof.
  intros. pose proof (len_nonneg l1). unfold sub. rewrite drop_app_ge by (unfold len in *; lia).
  replace (Z.to_nat (b - len l1 - (a - len l1))) with (Z.to_nat (b - a)) by lia.
  do 2 f_equal. unfold len. lia.
Qed.

Lemma sub_app_l {A} (l1 l2 : list A) a b :
  0 <= a <= b -> b <= len l1 -> sub (l1 ++ l2) a b = sub l1 a b.
Proof.
  intros. unfold sub. rewrite drop_app_le by (unfold len in *; lia).
  rewrite take_app_le; [done|]. rewrite length_drop. unfold len in *. lia.
Qed.

Lemma sub_sub {A} (l : list A) a b c d :
  0 <= a <= b -> 0 <= c <= d -> d <= b - a -> sub (sub l a b) c d = sub l (a + c) (a + d).
Proof.
  intros. unfold sub. rewrite skipn_firstn_comm, take_take, drop_drop.
  f_equal; [|f_equal]; lia.
Qed.

Lemma idx_app_mid {E A} (l1 l2 : list A) x i :
  i = len l1 -> @idx E A (l1 ++ x :: l2) i = Ok x.
Proof. intros ->. rewrite idx_app_r by lia. by rewrite Z.sub_diag. Qed.

Lemma idx_sub {E A} (l : list A) a b i :
  0 <= a <= b -> b <= len l -> 0 <= i < b - a -> @idx E A (sub l a b) i = idx l (a + i).
Proof.
  intros. unfold sub. rewrite idx_take by lia. rewrite idx_drop by lia.
  f_equal. lia.
Qed.

Lemma be16_at_inv {E} l i w :
  bytes_ok l -> @be16_at E l i = Ok w ->
  0 <= i /\ i + 2 <= len l /\ sub l i (i + 2) = be_enc 2 w /\ fits 16 w.
Proof.
  intros Hl H. unfold be16_at in H.
  apply bind_Ok_inv in H as (a & Ha & H). apply bind_Ok_inv in H as (b & Hb & H).
  injection H as <-.
  pose proof (idx_Ok_inv _ _ _ Ha) as [? _]. pose proof (idx_Ok_inv _ _ _ Hb) as [? _].
  assert (Hok : bytes_ok [a; b]).
  { repeat constructor; eauto using bytes_ok_idx; eapply bytes_ok_idx; eauto. }
  rewrite (sub_split l i (i + 1)), (sub_one _ _ _ Ha) by lia.
  replace (i + 2) with (i + 1 + 1) by lia. rewrite (sub_one _ _ _ Hb).
  split; [lia|]. split; [lia|]. split.
  - exact (eq_sym (be_enc_dec [a; b] Hok)).
  - exact (be_dec_bound [a; b] Hok).
Qed.

Lemma be32_at_inv {E} l i w :
  bytes_ok l -> @be32_at E l i = Ok w ->
  0 <= i /\ i + 4 <= len l /\ sub l i (i + 4) = be_enc 4 w /\ fits 32 w.
Proof.
  intros Hl H. unfold be32_at in H.
  apply bind_Ok_inv in H as (a & Ha & H). apply bind_Ok_inv in H as (b & Hb & H).
  apply bind_Ok_inv in H as (c & Hc & H). apply bind_Ok_inv in H as (d & Hd & H).
  injection H as <-.
  pose proof (idx_Ok_inv _ _ _ Ha) as [? _]. pose proof (idx_Ok_inv _ _ _ Hd) as [? _].
  assert (Hok : bytes_ok [a; b; c; d]).
  { repeat constructor; eauto using bytes_ok_idx; eapply bytes_ok_idx; eauto. }
  rewrite (sub_split l i (i + 1)), (sub_one _ _ _ Ha) by lia.
  rewrite (sub_split l (i + 1) (i + 1 + 1)), (sub_one _ _ _ Hb) by lia.
  rewrite (sub_split l (i + 1 + 1) (i + 2 + 1)) by lia.
  replace (i + 1 + 1) with (i + 2) by lia. rewrite (sub_one _ _ _ Hc).
  replace (i + 2 + 1) with (i + 3) by lia. replace (i + 4) with (i + 3 + 1) by lia.
  rewrite (sub_one _ _ _ Hd).
  split; [lia|]. split; [lia|]. split.
  - exact (eq_sym (be_enc_dec [a; b; c; d] Hok)).
  - exact (be_dec_bound [a; b; c; d] Hok).
Qed.

Lemma be16_at_no_panic {E} l i : 0 <= i -> i + 2 <= len l -> no_panic (@be16_at E l i).
Proof.
  intros. unfold be16_at.
  destruct (@idx_in_range E Z l i) as (? & -> & _); [lia|].
  destruct (@idx_in_range E Z l (i + 1)) as (? & -> & _); [lia|]. done.
Qed.

Lemma be32_at_no_panic {E} l i : 0 <= i -> i + 4 <= len l -> no_panic (@be32_at E l i).
Proof.
  intros. unfold be32_at.
  destruct (@idx_in_range E Z l i) as (? & -> & _); [lia|].
  destruct (@idx_in_range E Z l (i + 1)) as (? & -> & _); [lia|].
  destruct (@idx_in_range E Z l (i + 2)) as (? & -> & _); [lia|].
  destruct (@idx_in_range E Z l (i + 3)) as (? & -> & _); [lia|]. done.
Qed.

Lemma be16_at_app {E} l1 l2 w i :
  i = len l1 -> fits 16 w -> @be16_at E (l1 ++ be_enc 2 w ++ l2) i = Ok w.
Proof.
  intros -> Hw. unfold be16_at. cbn [be_enc app].
  rewrite (idx_app_mid l1 _ _ (len l1) eq_refl). rewrite idx_app_r by lia.
  replace (len l1 + 1 - len l1) with 1 by lia. simpl.
  exact (f_equal Ok (be_dec_enc_fits 2 w Hw)).
Qed.

Lemma be32_at_app {E} l1 l2 w i :
  i = len l1 -> fits 32 w -> @be32_at E (l1 ++ be_enc 4 w ++ l2) i = Ok w.
Proof.
  intros -> Hw. unfold be32_at. cbn [be_enc app].
  rewrite (idx_app_mid l1 _ _ (len l1) eq_refl). rewrite !idx_app_r by lia.
  replace (len l1 + 1 - len l1) with 1 by lia.
  replace (len l1 + 2 - len l1) with 2 by lia.
  replace (len l1 + 3 - len l1) with 3 by lia. simpl.
  exact (f_equal Ok (be_dec_enc_fits 4 w Hw)).
Qed.

(** The byte at [i], 0 out of range; the total counterpart of [idx]. *)
Definition byte_of (l : bytes) (i : Z) : Z := nth (Z.to_nat i) l 0.

Lemma idx_byte_of {E} l i : 0 <= i < len l -> @idx E Z l i = Ok (byte_of l i).
Proof.
  intros Hi. destruct (@idx_in_range E Z l i Hi) as (x & -> & Hx). f_equal.
  unfold byte_of. symmetry. apply nth_lookup_Some with (d := 0) in Hx. done.
Qed.

Lemma sub_byte_of l i : 0 <= i < len l -> sub l i (i + 1) = [byte_of l i].
Proof. intros Hi. apply (@sub_one unit). by apply idx_byte_of. Qed.

Lemma byte_of_is_byte l i : bytes_ok l -> 0 <= i < len l -> is_byte (byte_of l i).
Proof. intros Hl Hi. eapply (@bytes_ok_idx unit); [done|]. by apply idx_byte_of. Qed.

Lemma byte_of_app_l l1 l2 i : 0 <= i < len l1 -> byte_of (l1 ++ l2) i = byte_of l1 i.
Proof. intros. unfold byte_of. apply app_nth1. unfold len in *. lia. Qed.

Lemma be16_at_sub {E} l i :
  0 <= i -> i + 2 <= len l -> @be16_at E l i = Ok (be_dec (sub l i (i + 2))).
Proof.
  intros. unfold be16_at. rewrite !idx_byte_of, !bind_Ok by lia.
  rewrite (sub_split l i (i + 1) (i + 2)), sub_byte_of by lia.
  replace (i + 2) with (i + 1 + 1) by lia. by rewrite sub_byte_of by lia.
Qed.

Lemma be32_at_sub {E} l i :
  0 <= i -> i + 4 <= len l -> @be32_at E l i = Ok (be_dec (sub l i (i + 4))).
Proof.
  intros. unfold be32_at. rewrite !idx_byte_of, !bind_Ok by lia.
  rewrite (sub_split l i (i + 1) (i + 4)), sub_byte_of by lia.
  rewrite (sub_split l (i + 1) (i + 1 + 1) (i + 4)), sub_byte_of by lia.
  replace (i + 1 + 1) with (i + 2) by lia.
  rewrite (sub_split l (i + 2) (i + 2 + 1) (i + 4)), sub_byte_of by lia.
  replace (i + 2 + 1) with (i + 3) by lia. replace (i + 4) with (i + 3 + 1) by lia.
  by rewrite sub_byte_of by lia.
Qed.

(** Overwriting a field in the middle of a buffer. *)
Lemma copy_at_mid {E A} (l1 old new l2 : list A) a :
  a = len l1 -> len old = len new ->
  @copy_at E A (l1 ++ old ++ l2) a new = Ok (l1 ++ new ++ l2).
Proof.
  intros -> Hl. pose proof (len_nonneg l1). pose proof (len_nonneg l2). unfold copy_at.
  rewrite (proj2 (Z.leb_le _ _)), (proj2 (Z.leb_le _ _)) by (rewrite ?len_app; lia).
  cbn [andb]. rewrite to_nat_len, take_app_length. do 2 f_equal.
  replace (Z.to_nat (len l1 + len new)) with (length (l1 ++ old))
    by (rewrite length_app; unfold len in *; lia).
  rewrite app_assoc, drop_app_length. done.
Qed.

(** ** Bit fields *)

Lemma testbit_above x n m : 0 <= x < 2 ^ n -> n <= m -> Z.testbit x m = false.
Proof.
  intros Hx Hm. destruct (Z.le_gt_cases 0 n).
  2: { rewrite Z.pow_neg_r in Hx by lia. lia. }
  destruct (decide (x = 0)) as [->|]; [apply Z.testbit_0_l|].
  apply Z.bits_above_log2; [lia|]. assert (Z.log2 x < n) by (apply Z.log2_lt_pow2; lia). lia.
Qed.

Lemma land_shiftl_disjoint x y n : 0 <= x < 2 ^ n -> Z.land x (Z.shiftl y n) = 0.
Proof.
  intros Hx. apply Z.bits_inj'. intros m Hm. rewrite Z.land_spec, Z.bits_0, Z.shiftl_spec by lia.
  destruct (Z.lt_ge_cases m n); [by rewrite (Z.testbit_neg_r y), andb_false_r by lia|].
  by rewrite (testbit_above x n m).
Qed.

(** Testing one bit. *)
Lemma land_pow2_eqb m d : 0 <= d -> negb (Z.land m (2 ^ d) =? 0) = Z.testbit m d.
Proof.
  intros Hd. destruct (Z.testbit m d) eqn:Hb.
  - apply negb_true_iff, Z.eqb_neq. intros H. apply (f_equal (fun x => Z.testbit x d)) in H.
    rewrite Z.land_spec, Hb, Z.pow2_bits_true, Z.bits_0 in H by lia. done.
  - apply negb_false_iff, Z.eqb_eq. apply Z.bits_inj'. intros n Hn.
    rewrite Z.land_spec, Z.bits_0, Z.pow2_bits_eqb by lia.
    destruct (Z.eqb_spec d n) as [->|]; [by rewrite Hb|by rewrite andb_false_r].
Qed.

Lemma shift_bit a x : 0 <= x -> negb (Z.land a (Z.shiftl 1 x) =? 0) = Z.testbit a x.
Proof. intros Hx. rewrite Z.shiftl_1_l. by apply land_pow2_eqb. Qed.

(** Joining a high and a low field: [(y << n) | x]. *)
Lemma lor_shiftl_add x y n : 0 <= n -> 0 <= x < 2 ^ n -> Z.lor (Z.shiftl y n) x = y * 2 ^ n + x.
Proof.
  intros Hn Hx. rewrite Z.lor_comm, <- Z.add_nocarry_lor by (by apply land_shiftl_disjoint).
  rewrite Z.shiftl_mul_pow2 by lia. lia.
Qed.

(** Masking with the top bit of an [n + 1]-bit value. *)
Lemma land_top_bit x n : 0 <= n -> 0 <= x < 2 ^ (n + 1) -> Z.land x (2 ^ n) = 2 ^ n * (x / 2 ^ n).
Proof.
  intros Hn Hx. rewrite <- Z.shiftr_div_pow2, Z.mul_comm, <- Z.shiftl_mul_pow2 by lia.
  rewrite <- (Z.mul_1_l (2 ^ n)), <- (Z.shiftl_mul_pow2 1) by lia.
  apply Z.bits_inj'. intros m Hm. rewrite Z.land_spec, !Z.shiftl_spec by lia.
  destruct (Z.lt_ge_cases m n).
  { by rewrite (Z.testbit_neg_r 1), (Z.testbit_neg_r (Z.shiftr x n)), andb_false_r by lia. }
  rewrite Z.shiftr_spec by lia. replace (m - n + n) with m by lia.
  destruct (decide (m = n)) as [->|]; [by rewrite Z.sub_diag, andb_true_r|].
  by rewrite (testbit_above x (n + 1) m) by lia.
Qed.

Lemma lxor_fits w x y : 0 <= w -> fits w x -> fits w y -> fits w (Z.lxor x y).
Proof.
  unfold fits. intros Hw Hx Hy. assert (0 <= Z.lxor x y) by (apply Z.lxor_nonneg; lia). split; [done|].
  destruct (decide (Z.lxor x y = 0)) as [->|]; [apply Z.pow_pos_nonneg; lia|].
  destruct (Z.lt_ge_cases (Z.lxor x y) (2 ^ w)); [done|]. exfalso.
  assert (w <= Z.log2 (Z.lxor x y)) by (apply Z.log2_le_pow2; lia).
  assert (Z.testbit (Z.lxor x y) (Z.log2 (Z.lxor x y)) = true) as Hb by (apply Z.bit_log2; lia).
  by rewrite Z.lxor_spec, !(testbit_above _ w) in Hb.
Qed.

Lemma lxor_cancel x y : Z.lxor (Z.lxor x y) y = x.
Proof. by rewrite Z.lxor_assoc, Z.lxor_nilpotent, Z.lxor_0_r. Qed.

Lemma zip_lxor_cancel l : forall k : list Z,
  (length l <= length k)%nat -> zip_with Z.lxor (zip_with Z.lxor l k) k = l.
Proof.
  induction l as [|x l IH]; intros [|y k] Hl; simpl in Hl; try done; try lia.
  cbn [zip_with]. by rewrite lxor_cancel, IH by lia.
Qed.

(** ** The last elements of a list *)

Definition last_n {A} (n : Z) (l : list A) : list A := drop (length l - Z.to_nat n) l.

Lemma length_last_n {A} n (l : list A) : 0 <= n -> len (last_n n l) = Z.min n (len l).
Proof. intros Hn. unfold last_n, len. rewrite length_drop. lia. Qed.

Lemma last_n_app {A} n (l m : list A) : n <= len m -> last_n n (l ++ m) = last_n n m.
Proof.
  intros Hn. unfold last_n, len in *. rewrite length_app. rewrite drop_app_ge by lia. f_equal. lia.
Qed.

Lemma last_n_short {A} n (l : list A) : len l <= n -> last_n n l = l.
Proof. intros Hn. unfold last_n, len in *. replace (length l - Z.to_nat n)%nat with 0%nat by lia. done. Qed.

Lemma last_n_cut {A} n (l m : list A) : 0 <= n -> last_n n (last_n n l ++ m) = last_n n (l ++ m).
Proof.
  intros Hn. unfold last_n. rewrite length_app, length_drop, length_app. destruct (Nat.le_gt_cases (length l) (Z.to_nat n)) as [Hle|Hgt].
  - replace (length l - Z.to_nat n)%nat with 0%nat by lia. rewrite drop_0, Nat.sub_0_r. done.
  - set (k := (length l - Z.to_nat n)%nat). replace (l ++ m) with (take k l ++ (drop k l ++ m)) by (by rewrite app_assoc, take_drop).
    rewrite (drop_app_ge (take k l)) by (rewrite length_take; unfold k; lia). f_equal. rewrite length_take. unfold k. lia.
Qed.

Lemma last_n_twice {A} n (l : list A) : 0 <= n -> last_n n (last_n n l) = last_n n l.
Proof. intros Hn. pose proof (last_n_cut n l [] Hn) as H. by rewrite !app_nil_r in H. Qed.

Lemma last_n_last {A} n (l m : list A) : 0 <= n -> last_n n (l ++ last_n n m) = last_n n (l ++ m).
Proof.
  intros Hn. destruct (Z.le_gt_cases (len m) n) as [Hle|Hgt]; [by rewrite (last_n_short n m)|].
  rewrite !last_n_app by (rewrite ?length_last_n by done; lia). by apply last_n_twice.
Qed.

Lemma sub_last_n {A} (l : list A) n a : 0 <= a <= len l -> 0 <= n -> sub l (a - Z.min a n) a = last_n n (take (Z.to_nat a) l).
Proof.
  intros Ha Hn. unfold sub, last_n, len in *. rewrite length_take, Nat.min_l by lia. rewrite skipn_firstn_comm. f_equal; [lia|]. f_equal. lia.
Qed.

Lemma set_at_insert {E A} (l : list A) i x : 0 <= i < len l -> @set_at E A l i x = Ok (<[Z.to_nat i := x]> l).
Proof.
  intros Hi. unfold set_at, copy_at. change (len [x]) with 1. rewrite (proj2 (Z.leb_le 0 i)), (proj2 (Z.leb_le (i + 1) _)) by lia. cbn [andb]. f_equal.
  rewrite insert_take_drop by (unfold len in Hi; lia). cbn [app]. do 3 f_equal. lia.
Qed.
