(* ===== verification/Utf8.v ===== *)
(** * UTF-8 as the Rust standard library validates it

    [std::str::from_utf8] and the position and length its error reports
    ([valid_up_to], [error_len]), for the components that receive text as bytes.
    The validator is structural in the input. *)

From S2P Require Import Prelude.
From stdpp Require Import base list numbers option.
From Stdlib Require Import Lia ZArith.

Open Scope Z_scope.

(** [Err]: the bytes before [valid_up_to] are valid; [error_len] is the length of
    the invalid sequence there, [None] when the input ends inside a character. *)
Inductive Utf8Result : Type :=
| Utf8Ok
| Utf8Err (valid_up_to : Z) (error_len : option Z).

(** [core::str::utf8_char_width] *)
Definition utf8_width (b : Z) : Z :=
  if b <? 0x80 then 1
  else if (0xC2 <=? b) && (b <=? 0xDF) then 2
  else if (0xE0 <=? b) && (b <=? 0xEF) then 3
  else if (0xF0 <=? b) && (b <=? 0xF4) then 4
  else 0.

Definition continuation (b : Z) : bool := (0x80 <=? b) && (b <=? 0xBF).

(** The ranges of the second byte: no overlong form, no surrogate, at most
    U+10FFFF. *)
Definition second_ok (b0 b1 : Z) : bool :=
  if b0 =? 0xE0 then (0xA0 <=? b1) && (b1 <=? 0xBF)
  else if b0 =? 0xED then (0x80 <=? b1) && (b1 <=? 0x9F)
  else if b0 =? 0xF0 then (0x90 <=? b1) && (b1 <=? 0xBF)
  else if b0 =? 0xF4 then (0x80 <=? b1) && (b1 <=? 0x8F)
  else continuation b1.

Fixpoint utf8_run (index : Z) (l : bytes) : Utf8Result :=
  match l with
  | [] => Utf8Ok
  | b0 :: l1 =>
      if utf8_width b0 =? 1 then utf8_run (index + 1) l1 else
      if utf8_width b0 =? 0 then Utf8Err index (Some 1) else
      match l1 with
      | [] => Utf8Err index None
      | b1 :: l2 =>
          if negb (second_ok b0 b1) then Utf8Err index (Some 1) else
          if utf8_width b0 =? 2 then utf8_run (index + 2) l2 else
          match l2 with
          | [] => Utf8Err index None
          | b2 :: l3 =>
              if negb (continuation b2) then Utf8Err index (Some 2) else
              if utf8_width b0 =? 3 then utf8_run (index + 3) l3 else
              match l3 with
              | [] => Utf8Err index None
              | b3 :: l4 =>
                  if negb (continuation b3) then Utf8Err index (Some 3) else utf8_run (index + 4) l4
              end
          end
      end
  end.

Definition utf8_valid (l : bytes) : Prop := utf8_run 0 l = Utf8Ok.

Definition from_utf8 (l : bytes) : option bytes := match utf8_run 0 l with Utf8Ok => Some l | _ => None end.

(** ** Characters *)

(** One encoded character. *)
Definition char_ok (c : bytes) : bool :=
  match c with
  | [b0] => utf8_width b0 =? 1
  | [b0; b1] => (utf8_width b0 =? 2) && second_ok b0 b1
  | [b0; b1; b2] => (utf8_width b0 =? 3) && second_ok b0 b1 && continuation b2
  | [b0; b1; b2; b3] => (utf8_width b0 =? 4) && second_ok b0 b1 && continuation b2 && continuation b3
  | _ => false
  end.

(** Unfold the four shapes of a character. *)
Ltac char_inv H :=
  cbn [app char_ok] in H; try discriminate H; rewrite ?andb_true_iff, ?Z.eqb_eq in H; destruct_and?.

Ltac char_cases H :=
  match type of H with
  | char_ok ?c = true => destruct c as [|?b0 [|?b1 [|?b2 [|?b3 [|]]]]]; char_inv H
  end.

Lemma width_cases b : utf8_width b = 0 \/ utf8_width b = 1 \/ utf8_width b = 2 \/ utf8_width b = 3 \/ utf8_width b = 4.
Proof. unfold utf8_width. repeat case_match; lia. Qed.

Lemma char_len c : char_ok c = true -> 1 <= len c <= 4.
Proof. intros H. char_cases H; unfold len; cbn [length]; lia. Qed.

Lemma char_width c b r : char_ok c = true -> c = b :: r -> utf8_width b = len c.
Proof. intros H Hc. char_cases H; injection Hc as <- <-; unfold len; cbn [length]; lia. Qed.

(** The validator steps over a character. *)
Lemma run_char i c l : char_ok c = true -> utf8_run i (c ++ l) = utf8_run (i + len c) l.
Proof.
  intros H. char_cases H; cbn [app utf8_run];
    repeat match goal with
    | Hw : utf8_width ?b = _ |- context [utf8_width ?b] => rewrite Hw
    | Hs : second_ok ?a ?b = true |- context [second_ok ?a ?b] => rewrite Hs
    | Hc : continuation ?b = true |- context [continuation ?b] => rewrite Hc
    end; done.
Qed.

Lemma run_chars cs : forall i l, Forall (fun c => char_ok c = true) cs ->
  utf8_run i (concat cs ++ l) = utf8_run (i + len (concat cs)) l.
Proof.
  induction cs as [|c cs IH]; intros i l Hc; cbn [concat].
  - by rewrite len_nil, Z.add_0_r.
  - apply Forall_cons_1 in Hc as [Hc Hcs]. rewrite <- app_assoc, run_char, IH, len_app by done. f_equal. lia.
Qed.

(** A proper non-empty prefix of a character is reported as incomplete. *)
Lemma run_prefix i p q : char_ok (p ++ q) = true -> p <> [] -> q <> [] -> utf8_run i p = Utf8Err i None.
Proof.
  intros H Hp Hq. destruct p as [|b0 [|b1 [|b2 [|b3 p]]]]; [done| | | |].
  - destruct q as [|b1 [|b2 [|b3 [|]]]]; [done|..]; char_inv H; cbn [utf8_run];
      by match goal with Hw : utf8_width _ = _ |- _ => rewrite Hw end.
  - destruct q as [|b2 [|b3 [|]]]; [done|..]; char_inv H; cbn [utf8_run];
      match goal with Hw : utf8_width _ = _, Hs : second_ok _ _ = true |- _ => by rewrite Hw, Hs end.
  - destruct q as [|b3 [|]]; [done|..]; char_inv H; cbn [utf8_run];
      match goal with Hw : utf8_width _ = _, Hs : second_ok _ _ = true, Hc : continuation _ = true |- _ =>
        by rewrite Hw, Hs, Hc end.
  - destruct p as [|b4 p], q as [|b5 q]; char_inv H; done.
Qed.

(** What the validator says about any input: characters up to a point, and what
    follows there. *)
Definition run_view (i : Z) (l : bytes) (r : Utf8Result) : Prop :=
  exists cs tail, Forall (fun c => char_ok c = true) cs /\ l = concat cs ++ tail /\
    match r with
    | Utf8Ok => tail = []
    | Utf8Err v (Some bad) => v = i + len (concat cs) /\ 1 <= bad <= 3 /\ bad <= len tail
    | Utf8Err v None => v = i + len (concat cs) /\ 1 <= len tail <= 3 /\
        utf8_width (byte_of tail 0) > len tail /\ utf8_run 0 tail = Utf8Err 0 None
    end.

Lemma run_view_char i c l r : char_ok c = true -> run_view (i + len c) l r -> run_view i (c ++ l) r.
Proof.
  intros Hc (cs & tail & Hcs & -> & Hr). exists (c :: cs), tail. split; [by constructor|].
  split; [cbn [concat]; by rewrite app_assoc|]. cbn [concat]. rewrite len_app.
  destruct r as [|v [bad|]]; [done| |].
  - destruct Hr as (-> & Hb & Hl). split_and!; [lia|lia|lia|done].
  - destruct Hr as (-> & Hb & Hw & Hr). split_and!; [lia|lia|lia|done|done].
Qed.

Lemma run_view_bad i l bad : 1 <= bad <= 3 -> bad <= len l -> run_view i l (Utf8Err i (Some bad)).
Proof. intros Hb Hl. exists [], l. split; [constructor|]. split; [done|]. cbn [concat]. rewrite len_nil. lia. Qed.

Lemma run_spec l : forall i, run_view i l (utf8_run i l).
Proof.
  assert (forall n l i, (length l < n)%nat -> run_view i l (utf8_run i l)) as H; [|intros i; apply (H (S (length l))); lia].
  clear l. induction n as [|n IH]; intros l i Hl; [lia|]. destruct l as [|b0 l1].
  { exists [], []. split; [constructor|]. done. }
  assert (forall c l', char_ok c = true -> b0 :: l1 = c ++ l' -> run_view i (b0 :: l1) (utf8_run (i + len c) l')) as Hchar.
  { intros c l' Hc Heq. rewrite Heq. apply run_view_char; [done|]. apply IH.
    apply (f_equal length) in Heq. rewrite length_app in Heq. pose proof (char_len c Hc). unfold len in *. lia. }
  assert (forall t, b0 :: l1 = t -> 1 <= len t <= 3 -> utf8_width b0 > len t -> utf8_run 0 t = Utf8Err 0 None ->
    run_view i (b0 :: l1) (Utf8Err i None)) as Hinc.
  { intros t <- Ht Hw Hr. exists [], (b0 :: l1). split; [constructor|]. cbn [concat app]. rewrite len_nil.
    split_and!; done || lia. }
  cbn [utf8_run]. destruct (Z.eqb_spec (utf8_width b0) 1) as [H1|H1].
  { apply (Hchar [b0]); [by apply Z.eqb_eq|done]. }
  destruct (Z.eqb_spec (utf8_width b0) 0) as [H0|H0].
  { apply run_view_bad; rewrite ?len_cons; pose proof (len_nonneg l1); lia. }
  pose proof (width_cases b0) as Hw. destruct l1 as [|b1 l2].
  { apply (Hinc [b0]); [done|done|change (len [b0]) with 1; lia|]. cbn [utf8_run].
    by rewrite (proj2 (Z.eqb_neq _ _) H1), (proj2 (Z.eqb_neq _ _) H0). }
  destruct (second_ok b0 b1) eqn:Hs; cbn [negb].
  2: { apply run_view_bad; rewrite ?len_cons; pose proof (len_nonneg l2); lia. }
  destruct (Z.eqb_spec (utf8_width b0) 2) as [H2|H2].
  { apply (Hchar [b0; b1]); [cbn [char_ok]; by rewrite H2, Hs|done]. }
  destruct l2 as [|b2 l3].
  { apply (Hinc [b0; b1]); [done|done|change (len [b0; b1]) with 2; lia|]. cbn [utf8_run].
    by rewrite (proj2 (Z.eqb_neq _ _) H1), (proj2 (Z.eqb_neq _ _) H0), Hs, (proj2 (Z.eqb_neq _ _) H2). }
  destruct (continuation b2) eqn:Hc2; cbn [negb].
  2: { apply run_view_bad; rewrite ?len_cons; pose proof (len_nonneg l3); lia. }
  destruct (Z.eqb_spec (utf8_width b0) 3) as [H3|H3].
  { apply (Hchar [b0; b1; b2]); [cbn [char_ok]; by rewrite H3, Hs, Hc2|done]. }
  destruct l3 as [|b3 l4].
  { apply (Hinc [b0; b1; b2]); [done|done|change (len [b0; b1; b2]) with 3; lia|]. cbn [utf8_run].
    by rewrite (proj2 (Z.eqb_neq _ _) H1), (proj2 (Z.eqb_neq _ _) H0), Hs, (proj2 (Z.eqb_neq _ _) H2), Hc2,
      (proj2 (Z.eqb_neq _ _) H3). }
  destruct (continuation b3) eqn:Hc3; cbn [negb].
  2: { apply run_view_bad; rewrite ?len_cons; pose proof (len_nonneg l4); lia. }
  apply (Hchar [b0; b1; b2; b3]); [|done]. cbn [char_ok]. rewrite Hs, Hc2, Hc3, !andb_true_r. apply Z.eqb_eq. lia.
Qed.

Lemma valid_chars l : utf8_valid l <-> exists cs, Forall (fun c => char_ok c = true) cs /\ l = concat cs.
Proof.
  unfold utf8_valid. split.
  - intros H. destruct (run_spec l 0) as (cs & tail & Hc & Hl & Hr). rewrite H in Hr. subst tail.
    exists cs. by rewrite app_nil_r in Hl.
  - intros (cs & Hc & ->). rewrite <- (app_nil_r (concat cs)), run_chars by done. done.
Qed.

Lemma valid_app a b : utf8_valid a -> utf8_valid b -> utf8_valid (a ++ b).
Proof.
  rewrite !valid_chars. intros (ca & Ha & ->) (cb & Hb & ->). exists (ca ++ cb).
  split; [by apply Forall_app|by rewrite concat_app].
Qed.

Lemma valid_app_inv a b : utf8_valid a -> utf8_valid (a ++ b) -> utf8_valid b.
Proof.
  intros Ha Hab. apply valid_chars in Ha as (ca & Ha & ->). apply valid_chars in Hab as (cs & Hcs & Hab).
  revert cs Hcs Hab. induction Ha as [|c ca Hc Ha IH]; intros cs Hcs Hab; cbn [concat app] in Hab.
  { apply valid_chars. by exists cs. }
  destruct Hcs as [|c' cs Hc' Hcs].
  { destruct c; [done|done]. }
  cbn [concat] in Hab. rewrite <- app_assoc in Hab. assert (c = c') as <-.
  { pose proof (char_len c Hc). pose proof (char_len c' Hc'). destruct c as [|x c], c' as [|x' c']; [done..|].
    pose proof Hab as Hb. injection Hb as -> _. pose proof (char_width _ _ _ Hc eq_refl). pose proof (char_width _ _ _ Hc' eq_refl).
    apply app_inj_1 in Hab as [? _]; [done|]. unfold len in *. lia. }
  apply app_inv_head in Hab. by apply (IH cs).
Qed.

Lemma valid_ascii l : Forall (fun b => 0 <= b < 0x80) l -> utf8_valid l.
Proof.
  intros H. apply valid_chars. exists ((fun b => [b]) <$> l). split.
  - induction H as [|b l Hb Hl IH]; constructor; [|exact IH]. cbn. unfold utf8_width.
    by rewrite (proj2 (Z.ltb_lt _ _)) by lia.
  - clear H. induction l as [|b l IH]; [done|]. cbn [fmap list_fmap concat app]. by f_equal.
Qed.
