(* ===== verification/Rtp.v ===== *)
(** * RTP packets: crates/siphon-rtp-media/src/rtp.rs

    [RtpPacket_parse] reads a datagram without copying, [write_packet_with_csrcs]
    writes one into a caller-owned buffer.  [rtp_wire] states the RFC 3550
    section 5.1 layout on its own, independently of the two functions; the
    theorems say that the parser accepts exactly the datagrams of that layout,
    never panics on any byte string, and inverts the writer. *)

From S2P Require Import Prelude.
From stdpp Require Import base list numbers option.
From Stdlib Require Import Lia ZArith.

Open Scope Z_scope.

Inductive RtpError : Type :=
| TooShort
| BadVersion (version : Z)
| BadPadding
| OutputTooSmall (needed have : Z)
| TooManyCsrcs (count max : Z).

Definition RTP_VERSION : Z := 2.
Definition FIXED_HEADER_LEN : Z := 12.
Definition MAX_CSRC_COUNT : Z := 15.

Record RtpPacket : Type := mkRtpPacket {
  rp_marker : bool;
  rp_payload_type : Z;
  rp_sequence : Z;
  rp_timestamp : Z;
  rp_ssrc : Z;
  rp_csrc_count : Z;
  rp_csrcs : bytes;
  rp_payload : bytes
}.

Record RtpHeader : Type := mkRtpHeader {
  rh_marker : bool;
  rh_payload_type : Z;
  rh_sequence : Z;
  rh_timestamp : Z;
  rh_ssrc : Z
}.

(** ** Parsing *)

Definition RtpPacket_parse (buffer : bytes) : res RtpError RtpPacket :=
  if len buffer <? FIXED_HEADER_LEN then Err TooShort else
  byte0 ← idx buffer 0;
  let version := Z.shiftr byte0 6 in
  if negb (version =? RTP_VERSION) then Err (BadVersion version) else
  let has_padding := negb (Z.land byte0 0x20 =? 0) in
  let has_extension := negb (Z.land byte0 0x10 =? 0) in
  let csrc_count := Z.land byte0 0x0F in
  byte1 ← idx buffer 1;
  let marker := negb (Z.land byte1 0x80 =? 0) in
  let payload_type := Z.land byte1 0x7F in
  sequence ← be16_at buffer 2;
  timestamp ← be32_at buffer 4;
  ssrc ← be32_at buffer 8;
  let csrc_bytes := 4 * csrc_count in
  let offset := FIXED_HEADER_LEN + csrc_bytes in
  if len buffer <? offset then Err TooShort else
  csrcs ← slice buffer FIXED_HEADER_LEN offset;
  offset ← (if has_extension then
              if len buffer <? offset + 4 then Err TooShort else
              words ← be16_at buffer (offset + 2);
              let offset := offset + (4 + words * 4) in
              if len buffer <? offset then Err TooShort else mret offset
            else mret offset);
  end_ ← (if has_padding then
            last ← usub (len buffer) 1;
            pad ← idx buffer last;
            if pad =? 0 then Err BadPadding else
            room ← usub (len buffer) offset;
            if room <? pad then Err BadPadding else usub (len buffer) pad
          else mret (len buffer));
  payload ← slice buffer offset end_;
  mret (mkRtpPacket marker payload_type sequence timestamp ssrc csrc_count csrcs payload).

(** The [index]-th contributing source; [checked_mul] fails only past [usize]. *)
Definition RtpPacket_csrc (p : RtpPacket) (index : Z) : option Z :=
  let start := index * 4 in
  if 2 ^ 64 <=? start then None else
  match get_range (rp_csrcs p) start (start + 4) with
  | Some b => Some (be_dec b)
  | None => None
  end.

(** ** Construction *)

(** The [for (index, csrc) in csrcs.iter().enumerate()] loop of the writer. *)
Fixpoint write_csrcs (index : Z) (csrcs : list Z) (out : bytes) : res RtpError bytes :=
  match csrcs with
  | [] => mret out
  | csrc :: rest =>
      let start := FIXED_HEADER_LEN + index * 4 in
      out ← copy_at out start (be_enc 4 csrc);
      write_csrcs (index + 1) rest out
  end.

(** Returns the length written and the new contents of [out]. *)
Definition write_packet_with_csrcs (header : RtpHeader) (csrcs : list Z) (payload out : bytes)
  : res RtpError (Z * bytes) :=
  if MAX_CSRC_COUNT <? len csrcs then Err (TooManyCsrcs (len csrcs) MAX_CSRC_COUNT) else
  let csrc_bytes := len csrcs * 4 in
  let total := FIXED_HEADER_LEN + csrc_bytes + len payload in
  if len out <? total then Err (OutputTooSmall total (len out)) else
  out ← set_at out 0
          (Z.lor (Z.shiftl RTP_VERSION 6) (Z.land (wrap 8 (len csrcs)) 0x0F));
  out ← set_at out 1
          (Z.lor (Z.shiftl (b2z (rh_marker header)) 7) (Z.land (rh_payload_type header) 0x7F));
  out ← copy_at out 2 (be_enc 2 (rh_sequence header));
  out ← copy_at out 4 (be_enc 4 (rh_timestamp header));
  out ← copy_at out 8 (be_enc 4 (rh_ssrc header));
  out ← write_csrcs 0 csrcs out;
  out ← copy_at out (FIXED_HEADER_LEN + csrc_bytes) payload;
  mret (total, out).

Definition write_packet (header : RtpHeader) (payload out : bytes) : res RtpError (Z * bytes) :=
  write_packet_with_csrcs header [] payload out.

(** ** The wire layout of RFC 3550 section 5.1 *)

Definition header_bytes (pad ext : bool) (p : RtpPacket) : bytes :=
  [128 + 32 * b2z pad + 16 * b2z ext + rp_csrc_count p;
   128 * b2z (rp_marker p) + rp_payload_type p]
  ++ be_enc 2 (rp_sequence p) ++ be_enc 4 (rp_timestamp p) ++ be_enc 4 (rp_ssrc p).

(** The extension: profile word, length in words, body; absent without the X bit. *)
Definition ext_wire (ext : bool) (e : bytes) : Prop :=
  if ext then exists prof body, len prof = 2 /\ len body mod 4 = 0 /\ len body / 4 < 65536 /\
                e = prof ++ be_enc 2 (len body / 4) ++ body
  else e = [].

(** Padding ends in its own count; absent without the P bit. *)
Definition pad_wire (pad : bool) (d : bytes) : Prop :=
  if pad then exists d', d = d' ++ [len d] else d = [].

Definition packet_ok (p : RtpPacket) : Prop :=
  0 <= rp_payload_type p < 128 /\ fits 16 (rp_sequence p) /\ fits 32 (rp_timestamp p) /\
  fits 32 (rp_ssrc p) /\ 0 <= rp_csrc_count p < 16 /\
  len (rp_csrcs p) = 4 * rp_csrc_count p.

Definition rtp_wire (buffer : bytes) (p : RtpPacket) : Prop :=
  packet_ok p /\
  exists pad ext e d, ext_wire ext e /\ pad_wire pad d /\
    buffer = header_bytes pad ext p ++ rp_csrcs p ++ e ++ rp_payload p ++ d.

(** ** Bit-level facts, decided on all 256 bytes *)

Lemma byte0_split b :
  is_byte b -> Z.shiftr b 6 = 2 ->
  b = 128 + 32 * b2z (negb (Z.land b 0x20 =? 0)) + 16 * b2z (negb (Z.land b 0x10 =? 0))
      + Z.land b 0x0F.
Proof.
  intros Hb Hv.
  pose proof (byte_forall (fun b => implb (Z.shiftr b 6 =? 2)
    (b =? 128 + 32 * b2z (negb (Z.land b 0x20 =? 0)) + 16 * b2z (negb (Z.land b 0x10 =? 0))
      + Z.land b 0x0F)) b ltac:(vm_compute; reflexivity) Hb) as H. simpl in H.
  rewrite Hv in H. by apply Z.eqb_eq in H.
Qed.

Lemma byte1_split b :
  is_byte b -> b = 128 * b2z (negb (Z.land b 0x80 =? 0)) + Z.land b 0x7F.
Proof.
  intros Hb. apply Z.eqb_eq.
  apply (byte_forall (fun b => b =? 128 * b2z (negb (Z.land b 0x80 =? 0)) + Z.land b 0x7F));
    [vm_compute; reflexivity|done].
Qed.

Lemma land_low_bound b n : 0 <= n -> 0 <= Z.land b (Z.ones n) < 2 ^ n.
Proof. intros. rewrite Z.land_ones by lia. apply Z.mod_pos_bound. lia. Qed.

(** The first header byte, taken apart again. *)
Lemma byte0_fields pad ext cc :
  0 <= cc < 16 ->
  let b := 128 + 32 * b2z pad + 16 * b2z ext + cc in
  Z.shiftr b 6 = 2 /\ negb (Z.land b 0x20 =? 0) = pad /\
  negb (Z.land b 0x10 =? 0) = ext /\ Z.land b 0x0F = cc.
Proof.
  intros Hcc b.
  pose proof (below_forall (fun cc => forallb (fun pad => forallb (fun ext =>
    let b := 128 + 32 * b2z pad + 16 * b2z ext + cc in
    (Z.shiftr b 6 =? 2) && Bool.eqb (negb (Z.land b 0x20 =? 0)) pad &&
    Bool.eqb (negb (Z.land b 0x10 =? 0)) ext && (Z.land b 0x0F =? cc)) [true; false])
    [true; false]) 16 cc ltac:(vm_compute; reflexivity) Hcc) as H.
  rewrite forallb_forall in H. specialize (H pad ltac:(destruct pad; simpl; auto)).
  rewrite forallb_forall in H. specialize (H ext ltac:(destruct ext; simpl; auto)).
  fold b in H. rewrite !andb_true_iff, !Z.eqb_eq, !eqb_true_iff in H. tauto.
Qed.

Lemma byte1_fields m pt :
  0 <= pt < 128 ->
  let b := 128 * b2z m + pt in
  negb (Z.land b 0x80 =? 0) = m /\ Z.land b 0x7F = pt.
Proof.
  intros Hpt b.
  pose proof (below_forall (fun pt => forallb (fun m =>
    let b := 128 * b2z m + pt in
    Bool.eqb (negb (Z.land b 0x80 =? 0)) m && (Z.land b 0x7F =? pt)) [true; false])
    128 pt ltac:(vm_compute; reflexivity) Hpt) as H.
  rewrite forallb_forall in H. specialize (H m ltac:(destruct m; simpl; auto)).
  fold b in H. rewrite !andb_true_iff, !Z.eqb_eq, !eqb_true_iff in H. tauto.
Qed.

(** ** The parser produces the layout *)

Lemma parse_ext_wire buffer offset (ext : bool) offset2 :
  bytes_ok buffer -> 0 <= offset <= len buffer ->
  (if ext then
     if len buffer <? offset + 4 then Err TooShort else
     words ← be16_at buffer (offset + 2);
     let offset := offset + (4 + words * 4) in
     if len buffer <? offset then Err TooShort else mret offset
   else mret offset) = Ok offset2 ->
  offset <= offset2 <= len buffer /\ ext_wire ext (sub buffer offset offset2).
Proof.
  intros Hb Ho H. destruct ext; simpl in H.
  - destruct (Z.ltb_spec (len buffer) (offset + 4)); [done|].
    bind_inv H words Hw. simpl in H.
    apply be16_at_inv in Hw as (_ & _ & Hs & Hw); [|done]. unfold fits in Hw.
    destruct (Z.ltb_spec (len buffer) (offset + (4 + words * 4))); [done|].
    injection H as <-. split; [lia|].
    exists (sub buffer offset (offset + 2)),
      (sub buffer (offset + 4) (offset + (4 + words * 4))).
    rewrite !len_sub by lia.
    replace (offset + (4 + words * 4) - (offset + 4)) with (words * 4) by lia.
    rewrite Z.mod_mul, Z.div_mul by lia. do 3 (split; [lia|]).
    rewrite <- Hs. rewrite (sub_split _ offset (offset + 2)) by lia. f_equal.
    replace (offset + 4) with (offset + 2 + 2) by lia. apply sub_split; lia.
  - injection H as <-. split; [lia|]. simpl. apply sub_nil.
Qed.

Lemma parse_pad_wire buffer offset (pad : bool) end_ :
  bytes_ok buffer -> 0 <= offset <= len buffer ->
  (if pad then
     last ← usub (len buffer) 1;
     padn ← idx buffer last;
     if padn =? 0 then Err BadPadding else
     room ← usub (len buffer) offset;
     if room <? padn then Err BadPadding else usub (len buffer) padn
   else mret (len buffer)) = Ok end_ ->
  offset <= end_ <= len buffer /\ pad_wire pad (sub buffer end_ (len buffer)).
Proof.
  intros Hb Ho H. destruct pad; simpl in H.
  - bind_inv H last Hl. bind_inv H padn Hp.
    unfold usub in Hl. destruct (Z.leb_spec 1 (len buffer)); [|done]. injection Hl as <-.
    destruct (Z.eqb_spec padn 0); [done|]. rewrite (usub_Ok (len buffer) offset) in H by lia. simpl in H.
    destruct (Z.ltb_spec (len buffer - offset) padn); [done|].
    pose proof (bytes_ok_idx _ _ _ Hb Hp) as Hpb. unfold is_byte in Hpb.
    rewrite usub_Ok in H by lia. injection H as <-. split; [lia|].
    exists (sub buffer (len buffer - padn) (len buffer - 1)).
    rewrite len_sub by lia. rewrite Z.sub_sub_distr, Z.sub_diag, Z.add_0_l.
    rewrite <- (sub_one _ _ _ Hp), <- sub_split by lia. f_equal. lia.
  - injection H as <-. split; [lia|]. simpl. apply sub_nil.
Qed.

Lemma RtpPacket_parse_sound buffer p :
  bytes_ok buffer -> RtpPacket_parse buffer = Ok p -> rtp_wire buffer p.
Proof.
  intros Hb H. unfold RtpPacket_parse in H.
  destruct (Z.ltb_spec (len buffer) FIXED_HEADER_LEN) as [|Hlen]; [done|].
  bind_inv H b0 H0. simpl in H.
  destruct (Z.eqb_spec (Z.shiftr b0 6) RTP_VERSION) as [Hver|]; [|done]. simpl in H.
  bind_inv H b1 H1. bind_inv H seq Hseq. bind_inv H ts Hts. bind_inv H ssrc Hssrc. simpl in H.
  pose proof (bytes_ok_idx _ _ _ Hb H0) as Hb0. pose proof (bytes_ok_idx _ _ _ Hb H1) as Hb1.
  apply be16_at_inv in Hseq as (_ & _ & Hsseq & Hseq); [|done].
  apply be32_at_inv in Hts as (_ & _ & Hsts & Hts); [|done].
  apply be32_at_inv in Hssrc as (_ & _ & Hsssrc & Hssrc); [|done].
  pose proof (land_low_bound b0 4 ltac:(lia)) as Hcc. change (Z.ones 4) with 0x0F in Hcc.
  pose proof (land_low_bound b1 7 ltac:(lia)) as Hpt. change (Z.ones 7) with 0x7F in Hpt.
  set (cc := Z.land b0 0x0F) in *.
  unfold FIXED_HEADER_LEN in *.
  destruct (Z.ltb_spec (len buffer) (12 + 4 * cc)); [done|].
  rewrite slice_Ok in H by lia. rewrite bind_Ok in H.
  bind_inv H o2 Hext. apply parse_ext_wire in Hext as [Ho2 Hext]; [|done|lia].
  bind_inv H e2 Hpad. apply parse_pad_wire in Hpad as [He2 Hpad]; [|done|lia].
  rewrite slice_Ok in H by lia. injection H as <-.
  split; [unfold packet_ok, fits in *; simpl; rewrite len_sub by lia; lia|].
  exists (negb (Z.land b0 0x20 =? 0)), (negb (Z.land b0 0x10 =? 0)),
    (sub buffer (12 + 4 * cc) o2), (sub buffer e2 (len buffer)).
  split; [done|]. split; [done|]. unfold header_bytes. cbn [rp_csrc_count rp_marker
    rp_payload_type rp_sequence rp_timestamp rp_ssrc rp_csrcs rp_payload].
  subst cc. rewrite <- (byte0_split b0 Hb0 Hver), <- (byte1_split b1 Hb1).
  rewrite <- Hsseq, <- Hsts, <- Hsssrc. rewrite <- (sub_full buffer) at 1.
  rewrite (sub_split buffer 0 1), (sub_split buffer 1 2), (sub_split buffer 2 4),
    (sub_split buffer 4 8), (sub_split buffer 8 12), (sub_split buffer 12 (12 + 4 * Z.land b0 15)),
    (sub_split buffer (12 + 4 * Z.land b0 15) o2), (sub_split buffer o2 e2) by lia.
  rewrite (sub_one _ _ _ H0 : sub buffer 0 1 = _), (sub_one _ _ _ H1 : sub buffer 1 2 = _).
  simpl. by rewrite <- !app_assoc.
Qed.

(** ** The layout is accepted *)

Lemma ext_wire_parse pre ext e post :
  ext_wire ext e ->
  (if ext then
     if len (pre ++ e ++ post) <? len pre + 4 then Err TooShort else
     words ← be16_at (pre ++ e ++ post) (len pre + 2);
     let offset := len pre + (4 + words * 4) in
     if len (pre ++ e ++ post) <? offset then Err TooShort else mret offset
   else mret (len pre)) = Ok (len pre + len e).
Proof.
  pose proof (len_nonneg pre). pose proof (len_nonneg post).
  destruct ext; cbn [ext_wire].
  - intros (prof & body & Hprof & Hmod & Hdiv & ->). pose proof (len_nonneg body).
    rewrite !len_app, len_be_enc.
    destruct (Z.ltb_spec (len pre + (len prof + (Z.of_nat 2 + len body) + len post)) (len pre + 4));
      [lia|].
    rewrite <- !(app_assoc prof), (app_assoc pre prof), <- (app_assoc (be_enc 2 _)).
    rewrite be16_at_app; [|rewrite len_app; lia|unfold fits; split; [apply Z.div_pos|]; lia].
    rewrite bind_Ok. cbv zeta. pose proof (Z.div_mod (len body) 4 ltac:(lia)).
    destruct (Z.ltb_spec (len pre + (len prof + (Z.of_nat 2 + len body) + len post))
      (len pre + (4 + len body / 4 * 4))); [lia|]. unfold mret, res_ret. f_equal. lia.
  - intros ->. rewrite len_nil, Z.add_0_r. done.
Qed.

Lemma pad_wire_parse pre pad payload d :
  bytes_ok d -> pad_wire pad d ->
  let buffer := pre ++ payload ++ d in
  (if pad then
     last ← usub (len buffer) 1;
     padn ← idx buffer last;
     if padn =? 0 then Err BadPadding else
     room ← usub (len buffer) (len pre);
     if room <? padn then Err BadPadding else usub (len buffer) padn
   else mret (len buffer)) = Ok (len pre + len payload).
Proof.
  pose proof (len_nonneg pre). pose proof (len_nonneg payload).
  intros Hd Hpad buffer. subst buffer. destruct pad; simpl in Hpad |- *.
  - destruct Hpad as (d' & Heq). pose proof (len_nonneg d').
    assert (len d = len d' + 1) as Hl by (rewrite Heq at 1; rewrite len_app; done).
    rewrite !len_app, (usub_Ok _ 1), bind_Ok by lia.
    assert (idx (pre ++ payload ++ d) (len pre + (len payload + len d) - 1)
            = @Ok RtpError Z (len d)) as ->.
    { rewrite Heq at 1. rewrite !app_assoc, <- (app_assoc pre).
      apply idx_app_mid. rewrite !len_app. lia. }
    rewrite bind_Ok. destruct (Z.eqb_spec (len d) 0); [lia|].
    rewrite (usub_Ok _ (len pre)), bind_Ok by lia.
    destruct (Z.ltb_spec (len pre + (len payload + len d) - len pre) (len d)); [lia|].
    rewrite usub_Ok by lia. f_equal. lia.
  - subst d. rewrite !app_nil_r, len_app. done.
Qed.

Lemma RtpPacket_parse_complete buffer p :
  bytes_ok buffer -> rtp_wire buffer p -> RtpPacket_parse buffer = Ok p.
Proof.
  intros Hb (Hp & pad & ext & e & d & He & Hd & Heq).
  destruct p as [m pt seq ts ssrc cc csrcs payload].
  unfold packet_ok in Hp. cbn [rp_csrc_count rp_marker rp_payload_type rp_sequence rp_timestamp
    rp_ssrc rp_csrcs rp_payload] in *. destruct Hp as (Hpt & Hseq & Hts & Hssrc & Hcc & Hcl).
  assert (bytes_ok d) as Hbd by (rewrite Heq, !bytes_ok_app in Hb; tauto).
  pose proof (len_nonneg e). pose proof (len_nonneg payload). pose proof (len_nonneg d).
  set (hdr := header_bytes pad ext (mkRtpPacket m pt seq ts ssrc cc csrcs payload)) in *.
  assert (len hdr = 12) as Hh by reflexivity.
  assert (len buffer = 12 + 4 * cc + len e + len payload + len d) as Hlen
    by (rewrite Heq, !len_app; lia).
  destruct (byte0_fields pad ext cc Hcc) as (Bv & Bp & Bx & Bc).
  destruct (byte1_fields m pt Hpt) as (Bm & Bt).
  unfold RtpPacket_parse, FIXED_HEADER_LEN.
  destruct (Z.ltb_spec (len buffer) 12); [lia|].
  assert (idx buffer 0 = @Ok RtpError Z (128 + 32 * b2z pad + 16 * b2z ext + cc)) as ->
    by (rewrite Heq; reflexivity). rewrite bind_Ok.
  assert (idx buffer 1 = @Ok RtpError Z (128 * b2z m + pt)) as -> by (rewrite Heq; reflexivity).
  cbv zeta. rewrite Bv, Bp, Bx, Bc. cbn [negb Z.eqb RTP_VERSION Pos.eqb].
  rewrite bind_Ok, Bm, Bt.
  assert (be16_at buffer 2 = @Ok RtpError Z seq) as ->.
  { rewrite Heq. subst hdr. unfold header_bytes. rewrite <- !app_assoc.
    by apply be16_at_app. }
  assert (be32_at buffer 4 = @Ok RtpError Z ts) as ->.
  { rewrite Heq. subst hdr. unfold header_bytes. rewrite <- !app_assoc.
    rewrite (app_assoc _ (be_enc 2 seq)). by apply be32_at_app. }
  assert (be32_at buffer 8 = @Ok RtpError Z ssrc) as ->.
  { rewrite Heq. subst hdr. unfold header_bytes. rewrite <- !app_assoc.
    rewrite (app_assoc _ (be_enc 2 seq)), (app_assoc _ (be_enc 4 ts)). by apply be32_at_app. }
  rewrite !bind_Ok. cbn [rp_sequence rp_timestamp rp_ssrc].
  destruct (Z.ltb_spec (len buffer) (12 + 4 * cc)); [lia|].
  rewrite slice_Ok, bind_Ok by lia.
  pose proof (ext_wire_parse (hdr ++ csrcs) ext e (payload ++ d) He) as Hext.
  rewrite <- app_assoc, <- Heq, len_app, Hh, Hcl in Hext.
  cbv zeta in Hext. rewrite Hext, bind_Ok.
  pose proof (pad_wire_parse (hdr ++ csrcs ++ e) pad payload d Hbd Hd) as Hpad.
  cbv zeta in Hpad. rewrite <- !app_assoc, <- Heq, !len_app, Hh, Hcl, Z.add_assoc in Hpad.
  rewrite Hpad, bind_Ok.
  rewrite slice_Ok, bind_Ok by lia. unfold mret, res_ret. do 2 f_equal.
  - rewrite Heq. apply sub_app_mid; lia.
  - rewrite Heq. replace (hdr ++ csrcs ++ e ++ payload ++ d)
      with ((hdr ++ csrcs ++ e) ++ payload ++ d) by (by rewrite <- !app_assoc).
    apply sub_app_mid; rewrite !len_app; lia.
Qed.

Lemma RtpPacket_parse_no_panic_aux buffer : bytes_ok buffer -> no_panic (RtpPacket_parse buffer).
Proof.
  intros Hb. unfold RtpPacket_parse, FIXED_HEADER_LEN.
  destruct (Z.ltb_spec (len buffer) 12); [done|].
  apply no_panic_bind; [apply idx_no_panic; lia|]. intros b0 _.
  destruct (negb _); [done|].
  apply no_panic_bind; [apply idx_no_panic; lia|]. intros b1 _.
  apply no_panic_bind; [apply be16_at_no_panic; lia|]. intros seq _.
  apply no_panic_bind; [apply be32_at_no_panic; lia|]. intros ts _.
  apply no_panic_bind; [apply be32_at_no_panic; lia|]. intros ssrc _.
  pose proof (land_low_bound b0 4 ltac:(lia)) as Hcc. change (Z.ones 4) with 0x0F in Hcc.
  set (cc := Z.land b0 0x0F) in *.
  destruct (Z.ltb_spec (len buffer) (12 + 4 * cc)); [done|].
  rewrite slice_Ok, bind_Ok by lia.
  apply no_panic_bind.
  { destruct (negb _); [|done].
    destruct (Z.ltb_spec (len buffer) (12 + 4 * cc + 4)); [done|].
    apply no_panic_bind; [apply be16_at_no_panic; lia|]. intros w _. by destruct (_ <? _). }
  intros o2 Ho2. apply parse_ext_wire in Ho2 as [Ho2 _]; [|done|lia].
  apply no_panic_bind.
  { destruct (negb _); [|done]. rewrite (usub_Ok _ 1), bind_Ok by lia.
    apply no_panic_bind; [apply idx_no_panic; lia|]. intros padn Hp.
    destruct (padn =? 0); [done|]. rewrite (usub_Ok _ o2), bind_Ok by lia.
    destruct (Z.ltb_spec (len buffer - o2) padn); [done|]. by rewrite usub_Ok by lia. }
  intros e2 He2. apply parse_pad_wire in He2 as [He2 _]; [|done|lia].
  by rewrite slice_Ok by lia.
Qed.

(** ** The writer *)

(** The bytes [write_packet_with_csrcs] puts at the front of [out]. *)
Definition encoded (header : RtpHeader) (csrcs : list Z) (payload : bytes) : bytes :=
  header_bytes false false
    (mkRtpPacket (rh_marker header) (Z.land (rh_payload_type header) 0x7F) (rh_sequence header)
       (rh_timestamp header) (rh_ssrc header) (len csrcs) [] [])
  ++ concat (be_enc 4 <$> csrcs) ++ payload.

Lemma len_csrc_bytes csrcs : len (concat (be_enc 4 <$> csrcs)) = 4 * len csrcs.
Proof.
  induction csrcs as [|c l IH]; [done|].
  cbn [fmap list_fmap concat]. rewrite len_app, len_be_enc, IH, len_cons. lia.
Qed.

Lemma write_csrcs_seq csrcs pre out index :
  len pre = 12 + index * 4 -> len pre + 4 * len csrcs <= len out ->
  write_csrcs index csrcs (pre ++ drop (length pre) out) =
  Ok ((pre ++ concat (be_enc 4 <$> csrcs)) ++
      drop (length (pre ++ concat (be_enc 4 <$> csrcs))) out).
Proof.
  revert pre index. induction csrcs as [|c l IH]; intros pre index Hi Hl.
  - cbn [write_csrcs fmap list_fmap concat]. by rewrite app_nil_r.
  - cbn [write_csrcs fmap list_fmap concat]. pose proof (len_nonneg l).
    rewrite len_cons in Hl. unfold FIXED_HEADER_LEN.
    rewrite copy_at_seq, bind_Ok by (rewrite ?len_be_enc; lia).
    rewrite IH by (rewrite len_app, len_be_enc; lia). by rewrite !app_assoc.
Qed.

Lemma write_packet_with_csrcs_Ok header csrcs payload out :
  len csrcs <= 15 -> 12 + len csrcs * 4 + len payload <= len out ->
  write_packet_with_csrcs header csrcs payload out =
  Ok (len (encoded header csrcs payload),
      encoded header csrcs payload ++ drop (length (encoded header csrcs payload)) out).
Proof.
  intros Hc Ho. pose proof (len_nonneg csrcs). pose proof (len_nonneg payload).
  unfold write_packet_with_csrcs, MAX_CSRC_COUNT, FIXED_HEADER_LEN, set_at.
  destruct (Z.ltb_spec 15 (len csrcs)); [lia|].
  destruct (Z.ltb_spec (len out) (12 + len csrcs * 4 + len payload)); [lia|].
  assert (forall n, 0 <= n < 16 -> Z.lor (Z.shiftl RTP_VERSION 6) (Z.land (wrap 8 n) 0x0F) = 128 + n)
    as Hb0.
  { intros n Hn. apply Z.eqb_eq.
    apply (below_forall (fun n => Z.lor (Z.shiftl RTP_VERSION 6) (Z.land (wrap 8 n) 0x0F)
      =? 128 + n) 16); [vm_compute; reflexivity|lia]. }
  rewrite Hb0 by lia.
  assert (Z.lor (Z.shiftl (b2z (rh_marker header)) 7) (Z.land (rh_payload_type header) 0x7F) =
    128 * b2z (rh_marker header) + Z.land (rh_payload_type header) 0x7F) as ->.
  { pose proof (land_low_bound (rh_payload_type header) 7 ltac:(lia)) as Hpt.
    change (Z.ones 7) with 0x7F in Hpt. apply Z.eqb_eq.
    apply (below_forall (fun n => Z.lor (Z.shiftl (b2z (rh_marker header)) 7) n
      =? 128 * b2z (rh_marker header) + n) 128); [|lia].
    destruct (rh_marker header); vm_compute; reflexivity. }
  rewrite copy_at_first, bind_Ok by (rewrite len_cons, len_nil; lia).
  do 4 (rewrite copy_at_seq, bind_Ok
    by (rewrite ?len_app, ?len_cons, ?len_nil, ?len_be_enc; lia || done)).
  rewrite write_csrcs_seq, bind_Ok
    by (rewrite ?len_app, ?len_cons, ?len_nil, ?len_be_enc; lia || done).
  rewrite copy_at_seq, bind_Ok
    by (rewrite ?len_app, ?len_cons, ?len_nil, ?len_be_enc, ?len_csrc_bytes; lia || done).
  unfold mret, res_ret. do 2 f_equal.
  unfold encoded. rewrite !len_app, len_csrc_bytes.
  change (len (header_bytes _ _ _)) with 12. lia.
Qed.

(** ** Theorems *)

(** C9. [RtpPacket::parse] never panics, whatever bytes arrive, and accepts
    exactly the datagrams of the RFC 3550 section 5.1 layout, returning the
    fields that layout gives. *)
Theorem rtp_parse_exact buffer :
  bytes_ok buffer ->
  no_panic (RtpPacket_parse buffer) /\
  forall p, RtpPacket_parse buffer = Ok p <-> rtp_wire buffer p.
Proof.
  intros Hb. split; [by apply RtpPacket_parse_no_panic_aux|].
  intros p. split; [by apply RtpPacket_parse_sound|by apply RtpPacket_parse_complete].
Qed.

Lemma rtp_parse_exact_witness :
  let buffer := [0xB1; 0x80; 0x12; 0x34; 0; 0; 0; 1; 0; 0; 0; 7; 0; 0; 0; 9;
                 0xBE; 0xDE; 0; 1; 1; 2; 3; 4; 0x41; 0x42; 0; 2] in
  RtpPacket_parse buffer = Ok (mkRtpPacket true 0 0x1234 1 7 1 [0; 0; 0; 9] [0x41; 0x42]) /\
  rtp_wire buffer (mkRtpPacket true 0 0x1234 1 7 1 [0; 0; 0; 9] [0x41; 0x42]).
Proof.
  intros buffer.
  assert (bytes_ok buffer) as Hb by (repeat constructor; unfold is_byte; lia).
  split; [vm_compute; reflexivity|].
  apply (proj2 (rtp_parse_exact buffer Hb)). vm_compute. reflexivity.
Defined.

(** Writing a packet into a large enough buffer and parsing what was written
    gives back the header fields (the payload type reduced to its 7 bits), the
    CSRC list and the payload, with every byte after the packet untouched. *)
Lemma rtp_write_parse_roundtrip header csrcs payload out :
  fits 16 (rh_sequence header) -> fits 32 (rh_timestamp header) -> fits 32 (rh_ssrc header) ->
  len csrcs <= MAX_CSRC_COUNT -> bytes_ok payload ->
  FIXED_HEADER_LEN + len csrcs * 4 + len payload <= len out ->
  exists total out',
    write_packet_with_csrcs header csrcs payload out = Ok (total, out') /\
    total = FIXED_HEADER_LEN + len csrcs * 4 + len payload /\
    drop (Z.to_nat total) out' = drop (Z.to_nat total) out /\
    RtpPacket_parse (sub out' 0 total) =
      Ok (mkRtpPacket (rh_marker header) (Z.land (rh_payload_type header) 0x7F)
            (rh_sequence header) (rh_timestamp header) (rh_ssrc header) (len csrcs)
            (concat (be_enc 4 <$> csrcs)) payload).
Proof.
  unfold MAX_CSRC_COUNT, FIXED_HEADER_LEN. intros Hseq Hts Hssrc Hc Hp Ho.
  rewrite (write_packet_with_csrcs_Ok _ _ _ _ Hc Ho). set (enc := encoded header csrcs payload).
  assert (len enc = 12 + len csrcs * 4 + len payload) as Hl.
  { unfold enc, encoded. rewrite !len_app, len_csrc_bytes.
    change (len (header_bytes _ _ _)) with 12. lia. }
  pose proof (land_low_bound (rh_payload_type header) 7 ltac:(lia)) as Hpt.
  change (Z.ones 7) with 0x7F in Hpt. pose proof (len_nonneg csrcs).
  exists (len enc), (enc ++ drop (length enc) out).
  split; [done|]. split; [done|]. rewrite to_nat_len. split; [by rewrite drop_app_length|].
  rewrite sub_app_begin by done. apply RtpPacket_parse_complete.
  - unfold enc, encoded, header_bytes. rewrite !bytes_ok_app. repeat split; auto using be_enc_bytes.
    + simpl. repeat constructor; unfold is_byte; destruct (rh_marker header); simpl; lia.
    + clear. induction csrcs; cbn [fmap list_fmap concat]; [constructor|].
      apply bytes_ok_app; auto using be_enc_bytes.
  - split; [unfold packet_ok, fits in *; simpl; rewrite len_csrc_bytes; lia|].
    exists false, false, [], []. split; [done|]. split; [done|]. by rewrite app_nil_r.
Qed.

Lemma rtp_write_parse_roundtrip_witness :
  exists total out',
    write_packet_with_csrcs (mkRtpHeader true 0x6F 65535 160 0xDEADBEEF) [7; 9] [1; 2; 3]
      (replicate 30 0xEE) = Ok (total, out') /\
    RtpPacket_parse (sub out' 0 total) =
      Ok (mkRtpPacket true 0x6F 65535 160 0xDEADBEEF 2 [0; 0; 0; 7; 0; 0; 0; 9] [1; 2; 3]).
Proof.
  destruct (rtp_write_parse_roundtrip (mkRtpHeader true 0x6F 65535 160 0xDEADBEEF) [7; 9] [1; 2; 3]
    (replicate 30 0xEE)) as (total & out' & H1 & _ & _ & H2);
    try (vm_compute; split; congruence); try (vm_compute; congruence).
  - repeat constructor; unfold is_byte; lia.
  - exists total, out'. split; [exact H1|exact H2].
Defined.
