(* ===== verification/Rtcp.v ===== *)
(** * RTCP: crates/siphon-rtp-media/src/rtcp.rs

    Compound parsing, Sender Report / BYE / APP construction, the APP walk and
    the in-place rewrite of report sender SSRCs.  A compound datagram is
    specified as a concatenation of framed packets ([frame_bytes]); the parser,
    the APP iterator and the rewriter are all proved against that one layout.

    Loops take a fuel of one more than the datagram's length: every turn
    consumes at least the four header bytes of a packet.  Running out of fuel
    is reported as [Panic], so the no-panic theorems include termination. *)

From S2P Require Import Prelude.
From stdpp Require Import base list numbers option.
From Stdlib Require Import Lia ZArith.

Open Scope Z_scope.

Inductive RtcpError : Type :=
| RtcpTooShort
| RtcpBadVersion (version : Z)
| RtcpBadLength
| RtcpBadPadding.

Definition SENDER_REPORT : Z := 200.
Definition RECEIVER_REPORT : Z := 201.
Definition SOURCE_DESCRIPTION : Z := 202.
Definition BYE : Z := 203.
Definition APP : Z := 204.

Record ReportBlock : Type := mkReportBlock {
  rb_ssrc : Z;
  rb_fraction_lost : Z;
  rb_cumulative_lost : Z;
  rb_highest_sequence : Z;
  rb_jitter : Z;
  rb_last_sender_report : Z;
  rb_delay_since_last_sr : Z
}.

Definition REPORT_BLOCK_LEN : Z := 24.

(** Sign extension of the 24-bit cumulative-lost field, [as i32]. *)
Definition sign_extend_24 (raw : Z) : Z :=
  if negb (Z.land raw 0x00800000 =? 0) then to_signed 32 (Z.lor raw 0xFF000000)
  else to_signed 32 raw.

Definition ReportBlock_parse (buffer : bytes) : res RtcpError (option ReportBlock) :=
  if len buffer <? REPORT_BLOCK_LEN then mret None else
  b5 ← idx buffer 5; b6 ← idx buffer 6; b7 ← idx buffer 7;
  let cumulative_raw := be_dec [0; b5; b6; b7] in
  let cumulative_lost := sign_extend_24 cumulative_raw in
  ssrc ← be32_at buffer 0;
  fraction_lost ← idx buffer 4;
  highest_sequence ← be32_at buffer 8;
  jitter ← be32_at buffer 12;
  last_sender_report ← be32_at buffer 16;
  delay_since_last_sr ← be32_at buffer 20;
  mret (Some (mkReportBlock ssrc fraction_lost cumulative_lost highest_sequence jitter
                last_sender_report delay_since_last_sr)).

Record SenderReport : Type := mkSenderReport {
  sr_ssrc : Z;
  sr_ntp_timestamp : Z;
  sr_rtp_timestamp : Z;
  sr_packet_count : Z;
  sr_octet_count : Z;
  sr_reports : list ReportBlock
}.

Record ReceiverReport : Type := mkReceiverReport {
  rcv_ssrc : Z;
  rcv_reports : list ReportBlock
}.

Inductive RtcpPacket : Type :=
| PktSenderReport (r : SenderReport)
| PktReceiverReport (r : ReceiverReport)
| PktOther (packet_type : Z).

Definition SENDER_REPORT_LEN : Z := 28.
Definition RECEPTION_REPORT_LEN : Z := 24.

Record ReceptionReport : Type := mkReceptionReport {
  rr_ssrc : Z;
  rr_fraction_lost : Z;
  rr_cumulative_lost : Z;
  rr_extended_highest_seq : Z;
  rr_jitter : Z;
  rr_last_sr : Z;
  rr_delay_last_sr : Z
}.

(** ** Construction *)

Definition write_reception (base : Z) (report : ReceptionReport) (out : bytes)
  : res RtcpError bytes :=
  out ← copy_at out base (be_enc 4 (rr_ssrc report));
  out ← set_at out (base + 4) (rr_fraction_lost report);
  let cumulative := be_enc 4 (Z.land (rr_cumulative_lost report) 0x00FFFFFF) in
  out ← copy_at out (base + 5) (sub cumulative 1 4);
  out ← copy_at out (base + 8) (be_enc 4 (rr_extended_highest_seq report));
  out ← copy_at out (base + 12) (be_enc 4 (rr_jitter report));
  out ← copy_at out (base + 16) (be_enc 4 (rr_last_sr report));
  copy_at out (base + 20) (be_enc 4 (rr_delay_last_sr report)).

Fixpoint write_receptions (index : Z) (reports : list ReceptionReport) (out : bytes)
  : res RtcpError bytes :=
  match reports with
  | [] => mret out
  | report :: rest =>
      let base := SENDER_REPORT_LEN + index * RECEPTION_REPORT_LEN in
      out ← write_reception base report out;
      write_receptions (index + 1) rest out
  end.

Definition write_sender_report (ssrc ntp_timestamp rtp_timestamp packet_count octet_count : Z)
  (reports : list ReceptionReport) (out : bytes) : res RtcpError (option (Z * bytes)) :=
  let report_count := Z.min (len reports) 31 in
  let total := SENDER_REPORT_LEN + report_count * RECEPTION_REPORT_LEN in
  if len out <? total then mret None else
  out ← set_at out 0 (Z.lor 0x80 (wrap 8 report_count));
  out ← set_at out 1 200;
  let length_words := wrap 16 (total / 4 - 1) in
  out ← copy_at out 2 (be_enc 2 length_words);
  out ← copy_at out 4 (be_enc 4 ssrc);
  out ← copy_at out 8 (be_enc 8 ntp_timestamp);
  out ← copy_at out 16 (be_enc 4 rtp_timestamp);
  out ← copy_at out 20 (be_enc 4 packet_count);
  out ← copy_at out 24 (be_enc 4 octet_count);
  out ← write_receptions 0 (take (Z.to_nat report_count) reports) out;
  mret (Some (total, out)).

Definition GOODBYE_LEN : Z := 16.

Definition write_goodbye (ssrc : Z) (out : bytes) : res RtcpError (option (Z * bytes)) :=
  if len out <? GOODBYE_LEN then mret None else
  let ssrc := be_enc 4 ssrc in
  out ← copy_at out 0 [0x80; RECEIVER_REPORT; 0; 1];
  out ← copy_at out 4 ssrc;
  out ← copy_at out 8 [0x81; BYE; 0; 1];
  out ← copy_at out 12 ssrc;
  mret (Some (GOODBYE_LEN, out)).

(** ** Parsing *)

(** [for index in 0..count], leaving the loop at the first block that is cut short. *)
Fixpoint read_blocks_from (index : Z) (count : nat) (body : bytes)
  : res RtcpError (list ReportBlock) :=
  match count with
  | O => mret []
  | S count' =>
      let start := index * REPORT_BLOCK_LEN in
      match get_range body start (start + REPORT_BLOCK_LEN) with
      | None => mret []
      | Some block =>
          parsed ← ReportBlock_parse block;
          match parsed with
          | Some block => rest ← read_blocks_from (index + 1) count' body; mret (block :: rest)
          | None => mret []
          end
      end
  end.

Definition read_report_blocks (body : bytes) (count : Z) : res RtcpError (list ReportBlock) :=
  read_blocks_from 0 (Z.to_nat count) body.

Definition parse_body (packet_type report_count : Z) (body : bytes) : res RtcpError RtcpPacket :=
  if (packet_type =? SENDER_REPORT) && (24 <=? len body) then
    ssrc ← be32_at body 0;
    hi ← be32_at body 4;
    lo ← be32_at body 8;
    rtp_timestamp ← be32_at body 12;
    packet_count ← be32_at body 16;
    octet_count ← be32_at body 20;
    reports ← read_report_blocks (default [] (get_range body 24 (len body))) report_count;
    mret (PktSenderReport (mkSenderReport ssrc (Z.lor (Z.shiftl hi 32) lo) rtp_timestamp
            packet_count octet_count reports))
  else if (packet_type =? RECEIVER_REPORT) && (4 <=? len body) then
    ssrc ← be32_at body 0;
    reports ← read_report_blocks (default [] (get_range body 4 (len body))) report_count;
    mret (PktReceiverReport (mkReceiverReport ssrc reports))
  else mret (PktOther packet_type).

Fixpoint parse_compound_loop (fuel : nat) (buffer : bytes) (offset : Z)
  (packets : list RtcpPacket) : res RtcpError (list RtcpPacket) :=
  match fuel with
  | O => Panic
  | S fuel =>
      if offset <? len buffer then
        remaining ← usub (len buffer) offset;
        if remaining <? 4 then Err RtcpTooShort else
        header ← slice buffer offset (len buffer);
        h0 ← idx header 0;
        let version := Z.shiftr h0 6 in
        if negb (version =? 2) then Err (RtcpBadVersion version) else
        let report_count := Z.land h0 0x1F in
        packet_type ← idx header 1;
        length_words ← be16_at header 2;
        let packet_len := (length_words + 1) * 4 in
        if len buffer <? offset + packet_len then Err RtcpBadLength else
        body ← slice buffer (offset + 4) (offset + packet_len);
        packet ← parse_body packet_type report_count body;
        parse_compound_loop fuel buffer (offset + packet_len) (packets ++ [packet])
      else mret packets
  end.

Definition parse_compound (buffer : bytes) : res RtcpError (list RtcpPacket) :=
  parse_compound_loop (S (length buffer)) buffer 0 [].

(** ** APP packets *)

Definition APP_HEADER_LEN : Z := 12.
Definition APP_MAX_DATA_LEN : Z := (65535 + 1) * 4 - APP_HEADER_LEN.

Record AppPacket : Type := mkAppPacket {
  ap_subtype : Z;
  ap_ssrc : Z;
  ap_name : bytes;
  ap_data : bytes
}.

Record AppPackets : Type := mkAppPackets {
  it_buffer : bytes;
  it_offset : Z;
  it_failed : bool
}.

Definition app_packets (datagram : bytes) : AppPackets := mkAppPackets datagram 0 false.

(** What [read_one] does before it steps [offset] past the packet. *)
Definition read_one_frame (it : AppPackets) : res RtcpError (Z * Z * bytes) :=
  rest ← slice (it_buffer it) (it_offset it) (len (it_buffer it));
  header ← ok_or (get_range rest 0 4) RtcpTooShort;
  h0 ← idx header 0;
  let version := Z.shiftr h0 6 in
  if negb (version =? 2) then Err (RtcpBadVersion version) else
  packet_type ← idx header 1;
  words ← be16_at header 2;
  let packet_len := (words + 1) * 4 in
  packet ← ok_or (get_range rest 0 packet_len) RtcpBadLength;
  mret (h0, packet_type, packet).

(** What it does after. *)
Definition read_one_app (h0 packet_type : Z) (packet : bytes) : res RtcpError (option AppPacket) :=
  let padded := negb (Z.land h0 0x20 =? 0) in
  let subtype := Z.land h0 0x1F in
  if negb (packet_type =? APP) then mret None else
  if len packet <? APP_HEADER_LEN then Err RtcpTooShort else
  data ← slice packet APP_HEADER_LEN (len packet);
  data ← (if padded then
            count ← ok_or (get_at data (len data - 1)) RtcpBadPadding;
            if (count =? 0) || (len data <? count) then Err RtcpBadPadding else
            slice data 0 (len data - count)
          else mret data);
  ssrc ← be32_at packet 4;
  n0 ← idx packet 8; n1 ← idx packet 9; n2 ← idx packet 10; n3 ← idx packet 11;
  mret (Some (mkAppPacket subtype ssrc [n0; n1; n2; n3] data)).

Definition AppPackets_read_one (it : AppPackets)
  : res RtcpError (option AppPacket) * AppPackets :=
  match read_one_frame it with
  | Ok (h0, packet_type, packet) =>
      (read_one_app h0 packet_type packet,
       mkAppPackets (it_buffer it) (it_offset it + len packet) (it_failed it))
  | Err e => (Err e, it)
  | Panic => (Panic, it)
  end.

(** [Iterator::next]; [None] ends the walk. *)
Fixpoint AppPackets_next (fuel : nat) (it : AppPackets)
  : option (res RtcpError AppPacket) * AppPackets :=
  match fuel with
  | O => (Some Panic, it)
  | S fuel =>
      if negb (it_failed it) && (it_offset it <? len (it_buffer it)) then
        match AppPackets_read_one it with
        | (Ok None, it) => AppPackets_next fuel it
        | (Ok (Some app), it) => (Some (Ok app), it)
        | (Err e, it) => (Some (Err e), mkAppPackets (it_buffer it) (it_offset it) true)
        | (Panic, it) => (Some Panic, it)
        end
      else (None, it)
  end.

(** Every item the iterator yields, in order. *)
Fixpoint AppPackets_collect (fuel : nat) (it : AppPackets) : list (res RtcpError AppPacket) :=
  match fuel with
  | O => [Panic]
  | S fuel' =>
      match AppPackets_next fuel it with
      | (Some r, it) => r :: AppPackets_collect fuel' it
      | (None, _) => []
      end
  end.

Definition all_app_packets (datagram : bytes) : list (res RtcpError AppPacket) :=
  AppPackets_collect (S (length datagram)) (app_packets datagram).

Inductive AppWriteError : Type :=
| SubtypeOutOfRange (subtype : Z)
| NonAsciiName
| Unaligned (length : Z)
| TooLong (length : Z)
| BufferTooSmall (needed : Z).

Definition is_ascii (l : bytes) : bool := forallb (fun b => b <? 128) l.

Definition write_app (subtype ssrc : Z) (name data out : bytes) : res AppWriteError (Z * bytes) :=
  if 0x1F <? subtype then Err (SubtypeOutOfRange subtype) else
  if negb (is_ascii name) then Err NonAsciiName else
  if negb (len data mod 4 =? 0) then Err (Unaligned (len data)) else
  if APP_MAX_DATA_LEN <? len data then Err (TooLong (len data)) else
  let total := APP_HEADER_LEN + len data in
  if len out <? total then Err (BufferTooSmall total) else
  let length_words := total / 4 - 1 in
  if 65535 <? length_words then Err (TooLong (len data)) else
  out ← set_at out 0 (Z.lor 0x80 subtype);
  out ← set_at out 1 APP;
  out ← copy_at out 2 (be_enc 2 length_words);
  out ← copy_at out 4 (be_enc 4 ssrc);
  out ← copy_at out 8 name;
  out ← copy_at out APP_HEADER_LEN data;
  mret (total, out).

(** ** Rewriting report sender SSRCs *)

(** The validating pass: [true] when the whole compound can be walked. *)
Fixpoint validate_compound (fuel : nat) (buffer : bytes) (offset : Z) : res RtcpError bool :=
  match fuel with
  | O => Panic
  | S fuel =>
      if offset <? len buffer then
        match get_range buffer offset (offset + 4) with
        | None => mret false
        | Some header =>
            h0 ← idx header 0;
            if negb (Z.shiftr h0 6 =? 2) then mret false else
            words ← be16_at header 2;
            let packet_len := (words + 1) * 4 in
            if (packet_len =? 0) || (len buffer <? offset + packet_len) then mret false else
            validate_compound fuel buffer (offset + packet_len)
        end
      else mret true
  end.

(** The mutating pass: the number of reports rewritten and the new datagram. *)
Fixpoint rewrite_loop (fuel : nat) (buffer : bytes) (ssrc offset rewritten : Z)
  : res RtcpError (Z * bytes) :=
  match fuel with
  | O => Panic
  | S fuel =>
      if offset <? len buffer then
        packet_type ← idx buffer (offset + 1);
        words ← be16_at buffer (offset + 2);
        let packet_len := (words + 1) * 4 in
        if ((packet_type =? SENDER_REPORT) || (packet_type =? RECEIVER_REPORT)) && (8 <=? packet_len)
        then
          buffer ← copy_at buffer (offset + 4) (be_enc 4 ssrc);
          rewrite_loop fuel buffer ssrc (offset + packet_len) (rewritten + 1)
        else rewrite_loop fuel buffer ssrc (offset + packet_len) rewritten
      else mret (rewritten, buffer)
  end.

Definition rewrite_report_sender_ssrc (buffer : bytes) (ssrc : Z) : res RtcpError (Z * bytes) :=
  valid ← validate_compound (S (length buffer)) buffer 0;
  if (valid : bool) then rewrite_loop (S (length buffer)) buffer ssrc 0 0 else mret (0, buffer).

Inductive MuxKind : Type := MuxRtp | MuxRtcp.

Definition demux (datagram : bytes) : option MuxKind :=
  match get_at datagram 1 with
  | None => None
  | Some second =>
      let payload_type := Z.land second 0x7F in
      if (64 <=? payload_type) && (payload_type <=? 95) then Some MuxRtcp else Some MuxRtp
  end.

(** ** The layout of a compound datagram (RFC 3550 section 6.1) *)

Record frame : Type := mkFrame { f_h0 : Z; f_type : Z; f_body : bytes }.

Definition frame_ok (f : frame) : Prop :=
  is_byte (f_h0 f) /\ Z.shiftr (f_h0 f) 6 = 2 /\ is_byte (f_type f) /\ bytes_ok (f_body f) /\
  len (f_body f) mod 4 = 0 /\ len (f_body f) / 4 < 65536.

Definition frame_bytes (f : frame) : bytes :=
  [f_h0 f; f_type f] ++ be_enc 2 (len (f_body f) / 4) ++ f_body f.

(** The first packet of a non-empty byte string, and what follows it. *)
Definition next_frame (s : bytes) : res RtcpError (frame * bytes) :=
  if len s <? 4 then Err RtcpTooShort else
  if negb (Z.shiftr (byte_of s 0) 6 =? 2) then Err (RtcpBadVersion (Z.shiftr (byte_of s 0) 6)) else
  let packet_len := (be_dec (sub s 2 4) + 1) * 4 in
  if len s <? packet_len then Err RtcpBadLength else
  Ok (mkFrame (byte_of s 0) (byte_of s 1) (sub s 4 packet_len), sub s packet_len (len s)).

(** [framed s fs oe]: [s] is the packets [fs] back to back, then nothing
    ([oe = None]) or a malformed rest ([oe = Some e]). *)
Inductive framed : bytes -> list frame -> option RtcpError -> Prop :=
| framed_nil : framed [] [] None
| framed_cons f fs r oe :
    frame_ok f -> framed r fs oe -> framed (frame_bytes f ++ r) (f :: fs) oe
| framed_err s e : s <> [] -> next_frame s = Err e -> framed s [] (Some e).

(** What the fields of a report block decode to. *)
Definition block_view (b : bytes) : ReportBlock :=
  mkReportBlock (be_dec (sub b 0 4)) (byte_of b 4) (sign_extend_24 (be_dec (0 :: sub b 5 8)))
    (be_dec (sub b 8 12)) (be_dec (sub b 12 16)) (be_dec (sub b 16 20)) (be_dec (sub b 20 24)).

Fixpoint blocks_view (index : Z) (count : nat) (body : bytes) : list ReportBlock :=
  match count with
  | O => []
  | S count =>
      if index * 24 + 24 <=? len body
      then block_view (sub body (index * 24) (index * 24 + 24)) :: blocks_view (index + 1) count body
      else []
  end.

Definition frame_view (f : frame) : RtcpPacket :=
  let body := f_body f in
  let count := Z.to_nat (Z.land (f_h0 f) 0x1F) in
  if (f_type f =? SENDER_REPORT) && (24 <=? len body) then
    PktSenderReport (mkSenderReport (be_dec (sub body 0 4))
      (Z.lor (Z.shiftl (be_dec (sub body 4 8)) 32) (be_dec (sub body 8 12)))
      (be_dec (sub body 12 16)) (be_dec (sub body 16 20)) (be_dec (sub body 20 24))
      (blocks_view 0 count (sub body 24 (len body))))
  else if (f_type f =? RECEIVER_REPORT) && (4 <=? len body) then
    PktReceiverReport (mkReceiverReport (be_dec (sub body 0 4))
      (blocks_view 0 count (sub body 4 (len body))))
  else PktOther (f_type f).

Lemma len_frame_bytes f : len (frame_bytes f) = 4 + len (f_body f).
Proof. unfold frame_bytes. rewrite !len_app, len_be_enc. unfold len. simpl length. lia. Qed.

Lemma frame_bytes_ok f : frame_ok f -> bytes_ok (frame_bytes f).
Proof.
  intros (? & _ & ? & ? & _). unfold frame_bytes.
  rewrite !bytes_ok_app, !bytes_ok_cons. auto using be_enc_bytes, bytes_ok_nil.
Qed.

Lemma frame_words f :
  frame_ok f -> (len (f_body f) / 4 + 1) * 4 = len (frame_bytes f) /\ fits 16 (len (f_body f) / 4).
Proof.
  intros (_ & _ & _ & _ & Hm & Hd). rewrite len_frame_bytes. pose proof (len_nonneg (f_body f)).
  pose proof (Z.div_mod (len (f_body f)) 4 ltac:(lia)). unfold fits.
  split; [lia|split; [apply Z.div_pos|]; lia].
Qed.

Lemma next_frame_app f r : frame_ok f -> next_frame (frame_bytes f ++ r) = Ok (f, r).
Proof.
  intros Hf. pose proof (frame_words f Hf) as [Hw Hfit]. pose proof (len_frame_bytes f) as Hl.
  pose proof (len_nonneg (f_body f)). pose proof (len_nonneg r).
  unfold next_frame. rewrite len_app.
  destruct (Z.ltb_spec (len (frame_bytes f) + len r) 4); [lia|].
  change (byte_of (frame_bytes f ++ r) 0) with (f_h0 f).
  change (byte_of (frame_bytes f ++ r) 1) with (f_type f).
  destruct Hf as (_ & Hv & _). rewrite Hv. cbn [negb Z.eqb Pos.eqb].
  assert (sub (frame_bytes f ++ r) 2 4 = be_enc 2 (len (f_body f) / 4)) as ->.
  { unfold frame_bytes. rewrite <- !app_assoc. by apply sub_app_mid. }
  rewrite be_dec_enc_fits by done. cbv zeta. rewrite Hw.
  destruct (Z.ltb_spec (len (frame_bytes f) + len r) (len (frame_bytes f))); [lia|].
  do 2 f_equal.
  - destruct f as [h0 ty body]. cbn [f_h0 f_type f_body] in *. f_equal. unfold frame_bytes.
    cbn [f_h0 f_type f_body]. rewrite <- !app_assoc, app_assoc. apply sub_app_mid; [done|].
    rewrite !len_app, !len_be_enc, !len_cons, len_nil. lia.
  - rewrite sub_app_end by lia. done.
Qed.

Lemma next_frame_inv s f r :
  bytes_ok s -> next_frame s = Ok (f, r) -> frame_ok f /\ s = frame_bytes f ++ r.
Proof.
  intros Hs H. unfold next_frame in H.
  destruct (Z.ltb_spec (len s) 4); [done|].
  destruct (Z.eqb_spec (Z.shiftr (byte_of s 0) 6) 2) as [Hv|]; [|done]. cbn [negb] in H.
  set (words := be_dec (sub s 2 4)) in *. cbv zeta in H.
  assert (fits 16 words) as Hw.
  { pose proof (be_dec_bound (sub s 2 4) (bytes_ok_sub s 2 4 Hs)) as Hw.
    rewrite len_sub in Hw by lia. exact Hw. }
  unfold fits in Hw.
  destruct (Z.ltb_spec (len s) ((words + 1) * 4)); [done|]. injection H as <- <-.
  assert (len (sub s 4 ((words + 1) * 4)) = words * 4) as Hl by (rewrite len_sub; lia).
  split.
  - unfold frame_ok. cbn [f_h0 f_type f_body]. rewrite Hl, Z.mod_mul, Z.div_mul by lia.
    repeat split; try (by apply bytes_ok_sub); try lia; try (apply byte_of_is_byte; [done|lia]).
  - unfold frame_bytes. cbn [f_h0 f_type f_body]. rewrite Hl, Z.div_mul by lia.
    assert (be_enc 2 words = sub s 2 4) as ->.
    { pose proof (be_enc_dec (sub s 2 4) (bytes_ok_sub s 2 4 Hs)) as He.
      assert (length (sub s 2 4) = 2%nat) as Hn.
      { pose proof (len_sub s 2 4 ltac:(lia) ltac:(lia)) as Hn. unfold len in Hn. lia. }
      by rewrite Hn in He. }
    rewrite <- (sub_full s) at 1.
    rewrite (sub_split s 0 1), (sub_split s 1 2), (sub_split s 2 4),
      (sub_split s 4 ((words + 1) * 4)) by lia.
    rewrite (sub_byte_of s 0 ltac:(lia) : sub s 0 1 = _),
      (sub_byte_of s 1 ltac:(lia) : sub s 1 2 = _).
    simpl. by rewrite <- app_assoc.
Qed.

Lemma next_frame_no_panic s : next_frame s <> Panic.
Proof. unfold next_frame. repeat (case_match; try done). Qed.

(** Every byte string has a framing, and only one. *)
Lemma framed_exists s : bytes_ok s -> exists fs oe, framed s fs oe.
Proof.
  remember (length s) as n eqn:Hn. revert s Hn.
  induction n as [n IH] using lt_wf_ind. intros s -> Hs.
  destruct s as [|b s]; [eexists [], None; constructor|].
  destruct (next_frame (b :: s)) as [[f r]|e|] eqn:Hf.
  - apply next_frame_inv in Hf as [Hf Heq]; [|done]. rewrite Heq in Hs |- *.
    apply bytes_ok_app in Hs as [_ Hr].
    destruct (IH (length r)) with (s := r) as (fs & oe & H); [|done|done|].
    + apply (f_equal len) in Heq. rewrite len_app, len_frame_bytes in Heq.
      pose proof (len_nonneg (f_body f)). unfold len in *. lia.
    + exists (f :: fs), oe. by constructor.
  - exists [], (Some e). by constructor.
  - by apply next_frame_no_panic in Hf.
Qed.

(** ** The parser against the layout *)

Lemma ReportBlock_parse_view b : len b = 24 -> ReportBlock_parse b = Ok (Some (block_view b)).
Proof.
  intros Hl. unfold ReportBlock_parse, REPORT_BLOCK_LEN. rewrite Hl. cbn [Z.ltb Z.compare Pos.compare Pos.compare_cont].
  rewrite !idx_byte_of, !be32_at_sub, !bind_Ok by lia. unfold block_view. do 3 f_equal.
  rewrite (sub_split b 5 6 8), (sub_split b 6 7 8) by lia.
  rewrite (sub_byte_of b 5 ltac:(lia) : sub b 5 6 = _), (sub_byte_of b 6 ltac:(lia) : sub b 6 7 = _),
    (sub_byte_of b 7 ltac:(lia) : sub b 7 8 = _). done.
Qed.

Lemma read_blocks_view count : forall index body,
  0 <= index -> read_blocks_from index count body = Ok (blocks_view index count body).
Proof.
  induction count as [|count IH]; intros index body Hi; [done|].
  cbn [read_blocks_from blocks_view]. unfold REPORT_BLOCK_LEN.
  destruct (Z.leb_spec (index * 24 + 24) (len body)).
  - rewrite get_range_Some by lia. rewrite ReportBlock_parse_view, bind_Ok by (rewrite len_sub; lia).
    by rewrite IH, bind_Ok by lia.
  - rewrite (proj2 (get_range_None_iff _ _ _)); [done|lia].
Qed.

Lemma parse_body_view f :
  parse_body (f_type f) (Z.land (f_h0 f) 0x1F) (f_body f) = Ok (frame_view f).
Proof.
  unfold parse_body, frame_view, read_report_blocks. cbv zeta.
  destruct (f_type f =? SENDER_REPORT); cbn [andb].
  1: destruct (Z.leb_spec 24 (len (f_body f))).
  1: { rewrite !be32_at_sub, !bind_Ok, get_range_Some by lia. cbn [default].
       by rewrite read_blocks_view, bind_Ok by lia. }
  all: destruct (f_type f =? RECEIVER_REPORT); cbn [andb]; try done.
  all: destruct (Z.leb_spec 4 (len (f_body f))); try done.
  all: rewrite !be32_at_sub, !bind_Ok, get_range_Some by lia; cbn [default].
  all: by rewrite read_blocks_view, bind_Ok by lia.
Qed.

(** One turn of the parser's loop is one step of the framing. *)
Lemma parse_compound_loop_step fuel pre s packets :
  bytes_ok s -> s <> [] ->
  parse_compound_loop (S fuel) (pre ++ s) (len pre) packets =
  fr ← next_frame s;
  parse_compound_loop fuel (pre ++ s) (len pre + len (frame_bytes fr.1)) (packets ++ [frame_view fr.1]).
Proof.
  intros Hs Hne. cbn [parse_compound_loop]. unfold next_frame.
  pose proof (len_nonneg pre). pose proof (len_nonneg s).
  assert (len s <> 0) by (by rewrite len_zero_iff).
  rewrite len_app. destruct (Z.ltb_spec (len pre) (len pre + len s)); [|lia].
  rewrite usub_Ok, bind_Ok by lia. replace (len pre + len s - len pre) with (len s) by lia.
  destruct (Z.ltb_spec (len s) 4); [done|].
  rewrite slice_Ok, bind_Ok by (rewrite ?len_app; lia). rewrite sub_app_end by lia.
  rewrite !idx_byte_of, !bind_Ok by lia. cbv zeta.
  destruct (negb (Z.shiftr (byte_of s 0) 6 =? 2)); [done|].
  rewrite be16_at_sub, bind_Ok by lia.
  pose proof (be_dec_bound (sub s 2 4) (bytes_ok_sub s 2 4 Hs)) as Hw.
  change (2 + 2) with 4.
  set (packet_len := (be_dec (sub s 2 4) + 1) * 4).
  destruct (Z.ltb_spec (len pre + len s) (len pre + packet_len)), (Z.ltb_spec (len s) packet_len);
    try lia; [done|].
  rewrite slice_Ok, !bind_Ok by (rewrite ?len_app; lia). rewrite sub_app_r by lia.
  replace (len pre + 4 - len pre) with 4 by lia.
  replace (len pre + packet_len - len pre) with packet_len by lia.
  pose proof (parse_body_view (mkFrame (byte_of s 0) (byte_of s 1) (sub s 4 packet_len))) as Hp.
  cbn [f_h0 f_type f_body] in Hp. rewrite Hp, bind_Ok. cbn [fst].
  do 2 f_equal. rewrite len_frame_bytes. cbn [f_body]. rewrite len_sub; lia.
Qed.

Definition compound_result {A} (a : A) (oe : option RtcpError) : res RtcpError A :=
  match oe with None => Ok a | Some e => Err e end.

Lemma framed_bytes_ok s fs oe : framed s fs oe -> bytes_ok s \/ exists e, oe = Some e.
Proof.
  induction 1 as [|f fs r oe Hf Hr [IH|IH]|s e]; [left; apply bytes_ok_nil| |by right|right; eauto].
  left. apply bytes_ok_app. auto using frame_bytes_ok.
Qed.

Lemma parse_compound_loop_framed s fs oe :
  framed s fs oe -> forall fuel pre packets,
  bytes_ok s -> (length s < fuel)%nat ->
  parse_compound_loop fuel (pre ++ s) (len pre) packets =
  compound_result (packets ++ (frame_view <$> fs)) oe.
Proof.
  induction 1 as [|f fs r oe Hf Hr IH|s e Hne He]; intros [|fuel] pre packets Hs Hfuel; try lia.
  - cbn [parse_compound_loop]. rewrite !app_nil_r, Z.ltb_irrefl. done.
  - rewrite parse_compound_loop_step by done. rewrite next_frame_app, bind_Ok by done. cbn [fst].
    rewrite app_assoc, <- len_app, IH.
    + f_equal. by rewrite <- app_assoc.
    + apply bytes_ok_app in Hs. tauto.
    + pose proof (len_frame_bytes f) as Hl. pose proof (len_nonneg (f_body f)).
      rewrite length_app in Hfuel. unfold len in *. lia.
  - by rewrite parse_compound_loop_step, He by done.
Qed.

Lemma parse_compound_framed s fs oe :
  bytes_ok s -> framed s fs oe -> parse_compound s = compound_result (frame_view <$> fs) oe.
Proof.
  intros Hs Hf. exact (parse_compound_loop_framed s fs oe Hf (S (length s)) [] [] Hs ltac:(lia)).
Qed.

(** ** The APP walk against the layout *)

Definition app_view (f : frame) : res RtcpError (option AppPacket) :=
  read_one_app (f_h0 f) (f_type f) (frame_bytes f).

(** The items the walk yields over [fs] followed by a rest that ends in [oe]:
    nothing follows the first error. *)
Fixpoint app_items (fs : list frame) (oe : option RtcpError) : list (res RtcpError AppPacket) :=
  match fs with
  | [] => match oe with None => [] | Some e => [Err e] end
  | f :: fs =>
      match app_view f with
      | Ok None => app_items fs oe
      | Ok (Some a) => Ok a :: app_items fs oe
      | Err e => [Err e]
      | Panic => [Panic]
      end
  end.

Lemma app_view_no_panic f : frame_ok f -> no_panic (app_view f).
Proof.
  intros Hf. pose proof (frame_bytes_ok f Hf) as Hb. unfold app_view, read_one_app, APP_HEADER_LEN.
  destruct (negb (f_type f =? APP)); [done|].
  destruct (Z.ltb_spec (len (frame_bytes f)) 12); [done|].
  rewrite slice_Ok, bind_Ok by lia. set (data := sub (frame_bytes f) 12 _).
  apply no_panic_bind.
  - destruct (negb _); [|done]. apply no_panic_bind; [apply ok_or_no_panic|].
    intros count Hc. destruct ((count =? 0) || (len data <? count)) eqn:Hcond; [done|].
    apply orb_false_iff in Hcond as [_ Hlt]. apply Z.ltb_ge in Hlt.
    assert (is_byte count).
    { unfold get_at in Hc. destruct (0 <=? len data - 1); [|done].
      destruct (data !! Z.to_nat (len data - 1)) eqn:Hl; [|done]. injection Hc as <-.
      pose proof (bytes_ok_sub (frame_bytes f) 12 (len (frame_bytes f)) Hb) as Hd.
      unfold bytes_ok in Hd. rewrite Forall_lookup in Hd. eauto. }
    unfold is_byte in *. rewrite slice_Ok by lia. done.
  - intros d _. rewrite be32_at_sub, !idx_byte_of by lia. done.
Qed.

Lemma read_one_frame_step pre s b :
  bytes_ok s ->
  read_one_frame (mkAppPackets (pre ++ s) (len pre) b) =
  fr ← next_frame s; mret (f_h0 fr.1, f_type fr.1, frame_bytes fr.1).
Proof.
  intros Hs. unfold read_one_frame. cbn [it_buffer it_offset].
  pose proof (len_nonneg pre). pose proof (len_nonneg s).
  rewrite slice_Ok, bind_Ok by (rewrite ?len_app; lia). rewrite sub_app_end by (rewrite ?len_app; lia).
  destruct (next_frame s) as [[f r]|e|] eqn:Hnf; [| |by apply next_frame_no_panic in Hnf].
  - pose proof (next_frame_inv s f r Hs Hnf) as [Hf ->].
    pose proof (frame_words f Hf) as [Hw Hfit]. pose proof (len_frame_bytes f) as Hl.
    pose proof (len_nonneg (f_body f)). pose proof (len_nonneg r). rewrite len_app in *.
    rewrite get_range_Some by (rewrite ?len_app; lia). cbn [ok_or]. rewrite bind_Ok.
    rewrite sub_app_l by lia.
    assert (sub (frame_bytes f) 0 4 = f_h0 f :: f_type f :: be_enc 2 (len (f_body f) / 4)) as ->.
    { unfold frame_bytes. rewrite app_assoc. by apply sub_app_begin. }
    rewrite idx_cons_0, bind_Ok. cbv zeta. destruct Hf as (_ & Hv & _). rewrite Hv. cbn [negb Z.eqb Pos.eqb].
    rewrite (@idx_lookup _ _ _ 1 (f_type f)), bind_Ok by done.
    pose proof (@be16_at_app RtcpError [f_h0 f; f_type f] [] _ 2 eq_refl Hfit) as Hbe.
    rewrite app_nil_r in Hbe. cbn [app] in Hbe. rewrite Hbe, bind_Ok, Hw.
    rewrite get_range_Some by (rewrite ?len_app; lia). cbn [ok_or]. rewrite !bind_Ok.
    by rewrite sub_app_begin by done.
  - unfold next_frame in Hnf. destruct (Z.ltb_spec (len s) 4).
    { injection Hnf as <-. rewrite (proj2 (get_range_None_iff _ _ _)) by lia. done. }
    rewrite get_range_Some by lia. cbn [ok_or]. rewrite bind_Ok.
    rewrite (idx_sub s 0 4 0), (idx_sub s 0 4 1), (idx_byte_of s (0 + 0)), bind_Ok by lia.
    cbv zeta. cbn [Z.add]. destruct (negb _); [by injection Hnf as <-|].
    rewrite idx_byte_of, be16_at_sub, !bind_Ok by (rewrite ?len_sub; lia).
    rewrite sub_sub by lia. change (0 + 2) with 2. change (0 + (2 + 2)) with 4.
    cbv zeta in Hnf. destruct (Z.ltb_spec (len s) ((be_dec (sub s 2 4) + 1) * 4)); [|done].
    injection Hnf as <-. rewrite (proj2 (get_range_None_iff _ _ _)) by lia. done.
Qed.

Lemma framed_nil_inv fs oe : framed [] fs oe -> fs = [] /\ oe = None.
Proof.
  intros Hf. by inversion Hf.
Qed.

Lemma next_framed s fs oe :
  framed s fs oe -> forall fuel pre, bytes_ok s -> (length s < fuel)%nat ->
  match app_items fs oe with
  | [] => exists it, AppPackets_next fuel (mkAppPackets (pre ++ s) (len pre) false) = (None, it)
  | Ok a :: items => exists pre' r fs',
      AppPackets_next fuel (mkAppPackets (pre ++ s) (len pre) false) =
        (Some (Ok a), mkAppPackets (pre' ++ r) (len pre') false) /\
      framed r fs' oe /\ bytes_ok r /\ (length r < length s)%nat /\ items = app_items fs' oe
  | e :: items => items = [] /\ e <> Panic /\ exists it,
      AppPackets_next fuel (mkAppPackets (pre ++ s) (len pre) false) = (Some e, it) /\
      it_failed it = true
  end.
Proof.
  induction 1 as [|f fs r oe Hf Hr IH|s e Hne He]; intros [|fuel] pre Hs Hfuel; try lia.
  - cbn. rewrite app_nil_r, Z.ltb_irrefl. eauto.
  - pose proof (len_frame_bytes f) as Hl. pose proof (len_nonneg (f_body f)). pose proof (len_nonneg r).
    apply bytes_ok_app in Hs as Hrok. destruct Hrok as [_ Hrok].
    cbn [AppPackets_next it_failed it_offset it_buffer negb andb].
    rewrite !len_app. destruct (Z.ltb_spec (len pre) (len pre + (len (frame_bytes f) + len r))); [|lia].
    unfold AppPackets_read_one. rewrite read_one_frame_step, next_frame_app, bind_Ok by done.
    cbn [fst mret res_ret it_buffer it_offset it_failed app_items]. fold (app_view f).
    rewrite length_app in *. rewrite app_assoc, <- len_app.
    pose proof (app_view_no_panic f Hf) as Hnp.
    destruct (app_view f) as [[a|]|e|].
    + exists (pre ++ frame_bytes f), r, fs. repeat (split; [done|]). split; [|done]. unfold len in *. lia.
    + specialize (IH fuel (pre ++ frame_bytes f) Hrok ltac:(unfold len in *; lia)).
      destruct (app_items fs oe) as [|[a|e|] items]; try done.
      destruct IH as (pre' & r' & fs' & ? & ? & ? & ? & ?). exists pre', r', fs'.
      repeat (split; [done|]). split; [lia|done].
    + split; [done|]. split; [done|]. eauto.
    + done.
  - cbn [AppPackets_next it_failed it_offset it_buffer negb andb app_items].
    assert (len s <> 0) by (by rewrite len_zero_iff). pose proof (len_nonneg s).
    rewrite len_app. destruct (Z.ltb_spec (len pre) (len pre + len s)); [|lia].
    unfold AppPackets_read_one. rewrite read_one_frame_step, He by done. cbn.
    split; [done|]. split; [done|]. eauto.
Qed.

Lemma collect_framed fuel : forall s fs oe pre,
  framed s fs oe -> bytes_ok s -> (length s < fuel)%nat ->
  AppPackets_collect fuel (mkAppPackets (pre ++ s) (len pre) false) = app_items fs oe.
Proof.
  induction fuel as [|fuel IH]; intros s fs oe pre Hf Hs Hfuel; [lia|].
  pose proof (next_framed s fs oe Hf (S fuel) pre Hs Hfuel) as Hn. cbn [AppPackets_collect].
  destruct (app_items fs oe) as [|[a|e|] items] eqn:Hit.
  - by destruct Hn as (it & ->).
  - destruct Hn as (pre' & r & fs' & -> & Hr & Hrok & Hlt & ->). f_equal. apply IH; [done..|lia].
  - destruct Hn as (-> & _ & it & -> & Hfail). f_equal. destruct fuel as [|fuel].
    { destruct s; [|simpl in Hfuel; lia]. by destruct (framed_nil_inv _ _ Hf) as [-> ->]. }
    cbn [AppPackets_collect AppPackets_next]. by rewrite Hfail.
  - by destruct Hn as (_ & ? & _).
Qed.

(** ** The writers against the layout *)

(** One [copy_from_slice] of a front-to-back writer. *)
Ltac copy_step :=
  rewrite copy_at_seq by (rewrite ?len_app, ?len_be_enc, ?len_cons, ?len_nil; lia || done).

Definition app_ok (a : AppPacket) : Prop :=
  0 <= ap_subtype a <= 0x1F /\ fits 32 (ap_ssrc a) /\ len (ap_name a) = 4 /\ bytes_ok (ap_name a) /\
  is_ascii (ap_name a) = true /\ bytes_ok (ap_data a) /\ len (ap_data a) mod 4 = 0 /\
  len (ap_data a) <= APP_MAX_DATA_LEN.

Definition app_frame (a : AppPacket) : frame :=
  mkFrame (Z.lor 0x80 (ap_subtype a)) APP (be_enc 4 (ap_ssrc a) ++ ap_name a ++ ap_data a).

Lemma lor_80 n : 0 <= n <= 0x1F ->
  is_byte (Z.lor 0x80 n) /\ Z.shiftr (Z.lor 0x80 n) 6 = 2 /\ Z.land (Z.lor 0x80 n) 0x1F = n /\
  Z.land (Z.lor 0x80 n) 0x20 = 0.
Proof.
  intros Hn.
  pose proof (below_forall (fun n => (0 <=? Z.lor 0x80 n) && (Z.lor 0x80 n <? 256) &&
    (Z.shiftr (Z.lor 0x80 n) 6 =? 2) && (Z.land (Z.lor 0x80 n) 0x1F =? n) &&
    (Z.land (Z.lor 0x80 n) 0x20 =? 0)) 32 n ltac:(vm_compute; reflexivity) ltac:(lia)) as H.
  rewrite !andb_true_iff, Z.leb_le, Z.ltb_lt, !Z.eqb_eq in H. unfold is_byte. lia.
Qed.

Lemma app_frame_len a : app_ok a -> len (f_body (app_frame a)) = 8 + len (ap_data a).
Proof. intros (_ & _ & Hn & _). cbn [f_body app_frame]. rewrite !len_app, len_be_enc. lia. Qed.

Lemma app_frame_ok a : app_ok a -> frame_ok (app_frame a).
Proof.
  intros Ha. pose proof (app_frame_len a Ha) as Hl. unfold frame_ok. rewrite Hl.
  destruct Ha as (Hs & _ & Hn & Hnb & _ & Hd & Hm & Hmax). unfold APP_MAX_DATA_LEN, APP_HEADER_LEN in Hmax.
  pose proof (lor_80 _ Hs) as (? & ? & _). cbn [f_h0 f_type f_body app_frame]. rewrite !bytes_ok_app.
  split; [done|]. split; [done|]. split; [done|].
  split; [auto using be_enc_bytes|]. split; [|apply Z.div_lt_upper_bound; lia].
  rewrite Z.add_mod, Hm by lia. done.
Qed.

Lemma write_app_Ok a out :
  app_ok a -> APP_HEADER_LEN + len (ap_data a) <= len out ->
  write_app (ap_subtype a) (ap_ssrc a) (ap_name a) (ap_data a) out =
  Ok (APP_HEADER_LEN + len (ap_data a),
      frame_bytes (app_frame a) ++ drop (length (frame_bytes (app_frame a))) out).
Proof.
  intros Ha Ho. pose proof (frame_words _ (app_frame_ok a Ha)) as [Hw [_ Hfit]].
  pose proof (len_frame_bytes (app_frame a)) as Hfl. rewrite (app_frame_len a Ha) in *.
  pose proof Ha as (Hs & _ & Hn & _ & Hasc & _ & Hm & Hmax).
  unfold APP_MAX_DATA_LEN, APP_HEADER_LEN in *. pose proof (len_nonneg (ap_data a)).
  assert ((12 + len (ap_data a)) / 4 - 1 = (8 + len (ap_data a)) / 4) as Hdiv.
  { replace (12 + len (ap_data a)) with (8 + len (ap_data a) + 1 * 4) by lia. rewrite Z.div_add by lia. lia. }
  unfold write_app, APP_MAX_DATA_LEN, APP_HEADER_LEN, set_at. rewrite Hasc, Hm, Hdiv. cbn [negb Z.eqb].
  rewrite (proj2 (Z.ltb_ge 0x1F _)), (proj2 (Z.ltb_ge ((65535 + 1) * 4 - 12) _)),
    (proj2 (Z.ltb_ge (len out) _)), (proj2 (Z.ltb_ge 65535 _)) by lia.
  rewrite copy_at_first, bind_Ok by (rewrite len_cons, len_nil; lia).
  do 5 (copy_step; rewrite bind_Ok). unfold mret, res_ret. repeat f_equal.
  all: unfold frame_bytes; rewrite (app_frame_len a Ha); cbn [f_h0 f_type f_body app_frame];
    by rewrite <- !app_assoc.
Qed.

Lemma app_view_app_frame a : app_ok a -> app_view (app_frame a) = Ok (Some a).
Proof.
  intros Ha. pose proof (len_frame_bytes (app_frame a)) as Hl. rewrite (app_frame_len a Ha) in Hl.
  pose proof Ha as (Hs & Hss & Hn & _ & _ & _ & _ & _). pose proof (len_nonneg (ap_data a)).
  pose proof (lor_80 _ Hs) as (_ & _ & H1f & H20).
  unfold app_view, read_one_app, APP_HEADER_LEN. cbn [f_h0 f_type app_frame]. rewrite H1f, H20. cbn [negb Z.eqb].
  change (APP =? APP) with true. cbn [negb]. rewrite (proj2 (Z.ltb_ge _ 12)) by lia.
  rewrite slice_Ok by lia. unfold mret, res_ret. rewrite !bind_Ok.
  destruct a as [st ss name data]. cbn [ap_subtype ap_ssrc ap_name ap_data] in *.
  destruct name as [|n0 [|n1 [|n2 [|n3 [|? ?]]]]]; try (unfold len in Hn; simpl in Hn; lia).
  set (hd := [Z.lor 0x80 st; APP] ++ be_enc 2 ((8 + len data) / 4)).
  assert (frame_bytes (app_frame (mkAppPacket st ss [n0; n1; n2; n3] data)) =
    hd ++ be_enc 4 ss ++ [n0; n1; n2; n3] ++ data) as ->.
  { unfold frame_bytes. rewrite (app_frame_len _ Ha). unfold hd. by rewrite <- app_assoc. }
  rewrite (be32_at_app hd _ ss 4 eq_refl Hss), bind_Ok.
  assert (len hd = 4) as Hhd by done.
  rewrite !(idx_app_r hd), !(idx_app_r (be_enc 4 ss)) by (rewrite ?len_be_enc; lia).
  rewrite Hhd, len_be_enc. cbn [Z.of_nat Pos.of_succ_nat Pos.succ]. simpl (_ - _ - _).
  cbn [app]. rewrite idx_cons_0, bind_Ok. unfold mret, res_ret.
  assert (sub (hd ++ be_enc 4 ss ++ n0 :: n1 :: n2 :: n3 :: data) 12
    (len (hd ++ be_enc 4 ss ++ n0 :: n1 :: n2 :: n3 :: data)) = data) as ->; [|done].
  change (n0 :: n1 :: n2 :: n3 :: data) with ([n0; n1; n2; n3] ++ data).
  rewrite (app_assoc hd), (app_assoc (hd ++ be_enc 4 ss) [n0; n1; n2; n3] data).
  apply sub_app_end; rewrite !len_app, ?len_be_enc, Hhd; unfold len; simpl; lia.
Qed.

Definition reception_ok (r : ReceptionReport) : Prop :=
  fits 32 (rr_ssrc r) /\ is_byte (rr_fraction_lost r) /\ - 2 ^ 23 <= rr_cumulative_lost r < 2 ^ 23 /\
  fits 32 (rr_extended_highest_seq r) /\ fits 32 (rr_jitter r) /\ fits 32 (rr_last_sr r) /\
  fits 32 (rr_delay_last_sr r).

Definition reception_bytes (r : ReceptionReport) : bytes :=
  be_enc 4 (rr_ssrc r) ++ [rr_fraction_lost r] ++ be_enc 3 (Z.land (rr_cumulative_lost r) 0x00FFFFFF) ++
  be_enc 4 (rr_extended_highest_seq r) ++ be_enc 4 (rr_jitter r) ++ be_enc 4 (rr_last_sr r) ++
  be_enc 4 (rr_delay_last_sr r).

(** The same report as the receiver's parser presents it. *)
Definition reception_view (r : ReceptionReport) : ReportBlock :=
  mkReportBlock (rr_ssrc r) (rr_fraction_lost r) (rr_cumulative_lost r) (rr_extended_highest_seq r)
    (rr_jitter r) (rr_last_sr r) (rr_delay_last_sr r).

Lemma len_reception_bytes r : len (reception_bytes r) = 24.
Proof. done. Qed.

Lemma len_receptions rs : len (concat (reception_bytes <$> rs)) = 24 * len rs.
Proof.
  induction rs as [|r rs IH]; [done|]. cbn [fmap list_fmap concat].
  rewrite len_app, len_reception_bytes, IH, len_cons. lia.
Qed.

Lemma sign_extend_24_land c : - 2 ^ 23 <= c < 2 ^ 23 -> sign_extend_24 (Z.land c 0x00FFFFFF) = c.
Proof.
  intros Hc. change 0x00FFFFFF with (Z.ones 24). rewrite Z.land_ones by lia.
  assert (0 <= c mod 2 ^ 24 < 2 ^ 24) by (apply Z.mod_pos_bound; lia).
  unfold sign_extend_24, to_signed. change 0x00800000 with (2 ^ 23).
  rewrite land_top_bit by (simpl; lia). destruct (Z.lt_ge_cases c 0).
  - assert (c mod 2 ^ 24 = c + 2 ^ 24) as -> by (symmetry; apply Z.mod_unique with (-1); lia).
    assert ((c + 2 ^ 24) / 2 ^ 23 = 1) as -> by (symmetry; apply Z.div_unique with (c + 2 ^ 23); lia).
    change (2 ^ 23 * 1 =? 0) with false. cbn [negb].
    rewrite Z.lor_comm. change 0xFF000000 with (Z.shiftl 255 24). rewrite lor_shiftl_add by lia.
    rewrite (proj2 (Z.ltb_ge _ _)) by lia. lia.
  - rewrite (Z.mod_small c) by lia. rewrite (Z.div_small c) by lia. change (2 ^ 23 * 0 =? 0) with true.
    cbn [negb]. rewrite (proj2 (Z.ltb_lt _ _)) by lia. done.
Qed.

Lemma reception_bytes_view r : reception_ok r -> block_view (reception_bytes r) = reception_view r.
Proof.
  intros (H1 & H2 & H3 & H4 & H5 & H6 & H7). unfold block_view, reception_view.
  assert (forall n (x : Z) a l1 l2, fits (8 * Z.of_nat n) x -> a = len l1 ->
    be_dec (sub (l1 ++ be_enc n x ++ l2) a (a + Z.of_nat n)) = x) as Hf.
  { intros n x a l1 l2 Hx ->. rewrite sub_app_mid by (rewrite ?len_be_enc; lia).
    apply be_dec_enc_fits. change 256 with (2 ^ 8). by rewrite <- Z.pow_mul_r by lia. }
  set (c3 := be_enc 3 (Z.land (rr_cumulative_lost r) 0x00FFFFFF)).
  f_equal.
  - exact (Hf 4%nat _ 0 [] _ H1 eq_refl).
  - rewrite <- (sign_extend_24_land (rr_cumulative_lost r)) by done. f_equal.
    assert (sub (reception_bytes r) 5 8 = c3) as ->.
    { apply (sub_app_mid (be_enc 4 (rr_ssrc r) ++ [rr_fraction_lost r]) c3); done. }
    change (be_dec (0 :: c3)) with (be_dec c3). apply be_dec_enc_fits.
    change 0x00FFFFFF with (Z.ones 24). rewrite Z.land_ones by lia. apply Z.mod_pos_bound. lia.
  - exact (Hf 4%nat _ 8 (be_enc 4 (rr_ssrc r) ++ [rr_fraction_lost r] ++ c3) _ H4 eq_refl).
  - exact (Hf 4%nat _ 12 (be_enc 4 (rr_ssrc r) ++ [rr_fraction_lost r] ++ c3 ++
      be_enc 4 (rr_extended_highest_seq r)) _ H5 eq_refl).
  - exact (Hf 4%nat _ 16 (be_enc 4 (rr_ssrc r) ++ [rr_fraction_lost r] ++ c3 ++
      be_enc 4 (rr_extended_highest_seq r) ++ be_enc 4 (rr_jitter r)) _ H6 eq_refl).
  - pose proof (Hf 4%nat _ 20 (be_enc 4 (rr_ssrc r) ++ [rr_fraction_lost r] ++ c3 ++
      be_enc 4 (rr_extended_highest_seq r) ++ be_enc 4 (rr_jitter r) ++ be_enc 4 (rr_last_sr r)) []
      H7 eq_refl) as H. rewrite app_nil_r in H. exact H.
Qed.

Lemma blocks_view_receptions rs : forall pre index post,
  Forall reception_ok rs -> len pre = index * 24 ->
  blocks_view index (length rs) (pre ++ concat (reception_bytes <$> rs) ++ post) = reception_view <$> rs.
Proof.
  induction rs as [|r rs IH]; intros pre index post Hrs Hi; [done|].
  apply Forall_cons_1 in Hrs as [Hr Hrs]. cbn [fmap list_fmap concat length blocks_view].
  pose proof (len_nonneg (concat (reception_bytes <$> rs))). pose proof (len_nonneg post).
  rewrite !len_app, len_reception_bytes. rewrite (proj2 (Z.leb_le _ _)) by lia.
  rewrite <- (app_assoc (reception_bytes r)), sub_app_mid by (rewrite ?len_reception_bytes; lia).
  rewrite reception_bytes_view by done. f_equal. rewrite app_assoc.
  apply IH; [done|]. rewrite len_app, len_reception_bytes. lia.
Qed.

Lemma write_reception_seq r pre out base :
  base = len pre -> len pre + 24 <= len out ->
  write_reception base r (pre ++ drop (length pre) out) =
  Ok ((pre ++ reception_bytes r) ++ drop (length (pre ++ reception_bytes r)) out).
Proof.
  intros -> Hl. unfold write_reception, set_at. cbv zeta.
  change (sub (be_enc 4 (Z.land (rr_cumulative_lost r) 0x00FFFFFF)) 1 4)
    with (be_enc 3 (Z.land (rr_cumulative_lost r) 0x00FFFFFF)).
  do 6 (copy_step; rewrite bind_Ok). copy_step.
  unfold reception_bytes. by rewrite <- !app_assoc.
Qed.

Lemma write_receptions_seq rs : forall pre out index,
  len pre = 28 + index * 24 -> len pre + 24 * len rs <= len out ->
  write_receptions index rs (pre ++ drop (length pre) out) =
  Ok ((pre ++ concat (reception_bytes <$> rs)) ++
      drop (length (pre ++ concat (reception_bytes <$> rs))) out).
Proof.
  induction rs as [|r rs IH]; intros pre out index Hi Hl.
  - cbn [write_receptions fmap list_fmap concat]. by rewrite app_nil_r.
  - cbn [write_receptions fmap list_fmap concat]. pose proof (len_nonneg rs). rewrite len_cons in Hl.
    unfold SENDER_REPORT_LEN, RECEPTION_REPORT_LEN. rewrite write_reception_seq, bind_Ok by lia.
    rewrite IH by (rewrite len_app, len_reception_bytes; lia). by rewrite <- !app_assoc.
Qed.

Definition sender_report_frame (r : SenderReport) (rs : list ReceptionReport) : frame :=
  mkFrame (Z.lor 0x80 (len rs)) SENDER_REPORT
    (be_enc 4 (sr_ssrc r) ++ be_enc 8 (sr_ntp_timestamp r) ++ be_enc 4 (sr_rtp_timestamp r) ++
     be_enc 4 (sr_packet_count r) ++ be_enc 4 (sr_octet_count r) ++ concat (reception_bytes <$> rs)).

Lemma len_sender_report_body r rs :
  len (f_body (sender_report_frame r rs)) = 24 + 24 * len rs.
Proof.
  cbn [f_body sender_report_frame]. rewrite !len_app, !len_be_enc, len_receptions. lia.
Qed.

Lemma reception_bytes_ok r : reception_ok r -> bytes_ok (reception_bytes r).
Proof.
  intros (_ & H & _). unfold reception_bytes. rewrite !bytes_ok_app, bytes_ok_cons.
  split_and!; auto using be_enc_bytes, bytes_ok_nil.
Qed.

Lemma receptions_bytes_ok rs : Forall reception_ok rs -> bytes_ok (concat (reception_bytes <$> rs)).
Proof.
  induction 1; cbn [fmap list_fmap concat]; [apply bytes_ok_nil|].
  apply bytes_ok_app. auto using reception_bytes_ok.
Qed.

Lemma sender_report_frame_ok r rs :
  Forall reception_ok rs -> len rs <= 31 -> frame_ok (sender_report_frame r rs).
Proof.
  intros Hrs Hn. pose proof (len_nonneg rs). pose proof (lor_80 (len rs) ltac:(lia)) as (? & ? & _).
  unfold frame_ok. rewrite len_sender_report_body. cbn [f_h0 f_type f_body sender_report_frame].
  rewrite !bytes_ok_app. split; [done|]. split; [done|]. split; [done|].
  split; [auto 8 using be_enc_bytes, receptions_bytes_ok|].
  replace (24 + 24 * len rs) with ((6 + 6 * len rs) * 4) by lia.
  rewrite Z.mod_mul, Z.div_mul by lia. lia.
Qed.

Lemma write_sender_report_Ok r rs out :
  len rs <= 31 -> 28 + len rs * 24 <= len out ->
  write_sender_report (sr_ssrc r) (sr_ntp_timestamp r) (sr_rtp_timestamp r) (sr_packet_count r)
    (sr_octet_count r) rs out =
  Ok (Some (28 + len rs * 24, frame_bytes (sender_report_frame r rs) ++
    drop (length (frame_bytes (sender_report_frame r rs))) out)).
Proof.
  intros Hn Ho. pose proof (len_nonneg rs). unfold write_sender_report, SENDER_REPORT_LEN, RECEPTION_REPORT_LEN.
  rewrite Z.min_l by lia. rewrite (proj2 (Z.ltb_ge _ _)) by lia. unfold set_at. cbv zeta.
  rewrite to_nat_len, firstn_all. replace (wrap 8 (len rs)) with (len rs)
    by (symmetry; apply Z.mod_small; lia).
  replace (wrap 16 ((28 + len rs * 24) / 4 - 1)) with (len (f_body (sender_report_frame r rs)) / 4).
  2: { rewrite len_sender_report_body. replace (28 + len rs * 24) with ((7 + 6 * len rs) * 4) by lia.
       replace (24 + 24 * len rs) with ((6 + 6 * len rs) * 4) by lia. rewrite !Z.div_mul by lia.
       symmetry. replace (7 + 6 * len rs - 1) with (6 + 6 * len rs) by lia. apply Z.mod_small. lia. }
  rewrite copy_at_first, bind_Ok by (rewrite len_cons, len_nil; lia).
  do 7 (copy_step; rewrite bind_Ok).
  rewrite write_receptions_seq, bind_Ok by (rewrite ?len_app, ?len_be_enc, ?len_cons, ?len_nil; lia).
  unfold mret, res_ret, frame_bytes. cbn [f_h0 f_type f_body sender_report_frame].
  by rewrite <- !app_assoc.
Qed.

(** The view of a written Sender Report is the report that was written. *)
Lemma sender_report_frame_view r rs :
  Forall reception_ok rs -> len rs <= 31 -> fits 32 (sr_ssrc r) -> fits 64 (sr_ntp_timestamp r) ->
  fits 32 (sr_rtp_timestamp r) -> fits 32 (sr_packet_count r) -> fits 32 (sr_octet_count r) ->
  frame_view (sender_report_frame r rs) =
  PktSenderReport (mkSenderReport (sr_ssrc r) (sr_ntp_timestamp r) (sr_rtp_timestamp r)
    (sr_packet_count r) (sr_octet_count r) (reception_view <$> rs)).
Proof.
  intros Hrs Hn H1 H2 H3 H4 H5. pose proof (len_nonneg rs). unfold frame_view.
  rewrite len_sender_report_body. change (f_type (sender_report_frame r rs) =? SENDER_REPORT) with true.
  rewrite (proj2 (Z.leb_le _ _)) by lia. cbn [andb].
  cbn [f_h0 f_body sender_report_frame]. destruct (lor_80 (len rs)) as (_ & _ & -> & _); [lia|].
  rewrite to_nat_len. set (ntp := sr_ntp_timestamp r) in *. set (recs := concat (reception_bytes <$> rs)).
  assert (be_enc 8 ntp = be_enc 4 (ntp / 2 ^ 32) ++ be_enc 4 ntp) as Hntp.
  { exact (be_enc_split 4 4 ntp). }
  rewrite Hntp, <- !app_assoc.
  assert (forall (x : Z) a b l1 l2, fits 32 x -> a = len l1 -> b = a + 4 ->
    be_dec (sub (l1 ++ be_enc 4 x ++ l2) a b) = x) as Hf.
  { intros x a b l1 l2 Hx -> ->. rewrite sub_app_mid by (rewrite ?len_be_enc; lia). by apply be_dec_enc_fits. }
  assert (fits 32 (ntp / 2 ^ 32)) as Hhi.
  { unfold fits in *. split; [apply Z.div_pos; lia|]. apply Z.div_lt_upper_bound; lia. }
  f_equal. f_equal.
  - by apply (Hf _ 0 4 []).
  - rewrite (Hf (ntp / 2 ^ 32) 4 8 (be_enc 4 (sr_ssrc r))) by done.
    rewrite app_assoc, sub_app_mid by done. rewrite be_dec_enc.
    rewrite lor_shiftl_add by (try apply Z.mod_pos_bound; lia). change (256 ^ Z.of_nat 4) with (2 ^ 32).
    pose proof (Z.div_mod ntp (2 ^ 32)). lia.
  - rewrite !(app_assoc (be_enc 4 (sr_ssrc r))), !(app_assoc (_ ++ _) (be_enc 4 ntp)).
    by apply (Hf _ 12 16 ((be_enc 4 (sr_ssrc r) ++ be_enc 4 (ntp / 2 ^ 32)) ++ be_enc 4 ntp)).
  - rewrite !app_assoc, <- (app_assoc _ _ recs), <- (app_assoc _ _ (_ ++ recs)). by apply Hf.
  - rewrite !app_assoc, <- (app_assoc _ _ recs). by apply Hf.
  - rewrite !app_assoc. rewrite sub_app_end by (rewrite ?len_app, ?len_be_enc; unfold recs; rewrite ?len_receptions; lia).
    rewrite <- (app_nil_r recs). by apply (blocks_view_receptions rs [] 0 []).
Qed.

(** ** The SSRC rewriter against the layout *)

Definition carries_sender (f : frame) : bool :=
  ((f_type f =? SENDER_REPORT) || (f_type f =? RECEIVER_REPORT)) && (4 <=? len (f_body f)).

Definition set_sender (ssrc : Z) (f : frame) : frame :=
  if carries_sender f then mkFrame (f_h0 f) (f_type f) (be_enc 4 ssrc ++ drop 4 (f_body f)) else f.

Definition packet_set_sender (ssrc : Z) (p : RtcpPacket) : RtcpPacket :=
  match p with
  | PktSenderReport r => PktSenderReport (mkSenderReport ssrc (sr_ntp_timestamp r)
      (sr_rtp_timestamp r) (sr_packet_count r) (sr_octet_count r) (sr_reports r))
  | PktReceiverReport r => PktReceiverReport (mkReceiverReport ssrc (rcv_reports r))
  | PktOther t => PktOther t
  end.

Lemma len_set_sender ssrc f : len (f_body (set_sender ssrc f)) = len (f_body f).
Proof.
  unfold set_sender, carries_sender. case_match; [|done]. cbn [f_body].
  apply andb_true_iff in H as [_ H%Z.leb_le]. rewrite len_app, len_be_enc, len_drop. lia.
Qed.

Lemma set_sender_ok ssrc f : frame_ok f -> frame_ok (set_sender ssrc f).
Proof.
  intros (? & ? & ? & Hb & ? & ?). unfold frame_ok. rewrite len_set_sender. unfold set_sender.
  case_match; cbn [f_h0 f_type f_body]; split_and!; try done.
  apply bytes_ok_app. split; [apply be_enc_bytes|by apply Forall_drop].
Qed.

Lemma sub_replace_head (l1 l2 : bytes) n a b :
  len l1 = Z.of_nat n -> Z.of_nat n <= a <= b -> Z.of_nat n <= len l2 ->
  sub (l1 ++ drop n l2) a b = sub l2 a b.
Proof.
  intros Hl Ha Hn. rewrite sub_app_r by lia. rewrite <- (take_drop n l2) at 2.
  rewrite (sub_app_r (take n l2)) by (rewrite len_take; lia). rewrite len_take. do 2 f_equal; lia.
Qed.

Lemma frame_view_set_sender ssrc f :
  fits 32 ssrc -> frame_view (set_sender ssrc f) = packet_set_sender ssrc (frame_view f).
Proof.
  intros Hs. pose proof (len_set_sender ssrc f) as Hl. unfold frame_view. rewrite !Hl.
  assert (f_h0 (set_sender ssrc f) = f_h0 f /\ f_type (set_sender ssrc f) = f_type f) as [-> ->].
  { unfold set_sender. by case_match. }
  assert (carries_sender f = true ->
    f_body (set_sender ssrc f) = be_enc 4 ssrc ++ drop 4 (f_body f)) as Hb.
  { intros Hc. unfold set_sender. by rewrite Hc. }
  assert (be_dec (sub (be_enc 4 ssrc ++ drop 4 (f_body f)) 0 4) = ssrc) as H0.
  { rewrite sub_app_begin by done. by apply be_dec_enc_fits. }
  unfold carries_sender in Hb.
  destruct (f_type f =? SENDER_REPORT), (f_type f =? RECEIVER_REPORT),
    (Z.leb_spec 24 (len (f_body f))), (Z.leb_spec 4 (len (f_body f))); try lia;
    cbn [andb orb] in *; cbn [packet_set_sender]; try done;
    rewrite Hb by done; rewrite H0, ?sub_replace_head by (rewrite ?len_be_enc; lia); done.
Qed.

Lemma validate_framed s fs oe :
  framed s fs oe -> forall fuel pre, bytes_ok s -> (length s < fuel)%nat ->
  validate_compound fuel (pre ++ s) (len pre) = Ok (bool_decide (oe = None)).
Proof.
  induction 1 as [|f fs r oe Hf Hr IH|s e Hne He]; intros [|fuel] pre Hs Hfuel; try lia.
  - cbn [validate_compound]. by rewrite app_nil_r, Z.ltb_irrefl.
  - cbn [validate_compound]. pose proof (frame_words f Hf) as [Hw Hfit].
    pose proof (len_frame_bytes f) as Hl. pose proof (len_nonneg (f_body f)). pose proof (len_nonneg r).
    rewrite !len_app. rewrite (proj2 (Z.ltb_lt _ _)) by lia.
    pose proof (len_nonneg pre). rewrite get_range_Some by (rewrite ?len_app; lia).
    rewrite sub_app_r, Z.sub_diag, sub_app_l by lia. replace (len pre + 4 - len pre) with 4 by lia.
    assert (sub (frame_bytes f) 0 4 = f_h0 f :: f_type f :: be_enc 2 (len (f_body f) / 4)) as ->.
    { unfold frame_bytes. rewrite app_assoc. by apply sub_app_begin. }
    rewrite idx_cons_0, bind_Ok. pose proof Hf as (_ & Hv & _). rewrite Hv. cbn [negb Z.eqb Pos.eqb].
    pose proof (@be16_at_app RtcpError [f_h0 f; f_type f] [] _ 2 eq_refl Hfit) as Hbe.
    rewrite app_nil_r in Hbe. cbn [app] in Hbe. rewrite Hbe, bind_Ok, Hw. cbv zeta.
    rewrite (proj2 (Z.eqb_neq _ _)), (proj2 (Z.ltb_ge _ _)) by lia. cbn [orb].
    rewrite app_assoc, <- len_app. apply IH; [apply bytes_ok_app in Hs; tauto|].
    rewrite length_app in Hfuel. unfold len in *. lia.
  - cbn [validate_compound]. assert (len s <> 0) by (by rewrite len_zero_iff). pose proof (len_nonneg s).
    pose proof (len_nonneg pre). rewrite len_app, (proj2 (Z.ltb_lt _ _)) by lia.
    unfold next_frame in He. destruct (Z.ltb_spec (len s) 4).
    { rewrite (proj2 (get_range_None_iff _ _ _)) by (rewrite len_app; lia). done. }
    rewrite get_range_Some by (rewrite ?len_app; lia). rewrite sub_app_r, Z.sub_diag by lia.
    replace (len pre + 4 - len pre) with 4 by lia.
    rewrite (idx_sub s 0 4 0), idx_byte_of, bind_Ok by lia. change (0 + 0) with 0.
    destruct (negb (Z.shiftr (byte_of s 0) 6 =? 2)); [done|].
    rewrite be16_at_sub, bind_Ok by (rewrite ?len_sub; lia). rewrite sub_sub by lia.
    change (0 + 2) with 2. change (0 + (2 + 2)) with 4. cbv zeta in He |- *.
    destruct (Z.ltb_spec (len s) ((be_dec (sub s 2 4) + 1) * 4)); [|done].
    rewrite (proj2 (Z.ltb_lt (len pre + len s) _)), orb_true_r by lia. done.
Qed.

Lemma rewrite_loop_framed ssrc s fs oe :
  framed s fs oe -> oe = None -> forall fuel pre n, (length s < fuel)%nat ->
  rewrite_loop fuel (pre ++ s) ssrc (len pre) n =
  Ok (n + len (filter (fun f => carries_sender f = true) fs),
      pre ++ concat (frame_bytes <$> (set_sender ssrc <$> fs))).
Proof.
  induction 1 as [|f fs r oe Hf Hr IH|s e Hne He]; intros Hoe [|fuel] pre n Hfuel; try lia; [| |done].
  - cbn. by rewrite app_nil_r, Z.ltb_irrefl, Z.add_0_r.
  - cbn [rewrite_loop]. pose proof (frame_words f Hf) as [Hw Hfit].
    pose proof (len_frame_bytes f) as Hl. pose proof (len_nonneg (f_body f)). pose proof (len_nonneg r).
    pose proof (len_nonneg pre). rewrite length_app in Hfuel.
    rewrite !len_app, (proj2 (Z.ltb_lt _ _)) by lia.
    rewrite idx_app_r by lia. replace (len pre + 1 - len pre) with 1 by lia.
    change (idx (frame_bytes f ++ r) 1) with (@Ok RtcpError Z (f_type f)). rewrite bind_Ok.
    assert (@be16_at RtcpError (pre ++ frame_bytes f ++ r) (len pre + 2) = Ok (len (f_body f) / 4)) as ->.
    { unfold frame_bytes. rewrite <- !app_assoc, app_assoc. apply be16_at_app; [|done]. rewrite len_app. done. }
    rewrite bind_Ok, Hw. cbv zeta.
    assert ((8 <=? len (frame_bytes f)) = (4 <=? len (f_body f))) as ->.
    { rewrite Hl. destruct (Z.leb_spec 8 (4 + len (f_body f))), (Z.leb_spec 4 (len (f_body f))); lia || done. }
    change (_ && _) with (carries_sender f). rewrite filter_cons, !fmap_cons. cbn [concat].
    destruct (carries_sender f) eqn:Hc.
    + unfold set_sender at 1. rewrite Hc. rewrite decide_True by done.
      apply andb_true_iff in Hc as [_ Hc%Z.leb_le].
      set (hd := [f_h0 f; f_type f] ++ be_enc 2 (len (f_body f) / 4)).
      assert (frame_bytes f = hd ++ take 4 (f_body f) ++ drop 4 (f_body f)) as Hfb.
      { unfold frame_bytes, hd. by rewrite <- app_assoc, take_drop. }
      assert (frame_bytes (mkFrame (f_h0 f) (f_type f) (be_enc 4 ssrc ++ drop 4 (f_body f))) =
        hd ++ be_enc 4 ssrc ++ drop 4 (f_body f)) as Hfb'.
      { unfold frame_bytes, hd. cbn [f_h0 f_type f_body].
        replace (len (be_enc 4 ssrc ++ drop 4 (f_body f))) with (len (f_body f)).
        2: { rewrite len_app, len_be_enc, len_drop. lia. } by rewrite <- app_assoc. }
      rewrite Hfb, <- !app_assoc, (app_assoc pre).
      rewrite copy_at_mid, bind_Ok; [| |rewrite len_take, len_be_enc; lia].
      2: { rewrite len_app. done. }
      rewrite <- (app_assoc pre), (app_assoc (be_enc 4 ssrc)), (app_assoc hd), <- Hfb', (app_assoc pre).
      replace (len pre + len (hd ++ take 4 (f_body f) ++ drop 4 (f_body f)))
        with (len (pre ++ frame_bytes (mkFrame (f_h0 f) (f_type f) (be_enc 4 ssrc ++ drop 4 (f_body f))))).
      2: { rewrite len_app, Hfb', !len_app, len_be_enc, len_take. lia. }
      rewrite IH by (done || (unfold len in *; lia)). rewrite len_cons, <- app_assoc. do 2 f_equal. lia.
    + unfold set_sender at 1. rewrite Hc. rewrite decide_False by done.
      rewrite app_assoc, <- len_app, IH by (done || (unfold len in *; lia)). by rewrite <- app_assoc.
Qed.

Lemma framed_concat fs : Forall frame_ok fs -> framed (concat (frame_bytes <$> fs)) fs None.
Proof. induction 1; cbn [fmap list_fmap concat]; by constructor. Qed.

Lemma framed_None s fs oe : framed s fs oe -> oe = None -> s = concat (frame_bytes <$> fs) /\ Forall frame_ok fs.
Proof.
  induction 1 as [|f fs r oe Hf Hr IH|]; intros Hoe; [done| |done].
  destruct (IH Hoe) as [-> ?]. split; [done|]. by constructor.
Qed.

Lemma concat_frames_ok fs : Forall frame_ok fs -> bytes_ok (concat (frame_bytes <$> fs)).
Proof.
  induction 1; cbn [fmap list_fmap concat]; [apply bytes_ok_nil|].
  apply bytes_ok_app. auto using frame_bytes_ok.
Qed.

Lemma framed_parse_Ok buffer fs :
  bytes_ok buffer -> framed buffer fs None -> parse_compound buffer = Ok (frame_view <$> fs).
Proof. intros Hb Hf. by rewrite (parse_compound_framed _ _ _ Hb Hf). Qed.

Lemma app_items_shape fs oe : Forall frame_ok fs ->
  exists apps, app_items fs oe = Ok <$> apps \/ exists e, app_items fs oe = (Ok <$> apps) ++ [Err e].
Proof.
  induction 1 as [|f fs Hf _ IH]; cbn [app_items].
  - exists []. destruct oe; eauto.
  - pose proof (app_view_no_panic f Hf). destruct (app_view f) as [[a|]|e|]; [|done| |done].
    + destruct IH as (apps & [->|(e & ->)]); exists (a :: apps); eauto.
    + exists []. eauto.
Qed.

Lemma framed_Forall s fs oe : framed s fs oe -> Forall frame_ok fs.
Proof. induction 1; by constructor. Qed.

(** A packet of an outgoing compound: an APP packet this module writes, or any
    other well-formed RTCP packet. *)
Definition item_frame (i : frame + AppPacket) : frame :=
  match i with inl f => f | inr a => app_frame a end.
Definition item_ok (i : frame + AppPacket) : Prop :=
  match i with inl f => frame_ok f /\ f_type f <> APP | inr a => app_ok a end.
Definition item_app (i : frame + AppPacket) : option AppPacket :=
  match i with inl _ => None | inr a => Some a end.

Lemma app_items_items items :
  Forall item_ok items -> app_items (item_frame <$> items) None = Ok <$> omap item_app items.
Proof.
  induction 1 as [|[f|a] items Hi _ IH]; [done| |]; cbn [fmap list_fmap app_items item_frame].
  - unfold app_view, read_one_app. cbv zeta. destruct Hi as [_ Hi].
    rewrite (proj2 (Z.eqb_neq _ _) Hi). exact IH.
  - rewrite app_view_app_frame by done. cbn. by rewrite IH.
Qed.

Lemma item_frame_ok items : Forall item_ok items -> Forall frame_ok (item_frame <$> items).
Proof.
  induction 1 as [|[f|a] items Hi _ IH]; constructor; try done; [apply Hi|by apply app_frame_ok].
Qed.

(** ** Theorems *)

(** [parse_compound] never panics and terminates on any datagram, and it
    succeeds exactly on the concatenations of well-formed RTCP packets,
    returning the decoded fields of each in order; the APP walk over the same
    bytes terminates too, yields packets and at most one error, the last item. *)
Lemma rtcp_parse_exact buffer :
  bytes_ok buffer ->
  no_panic (parse_compound buffer) /\
  (forall packets, parse_compound buffer = Ok packets <->
     exists fs, Forall frame_ok fs /\ buffer = concat (frame_bytes <$> fs) /\ packets = frame_view <$> fs) /\
  exists apps, all_app_packets buffer = Ok <$> apps \/
    exists e, all_app_packets buffer = (Ok <$> apps) ++ [Err e].
Proof.
  intros Hb. destruct (framed_exists buffer Hb) as (fs & oe & Hf).
  pose proof (parse_compound_framed _ _ _ Hb Hf) as Hp. rewrite Hp. split_and!.
  - by destruct oe.
  - intros packets. split.
    + destruct oe as [e|]; [done|]. intros [= <-].
      destruct (framed_None _ _ _ Hf eq_refl) as [-> ?]. eauto.
    + intros (fs' & Hok & -> & ->). rewrite <- Hp. apply framed_parse_Ok; [done|]. by apply framed_concat.
  - pose proof (collect_framed (S (length buffer)) buffer fs oe [] Hf Hb ltac:(lia)) as Hc.
    unfold all_app_packets, app_packets. change (len []) with 0 in Hc. cbn [app] in Hc. rewrite Hc.
    apply app_items_shape. by eapply framed_Forall.
Qed.

Lemma rtcp_parse_exact_witness :
  let buffer := [0x81; 201; 0; 7; 0; 0; 0; 5; 0; 0; 0; 9; 3; 0xFF; 0xFF; 0xFE; 0; 0; 1; 0;
                 0; 0; 0; 1; 0; 0; 0; 2; 0; 0; 0; 3; 0x80; 203; 0; 0] in
  bytes_ok buffer /\ no_panic (parse_compound buffer) /\
  parse_compound buffer =
    Ok [PktReceiverReport (mkReceiverReport 5 [mkReportBlock 9 3 (-2) 256 1 2 3]); PktOther 203].
Proof.
  intros buffer. assert (bytes_ok buffer) as Hb by (repeat constructor; unfold is_byte; lia).
  split; [exact Hb|]. split; [exact (proj1 (rtcp_parse_exact buffer Hb))|vm_compute; reflexivity].
Defined.

(** [rewrite_report_sender_ssrc] on a well-formed compound replaces the four
    sender bytes of every SR and RR, keeps every other byte, counts the packets it
    changed, and the result parses to the same packets with the new sender; a
    datagram that does not walk cleanly is left untouched with a count of zero. *)
Lemma rewrite_sender_ssrc_correct buffer ssrc :
  bytes_ok buffer -> fits 32 ssrc ->
  match parse_compound buffer with
  | Ok packets => exists fs,
      Forall frame_ok fs /\ buffer = concat (frame_bytes <$> fs) /\
      let out := concat (frame_bytes <$> (set_sender ssrc <$> fs)) in
      rewrite_report_sender_ssrc buffer ssrc = Ok (len (filter (fun f => carries_sender f = true) fs), out) /\
      parse_compound out = Ok (packet_set_sender ssrc <$> packets)
  | Err _ => rewrite_report_sender_ssrc buffer ssrc = Ok (0, buffer)
  | Panic => False
  end.
Proof.
  intros Hb Hs. destruct (framed_exists buffer Hb) as (fs & oe & Hf).
  rewrite (parse_compound_framed _ _ _ Hb Hf). unfold rewrite_report_sender_ssrc.
  pose proof (validate_framed _ _ _ Hf (S (length buffer)) [] Hb ltac:(lia)) as Hv.
  change (len []) with 0 in Hv. cbn [app] in Hv. rewrite Hv, bind_Ok.
  destruct oe as [e|]; [done|]. rewrite bool_decide_eq_true_2 by done. cbn [compound_result].
  pose proof (rewrite_loop_framed ssrc _ _ _ Hf eq_refl (S (length buffer)) [] 0 ltac:(lia)) as Hr.
  change (len []) with 0 in Hr. cbn [app] in Hr. rewrite Hr.
  destruct (framed_None _ _ _ Hf eq_refl) as [Hbuf Hok].
  assert (Forall frame_ok (set_sender ssrc <$> fs)) as Hok'.
  { apply Forall_fmap. eapply Forall_impl; [|exact Hok]. intros f. apply set_sender_ok. }
  exists fs. split_and!; [done|done|done|].
  rewrite (framed_parse_Ok _ _ (concat_frames_ok _ Hok') (framed_concat _ Hok')). f_equal.
  clear - Hs. induction fs as [|f fs IH]; [done|]. cbn [fmap list_fmap].
  rewrite frame_view_set_sender by done. f_equal. exact IH.
Qed.

Lemma rewrite_sender_ssrc_correct_witness :
  exists n out,
    rewrite_report_sender_ssrc [0x80; 201; 0; 1; 0; 0; 0; 5; 0x81; 203; 0; 1; 0; 0; 0; 5] 0x01020304
      = Ok (n, out) /\
    parse_compound out = Ok [PktReceiverReport (mkReceiverReport 0x01020304 []); PktOther 203].
Proof.
  destruct (rewrite_sender_ssrc_correct [0x80; 201; 0; 1; 0; 0; 0; 5; 0x81; 203; 0; 1; 0; 0; 0; 5]
    0x01020304) as (fs & _ & _ & H & Hp).
  - repeat constructor; unfold is_byte; lia.
  - unfold fits. lia.
  - eexists _, _. split; [exact H|exact Hp].
Defined.

(** A compound built from APP packets this module writes, with any other
    packets between them, is walked back into exactly those APP packets, in
    order; each [write_app] puts its packet at the front of the buffer. *)
Lemma app_roundtrip items :
  Forall item_ok items ->
  (forall a out, inr a ∈ items -> APP_HEADER_LEN + len (ap_data a) <= len out ->
     exists out', write_app (ap_subtype a) (ap_ssrc a) (ap_name a) (ap_data a) out =
       Ok (APP_HEADER_LEN + len (ap_data a), out') /\
       sub out' 0 (APP_HEADER_LEN + len (ap_data a)) = frame_bytes (item_frame (inr a))) /\
  all_app_packets (concat (frame_bytes <$> (item_frame <$> items))) = Ok <$> omap item_app items.
Proof.
  intros Hi. pose proof (item_frame_ok items Hi) as Hok. split.
  - intros a out Ha Hl. rewrite Forall_forall in Hi. apply list_elem_of_In in Ha. specialize (Hi _ Ha). cbn [item_ok] in Hi.
    rewrite write_app_Ok by done. eexists. split; [done|]. apply sub_app_begin.
    cbn [item_frame]. rewrite len_frame_bytes, app_frame_len by done. unfold APP_HEADER_LEN. lia.
  - rewrite <- (app_items_items items Hi). unfold all_app_packets, app_packets.
    apply (collect_framed _ _ _ None [] (framed_concat _ Hok) (concat_frames_ok _ Hok)). lia.
Qed.

Lemma app_roundtrip_witness :
  all_app_packets (concat (frame_bytes <$> (item_frame <$>
    [inl (mkFrame 0x81 203 [0; 0; 0; 7]); inr (mkAppPacket 5 99 [65; 66; 67; 68] [1; 2; 3; 4])]))) =
  [Ok (mkAppPacket 5 99 [65; 66; 67; 68] [1; 2; 3; 4])].
Proof.
  apply (app_roundtrip [inl (mkFrame 0x81 203 [0; 0; 0; 7]);
    inr (mkAppPacket 5 99 [65; 66; 67; 68] [1; 2; 3; 4])]).
  repeat constructor; unfold is_byte, APP, APP_MAX_DATA_LEN, APP_HEADER_LEN, len;
    simpl; try lia; congruence.
Defined.

(** The Sender Report written by [write_sender_report] (at most 31
    reception blocks) parses back as the same report: 64-bit NTP timestamp,
    counters and every block, the signed 24-bit cumulative loss included. *)
Lemma sender_report_roundtrip r reports out :
  Forall reception_ok reports -> len reports <= 31 -> fits 32 (sr_ssrc r) ->
  fits 64 (sr_ntp_timestamp r) -> fits 32 (sr_rtp_timestamp r) -> fits 32 (sr_packet_count r) ->
  fits 32 (sr_octet_count r) -> SENDER_REPORT_LEN + len reports * RECEPTION_REPORT_LEN <= len out ->
  exists total out',
    write_sender_report (sr_ssrc r) (sr_ntp_timestamp r) (sr_rtp_timestamp r) (sr_packet_count r)
      (sr_octet_count r) reports out = Ok (Some (total, out')) /\
    drop (Z.to_nat total) out' = drop (Z.to_nat total) out /\
    parse_compound (sub out' 0 total) =
      Ok [PktSenderReport (mkSenderReport (sr_ssrc r) (sr_ntp_timestamp r) (sr_rtp_timestamp r)
            (sr_packet_count r) (sr_octet_count r) (reception_view <$> reports))].
Proof.
  unfold SENDER_REPORT_LEN, RECEPTION_REPORT_LEN. intros Hrs Hn H1 H2 H3 H4 H5 Ho.
  rewrite write_sender_report_Ok by done. eexists _, _. split; [done|].
  assert (28 + len reports * 24 = len (frame_bytes (sender_report_frame r reports))) as ->.
  { rewrite len_frame_bytes, len_sender_report_body. lia. }
  rewrite to_nat_len, drop_app_length, sub_app_begin by done. split; [done|].
  pose proof (sender_report_frame_ok r reports Hrs Hn) as Hf.
  pose proof (framed_concat [sender_report_frame r reports] ltac:(by constructor)) as Hfr.
  cbn [fmap list_fmap concat] in Hfr. rewrite app_nil_r in Hfr.
  rewrite (framed_parse_Ok _ _ (frame_bytes_ok _ Hf) Hfr). cbn [fmap list_fmap].
  by rewrite sender_report_frame_view.
Qed.

Lemma sender_report_roundtrip_witness :
  exists total out',
    write_sender_report 7 0x123456789ABCDEF0 160 10 1600 [mkReceptionReport 9 3 (-2) 70000 1 2 3]
      (replicate 60 0xEE) = Ok (Some (total, out')) /\
    parse_compound (sub out' 0 total) =
      Ok [PktSenderReport (mkSenderReport 7 0x123456789ABCDEF0 160 10 1600
            [mkReportBlock 9 3 (-2) 70000 1 2 3])].
Proof.
  destruct (sender_report_roundtrip (mkSenderReport 7 0x123456789ABCDEF0 160 10 1600 [])
    [mkReceptionReport 9 3 (-2) 70000 1 2 3] (replicate 60 0xEE)) as (t & o & H & _ & Hp).
  1: constructor; [unfold reception_ok, fits, is_byte; simpl; lia|constructor].
  1-7: vm_compute; try split; congruence.
  exists t, o. split; [exact H|exact Hp].
Defined.
