(* ===== verification/Translator.v ===== *)
(** * Forwarding rooms: crates/siphon-rtp-media/src/translator.rs

    The per-receiver translator of a forwarding room: whoever talks, a receiver
    sees one stream with a fixed SSRC.  Sequence numbers and timestamps are
    rebased at every change of talker.  The code counts modulo 2^16 and 2^32; the
    specification here counts without bound, and the theorem relates the two. *)

From S2P Require Import Prelude Rtp.
From stdpp Require Import base list numbers option.
From Stdlib Require Import Lia ZArith.

Open Scope Z_scope.

Inductive Forwarded : Type :=
| ForwardedPacket (length : Z) (rebased : bool)
| DroppedStale.

Record Source : Type := mkSource {
  so_ssrc : Z;
  so_first_sequence : Z;
  so_first_timestamp : Z;
  so_base_sequence : Z;
  so_base_timestamp : Z;
  so_highest_sequence : Z
}.

Definition ahead16 (a b : Z) : bool := 0 <? to_signed 16 (wrapping_sub 16 a b).

Record Translator : Type := mkTranslator {
  tr_egress_ssrc : Z;
  tr_initial_sequence : Z;
  tr_initial_timestamp : Z;
  tr_source : option Source;
  tr_previous : option (Z * Z);
  tr_sent_any : bool;
  tr_last_sequence : Z;
  tr_last_timestamp : Z;
  tr_last_clock : Z;
  tr_packets_sent : Z;
  tr_octets_sent : Z
}.

Definition Translator_new (egress_ssrc initial_sequence initial_timestamp : Z) : Translator :=
  mkTranslator egress_ssrc initial_sequence initial_timestamp None None false
    initial_sequence initial_timestamp 0 0 0.

Definition retired (t : Translator) : option (Z * Z) :=
  match tr_source t with Some s => Some (so_ssrc s, so_highest_sequence s) | None => tr_previous t end.

Definition switch_source (t : Translator) : Translator :=
  mkTranslator (tr_egress_ssrc t) (tr_initial_sequence t) (tr_initial_timestamp t) None (retired t)
    (tr_sent_any t) (tr_last_sequence t) (tr_last_timestamp t) (tr_last_clock t) (tr_packets_sent t) (tr_octets_sent t).

(** Bytes of fixed header, CSRCs and extension of an already validated packet. *)
Definition header_len (inbound : bytes) : res RtpError Z :=
  b0 ← idx inbound 0;
  let offset := FIXED_HEADER_LEN + 4 * Z.land b0 0x0F in
  if negb (Z.land b0 0x10 =? 0) then
    words ← be16_at inbound (offset + 2); mret (offset + (4 + words * 4))
  else mret offset.

(** The fixed-offset mapping of the current source. *)
Definition mapped_values (t : Translator) (packet : RtpPacket) : option (Z * Z) :=
  match tr_source t with
  | Some s =>
      if so_ssrc s =? rp_ssrc packet then
        Some (wrapping_add 16 (so_base_sequence s) (wrapping_sub 16 (rp_sequence packet) (so_first_sequence s)),
              wrapping_add 32 (so_base_timestamp s) (wrapping_sub 32 (rp_timestamp packet) (so_first_timestamp s)))
      else None
  | None => None
  end.

Definition is_stale (t : Translator) (packet : RtpPacket) : bool :=
  match tr_previous t with
  | Some (ssrc, highest) => (ssrc =? rp_ssrc packet) && negb (ahead16 (rp_sequence packet) highest)
  | None => false
  end.

Definition rebase_values (t : Translator) (clock : Z) : Z * Z :=
  if tr_sent_any t then
    let elapsed := wrapping_sub 32 clock (tr_last_clock t) in
    let elapsed := if (elapsed =? 0) || (0x80000000 <=? elapsed) then 1 else elapsed in
    (wrapping_add 16 (tr_last_sequence t) 1, wrapping_add 32 (tr_last_timestamp t) elapsed)
  else (tr_initial_sequence t, tr_initial_timestamp t).

(** The padding to carry over, and the packet in [out]. *)
Definition padding_len (inbound : bytes) (packet : RtpPacket) : res RtpError Z :=
  b0 ← idx inbound 0;
  if negb (Z.land b0 0x20 =? 0) then
    rest ← usub (len inbound) (len (rp_payload packet));
    hl ← header_len inbound;
    usub rest hl
  else mret 0.

Definition write_translated (inbound : bytes) (packet : RtpPacket) (header : RtpHeader) (out : bytes)
  : res RtpError (Z * bytes) :=
  padding ← padding_len inbound packet;
  let total := FIXED_HEADER_LEN + len (rp_payload packet) + padding in
  if len out <? total then Err (OutputTooSmall total (len out)) else
  '(length, out) ← write_packet header (rp_payload packet) out;
  if 0 <? padding then
    b0 ← idx out 0;
    out ← set_at out 0 (Z.lor b0 0x20);
    from ← usub (len inbound) padding;
    tail ← slice inbound from (len inbound);
    out ← copy_at out length tail;
    mret (length + padding, out)
  else mret (length, out).

(** The state after a packet was written. *)
Definition commit (t : Translator) (packet : RtpPacket) (rebase : bool) (out_sequence out_timestamp clock : Z) : Translator :=
  let previous := if rebase then retired t else tr_previous t in
  let source :=
    if rebase then
      Some (mkSource (rp_ssrc packet) (rp_sequence packet) (rp_timestamp packet) out_sequence out_timestamp (rp_sequence packet))
    else
      match tr_source t with
      | Some s => Some (mkSource (so_ssrc s) (so_first_sequence s) (so_first_timestamp s) (so_base_sequence s)
            (so_base_timestamp s)
            (if ahead16 (rp_sequence packet) (so_highest_sequence s) then rp_sequence packet else so_highest_sequence s))
      | None => None
      end in
  mkTranslator (tr_egress_ssrc t) (tr_initial_sequence t) (tr_initial_timestamp t) source previous true
    (if negb (tr_sent_any t) || ahead16 out_sequence (tr_last_sequence t) then out_sequence else tr_last_sequence t)
    (if negb (tr_sent_any t) || (0 <? to_signed 32 (wrapping_sub 32 out_timestamp (tr_last_timestamp t)))
     then out_timestamp else tr_last_timestamp t)
    clock (wrapping_add 32 (tr_packets_sent t) 1)
    (wrapping_add 32 (tr_octets_sent t) (wrap 32 (len (rp_payload packet)))).

Definition translate (t : Translator) (inbound : bytes) (payload_type clock : Z) (out : bytes)
  : res RtpError Forwarded * Translator * bytes :=
  match RtpPacket_parse inbound with
  | Err e => (Err e, t, out)
  | Panic => (Panic, t, out)
  | Ok packet =>
      let mapped := mapped_values t packet in
      let rebase := match mapped with None => true | Some _ => false end in
      if rebase && is_stale t packet then (Ok DroppedStale, t, out) else
      let '(out_sequence, out_timestamp) := match mapped with Some values => values | None => rebase_values t clock end in
      let header := mkRtpHeader (rebase || rp_marker packet) payload_type out_sequence out_timestamp (tr_egress_ssrc t) in
      match write_translated inbound packet header out with
      | Err e => (Err e, t, out)
      | Panic => (Panic, t, out)
      | Ok (length, out) =>
          (Ok (ForwardedPacket length rebase), commit t packet rebase out_sequence out_timestamp clock, out)
      end
  end.

(** ** The datagram written *)

(** The translated packet: the payload and padding of the inbound one under a
    fresh header. *)
Definition translated (packet : RtpPacket) (h : RtpHeader) : RtpPacket :=
  mkRtpPacket (rh_marker h) (Z.land (rh_payload_type h) 0x7F) (rh_sequence h) (rh_timestamp h) (rh_ssrc h) 0 []
    (rp_payload packet).

Lemma idx0_wire pad ext p rest :
  idx (header_bytes pad ext p ++ rest) 0 = (Ok (128 + 32 * b2z pad + 16 * b2z ext + rp_csrc_count p) : res RtpError Z).
Proof. unfold header_bytes. cbn [app]. apply idx_cons_0. Qed.

Lemma header_len_wire pad ext p e d :
  packet_ok p -> ext_wire ext e ->
  header_len (header_bytes pad ext p ++ rp_csrcs p ++ e ++ rp_payload p ++ d) = Ok (12 + len (rp_csrcs p) + len e).
Proof.
  intros (Hpt & _ & _ & _ & Hcc & Hl) He. unfold header_len, FIXED_HEADER_LEN.
  destruct (byte0_fields pad ext (rp_csrc_count p) Hcc) as (_ & _ & Hext & Hland).
  rewrite idx0_wire, bind_Ok. cbv zeta in Hext, Hland. rewrite Hext, Hland.
  destruct ext; cbn [negb].
  2: { cbn in He. subst e. rewrite len_nil, <- Hl. cbn. f_equal. lia. }
  destruct He as (prof & body & Hprof & Hmod & Hdiv & ->).
  assert (be16_at (header_bytes pad true p ++ rp_csrcs p ++ (prof ++ be_enc 2 (len body / 4) ++ body) ++ rp_payload p ++ d)
    (12 + 4 * rp_csrc_count p + 2) = (Ok (len body / 4) : res RtpError Z)) as Hw.
  { rewrite <- !app_assoc.
    rewrite (app_assoc (header_bytes pad true p)), (app_assoc _ prof).
    apply be16_at_app; [rewrite !len_app; change (len (header_bytes pad true p)) with 12; lia|].
    unfold fits. pose proof (len_nonneg body). split; [apply Z.div_pos; lia|lia]. }
  rewrite Hw, bind_Ok. unfold mret, res_ret. f_equal.
  rewrite !len_app, len_be_enc. pose proof (Z.div_mod (len body) 4 ltac:(lia)). lia.
Qed.

Lemma padding_len_wire pad ext p e d :
  packet_ok p -> ext_wire ext e -> pad_wire pad d ->
  padding_len (header_bytes pad ext p ++ rp_csrcs p ++ e ++ rp_payload p ++ d) p = Ok (len d).
Proof.
  intros Hp He Hd. unfold padding_len. set (buffer := header_bytes pad ext p ++ rp_csrcs p ++ e ++ rp_payload p ++ d).
  pose proof Hp as (Hpt & H1 & H2 & H3 & Hcc & Hl). rewrite (idx0_wire pad ext p _ : idx buffer 0 = _), bind_Ok.
  destruct (byte0_fields pad ext (rp_csrc_count p) Hcc) as (_ & Hpad & _ & _). cbv zeta in Hpad. rewrite Hpad.
  destruct pad.
  2: { cbn in Hd. by subst d. }
  assert (len buffer = 12 + len (rp_csrcs p) + len e + len (rp_payload p) + len d) as Hlb.
  { unfold buffer. rewrite !len_app. change (len (header_bytes true ext p)) with 12. lia. }
  pose proof (len_nonneg (rp_csrcs p)). pose proof (len_nonneg e). pose proof (len_nonneg d).
  rewrite usub_Ok, bind_Ok by lia. unfold buffer. rewrite header_len_wire, bind_Ok by done.
  fold buffer. rewrite Hlb, usub_Ok by lia. f_equal. lia.
Qed.


(** What [write_translated] leaves in the buffer parses to the translated packet. *)
Lemma write_translated_Ok inbound p h out pad ext e d :
  bytes_ok inbound -> packet_ok p -> ext_wire ext e -> pad_wire pad d ->
  inbound = header_bytes pad ext p ++ rp_csrcs p ++ e ++ rp_payload p ++ d ->
  fits 16 (rh_sequence h) -> fits 32 (rh_timestamp h) -> fits 32 (rh_ssrc h) ->
  12 + len (rp_payload p) + len d <= len out ->
  exists out', write_translated inbound p h out = Ok (12 + len (rp_payload p) + len d, out') /\
    sub out' 0 (12 + len (rp_payload p) + len d) = header_bytes pad false (translated p h) ++ rp_payload p ++ d /\
    RtpPacket_parse (sub out' 0 (12 + len (rp_payload p) + len d)) = Ok (translated p h) /\
    drop (Z.to_nat (12 + len (rp_payload p) + len d)) out' = drop (Z.to_nat (12 + len (rp_payload p) + len d)) out.
Proof.
  intros Hb Hp He Hd Heq Hseq Hts Hssrc Ho. pose proof (len_nonneg (rp_payload p)). pose proof (len_nonneg d).
  assert (bytes_ok (rp_payload p) /\ bytes_ok d) as [Hbp Hbd] by (rewrite Heq, !bytes_ok_app in Hb; tauto).
  pose proof (land_low_bound (rh_payload_type h) 7 ltac:(lia)) as Hpt. change (Z.ones 7) with 0x7F in Hpt.
  set (enc := header_bytes false false (translated p h) ++ rp_payload p).
  set (final := header_bytes pad false (translated p h) ++ rp_payload p ++ d).
  assert (len enc = 12 + len (rp_payload p)) as Hle by (unfold enc; rewrite len_app; done).
  assert (len final = 12 + len (rp_payload p) + len d) as Hlf.
  { unfold final. rewrite !len_app. change (len (header_bytes _ _ _)) with 12. lia. }
  assert (RtpPacket_parse final = Ok (translated p h)) as Hparse.
  { apply RtpPacket_parse_complete.
    - unfold final. rewrite !bytes_ok_app. split_and!; [|done..]. unfold header_bytes. rewrite !bytes_ok_app.
      split_and!; auto using be_enc_bytes. unfold translated. cbn [rp_csrc_count rp_marker rp_payload_type].
      forall_list; unfold is_byte; destruct pad, (rh_marker h); cbn [b2z]; lia.
    - split; [unfold packet_ok, translated in *; cbn [rp_payload_type rp_sequence rp_timestamp rp_ssrc rp_csrc_count rp_csrcs]; split_and!; (done || lia)|]. exists pad, false, [], d. by split_and!. }
  enough (exists out', write_translated inbound p h out = Ok (len final, out') /\ out' = final ++ drop (length final) out)
    as (out' & Hw & ->).
  { exists (final ++ drop (length final) out). rewrite <- Hlf. rewrite sub_app_begin by done. split; [done|]. split; [done|].
    split; [done|]. rewrite to_nat_len. by rewrite drop_app_length. }
  unfold write_translated.
  assert (padding_len inbound p = Ok (len d)) as -> by (rewrite Heq; by eapply padding_len_wire). rewrite bind_Ok. unfold FIXED_HEADER_LEN.
  rewrite (proj2 (Z.ltb_ge _ _)) by lia. unfold write_packet.
  rewrite write_packet_with_csrcs_Ok by (change (len (@nil Z)) with 0; lia).
  change (encoded h [] (rp_payload p)) with enc. rewrite bind_Ok.
  destruct (Z.ltb_spec 0 (len d)) as [Hpos|Hpos]; cycle 1.
  { assert (d = []) as -> by (apply len_zero_iff; lia). destruct pad.
    { destruct Hd as [d' Hd']. by destruct d'. }
    exists (final ++ drop (length final) out). split; [|done]. unfold final in *. rewrite app_nil_r in *. done. }
  destruct pad; [|cbn in Hd; subst d; by vm_compute in Hpos].
  set (body := [128 * b2z (rh_marker h) + Z.land (rh_payload_type h) 0x7F] ++ be_enc 2 (rh_sequence h) ++
    be_enc 4 (rh_timestamp h) ++ be_enc 4 (rh_ssrc h) ++ rp_payload p).
  assert (enc = 128 :: body) as Henc by (unfold enc, body, header_bytes; cbn [app]; by rewrite <- !app_assoc).
  assert (final = (160 :: body) ++ d) as Hfin by (unfold final, body, header_bytes; cbn [app]; by rewrite <- !app_assoc).
  rewrite Henc in Hle |- *. change ((128 :: body) ++ ?x) with (128 :: body ++ x). rewrite idx_cons_0, bind_Ok. change (Z.lor 128 32) with 160. unfold set_at.
  assert (forall x, copy_at (128 :: x) 0 [160] = (Ok (160 :: x) : res RtpError bytes)) as ->
    by (intros x; by apply (copy_at_mid [] [128] [160] x)). rewrite bind_Ok.
  assert (len inbound = 12 + len (rp_csrcs p) + len e + len (rp_payload p) + len d) as Hli.
  { rewrite Heq, !len_app. change (len (header_bytes true ext p)) with 12. lia. }
  pose proof (len_nonneg (rp_csrcs p)). pose proof (len_nonneg e).
  rewrite usub_Ok, bind_Ok, slice_Ok, bind_Ok by lia.
  assert (sub inbound (len inbound - len d) (len inbound) = d) as ->.
  { rewrite Hli, Heq, !app_assoc. apply sub_app_end; rewrite ?len_app; change (len (header_bytes true ext p)) with 12; lia. }
  set (rest := drop (length (128 :: body)) out).
  assert (len rest = len out - len (128 :: body)) as Hlr by (unfold rest; rewrite len_drop; unfold len in *; lia).
  rewrite <- (take_drop (length d) rest). change (160 :: body ++ ?x) with ((160 :: body) ++ x).
  rewrite (copy_at_mid (160 :: body) (take (length d) rest) d) by
    (rewrite ?Henc, ?len_cons, ?len_take in *; unfold len in *; cbn [length] in *; lia).
  rewrite bind_Ok. eexists. split.
  - unfold mret, res_ret. do 2 f_equal. rewrite Hfin, len_app, !len_cons. lia.
  - rewrite Hfin, <- app_assoc. do 2 f_equal. unfold rest. rewrite drop_drop, length_app. done.
Qed.

(** ** The specification: numbering without bound *)

Record run : Type := mkRun {
  ru_ssrc : Z; ru_first : Z; ru_first_time : Z; ru_base : Z; ru_base_time : Z; ru_highest : Z
}.

Record ideal : Type := mkIdeal {
  id_run : option run;
  id_previous : option (Z * Z);
  id_top : option (Z * Z);
  id_clock : Z;
  id_runs : Z;
  id_packets : Z;
  id_octets : Z
}.

(** A packet as it arrives: the datagram and what it parses to, the payload type
    the receiver has for it, the arrival clock, and the packet's true position and
    media time in its source's stream. *)
Record arrival : Type := mkArrival {
  ar_inbound : bytes; ar_packet : RtpPacket; ar_payload_type : Z; ar_clock : Z;
  ar_index : Z; ar_time : Z; ar_out : bytes
}.

Inductive room_op : Type := Arrive (a : arrival) | Switch.

(** What leaves: the run it belongs to, its position and time at the source, its
    position and time in the egress stream. *)
Record egress : Type := mkEgress { eg_run : Z; eg_index : Z; eg_time : Z; eg_seq : Z; eg_ts : Z; eg_rebased : bool }.

Definition in_run (id : ideal) (p : RtpPacket) : option run :=
  match id_run id with Some r => if ru_ssrc r =? rp_ssrc p then Some r else None | None => None end.

Definition id_retired (id : ideal) : option (Z * Z) :=
  match id_run id with Some r => Some (ru_ssrc r, ru_highest r) | None => id_previous id end.

Definition raise_top (top : option (Z * Z)) (seq ts : Z) : option (Z * Z) :=
  match top with Some (s, t) => Some (Z.max s seq, Z.max t ts) | None => Some (seq, ts) end.

Definition sent (id : ideal) (a : arrival) (run' : run) (prev : option (Z * Z)) (runs seq ts : Z) : ideal :=
  mkIdeal (Some run') prev (raise_top (id_top id) seq ts) (ar_clock a) runs (id_packets id + 1)
    (id_octets id + len (rp_payload (ar_packet a))).

Definition ideal_arrive (seq0 ts0 : Z) (id : ideal) (a : arrival) : option egress * ideal :=
  let p := ar_packet a in
  match in_run id p with
  | Some r =>
      let seq := ru_base r + (ar_index a - ru_first r) in
      let ts := ru_base_time r + (ar_time a - ru_first_time r) in
      (Some (mkEgress (id_runs id) (ar_index a) (ar_time a) seq ts false),
       sent id a (mkRun (ru_ssrc r) (ru_first r) (ru_first_time r) (ru_base r) (ru_base_time r) (Z.max (ru_highest r) (ar_index a)))
         (id_previous id) (id_runs id) seq ts)
  | None =>
      let stale := match id_previous id with Some (s, h) => (s =? rp_ssrc p) && (ar_index a <=? h) | None => false end in
      if stale then (None, id) else
      let '(seq, ts) := match id_top id with
        | Some (s, t) => (s + 1, t + Z.max 1 (ar_clock a - id_clock id)) | None => (seq0, ts0) end in
      (Some (mkEgress (id_runs id + 1) (ar_index a) (ar_time a) seq ts true),
       sent id a (mkRun (rp_ssrc p) (ar_index a) (ar_time a) seq ts (ar_index a)) (id_retired id) (id_runs id + 1) seq ts)
  end.

Definition ideal_step (seq0 ts0 : Z) (id : ideal) (o : room_op) : list (option egress) * ideal :=
  match o with
  | Arrive a => let '(e, id) := ideal_arrive seq0 ts0 id a in ([e], id)
  | Switch => ([], mkIdeal None (id_retired id) (id_top id) (id_clock id) (id_runs id) (id_packets id) (id_octets id))
  end.

Fixpoint ideal_run (seq0 ts0 : Z) (id : ideal) (ops : list room_op) : list (option egress) :=
  match ops with
  | [] => []
  | o :: ops => (ideal_step seq0 ts0 id o).1 ++ ideal_run seq0 ts0 (ideal_step seq0 ts0 id o).2 ops
  end.

(** ** The code, observed *)

Inductive observed : Type := Stale | Egress (rebased : bool) (packet : RtpPacket) | Failed.

Definition observe (r : res RtpError Forwarded) (out : bytes) : observed :=
  match r with
  | Ok (ForwardedPacket n rebased) =>
      match RtpPacket_parse (sub out 0 n) with Ok p => Egress rebased p | _ => Failed end
  | Ok DroppedStale => Stale
  | _ => Failed
  end.

Definition room_step (t : Translator) (o : room_op) : list observed * Translator :=
  match o with
  | Arrive a =>
      let '(r, t, out) := translate t (ar_inbound a) (ar_payload_type a) (wrap 32 (ar_clock a)) (ar_out a) in
      ([observe r out], t)
  | Switch => ([], switch_source t)
  end.

Fixpoint room_run (t : Translator) (ops : list room_op) : list observed * Translator :=
  match ops with
  | [] => ([], t)
  | o :: ops =>
      let '(o1, t) := room_step t o in let '(os, t) := room_run t ops in (o1 ++ os, t)
  end.

(** What the receiver should see of an arrival. *)
Definition expected_of (ssrc : Z) (a : arrival) (e : option egress) : observed :=
  match e with
  | None => Stale
  | Some e => Egress (eg_rebased e)
      (mkRtpPacket (eg_rebased e || rp_marker (ar_packet a)) (Z.land (ar_payload_type a) 0x7F)
         (wrap 16 (eg_seq e)) (wrap 32 (eg_ts e)) ssrc 0 [] (rp_payload (ar_packet a)))
  end.

Definition arrivals (ops : list room_op) : list arrival :=
  omap (fun o => match o with Arrive a => Some a | Switch => None end) ops.

(** The window in which serial arithmetic is meant to work: a packet less than
    2^15 positions from the highest of its run, or of the source it may be a late
    packet of, less than 2^31 of media time from the highest sent, and a clock that
    does not run backwards or jump by 2^31. *)
Definition within (d x y : Z) : Prop := Z.abs (x - y) < d.

Definition arrival_ok (id : ideal) (a : arrival) : Prop :=
  bytes_ok (ar_inbound a) /\ RtpPacket_parse (ar_inbound a) = Ok (ar_packet a) /\
  rp_sequence (ar_packet a) = wrap 16 (ar_index a) /\ rp_timestamp (ar_packet a) = wrap 32 (ar_time a) /\
  len (ar_inbound a) <= len (ar_out a) /\
  (id_top id <> None -> id_clock id <= ar_clock a < id_clock id + 2 ^ 31) /\
  match in_run id (ar_packet a) with
  | Some r =>
      within (2 ^ 15) (ar_index a) (ru_highest r) /\
      match id_top id with
      | Some (s, t) => within (2 ^ 15) (ru_base r + (ar_index a - ru_first r)) s /\
                       within (2 ^ 31) (ru_base_time r + (ar_time a - ru_first_time r)) t
      | None => True
      end
  | None =>
      match id_previous id with
      | Some (s, h) => s = rp_ssrc (ar_packet a) -> within (2 ^ 15) (ar_index a) h
      | None => True
      end
  end.

Fixpoint ops_ok (seq0 ts0 : Z) (id : ideal) (ops : list room_op) : Prop :=
  match ops with
  | [] => True
  | o :: ops =>
      match o with Arrive a => arrival_ok id a | Switch => True end /\
      ops_ok seq0 ts0 (ideal_step seq0 ts0 id o).2 ops
  end.

(** ** The code counts like the specification, modulo the width of its fields *)

Definition source_of (r : run) : Source :=
  mkSource (ru_ssrc r) (wrap 16 (ru_first r)) (wrap 32 (ru_first_time r)) (wrap 16 (ru_base r))
    (wrap 32 (ru_base_time r)) (wrap 16 (ru_highest r)).

Record room_rel (ssrc seq0 ts0 : Z) (t : Translator) (id : ideal) : Prop := {
  rm_ssrc : tr_egress_ssrc t = ssrc /\ fits 32 ssrc;
  rm_init : tr_initial_sequence t = wrap 16 seq0 /\ tr_initial_timestamp t = wrap 32 ts0;
  rm_source : tr_source t = source_of <$> id_run id;
  rm_previous : tr_previous t = (fun sh => (sh.1, wrap 16 sh.2)) <$> id_previous id;
  rm_sent : match id_top id with
            | Some (s, ts) => tr_sent_any t = true /\ tr_last_sequence t = wrap 16 s /\
                tr_last_timestamp t = wrap 32 ts /\ tr_last_clock t = wrap 32 (id_clock id)
            | None => tr_sent_any t = false /\ id_run id = None
            end;
  rm_counts : tr_packets_sent t = wrap 32 (id_packets id) /\ tr_octets_sent t = wrap 32 (id_octets id)
}.

Lemma wrap_fits w x : 0 <= w -> fits w (wrap w x).
Proof. intros. unfold fits, wrap. apply Z.mod_pos_bound. lia. Qed.

Lemma wrapping_add_wrap w x y : 0 <= w -> wrapping_add w (wrap w x) y = wrap w (x + y).
Proof. intros. unfold wrapping_add, wrap. apply Zplus_mod_idemp_l. Qed.

Lemma wrapping_sub_wrap w x y : wrapping_sub w (wrap w x) (wrap w y) = wrap w (x - y).
Proof. unfold wrapping_sub, wrap. by rewrite <- Zminus_mod. Qed.

Lemma rebase_offset w base x first : 0 <= w ->
  wrapping_add w (wrap w base) (wrapping_sub w (wrap w x) (wrap w first)) = wrap w (base + (x - first)).
Proof. intros. rewrite wrapping_sub_wrap. unfold wrapping_add, wrap. by rewrite <- Zplus_mod. Qed.

(** Serial order is the true order within half the space. *)
Lemma serial_order w x y : 1 <= w -> within (2 ^ (w - 1)) x y ->
  (0 <? to_signed w (wrapping_sub w (wrap w x) (wrap w y))) = (y <? x).
Proof.
  intros Hw Hd. rewrite wrapping_sub_wrap. unfold to_signed, wrap, within in *.
  assert (2 ^ w = 2 * 2 ^ (w - 1)) as Hp by (rewrite <- (Z.pow_succ_r 2 (w - 1)) by lia; f_equal; lia).
  assert (0 < 2 ^ (w - 1)) by (apply Z.pow_pos_nonneg; lia).
  destruct (Z.ltb_spec y x) as [Hlt|Hge].
  - rewrite Z.mod_small by lia. rewrite (proj2 (Z.ltb_lt (x - y) (2 ^ (w - 1)))) by lia. apply Z.ltb_lt. lia.
  - destruct (Z.eq_dec x y) as [->|Hne].
    + rewrite Z.sub_diag, Z.mod_0_l by lia. rewrite (proj2 (Z.ltb_lt 0 (2 ^ (w - 1)))) by lia. done.
    + assert ((x - y) mod 2 ^ w = x - y + 2 ^ w) as ->.
      { symmetry. apply Z.mod_unique with (-1); lia. }
      rewrite (proj2 (Z.ltb_ge (x - y + 2 ^ w) (2 ^ (w - 1)))) by lia. apply Z.ltb_ge. lia.
Qed.

Lemma ahead16_order x y : within (2 ^ 15) x y -> ahead16 (wrap 16 x) (wrap 16 y) = (y <? x).
Proof. intros. unfold ahead16. by apply serial_order. Qed.

Lemma max_if x y : (if y <? x then wrap 16 x else wrap 16 y) = wrap 16 (Z.max y x).
Proof. destruct (Z.ltb_spec y x); f_equal; lia. Qed.
Lemma max_if32 x y : (if y <? x then wrap 32 x else wrap 32 y) = wrap 32 (Z.max y x).
Proof. destruct (Z.ltb_spec y x); f_equal; lia. Qed.

Lemma written inbound p h out :
  bytes_ok inbound -> RtpPacket_parse inbound = Ok p -> len inbound <= len out ->
  fits 16 (rh_sequence h) -> fits 32 (rh_timestamp h) -> fits 32 (rh_ssrc h) ->
  exists n out', write_translated inbound p h out = Ok (n, out') /\ RtpPacket_parse (sub out' 0 n) = Ok (translated p h).
Proof.
  intros Hb Hp Hl H1 H2 H3. destruct (RtpPacket_parse_sound _ _ Hb Hp) as (Hok & pad & ext & e & d & He & Hd & Heq).
  assert (12 + len (rp_payload p) + len d <= len out) as Hfit.
  { rewrite Heq, !len_app in Hl. change (len (header_bytes pad ext p)) with 12 in Hl.
    pose proof (len_nonneg (rp_csrcs p)). pose proof (len_nonneg e). lia. }
  destruct (write_translated_Ok inbound p h out pad ext e d) as (out' & Hw & _ & Hparse & _); eauto.
Qed.

Lemma mapped_values_run t id p : tr_source t = source_of <$> id_run id ->
  forall i ts, rp_sequence p = wrap 16 i -> rp_timestamp p = wrap 32 ts ->
  mapped_values t p = (fun r => (wrap 16 (ru_base r + (i - ru_first r)), wrap 32 (ru_base_time r + (ts - ru_first_time r))))
    <$> in_run id p.
Proof.
  intros Hs i ts Hi Hts. unfold mapped_values, in_run. rewrite Hs. destruct (id_run id) as [r|]; [|done].
  cbn [fmap option_fmap option_map source_of so_ssrc so_base_sequence so_first_sequence so_base_timestamp so_first_timestamp].
  destruct (_ =? _); [|done]. by rewrite Hi, Hts, !rebase_offset by lia.
Qed.

Lemma is_stale_ideal t id a :
  tr_previous t = (fun sh => (sh.1, wrap 16 sh.2)) <$> id_previous id ->
  rp_sequence (ar_packet a) = wrap 16 (ar_index a) ->
  match id_previous id with Some (s, h) => s = rp_ssrc (ar_packet a) -> within (2 ^ 15) (ar_index a) h | None => True end ->
  is_stale t (ar_packet a) =
    match id_previous id with Some (s, h) => (s =? rp_ssrc (ar_packet a)) && (ar_index a <=? h) | None => false end.
Proof.
  intros Hp Hi Hn. unfold is_stale. rewrite Hp. destruct (id_previous id) as [[s h]|]; [|done]. cbn.
  destruct (Z.eqb_spec s (rp_ssrc (ar_packet a))) as [Heq|]; [|done]. cbn [andb].
  rewrite Hi, ahead16_order by (by apply Hn). by rewrite Z.leb_antisym.
Qed.

Lemma rebase_values_ideal ssrc seq0 ts0 t id c : room_rel ssrc seq0 ts0 t id ->
  (id_top id <> None -> id_clock id <= c < id_clock id + 2 ^ 31) ->
  rebase_values t (wrap 32 c) =
    let '(s, ts) := match id_top id with Some (s, t) => (s + 1, t + Z.max 1 (c - id_clock id)) | None => (seq0, ts0) end in
    (wrap 16 s, wrap 32 ts).
Proof.
  intros [_ [Hi1 Hi2] _ _ Hsent _] Hc. unfold rebase_values. destruct (id_top id) as [[s ts]|].
  - destruct Hsent as (-> & -> & -> & ->). specialize (Hc ltac:(done)).
    rewrite wrapping_sub_wrap, !wrapping_add_wrap by lia. do 3 f_equal.
    unfold wrap. rewrite Z.mod_small by lia. destruct (Z.eqb_spec (c - id_clock id) 0); cbn [orb]; [lia|].
    rewrite (proj2 (Z.leb_gt _ _)) by lia. lia.
  - destruct Hsent as [-> _]. by rewrite Hi1, Hi2.
Qed.

(** The counters and the highest values after a packet was sent. *)
Lemma commit_rel ssrc seq0 ts0 t id a rebase run' prev runs seq ts :
  room_rel ssrc seq0 ts0 t id ->
  match id_top id with Some (s, t0) => within (2 ^ 15) seq s /\ within (2 ^ 31) ts t0 | None => True end ->
  tr_source (commit t (ar_packet a) rebase (wrap 16 seq) (wrap 32 ts) (wrap 32 (ar_clock a))) = Some (source_of run') ->
  tr_previous (commit t (ar_packet a) rebase (wrap 16 seq) (wrap 32 ts) (wrap 32 (ar_clock a))) =
    (fun sh => (sh.1, wrap 16 sh.2)) <$> prev ->
  room_rel ssrc seq0 ts0 (commit t (ar_packet a) rebase (wrap 16 seq) (wrap 32 ts) (wrap 32 (ar_clock a)))
    (sent id a run' prev runs seq ts).
Proof.
  intros [Hssrc Hinit Hsrc Hprev Hsent [Hp Ho]] Hn Hs' Hp'. split; [done|done|done|done| |].
  - unfold sent, raise_top. cbn [id_top id_clock]. destruct (id_top id) as [[s t0]|].
    + destruct Hn as [Hn1 Hn2]. destruct Hsent as (Hany & Hls & Hlt & _). unfold commit.
      cbn [tr_sent_any tr_last_sequence tr_last_timestamp tr_last_clock]. rewrite Hany, Hls, Hlt. cbn [negb orb].
      rewrite ahead16_order by done. rewrite (serial_order 32) by (lia || done). by rewrite max_if, max_if32.
    + destruct Hsent as [Hany _]. unfold commit. cbn [tr_sent_any tr_last_sequence tr_last_timestamp tr_last_clock].
      by rewrite Hany.
  - unfold commit, sent. cbn [tr_packets_sent tr_octets_sent id_packets id_octets]. rewrite Hp, Ho.
    rewrite wrapping_add_wrap by lia. split; [done|]. unfold wrapping_add, wrap. by rewrite <- Zplus_mod.
Qed.

Lemma arrive_refines ssrc seq0 ts0 t id a : room_rel ssrc seq0 ts0 t id -> arrival_ok id a ->
  let '(r, t', out) := translate t (ar_inbound a) (ar_payload_type a) (wrap 32 (ar_clock a)) (ar_out a) in
  observe r out = expected_of ssrc a (ideal_arrive seq0 ts0 id a).1 /\
  room_rel ssrc seq0 ts0 t' (ideal_arrive seq0 ts0 id a).2.
Proof.
  intros Hrel (Hb & Hp & Hi & Hts & Hlen & Hclock & Hnear). pose proof Hrel as [[Hssrc Hfit] Hinit Hsrc Hprev Hsent Hcnt].
  unfold translate, ideal_arrive. rewrite Hp, (mapped_values_run t id _ Hsrc _ _ Hi Hts).
  destruct (in_run id (ar_packet a)) as [r|] eqn:Hrun; cbn [fmap option_fmap option_map andb orb].
  - destruct Hnear as [Hh Htop].
    set (seq := ru_base r + (ar_index a - ru_first r)) in *. set (ts := ru_base_time r + (ar_time a - ru_first_time r)) in *.
    set (h := mkRtpHeader _ _ _ _ _).
    destruct (written (ar_inbound a) (ar_packet a) h (ar_out a)) as (n & out' & -> & Hparse);
      [done..|by apply wrap_fits|by apply wrap_fits|by (change (fits 32 (tr_egress_ssrc t)); rewrite Hssrc)|].
    cbn [fst snd]. split; [unfold observe; rewrite Hparse, <- Hssrc; done|].
    apply commit_rel; [done|done| |done].
    unfold commit. cbn [tr_source]. rewrite Hsrc. unfold in_run in Hrun. destruct (id_run id) as [r'|]; [|done].
    destruct (_ =? _); [|done]. injection Hrun as ->. cbn [fmap option_fmap option_map]. unfold source_of. cbn.
    by rewrite Hi, ahead16_order, max_if.
  - rewrite (is_stale_ideal t id a Hprev Hi Hnear).
    destruct (match id_previous id with Some _ => _ | None => false end); [by split|].
    rewrite (rebase_values_ideal ssrc seq0 ts0 t id (ar_clock a) Hrel Hclock).
    set (st := match id_top id with Some _ => _ | None => _ end).
    assert (match id_top id with Some (s, t0) => within (2 ^ 15) st.1 s /\ within (2 ^ 31) st.2 t0 | None => True end) as Hn.
    { unfold st. destruct (id_top id) as [[s t0]|]; [|done]. specialize (Hclock ltac:(done)). unfold within. cbn. lia. }
    destruct st as [seq ts]. cbn [fst snd] in Hn. set (h := mkRtpHeader _ _ _ _ _).
    destruct (written (ar_inbound a) (ar_packet a) h (ar_out a)) as (n & out' & -> & Hparse);
      [done..|by apply wrap_fits|by apply wrap_fits|by (change (fits 32 (tr_egress_ssrc t)); rewrite Hssrc)|].
    cbn [fst snd]. split; [unfold observe; rewrite Hparse, <- Hssrc; done|].
    apply commit_rel; [done|done| |].
    + unfold commit, source_of. cbn. by rewrite Hi, Hts.
    + unfold commit, retired, id_retired. cbn [tr_previous]. rewrite Hsrc, Hprev. by destruct (id_run id).
Qed.

(** ** The numbering the specification gives *)

(** Two packets sent one after the other: of one run, they keep their distance; of
    two runs, the later one is ahead in both counters. *)
Definition sent_in_order (x y : egress) : Prop :=
  (eg_run x = eg_run y -> eg_seq y - eg_seq x = eg_index y - eg_index x /\ eg_ts y - eg_ts x = eg_time y - eg_time x) /\
  (eg_run x <> eg_run y -> eg_run x < eg_run y /\ eg_seq x < eg_seq y /\ eg_ts x < eg_ts y).

(** No packet comes in before the first one of its run. *)
Definition not_before_first (id : ideal) (a : arrival) : Prop :=
  match in_run id (ar_packet a) with
  | Some r => ru_first r <= ar_index a /\ ru_first_time r <= ar_time a
  | None => True
  end.

Fixpoint runs_start_first (seq0 ts0 : Z) (id : ideal) (ops : list room_op) : Prop :=
  match ops with
  | [] => True
  | o :: ops =>
      match o with Arrive a => not_before_first id a | Switch => True end /\
      runs_start_first seq0 ts0 (ideal_step seq0 ts0 id o).2 ops
  end.

(** What the state knows of the packets sent so far. *)
Definition accounted (id : ideal) (x : egress) : Prop :=
  eg_run x <= id_runs id /\
  (exists s t, id_top id = Some (s, t) /\ eg_seq x <= s /\ eg_ts x <= t) /\
  match id_run id with
  | Some r =>
      if eg_run x =? id_runs id
      then eg_seq x - eg_index x = ru_base r - ru_first r /\ eg_ts x - eg_time x = ru_base_time r - ru_first_time r
      else eg_seq x < ru_base r /\ eg_ts x < ru_base_time r
  | None => True
  end.

Lemma raise_top_le top seq ts : exists s t, raise_top top seq ts = Some (s, t) /\ seq <= s /\ ts <= t /\
  forall s0 t0, top = Some (s0, t0) -> s0 <= s /\ t0 <= t.
Proof.
  destruct top as [[s t]|]; cbn; eexists _, _; (split; [done|]); (split_and!; [lia..|]); intros s0 t0 [=]; lia.
Qed.

Lemma accounted_raise id id' x seq ts :
  id_top id' = raise_top (id_top id) seq ts ->
  (exists s t, id_top id = Some (s, t) /\ eg_seq x <= s /\ eg_ts x <= t) ->
  exists s t, id_top id' = Some (s, t) /\ eg_seq x <= s /\ eg_ts x <= t.
Proof.
  intros -> (s & t & Ht & ? & ?). destruct (raise_top_le (id_top id) seq ts) as (s' & t' & -> & _ & _ & Hm).
  destruct (Hm s t Ht). eexists _, _. split; [done|lia].
Qed.

(** One arrival: the new packet is in order with every earlier one. *)
Lemma arrive_in_order seq0 ts0 id a past :
  Forall (accounted id) past -> not_before_first id a ->
  match (ideal_arrive seq0 ts0 id a).1 with
  | Some e => Forall (fun x => sent_in_order x e) past /\ Forall (accounted (ideal_arrive seq0 ts0 id a).2) (past ++ [e])
  | None => (ideal_arrive seq0 ts0 id a).2 = id
  end.
Proof.
  intros Hpast Hfirst. unfold ideal_arrive, not_before_first in *.
  destruct (in_run id (ar_packet a)) as [r|] eqn:Hrun.
  - assert (id_run id = Some r) as Hr.
    { unfold in_run in Hrun. destruct (id_run id); [|done]. destruct (_ =? _); [|done]. by injection Hrun as ->. }
    set (seq := ru_base r + (ar_index a - ru_first r)). set (ts := ru_base_time r + (ar_time a - ru_first_time r)).
    cbn [fst snd]. split.
    + eapply Forall_impl; [|exact Hpast]. intros x (Hrn & _ & Hx). rewrite Hr in Hx. split; cbn.
      * intros Heq. rewrite (proj2 (Z.eqb_eq _ _) Heq) in Hx. lia.
      * intros Hne. rewrite (proj2 (Z.eqb_neq _ _) Hne) in Hx. lia.
    + apply Forall_app. split.
      * eapply Forall_impl; [|exact Hpast]. intros x (Hrn & Htop & Hx). rewrite Hr in Hx.
        split; [done|]. split; [by eapply accounted_raise|]. exact Hx.
      * apply Forall_singleton. destruct (raise_top_le (id_top id) seq ts) as (s & t & Ht & ? & ? & _).
        split; [cbn; lia|]. split; [exists s, t; by split_and!|]. cbn. rewrite Z.eqb_refl. lia.
  - destruct (match id_previous id with Some _ => _ | None => false end); [done|].
    destruct (match id_top id with Some _ => _ | None => _ end) as [seq ts] eqn:Hst. cbn [fst snd].
    assert (forall x, accounted id x -> eg_run x <= id_runs id /\ eg_seq x < seq /\ eg_ts x < ts) as Hold.
    { intros x (? & (s & t & Ht & ? & ?) & _). rewrite Ht in Hst. injection Hst as <- <-. lia. }
    split.
    + eapply Forall_impl; [|exact Hpast]. intros x Hx%Hold. split; cbn; lia.
    + apply Forall_app. split.
      * eapply Forall_impl; [|exact Hpast]. intros x Hx. pose proof (Hold x Hx) as (? & ? & ?). destruct Hx as (_ & Htop & _).
        split; [cbn; lia|]. split; [by eapply accounted_raise|]. cbn.
        by rewrite (proj2 (Z.eqb_neq _ _)) by lia.
      * apply Forall_singleton. destruct (raise_top_le (id_top id) seq ts) as (s & t & Ht & ? & ? & _).
        split; [cbn; lia|]. split; [exists s, t; by split_and!|]. cbn. rewrite Z.eqb_refl. lia.
Qed.

Lemma ideal_run_in_order seq0 ts0 ops : forall id past,
  Forall (accounted id) past -> runs_start_first seq0 ts0 id ops ->
  ForallOrdPairs sent_in_order (omap (fun e => e) (ideal_run seq0 ts0 id ops)) /\
  Forall (fun x => Forall (sent_in_order x) (omap (fun e => e) (ideal_run seq0 ts0 id ops))) past.
Proof.
  induction ops as [|o ops IH]; intros id past Hpast Hf.
  { cbn. split; [constructor|]. by apply Forall_true. }
  destruct Hf as [Ho Hf]. cbn [ideal_run]. destruct o as [a|].
  - pose proof (arrive_in_order seq0 ts0 id a past Hpast Ho) as Hstep. cbn [ideal_step] in *.
    destruct (ideal_arrive seq0 ts0 id a) as [[e|] id']; cbn [fst snd] in *.
    + destruct Hstep as [Hord Hpast']. destruct (IH id' (past ++ [e]) Hpast' Hf) as [Hpairs Hall].
      apply Forall_app in Hall as [Hall Hlast]. rewrite Forall_singleton in Hlast. rewrite omap_app. cbn [omap list_omap app]. split.
      * constructor; [exact Hlast|exact Hpairs].
      * apply Forall_forall. intros x Hx. rewrite Forall_forall in Hord, Hall. constructor; [by apply Hord|by apply Hall].
    + subst id'. cbn. by apply IH.
  - cbn [ideal_step fst snd app] in *. apply IH; [|done].
    eapply Forall_impl; [|exact Hpast]. intros x (? & ? & _). by split_and!.
Qed.

(** ** Theorem *)

Definition no_room : ideal := mkIdeal None None None 0 0 0 0.

Lemma room_run_refines ssrc seq0 ts0 ops : forall t id,
  room_rel ssrc seq0 ts0 t id -> ops_ok seq0 ts0 id ops ->
  (room_run t ops).1 = zip_with (expected_of ssrc) (arrivals ops) (ideal_run seq0 ts0 id ops).
Proof.
  induction ops as [|o ops IH]; intros t id Hrel Hops; [done|]. destruct Hops as [Ho Hops]. cbn [room_run ideal_run].
  destruct o as [a|].
  - pose proof (arrive_refines ssrc seq0 ts0 t id a Hrel Ho) as H. cbn [room_step ideal_step] in *.
    destruct (translate t _ _ _ _) as [[r t'] out]. destruct H as [Hobs Hrel'].
    destruct (ideal_arrive seq0 ts0 id a) as [e id']. cbn [fst snd] in *.
    specialize (IH t' id' Hrel' Hops). destruct (room_run t' ops) as [os t'']. cbn [fst] in *. rewrite Hobs, IH. done.
  - cbn [room_step ideal_step fst snd app] in *.
    pose proof (fun r => IH (switch_source t) _ r Hops) as IH'.
    destruct (room_run (switch_source t) ops) as [os t'']. cbn [fst app] in *. apply IH'. destruct Hrel as [H1 H2 H3 H4 H5 H6]. split; try done.
    + cbn. unfold retired, id_retired. rewrite H3, H4. by destruct (id_run id).
    + cbn. by destruct (id_top id) as [[s t0]|]; destruct H5.
Qed.

Lemma new_room_rel ssrc seq0 ts0 : fits 32 ssrc -> fits 16 seq0 -> fits 32 ts0 ->
  room_rel ssrc seq0 ts0 (Translator_new ssrc seq0 ts0) no_room.
Proof.
  intros Hs H1 H2. split; try done. cbn. unfold wrap, fits in *. by rewrite !Z.mod_small by lia.
Qed.

(** C22. A receiver of a forwarding room sees one continuous stream.  Over any
    interleaving of arriving packets and talker switches (within the reach of
    serial arithmetic), what the translator emits for each packet is what a
    translator counting without bound would: the payload unchanged under the
    receiver's payload type and the fixed SSRC, the marker at the start of a run,
    the numbers modulo 2^16 and 2^32, nothing for a late packet of the source
    talking before.  And if no packet is older than the first of its run, packets
    of one run keep their distance, and every packet of a later run is ahead of
    every earlier one in sequence number and timestamp. *)
Theorem translator_continuous ssrc seq0 ts0 ops :
  fits 32 ssrc -> fits 16 seq0 -> fits 32 ts0 -> ops_ok seq0 ts0 no_room ops ->
  (room_run (Translator_new ssrc seq0 ts0) ops).1 =
    zip_with (expected_of ssrc) (arrivals ops) (ideal_run seq0 ts0 no_room ops) /\
  (runs_start_first seq0 ts0 no_room ops ->
   ForallOrdPairs sent_in_order (omap (fun e => e) (ideal_run seq0 ts0 no_room ops))).
Proof.
  intros Hs H1 H2 Hops. split.
  - apply room_run_refines; [by apply new_room_rel|done].
  - intros Hf. by apply (ideal_run_in_order seq0 ts0 ops no_room []).
Qed.

(** ** Examples *)

Definition room_packet (clock ssrc i ts : Z) : arrival :=
  let p := mkRtpPacket false 96 (wrap 16 i) (wrap 32 ts) ssrc 0 [] [1; 2; 3] in
  mkArrival (header_bytes false false p ++ [1; 2; 3]) p 97 clock i ts (replicate 40 0).

Definition example_room : list room_op :=
  [Arrive (room_packet 10 1 65535 160); Arrive (room_packet 330 1 65537 480); Arrive (room_packet 340 1 65536 320);
   Arrive (room_packet 800 2 7 900); Arrive (room_packet 810 1 65534 1000); Arrive (room_packet 960 2 8 1060); Switch;
   Arrive (room_packet 4000 1 65600 2000)].

Lemma room_packet_ok clock ssrc i ts : fits 32 ssrc ->
  bytes_ok (ar_inbound (room_packet clock ssrc i ts)) /\ RtpPacket_parse (ar_inbound (room_packet clock ssrc i ts)) = Ok (ar_packet (room_packet clock ssrc i ts)).
Proof.
  intros Hs. assert (bytes_ok (ar_inbound (room_packet clock ssrc i ts))) as Hb.
  { unfold room_packet. cbn [ar_inbound]. unfold header_bytes. rewrite !bytes_ok_app.
    split_and!; auto using be_enc_bytes; forall_list; unfold is_byte; cbn; lia. }
  split; [done|]. apply RtpPacket_parse_complete; [done|]. split.
  - unfold packet_ok, room_packet, fits in *. cbn [ar_packet rp_payload_type rp_sequence rp_timestamp rp_ssrc rp_csrc_count rp_csrcs].
    pose proof (wrap_fits 16 i ltac:(lia)). pose proof (wrap_fits 32 ts ltac:(lia)). unfold fits in *. by split_and!; try lia.
  - by exists false, false, [], [].

Qed.

Lemma translator_continuous_witness :
  (room_run (Translator_new 0xE0E00001 65534 100) example_room).1 =
    zip_with (expected_of 0xE0E00001) (arrivals example_room) (ideal_run 65534 100 no_room example_room) /\
  ForallOrdPairs sent_in_order (omap (fun e => e) (ideal_run 65534 100 no_room example_room)).
Proof.
  destruct (translator_continuous 0xE0E00001 65534 100 example_room) as [H1 H2]; try (unfold fits; lia).
  - unfold example_room, ops_ok, arrival_ok. split_and!; try done;
      first [apply room_packet_ok; unfold fits; lia | (vm_compute; split_and!; congruence) | (vm_compute; congruence) | idtac].
    all: vm_compute; intros; split_and!; (done || congruence).
  - split; [exact H1|]. apply H2. vm_compute. split_and!; (done || congruence).
Defined.

(** A packet that overtook the first of its run backwards is mapped behind the
    rebase point, onto a number the previous talker already used. *)
Example reordered_start_reuses_number :
  let ops := [Arrive (room_packet 10 1 10 160); Arrive (room_packet 170 1 11 320); Arrive (room_packet 330 2 8 900); Arrive (room_packet 335 2 7 740)] in
  (fun o => match o with Egress _ p => Some (rp_sequence p) | _ => None end) <$> (room_run (Translator_new 9 100 5000) ops).1 =
  [Some 100; Some 101; Some 102; Some 101].
Proof. vm_compute. reflexivity. Qed.
