(* ===== verification/Relay.v ===== *)
(** * Relay arithmetic: crates/siphon-rtp-ebpf-common/src/rewrite.rs and loss.rs

    The incremental checksum fix-up, the SSRC-consistent source latch, the
    first-byte demultiplexing and the forward-gap loss estimate the kernel fast
    path shares with the userspace backends.  The checksums are proved equal to
    a from-scratch RFC 1071 end-around-carry sum; the latch is a state machine
    run over a sequence of datagrams.

    [fold16] loops; its fuel is 3 tests, which [fold16_rep] shows is enough for
    every 32-bit accumulator. *)

From S2P Require Import Prelude.
From stdpp Require Import base list numbers option.
From Stdlib Require Import Lia ZArith.

Open Scope Z_scope.

(** ** Checksums *)

Definition IPPROTO_UDP : Z := 17.

(** [while sum >> 16 != 0 { sum = (sum & 0xFFFF) + (sum >> 16) }] *)
Fixpoint fold16_loop (fuel : nat) (sum : Z) : res unit Z :=
  match fuel with
  | O => Panic
  | S fuel =>
      if negb (Z.shiftr sum 16 =? 0)
      then fold16_loop fuel (Z.land sum 0xFFFF + Z.shiftr sum 16)
      else mret (wrap 16 sum)
  end.

Definition fold16 (sum : Z) : res unit Z := fold16_loop 3 sum.

Definition word_hi (value : Z) : Z := wrap 16 (Z.shiftr value 16).
Definition word_lo (value : Z) : Z := wrap 16 (Z.land value 0xFFFF).

(** [!w] on a [u16]. *)
Definition not16 (w : Z) : Z := 0xFFFF - w.

Definition accumulate (sum old_word new_word : Z) : Z := sum + not16 old_word + new_word.

Definition ipv4_checksum_after_addr_rewrite (old_checksum old_src new_src old_dst new_dst : Z)
  : res unit Z :=
  let sum := not16 old_checksum in
  let sum := accumulate sum (word_hi old_src) (word_hi new_src) in
  let sum := accumulate sum (word_lo old_src) (word_lo new_src) in
  let sum := accumulate sum (word_hi old_dst) (word_hi new_dst) in
  let sum := accumulate sum (word_lo old_dst) (word_lo new_dst) in
  folded ← fold16 sum;
  mret (not16 folded).

Definition tos_word (version_ihl tos : Z) : Z := Z.lor (wrap 16 (Z.shiftl version_ihl 8)) tos.

Definition ipv4_checksum_after_tos_rewrite (old_checksum version_ihl old_tos new_tos : Z)
  : res unit Z :=
  if old_tos =? new_tos then mret old_checksum else
  let sum := not16 old_checksum in
  let sum := accumulate sum (tos_word version_ihl old_tos) (tos_word version_ihl new_tos) in
  folded ← fold16 sum;
  mret (not16 folded).

Definition udp_checksum_after_rewrite (old_checksum old_src_ip new_src_ip old_dst_ip new_dst_ip
  old_src_port new_src_port old_dst_port new_dst_port : Z) : res unit Z :=
  if old_checksum =? 0 then mret 0 else
  let sum := not16 old_checksum in
  let sum := accumulate sum (word_hi old_src_ip) (word_hi new_src_ip) in
  let sum := accumulate sum (word_lo old_src_ip) (word_lo new_src_ip) in
  let sum := accumulate sum (word_hi old_dst_ip) (word_hi new_dst_ip) in
  let sum := accumulate sum (word_lo old_dst_ip) (word_lo new_dst_ip) in
  let sum := accumulate sum old_src_port new_src_port in
  let sum := accumulate sum old_dst_port new_dst_port in
  folded ← fold16 sum;
  let computed := not16 folded in
  mret (if computed =? 0 then 0xFFFF else computed).

(** ** The source latch *)

Section latch.
Context {Source : Type} `{EqDecision Source}.

Record SourceLatch : Type := mkSourceLatch { sl_source : Source; sl_ssrc : option Z }.

Inductive SourceLatchVerdict : Type :=
| Keep
| Learn (latch : SourceLatch)
| Reject.

Definition source_latch_verdict (current : option SourceLatch) (source : Source) (ssrc : option Z)
  : SourceLatchVerdict :=
  let learn := Learn (mkSourceLatch source ssrc) in
  match current with
  | None => learn
  | Some latched =>
      if bool_decide (sl_source latched = source) then
        if negb (bool_decide (is_Some (sl_ssrc latched))) && bool_decide (is_Some ssrc)
        then learn else Keep
      else
        match sl_ssrc latched, ssrc with
        | Some known, Some seen => if known =? seen then learn else Reject
        | _, _ => Reject
        end
  end.

(** [update_latch] of the UDP backend: the stored latch, and whether the
    datagram is accepted. *)
Definition latch_step (current : option SourceLatch) (d : Source * option Z)
  : option SourceLatch * bool :=
  match source_latch_verdict current d.1 d.2 with
  | Keep => (current, true)
  | Learn l => (Some l, true)
  | Reject => (current, false)
  end.

Fixpoint latch_run (current : option SourceLatch) (ds : list (Source * option Z))
  : option SourceLatch * list bool :=
  match ds with
  | [] => (current, [])
  | d :: ds =>
      let '(current, accepted) := latch_step current d in
      let '(final, rest) := latch_run current ds in
      (final, accepted :: rest)
  end.

(** The reply latch of a userspace stream (crates/siphon-rtp-engine/src/reply_latch.rs). *)
Inductive ReplyLatch : Type :=
| Accept (reply_to : option Source)
| ReplyReject.

Definition SymmetricLatch_admit (latch : option SourceLatch) (source : Source) (ssrc : option Z)
  : ReplyLatch * option SourceLatch :=
  match source_latch_verdict latch source ssrc with
  | Keep => (Accept (Some source), latch)
  | Learn (mkSourceLatch _ None) => (Accept None, latch)
  | Learn learned => (Accept (Some source), Some learned)
  | Reject => (ReplyReject, latch)
  end.

Definition SymmetricLatch_ssrc (latch : option SourceLatch) : option Z := latch ≫= sl_ssrc.

Definition OpaqueLatch_admit (latch : option SourceLatch) (source : Source)
  : ReplyLatch * option SourceLatch :=
  match source_latch_verdict latch source None with
  | Keep => (Accept (Some source), latch)
  | Learn learned => (Accept (Some source), Some learned)
  | Reject => (ReplyReject, latch)
  end.

Definition OpaqueLatch_latched (latch : option SourceLatch) : option Source := sl_source <$> latch.

Definition OpaqueLatch_pinned (source : Source) : option SourceLatch :=
  Some (mkSourceLatch source None).

Fixpoint symmetric_run (latch : option SourceLatch) (ds : list (Source * option Z))
  : option SourceLatch * list ReplyLatch :=
  match ds with
  | [] => (latch, [])
  | d :: ds =>
      let '(r, latch) := SymmetricLatch_admit latch d.1 d.2 in
      let '(final, rest) := symmetric_run latch ds in (final, r :: rest)
  end.

Fixpoint opaque_run (latch : option SourceLatch) (ds : list Source)
  : option SourceLatch * list ReplyLatch :=
  match ds with
  | [] => (latch, [])
  | d :: ds =>
      let '(r, latch) := OpaqueLatch_admit latch d in
      let '(final, rest) := opaque_run latch ds in (final, r :: rest)
  end.
End latch.
Arguments ReplyLatch : clear implicits.
Arguments SourceLatch : clear implicits.
Arguments SourceLatchVerdict : clear implicits.

Record Latched : Type := mkLatched { lt_ipv4 : Z; lt_port : Z; lt_ssrc : Z }.

Inductive LatchVerdict : Type :=
| LatchForward
| LatchLearn (l : Latched)
| LatchDrop.

Definition rtp_media_ssrc (payload : bytes) : res unit (option Z) :=
  if len payload <? 12 then mret None else
  b0 ← idx payload 0;
  if negb (Z.shiftr b0 6 =? 2) then mret None else
  b1 ← idx payload 1;
  let payload_type := Z.land b1 0x7F in
  if (64 <=? payload_type) && (payload_type <=? 95) then mret None else
  a ← idx payload 8; b ← idx payload 9; c ← idx payload 10; d ← idx payload 11;
  mret (Some (be_dec [a; b; c; d])).

Definition is_rtp_or_rtcp (payload : bytes) : bool :=
  match get_at payload 0 with Some b0 => (128 <=? b0) && (b0 <=? 191) | None => false end.

Definition is_stun (payload : bytes) : bool :=
  match get_at payload 0 with Some b0 => b0 <=? 3 | None => false end.

Definition ice_media_allowed (current : option Latched) (source_ipv4 source_port : Z) : bool :=
  match current with
  | Some latched => (lt_ipv4 latched =? source_ipv4) && (lt_port latched =? source_port)
  | None => false
  end.

Definition latch_decision (current : option Latched) (source_ipv4 source_port : Z) (ssrc : option Z)
  : LatchVerdict :=
  let current := (fun latched => mkSourceLatch (lt_ipv4 latched, lt_port latched)
                    (Some (lt_ssrc latched))) <$> current in
  match source_latch_verdict current (source_ipv4, source_port) ssrc with
  | Keep | Learn (mkSourceLatch _ None) => LatchForward
  | Learn (mkSourceLatch (ipv4, port) (Some ssrc)) => LatchLearn (mkLatched ipv4 port ssrc)
  | Reject => LatchDrop
  end.

(** The kernel program's use of it: the flow's latch map entry and whether the
    datagram is forwarded. *)
Definition kernel_step (current : option Latched) (d : (Z * Z) * option Z) : option Latched * bool :=
  match latch_decision current d.1.1 d.1.2 d.2 with
  | LatchForward => (current, true)
  | LatchLearn l => (Some l, true)
  | LatchDrop => (current, false)
  end.

Fixpoint kernel_run (current : option Latched) (ds : list ((Z * Z) * option Z))
  : option Latched * list bool :=
  match ds with
  | [] => (current, [])
  | d :: ds =>
      let '(current, accepted) := kernel_step current d in
      let '(final, rest) := kernel_run current ds in
      (final, accepted :: rest)
  end.

(** ** Loss estimate *)

Definition RTP_SEQ_NONE : Z := 2 ^ 64 - 1.
Definition MAX_DROPOUT : Z := 3000.
Definition MAX_MISORDER : Z := 100.

Definition rtp_loss_update (last seq : Z) : Z * Z :=
  if last =? RTP_SEQ_NONE then (seq, 0) else
  let last_seq := wrap 16 last in
  let step := wrapping_sub 16 seq last_seq in
  if step =? 0 then (last, 0)
  else if step <? MAX_DROPOUT then (seq, step - 1)
  else if 65535 - MAX_MISORDER <? step then (last, 0)
  else (seq, 0).

(** A flow's last sequence and cumulative loss after a run of packets. *)
Fixpoint loss_run (last loss : Z) (seqs : list Z) : Z * Z :=
  match seqs with
  | [] => (last, loss)
  | seq :: seqs => let '(last, delta) := rtp_loss_update last seq in loss_run last (loss + delta) seqs
  end.

(** ** One's-complement arithmetic *)

(** Addition with end-around carry, and the RFC 1071 checksum of a word list. *)
Definition ocadd (a b : Z) : Z := if 65535 <? a + b then a + b - 65535 else a + b.
Definition ocsum (ws : list Z) : Z := foldl ocadd 0 ws.
Definition rfc1071 (ws : list Z) : Z := not16 (ocsum ws).

Fixpoint sumZ (ws : list Z) : Z := match ws with [] => 0 | w :: ws => w + sumZ ws end.

(** The 16-bit representative of a sum: 0 only for 0, otherwise in 1..65535. *)
Definition oc_rep (s : Z) : Z := if s =? 0 then 0 else 1 + (s - 1) mod 65535.

Lemma oc_rep_small s : 0 <= s <= 65535 -> oc_rep s = s.
Proof.
  intros Hs. unfold oc_rep. destruct (Z.eqb_spec s 0); [lia|]. rewrite Z.mod_small by lia. lia.
Qed.

Lemma oc_rep_add s k : 0 < s -> 0 <= k -> oc_rep (s + k * 65535) = oc_rep s.
Proof.
  intros Hs Hk. unfold oc_rep.
  rewrite (proj2 (Z.eqb_neq s 0)), (proj2 (Z.eqb_neq (s + k * 65535) 0)) by lia.
  replace (s + k * 65535 - 1) with (s - 1 + k * 65535) by lia. by rewrite Z.mod_add by lia.
Qed.

Lemma oc_rep_bound s : 0 <= s -> 0 <= oc_rep s <= 65535.
Proof.
  intros. unfold oc_rep. destruct (s =? 0); [lia|].
  pose proof (Z.mod_pos_bound (s - 1) 65535). lia.
Qed.

Lemma oc_rep_pos s : 0 < s -> 0 < oc_rep s.
Proof.
  intros. unfold oc_rep. rewrite (proj2 (Z.eqb_neq s 0)) by lia.
  pose proof (Z.mod_pos_bound (s - 1) 65535). lia.
Qed.

(** A representative differs from its sum by a multiple of 65535. *)
Lemma oc_rep_spec s : 0 <= s -> exists k, 0 <= k /\ s = oc_rep s + k * 65535.
Proof.
  intros Hs. unfold oc_rep. destruct (Z.eqb_spec s 0); [exists 0; lia|].
  exists ((s - 1) / 65535). pose proof (Z.div_mod (s - 1) 65535).
  split; [apply Z.div_pos; lia|lia].
Qed.

Lemma fold16_rep s : 0 <= s < 2 ^ 32 -> fold16 s = Ok (oc_rep s).
Proof.
  assert (forall fuel x, 0 <= x <= 65535 -> fold16_loop (S fuel) x = Ok (oc_rep x)) as Hdone.
  { intros fuel x Hx. cbn [fold16_loop]. rewrite Z.shiftr_div_pow2, Z.div_small by lia.
    cbn [negb Z.eqb]. rewrite oc_rep_small by lia. unfold wrap. by rewrite Z.mod_small by lia. }
  assert (forall fuel x, 65536 <= x -> fold16_loop (S fuel) x = fold16_loop fuel (x mod 2 ^ 16 + x / 2 ^ 16)
    /\ oc_rep (x mod 2 ^ 16 + x / 2 ^ 16) = oc_rep x) as Hstep.
  { intros fuel x Hx. pose proof (Z.div_mod x (2 ^ 16)). pose proof (Z.mod_pos_bound x (2 ^ 16)).
    assert (1 <= x / 2 ^ 16) by (apply Z.div_le_lower_bound; lia).
    cbn [fold16_loop]. change 0xFFFF with (Z.ones 16). rewrite Z.land_ones, Z.shiftr_div_pow2 by lia.
    rewrite (proj2 (Z.eqb_neq (x / 2 ^ 16) 0)) by lia. split; [done|].
    replace x with ((x mod 2 ^ 16 + x / 2 ^ 16) + (x / 2 ^ 16) * 65535) at 3 by lia.
    symmetry. apply oc_rep_add; lia. }
  intros Hs. unfold fold16. destruct (Z.le_gt_cases s 65535); [apply Hdone; lia|].
  destruct (Hstep 2%nat s) as [-> <-]; [lia|].
  pose proof (Z.mod_pos_bound s (2 ^ 16)).
  assert (0 <= s / 2 ^ 16 < 65536) by (split; [apply Z.div_pos|apply Z.div_lt_upper_bound]; lia).
  set (t := s mod 2 ^ 16 + s / 2 ^ 16). destruct (Z.le_gt_cases t 65535); [apply Hdone; lia|].
  destruct (Hstep 1%nat t) as [-> <-]; [lia|]. apply Hdone.
  assert (t / 2 ^ 16 = 1) by (symmetry; apply Z.div_unique with (t - 65536); lia).
  pose proof (Z.div_mod t (2 ^ 16)). lia.
Qed.

Lemma sumZ_nonneg ws : Forall (fits 16) ws -> 0 <= sumZ ws.
Proof. induction 1 as [|w ws Hw]; cbn [sumZ]; [lia|]. unfold fits in Hw. lia. Qed.

Lemma sumZ_app l1 l2 : sumZ (l1 ++ l2) = sumZ l1 + sumZ l2.
Proof. induction l1; cbn [sumZ app]; lia. Qed.

Lemma ocsum_rep ws : Forall (fits 16) ws -> ocsum ws = oc_rep (sumZ ws).
Proof.
  intros Hws. unfold ocsum.
  assert (forall s, 0 <= s -> foldl ocadd (oc_rep s) ws = oc_rep (s + sumZ ws)) as H.
  { induction Hws as [|w ws Hw Hws IH]; intros s Hs; cbn [foldl sumZ].
    { by rewrite Z.add_0_r. }
    pose proof (sumZ_nonneg ws Hws). unfold fits in Hw.
    assert (ocadd (oc_rep s) w = oc_rep (s + w)) as ->.
    { pose proof (oc_rep_bound s Hs). destruct (oc_rep_spec s Hs) as (k & Hk & He).
      unfold ocadd. destruct (Z.ltb_spec 65535 (oc_rep s + w)).
      - replace (s + w) with ((oc_rep s + w - 65535) + (k + 1) * 65535) by lia.
        rewrite oc_rep_add, (oc_rep_small (oc_rep s + w - 65535)) by lia. done.
      - destruct (decide (oc_rep s + w = 0)).
        { assert (s = 0). { destruct (decide (s = 0)); [done|]. pose proof (oc_rep_pos s). lia. }
          subst s. unfold oc_rep. simpl. replace w with 0 by lia. done. }
        replace (s + w) with ((oc_rep s + w) + k * 65535) by lia.
        rewrite oc_rep_add, (oc_rep_small (oc_rep s + w)) by lia. done. }
    rewrite IH by lia. f_equal. lia. }
  exact (H 0 ltac:(lia)).
Qed.

(** The RFC 1624 update over any list of changed words is the RFC 1071 sum over
    the new words, provided the unchanged part is not all zero. *)
Lemma rfc1624 rest olds news :
  Forall (fits 16) rest -> Forall (fits 16) olds -> Forall (fits 16) news ->
  length olds = length news -> 0 < sumZ rest ->
  let s := not16 (rfc1071 (rest ++ olds)) + sumZ (not16 <$> olds) + sumZ news in
  0 < s /\ not16 (oc_rep s) = rfc1071 (rest ++ news).
Proof.
  intros Hr Ho Hn Hlen Hpos s. unfold rfc1071 in *. subst s.
  rewrite !ocsum_rep by (apply Forall_app; auto). rewrite !sumZ_app.
  pose proof (sumZ_nonneg olds Ho). pose proof (sumZ_nonneg news Hn).
  assert (sumZ (not16 <$> olds) = 65535 * len olds - sumZ olds) as ->.
  { clear. induction olds as [|o os IH]; [done|]. cbn [fmap list_fmap sumZ]. rewrite IH, len_cons.
    unfold not16. lia. }
  assert (sumZ olds <= 65535 * len olds).
  { clear - Ho. induction Ho as [|o os Hf _ IH]; [unfold len; simpl; lia|].
    cbn [sumZ]. rewrite len_cons. unfold fits in Hf. lia. }
  set (S := sumZ rest + sumZ olds). pose proof (oc_rep_pos S ltac:(lia)).
  destruct (oc_rep_spec S ltac:(lia)) as (k & Hk & He).
  assert (not16 (not16 (oc_rep S)) = oc_rep S) as -> by (unfold not16; lia).
  split; [lia|]. unfold not16. f_equal.
  pose proof (len_nonneg olds).
  rewrite <- (oc_rep_add (_ + _) k) by lia.
  replace (oc_rep S + (65535 * len olds - sumZ olds) + sumZ news + k * 65535)
    with (sumZ rest + sumZ news + len olds * 65535) by lia.
  apply oc_rep_add; lia.
Qed.

Lemma word_hi_fits v : fits 16 (word_hi v).
Proof. apply Z.mod_pos_bound. lia. Qed.
Lemma word_lo_fits v : fits 16 (word_lo v).
Proof. apply Z.mod_pos_bound. lia. Qed.
Lemma tos_word_fits v t : is_byte v -> is_byte t -> fits 16 (tos_word v t).
Proof.
  unfold is_byte, fits, tos_word, wrap. intros Hv Ht. rewrite Z.shiftl_mul_pow2, Z.mod_small by lia.
  rewrite <- Z.shiftl_mul_pow2, lor_shiftl_add by lia. lia.
Qed.
Lemma not16_fits w : fits 16 w -> fits 16 (not16 w).
Proof. unfold fits, not16. lia. Qed.
#[local] Hint Resolve word_hi_fits word_lo_fits tos_word_fits not16_fits : core.

Lemma rfc1071_fits ws : Forall (fits 16) ws -> fits 16 (rfc1071 ws).
Proof.
  intros Hws. unfold rfc1071. apply not16_fits. rewrite ocsum_rep by done.
  pose proof (oc_rep_bound (sumZ ws) (sumZ_nonneg ws Hws)). unfold fits. lia.
Qed.

(** The checksum does not depend on the order of the words. *)
Lemma rfc1071_perm ws ws' :
  Forall (fits 16) ws -> Permutation ws ws' -> rfc1071 ws = rfc1071 ws'.
Proof.
  intros Hws Hp. unfold rfc1071. rewrite !ocsum_rep; [|by rewrite <- Hp|done].
  do 2 f_equal. clear Hws. induction Hp; cbn [sumZ]; lia.
Qed.

(** The word lists the fast path changes, in the order of its [accumulate] calls. *)
Definition addr_words (src dst : Z) : list Z := [word_hi src; word_lo src; word_hi dst; word_lo dst].

(** An IPv4 header without its checksum field (RFC 791 section 3.1). *)
Definition ipv4_words (version_ihl tos total_length id fragment ttl_protocol src dst : Z) : list Z :=
  [tos_word version_ihl tos; total_length; id; fragment; ttl_protocol] ++ addr_words src dst.

(** The words a UDP checksum covers (RFC 768): pseudo-header and ports first,
    then protocol, lengths and payload. *)
Definition udp_words (src dst src_port dst_port : Z) (rest : list Z) : list Z :=
  rest ++ addr_words src dst ++ [src_port; dst_port].

Definition udp_transmitted (c : Z) : Z := if c =? 0 then 0xFFFF else c.

Lemma addr_words_fits s d : Forall (fits 16) (addr_words s d).
Proof. repeat constructor; auto; apply word_hi_fits || apply word_lo_fits. Qed.

Lemma addr_rewrite_rfc1071 rest old_src new_src old_dst new_dst :
  Forall (fits 16) rest -> 0 < sumZ rest ->
  ipv4_checksum_after_addr_rewrite (rfc1071 (rest ++ addr_words old_src old_dst))
    old_src new_src old_dst new_dst = Ok (rfc1071 (rest ++ addr_words new_src new_dst)).
Proof.
  intros Hr Hpos.
  pose proof (rfc1624 rest (addr_words old_src old_dst) (addr_words new_src new_dst) Hr
    (addr_words_fits _ _) (addr_words_fits _ _) eq_refl Hpos) as [Hs Hc].
  unfold ipv4_checksum_after_addr_rewrite, accumulate. cbv zeta.
  match type of Hs with 0 < ?s => set (sum := s) in * end.
  match goal with |- context [fold16 ?s] => replace s with sum
    by (unfold sum, addr_words; cbn [fmap list_fmap sumZ]; lia) end.
  pose proof (rfc1071_fits (rest ++ addr_words old_src old_dst)
    ltac:(apply Forall_app; auto using addr_words_fits)) as Hf%not16_fits.
  rewrite fold16_rep, bind_Ok.
  2: { split; [lia|]. unfold sum, addr_words. cbn [fmap list_fmap sumZ].
       pose proof (not16_fits _ (word_hi_fits old_src)). pose proof (not16_fits _ (word_lo_fits old_src)).
       pose proof (not16_fits _ (word_hi_fits old_dst)). pose proof (not16_fits _ (word_lo_fits old_dst)).
       pose proof (word_hi_fits new_src). pose proof (word_lo_fits new_src).
       pose proof (word_hi_fits new_dst). pose proof (word_lo_fits new_dst).
       unfold fits, addr_words in *. lia. }
  unfold mret, res_ret. by rewrite Hc.
Qed.

Lemma tos_rewrite_rfc1071 rest version_ihl old_tos new_tos :
  Forall (fits 16) rest -> 0 < sumZ rest -> is_byte version_ihl -> is_byte old_tos -> is_byte new_tos ->
  ipv4_checksum_after_tos_rewrite (rfc1071 (tos_word version_ihl old_tos :: rest))
    version_ihl old_tos new_tos = Ok (rfc1071 (tos_word version_ihl new_tos :: rest)).
Proof.
  intros Hr Hpos Hv Ho Hn. unfold ipv4_checksum_after_tos_rewrite.
  destruct (Z.eqb_spec old_tos new_tos) as [->|]; [done|].
  assert (forall t, is_byte t -> rfc1071 (tos_word version_ihl t :: rest) =
    rfc1071 (rest ++ [tos_word version_ihl t])) as Hperm.
  { intros t Ht. apply rfc1071_perm; [constructor; auto|]. apply Permutation_cons_append. }
  rewrite !Hperm by done.
  pose proof (rfc1624 rest [tos_word version_ihl old_tos] [tos_word version_ihl new_tos] Hr
    ltac:(repeat constructor; apply tos_word_fits; done)
    ltac:(repeat constructor; apply tos_word_fits; done) eq_refl Hpos) as [Hs Hc].
  pose proof (rfc1071_fits (rest ++ [tos_word version_ihl old_tos])
    ltac:(apply Forall_app; split; [done|repeat constructor; apply tos_word_fits; done])) as Hf%not16_fits.
  unfold accumulate. cbv zeta. cbn [fmap list_fmap sumZ] in Hs, Hc. rewrite !Z.add_0_r in Hs, Hc.
  rewrite fold16_rep, bind_Ok.
  2: { pose proof (tos_word_fits _ _ Hv Hn). pose proof (not16_fits _ (tos_word_fits _ _ Hv Ho)).
       unfold fits in *. lia. }
  unfold mret, res_ret. by rewrite Hc.
Qed.

(** ** Theorems: checksums *)

(** Rewriting both addresses and the TOS byte of an IPv4 header
    incrementally (RFC 1624) leaves the checksum a full RFC 1071 recomputation
    over the new header gives, for any header with a non-zero total length. *)
Lemma ipv4_checksum_incremental version_ihl old_tos new_tos total_length id fragment ttl_protocol
  old_src new_src old_dst new_dst :
  is_byte version_ihl -> is_byte old_tos -> is_byte new_tos ->
  fits 16 total_length -> 0 < total_length -> fits 16 id -> fits 16 fragment -> fits 16 ttl_protocol ->
  (c ← ipv4_checksum_after_addr_rewrite
        (rfc1071 (ipv4_words version_ihl old_tos total_length id fragment ttl_protocol old_src old_dst))
        old_src new_src old_dst new_dst;
   ipv4_checksum_after_tos_rewrite c version_ihl old_tos new_tos) =
  Ok (rfc1071 (ipv4_words version_ihl new_tos total_length id fragment ttl_protocol new_src new_dst)).
Proof.
  intros Hv Ho Hn Ht Hpos Hi Hf Hp. unfold ipv4_words. pose proof (tos_word_fits _ _ Hv Ho).
  rewrite addr_rewrite_rfc1071, bind_Ok.
  - apply (tos_rewrite_rfc1071 ([total_length; id; fragment; ttl_protocol] ++ addr_words new_src new_dst));
      try done; [apply Forall_app; split; [by forall_list|apply addr_words_fits]|].
    pose proof (sumZ_nonneg _ (addr_words_fits new_src new_dst)).
    rewrite sumZ_app. cbn [sumZ]. unfold fits in *. lia.
  - by forall_list.
  - cbn [sumZ]. unfold fits in *. lia.
Qed.

Lemma ipv4_checksum_incremental_witness :
  (c ← ipv4_checksum_after_addr_rewrite
        (rfc1071 (ipv4_words 0x45 0 200 7 0x4000 0x4011 0x0A000001 0x0A000002))
        0x0A000001 0xC0A80101 0x0A000002 0xC0A80102;
   ipv4_checksum_after_tos_rewrite c 0x45 0 0xB8) =
  Ok (rfc1071 (ipv4_words 0x45 0xB8 200 7 0x4000 0x4011 0xC0A80101 0xC0A80102)).
Proof.
  apply (ipv4_checksum_incremental 0x45 0 0xB8 200 7 0x4000 0x4011); unfold is_byte, fits; lia.
Defined.

(** C12. Rewriting addresses and ports of a UDP datagram incrementally leaves
    the checksum RFC 768 prescribes for the new datagram: the recomputed
    one's-complement sum with 0 sent as 0xFFFF, and an absent checksum (0) stays
    absent. *)
Theorem udp_checksum_incremental rest old_src new_src old_dst new_dst
  old_sport new_sport old_dport new_dport :
  Forall (fits 16) rest -> 0 < sumZ rest -> fits 16 old_sport -> fits 16 new_sport ->
  fits 16 old_dport -> fits 16 new_dport ->
  udp_checksum_after_rewrite
    (udp_transmitted (rfc1071 (udp_words old_src old_dst old_sport old_dport rest)))
    old_src new_src old_dst new_dst old_sport new_sport old_dport new_dport =
    Ok (udp_transmitted (rfc1071 (udp_words new_src new_dst new_sport new_dport rest))) /\
  udp_checksum_after_rewrite 0
    old_src new_src old_dst new_dst old_sport new_sport old_dport new_dport = Ok 0.
Proof.
  intros Hr Hpos H1 H2 H3 H4. split; [|done].
  set (olds := addr_words old_src old_dst ++ [old_sport; old_dport]).
  set (news := addr_words new_src new_dst ++ [new_sport; new_dport]).
  assert (Forall (fits 16) olds) as Ho by (apply Forall_app; auto using addr_words_fits).
  assert (Forall (fits 16) news) as Hn by (apply Forall_app; auto using addr_words_fits).
  pose proof (rfc1624 rest olds news Hr Ho Hn eq_refl Hpos) as [Hs Hc].
  unfold udp_words. fold olds news. set (c := rfc1071 (rest ++ olds)) in *.
  assert (fits 16 c) as Hcf by (apply rfc1071_fits, Forall_app; auto).
  set (d := sumZ (not16 <$> olds) + sumZ news).
  assert (0 <= d < 2 ^ 24) as Hd.
  { pose proof (not16_fits _ H1). pose proof (not16_fits _ H3).
    pose proof (not16_fits _ (word_hi_fits old_src)). pose proof (not16_fits _ (word_lo_fits old_src)).
    pose proof (not16_fits _ (word_hi_fits old_dst)). pose proof (not16_fits _ (word_lo_fits old_dst)).
    pose proof (word_hi_fits new_src). pose proof (word_lo_fits new_src).
    pose proof (word_hi_fits new_dst). pose proof (word_lo_fits new_dst).
    unfold d, olds, news, addr_words, fits in *. cbn [app fmap list_fmap sumZ]. lia. }
  unfold udp_checksum_after_rewrite, accumulate. cbv zeta.
  assert (udp_transmitted c <> 0) as Hnz by (unfold udp_transmitted; destruct (Z.eqb_spec c 0); lia).
  rewrite (proj2 (Z.eqb_neq _ 0) Hnz).
  match goal with |- context [fold16 ?s] => replace s with (not16 (udp_transmitted c) + d)
    by (unfold d, olds, news, addr_words; cbn [app fmap list_fmap sumZ]; lia) end.
  replace (not16 c + sumZ (not16 <$> olds) + sumZ news) with (not16 c + d) in Hs, Hc by (unfold d; lia).
  rewrite <- Hc. unfold fits in Hcf. rewrite fold16_rep, bind_Ok.
  2: { unfold not16, udp_transmitted. destruct (c =? 0); lia. }
  fold (udp_transmitted (not16 (oc_rep (not16 (udp_transmitted c) + d)))).
  unfold mret, res_ret. f_equal. unfold udp_transmitted at 2. destruct (Z.eqb_spec c 0) as [->|]; [|done].
  unfold not16 at 2 4. rewrite Z.sub_diag, Z.sub_0_r, Z.add_0_l.
  destruct (decide (d = 0)) as [->|]; [done|].
  by rewrite <- (oc_rep_add d 1), (Z.add_comm d) by lia.
Qed.

Lemma udp_checksum_incremental_witness :
  udp_checksum_after_rewrite
    (udp_transmitted (rfc1071 (udp_words 0x0A000001 0x0A000002 5004 5006 [17; 12; 12; 0x8000])))
    0x0A000001 0xC0A80101 0x0A000002 0xC0A80102 5004 40000 5006 40002 =
  Ok (udp_transmitted (rfc1071 (udp_words 0xC0A80101 0xC0A80102 40000 40002 [17; 12; 12; 0x8000]))).
Proof.
  apply (udp_checksum_incremental [17; 12; 12; 0x8000]); try (unfold fits; lia); try (simpl; lia).
  repeat constructor; unfold fits; lia.
Defined.

(** ** Theorems: the latch *)

Section latch_theorems.
Context {Source : Type} `{EqDecision Source}.
Implicit Types (d : Source * option Z) (l : SourceLatch Source).

(** What one datagram does to a latch that knows its SSRC. *)
Lemma latch_step_known src k d :
  latch_step (Some (mkSourceLatch src (Some k))) d =
  if bool_decide (d.1 = src) then (Some (mkSourceLatch src (Some k)), true)
  else if bool_decide (d.2 = Some k) then (Some (mkSourceLatch d.1 (Some k)), true)
  else (Some (mkSourceLatch src (Some k)), false).
Proof.
  destruct d as [s o]. unfold latch_step, source_latch_verdict. cbn [sl_source sl_ssrc fst snd].
  destruct (decide (src = s)) as [->|Hne].
  - rewrite !bool_decide_eq_true_2 by done. cbn [negb andb]. done.
  - rewrite (bool_decide_eq_false_2 (src = s)), (bool_decide_eq_false_2 (s = src)) by congruence.
    destruct o as [seen|]; [|by rewrite bool_decide_eq_false_2].
    destruct (Z.eqb_spec k seen) as [->|].
    + by rewrite bool_decide_eq_true_2.
    + rewrite bool_decide_eq_false_2 by congruence. done.
Qed.

Lemma latch_run_known ds : forall src k final acc,
  latch_run (Some (mkSourceLatch src (Some k))) ds = (final, acc) ->
  length acc = length ds /\
  (exists s, final = Some (mkSourceLatch s (Some k)) /\ (s = src \/ (s, Some k) ∈ ds)) /\
  (forall i d, ds !! i = Some d -> acc !! i = Some true ->
     d.2 = Some k \/ d.1 = src \/ (d.1, Some k) ∈ take i ds).
Proof.
  induction ds as [|d ds IH]; intros src k final acc Hrun; cbn [latch_run] in Hrun.
  { injection Hrun as <- <-. split; [done|]. split; [eauto|]. intros i d' Hd. by rewrite lookup_nil in Hd. }
  rewrite latch_step_known in Hrun. case_bool_decide as Hsrc; [|case_bool_decide as Hk].
  all: match type of Hrun with context [latch_run ?c ?t] =>
         destruct (latch_run c t) as [f acc'] eqn:Hr end;
       injection Hrun as <- <-; apply IH in Hr as (Hlen & (s & -> & Hs) & Hacc); clear IH;
       (split; [simpl; lia|]); split.
  - exists s. split; [done|]. rewrite elem_of_cons. tauto.
  - intros [|i] d' Hd Ha; cbn [lookup list_lookup take] in *; [injection Hd as <-; auto|].
    rewrite elem_of_cons. destruct (Hacc i d' Hd Ha); tauto.
  - exists s. split; [done|]. rewrite elem_of_cons.
    destruct Hs as [->|]; [right; left; rewrite <- Hk; by destruct d|auto].
  - intros [|i] d' Hd Ha; cbn [lookup list_lookup take] in *; [injection Hd as <-; auto|].
    rewrite elem_of_cons. destruct (Hacc i d' Hd Ha) as [?|[->|?]]; [auto| |auto].
    right. right. left. rewrite <- Hk. by destruct d.
  - exists s. split; [done|]. rewrite elem_of_cons. tauto.
  - intros [|i] d' Hd Ha; cbn [lookup list_lookup take] in *; [done|].
    rewrite elem_of_cons. destruct (Hacc i d' Hd Ha); tauto.
Qed.

(** C4. Once a latch knows the stream's SSRC [k], it keeps [k] for ever, moves
    only to a source that sent [k], and accepts a datagram only if it carries
    [k] or comes from the original source or one that proved [k] before it: a
    spray with another SSRC, or with none, neither moves the latch nor gets
    through. *)
Theorem latch_hijack_safe (src : Source) k ds :
  exists s acc,
    latch_run (Some (mkSourceLatch src (Some k))) ds = (Some (mkSourceLatch s (Some k)), acc) /\
    length acc = length ds /\
    (s = src \/ (s, Some k) ∈ ds) /\
    (forall i d, ds !! i = Some d -> acc !! i = Some true ->
       d.2 = Some k \/ d.1 = src \/ (d.1, Some k) ∈ take i ds).
Proof.
  destruct (latch_run (Some (mkSourceLatch src (Some k))) ds) as [final acc] eqn:Hr.
  apply latch_run_known in Hr as (Hl & (s & -> & Hs) & Ha). exists s, acc. auto.
Qed.

(** A stream with no SSRC at all (UDPTL fax) latches the first source and
    never moves: exactly the datagrams from that source are accepted, each with
    itself as the reply address. *)
Lemma opaque_latch_learns_once (src : Source) (sources : list Source) :
  opaque_run None (src :: sources) =
    (Some (mkSourceLatch src None),
     Accept (Some src) :: ((fun s => if bool_decide (s = src) then Accept (Some s) else ReplyReject) <$> sources)) /\
  opaque_run (OpaqueLatch_pinned src) sources =
    (Some (mkSourceLatch src None),
     (fun s => if bool_decide (s = src) then Accept (Some s) else ReplyReject) <$> sources).
Proof.
  assert (opaque_run (OpaqueLatch_pinned src) sources =
    (Some (mkSourceLatch src None),
     (fun s => if bool_decide (s = src) then Accept (Some s) else ReplyReject) <$> sources)) as Hrun.
  { induction sources as [|s sources IH]; [done|]. cbn [opaque_run].
    unfold OpaqueLatch_admit, source_latch_verdict, OpaqueLatch_pinned in *. cbn [sl_source sl_ssrc].
    rewrite fmap_cons. destruct (decide (src = s)) as [->|Hne].
    - rewrite !bool_decide_eq_true_2 by done. cbn [is_Some bool_decide andb].
      rewrite (bool_decide_eq_false_2 (is_Some None)) by apply is_Some_None. cbn [negb andb].
      by rewrite IH.
    - rewrite (bool_decide_eq_false_2 (src = s)), (bool_decide_eq_false_2 (s = src)) by congruence.
      by rewrite IH. }
  split; [|done]. cbn [opaque_run]. unfold OpaqueLatch_admit. cbn [source_latch_verdict].
  unfold OpaqueLatch_pinned in Hrun. by rewrite Hrun.
Qed.
End latch_theorems.

(** ** Theorems: the kernel adapter *)

Definition kernel_latch_view (l : Latched) : SourceLatch (Z * Z) :=
  mkSourceLatch (lt_ipv4 l, lt_port l) (Some (lt_ssrc l)).

Lemma kernel_step_sim current d :
  current <> None \/ d.2 <> None ->
  latch_step (kernel_latch_view <$> current) d =
  (kernel_latch_view <$> (kernel_step current d).1, (kernel_step current d).2) /\
  (kernel_step current d).1 <> None.
Proof.
  intros Hc. unfold kernel_step, latch_decision. destruct d as [[ip port] o]. cbn [fst snd] in *.
  destruct current as [[lip lport lssrc]|].
  - cbn -[bool_decide latch_step source_latch_verdict].
    unfold kernel_latch_view. cbn [lt_ipv4 lt_port lt_ssrc]. rewrite latch_step_known. unfold source_latch_verdict. cbn [fst snd sl_source sl_ssrc].
    destruct (decide ((lip, lport) = (ip, port))) as [[= -> ->]|Hne].
    + rewrite !bool_decide_eq_true_2 by done. done.
    + rewrite (bool_decide_eq_false_2 ((lip, lport) = (ip, port))), (bool_decide_eq_false_2 ((ip, port) = (lip, lport))) by congruence.
      destruct o as [seen|]; [|by rewrite bool_decide_eq_false_2].
      destruct (Z.eqb_spec lssrc seen) as [->|]; [by rewrite bool_decide_eq_true_2|].
      rewrite bool_decide_eq_false_2 by congruence. done.
  - destruct o as [k|]; [done|]. naive_solver.
Qed.

(** C11. The kernel's latch refines the shared state machine: from a latched
    state, or from an unlatched one when the first datagram is RTP media, both
    accept exactly the same datagrams and hold the same source and SSRC at every
    point of any sequence. *)
Theorem kernel_latch_refines current ds :
  current <> None \/ (exists d ds', ds = d :: ds' /\ d.2 <> None) ->
  latch_run (kernel_latch_view <$> current) ds =
  (kernel_latch_view <$> (kernel_run current ds).1, (kernel_run current ds).2).
Proof.
  revert current. induction ds as [|d ds IH]; intros current Hc; [done|]. cbn [latch_run kernel_run].
  destruct (kernel_step_sim current d) as [-> Hne].
  { destruct Hc as [?|(? & ? & [= <- <-] & ?)]; auto. }
  destruct (kernel_step current d) as [next a]. cbn [fst snd] in *. rewrite IH by auto.
  destruct (kernel_run next ds) as [f acc]. done.
Qed.

Lemma kernel_latch_refines_witness :
  latch_run None [((1, 2), Some 7); ((3, 4), Some 7); ((5, 6), Some 8)] =
  (kernel_latch_view <$> (kernel_run None [((1, 2), Some 7); ((3, 4), Some 7); ((5, 6), Some 8)]).1,
   (kernel_run None [((1, 2), Some 7); ((3, 4), Some 7); ((5, 6), Some 8)]).2).
Proof.
  apply (kernel_latch_refines None [((1, 2), Some 7); ((3, 4), Some 7); ((5, 6), Some 8)]).
  right. eexists _, _. split; [reflexivity|discriminate].
Defined.

(** When RTCP arrives before any RTP the kernel gate is not narrower than
    the state machine: after RTCP from [a], the state machine is latched to [a]
    and rejects media from any other source, while the kernel (which forwards
    the RTCP without latching) accepts that media and latches to its sender. *)
Lemma kernel_latch_wider_after_rtcp a b k :
  a <> b ->
  latch_run None [(a, None); (b, Some k)] = (Some (mkSourceLatch a None), [true; false]) /\
  kernel_run None [(a, None); (b, Some k)] = (Some (mkLatched b.1 b.2 k), [true; true]).
Proof.
  intros Hne. destruct a as [a1 a2], b as [b1 b2]. split; [|done].
  cbn [latch_run]. unfold latch_step. cbn [source_latch_verdict fst snd sl_source].
  by rewrite bool_decide_eq_false_2.
Qed.

Lemma kernel_latch_wider_after_rtcp_witness :
  kernel_run None [((1, 2), None); ((3, 4), Some 9)] = (Some (mkLatched 3 4 9), [true; true]).
Proof. apply (kernel_latch_wider_after_rtcp (1, 2) (3, 4) 9). congruence. Defined.

(** The userspace reply latch ([SymmetricLatch]) takes the same decisions
    as the kernel adapter on every sequence of datagrams, from every state. *)
Lemma symmetric_latch_is_kernel_latch current ds :
  (symmetric_run (kernel_latch_view <$> current) ds).1 = kernel_latch_view <$> (kernel_run current ds).1 /\
  ((fun r => match r with Accept _ => true | ReplyReject => false end) <$>
     (symmetric_run (kernel_latch_view <$> current) ds).2) = (kernel_run current ds).2.
Proof.
  revert current. induction ds as [|d ds IH]; intros current; [done|].
  cbn [symmetric_run kernel_run].
  assert (exists r, SymmetricLatch_admit (kernel_latch_view <$> current) d.1 d.2 =
    (r, kernel_latch_view <$> (kernel_step current d).1) /\
    match r with Accept _ => true | ReplyReject => false end = (kernel_step current d).2) as (r & -> & Hr).
  { destruct d as [[ip port] o]. unfold SymmetricLatch_admit, kernel_step, latch_decision. cbn [fst snd].
    change ((fun l => mkSourceLatch (lt_ipv4 l, lt_port l) (Some (lt_ssrc l))) <$> current)
      with (kernel_latch_view <$> current).
    destruct (source_latch_verdict (kernel_latch_view <$> current) (ip, port) o)
      as [|[[a b] [s|]]|] ; eexists; split; done. }
  destruct (kernel_step current d) as [next a]. cbn [fst snd] in *.
  specialize (IH next). destruct (symmetric_run _ ds) as [f rs], (kernel_run next ds) as [kf ks].
  cbn [fst snd] in *. destruct IH as [-> IH]. split; [done|]. rewrite fmap_cons, IH. by f_equal.
Qed.

(** ** Theorems: loss *)

(** The high-water mark of a run of extended sequence numbers, and how often it
    advanced. *)
Fixpoint high_water (hw advances : Z) (es : list Z) : Z * Z :=
  match es with
  | [] => (hw, advances)
  | e :: es => if hw <? e then high_water e (advances + 1) es else high_water hw advances es
  end.

(** Every packet is within the in-stream window of the highest one before it. *)
Fixpoint in_stream (hw : Z) (es : list Z) : Prop :=
  match es with
  | [] => True
  | e :: es => hw - MAX_MISORDER <= e < hw + MAX_DROPOUT /\ in_stream (Z.max hw e) es
  end.

Lemma loss_update_in_stream hw e :
  0 <= hw -> 0 <= e -> hw - MAX_MISORDER <= e < hw + MAX_DROPOUT ->
  rtp_loss_update (wrap 16 hw) (wrap 16 e) =
  if hw <? e then (wrap 16 e, e - hw - 1) else (wrap 16 hw, 0).
Proof.
  unfold MAX_MISORDER, MAX_DROPOUT. intros Hhw He Hr. unfold rtp_loss_update, MAX_MISORDER, MAX_DROPOUT.
  assert (fits 16 (wrap 16 hw)) as Hf by (apply Z.mod_pos_bound; lia).
  rewrite (proj2 (Z.eqb_neq (wrap 16 hw) RTP_SEQ_NONE)) by (unfold fits, RTP_SEQ_NONE in *; lia).
  assert (wrapping_sub 16 (wrap 16 e) (wrap 16 (wrap 16 hw)) = (e - hw) mod 2 ^ 16) as ->.
  { unfold wrapping_sub, wrap. rewrite Zmod_mod. symmetry. apply Zminus_mod. }
  cbv zeta. destruct (Z.ltb_spec hw e).
  - rewrite Z.mod_small by lia. rewrite (proj2 (Z.eqb_neq _ 0)), (proj2 (Z.ltb_lt _ 3000)) by lia. done.
  - destruct (decide (e = hw)) as [->|]; [by rewrite Z.sub_diag|].
    replace ((e - hw) mod 2 ^ 16) with (e - hw + 65536) by (apply Z.mod_unique with (-1); lia).
    rewrite (proj2 (Z.eqb_neq _ 0)), (proj2 (Z.ltb_ge _ 3000)), (proj2 (Z.ltb_lt (65535 - 100) _)) by lia. done.
Qed.

Lemma loss_run_in_stream es : forall hw loss adv,
  0 <= hw -> Forall (fun e => 0 <= e) es -> in_stream hw es ->
  loss_run (wrap 16 hw) loss (wrap 16 <$> es) =
  (wrap 16 (high_water hw adv es).1,
   loss + ((high_water hw adv es).1 - hw) - ((high_water hw adv es).2 - adv)).
Proof.
  induction es as [|e es IH]; intros hw loss adv Hhw Hes Hin.
  - cbn. f_equal. lia.
  - apply Forall_cons_1 in Hes as [He Hes]. destruct Hin as [Hr Hin].
    rewrite fmap_cons. cbn [loss_run high_water]. rewrite loss_update_in_stream by done.
    destruct (Z.ltb_spec hw e).
    + rewrite Z.max_r in Hin by lia. rewrite (IH e _ (adv + 1)) by done. f_equal. lia.
    + rewrite Z.max_l in Hin by lia. rewrite (IH hw _ adv) by done. f_equal. lia.
Qed.

(** Over any in-stream run (reordering up to 100 back, duplicates and
    16-bit wrap-around included) the kernel's loss counter is the number of
    sequence numbers the high-water mark jumped over: its total advance minus
    the number of packets that advanced it. *)
Lemma loss_counts_gaps e0 es :
  0 <= e0 -> Forall (fun e => 0 <= e) es -> in_stream e0 es ->
  loss_run RTP_SEQ_NONE 0 (wrap 16 <$> e0 :: es) =
  (wrap 16 (high_water e0 0 es).1, (high_water e0 0 es).1 - e0 - (high_water e0 0 es).2).
Proof.
  intros H0 Hes Hin. rewrite fmap_cons. cbn [loss_run].
  change (rtp_loss_update RTP_SEQ_NONE (wrap 16 e0)) with (wrap 16 e0, 0). cbv iota beta.
  rewrite (loss_run_in_stream es e0 _ 0) by done. f_equal. lia.
Qed.

Lemma loss_counts_gaps_witness :
  loss_run RTP_SEQ_NONE 0 (wrap 16 <$> [65534; 65537; 65535; 65537; 65540]) = (4, 4).
Proof.
  rewrite (loss_counts_gaps 65534 [65537; 65535; 65537; 65540]).
  - vm_compute. reflexivity.
  - lia.
  - forall_list; lia.
  - unfold in_stream, MAX_MISORDER, MAX_DROPOUT. lia.
Defined.
