(* ===== verification/Replay.v ===== *)
(** * SRTP packet index and replay window: crates/siphon-rtp-srtp/src/lib.rs

    The 64-packet sliding replay filter (RFC 3711 section 3.3.2) and the
    rollover-counter estimate that turns a 16-bit sequence number into the
    48-bit packet index (section 3.3.1).  The window is proved to implement a
    filter over the set of all indices ever received; the estimate is proved to
    return the sender's true index whenever it lies within 2^15 of the highest
    one seen. *)

From S2P Require Import Prelude.
From stdpp Require Import base list numbers option gmap sets.
From Stdlib Require Import Lia ZArith.

Open Scope Z_scope.

Inductive SrtpError : Type :=
| SrtpTooShort
| SrtpBadVersion
| AuthFailed
| Replayed
| UnknownMki
| NoKeys
| DuplicateMki
| IndexExhausted.

(** ** The replay window *)

Definition REPLAY_WINDOW : Z := 64.

Record ReplayWindow : Type := mkReplayWindow { rw_top : Z; rw_mask : Z; rw_seen : bool }.

Definition ReplayWindow_default : ReplayWindow := mkReplayWindow 0 0 false.

(** [x << n] on a [u64]; a shift of 64 or more panics in a checked build. *)
Definition shl64 {E} (x n : Z) : res E Z :=
  if n <? 64 then mret (wrap 64 (Z.shiftl x n)) else Panic.

Definition ReplayWindow_is_replay (w : ReplayWindow) (index : Z) : res SrtpError bool :=
  if negb (rw_seen w) || (rw_top w <? index) then mret false else
  let delta := rw_top w - index in
  if REPLAY_WINDOW <=? delta then mret true else
  bit ← shl64 1 delta;
  mret (negb (Z.land (rw_mask w) bit =? 0)).

Definition ReplayWindow_record (w : ReplayWindow) (index : Z) : res SrtpError ReplayWindow :=
  if negb (rw_seen w) then mret (mkReplayWindow index 1 true) else
  if rw_top w <? index then
    let shift := index - rw_top w in
    mask ← (if REPLAY_WINDOW <=? shift then mret 1 else
            shifted ← shl64 (rw_mask w) shift; mret (Z.lor shifted 1));
    mret (mkReplayWindow index mask (rw_seen w))
  else
    bit ← shl64 1 (rw_top w - index);
    mret (mkReplayWindow (rw_top w) (Z.lor (rw_mask w) bit) (rw_seen w)).

Definition ReplayWindow_highest (w : ReplayWindow) : option Z :=
  if rw_seen w then Some (rw_top w) else None.

Definition ReplayWindow_close_at (w : ReplayWindow) (index : Z) : ReplayWindow :=
  mkReplayWindow index (2 ^ 64 - 1) true.

Definition ReplayWindow_anchor (w : ReplayWindow) (index : Z) : ReplayWindow :=
  mkReplayWindow index 1 true.

(** ** The packet index *)

Record StreamState : Type := mkStreamState {
  ss_roc : Z;
  ss_highest_seq : option Z;
  ss_replay : ReplayWindow
}.

Definition StreamState_default : StreamState := mkStreamState 0 None ReplayWindow_default.

Definition index_for (state : StreamState) (seq : Z) : (Z * Z) * StreamState :=
  match ss_highest_seq state with
  | None => ((seq, ss_roc state), mkStreamState (ss_roc state) (Some seq) (ss_replay state))
  | Some highest =>
      let roc := ss_roc state in
      let v :=
        if highest <? 32768 then
          if 32768 <? seq - highest then wrapping_sub 32 roc 1 else roc
        else if 32768 <? highest - seq then wrapping_add 32 roc 1
        else roc in
      let state :=
        if (v =? roc) && (highest <? seq) then mkStreamState roc (Some seq) (ss_replay state)
        else if v =? wrapping_add 32 roc 1 then mkStreamState v (Some seq) (ss_replay state)
        else state in
      ((Z.lor (Z.shiftl v 16) seq, v), state)
  end.

(** ** The reference filter: the set of indices received so far *)

(** [w] represents the received set [R]. *)
Definition window_ok (w : ReplayWindow) (R : gset Z) : Prop :=
  if rw_seen w then
    0 <= rw_mask w < 2 ^ 64 /\ rw_top w ∈ R /\ (forall i, i ∈ R -> i <= rw_top w) /\
    forall j, 0 <= j < 64 -> (Z.testbit (rw_mask w) j = true <-> rw_top w - j ∈ R)
  else R = ∅.

(** RFC 3711 section 3.3.2: an index is fresh unless it was received or lies 64
    or more below the highest received. *)
Definition fresh_index (R : gset Z) (i : Z) : Prop :=
  (i ∉ R) /\ forall t, t ∈ R -> t - i < REPLAY_WINDOW.

Lemma shl64_one {E} d : 0 <= d < 64 -> @shl64 E 1 d = Ok (2 ^ d).
Proof.
  intros Hd. unfold shl64. rewrite (proj2 (Z.ltb_lt d 64)) by lia. unfold mret, res_ret, wrap. f_equal.
  rewrite Z.shiftl_mul_pow2, Z.mul_1_l by lia. apply Z.mod_small.
  split; [apply Z.pow_nonneg; lia|apply Z.pow_lt_mono_r; lia].
Qed.

Lemma is_replay_correct w R i :
  window_ok w R -> exists b, ReplayWindow_is_replay w i = Ok b /\ (b = false <-> fresh_index R i).
Proof.
  unfold window_ok, ReplayWindow_is_replay, fresh_index, REPLAY_WINDOW.
  destruct (rw_seen w); cbn [negb orb].
  2: { intros ->. exists false. split; [done|]. split; [intros _|done]. split; [set_solver|]. set_solver. }
  intros (Hm & Ht & Hmax & Hbits). destruct (Z.ltb_spec (rw_top w) i).
  { exists false. split; [done|]. split; [intros _|done].
    split; [intros Hi%Hmax; lia|]. intros t Hti%Hmax. lia. }
  destruct (Z.leb_spec 64 (rw_top w - i)).
  { exists true. split; [done|]. split; [done|]. intros [_ Hf]. specialize (Hf _ Ht). lia. }
  rewrite shl64_one, bind_Ok by lia. rewrite land_pow2_eqb by lia.
  exists (Z.testbit (rw_mask w) (rw_top w - i)). split; [done|].
  specialize (Hbits (rw_top w - i) ltac:(lia)). replace (rw_top w - (rw_top w - i)) with i in Hbits by lia.
  destruct (Z.testbit _ _); split.
  - done.
  - intros [Hf _]. destruct Hf. by apply Hbits.
  - intros _. split; [naive_solver|]. intros t Hti%Hmax. lia.
  - done.
Qed.

Lemma lor_bits m b n : 0 <= m < 2 ^ n -> 0 <= b < 2 ^ n -> 0 <= n -> 0 <= Z.lor m b < 2 ^ n.
Proof.
  intros Hm Hb Hn. split; [apply Z.lor_nonneg; lia|].
  destruct (decide (Z.lor m b = 0)) as [->|]; [apply Z.pow_pos_nonneg; lia|].
  assert (0 <= Z.lor m b) by (apply Z.lor_nonneg; lia).
  apply Z.log2_lt_pow2; [lia|]. rewrite Z.log2_lor by lia.
  destruct (decide (n = 0)) as [->|].
  { assert (m = 0) as -> by lia. assert (b = 0) as -> by lia. done. }
  apply Z.max_lub_lt.
  - destruct (decide (m = 0)) as [->|]; [simpl; lia|]. apply Z.log2_lt_pow2; lia.
  - destruct (decide (b = 0)) as [->|]; [simpl; lia|]. apply Z.log2_lt_pow2; lia.
Qed.

(** Recording a fresh index never panics and represents the enlarged set. *)
Lemma record_correct w R i :
  window_ok w R -> fresh_index R i ->
  exists w', ReplayWindow_record w i = Ok w' /\ window_ok w' ({[ i ]} ∪ R) /\ rw_seen w' = true /\
    rw_top w' = if rw_seen w then Z.max (rw_top w) i else i.
Proof.
  unfold window_ok, ReplayWindow_record, fresh_index, REPLAY_WINDOW. intros Hw [Hni Hwin].
  destruct (rw_seen w) eqn:Hseen; cbn [negb].
  2: { eexists. split; [done|]. cbn [rw_seen rw_mask rw_top]. subst R. split; [|done].
       split; [lia|]. split; [set_solver|]. split; [set_solver by lia|]. intros j Hj. split.
       - intros Hb. destruct (decide (j = 0)) as [->|]; [rewrite Z.sub_0_r; set_solver|].
         rewrite (testbit_above 1 1 j) in Hb by lia. done.
       - intros Hin. assert (j = 0) as -> by set_solver by lia. done. }
  destruct Hw as (Hm & Ht & Hmax & Hbits).
  destruct (Z.ltb_spec (rw_top w) i).
  - set (shift := i - rw_top w). destruct (Z.leb_spec 64 shift).
    + eexists. split; [done|]. cbn [rw_seen rw_mask rw_top]. split; [|split; [done|lia]].
      split; [lia|]. split; [set_solver|]. split.
      { intros k [->%elem_of_singleton|Hk%Hmax]%elem_of_union; lia. }
      intros j Hj. rewrite elem_of_union, elem_of_singleton. split.
      * intros Hb. destruct (decide (j = 0)) as [->|]; [left; lia|].
        rewrite (testbit_above 1 1 j) in Hb by lia. done.
      * intros [?|Hin%Hmax]; [|lia]. assert (j = 0) as -> by lia. done.
    + unfold shl64. rewrite (proj2 (Z.ltb_lt shift 64)) by lia. eexists. split; [done|].
      cbn [rw_seen rw_mask rw_top]. split; [|split; [done|lia]].
      split. { apply lor_bits; [apply Z.mod_pos_bound; lia|lia|lia]. }
      split; [set_solver|]. split.
      { intros k [->%elem_of_singleton|Hk%Hmax]%elem_of_union; lia. }
      intros j Hj. rewrite elem_of_union, elem_of_singleton, Z.lor_spec. unfold wrap.
      rewrite Z.mod_pow2_bits_low, Z.shiftl_spec by lia.
      destruct (decide (j = 0)) as [->|].
      { rewrite orb_true_r. split; [left; lia|done]. }
      rewrite (testbit_above 1 1 j), orb_false_r by lia.
      destruct (Z.lt_ge_cases j shift).
      { rewrite Z.testbit_neg_r by lia. split; [done|]. intros [?|Hin%Hmax]; lia. }
      rewrite Hbits by lia. replace (rw_top w - (j - shift)) with (i - j) by lia.
      split; [auto|]. intros [?|?]; [lia|done].
  - specialize (Hwin _ Ht). rewrite shl64_one, bind_Ok by lia. eexists. split; [done|].
    cbn [rw_seen rw_mask rw_top]. split; [|split; [done|lia]].
    split. { apply lor_bits; [lia| |lia]. split; [apply Z.pow_nonneg; lia|apply Z.pow_lt_mono_r; lia]. }
    split; [set_solver|]. split.
    { intros k [->%elem_of_singleton|Hk%Hmax]%elem_of_union; lia. }
    intros j Hj. rewrite elem_of_union, elem_of_singleton, Z.lor_spec, Z.pow2_bits_eqb by lia.
    destruct (Z.eqb_spec (rw_top w - i) j).
    { rewrite orb_true_r. split; [left; lia|done]. }
    rewrite orb_false_r, Hbits by lia. split; [auto|]. intros [?|?]; [lia|done].
Qed.

(** The receiver's use of the window: check, then record what was accepted. *)
Fixpoint replay_run (w : ReplayWindow) (indices : list Z) : res SrtpError (list bool * ReplayWindow) :=
  match indices with
  | [] => mret ([], w)
  | index :: indices =>
      replay ← ReplayWindow_is_replay w index;
      w ← (if (replay : bool) then mret w else ReplayWindow_record w index);
      rest ← replay_run w indices;
      mret (negb replay :: rest.1, rest.2)
  end.

Definition freshb (R : gset Z) (i : Z) : bool :=
  bool_decide (i ∉ R) && bool_decide (set_Forall (fun t => t - i < REPLAY_WINDOW) R).

(** The same receiver holding the whole set of received indices. *)
Fixpoint reference_run (R : gset Z) (indices : list Z) : list bool * gset Z :=
  match indices with
  | [] => ([], R)
  | i :: indices =>
      let rest := reference_run (if freshb R i then {[ i ]} ∪ R else R) indices in
      (freshb R i :: rest.1, rest.2)
  end.

(** The indices a run accepted. *)
Fixpoint accepted (indices : list Z) (flags : list bool) : list Z :=
  match indices, flags with
  | i :: indices, b :: flags => if (b : bool) then i :: accepted indices flags else accepted indices flags
  | _, _ => []
  end.

Lemma freshb_spec R i : freshb R i = true <-> fresh_index R i.
Proof.
  unfold freshb, fresh_index. rewrite andb_true_iff, !bool_decide_eq_true. unfold set_Forall. done.
Qed.

Lemma replay_run_correct indices : forall w R,
  window_ok w R ->
  exists w', replay_run w indices = Ok ((reference_run R indices).1, w') /\
    window_ok w' (reference_run R indices).2.
Proof.
  induction indices as [|i indices IH]; intros w R Hw; [by exists w|].
  cbn [replay_run reference_run]. destruct (is_replay_correct w R i Hw) as (b & -> & Hb).
  rewrite bind_Ok. destruct (freshb R i) eqn:Hf.
  - apply freshb_spec in Hf as Hfr. rewrite (proj2 Hb Hfr).
    destruct (record_correct w R i Hw Hfr) as (w1 & -> & Hw1 & _). rewrite bind_Ok.
    destruct (IH w1 _ Hw1) as (w' & -> & Hw'). by exists w'.
  - assert (b = true) as ->.
    { destruct b; [done|]. assert (freshb R i = true) by (apply freshb_spec; tauto). congruence. }
    unfold mret, res_ret. rewrite bind_Ok. destruct (IH w _ Hw) as (w' & -> & Hw'). by exists w'.
Qed.

Lemma reference_run_NoDup indices : forall R,
  NoDup (accepted indices (reference_run R indices).1) /\
  (forall i, i ∈ accepted indices (reference_run R indices).1 -> i ∉ R).
Proof.
  induction indices as [|i indices IH]; intros R.
  { split; [constructor|]. intros i Hi. by apply elem_of_nil in Hi. }
  cbn [reference_run accepted fst]. destruct (freshb R i) eqn:Hf.
  - apply freshb_spec in Hf as [Hni _]. destruct (IH ({[ i ]} ∪ R)) as [Hnd Hout]. split.
    + constructor; [|done]. intros Hin%Hout. set_solver.
    + intros j [->|Hj%Hout]%elem_of_cons; [done|set_solver].
  - destruct (IH R) as [Hnd Hout]. done.
Qed.

(** ** The packet index against the sender's true index *)

(** The index of the highest packet a receiver has accounted for. *)
Definition state_index (s : StreamState) : option Z :=
  (fun h => ss_roc s * 2 ^ 16 + h) <$> ss_highest_seq s.

(** A state no seeding has broken: the counters have their width, and a stream
    that has seen no packet has not rolled over. *)
Definition stream_ok (s : StreamState) : Prop :=
  fits 32 (ss_roc s) /\ match ss_highest_seq s with Some h => fits 16 h | None => ss_roc s = 0 end.

(** [i] is close enough to the highest index for the estimate to be unique. *)
Definition near (o : option Z) (i : Z) : Prop :=
  fits 48 i /\ match o with None => i < 2 ^ 16 | Some h => h - 2 ^ 15 < i < h + 2 ^ 15 end.

Lemma index_split i : fits 48 i -> i = (i / 2 ^ 16) * 2 ^ 16 + i mod 2 ^ 16 /\
  fits 32 (i / 2 ^ 16) /\ fits 16 (i mod 2 ^ 16).
Proof.
  unfold fits. intros Hi. pose proof (Z.div_mod i (2 ^ 16)). pose proof (Z.mod_pos_bound i (2 ^ 16)).
  split; [lia|]. split; [|lia]. split; [apply Z.div_pos; lia|apply Z.div_lt_upper_bound; lia].
Qed.

Lemma index_for_near s i :
  stream_ok s -> near (state_index s) i ->
  exists s', index_for s (i mod 2 ^ 16) = ((i, i / 2 ^ 16), s') /\ stream_ok s' /\
    ss_replay s' = ss_replay s /\
    state_index s' = Some (match state_index s with None => i | Some h => Z.max h i end).
Proof.
  intros [Hroc Hh] [Hi Hnear]. destruct (index_split i Hi) as (Heq & Hv & Hs).
  set (v := i / 2 ^ 16) in *. set (seq := i mod 2 ^ 16) in *.
  unfold index_for, state_index, stream_ok in *. destruct (ss_highest_seq s) as [h|] eqn:Hhs; cbn [fmap option_fmap option_map] in *.
  - assert (Z.lor (Z.shiftl v 16) seq = i) as Hlor by (rewrite lor_shiftl_add by (unfold fits in *; lia); lia).
    unfold wrapping_add, wrapping_sub, wrap.
    assert ((if h <? 32768 then if 32768 <? seq - h then (ss_roc s - 1) mod 2 ^ 32 else ss_roc s
       else if 32768 <? h - seq then (ss_roc s + 1) mod 2 ^ 32 else ss_roc s) = v) as ->.
    { unfold fits in *. destruct (Z.ltb_spec h 32768).
      - destruct (Z.ltb_spec 32768 (seq - h)); [rewrite Z.mod_small|]; lia.
      - destruct (Z.ltb_spec 32768 (h - seq)); [rewrite Z.mod_small|]; lia. }
    rewrite Hlor. eexists. split; [done|]. unfold fits in *.
    destruct (Z.eqb_spec v (ss_roc s)) as [Hvr|Hvr]; cbn [andb].
    + destruct (Z.ltb_spec h seq); cbn [ss_roc ss_highest_seq ss_replay].
      * split; [lia|]. split; [done|]. cbn. f_equal. lia.
      * destruct (Z.eqb_spec v ((ss_roc s + 1) mod 2 ^ 32)) as [Hw|Hw].
        { exfalso. destruct (decide (ss_roc s = 2 ^ 32 - 1)) as [Hmax|]; [|rewrite Z.mod_small in Hw; lia].
          rewrite Hmax in Hw. change ((2 ^ 32 - 1 + 1) mod 2 ^ 32) with 0 in Hw. lia. }
        rewrite Hhs. split; [lia|]. split; [done|]. cbn. f_equal. lia.
    + destruct (Z.eqb_spec v ((ss_roc s + 1) mod 2 ^ 32)) as [Hw|Hw]; cbn [ss_roc ss_highest_seq ss_replay].
      * split; [lia|]. split; [done|]. cbn. f_equal.
        assert (v = ss_roc s + 1).
        { destruct (decide (ss_roc s = 2 ^ 32 - 1)) as [Hmax|]; [|rewrite Z.mod_small in Hw; lia].
          rewrite Hmax in Hw. change ((2 ^ 32 - 1 + 1) mod 2 ^ 32) with 0 in Hw. lia. }
        lia.
      * assert (v = ss_roc s - 1).
        { destruct (Z.lt_ge_cases v (ss_roc s)); [lia|]. rewrite Z.mod_small in Hw; lia. }
        rewrite Hhs. split; [lia|]. split; [done|]. cbn. f_equal. lia.
  - rewrite Hh in *. assert (v = 0) as Hv0 by (unfold v; apply Z.div_small; unfold fits in *; lia).
    rewrite Hv0 in *. assert (seq = i) as -> by lia. eexists. split; [done|].
    cbn [ss_roc ss_highest_seq ss_replay]. split; [unfold fits in *; lia|]. done.
Qed.

(** Estimating never breaks a state, and estimating the same sequence number
    again gives the same index. *)
Lemma index_for_stable s seq i roc s' :
  stream_ok s -> fits 16 seq -> index_for s seq = ((i, roc), s') ->
  stream_ok s' /\ ss_replay s' = ss_replay s /\ index_for s' seq = ((i, roc), s').
Proof.
  intros [Hr Hh] Hs H. unfold index_for in H. unfold stream_ok.
  destruct (ss_highest_seq s) as [h|] eqn:Hhs.
  - unfold wrapping_add, wrapping_sub, wrap in H. set (v := if h <? 32768 then _ else _) in H.
    assert (fits 32 v) as Hv.
    { unfold v, fits in *. pose proof (Z.mod_pos_bound (ss_roc s - 1) (2 ^ 32)).
      pose proof (Z.mod_pos_bound (ss_roc s + 1) (2 ^ 32)). repeat case_match; lia. }
    assert ((ss_roc s + 1) mod 2 ^ 32 <> ss_roc s) as Hne.
    { unfold fits in Hr. destruct (decide (ss_roc s = 2 ^ 32 - 1)) as [->|]; [done|].
      rewrite Z.mod_small; lia. }
    destruct (Z.eqb_spec v (ss_roc s)) as [Hvr|Hvr]; cbn [andb] in H.
    + destruct (Z.ltb_spec h seq).
      * injection H as <- <- <-. cbn [ss_roc ss_highest_seq ss_replay]. split; [done|]. split; [done|].
        unfold index_for. cbn [ss_roc ss_highest_seq ss_replay].
        rewrite Z.sub_diag. change (32768 <? 0) with false.
        destruct (seq <? 32768); rewrite Z.ltb_irrefl, andb_false_r; unfold wrapping_add, wrap;
          rewrite (proj2 (Z.eqb_neq (ss_roc s) ((ss_roc s + 1) mod 2 ^ 32))) by congruence; by rewrite Hvr.
      * rewrite (proj2 (Z.eqb_neq v ((ss_roc s + 1) mod 2 ^ 32))) in H by congruence.
        injection H as <- <- <-. rewrite Hhs. split; [done|]. split; [done|].
        unfold index_for. rewrite Hhs. unfold wrapping_add, wrapping_sub, wrap. fold v.
        rewrite (proj2 (Z.ltb_ge h seq)), andb_false_r by lia.
        by rewrite (proj2 (Z.eqb_neq v ((ss_roc s + 1) mod 2 ^ 32))) by congruence.
    + destruct (Z.eqb_spec v ((ss_roc s + 1) mod 2 ^ 32)) as [Hw|Hw].
      * injection H as <- <- <-. cbn [ss_roc ss_highest_seq ss_replay]. split; [done|]. split; [done|].
        unfold index_for. cbn [ss_roc ss_highest_seq ss_replay]. rewrite Z.sub_diag.
        change (32768 <? 0) with false. unfold fits in Hv.
        assert ((v + 1) mod 2 ^ 32 <> v) as Hne'.
        { destruct (decide (v = 2 ^ 32 - 1)) as [->|]; [done|]. rewrite Z.mod_small; lia. }
        destruct (seq <? 32768); rewrite Z.ltb_irrefl, andb_false_r; unfold wrapping_add, wrap;
          by rewrite (proj2 (Z.eqb_neq v ((v + 1) mod 2 ^ 32))) by congruence.
      * injection H as <- <- <-. rewrite Hhs. split; [done|]. split; [done|].
        unfold index_for. rewrite Hhs. unfold wrapping_add, wrapping_sub, wrap. fold v.
        rewrite (proj2 (Z.eqb_neq v (ss_roc s))) by done. cbn [andb].
        by rewrite (proj2 (Z.eqb_neq v ((ss_roc s + 1) mod 2 ^ 32))) by done.
  - injection H as <- <- <-. cbn [ss_roc ss_highest_seq ss_replay]. split; [done|]. split; [done|].
    unfold index_for. cbn [ss_roc ss_highest_seq ss_replay]. rewrite Z.sub_diag, Hh.
    change (32768 <? 0) with false. rewrite Z.ltb_irrefl. destruct (seq <? 32768); cbn; by rewrite Z.lor_0_l.
Qed.

(** The estimate does not look at the replay window. *)
Lemma index_for_replay s seq w :
  index_for (mkStreamState (ss_roc s) (ss_highest_seq s) w) seq =
  ((index_for s seq).1, mkStreamState (ss_roc (index_for s seq).2) (ss_highest_seq (index_for s seq).2) w).
Proof.
  unfold index_for. cbn [ss_roc ss_highest_seq ss_replay]. destruct (ss_highest_seq s) eqn:Hh; [|done].
  cbn [fst snd]. f_equal. destruct (_ && _); [done|]. destruct (_ =? _); [done|]. cbn. by rewrite Hh.
Qed.

(** Estimating the indices of a run of packets. *)
Fixpoint index_run (s : StreamState) (seqs : list Z) : list (Z * Z) * StreamState :=
  match seqs with
  | [] => ([], s)
  | seq :: seqs =>
      let '(ir, s) := index_for s seq in
      let '(rest, s) := index_run s seqs in (ir :: rest, s)
  end.

Definition highest_of (o : option Z) (i : Z) : option Z :=
  Some (match o with None => i | Some h => Z.max h i end).

Fixpoint near_run (o : option Z) (indices : list Z) : Prop :=
  match indices with
  | [] => True
  | i :: indices => near o i /\ near_run (highest_of o i) indices
  end.

(** ** Theorems *)

(** C1. The 64-bit replay window is exactly the filter over the full set of
    received indices: on any sequence of indices, from any window representing a
    set, it accepts the same ones, never panics on a shift, accepts no index
    twice, and represents the enlarged set afterwards. *)
Theorem replay_window_refines w R indices :
  window_ok w R ->
  exists w', replay_run w indices = Ok ((reference_run R indices).1, w') /\
    window_ok w' (reference_run R indices).2 /\
    NoDup (accepted indices (reference_run R indices).1) /\
    (forall i, i ∈ accepted indices (reference_run R indices).1 -> i ∉ R).
Proof.
  intros Hw. destruct (replay_run_correct indices w R Hw) as (w' & Hr & Hw').
  exists w'. split; [done|]. split; [done|]. apply reference_run_NoDup.
Qed.

Lemma replay_window_refines_witness :
  exists w', replay_run ReplayWindow_default [100; 99; 100; 30; 170; 106; 107] =
    Ok ([true; true; false; false; true; false; true], w').
Proof.
  destruct (replay_window_refines ReplayWindow_default ∅ [100; 99; 100; 30; 170; 106; 107]) as (w' & H & _).
  - reflexivity.
  - exists w'. exact H.
Defined.

(** An HA standby that closes its window at the checkpointed index treats
    that index and every one below it as received and every later one as fresh. *)
Lemma close_at_rejects_history w index i :
  0 <= i ->
  ReplayWindow_is_replay (ReplayWindow_close_at w index) i = Ok (i <=? index).
Proof.
  intros Hi. unfold ReplayWindow_is_replay, ReplayWindow_close_at, REPLAY_WINDOW.
  cbn [rw_seen rw_top rw_mask negb orb]. destruct (Z.ltb_spec index i).
  { by rewrite (proj2 (Z.leb_gt i index)). }
  rewrite (proj2 (Z.leb_le i index)) by lia. destruct (Z.leb_spec 64 (index - i)); [done|].
  rewrite shl64_one, bind_Ok by lia. rewrite land_pow2_eqb by lia.
  change (2 ^ 64 - 1) with (Z.ones 64). rewrite Z.ones_spec_low by lia. done.
Qed.

Lemma close_at_rejects_history_witness :
  ReplayWindow_is_replay (ReplayWindow_close_at ReplayWindow_default 1000) 940 = Ok true.
Proof. apply (close_at_rejects_history ReplayWindow_default 1000 940). lia. Defined.

(** Rollover estimation recovers the sender's true 48-bit index of every
    packet, across any number of sequence-number wraps and any reordering or
    loss that keeps each packet within 2^15 of the highest seen, and hands
    authentication the matching rollover counter. *)
Lemma index_estimate_exact s indices :
  stream_ok s -> near_run (state_index s) indices ->
  exists s', index_run s ((fun i => i mod 2 ^ 16) <$> indices) =
    ((fun i => (i, i / 2 ^ 16)) <$> indices, s') /\
    stream_ok s' /\ state_index s' = fold_left highest_of indices (state_index s).
Proof.
  revert s. induction indices as [|i indices IH]; intros s Hs Hn; [by exists s|].
  destruct Hn as [Hi Hn]. rewrite !fmap_cons. cbn [index_run fold_left].
  destruct (index_for_near s i Hs Hi) as (s1 & -> & Hs1 & _ & Hidx).
  change (Some _) with (highest_of (state_index s) i) in Hidx. rewrite <- Hidx in Hn.
  destruct (IH s1 Hs1 Hn) as (s' & -> & Hs' & Hidx'). exists s'.
  split; [done|]. split; [done|]. by rewrite <- Hidx.
Qed.

Lemma index_estimate_exact_witness :
  exists s', index_run StreamState_default [65534; 1; 65535; 2] =
    ([(65534, 0); (65537, 1); (65535, 0); (65538, 1)], s').
Proof.
  destruct (index_estimate_exact StreamState_default [65534; 65537; 65535; 65538]) as (s' & H & _).
  - vm_compute. repeat split; congruence.
  - vm_compute. repeat split; congruence.
  - exists s'. exact H.
Defined.
