(* ===== verification/Srtp.v ===== *)
(** * SRTP contexts: crates/siphon-rtp-srtp/src/lib.rs, kdf.rs and the MKI of sdes.rs

    Key derivation, the AES-CM IV, protect and unprotect over per-SSRC rollover
    and replay state, and the checkpoint operations.  AES-128 counter mode and
    HMAC-SHA1 come from external crates: they are section variables, a keystream
    generator and a keyed digest, with the sizes their documentation gives as
    hypotheses.  Nothing is assumed about their cryptographic strength.

    A context operation returns its result, the context and the caller's output
    buffer, so that a theorem can say what an error leaves untouched. *)

From S2P Require Import Prelude Replay.
From stdpp Require Import base list numbers option gmap.
From Stdlib Require Import Lia ZArith.

Open Scope Z_scope.

Definition AUTH_TAG_LEN : Z := 10.
Definition MASTER_KEY_LEN : Z := 16.
Definition MASTER_SALT_LEN : Z := 14.

Definition RTP_ENCRYPTION : Z := 0x00.
Definition RTP_AUTHENTICATION : Z := 0x01.
Definition RTP_SALT : Z := 0x02.
Definition RTCP_ENCRYPTION : Z := 0x03.
Definition RTCP_AUTHENTICATION : Z := 0x04.
Definition RTCP_SALT : Z := 0x05.

(** ** The master key identifier *)

Inductive MkiError : Type := BadMki.

Record Mki : Type := mkMki { mki_value : Z; mki_length : Z }.

Definition MKI_MAX_LENGTH : Z := 128.

Definition Mki_new (value length : Z) : res MkiError Mki :=
  let length_fits := (1 <=? length) && (length <=? MKI_MAX_LENGTH) in
  let value_fits := (8 <=? length) || (Z.shiftr value (8 * length) =? 0) in
  if negb length_fits || negb value_fits then Err BadMki else
  if length <=? 255 then mret (mkMki value length) else Err BadMki.

Definition Mki_len (m : Mki) : Z := mki_length m.

Definition Mki_byte (m : Mki) (position : Z) : Z :=
  let from_right := Mki_len m - 1 - position in
  if from_right <? 8 then byte_of (be_enc 8 (mki_value m)) (7 - from_right) else 0.

Definition Mki_matches (m : Mki) (field : bytes) : bool :=
  (len field =? Mki_len m) &&
  forallb (fun p => p.2 =? Mki_byte m p.1) (zip (seqZ 0 (len field)) field).

Definition Mki_write_to (m : Mki) (out : bytes) : bytes :=
  out ++ (Mki_byte m <$> seqZ 0 (Mki_len m)).

Definition strip_mki (protected : bytes) (mki : option Mki) : res SrtpError bytes :=
  match mki with
  | None => mret protected
  | Some mki =>
      if len protected <? Mki_len mki then Err SrtpTooShort else
      let at_ := len protected - Mki_len mki in
      let authenticated := sub protected 0 at_ in
      let field := sub protected at_ (len protected) in
      if negb (Mki_matches mki field) then Err UnknownMki else
      mret authenticated
  end.

(** ** Headers and IVs *)

Definition parse_rtp_header (packet : bytes) : res SrtpError (Z * Z * Z) :=
  if len packet <? 12 then Err SrtpTooShort else
  b0 ← idx packet 0;
  if negb (Z.shiftr b0 6 =? 2) then Err SrtpBadVersion else
  let csrc_count := Z.land b0 0x0F in
  seq ← be16_at packet 2;
  ssrc ← be32_at packet 8;
  let header_len := 12 + 4 * csrc_count in
  header_len ←
    (if negb (Z.land b0 0x10 =? 0) then
       if len packet <? header_len + 4 then Err SrtpTooShort else
       words ← be16_at packet (header_len + 2);
       mret (header_len + (4 + words * 4))
     else mret header_len);
  if len packet <? header_len then Err SrtpTooShort else
  mret (header_len, ssrc, seq).

(** [iv[at + offset] ^= byte] for each byte of [bs]; the array has 16 elements. *)
Fixpoint xor_into (iv : bytes) (at_ : nat) (bs : bytes) : bytes :=
  match bs with
  | [] => iv
  | b :: bs => xor_into (alter (fun x => Z.lxor x b) at_ iv) (S at_) bs
  end.

Definition cipher_iv (salt : bytes) (ssrc index : Z) : bytes :=
  let iv := salt ++ [0; 0] in
  let iv := xor_into iv 4 (be_enc 4 ssrc) in
  let index_bytes := be_enc 8 (Z.land index 0xFFFFFFFFFFFF) in
  xor_into iv 8 (sub index_bytes 2 8).

(** ** Contexts *)

Record SrtpContext : Type := mkSrtpContext {
  sc_session_key : bytes;
  sc_session_salt : bytes;
  sc_session_auth : bytes;
  sc_streams : gmap Z StreamState;
  sc_mki : option Mki
}.

Definition with_streams (ctx : SrtpContext) (streams : gmap Z StreamState) : SrtpContext :=
  mkSrtpContext (sc_session_key ctx) (sc_session_salt ctx) (sc_session_auth ctx) streams (sc_mki ctx).

Record StreamRollover : Type := mkStreamRollover {
  sro_ssrc : Z;
  sro_roc : Z;
  sro_highest_seq : option Z
}.

Definition stream_of (ctx : SrtpContext) (ssrc : Z) : StreamState :=
  default StreamState_default (sc_streams ctx !! ssrc).

Definition rollover_state (ctx : SrtpContext) : list StreamRollover :=
  (fun p => mkStreamRollover p.1 (ss_roc p.2) (ss_highest_seq p.2)) <$> map_to_list (sc_streams ctx).

Definition seed_stream (ctx : SrtpContext) (rollover : StreamRollover) : SrtpContext :=
  let replay :=
    match sro_highest_seq rollover with
    | Some seq => ReplayWindow_anchor ReplayWindow_default (Z.lor (Z.shiftl (sro_roc rollover) 16) seq)
    | None => ReplayWindow_default
    end in
  with_streams ctx (<[sro_ssrc rollover :=
    mkStreamState (sro_roc rollover) (sro_highest_seq rollover) replay]> (sc_streams ctx)).

(** What the aes, ctr, hmac and sha1 crates provide: [ctr_keystream key iv n],
    the first [n] bytes of AES-128-CTR keystream, and [hmac_digest key data], the
    digest, [None] for a key length the crate refuses. *)
Class SrtpCrypto : Type := {
  ctr_keystream : bytes -> bytes -> nat -> bytes;
  hmac_digest : bytes -> bytes -> option bytes
}.

(** What they promise: a keystream of the length asked for, and a 20-byte digest
    for the 20-byte session authentication key. *)
Class SrtpCryptoLaws (C : SrtpCrypto) : Prop := {
  keystream_len : forall key iv n, length (ctr_keystream key iv n) = n;
  hmac_len : forall key data, len key = 20 -> exists digest, hmac_digest key data = Some digest /\ len digest = 20
}.

Section crypto.
Context `{C : SrtpCrypto}.

(** [apply_keystream]: XOR with the keystream, in place. *)
Definition apply_aes_cm (key iv buf : bytes) : bytes :=
  zip_with Z.lxor buf (ctr_keystream key iv (length buf)).

(** Key derivation (kdf.rs). *)
Definition keystream (key iv : bytes) (out_len : nat) : bytes :=
  apply_aes_cm key iv (replicate out_len 0).

Definition derive (key salt : bytes) (label_id : Z) (out_len : nat) : bytes :=
  let iv := salt ++ [0; 0] in
  let iv := alter (fun x => Z.lxor x label_id) 7%nat iv in
  keystream key iv out_len.

Definition SrtpContext_new (master_key master_salt : bytes) : SrtpContext :=
  mkSrtpContext (derive master_key master_salt RTP_ENCRYPTION 16)
    (derive master_key master_salt RTP_SALT 14)
    (derive master_key master_salt RTP_AUTHENTICATION 20) ∅ None.

Definition SrtpContext_from_key_material (master_key master_salt : bytes) (mki : option Mki)
  : SrtpContext :=
  let c := SrtpContext_new master_key master_salt in
  mkSrtpContext (sc_session_key c) (sc_session_salt c) (sc_session_auth c) (sc_streams c) mki.

Definition hmac_sha1_80 (key data : bytes) : res SrtpError bytes :=
  full ← ok_or (hmac_digest key data) AuthFailed;
  slice full 0 AUTH_TAG_LEN.

Definition auth_tag (key data : bytes) (roc : Z) : res SrtpError bytes :=
  full ← ok_or (hmac_digest key (data ++ be_enc 4 roc)) AuthFailed;
  slice full 0 AUTH_TAG_LEN.

(** [apply_keystream(&mut out[header_len..])] *)
Definition crypt_tail (key iv out : bytes) (header_len : Z) : res SrtpError bytes :=
  tail ← slice out header_len (len out);
  mret (sub out 0 header_len ++ apply_aes_cm key iv tail).

Definition mki_append (mki : option Mki) (out : bytes) : bytes :=
  match mki with Some mki => Mki_write_to mki out | None => out end.

Definition SrtpContext_protect (ctx : SrtpContext) (rtp out : bytes)
  : res SrtpError unit * SrtpContext * bytes :=
  match parse_rtp_header rtp with
  | Err e => (Err e, ctx, out)
  | Panic => (Panic, ctx, out)
  | Ok (header_len, ssrc, seq) =>
      let '((index, roc), state) := index_for (stream_of ctx ssrc) seq in
      let ctx := with_streams ctx (<[ssrc := state]> (sc_streams ctx)) in
      let iv := cipher_iv (sc_session_salt ctx) ssrc index in
      match crypt_tail (sc_session_key ctx) iv rtp header_len with
      | Err e => (Err e, ctx, rtp)
      | Panic => (Panic, ctx, rtp)
      | Ok out =>
          match auth_tag (sc_session_auth ctx) out roc with
          | Err e => (Err e, ctx, out)
          | Panic => (Panic, ctx, out)
          | Ok tag => (Ok tt, ctx, mki_append (sc_mki ctx) out ++ tag)
          end
      end
  end.

(** Everything [unprotect] does before it commits: the authenticated bytes, the
    header length, the SSRC, the index and the stream state to store. *)
Definition unprotect_check (ctx : SrtpContext) (srtp : bytes)
  : res SrtpError (bytes * Z * Z * Z * StreamState) :=
  let mki_len := match sc_mki ctx with Some m => Mki_len m | None => 0 end in
  if len srtp <? 12 + mki_len + AUTH_TAG_LEN then Err SrtpTooShort else
  at_ ← usub (len srtp) AUTH_TAG_LEN;
  protected ← slice srtp 0 at_;
  tag ← slice srtp at_ (len srtp);
  authenticated ← strip_mki protected (sc_mki ctx);
  header ← parse_rtp_header authenticated;
  let '(header_len, ssrc, seq) := header in
  let '((index, roc), state) := index_for (stream_of ctx ssrc) seq in
  replay ← ReplayWindow_is_replay (ss_replay state) index;
  if (replay : bool) then Err Replayed else
  expected ← auth_tag (sc_session_auth ctx) authenticated roc;
  if negb (bool_decide (expected = tag)) then Err AuthFailed else
  window ← ReplayWindow_record (ss_replay state) index;
  mret (authenticated, header_len, ssrc, index,
        mkStreamState (ss_roc state) (ss_highest_seq state) window).

Definition SrtpContext_unprotect (ctx : SrtpContext) (srtp out : bytes)
  : res SrtpError unit * SrtpContext * bytes :=
  match unprotect_check ctx srtp with
  | Err e => (Err e, ctx, out)
  | Panic => (Panic, ctx, out)
  | Ok (authenticated, header_len, ssrc, index, state) =>
      let ctx := with_streams ctx (<[ssrc := state]> (sc_streams ctx)) in
      let iv := cipher_iv (sc_session_salt ctx) ssrc index in
      match crypt_tail (sc_session_key ctx) iv authenticated header_len with
      | Ok out => (Ok tt, ctx, out)
      | Err e => (Err e, ctx, authenticated)
      | Panic => (Panic, ctx, authenticated)
      end
  end.
End crypto.

(** ** Lemmas on headers, MKIs and the cipher *)

Lemma bind_assoc_if {E A B} (c : bool) (m1 m2 : res E A) (f : A -> res E B) :
  (x ← (if c then m1 else m2); f x) = if c then x ← m1; f x else x ← m2; f x.
Proof. by destruct c. Qed.

Lemma land_0f b : 0 <= Z.land b 0x0F < 16.
Proof. change 0x0F with (Z.ones 4). rewrite Z.land_ones by lia. apply Z.mod_pos_bound. lia. Qed.

Lemma parse_rtp_header_spec p hl ssrc seq :
  bytes_ok p -> parse_rtp_header p = Ok (hl, ssrc, seq) ->
  12 <= hl <= len p /\ fits 32 ssrc /\ fits 16 seq.
Proof.
  intros Hp H. unfold parse_rtp_header in H. destruct (Z.ltb_spec (len p) 12); [done|].
  bind_inv H b0 Hb0. destruct (negb _); [done|]. bind_inv H s Hs. bind_inv H ss Hss.
  apply be16_at_inv in Hs as (_ & _ & _ & Hs); [|done]. apply be32_at_inv in Hss as (_ & _ & _ & Hss); [|done].
  pose proof (land_0f b0). cbv zeta in H. bind_inv H l Hl.
  destruct (Z.ltb_spec (len p) l); [done|]. injection H as <- <- <-. split; [|done]. split; [|lia].
  destruct (negb _); [|injection Hl as <-; lia]. destruct (len p <? _); [done|].
  bind_inv Hl w Hw. apply be16_at_inv in Hw as (_ & _ & _ & Hw); [|done]. injection Hl as <-.
  unfold fits in Hw. lia.
Qed.

Lemma parse_rtp_header_no_panic p : no_panic (parse_rtp_header p).
Proof.
  unfold parse_rtp_header. destruct (Z.ltb_spec (len p) 12); [done|].
  apply no_panic_bind; [apply idx_no_panic; lia|]. intros b0 _. destruct (negb _); [done|].
  apply no_panic_bind; [apply be16_at_no_panic; lia|]. intros s _.
  apply no_panic_bind; [apply be32_at_no_panic; lia|]. intros ss _. cbv zeta. pose proof (land_0f b0).
  apply no_panic_bind.
  - destruct (negb _); [|done]. destruct (Z.ltb_spec (len p) (12 + 4 * Z.land b0 0x0F + 4)); [done|].
    apply no_panic_bind; [apply be16_at_no_panic; lia|done].
  - intros l _. by destruct (len p <? l).
Qed.

(** The header is all that [parse_rtp_header] reads. *)
Lemma parse_rtp_header_prefix h t t' hl ssrc seq :
  bytes_ok (h ++ t) -> parse_rtp_header (h ++ t) = Ok (hl, ssrc, seq) -> hl = len h ->
  parse_rtp_header (h ++ t') = Ok (hl, ssrc, seq).
Proof.
  intros Hb H ->. pose proof (parse_rtp_header_spec _ _ _ _ Hb H) as (Hl & _).
  pose proof (len_nonneg t). pose proof (len_nonneg t').
  unfold parse_rtp_header in *. rewrite !len_app in *.
  rewrite (proj2 (Z.ltb_ge (len h + len t) 12)) in H by lia.
  rewrite (proj2 (Z.ltb_ge (len h + len t') 12)) by lia.
  unfold be16_at, be32_at in *.
  rewrite !(idx_app_l h t _) in H by lia. rewrite !(idx_app_l h t' _) by lia.
  bind_inv H b0 Hb0. rewrite Hb0, bind_Ok. destruct (negb _); [done|].
  bind_inv H s Hs. rewrite Hs, bind_Ok. bind_inv H ss Hss. rewrite Hss, bind_Ok. cbv zeta in *.
  pose proof (land_0f b0) as Hcc. rewrite bind_assoc_if in *. destruct (negb _).
  - destruct (Z.ltb_spec (len h + len t) (12 + 4 * Z.land b0 0x0F + 4)); [done|].
    bind_inv H l Hl'. bind_inv Hl' w Hw.
    destruct (Z.ltb_spec (len h + len t) l); [done|]. injection H as -> -> ->. injection Hl' as Hl'.
    assert (fits 16 w) as Hwf by (by eapply (be16_at_inv (h ++ t))).
    unfold fits in Hwf. rewrite !idx_app_l in Hw by lia.
    rewrite (proj2 (Z.ltb_ge (len h + len t') _)) by lia. rewrite !(idx_app_l h t') by lia.
    rewrite Hw, !bind_Ok. unfold mret, res_ret. rewrite bind_Ok, Hl'.
    by rewrite (proj2 (Z.ltb_ge (len h + len t') (len h))) by lia.
  - unfold mret, res_ret in *. rewrite bind_Ok in *.
    destruct (Z.ltb_spec (len h + len t) (12 + 4 * Z.land b0 0x0F)); [done|].
    injection H as -> -> ->.
    by rewrite (proj2 (Z.ltb_ge (len h + len t') (len h))) by lia.
Qed.

Definition mki_wire (mki : option Mki) : bytes :=
  match mki with Some m => Mki_byte m <$> seqZ 0 (Mki_len m) | None => [] end.

Definition mki_ok (mki : option Mki) : Prop :=
  match mki with Some m => 1 <= mki_length m <= MKI_MAX_LENGTH | None => True end.

Definition mki_len_of (mki : option Mki) : Z := match mki with Some m => Mki_len m | None => 0 end.

Lemma mki_append_wire mki out : mki_append mki out = out ++ mki_wire mki.
Proof. destruct mki; [done|]. cbn. by rewrite app_nil_r. Qed.

Lemma len_mki_wire mki : mki_ok mki -> len (mki_wire mki) = mki_len_of mki.
Proof.
  destruct mki as [m|]; [|done]. cbn [mki_ok mki_wire mki_len_of]. unfold Mki_len, len. intros Hm.
  rewrite length_fmap, length_seqZ. lia.
Qed.

Lemma Mki_matches_wire m : 1 <= mki_length m <= MKI_MAX_LENGTH ->
  Mki_matches m (mki_wire (Some m)) = true.
Proof.
  intros Hm. pose proof (len_mki_wire (Some m) Hm) as Hl. unfold Mki_matches. rewrite Hl.
  cbn [mki_len_of mki_wire]. rewrite Z.eqb_refl. cbn [andb]. generalize (seqZ 0 (Mki_len m)) as l.
  induction l as [|x l IH]; [done|]. cbn [fmap list_fmap zip zip_with forallb fst snd].
  by rewrite Z.eqb_refl, IH.
Qed.

Lemma strip_mki_wire mki body :
  mki_ok mki -> strip_mki (body ++ mki_wire mki) mki = Ok body.
Proof.
  intros Hm. pose proof (len_mki_wire mki Hm) as Hl. pose proof (len_nonneg body).
  unfold strip_mki. destruct mki as [m|]; [|cbn; by rewrite app_nil_r].
  cbn [mki_len_of] in Hl. rewrite len_app, Hl. rewrite (proj2 (Z.ltb_ge _ _)) by lia.
  rewrite sub_app_end by lia. rewrite Mki_matches_wire by done. cbn [negb].
  by rewrite sub_app_begin by lia.
Qed.

Lemma strip_mki_no_panic p mki : no_panic (strip_mki p mki).
Proof. unfold strip_mki. by repeat case_match. Qed.

Lemma strip_mki_bytes p mki a : bytes_ok p -> strip_mki p mki = Ok a -> bytes_ok a.
Proof.
  intros Hp. unfold strip_mki. repeat case_match; try done; intros [= <-]; [by apply bytes_ok_sub|done].
Qed.

Section crypto_lemmas.
Context `{L : SrtpCryptoLaws}.

Notation apply := apply_aes_cm.
Notation tag_of := auth_tag.
Notation protect := SrtpContext_protect.
Notation unprotect := SrtpContext_unprotect.

Lemma apply_length key iv buf : length (apply key iv buf) = length buf.
Proof. unfold apply_aes_cm. rewrite length_zip_with, keystream_len. lia. Qed.

(** Counter mode is its own inverse. *)
Lemma apply_involutive key iv buf : apply key iv (apply key iv buf) = buf.
Proof.
  unfold apply_aes_cm at 1. rewrite apply_length. unfold apply_aes_cm.
  pose proof (keystream_len key iv (length buf)) as Hl. revert Hl.
  generalize (ctr_keystream key iv (length buf)) as ks.
  induction buf as [|b buf IH]; intros [|k ks] Hl; try done.
  cbn [zip_with]. rewrite IH by (simpl in Hl; lia). f_equal.
  by rewrite Z.lxor_assoc, Z.lxor_nilpotent, Z.lxor_0_r.
Qed.

Lemma auth_tag_Ok key data roc : len key = 20 ->
  exists tag, tag_of key data roc = Ok tag /\ len tag = AUTH_TAG_LEN.
Proof.
  intros Hk. unfold auth_tag, AUTH_TAG_LEN. destruct (hmac_len key (data ++ be_enc 4 roc) Hk) as (d & -> & Hd).
  cbn [ok_or]. rewrite bind_Ok, slice_Ok by lia. eexists. split; [done|]. rewrite len_sub; lia.
Qed.

Lemma crypt_tail_Ok key iv out hl : 0 <= hl <= len out ->
  crypt_tail key iv out hl = Ok (sub out 0 hl ++ apply key iv (sub out hl (len out))).
Proof. intros. unfold crypt_tail. by rewrite slice_Ok by lia. Qed.

(** Encrypting and decrypting the tail under the same key and IV. *)
Lemma crypt_tail_twice key iv out hl : 0 <= hl <= len out ->
  let enc := sub out 0 hl ++ apply key iv (sub out hl (len out)) in
  crypt_tail key iv enc hl = Ok out.
Proof.
  intros Hh enc. assert (len (apply key iv (sub out hl (len out))) = len out - hl) as Hl.
  { unfold len at 1. rewrite apply_length. fold (len (sub out hl (len out))). rewrite len_sub; lia. }
  assert (len (sub out 0 hl) = hl) as Hl0 by (rewrite len_sub; lia).
  assert (len enc = len out) as Hle by (unfold enc; rewrite len_app; lia).
  rewrite crypt_tail_Ok by lia. rewrite Hle. unfold enc. rewrite sub_app_begin by lia.
  rewrite sub_app_end by lia. rewrite apply_involutive, <- sub_split by lia. by rewrite sub_full.
Qed.

(** ** What a protected packet looks like, as a function of its true index *)

Definition ctx_ok (ctx : SrtpContext) : Prop := len (sc_session_auth ctx) = 20 /\ mki_ok (sc_mki ctx).

Definition same_keys (a b : SrtpContext) : Prop :=
  sc_session_key a = sc_session_key b /\ sc_session_salt a = sc_session_salt b /\
  sc_session_auth a = sc_session_auth b /\ sc_mki a = sc_mki b.

Definition srtp_body (ctx : SrtpContext) (ssrc i hl : Z) (rtp : bytes) : bytes :=
  sub rtp 0 hl ++ apply (sc_session_key ctx) (cipher_iv (sc_session_salt ctx) ssrc i) (sub rtp hl (len rtp)).

(** [rtp] is a packet of [ssrc] whose sender numbers it [i]. *)
Definition packet_for (ssrc : Z) (p : Z * bytes) : Prop :=
  bytes_ok p.2 /\ exists hl, parse_rtp_header p.2 = Ok (hl, ssrc, p.1 mod 2 ^ 16).

(** [wire] is the packet as any context with these keys puts it on the wire. *)
Definition srtp_wire (ctx : SrtpContext) (ssrc : Z) (p : Z * bytes) (wire : bytes) : Prop :=
  exists hl tag, parse_rtp_header p.2 = Ok (hl, ssrc, p.1 mod 2 ^ 16) /\
    tag_of (sc_session_auth ctx) (srtp_body ctx ssrc p.1 hl p.2) (p.1 / 2 ^ 16) = Ok tag /\
    wire = srtp_body ctx ssrc p.1 hl p.2 ++ mki_wire (sc_mki ctx) ++ tag.

Lemma len_srtp_body ctx ssrc i hl rtp :
  0 <= hl <= len rtp -> len (srtp_body ctx ssrc i hl rtp) = len rtp.
Proof.
  intros. unfold srtp_body. rewrite len_app. unfold len at 2. rewrite apply_length.
  fold (len (sub rtp hl (len rtp))). rewrite !len_sub by lia. lia.
Qed.

Lemma srtp_wire_same_keys a b ssrc p w : same_keys a b -> srtp_wire a ssrc p w -> srtp_wire b ssrc p w.
Proof.
  intros (Hk & Hs & Ha & Hm) (hl & tag & Hp & Ht & Hw). exists hl, tag. unfold srtp_body in *.
  by rewrite <- Hk, <- Hs, <- Ha, <- Hm.
Qed.

Lemma protect_wire ctx ssrc p out :
  ctx_ok ctx -> packet_for ssrc p -> stream_ok (stream_of ctx ssrc) ->
  near (state_index (stream_of ctx ssrc)) p.1 ->
  exists state wire,
    protect ctx p.2 out = (Ok tt, with_streams ctx (<[ssrc := state]> (sc_streams ctx)), wire) /\
    srtp_wire ctx ssrc p wire /\ stream_ok state /\
    state_index state = highest_of (state_index (stream_of ctx ssrc)) p.1.
Proof.
  intros [Ha Hm] [Hb (hl & Hp)] Hs Hn. pose proof (parse_rtp_header_spec _ _ _ _ Hb Hp) as (Hhl & _).
  destruct (index_for_near _ _ Hs Hn) as (s' & Hi & Hs' & _ & Hidx).
  destruct (auth_tag_Ok (sc_session_auth ctx) (srtp_body ctx ssrc p.1 hl p.2) (p.1 / 2 ^ 16) Ha) as (tag & Ht & _).
  exists s', (srtp_body ctx ssrc p.1 hl p.2 ++ mki_wire (sc_mki ctx) ++ tag).
  unfold SrtpContext_protect. rewrite Hp, Hi. cbn [with_streams sc_session_key sc_session_salt sc_session_auth sc_mki].
  rewrite crypt_tail_Ok by lia. fold (srtp_body ctx ssrc p.1 hl p.2). rewrite Ht.
  rewrite mki_append_wire, <- app_assoc. split; [done|]. split; [by exists hl, tag|]. done.
Qed.

Lemma unprotect_wire ctx ssrc p wire R out :
  ctx_ok ctx -> packet_for ssrc p -> srtp_wire ctx ssrc p wire -> stream_ok (stream_of ctx ssrc) ->
  near (state_index (stream_of ctx ssrc)) p.1 ->
  window_ok (ss_replay (stream_of ctx ssrc)) R -> fresh_index R p.1 ->
  exists state,
    unprotect ctx wire out = (Ok tt, with_streams ctx (<[ssrc := state]> (sc_streams ctx)), p.2) /\
    stream_ok state /\ state_index state = highest_of (state_index (stream_of ctx ssrc)) p.1 /\
    window_ok (ss_replay state) ({[ p.1 ]} ∪ R).
Proof.
  intros [Ha Hm] [Hb _] (hl & tag & Hp & Ht & ->) Hs Hn HR Hf.
  pose proof (parse_rtp_header_spec _ _ _ _ Hb Hp) as (Hhl & _).
  pose proof (len_srtp_body ctx ssrc p.1 hl p.2 ltac:(lia)) as Hlb.
  pose proof (len_mki_wire _ Hm) as Hlm. pose proof (len_nonneg (mki_wire (sc_mki ctx))).
  assert (len tag = 10) as Hlt.
  { destruct (auth_tag_Ok (sc_session_auth ctx) (srtp_body ctx ssrc p.1 hl p.2) (p.1 / 2 ^ 16) Ha)
      as (t & Ht' & Hlt). rewrite Ht in Ht'. injection Ht' as ->. exact Hlt. }
  destruct (index_for_near _ _ Hs Hn) as (s' & Hi & Hs' & Hrp & Hidx).
  destruct (is_replay_correct _ _ p.1 HR) as (b & Hrep & Hbf). rewrite (proj2 Hbf Hf) in Hrep.
  destruct (record_correct _ _ _ HR Hf) as (w' & Hrec & Hw' & _).
  exists (mkStreamState (ss_roc s') (ss_highest_seq s') w').
  assert (parse_rtp_header (srtp_body ctx ssrc p.1 hl p.2) = Ok (hl, ssrc, p.1 mod 2 ^ 16)) as Hp'.
  { eapply (parse_rtp_header_prefix (sub p.2 0 hl) (sub p.2 hl (len p.2))).
    - rewrite <- sub_split, sub_full by lia. done.
    - rewrite <- sub_split, sub_full by lia. done.
    - rewrite len_sub; lia. }
  unfold SrtpContext_unprotect, unprotect_check, AUTH_TAG_LEN. fold (mki_len_of (sc_mki ctx)).
  rewrite !len_app, Hlb, Hlm, Hlt, (proj2 (Z.ltb_ge _ _)) by lia.
  rewrite usub_Ok, bind_Ok, !slice_Ok, !bind_Ok by (rewrite ?len_app; lia).
  rewrite (app_assoc (srtp_body _ _ _ _ _)), sub_app_begin by (rewrite len_app; lia).
  rewrite sub_app_end by (rewrite len_app; lia). rewrite strip_mki_wire, bind_Ok, Hp', bind_Ok, Hi by done.
  rewrite Hrp, Hrep, bind_Ok, Ht, bind_Ok, bool_decide_eq_true_2 by done. cbn [negb].
  rewrite Hrec, bind_Ok. unfold mret, res_ret. cbn [with_streams sc_session_salt sc_session_key].
  unfold srtp_body. rewrite crypt_tail_twice by lia. done.
Qed.

(** ** Theorems *)

(** A run of one operation over a list of packets, reusing the output buffer. *)
Fixpoint ctx_run {C} (op : C -> bytes -> bytes -> res SrtpError unit * C * bytes)
  (ctx : C) (out : bytes) (packets : list bytes) : list (res SrtpError unit * bytes) :=
  match packets with
  | [] => []
  | p :: packets =>
      let '(r, ctx, out) := op ctx p out in (r, out) :: ctx_run op ctx out packets
  end.

Lemma stream_of_insert ctx ssrc s :
  stream_of (with_streams ctx (<[ssrc := s]> (sc_streams ctx))) ssrc = s.
Proof. unfold stream_of. cbn [with_streams sc_streams]. by rewrite lookup_insert_eq. Qed.

Lemma protect_run_wires ssrc packets : forall ctx out,
  ctx_ok ctx -> stream_ok (stream_of ctx ssrc) -> Forall (packet_for ssrc) packets ->
  near_run (state_index (stream_of ctx ssrc)) (packets.*1) ->
  exists wires, ctx_run protect ctx out (packets.*2) = (pair (Ok tt)) <$> wires /\
    Forall2 (srtp_wire ctx ssrc) packets wires.
Proof.
  induction packets as [|p packets IH]; intros ctx out Hc Hs Hp Hn; [by exists []|].
  apply Forall_cons_1 in Hp as [Hp Hps]. destruct Hn as [Hn Hns]. rewrite !fmap_cons. cbn [ctx_run].
  destruct (protect_wire ctx ssrc p out Hc Hp Hs Hn) as (s' & w & -> & Hw & Hs' & Hidx).
  destruct (IH (with_streams ctx (<[ssrc := s']> (sc_streams ctx))) w) as (ws & -> & Hws);
    [done|by rewrite stream_of_insert|done|by rewrite stream_of_insert, Hidx|].
  exists (w :: ws). split; [done|]. by constructor.
Qed.

Lemma unprotect_run_packets ssrc delivered : forall ctx R out,
  ctx_ok ctx -> stream_ok (stream_of ctx ssrc) -> window_ok (ss_replay (stream_of ctx ssrc)) R ->
  Forall (fun d => packet_for ssrc d.1 /\ srtp_wire ctx ssrc d.1 d.2) delivered ->
  near_run (state_index (stream_of ctx ssrc)) ((fun d => d.1.1) <$> delivered) ->
  Forall (fun b => b = true) (reference_run R ((fun d => d.1.1) <$> delivered)).1 ->
  ctx_run unprotect ctx out (delivered.*2) = (fun d => (Ok tt, d.1.2)) <$> delivered.
Proof.
  induction delivered as [|d ds IH]; intros ctx R out Hc Hs HR Hd Hn Hf; [done|].
  apply Forall_cons_1 in Hd as [[Hp Hw] Hds]. destruct Hn as [Hn Hns].
  cbn [fmap list_fmap reference_run fst] in Hf. apply Forall_cons_1 in Hf as [Hfr Hfs].
  cbn [fmap list_fmap ctx_run].
  destruct (unprotect_wire ctx ssrc d.1 d.2 R out Hc Hp Hw Hs Hn HR) as (s' & -> & Hs' & Hidx & HR').
  { by apply freshb_spec. }
  f_equal. rewrite Hfr in Hfs.
  apply (IH (with_streams ctx (<[ssrc := s']> (sc_streams ctx))) ({[ d.1.1 ]} ∪ R));
    rewrite ?stream_of_insert, ?Hidx; try done.
Qed.

(** C2. Every packet of a stream an SRTP context protects (any number of
    sequence wraps) is recovered byte for byte by a context with the same keys
    from any delivery order, with any losses, as long as each delivered packet
    is within 2^15 of the highest delivered and is fresh for the replay filter. *)
Theorem srtp_stream_roundtrip sender receiver ssrc packets R out out' :
  ctx_ok sender -> same_keys sender receiver ->
  stream_ok (stream_of sender ssrc) -> stream_ok (stream_of receiver ssrc) ->
  window_ok (ss_replay (stream_of receiver ssrc)) R ->
  Forall (packet_for ssrc) packets -> near_run (state_index (stream_of sender ssrc)) (packets.*1) ->
  exists wires,
    ctx_run protect sender out (packets.*2) = (pair (Ok tt)) <$> wires /\
    forall delivered, (forall d, d ∈ delivered -> d ∈ zip packets wires) ->
      near_run (state_index (stream_of receiver ssrc)) ((fun d => d.1.1) <$> delivered) ->
      Forall (fun b => b = true) (reference_run R ((fun d => d.1.1) <$> delivered)).1 ->
      ctx_run unprotect receiver out' (delivered.*2) = (fun d => (Ok tt, d.1.2)) <$> delivered.
Proof.
  intros Hc Hk Hss Hsr HR Hp Hn.
  destruct (protect_run_wires ssrc packets sender out Hc Hss Hp Hn) as (wires & Hrun & Hw).
  exists wires. split; [done|]. intros delivered Hin Hnd Hf.
  assert (ctx_ok receiver) as Hcr.
  { destruct Hc as [Ha Hm], Hk as (_ & _ & Hka & Hkm). split; congruence. }
  eapply unprotect_run_packets; [done|done|exact HR| |done|done].
  apply Forall_forall. intros d Hd%Hin. apply elem_of_lookup_zip_with in Hd as (i & p & w & -> & Hpi & Hwi).
  cbn [fst snd]. split; [by eapply Forall_lookup_1|].
  eapply srtp_wire_same_keys; [done|]. by eapply Forall2_lookup_lr.
Qed.

(** Every stream's counters have their width and its window represents a set. *)
Definition ctx_inv (ctx : SrtpContext) : Prop :=
  forall ssrc, stream_ok (stream_of ctx ssrc) /\ exists R, window_ok (ss_replay (stream_of ctx ssrc)) R.

Lemma ctx_inv_insert ctx ssrc s :
  ctx_inv ctx -> stream_ok s -> (exists R, window_ok (ss_replay s) R) ->
  ctx_inv (with_streams ctx (<[ssrc := s]> (sc_streams ctx))).
Proof.
  intros Hi Hs HR ssrc'. unfold stream_of. cbn [with_streams sc_streams].
  destruct (decide (ssrc = ssrc')) as [<-|]; [by rewrite lookup_insert_eq|].
  rewrite lookup_insert_ne by done. apply Hi.
Qed.

(** The outcome of the checks: an error, or an index the window records. *)
Lemma unprotect_check_cases ctx srtp :
  ctx_ok ctx -> ctx_inv ctx -> bytes_ok srtp ->
  match unprotect_check ctx srtp with
  | Err _ => True
  | Panic => False
  | Ok (authenticated, header_len, ssrc, index, state) =>
      0 <= header_len <= len authenticated /\ stream_ok state /\
      (exists R, window_ok (ss_replay state) R) /\
      unprotect_check (with_streams ctx (<[ssrc := state]> (sc_streams ctx))) srtp = Err Replayed
  end.
Proof.
  intros [Ha Hm] Hinv Hb. unfold unprotect_check, AUTH_TAG_LEN. cbn [with_streams sc_mki sc_session_auth].
  fold (mki_len_of (sc_mki ctx)).
  assert (0 <= mki_len_of (sc_mki ctx)).
  { destruct (sc_mki ctx) as [m|]; [|done]. cbn in *. unfold Mki_len. lia. }
  destruct (Z.ltb_spec (len srtp) (12 + mki_len_of (sc_mki ctx) + 10)); [done|].
  rewrite usub_Ok, bind_Ok, !slice_Ok, !bind_Ok by lia.
  pose proof (strip_mki_no_panic (sub srtp 0 (len srtp - 10)) (sc_mki ctx)).
  destruct (strip_mki (sub srtp 0 (len srtp - 10)) (sc_mki ctx)) as [a|e|] eqn:Hstrip; [|done|done].
  apply strip_mki_bytes in Hstrip as Hab; [|by apply bytes_ok_sub]. rewrite !bind_Ok.
  pose proof (parse_rtp_header_no_panic a).
  destruct (parse_rtp_header a) as [[[hl ssrc] seq]|e|] eqn:Hp; [|done|done]. rewrite !bind_Ok.
  pose proof (parse_rtp_header_spec _ _ _ _ Hab Hp) as (Hhl & _ & Hseq).
  destruct (Hinv ssrc) as [Hs [R HR]].
  destruct (index_for (stream_of ctx ssrc) seq) as [[i roc] s'] eqn:Hi.
  destruct (index_for_stable _ _ _ _ _ Hs Hseq Hi) as (Hs' & Hrp & Hagain). rewrite Hrp.
  destruct (is_replay_correct _ _ i HR) as (b & -> & Hbf). rewrite bind_Ok. destruct b; [done|].
  destruct (auth_tag_Ok (sc_session_auth ctx) a roc Ha) as (t & Ht & _). rewrite Ht, bind_Ok.
  case_bool_decide as Htag; cbn [negb]; [|done].
  destruct (record_correct _ _ i HR ltac:(tauto)) as (w' & -> & Hw' & _). rewrite bind_Ok. unfold mret, res_ret.
  split; [lia|]. split; [done|]. split; [by exists ({[ i ]} ∪ R)|].
  rewrite ?usub_Ok, ?bind_Ok, ?slice_Ok, ?bind_Ok by lia. rewrite Hstrip, bind_Ok, Hp, bind_Ok, stream_of_insert.
  assert (index_for (mkStreamState (ss_roc s') (ss_highest_seq s') w') seq =
    ((i, roc), mkStreamState (ss_roc s') (ss_highest_seq s') w')) as ->.
  { by rewrite index_for_replay, Hagain. }
  cbn [ss_replay]. destruct (is_replay_correct _ _ i Hw') as (b & -> & Hbf').
  destruct b; [done|]. destruct (proj1 Hbf' eq_refl) as [[] _]. set_solver.
Qed.

(** C7. [unprotect] never panics on hostile bytes; an error (short packet,
    wrong MKI, replay, forged tag) leaves the context and the output buffer
    untouched; a success keeps the context's invariant, and the same packet
    presented again is rejected as a replay, without any change. *)
Theorem srtp_unprotect_safe ctx srtp out :
  ctx_ok ctx -> ctx_inv ctx -> bytes_ok srtp ->
  match unprotect ctx srtp out with
  | (Ok _, ctx', _) => ctx_inv ctx' /\ forall out2, unprotect ctx' srtp out2 = (Err Replayed, ctx', out2)
  | (Err _, ctx', out') => ctx' = ctx /\ out' = out
  | (Panic, _, _) => False
  end.
Proof.
  intros Hc Hinv Hb. pose proof (unprotect_check_cases ctx srtp Hc Hinv Hb) as H.
  unfold SrtpContext_unprotect. destruct (unprotect_check ctx srtp) as [[[[[a hl] ssrc] i] s]|e|];
    [|done|done].
  destruct H as (Hhl & Hs & HR & Hagain). rewrite crypt_tail_Ok by lia.
  split; [by apply ctx_inv_insert|]. intros out2. by rewrite Hagain.
Qed.
End crypto_lemmas.

(** A toy cipher and digest of the right sizes, to run the model. *)
Definition toy_keystream (key iv : bytes) (n : nat) : bytes :=
  replicate n (foldr Z.lxor 0x5A (key ++ iv)).
Definition toy_hmac (key data : bytes) : option bytes :=
  Some (replicate 20 (foldr (fun a b => (a + 3 * b) mod 256) 7 (key ++ data))).

#[export] Instance toy_crypto : SrtpCrypto := {| ctr_keystream := toy_keystream; hmac_digest := toy_hmac |}.

#[export] Instance toy_crypto_laws : SrtpCryptoLaws toy_crypto.
Proof.
  split; intros.
  - apply length_replicate.
  - eexists. split; [reflexivity|]. by rewrite len_replicate.
Qed.

Definition example_ctx : SrtpContext :=
  SrtpContext_from_key_material (replicate 16 0x11) (replicate 14 0x22) (Some (mkMki 5 2)).
Definition example_packet (seq : Z) : bytes :=
  [0x80; 0] ++ be_enc 2 seq ++ [0; 0; 0; 160; 0; 0; 0; 7; 0xAA; 0xBB].

Lemma example_ctx_ok : ctx_ok example_ctx.
Proof. split; [reflexivity|vm_compute; split; congruence]. Qed.

Lemma srtp_stream_roundtrip_witness :
  exists wires,
    ctx_run (SrtpContext_protect) example_ctx [] (example_packet <$> [65535; 0]) =
      pair (Ok tt) <$> wires /\
    ctx_run (SrtpContext_unprotect) example_ctx [] wires =
      [(Ok tt, example_packet 65535); (Ok tt, example_packet 0)].
Proof.
  destruct (srtp_stream_roundtrip
    example_ctx example_ctx 7 [(65535, example_packet 65535); (65536, example_packet 0)]
    ∅ [] []) as (wires & Hp & Hu).
  - apply example_ctx_ok.
  - repeat split.
  - vm_compute. repeat split; congruence.
  - vm_compute. repeat split; congruence.
  - reflexivity.
  - forall_list; (split; [vm_compute; forall_list; vm_compute; split; congruence|exists 12; reflexivity]).
  - vm_compute. repeat split; congruence.
  - exists wires. split; [exact Hp|].
    assert (length wires = 2%nat) as Hl.
    { apply (f_equal length) in Hp. rewrite length_fmap in Hp. rewrite <- Hp. reflexivity. }
    destruct wires as [|w1 [|w2 [|]]]; try discriminate Hl.
    apply (Hu [(65535, example_packet 65535, w1); (65536, example_packet 0, w2)]).
    + intros d Hd. exact Hd.
    + vm_compute. repeat split; congruence.
    + vm_compute. repeat constructor.
Defined.

Lemma srtp_unprotect_safe_witness :
  let srtp := (SrtpContext_protect example_ctx (example_packet 3) []).2 in
  exists ctx', SrtpContext_unprotect example_ctx srtp [] = (Ok tt, ctx', example_packet 3) /\
    SrtpContext_unprotect ctx' srtp [] = (Err Replayed, ctx', []).
Proof.
  pose proof (srtp_unprotect_safe example_ctx
    (SrtpContext_protect example_ctx (example_packet 3) []).2 [] example_ctx_ok) as H.
  destruct (SrtpContext_unprotect example_ctx
    (SrtpContext_protect example_ctx (example_packet 3) []).2 []) as [[r ctx'] out'] eqn:Hu.
  assert (r = Ok tt /\ out' = example_packet 3) as [-> ->].
  { vm_compute in Hu. injection Hu as <- _ <-. split; reflexivity. }
  exists ctx'. split; [exact Hu|]. apply H.
  - intros ssrc.
    assert (stream_of example_ctx ssrc = StreamState_default) as ->
      by (unfold stream_of; change (sc_streams example_ctx) with (∅ : gmap Z StreamState); by rewrite lookup_empty).
    split; [vm_compute; repeat split; congruence|]. exists ∅. reflexivity.
  - vm_compute. forall_list; vm_compute; split; congruence.
Defined.
