(* ===== verification/Srtcp.v ===== *)
(** * SRTCP contexts: crates/siphon-rtp-srtp/src/srtcp.rs

    Protect and unprotect of compound RTCP with the explicit 31-bit index
    trailer.  The index is in the packet, so unlike SRTP there is nothing to
    estimate: the theorems show that the trailer, the MKI and the tag are placed
    and removed consistently and that the replay window guards the index. *)

From S2P Require Import Prelude Replay Srtp.
From stdpp Require Import base list numbers option gmap.
From Stdlib Require Import Lia ZArith.

Open Scope Z_scope.

Definition INDEX_TRAILER_LEN : Z := 4.
Definition CLEAR_HEADER_LEN : Z := 8.
Definition ENCRYPT_FLAG : Z := 0x80000000.
Definition INDEX_MASK : Z := 0x7FFFFFFF.

Record SrtcpContext : Type := mkSrtcpContext {
  cc_session_key : bytes;
  cc_session_salt : bytes;
  cc_session_auth : bytes;
  cc_send_index : Z;
  cc_recv_replay : ReplayWindow;
  cc_mki : option Mki
}.

Definition send_index (ctx : SrtcpContext) : Z := cc_send_index ctx.

Definition set_send_index (ctx : SrtcpContext) (index : Z) : SrtcpContext :=
  mkSrtcpContext (cc_session_key ctx) (cc_session_salt ctx) (cc_session_auth ctx) index
    (cc_recv_replay ctx) (cc_mki ctx).

Definition set_recv_replay (ctx : SrtcpContext) (w : ReplayWindow) : SrtcpContext :=
  mkSrtcpContext (cc_session_key ctx) (cc_session_salt ctx) (cc_session_auth ctx) (cc_send_index ctx)
    w (cc_mki ctx).

Section srtcp.
Context `{C : SrtpCrypto}.

Definition SrtcpContext_new (master_key master_salt : bytes) : SrtcpContext :=
  mkSrtcpContext (derive master_key master_salt RTCP_ENCRYPTION 16)
    (derive master_key master_salt RTCP_SALT 14)
    (derive master_key master_salt RTCP_AUTHENTICATION 20) 0 ReplayWindow_default None.

Definition SrtcpContext_from_key_material (master_key master_salt : bytes) (mki : option Mki)
  : SrtcpContext :=
  let c := SrtcpContext_new master_key master_salt in
  mkSrtcpContext (cc_session_key c) (cc_session_salt c) (cc_session_auth c) (cc_send_index c)
    (cc_recv_replay c) mki.

Definition SrtcpContext_protect (ctx : SrtcpContext) (rtcp out : bytes)
  : res SrtpError unit * SrtcpContext * bytes :=
  if len rtcp <? CLEAR_HEADER_LEN then (Err SrtpTooShort, ctx, out) else
  match (b0 ← idx rtcp 0; ssrc ← be32_at rtcp 4; mret (b0, ssrc) : res SrtpError (Z * Z)) with
  | Err e => (Err e, ctx, out)
  | Panic => (Panic, ctx, out)
  | Ok (b0, ssrc) =>
      if negb (Z.shiftr b0 6 =? 2) then (Err SrtpBadVersion, ctx, out) else
      let index := cc_send_index ctx in
      let ctx := set_send_index ctx (Z.land (cc_send_index ctx + 1) INDEX_MASK) in
      let iv := cipher_iv (cc_session_salt ctx) ssrc index in
      match crypt_tail (cc_session_key ctx) iv rtcp CLEAR_HEADER_LEN with
      | Err e => (Err e, ctx, rtcp)
      | Panic => (Panic, ctx, rtcp)
      | Ok out =>
          let out := out ++ be_enc 4 (Z.lor ENCRYPT_FLAG index) in
          match hmac_sha1_80 (cc_session_auth ctx) out with
          | Err e => (Err e, ctx, out)
          | Panic => (Panic, ctx, out)
          | Ok tag => (Ok tt, ctx, mki_append (cc_mki ctx) out ++ tag)
          end
      end
  end.

(** Everything [unprotect] does before it commits: the authenticated bytes, the
    trailer's position, the encrypt flag, the index and the new window. *)
Definition srtcp_check (ctx : SrtcpContext) (srtcp : bytes)
  : res SrtpError (bytes * Z * bool * Z * ReplayWindow) :=
  let mki_len := match cc_mki ctx with Some m => Mki_len m | None => 0 end in
  if len srtcp <? CLEAR_HEADER_LEN + INDEX_TRAILER_LEN + mki_len + AUTH_TAG_LEN then Err SrtpTooShort else
  b0 ← idx srtcp 0;
  if negb (Z.shiftr b0 6 =? 2) then Err SrtpBadVersion else
  at_ ← usub (len srtcp) AUTH_TAG_LEN;
  protected ← slice srtcp 0 at_;
  tag ← slice srtcp at_ (len srtcp);
  authenticated ← strip_mki protected (cc_mki ctx);
  trailer_at ← usub (len authenticated) INDEX_TRAILER_LEN;
  index_field ← be32_at authenticated trailer_at;
  let encrypted := negb (Z.land index_field ENCRYPT_FLAG =? 0) in
  let index := Z.land index_field INDEX_MASK in
  replay ← ReplayWindow_is_replay (cc_recv_replay ctx) index;
  if (replay : bool) then Err Replayed else
  expected ← hmac_sha1_80 (cc_session_auth ctx) authenticated;
  if negb (bool_decide (expected = tag)) then Err AuthFailed else
  window ← ReplayWindow_record (cc_recv_replay ctx) index;
  mret (authenticated, trailer_at, encrypted, index, window).

Definition SrtcpContext_unprotect (ctx : SrtcpContext) (srtcp out : bytes)
  : res SrtpError unit * SrtcpContext * bytes :=
  match srtcp_check ctx srtcp with
  | Err e => (Err e, ctx, out)
  | Panic => (Panic, ctx, out)
  | Ok (authenticated, trailer_at, encrypted, index, window) =>
      let ctx := set_recv_replay ctx window in
      match (ssrc ← be32_at authenticated 4; body ← slice authenticated 0 trailer_at;
             if (encrypted : bool)
             then crypt_tail (cc_session_key ctx)
                    (cipher_iv (cc_session_salt ctx) ssrc index) body CLEAR_HEADER_LEN
             else mret body) with
      | Ok out => (Ok tt, ctx, out)
      | Err e => (Err e, ctx, out)
      | Panic => (Panic, ctx, out)
      end
  end.

Context {L : SrtpCryptoLaws C}.

Notation apply := apply_aes_cm.
Notation protect := SrtcpContext_protect.
Notation unprotect := SrtcpContext_unprotect.

Definition srtcp_ok (ctx : SrtcpContext) : Prop := len (cc_session_auth ctx) = 20 /\ mki_ok (cc_mki ctx).

Definition srtcp_same_keys (a b : SrtcpContext) : Prop :=
  cc_session_key a = cc_session_key b /\ cc_session_salt a = cc_session_salt b /\
  cc_session_auth a = cc_session_auth b /\ cc_mki a = cc_mki b.

(** A compound RTCP packet the context will protect. *)
Definition rtcp_ok (p : bytes) : Prop := bytes_ok p /\ 8 <= len p /\ Z.shiftr (byte_of p 0) 6 = 2.

Definition srtcp_body (ctx : SrtcpContext) (i : Z) (p : bytes) : bytes :=
  (sub p 0 8 ++ apply (cc_session_key ctx) (cipher_iv (cc_session_salt ctx) (be_dec (sub p 4 8)) i)
     (sub p 8 (len p))) ++ be_enc 4 (Z.lor ENCRYPT_FLAG i).

(** [wire] is packet [p] protected under index [i] with the context's keys. *)
Definition srtcp_wire (ctx : SrtcpContext) (i : Z) (p wire : bytes) : Prop :=
  exists tag, hmac_sha1_80 (cc_session_auth ctx) (srtcp_body ctx i p) = Ok tag /\
    wire = srtcp_body ctx i p ++ mki_wire (cc_mki ctx) ++ tag.

Lemma hmac_80_Ok key data : len key = 20 ->
  exists tag, hmac_sha1_80 key data = Ok tag /\ len tag = AUTH_TAG_LEN.
Proof.
  intros Hk. unfold hmac_sha1_80, AUTH_TAG_LEN. destruct (hmac_len key data Hk) as (d & -> & Hd).
  cbn [ok_or]. rewrite bind_Ok, slice_Ok by lia. eexists. split; [done|]. rewrite len_sub; lia.
Qed.

Lemma srtcp_protect_wire ctx p out :
  srtcp_ok ctx -> rtcp_ok p -> 0 <= cc_send_index ctx ->
  exists wire,
    protect ctx p out = (Ok tt, set_send_index ctx ((cc_send_index ctx + 1) mod 2 ^ 31), wire) /\
    srtcp_wire ctx (cc_send_index ctx) p wire.
Proof.
  intros [Ha Hm] (Hb & Hl & Hv) Hi. unfold SrtcpContext_protect, CLEAR_HEADER_LEN.
  rewrite (proj2 (Z.ltb_ge _ _)) by lia. rewrite idx_byte_of, be32_at_sub, !bind_Ok by lia.
  unfold mret, res_ret. rewrite Hv. cbn [negb Z.eqb Pos.eqb]. change (4 + 4) with 8.
  change INDEX_MASK with (Z.ones 31). rewrite Z.land_ones by lia.
  cbn [set_send_index cc_session_salt cc_session_key cc_session_auth cc_mki].
  rewrite crypt_tail_Ok by lia. fold (srtcp_body ctx (cc_send_index ctx) p).
  destruct (hmac_80_Ok (cc_session_auth ctx) (srtcp_body ctx (cc_send_index ctx) p) Ha) as (tag & Ht & _).
  rewrite Ht, mki_append_wire, <- app_assoc. eexists. split; [done|]. by exists tag.
Qed.

Lemma index_field_bits i : fits 31 i ->
  fits 32 (Z.lor ENCRYPT_FLAG i) /\ Z.land (Z.lor ENCRYPT_FLAG i) ENCRYPT_FLAG <> 0 /\
  Z.land (Z.lor ENCRYPT_FLAG i) INDEX_MASK = i.
Proof.
  unfold fits. intros Hi. change ENCRYPT_FLAG with (Z.shiftl 1 31). rewrite lor_shiftl_add by lia.
  split; [lia|]. split.
  - change (Z.shiftl 1 31) with (2 ^ 31). rewrite land_top_bit by lia.
    replace ((1 * 2 ^ 31 + i) / 2 ^ 31) with 1 by (apply Z.div_unique with i; lia). lia.
  - change INDEX_MASK with (Z.ones 31). rewrite Z.land_ones by lia.
    rewrite Z.add_comm, Z.mod_add, Z.mod_small by lia. done.
Qed.

Lemma srtcp_unprotect_wire ctx i p wire R out :
  srtcp_ok ctx -> rtcp_ok p -> fits 31 i -> srtcp_wire ctx i p wire ->
  window_ok (cc_recv_replay ctx) R -> fresh_index R i ->
  exists w, unprotect ctx wire out = (Ok tt, set_recv_replay ctx w, p) /\ window_ok w ({[ i ]} ∪ R).
Proof.
  intros [Ha Hm] (Hb & Hl & Hv) Hi (tag & Ht & ->) HR Hf.
  destruct (hmac_80_Ok (cc_session_auth ctx) (srtcp_body ctx i p) Ha) as (t & Ht' & Hlt).
  rewrite Ht in Ht'. injection Ht' as <-. unfold AUTH_TAG_LEN in Hlt.
  destruct (is_replay_correct _ _ i HR) as (b & Hrep & Hbf). rewrite (proj2 Hbf Hf) in Hrep.
  destruct (record_correct _ _ _ HR Hf) as (w' & Hrec & Hw' & _). exists w'. split; [|done].
  destruct (index_field_bits i Hi) as (Hfit & Henc & Hidx).
  pose proof (len_mki_wire _ Hm) as Hlm. pose proof (len_nonneg (mki_wire (cc_mki ctx))).
  set (enc := sub p 0 8 ++ apply (cc_session_key ctx)
    (cipher_iv (cc_session_salt ctx) (be_dec (sub p 4 8)) i) (sub p 8 (len p))) in *.
  assert (len enc = len p) as Hle.
  { unfold enc. rewrite len_app. unfold len at 2. rewrite apply_length by done.
    fold (len (sub p 8 (len p))). rewrite !len_sub by lia. lia. }
  assert (len (srtcp_body ctx i p) = len p + 4) as Hlb.
  { unfold srtcp_body. fold enc. rewrite len_app, len_be_enc. lia. }
  unfold SrtcpContext_unprotect, srtcp_check, CLEAR_HEADER_LEN, INDEX_TRAILER_LEN, AUTH_TAG_LEN.
  fold (mki_len_of (cc_mki ctx)). rewrite !len_app, Hlb, Hlm, Hlt, (proj2 (Z.ltb_ge _ _)) by lia.
  assert (@idx SrtpError Z (srtcp_body ctx i p) 0 = Ok (byte_of p 0)) as Hb0.
  { unfold srtcp_body. fold enc. rewrite idx_app_l by lia. unfold enc.
    rewrite idx_app_l, idx_sub, idx_byte_of by (rewrite ?len_sub; lia). done. }
  rewrite idx_app_l, Hb0, bind_Ok, Hv by lia. cbn [negb Z.eqb Pos.eqb].
  rewrite (usub_Ok _ 10), bind_Ok, !slice_Ok, !bind_Ok by (rewrite ?len_app; lia).
  rewrite (app_assoc (srtcp_body _ _ _)), sub_app_begin by (rewrite len_app; lia).
  rewrite sub_app_end by (rewrite len_app; lia). rewrite strip_mki_wire, bind_Ok, Hlb by done.
  rewrite usub_Ok, bind_Ok by lia. replace (len p + 4 - 4) with (len p) by lia.
  assert (@be32_at SrtpError (srtcp_body ctx i p) (len p) = Ok (Z.lor ENCRYPT_FLAG i)) as ->.
  { unfold srtcp_body. fold enc. rewrite <- (app_nil_r (be_enc 4 _)). apply be32_at_app; [lia|done]. }
  rewrite bind_Ok, Hidx, Hrep, bind_Ok, Ht, bind_Ok, bool_decide_eq_true_2 by done. cbn [negb].
  rewrite Hrec, bind_Ok, (proj2 (Z.eqb_neq _ 0) Henc). cbn [negb]. unfold mret, res_ret.
  rewrite be32_at_sub, bind_Ok, slice_Ok, bind_Ok by lia. change (4 + 4) with 8.
  unfold srtcp_body. fold enc. rewrite (sub_app_begin enc) by done.
  rewrite (sub_app_l enc) by lia.
  assert (sub enc 4 8 = sub p 4 8) as ->.
  { unfold enc. rewrite sub_app_l by (rewrite ?len_sub; lia). rewrite sub_sub by lia. done. }
  cbn [set_recv_replay cc_session_key cc_session_salt]. unfold enc. rewrite crypt_tail_twice by (done || lia). done.
Qed.

Lemma srtcp_protect_run packets : forall ctx out,
  srtcp_ok ctx -> Forall rtcp_ok packets -> 0 <= cc_send_index ctx ->
  cc_send_index ctx + len packets <= 2 ^ 31 ->
  exists wires, ctx_run protect ctx out packets = pair (Ok tt) <$> wires /\
    Forall2 (fun ip w => rtcp_ok ip.2 /\ fits 31 ip.1 /\ srtcp_wire ctx ip.1 ip.2 w)
      (zip (seqZ (cc_send_index ctx) (len packets)) packets) wires.
Proof.
  induction packets as [|p packets IH]; intros ctx out Hc Hp Hi Hmax; [by exists []|].
  apply Forall_cons_1 in Hp as [Hp Hps]. rewrite len_cons in *. pose proof (len_nonneg packets).
  cbn [ctx_run]. destruct (srtcp_protect_wire ctx p out Hc Hp Hi) as (w & -> & Hw).
  rewrite seqZ_cons by lia. replace (Z.succ (cc_send_index ctx)) with (cc_send_index ctx + 1) by lia.
  replace (Z.pred (1 + len packets)) with (len packets) by lia.
  destruct packets as [|p2 packets].
  { exists [w]. split; [done|]. constructor; [|constructor]. split; [done|]. split; [unfold fits; simpl; lia|done]. }
  rewrite len_cons in *. pose proof (len_nonneg packets).
  rewrite (Z.mod_small (cc_send_index ctx + 1)) by lia.
  set (ctx1 := set_send_index ctx (cc_send_index ctx + 1)).
  destruct (IH ctx1 w) as (ws & Hrun & Hws); [done|done|cbn; lia|cbn; lia|].
  exists (w :: ws). rewrite Hrun. split; [done|].
  constructor; [split; [done|split; [unfold fits; simpl; lia|done]]|exact Hws].
Qed.

Lemma srtcp_unprotect_run delivered : forall ctx R out,
  srtcp_ok ctx -> window_ok (cc_recv_replay ctx) R ->
  Forall (fun d => rtcp_ok d.1.2 /\ fits 31 d.1.1 /\ srtcp_wire ctx d.1.1 d.1.2 d.2) delivered ->
  Forall (fun b => b = true) (reference_run R ((fun d => d.1.1) <$> delivered)).1 ->
  ctx_run unprotect ctx out (delivered.*2) = (fun d => (Ok tt, d.1.2)) <$> delivered.
Proof.
  induction delivered as [|d ds IH]; intros ctx R out Hc HR Hd Hf; [done|].
  apply Forall_cons_1 in Hd as [(Hp & Hi & Hw) Hds].
  cbn [fmap list_fmap reference_run fst] in Hf. apply Forall_cons_1 in Hf as [Hfr Hfs].
  cbn [fmap list_fmap ctx_run].
  destruct (srtcp_unprotect_wire ctx d.1.1 d.1.2 d.2 R out Hc Hp Hi Hw HR) as (w & -> & HR').
  { by apply freshb_spec. }
  f_equal. rewrite Hfr in Hfs. by apply (IH (set_recv_replay ctx w) ({[ d.1.1 ]} ∪ R)).
Qed.

(** ** Theorems *)

(** A run of compound RTCP packets gets consecutive, never repeated SRTCP
    indices (up to the 2^31 limit), and a context with the same keys recovers
    each byte for byte from any delivery that its replay filter finds fresh. *)
Lemma srtcp_stream_roundtrip sender receiver packets R out out' :
  srtcp_ok sender -> srtcp_same_keys sender receiver -> Forall rtcp_ok packets ->
  0 <= cc_send_index sender -> cc_send_index sender + len packets <= 2 ^ 31 ->
  window_ok (cc_recv_replay receiver) R ->
  exists wires,
    ctx_run protect sender out packets = pair (Ok tt) <$> wires /\
    forall delivered,
      (forall d, d ∈ delivered -> d ∈ zip (zip (seqZ (cc_send_index sender) (len packets)) packets) wires) ->
      Forall (fun b => b = true) (reference_run R ((fun d => d.1.1) <$> delivered)).1 ->
      ctx_run unprotect receiver out' (delivered.*2) = (fun d => (Ok tt, d.1.2)) <$> delivered.
Proof.
  intros Hc (Hk & Hs & Hka & Hkm) Hp Hi Hmax HR.
  destruct (srtcp_protect_run packets sender out Hc Hp Hi Hmax) as (wires & Hrun & Hw).
  exists wires. split; [done|]. intros delivered Hin Hf. eapply srtcp_unprotect_run; [|exact HR| |done].
  { destruct Hc. split; congruence. }
  apply Forall_forall. intros d Hd%Hin. apply elem_of_lookup_zip_with in Hd as (k & ip & w & -> & Hip & Hwk).
  cbn [fst snd]. destruct (Forall2_lookup_lr _ _ _ _ _ _ Hw Hip Hwk) as (? & ? & tag & Ht & ->).
  split; [done|]. split; [done|]. exists tag. unfold srtcp_body in *. by rewrite <- Hk, <- Hs, <- Hka, <- Hkm.
Qed.
End srtcp.

Lemma srtcp_stream_roundtrip_witness :
  let ctx := SrtcpContext_from_key_material (replicate 16 0x11) (replicate 14 0x22)
               (Some (mkMki 5 2)) in
  let packets := [[0x80; 201; 0; 1; 0; 0; 0; 9]; [0x80; 200; 0; 2; 0; 0; 0; 9; 1; 2; 3; 4]] in
  exists wires,
    ctx_run (SrtcpContext_protect) ctx [] packets = pair (Ok tt) <$> wires /\
    ctx_run (SrtcpContext_unprotect) ctx [] (reverse wires) =
      pair (Ok tt) <$> reverse packets.
Proof.
  intros ctx packets.
  destruct (srtcp_stream_roundtrip ctx ctx packets
    ∅ [] []) as (wires & Hp & Hu).
  - split; [reflexivity|vm_compute; split; congruence].
  - repeat split.
  - unfold packets. forall_list; (split; [forall_list; unfold is_byte; lia|split; [vm_compute; congruence|reflexivity]]).
  - vm_compute. congruence.
  - vm_compute. congruence.
  - reflexivity.
  - exists wires. split; [exact Hp|].
    assert (length wires = 2%nat) as Hl.
    { apply (f_equal length) in Hp. rewrite length_fmap in Hp. rewrite <- Hp. reflexivity. }
    destruct wires as [|w1 [|w2 [|]]]; try discriminate Hl.
    apply (Hu [(1, [0x80; 200; 0; 2; 0; 0; 0; 9; 1; 2; 3; 4], w2); (0, [0x80; 201; 0; 1; 0; 0; 0; 9], w1)]).
    + intros d [->|[->|Hd%elem_of_nil]%elem_of_cons]%elem_of_cons; [right; left|left|done].
    + vm_compute. repeat constructor.
Defined.
