(* ===== verification/SrtcpGcm.v ===== *)
(** * SRTCP with AES-GCM: crates/siphon-rtp-srtp/src/srtcp_gcm.rs

    The floor-control profile: a ring of at most two master keys, the MKI after
    the packet selecting one for receiving, the newest protecting what is sent,
    one 31-bit send index over all keys, and a replay window per key.  AES-GCM
    comes from the aes-gcm crate: [GcmCrypto] names its detached in-place calls
    and [GcmLaws] the sizes and the inverse its documentation promises; nothing
    is assumed about its strength.  Wiping freed key material has no observable
    result and is not modelled. *)

From S2P Require Import Prelude Replay Srtp Srtcp.
From stdpp Require Import base list numbers option gmap.
From Stdlib Require Import Lia ZArith Sorted.

Open Scope Z_scope.

Definition CLEAR_HEADER_LEN : Z := 8.
Definition GCM_TAG_LEN : Z := 16.
Definition ESRTCP_LEN : Z := 4.
Definition MKI_LEN : Z := 4.
Definition SESSION_SALT_LEN : Z := 12.
Definition ENCRYPT_FLAG : Z := 0x80000000.
Definition INDEX_MASK : Z := 0x7FFFFFFF.
Definition LAST_INDEX : Z := INDEX_MASK.
Definition MAX_SEND_INDEX : Z := LAST_INDEX.
Definition MAX_KEYS : Z := 2.
Definition MIN_PACKET_LEN : Z := CLEAR_HEADER_LEN + GCM_TAG_LEN + ESRTCP_LEN + MKI_LEN.

Record FloorMasterKey : Type := mkFloorMasterKey {
  fm_mki : Z;
  fm_master_key : bytes;
  fm_master_salt : bytes
}.

#[export] Instance FloorMasterKey_eq_dec : EqDecision FloorMasterKey.
Proof. solve_decision. Defined.

Definition from_salt_96 (mki : Z) (master_key master_salt : bytes) : res SrtpError FloorMasterKey :=
  padded ← copy_at (replicate (Z.to_nat MASTER_SALT_LEN) 0) 0 master_salt;
  mret (mkFloorMasterKey mki master_key padded).

Record GcmSession : Type := mkGcmSession { gs_cipher : bytes; gs_salt : bytes }.

Record KeyEntry : Type := mkKeyEntry {
  ke_master : FloorMasterKey;
  ke_session : GcmSession;
  ke_replay : ReplayWindow
}.

Record SrtcpGcmContext : Type := mkSrtcpGcmContext {
  gc_keys : list KeyEntry;
  gc_send_index : Z;
  gc_exhausted : bool
}.

Definition set_replay (e : KeyEntry) (w : ReplayWindow) : KeyEntry :=
  mkKeyEntry (ke_master e) (ke_session e) w.

Definition set_keys (c : SrtcpGcmContext) (keys : list KeyEntry) : SrtcpGcmContext :=
  mkSrtcpGcmContext keys (gc_send_index c) (gc_exhausted c).

Definition holds_mki (mki : Z) (e : KeyEntry) : Prop := fm_mki (ke_master e) = mki.
#[export] Instance holds_mki_dec mki e : Decision (holds_mki mki e) := decide (fm_mki (ke_master e) = mki).

(** What the aes-gcm crate provides.  [gcm_encrypt key nonce aad buffer] is the
    ciphertext and the tag, [gcm_decrypt key nonce aad buffer tag] the plaintext
    when the tag verifies; [None] is the crate's opaque error, for a message or
    associated data over the algorithm's limit, or a wrong tag.  The crate checks
    before it writes, so the buffer of a failed call holds what it held. *)
Class GcmCrypto : Type := {
  gcm_encrypt : bytes -> bytes -> bytes -> bytes -> option (bytes * bytes);
  gcm_decrypt : bytes -> bytes -> bytes -> bytes -> bytes -> option bytes
}.

(** The crate's limit on a message and on the associated data, in bytes. *)
Definition GCM_MAX : Z := 2 ^ 36.

Class GcmLaws (G : GcmCrypto) : Prop := {
  gcm_seals : forall key nonce aad buffer,
    len key = 16 -> len nonce = 12 -> len aad <= GCM_MAX -> len buffer <= GCM_MAX ->
    exists cipher tag, gcm_encrypt key nonce aad buffer = Some (cipher, tag) /\
      len cipher = len buffer /\ len tag = 16 /\
      gcm_decrypt key nonce aad cipher tag = Some buffer
}.

Section gcm.
Context `{C : SrtpCrypto} `{G : GcmCrypto}.

Definition GcmSession_from_session_keys (key salt : bytes) : GcmSession := mkGcmSession key salt.

Definition GcmSession_derive (master : FloorMasterKey) : GcmSession :=
  GcmSession_from_session_keys
    (derive (fm_master_key master) (fm_master_salt master) RTCP_ENCRYPTION 16)
    (derive (fm_master_key master) (fm_master_salt master) RTCP_SALT 12).

Definition gcm_iv (s : GcmSession) (ssrc index : Z) : bytes :=
  xor_into (xor_into (gs_salt s) 2 (be_enc 4 ssrc)) 8 (be_enc 4 (Z.land index INDEX_MASK)).

(** The cipher call of [seal]: the packet's new first part and the tag. *)
Definition seal_cipher (s : GcmSession) (rtcp : bytes) (encrypt : bool) (ssrc index word : Z)
  : res SrtpError (bytes * bytes) :=
  if encrypt then
    header ← slice rtcp 0 CLEAR_HEADER_LEN;
    body ← slice rtcp CLEAR_HEADER_LEN (len rtcp);
    match gcm_encrypt (gs_cipher s) (gcm_iv s ssrc index) (header ++ be_enc 4 word) body with
    | Some (cipher, tag) => Ok (header ++ cipher, tag)
    | None => Err AuthFailed
    end
  else
    match gcm_encrypt (gs_cipher s) (gcm_iv s ssrc index) (rtcp ++ be_enc 4 word) [] with
    | Some (_, tag) => Ok (rtcp, tag)
    | None => Err AuthFailed
    end.

Definition seal (s : GcmSession) (rtcp : bytes) (encrypt : bool) (index : Z) (out : bytes)
  : res SrtpError unit * bytes :=
  match (be32_at rtcp 4 : res SrtpError Z) with
  | Err e => (Err e, out)
  | Panic => (Panic, out)
  | Ok ssrc =>
      let word := Z.lor (if encrypt then ENCRYPT_FLAG else 0) index in
      match seal_cipher s rtcp encrypt ssrc index word with
      | Err e => (Err e, rtcp)
      | Panic => (Panic, rtcp)
      | Ok (body, tag) => (Ok tt, body ++ tag ++ be_enc 4 word)
      end
  end.

(** What [open] reads before it touches [out]: the word with its flag and index,
    the tag, the SSRC and the bytes before the tag. *)
Definition open_fields (body : bytes) (replay : ReplayWindow)
  : res SrtpError (Z * bool * Z * bytes * Z * bytes) :=
  word_at ← usub (len body) ESRTCP_LEN;
  word ← be32_at body word_at;
  let encrypted := negb (Z.land word ENCRYPT_FLAG =? 0) in
  let index := Z.land word INDEX_MASK in
  replayed ← ReplayWindow_is_replay replay index;
  if (replayed : bool) then Err Replayed else
  tag_at ← usub word_at GCM_TAG_LEN;
  tag ← slice body tag_at word_at;
  ssrc ← be32_at body 4;
  text ← slice body 0 tag_at;
  mret (word, encrypted, index, tag, ssrc, text).

Definition open_cipher (s : GcmSession) (word : Z) (encrypted : bool) (index : Z) (tag : bytes) (ssrc : Z) (text : bytes)
  : res SrtpError bytes :=
  if encrypted then
    header ← slice text 0 CLEAR_HEADER_LEN;
    rest ← slice text CLEAR_HEADER_LEN (len text);
    match gcm_decrypt (gs_cipher s) (gcm_iv s ssrc index) (header ++ be_enc 4 word) rest tag with
    | Some plain => Ok (header ++ plain)
    | None => Err AuthFailed
    end
  else
    match gcm_decrypt (gs_cipher s) (gcm_iv s ssrc index) (text ++ be_enc 4 word) [] tag with
    | Some _ => Ok text
    | None => Err AuthFailed
    end.

Definition open (s : GcmSession) (body : bytes) (replay : ReplayWindow) (out : bytes)
  : res SrtpError unit * ReplayWindow * bytes :=
  match open_fields body replay with
  | Err e => (Err e, replay, out)
  | Panic => (Panic, replay, out)
  | Ok (word, encrypted, index, tag, ssrc, text) =>
      match open_cipher s word encrypted index tag ssrc text with
      | Err e => (Err e, replay, [])
      | Panic => (Panic, replay, [])
      | Ok plain =>
          match ReplayWindow_record replay index with
          | Ok replay => (Ok tt, replay, plain)
          | Err e => (Err e, replay, plain)
          | Panic => (Panic, replay, plain)
          end
      end
  end.

Definition KeyEntry_new (master : FloorMasterKey) : KeyEntry :=
  mkKeyEntry master (GcmSession_derive master) ReplayWindow_default.

Definition is_same_key (e : KeyEntry) (other : FloorMasterKey) : bool :=
  let material_equal := bool_decide (fm_master_key (ke_master e) = fm_master_key other) &&
    bool_decide (fm_master_salt (ke_master e) = fm_master_salt other) in
  (fm_mki (ke_master e) =? fm_mki other) && material_equal.

(** [Vec::swap_remove]: the last element takes the removed one's place. *)
Definition swap_remove {A} (l : list A) (i : nat) : list A :=
  match last l with
  | Some z => take (pred (length l)) (<[i := z]> l)
  | None => l
  end.

Fixpoint collect_keys (old : list KeyEntry) (kept : list FloorMasterKey) : list KeyEntry :=
  match kept with
  | [] => []
  | master :: kept =>
      match list_find (fun e => is_same_key e master = true) old with
      | Some (position, e) => e :: collect_keys (swap_remove old position) kept
      | None => KeyEntry_new master :: collect_keys old kept
      end
  end.

Definition kept_keys (keys : list FloorMasterKey) : list FloorMasterKey :=
  drop (Z.to_nat (saturating_sub (len keys) MAX_KEYS)) keys.

Definition replace_keys (c : SrtcpGcmContext) (keys : list FloorMasterKey)
  : res SrtpError unit * SrtcpGcmContext :=
  match kept_keys keys with
  | [] => (Err NoKeys, c)
  | [a; b] =>
      if fm_mki a =? fm_mki b then (Err DuplicateMki, c)
      else (Ok tt, set_keys c (collect_keys (gc_keys c) [a; b]))
  | kept => (Ok tt, set_keys c (collect_keys (gc_keys c) kept))
  end.

Definition SrtcpGcmContext_new (keys : list FloorMasterKey) : res SrtpError SrtcpGcmContext :=
  match replace_keys (mkSrtcpGcmContext [] 0 false) keys with
  | (Ok _, c) => Ok c
  | (Err e, _) => Err e
  | (Panic, _) => Panic
  end.

Definition sending_mki (c : SrtcpGcmContext) : option Z :=
  (fun e => fm_mki (ke_master e)) <$> last (gc_keys c).

Definition send_index (c : SrtcpGcmContext) : Z := gc_send_index c.

Definition received_indices (c : SrtcpGcmContext) : list (Z * Z) :=
  omap (fun e =>
    highest ← ReplayWindow_highest (ke_replay e);
    if highest <? 2 ^ 32 then Some (fm_mki (ke_master e), highest) else None) (gc_keys c).

Definition resume_received (c : SrtcpGcmContext) (mki index : Z) : SrtcpGcmContext :=
  match list_find (holds_mki mki) (gc_keys c) with
  | Some (i, e) =>
      set_keys c (<[i := set_replay e (ReplayWindow_close_at (ke_replay e) (Z.land index INDEX_MASK))]> (gc_keys c))
  | None => c
  end.

Definition set_send_index (c : SrtcpGcmContext) (index : Z) : SrtcpGcmContext :=
  mkSrtcpGcmContext (gc_keys c) (Z.land index INDEX_MASK) false.

Definition advance (c : SrtcpGcmContext) : SrtcpGcmContext :=
  if gc_send_index c =? LAST_INDEX then mkSrtcpGcmContext (gc_keys c) (gc_send_index c) true
  else mkSrtcpGcmContext (gc_keys c) (gc_send_index c + 1) (gc_exhausted c).

Definition gcm_protect (c : SrtcpGcmContext) (rtcp : bytes) (encrypt : bool) (out : bytes)
  : res SrtpError unit * SrtcpGcmContext * bytes :=
  if len rtcp <? CLEAR_HEADER_LEN then (Err SrtpTooShort, c, out) else
  match (idx rtcp 0 : res SrtpError Z) with
  | Err e => (Err e, c, out)
  | Panic => (Panic, c, out)
  | Ok b0 =>
      if negb (Z.shiftr b0 6 =? 2) then (Err SrtpBadVersion, c, out) else
      if gc_exhausted c then (Err IndexExhausted, c, out) else
      match last (gc_keys c) with
      | None => (Err NoKeys, c, out)
      | Some entry =>
          match seal (ke_session entry) rtcp encrypt (gc_send_index c) out with
          | (Ok _, out) => (Ok tt, advance c, out ++ be_enc 4 (fm_mki (ke_master entry)))
          | (r, out) => (r, c, out)
          end
      end
  end.

Definition gcm_unprotect (c : SrtcpGcmContext) (srtcp out : bytes)
  : res SrtpError unit * SrtcpGcmContext * bytes :=
  let out := [] in
  if len srtcp <? MIN_PACKET_LEN then (Err SrtpTooShort, c, out) else
  match (b0 ← idx srtcp 0; if negb (Z.shiftr b0 6 =? 2) then Err SrtpBadVersion else
         at_ ← usub (len srtcp) MKI_LEN;
         body ← slice srtcp 0 at_; mki_field ← slice srtcp at_ (len srtcp);
         mki ← be32_at mki_field 0; mret (body, mki) : res SrtpError (bytes * Z)) with
  | Err e => (Err e, c, out)
  | Panic => (Panic, c, out)
  | Ok (body, mki) =>
      match list_find (holds_mki mki) (gc_keys c) with
      | None => (Err UnknownMki, c, out)
      | Some (i, entry) =>
          let '(r, replay, out) := open (ke_session entry) body (ke_replay entry) out in
          (r, set_keys c (<[i := set_replay entry replay]> (gc_keys c)), out)
      end
  end.

End gcm.
(** ** Initialisation vectors *)

Lemma lookup_xor_into bs : forall l a j,
  xor_into l a bs !! j =
    if decide (a <= j < a + length bs)%nat then x ← l !! j; b ← bs !! (j - a)%nat; Some (Z.lxor x b)
    else l !! j.
Proof.
  induction bs as [|b bs IH]; intros l a j; cbn [xor_into length].
  { by rewrite decide_False by lia. }
  rewrite IH. destruct (decide (j = a)) as [->|Hj].
  - rewrite decide_False, decide_True by lia. rewrite list_lookup_alter, Nat.sub_diag, decide_True by done.
    by destruct (l !! a).
  - rewrite list_lookup_alter_ne by done. case_decide.
    + rewrite decide_True by lia. replace (j - a)%nat with (S (j - S a)) by lia. done.
    + rewrite decide_False by lia. done.
Qed.

Lemma length_xor_into bs : forall l a, length (xor_into l a bs) = length l.
Proof. induction bs as [|b bs IH]; intros l a; cbn [xor_into]; [done|]. by rewrite IH, length_alter. Qed.

Lemma lxor_inj_r x a b : Z.lxor x a = Z.lxor x b -> a = b.
Proof. intros H. rewrite <- (lxor_cancel a x), <- (lxor_cancel b x), (Z.lxor_comm a), (Z.lxor_comm b). by rewrite H. Qed.

(** Distinct indices give distinct IVs under one session, whatever the SSRCs. *)
Lemma gcm_iv_inj s ssrc ssrc' i i' :
  length (gs_salt s) = 12%nat -> fits 31 i -> fits 31 i' -> gcm_iv s ssrc i = gcm_iv s ssrc' i' -> i = i'.
Proof.
  intros Hl Hi Hi' H. unfold gcm_iv in H. unfold fits in *.
  change INDEX_MASK with (Z.ones 31) in H. rewrite !Z.land_ones, !Z.mod_small in H by lia.
  rewrite <- (be_dec_enc_fits 4 i), <- (be_dec_enc_fits 4 i') by (cbn; lia). f_equal.
  apply list_eq. intros k. destruct (decide (k < 4)%nat) as [Hk|Hk].
  2: { rewrite !lookup_ge_None_2 by (rewrite be_enc_length; lia). done. }
  apply (f_equal (.!! (8 + k)%nat)) in H. rewrite !lookup_xor_into, !be_enc_length in H.
  rewrite !(decide_True (P := (8 <= 8 + k < 8 + 4)%nat)) in H by lia.
  rewrite !decide_False in H by lia. replace (8 + k - 8)%nat with k in H by lia.
  destruct (lookup_lt_is_Some_2 (gs_salt s) (8 + k)) as [x Hx]; [lia|]. rewrite Hx in H.
  destruct (lookup_lt_is_Some_2 (be_enc 4 i) k) as [a Ha]; [rewrite be_enc_length; lia|].
  destruct (lookup_lt_is_Some_2 (be_enc 4 i') k) as [b Hb]; [rewrite be_enc_length; lia|].
  rewrite Ha, Hb in *. cbn in H. injection H as H. by rewrite (lxor_inj_r _ _ _ H).
Qed.

Section gcm_lemmas.
Context `{L : SrtpCryptoLaws} `{GL : GcmLaws}.

Lemma length_derive key salt label n : length (derive key salt label n) = n.
Proof. unfold derive, keystream. rewrite apply_length. apply length_replicate. Qed.

Lemma len_gcm_iv m ssrc i : len (gcm_iv (GcmSession_derive m) ssrc i) = 12.
Proof. unfold gcm_iv, len. rewrite !length_xor_into. unfold GcmSession_derive, GcmSession_from_session_keys. cbn [gs_salt]. by rewrite length_derive. Qed.

(** ** One packet on the wire *)

(** A compound packet of a size the cipher takes. *)
Definition gcm_packet_ok (p : bytes) : Prop := rtcp_ok p /\ len p + 4 <= GCM_MAX.

Record Sealed : Type := mkSealed {
  sl_master : FloorMasterKey; sl_index : Z; sl_encrypt : bool; sl_packet : bytes; sl_wire : bytes
}.

Definition esrtcp_word (encrypt : bool) (i : Z) : Z := Z.lor (if encrypt then ENCRYPT_FLAG else 0) i.

(** The record's wire image is its packet sealed under its key and index. *)
Record sealed_ok (x : Sealed) : Prop := {
  so_mki : fits 32 (fm_mki (sl_master x));
  so_index : fits 31 (sl_index x);
  so_packet : gcm_packet_ok (sl_packet x);
  so_wire : exists body tag,
    seal_cipher (GcmSession_derive (sl_master x)) (sl_packet x) (sl_encrypt x)
      (be_dec (sub (sl_packet x) 4 8)) (sl_index x) (esrtcp_word (sl_encrypt x) (sl_index x)) = Ok (body, tag) /\
    sl_wire x = body ++ tag ++ be_enc 4 (esrtcp_word (sl_encrypt x) (sl_index x)) ++ be_enc 4 (fm_mki (sl_master x))
}.

Lemma word_bits encrypt i : fits 31 i ->
  fits 32 (esrtcp_word encrypt i) /\ Z.land (esrtcp_word encrypt i) INDEX_MASK = i /\
  negb (Z.land (esrtcp_word encrypt i) ENCRYPT_FLAG =? 0) = encrypt.
Proof.
  intros Hi. unfold esrtcp_word. destruct encrypt.
  - destruct (index_field_bits i Hi) as (Hf & Hne & Hm). split; [exact Hf|]. split; [exact Hm|].
    change Srtcp.ENCRYPT_FLAG with ENCRYPT_FLAG in Hne. rewrite (proj2 (Z.eqb_neq _ _) Hne). done.
  - rewrite Z.lor_0_l. unfold fits in *. split; [lia|]. change INDEX_MASK with (Z.ones 31).
    rewrite Z.land_ones, Z.mod_small by lia. split; [done|]. change ENCRYPT_FLAG with (2 ^ 31).
    rewrite land_top_bit, Z.div_small by lia. done.
Qed.

(** The cipher call succeeds, keeps the length and the header, and is undone. *)
Lemma seal_cipher_Ok m p encrypt i :
  gcm_packet_ok p -> fits 31 i ->
  exists body tag,
    seal_cipher (GcmSession_derive m) p encrypt (be_dec (sub p 4 8)) i (esrtcp_word encrypt i) = Ok (body, tag) /\
    len body = len p /\ len tag = 16 /\ sub body 0 8 = sub p 0 8 /\
    open_cipher (GcmSession_derive m) (esrtcp_word encrypt i) encrypt i tag (be_dec (sub p 4 8)) body = Ok p.
Proof.
  intros ((Hb & Hl & Hv) & Hmax) Hi. unfold GCM_MAX in *. unfold seal_cipher, open_cipher, CLEAR_HEADER_LEN.
  assert (len (gs_cipher (GcmSession_derive m)) = 16) as Hk.
  { unfold len, GcmSession_derive, GcmSession_from_session_keys. cbn [gs_cipher]. by rewrite length_derive. }
  destruct encrypt.
  - rewrite !slice_Ok, !bind_Ok by lia.
    destruct (gcm_seals _ (gcm_iv (GcmSession_derive m) (be_dec (sub p 4 8)) i)
      (sub p 0 8 ++ be_enc 4 (esrtcp_word true i)) (sub p 8 (len p)) Hk (len_gcm_iv _ _ _))
      as (c & tag & -> & Hc & Ht & Hd).
    { unfold GCM_MAX. rewrite len_app, len_sub, len_be_enc; lia. }
    { unfold GCM_MAX. rewrite len_sub; lia. }
    rewrite len_sub in Hc by lia. eexists _, _. split; [done|].
    assert (len (sub p 0 8) = 8) as Hh by (rewrite len_sub; lia).
    rewrite len_app, Hh, Hc. split; [lia|]. split; [done|]. rewrite sub_app_begin by lia. split; [done|].
    rewrite !slice_Ok, !bind_Ok by (rewrite ?len_app; lia).
    rewrite sub_app_begin by lia. rewrite (sub_app_end _ c) by (rewrite ?len_app; lia).
    rewrite Hd. rewrite <- (sub_split p 0 8 (len p)) by lia. by rewrite sub_full.
  - destruct (gcm_seals _ (gcm_iv (GcmSession_derive m) (be_dec (sub p 4 8)) i)
      (p ++ be_enc 4 (esrtcp_word false i)) [] Hk (len_gcm_iv _ _ _)) as (c & tag & -> & Hc & Ht & Hd).
    { unfold GCM_MAX. rewrite len_app, len_be_enc; lia. }
    { unfold GCM_MAX. rewrite len_nil; lia. }
    eexists _, _. split; [done|]. split; [done|]. split; [done|]. split; [done|].
    rewrite len_nil, len_zero_iff in Hc. subst c. by rewrite Hd.
Qed.

(** [protect] on a held key seals under the send index and advances it; nothing
    else moves. *)
Lemma gcm_protect_sealed c e p encrypt out :
  last (gc_keys c) = Some e -> ke_session e = GcmSession_derive (ke_master e) ->
  fits 32 (fm_mki (ke_master e)) -> gcm_packet_ok p -> fits 31 (gc_send_index c) -> gc_exhausted c = false ->
  exists wire, gcm_protect c p encrypt out = (Ok tt, advance c, wire) /\
    sealed_ok (mkSealed (ke_master e) (gc_send_index c) encrypt p wire).
Proof.
  intros Hlast Hs Hm Hp Hi Hx. pose proof Hp as ((Hb & Hl & Hv) & _).
  unfold gcm_protect, CLEAR_HEADER_LEN. rewrite (proj2 (Z.ltb_ge _ _)) by lia.
  rewrite idx_byte_of, Hv by lia. cbn [negb Z.eqb Pos.eqb]. rewrite Hx, Hlast, Hs.
  unfold seal. rewrite be32_at_sub by lia. change (4 + 4) with 8.
  destruct (seal_cipher_Ok (ke_master e) p encrypt (gc_send_index c) Hp Hi) as (body & tag & Hc & _).
  unfold esrtcp_word in Hc. rewrite Hc. eexists. split; [done|]. split; try done. cbn.
  exists body, tag. split; [done|]. by rewrite <- !app_assoc.
Qed.

(** [open] of a sealed packet is decided by the window alone. *)
Lemma open_sealed x w R out :
  sealed_ok x -> window_ok w R ->
  exists body, sl_wire x = body ++ be_enc 4 (fm_mki (sl_master x)) /\ len body = len (sl_packet x) + 20 /\
    byte_of body 0 = byte_of (sl_packet x) 0 /\
    if freshb R (sl_index x) then
      exists w', open (GcmSession_derive (sl_master x)) body w out = (Ok tt, w', sl_packet x) /\
        window_ok w' ({[ sl_index x ]} ∪ R)
    else open (GcmSession_derive (sl_master x)) body w out = (Err Replayed, w, out).
Proof.
  intros [Hm Hi Hp (text & tag & Hseal & Hw)] HR. destruct x as [m i encrypt p wire]. cbn in *.
  destruct (seal_cipher_Ok m p encrypt i Hp Hi) as (text' & tag' & Hseal' & Hl & Ht & Hh & Hopen).
  rewrite Hseal in Hseal'. injection Hseal' as <- <-. pose proof Hp as ((Hb & Hlp & Hv) & _).
  destruct (word_bits encrypt i Hi) as (Hf & Hidx & Hflag).
  set (word := esrtcp_word encrypt i) in *. exists (text ++ tag ++ be_enc 4 word).
  rewrite Hw, <- !app_assoc. split; [done|]. rewrite !len_app, len_be_enc. split; [lia|].
  assert (byte_of text 0 = byte_of p 0) as H0.
  { assert (sub (sub text 0 8) 0 1 = sub (sub p 0 8) 0 1) as H by by rewrite Hh.
    rewrite !sub_sub in H by lia. rewrite !(sub_byte_of _ 0) in H by lia. by injection H. }
  rewrite byte_of_app_l by lia. split; [done|].
  assert (sub text 4 8 = sub p 4 8) as H48.
  { assert (sub (sub text 0 8) 4 8 = sub (sub p 0 8) 4 8) as H by by rewrite Hh.
    by rewrite !sub_sub in H by lia. }
  destruct (is_replay_correct w R i HR) as (b & Hrep & Hbf).
  unfold open, open_fields, ESRTCP_LEN, GCM_TAG_LEN. rewrite !len_app, len_be_enc, Hl, Ht.
  rewrite usub_Ok, bind_Ok by lia.
  assert (be32_at (text ++ tag ++ be_enc 4 word) (len p + (16 + Z.of_nat 4) - 4) = (Ok word : res SrtpError Z)) as ->.
  { rewrite app_assoc. rewrite <- (app_nil_r (be_enc 4 word)). apply be32_at_app; [rewrite len_app; lia|done]. }
  rewrite bind_Ok. fold word. rewrite Hidx, Hflag, Hrep, bind_Ok.
  destruct (freshb R i) eqn:Hfr.
  2: { destruct b; [done|]. by rewrite (proj2 (freshb_spec R i) (proj1 Hbf eq_refl)) in Hfr. }
  apply freshb_spec in Hfr. rewrite (proj2 Hbf Hfr).
  rewrite usub_Ok, bind_Ok, !slice_Ok, bind_Ok, be32_at_sub, !bind_Ok by (rewrite ?len_app, ?len_be_enc; lia).
  unfold mret, res_ret. change (4 + 4) with 8.
  rewrite (sub_app_mid text tag) by lia. rewrite (sub_app_begin text) by lia.
  rewrite (sub_app_l text _ 4 8) by lia. rewrite H48, Hopen.
  destruct (record_correct _ _ _ HR Hfr) as (w' & -> & Hw' & _). by exists w'.
Qed.

(** ** The receiver's specification

    A ring of master keys, oldest first, each with the set of indices received
    under it.  Rekeying keeps the set of a key that stays; a packet is taken when
    its key is held and its index is fresh there. *)

Abbreviation ring := (list (FloorMasterKey * gset Z)).

Definition ring_entry (r : ring) (m : FloorMasterKey) : FloorMasterKey * gset Z :=
  (m, default ∅ (snd <$> (snd <$> list_find (fun e : FloorMasterKey * gset Z => e.1 = m) r))).

Definition spec_rekey (r : ring) (keys : list FloorMasterKey) : res SrtpError unit * ring :=
  let kept := drop (length keys - 2) keys in
  if decide (kept = []) then (Err NoKeys, r) else
  if decide (NoDup (fm_mki <$> kept)) then (Ok tt, ring_entry r <$> kept) else (Err DuplicateMki, r).

Definition spec_deliver (r : ring) (x : Sealed) : res SrtpError unit * ring * bytes :=
  match list_find (fun e : FloorMasterKey * gset Z => e.1 = sl_master x) r with
  | None => (Err UnknownMki, r, [])
  | Some (k, (m, R)) =>
      if freshb R (sl_index x) then (Ok tt, <[k := (m, {[ sl_index x ]} ∪ R)]> r, sl_packet x)
      else (Err Replayed, r, [])
  end.

(** Taking over from a checkpoint: the window's worth of indices up to the
    checkpointed one counts as received, and anything older is never fresh. *)
Definition spec_resume (r : ring) (mki index : Z) : ring :=
  match list_find (fun e : FloorMasterKey * gset Z => fm_mki e.1 = mki) r with
  | None => r
  | Some (k, (m, R)) => <[k := (m, list_to_set (seqZ (index - 63) 64))]> r
  end.

Inductive recv_op : Type :=
| Rekey (keys : list FloorMasterKey)
| Resume (mki index : Z)
| Deliver (x : Sealed).

Definition recv_step (c : SrtcpGcmContext) (o : recv_op) : res SrtpError unit * SrtcpGcmContext * bytes :=
  match o with
  | Rekey keys => (replace_keys c keys, [])
  | Resume mki index => (Ok tt, resume_received c mki index, [])
  | Deliver x => gcm_unprotect c (sl_wire x) []
  end.

Definition spec_step (r : ring) (o : recv_op) : res SrtpError unit * ring * bytes :=
  match o with
  | Rekey keys => (spec_rekey r keys, [])
  | Resume mki index => (Ok tt, spec_resume r mki index, [])
  | Deliver x => spec_deliver r x
  end.

Fixpoint run_ops {S O} (step : S -> O -> res SrtpError unit * S * bytes) (s : S) (ops : list O)
  : list (res SrtpError unit * bytes) * S :=
  match ops with
  | [] => ([], s)
  | o :: ops =>
      let '(r, s, out) := step s o in
      let '(rs, s) := run_ops step s ops in ((r, out) :: rs, s)
  end.

(** Every key in play has an MKI of its own, and every delivered packet was sealed. *)
Definition recv_op_ok (ids : Z -> option FloorMasterKey) (o : recv_op) : Prop :=
  match o with
  | Rekey keys => Forall (fun m => ids (fm_mki m) = Some m) keys
  | Resume _ index => fits 31 index
  | Deliver x => sealed_ok x /\ ids (fm_mki (sl_master x)) = Some (sl_master x)
  end.

Definition entry_rel (ids : Z -> option FloorMasterKey) (e : KeyEntry) (s : FloorMasterKey * gset Z) : Prop :=
  ke_master e = s.1 /\ ke_session e = GcmSession_derive s.1 /\ window_ok (ke_replay e) s.2 /\
  ids (fm_mki s.1) = Some s.1.

Record ring_rel (ids : Z -> option FloorMasterKey) (c : SrtcpGcmContext) (r : ring) : Prop := {
  rr_entries : Forall2 (entry_rel ids) (gc_keys c) r;
  rr_distinct : NoDup r.*1
}.

Lemma is_same_key_spec e m : is_same_key e m = true <-> ke_master e = m.
Proof.
  unfold is_same_key. rewrite !andb_true_iff, !bool_decide_eq_true, Z.eqb_eq.
  destruct (ke_master e), m; cbn. split; [naive_solver|]. intros [=]. by subst.
Qed.

Lemma swap_remove_perm {A} (l : list A) i x : l !! i = Some x -> l ≡ₚ x :: swap_remove l i.
Proof.
  intros Hx. unfold swap_remove. destruct (last l) as [z|] eqn:Hz.
  2: { apply last_None in Hz. by subst. }
  apply last_Some in Hz as [l' ->]. rewrite length_app. cbn [length]. rewrite Nat.add_1_r. cbn [pred].
  rewrite lookup_app in Hx. destruct (l' !! i) as [y|] eqn:Hy.
  - injection Hx as ->. rewrite insert_app_l by (eapply lookup_lt_Some; eauto).
    rewrite take_app_length' by (by rewrite length_insert).
    rewrite <- (take_drop_middle l' i x Hy) at 1. rewrite (insert_take_drop l' i z) by (eapply lookup_lt_Some; eauto).
    solve_Permutation.
  - apply lookup_ge_None in Hy. rewrite insert_app_r_alt by done.
    apply list_lookup_singleton_Some in Hx as [Hi ->]. rewrite Hi. cbn.
    rewrite take_app_length. apply Permutation_app_comm.
Qed.

(** Collecting the kept keys: each is the old entry of that master, or a new one
    when there was none; the order in which entries are taken does not matter. *)
Lemma collect_keys_spec kept : forall old, NoDup kept ->
  Forall2 (fun e m => m ∈ kept /\
      ((e ∈ old /\ ke_master e = m) \/ (m ∉ ke_master <$> old) /\ e = KeyEntry_new m))
    (collect_keys old kept) kept.
Proof.
  induction kept as [|m kept IH]; intros old Hn; cbn [collect_keys]; [constructor|].
  apply NoDup_cons in Hn as [Hm Hn].
  destruct (list_find _ old) as [[i e]|] eqn:Hf.
  - apply list_find_Some in Hf as (Hi & He%is_same_key_spec & _). constructor.
    { split; [left|]. left. split; [by eapply list_elem_of_lookup_2|done]. }
    pose proof (swap_remove_perm old i e Hi) as Hp.
    eapply Forall2_impl; [apply (IH (swap_remove old i) Hn)|]. intros e' m' [Hin H]. split; [by right|].
    destruct H as [[He' Hm']|[Hm' ->]].
    + left. rewrite Hp. split; [by right|done].
    + right. split; [|done]. rewrite Hp. cbn. rewrite elem_of_cons, He. intros [->|]; done.
  - constructor.
    + split; [left|]. right. split; [|done]. apply list_find_None in Hf.
      intros (e & -> & He)%list_elem_of_fmap. rewrite Forall_forall in Hf. by apply (Hf e He), is_same_key_spec.
    + eapply Forall2_impl; [by apply IH|]. intros e' m' [Hin H]. split; [by right|done].
Qed.

Lemma ring_entry_in r m R : NoDup r.*1 -> (m, R) ∈ r -> ring_entry r m = (m, R).
Proof.
  intros Hn [i Hi]%list_elem_of_lookup_1. unfold ring_entry.
  destruct (list_find _ r) as [[j [m' R']]|] eqn:Hf.
  - apply list_find_Some in Hf as (Hj & Hm & _). cbn in Hm. subst m'.
    assert (i = j) as <-.
    { eapply NoDup_lookup; [exact Hn| |]; rewrite list_lookup_fmap, ?Hi, ?Hj; done. }
    rewrite Hi in Hj. by injection Hj as <-.
  - apply list_find_None in Hf. rewrite Forall_forall in Hf.
    by destruct (Hf (m, R) (list_elem_of_lookup_2 _ _ _ Hi)).
Qed.

Lemma ring_entry_fresh r m : m ∉ r.*1 -> ring_entry r m = (m, ∅).
Proof.
  intros Hm. unfold ring_entry. destruct (list_find _ r) as [[j [m' R']]|] eqn:Hf; [|done].
  apply list_find_Some in Hf as (Hj & <- & _). destruct Hm.
  apply list_elem_of_fmap. eexists. split; [|by eapply list_elem_of_lookup_2]. done.
Qed.

Lemma collect_keys_rel ids old r kept :
  Forall2 (entry_rel ids) old r -> NoDup r.*1 -> NoDup kept ->
  Forall (fun m => ids (fm_mki m) = Some m) kept ->
  Forall2 (entry_rel ids) (collect_keys old kept) (ring_entry r <$> kept).
Proof.
  intros Hr Hn Hk Hids. apply Forall2_fmap_r.
  eapply Forall2_impl; [by apply collect_keys_spec|]. intros e m [Hin H]. cbn [compose]. rewrite Forall_forall in Hids.
  destruct H as [[He Hm]|[Hm ->]].
  - apply list_elem_of_lookup_1 in He as [i Hi]. destruct (Forall2_lookup_l _ _ _ _ _ Hr Hi) as ([m' R] & Hs & He).
    pose proof He as (Hmm & _). cbn in Hmm. rewrite Hm in Hmm. subst m'.
    rewrite (ring_entry_in r m R) by (try eapply list_elem_of_lookup_2; done). done.
  - rewrite ring_entry_fresh; [repeat split; by apply Hids|].
    intros (s & -> & Hs)%list_elem_of_fmap. apply Hm. apply list_elem_of_lookup_1 in Hs as [i Hi].
    destruct (Forall2_lookup_r _ _ _ _ _ Hr Hi) as (e & He & (He1 & _)). rewrite <- He1.
    apply list_elem_of_fmap. exists e. split; [done|by eapply list_elem_of_lookup_2].
Qed.

(** Two lists related pointwise, searched for related properties. *)
Lemma list_find_rel {A B} (R : A -> B -> Prop) (P : A -> Prop) (Q : B -> Prop)
    `{!forall a, Decision (P a)} `{!forall b, Decision (Q b)} l k :
  Forall2 R l k -> (forall a b, R a b -> P a <-> Q b) ->
  match list_find P l, list_find Q k with
  | Some (i, a), Some (j, b) => i = j /\ l !! i = Some a /\ k !! i = Some b /\ R a b /\ Q b
  | None, None => True
  | _, _ => False
  end.
Proof.
  intros HR Hpq. induction HR as [|a b l k Hab HR IH]; [done|]. cbn [list_find].
  specialize (Hpq a b Hab) as Hq. repeat case_decide; [naive_solver..|].
  destruct (list_find P l) as [[i x]|], (list_find Q k) as [[j y]|]; cbn; naive_solver.
Qed.

Lemma NoDup_masters_of_mkis ids kept :
  Forall (fun m => ids (fm_mki m) = Some m) kept -> NoDup kept -> NoDup (fm_mki <$> kept).
Proof.
  intros Hids. induction 1 as [|m kept Hm Hn IH]; [constructor|].
  apply Forall_cons_1 in Hids as [H Hids]. cbn. constructor; [|by apply IH].
  intros (m' & Heq & Hin)%list_elem_of_fmap. rewrite Forall_forall in Hids. specialize (Hids m' Hin).
  rewrite <- Heq, H in Hids. injection Hids as ->. done.
Qed.

Lemma kept_keys_drop keys : kept_keys keys = drop (length keys - 2) keys.
Proof. unfold kept_keys, saturating_sub, MAX_KEYS, len. f_equal. lia. Qed.

Lemma rekey_refines ids c r keys :
  ring_rel ids c r -> Forall (fun m => ids (fm_mki m) = Some m) keys ->
  (replace_keys c keys).1 = (spec_rekey r keys).1 /\ ring_rel ids (replace_keys c keys).2 (spec_rekey r keys).2.
Proof.
  intros [Hr Hn] Hids. unfold replace_keys, spec_rekey. rewrite kept_keys_drop.
  assert (Forall (fun m => ids (fm_mki m) = Some m) (drop (length keys - 2) keys)) as Hk by by apply Forall_drop.
  assert (length (drop (length keys - 2) keys) <= 2)%nat as Hl by (rewrite length_drop; lia).
  set (kept := drop _ keys) in *. clearbody kept. clear Hids.
  assert (forall ks, ks = kept -> NoDup (fm_mki <$> ks) ->
    ring_rel ids (set_keys c (collect_keys (gc_keys c) ks)) (ring_entry r <$> ks)) as Hgood.
  { intros ks -> Hnd. apply NoDup_fmap_1 in Hnd. split.
    - by apply collect_keys_rel.
    - rewrite <- list_fmap_compose. by rewrite (list_fmap_ext _ id), list_fmap_id. }
  destruct kept as [|a [|b [|]]]; cbn [length] in Hl; [done| | |lia].
  - rewrite decide_False, decide_True by (done || apply NoDup_singleton). split; [done|].
    apply Hgood; [done|]. apply NoDup_singleton.
  - rewrite decide_False by done. case (Z.eqb_spec (fm_mki a) (fm_mki b)) as [He|He].
    + rewrite decide_False; [done|]. cbn. rewrite He. intros [H _]%NoDup_cons. apply H. left.
    + assert (NoDup (fm_mki <$> [a; b])) as Hnd.
      { cbn. apply NoDup_cons. split; [|apply NoDup_singleton]. by rewrite list_elem_of_singleton. }
      rewrite decide_True by done. split; [done|]. by apply Hgood.
Qed.

(** Replacing the window of the entry at [k] and the set of the ring there. *)
Lemma ring_rel_update ids c r k e m R R' w :
  ring_rel ids c r -> gc_keys c !! k = Some e -> r !! k = Some (m, R) -> window_ok w R' ->
  ring_rel ids (set_keys c (<[k := set_replay e w]> (gc_keys c))) (<[k := (m, R')]> r).
Proof.
  intros [Hr Hn] He Hm Hw. destruct (Forall2_lookup_lr _ _ _ _ _ _ Hr He Hm) as (H1 & H2 & _ & H4).
  split; cbn [set_keys gc_keys].
  - apply Forall2_insert; [done|]. by repeat split.
  - rewrite list_fmap_insert. cbn. rewrite list_insert_id; [done|]. rewrite list_lookup_fmap, Hm. done.
Qed.

Lemma close_at_window w index :
  window_ok (ReplayWindow_close_at w index) (list_to_set (seqZ (index - 63) 64)).
Proof.
  unfold window_ok, ReplayWindow_close_at. cbn [rw_seen rw_mask rw_top]. split; [lia|].
  setoid_rewrite elem_of_list_to_set. setoid_rewrite elem_of_seqZ. split; [lia|]. split; [lia|].
  intros j Hj. change (2 ^ 64 - 1) with (Z.ones 64). rewrite Z.ones_spec_low by lia. lia.
Qed.

Lemma resume_refines ids c r mki index :
  ring_rel ids c r -> fits 31 index -> ring_rel ids (resume_received c mki index) (spec_resume r mki index).
Proof.
  intros Hrel Hi. unfold resume_received, spec_resume. change INDEX_MASK with (Z.ones 31).
  unfold fits in Hi. rewrite Z.land_ones, Z.mod_small by lia.
  pose proof (list_find_rel (entry_rel ids) (holds_mki mki)
    (fun e : FloorMasterKey * gset Z => fm_mki e.1 = mki) _ _ (rr_entries _ _ _ Hrel)) as H.
  destruct (list_find (holds_mki mki) _) as [[i e]|], (list_find _ r) as [[j [m R]]|].
  - destruct H as (<- & He & Hm & _). { intros a b (Hab & _). unfold holds_mki. by rewrite Hab. }
    eapply ring_rel_update; [done|done|done|apply close_at_window].
  - destruct H. intros a b (Hab & _). unfold holds_mki. by rewrite Hab.
  - destruct H. intros a b (Hab & _). unfold holds_mki. by rewrite Hab.
  - done.
Qed.

Lemma len_sealed x : sealed_ok x -> len (sl_wire x) = len (sl_packet x) + 24.
Proof.
  intros Hx. destruct (open_sealed x ReplayWindow_default ∅ [] Hx eq_refl) as (body & -> & Hl & _).
  rewrite len_app, len_be_enc, Hl. lia.
Qed.

Lemma deliver_refines ids c r x :
  ring_rel ids c r -> sealed_ok x -> ids (fm_mki (sl_master x)) = Some (sl_master x) ->
  (gcm_unprotect c (sl_wire x) []).1.1 = (spec_deliver r x).1.1 /\
  (gcm_unprotect c (sl_wire x) []).2 = (spec_deliver r x).2 /\
  ring_rel ids (gcm_unprotect c (sl_wire x) []).1.2 (spec_deliver r x).1.2.
Proof.
  intros Hrel Hx Hid. pose proof Hx as [Hm Hi ((Hb & Hlp & Hv) & _) _].
  pose proof (len_sealed x Hx) as Hlw. unfold gcm_unprotect, spec_deliver, MIN_PACKET_LEN.
  change (CLEAR_HEADER_LEN + GCM_TAG_LEN + ESRTCP_LEN + MKI_LEN) with 32.
  rewrite Hlw, (proj2 (Z.ltb_ge _ _)) by lia.
  destruct (open_sealed x ReplayWindow_default ∅ [] Hx eq_refl) as (body & Hw & Hl & H0 & _).
  rewrite Hw in Hlw |- *. rewrite idx_app_l, idx_byte_of, bind_Ok, H0, Hv by lia. cbn [negb Z.eqb Pos.eqb].
  unfold MKI_LEN. rewrite usub_Ok, bind_Ok, !slice_Ok, !bind_Ok by lia.
  rewrite sub_app_begin, sub_app_end by (rewrite ?len_app, ?len_be_enc in *; lia).
  assert (be32_at (be_enc 4 (fm_mki (sl_master x))) 0 = (Ok (fm_mki (sl_master x)) : res SrtpError Z)) as ->.
  { rewrite <- (app_nil_l (be_enc 4 _)), <- (app_nil_r (be_enc 4 _)). by apply be32_at_app. }
  rewrite bind_Ok. unfold mret, res_ret.
  pose proof (list_find_rel (entry_rel ids) (holds_mki (fm_mki (sl_master x)))
    (fun e : FloorMasterKey * gset Z => e.1 = sl_master x) _ _ (rr_entries _ _ _ Hrel)) as H.
  assert (forall a b, entry_rel ids a b -> holds_mki (fm_mki (sl_master x)) a <-> b.1 = sl_master x) as Hiff.
  { intros a b (Hab & _ & _ & Hb'). unfold holds_mki. rewrite Hab. split; [|by intros ->].
    intros Heq. rewrite Heq, Hid in Hb'. by injection Hb'. }
  specialize (H Hiff).
  destruct (list_find (holds_mki _) _) as [[i e]|], (list_find _ r) as [[j [m R]]|]; [|done..].
  destruct H as (<- & He & Hr & (H1 & H2 & H3 & H4) & Hq). cbn [fst snd] in H1, H2, H3, Hq. subst m. rewrite Hq in *. clear H4 Hq.
  destruct (open_sealed x (ke_replay e) R [] Hx H3) as (body' & Hw' & Hl' & _ & Hopen).
  rewrite Hw in Hw'. apply app_inj_1 in Hw' as [<- _]; [|unfold len in *; lia].
  rewrite H2. destruct (freshb R (sl_index x)).
  - destruct Hopen as (w' & -> & Hw'). repeat split; by eapply ring_rel_update.
  - rewrite Hopen. cbn [fst snd]. split; [done|]. split; [done|].
    replace r with (<[i := (sl_master x, R)]> r) by (by apply list_insert_id). by eapply ring_rel_update.
Qed.

(** ** The sender *)

Inductive send_op : Type :=
| SendRekey (keys : list FloorMasterKey)
| Reseed (index : Z)
| Protect (packet : bytes) (encrypt : bool).

(** One operation of the sender, with what it sealed. *)
Definition send_step (c : SrtcpGcmContext) (o : send_op) : SrtcpGcmContext * list Sealed :=
  match o with
  | SendRekey keys => ((replace_keys c keys).2, [])
  | Reseed index => (set_send_index c index, [])
  | Protect packet encrypt =>
      match gcm_protect c packet encrypt [], last (gc_keys c) with
      | (Ok _, c', wire), Some e => (c', [mkSealed (ke_master e) (gc_send_index c) encrypt packet wire])
      | (_, c', _), _ => (c', [])
      end
  end.

Fixpoint send_run (c : SrtcpGcmContext) (ops : list send_op) : list Sealed :=
  match ops with
  | [] => []
  | o :: ops => (send_step c o).2 ++ send_run (send_step c o).1 ops
  end.

(** A reseed never goes back, and does not revive a context that used its last
    index; packets and keys are of the sizes the profile has. *)
Fixpoint send_ops_ok (c : SrtcpGcmContext) (ops : list send_op) : Prop :=
  match ops with
  | [] => True
  | o :: ops =>
      match o with
      | SendRekey keys => Forall (fun m => fits 32 (fm_mki m)) keys
      | Reseed index => gc_exhausted c = false /\ gc_send_index c <= index <= LAST_INDEX
      | Protect packet _ => gcm_packet_ok packet
      end /\ send_ops_ok (send_step c o).1 ops
  end.

Record sender_ok (c : SrtcpGcmContext) : Prop := {
  sk_keys : Forall (fun e => ke_session e = GcmSession_derive (ke_master e) /\ fits 32 (fm_mki (ke_master e))) (gc_keys c);
  sk_index : fits 31 (gc_send_index c);
  sk_last : gc_exhausted c = true -> gc_send_index c = LAST_INDEX
}.

(** The first index the context may still use. *)
Definition next_index (c : SrtcpGcmContext) : Z := gc_send_index c + b2z (gc_exhausted c).

Lemma collect_keys_ok kept : forall old,
  Forall (fun e => ke_session e = GcmSession_derive (ke_master e) /\ fits 32 (fm_mki (ke_master e))) old ->
  Forall (fun m => fits 32 (fm_mki m)) kept ->
  Forall (fun e => ke_session e = GcmSession_derive (ke_master e) /\ fits 32 (fm_mki (ke_master e))) (collect_keys old kept).
Proof.
  induction kept as [|m kept IH]; intros old Ho Hk; cbn [collect_keys]; [constructor|].
  apply Forall_cons_1 in Hk as [Hm Hk]. destruct (list_find _ old) as [[i e]|] eqn:Hf.
  - apply list_find_Some in Hf as (Hi & _). pose proof (swap_remove_perm old i e Hi) as Hp.
    rewrite Hp in Ho. apply Forall_cons_1 in Ho as [He Ho]. constructor; [done|by apply IH].
  - constructor; [done|by apply IH].
Qed.

Lemma replace_keys_ok c keys : sender_ok c -> Forall (fun m => fits 32 (fm_mki m)) keys ->
  sender_ok (replace_keys c keys).2 /\ next_index (replace_keys c keys).2 = next_index c.
Proof.
  intros Hc Hk. assert (sender_ok (set_keys c (collect_keys (gc_keys c) (kept_keys keys)))) as Hgood.
  { destruct Hc. split; cbn [set_keys gc_keys gc_send_index gc_exhausted]; [|done..].
    apply collect_keys_ok; [done|by apply Forall_drop]. }
  unfold replace_keys. destruct (kept_keys keys) as [|a [|b [|]]]; [done..| |done].
  by destruct (_ =? _).
Qed.

Lemma advance_ok c : sender_ok c -> gc_exhausted c = false ->
  sender_ok (advance c) /\ next_index (advance c) = gc_send_index c + 1.
Proof.
  intros [Hk Hi Hx] Hne. unfold advance, next_index, fits, LAST_INDEX, INDEX_MASK in *.
  destruct (Z.eqb_spec (gc_send_index c) 2147483647) as [He|He]; cbn.
  - split; [|lia]. by split.
  - rewrite Hne. split; [|cbn; lia]. split; cbn; [done|unfold fits; lia|congruence].
Qed.

Lemma send_step_ok c o ops : sender_ok c -> send_ops_ok c (o :: ops) ->
  sender_ok (send_step c o).1 /\ next_index c <= next_index (send_step c o).1 /\
  Forall (fun x => sealed_ok x /\ next_index c <= sl_index x < next_index (send_step c o).1) (send_step c o).2 /\
  (length (send_step c o).2 <= 1)%nat.
Proof.
  intros Hc [Ho _]. destruct o as [keys|index|p encrypt]; cbn [send_step fst snd].
  - destruct (replace_keys_ok c keys Hc Ho) as [? ->]. split_and!; [done|lia|constructor|cbn; lia].
  - destruct Ho as [Hne Ho]. destruct Hc as [Hk Hi Hx]. unfold set_send_index, next_index, LAST_INDEX, fits in *.
    change INDEX_MASK with (Z.ones 31) in *. rewrite Z.land_ones by lia. change (Z.ones 31) with (2 ^ 31 - 1) in Ho.
    rewrite Z.mod_small by lia. rewrite Hne. split_and!; [|cbn; lia|constructor|cbn; lia].
    split; cbn; [done|unfold fits; lia|done].
  - destruct (gc_exhausted c) eqn:Hx.
    + assert (exists e out, gcm_protect c p encrypt [] = (Err e, c, out)) as (e & out & ->).
      { destruct Ho as ((_ & Hl & _) & _). unfold gcm_protect. destruct (len p <? CLEAR_HEADER_LEN); [eauto|].
        rewrite idx_byte_of by lia. destruct (negb _); [eauto|]. rewrite Hx. eauto. }
      cbn. split_and!; [done|lia|constructor|lia].
    + destruct (last (gc_keys c)) as [e|] eqn:Hl.
      * pose proof Hc as [Hk Hi Hxl]. rewrite Forall_forall in Hk.
        assert (e ∈ gc_keys c) as He by (apply last_Some in Hl as [l' ->]; apply elem_of_app; right; by left).
        destruct (Hk e He) as [Hs Hm].
        destruct (gcm_protect_sealed c e p encrypt [] Hl Hs Hm Ho Hi Hx) as (wire & -> & Hsealed).
        cbn [fst snd length]. destruct (advance_ok c Hc Hx) as [Hadv ->].
        unfold next_index. rewrite Hx. cbn [b2z]. split_and!; [done|lia| |lia].
        apply Forall_singleton. cbn [sl_index]. split; [done|lia].
      * assert (exists r out, gcm_protect c p encrypt [] = (r, c, out)) as (r & out & ->).
        { unfold gcm_protect. rewrite Hl. repeat case_match; eauto. }
        destruct r; cbn; (split_and!; [done|lia|constructor|lia]).
Qed.

(** The packets of a run: sealed as announced, with strictly rising indices. *)
Lemma send_run_rising ops : forall c, sender_ok c -> send_ops_ok c ops ->
  Forall (fun x => sealed_ok x /\ next_index c <= sl_index x) (send_run c ops) /\
  StronglySorted Z.lt (sl_index <$> send_run c ops).
Proof.
  induction ops as [|o ops IH]; intros c Hc Hops; cbn [send_run]; [split; constructor|].
  destruct (send_step_ok c o ops Hc Hops) as (Hc' & Hle & Hstep & Hlen). destruct Hops as [_ Hops].
  destruct (IH _ Hc' Hops) as [Hall Hsort]. rewrite fmap_app. split.
  - apply Forall_app. split.
    + eapply Forall_impl; [exact Hstep|]. intros x (? & ? & _). by split.
    + eapply Forall_impl; [exact Hall|]. intros x (? & ?). split; [done|lia].
  - destruct (send_step c o).2 as [|x [|]]; cbn [length] in Hlen; [done| |lia].
    apply Forall_singleton in Hstep as (_ & Hx). cbn. constructor; [done|].
    apply Forall_fmap. eapply Forall_impl; [exact Hall|]. intros y (_ & ?). cbn. lia.
Qed.

Definition session_iv (x : Sealed) : bytes * bytes * bytes :=
  let s := GcmSession_derive (sl_master x) in
  (gs_cipher s, gs_salt s, gcm_iv s (be_dec (sub (sl_packet x) 4 8)) (sl_index x)).

(** ** Theorems *)

(** C21. A sender never uses an initialisation vector twice: over any run of
    protecting packets of any SSRC, replacing keys and forward reseeds, no two
    sealed packets share session key, salt and IV, because the index rises
    across rekeys too; and each wire image is the packet sealed under the key
    that was current, which a receiver holding that key opens. *)
Theorem gcm_iv_never_reused c ops :
  sender_ok c -> send_ops_ok c ops ->
  Forall sealed_ok (send_run c ops) /\ NoDup (session_iv <$> send_run c ops).
Proof.
  intros Hc Hops. destruct (send_run_rising ops c Hc Hops) as [Hall Hsort]. split.
  { eapply Forall_impl; [exact Hall|]. by intros x []. }
  assert (forall l, Forall (fun x => sealed_ok x /\ next_index c <= sl_index x) l ->
    StronglySorted Z.lt (sl_index <$> l) -> NoDup (session_iv <$> l)) as Hgen; [|by apply Hgen].
  intros l. induction l as [|x l IH]; intros Hl Hs; [constructor|].
  apply Forall_cons_1 in Hl as [[Hx _] Hl]. rewrite fmap_cons in Hs. apply StronglySorted_inv in Hs as [Hs Hx'].
  cbn. constructor; [|by apply IH]. intros (y & Heq & Hy)%list_elem_of_fmap.
  rewrite Forall_forall in Hx'. specialize (Hx' (sl_index y) (list_elem_of_fmap_2 _ _ _ Hy)).
  rewrite Forall_forall in Hl. destruct (Hl y Hy) as [Hoy _].
  unfold session_iv in Heq. injection Heq as _ Hsalt Hiv.
  enough (sl_index x = sl_index y) by lia.
  assert (gcm_iv (GcmSession_derive (sl_master x)) (be_dec (sub (sl_packet y) 4 8)) (sl_index y) =
    gcm_iv (GcmSession_derive (sl_master y)) (be_dec (sub (sl_packet y) 4 8)) (sl_index y)) as Hsame.
  { unfold gcm_iv, GcmSession_derive, GcmSession_from_session_keys. cbn [gs_salt]. by rewrite Hsalt. }
  rewrite <- Hsame in Hiv. eapply gcm_iv_inj; [|apply Hx|apply Hoy|exact Hiv].
  unfold GcmSession_derive, GcmSession_from_session_keys. cbn [gs_salt]. apply length_derive.
Qed.

End gcm_lemmas.

(** ** Running the model *)

(** A toy cipher of the right sizes. *)
Definition toy_gcm_tag (key nonce aad buffer : bytes) : bytes :=
  replicate 16 (foldr (fun a b => (a + 3 * b) mod 256) 7 (key ++ nonce ++ aad ++ buffer)).

#[export] Instance toy_gcm : GcmCrypto := {|
  gcm_encrypt key nonce aad buffer := Some ((fun b => Z.lxor b 0x5A) <$> buffer, toy_gcm_tag key nonce aad buffer);
  gcm_decrypt key nonce aad buffer tag :=
    let plain := (fun b => Z.lxor b 0x5A) <$> buffer in
    if bool_decide (tag = toy_gcm_tag key nonce aad plain) then Some plain else None
|}.

#[export] Instance toy_gcm_laws : GcmLaws toy_gcm.
Proof.
  split. intros key nonce aad buffer _ _ _ _. eexists _, _. split; [reflexivity|]. cbn [gcm_decrypt toy_gcm].
  split; [unfold len; by rewrite length_fmap|]. split; [done|].
  rewrite <- list_fmap_compose, (list_fmap_ext _ id), list_fmap_id.
  - by rewrite bool_decide_eq_true_2.
  - intros i x _. cbn. apply lxor_cancel.
Qed.

Definition key_a : FloorMasterKey := mkFloorMasterKey 1 (replicate 16 0x11) (replicate 14 0x22).
Definition key_b : FloorMasterKey := mkFloorMasterKey 2 (replicate 16 0x33) (replicate 14 0x44).
Definition key_c : FloorMasterKey := mkFloorMasterKey 3 (replicate 16 0x55) (replicate 14 0x66).
Definition report (ssrc : Z) : bytes := [0x80; 201; 0; 2; 0; 0; 0; ssrc; 1; 2; 3; 4].

Definition fresh_context (keys : list FloorMasterKey) : SrtcpGcmContext :=
  match SrtcpGcmContext_new keys with Ok c => c | _ => mkSrtcpGcmContext [] 0 false end.

Definition example_ops : list send_op :=
  [Protect (report 9) true; SendRekey [key_a; key_b]; Protect (report 9) false; Reseed 7; Protect (report 8) true].

Lemma report_ok : gcm_packet_ok (report 9) /\ gcm_packet_ok (report 8).
Proof.
  split; (split; [split; [unfold report; repeat constructor; lia|split; [vm_compute; congruence|reflexivity]]|vm_compute; congruence]).
Qed.

Lemma example_sender_ok : sender_ok (fresh_context [key_a]) /\ send_ops_ok (fresh_context [key_a]) example_ops.
Proof.
  destruct report_ok as [H9 H8]. split.
  - split; [repeat constructor; vm_compute; congruence|vm_compute; split; congruence|done].
  - split; [exact H9|]. split; [repeat constructor; vm_compute; congruence|]. split; [exact H9|].
    split; [vm_compute; split_and!; congruence|]. split; [exact H8|done].
Qed.

Lemma gcm_iv_never_reused_witness : NoDup (session_iv <$> send_run (fresh_context [key_a]) example_ops).
Proof. apply (gcm_iv_never_reused (fresh_context [key_a]) example_ops); apply example_sender_ok. Defined.

Definition key_named (mki : Z) : option FloorMasterKey :=
  if mki =? 1 then Some key_a else if mki =? 2 then Some key_b else if mki =? 3 then Some key_c else None.

(** Three packets, sent across a rekey, reach a receiver that rekeys between
    them: the repetition is refused, also after its key was kept by a rekey. *)
Definition nth_sent (n : nat) : Sealed :=
  nth n (send_run (fresh_context [key_a]) example_ops) (mkSealed key_a 0 true [] []).
Definition example_deliveries : list recv_op :=
  [Deliver (nth_sent 0); Deliver (nth_sent 1); Rekey [key_a; key_b]; Deliver (nth_sent 2); Deliver (nth_sent 1);
   Deliver (nth_sent 0); Rekey [key_b; key_c]; Deliver (nth_sent 1); Deliver (nth_sent 0)].

Lemma nth_sent_ok n : (n < 3)%nat -> sealed_ok (nth_sent n).
Proof.
  intros Hn. destruct example_sender_ok as [Hc Hops].
  destruct (send_run_rising example_ops _ Hc Hops) as [Hall _]. rewrite Forall_forall in Hall.
  apply Hall, list_elem_of_In, nth_In. exact Hn.
Qed.


(** After its last index was used the context still names that index as the next
    one; a standby resumed from it seals a second packet under the same IV. *)
Example checkpoint_after_exhaustion_reuses_iv :
  let last_one := set_send_index (fresh_context [key_a]) LAST_INDEX in
  let '(_, primary, wire) := gcm_protect last_one (report 9) true [] in
  let standby := set_send_index (fresh_context [key_a]) (send_index primary) in
  let '(r, _, wire') := gcm_protect standby (report 9) true [] in
  gc_exhausted primary = true /\ r = Ok tt /\ wire' = wire.
Proof. vm_compute. done. Qed.

(** Replacing every key does not lift the exhaustion. *)
Example rekey_keeps_exhaustion :
  let '(_, used, _) := gcm_protect (set_send_index (fresh_context [key_a]) LAST_INDEX) (report 9) true [] in
  let rekeyed := (replace_keys used [key_b]).2 in
  (gcm_protect rekeyed (report 9) true []).1.1 = Err IndexExhausted.
Proof. reflexivity. Qed.
