(* ===== verification/Jitter.v ===== *)
(** * Jitter buffer: crates/siphon-rtp-media/src/jitter.rs

    The sequence-driven jitter buffer, keyed by 16-bit sequence number.  The
    specification follows the cursor as an unbounded extended sequence number
    [E] whose low 16 bits are [next_out]: wrap-around then disappears from the
    statements.  [enforce_cap] loops; its fuel is 2^16 turns and the invariant
    (every buffered key is less than 2^15 ahead of the cursor) shows at most
    2^15 + 1 are used.  The [u64] counters are unbounded integers here. *)

From S2P Require Import Prelude.
From stdpp Require Import base list numbers option gmap fin_maps.
From Stdlib Require Import Lia ZArith Sorted.

Open Scope Z_scope.

Inductive JitterOutput : Type :=
| JPacket (payload : bytes)
| JConceal
| JStarved.

Inductive PushResult : Type := Accepted | Duplicate | Late.

Record JitterStats : Type := mkJitterStats { js_duplicates : Z; js_lates : Z; js_losses : Z }.

Record JitterBuffer : Type := mkJitterBuffer {
  jb_target_depth : Z;
  jb_max_depth : Z;
  jb_buffer : gmap Z bytes;
  jb_next_out : option Z;
  jb_primed : bool;
  jb_stats : JitterStats
}.

Definition JitterBuffer_new (target_depth max_depth : Z) : JitterBuffer :=
  let target_depth := Z.max target_depth 1 in
  mkJitterBuffer target_depth (Z.max max_depth target_depth) ∅ None false (mkJitterStats 0 0 0).

Definition stats (jb : JitterBuffer) : JitterStats := jb_stats jb.
Definition buffered (jb : JitterBuffer) : Z := Z.of_nat (size (jb_buffer jb)).

(** Field updates. *)
Definition set_slots (jb : JitterBuffer) (buffer : gmap Z bytes) (next_out : option Z) : JitterBuffer :=
  mkJitterBuffer (jb_target_depth jb) (jb_max_depth jb) buffer next_out (jb_primed jb) (jb_stats jb).
Definition set_primed (jb : JitterBuffer) (primed : bool) : JitterBuffer :=
  mkJitterBuffer (jb_target_depth jb) (jb_max_depth jb) (jb_buffer jb) (jb_next_out jb) primed (jb_stats jb).
Definition add_stats (jb : JitterBuffer) (duplicates lates losses : Z) : JitterBuffer :=
  mkJitterBuffer (jb_target_depth jb) (jb_max_depth jb) (jb_buffer jb) (jb_next_out jb) (jb_primed jb)
    (mkJitterStats (js_duplicates (jb_stats jb) + duplicates) (js_lates (jb_stats jb) + lates)
       (js_losses (jb_stats jb) + losses)).

Fixpoint enforce_cap_loop (fuel : nat) (jb : JitterBuffer) : res unit JitterBuffer :=
  match fuel with
  | O => Panic
  | S fuel =>
      if jb_max_depth jb <? buffered jb then
        match jb_next_out jb with
        | Some base =>
            enforce_cap_loop fuel (add_stats (set_slots jb (delete base (jb_buffer jb))
              (Some (wrapping_add 16 base 1))) 0 0 1)
        | None => mret jb
        end
      else mret jb
  end.

Definition enforce_cap (jb : JitterBuffer) : res unit JitterBuffer :=
  enforce_cap_loop (Z.to_nat 65536) jb.

Definition JitterBuffer_push (jb : JitterBuffer) (sequence : Z) (payload : bytes)
  : res unit (PushResult * JitterBuffer) :=
  match jb_next_out jb with
  | None =>
      mret (Accepted, set_slots jb (<[sequence := payload]> (jb_buffer jb)) (Some sequence))
  | Some base =>
      let distance := wrapping_sub 16 sequence base in
      if 0x8000 <=? distance then mret (Late, add_stats jb 0 1 0) else
      if bool_decide (is_Some (jb_buffer jb !! sequence)) then mret (Duplicate, add_stats jb 1 0 0) else
      jb ← enforce_cap (set_slots jb (<[sequence := payload]> (jb_buffer jb)) (jb_next_out jb));
      mret (Accepted, jb)
  end.

Definition JitterBuffer_pop (jb : JitterBuffer) : JitterOutput * JitterBuffer :=
  match jb_next_out jb with
  | None => (JStarved, jb)
  | Some base =>
      if negb (jb_primed jb) && negb (jb_target_depth jb <=? buffered jb) then (JStarved, jb) else
      let jb := if negb (jb_primed jb) then set_primed jb true else jb in
      match jb_buffer jb !! base with
      | Some payload =>
          (JPacket payload, set_slots jb (delete base (jb_buffer jb)) (Some (wrapping_add 16 base 1)))
      | None =>
          if bool_decide (jb_buffer jb = ∅) then (JStarved, set_primed jb false) else
          (JConceal, add_stats (set_slots jb (jb_buffer jb) (Some (wrapping_add 16 base 1))) 0 0 1)
      end
  end.

(** ** The invariant, over the extended cursor *)

Record cursor_inv (jb : JitterBuffer) (E : Z) : Prop := {
  ci_next : jb_next_out jb = Some (E mod 2 ^ 16);
  ci_keys : forall k, is_Some (jb_buffer jb !! k) -> fits 16 k /\ (k - E) mod 2 ^ 16 < 0x8000;
  ci_depth : 1 <= jb_target_depth jb <= jb_max_depth jb
}.

(** The slot of extended sequence number [e]. *)
Definition slot (jb : JitterBuffer) (e : Z) : option bytes := jb_buffer jb !! (e mod 2 ^ 16).

Lemma wrap_succ E : wrapping_add 16 (E mod 2 ^ 16) 1 = (E + 1) mod 2 ^ 16.
Proof. unfold wrapping_add, wrap. by rewrite Zplus_mod_idemp_l. Qed.

Lemma key_slot E k : fits 16 k -> k = (E + (k - E) mod 2 ^ 16) mod 2 ^ 16.
Proof.
  intros Hk. unfold fits in Hk. rewrite Zplus_mod_idemp_r.
  replace (E + (k - E)) with k by lia. by rewrite Z.mod_small by lia.
Qed.

Lemma mod_distinct E e e' : E <= e < E + 2 ^ 16 -> E <= e' < E + 2 ^ 16 ->
  e mod 2 ^ 16 = e' mod 2 ^ 16 -> e = e'.
Proof.
  intros He He' Hm. pose proof (Z.div_mod e (2 ^ 16)). pose proof (Z.div_mod e' (2 ^ 16)).
  assert (e / 2 ^ 16 = e' / 2 ^ 16 \/ e / 2 ^ 16 + 1 <= e' / 2 ^ 16 \/ e' / 2 ^ 16 + 1 <= e / 2 ^ 16) by lia.
  lia.
Qed.

(** Moving the cursor past one slot, whether or not it was filled. *)
Lemma keys_advance (m : gmap Z bytes) E :
  (forall k, is_Some (m !! k) -> fits 16 k /\ (k - E) mod 2 ^ 16 < 0x8000) ->
  forall k, is_Some (delete (E mod 2 ^ 16) m !! k) -> fits 16 k /\ (k - (E + 1)) mod 2 ^ 16 < 0x8000.
Proof.
  intros Hm k Hk. destruct (decide (k = E mod 2 ^ 16)) as [->|Hne].
  { rewrite lookup_delete_eq in Hk. by destruct Hk. }
  rewrite lookup_delete_ne in Hk by done. destruct (Hm k Hk) as [Hf Hd]. split; [done|].
  pose proof (key_slot E k Hf) as Hks. pose proof (Z.mod_pos_bound (k - E) (2 ^ 16)).
  assert ((k - E) mod 2 ^ 16 <> 0).
  { intros H0. rewrite H0, Z.add_0_r in Hks. done. }
  replace (k - (E + 1)) with (k - E - 1) by lia. rewrite Zminus_mod. change (1 mod 2 ^ 16) with 1.
  rewrite Z.mod_small; lia.
Qed.

Lemma slot_advance (jb : JitterBuffer) E e :
  E < e < E + 2 ^ 16 -> delete (E mod 2 ^ 16) (jb_buffer jb) !! (e mod 2 ^ 16) = slot jb e.
Proof.
  intros He. unfold slot. rewrite lookup_delete_ne; [done|]. intros Hm.
  apply (mod_distinct E) in Hm; lia.
Qed.

(** [enforce_cap] terminates: it reaches the nearest buffered key. *)
Lemma enforce_cap_spec fuel : forall jb E d,
  cursor_inv jb E -> buffered jb <= jb_max_depth jb + 1 ->
  0 <= d < 0x8000 -> is_Some (slot jb (E + d)) -> (Z.to_nat d + 1 < fuel)%nat ->
  exists jb' n, enforce_cap_loop fuel jb = Ok jb' /\ 0 <= n <= d + 1 /\
    cursor_inv jb' (E + n) /\ buffered jb' <= jb_max_depth jb' /\
    (forall e, E + n <= e < E + 2 ^ 16 -> slot jb' e = slot jb e) /\
    jb_primed jb' = jb_primed jb /\ jb_max_depth jb' = jb_max_depth jb /\
    js_losses (jb_stats jb') = js_losses (jb_stats jb) + n.
Proof.
  induction fuel as [|fuel IH]; intros jb E d Hinv Hb Hd Hs Hf; [lia|]. cbn [enforce_cap_loop].
  destruct (Z.ltb_spec (jb_max_depth jb) (buffered jb)) as [Hover|Hle].
  2: { exists jb, 0. rewrite !Z.add_0_r. split_and!; auto; lia. }
  rewrite (ci_next _ _ Hinv), wrap_succ.
  set (jb1 := add_stats (set_slots jb (delete (E mod 2 ^ 16) (jb_buffer jb)) (Some ((E + 1) mod 2 ^ 16))) 0 0 1).
  assert (cursor_inv jb1 (E + 1)) as Hinv1.
  { destruct Hinv as [Hn Hk Hdp]. split; [done|by apply keys_advance|done]. }
  assert (forall e, E < e < E + 2 ^ 16 -> slot jb1 e = slot jb e) as Hslots by (intros e He; by apply slot_advance).
  destruct (jb_buffer jb !! (E mod 2 ^ 16)) as [p|] eqn:Hp.
  - assert (buffered jb1 <= jb_max_depth jb) as Hb1.
    { unfold buffered, jb1 in *. cbn [add_stats set_slots jb_buffer].
      rewrite map_size_delete_Some by eauto. assert (size (jb_buffer jb) <> 0%nat).
      { intros H0%map_size_empty_inv. rewrite H0, lookup_empty in Hp. done. } lia. }
    exists jb1, 1. split.
    { destruct fuel; [lia|]. cbn [enforce_cap_loop]. by rewrite (proj2 (Z.ltb_ge _ _)) by done. }
    split_and!; auto; try lia. intros e He. apply Hslots. lia.
  - assert (d <> 0) as Hd0.
    { intros ->. rewrite Z.add_0_r in Hs. unfold slot in Hs. rewrite Hp in Hs. by destruct Hs. }
    destruct (IH jb1 (E + 1) (d - 1)) as (jb' & n & Hr & Hn & Hinv' & Hb' & Hsl & Hpr & Hmx & Hls); [done| |lia| |lia|].
    + unfold buffered, jb1 in *. cbn [add_stats set_slots jb_buffer jb_max_depth].
      rewrite delete_id by done. done.
    + rewrite Hslots by lia. by replace (E + 1 + (d - 1)) with (E + d) by lia.
    + exists jb', (n + 1). replace (E + (n + 1)) with (E + 1 + n) by lia. split; [done|]. split; [lia|].
      split; [done|]. split; [done|]. split.
      { intros e He. rewrite Hsl by lia. apply Hslots. lia. }
      split; [done|]. split; [done|]. cbn in Hls. lia.
Qed.

(** ** Runs, with the history they leave *)

Inductive jop : Type :=
| OpPush (sequence : Z) (payload : bytes)
| OpPop.

(** The buffer together with the extended cursor (and where it started), the
    payload accepted for each extended sequence number, and what was emitted. *)
Record history : Type := mkHistory {
  h_jb : JitterBuffer;
  h_start : Z;
  h_cursor : Z;
  h_accepted : gmap Z bytes;
  h_emitted : list (Z * bytes)
}.

Definition history_new (target_depth max_depth : Z) : history :=
  mkHistory (JitterBuffer_new target_depth max_depth) 0 0 ∅ [].

(** How far an operation moved [next_out]. *)
Definition advance (jb jb' : JitterBuffer) : Z :=
  match jb_next_out jb, jb_next_out jb' with
  | Some a, Some b => wrapping_sub 16 b a
  | _, _ => 0
  end.

Definition history_step (h : history) (op : jop) : res unit history :=
  let jb := h_jb h in
  match op with
  | OpPush sequence payload =>
      rj ← JitterBuffer_push jb sequence payload;
      let '(r, jb') := rj in
      match jb_next_out jb with
      | None => mret (mkHistory jb' sequence sequence {[ sequence := payload ]} (h_emitted h))
      | Some base =>
          let e := h_cursor h + wrapping_sub 16 sequence base in
          mret (mkHistory jb' (h_start h) (h_cursor h + advance jb jb')
            (match r with Accepted => <[e := payload]> (h_accepted h) | _ => h_accepted h end) (h_emitted h))
      end
  | OpPop =>
      let '(o, jb') := JitterBuffer_pop jb in
      mret (mkHistory jb' (h_start h) (h_cursor h + advance jb jb') (h_accepted h)
        (match o with JPacket p => h_emitted h ++ [(h_cursor h, p)] | _ => h_emitted h end))
  end.

Fixpoint history_run (h : history) (ops : list jop) : res unit history :=
  match ops with
  | [] => mret h
  | op :: ops => h ← history_step h op; history_run h ops
  end.

Definition op_ok (op : jop) : Prop := match op with OpPush s _ => fits 16 s | OpPop => True end.

Record history_inv (h : history) : Prop := {
  hi_cursor : cursor_inv (h_jb h) (h_cursor h);
  hi_cap : buffered (h_jb h) <= jb_max_depth (h_jb h);
  hi_ahead : forall e, h_cursor h <= e < h_cursor h + 2 ^ 16 -> h_accepted h !! e = slot (h_jb h) e;
  hi_far : forall e, h_cursor h + 0x8000 <= e -> h_accepted h !! e = None;
  hi_sorted : StronglySorted (fun a b => a.1 < b.1) (h_emitted h);
  hi_emitted : Forall (fun ep => h_start h <= ep.1 < h_cursor h /\ h_accepted h !! ep.1 = Some ep.2) (h_emitted h);
  hi_count : h_cursor h - h_start h = len (h_emitted h) + js_losses (jb_stats (h_jb h));
  hi_start : h_start h <= h_cursor h
}.

(** Before the first packet nothing has happened. *)
Definition history_fresh (h : history) : Prop :=
  jb_next_out (h_jb h) = None /\ jb_buffer (h_jb h) = ∅ /\ h_accepted h = ∅ /\ h_emitted h = [] /\
  js_losses (jb_stats (h_jb h)) = 0 /\ 1 <= jb_target_depth (h_jb h) <= jb_max_depth (h_jb h).

Lemma slot_far jb E e : cursor_inv jb E -> E + 0x8000 <= e < E + 2 ^ 16 -> slot jb e = None.
Proof.
  intros Hinv He. unfold slot. destruct (jb_buffer jb !! (e mod 2 ^ 16)) eqn:Hl; [|done].
  destruct (ci_keys _ _ Hinv (e mod 2 ^ 16)) as [_ Hd]; [by rewrite Hl|].
  rewrite Zminus_mod_idemp_l, Z.mod_small in Hd by lia. lia.
Qed.

Lemma slot_insert jb s p E e : fits 16 s -> E <= e < E + 2 ^ 16 ->
  slot (set_slots jb (<[s := p]> (jb_buffer jb)) (jb_next_out jb)) e =
  if bool_decide (e = E + (s - E) mod 2 ^ 16) then Some p else slot jb e.
Proof.
  intros Hs He. unfold slot. cbn [set_slots jb_buffer]. pose proof (key_slot E s Hs) as Hk.
  pose proof (Z.mod_pos_bound (s - E) (2 ^ 16)). case_bool_decide as Heq.
  - subst e. rewrite <- Hk. by rewrite lookup_insert_eq.
  - rewrite lookup_insert_ne; [done|]. intros Hm. rewrite Hk in Hm.
    apply (mod_distinct E) in Hm; lia.
Qed.

Lemma advance_exact jb jb' E E' :
  cursor_inv jb E -> cursor_inv jb' E' -> E <= E' < E + 2 ^ 16 -> advance jb jb' = E' - E.
Proof.
  intros Hi Hi' HE. unfold advance. rewrite (ci_next _ _ Hi), (ci_next _ _ Hi').
  unfold wrapping_sub, wrap. rewrite <- Zminus_mod. by rewrite Z.mod_small by lia.
Qed.

Lemma cursor_distance jb E s : cursor_inv jb E -> fits 16 s ->
  forall base, jb_next_out jb = Some base -> wrapping_sub 16 s base = (s - E) mod 2 ^ 16.
Proof.
  intros Hi Hs base Hb. rewrite (ci_next _ _ Hi) in Hb. injection Hb as <-.
  unfold wrapping_sub, wrap. by rewrite Zminus_mod_idemp_r.
Qed.

(** Offering a packet at extended number [e] to a buffer with cursor [E]. *)
Lemma push_spec jb E s p :
  cursor_inv jb E -> buffered jb <= jb_max_depth jb -> fits 16 s ->
  let e := E + (s - E) mod 2 ^ 16 in
  exists r jb' n, JitterBuffer_push jb s p = Ok (r, jb') /\ 0 <= n <= 0x8000 /\
    cursor_inv jb' (E + n) /\ buffered jb' <= jb_max_depth jb' /\ jb_max_depth jb' = jb_max_depth jb /\
    js_losses (jb_stats jb') = js_losses (jb_stats jb) + n /\
    match r with
    | Accepted => e < E + 0x8000 /\ slot jb e = None /\ forall x, E + n <= x < E + 2 ^ 16 ->
        slot jb' x = if bool_decide (x = e) then Some p else slot jb x
    | Late => E + 0x8000 <= e /\ n = 0 /\ forall x, slot jb' x = slot jb x
    | Duplicate => is_Some (slot jb e) /\ n = 0 /\ forall x, slot jb' x = slot jb x
    end.
Proof.
  intros Hinv Hcap Hs e. unfold JitterBuffer_push. rewrite (ci_next _ _ Hinv).
  rewrite (cursor_distance jb E s Hinv Hs _ (ci_next _ _ Hinv)).
  pose proof (Z.mod_pos_bound (s - E) (2 ^ 16)). pose proof (key_slot E s Hs) as Hk. fold e in Hk.
  destruct (Z.leb_spec 0x8000 ((s - E) mod 2 ^ 16)).
  { eexists Late, _, 0. split; [done|]. rewrite !Z.add_0_r. split_and!; try done; try lia;
      [destruct Hinv; by split|cbn; lia]. }
  assert (slot jb e = jb_buffer jb !! s) as Hse by (unfold slot; by rewrite <- Hk).
  destruct (jb_buffer jb !! s) as [q|] eqn:Hq.
  { rewrite bool_decide_eq_true_2 by eauto. eexists Duplicate, _, 0. split; [done|]. rewrite !Z.add_0_r.
    split_and!; try done; try lia; [destruct Hinv; by split|cbn; lia]. }
  rewrite bool_decide_eq_false_2 by apply is_Some_None.
  set (jb1 := set_slots jb (<[s := p]> (jb_buffer jb)) (Some (E mod 2 ^ 16))).
  assert (forall x, E <= x < E + 2 ^ 16 -> slot jb1 x = if bool_decide (x = e) then Some p else slot jb x) as Hsl.
  { intros x Hx. exact (slot_insert jb s p E x Hs Hx). }
  assert (cursor_inv jb1 E) as Hinv1.
  { destruct Hinv as [Hn Hks Hdp]. split; [done| |done]. intros k Hk'. cbn [jb1 set_slots jb_buffer] in Hk'.
    destruct (decide (k = s)) as [->|]; [split; [done|lia]|]. rewrite lookup_insert_ne in Hk' by done. auto. }
  destruct (enforce_cap_spec (Z.to_nat 65536) jb1 E ((s - E) mod 2 ^ 16) Hinv1)
    as (jb' & n & Hr & Hn & Hinv' & Hb' & Hsl' & _ & Hmx & Hls); [|lia| |lia|].
  - unfold buffered, jb1 in *. cbn [set_slots jb_buffer jb_max_depth].
    rewrite map_size_insert_None by done. lia.
  - fold e. rewrite Hsl by lia. by rewrite bool_decide_eq_true_2.
  - unfold enforce_cap. rewrite Hr, bind_Ok. exists Accepted, jb', n. split; [done|]. split; [lia|].
    split; [done|]. split; [done|]. split; [done|]. split; [done|]. split; [lia|]. split; [done|].
    intros x Hx. rewrite Hsl' by lia. apply Hsl. lia.
Qed.

Lemma pop_spec jb E o jb' :
  cursor_inv jb E -> buffered jb <= jb_max_depth jb -> JitterBuffer_pop jb = (o, jb') ->
  let n := match o with JStarved => 0 | _ => 1 end in
  cursor_inv jb' (E + n) /\ buffered jb' <= jb_max_depth jb' /\
  (forall e, E + n <= e < E + 2 ^ 16 -> slot jb' e = slot jb e) /\
  js_losses (jb_stats jb') = js_losses (jb_stats jb) + match o with JConceal => 1 | _ => 0 end /\
  match o with
  | JPacket p => slot jb E = Some p
  | JConceal => slot jb E = None /\ jb_buffer jb <> ∅
  | JStarved => (jb_primed jb = false /\ buffered jb < jb_target_depth jb) \/ jb_buffer jb = ∅
  end.
Proof.
  intros Hinv Hcap Hpop n. subst n. revert Hpop. unfold JitterBuffer_pop. rewrite (ci_next _ _ Hinv).
  destruct (negb (jb_primed jb) && negb (jb_target_depth jb <=? buffered jb)) eqn:Hprime.
  { intros [= <- <-]. rewrite !Z.add_0_r.
    apply andb_true_iff in Hprime as [Hp%negb_true_iff Hb%negb_true_iff]. apply Z.leb_gt in Hb.
    split_and!; auto. }
  cbv zeta. set (jb1 := if negb (jb_primed jb) then set_primed jb true else jb).
  assert (jb_buffer jb1 = jb_buffer jb /\ jb_stats jb1 = jb_stats jb /\ jb_max_depth jb1 = jb_max_depth jb /\
    jb_target_depth jb1 = jb_target_depth jb /\ jb_next_out jb1 = jb_next_out jb) as (Hb1 & Hst & Hmx & Htd & Hno).
  { unfold jb1. by destruct (jb_primed jb). }
  rewrite Hb1. pose proof Hinv as [Hn Hk Hdp]. fold (slot jb E). destruct (slot jb E) as [p|] eqn:Hs.
  - intros [= <- <-]. cbn [set_slots jb_stats jb_max_depth]. rewrite Hst, Hmx.
    split_and!; try done; try lia.
    + split; cbn [set_slots jb_next_out jb_buffer jb_target_depth jb_max_depth];
        [by rewrite wrap_succ|by apply keys_advance|by rewrite Hmx, Htd].
    + unfold buffered in *. cbn [set_slots jb_buffer].
      pose proof (map_size_delete (E mod 2 ^ 16) (jb_buffer jb)) as Hsz. unfold slot in Hs. rewrite Hs in Hsz. lia.
    + intros e He. unfold slot at 1. cbn [set_slots jb_buffer]. apply slot_advance. lia.
  - case_bool_decide as Hemp.
    + intros [= <- <-]. rewrite !Z.add_0_r. cbn [set_primed jb_stats jb_max_depth].
      rewrite Hst, Hmx. unfold buffered, slot in *. cbn [set_primed jb_buffer]. rewrite Hb1.
      split_and!; try done; try lia; [|by right].
      split; cbn [set_primed jb_next_out jb_buffer jb_target_depth jb_max_depth]; by rewrite ?Hno, ?Hb1, ?Htd, ?Hmx.
    + intros [= <- <-]. unfold buffered, slot in *.
      cbn [add_stats set_slots jb_stats jb_max_depth js_losses jb_buffer]. rewrite Hst, Hmx, ?Hb1.
      split_and!; try done; try lia.
      split; cbn [add_stats set_slots jb_next_out jb_buffer jb_target_depth jb_max_depth];
        [by rewrite wrap_succ| |by rewrite Hmx, Htd].
      intros k Hk'. apply (keys_advance (jb_buffer jb)); [done|]. by rewrite delete_id.
Qed.

Lemma history_step_fresh h op : history_fresh h -> op_ok op ->
  exists h', history_step h op = Ok h' /\ (history_fresh h' \/ history_inv h') /\
    jb_max_depth (h_jb h') = jb_max_depth (h_jb h).
Proof.
  intros (Hno & Hb & Ha & Hem & Hl & Hdp) Hop. destruct op as [s p|].
  - unfold history_step, JitterBuffer_push. rewrite Hno. unfold mret, res_ret. rewrite bind_Ok.
    cbn [op_ok] in Hop. pose proof Hop as [? ?]. eexists. split; [done|]. split; [right|done].
    assert (s mod 2 ^ 16 = s) as Hs by (apply Z.mod_small; unfold fits in *; lia).
    assert (forall e, slot (set_slots (h_jb h) (<[s:=p]> (jb_buffer (h_jb h))) (Some s)) e =
      if bool_decide (e mod 2 ^ 16 = s) then Some p else None) as Hsl.
    { intros e. unfold slot. cbn [set_slots jb_buffer]. rewrite Hb. case_bool_decide as He.
      - rewrite He. by rewrite lookup_insert_eq.
      - rewrite lookup_insert_ne by done. apply lookup_empty. }
    split; cbn [h_jb h_start h_cursor h_accepted h_emitted].
    + split; cbn [set_slots jb_next_out jb_buffer jb_target_depth jb_max_depth]; [by rewrite Hs| |done].
      intros k. rewrite Hb. destruct (decide (k = s)) as [->|].
      * intros _. split; [done|]. by rewrite Z.sub_diag.
      * rewrite lookup_insert_ne, lookup_empty by done. by intros [].
    + unfold buffered. cbn [set_slots jb_buffer jb_max_depth]. rewrite Hb, map_size_insert_None by apply lookup_empty.
      rewrite map_size_empty. lia.
    + intros e He. rewrite Hsl. case_bool_decide as Hes.
      * assert (e = s) as ->; [|by rewrite lookup_singleton_eq]. apply (mod_distinct s); [lia|lia|congruence].
      * rewrite lookup_singleton_ne; [done|]. congruence.
    + intros e He. rewrite lookup_singleton_ne; [done|lia].
    + rewrite Hem. constructor.
    + rewrite Hem. constructor.
    + rewrite Hem. cbn. rewrite Hl. unfold len. simpl. lia.
    + lia.
  - unfold history_step, JitterBuffer_pop. rewrite Hno. eexists. split; [done|]. split; [left|done].
    unfold history_fresh. cbn [h_jb h_accepted h_emitted]. split_and!; try done; lia.
Qed.

Lemma sorted_snoc l (E : Z) (p : bytes) :
  StronglySorted (fun a b => a.1 < b.1) l -> Forall (fun ep : Z * bytes => ep.1 < E) l ->
  StronglySorted (fun a b => a.1 < b.1) (l ++ [(E, p)]).
Proof.
  induction 1 as [|a l Hl IH Ha]; intros HE; cbn [app]; [by repeat constructor|].
  apply Forall_cons_1 in HE as [HaE HE]. constructor; [auto|]. apply Forall_app. split; [done|].
  by constructor.
Qed.

Lemma history_step_inv h op : history_inv h -> op_ok op ->
  exists h', history_step h op = Ok h' /\ history_inv h' /\
    jb_max_depth (h_jb h') = jb_max_depth (h_jb h).
Proof.
  intros [Hc Hcap Hahead Hfar Hsorted Hem Hcount Hstart] Hop. destruct op as [s p|].
  - cbn [op_ok] in Hop. unfold history_step.
    destruct (push_spec (h_jb h) (h_cursor h) s p Hc Hcap Hop)
      as (r & jb' & n & -> & Hn & Hc' & Hcap' & Hmx & Hls & Hr).
    rewrite bind_Ok, (ci_next _ _ Hc), (cursor_distance _ _ s Hc Hop _ (ci_next _ _ Hc)).
    rewrite (advance_exact (h_jb h) jb' (h_cursor h) (h_cursor h + n)) by (done || lia).
    set (E := h_cursor h) in *. set (e := E + (s - E) mod 2 ^ 16) in *.
    replace (E + (E + n - E)) with (E + n) by lia.
    eexists. split; [done|]. split; [|done].
    assert (E <= e) by (unfold e; pose proof (Z.mod_pos_bound (s - E) (2 ^ 16)); lia).
    split; cbn [h_jb h_start h_cursor h_accepted h_emitted]; try done; try lia.
    + intros x Hx. destruct (Z.lt_ge_cases x (E + 2 ^ 16)).
      * destruct r.
        -- destruct Hr as (_ & _ & Hr). rewrite Hr by lia. case_bool_decide as Hxe.
           ++ by rewrite Hxe, lookup_insert_eq.
           ++ rewrite lookup_insert_ne by done. apply Hahead. lia.
        -- destruct Hr as (_ & _ & Hr). rewrite Hr. apply Hahead. lia.
        -- destruct Hr as (_ & _ & Hr). rewrite Hr. apply Hahead. lia.
      * rewrite (slot_far jb' (E + n)) by (done || lia). destruct r; try (apply Hfar; lia).
        rewrite lookup_insert_ne by lia. apply Hfar. lia.
    + intros x Hx. destruct r; try (apply Hfar; lia). rewrite lookup_insert_ne by lia. apply Hfar. lia.
    + eapply Forall_impl; [exact Hem|]. intros [x q] [Hx Hq]. cbn [fst snd] in *. split; [lia|].
      destruct r; try done. rewrite lookup_insert_ne by lia. done.
  - unfold history_step. destruct (JitterBuffer_pop (h_jb h)) as [o jb'] eqn:Hpop.
    destruct (pop_spec _ _ _ _ Hc Hcap Hpop) as (Hc' & Hcap' & Hsl & Hls & Ho).
    set (n := match o with JStarved => 0 | _ => 1 end) in *. assert (0 <= n <= 1) by (unfold n; destruct o; lia).
    rewrite (advance_exact (h_jb h) jb' (h_cursor h) (h_cursor h + n)) by (done || lia).
    set (E := h_cursor h) in *. replace (E + (E + n - E)) with (E + n) by lia.
    eexists. split; [done|].
    assert (jb_max_depth jb' = jb_max_depth (h_jb h)) as Hmx.
    { clear - Hpop. unfold JitterBuffer_pop in Hpop. repeat case_match; by simplify_eq. }
    split; [|done]. split; cbn [h_jb h_start h_cursor h_accepted h_emitted]; try done; try lia.
    + intros x Hx. destruct (Z.lt_ge_cases x (E + 2 ^ 16)).
      * rewrite Hsl by lia. apply Hahead. lia.
      * rewrite (slot_far jb' (E + n)) by (done || lia). apply Hfar. lia.
    + intros x Hx. apply Hfar. lia.
    + destruct o; try done. apply sorted_snoc; [done|]. eapply Forall_impl; [exact Hem|]. intros [x q] [Hx _]. cbn in *. lia.
    + assert (Forall (fun ep => h_start h <= ep.1 < E + n /\ h_accepted h !! ep.1 = Some ep.2) (h_emitted h)).
      { eapply Forall_impl; [exact Hem|]. intros [x q] [Hx Hq]. cbn in *. split; [lia|done]. }
      destruct o; try done. apply Forall_app. split; [done|]. forall_list. cbn [fst snd].
      split; [unfold n; lia|]. rewrite Hahead by lia. done.
    + destruct o; unfold n in *; rewrite Hls, ?len_app, ?len_cons, ?len_nil; lia.
Qed.

Lemma history_run_inv ops : forall h,
  history_fresh h \/ history_inv h -> Forall op_ok ops ->
  exists h', history_run h ops = Ok h' /\ (history_fresh h' \/ history_inv h') /\
    jb_max_depth (h_jb h') = jb_max_depth (h_jb h).
Proof.
  induction ops as [|op ops IH]; intros h Hh Hops; [by exists h|].
  apply Forall_cons_1 in Hops as [Hop Hops]. cbn [history_run].
  assert (exists h1, history_step h op = Ok h1 /\ (history_fresh h1 \/ history_inv h1) /\
    jb_max_depth (h_jb h1) = jb_max_depth (h_jb h)) as (h1 & -> & Hh1 & Hm1).
  { destruct Hh as [Hh|Hh]; [by apply history_step_fresh|].
    destruct (history_step_inv h op Hh Hop) as (h1 & ? & ? & ?). eauto. }
  rewrite bind_Ok. destruct (IH h1 Hh1 Hops) as (h' & -> & Hh' & Hm'). exists h'. split; [done|]. split; [done|congruence].
Qed.

Lemma history_new_fresh target_depth max_depth : history_fresh (history_new target_depth max_depth).
Proof. unfold history_fresh, history_new, JitterBuffer_new. cbn. split_and!; try done; lia. Qed.

(** ** Theorems *)

(** Whatever sequence of pushes and pops it sees, the buffer never panics,
    [enforce_cap] terminates within its fuel, and occupancy never exceeds the
    configured cap (raised to the target depth and to 1). *)
Lemma jitter_bounded target_depth max_depth ops :
  Forall op_ok ops ->
  exists h, history_run (history_new target_depth max_depth) ops = Ok h /\
    buffered (h_jb h) <= Z.max max_depth (Z.max target_depth 1).
Proof.
  intros Hops. destruct (history_run_inv ops (history_new target_depth max_depth)) as (h & Hr & Hh & Hm);
    [left; apply history_new_fresh|done|].
  exists h. split; [done|]. cbn in Hm. rewrite <- Hm. destruct Hh as [(_ & Hb & _ & _ & _ & Hd)|Hh].
  - unfold buffered. rewrite Hb, map_size_empty. lia.
  - apply Hh.
Qed.

Definition example_ops : list jop :=
  [OpPush 65535 [1]; OpPush 1 [3]; OpPush 0 [2]; OpPush 0 [9]; OpPop; OpPop; OpPop; OpPush 65535 [8]].

Lemma example_ops_ok : Forall op_ok example_ops.
Proof. unfold example_ops. forall_list; vm_compute; try split; congruence. Qed.

Lemma jitter_bounded_witness :
  exists h, history_run (history_new 2 2) example_ops = Ok h /\ buffered (h_jb h) <= 2.
Proof. exact (jitter_bounded 2 2 example_ops example_ops_ok). Defined.

(** C5. The buffer emits in order and exactly once: the extended sequence
    numbers of the emitted frames strictly increase (across 16-bit wraps), each
    frame carries the payload accepted for its number, and every slot the cursor
    passed is accounted for as one emission or one counted loss. *)
Theorem jitter_ordered_exactly_once target_depth max_depth ops h :
  Forall op_ok ops -> history_run (history_new target_depth max_depth) ops = Ok h ->
  StronglySorted (fun a b => a.1 < b.1) (h_emitted h) /\
  (forall e p, (e, p) ∈ h_emitted h -> h_accepted h !! e = Some p) /\
  (jb_next_out (h_jb h) <> None ->
   jb_next_out (h_jb h) = Some (h_cursor h mod 2 ^ 16) /\
   h_cursor h - h_start h = len (h_emitted h) + js_losses (stats (h_jb h))).
Proof.
  intros Hops Hr. destruct (history_run_inv ops (history_new target_depth max_depth)) as (h' & Hr' & Hh & _);
    [left; apply history_new_fresh|done|]. rewrite Hr in Hr'. injection Hr' as <-.
  destruct Hh as [(Hno & _ & _ & Hem & _)|Hh].
  - rewrite Hem, Hno. split; [constructor|]. split; [|done]. intros e p Hin. by apply elem_of_nil in Hin.
  - split; [apply Hh|]. split.
    + intros e p Hin. pose proof (hi_emitted h Hh) as He. rewrite Forall_forall in He. by destruct (He _ Hin).
    + intros _. split; [apply (ci_next _ _ (hi_cursor h Hh))|apply Hh].
Qed.

Lemma jitter_ordered_exactly_once_witness :
  exists h, history_run (history_new 2 2) example_ops = Ok h /\
    h_emitted h = [(65536, [2]); (65537, [3])] /\
    StronglySorted (fun a b => a.1 < b.1) (h_emitted h).
Proof.
  destruct (history_run (history_new 2 2) example_ops) as [h| |] eqn:Hr; try (vm_compute in Hr; discriminate Hr).
  exists h. split; [reflexivity|]. split.
  - vm_compute in Hr. injection Hr as <-. reflexivity.
  - exact (proj1 (jitter_ordered_exactly_once 2 2 example_ops h example_ops_ok Hr)).
Defined.

(** What a pop yields is what was received: a packet exactly when the
    cursor's number was accepted, a concealment only when it was not and a later
    one is waiting, and nothing only while priming or when nothing at or after
    the cursor was accepted. *)
Lemma jitter_pop_exact target_depth max_depth ops h :
  Forall op_ok ops -> history_run (history_new target_depth max_depth) ops = Ok h ->
  match (JitterBuffer_pop (h_jb h)).1 with
  | JPacket p => h_accepted h !! h_cursor h = Some p
  | JConceal => h_accepted h !! h_cursor h = None /\ exists e, h_cursor h < e /\ is_Some (h_accepted h !! e)
  | JStarved => (jb_primed (h_jb h) = false /\ buffered (h_jb h) < jb_target_depth (h_jb h)) \/
                forall e, h_cursor h <= e -> h_accepted h !! e = None
  end.
Proof.
  intros Hops Hr. destruct (history_run_inv ops (history_new target_depth max_depth)) as (h' & Hr' & Hh & _);
    [left; apply history_new_fresh|done|]. rewrite Hr in Hr'. injection Hr' as <-.
  destruct Hh as [(Hno & _ & Ha & _)|[Hc Hcap Hahead Hfar _ _ _ _]].
  { unfold JitterBuffer_pop. rewrite Hno, Ha. cbn. right. intros e _. apply lookup_empty. }
  destruct (JitterBuffer_pop (h_jb h)) as [o jb'] eqn:Hpop. cbn [fst].
  destruct (pop_spec _ _ _ _ Hc Hcap Hpop) as (_ & _ & _ & _ & Ho).
  destruct o as [p| |].
  - rewrite Hahead by lia. done.
  - destruct Ho as [Hs Hne]. split; [rewrite Hahead by lia; done|].
    apply map_choose in Hne as (k & q & Hk). destruct (ci_keys _ _ Hc k ltac:(by rewrite Hk)) as [Hf Hd].
    pose proof (key_slot (h_cursor h) k Hf) as Hks. pose proof (Z.mod_pos_bound (k - h_cursor h) (2 ^ 16)).
    set (e := h_cursor h + (k - h_cursor h) mod 2 ^ 16) in *.
    assert (slot (h_jb h) e = Some q) as He by (unfold slot; by rewrite <- Hks).
    exists e. split; [|rewrite Hahead by lia; by rewrite He].
    destruct (decide (e = h_cursor h)) as [Heq|]; [|lia]. rewrite Heq in He. congruence.
  - destruct Ho as [?|Hemp]; [by left|]. right. intros e He.
    destruct (Z.lt_ge_cases e (h_cursor h + 2 ^ 16)); [|apply Hfar; lia].
    rewrite Hahead by lia. unfold slot. rewrite Hemp. apply lookup_empty.
Qed.

Lemma jitter_pop_exact_witness :
  exists h, history_run (history_new 1 4) [OpPush 7 [1]; OpPop; OpPush 9 [3]] = Ok h /\
    (JitterBuffer_pop (h_jb h)).1 = JConceal /\ h_accepted h !! 8 = None.
Proof.
  destruct (history_run (history_new 1 4) [OpPush 7 [1]; OpPop; OpPush 9 [3]]) as [h| |] eqn:Hr;
    try (vm_compute in Hr; discriminate Hr).
  exists h. split; [reflexivity|].
  assert ((JitterBuffer_pop (h_jb h)).1 = JConceal /\ h_cursor h = 8) as [Hp Hc].
  { vm_compute in Hr. injection Hr as <-. split; reflexivity. }
  split; [exact Hp|].
  pose proof (jitter_pop_exact 1 4 [OpPush 7 [1]; OpPop; OpPush 9 [3]] h
    ltac:(forall_list; vm_compute; try split; congruence) Hr) as H.
  rewrite Hp, Hc in H. exact (proj1 H).
Defined.
