(* ===== verification/T140.v ===== *)
(** * Real-time text: crates/siphon-rtp-media/src/t140.rs

    RFC 2198 redundant coding (parser and builder) and the RFC 4103 reassembler.
    Text is UTF-8 bytes; the pending bytes of a split character are the list
    [partial[..partial_len]].  The header loop has one turn per admissible block
    and two more; the decoding loop has one turn more than it has bytes, each
    invalid sequence it skips being at least one byte long. *)

From S2P Require Import Prelude Utf8.
From stdpp Require Import base list numbers option.
From Stdlib Require Import Lia ZArith.

Open Scope Z_scope.

Definition MAX_RED_BLOCKS : Z := 32.
Definition MAX_TIMESTAMP_OFFSET : Z := Z.shiftl 1 14 - 1.
Definition MAX_BLOCK_LENGTH : Z := Z.shiftl 1 10 - 1.

(** U+FFFD in UTF-8. *)
Definition MISSING_TEXT_MARKER : bytes := [0xEF; 0xBF; 0xBD].

Inductive RedError : Type :=
| RedTruncated
| BlockLengthExceedsPayload (length remaining : Z)
| TooManyBlocks (max : Z)
| TimestampOffsetTooLarge (offset : Z)
| BlockLengthTooLarge (length : Z).

Record RedBlock : Type := mkRedBlock { rb_payload_type : Z; rb_timestamp_offset : Z; rb_data : bytes }.

Record RedPacket : Type := mkRedPacket { rp_redundant : list RedBlock; rp_primary : RedBlock }.

(** ** Parsing *)

(** Pass 1: (payload type, timestamp offset, block length) of every redundant
    header, the primary's payload type, and the cursor after the headers. *)
Fixpoint red_headers (fuel : nat) (payload : bytes) (cursor : Z) (headers : list (Z * Z * Z))
  : res RedError (list (Z * Z * Z) * Z * Z) :=
  match fuel with
  | O => Panic
  | S fuel =>
      first ← ok_or (get_at payload cursor) RedTruncated;
      if Z.land first 0x80 =? 0 then mret (headers, Z.land first 0x7F, cursor + 1) else
      if len headers =? MAX_RED_BLOCKS then Err (TooManyBlocks MAX_RED_BLOCKS) else
      header ← ok_or (get_range payload cursor (cursor + 4)) RedTruncated;
      h0 ← idx header 0;
      h1 ← idx header 1;
      h2 ← idx header 2;
      h3 ← idx header 3;
      let payload_type := Z.land h0 0x7F in
      let timestamp_offset := Z.lor (Z.shiftl h1 6) (Z.shiftr h2 2) in
      let block_length := Z.lor (Z.shiftl (Z.land h2 0x03) 8) h3 in
      red_headers fuel payload (cursor + 4) (headers ++ [(payload_type, timestamp_offset, block_length)])
  end.

(** Pass 2: the data blocks in header order, and the cursor after them. *)
Fixpoint red_data (payload : bytes) (cursor : Z) (headers : list (Z * Z * Z)) : res RedError (list RedBlock * Z) :=
  match headers with
  | [] => mret ([], cursor)
  | (payload_type, timestamp_offset, length) :: headers =>
      remaining ← usub (len payload) cursor;
      data ← ok_or (get_range payload cursor (cursor + length)) (BlockLengthExceedsPayload length remaining);
      '(blocks, cursor) ← red_data payload (cursor + length) headers;
      mret (mkRedBlock payload_type timestamp_offset data :: blocks, cursor)
  end.

Definition RedPacket_parse (payload : bytes) : res RedError RedPacket :=
  '(headers, primary_payload_type, cursor) ← red_headers 34 payload 0 [];
  '(redundant, cursor) ← red_data payload cursor headers;
  let primary := mkRedBlock primary_payload_type 0 (default [] (get_range payload cursor (len payload))) in
  mret (mkRedPacket redundant primary).

Definition generation_count (p : RedPacket) : Z := len (rp_redundant p).

(** ** Building *)

Record RedGeneration : Type := mkRedGeneration { rg_payload_type : Z; rg_rtp_timestamp : Z; rg_data : bytes }.

Record RedBuilder : Type := mkRedBuilder {
  rbd_primary_payload_type : Z;
  rbd_primary_rtp_timestamp : Z;
  rbd_primary_data : bytes;
  rbd_redundant : list RedGeneration
}.

Definition validated_offset_length (b : RedBuilder) (g : RedGeneration) : res RedError (Z * Z) :=
  let offset := wrapping_sub 32 (rbd_primary_rtp_timestamp b) (rg_rtp_timestamp g) in
  if MAX_TIMESTAMP_OFFSET <? offset then Err (TimestampOffsetTooLarge offset) else
  let length := len (rg_data g) in
  if MAX_BLOCK_LENGTH <? length then Err (BlockLengthTooLarge length) else
  mret (offset, length).

Definition red_header_word (payload_type offset length : Z) : Z :=
  Z.lor (Z.lor (Z.lor (Z.shiftl 1 31) (Z.shiftl (Z.land payload_type 0x7F) 24)) (Z.shiftl offset 10)) length.

(** The header loop: what was written, and the error that stopped it. *)
Fixpoint write_red_headers (b : RedBuilder) (generations : list RedGeneration) (out : bytes)
  : res RedError unit * bytes :=
  match generations with
  | [] => (Ok tt, out)
  | g :: generations =>
      match validated_offset_length b g with
      | Ok (offset, length) =>
          write_red_headers b generations (out ++ be_enc 4 (red_header_word (rg_payload_type g) offset length))
      | Err e => (Err e, out)
      | Panic => (Panic, out)
      end
  end.

(** [write_into]: the result and the caller's buffer. *)
Definition RedBuilder_write_into (b : RedBuilder) : res RedError Z * bytes :=
  if MAX_RED_BLOCKS <? len (rbd_redundant b) then (Err (TooManyBlocks MAX_RED_BLOCKS), []) else
  match write_red_headers b (rbd_redundant b) [] with
  | (Ok _, out) =>
      let out := out ++ [Z.land (rbd_primary_payload_type b) 0x7F] ++ concat (rg_data <$> rbd_redundant b) ++
                 rbd_primary_data b in
      (Ok (len out), out)
  | (Err e, out) => (Err e, out)
  | (Panic, out) => (Panic, out)
  end.

Fixpoint add_block_lengths (b : RedBuilder) (generations : list RedGeneration) (total : Z) : res RedError Z :=
  match generations with
  | [] => mret total
  | g :: generations =>
      '(_, length) ← validated_offset_length b g;
      add_block_lengths b generations (total + (4 + length))
  end.

Definition RedBuilder_encoded_len (b : RedBuilder) : res RedError Z :=
  if MAX_RED_BLOCKS <? len (rbd_redundant b) then Err (TooManyBlocks MAX_RED_BLOCKS) else
  add_block_lengths b (rbd_redundant b) (1 + len (rbd_primary_data b)).

(** ** Reassembly *)

Record T140Output : Type := mkT140Output {
  to_text : bytes;
  to_missing_markers : Z;
  to_recovered_from_redundancy : Z
}.

Record T140Reassembler : Type := mkT140Reassembler {
  tr_expected_sequence : option Z;
  tr_highest_timestamp : option Z;
  tr_partial : bytes;
  tr_output : bytes
}.

Definition T140Reassembler_new : T140Reassembler := mkT140Reassembler None None [] [].

Definition set_text (r : T140Reassembler) (partial output : bytes) : T140Reassembler :=
  mkT140Reassembler (tr_expected_sequence r) (tr_highest_timestamp r) partial output.

Definition set_expected (r : T140Reassembler) (expected : Z) : T140Reassembler :=
  mkT140Reassembler (Some expected) (tr_highest_timestamp r) (tr_partial r) (tr_output r).

Definition utf8_lead_length (byte : Z) : option Z :=
  if Z.land byte 0x80 =? 0x00 then Some 1
  else if Z.land byte 0xE0 =? 0xC0 then Some 2
  else if Z.land byte 0xF0 =? 0xE0 then Some 3
  else if Z.land byte 0xF8 =? 0xF0 then Some 4
  else None.

Definition sequence_distance (a b : Z) : Z := to_signed 16 (wrapping_sub 16 a b).
Definition timestamp_is_after (a b : Z) : bool := 0 <? to_signed 32 (wrapping_sub 32 a b).

(** [while partial_len < needed && !bytes.is_empty()]: the buffer has four slots. *)
Fixpoint fill_partial (needed : Z) (partial bytes_ : bytes) : res unit (bytes * bytes) :=
  match bytes_ with
  | [] => mret (partial, [])
  | b :: rest =>
      if len partial <? needed then
        if len partial <? 4 then fill_partial needed (partial ++ [b]) rest else Panic
      else mret (partial, bytes_)
  end.

(** Decode the remainder, buffering only a trailing incomplete character: what is
    appended to the output and what stays pending. *)
Fixpoint decode_text (fuel : nat) (bytes_ output : bytes) : res unit (bytes * bytes) :=
  match fuel with
  | O => Panic
  | S fuel =>
      match utf8_run 0 bytes_ with
      | Utf8Ok => mret (output ++ bytes_, [])
      | Utf8Err valid_up_to error_len =>
          head ← slice bytes_ 0 valid_up_to;
          let output := match from_utf8 head with Some text => output ++ text | None => output end in
          match error_len with
          | Some bad =>
              rest ← slice bytes_ (valid_up_to + bad) (len bytes_);
              decode_text fuel rest (output ++ MISSING_TEXT_MARKER)
          | None =>
              tail ← slice bytes_ valid_up_to (len bytes_);
              partial ← slice tail 0 (Z.min (len tail) 4);
              mret (output, partial)
          end
      end
  end.

Definition push_text (r : T140Reassembler) (bytes_ : bytes) : res unit T140Reassembler :=
  match tr_partial r with
  | [] =>
      '(output, partial) ← decode_text (S (length bytes_)) bytes_ (tr_output r);
      mret (set_text r partial output)
  | lead :: _ =>
      match utf8_lead_length lead with
      | Some needed =>
          '(partial, bytes_) ← fill_partial needed (tr_partial r) bytes_;
          if len partial <? needed then mret (set_text r partial (tr_output r)) else
          character ← slice partial 0 needed;
          let output := match from_utf8 character with
                        | Some text => tr_output r ++ text
                        | None => tr_output r ++ MISSING_TEXT_MARKER
                        end in
          '(output, partial) ← decode_text (S (length bytes_)) bytes_ output;
          mret (set_text r partial output)
      | None =>
          '(output, partial) ← decode_text (S (length bytes_)) bytes_ (tr_output r ++ MISSING_TEXT_MARKER);
          mret (set_text r partial output)
      end
  end.

Fixpoint push_blocks (r : T140Reassembler) (blocks : list RedBlock) : res unit T140Reassembler :=
  match blocks with
  | [] => mret r
  | block :: blocks => r ← push_text r (rb_data block); push_blocks r blocks
  end.

(** The part of [on_packet] after depacketizing: [redundant] are the redundant
    blocks, oldest first. *)
Definition deliver (r : T140Reassembler) (sequence : Z) (redundant : list RedBlock) (primary_data : bytes)
  : res unit (T140Output * T140Reassembler) :=
  match tr_expected_sequence r with
  | None =>
      r ← push_text r primary_data;
      let r := set_expected r (wrapping_add 16 sequence 1) in
      mret (mkT140Output (tr_output r) 0 0, r)
  | Some expected =>
      let ahead := sequence_distance sequence expected in
      if ahead <? 0 then mret (mkT140Output (tr_output r) 0 0, r) else
      let redundancy := len redundant in
      let recoverable := Z.min ahead redundancy in
      let unrecoverable := ahead - recoverable in
      let '(r, missing_markers) :=
        if 0 <? unrecoverable then (set_text r [] (tr_output r ++ MISSING_TEXT_MARKER), 1) else (r, 0) in
      recovered ← slice redundant (redundancy - recoverable) redundancy;
      r ← push_blocks r recovered;
      r ← push_text r primary_data;
      let r := set_expected r (wrapping_add 16 sequence 1) in
      mret (mkT140Output (tr_output r) missing_markers (len recovered), r)
  end.

(** [on_packet]: the result and the reassembler, whose timestamp moves and whose
    output is cleared even when the payload is malformed. *)
Definition on_packet (r : T140Reassembler) (sequence timestamp : Z) (payload : bytes) (is_red : bool)
  : res RedError T140Output * T140Reassembler :=
  let highest :=
    match tr_highest_timestamp r with
    | Some previous => if negb (timestamp_is_after timestamp previous) then previous else timestamp
    | None => timestamp
    end in
  let r := mkT140Reassembler (tr_expected_sequence r) (Some highest) (tr_partial r) [] in
  match (if is_red then p ← RedPacket_parse payload; mret (rp_redundant p, rb_data (rp_primary p))
         else mret ([], payload)) with
  | Err e => (Err e, r)
  | Panic => (Panic, r)
  | Ok (redundant, primary_data) =>
      match deliver r sequence redundant primary_data with
      | Ok (out, r) => (Ok out, r)
      | _ => (Panic, r)
      end
  end.

(** ** The RED layout (RFC 2198 section 3) *)

Definition header_ok (h : Z * Z * Z) : Prop :=
  let '(pt, off, n) := h in 0 <= pt < 128 /\ 0 <= off < 2 ^ 14 /\ 0 <= n < 2 ^ 10.

(** F=1 and the payload type, the 14-bit offset, the 10-bit length. *)
Definition header_bytes (h : Z * Z * Z) : bytes :=
  let '(pt, off, n) := h in [128 + pt; off / 64; off mod 64 * 4 + n / 256; n mod 256].

Definition block_header (b : RedBlock) : Z * Z * Z := (rb_payload_type b, rb_timestamp_offset b, len (rb_data b)).

Definition red_wire (p : RedPacket) : bytes :=
  concat (header_bytes <$> (block_header <$> rp_redundant p)) ++ [rb_payload_type (rp_primary p)] ++
  concat (rb_data <$> rp_redundant p) ++ rb_data (rp_primary p).

Definition packet_ok (p : RedPacket) : Prop :=
  Forall (fun b => header_ok (block_header b)) (rp_redundant p) /\ len (rp_redundant p) <= MAX_RED_BLOCKS /\
  0 <= rb_payload_type (rp_primary p) < 128 /\ rb_timestamp_offset (rp_primary p) = 0.

Lemma len_header_bytes h : len (header_bytes h) = 4.
Proof. by destruct h as [[pt off] n]. Qed.

Lemma header_bytes_ok h : header_ok h -> bytes_ok (header_bytes h).
Proof.
  destruct h as [[pt off] n]. intros (? & ? & ?). unfold bytes_ok, header_bytes.
  forall_list; unfold is_byte; Z.to_euclidean_division_equations; lia.
Qed.

(** The builder's 32-bit header word, written big-endian, is that layout. *)
Lemma header_word_bytes pt off n : header_ok (Z.land pt 0x7F, off, n) ->
  be_enc 4 (red_header_word pt off n) = header_bytes (Z.land pt 0x7F, off, n).
Proof.
  intros Hok. pose proof (header_bytes_ok _ Hok) as Hb. destruct Hok as (Hp & Ho & Hn). unfold red_header_word.
  set (q := Z.land pt 0x7F) in *.
  assert (Z.lor (Z.shiftl 1 31) (Z.shiftl q 24) = Z.shiftl (128 + q) 24) as ->.
  { change 31 with (7 + 24). rewrite <- Z.shiftl_shiftl, <- Z.shiftl_lor, (lor_shiftl_add q 1 7) by lia. done. }
  assert (Z.lor (Z.shiftl (128 + q) 24) (Z.shiftl off 10) = Z.shiftl ((128 + q) * 2 ^ 14 + off) 10) as ->.
  { change 24 with (14 + 10). rewrite <- Z.shiftl_shiftl, <- Z.shiftl_lor, lor_shiftl_add by lia. done. }
  rewrite lor_shiftl_add by lia. rewrite <- (be_enc_dec _ Hb). cbn [length header_bytes]. f_equal.
  unfold be_dec. cbn [be_dec_acc]. Z.to_euclidean_division_equations. lia.
Qed.

Lemma byte_flag b : is_byte b ->
  ((Z.land b 0x80 =? 0) = (b <? 128)) /\ Z.land b 0x7F = b mod 128.
Proof.
  intros Hb. split.
  - pose proof (byte_forall (fun b => Bool.eqb (Z.land b 0x80 =? 0) (b <? 128)) b ltac:(vm_compute; reflexivity) Hb) as H.
    by apply Bool.eqb_prop in H.
  - change 0x7F with (Z.ones 7). by rewrite Z.land_ones by lia.
Qed.

(** The fields the parser takes from four header bytes. *)
Definition header_fields (h0 h1 h2 h3 : Z) : Z * Z * Z :=
  (Z.land h0 0x7F, Z.lor (Z.shiftl h1 6) (Z.shiftr h2 2), Z.lor (Z.shiftl (Z.land h2 0x03) 8) h3).

Lemma header_fields_value h0 h1 h2 h3 : is_byte h0 -> is_byte h1 -> is_byte h2 -> is_byte h3 ->
  header_fields h0 h1 h2 h3 = (h0 mod 128, h1 * 64 + h2 / 4, h2 mod 4 * 256 + h3).
Proof.
  unfold is_byte. intros. unfold header_fields. change 0x7F with (Z.ones 7). change 0x03 with (Z.ones 2).
  rewrite !Z.land_ones, Z.shiftr_div_pow2 by lia. change (2 ^ 7) with 128. change (2 ^ 2) with 4.
  rewrite !lor_shiftl_add by (Z.to_euclidean_division_equations; lia). done.
Qed.

Lemma header_fields_bytes h : header_ok h -> exists h0 h1 h2 h3,
  header_bytes h = [h0; h1; h2; h3] /\ 128 <= h0 < 256 /\ header_fields h0 h1 h2 h3 = h.
Proof.
  intros Hok. pose proof (header_bytes_ok h Hok) as Hb. destruct h as [[pt off] n]. destruct Hok as (Hp & Ho & Hn).
  cbn [header_bytes] in *. repeat (apply bytes_ok_cons in Hb as [? Hb]).
  eexists _, _, _, _. split; [done|]. split; [lia|]. rewrite header_fields_value by done.
  f_equal; [f_equal|]; Z.to_euclidean_division_equations; lia.
Qed.

Lemma header_bytes_fields h0 h1 h2 h3 : is_byte h0 -> is_byte h1 -> is_byte h2 -> is_byte h3 -> 128 <= h0 ->
  header_ok (header_fields h0 h1 h2 h3) /\ header_bytes (header_fields h0 h1 h2 h3) = [h0; h1; h2; h3].
Proof.
  intros. rewrite header_fields_value by done. unfold is_byte in *. split.
  - unfold header_ok. split_and!; Z.to_euclidean_division_equations; lia.
  - cbn [header_bytes]. repeat f_equal; Z.to_euclidean_division_equations; lia.
Qed.

Lemma get_at_app_mid {A} (l1 l2 : list A) x : get_at (l1 ++ x :: l2) (len l1) = Some x.
Proof.
  unfold get_at. pose proof (len_nonneg l1). rewrite (proj2 (Z.leb_le _ _)) by lia. rewrite to_nat_len.
  by apply list_lookup_middle.
Qed.

(** One turn of pass 1, at the bytes [rest] under the cursor. *)
Definition header_turn (fuel : nat) (pre rest : bytes) (acc : list (Z * Z * Z))
  : res RedError (list (Z * Z * Z) * Z * Z) :=
  match rest with
  | [] => Err RedTruncated
  | b :: _ =>
      if b <? 128 then Ok (acc, b, len pre + 1) else
      if len acc =? MAX_RED_BLOCKS then Err (TooManyBlocks MAX_RED_BLOCKS) else
      match rest with
      | h0 :: h1 :: h2 :: h3 :: tail =>
          red_headers fuel ((pre ++ [h0; h1; h2; h3]) ++ tail) (len (pre ++ [h0; h1; h2; h3]))
            (acc ++ [header_fields h0 h1 h2 h3])
      | _ => Err RedTruncated
      end
  end.

Lemma red_headers_turn fuel pre rest acc : bytes_ok rest ->
  red_headers (S fuel) (pre ++ rest) (len pre) acc = header_turn fuel pre rest acc.
Proof.
  intros Hb. pose proof (len_nonneg pre). cbn [red_headers]. destruct rest as [|b t].
  { rewrite app_nil_r. unfold get_at. rewrite (proj2 (Z.leb_le _ _)) by lia.
    by rewrite to_nat_len, lookup_ge_None_2 by lia. }
  rewrite get_at_app_mid. cbn [ok_or]. rewrite bind_Ok. apply bytes_ok_cons in Hb as [Hb Ht].
  destruct (byte_flag b Hb) as [-> ->]. unfold header_turn. destruct (Z.ltb_spec b 128) as [Hl|Hl].
  { unfold is_byte in Hb. by rewrite Z.mod_small by lia. }
  destruct (len acc =? MAX_RED_BLOCKS); [done|].
  destruct t as [|h1 [|h2 [|h3 tail]]];
    try (rewrite (proj2 (get_range_None_iff _ _ _)); [done|autorewrite with len_db; lia]).
  pose proof (len_nonneg tail). rewrite get_range_Some by (autorewrite with len_db; lia).
  change (b :: h1 :: h2 :: h3 :: tail) with ([b; h1; h2; h3] ++ tail).
  rewrite (sub_app_mid pre [b; h1; h2; h3] tail) by done. cbn [ok_or]. rewrite bind_Ok.
  rewrite app_assoc, len_app. done.
Qed.

(** Pass 1 on a run of headers. *)
Lemma red_headers_wire hs : forall fuel pre pt rest acc,
  Forall header_ok hs -> 0 <= pt < 128 -> bytes_ok rest -> len acc + len hs <= MAX_RED_BLOCKS ->
  (length hs < fuel)%nat ->
  red_headers fuel (pre ++ concat (header_bytes <$> hs) ++ pt :: rest) (len pre) acc =
  Ok (acc ++ hs, pt, len pre + 4 * len hs + 1).
Proof.
  assert (forall hs pt rest, Forall header_ok hs -> 0 <= pt < 128 -> bytes_ok rest ->
    bytes_ok (concat (header_bytes <$> hs) ++ pt :: rest)) as Hbytes.
  { intros l pt rest Hl Hpt Hr. apply bytes_ok_app. split.
    - induction Hl; cbn [fmap list_fmap concat]; [constructor|]. apply bytes_ok_app. split; [by apply header_bytes_ok|done].
    - apply bytes_ok_cons. split; [unfold is_byte; lia|done]. }
  induction hs as [|h hs IH]; intros [|fuel] pre pt rest acc Hok Hpt Hr Hlen Hfuel; try (cbn [length] in Hfuel; lia);
    rewrite red_headers_turn by (by apply Hbytes); cbn [fmap list_fmap concat app].
  - unfold header_turn. rewrite (proj2 (Z.ltb_lt _ _)), app_nil_r by lia.
    change (len (@nil (Z * Z * Z))) with 0. do 2 f_equal. lia.
  - apply Forall_cons_1 in Hok as [Hh Hok]. destruct (header_fields_bytes h Hh) as (h0 & h1 & h2 & h3 & -> & H0 & <-).
    cbn [app]. unfold header_turn. rewrite (proj2 (Z.ltb_ge _ _)) by lia.
    rewrite len_cons in Hlen. pose proof (len_nonneg hs). rewrite (proj2 (Z.eqb_neq _ _)) by lia.
    rewrite IH; [|done|done|done|rewrite len_app, len_cons, len_nil; lia|cbn [length] in Hfuel; lia].
    rewrite <- app_assoc, len_app, (len_cons (header_fields _ _ _ _)). change (len [h0; h1; h2; h3]) with 4.
    do 2 f_equal. lia.
Qed.

(** Pass 1 on any bytes: enough fuel, and what it accepts is a run of headers. *)
Lemma red_headers_inv fuel : forall pre rest acc,
  bytes_ok rest -> len acc <= MAX_RED_BLOCKS -> MAX_RED_BLOCKS - len acc < Z.of_nat fuel ->
  match red_headers fuel (pre ++ rest) (len pre) acc with
  | Panic => False
  | Err _ => True
  | Ok r => exists hs pt tail, rest = concat (header_bytes <$> hs) ++ pt :: tail /\ Forall header_ok hs /\
      0 <= pt < 128 /\ len (acc ++ hs) <= MAX_RED_BLOCKS /\ r = (acc ++ hs, pt, len pre + 4 * len hs + 1)
  end.
Proof.
  induction fuel as [|fuel IH]; intros pre rest acc Hb Ha Hf; [lia|].
  rewrite red_headers_turn by done. unfold header_turn. destruct rest as [|b t]; [done|].
  destruct (Z.ltb_spec b 128) as [Hl|Hl].
  { apply bytes_ok_cons in Hb as [Hb Ht]. unfold is_byte in Hb. exists [], b, t. rewrite app_nil_r.
    change (len (@nil (Z * Z * Z))) with 0. split_and!; try done; try lia; try constructor. do 2 f_equal. lia. }
  destruct (Z.eqb_spec (len acc) MAX_RED_BLOCKS); [done|]. destruct t as [|h1 [|h2 [|h3 t]]]; try done.
  do 4 (apply bytes_ok_cons in Hb as [? Hb]).
  destruct (header_bytes_fields b h1 h2 h3) as [Hok Hbytes]; [done..|].
  specialize (IH (pre ++ [b; h1; h2; h3]) t (acc ++ [header_fields b h1 h2 h3]) Hb).
  rewrite (len_app acc), len_cons, len_nil in IH. specialize (IH ltac:(lia) ltac:(lia)).
  destruct (red_headers _ _ _ _) as [r| |]; [|done|done]. destruct IH as (hs & pt & tail & -> & Hhs & Hpt & Hle & ->).
  exists (header_fields b h1 h2 h3 :: hs), pt, tail. cbn [fmap list_fmap concat]. rewrite Hbytes, <- app_assoc in *.
  split_and!; try done; try lia; [by constructor|]. rewrite len_app, (len_cons (header_fields _ _ _ _)).
  change (len [b; h1; h2; h3]) with 4. f_equal; [by rewrite <- app_assoc|lia].
Qed.

(** Pass 2 recovers the blocks from their data... *)
Lemma red_data_wire bs : forall pre tail,
  red_data (pre ++ concat (rb_data <$> bs) ++ tail) (len pre) (block_header <$> bs) =
  Ok (bs, len pre + len (concat (rb_data <$> bs))).
Proof.
  induction bs as [|b bs IH]; intros pre tail; cbn [fmap list_fmap concat red_data].
  - rewrite len_nil, Z.add_0_r. done.
  - pose proof (len_nonneg pre). pose proof (len_nonneg (rb_data b)). unfold block_header at 1. rewrite <- app_assoc.
    pose proof (len_nonneg (concat (rb_data <$> bs) ++ tail)). rewrite usub_Ok, bind_Ok by (rewrite !len_app in *; lia).
    rewrite get_range_Some by (rewrite !len_app in *; lia).
    rewrite (sub_app_mid pre (rb_data b)) by done. cbn [ok_or]. rewrite bind_Ok, app_assoc, <- len_app, IH, bind_Ok.
    rewrite !len_app. destruct b. unfold mret, res_ret. cbn. do 2 f_equal. lia.
Qed.

(** ... and what it accepts is blocks followed by a tail. *)
Lemma red_data_inv hs : forall pre rest, Forall header_ok hs ->
  match red_data (pre ++ rest) (len pre) hs with
  | Panic => False
  | Err _ => True
  | Ok (bs, c) => exists tail, rest = concat (rb_data <$> bs) ++ tail /\ hs = block_header <$> bs /\
      c = len pre + len (concat (rb_data <$> bs))
  end.
Proof.
  induction hs as [|[[pt off] n] hs IH]; intros pre rest Hok; cbn [red_data].
  - exists rest. split_and!; [done|done|]. cbn. rewrite len_nil. lia.
  - apply Forall_cons_1 in Hok as [(_ & _ & Hn) Hok]. pose proof (len_nonneg pre). pose proof (len_nonneg rest).
    rewrite usub_Ok, bind_Ok by (rewrite len_app; lia).
    destruct (get_range _ _ _) as [data|] eqn:Hd; cbn [ok_or]; [|done]. rewrite bind_Ok.
    apply get_range_Some_iff in Hd as [[_ Hle] ->]. rewrite len_app in Hle.
    assert (sub (pre ++ rest) (len pre) (len pre + n) = sub rest 0 n) as ->.
    { rewrite sub_app_r by lia. f_equal; lia. }
    assert (rest = sub rest 0 n ++ sub rest n (len rest)) as Hrest by (rewrite <- sub_split, sub_full by lia; done).
    set (d := sub rest 0 n) in *. assert (len d = n) as Hdn by (unfold d; rewrite len_sub; lia). rewrite Hrest, app_assoc.
    replace (len pre + n) with (len (pre ++ d)) by (rewrite len_app; lia).
    specialize (IH (pre ++ d) (sub rest n (len rest)) Hok). destruct (red_data _ _ _) as [[bs c]| |]; [|done|done].
    destruct IH as (tail & Htail & -> & ->). rewrite bind_Ok. unfold mret, res_ret. exists tail.
    cbn [fmap list_fmap concat block_header rb_data]. rewrite Htail, <- app_assoc, !len_app. split_and!; [done| |lia].
    unfold block_header at 2. cbn [rb_data rb_payload_type rb_timestamp_offset]. by rewrite Hdn.
Qed.

Lemma len_concat_headers hs : len (concat (header_bytes <$> hs)) = 4 * len hs.
Proof. induction hs as [|h hs IH]; [done|]. cbn [fmap list_fmap concat]. rewrite len_app, len_cons, len_header_bytes, IH. lia. Qed.

Lemma len_fmap {A B} (f : A -> B) l : len (f <$> l) = len l.
Proof. unfold len. by rewrite length_fmap. Qed.

(** The parser inverts the layout. *)
Lemma red_parse_wire p : packet_ok p -> bytes_ok (concat (rb_data <$> rp_redundant p)) -> bytes_ok (rb_data (rp_primary p)) ->
  RedPacket_parse (red_wire p) = Ok p.
Proof.
  intros (Hok & Hlen & Hpt & Hoff) Hb1 Hb2. destruct p as [red [pt off data]].
  cbn [rp_redundant rp_primary rb_payload_type rb_timestamp_offset rb_data] in *. subst off.
  unfold RedPacket_parse, red_wire. cbn [rp_redundant rp_primary rb_payload_type rb_data].
  pose proof (red_headers_wire (block_header <$> red) 34 [] pt (concat (rb_data <$> red) ++ data) []) as H.
  change (len []) with 0 in H. change (len []) with 0 in H. rewrite Z.add_0_l, len_fmap in H. cbn [app] in H.
  change ([pt] ++ concat (rb_data <$> red) ++ data) with (pt :: concat (rb_data <$> red) ++ data).
  rewrite H; [|by apply Forall_fmap|done|by apply bytes_ok_app|done|rewrite length_fmap; unfold MAX_RED_BLOCKS, len in *; lia].
  rewrite bind_Ok. set (hd := concat (header_bytes <$> (block_header <$> red)) ++ [pt]).
  assert (len hd = 4 * len red + 1) as Hhd by (unfold hd; by rewrite len_app, len_concat_headers, len_fmap).
  change (pt :: concat (rb_data <$> red) ++ data) with ([pt] ++ concat (rb_data <$> red) ++ data).
  rewrite app_assoc. fold hd. replace (0 + 4 * len red + 1) with (len hd) by lia. rewrite red_data_wire, bind_Ok.
  pose proof (len_nonneg hd). pose proof (len_nonneg (concat (rb_data <$> red))). pose proof (len_nonneg data).
  rewrite app_assoc, get_range_Some by (rewrite !len_app; lia). rewrite sub_app_end by (rewrite !len_app; lia). done.
Qed.

(** ... and accepts nothing else, without ever panicking. *)
Lemma red_parse_inv payload : bytes_ok payload ->
  match RedPacket_parse payload with
  | Panic => False
  | Err _ => True
  | Ok p => packet_ok p /\ payload = red_wire p
  end.
Proof.
  intros Hb. unfold RedPacket_parse. pose proof (red_headers_inv 34 [] payload [] Hb) as H.
  change (len []) with 0 in H. change (len []) with 0 in H. cbn [app] in H. specialize (H ltac:(unfold MAX_RED_BLOCKS; lia) ltac:(unfold MAX_RED_BLOCKS; lia)).
  destruct (red_headers 34 payload 0 []) as [[[hs pt] c]| |]; [|exact I|done].
  destruct H as (hs' & pt' & tail & -> & Hok & Hpt & Hlen & [= -> -> ->]). rewrite bind_Ok.
  set (hd := concat (header_bytes <$> hs') ++ [pt']).
  assert (len hd = 4 * len hs' + 1) as Hhd by (unfold hd; by rewrite len_app, len_concat_headers).
  change (concat (header_bytes <$> hs') ++ pt' :: tail) with (concat (header_bytes <$> hs') ++ [pt'] ++ tail).
  rewrite app_assoc. fold hd. replace (0 + 4 * len hs' + 1) with (len hd) by lia.
  pose proof (red_data_inv hs' hd tail Hok) as H. destruct (red_data _ _ _) as [[bs c]| |]; [|exact I|done].
  destruct H as (data & -> & -> & ->). rewrite bind_Ok. unfold mret, res_ret, packet_ok, red_wire. cbn.
  pose proof (len_nonneg hd). pose proof (len_nonneg (concat (rb_data <$> bs))). pose proof (len_nonneg data).
  rewrite app_assoc, get_range_Some by (rewrite !len_app; lia). rewrite sub_app_end by (rewrite !len_app; lia). cbn [default].
  rewrite Forall_fmap in Hok. change (len ([] ++ _)) with (len (block_header <$> bs)) in Hlen. rewrite len_fmap in *.
  split_and!; try done || lia. unfold hd. by rewrite <- !app_assoc.
Qed.

(** ** The builder *)

Definition generation_block (b : RedBuilder) (g : RedGeneration) : RedBlock :=
  mkRedBlock (Z.land (rg_payload_type g) 0x7F)
    (wrapping_sub 32 (rbd_primary_rtp_timestamp b) (rg_rtp_timestamp g)) (rg_data g).

(** The packet a builder describes. *)
Definition builder_packet (b : RedBuilder) : RedPacket :=
  mkRedPacket (generation_block b <$> rbd_redundant b)
    (mkRedBlock (Z.land (rbd_primary_payload_type b) 0x7F) 0 (rbd_primary_data b)).

(** Every field of generation [g] fits its header. *)
Definition generation_fits (b : RedBuilder) (g : RedGeneration) : Prop :=
  wrapping_sub 32 (rbd_primary_rtp_timestamp b) (rg_rtp_timestamp g) < 2 ^ 14 /\ len (rg_data g) < 2 ^ 10.

Definition builder_fits (b : RedBuilder) : Prop :=
  len (rbd_redundant b) <= MAX_RED_BLOCKS /\ Forall (generation_fits b) (rbd_redundant b).

Lemma land_7F x : 0 <= Z.land x 0x7F < 128.
Proof. change 0x7F with (Z.ones 7). rewrite Z.land_ones by lia. apply Z.mod_pos_bound. lia. Qed.

Lemma generation_header_ok b g : generation_fits b g -> header_ok (block_header (generation_block b g)).
Proof.
  intros [Ho Hl]. pose proof (land_7F (rg_payload_type g)). pose proof (len_nonneg (rg_data g)).
  unfold wrapping_sub, wrap in *. pose proof (Z.mod_pos_bound (rbd_primary_rtp_timestamp b - rg_rtp_timestamp g) (2 ^ 32)).
  unfold header_ok, block_header. cbn [generation_block rb_payload_type rb_timestamp_offset rb_data].
  unfold wrapping_sub, wrap. lia.
Qed.

Lemma generation_data b (gs : list RedGeneration) : rb_data <$> (generation_block b <$> gs) = rg_data <$> gs.
Proof. by rewrite <- list_fmap_compose. Qed.

Lemma validated_spec b g :
  match validated_offset_length b g with
  | Ok (off, n) => generation_fits b g /\ (Z.land (rg_payload_type g) 0x7F, off, n) = block_header (generation_block b g)
  | Err _ => ~ generation_fits b g
  | Panic => False
  end.
Proof.
  unfold validated_offset_length, generation_fits, MAX_TIMESTAMP_OFFSET, MAX_BLOCK_LENGTH.
  change (Z.shiftl 1 14 - 1) with 16383. change (Z.shiftl 1 10 - 1) with 1023.
  destruct (Z.ltb_spec 16383 (wrapping_sub 32 (rbd_primary_rtp_timestamp b) (rg_rtp_timestamp g))); [lia|].
  destruct (Z.ltb_spec 1023 (len (rg_data g))); [lia|]. cbn. split; [lia|done].
Qed.

(** The header loop writes the headers of the blocks, or stops at the first
    generation that does not fit; the length pass stops in the same place. *)
Lemma write_headers_spec b gs : forall out total,
  match write_red_headers b gs out with
  | (Ok _, out') => Forall (generation_fits b) gs /\
      out' = out ++ concat (header_bytes <$> (block_header <$> (generation_block b <$> gs))) /\
      add_block_lengths b gs total = Ok (total + 4 * len gs + len (concat (rg_data <$> gs)))
  | (Err e, _) => ~ Forall (generation_fits b) gs /\ add_block_lengths b gs total = Err e
  | (Panic, _) => False
  end.
Proof.
  induction gs as [|g gs IH]; intros out total; cbn [write_red_headers add_block_lengths].
  { cbn [fmap list_fmap concat]. rewrite app_nil_r. split_and!; [constructor|done|]. unfold mret, res_ret. f_equal. change (len []) with 0. change (len []) with 0. lia. }
  pose proof (validated_spec b g) as Hv.
  destruct (validated_offset_length b g) as [[off n]|e|]; [|split; [|done]; intros H; by apply Forall_cons_1 in H as [? _]|done].
  destruct Hv as [Hfit Hh]. assert (header_ok (Z.land (rg_payload_type g) 0x7F, off, n)) as Hok.
  { rewrite Hh. by apply generation_header_ok. }
  rewrite header_word_bytes by done. rewrite bind_Ok. specialize (IH (out ++ header_bytes (Z.land (rg_payload_type g) 127, off, n)) (total + (4 + n))).
  destruct (write_red_headers _ _ _) as [[u|e|] out']; [| |done].
  - destruct IH as (Hall & -> & ->). split_and!; [by constructor| |].
    + cbn [fmap list_fmap concat]. by rewrite Hh, app_assoc.
    + cbn [fmap list_fmap concat]. rewrite len_cons, len_app. injection Hh as _ ->. f_equal. cbn. lia.
  - destruct IH as [Hn ->]. split; [|done]. intros H. by apply Forall_cons_1 in H as [_ ?].
Qed.

Lemma write_into_spec b :
  match RedBuilder_write_into b with
  | (Ok n, out) => builder_fits b /\ out = red_wire (builder_packet b) /\ n = len out /\ RedBuilder_encoded_len b = Ok n
  | (Err e, _) => ~ builder_fits b /\ RedBuilder_encoded_len b = Err e
  | (Panic, _) => False
  end.
Proof.
  unfold RedBuilder_write_into, RedBuilder_encoded_len, builder_fits.
  destruct (Z.ltb_spec MAX_RED_BLOCKS (len (rbd_redundant b))); [split; [lia|done]|].
  pose proof (write_headers_spec b (rbd_redundant b) [] (1 + len (rbd_primary_data b))) as H1.
  destruct (write_red_headers _ _ _) as [[u|e|] out]; [| |done].
  - destruct H1 as (Hall & -> & ->). split; [done|]. unfold red_wire, builder_packet. cbn [rp_redundant rp_primary rb_payload_type rb_data].
    rewrite generation_data. split_and!; [done|done|]. f_equal. cbn [app].
    rewrite len_app, len_concat_headers, !len_fmap, len_cons, len_app. lia.
  - split; [naive_solver|naive_solver].
Qed.

Lemma builder_packet_ok b : builder_fits b -> packet_ok (builder_packet b).
Proof.
  intros [Hlen Hall]. unfold packet_ok, builder_packet. cbn [rp_redundant rp_primary rb_payload_type rb_timestamp_offset].
  rewrite len_fmap, Forall_fmap. split_and!; try done; try apply land_7F. revert Hall. apply Forall_impl.
  intros g Hg. by apply generation_header_ok.
Qed.

Lemma red_wire_bytes p : bytes_ok (red_wire p) ->
  bytes_ok (concat (rb_data <$> rp_redundant p)) /\ bytes_ok (rb_data (rp_primary p)).
Proof. unfold red_wire. rewrite !bytes_ok_app. tauto. Qed.

(** RED coding is exact.  The parser never panics and accepts precisely the
    byte strings of the RFC 2198 layout with at most 32 redundant blocks, returning
    the packet they lay out.  The builder succeeds exactly when the generations fit
    their header fields, announces the length it writes (errors included), and
    what it writes is parsed back as the packet it was given. *)
Lemma red_coding_exact :
  (forall payload, bytes_ok payload -> no_panic (RedPacket_parse payload) /\
     forall p, RedPacket_parse payload = Ok p <-> packet_ok p /\ payload = red_wire p) /\
  (forall b, bytes_ok (rbd_primary_data b) -> bytes_ok (concat (rg_data <$> rbd_redundant b)) ->
     RedBuilder_encoded_len b = fst (RedBuilder_write_into b) /\
     (builder_fits b -> exists out, RedBuilder_write_into b = (Ok (len out), out) /\
        RedPacket_parse out = Ok (builder_packet b)) /\
     (~ builder_fits b -> exists e, fst (RedBuilder_write_into b) = Err e)).
Proof.
  split.
  - intros payload Hb. pose proof (red_parse_inv payload Hb) as Hinv. split.
    { by destruct (RedPacket_parse payload). }
    intros p. split; [intros Hp; by rewrite Hp in Hinv|].
    intros [Hok ->]. apply red_wire_bytes in Hb as [? ?]. by apply red_parse_wire.
  - intros b Hp Hr. pose proof (write_into_spec b) as Hw. destruct (RedBuilder_write_into b) as [[n|e|] out]; [| |done].
    + destruct Hw as (Hfit & Hout & -> & ->). split_and!; [done| |done]. intros _. exists out. split; [done|].
      rewrite Hout. apply red_parse_wire; [by apply builder_packet_ok| |done].
      cbn [builder_packet rp_redundant]. by rewrite generation_data.
    + destruct Hw as [Hn ->]. split_and!; [done|done|]. by exists e.
Qed.

(** ** Decoding text *)

Abbreviation chars := (Forall (fun c => char_ok c = true)).

(** The pending bytes: a lead byte that announces more bytes than are there. *)
Definition pending_ok (p : bytes) : Prop :=
  match p with [] => True | lead :: _ => exists n, utf8_lead_length lead = Some n /\ len p < n <= 4 end.

(** The pending bytes of well-formed text: a proper prefix of a character. *)
Definition split_char (p : bytes) : Prop := p = [] \/ exists q, q <> [] /\ char_ok (p ++ q) = true.

Lemma lead_length_width b : 2 <= utf8_width b -> utf8_lead_length b = Some (utf8_width b).
Proof.
  intros Hw. assert (is_byte b) as Hb.
  { unfold is_byte. revert Hw. unfold utf8_width. repeat case_match; rewrite ?andb_true_iff in *; lia. }
  pose proof (byte_forall (fun b => (utf8_width b <? 2) || match utf8_lead_length b with Some n => n =? utf8_width b | None => false end)
    b ltac:(vm_compute; reflexivity) Hb) as H.
  cbn beta in H. rewrite (proj2 (Z.ltb_ge _ _)) in H by lia. cbn [orb] in H.
  destruct (utf8_lead_length b); [|done]. apply Z.eqb_eq in H. by subst.
Qed.

Lemma marker_valid : utf8_valid MISSING_TEXT_MARKER.
Proof. reflexivity. Qed.

Lemma chars_valid cs : chars cs -> utf8_valid (concat cs).
Proof. intros H. apply valid_chars. by exists cs. Qed.

Lemma char_valid c : char_ok c = true -> utf8_valid c.
Proof. intros H. rewrite <- (app_nil_r c). unfold utf8_valid. by rewrite run_char. Qed.

Lemma from_utf8_valid l : utf8_valid l -> from_utf8 l = Some l.
Proof. unfold from_utf8, utf8_valid. by intros ->. Qed.

Lemma from_utf8_Some l t : from_utf8 l = Some t -> t = l /\ utf8_valid l.
Proof. unfold from_utf8, utf8_valid. destruct (utf8_run 0 l); [|done]. by intros [= <-]. Qed.

(** One turn of the decoding loop. *)
Lemma decode_turn fuel bs output : exists cs tail, chars cs /\ bs = concat cs ++ tail /\
  match utf8_run 0 bs with
  | Utf8Ok => tail = [] /\ decode_text (S fuel) bs output = Ok (output ++ concat cs, [])
  | Utf8Err v None => v = len (concat cs) /\ 1 <= len tail <= 3 /\ len tail < utf8_width (byte_of tail 0) /\
      decode_text (S fuel) bs output = Ok (output ++ concat cs, tail)
  | Utf8Err _ (Some bad) => 1 <= bad <= len tail /\
      decode_text (S fuel) bs output =
      decode_text fuel (drop (Z.to_nat bad) tail) (output ++ concat cs ++ MISSING_TEXT_MARKER)
  end.
Proof.
  destruct (run_spec bs 0) as (cs & tail & Hc & -> & Hr). exists cs, tail. split; [done|]. split; [done|].
  pose proof (len_nonneg (concat cs)). pose proof (len_nonneg tail). cbn [decode_text].
  destruct (utf8_run 0 (concat cs ++ tail)) as [|v [bad|]].
  - subst tail. by rewrite app_nil_r.
  - destruct Hr as (-> & Hb & Hl). split; [lia|]. rewrite (slice_Ok _ 0 (0 + _)) by (rewrite ?len_app; lia). rewrite bind_Ok. cbv zeta.
    rewrite sub_app_begin, from_utf8_valid by (done || by apply chars_valid).
    rewrite slice_Ok by (rewrite ?len_app; lia). rewrite bind_Ok, <- app_assoc. f_equal.
    rewrite sub_app_r by (rewrite ?len_app; lia). unfold sub. rewrite len_app, take_ge;
      [f_equal; lia|]. rewrite length_drop. unfold len in *. lia.
  - destruct Hr as (-> & Hl & Hw & _). split; [lia|]. split; [lia|]. split; [lia|].
    rewrite (slice_Ok _ 0 (0 + _)) by (rewrite ?len_app; lia). rewrite bind_Ok. cbv zeta.
    rewrite sub_app_begin, from_utf8_valid by (done || by apply chars_valid).
    rewrite slice_Ok by (rewrite ?len_app; lia). rewrite bind_Ok, sub_app_end by (rewrite ?len_app; lia).
    rewrite Z.min_l by lia. rewrite slice_Ok by lia. rewrite bind_Ok, sub_full. done.
Qed.

Lemma incomplete_pending tail : 1 <= len tail <= 3 -> len tail < utf8_width (byte_of tail 0) -> pending_ok tail.
Proof.
  intros Hl Hw. destruct tail as [|b t]; [done|]. cbn [pending_ok]. change (byte_of (b :: t) 0) with b in Hw.
  exists (utf8_width b). rewrite lead_length_width by lia. pose proof (width_cases b). split; [done|lia].
Qed.

(** On any bytes the loop ends, emits valid text, three bytes at most per byte it
    consumes, and leaves a lead byte short of its announced length. *)
Lemma decode_safe fuel : forall bs output, (length bs < fuel)%nat ->
  exists text p, decode_text fuel bs output = Ok (output ++ text, p) /\ utf8_valid text /\ pending_ok p /\
    len text + 3 * len p <= 3 * len bs.
Proof.
  induction fuel as [|fuel IH]; intros bs output Hf; [lia|].
  destruct (decode_turn fuel bs output) as (cs & tail & Hc & Hbs & Ht). apply chars_valid in Hc.
  pose proof (len_nonneg (concat cs)). pose proof (len_app (concat cs) tail) as Hlen. rewrite <- Hbs in Hlen.
  destruct (utf8_run 0 bs) as [|v [bad|]].
  - destruct Ht as [-> ->]. exists (concat cs), []. rewrite len_nil in *. split_and!; [done|done|done|lia].
  - destruct Ht as [Hb ->]. destruct (IH (drop (Z.to_nat bad) tail) (output ++ concat cs ++ MISSING_TEXT_MARKER))
      as (text & p & -> & Hv & Hp & Hle).
    { rewrite length_drop. unfold len in *. lia. }
    exists (concat cs ++ MISSING_TEXT_MARKER ++ text), p. rewrite len_drop in Hle. split_and!; [by rewrite <- !app_assoc| |done|].
    + apply valid_app; [done|]. apply valid_app; [apply marker_valid|done].
    + rewrite !len_app. change (len MISSING_TEXT_MARKER) with 3. lia.
  - destruct Ht as (_ & Hl & Hw & ->). exists (concat cs), tail. split_and!; [done|done|by apply incomplete_pending|lia].
Qed.

Lemma fill_spec needed bs : forall p, len p <= needed <= 4 ->
  fill_partial needed p bs = Ok (p ++ take (Z.to_nat (needed - len p)) bs, drop (Z.to_nat (needed - len p)) bs).
Proof.
  induction bs as [|b bs IH]; intros p Hp; cbn [fill_partial].
  { by rewrite take_nil, drop_nil, app_nil_r. }
  destruct (Z.ltb_spec (len p) needed).
  - rewrite (proj2 (Z.ltb_lt _ 4)) by lia. rewrite IH; rewrite len_app; change (len [b]) with 1; [|lia].
    replace (Z.to_nat (needed - len p)) with (S (Z.to_nat (needed - (len p + 1)))) by lia.
    cbn [take drop]. by rewrite <- app_assoc.
  - replace (Z.to_nat (needed - len p)) with 0%nat by lia. cbn. by rewrite app_nil_r.
Qed.

(** [push_text] with the pending character still short, and with it complete. *)
Lemma push_short r bs lead n : head (tr_partial r) = Some lead -> utf8_lead_length lead = Some n ->
  len (tr_partial r) + len bs < n <= 4 ->
  push_text r bs = Ok (set_text r (tr_partial r ++ bs) (tr_output r)).
Proof.
  intros Hh Hn Hl. unfold push_text. destruct (tr_partial r) as [|b t] eqn:Hp; [done|]. injection Hh as ->. rewrite Hn, <- Hp in *.
  pose proof (len_nonneg bs). rewrite fill_spec, bind_Ok by lia. rewrite take_ge by (unfold len in *; lia).
  rewrite len_app, (proj2 (Z.ltb_lt _ _)) by lia. done.
Qed.

Lemma push_complete r bs lead n : head (tr_partial r) = Some lead -> utf8_lead_length lead = Some n ->
  len (tr_partial r) < n <= 4 -> n <= len (tr_partial r) + len bs ->
  let k := Z.to_nat (n - len (tr_partial r)) in
  let c := tr_partial r ++ take k bs in
  push_text r bs =
  '(output, partial) ← decode_text (S (length (drop k bs))) (drop k bs)
                         (tr_output r ++ default MISSING_TEXT_MARKER (from_utf8 c));
  Ok (set_text r partial output).
Proof.
  intros Hh Hn Hl Hlen. unfold push_text. destruct (tr_partial r) as [|b t] eqn:Hp; [done|]. injection Hh as ->.
  rewrite Hn, <- Hp in *. rewrite fill_spec, bind_Ok by lia.
  set (k := Z.to_nat (n - len (tr_partial r))). set (c := tr_partial r ++ take k bs).
  assert (len c = n) as Hc. { unfold c. rewrite len_app, len_take. lia. }
  rewrite Hc, Z.ltb_irrefl, slice_Ok, bind_Ok by (pose proof (len_nonneg (tr_partial r)); lia).
  rewrite <- Hc, sub_full. by destruct (from_utf8 c).
Qed.

Lemma push_safe r bs : pending_ok (tr_partial r) -> exists text p,
  push_text r bs = Ok (set_text r p (tr_output r ++ text)) /\ utf8_valid text /\ pending_ok p /\
  len text + 3 * len p <= 3 * (len (tr_partial r) + len bs).
Proof.
  intros Hp. pose proof (len_nonneg (tr_partial r)). pose proof (len_nonneg bs). destruct (tr_partial r) as [|lead t] eqn:Hpart.
  { unfold push_text. rewrite Hpart. destruct (decode_safe (S (length bs)) bs (tr_output r)) as (text & p & -> & Hv & Hpd & Hle); [lia|].
    exists text, p. rewrite bind_Ok, len_nil. split_and!; [done|done|done|lia]. }
  destruct Hp as (n & Hn & Hl). assert (head (tr_partial r) = Some lead) as Hh by (by rewrite Hpart). rewrite <- Hpart in *.
  destruct (Z.lt_ge_cases (len (tr_partial r) + len bs) n).
  - exists [], (tr_partial r ++ bs). rewrite (push_short r bs lead n) by (done || lia). rewrite app_nil_r.
    split_and!; [done|done| |rewrite len_app; change (len []) with 0; lia].
    rewrite Hpart. cbn [app pending_ok]. exists n. split; [done|]. rewrite Hpart in *. autorewrite with len_db in *. lia.
  - rewrite (push_complete r bs lead n) by (done || lia). set (k := Z.to_nat (n - len (tr_partial r))).
    set (c := from_utf8 _). destruct (decode_safe (S (length (drop k bs))) (drop k bs) (tr_output r ++ default MISSING_TEXT_MARKER c))
      as (text & p & -> & Hv & Hpd & Hle); [lia|].
    exists (default MISSING_TEXT_MARKER c ++ text), p. rewrite bind_Ok, <- app_assoc. rewrite len_drop in Hle.
    assert (utf8_valid (default MISSING_TEXT_MARKER c) /\ len (default MISSING_TEXT_MARKER c) <= 3 * n) as [Hvc Hlc].
    { unfold c. destruct (from_utf8 _) as [x|] eqn:Hx; cbn [default].
      - apply from_utf8_Some in Hx as [-> Hx]. split; [done|]. unfold id. rewrite len_app, len_take. unfold k. lia.
      - split; [apply marker_valid|]. change (len MISSING_TEXT_MARKER) with 3. lia. }
    split_and!; [done|by apply valid_app|done|]. rewrite len_app. unfold k in *. lia.
Qed.

Lemma set_text_set r p q o o' : set_text (set_text r p o) q o' = set_text r q o'.
Proof. done. Qed.

Lemma push_blocks_safe blocks : forall r, pending_ok (tr_partial r) -> exists text p,
  push_blocks r blocks = Ok (set_text r p (tr_output r ++ text)) /\ utf8_valid text /\ pending_ok p /\
  len text + 3 * len p <= 3 * (len (tr_partial r) + len (concat (rb_data <$> blocks))).
Proof.
  induction blocks as [|b blocks IH]; intros r Hp; cbn [push_blocks].
  { exists [], (tr_partial r). rewrite app_nil_r. cbn [fmap list_fmap concat]. split_and!; [by destruct r|done|done|].
    change (len []) with 0. lia. }
  destruct (push_safe r (rb_data b) Hp) as (t1 & p1 & -> & Hv1 & Hp1 & Hl1). rewrite bind_Ok.
  destruct (IH (set_text r p1 (tr_output r ++ t1)) Hp1) as (t2 & p2 & -> & Hv2 & Hp2 & Hl2).
  exists (t1 ++ t2), p2. cbn [set_text tr_output tr_partial fmap list_fmap concat] in *. rewrite !len_app, app_assoc.
  split_and!; [done|by apply valid_app|done|lia].
Qed.

(** ** Hostile packets *)

Lemma push_tail_safe blocks primary r : pending_ok (tr_partial r) -> exists text p,
  (r ← push_blocks r blocks; push_text r primary) = Ok (set_text r p (tr_output r ++ text)) /\
  utf8_valid text /\ pending_ok p /\
  len text + 3 * len p <= 3 * (len (tr_partial r) + len (concat (rb_data <$> blocks)) + len primary).
Proof.
  intros Hp. destruct (push_blocks_safe blocks r Hp) as (t1 & p1 & -> & Hv1 & Hp1 & Hl1). rewrite bind_Ok.
  destruct (push_safe (set_text r p1 (tr_output r ++ t1)) primary Hp1) as (t2 & p2 & -> & Hv2 & Hp2 & Hl2).
  exists (t1 ++ t2), p2. cbn [set_text tr_output tr_partial] in *. rewrite !len_app, app_assoc.
  split_and!; [done|by apply valid_app|done|lia].
Qed.

(** [deliver] on a packet ahead of the one owed, its two text passes joined. *)
Lemma deliver_ahead r expected sequence redundant primary :
  tr_expected_sequence r = Some expected -> 0 <= sequence_distance sequence expected ->
  let ahead := sequence_distance sequence expected in
  let recoverable := Z.min ahead (len redundant) in
  let lost := recoverable <? ahead in
  let recovered := sub redundant (len redundant - recoverable) (len redundant) in
  let start := if lost then set_text r [] (tr_output r ++ MISSING_TEXT_MARKER) else r in
  deliver r sequence redundant primary =
  r ← (r ← push_blocks start recovered; push_text r primary);
  Ok (mkT140Output (tr_output r) (b2z lost) (len recovered), set_expected r (wrapping_add 16 sequence 1)).
Proof.
  intros He Ha. cbv zeta. unfold deliver. rewrite He, (proj2 (Z.ltb_ge _ _)) by done.
  set (ahead := sequence_distance sequence expected) in *. pose proof (len_nonneg redundant).
  set (k := Z.min ahead (len redundant)). assert ((0 <? ahead - k) = (k <? ahead)) as ->.
  { destruct (Z.ltb_spec 0 (ahead - k)), (Z.ltb_spec k ahead); lia. }
  assert (@slice unit _ redundant (len redundant - k) (len redundant) = Ok (sub redundant (len redundant - k) (len redundant)))
    as -> by (apply slice_Ok; lia).
  destruct (k <? ahead); rewrite bind_Ok; destruct (push_blocks _ _) as [r'| |]; try done;
    rewrite !bind_Ok; by destruct (push_text _ _).
Qed.

Lemma len_concat_sub {A} (f : A -> bytes) (l : list A) a : 0 <= a <= len l ->
  len (concat (f <$> sub l a (len l))) <= len (concat (f <$> l)).
Proof.
  intros Ha. rewrite <- (sub_full l) at 3. rewrite (sub_split l 0 a (len l)), fmap_app, concat_app, len_app by lia.
  pose proof (len_nonneg (concat (f <$> sub l 0 a))). lia.
Qed.

(** What holds of the output of any packet. *)
Definition output_ok (bound : Z) (out : T140Output) : Prop :=
  utf8_valid (to_text out) /\ len (to_text out) <= 3 * bound + 12 /\ 0 <= to_missing_markers out <= 1 /\
  0 <= to_recovered_from_redundancy out <= MAX_RED_BLOCKS.

Lemma pending_len p : pending_ok p -> len p <= 3.
Proof. destruct p as [|b t]; [change (len (@nil Z)) with 0; lia|]. cbn [pending_ok]. intros (n & _ & H). lia. Qed.

Lemma deliver_safe r sequence redundant primary : pending_ok (tr_partial r) -> tr_output r = [] ->
  len redundant <= MAX_RED_BLOCKS ->
  exists out r', deliver r sequence redundant primary = Ok (out, r') /\ pending_ok (tr_partial r') /\
    output_ok (len (concat (rb_data <$> redundant)) + len primary) out.
Proof.
  intros Hp Ho Hr. pose proof (pending_len _ Hp). pose proof (len_nonneg redundant) as Hr0. unfold output_ok.
  pose proof (len_nonneg (concat (rb_data <$> redundant))). pose proof (len_nonneg primary).
  destruct (tr_expected_sequence r) as [expected|] eqn:He.
  2: { unfold deliver. rewrite He. destruct (push_safe r primary Hp) as (t & p & -> & Hv & Hpd & Hle).
       rewrite bind_Ok. eexists _, _. split; [done|]. split; [done|]. cbn [to_text to_missing_markers to_recovered_from_redundancy set_expected set_text tr_output].
       rewrite Ho. cbn [app]. pose proof (len_nonneg p). split_and!; done || lia. }
  destruct (Z.lt_ge_cases (sequence_distance sequence expected) 0) as [Hneg|Hpos].
  { unfold deliver. rewrite He, (proj2 (Z.ltb_lt _ _)) by done. eexists _, _. split; [done|]. split; [done|].
    cbn [to_text to_missing_markers to_recovered_from_redundancy]. rewrite Ho. change (len (@nil Z)) with 0.
    split_and!; done || lia. }
  rewrite (deliver_ahead r expected) by done. cbv zeta.
  set (k := Z.min _ _). assert (0 <= k <= len redundant) as Hk by lia.
  set (start := if _ <? _ then _ else _). set (lost := _ <? _) in *.
  assert (pending_ok (tr_partial start) /\ utf8_valid (tr_output start) /\ len (tr_output start) + 3 * len (tr_partial start) <= 12) as (Hps & Hvs & Hls).
  { unfold start. destruct lost; cbn [set_text tr_partial tr_output]; rewrite Ho; cbn [app].
    - change (len MISSING_TEXT_MARKER) with 3. change (len (@nil Z)) with 0. split_and!; [done|apply marker_valid|lia].
    - change (len (@nil Z)) with 0. split_and!; [done|done|lia]. }
  destruct (push_tail_safe (sub redundant (len redundant - k) (len redundant)) primary start Hps) as (t & p & -> & Hv & Hpd & Hle).
  pose proof (len_concat_sub rb_data redundant (len redundant - k) ltac:(lia)). pose proof (len_nonneg p).
  rewrite bind_Ok. eexists _, _. split; [done|]. split; [done|].
  cbn [to_text to_missing_markers to_recovered_from_redundancy set_text tr_output].
  rewrite len_app, len_sub by lia. split_and!; [by apply valid_app|lia| | |lia|lia]; destruct lost; cbn; lia.
Qed.

(** One received packet: sequence number, timestamp, payload, RED or bare. *)
Definition t140_packet : Type := Z * Z * bytes * bool.

Definition packet_payload (p : t140_packet) : bytes := let '(_, _, payload, _) := p in payload.

(** Packets fed one after the other. *)
Fixpoint t140_run (r : T140Reassembler) (packets : list t140_packet)
  : list (res RedError T140Output) * T140Reassembler :=
  match packets with
  | [] => ([], r)
  | (sequence, timestamp, payload, is_red) :: packets =>
      let '(out, r) := on_packet r sequence timestamp payload is_red in
      let '(outs, r) := t140_run r packets in
      (out :: outs, r)
  end.

Lemma len_wire p : len (concat (rb_data <$> rp_redundant p)) + len (rb_data (rp_primary p)) <= len (red_wire p).
Proof.
  unfold red_wire. rewrite !len_app. change (len [_]) with 1.
  pose proof (len_nonneg (concat (header_bytes <$> (block_header <$> rp_redundant p)))). lia.
Qed.

(** A packet is refused, with its parse error, or its output is sound. *)
Lemma on_packet_safe r sequence timestamp payload is_red : pending_ok (tr_partial r) -> bytes_ok payload ->
  pending_ok (tr_partial (snd (on_packet r sequence timestamp payload is_red))) /\
  match fst (on_packet r sequence timestamp payload is_red) with
  | Ok out => output_ok (len payload) out
  | Err e => is_red = true /\ RedPacket_parse payload = Err e
  | Panic => False
  end.
Proof.
  intros Hp Hb. unfold on_packet. cbv zeta. set (r0 := mkT140Reassembler _ _ _ _).
  assert (pending_ok (tr_partial r0)) as Hp0 by done.
  destruct is_red.
  - pose proof (red_parse_inv payload Hb) as Hinv. destruct (RedPacket_parse payload) as [p|e|]; [|done|done].
    destruct Hinv as [(_ & Hlen & _) ->]. rewrite bind_Ok.
    destruct (deliver_safe r0 sequence (rp_redundant p) (rb_data (rp_primary p)) Hp0 eq_refl Hlen) as (out & r' & Hd & Hp' & Ho).
    unfold mret, res_ret. rewrite Hd. split; [done|]. cbn [fst]. pose proof (len_wire p). unfold output_ok in *.
    split_and!; try apply Ho. destruct Ho as (_ & Ho & _). lia.
  - destruct (deliver_safe r0 sequence [] payload Hp0 eq_refl) as (out & r' & Hd & Hp' & Ho).
    { change (len (@nil RedBlock)) with 0. unfold MAX_RED_BLOCKS. lia. }
    unfold mret, res_ret. rewrite Hd. done.
Qed.

(** Real-time text survives any input.  Whatever packets arrive, in whatever order
    and with whatever bytes, the reassembler never panics (its loops end, every
    index is in range); a packet is refused only when it is RED and malformed; the
    text of every other packet is valid UTF-8, at most three bytes per payload byte
    and twelve more however large the sequence gap, with at most one missing-text
    marker for the gap; and at most three bytes stay pending. *)
Lemma t140_hostile_safe packets :
  Forall (fun p => bytes_ok (packet_payload p)) packets ->
  let '(outs, r) := t140_run T140Reassembler_new packets in
  length outs = length packets /\ len (tr_partial r) <= 3 /\
  Forall2 (fun '(sequence, timestamp, payload, is_red) out =>
    match out with
    | Ok out => utf8_valid (to_text out) /\ len (to_text out) <= 3 * len payload + 12 /\
        0 <= to_missing_markers out <= 1 /\ 0 <= to_recovered_from_redundancy out <= MAX_RED_BLOCKS
    | Err e => is_red = true /\ RedPacket_parse payload = Err e
    | Panic => False
    end) packets outs.
Proof.
  assert (pending_ok (tr_partial T140Reassembler_new)) as Hp by done. revert Hp.
  generalize T140Reassembler_new. induction packets as [|[[[s ts] payload] red] packets IH]; intros r Hp Hall.
  - cbn [t140_run]. split_and!; [done|by apply pending_len|constructor].
  - apply Forall_cons_1 in Hall as [Hb Hall]. cbn [packet_payload] in Hb. cbn [t140_run].
    pose proof (on_packet_safe r s ts payload red Hp Hb) as [Hp' Ho]. destruct (on_packet r s ts payload red) as [out r'].
    cbn [fst snd] in *. specialize (IH r' Hp' Hall). destruct (t140_run r' packets) as [outs r''].
    destruct IH as (Hlen & Hpart & Hall2). split_and!; [cbn; lia|done|]. constructor; [|done]. by destruct out.
Qed.

(** ** Faithful text *)

(** A prefix of characters is characters and the start of one more. *)
Lemma prefix_chars cs : forall bs rest, chars cs -> bs ++ rest = concat cs ->
  exists cs1 tail, chars cs1 /\ bs = concat cs1 ++ tail /\ split_char tail.
Proof.
  induction cs as [|c cs IH]; intros bs rest Hc Heq.
  { apply app_eq_nil in Heq as [-> _]. exists [], []. split_and!; [constructor|done|by left]. }
  apply Forall_cons_1 in Hc as [Hc Hcs]. cbn [concat] in Heq.
  apply app_eq_inv in Heq as [(k & -> & Heq)|(k & -> & Heq)].
  - destruct (IH k rest Hcs (eq_sym Heq)) as (cs1 & tail & Hcs1 & -> & Ht). exists (c :: cs1), tail.
    split_and!; [by constructor|cbn [concat]; by rewrite app_assoc|done].
  - destruct k as [|b k].
    + exists [bs], []. rewrite app_nil_r in *. cbn [concat]. rewrite !app_nil_r. split_and!; [by constructor|done|by left].
    + exists [], bs. split_and!; [constructor|done|]. right. by exists (b :: k).
Qed.

Lemma decode_split fuel bs rest output : utf8_valid (bs ++ rest) ->
  exists text p, decode_text (S fuel) bs output = Ok (output ++ text, p) /\ text ++ p = bs /\ utf8_valid text /\ split_char p.
Proof.
  intros Hv. apply valid_chars in Hv as (cs & Hcs & Heq). destruct (prefix_chars cs bs rest Hcs Heq) as (cs1 & tail & Hcs1 & Hbs & Ht).
  destruct (decode_turn fuel bs output) as (cs2 & tail2 & Hcs2 & Hbs2 & Hturn). destruct (decide (tail = [])) as [->|Hne].
  - assert (utf8_run 0 bs = Utf8Ok) as Hrun. { rewrite Hbs, app_nil_r. by apply chars_valid. }
    rewrite Hrun in Hturn. destruct Hturn as [-> ->]. exists (concat cs2), [].
    split_and!; [done|done|by apply chars_valid|by left].
  - destruct Ht as [?|(q & Hq & Hchar)]; [done|].
    assert (utf8_run 0 bs = Utf8Err (len (concat cs1)) None) as Hrun.
    { rewrite Hbs, run_chars by done. by rewrite (run_prefix _ tail q). }
    rewrite Hrun in Hturn. destruct Hturn as (Hlen & _ & _ & ->). rewrite Hbs in Hbs2.
    apply app_inj_1 in Hbs2 as [Hc <-]; [|unfold len in Hlen; lia]. exists (concat cs2), tail.
    split_and!; [done|by rewrite <- Hc|by apply chars_valid|right; by exists q].
Qed.

(** A pending prefix of the first character of valid text: the rest of that
    character, and the characters after it. *)
Lemma split_char_view p text : split_char p -> p <> [] -> utf8_valid (p ++ text) ->
  exists lead k more, head p = Some lead /\ utf8_lead_length lead = Some (len p + len k) /\ len p + len k <= 4 /\
    k <> [] /\ char_ok (p ++ k) = true /\ text = k ++ more /\ utf8_valid more.
Proof.
  intros [?|(q & Hq & Hchar)] Hne Hv; [done|]. destruct p as [|lead t]; [done|].
  apply valid_chars in Hv as (cs & Hcs & Heq). destruct Hcs as [|c cs Hc Hcs]; [done|]. cbn [concat] in Heq.
  pose proof (char_width _ lead (t ++ q) Hchar eq_refl) as Hw. rewrite len_app in Hw. pose proof (char_len _ Hchar) as Hl4.
  rewrite len_app in Hl4. assert (1 <= len q) by (destruct q; [done|]; rewrite len_cons; pose proof (len_nonneg q); lia).
  assert (utf8_width lead = len c) as Hwc.
  { destruct c as [|b c]; [done|]. injection Heq as -> _. by apply (char_width _ b c). }
  apply app_eq_inv in Heq as [(k & Hk & _)|(k & -> & ->)].
  { rewrite Hk, len_app in *. pose proof (len_nonneg k). lia. }
  rewrite len_app in Hwc. exists lead, k, (concat cs). rewrite lead_length_width by (rewrite len_cons in *; pose proof (len_nonneg t); lia).
  split_and!; [done|by rewrite Hwc|lia| |done|done|by apply chars_valid].
  intros ->. change (len (@nil Z)) with 0 in Hwc. lia.
Qed.

(** A block whose bytes continue valid text is emitted or kept, byte for byte. *)
Lemma push_split r bs rest : utf8_valid (tr_partial r ++ bs ++ rest) -> split_char (tr_partial r) ->
  exists text p, push_text r bs = Ok (set_text r p (tr_output r ++ text)) /\ text ++ p = tr_partial r ++ bs /\
    utf8_valid text /\ split_char p.
Proof.
  intros Hv Hs. destruct (decide (tr_partial r = [])) as [Hp|Hne].
  { rewrite Hp in *. unfold push_text. rewrite Hp. destruct (decode_split (length bs) bs rest (tr_output r) Hv) as (t & p & -> & <- & Hvt & Hsp).
    exists t, p. done. }
  destruct (split_char_view _ _ Hs Hne Hv) as (lead & k & more & Hh & Hn & H4 & Hk & Hc & Heq & Hmore).
  assert ((exists bs', bs = k ++ bs' /\ more = bs' ++ rest) \/ (exists k', k' <> [] /\ k = bs ++ k')) as [(bs' & -> & ->)|(k' & Hk' & ->)].
  { apply app_eq_inv in Heq as [(bs' & -> & ->)|([|b k'] & -> & Hrest)]; [left; by exists bs'| |right; by exists (b :: k')].
    left. exists []. rewrite !app_nil_r. done. }
  - rewrite (push_complete r _ lead (len (tr_partial r) + len k));
      [|done|done|destruct k; [done|]; rewrite len_cons in *; pose proof (len_nonneg k); lia|rewrite len_app; pose proof (len_nonneg bs'); lia].
    replace (Z.to_nat (len (tr_partial r) + len k - len (tr_partial r))) with (length k) by (unfold len; lia).
    rewrite take_app_length, drop_app_length, from_utf8_valid by (by apply char_valid).
    destruct (decode_split (length bs') bs' rest (tr_output r ++ tr_partial r ++ k) Hmore) as (t & p & Hd & <- & Hvt & Hsp).
    cbn [default]. unfold id. rewrite Hd, bind_Ok. exists ((tr_partial r ++ k) ++ t), p. rewrite <- !app_assoc.
    split_and!; [done|done| |done]. rewrite app_assoc. apply valid_app; [by apply char_valid|done].
  - rewrite len_app in *. assert (1 <= len k') by (destruct k'; [done|]; rewrite len_cons; pose proof (len_nonneg k'); lia).
    rewrite (push_short r bs lead (len (tr_partial r) + (len bs + len k'))) by (done || lia).
    exists [], (tr_partial r ++ bs). rewrite app_nil_r. split_and!; [done|done|done|]. right. exists k'. split; [done|].
    by rewrite <- app_assoc.
Qed.

Lemma push_blocks_split blocks : forall r rest,
  utf8_valid (tr_partial r ++ concat (rb_data <$> blocks) ++ rest) -> split_char (tr_partial r) ->
  exists text p, push_blocks r blocks = Ok (set_text r p (tr_output r ++ text)) /\
    text ++ p = tr_partial r ++ concat (rb_data <$> blocks) /\ utf8_valid text /\ split_char p.
Proof.
  induction blocks as [|b blocks IH]; intros r rest Hv Hs; cbn [push_blocks fmap list_fmap concat] in *.
  { exists [], (tr_partial r). rewrite !app_nil_r. split_and!; [by destruct r|done|done|done]. }
  rewrite <- app_assoc in Hv. destruct (push_split r (rb_data b) _ Hv Hs) as (t1 & p1 & -> & H1 & Hv1 & Hs1). rewrite bind_Ok.
  rewrite app_assoc, <- H1, <- app_assoc in Hv. apply valid_app_inv in Hv; [|done].
  destruct (IH (set_text r p1 (tr_output r ++ t1)) rest Hv Hs1) as (t2 & p2 & -> & H2 & Hv2 & Hs2).
  cbn [set_text tr_partial tr_output] in *. exists (t1 ++ t2), p2. split_and!; [by rewrite app_assoc| |by apply valid_app|done].
  by rewrite <- app_assoc, H2, app_assoc, H1, app_assoc.
Qed.

(** ** A sender and its packets *)

(** The generations of a stream, (timestamp, text) in sending order; generation
    [i] travels as the primary of sequence number [base + i]. *)
Record t140_sender : Type := mkSender { sd_base : Z; sd_payload_type : Z; sd_gens : list (Z * bytes) }.

Definition generation (s : t140_sender) (i : Z) : Z * bytes := nth (Z.to_nat i) (sd_gens s) (0, []).

(** The text of generations [a] to [b - 1]. *)
Definition text_range (s : t140_sender) (a b : Z) : bytes := concat (snd <$> sub (sd_gens s) a b).

(** Generation [i] with [k] redundant generations. *)
Definition sender_builder (s : t140_sender) (i k : Z) : RedBuilder :=
  mkRedBuilder (sd_payload_type s) (fst (generation s i)) (snd (generation s i))
    ((fun g => mkRedGeneration (sd_payload_type s) (fst g) (snd g)) <$> sub (sd_gens s) (i - k) i).

(** A delivered packet: generation [i], as RED with some redundancy or bare. *)
Definition sender_packet (s : t140_sender) (d : Z * option Z) : t140_packet :=
  let '(i, red) := d in
  match red with
  | Some k => (wrap 16 (sd_base s + i), fst (generation s i), snd (RedBuilder_write_into (sender_builder s i k)), true)
  | None => (wrap 16 (sd_base s + i), fst (generation s i), snd (generation s i), false)
  end.

Definition redundancy (red : option Z) : Z := default 0 red.

(** What the sender can send: an existing generation, no more redundancy than
    there is history, fields that fit. *)
Definition sendable (s : t140_sender) (d : Z * option Z) : Prop :=
  let '(i, red) := d in
  0 <= i < len (sd_gens s) /\ 0 <= redundancy red <= i /\
  match red with Some k => builder_fits (sender_builder s i k) | None => True end.

(** The specification: a receiver that knows the index of the next generation it
    owes.  A packet behind it says nothing; one ahead delivers everything from the
    next generation on that it carries, after one marker if that leaves a gap. *)
Definition spec_step (s : t140_sender) (next : option Z) (d : Z * option Z) : T140Output * option Z :=
  let '(i, red) := d in
  match next with
  | None => (mkT140Output (text_range s i (i + 1)) 0 0, Some (i + 1))
  | Some n =>
      if i <? n then (mkT140Output [] 0 0, Some n) else
      let from := Z.max n (i - redundancy red) in
      let lost := n <? from in
      (mkT140Output ((if lost then MISSING_TEXT_MARKER else []) ++ text_range s from (i + 1)) (b2z lost) (i - from),
       Some (i + 1))
  end.

Fixpoint spec_run (s : t140_sender) (next : option Z) (ds : list (Z * option Z)) : list T140Output * option Z :=
  match ds with
  | [] => ([], next)
  | d :: ds =>
      let '(out, next) := spec_step s next d in
      let '(outs, next) := spec_run s next ds in
      (out :: outs, next)
  end.

(** Every packet can be sent and is within half the sequence space of the next
    generation owed. *)
Fixpoint in_window (s : t140_sender) (next : option Z) (ds : list (Z * option Z)) : Prop :=
  match ds with
  | [] => True
  | d :: ds =>
      sendable s d /\ match next with Some n => -2 ^ 15 <= fst d - n < 2 ^ 15 | None => True end /\
      in_window s (snd (spec_step s next d)) ds
  end.

(** No packet leaves a gap its redundancy does not cover. *)
Fixpoint covered (s : t140_sender) (next : option Z) (ds : list (Z * option Z)) : Prop :=
  match ds with
  | [] => True
  | d :: ds =>
      match next with Some n => fst d - redundancy (snd d) <= n | None => True end /\
      covered s (snd (spec_step s next d)) ds
  end.

Lemma distance_index s i n : -2 ^ 15 <= i - n < 2 ^ 15 ->
  sequence_distance (wrap 16 (sd_base s + i)) (wrap 16 (sd_base s + n)) = i - n.
Proof.
  intros H. unfold sequence_distance, wrapping_sub, wrap. rewrite <- Zminus_mod.
  replace (sd_base s + i - (sd_base s + n)) with (i - n) by lia. unfold to_signed. change (16 - 1) with 15.
  destruct (Z.ltb_spec ((i - n) mod 2 ^ 16) (2 ^ 15)); Z.to_euclidean_division_equations; lia.
Qed.

Lemma next_index s i : wrapping_add 16 (wrap 16 (sd_base s + i)) 1 = wrap 16 (sd_base s + (i + 1)).
Proof. unfold wrapping_add, wrap. rewrite Zplus_mod_idemp_l. f_equal. lia. Qed.

Lemma generation_range s i : 0 <= i < len (sd_gens s) -> text_range s i (i + 1) = snd (generation s i).
Proof.
  intros Hi. unfold text_range, generation. destruct (@idx_in_range unit _ (sd_gens s) i Hi) as (g & Hg & Hl).
  rewrite (sub_one _ _ _ Hg). cbn. rewrite app_nil_r. by rewrite (nth_lookup_Some _ _ _ _ Hl).
Qed.

Lemma text_range_split s a b c : 0 <= a <= b -> b <= c -> text_range s a c = text_range s a b ++ text_range s b c.
Proof. intros. unfold text_range. by rewrite (sub_split _ a b c), fmap_app, concat_app by lia. Qed.

(** The blocks a packet carries. *)
Definition sender_blocks (s : t140_sender) (i k : Z) : list RedBlock :=
  rp_redundant (builder_packet (sender_builder s i k)).

Lemma sender_blocks_data s i k : rb_data <$> sender_blocks s i k = snd <$> sub (sd_gens s) (i - k) i.
Proof.
  unfold sender_blocks, builder_packet. cbn [rp_redundant]. rewrite generation_data. cbn [sender_builder rbd_redundant].
  by rewrite <- list_fmap_compose.
Qed.

(** The last [m] blocks of a packet. *)
Lemma sender_blocks_tail s i k m : 0 <= m <= k -> k <= i < len (sd_gens s) ->
  concat (rb_data <$> sub (sender_blocks s i k) (k - m) k) = text_range s (i - m) i.
Proof.
  intros Hm Hk. unfold text_range. f_equal.
  assert (forall A B (f : A -> B) l a b, f <$> sub l a b = sub (f <$> l) a b) as Hsub.
  { intros. unfold sub. by rewrite fmap_take, fmap_drop. }
  rewrite Hsub, sender_blocks_data, <- Hsub, sub_sub by lia. do 2 f_equal; lia.
Qed.

Lemma len_sender_blocks s i k : 0 <= k <= i -> i < len (sd_gens s) -> len (sender_blocks s i k) = k.
Proof. intros. unfold sender_blocks. cbn [builder_packet rp_redundant sender_builder rbd_redundant]. rewrite !len_fmap, len_sub; lia. Qed.

Lemma push_tail_split r blocks primary rest :
  utf8_valid (tr_partial r ++ (concat (rb_data <$> blocks) ++ primary) ++ rest) -> split_char (tr_partial r) ->
  exists text p, (r ← push_blocks r blocks; push_text r primary) = Ok (set_text r p (tr_output r ++ text)) /\
    text ++ p = tr_partial r ++ concat (rb_data <$> blocks) ++ primary /\ utf8_valid text /\ split_char p.
Proof.
  intros Hv Hs. rewrite <- app_assoc in Hv. destruct (push_blocks_split blocks r _ Hv Hs) as (t1 & p1 & -> & H1 & Hv1 & Hs1).
  rewrite bind_Ok. rewrite app_assoc, <- H1, <- app_assoc in Hv. apply valid_app_inv in Hv; [|done].
  destruct (push_split (set_text r p1 (tr_output r ++ t1)) primary rest Hv Hs1) as (t2 & p2 & -> & H2 & Hv2 & Hs2).
  cbn [set_text tr_partial tr_output] in *. exists (t1 ++ t2), p2. split_and!; [by rewrite app_assoc| |by apply valid_app|done].
  by rewrite <- app_assoc, H2, app_assoc, H1, <- app_assoc.
Qed.

(** A packet at or ahead of the next generation owed, when the text it adds
    continues the pending bytes. *)
Lemma deliver_split s r n i k rest : tr_expected_sequence r = Some (wrap 16 (sd_base s + n)) -> tr_output r = [] ->
  split_char (tr_partial r) -> 0 <= n <= i -> i < len (sd_gens s) -> 0 <= k <= i -> i - n < 2 ^ 15 ->
  let from := Z.max n (i - k) in
  let lost := n <? from in
  let mark := if lost then MISSING_TEXT_MARKER else [] in
  let kept := if lost then [] else tr_partial r in
  utf8_valid (kept ++ text_range s from (i + 1) ++ rest) ->
  exists text p,
    deliver r (wrap 16 (sd_base s + i)) (sender_blocks s i k) (text_range s i (i + 1)) =
    Ok (mkT140Output (mark ++ text) (b2z lost) (i - from),
        set_expected (set_text r p (mark ++ text)) (wrap 16 (sd_base s + (i + 1)))) /\
    text ++ p = kept ++ text_range s from (i + 1) /\ utf8_valid text /\ split_char p.
Proof.
  intros He Ho Hs Hn Hi Hk Hw. cbv zeta. set (from := Z.max n (i - k)). intros Hv.
  rewrite (deliver_ahead r (wrap 16 (sd_base s + n))); [|done|rewrite distance_index; lia]. cbv zeta.
  rewrite distance_index, len_sender_blocks, next_index by lia.
  assert (Z.min (i - n) k = i - from) as -> by lia. assert ((i - from <? i - n) = (n <? from)) as ->.
  { destruct (Z.ltb_spec (i - from) (i - n)), (Z.ltb_spec n from); lia. }
  set (start := if n <? from then _ else r). pose proof (sender_blocks_tail s i k (i - from)) as Hb.
  replace (i - (i - from)) with from in Hb by lia. specialize (Hb ltac:(lia) ltac:(lia)).
  assert (tr_partial start = if n <? from then [] else tr_partial r) as Hp by (unfold start; by destruct (n <? from)).
  assert (tr_output start = if n <? from then MISSING_TEXT_MARKER else []) as Hout.
  { unfold start. destruct (n <? from); cbn [set_text tr_output]; by rewrite Ho. }
  assert (split_char (tr_partial start)) as Hss by (rewrite Hp; destruct (n <? from); [by left|done]).
  rewrite (text_range_split s from i (i + 1)) in * by lia. rewrite <- Hb, <- Hp in Hv |- *.
  destruct (push_tail_split start _ _ rest Hv Hss) as (text & p & -> & Heq & Hvt & Hsp).
  exists text, p. rewrite bind_Ok. rewrite len_sub by (rewrite ?len_sender_blocks; lia). cbn [set_text tr_output]. rewrite Hout.
  split_and!; [|done|done|done]. unfold start. replace (k - (k - (i - from))) with (i - from) by lia. by destruct (n <? from).
Qed.

(** Feeding a sender's packet: the payload is parsed back into its blocks. *)
Definition feed (s : t140_sender) (r : T140Reassembler) (d : Z * option Z) : res RedError T140Output * T140Reassembler :=
  let '(sequence, timestamp, payload, is_red) := sender_packet s d in on_packet r sequence timestamp payload is_red.

Definition gens_ok (s : t140_sender) : Prop := Forall (fun g => bytes_ok (snd g)) (sd_gens s).

Lemma text_range_bytes s a b : gens_ok s -> bytes_ok (text_range s a b).
Proof.
  intros H. unfold text_range. assert (Forall (fun g => bytes_ok (snd g)) (sub (sd_gens s) a b)) as Hs.
  { unfold sub. by apply Forall_take, Forall_drop. }
  induction Hs; cbn [fmap list_fmap concat]; [constructor|]. by apply bytes_ok_app.
Qed.

Lemma feed_deliver s r i red : gens_ok s -> sendable s (i, red) -> exists h,
  feed s r (i, red) =
  let r0 := mkT140Reassembler (tr_expected_sequence r) h (tr_partial r) [] in
  match deliver r0 (wrap 16 (sd_base s + i)) (sender_blocks s i (redundancy red)) (text_range s i (i + 1)) with
  | Ok (out, r) => (Ok out, r)
  | _ => (Panic, r0)
  end.
Proof.
  intros Hg (Hi & Hk & Hfit). unfold feed, sender_packet. rewrite generation_range by done. destruct red as [k|].
  - cbn [redundancy default] in *. unfold on_packet, id in *. cbv zeta. eexists.
    pose proof (write_into_spec (sender_builder s i k)) as Hw.
    destruct (RedBuilder_write_into _) as [[m|e|] out]; [|by destruct Hw|done].
    destruct Hw as (_ & -> & _). cbn [snd]. rewrite red_parse_wire; [done|by apply builder_packet_ok| |].
    + change (rp_redundant (builder_packet (sender_builder s i k))) with (sender_blocks s i k). rewrite sender_blocks_data.
      by apply text_range_bytes.
    + cbn [builder_packet rp_primary rb_data sender_builder rbd_primary_data]. rewrite <- generation_range by done.
      by apply text_range_bytes.
  - unfold on_packet. cbv zeta. eexists. change (redundancy None) with 0. unfold sender_blocks.
    cbn [builder_packet rp_redundant sender_builder rbd_redundant]. rewrite Z.sub_0_r, sub_nil. done.
Qed.

Lemma run_feed s r d packets :
  t140_run r (sender_packet s d :: packets) =
  let '(out, r) := feed s r d in let '(outs, r) := t140_run r packets in (out :: outs, r).
Proof. unfold feed. cbn [t140_run]. by destruct (sender_packet s d) as [[[sq ts] payload] red]. Qed.

(** The receiver stands where the specification does. *)
Definition tracks (s : t140_sender) (next : option Z) (r : T140Reassembler) : Prop :=
  tr_expected_sequence r = (fun n => wrap 16 (sd_base s + n)) <$> next /\
  match next with Some n => 0 <= n <= len (sd_gens s) | None => True end.

Lemma text_range_valid s a b : Forall (fun g => utf8_valid (snd g)) (sd_gens s) -> utf8_valid (text_range s a b).
Proof.
  intros H. unfold text_range. assert (Forall (fun g => utf8_valid (snd g)) (sub (sd_gens s) a b)) as Hs.
  { unfold sub. by apply Forall_take, Forall_drop. }
  induction Hs; cbn [fmap list_fmap concat]; [done|]. by apply valid_app.
Qed.

Lemma split_valid_nil p : split_char p -> utf8_valid p -> p = [].
Proof.
  intros [?|(q & Hq & Hc)] Hv; [done|]. destruct (decide (p = [])) as [|Hp]; [done|].
  pose proof (run_prefix 0 p q Hc Hp Hq) as Hr. unfold utf8_valid in Hv. by rewrite Hv in Hr.
Qed.

(** A packet that arrives behind the next generation owed changes nothing. *)
Lemma deliver_behind s r n i blocks primary : tr_expected_sequence r = Some (wrap 16 (sd_base s + n)) -> tr_output r = [] ->
  i < n -> -2 ^ 15 <= i - n -> deliver r (wrap 16 (sd_base s + i)) blocks primary = Ok (mkT140Output [] 0 0, r).
Proof. intros He Ho Hi Hw. unfold deliver. rewrite He, distance_index, (proj2 (Z.ltb_lt _ _)), Ho by lia. done. Qed.

(** Whole characters per generation: the packet's output is the specification's. *)
Lemma feed_whole s r next i red : gens_ok s -> Forall (fun g => utf8_valid (snd g)) (sd_gens s) ->
  sendable s (i, red) -> match next with Some n => -2 ^ 15 <= i - n < 2 ^ 15 | None => True end ->
  tracks s next r -> tr_partial r = [] -> exists r',
  feed s r (i, red) = (Ok (fst (spec_step s next (i, red))), r') /\ tracks s (snd (spec_step s next (i, red))) r' /\
  tr_partial r' = [].
Proof.
  intros Hg Hall Hsend Hw [He Hn] Hp. destruct (feed_deliver s r i red Hg Hsend) as [h ->]. cbv zeta.
  destruct Hsend as (Hi & Hk & _). set (r0 := mkT140Reassembler _ _ _ _). assert (tr_partial r0 = []) as Hp0 by done.
  assert (forall a t p, t ++ p = text_range s a (i + 1) -> utf8_valid t -> split_char p -> t = text_range s a (i + 1) /\ p = []) as Hwhole.
  { intros a t p Ht Hv Hs. pose proof (text_range_valid s a (i + 1) Hall) as Hv'. rewrite <- Ht in Hv'.
    apply valid_app_inv in Hv'; [|done]. apply split_valid_nil in Hv'; [|done]. subst p. by rewrite app_nil_r in Ht. }
  destruct next as [n|]; cbn [fmap option_fmap option_map] in He.
  - unfold spec_step. destruct (Z.ltb_spec i n).
    { rewrite (deliver_behind s r0 n) by (done || lia). eexists. split; [done|]. done. }
    pose proof (text_range_valid s (Z.max n (i - redundancy red)) (i + 1) Hall) as Hv.
    destruct (deliver_split s r0 n i (redundancy red) []) as (t & p & -> & Ht & Hvt & Hsp); try done; try lia.
    { rewrite Hp0. by left. }
    { rewrite app_nil_r, Hp0. by destruct (n <? _). }
    destruct (Hwhole (Z.max n (i - redundancy red)) t p) as [-> ->]; [|done|done|]. { rewrite Ht, Hp0. by destruct (n <? _). }
    eexists. split; [done|]. split; [|done]. split; [done|]. cbn [snd]. lia.
  - unfold deliver. change (tr_expected_sequence r0) with (tr_expected_sequence r). rewrite He.
    destruct (push_split r0 (text_range s i (i + 1)) []) as (t & p & -> & Ht & Hvt & Hsp).
    { rewrite Hp0, app_nil_r. by apply text_range_valid. }
    { rewrite Hp0. by left. }
    rewrite Hp0 in Ht. destruct (Hwhole i t p Ht Hvt Hsp) as [-> ->].
    rewrite bind_Ok. eexists. split; [done|]. split; [|done]. split; [by rewrite next_index|]. cbn [snd spec_step]. lia.
Qed.

(** C6. Real-time text refines its specification.  A sender puts whole characters in
    every generation and sends each with any redundancy, RED or bare; its packets
    arrive lost, duplicated and reordered at will, within half the sequence space
    (sequence numbers wrap).  Then every packet's text, marker and recovery count
    are those of a receiver that knows the true index of the next generation owed:
    each generation's text comes out at most once and in order, whatever the
    redundancy reaches is recovered, and one marker stands for each gap it does not. *)
Theorem t140_refines_spec s ds :
  gens_ok s -> Forall (fun g => utf8_valid (snd g)) (sd_gens s) -> in_window s None ds ->
  fst (t140_run T140Reassembler_new (sender_packet s <$> ds)) = Ok <$> fst (spec_run s None ds).
Proof.
  intros Hg Hall. assert (tracks s None T140Reassembler_new) as Ht by done.
  assert (tr_partial T140Reassembler_new = []) as Hp by done. revert Ht Hp.
  generalize T140Reassembler_new. generalize (@None Z). induction ds as [|[i red] ds IH]; intros next r Ht Hp Hw; [done|].
  destruct Hw as (Hsend & Hd & Hw). destruct (feed_whole s r next i red Hg Hall Hsend Hd Ht Hp) as (r' & Hf & Ht' & Hp').
  rewrite fmap_cons, run_feed, Hf. cbn [spec_run]. specialize (IH _ r' Ht' Hp' Hw).
  destruct (t140_run r' (sender_packet s <$> ds)) as [outs r'']. destruct (spec_step s next (i, red)) as [out next'].
  cbn [fst snd] in *. destruct (spec_run s next' ds) as [outs' next'']. cbn [fst] in *. by rewrite fmap_cons, IH.
Qed.

(** A covered packet extends the text, the pending bytes included. *)
Lemma feed_lossless s r n i red : gens_ok s -> sendable s (i, red) -> -2 ^ 15 <= i - n < 2 ^ 15 ->
  i - redundancy red <= n -> tracks s (Some n) r -> split_char (tr_partial r) ->
  utf8_valid (tr_partial r ++ text_range s n (len (sd_gens s))) ->
  exists out r' n', feed s r (i, red) = (Ok out, r') /\ snd (spec_step s (Some n) (i, red)) = Some n' /\
    tracks s (Some n') r' /\ split_char (tr_partial r') /\ utf8_valid (to_text out) /\
    to_text out ++ tr_partial r' = tr_partial r ++ text_range s n n' /\ n <= n' /\ i < n' /\ to_missing_markers out = 0.
Proof.
  intros Hg Hsend Hw Hcov [He Hn] Hs Hv. destruct (feed_deliver s r i red Hg Hsend) as [h ->]. cbv zeta.
  destruct Hsend as (Hi & Hk & _). set (r0 := mkT140Reassembler _ _ _ _).
  unfold spec_step. destruct (Z.ltb_spec i n).
  { rewrite (deliver_behind s r0 n) by (done || lia). eexists _, r0, n. cbn [to_text to_missing_markers snd].
    split_and!; try done; try lia. unfold text_range. by rewrite sub_nil, app_nil_r. }
  rewrite (text_range_split s n (i + 1)) in Hv by lia.
  pose proof (deliver_split s r0 n i (redundancy red) (text_range s (i + 1) (len (sd_gens s)))) as H1. cbv zeta in H1.
  rewrite Z.max_l, Z.ltb_irrefl in H1 by lia. destruct H1 as (t & p & -> & Ht & Hvt & Hsp); try done; try lia.
  eexists _, _, (i + 1). cbn [to_text to_missing_markers snd app set_expected set_text tr_partial b2z].
  split_and!; try done; try lia. split; [done|lia].
Qed.

Lemma run_lossless s ds : forall r n, gens_ok s -> in_window s (Some n) ds -> covered s (Some n) ds ->
  tracks s (Some n) r -> split_char (tr_partial r) -> utf8_valid (tr_partial r ++ text_range s n (len (sd_gens s))) ->
  exists outs r' n', t140_run r (sender_packet s <$> ds) = (Ok <$> outs, r') /\
    concat (to_text <$> outs) ++ tr_partial r' = tr_partial r ++ text_range s n n' /\ split_char (tr_partial r') /\
    n <= n' /\ Forall (fun d => fst d < n') ds /\ Forall (fun out => to_missing_markers out = 0) outs.
Proof.
  induction ds as [|[i red] ds IH]; intros r n Hg Hw Hc Ht Hs Hv.
  { exists [], r, n. split_and!; try done; try lia. unfold text_range. by rewrite sub_nil, app_nil_r. }
  destruct Hw as (Hsend & Hd & Hw), Hc as [Hcov Hc]. pose proof Ht as [_ Hn].
  destruct (feed_lossless s r n i red Hg Hsend Hd Hcov Ht Hs Hv) as (out & r1 & n1 & Hf & Hstep & Ht1 & Hs1 & Hvo & Heq & Hle & Hlt & Hm).
  rewrite Hstep in Hw, Hc. pose proof Ht1 as [_ Hn1].
  rewrite (text_range_split s n n1), app_assoc, <- Heq, <- app_assoc in Hv by lia. apply valid_app_inv in Hv; [|done].
  destruct (IH r1 n1 Hg Hw Hc Ht1 Hs1 Hv) as (outs & r' & n' & Hrun & Heq' & Hs' & Hle' & Hall & Hm').
  exists (out :: outs), r', n'. rewrite !fmap_cons, run_feed, Hf, Hrun. cbn [concat].
  split_and!; try done; try lia; [|constructor; [cbn [fst]; lia|done]|by constructor].
  by rewrite <- app_assoc, Heq', app_assoc, Heq, <- app_assoc, (text_range_split s n n1 n') by lia.
Qed.

(** No text is lost while redundancy covers the losses.  The sender's text from
    generation [j] on is UTF-8 but may be cut into generations anywhere, also inside
    a character.  The receiver joins at [j]; packets are then lost, duplicated and
    reordered, every one of them carrying enough redundancy to reach the next
    generation owed.  Every packet is accepted, no marker is inserted, and the texts
    emitted, followed by the at most three bytes pending, are the sender's text up
    to the newest generation received: each byte once, in order. *)
Lemma t140_lossless s j red ds :
  gens_ok s -> utf8_valid (text_range s j (len (sd_gens s))) ->
  in_window s None ((j, red) :: ds) -> covered s None ((j, red) :: ds) ->
  exists outs r n, t140_run T140Reassembler_new (sender_packet s <$> (j, red) :: ds) = (Ok <$> outs, r) /\
    concat (to_text <$> outs) ++ tr_partial r = text_range s j n /\ split_char (tr_partial r) /\
    Forall (fun d => fst d < n) ((j, red) :: ds) /\ Forall (fun out => to_missing_markers out = 0) outs.
Proof.
  intros Hg Hv (Hsend & _ & Hw) [_ Hc]. cbn [spec_step snd] in Hw, Hc.
  destruct (feed_deliver s T140Reassembler_new j red Hg Hsend) as [h Hf]. destruct Hsend as (Hj & _ & _).
  rewrite (text_range_split s j (j + 1)) in Hv by lia. cbv zeta in Hf. unfold deliver in Hf.
  cbn [T140Reassembler_new tr_expected_sequence tr_partial] in Hf.
  destruct (push_split (mkT140Reassembler None h [] []) _ _ Hv) as (t & p & Hp & Ht & Hvt & Hsp); [by left|].
  rewrite Hp, bind_Ok in Hf. unfold mret, res_ret in Hf. cbn [tr_partial app] in Ht.
  rewrite <- Ht, <- app_assoc in Hv. apply valid_app_inv in Hv; [|done].
  set (r1 := set_expected _ _) in Hf.
  destruct (run_lossless s ds r1 (j + 1) Hg Hw Hc) as (outs & r' & n & Hrun & Heq & Hs & Hle & Hall & Hm); [|done|done|].
  { split; [|lia]. cbn [r1 set_expected tr_expected_sequence fmap option_fmap option_map]. by rewrite next_index. }
  rewrite fmap_cons, run_feed, Hf, Hrun. exists (mkT140Output t 0 0 :: outs), r', n. rewrite !fmap_cons. cbn [concat to_text].
  split_and!; [done| |done|constructor; [cbn [fst]; lia|done]|by constructor].
  rewrite <- app_assoc, Heq. cbn [r1 set_expected set_text tr_partial]. by rewrite app_assoc, Ht, <- text_range_split by lia.
Qed.

Lemma lead_then_ascii lead a rest : utf8_width lead <> 1 -> 0 <= a < 0x80 -> from_utf8 (lead :: a :: rest) = None.
Proof.
  intros Hw Ha. unfold from_utf8. cbn [utf8_run]. rewrite (proj2 (Z.eqb_neq _ _) Hw).
  destruct (utf8_width lead =? 0); [done|]. assert (second_ok lead a = false) as ->; [|done].
  unfold second_ok, continuation. repeat case_match; lia.
Qed.

(** A character cut short by the sender swallows the text that follows it in the
    next block: completing the pending lead byte takes its announced number of
    bytes whatever they are, so well-formed text there becomes part of the one
    replacement character. *)
Lemma truncated_char_swallows_text r lead n text : tr_partial r = [lead] -> utf8_lead_length lead = Some n ->
  utf8_width lead <> 1 -> 2 <= n <= 4 -> len text = n - 1 -> Forall (fun b => 0 <= b < 0x80) text ->
  push_text r text = Ok (set_text r [] (tr_output r ++ MISSING_TEXT_MARKER)).
Proof.
  intros Hp Hn Hw H2 Hl Ha. assert (len (tr_partial r) = 1) as Hp1 by (by rewrite Hp).
  rewrite (push_complete r text lead n); [|by rewrite Hp|done|lia|lia]. rewrite Hp1, Hp. rewrite take_ge, drop_ge by (unfold len in *; lia).
  destruct Ha as [|a text Ha]; [change (len (@nil Z)) with 0 in Hl; lia|]. cbn [app].
  rewrite lead_then_ascii by done. cbn [decode_text utf8_run length default]. by rewrite app_nil_r.
Qed.

(** In one block the same bytes keep the text. *)
Example whole_block_keeps_text :
  push_text T140Reassembler_new [0xE2; 0x61; 0x62] =
  Ok (set_text T140Reassembler_new [] (MISSING_TEXT_MARKER ++ [0x61; 0x62])).
Proof. reflexivity. Qed.

(** ** Witnesses *)

(** Four generations, the characters é and € whole. *)
Definition demo_sender : t140_sender :=
  mkSender 65534 98 [(0, [0x48; 0xC3; 0xA9]); (300, [0x6C]); (600, [0xE2; 0x82; 0xAC]); (900, [0x6F]); (1200, [0x21])].

(** The same text cut inside both characters. *)
Definition split_sender : t140_sender :=
  mkSender 65534 98 [(0, [0x48; 0xC3]); (300, [0xA9; 0x6C; 0xE2]); (600, [0x82]); (900, [0xAC; 0x6F]); (1200, [0x21])].

Ltac demo_bytes := unfold gens_ok, bytes_ok; cbn; forall_list; cbn; forall_list; unfold is_byte; lia.
Ltac demo_window :=
  cbn [in_window spec_step fst snd redundancy default Z.ltb Z.compare]; unfold sendable, builder_fits, generation_fits;
  cbn -[Z.pow]; repeat split; forall_list; try done; try lia; vm_compute; done.

Lemma t140_refines_spec_witness :
  exists ds, fst (t140_run T140Reassembler_new (sender_packet demo_sender <$> ds)) = Ok <$> fst (spec_run demo_sender None ds) /\
    fst (spec_run demo_sender None ds) =
    [mkT140Output [0x48; 0xC3; 0xA9] 0 0; mkT140Output (MISSING_TEXT_MARKER ++ [0xE2; 0x82; 0xAC; 0x6F]) 1 1;
     mkT140Output [] 0 0; mkT140Output [0x21] 0 0].
Proof.
  exists [(0, Some 0); (3, Some 1); (1, None); (4, Some 2)]. split; [|vm_compute; reflexivity].
  apply (t140_refines_spec demo_sender); [demo_bytes|cbn; forall_list; vm_compute; reflexivity|demo_window].
Defined.

Lemma t140_lossless_witness :
  exists outs r n, t140_run T140Reassembler_new (sender_packet split_sender <$> [(0, None); (2, Some 2); (1, Some 1); (3, Some 2)]) = (Ok <$> outs, r) /\
    concat (to_text <$> outs) ++ tr_partial r = text_range split_sender 0 n /\ split_char (tr_partial r) /\
    Forall (fun d => fst d < n) [(0, None); (2, Some 2); (1, Some 1); (3, Some 2)] /\
    Forall (fun out => to_missing_markers out = 0) outs.
Proof.
  apply (t140_lossless split_sender 0 None [(2, Some 2); (1, Some 1); (3, Some 2)]);
    [demo_bytes|vm_compute; reflexivity|demo_window|].
  repeat split; vm_compute; done.
Defined.

Lemma t140_hostile_safe_witness :
  Forall2 (fun '(sequence, timestamp, payload, is_red) out =>
    match out with
    | Ok out => utf8_valid (to_text out) /\ len (to_text out) <= 3 * len payload + 12 /\
        0 <= to_missing_markers out <= 1 /\ 0 <= to_recovered_from_redundancy out <= MAX_RED_BLOCKS
    | Err e => is_red = true /\ RedPacket_parse payload = Err e
    | Panic => False
    end) [(7, 0, [0xF0; 0x41], false); (60000, 9, [0x80], true); (9, 1, [0xFF], false)]
    (fst (t140_run T140Reassembler_new [(7, 0, [0xF0; 0x41], false); (60000, 9, [0x80], true); (9, 1, [0xFF], false)])).
Proof.
  pose proof (t140_hostile_safe [(7, 0, [0xF0; 0x41], false); (60000, 9, [0x80], true); (9, 1, [0xFF], false)]) as H.
  destruct (t140_run _ _) as [outs r]. apply H. forall_list; unfold packet_payload, bytes_ok; forall_list; unfold is_byte; lia.
Defined.

Lemma red_coding_exact_witness :
  exists out, RedBuilder_write_into (sender_builder demo_sender 2 2) = (Ok (len out), out) /\
    RedPacket_parse out = Ok (builder_packet (sender_builder demo_sender 2 2)).
Proof.
  apply (proj2 red_coding_exact (sender_builder demo_sender 2 2)).
  - demo_bytes.
  - demo_bytes.
  - unfold builder_fits, generation_fits. cbn -[Z.pow]. repeat split; forall_list; vm_compute; done.
Defined.
