(* ===== verification/Dtmf.v ===== *)
(** * DTMF telephone events: crates/siphon-rtp-media/src/dtmf.rs

    The RFC 4733 payload, the detector that collapses a redundant event stream to
    one press, the generator of one event's burst and the player of a digit string.
    Characters are Unicode code points.  One call of [next_step] takes at most two
    turns of its loop, one that retires a drained event and one that answers; its
    fuel is three. *)

From S2P Require Import Prelude.
From stdpp Require Import base list numbers option.
From Stdlib Require Import Lia ZArith.

Open Scope Z_scope.

Inductive DtmfError : Type := TooShort.

(** ** Event codes *)

Definition digit_to_event_code (digit : Z) : option Z :=
  if (48 <=? digit) && (digit <=? 57) then Some (digit - 48)
  else if digit =? 42 then Some 10
  else if digit =? 35 then Some 11
  else if (65 <=? digit) && (digit <=? 68) then Some (12 + (digit - 65))
  else if (97 <=? digit) && (digit <=? 100) then Some (12 + (digit - 97))
  else None.

Definition event_code_to_digit (event_code : Z) : option Z :=
  if (0 <=? event_code) && (event_code <=? 9) then Some (48 + event_code)
  else if event_code =? 10 then Some 42
  else if event_code =? 11 then Some 35
  else if (12 <=? event_code) && (event_code <=? 15) then Some (65 + (event_code - 12))
  else None.

(** ** Parsing and detection *)

Record TelephoneEvent : Type := mkTelephoneEvent { te_event : Z; te_end : bool; te_volume : Z; te_duration : Z }.

Definition TelephoneEvent_parse (payload : bytes) : res DtmfError TelephoneEvent :=
  if len payload <? 4 then Err TooShort else
  event ← idx payload 0;
  flags ← idx payload 1;
  duration ← be16_at payload 2;
  mret (mkTelephoneEvent event (negb (Z.land flags 0x80 =? 0)) (Z.land flags 0x3F) duration).

Definition TelephoneEvent_digit (e : TelephoneEvent) : option Z := event_code_to_digit (te_event e).

Record DtmfEvent : Type := mkDtmfEvent { de_digit : Z; de_event_code : Z; de_duration : Z; de_volume : Z }.

(** The start timestamp of the event being tracked, and whether it was emitted. *)
Record DtmfDetector : Type := mkDtmfDetector { dd_current : option (Z * bool) }.

Definition DtmfDetector_new : DtmfDetector := mkDtmfDetector None.

(** [on_packet] once the payload is parsed. *)
Definition on_event (d : DtmfDetector) (rtp_timestamp : Z) (event : TelephoneEvent) : option DtmfEvent * DtmfDetector :=
  let is_new := negb match dd_current d with Some (timestamp, _) => timestamp =? rtp_timestamp | None => false end in
  let current := if is_new then Some (rtp_timestamp, false) else dd_current d in
  if te_end event then
    match current with
    | Some (timestamp, emitted) =>
        if (timestamp =? rtp_timestamp) && negb emitted then
          (match TelephoneEvent_digit event with
           | Some digit => Some (mkDtmfEvent digit (te_event event) (te_duration event) (te_volume event))
           | None => None
           end, mkDtmfDetector (Some (timestamp, true)))
        else (None, mkDtmfDetector current)
    | None => (None, mkDtmfDetector current)
    end
  else (None, mkDtmfDetector current).

Definition DtmfDetector_on_packet (d : DtmfDetector) (rtp_timestamp : Z) (payload : bytes)
  : res DtmfError (option DtmfEvent) * DtmfDetector :=
  match TelephoneEvent_parse payload with
  | Ok event => let '(press, d) := on_event d rtp_timestamp event in (Ok press, d)
  | Err e => (Err e, d)
  | Panic => (Panic, d)
  end.

(** ** Rescaling *)

Definition EVENT_BLOCK_LEN : Z := 4.

(** One block [event; flags; high; low]. *)
Definition rescale_duration (from_hz to_hz high low : Z) : bytes :=
  be_enc 2 (Z.min (be_dec [high; low] * to_hz / from_hz) 0xFFFF).

(** The loop over [as_chunks_mut]: whole blocks, the remainder untouched. *)
Fixpoint rescale_blocks (from_hz to_hz : Z) (out : bytes) : bytes :=
  match out with
  | event :: flags :: high :: low :: rest =>
      event :: flags :: rescale_duration from_hz to_hz high low ++ rescale_blocks from_hz to_hz rest
  | _ => out
  end.

Definition rescale_event (payload : bytes) (from_hz to_hz : Z) : bytes :=
  if (from_hz =? 0) || (from_hz =? to_hz) then payload else rescale_blocks from_hz to_hz payload.

(** ** Generation *)

Definition DEFAULT_DTMF_VOLUME_DBM0 : Z := 10.
Definition DEFAULT_DTMF_PAUSE_MS : Z := 40.
Definition END_PACKET_REDUNDANCY : Z := 3.

Record DtmfPayload : Type := mkDtmfPayload { dp_bytes : bytes; dp_is_first : bool; dp_is_end : bool }.

Record DtmfGenerator : Type := mkDtmfGenerator {
  dg_event_code : Z;
  dg_volume : Z;
  dg_samples_per_packet : Z;
  dg_total_samples : Z;
  dg_next_duration : Z;
  dg_first_pending : bool;
  dg_end_packets_remaining : Z
}.

(** [((clock_rate_hz as u64 * u64::from(ptime_ms)) / 1000).clamp(1, u16::MAX)] *)
Definition packet_samples (clock_rate_hz ptime_ms : Z) : Z :=
  Z.max 1 (Z.min (clock_rate_hz * ptime_ms / 1000) 0xFFFF).

Definition DtmfGenerator_new (digit duration_ms volume clock_rate_hz ptime_ms : Z) : option DtmfGenerator :=
  event_code ← digit_to_event_code digit;
  let ptime_ms := Z.max ptime_ms 1 in
  let samples_per_packet := packet_samples clock_rate_hz ptime_ms in
  let requested_samples := clock_rate_hz * duration_ms / 1000 in
  let packets := Z.max (div_ceil requested_samples samples_per_packet) 1 in
  let total_samples := Z.min (packets * samples_per_packet) 0xFFFF in
  Some (mkDtmfGenerator event_code (Z.land volume 0x3F) samples_per_packet total_samples 0 true END_PACKET_REDUNDANCY).

Definition payload_bytes (g : DtmfGenerator) (is_end : bool) (duration : Z) : bytes :=
  let end_reserved_volume := Z.lor (Z.shiftl (b2z is_end) 7) (dg_volume g) in
  dg_event_code g :: end_reserved_volume :: be_enc 2 duration.

Definition next_payload (g : DtmfGenerator) : option DtmfPayload * DtmfGenerator :=
  if dg_next_duration g <? dg_total_samples g then
    let next_duration :=
      Z.min (saturating_add 16 (dg_next_duration g) (dg_samples_per_packet g)) (dg_total_samples g) in
    let g' := mkDtmfGenerator (dg_event_code g) (dg_volume g) (dg_samples_per_packet g) (dg_total_samples g)
                next_duration false (dg_end_packets_remaining g) in
    (Some (mkDtmfPayload (payload_bytes g' false next_duration) (dg_first_pending g) false), g')
  else if 0 <? dg_end_packets_remaining g then
    let g' := mkDtmfGenerator (dg_event_code g) (dg_volume g) (dg_samples_per_packet g) (dg_total_samples g)
                (dg_next_duration g) false (dg_end_packets_remaining g - 1) in
    (Some (mkDtmfPayload (payload_bytes g' true (dg_total_samples g)) (dg_first_pending g) true), g')
  else (None, g).

(** ** Digit strings *)

Inductive DtmfStep : Type :=
| Event (payload : DtmfPayload) (timestamp_offset : Z)
| Silence
| Done.

Record DtmfSequence : Type := mkDtmfSequence {
  ds_digits : list Z;
  ds_duration_ms : Z;
  ds_volume : Z;
  ds_clock_rate_hz : Z;
  ds_ptime_ms : Z;
  ds_pause_ticks : Z;
  ds_samples_per_packet : Z;
  ds_current : option DtmfGenerator;
  ds_pause_remaining : Z;
  ds_current_offset : Z
}.

Definition DtmfSequence_new (code : list Z) (duration_ms volume clock_rate_hz ptime_ms pause_ms : Z)
  : option DtmfSequence :=
  if match code with [] => true | _ => false end ||
     existsb (fun digit => match digit_to_event_code digit with None => true | Some _ => false end) code
  then None else
  let ptime_ms := Z.max ptime_ms 1 in
  let samples_per_packet := packet_samples clock_rate_hz ptime_ms in
  let pause_ticks := Z.min (div_ceil pause_ms ptime_ms) (2 ^ 32 - 1) in
  Some (mkDtmfSequence code duration_ms volume clock_rate_hz ptime_ms pause_ticks samples_per_packet None 0 0).

(** The fields [next_step] moves. *)
Definition set_playing (s : DtmfSequence) (digits : list Z) (current : option DtmfGenerator) (pause offset : Z)
  : DtmfSequence :=
  mkDtmfSequence digits (ds_duration_ms s) (ds_volume s) (ds_clock_rate_hz s) (ds_ptime_ms s) (ds_pause_ticks s)
    (ds_samples_per_packet s) current pause offset.

(** [start_next_digit]: the digits left and the generator armed. *)
Fixpoint start_next_digit (s : DtmfSequence) (digits : list Z) : bool * DtmfSequence :=
  match digits with
  | [] => (false, set_playing s [] (ds_current s) (ds_pause_remaining s) (ds_current_offset s))
  | digit :: digits =>
      match DtmfGenerator_new digit (ds_duration_ms s) (ds_volume s) (ds_clock_rate_hz s) (ds_ptime_ms s) with
      | Some generator => (true, set_playing s digits (Some generator) (ds_pause_remaining s) (ds_current_offset s))
      | None => start_next_digit s digits
      end
  end.

Fixpoint next_step_loop (fuel : nat) (s : DtmfSequence) : res unit (DtmfStep * DtmfSequence) :=
  match fuel with
  | O => Panic
  | S fuel =>
      if 0 <? ds_pause_remaining s then
        mret (Silence, set_playing s (ds_digits s) (ds_current s) (ds_pause_remaining s - 1) (ds_current_offset s))
      else
      let '(started, s) :=
        match ds_current s with Some _ => (true, s) | None => start_next_digit s (ds_digits s) end in
      if negb started then mret (Done, s) else
      let offset := ds_current_offset s in
      match ds_current s with
      | None => mret (Done, s)
      | Some generator =>
          match next_payload generator with
          | (Some payload, generator) =>
              mret (Event payload offset,
                    set_playing s (ds_digits s) (Some generator) (ds_pause_remaining s) offset)
          | (None, generator) =>
              match ds_digits s with
              | [] => next_step_loop fuel (set_playing s [] None (ds_pause_remaining s) offset)
              | _ =>
                  let gap := saturating_mul 32 (ds_pause_ticks s) (ds_samples_per_packet s) in
                  next_step_loop fuel
                    (set_playing s (ds_digits s) None (ds_pause_ticks s)
                       (wrapping_add 32 (wrapping_add 32 offset (dg_total_samples generator)) gap))
              end
          end
      end
  end.

Definition next_step (s : DtmfSequence) : res unit (DtmfStep * DtmfSequence) := next_step_loop 3 s.

(** ** Digits and codes *)

Lemma event_code_range digit code : digit_to_event_code digit = Some code -> 0 <= code < 16.
Proof. unfold digit_to_event_code. repeat case_match; intros [= <-]; rewrite ?andb_true_iff in *; lia. Qed.

(** The digit a key is reported as: lower case letters name the same tones. *)
Definition normal_digit (digit : Z) : Z := if (97 <=? digit) && (digit <=? 100) then digit - 32 else digit.

Lemma event_code_digit digit code : digit_to_event_code digit = Some code ->
  event_code_to_digit code = Some (normal_digit digit).
Proof.
  intros H. unfold digit_to_event_code in H. unfold event_code_to_digit, normal_digit.
  repeat case_match; simplify_eq; rewrite ?andb_true_iff, ?andb_false_iff in *; try (f_equal; lia); lia.
Qed.

(** ** The burst of one event *)

(** What every generator built by [new] satisfies. *)
Definition generator_ok (g : DtmfGenerator) : Prop :=
  0 <= dg_event_code g < 16 /\ 0 <= dg_volume g < 64 /\ 1 <= dg_samples_per_packet g /\
  1 <= dg_total_samples g < 2 ^ 16.

(** Update packets of the event. *)
Definition updates (g : DtmfGenerator) : Z := div_ceil (dg_total_samples g) (dg_samples_per_packet g).

(** The generator after [n] packets, and its packet number [n]. *)
Definition generator_at (g : DtmfGenerator) (n : Z) : DtmfGenerator :=
  mkDtmfGenerator (dg_event_code g) (dg_volume g) (dg_samples_per_packet g) (dg_total_samples g)
    (Z.min (n * dg_samples_per_packet g) (dg_total_samples g)) (n =? 0)
    (END_PACKET_REDUNDANCY - Z.max 0 (n - updates g)).

Definition payload_at (g : DtmfGenerator) (n : Z) : DtmfPayload :=
  if n <? updates g
  then mkDtmfPayload (payload_bytes g false (Z.min ((n + 1) * dg_samples_per_packet g) (dg_total_samples g))) (n =? 0) false
  else mkDtmfPayload (payload_bytes g true (dg_total_samples g)) false true.

(** The event on the wire: updates with the duration so far, then three End
    packets with the total. *)
Definition burst_len (g : DtmfGenerator) : Z := updates g + END_PACKET_REDUNDANCY.
Definition burst (g : DtmfGenerator) : list DtmfPayload := payload_at g <$> seqZ 0 (burst_len g).

Lemma updates_spec g n : generator_ok g -> n * dg_samples_per_packet g < dg_total_samples g <-> n < updates g.
Proof.
  intros (_ & _ & Hs & Ht). unfold updates, div_ceil. set (t := dg_total_samples g) in *. set (s := dg_samples_per_packet g) in *.
  pose proof (Z.div_mod (t + s - 1) s ltac:(lia)). pose proof (Z.mod_pos_bound (t + s - 1) s ltac:(lia)).
  set (q := (t + s - 1) / s) in *. set (r := (t + s - 1) mod s) in *. split; intros; nia.
Qed.

Lemma updates_pos g : generator_ok g -> 1 <= updates g.
Proof. intros H. pose proof (updates_spec g 0 H) as [H0 _]. destruct H as (_ & _ & _ & Ht). lia. Qed.

Lemma next_payload_at g n : generator_ok g -> 0 <= n ->
  next_payload (generator_at g n) =
  if n <? burst_len g then (Some (payload_at g n), generator_at g (n + 1)) else (None, generator_at g n).
Proof.
  intros Hg Hn. pose proof (updates_spec g n Hg) as Hu. pose proof (updates_pos g Hg). pose proof Hg as (_ & _ & Hs & Ht).
  unfold next_payload, burst_len, END_PACKET_REDUNDANCY. cbn [generator_at dg_next_duration dg_total_samples dg_samples_per_packet dg_end_packets_remaining].
  destruct (Z.ltb_spec (Z.min (n * dg_samples_per_packet g) (dg_total_samples g)) (dg_total_samples g)).
  - assert (n < updates g) by (apply Hu; lia). rewrite (proj2 (Z.ltb_lt n (_ + 3))) by lia.
    assert (Z.min (saturating_add 16 (Z.min (n * dg_samples_per_packet g) (dg_total_samples g)) (dg_samples_per_packet g)) (dg_total_samples g)
            = Z.min ((n + 1) * dg_samples_per_packet g) (dg_total_samples g)) as -> by (unfold saturating_add; lia).
    unfold payload_at, generator_at. rewrite (proj2 (Z.ltb_lt n (updates g))), (proj2 (Z.eqb_neq (n + 1) 0)) by lia.
    replace (Z.max 0 (n + 1 - updates g)) with (Z.max 0 (n - updates g)) by lia. done.
  - assert (updates g <= n) by (destruct (Z.lt_ge_cases n (updates g)); [|done]; apply Hu in H1; lia).
    unfold END_PACKET_REDUNDANCY. destruct (Z.ltb_spec n (updates g + 3)).
    + rewrite (proj2 (Z.ltb_lt 0 _)) by lia. unfold payload_at, generator_at. rewrite (proj2 (Z.ltb_ge n (updates g))) by lia.
      rewrite (proj2 (Z.eqb_neq n 0)), (proj2 (Z.eqb_neq (n + 1) 0)) by lia. unfold END_PACKET_REDUNDANCY.
      replace (Z.min ((n + 1) * dg_samples_per_packet g) (dg_total_samples g)) with (Z.min (n * dg_samples_per_packet g) (dg_total_samples g)) by lia.
      replace (3 - Z.max 0 (n + 1 - updates g)) with (3 - Z.max 0 (n - updates g) - 1) by lia. done.
    + rewrite (proj2 (Z.ltb_ge 0 _)) by lia. done.
Qed.

Lemma generator_new_ok digit duration_ms volume clock ptime g :
  0 <= duration_ms -> 0 <= clock -> DtmfGenerator_new digit duration_ms volume clock ptime = Some g ->
  generator_ok g /\ g = generator_at g 0 /\ digit_to_event_code digit = Some (dg_event_code g).
Proof.
  intros Hd Hc H. unfold DtmfGenerator_new in H. destruct (digit_to_event_code digit) as [code|] eqn:Hcode; [|done].
  cbn in H. injection H as <-. pose proof (event_code_range _ _ Hcode).
  assert (0 <= Z.land volume 63 < 64).
  { change 63 with (Z.ones 6). rewrite Z.land_ones by lia. apply Z.mod_pos_bound. lia. }
  set (g := mkDtmfGenerator _ _ _ _ _ _ _). assert (generator_ok g) as Hg.
  { unfold g, generator_ok, packet_samples. cbn. nia. }
  split; [done|]. split; [|done]. pose proof (updates_pos g Hg). destruct Hg as (_ & _ & _ & Ht).
  unfold generator_at. rewrite Z.max_l, Z.mul_0_l, Z.min_l by lia. done.
Qed.

(** ** Playing a digit string *)

(** The generator of each digit, and the offset of its event. *)
Fixpoint plan (s : DtmfSequence) (digits : list Z) (offset : Z) : list (DtmfGenerator * Z) :=
  match digits with
  | [] => []
  | digit :: digits =>
      match DtmfGenerator_new digit (ds_duration_ms s) (ds_volume s) (ds_clock_rate_hz s) (ds_ptime_ms s) with
      | Some g =>
          (g, offset) ::
          plan s digits (wrapping_add 32 (wrapping_add 32 offset (dg_total_samples g))
                           (saturating_mul 32 (ds_pause_ticks s) (ds_samples_per_packet s)))
      | None => plan s digits offset
      end
  end.

Definition events (e : DtmfGenerator * Z) : list DtmfStep := (fun p => Event p (snd e)) <$> burst (fst e).

(** The bursts in order, the pause between two of them. *)
Fixpoint script (pause : nat) (plan : list (DtmfGenerator * Z)) : list DtmfStep :=
  match plan with
  | [] => []
  | [e] => events e
  | e :: rest => events e ++ replicate pause Silence ++ script pause rest
  end.

Lemma script_cons pause e rest : rest <> [] -> script pause (e :: rest) = events e ++ replicate pause Silence ++ script pause rest.
Proof. by destruct rest. Qed.

(** Pulling steps until [Done]. *)
Fixpoint play (fuel : nat) (s : DtmfSequence) : res unit (list DtmfStep) :=
  match fuel with
  | O => Panic
  | S fuel =>
      '(step, s) ← next_step s;
      match step with
      | Done => mret [Done]
      | _ => steps ← play fuel s; mret (step :: steps)
      end
  end.

(** The two kinds of states of a player: inside an event, and before one. *)
Definition in_event (s : DtmfSequence) (digits : list Z) (g : DtmfGenerator) (n offset : Z) : DtmfSequence :=
  set_playing s digits (Some (generator_at g n)) 0 offset.
Definition in_pause (s : DtmfSequence) (digits : list Z) (pause offset : Z) : DtmfSequence :=
  set_playing s digits None pause offset.

Lemma step_pause fuel s digits pause offset : 0 < pause ->
  next_step_loop (S fuel) (in_pause s digits pause offset) = Ok (Silence, in_pause s digits (pause - 1) offset).
Proof. intros H. cbn. by rewrite (proj2 (Z.ltb_lt _ _)) by done. Qed.

Lemma step_event fuel s digits g n offset : generator_ok g -> 0 <= n < burst_len g ->
  next_step_loop (S fuel) (in_event s digits g n offset) = Ok (Event (payload_at g n) offset, in_event s digits g (n + 1) offset).
Proof.
  intros Hg Hn. cbn [next_step_loop in_event set_playing ds_pause_remaining ds_current ds_digits ds_current_offset Z.ltb Z.compare negb].
  rewrite next_payload_at, (proj2 (Z.ltb_lt _ _)) by (done || lia). done.
Qed.

Lemma step_start fuel s digit digits offset g :
  DtmfGenerator_new digit (ds_duration_ms s) (ds_volume s) (ds_clock_rate_hz s) (ds_ptime_ms s) = Some g ->
  generator_ok g -> g = generator_at g 0 ->
  next_step_loop (S fuel) (in_pause s (digit :: digits) 0 offset) =
  Ok (Event (payload_at g 0) offset, in_event s digits g 1 offset).
Proof.
  intros Hnew Hg H0. pose proof (updates_pos g Hg). change 1 with (0 + 1).
  rewrite <- (step_event fuel s digits g 0 offset) by (unfold burst_len, END_PACKET_REDUNDANCY; done || lia).
  unfold in_event. rewrite <- H0. cbn. by rewrite Hnew.
Qed.

(** A drained event hands over to the pause, and the last one to [Done]. *)
Lemma step_drained fuel s digit digits g offset : generator_ok g ->
  next_step_loop (S fuel) (in_event s (digit :: digits) g (burst_len g) offset) =
  next_step_loop fuel (in_pause s (digit :: digits) (ds_pause_ticks s)
    (wrapping_add 32 (wrapping_add 32 offset (dg_total_samples g)) (saturating_mul 32 (ds_pause_ticks s) (ds_samples_per_packet s)))).
Proof.
  intros Hg. pose proof (updates_pos g Hg).
  cbn [next_step_loop in_event set_playing ds_pause_remaining ds_current ds_digits ds_current_offset Z.ltb Z.compare negb].
  rewrite next_payload_at, Z.ltb_irrefl by (unfold burst_len, END_PACKET_REDUNDANCY; done || lia). done.
Qed.

Lemma step_done fuel s g offset : generator_ok g ->
  next_step_loop (S (S fuel)) (in_event s [] g (burst_len g) offset) = Ok (Done, in_pause s [] 0 offset).
Proof.
  intros Hg. pose proof (updates_pos g Hg).
  cbn [next_step_loop in_event set_playing ds_pause_remaining ds_current ds_digits ds_current_offset Z.ltb Z.compare negb].
  rewrite next_payload_at, Z.ltb_irrefl by (unfold burst_len, END_PACKET_REDUNDANCY; done || lia). done.
Qed.

Lemma play_cons fuel s step s' l : next_step s = Ok (step, s') -> step <> Done -> play fuel s' = Ok l ->
  play (S fuel) s = Ok (step :: l).
Proof. intros Hs Hd Hl. cbn [play]. rewrite Hs, bind_Ok. destruct step; [| |done]; by rewrite Hl. Qed.

Lemma play_events s digits g offset fuel l : generator_ok g ->
  play fuel (in_event s digits g (burst_len g) offset) = Ok l -> forall (m : nat) n, 0 <= n -> n + Z.of_nat m = burst_len g ->
  play (m + fuel) (in_event s digits g n offset) = Ok (((fun i => Event (payload_at g i) offset) <$> seqZ n (Z.of_nat m)) ++ l).
Proof.
  intros Hg Hl. induction m as [|m IH]; intros n Hn Hm.
  { rewrite Nat.add_0_l. change (Z.of_nat 0) with 0 in *. rewrite Z.add_0_r in Hm. by rewrite Hm. }
  rewrite seqZ_cons by lia. replace (Z.pred (Z.of_nat (S m))) with (Z.of_nat m) by lia.
  change (S m + fuel)%nat with (S (m + fuel)). eapply play_cons; [apply step_event; [done|lia]|done|].
  apply IH; lia.
Qed.

Lemma play_pause s digits offset fuel l : play fuel (in_pause s digits 0 offset) = Ok l -> forall j : nat,
  play (j + fuel) (in_pause s digits (Z.of_nat j) offset) = Ok (replicate j Silence ++ l).
Proof.
  intros Hl. induction j as [|j IH]; [done|]. change (S j + fuel)%nat with (S (j + fuel)).
  eapply play_cons; [apply step_pause; lia|done|]. replace (Z.of_nat (S j) - 1) with (Z.of_nat j) by lia. done.
Qed.

(** Sequences as [new] leaves them: parameters in range, digits validated. *)
Definition params_ok (s : DtmfSequence) : Prop :=
  0 <= ds_duration_ms s /\ 0 <= ds_clock_rate_hz s /\ 0 <= ds_pause_ticks s.
Definition digits_ok (digits : list Z) : Prop := Forall (fun digit => is_Some (digit_to_event_code digit)) digits.

Lemma new_some s digit : params_ok s -> is_Some (digit_to_event_code digit) ->
  exists g, DtmfGenerator_new digit (ds_duration_ms s) (ds_volume s) (ds_clock_rate_hz s) (ds_ptime_ms s) = Some g /\
    generator_ok g /\ g = generator_at g 0 /\ digit_to_event_code digit = Some (dg_event_code g).
Proof.
  intros (Hd & Hc & _) [code Hcode]. destruct (DtmfGenerator_new digit _ _ _ _) as [g|] eqn:Hn.
  - exists g. split; [done|]. by apply generator_new_ok in Hn.
  - unfold DtmfGenerator_new in Hn. by rewrite Hcode in Hn.
Qed.

Lemma pause_fuel f1 f2 s digit digits pause offset : params_ok s -> is_Some (digit_to_event_code digit) -> 0 <= pause ->
  next_step_loop (S f1) (in_pause s (digit :: digits) pause offset) = next_step_loop (S f2) (in_pause s (digit :: digits) pause offset).
Proof.
  intros Hs Hd Hp. destruct (Z.eq_dec pause 0) as [->|]; [|by rewrite !step_pause by lia].
  destruct (new_some s digit Hs Hd) as (g & Hn & Hg & H0 & _). by rewrite !(step_start _ s digit digits offset g).
Qed.

Lemma burst_cons g : generator_ok g -> burst g = payload_at g 0 :: (payload_at g <$> seqZ 1 (burst_len g - 1)).
Proof.
  intros Hg. pose proof (updates_pos g Hg). unfold burst. rewrite seqZ_cons by (unfold burst_len, END_PACKET_REDUNDANCY; lia).
  rewrite fmap_cons. do 2 f_equal; f_equal; lia.
Qed.

(** From the start of a digit, with any steps after its event. *)
Lemma play_digit s digit digits g offset fuel l :
  DtmfGenerator_new digit (ds_duration_ms s) (ds_volume s) (ds_clock_rate_hz s) (ds_ptime_ms s) = Some g ->
  generator_ok g -> g = generator_at g 0 ->
  play fuel (in_event s digits g (burst_len g) offset) = Ok l ->
  play (length (events (g, offset)) + fuel) (in_pause s (digit :: digits) 0 offset) = Ok (events (g, offset) ++ l).
Proof.
  intros Hn Hg H0 Hl. pose proof (updates_pos g Hg). unfold events. cbn [fst snd]. rewrite burst_cons by done.
  rewrite fmap_cons. cbn [length app]. eapply play_cons; [by apply step_start|done|].
  rewrite !length_fmap, length_seqZ, <- list_fmap_compose.
  pose proof (play_events s digits g offset fuel l Hg Hl (Z.to_nat (burst_len g - 1)) 1 ltac:(lia)) as Hp.
  rewrite Z2Nat.id in Hp by (unfold burst_len, END_PACKET_REDUNDANCY; lia). apply Hp. lia.
Qed.

Lemma play_plan s digits : forall offset, params_ok s -> digits_ok digits -> digits <> [] ->
  play (S (length (script (Z.to_nat (ds_pause_ticks s)) (plan s digits offset)))) (in_pause s digits 0 offset) =
  Ok (script (Z.to_nat (ds_pause_ticks s)) (plan s digits offset) ++ [Done]).
Proof.
  induction digits as [|digit digits IH]; intros offset Hs Hd Hne; [done|].
  apply Forall_cons_1 in Hd as [Hd Hds]. destruct (new_some s digit Hs Hd) as (g & Hn & Hg & H0 & _).
  cbn [plan]. rewrite Hn. destruct digits as [|digit2 digits].
  - cbn [plan script]. rewrite <- Nat.add_1_r. eapply play_digit; [done..|]. cbn [play]. unfold next_step.
    by rewrite step_done by done.
  - set (offset' := wrapping_add 32 (wrapping_add 32 offset (dg_total_samples g)) _).
    specialize (IH offset' Hs Hds ltac:(done)). set (rest := plan s (digit2 :: digits) offset') in *.
    assert (exists e l, rest = e :: l) as (e & l & Hrest).
    { unfold rest. cbn [plan]. apply Forall_cons_1 in Hds as [Hd2 _]. destruct (new_some s digit2 Hs Hd2) as (g2 & -> & _). eauto. }
    rewrite script_cons by (by rewrite Hrest). set (pause := Z.to_nat (ds_pause_ticks s)) in *.
    rewrite <- !app_assoc, !length_app, length_replicate.
    replace (S (length (events (g, offset)) + (pause + length (script pause rest))))
      with (length (events (g, offset)) + (pause + S (length (script pause rest))))%nat by lia.
    eapply play_digit; [done..|]. pose proof (play_pause s _ _ _ _ IH pause) as Hp. destruct Hs as (? & ? & Hpt).
    assert (Z.of_nat pause = ds_pause_ticks s) as Hpz by (unfold pause; lia). rewrite Hpz in Hp. rewrite <- Hp.
    replace (pause + S (length (script pause rest)))%nat with (S (pause + length (script pause rest))) by lia. cbn [play].
    unfold next_step. rewrite step_drained by done. fold offset'. apply Forall_cons_1 in Hds as [Hd2 _].
    by rewrite (pause_fuel 1 2 s digit2 digits).
Qed.

(** ** Detection *)

(** The presses reported over a run of packets; a malformed payload is dropped. *)
Fixpoint detect (d : DtmfDetector) (packets : list (Z * bytes)) : list DtmfEvent * DtmfDetector :=
  match packets with
  | [] => ([], d)
  | (timestamp, payload) :: packets =>
      let '(press, d) := DtmfDetector_on_packet d timestamp payload in
      let '(presses, d) := detect d packets in
      (match press with Ok (Some press) => press :: presses | _ => presses end, d)
  end.

Lemma parse_payload_bytes g is_end duration : generator_ok g -> 0 <= duration < 2 ^ 16 ->
  TelephoneEvent_parse (payload_bytes g is_end duration) = Ok (mkTelephoneEvent (dg_event_code g) is_end (dg_volume g) duration).
Proof.
  intros (_ & Hv & _) Hd. unfold TelephoneEvent_parse, payload_bytes. cbn [be_enc].
  set (flags := Z.lor _ _). set (high := (duration / _) mod 256). set (low := (duration / _) mod 256).
  change (@be16_at DtmfError (_ :: flags :: [high; low]) 2) with (@Ok DtmfError Z (be_dec (be_enc 2 duration))).
  rewrite be_dec_enc_fits by (change (256 ^ Z.of_nat 2) with (2 ^ 16); lia).
  assert (negb (Z.land flags 0x80 =? 0) = is_end /\ Z.land flags 0x3F = dg_volume g) as [He Hvol].
  { unfold flags. pose proof (below_forall (fun v =>
      Bool.eqb (negb (Z.land (Z.lor (Z.shiftl (b2z is_end) 7) v) 128 =? 0)) is_end &&
      (Z.land (Z.lor (Z.shiftl (b2z is_end) 7) v) 63 =? v)) 64 (dg_volume g)) as H.
    destruct is_end; specialize (H ltac:(vm_compute; reflexivity) Hv); apply andb_true_iff in H as [H1 H2];
      apply Bool.eqb_prop in H1; apply Z.eqb_eq in H2; done. }
  clearbody flags high low. set (l := dg_event_code g :: flags :: [high; low]).
  change (len l <? 4) with false. change (@idx DtmfError Z l 0) with (@Ok DtmfError Z (dg_event_code g)).
  change (@idx DtmfError Z l 1) with (@Ok DtmfError Z flags). rewrite !bind_Ok, He, Hvol. done.
Qed.

(** The press a burst stands for. *)
Definition press_of (digit : Z) (g : DtmfGenerator) : DtmfEvent :=
  mkDtmfEvent digit (dg_event_code g) (dg_total_samples g) (dg_volume g).

Lemma burst_parse g p : generator_ok g -> p ∈ burst g -> exists duration,
  TelephoneEvent_parse (dp_bytes p) = Ok (mkTelephoneEvent (dg_event_code g) (dp_is_end p) (dg_volume g) duration) /\
  (dp_is_end p = true -> duration = dg_total_samples g).
Proof.
  intros Hg Hp. unfold burst in Hp. apply list_elem_of_fmap in Hp as (n & -> & Hn). apply elem_of_seqZ in Hn.
  pose proof Hg as (_ & _ & Hs & Ht). unfold payload_at. destruct (Z.ltb_spec n (updates g)); cbn [dp_bytes dp_is_end].
  - eexists. rewrite parse_payload_bytes by (done || nia). done.
  - eexists. rewrite parse_payload_bytes by (done || lia). done.
Qed.

Lemma on_event_same timestamp emitted e :
  on_event (mkDtmfDetector (Some (timestamp, emitted))) timestamp e =
  (if te_end e && negb emitted
   then (fun digit => mkDtmfEvent digit (te_event e) (te_duration e) (te_volume e)) <$> TelephoneEvent_digit e else None,
   mkDtmfDetector (Some (timestamp, emitted || te_end e))).
Proof.
  unfold on_event. cbn [dd_current]. rewrite Z.eqb_refl. cbn [negb].
  destruct (te_end e), emitted, (TelephoneEvent_digit e); rewrite ?Z.eqb_refl; done.
Qed.

(** Packets of one event in any order, any number of times: the first End packet
    reports the press, the others nothing. *)
Lemma detect_event g digit timestamp seg : forall emitted, generator_ok g -> event_code_to_digit (dg_event_code g) = Some digit ->
  Forall (fun p => p ∈ burst g) seg ->
  detect (mkDtmfDetector (Some (timestamp, emitted))) ((fun p => (timestamp, dp_bytes p)) <$> seg) =
  (if negb emitted && existsb dp_is_end seg then [press_of digit g] else [],
   mkDtmfDetector (Some (timestamp, emitted || existsb dp_is_end seg))).
Proof.
  induction seg as [|p seg IH]; intros emitted Hg Hd Hall.
  { cbn. by rewrite andb_false_r, orb_false_r. }
  apply Forall_cons_1 in Hall as [Hp Hall]. destruct (burst_parse g p Hg Hp) as (duration & Hparse & Hdur).
  rewrite fmap_cons. cbn [detect existsb]. unfold DtmfDetector_on_packet. rewrite Hparse, on_event_same.
  cbn [te_end te_event te_duration te_volume]. unfold TelephoneEvent_digit. cbn [te_event]. rewrite Hd, IH by done.
  destruct (dp_is_end p) eqn:He, emitted; cbn [andb orb negb]; try done. by rewrite Hdur.
Qed.

Lemma detect_fresh d timestamp p e seg : (forall b, dd_current d <> Some (timestamp, b)) -> TelephoneEvent_parse p = Ok e ->
  detect d ((timestamp, p) :: seg) = detect (mkDtmfDetector (Some (timestamp, false))) ((timestamp, p) :: seg).
Proof.
  intros Hf Hp. cbn [detect]. unfold DtmfDetector_on_packet, on_event. rewrite Hp. cbn [dd_current]. rewrite Z.eqb_refl. cbn [negb].
  destruct (dd_current d) as [[t b]|]; [|done]. destruct (Z.eqb_spec t timestamp) as [->|]; [by destruct (Hf b)|done].
Qed.

(** ** End to end *)

(** What a receiver gets of one event: some of its packets, in any order and
    number, at least one of them an End packet. *)
Definition received (e : DtmfGenerator * Z) (seg : list DtmfPayload) : Prop :=
  Forall (fun p => p ∈ burst (fst e)) seg /\ existsb dp_is_end seg = true.

(** The packets of the events [plan], as received, on RTP timestamps from [base]. *)
Fixpoint on_wire (base : Z) (plan : list (DtmfGenerator * Z)) (segs : list (list DtmfPayload)) : list (Z * bytes) :=
  match plan, segs with
  | (_, offset) :: plan, seg :: segs =>
      ((fun p => (wrapping_add 32 base offset, dp_bytes p)) <$> seg) ++ on_wire base plan segs
  | _, _ => []
  end.

Lemma detect_app d l1 l2 : detect d (l1 ++ l2) =
  let '(p1, d1) := detect d l1 in let '(p2, d2) := detect d1 l2 in (p1 ++ p2, d2).
Proof.
  revert d. induction l1 as [|[ts p] l1 IH]; intros d; cbn [app detect]; [by destruct (detect d l2)|].
  destruct (DtmfDetector_on_packet d ts p) as [press d']. rewrite IH. destruct (detect d' l1) as [p1 d1].
  destruct (detect d1 l2) as [p2 d2]. by destruct press as [[]| |].
Qed.

(** The presses of a digit string. *)
Fixpoint presses (digits : list Z) (plan : list (DtmfGenerator * Z)) : list DtmfEvent :=
  match digits, plan with
  | digit :: digits, (g, _) :: plan => press_of (normal_digit digit) g :: presses digits plan
  | _, _ => []
  end.

(** The pause leaves the 32-bit timestamps of consecutive events distinct. *)
Definition gap_ok (s : DtmfSequence) : Prop :=
  0 <= ds_samples_per_packet s /\ ds_pause_ticks s * ds_samples_per_packet s + 2 ^ 16 <= 2 ^ 32.

Lemma next_timestamp base offset total gap : 1 <= total < 2 ^ 16 -> 0 <= gap -> gap + 2 ^ 16 <= 2 ^ 32 ->
  wrapping_add 32 base (wrapping_add 32 (wrapping_add 32 offset total) gap) <> wrapping_add 32 base offset.
Proof.
  intros Ht Hg Hb. unfold wrapping_add, wrap. rewrite Zplus_mod_idemp_l, Zplus_mod_idemp_r. intros H.
  assert ((total + gap) mod 2 ^ 32 = 0) as H0.
  { replace (total + gap) with (base + (offset + total + gap) - (base + offset)) by lia. rewrite Zminus_mod, H, Z.sub_diag. done. }
  rewrite Z.mod_small in H0 by lia. lia.
Qed.

Lemma detect_plan s base digits : forall offset segs d, params_ok s -> gap_ok s -> digits_ok digits ->
  (forall b, dd_current d <> Some (wrapping_add 32 base offset, b)) -> Forall2 received (plan s digits offset) segs ->
  fst (detect d (on_wire base (plan s digits offset) segs)) = presses digits (plan s digits offset).
Proof.
  induction digits as [|digit digits IH]; intros offset segs d Hs Hgap Hd Hfresh Hseg; [done|].
  apply Forall_cons_1 in Hd as [Hd Hds]. destruct (new_some s digit Hs Hd) as (g & Hn & Hg & H0 & Hcode).
  cbn [plan] in *. rewrite Hn in *. apply Forall2_cons_inv_l in Hseg as (seg & segs' & [Hin Hend] & Hrest & ->).
  cbn [fst] in Hin. cbn [on_wire presses]. pose proof (event_code_digit _ _ Hcode) as Hdig.
  assert (detect d ((fun p => (wrapping_add 32 base offset, dp_bytes p)) <$> seg) =
    ([press_of (normal_digit digit) g], mkDtmfDetector (Some (wrapping_add 32 base offset, true)))) as Hev.
  { pose proof (detect_event g _ (wrapping_add 32 base offset) seg false Hg Hdig Hin) as H. rewrite Hend in H. cbn in H. rewrite <- H.
    destruct seg as [|p seg]; [done|]. apply Forall_cons_1 in Hin as [Hp _]. destruct (burst_parse g p Hg Hp) as (? & Hparse & _).
    rewrite !fmap_cons. by eapply detect_fresh. }
  rewrite detect_app, Hev. set (d1 := mkDtmfDetector _).
  match type of Hrest with Forall2 _ (plan s digits ?o) _ => set (offset' := o) in * end.
  assert (fst (detect d1 (on_wire base (plan s digits offset') segs')) = presses digits (plan s digits offset')) as IH1.
  { apply IH; try done. intros b [= Ht _]. destruct Hg as (_ & _ & _ & Htot), Hgap as [Hsp Hb], Hs as (_ & _ & Hpt).
    eapply (next_timestamp base offset (dg_total_samples g)); [done| | |symmetry; exact Ht]; unfold saturating_mul; lia. }
  destruct (detect d1 _) as [ps d2]. cbn [fst app] in *. by rewrite IH1.
Qed.

Lemma sequence_new_inv code duration_ms volume clock ptime pause_ms s :
  DtmfSequence_new code duration_ms volume clock ptime pause_ms = Some s ->
  digits_ok code /\ code <> [] /\ s = in_pause s code 0 0 /\
  ds_duration_ms s = duration_ms /\ ds_clock_rate_hz s = clock /\
  ds_pause_ticks s = Z.min (div_ceil pause_ms (Z.max ptime 1)) (2 ^ 32 - 1) /\ 1 <= ds_samples_per_packet s.
Proof.
  unfold DtmfSequence_new. destruct code as [|c code]; [done|]. cbn [orb]. destruct (existsb _ _) eqn:He; [done|]. intros [= <-].
  split_and!; try done.
  - apply Forall_forall. intros x Hx. destruct (digit_to_event_code x) as [e|] eqn:Hx'; [by eexists|]. exfalso.
    rewrite <- not_true_iff_false in He. apply He. apply existsb_exists. exists x. rewrite Hx'. split; [exact Hx|done].
  - cbn. unfold packet_samples. lia.
Qed.

(** Rescaling a whole number of blocks keeps everything but the durations, which
    are scaled and saturate at 16 bits. *)
Lemma rescale_blocks_spec from_hz to_hz blocks tail :
  Forall (fun b => length b = 4%nat) blocks -> (length tail < 4)%nat ->
  rescale_blocks from_hz to_hz (concat blocks ++ tail) =
  concat ((fun b => take 2 b ++ be_enc 2 (Z.min (be_dec (drop 2 b) * to_hz / from_hz) 0xFFFF)) <$> blocks) ++ tail.
Proof.
  intros Hb Ht. induction Hb as [|b blocks Hb Hbs IH].
  { by destruct tail as [|? [|? [|? [|]]]]; cbn in *; try lia. }
  destruct b as [|b0 [|b1 [|b2 [|b3 [|]]]]]; try done. rewrite fmap_cons. cbn [concat app rescale_blocks]. rewrite IH.
  unfold rescale_duration. cbn [take drop]. by rewrite <- !app_assoc.
Qed.

(** ** Theorems *)

(** Playing a digit string ends, and plays exactly what it should.  Pulling
    steps from a new sequence reaches [Done] after as many steps as the script has
    and not before, no step loops or panics, and the steps are the script: per
    digit one burst (updates with the duration so far, then three End packets with
    the total, all on the digit's own timestamp), with the configured number of
    silent ticks between two digits and none after the last. *)
Lemma dtmf_playback_terminates code duration_ms volume clock ptime pause_ms s :
  0 <= duration_ms -> 0 <= clock -> 0 <= pause_ms ->
  DtmfSequence_new code duration_ms volume clock ptime pause_ms = Some s ->
  let steps := script (Z.to_nat (ds_pause_ticks s)) (plan s code 0) in
  play (S (length steps)) s = Ok (steps ++ [Done]).
Proof.
  intros Hd Hc Hp Hnew. apply sequence_new_inv in Hnew as (Hok & Hne & Hs & <- & <- & Hpt & _).
  cbv zeta. rewrite Hs at 3. apply play_plan; [|done|done]. unfold params_ok. split_and!; try done.
  rewrite Hpt. unfold div_ceil. pose proof (Z.div_pos (pause_ms + Z.max ptime 1 - 1) (Z.max ptime 1)). lia.
Qed.

Lemma dtmf_playback_terminates_witness :
  exists s, DtmfSequence_new [49; 35] 20 10 8000 20 30 = Some s /\
    play (S (length (script (Z.to_nat (ds_pause_ticks s)) (plan s [49; 35] 0)))) s =
    Ok (script (Z.to_nat (ds_pause_ticks s)) (plan s [49; 35] 0) ++ [Done]).
Proof.
  eexists. split; [reflexivity|]. apply (dtmf_playback_terminates [49; 35] 20 10 8000 20 30); [lia|lia|lia|reflexivity].
Defined.

(** Every key pressed is detected once.  A digit string is played; of each
    digit's event the receiver gets some packets, in any order and with any
    duplicates, at least one of them an End packet; events arrive in order.  Then
    the detector reports exactly the digits played, in order, each once, with the
    event's code, full duration and volume (lower-case letters as the upper-case
    tones they name). *)
Lemma dtmf_detects_played code duration_ms volume clock ptime pause_ms s base segs :
  0 <= duration_ms -> 0 <= clock -> 0 <= pause_ms ->
  DtmfSequence_new code duration_ms volume clock ptime pause_ms = Some s ->
  ds_pause_ticks s * ds_samples_per_packet s + 2 ^ 16 <= 2 ^ 32 ->
  Forall2 received (plan s code 0) segs ->
  let reported := fst (detect DtmfDetector_new (on_wire base (plan s code 0) segs)) in
  reported = presses code (plan s code 0) /\ (de_digit <$> reported) = normal_digit <$> code.
Proof.
  intros Hd Hc Hp Hnew Hgap Hseg. apply sequence_new_inv in Hnew as (Hok & Hne & Hs & <- & <- & Hpt & Hsp).
  assert (params_ok s) as Hpar.
  { unfold params_ok. split_and!; try done. rewrite Hpt. unfold div_ceil.
    pose proof (Z.div_pos (pause_ms + Z.max ptime 1 - 1) (Z.max ptime 1)). lia. }
  cbv zeta. rewrite (detect_plan s base code 0 segs DtmfDetector_new) by (done || (split; lia) || (intros ? [=])).
  split; [done|]. generalize 0 at 1 as o. clear - Hok Hpar. induction code as [|digit code IH]; intros o; [done|].
  apply Forall_cons_1 in Hok as [Hd Hok]. destruct (new_some s digit Hpar Hd) as (g & Hn & _). cbn [plan]. rewrite Hn.
  cbn [presses]. rewrite !fmap_cons. cbn [press_of de_digit]. by rewrite IH.
Qed.

Lemma dtmf_detects_played_witness : exists s segs,
  DtmfSequence_new [55; 97] 40 10 8000 20 40 = Some s /\
  (de_digit <$> fst (detect DtmfDetector_new (on_wire 4294967200 (plan s [55; 97] 0) segs))) = normal_digit <$> [55; 97].
Proof.
  eexists. exists ((fun e => [payload_at (fst e) 4; payload_at (fst e) 0; payload_at (fst e) 3]) <$>
    plan (default (mkDtmfSequence [] 0 0 0 0 0 0 None 0 0) (DtmfSequence_new [55; 97] 40 10 8000 20 40)) [55; 97] 0).
  split; [reflexivity|].
  refine (proj2 (dtmf_detects_played [55; 97] 40 10 8000 20 40 _ 4294967200 _ _ _ _ eq_refl _ _)); try lia; [vm_compute; discriminate|].
  vm_compute plan. repeat constructor; vm_compute; repeat constructor.
Defined.

(** The detector remembers one event only: an End packet of an earlier event that
    arrives after the next event has begun is reported a second time. *)
Example late_end_reported_twice :
  let last1 := [1; 138; 0; 160] in let first2 := [2; 10; 0; 160] in
  length (fst (detect DtmfDetector_new [(0, last1); (960, first2); (0, last1)])) = 2%nat.
Proof. reflexivity. Qed.
