(* ===== verification/Base64.v ===== *)
(** * Base64: crates/siphon-rtp-proto/src/base64.rs

    The hand-written RFC 4648 codec for binary fields in JSON.  Text is the list
    of its ASCII codes.  [chunks(3)] and [chunks(4)] become recursion on the
    list, three or four elements at a time. *)

From S2P Require Import Prelude.
From stdpp Require Import base list numbers option.
From Stdlib Require Import Lia ZArith.

Open Scope Z_scope.

(** A-Z, a-z, 0-9, '+', '/'. *)
Definition ALPHABET : bytes := seqZ 65 26 ++ seqZ 97 26 ++ seqZ 48 10 ++ [43; 47].

Inductive Base64Error : Type :=
| Length (length : Z)
| Symbol (offset : Z).

Definition encoded_len (input_length : Z) : Z := div_ceil input_length 3 * 4.

(** One turn of the encoder's loop; [chunk] has one to three bytes. *)
Definition encode_symbol (group : Z) (chunk_len index : Z) : res Base64Error Z :=
  if index <=? chunk_len then idx ALPHABET (Z.land (Z.shiftr group (18 - 6 * index)) 0x3f)
  else mret 61.

Definition encode_chunk (chunk : bytes) : res Base64Error bytes :=
  b0 ← idx chunk 0;
  let b1 := default 0 (get_at chunk 1) in
  let b2 := default 0 (get_at chunk 2) in
  let group := Z.lor (Z.lor (Z.shiftl b0 16) (Z.shiftl b1 8)) b2 in
  s0 ← encode_symbol group (len chunk) 0;
  s1 ← encode_symbol group (len chunk) 1;
  s2 ← encode_symbol group (len chunk) 2;
  s3 ← encode_symbol group (len chunk) 3;
  mret [s0; s1; s2; s3].

Fixpoint encode (input : bytes) : res Base64Error bytes :=
  match input with
  | [] => mret []
  | a :: b :: c :: rest => s ← encode_chunk [a; b; c]; t ← encode rest; mret (s ++ t)
  | chunk => encode_chunk chunk
  end.

Definition value (symbol : Z) : option Z :=
  if (65 <=? symbol) && (symbol <=? 90) then Some (symbol - 65)
  else if (97 <=? symbol) && (symbol <=? 122) then Some (symbol - 97 + 26)
  else if (48 <=? symbol) && (symbol <=? 57) then Some (symbol - 48 + 52)
  else if symbol =? 43 then Some 62
  else if symbol =? 47 then Some 63
  else None.

(** [group.iter().rev().take_while(|s| **s == b'=').count()] *)
Fixpoint count_leading_pad (l : bytes) : Z :=
  match l with s :: l => if s =? 61 then 1 + count_leading_pad l else 0 | [] => 0 end.

(** [bits = bits << 6 | symbol_value] over the symbols of a group, on a [u32]. *)
Fixpoint decode_bits (group_index padding offset bits : Z) (group : bytes) : res Base64Error Z :=
  match group with
  | [] => mret bits
  | symbol :: group =>
      symbol_value ←
        (if 4 - padding <=? offset then mret 0
         else ok_or (value symbol) (Symbol (group_index * 4 + offset)));
      decode_bits group_index padding (offset + 1) (Z.lor (wrap 32 (Z.shiftl bits 6)) symbol_value) group
  end.

Definition decode_group (group_index groups : Z) (group : bytes) : res Base64Error bytes :=
  let last := group_index + 1 =? groups in
  let padding := if last then count_leading_pad (rev group) else 0 in
  if 2 <? padding then Err (Symbol (group_index * 4 + 4 - padding)) else
  bits ← decode_bits group_index padding 0 0 group;
  slice (be_enc 4 bits) 1 (4 - padding).

Fixpoint decode_groups (group_index groups : Z) (input : bytes) : res Base64Error bytes :=
  match input with
  | a :: b :: c :: d :: rest =>
      bs ← decode_group group_index groups [a; b; c; d];
      rest ← decode_groups (group_index + 1) groups rest;
      mret (bs ++ rest)
  | [] => mret []
  | group => decode_group group_index groups group
  end.

Definition decode (input : bytes) : res Base64Error bytes :=
  if negb (len input mod 4 =? 0) then Err (Length (len input)) else
  decode_groups 0 (len input / 4) input.

(** ** Lemmas *)

Definition sym (s : Z) : Z := byte_of ALPHABET s.

Lemma idx_sym {E} s : 0 <= s < 64 -> @idx E Z ALPHABET s = Ok (sym s).
Proof. intros. apply idx_byte_of. exact H. Qed.

Lemma value_sym s : 0 <= s < 64 -> value (sym s) = Some s /\ sym s <> 61 /\ is_byte (sym s).
Proof.
  intros Hs. pose proof (below_forall (fun s => match value (sym s) with Some v => v =? s | None => false end
    && negb (sym s =? 61) && (0 <=? sym s) && (sym s <? 256)) 64 s ltac:(vm_compute; reflexivity) Hs) as H.
  rewrite !andb_true_iff, negb_true_iff, Z.eqb_neq, Z.leb_le, Z.ltb_lt in H.
  destruct (value (sym s)); [|naive_solver]. rewrite Z.eqb_eq in H. unfold is_byte. naive_solver.
Qed.

(** The four 6-bit fields of a 24-bit group. *)
Definition field (group index : Z) : Z := group / 2 ^ (18 - 6 * index) mod 64.

Lemma encode_symbol_field group n index :
  0 <= index <= 3 -> encode_symbol group n index =
  Ok (if index <=? n then sym (field group index) else 61).
Proof.
  intros Hi. unfold encode_symbol, field. destruct (index <=? n); [|done].
  change 0x3f with (Z.ones 6). rewrite Z.land_ones, Z.shiftr_div_pow2 by lia.
  apply idx_sym. apply Z.mod_pos_bound. lia.
Qed.

Lemma group_bytes b0 b1 b2 : is_byte b0 -> is_byte b1 -> is_byte b2 ->
  Z.lor (Z.lor (Z.shiftl b0 16) (Z.shiftl b1 8)) b2 = b0 * 65536 + b1 * 256 + b2.
Proof.
  unfold is_byte. intros. replace (Z.lor (Z.shiftl b0 16) (Z.shiftl b1 8)) with (Z.shiftl (b0 * 256 + b1) 8).
  - rewrite lor_shiftl_add by lia. lia.
  - change 16 with (8 + 8). rewrite <- Z.shiftl_shiftl, <- Z.shiftl_lor by lia.
    rewrite lor_shiftl_add by lia. done.
Qed.

(** Reassembling the fields of a group. *)
Lemma fields_join group : 0 <= group < 2 ^ 24 ->
  ((field group 0 * 64 + field group 1) * 64 + field group 2) * 64 + field group 3 = group.
Proof.
  intros Hg. unfold field. change (2 ^ (18 - 6 * 3)) with 1. change (2 ^ (18 - 6 * 2)) with 64.
  change (2 ^ (18 - 6 * 1)) with (64 * 64). change (2 ^ (18 - 6 * 0)) with (64 * 64 * 64).
  rewrite Z.div_1_r, <- !Z.div_div by lia.
  pose proof (Z.div_mod group 64 ltac:(lia)). pose proof (Z.div_mod (group / 64) 64 ltac:(lia)).
  pose proof (Z.div_mod (group / 64 / 64) 64 ltac:(lia)).
  rewrite (Z.mod_small (group / 64 / 64 / 64)); [lia|].
  rewrite !Z.div_div by lia. split; [apply Z.div_pos; lia|apply Z.div_lt_upper_bound; lia].
Qed.

Lemma field_bound group i : 0 <= field group i < 64.
Proof. apply Z.mod_pos_bound. lia. Qed.

Lemma shift_in bits s : 0 <= bits < 2 ^ 26 -> 0 <= s < 64 ->
  Z.lor (wrap 32 (Z.shiftl bits 6)) s = bits * 64 + s.
Proof.
  intros. unfold wrap. rewrite Z.shiftl_mul_pow2, Z.mod_small, <- Z.shiftl_mul_pow2 by lia.
  rewrite lor_shiftl_add by lia. lia.
Qed.

(** A group of [n] bytes and its four symbols. *)
Definition symbols (n group : Z) : bytes :=
  [sym (field group 0); sym (field group 1); if 2 <=? n then sym (field group 2) else 61;
   if 3 <=? n then sym (field group 3) else 61].

Lemma encode_chunk_symbols b0 b1 b2 chunk :
  is_byte b0 -> is_byte b1 -> is_byte b2 -> get_at chunk 0 = Some b0 ->
  default 0 (get_at chunk 1) = b1 -> default 0 (get_at chunk 2) = b2 -> 1 <= len chunk ->
  encode_chunk chunk = Ok (symbols (len chunk) (b0 * 65536 + b1 * 256 + b2)).
Proof.
  intros H0 H1 H2 Hg H1' H2' Hl. unfold encode_chunk. rewrite (idx_lookup chunk 0 b0) by done.
  rewrite bind_Ok, H1', H2', group_bytes by done. cbv zeta.
  rewrite !encode_symbol_field, !bind_Ok by lia.
  rewrite (proj2 (Z.leb_le 0 _)), (proj2 (Z.leb_le 1 _)) by lia. done.
Qed.

Lemma decode_bits_step gi pad off bits s rest v :
  (if 4 - pad <=? off then Some 0 else value s) = Some v -> 0 <= bits < 2 ^ 26 -> 0 <= v < 64 ->
  decode_bits gi pad off bits (s :: rest) = decode_bits gi pad (off + 1) (bits * 64 + v) rest.
Proof.
  intros Hv Hb Hvb. cbn [decode_bits]. destruct (4 - pad <=? off); [injection Hv as <-|rewrite Hv];
    cbn [ok_or]; unfold mret, res_ret; rewrite bind_Ok, shift_in by lia; done.
Qed.

(** Decoding the symbols of [n] bytes gives those bytes; padding only in the
    last group. *)
Lemma decode_group_symbols gi groups n b0 b1 b2 :
  is_byte b0 -> is_byte b1 -> is_byte b2 -> 1 <= n <= 3 -> (n < 3 -> gi + 1 = groups /\ b2 = 0) ->
  (n < 2 -> b1 = 0) ->
  decode_group gi groups (symbols n (b0 * 65536 + b1 * 256 + b2)) = Ok (sub [b0; b1; b2] 0 n).
Proof.
  intros H0 H1 H2 Hn Hlast Hb1. unfold is_byte in *. set (group := b0 * 65536 + b1 * 256 + b2).
  assert (0 <= group < 2 ^ 24) as Hg by (unfold group; lia).
  pose proof (value_sym _ (field_bound group 0)) as (Hv0 & Hn0 & _).
  pose proof (value_sym _ (field_bound group 1)) as (Hv1 & Hn1 & _).
  pose proof (value_sym _ (field_bound group 2)) as (Hv2 & Hn2 & _).
  pose proof (value_sym _ (field_bound group 3)) as (Hv3 & Hn3 & _).
  pose proof (field_bound group 0). pose proof (field_bound group 1).
  pose proof (field_bound group 2). pose proof (field_bound group 3).
  assert (be_enc 4 group = [0; b0; b1; b2]) as Henc.
  { pose proof (be_enc_dec [0; b0; b1; b2]) as He. cbn [length] in He. rewrite <- He at 1.
    - f_equal. unfold group, be_dec. cbn [be_dec_acc]. lia.
    - unfold bytes_ok. forall_list; unfold is_byte; lia. }
  unfold decode_group. set (padding := if gi + 1 =? groups then _ else 0).
  assert (padding = 3 - n) as ->.
  { unfold padding, symbols. assert (n = 1 \/ n = 2 \/ n = 3) as [->|[->| ->]] by lia; cbn [Z.leb Z.compare Pos.compare Pos.compare_cont].
    - destruct Hlast as [-> _]; [lia|]. rewrite Z.eqb_refl. cbn [rev app count_leading_pad].
      rewrite !Z.eqb_refl, (proj2 (Z.eqb_neq _ 61) Hn1). done.
    - destruct Hlast as [-> _]; [lia|]. rewrite Z.eqb_refl. cbn [rev app count_leading_pad].
      rewrite !Z.eqb_refl, (proj2 (Z.eqb_neq _ 61) Hn2). done.
    - cbn [rev app count_leading_pad]. rewrite (proj2 (Z.eqb_neq _ 61) Hn3). by destruct (gi + 1 =? groups). }
  rewrite (proj2 (Z.ltb_ge 2 _)) by lia. unfold symbols.
  pose proof (fields_join group Hg) as Hj.
  assert ((n < 2 -> field group 2 = 0) /\ (n < 3 -> field group 3 = 0)) as [Hf2 Hf3].
  { unfold field, group. change (2 ^ (18 - 6 * 3)) with 1. change (2 ^ (18 - 6 * 2)) with 64.
    rewrite Z.div_1_r. split; intros Hlt.
    - rewrite Hb1, (proj2 (Hlast ltac:(lia))) by lia.
      replace (b0 * 65536 + 0 * 256 + 0) with (b0 * 1024 * 64) by lia. rewrite Z.div_mul by lia.
      replace (b0 * 1024) with (b0 * 16 * 64) by lia. by rewrite Z.mod_mul.
    - rewrite (proj2 (Hlast ltac:(lia))). replace (b0 * 65536 + b1 * 256 + 0) with ((b0 * 1024 + b1 * 4) * 64) by lia.
      by rewrite Z.mod_mul. }
  rewrite (decode_bits_step _ _ _ _ _ _ (field group 0)); [|rewrite (proj2 (Z.leb_gt _ _)) by lia; done|lia|lia].
  rewrite (decode_bits_step _ _ _ _ _ _ (field group 1)); [|rewrite (proj2 (Z.leb_gt _ _)) by lia; done|lia|lia].
  rewrite (decode_bits_step _ _ _ _ _ _ (field group 2)); [| |lia|lia].
  2: { destruct (Z.leb_spec (4 - (3 - n)) (0 + 1 + 1)); [f_equal; symmetry; apply Hf2; lia|].
       rewrite (proj2 (Z.leb_le 2 n)) by lia. done. }
  rewrite (decode_bits_step _ _ _ _ _ _ (field group 3)); [| |lia|lia].
  2: { destruct (Z.leb_spec (4 - (3 - n)) (0 + 1 + 1 + 1)); [f_equal; symmetry; apply Hf3; lia|].
       rewrite (proj2 (Z.leb_le 3 n)) by lia. done. }
  cbn [decode_bits]. unfold mret, res_ret. rewrite bind_Ok. rewrite Z.mul_0_l, Z.add_0_l, Hj, Henc.
  assert (n = 1 \/ n = 2 \/ n = 3) as [->|[->| ->]] by lia; done.
Qed.

Lemma len_symbols n g : len (symbols n g) = 4.
Proof. done. Qed.

Lemma list_ind3 (P : bytes -> Prop) :
  P [] -> (forall a, P [a]) -> (forall a b, P [a; b]) ->
  (forall a b c l, P l -> P (a :: b :: c :: l)) -> forall l, P l.
Proof.
  intros H0 H1 H2 H3.
  assert (forall n l, (length l < n)%nat -> P l) as H.
  { induction n as [|n IH]; intros l Hl; [lia|]. destruct l as [|a [|b [|c l]]]; auto.
    apply H3, IH. simpl in Hl. lia. }
  intros l. apply (H (S (length l))). lia.
Qed.

(** Encoding is total, and its groups decode back, wherever they sit in the text. *)
Lemma encode_decode_groups input : bytes_ok input ->
  exists text, encode input = Ok text /\ len text = encoded_len (len input) /\
    forall gi, decode_groups gi (gi + len text / 4) text = Ok input.
Proof.
  induction input as [|a|a b|a b c l IH] using list_ind3; intros Hb.
  - exists []. done.
  - apply bytes_ok_cons in Hb as [Ha _]. eexists. split.
    { cbn [encode]. apply (encode_chunk_symbols a 0 0 [a]); done. }
    split; [done|]. intros gi. unfold symbols. cbn [decode_groups].
    change [sym _; _; _; _] with (symbols 1 (a * 65536 + 0 * 256 + 0)).
    rewrite decode_group_symbols by (done || lia || (intros; split; [reflexivity|done])). done.
  - apply bytes_ok_cons in Hb as [Ha Hb]. apply bytes_ok_cons in Hb as [Hb _]. eexists. split.
    { cbn [encode]. apply (encode_chunk_symbols a b 0 [a; b]); done. }
    split; [done|]. intros gi. unfold symbols. cbn [decode_groups].
    change [sym _; _; _; _] with (symbols 2 (a * 65536 + b * 256 + 0)).
    rewrite decode_group_symbols by (done || lia || (intros; split; [reflexivity|done])). done.
  - apply bytes_ok_cons in Hb as [Ha Hb]. apply bytes_ok_cons in Hb as [Hbb Hb].
    apply bytes_ok_cons in Hb as [Hc Hb]. destruct (IH Hb) as (text & Henc & Hlen & Hdec).
    exists (symbols 3 (a * 65536 + b * 256 + c) ++ text). split.
    { cbn [encode]. rewrite (encode_chunk_symbols a b c [a; b; c]), bind_Ok by done. by rewrite Henc, bind_Ok. }
    split.
    { rewrite len_app, len_symbols, Hlen, !len_cons. unfold encoded_len, div_ceil.
      replace (1 + (1 + (1 + len l)) + 3 - 1) with (len l + 3 - 1 + 1 * 3) by lia. rewrite Z.div_add by lia. lia. }
    intros gi. rewrite len_app, len_symbols.
    replace (4 + len text) with (len text + 1 * 4) by lia. rewrite Z.div_add by lia.
    unfold symbols. cbn [app decode_groups].
    change [sym _; _; _; _] with (symbols 3 (a * 65536 + b * 256 + c)).
    rewrite decode_group_symbols, bind_Ok by (done || lia).
    replace (gi + (len text / 4 + 1)) with (gi + 1 + len text / 4) by lia.
    rewrite Hdec, bind_Ok. done.
Qed.

(** ** Theorem *)

(** Every byte string encodes without a panic into text of the advertised
    length, and the strict decoder returns exactly the bytes that went in. *)
Lemma base64_roundtrip input :
  bytes_ok input ->
  exists text, encode input = Ok text /\ len text = encoded_len (len input) /\ decode text = Ok input.
Proof.
  intros Hb. destruct (encode_decode_groups input Hb) as (text & He & Hl & Hd).
  exists text. split; [done|]. split; [done|]. unfold decode.
  assert (len text mod 4 = 0) as -> by (rewrite Hl; apply Z.mod_mul; lia). cbn [Z.eqb negb].
  specialize (Hd 0). by rewrite Z.add_0_l in Hd.
Qed.

Lemma base64_roundtrip_witness :
  exists text, encode [0xFB; 0xEF; 0xFF; 1] = Ok text /\ len text = 8 /\
    decode text = Ok [0xFB; 0xEF; 0xFF; 1].
Proof.
  apply (base64_roundtrip [0xFB; 0xEF; 0xFF; 1]). unfold bytes_ok. forall_list; unfold is_byte; lia.
Defined.

(** ** The two texts *)

Definition is_base64_char (b : Z) : Prop := b ∈ ALPHABET \/ b = 61.

Lemma encode_symbol_char group n i s : encode_symbol group n i = Ok s -> is_base64_char s.
Proof.
  unfold encode_symbol. destruct (_ <=? _); [|intros [= <-]; by right].
  intros [_ H]%idx_Ok_inv. left. by eapply list_elem_of_lookup_2.
Qed.

Lemma encode_chunk_chars chunk text : encode_chunk chunk = Ok text -> Forall is_base64_char text.
Proof.
  unfold encode_chunk. intros (b0 & _ & (s0 & H0 & (s1 & H1 & (s2 & H2 & (s3 & H3 & H)
    %bind_Ok_inv)%bind_Ok_inv)%bind_Ok_inv)%bind_Ok_inv)%bind_Ok_inv.
  injection H as <-. forall_list; eapply encode_symbol_char; eassumption.
Qed.

Lemma encode_chars input : forall text, encode input = Ok text -> Forall is_base64_char text.
Proof.
  induction input as [| | |a b c input IH] using list_ind3; intros text H.
  - injection H as <-. constructor.
  - by eapply encode_chunk_chars.
  - by eapply encode_chunk_chars.
  - cbn [encode] in H. apply bind_Ok_inv in H as (s & Hs%encode_chunk_chars & (t & Ht & H)%bind_Ok_inv).
    injection H as <-. apply Forall_app. split; [done|by apply IH].
Qed.

Lemma slice_Ok_inv {E A} (l : list A) a b r : @slice E A l a b = Ok r -> r = sub l a b.
Proof. unfold slice. destruct (_ && _); [|done]. by intros [= <-]. Qed.

Lemma decode_group_bytes gi groups group out : decode_group gi groups group = Ok out -> bytes_ok out.
Proof.
  unfold decode_group. destruct (2 <? _); [done|].
  intros (bits & _ & ->%slice_Ok_inv)%bind_Ok_inv. apply bytes_ok_sub, be_enc_bytes.
Qed.

Lemma decode_groups_bytes n : forall input gi groups out,
  (length input <= n)%nat -> decode_groups gi groups input = Ok out -> bytes_ok out.
Proof.
  induction n as [|n IH]; intros input gi groups out Hl.
  { destruct input; [|cbn in Hl; lia]. intros [= <-]. constructor. }
  destruct input as [|a [|b [|c [|d input]]]]; cbn [decode_groups];
    [intros [= <-]; constructor|apply decode_group_bytes..|].
  intros (bs & Hbs%decode_group_bytes & (rest & Hr & H)%bind_Ok_inv)%bind_Ok_inv. injection H as <-.
  apply bytes_ok_app. split; [done|]. eapply IH; [|exact Hr]. cbn in Hl. lia.
Qed.

Lemma decode_bytes input out : decode input = Ok out -> bytes_ok out.
Proof. unfold decode. destruct (negb _); [done|]. by eapply decode_groups_bytes. Qed.
