(* ===== verification/Bencode.v ===== *)
(** * Bencode: crates/siphon-rtp-ngcompat/src/bencode.rs

    The wire encoding of the rtpengine NG control protocol: the value model, the
    canonical encoder and the recursive-descent decoder with its depth limit.
    A [BTreeMap] is the list of its entries in ascending key order.

    The decoder is one mutually recursive function with fuel.  A value of n
    remaining bytes uses at most 2 n + 1 of it and a container loop 2 n + 2, so
    the fuel given by [decode] is never exhausted ([parse_no_panic]).

    The source checks that the text of a number is UTF-8 before checking that it
    is made of digits; both failures are the same error, so only the second
    check appears here. *)

From S2P Require Import Prelude.
From stdpp Require Import base list numbers option sorting.
From Stdlib Require Import Lia ZArith.

Open Scope Z_scope.

Inductive Value : Type :=
| Integer (n : Z)
| Bytes (b : bytes)
| List (items : list Value)
| Dict (entries : list (bytes * Value)).

Inductive BencodeError : Type :=
| UnexpectedEnd
| Unexpected (byte offset : Z)
| BadInteger (offset : Z)
| BadLength (offset : Z)
| TrailingBytes (count : Z)
| BadDict (offset : Z)
| TooDeep (offset : Z).

Definition MAX_DEPTH : Z := 64.

(** ** Ordered dictionaries *)

(** [Ord] on byte vectors: lexicographic. *)
Fixpoint bytes_compare (a b : bytes) : comparison :=
  match a, b with
  | [], [] => Eq
  | [], _ => Lt
  | _, [] => Gt
  | x :: a, y :: b => match Z.compare x y with Eq => bytes_compare a b | c => c end
  end.

(** [BTreeMap::insert]: the entry it replaced, and the map. *)
Fixpoint dict_insert (key : bytes) (value : Value) (dict : list (bytes * Value))
  : option Value * list (bytes * Value) :=
  match dict with
  | [] => (None, [(key, value)])
  | (k, v) :: rest =>
      match bytes_compare key k with
      | Lt => (None, (key, value) :: dict)
      | Eq => (Some v, (key, value) :: rest)
      | Gt => let '(old, rest) := dict_insert key value rest in (old, (k, v) :: rest)
      end
  end.

Fixpoint dict_get (key : bytes) (dict : list (bytes * Value)) : option Value :=
  match dict with
  | [] => None
  | (k, v) :: rest => match bytes_compare key k with Eq => Some v | _ => dict_get key rest end
  end.

Definition as_dict (v : Value) : option (list (bytes * Value)) :=
  match v with Dict d => Some d | _ => None end.
Definition as_bytes (v : Value) : option bytes := match v with Bytes b => Some b | _ => None end.
Definition as_integer (v : Value) : option Z := match v with Integer n => Some n | _ => None end.
Definition as_list (v : Value) : option (list Value) := match v with List l => Some l | _ => None end.
Definition get (v : Value) (key : bytes) : option Value := dict ← as_dict v; dict_get key dict.

(** ** Decimal text *)

Definition is_digit (b : Z) : bool := (48 <=? b) && (b <=? 57).

(** Digits of a non-negative number, most significant first ([to_string]). *)
Fixpoint digits_fuel (fuel : nat) (n : Z) (acc : bytes) : bytes :=
  match fuel with
  | O => acc
  | S fuel =>
      let acc := 48 + n mod 10 :: acc in
      if n / 10 =? 0 then acc else digits_fuel fuel (n / 10) acc
  end.

Definition digits (n : Z) : bytes := digits_fuel (Z.to_nat (Z.log2 n + 1)) n [].

Definition int_to_string (n : Z) : bytes := if n <? 0 then 45 :: digits (- n) else digits n.

(** The number a digit string denotes. *)
Fixpoint digits_value (acc : Z) (l : bytes) : Z :=
  match l with [] => acc | b :: l => digits_value (acc * 10 + (b - 48)) l end.

(** [str::parse] on text already known to be digits: fails when out of range. *)
Definition parse_u64 (text : bytes) : option Z :=
  let n := digits_value 0 text in if n <? 2 ^ 64 then Some n else None.

Definition parse_i64 (text : bytes) : option Z :=
  let n := match text with 45 :: t => - digits_value 0 t | _ => digits_value 0 text end in
  if (- 2 ^ 63 <=? n) && (n <? 2 ^ 63) then Some n else None.

(** ** Encoding *)

Definition encode_bytes (b : bytes) : bytes := digits (len b) ++ [58] ++ b.

Fixpoint encode (value : Value) : bytes :=
  match value with
  | Integer number => [105] ++ int_to_string number ++ [101]
  | Bytes b => encode_bytes b
  | List items => [108] ++ concat (map encode items) ++ [101]
  | Dict dict =>
      [100] ++ concat (map (fun kv => encode_bytes (fst kv) ++ encode (snd kv)) dict) ++ [101]
  end.

(** ** Decoding *)

Definition is_canonical_integer (text : bytes) : bool :=
  let digits := match text with 45 :: t => t | _ => text end in
  if (len digits =? 0) || negb (forallb is_digit digits) then false else
  if (1 <? len digits) && (match digits with 48 :: _ => true | _ => false end) then false else
  negb (bool_decide (digits = [48]) && (match text with 45 :: _ => true | _ => false end)).

Definition peek (input : bytes) (pos : Z) : res BencodeError Z :=
  ok_or (get_at input pos) UnexpectedEnd.

Definition descend (pos depth : Z) : res BencodeError Z :=
  if MAX_DEPTH <=? depth then Err (TooDeep pos) else mret (depth + 1).

Fixpoint position (byte : Z) (l : bytes) : option Z :=
  match l with
  | [] => None
  | b :: l => if b =? byte then Some 0 else Z.succ <$> position byte l
  end.

Definition find (input : bytes) (pos byte : Z) : res BencodeError (option Z) :=
  rest ← slice input pos (len input);
  mret ((fun offset => pos + offset) <$> position byte rest).

Definition parse_integer (input : bytes) (pos : Z) : res BencodeError (Value * Z) :=
  let start := pos in
  let pos := pos + 1 in
  found ← find input pos 101;
  end_ ← ok_or found UnexpectedEnd;
  text ← slice input pos end_;
  if negb (is_canonical_integer text) then Err (BadInteger start) else
  number ← ok_or (parse_i64 text) (BadInteger start);
  mret (Integer number, end_ + 1).

Definition parse_bytes (input : bytes) (pos : Z) : res BencodeError (Value * Z) :=
  let start := pos in
  found ← find input pos 58;
  colon ← ok_or found (BadLength start);
  length_text ← slice input pos colon;
  if (len length_text =? 0)
     || ((match length_text with 48 :: _ => true | _ => false end) && (1 <? len length_text))
     || negb (forallb is_digit length_text)
  then Err (BadLength start) else
  length ← ok_or (parse_u64 length_text) (BadLength start);
  let data_start := colon + 1 in
  if 2 ^ 64 <=? data_start + length then Err (BadLength start) else
  let data_end := data_start + length in
  if len input <? data_end then Err UnexpectedEnd else
  data ← slice input data_start data_end;
  mret (Bytes data, data_end).

Fixpoint parse_value (fuel : nat) (input : bytes) (pos depth : Z) : res BencodeError (Value * Z) :=
  match fuel with
  | O => Panic
  | S fuel =>
      b ← peek input pos;
      if b =? 105 then parse_integer input pos
      else if b =? 108 then
        inner ← descend pos depth;
        parse_list fuel input (pos + 1) inner []
      else if b =? 100 then
        inner ← descend pos depth;
        parse_dict fuel input (pos + 1) inner pos []
      else if is_digit b then parse_bytes input pos
      else Err (Unexpected b pos)
  end
with parse_list (fuel : nat) (input : bytes) (pos inner : Z) (items : list Value)
  : res BencodeError (Value * Z) :=
  match fuel with
  | O => Panic
  | S fuel =>
      b ← peek input pos;
      if b =? 101 then mret (List items, pos + 1) else
      vp ← parse_value fuel input pos inner;
      parse_list fuel input vp.2 inner (items ++ [vp.1])
  end
with parse_dict (fuel : nat) (input : bytes) (pos inner start : Z) (dict : list (bytes * Value))
  : res BencodeError (Value * Z) :=
  match fuel with
  | O => Panic
  | S fuel =>
      b ← peek input pos;
      if b =? 101 then mret (Dict dict, pos + 1) else
      kp ← parse_value fuel input pos inner;
      match kp.1 with
      | Bytes key =>
          vp ← parse_value fuel input kp.2 inner;
          match dict_insert key vp.1 dict with
          | (Some _, _) => Err (BadDict start)
          | (None, dict) => parse_dict fuel input vp.2 inner start dict
          end
      | _ => Err (BadDict start)
      end
  end.

Definition parse_fuel (input : bytes) : nat := Z.to_nat (2 * len input + 2).

Definition decode_prefix (input : bytes) : res BencodeError (Value * Z) :=
  parse_value (parse_fuel input) input 0 0.

Definition decode (input : bytes) : res BencodeError Value :=
  vp ← parse_value (parse_fuel input) input 0 0;
  if negb (vp.2 =? len input) then
    trailing ← usub (len input) vp.2; Err (TrailingBytes trailing)
  else mret vp.1.

Example decode_example : decode [100; 49; 58; 97; 105; 45; 52; 50; 101; 101] = Ok (Dict [([97], Integer (-42))]).
Proof. reflexivity. Qed.

(** ** Well-formed values *)

Section value_ind.
Variable P : Value -> Prop.
Hypothesis HInt : forall n, P (Integer n).
Hypothesis HBytes : forall b, P (Bytes b).
Hypothesis HList : forall l, Forall P l -> P (List l).
Hypothesis HDict : forall d, Forall (fun kv => P kv.2) d -> P (Dict d).

Fixpoint Value_nested_ind (v : Value) : P v :=
  match v with
  | Integer n => HInt n
  | Bytes b => HBytes b
  | List l => HList l ((fix go (l : list Value) : Forall P l :=
      match l with
      | [] => Forall_nil_2 P
      | v :: l => Forall_cons_2 P v l (Value_nested_ind v) (go l)
      end) l)
  | Dict d => HDict d ((fix go (d : list (bytes * Value)) : Forall (fun kv => P kv.2) d :=
      match d with
      | [] => Forall_nil_2 _
      | kv :: d => Forall_cons_2 _ kv d (Value_nested_ind kv.2) (go d)
      end) d)
  end.
End value_ind.

Fixpoint depth_of (v : Value) : Z :=
  match v with
  | Integer _ | Bytes _ => 0
  | List l => 1 + fold_right Z.max 0 (map depth_of l)
  | Dict d => 1 + fold_right Z.max 0 (map (fun kv => depth_of (snd kv)) d)
  end.

Definition key_lt (a b : bytes * Value) : Prop := bytes_compare a.1 b.1 = Lt.

Fixpoint value_ok (v : Value) : Prop :=
  match v with
  | Integer n => - 2 ^ 63 <= n < 2 ^ 63
  | Bytes b => bytes_ok b
  | List l => (fix go (l : list Value) := match l with [] => True | v :: l => value_ok v /\ go l end) l
  | Dict d => StronglySorted key_lt d /\
      (fix go (d : list (bytes * Value)) :=
         match d with [] => True | kv :: d => (bytes_ok (fst kv) /\ value_ok (snd kv)) /\ go d end) d
  end.

Lemma value_ok_list l : value_ok (List l) <-> Forall value_ok l.
Proof. induction l as [|v l IH]; [split; [constructor|done]|]. rewrite Forall_cons_iff, <- IH. done. Qed.

Lemma value_ok_dict d :
  value_ok (Dict d) <-> StronglySorted key_lt d /\ Forall (fun kv => bytes_ok kv.1 /\ value_ok kv.2) d.
Proof.
  cbn [value_ok]. f_equiv. induction d as [|kv d IH]; [split; [constructor|done]|].
  rewrite Forall_cons_iff, <- IH. done.
Qed.

(** ** Decimal round trip *)

Lemma digits_value_app acc l1 l2 : digits_value acc (l1 ++ l2) = digits_value (digits_value acc l1) l2.
Proof. revert acc. induction l1; simpl; auto. Qed.

(** A canonical decimal: digits, without a leading zero unless it is "0". *)
Definition canonical (ds : bytes) : Prop :=
  ds <> [] /\ forallb is_digit ds = true /\ (match ds with 48 :: _ :: _ => False | _ => True end).

Lemma digits_fuel_spec fuel : forall n acc, (0 < fuel)%nat -> 0 <= n < 2 ^ Z.of_nat fuel ->
  exists ds, digits_fuel fuel n acc = ds ++ acc /\ canonical ds /\ digits_value 0 ds = n /\
    (n <> 0 -> match ds with b :: _ => b <> 48 | [] => True end).
Proof.
  induction fuel as [|fuel IH]; intros n acc Hf Hn; [lia|]. cbn [digits_fuel].
  pose proof (Z.mod_pos_bound n 10 ltac:(lia)). pose proof (Z.div_mod n 10 ltac:(lia)).
  assert (is_digit (48 + n mod 10) = true) as Hd.
  { unfold is_digit. rewrite andb_true_iff, !Z.leb_le. lia. }
  destruct (Z.eqb_spec (n / 10) 0) as [Hq|Hq].
  - exists [48 + n mod 10]. split; [done|]. split.
    { unfold canonical. cbn [forallb]. rewrite Hd. split; [done|]. split; [done|]. by repeat case_match. }
    split; [cbn [digits_value]; lia|]. intros. lia.
  - assert (0 <= n / 10) by (apply Z.div_pos; lia).
    destruct (IH (n / 10) (48 + n mod 10 :: acc)) as (ds & -> & (Hne & Hall & Hz) & Hv & Hlead).
    { destruct fuel; [|lia]. change (2 ^ Z.of_nat 1) with 2 in Hn. assert (n / 10 = 0) by (apply Z.div_small; lia). lia. }
    { split; [done|]. rewrite Nat2Z.inj_succ, Z.pow_succ_r in Hn by lia. apply Z.div_lt_upper_bound; lia. }
    exists (ds ++ [48 + n mod 10]). rewrite <- app_assoc. split; [done|]. split.
    + split; [by destruct ds|]. split; [rewrite forallb_app, Hall; cbn [forallb]; by rewrite Hd|].
      specialize (Hlead Hq). destruct ds as [|b ds]; [done|]. cbn [app]. by repeat case_match.
    + split; [rewrite digits_value_app, Hv; cbn [digits_value]; lia|].
      intros _. specialize (Hlead Hq). by destruct ds.
Qed.

Lemma digits_spec n : 0 <= n -> canonical (digits n) /\ digits_value 0 (digits n) = n /\
  (n <> 0 -> match digits n with b :: _ => b <> 48 | [] => True end).
Proof.
  intros Hn. pose proof (Z.log2_nonneg n). unfold digits.
  destruct (digits_fuel_spec (Z.to_nat (Z.log2 n + 1)) n []) as (ds & -> & Hc & Hv & Hl); [lia| |].
  - rewrite Z2Nat.id by lia. split; [done|]. destruct (decide (n = 0)) as [->|]; [simpl; lia|].
    apply Z.log2_spec. lia.
  - by rewrite app_nil_r.
Qed.

Lemma digit_not b c : is_digit b = true -> is_digit c = false -> (b =? c) = false.
Proof. intros Hb Hc. apply Z.eqb_neq. congruence. Qed.

Lemma position_app byte l r :
  forallb (fun b => negb (b =? byte)) l = true -> position byte (l ++ byte :: r) = Some (len l).
Proof.
  induction l as [|b l IH]; intros Hl; cbn [position app]; [by rewrite Z.eqb_refl|].
  cbn [forallb] in Hl. apply andb_true_iff in Hl as [Hb Hl]. apply negb_true_iff in Hb.
  rewrite Hb, IH by done. change (Z.succ <$> Some (len l)) with (Some (Z.succ (len l))).
  rewrite len_cons. f_equal. lia.
Qed.

Lemma find_app pre l byte r :
  forallb (fun b => negb (b =? byte)) l = true ->
  find (pre ++ l ++ byte :: r) (len pre) byte = Ok (Some (len pre + len l)).
Proof.
  intros Hl. unfold find. pose proof (len_nonneg pre). pose proof (len_nonneg (l ++ byte :: r)).
  rewrite slice_Ok, bind_Ok by (rewrite ?(len_app pre); lia).
  rewrite sub_app_end by (rewrite ?(len_app pre); lia). by rewrite position_app.
Qed.

Lemma digits_avoid ds byte : forallb is_digit ds = true -> is_digit byte = false ->
  forallb (fun b => negb (b =? byte)) ds = true.
Proof.
  intros Hd Hb. rewrite forallb_forall in *. intros b Hin. rewrite digit_not; auto.
Qed.

(** ** Decoding what was encoded *)

Lemma parse_u64_digits n : 0 <= n < 2 ^ 64 -> parse_u64 (digits n) = Some n.
Proof.
  intros Hn. unfold parse_u64. destruct (digits_spec n) as (_ & -> & _); [lia|].
  by rewrite (proj2 (Z.ltb_lt _ _)) by lia.
Qed.

Lemma canonical_first ds : canonical ds ->
  exists b r, ds = b :: r /\ is_digit b = true /\ (b =? 45) = false /\ 0 < len ds.
Proof.
  intros (Hne & Hall & _). destruct ds as [|b r]; [done|]. cbn [forallb] in Hall.
  apply andb_true_iff in Hall as [Hb _]. exists b, r. split; [done|]. split; [done|].
  split; [by apply digit_not|]. rewrite len_cons. pose proof (len_nonneg r). lia.
Qed.

Lemma parse_bytes_app pre b post :
  len (pre ++ encode_bytes b ++ post) < 2 ^ 64 ->
  parse_bytes (pre ++ encode_bytes b ++ post) (len pre) = Ok (Bytes b, len pre + len (encode_bytes b)).
Proof.
  intros Hmax. destruct (digits_spec (len b) (len_nonneg b)) as (Hc & _). pose proof Hc as (Hne & Hall & Hz).
  set (ds := digits (len b)) in *. pose proof (len_nonneg pre). pose proof (len_nonneg b). pose proof (len_nonneg post).
  pose proof (canonical_first ds Hc) as (b0 & r & Hds & _ & _ & Hlds).
  unfold encode_bytes in *. fold ds in Hmax |- *. rewrite !len_app in Hmax. change (len [58]) with 1 in Hmax.
  rewrite <- !app_assoc. cbn [app]. unfold parse_bytes. rewrite find_app by (by apply digits_avoid).
  rewrite bind_Ok. cbn [ok_or]. rewrite bind_Ok.
  rewrite slice_Ok, bind_Ok by (autorewrite with len_db; lia). rewrite sub_app_mid by lia.
  rewrite (proj2 (Z.eqb_neq (len ds) 0)), Hall by lia. cbn [orb negb].
  assert ((match ds with 48 :: _ => true | _ => false end) && (1 <? len ds) = false) as ->.
  { rewrite Hds. destruct r as [|b1 r]; [by rewrite andb_false_r|]. rewrite Hds in Hz.
    destruct (decide (b0 = 48)) as [->|]; [done|]. by repeat case_match. }
  cbn [orb]. assert (parse_u64 ds = Some (len b)) as -> by (apply parse_u64_digits; lia).
  cbn [ok_or]. rewrite bind_Ok.
  cbv zeta. rewrite (proj2 (Z.leb_gt _ _)) by lia.
  rewrite (proj2 (Z.ltb_ge _ _)) by (autorewrite with len_db; lia).
  rewrite slice_Ok, bind_Ok by (autorewrite with len_db; lia).
  unfold mret, res_ret. f_equal. f_equal; [f_equal|].
  - change (pre ++ ds ++ 58 :: b ++ post) with (pre ++ ds ++ [58] ++ b ++ post).
    rewrite (app_assoc ds), (app_assoc pre). apply sub_app_mid; rewrite !len_app; change (len [58]) with 1; lia.
  - autorewrite with len_db. lia.
Qed.

Lemma int_to_string_spec n :
  is_canonical_integer (int_to_string n) = true /\
  (- 2 ^ 63 <= n < 2 ^ 63 -> parse_i64 (int_to_string n) = Some n) /\
  forallb (fun b => negb (b =? 101)) (int_to_string n) = true.
Proof.
  unfold int_to_string. assert (forall ds, canonical ds -> match ds with 45 :: t => t | _ => ds end = ds /\
    match ds with 45 :: _ => true | _ => false end = false /\
    (len ds =? 0) || negb (forallb is_digit ds) = false /\
    (1 <? len ds) && (match ds with 48 :: _ => true | _ => false end) = false /\
    forallb (fun b => negb (b =? 101)) ds = true) as Haux.
  { intros ds Hc. pose proof (canonical_first ds Hc) as (b & r & -> & _ & Hb & Hl). pose proof Hc as (_ & Hall & Hz).
    assert (b <> 45) by (by apply Z.eqb_neq). split; [by repeat case_match|]. split; [by repeat case_match|].
    split; [rewrite (proj2 (Z.eqb_neq _ 0)), Hall by lia; done|]. split; [|by apply digits_avoid].
    destruct r as [|b1 r]; [done|]. destruct (decide (b = 48)) as [->|]; [done|]. rewrite andb_comm. by repeat case_match. }
  destruct (Z.ltb_spec n 0).
  - destruct (digits_spec (- n)) as (Hc & Hv & Hlead); [lia|]. destruct (Haux _ Hc) as (_ & _ & H2 & H3 & H4).
    split; [|split].
    + unfold is_canonical_integer. rewrite H2, H3. rewrite bool_decide_eq_false_2; [done|].
      intros Heq. specialize (Hlead ltac:(lia)). rewrite Heq in Hlead. done.
    + intros Hn. unfold parse_i64. rewrite Hv. rewrite (proj2 (Z.leb_le _ _)), (proj2 (Z.ltb_lt _ _)) by lia.
      cbn [andb]. f_equal. lia.
    + cbn [forallb]. by rewrite H4.
  - destruct (digits_spec n) as (Hc & Hv & _); [lia|]. destruct (Haux _ Hc) as (H0 & H1 & H2 & H3 & H4).
    split; [|split; [|done]].
    + unfold is_canonical_integer. rewrite H0, H1, H2, H3. by rewrite andb_false_r.
    + intros Hn. unfold parse_i64.
      assert ((match digits n with 45 :: t => - digits_value 0 t | _ => digits_value 0 (digits n) end) = n) as ->.
      { destruct (digits n) as [|b r]; [done|]. destruct (decide (b = 45)) as [->|]; [done|]. by repeat case_match. }
      rewrite (proj2 (Z.leb_le _ _)), (proj2 (Z.ltb_lt _ _)) by lia. done.
Qed.

Lemma parse_integer_app pre n post : - 2 ^ 63 <= n < 2 ^ 63 ->
  parse_integer (pre ++ encode (Integer n) ++ post) (len pre) =
  Ok (Integer n, len pre + len (encode (Integer n))).
Proof.
  intros Hn. destruct (int_to_string_spec n) as (Hc & Hp & Ha). cbn [encode]. set (t := int_to_string n) in *.
  pose proof (len_nonneg pre). pose proof (len_nonneg t). pose proof (len_nonneg post).
  unfold parse_integer. rewrite <- !app_assoc, (app_assoc pre).
  replace (len pre + 1) with (len (pre ++ [105])) by (rewrite len_app; done).
  cbn [app]. rewrite find_app by done. rewrite bind_Ok. cbn [ok_or]. rewrite bind_Ok.
  rewrite slice_Ok, bind_Ok by (autorewrite with len_db; lia). rewrite sub_app_mid by lia.
  rewrite Hc, Hp by done. cbn [negb ok_or]. rewrite bind_Ok. unfold mret, res_ret. do 2 f_equal.
  autorewrite with len_db. lia.
Qed.

Lemma peek_app pre b post pos : pos = len pre -> peek (pre ++ b :: post) pos = Ok b.
Proof.
  intros ->. unfold peek, get_at. pose proof (len_nonneg pre). rewrite (proj2 (Z.leb_le _ _)) by lia.
  rewrite to_nat_len, list_lookup_middle by done. done.
Qed.

Lemma encode_bytes_first b : exists c r, encode_bytes b = c :: r /\ is_digit c = true.
Proof.
  destruct (digits_spec (len b) (len_nonneg b)) as (Hc & _).
  destruct (canonical_first _ Hc) as (c & r & Hd & Hdig & _). unfold encode_bytes. rewrite Hd. cbn [app]. eauto.
Qed.

Lemma is_digit_range c : is_digit c = true -> 48 <= c <= 57.
Proof. unfold is_digit. rewrite andb_true_iff, !Z.leb_le. done. Qed.

Lemma encode_first v : exists c r, encode v = c :: r /\ c <> 101.
Proof.
  destruct v as [n|b|l|d]; cbn [encode app]; try (eexists _, _; split; [done|lia]).
  destruct (encode_bytes_first b) as (c & r & -> & Hc%is_digit_range). eexists _, _. split; [done|lia].
Qed.

Lemma encode_len_pos v : 0 < len (encode v).
Proof. destruct (encode_first v) as (c & r & -> & _). rewrite len_cons. pose proof (len_nonneg r). lia. Qed.

Definition parses_back (v : Value) : Prop := forall fuel pre post d,
  value_ok v -> d + depth_of v <= MAX_DEPTH ->
  len (pre ++ encode v ++ post) < 2 ^ 64 -> 2 * len (encode v) + 1 <= Z.of_nat fuel ->
  parse_value fuel (pre ++ encode v ++ post) (len pre) d = Ok (v, len pre + len (encode v)).

Lemma parse_list_items items : Forall parses_back items -> forall fuel pre post inner acc,
  Forall value_ok items -> Forall (fun v => inner + depth_of v <= MAX_DEPTH) items ->
  len (pre ++ concat (map encode items) ++ 101 :: post) < 2 ^ 64 ->
  2 * len (concat (map encode items)) + 2 <= Z.of_nat fuel ->
  parse_list fuel (pre ++ concat (map encode items) ++ 101 :: post) (len pre) inner acc =
  Ok (List (acc ++ items), len pre + len (concat (map encode items)) + 1).
Proof.
  induction 1 as [|v items Hv _ IH]; intros fuel pre post inner acc Hok Hd Hmax Hf.
  - destruct fuel; [unfold len in Hf; simpl in Hf; lia|]. cbn [parse_list map concat app].
    rewrite peek_app, bind_Ok by done. rewrite Z.eqb_refl, app_nil_r. unfold mret, res_ret.
    do 2 f_equal. rewrite len_nil. lia.
  - apply Forall_cons_1 in Hok as [Hov Hok]. apply Forall_cons_1 in Hd as [Hdv Hd].
    cbn [map concat] in *. rewrite <- !app_assoc in *. rewrite !len_app in *.
    pose proof (encode_len_pos v). pose proof (len_nonneg (concat (map encode items))).
    pose proof (len_nonneg (101 :: post)). pose proof (len_nonneg pre).
    destruct fuel as [|fuel]; [lia|]. cbn [parse_list].
    destruct (encode_first v) as (c & r & Hc & Hne).
    assert (peek (pre ++ encode v ++ concat (map encode items) ++ 101 :: post) (len pre) = Ok c) as ->.
    { rewrite Hc. by apply peek_app. }
    rewrite bind_Ok, (proj2 (Z.eqb_neq c 101) Hne).
    rewrite Hv by (done || (rewrite ?len_app; lia)). rewrite bind_Ok. cbn [fst snd].
    rewrite <- len_app, app_assoc, IH by (done || (rewrite ?len_app; lia)).
    do 2 f_equal; [by rewrite <- app_assoc|rewrite len_app; lia].
Qed.

Lemma bytes_compare_gt a b : bytes_compare a b = Lt -> bytes_compare b a = Gt.
Proof.
  revert b. induction a as [|x a IH]; intros [|y b]; cbn [bytes_compare]; try done.
  rewrite (Z.compare_antisym y x). destruct (y ?= x) eqn:Hc; cbn [CompOpp]; try done. apply IH.
Qed.

Lemma dict_insert_last k v dict :
  Forall (fun kv => key_lt kv (k, v)) dict -> dict_insert k v dict = (None, dict ++ [(k, v)]).
Proof.
  induction 1 as [|[k' v'] dict Hlt _ IH]; [done|]. cbn [dict_insert app].
  unfold key_lt in Hlt. cbn [fst] in Hlt. by rewrite (bytes_compare_gt _ _ Hlt), IH.
Qed.

Definition encode_entry (kv : bytes * Value) : bytes := encode_bytes kv.1 ++ encode kv.2.

Lemma bytes_parses_back b : parses_back (Bytes b).
Proof.
  intros fuel pre post d Hok Hd Hmax Hf. pose proof (encode_len_pos (Bytes b)).
  destruct fuel as [|fuel]; [lia|]. cbn [parse_value]. cbn [encode] in *.
  destruct (encode_bytes_first b) as (c & r & Hc & Hdig).
  assert (peek (pre ++ encode_bytes b ++ post) (len pre) = Ok c) as ->.
  { rewrite Hc. by apply peek_app. }
  rewrite bind_Ok. pose proof (is_digit_range c Hdig).
  rewrite (proj2 (Z.eqb_neq c 105)), (proj2 (Z.eqb_neq c 108)), (proj2 (Z.eqb_neq c 100)), Hdig by lia.
  by apply parse_bytes_app.
Qed.

Lemma parse_dict_entries dict : Forall (fun kv => parses_back kv.2) dict ->
  forall fuel pre post inner start acc,
  Forall (fun kv => bytes_ok kv.1 /\ value_ok kv.2) dict ->
  Forall (fun kv => inner + depth_of kv.2 <= MAX_DEPTH) dict -> inner <= MAX_DEPTH ->
  StronglySorted key_lt (acc ++ dict) ->
  len (pre ++ concat (map encode_entry dict) ++ 101 :: post) < 2 ^ 64 ->
  2 * len (concat (map encode_entry dict)) + 2 <= Z.of_nat fuel ->
  parse_dict fuel (pre ++ concat (map encode_entry dict) ++ 101 :: post) (len pre) inner start acc =
  Ok (Dict (acc ++ dict), len pre + len (concat (map encode_entry dict)) + 1).
Proof.
  induction 1 as [|[k v] dict Hv _ IH]; intros fuel pre post inner start acc Hok Hd Hin Hs Hmax Hf.
  - destruct fuel; [unfold len in Hf; simpl in Hf; lia|]. cbn [parse_dict map concat app].
    rewrite peek_app, bind_Ok by done. rewrite Z.eqb_refl, app_nil_r. unfold mret, res_ret.
    do 2 f_equal. rewrite len_nil. lia.
  - apply Forall_cons_1 in Hok as [[Hok1 Hov] Hok]. apply Forall_cons_1 in Hd as [Hdv Hd]. cbn [fst snd] in *.
    cbn [map concat] in *. change (encode_entry (k, v)) with (encode_bytes k ++ encode v) in *.
    rewrite <- !app_assoc in *. rewrite !len_app in *.
    pose proof (encode_len_pos v). pose proof (encode_len_pos (Bytes k)) as Hkp. cbn [encode] in Hkp.
    pose proof (len_nonneg (concat (map encode_entry dict))).
    pose proof (len_nonneg (101 :: post)). pose proof (len_nonneg pre).
    destruct fuel as [|fuel]; [lia|]. cbn [parse_dict].
    destruct (encode_bytes_first k) as (c & r & Hc & Hdig).
    match goal with |- context [peek ?i ?p] => assert (peek i p = Ok c) as -> end.
    { rewrite Hc. by apply peek_app. }
    pose proof (is_digit_range c Hdig). rewrite bind_Ok, (proj2 (Z.eqb_neq c 101)) by lia.
    pose proof (bytes_parses_back k) as Hk. unfold parses_back in Hk. cbn [encode depth_of value_ok] in Hk.
    rewrite Hk by (done || (rewrite ?len_app; lia)). rewrite bind_Ok. cbn [fst snd].
    rewrite <- len_app, app_assoc, Hv by (done || (rewrite ?len_app; lia)). rewrite bind_Ok. cbn [fst snd].
    pose proof Hs as (Hcross & _)%StronglySorted_app. rewrite dict_insert_last.
    2: { apply Forall_forall. intros kv Hkv. apply Hcross; [done|by left]. }
    rewrite <- len_app, (app_assoc (pre ++ encode_bytes k)), IH
      by (done || (rewrite <- ?app_assoc; done) || (rewrite ?len_app; lia)).
    do 2 f_equal; [by rewrite <- app_assoc|rewrite !len_app; lia].
Qed.

Lemma depth_items {A} (f : A -> Z) l n : 0 <= n -> fold_right Z.max 0 (map f l) <= n <-> Forall (fun x => f x <= n) l.
Proof.
  intros Hn. induction l as [|x l IH]; cbn [map fold_right]; [split; [constructor|done]|].
  rewrite Forall_cons_iff, <- IH. lia.
Qed.

Lemma depth_nonneg v : 0 <= depth_of v.
Proof.
  assert (forall l, 0 <= fold_right Z.max 0 l) as H by (induction l; simpl; lia).
  destruct v; cbn [depth_of]; try lia; match goal with |- context [fold_right _ _ ?l] => specialize (H l) end; lia.
Qed.

Lemma all_parse_back v : parses_back v.
Proof.
  induction v as [n|b|l IH|d IH] using Value_nested_ind; [|apply bytes_parses_back| |].
  - intros fuel pre post d Hok Hd Hmax Hf. pose proof (encode_len_pos (Integer n)).
    destruct fuel as [|fuel]; [lia|]. cbn [parse_value].
    assert (peek (pre ++ encode (Integer n) ++ post) (len pre) = Ok 105) as -> by (by apply peek_app).
    rewrite bind_Ok, Z.eqb_refl. by apply parse_integer_app.
  - intros fuel pre post d Hok Hd Hmax Hf. rewrite value_ok_list in Hok. pose proof (depth_nonneg (List l)).
    cbn [encode depth_of] in *. set (body := concat (map encode l)) in *. rewrite <- !app_assoc in *.
    pose proof (len_nonneg body). pose proof (len_nonneg pre). rewrite !len_app in Hf.
    change (len [108]) with 1 in Hf. change (len [101]) with 1 in Hf.
    destruct fuel as [|fuel]; [lia|]. cbn [parse_value app].
    rewrite peek_app, bind_Ok by done. cbn [Z.eqb Pos.eqb]. unfold descend.
    assert (0 <= fold_right Z.max 0 (map depth_of l)).
    { clear. induction l; simpl; lia. }
    rewrite (proj2 (Z.leb_gt MAX_DEPTH d)) by lia. unfold mret, res_ret. rewrite bind_Ok.
    change (pre ++ 108 :: body ++ 101 :: post) with (pre ++ [108] ++ body ++ 101 :: post) in *.
    change (len pre + 1) with (len pre + len [108]). rewrite (app_assoc pre), <- (len_app pre [108]).
    unfold body. rewrite parse_list_items; [|done|done| | |fold body; lia].
    + fold body. do 2 f_equal. autorewrite with len_db. lia.
    + pose proof (proj1 (depth_items depth_of l (MAX_DEPTH - (d + 1)) ltac:(lia)) ltac:(lia)) as Hdi.
      eapply Forall_impl; [exact Hdi|]. intros x Hx. cbn beta in *. lia.
    + fold body. rewrite <- app_assoc. exact Hmax.
  - intros fuel pre post dep Hok Hd Hmax Hf. rewrite value_ok_dict in Hok. destruct Hok as [Hs Hok].
    cbn [encode depth_of] in *. change (concat (map _ d)) with (concat (map encode_entry d)) in *.
    set (body := concat (map encode_entry d)) in *. rewrite <- !app_assoc in *.
    pose proof (len_nonneg body). pose proof (len_nonneg pre). rewrite !len_app in Hf.
    change (len [100]) with 1 in Hf. change (len [101]) with 1 in Hf.
    destruct fuel as [|fuel]; [lia|]. cbn [parse_value app].
    rewrite peek_app, bind_Ok by done. cbn [Z.eqb Pos.eqb]. unfold descend.
    assert (0 <= fold_right Z.max 0 (map (fun kv => depth_of (snd kv)) d)).
    { clear. induction d; simpl; lia. }
    rewrite (proj2 (Z.leb_gt MAX_DEPTH dep)) by lia. unfold mret, res_ret. rewrite bind_Ok.
    change (pre ++ 100 :: body ++ 101 :: post) with (pre ++ [100] ++ body ++ 101 :: post) in *.
    change (len pre + 1) with (len pre + len [100]). rewrite (app_assoc pre), <- (len_app pre [100]).
    unfold body. rewrite parse_dict_entries; [|done|done| |lia|done| |fold body; lia].
    + fold body. do 2 f_equal. autorewrite with len_db. lia.
    + pose proof (proj1 (depth_items (fun kv => depth_of (snd kv)) d (MAX_DEPTH - (dep + 1)) ltac:(lia)) ltac:(lia)) as Hdi.
      eapply Forall_impl; [exact Hdi|]. intros x Hx. cbn beta in *. lia.
    + fold body. rewrite <- app_assoc. exact Hmax.
Qed.

(** ** The decoder on arbitrary input *)

Lemma position_bound byte l o : position byte l = Some o -> 0 <= o < len l.
Proof.
  revert o. induction l as [|b l IH]; intros o Ho; [done|]. cbn [position] in Ho. rewrite len_cons.
  pose proof (len_nonneg l). destruct (b =? byte); [injection Ho as <-; lia|].
  destruct (position byte l) as [o'|]; [|done]. injection Ho as <-. specialize (IH o' eq_refl). lia.
Qed.

Lemma find_spec input pos byte : 0 <= pos <= len input ->
  exists o, find input pos byte = Ok o /\ forall e, o = Some e -> pos <= e < len input.
Proof.
  intros Hp. unfold find. rewrite slice_Ok, bind_Ok by lia. eexists. split; [done|].
  intros e. destruct (position byte _) as [o|] eqn:Ho; [|done]. intros [= <-].
  apply position_bound in Ho. rewrite len_sub in Ho by lia. lia.
Qed.

(** A result that advances and is well formed, or an error; never a panic. *)
Definition parsed (input : bytes) (pos limit : Z) (r : res BencodeError (Value * Z)) : Prop :=
  match r with
  | Ok (v, p) => pos < p <= len input /\ value_ok v /\ depth_of v <= limit
  | Err _ => True
  | Panic => False
  end.

Lemma parse_integer_safe input pos limit :
  0 <= pos < len input -> 0 <= limit -> parsed input pos limit (parse_integer input pos).
Proof.
  intros Hp Hlim. unfold parse_integer. destruct (find_spec input (pos + 1) 101) as (o & -> & Ho); [lia|].
  rewrite bind_Ok. destruct o as [e|]; [|done]. specialize (Ho e eq_refl). cbn [ok_or].
  rewrite bind_Ok, slice_Ok, bind_Ok by lia. destruct (negb _); [done|].
  unfold parse_i64. cbv zeta. set (n := match sub input (pos + 1) e with 45 :: t => _ | _ => _ end).
  destruct ((- 2 ^ 63 <=? n) && (n <? 2 ^ 63)) eqn:Hn; [|done]. cbn [ok_or]. rewrite bind_Ok.
  apply andb_true_iff in Hn as [Hlo%Z.leb_le Hhi%Z.ltb_lt]. cbn. split; [lia|]. split; [lia|done].
Qed.

Lemma parse_bytes_safe input pos limit :
  bytes_ok input -> 0 <= pos < len input -> 0 <= limit -> parsed input pos limit (parse_bytes input pos).
Proof.
  intros Hb Hp Hlim. unfold parse_bytes. destruct (find_spec input pos 58) as (o & -> & Ho); [lia|].
  rewrite bind_Ok. destruct o as [e|]; [|done]. specialize (Ho e eq_refl). cbn [ok_or].
  rewrite bind_Ok, slice_Ok, bind_Ok by lia. destruct (_ || _) eqn:Hbad; [done|].
  apply orb_false_iff in Hbad as [_ Hdig%negb_false_iff].
  destruct (parse_u64 (sub input pos e)) as [n|] eqn:Hn; [|done]. cbn [ok_or]. rewrite bind_Ok.
  assert (0 <= n) as Hnn.
  { unfold parse_u64 in Hn. destruct (_ <? _); [|done]. injection Hn as <-.
    assert (forall acc l, 0 <= acc -> forallb is_digit l = true -> 0 <= digits_value acc l) as Hacc.
    { intros acc l. revert acc. induction l as [|b l IH]; intros acc Ha Hl; [done|]. cbn [forallb digits_value] in *.
      apply andb_true_iff in Hl as [Hbd%is_digit_range Hl]. apply IH; [lia|done]. }
    by apply Hacc. }
  cbv zeta. destruct (2 ^ 64 <=? e + 1 + n); [done|]. destruct (Z.ltb_spec (len input) (e + 1 + n)); [done|].
  rewrite slice_Ok, bind_Ok by lia. cbn. split; [lia|]. split; [by apply bytes_ok_sub|done].
Qed.

Lemma peek_bound input pos b : 0 <= pos -> peek input pos = Ok b -> pos < len input.
Proof.
  intros Hp. unfold peek, get_at. rewrite (proj2 (Z.leb_le 0 pos)) by done.
  destruct (input !! Z.to_nat pos) eqn:Hl; [|done]. intros _. apply lookup_lt_Some in Hl. unfold len. lia.
Qed.

Lemma bytes_compare_trans a b c :
  bytes_compare a b = Lt -> bytes_compare b c = Lt -> bytes_compare a c = Lt.
Proof.
  revert b c. induction a as [|x a IH]; intros [|y b] [|z c]; cbn [bytes_compare]; try done.
  destruct (Z.compare_spec x y), (Z.compare_spec y z), (Z.compare_spec x z); try done; try lia. apply IH.
Qed.

Lemma bytes_compare_lt a b : bytes_compare a b = Gt -> bytes_compare b a = Lt.
Proof.
  revert b. induction a as [|x a IH]; intros [|y b]; cbn [bytes_compare]; try done.
  rewrite (Z.compare_antisym x y). destruct (x ?= y) eqn:Hc; cbn [CompOpp]; try done. apply IH.
Qed.

Lemma dict_insert_Forall P k v dict : forall old dict', dict_insert k v dict = (old, dict') ->
  P (k, v) -> Forall P dict -> Forall P dict'.
Proof.
  induction dict as [|[k' v'] dict IH]; intros old dict' H Hp Hd; cbn [dict_insert] in H.
  - injection H as <- <-. by constructor.
  - apply Forall_cons_1 in Hd as [Hd1 Hd]. destruct (bytes_compare k k').
    + injection H as <- <-. by constructor.
    + injection H as <- <-. by repeat constructor.
    + destruct (dict_insert k v dict) as [o d] eqn:Hi. injection H as <- <-. constructor; [done|]. eauto.
Qed.

(** Inserting a new key keeps the entries in ascending key order. *)
Lemma dict_insert_sorted k v dict : forall dict', dict_insert k v dict = (None, dict') ->
  StronglySorted key_lt dict -> StronglySorted key_lt dict'.
Proof.
  induction dict as [|[k' v'] dict IH]; intros dict' H Hs; cbn [dict_insert] in H.
  - injection H as <-. repeat constructor.
  - apply StronglySorted_cons in Hs as [Hall Hs]. destruct (bytes_compare k k') eqn:Hc.
    + done.
    + injection H as <-. constructor; [by constructor|]. constructor; [done|].
      eapply Forall_impl; [exact Hall|]. intros kv Hkv. unfold key_lt in *. cbn [fst] in *.
      by eapply bytes_compare_trans.
    + destruct (dict_insert k v dict) as [o d] eqn:Hi. injection H as -> <-. constructor; [by apply IH|].
      eapply dict_insert_Forall; [exact Hi| |exact Hall]. by apply bytes_compare_lt.
Qed.

Definition loop_safe (input : bytes) (fuel : nat) : Prop :=
  (forall pos depth, 0 <= pos <= len input -> 0 <= depth <= MAX_DEPTH ->
     2 * (len input - pos) + 1 <= Z.of_nat fuel ->
     parsed input pos (MAX_DEPTH - depth) (parse_value fuel input pos depth)) /\
  (forall pos inner items, 0 <= pos <= len input -> 0 <= inner <= MAX_DEPTH ->
     Forall (fun v => value_ok v /\ depth_of v <= MAX_DEPTH - inner) items ->
     2 * (len input - pos) + 2 <= Z.of_nat fuel ->
     parsed input pos (MAX_DEPTH - inner + 1) (parse_list fuel input pos inner items)) /\
  (forall pos inner start dict, 0 <= pos <= len input -> 0 <= inner <= MAX_DEPTH ->
     StronglySorted key_lt dict ->
     Forall (fun kv => (bytes_ok kv.1 /\ value_ok kv.2) /\ depth_of kv.2 <= MAX_DEPTH - inner) dict ->
     2 * (len input - pos) + 2 <= Z.of_nat fuel ->
     parsed input pos (MAX_DEPTH - inner + 1) (parse_dict fuel input pos inner start dict)).

(** A container's result counts from its opening byte. *)
Lemma parsed_outer input pos pos' limit r :
  pos <= pos' -> parsed input pos' limit r -> parsed input pos limit r.
Proof. unfold parsed. destruct r as [[v p]| |]; [|done..]. intros ? (? & ? & ?). split_and!; auto; lia. Qed.

Lemma parse_safe input fuel : bytes_ok input -> loop_safe input fuel.
Proof.
  intros Hb. unfold loop_safe, MAX_DEPTH. induction fuel as [|fuel (IHv & IHl & IHd)]; [split_and!; intros; lia|].
  split_and!.
  - intros pos depth Hp Hd Hf. cbn [parse_value]. destruct (peek input pos) as [b| |] eqn:Hpk; [|done|].
    2: { unfold peek in Hpk. by destruct (get_at input pos). }
    apply peek_bound in Hpk as Hlt; [|lia]. rewrite bind_Ok. unfold descend, MAX_DEPTH.
    destruct (b =? 105); [apply parse_integer_safe; lia|].
    destruct (b =? 108).
    { destruct (Z.leb_spec 64 depth); [done|]. unfold mret, res_ret. rewrite bind_Ok.
      apply (parsed_outer _ _ (pos + 1)); [lia|]. replace (64 - depth) with (64 - (depth + 1) + 1) by lia.
      apply IHl; [lia..|constructor|lia]. }
    destruct (b =? 100).
    { destruct (Z.leb_spec 64 depth); [done|]. unfold mret, res_ret. rewrite bind_Ok.
      apply (parsed_outer _ _ (pos + 1)); [lia|]. replace (64 - depth) with (64 - (depth + 1) + 1) by lia.
      apply IHd; [lia..|constructor|constructor|lia]. }
    destruct (is_digit b); [apply parse_bytes_safe; [done|lia|lia]|done].
  - intros pos inner items Hp Hi Hits Hf. cbn [parse_list]. destruct (peek input pos) as [b| |] eqn:Hpk; [|done|].
    2: { unfold peek in Hpk. by destruct (get_at input pos). }
    apply peek_bound in Hpk as Hlt; [|lia]. rewrite bind_Ok. destruct (b =? 101).
    { apply Forall_and in Hits as [Hok Hdep]. cbn [parsed mret res_ret]. split; [lia|].
      split; [by apply value_ok_list|]. cbn [depth_of].
      pose proof (proj2 (depth_items depth_of items (64 - inner) ltac:(lia)) Hdep). lia. }
    specialize (IHv pos inner ltac:(lia) ltac:(lia) ltac:(lia)).
    destruct (parse_value fuel input pos inner) as [[v p]| |]; [|done|done]. destruct IHv as (Hp' & Hv & Hdv).
    rewrite bind_Ok. cbn [fst snd]. apply (parsed_outer _ _ p); [lia|].
    apply IHl; [lia..| |lia]. apply Forall_app. split; [done|]. by constructor.
  - intros pos inner start dict Hp Hi Hs Hits Hf. cbn [parse_dict]. destruct (peek input pos) as [b| |] eqn:Hpk; [|done|].
    2: { unfold peek in Hpk. by destruct (get_at input pos). }
    apply peek_bound in Hpk as Hlt; [|lia]. rewrite bind_Ok. destruct (b =? 101).
    { apply Forall_and in Hits as [Hok Hdep]. cbn [parsed mret res_ret]. split; [lia|].
      split; [by apply value_ok_dict|]. cbn [depth_of].
      pose proof (proj2 (depth_items (fun kv => depth_of (snd kv)) dict (64 - inner) ltac:(lia)) Hdep). lia. }
    pose proof (IHv pos inner ltac:(lia) ltac:(lia) ltac:(lia)) as Hk.
    destruct (parse_value fuel input pos inner) as [[k p]| |]; [|done|done]. destruct Hk as (Hp' & Hk & _).
    rewrite bind_Ok. cbn [fst snd]. destruct k as [|key| |]; try done.
    pose proof (IHv p inner ltac:(lia) ltac:(lia) ltac:(lia)) as Hv.
    destruct (parse_value fuel input p inner) as [[v p2]| |]; [|done|done]. destruct Hv as (Hp2 & Hv & Hdv).
    rewrite bind_Ok. cbn [fst snd]. destruct (dict_insert key v dict) as [[o|] dict'] eqn:Hins; [done|].
    apply (parsed_outer _ _ p2); [lia|]. apply IHd; [lia..| | |lia].
    + by eapply dict_insert_sorted.
    + eapply dict_insert_Forall; [exact Hins| |exact Hits]. done.
Qed.

(** ** Theorems *)

(** Decoding the encoding of any well-formed value (64-bit integers, keys
    in order, nesting within the limit) returns that value, with no trailing
    bytes reported. *)
Lemma bencode_roundtrip v :
  value_ok v -> depth_of v <= MAX_DEPTH -> len (encode v) < 2 ^ 64 -> decode (encode v) = Ok v.
Proof.
  intros Hok Hd Hmax. unfold decode. pose proof (encode_len_pos v).
  pose proof (all_parse_back v (parse_fuel (encode v)) [] [] 0 Hok) as H0. rewrite app_nil_r in H0.
  cbn [app] in H0. change (len []) with 0 in H0. rewrite H0; [|lia|done|unfold parse_fuel; lia].
  rewrite bind_Ok. cbn [fst snd]. rewrite Z.add_0_l, Z.eqb_refl. done.
Qed.

Lemma bencode_roundtrip_witness :
  decode (encode (Dict [([97], List [Integer (-42); Bytes [255]]); ([98], Dict [])])) =
  Ok (Dict [([97], List [Integer (-42); Bytes [255]]); ([98], Dict [])]).
Proof.
  apply (bencode_roundtrip (Dict [([97], List [Integer (-42); Bytes [255]]); ([98], Dict [])])).
  - apply value_ok_dict. split.
    + repeat constructor.
    + forall_list; cbn; (split; [|split_and!]); unfold bytes_ok; try forall_list; unfold is_byte; try lia;
        try done; repeat constructor.
  - vm_compute. congruence.
  - vm_compute. reflexivity.
Defined.

(** The decoder is total on hostile datagrams: it never panics, never runs
    past the input, and never recurses past 64 levels; whatever it accepts is a
    well-formed value nested at most 64 deep. *)
Lemma bencode_decode_safe input :
  bytes_ok input ->
  match decode input with
  | Ok v => value_ok v /\ depth_of v <= MAX_DEPTH
  | Err _ => True
  | Panic => False
  end.
Proof.
  intros Hb. unfold decode. destruct (parse_safe input (parse_fuel input) Hb) as (Hv & _).
  pose proof (len_nonneg input).
  specialize (Hv 0 0 ltac:(lia) ltac:(unfold MAX_DEPTH; lia) ltac:(unfold parse_fuel; lia)).
  destruct (parse_value (parse_fuel input) input 0 0) as [[v p]| |]; [|done|done].
  destruct Hv as (Hp & Hok & Hd). rewrite bind_Ok. cbn [fst snd].
  destruct (negb (p =? len input)); [by rewrite usub_Ok by lia|]. split; [done|]. lia.
Qed.

Lemma bencode_decode_safe_witness :
  decode (replicate 100 108) = Err (TooDeep 64) /\
  match decode [108; 105; 53; 101; 101] with Ok v => value_ok v /\ depth_of v <= MAX_DEPTH | Err _ => True | Panic => False end.
Proof.
  split; [vm_compute; reflexivity|]. apply (bencode_decode_safe [108; 105; 53; 101; 101]).
  unfold bytes_ok. forall_list; unfold is_byte; lia.
Defined.
