(* ===== verification/Text.v ===== *)
(** * Strings of the Rust standard library

    The [str] functions the text parsers use: a string is its UTF-8 bytes, and
    white space is what [char::is_whitespace] says, recognised in its encoded
    form. *)

From Stdlib Require Import Lia ZArith String Ascii List.
From S2P Require Import Prelude Bencode.
From stdpp Require Import base list numbers option sets.

Open Scope Z_scope.

Definition str (s : string) : bytes := (fun c => Z.of_nat (nat_of_ascii c)) <$> list_ascii_of_string s.

(** The number of bytes of the white-space character the text starts with, 0 if it
    starts with none. *)
Definition whitespace_len (text : bytes) : nat :=
  match text with
  | b0 :: rest =>
      if ((9 <=? b0) && (b0 <=? 13)) || (b0 =? 32) then 1%nat else
      match rest with
      | b1 :: rest =>
          if (b0 =? 0xC2) && ((b1 =? 0x85) || (b1 =? 0xA0)) then 2%nat else
          match rest with
          | b2 :: _ =>
              if (b0 =? 0xE1) && (b1 =? 0x9A) && (b2 =? 0x80)
                 || (b0 =? 0xE2) && (b1 =? 0x80) && (((0x80 <=? b2) && (b2 <=? 0x8A)) || (b2 =? 0xA8) || (b2 =? 0xA9) || (b2 =? 0xAF))
                 || (b0 =? 0xE2) && (b1 =? 0x81) && (b2 =? 0x9F)
                 || (b0 =? 0xE3) && (b1 =? 0x80) && (b2 =? 0x80) then 3%nat else 0%nat
          | [] => 0%nat
          end
      | [] => 0%nat
      end
  | [] => 0%nat
  end.

(** [str::split_whitespace]: [current] is the word being read, [skip] the bytes left
    of a white-space character. *)
Definition flush (current : bytes) : list bytes := match current with [] => [] | _ => [current] end.

Fixpoint split_words (skip : nat) (current text : bytes) : list bytes :=
  match text with
  | [] => flush current
  | b :: rest =>
      match skip with
      | S skip => split_words skip current rest
      | O => match whitespace_len text with
             | O => split_words 0 (current ++ [b]) rest
             | S more => flush current ++ split_words more [] rest
             end
      end
  end.

Definition split_whitespace (text : bytes) : list bytes := split_words 0 [] text.

Fixpoint trim_start_from (skip : nat) (text : bytes) : bytes :=
  match text with
  | [] => []
  | _ :: rest =>
      match skip with
      | S skip => trim_start_from skip rest
      | O => match whitespace_len text with O => text | S more => trim_start_from more rest end
      end
  end.

Definition trim_start (text : bytes) : bytes := trim_start_from 0 text.

Fixpoint trim_end (text : bytes) : bytes :=
  match text with
  | [] => []
  | b :: rest => match trim_start text with [] => [] | _ => b :: trim_end rest end
  end.

(** [str::trim] *)
Definition trim (text : bytes) : bytes := trim_end (trim_start text).

Fixpoint strip_prefix (prefix text : bytes) : option bytes :=
  match prefix, text with
  | [], _ => Some text
  | p :: prefix, b :: text => if p =? b then strip_prefix prefix text else None
  | _ :: _, [] => None
  end.

Definition to_ascii_lowercase (text : bytes) : bytes :=
  map (fun b => if (65 <=? b) && (b <=? 90) then b + 32 else b) text.
Definition to_ascii_uppercase (text : bytes) : bytes :=
  map (fun b => if (97 <=? b) && (b <=? 122) then b - 32 else b) text.

Definition is_ascii_alphanumeric (b : Z) : bool :=
  is_digit b || ((65 <=? b) && (b <=? 90)) || ((97 <=? b) && (b <=? 122)).

(** Words joined by single spaces. *)
Fixpoint join (words : list bytes) : bytes :=
  match words with [] => [] | [w] => w | w :: words => w ++ [32] ++ join words end.

(** * Proofs *)

(** ** Words *)

(** No white space anywhere inside. *)
Fixpoint no_ws (w : bytes) : Prop := match w with [] => True | _ :: rest => whitespace_len w = 0%nat /\ no_ws rest end.

Definition word (w : bytes) : Prop := w <> [] /\ no_ws w.

Definition is_plain (b : Z) : Prop := 33 <= b <= 126.

Lemma plain_no_ws w : Forall is_plain w -> no_ws w.
Proof.
  induction 1 as [|b w Hb Hw IH]; [done|]. split; [|done]. unfold is_plain in Hb. cbn [whitespace_len].
  assert (forall k, 126 < k -> (b =? k) = false) as Hne by (intros; apply Z.eqb_neq; lia).
  rewrite (proj2 (Z.leb_gt b 13)), (proj2 (Z.eqb_neq b 32)), !Hne by lia. rewrite andb_false_r. cbn [orb andb]. by destruct w as [|? [|? ?]].
Qed.

(** White space does not depend on what follows a word, nor on what it is cut off. *)
Lemma ws_space s r : s <> [] -> whitespace_len s = 0%nat -> whitespace_len (s ++ 32 :: r) = 0%nat.
Proof.
  destruct s as [|b0 [|b1 [|b2 s]]]; [done|..]; intros _; cbn [whitespace_len app];
    destruct ((9 <=? b0) && (b0 <=? 13) || (b0 =? 32)); try done.
  - destruct r; cbn; by rewrite ?andb_false_r.
  - destruct ((b0 =? 194) && _); [done|]. cbn. by rewrite !andb_false_r.
Qed.

Lemma ws_prefix s t : whitespace_len (s ++ t) = 0%nat -> whitespace_len s = 0%nat.
Proof.
  destruct s as [|b0 [|b1 [|b2 s]]]; cbn [whitespace_len app]; [done|..]; destruct ((9 <=? b0) && (b0 <=? 13) || (b0 =? 32)); try done.
  destruct ((b0 =? 194) && _); done.
Qed.

Lemma split_word w : forall current rest, no_ws w ->
  split_words 0 current (w ++ 32 :: rest) = flush (current ++ w) ++ split_words 0 [] rest /\
  split_words 0 current w = flush (current ++ w).
Proof.
  induction w as [|b w IH]; intros current rest Hw.
  - rewrite app_nil_r. cbn [app split_words]. done.
  - destruct Hw as [Hb Hw]. destruct (IH (current ++ [b]) rest Hw) as [H1 H2]. rewrite <- app_assoc in H1, H2. cbn [app] in H1, H2. split.
    + assert (whitespace_len ((b :: w) ++ 32 :: rest) = 0%nat) as E by (by apply ws_space). cbn [app split_words] in *. by rewrite E, H1.
    + cbn [split_words]. by rewrite Hb, H2.
Qed.

Lemma flush_word w : w <> [] -> flush w = [w].
Proof. by destruct w. Qed.

Lemma split_join words : Forall word words -> split_whitespace (join words) = words.
Proof.
  unfold split_whitespace. induction 1 as [|w words [Hne Hw] Hws IH]; [done|]. destruct words as [|w2 words].
  - cbn [join]. destruct (split_word w [] [] Hw) as [_ E]. rewrite E. by apply flush_word.
  - change (join (w :: w2 :: words)) with (w ++ 32 :: join (w2 :: words)). destruct (split_word w [] (join (w2 :: words)) Hw) as [E _].
    rewrite E, IH. cbn [app]. by rewrite flush_word.
Qed.

(** What the splitter yields are words. *)
Definition open_word (current text : bytes) : Prop :=
  forall s1 s2, current = s1 ++ s2 -> s2 <> [] -> whitespace_len (s2 ++ text) = 0%nat.

Lemma flush_words current text : open_word current text -> Forall word (flush current).
Proof.
  intros Ho. destruct current as [|b c] eqn:E; [constructor|]. rewrite <- E in *. assert (current <> []) as Hne by (by rewrite E).
  rewrite flush_word by done. constructor; [|constructor]. split; [done|]. clear E Hne. revert Ho. induction current as [|x l IH]; [done|].
  intros Ho. split; [by apply ws_prefix with text, (Ho [])|]. apply IH. intros s1 s2 -> Hs. by apply (Ho (x :: s1)).
Qed.

Lemma open_nil text : open_word [] text.
Proof. intros s1 s2 Hs Hne. by destruct s1, s2. Qed.

Lemma split_words_ok text : forall skip current, open_word current text -> skip = 0%nat \/ current = [] ->
  Forall word (split_words skip current text).
Proof.
  induction text as [|b text IH]; intros skip current Ho Hs; cbn [split_words]; [by eapply flush_words|].
  destruct skip as [|skip].
  - destruct (whitespace_len (b :: text)) as [|more] eqn:E.
    + apply IH; [|by left]. intros s1 s2 Hss Hne. destruct s2 as [|x s2] using rev_ind; [done|]. clear IHs2.
      rewrite app_assoc in Hss. apply app_inj_tail in Hss as [-> ->]. rewrite <- app_assoc. cbn [app].
      destruct s2 as [|y s2]; [done|]. by apply (Ho s1).
    + apply Forall_app. split; [by eapply flush_words|]. apply IH; [apply open_nil|by right].
  - destruct Hs as [Hs|Hs]; [discriminate Hs|]. subst current. apply IH; [apply open_nil|by right].
Qed.

Lemma split_whitespace_words text : Forall word (split_whitespace text).
Proof. apply split_words_ok; [apply open_nil|by left]. Qed.

(** Trimming leaves a text alone that starts with a plain character and ends with a
    word. *)
Lemma ws_before_space (s r : bytes) : s <> [] -> (whitespace_len (s ++ 32%Z :: r) <= length s)%nat.
Proof.
  destruct s as [|b0 [|b1 [|b2 s]]]; [done|..]; intros _; cbn [whitespace_len app length]; (destruct (_ || (b0 =? 32)); [lia|]).
  - cbn. rewrite andb_false_r. destruct r; [lia|]. rewrite ?andb_false_r. cbn. lia.
  - destruct ((b0 =? 194) && _); [lia|]. cbn. rewrite ?andb_false_r. cbn [orb]. lia.
  - destruct ((b0 =? 194) && _); [lia|]. destruct (_ || _); lia.
Qed.

Lemma trim_start_word w t : word w -> forall k, trim_start_from k (t ++ 32 :: w) = [] -> (length t < k)%nat.
Proof.
  intros [Hne Hw]. induction t as [|x t IH]; intros k; cbn [app trim_start_from].
  - destruct k; [|cbn; lia]. change (whitespace_len (32 :: w)) with 1%nat. cbv iota. destruct w as [|b w]; [done|]. cbn [trim_start_from].
    destruct Hw as [-> _]. done.
  - destruct k as [|k]; [|intros Hk%IH; cbn; lia]. pose proof (ws_before_space (x :: t) w ltac:(done)) as H. cbn [app length] in H.
    destruct (whitespace_len (x :: t ++ 32 :: w)) as [|m]; [done|]. intros Hm%IH. lia.
Qed.

Lemma trim_end_word w t : word w -> trim_end (t ++ 32 :: w) = t ++ 32 :: w.
Proof.
  intros Hw. assert (forall t, trim_start (t ++ 32 :: w) <> []) as Hne by (intros t' E; apply trim_start_word in E; [lia|done]).
  assert (trim_end w = w) as Hend.
  { clear t Hne. destruct Hw as [_ Hw]. induction w as [|b w IH]; [done|]. destruct Hw as [Hb Hw]. cbn [trim_end]. unfold trim_start. cbn [trim_start_from].
    rewrite Hb. by rewrite IH. }
  induction t as [|b t IH]; cbn [app trim_end].
  - destruct (trim_start (32 :: w)) eqn:E; [by destruct (Hne [])|by rewrite Hend].
  - destruct (trim_start (b :: t ++ 32 :: w)) eqn:E; [by destruct (Hne (b :: t))|]. by rewrite IH.
Qed.

Lemma trim_line first t w : is_plain first -> word w -> trim (first :: t ++ 32 :: w) = first :: t ++ 32 :: w.
Proof.
  intros Hf Hw. unfold trim. assert (trim_start (first :: t ++ 32 :: w) = first :: t ++ 32 :: w) as ->; [|by apply (trim_end_word w (first :: t))].
  unfold trim_start. cbn [trim_start_from]. assert (whitespace_len (first :: t ++ 32 :: w) = 0%nat) as ->; [|done].
  unfold is_plain in Hf. cbn [whitespace_len]. assert (forall k, 126 < k -> (first =? k) = false) as Hne by (intros; apply Z.eqb_neq; lia).
  rewrite (proj2 (Z.leb_gt first 13)), (proj2 (Z.eqb_neq first 32)), !Hne by lia. rewrite andb_false_r. cbn [orb andb].
  by destruct (t ++ 32 :: w) as [|? [|? ?]].
Qed.

Lemma join_last words w : words <> [] -> join (words ++ [w]) = join words ++ 32 :: w.
Proof.
  induction words as [|x words IH]; [done|]. intros _. destruct words as [|y words]; [done|].
  change (join ((x :: y :: words) ++ [w])) with (x ++ [32] ++ join ((y :: words) ++ [w])).
  change (join (x :: y :: words)) with (x ++ [32] ++ join (y :: words)). rewrite IH by done. by rewrite <- !app_assoc.
Qed.

Lemma strip_prefix_app prefix text : strip_prefix prefix (prefix ++ text) = Some text.
Proof. induction prefix as [|p prefix IH]; [done|]. cbn. by rewrite Z.eqb_refl. Qed.

Definition plain_word (w : bytes) : Prop := w <> [] /\ Forall is_plain w.

Lemma plain_is_word w : plain_word w -> word w.
Proof. intros [H1 H2]. split; [done|by apply plain_no_ws]. Qed.

Lemma digit_plain ds : forallb is_digit ds = true -> Forall is_plain ds.
Proof. intros H. apply Forall_forall. intros b Hb%list_elem_of_In. rewrite forallb_forall in H. specialize (H b Hb). unfold is_digit, is_plain in *. lia. Qed.

Lemma digits_word n : 0 <= n -> plain_word (digits n).
Proof. intros Hn. destruct (digits_spec n Hn) as ((H1 & H2 & _) & _). split; [done|by apply digit_plain]. Qed.
