(* ===== verification/Crypto.v ===== *)
(** * Hand-written primitives: SHA-1, HMAC-SHA1 and CRC-32 of
    crates/siphon-rtp-stun/src/lib.rs

    Executable transcriptions, checked on published test vectors.  The padding
    loop has a fuel of 64 turns: it appends at most 63 zero bytes. *)

From S2P Require Import Prelude.
From stdpp Require Import base list numbers option.
From Stdlib Require Import Lia ZArith.

Open Scope Z_scope.

(** [u32::rotate_left] *)
Definition rotate_left32 (x n : Z) : Z := Z.lor (wrap 32 (Z.shiftl x n)) (Z.shiftr x (32 - n)).

Definition not32 (x : Z) : Z := 0xFFFFFFFF - x.

(** [while message.len() % 64 != 56 { message.push(0) }] *)
Fixpoint pad_zeros (fuel : nat) (message : bytes) : bytes :=
  match fuel with
  | O => message
  | S fuel => if len message mod 64 =? 56 then message else pad_zeros fuel (message ++ [0])
  end.

(** [as_chunks::<N>().0]: the complete chunks of [n] elements. *)
Fixpoint as_chunks {A} (fuel n : nat) (l : list A) : list (list A) :=
  match fuel with
  | O => []
  | S fuel => if (n <=? length l)%nat then take n l :: as_chunks fuel n (drop n l) else []
  end.

Definition nth_word (w : list Z) (i : nat) : Z := nth i w 0.

(** [for i in 16..80 { w[i] = (w[i-3] ^ w[i-8] ^ w[i-14] ^ w[i-16]).rotate_left(1) }] *)
Fixpoint sha1_expand (count : nat) (w : list Z) : list Z :=
  match count with
  | O => w
  | S count =>
      let i := length w in
      let x := Z.lxor (Z.lxor (Z.lxor (nth_word w (i - 3)) (nth_word w (i - 8))) (nth_word w (i - 14)))
                 (nth_word w (i - 16)) in
      sha1_expand count (w ++ [rotate_left32 x 1])
  end.

Record sha1_state : Type := mkSha1 { h_a : Z; h_b : Z; h_c : Z; h_d : Z; h_e : Z }.

Definition sha1_round (s : sha1_state) (iw : nat * Z) : sha1_state :=
  let '(i, word) := iw in
  let '(mkSha1 a b c d e) := s in
  let '(f, k) :=
    if (i <=? 19)%nat then (Z.lor (Z.land b c) (Z.land (not32 b) d), 0x5A827999)
    else if (i <=? 39)%nat then (Z.lxor (Z.lxor b c) d, 0x6ED9EBA1)
    else if (i <=? 59)%nat then (Z.lor (Z.lor (Z.land b c) (Z.land b d)) (Z.land c d), 0x8F1BBCDC)
    else (Z.lxor (Z.lxor b c) d, 0xCA62C1D6) in
  let temp := wrapping_add 32 (wrapping_add 32 (wrapping_add 32 (wrapping_add 32 (rotate_left32 a 5) f) e) k) word in
  mkSha1 temp a (rotate_left32 b 30) c d.

Definition sha1_chunk (h : sha1_state) (chunk : bytes) : sha1_state :=
  let w := sha1_expand 64 (be_dec <$> as_chunks 16 4 chunk) in
  let s := foldl sha1_round h (zip (seq 0 80) w) in
  mkSha1 (wrapping_add 32 (h_a h) (h_a s)) (wrapping_add 32 (h_b h) (h_b s))
    (wrapping_add 32 (h_c h) (h_c s)) (wrapping_add 32 (h_d h) (h_d s)) (wrapping_add 32 (h_e h) (h_e s)).

Definition sha1 (data : bytes) : bytes :=
  let bit_len := wrap 64 (len data * 8) in
  let message := pad_zeros 64 (data ++ [0x80]) ++ be_enc 8 bit_len in
  let h := foldl sha1_chunk (mkSha1 0x67452301 0xEFCDAB89 0x98BADCFE 0x10325476 0xC3D2E1F0)
             (as_chunks (S (length message)) 64 message) in
  be_enc 4 (h_a h) ++ be_enc 4 (h_b h) ++ be_enc 4 (h_c h) ++ be_enc 4 (h_d h) ++ be_enc 4 (h_e h).

Definition hmac_sha1 (key message : bytes) : bytes :=
  let key := if 64 <? len key then sha1 key else key in
  let block_key := key ++ replicate (64 - length key) 0 in
  let ipad := Z.lxor 0x36 <$> block_key in
  let opad := Z.lxor 0x5c <$> block_key in
  let inner_hash := sha1 (ipad ++ message) in
  sha1 (opad ++ inner_hash).

Definition crc32_bit (crc : Z) : Z :=
  if negb (Z.land crc 1 =? 0) then Z.lxor (Z.shiftr crc 1) 0xEDB88320 else Z.shiftr crc 1.

Definition crc32_byte (crc byte : Z) : Z := Nat.iter 8 crc32_bit (Z.lxor crc byte).

Definition crc32 (data : bytes) : Z := not32 (foldl crc32_byte 0xFFFFFFFF data).

(** [diff |= x ^ y] over the two slices. *)
Fixpoint ct_diff (diff : Z) (a b : bytes) : Z :=
  match a, b with x :: a, y :: b => ct_diff (Z.lor diff (Z.lxor x y)) a b | _, _ => diff end.

Definition constant_time_eq (a b : bytes) : bool :=
  if negb (len a =? len b) then false else ct_diff 0 a b =? 0.

(** ** Test vectors and sizes *)

(** FIPS 180 appendix A.1: SHA-1("abc"). *)
Example sha1_abc : be_dec (sha1 [97; 98; 99]) = 0xA9993E364706816ABA3E25717850C26C9CD0D89D.
Proof. vm_compute. reflexivity. Qed.

(** RFC 2202 test case 2: HMAC-SHA1("Jefe", "what do ya want for nothing?"). *)
Example hmac_sha1_jefe :
  be_dec (hmac_sha1 [0x4a; 0x65; 0x66; 0x65]
    [0x77; 0x68; 0x61; 0x74; 0x20; 0x64; 0x6f; 0x20; 0x79; 0x61; 0x20; 0x77; 0x61; 0x6e; 0x74; 0x20; 0x66;
     0x6f; 0x72; 0x20; 0x6e; 0x6f; 0x74; 0x68; 0x69; 0x6e; 0x67; 0x3f]) =
  0xeffcdf6ae5eb2fa2d27416d5f184df9c259a7c79.
Proof. vm_compute. reflexivity. Qed.

(** CRC-32("123456789"). *)
Example crc32_check : crc32 (seqZ 49 9) = 0xCBF43926.
Proof. vm_compute. reflexivity. Qed.

Lemma len_sha1 d : len (sha1 d) = 20.
Proof. unfold sha1. cbv zeta. rewrite !len_app, !len_be_enc. done. Qed.

Lemma len_hmac_sha1 k m : len (hmac_sha1 k m) = 20.
Proof. unfold hmac_sha1. cbv zeta. apply len_sha1. Qed.

Lemma sha1_bytes d : bytes_ok (sha1 d).
Proof. unfold sha1. cbv zeta. rewrite !bytes_ok_app. split_and!; apply be_enc_bytes. Qed.

Lemma hmac_sha1_bytes k m : bytes_ok (hmac_sha1 k m).
Proof. unfold hmac_sha1. cbv zeta. apply sha1_bytes. Qed.

Lemma lxor_zero_iff a b : Z.lxor a b = 0 <-> a = b.
Proof. split; [apply Z.lxor_eq|intros ->; apply Z.lxor_nilpotent]. Qed.

Lemma ct_diff_zero a : forall b diff, length a = length b -> ct_diff diff a b = 0 <-> diff = 0 /\ a = b.
Proof.
  induction a as [|x a IH]; intros [|y b] diff Hl; try done; cbn [ct_diff]; [tauto|].
  injection Hl as Hl. rewrite IH by done. rewrite Z.lor_eq_0_iff, lxor_zero_iff. split.
  - intros [[-> ->] ->]. done.
  - intros [-> [= -> ->]]. done.
Qed.

(** The constant-time comparison decides equality. *)
Lemma constant_time_eq_spec a b : constant_time_eq a b = bool_decide (a = b).
Proof.
  unfold constant_time_eq. destruct (Z.eqb_spec (len a) (len b)) as [Hl|Hl]; cbn [negb].
  - assert (length a = length b) as Hn by (unfold len in Hl; lia).
    pose proof (ct_diff_zero a b 0 Hn). apply eq_bool_prop_intro. rewrite bool_decide_spec.
    split.
    + intros Hz%Is_true_true. apply Z.eqb_eq in Hz. tauto.
    + intros ->. apply Is_true_true, Z.eqb_eq. tauto.
  - rewrite bool_decide_eq_false_2 by congruence. done.
Qed.
