(* ===== verification/Stun.v ===== *)
(** * STUN: crates/siphon-rtp-stun/src/lib.rs

    Message parsing, the message builder with MESSAGE-INTEGRITY and FINGERPRINT,
    integrity verification and XOR-MAPPED-ADDRESS.  SHA-1, HMAC and CRC-32 are
    the definitions of Crypto.  Attribute loops take one more turn of fuel than
    the datagram has bytes: each turn consumes a four-byte attribute header. *)

From S2P Require Import Prelude Crypto.
From stdpp Require Import base list numbers option.
From Stdlib Require Import Lia ZArith.

Open Scope Z_scope.

Definition MAGIC_COOKIE : Z := 0x2112A442.
Definition HEADER_LEN : Z := 20.
Definition BINDING_REQUEST : Z := 0x0001.
Definition BINDING_SUCCESS : Z := 0x0101.
Definition ATTR_USERNAME : Z := 0x0006.
Definition ATTR_MESSAGE_INTEGRITY : Z := 0x0008.
Definition ATTR_XOR_MAPPED_ADDRESS : Z := 0x0020.
Definition ATTR_FINGERPRINT : Z := 0x8028.
Definition FINGERPRINT_XOR : Z := 0x5354554e.

Inductive StunError : Type := StunTooShort | BadCookie | StunBadLength.

Record StunMessage : Type := mkStunMessage {
  sm_message_type : Z;
  sm_transaction_id : bytes;
  sm_attributes : list (Z * bytes)
}.

(** [std::net]: an IPv4 address is its 32-bit value, an IPv6 one its 16 octets. *)
Inductive IpAddr : Type := V4 (ip : Z) | V6 (octets : bytes).
Record SocketAddr : Type := mkSocketAddr { sa_ip : IpAddr; sa_port : Z }.

#[export] Instance IpAddr_eq_dec : EqDecision IpAddr.
Proof. solve_decision. Defined.
#[export] Instance SocketAddr_eq_dec : EqDecision SocketAddr.
Proof. solve_decision. Defined.

Definition padding (n : Z) : Z := (4 - n mod 4) mod 4.

Definition is_binding_request (m : StunMessage) : bool := sm_message_type m =? BINDING_REQUEST.

Fixpoint find_attribute (attr_type : Z) (attributes : list (Z * bytes)) : option bytes :=
  match attributes with
  | [] => None
  | (t, v) :: rest => if t =? attr_type then Some v else find_attribute attr_type rest
  end.

Definition attribute (m : StunMessage) (attr_type : Z) : option bytes :=
  find_attribute attr_type (sm_attributes m).

(** ** Parsing *)

Fixpoint parse_attributes (fuel : nat) (data : bytes) (end_ offset : Z) (attributes : list (Z * bytes))
  : res StunError (list (Z * bytes)) :=
  match fuel with
  | O => Panic
  | S fuel =>
      if offset + 4 <=? end_ then
        attr_type ← be16_at data offset;
        attr_len ← be16_at data (offset + 2);
        let value_start := offset + 4 in
        let value_end := value_start + attr_len in
        if end_ <? value_end then Err StunBadLength else
        value ← slice data value_start value_end;
        parse_attributes fuel data end_ (value_end + padding attr_len) (attributes ++ [(attr_type, value)])
      else mret attributes
  end.

Definition parse (data : bytes) : res StunError StunMessage :=
  if len data <? HEADER_LEN then Err StunTooShort else
  message_type ← be16_at data 0;
  length_ ← be16_at data 2;
  cookie ← be32_at data 4;
  if negb (cookie =? MAGIC_COOKIE) then Err BadCookie else
  let end_ := HEADER_LEN + length_ in
  if len data <? end_ then Err StunBadLength else
  transaction_id ← slice data 8 20;
  attributes ← parse_attributes (S (length data)) data end_ HEADER_LEN [];
  mret (mkStunMessage message_type transaction_id attributes).

(** ** Building *)

Definition push_attribute (message : bytes) (attr_type : Z) (value : bytes) : bytes :=
  message ++ be_enc 2 attr_type ++ be_enc 2 (wrap 16 (len value)) ++ value ++
  replicate (Z.to_nat (padding (len value))) 0.

Definition set_length (message : bytes) (length_ : Z) : res StunError bytes :=
  copy_at message 2 (be_enc 2 (wrap 16 length_)).

Definition MessageBuilder_new (message_type : Z) (transaction_id : bytes) : bytes :=
  be_enc 2 message_type ++ [0; 0] ++ be_enc 4 MAGIC_COOKIE ++ transaction_id.

Definition MessageBuilder_attribute (message : bytes) (attr_type : Z) (value : bytes) : bytes :=
  push_attribute message attr_type value.

Definition MessageBuilder_finish (message : bytes) (integrity_key : option bytes) (fingerprint : bool)
  : res StunError bytes :=
  message ←
    match integrity_key with
    | Some key =>
        n ← usub (len message) HEADER_LEN;
        message ← set_length message (n + 24);
        mret (push_attribute message ATTR_MESSAGE_INTEGRITY (hmac_sha1 key message))
    | None => mret message
    end;
  message ←
    (if fingerprint then
       n ← usub (len message) HEADER_LEN;
       message ← set_length message (n + 8);
       mret (push_attribute message ATTR_FINGERPRINT (be_enc 4 (Z.lxor (crc32 message) FINGERPRINT_XOR)))
     else mret message);
  n ← usub (len message) HEADER_LEN;
  set_length message n.

Definition xor_key (transaction_id : bytes) : bytes := be_enc 4 MAGIC_COOKIE ++ transaction_id.

Definition encode_xor_mapped_address (addr : SocketAddr) (transaction_id : bytes) : bytes :=
  let xport := Z.lxor (sa_port addr) (wrap 16 (Z.shiftr MAGIC_COOKIE 16)) in
  match sa_ip addr with
  | V4 ip => [0] ++ [0x01] ++ be_enc 2 xport ++ be_enc 4 (Z.lxor ip MAGIC_COOKIE)
  | V6 octets => [0] ++ [0x02] ++ be_enc 2 xport ++ zip_with Z.lxor octets (xor_key transaction_id)
  end.

Definition decode_xor_mapped_address (value transaction_id : bytes) : res StunError (option SocketAddr) :=
  if len value <? 4 then mret None else
  xport ← be16_at value 2;
  let port := Z.lxor xport (wrap 16 (Z.shiftr MAGIC_COOKIE 16)) in
  family ← idx value 1;
  if family =? 0x01 then
    match get_range value 4 8 with
    | None => mret None
    | Some bytes => mret (Some (mkSocketAddr (V4 (Z.lxor (be_dec bytes) MAGIC_COOKIE)) port))
    end
  else if family =? 0x02 then
    match get_range value 4 20 with
    | None => mret None
    | Some xored => mret (Some (mkSocketAddr (V6 (zip_with Z.lxor xored (xor_key transaction_id))) port))
    end
  else mret None.

Definition xor_mapped_address (m : StunMessage) : res StunError (option SocketAddr) :=
  match attribute m ATTR_XOR_MAPPED_ADDRESS with
  | None => mret None
  | Some value => decode_xor_mapped_address value (sm_transaction_id m)
  end.

Definition binding_success_response (transaction_id : bytes) (mapped : SocketAddr)
  (integrity_key : option bytes) : res StunError bytes :=
  MessageBuilder_finish
    (MessageBuilder_attribute (MessageBuilder_new BINDING_SUCCESS transaction_id) ATTR_XOR_MAPPED_ADDRESS
       (encode_xor_mapped_address mapped transaction_id)) integrity_key true.

Definition binding_request (transaction_id username integrity_key : bytes) : res StunError bytes :=
  MessageBuilder_finish
    (MessageBuilder_attribute (MessageBuilder_new BINDING_REQUEST transaction_id) ATTR_USERNAME username)
    (Some integrity_key) true.

(** ** Integrity *)

Fixpoint verify_loop (fuel : nat) (raw key : bytes) (end_ offset : Z) : res StunError bool :=
  match fuel with
  | O => Panic
  | S fuel =>
      if offset + 4 <=? end_ then
        attr_type ← be16_at raw offset;
        attr_len ← be16_at raw (offset + 2);
        if attr_type =? ATTR_MESSAGE_INTEGRITY then
          if negb (attr_len =? 20) || (len raw <? offset + 4 + 20) then mret false else
          provided ← slice raw (offset + 4) (offset + 24);
          prefix ← slice raw 0 offset;
          n ← usub offset HEADER_LEN;
          prefix ← set_length prefix (n + 24);
          mret (constant_time_eq provided (hmac_sha1 key prefix))
        else verify_loop fuel raw key end_ (offset + 4 + attr_len + padding attr_len)
      else mret false
  end.

Definition verify_message_integrity (raw key : bytes) : res StunError bool :=
  if len raw <? HEADER_LEN then mret false else
  cookie ← be32_at raw 4;
  if negb (cookie =? MAGIC_COOKIE) then mret false else
  length_ ← be16_at raw 2;
  let end_ := HEADER_LEN + length_ in
  if len raw <? end_ then mret false else
  verify_loop (S (length raw)) raw key end_ HEADER_LEN.

(** ** The layout of a message (RFC 5389 section 6) *)

Definition attr_bytes (a : Z * bytes) : bytes :=
  be_enc 2 a.1 ++ be_enc 2 (len a.2) ++ a.2 ++ replicate (Z.to_nat (padding (len a.2))) 0.

Definition attr_ok (a : Z * bytes) : Prop := fits 16 a.1 /\ bytes_ok a.2 /\ fits 16 (len a.2).

Definition attrs_bytes (attrs : list (Z * bytes)) : bytes := concat (attr_bytes <$> attrs).

Definition stun_header (message_type length_ : Z) (tid : bytes) : bytes :=
  be_enc 2 message_type ++ be_enc 2 length_ ++ be_enc 4 MAGIC_COOKIE ++ tid.

Definition stun_bytes (message_type : Z) (tid : bytes) (attrs : list (Z * bytes)) : bytes :=
  stun_header message_type (len (attrs_bytes attrs)) tid ++ attrs_bytes attrs.

Lemma padding_bound n : 0 <= padding n < 4.
Proof. apply Z.mod_pos_bound. lia. Qed.

Lemma padding_aligned n : (n + padding n) mod 4 = 0.
Proof.
  unfold padding. rewrite Zplus_mod_idemp_r. replace (n + (4 - n mod 4)) with (n - n mod 4 + 1 * 4) by lia.
  rewrite Z.mod_add by lia. rewrite Zminus_mod_idemp_r. by rewrite Z.sub_diag.
Qed.

Lemma len_attr_bytes a : len (attr_bytes a) = 4 + len a.2 + padding (len a.2).
Proof.
  unfold attr_bytes. pose proof (padding_bound (len a.2)).
  rewrite !len_app, !len_be_enc, len_replicate. lia.
Qed.

Lemma len_stun_header t n tid : len tid = 12 -> len (stun_header t n tid) = 20.
Proof. intros Ht. unfold stun_header. rewrite !len_app, !len_be_enc. lia. Qed.

Lemma attrs_bytes_app l1 l2 : attrs_bytes (l1 ++ l2) = attrs_bytes l1 ++ attrs_bytes l2.
Proof. unfold attrs_bytes. rewrite fmap_app. apply concat_app. Qed.

Lemma attrs_bytes_one a : attrs_bytes [a] = attr_bytes a.
Proof. unfold attrs_bytes. cbn [fmap list_fmap concat]. apply app_nil_r. Qed.

Lemma push_attribute_bytes m t v : fits 16 (len v) -> push_attribute m t v = m ++ attr_bytes (t, v).
Proof.
  intros Hv. unfold push_attribute, attr_bytes. cbn [fst snd]. unfold wrap. rewrite (Z.mod_small (len v)) by done. done.
Qed.

Lemma set_length_header t n tid rest n' : fits 16 n' ->
  set_length (stun_header t n tid ++ rest) n' = Ok (stun_header t n' tid ++ rest).
Proof.
  intros Hn. unfold set_length, stun_header, wrap. rewrite (Z.mod_small n') by done. rewrite <- !app_assoc.
  apply copy_at_mid; [by rewrite len_be_enc|by rewrite !len_be_enc].
Qed.

Lemma header_fields {E} t n tid rest : fits 16 t -> fits 16 n -> len tid = 12 ->
  @be16_at E (stun_header t n tid ++ rest) 0 = Ok t /\
  @be16_at E (stun_header t n tid ++ rest) 2 = Ok n /\
  @be32_at E (stun_header t n tid ++ rest) 4 = Ok MAGIC_COOKIE /\
  sub (stun_header t n tid ++ rest) 8 20 = tid.
Proof.
  intros Ht Hn Hl. unfold stun_header. rewrite <- !app_assoc. split_and!.
  - by apply (be16_at_app []).
  - by apply (be16_at_app (be_enc 2 t)).
  - rewrite (app_assoc (be_enc 2 t)). apply be32_at_app; [done|]. vm_compute. split; congruence.
  - rewrite !app_assoc, <- (app_assoc _ tid). apply sub_app_mid; rewrite !len_app, !len_be_enc; lia.
Qed.

(** Reading one attribute header at the front of what is left. *)
Lemma attr_fields {E} pre a post : attr_ok a ->
  @be16_at E (pre ++ attr_bytes a ++ post) (len pre) = Ok a.1 /\
  @be16_at E (pre ++ attr_bytes a ++ post) (len pre + 2) = Ok (len a.2) /\
  sub (pre ++ attr_bytes a ++ post) (len pre + 4) (len pre + 4 + len a.2) = a.2.
Proof.
  intros (Ht & _ & Hl). unfold attr_bytes. rewrite <- !app_assoc. split_and!.
  - by apply be16_at_app.
  - rewrite (app_assoc pre). apply be16_at_app; [by rewrite len_app, len_be_enc|done].
  - rewrite !(app_assoc pre). rewrite (app_assoc (_ ++ be_enc 2 _)).
    apply sub_app_mid; rewrite !len_app, !len_be_enc; lia.
Qed.

Lemma parse_attributes_bytes attrs : forall fuel pre post acc,
  Forall attr_ok attrs -> (length (attrs_bytes attrs) < fuel)%nat ->
  parse_attributes fuel (pre ++ attrs_bytes attrs ++ post) (len pre + len (attrs_bytes attrs)) (len pre) acc =
  Ok (acc ++ attrs).
Proof.
  induction attrs as [|a attrs IH]; intros fuel pre post acc Hok Hf; (destruct fuel as [|fuel]; [lia|]).
  - cbn [parse_attributes]. change (len (attrs_bytes [])) with 0. rewrite (proj2 (Z.leb_gt _ _)) by lia.
    by rewrite app_nil_r.
  - apply Forall_cons_1 in Hok as [Ha Hok]. unfold attrs_bytes in *. cbn [fmap list_fmap concat] in *.
    fold (attrs_bytes attrs) in *. rewrite <- app_assoc. cbn [parse_attributes].
    pose proof (len_attr_bytes a) as Hla. pose proof (padding_bound (len a.2)). pose proof (len_nonneg a.2).
    pose proof (len_nonneg pre). pose proof (len_nonneg (attrs_bytes attrs)). pose proof (len_nonneg post).
    rewrite len_app, (proj2 (Z.leb_le _ _)) by lia.
    destruct (@attr_fields StunError pre a (attrs_bytes attrs ++ post) Ha) as (-> & -> & Hv).
    rewrite !bind_Ok. cbv zeta. rewrite (proj2 (Z.ltb_ge _ _)) by lia.
    rewrite slice_Ok, bind_Ok by (rewrite ?len_app; lia). rewrite Hv.
    replace (len pre + 4 + len a.2 + padding (len a.2)) with (len (pre ++ attr_bytes a)) by (rewrite len_app; lia).
    replace (len pre + (len (attr_bytes a) + len (attrs_bytes attrs)))
      with (len (pre ++ attr_bytes a) + len (attrs_bytes attrs)) by (rewrite len_app; lia).
    rewrite app_assoc, IH; [by rewrite <- app_assoc, <- surjective_pairing|done|].
    rewrite length_app in Hf. unfold len in *. lia.
Qed.

Lemma parse_stun_bytes t tid attrs post :
  fits 16 t -> len tid = 12 -> Forall attr_ok attrs -> len (attrs_bytes attrs) < 2 ^ 16 ->
  parse (stun_bytes t tid attrs ++ post) = Ok (mkStunMessage t tid attrs).
Proof.
  intros Ht Hl Hok Hmax. pose proof (len_nonneg (attrs_bytes attrs)). pose proof (len_nonneg post).
  unfold parse, HEADER_LEN, stun_bytes. rewrite <- app_assoc.
  pose proof (len_stun_header t (len (attrs_bytes attrs)) tid Hl) as Hh.
  destruct (@header_fields StunError t (len (attrs_bytes attrs)) tid (attrs_bytes attrs ++ post)) as (H1 & H2 & H3 & H4);
    [done|unfold fits; lia|done|].
  rewrite H1, H2, H3, !len_app, Hh, (proj2 (Z.ltb_ge _ _)) by lia. rewrite !bind_Ok, Z.eqb_refl. cbn [negb]. cbv zeta.
  rewrite (proj2 (Z.ltb_ge _ _)) by lia. rewrite slice_Ok, bind_Ok, H4 by (rewrite ?len_app; lia).
  rewrite <- Hh, parse_attributes_bytes; [done|done|]. rewrite !length_app. lia.
Qed.

(** ** The builder produces that layout *)

Definition mi_attr (t : Z) (tid : bytes) (attrs : list (Z * bytes)) (key : bytes) : Z * bytes :=
  (ATTR_MESSAGE_INTEGRITY,
   hmac_sha1 key (stun_header t (len (attrs_bytes attrs) + 24) tid ++ attrs_bytes attrs)).

Definition fp_attr (t : Z) (tid : bytes) (attrs : list (Z * bytes)) : Z * bytes :=
  (ATTR_FINGERPRINT, be_enc 4 (Z.lxor
     (crc32 (stun_header t (len (attrs_bytes attrs) + 8) tid ++ attrs_bytes attrs)) FINGERPRINT_XOR)).

Definition with_integrity (t : Z) (tid : bytes) (attrs : list (Z * bytes)) (key : option bytes) :=
  match key with Some k => attrs ++ [mi_attr t tid attrs k] | None => attrs end.
Definition with_fingerprint (t : Z) (tid : bytes) (attrs : list (Z * bytes)) (fp : bool) :=
  if fp then attrs ++ [fp_attr t tid attrs] else attrs.

(** Everything [finish] puts in the message, given the attributes added before. *)
Definition finished_attrs (t : Z) (tid : bytes) (attrs : list (Z * bytes)) (key : option bytes) (fp : bool) :=
  with_fingerprint t tid (with_integrity t tid attrs key) fp.

(** The bytes the two trailing attributes take. *)
Definition mi_len (key : option bytes) : Z := match key with Some _ => 24 | None => 0 end.
Definition fp_len (fp : bool) : Z := if fp then 8 else 0.

Lemma len_mi_attr t tid attrs k : len (attr_bytes (mi_attr t tid attrs k)) = 24.
Proof. rewrite len_attr_bytes. cbn [mi_attr snd]. by rewrite len_hmac_sha1. Qed.

Lemma len_fp_attr t tid attrs : len (attr_bytes (fp_attr t tid attrs)) = 8.
Proof. rewrite len_attr_bytes. cbn [fp_attr snd]. by rewrite len_be_enc. Qed.

Lemma mi_attr_ok t tid attrs k : attr_ok (mi_attr t tid attrs k).
Proof.
  unfold attr_ok, mi_attr. cbn [fst snd]. rewrite len_hmac_sha1.
  split; [vm_compute; split; congruence|]. split; [apply hmac_sha1_bytes|vm_compute; split; congruence].
Qed.

Lemma fp_attr_ok t tid attrs : attr_ok (fp_attr t tid attrs).
Proof.
  unfold attr_ok, fp_attr. cbn [fst snd]. rewrite len_be_enc.
  split; [vm_compute; split; congruence|]. split; [apply be_enc_bytes|vm_compute; split; congruence].
Qed.

Lemma len_finished t tid attrs key fp :
  len (attrs_bytes (finished_attrs t tid attrs key fp)) =
  len (attrs_bytes attrs) + mi_len key + fp_len fp.
Proof.
  unfold finished_attrs, with_integrity, with_fingerprint.
  destruct key as [k|], fp; cbn [mi_len fp_len];
    rewrite ?attrs_bytes_app, ?attrs_bytes_one, ?len_app, ?len_mi_attr, ?len_fp_attr; lia.
Qed.

Lemma finished_ok t tid attrs key fp :
  Forall attr_ok attrs -> Forall attr_ok (finished_attrs t tid attrs key fp).
Proof.
  intros Hok. unfold finished_attrs, with_integrity, with_fingerprint.
  destruct key as [k|], fp; rewrite ?Forall_app; split_and?; auto using Forall_nil_2, Forall_cons_2, mi_attr_ok, fp_attr_ok.
Qed.

Lemma build_message attrs : forall t n tid pre,
  Forall attr_ok attrs ->
  foldl (fun m (a : Z * bytes) => MessageBuilder_attribute m a.1 a.2) (stun_header t n tid ++ attrs_bytes pre) attrs =
  stun_header t n tid ++ attrs_bytes (pre ++ attrs).
Proof.
  induction attrs as [|a attrs IH]; intros t n tid pre Hok; cbn [foldl]; [by rewrite app_nil_r|].
  apply Forall_cons_1 in Hok as [(_ & _ & Hl) Hok]. unfold MessageBuilder_attribute at 2.
  rewrite push_attribute_bytes by done. rewrite <- surjective_pairing, <- (attrs_bytes_one a), <- app_assoc, <- attrs_bytes_app.
  rewrite IH by done. by rewrite <- app_assoc.
Qed.

Lemma finish_bytes t n tid attrs key fp :
  len tid = 12 -> Forall attr_ok attrs ->
  len (attrs_bytes attrs) + mi_len key + fp_len fp < 2 ^ 16 ->
  MessageBuilder_finish (stun_header t n tid ++ attrs_bytes attrs) key fp =
  Ok (stun_bytes t tid (finished_attrs t tid attrs key fp)).
Proof.
  intros Hl Hok Hmax. pose proof (len_nonneg (attrs_bytes attrs)). unfold MessageBuilder_finish, HEADER_LEN.
  set (m1 := match key with Some k => attrs ++ [mi_attr t tid attrs k] | None => attrs end).
  assert (match key with
    | Some key => n0 ← usub (len (stun_header t n tid ++ attrs_bytes attrs)) 20;
        message ← set_length (stun_header t n tid ++ attrs_bytes attrs) (n0 + 24);
        mret (push_attribute message ATTR_MESSAGE_INTEGRITY (hmac_sha1 key message))
    | None => mret (stun_header t n tid ++ attrs_bytes attrs) end =
    Ok (stun_header t (match key with Some _ => len (attrs_bytes attrs) + 24 | None => n end) tid ++ attrs_bytes m1)) as ->.
  { unfold m1. destruct key as [k|]; [|done]. pose proof (len_stun_header t n tid Hl).
    rewrite usub_Ok, bind_Ok by (rewrite len_app; lia).
    rewrite len_app. replace (len (stun_header t n tid) + len (attrs_bytes attrs) - 20) with (len (attrs_bytes attrs)) by lia.
    rewrite set_length_header, bind_Ok by (unfold fits; destruct fp; cbn in *; lia).
    rewrite push_attribute_bytes by (rewrite len_hmac_sha1; vm_compute; split; congruence).
    rewrite attrs_bytes_app, attrs_bytes_one, app_assoc. done. }
  rewrite bind_Ok. set (n1 := match key with Some _ => len (attrs_bytes attrs) + 24 | None => n end).
  assert (len (attrs_bytes m1) = len (attrs_bytes attrs) + mi_len key) as Hm1.
  { unfold m1. destruct key; [|cbn; lia]. rewrite attrs_bytes_app, attrs_bytes_one, len_app, len_mi_attr. done. }
  set (m2 := if fp then m1 ++ [fp_attr t tid m1] else m1).
  assert ((if fp then n0 ← usub (len (stun_header t n1 tid ++ attrs_bytes m1)) 20;
       message ← set_length (stun_header t n1 tid ++ attrs_bytes m1) (n0 + 8);
       mret (push_attribute message ATTR_FINGERPRINT (be_enc 4 (Z.lxor (crc32 message) FINGERPRINT_XOR)))
     else mret (stun_header t n1 tid ++ attrs_bytes m1)) =
    Ok (stun_header t (if fp then len (attrs_bytes m1) + 8 else n1) tid ++ attrs_bytes m2)) as ->.
  { unfold m2. destruct fp; [|done]. pose proof (len_stun_header t n1 tid Hl).
    rewrite usub_Ok, bind_Ok by (rewrite len_app; destruct key; cbn in *; lia).
    rewrite len_app. replace (len (stun_header t n1 tid) + len (attrs_bytes m1) - 20) with (len (attrs_bytes m1)) by lia.
    rewrite set_length_header, bind_Ok by (unfold fits; destruct key; cbn in *; lia).
    rewrite push_attribute_bytes by (rewrite len_be_enc; vm_compute; split; congruence).
    rewrite attrs_bytes_app, attrs_bytes_one, app_assoc. done. }
  rewrite bind_Ok. set (n2 := if fp then _ else n1). pose proof (len_stun_header t n2 tid Hl).
  assert (m2 = finished_attrs t tid attrs key fp) as Hm2 by done.
  pose proof (len_finished t tid attrs key fp) as Hlf. rewrite <- Hm2 in *.
  rewrite usub_Ok, bind_Ok by (rewrite len_app; destruct key, fp; cbn in *; lia).
  rewrite len_app. replace (len (stun_header t n2 tid) + len (attrs_bytes m2) - 20) with (len (attrs_bytes m2)) by lia.
  rewrite set_length_header by (unfold fits; destruct key, fp; cbn in *; lia). done.
Qed.

Lemma builder_header t tid attrs : Forall attr_ok attrs ->
  foldl (fun m (a : Z * bytes) => MessageBuilder_attribute m a.1 a.2) (MessageBuilder_new t tid) attrs =
  stun_header t 0 tid ++ attrs_bytes attrs.
Proof.
  intros Hok. pose proof (build_message attrs t 0 tid [] Hok) as H. cbn [app] in H.
  change (attrs_bytes []) with (@nil Z) in H. rewrite app_nil_r in H. exact H.
Qed.

(** ** Integrity against the layout *)

Lemma verify_loop_skip attrs : forall fuel pre post key end_,
  Forall attr_ok attrs -> Forall (fun a => a.1 <> ATTR_MESSAGE_INTEGRITY) attrs ->
  len pre + len (attrs_bytes attrs) <= end_ ->
  verify_loop (length attrs + fuel) (pre ++ attrs_bytes attrs ++ post) key end_ (len pre) =
  verify_loop fuel (pre ++ attrs_bytes attrs ++ post) key end_ (len pre + len (attrs_bytes attrs)).
Proof.
  induction attrs as [|a attrs IH]; intros fuel pre post key end_ Hok Hne He.
  - cbn [length Nat.add]. change (len (attrs_bytes [])) with 0. by rewrite Z.add_0_r.
  - apply Forall_cons_1 in Hok as [Ha Hok]. apply Forall_cons_1 in Hne as [Hna Hne].
    change (attrs_bytes (a :: attrs)) with (attr_bytes a ++ attrs_bytes attrs) in *.
    pose proof (len_attr_bytes a) as Hla. pose proof (padding_bound (len a.2)). pose proof (len_nonneg a.2).
    pose proof (len_nonneg (attrs_bytes attrs)). rewrite len_app in *. rewrite <- app_assoc.
    cbn [length Nat.add verify_loop]. rewrite (proj2 (Z.leb_le _ _)) by lia.
    destruct (@attr_fields StunError pre a (attrs_bytes attrs ++ post) Ha) as (-> & -> & _).
    rewrite !bind_Ok, (proj2 (Z.eqb_neq _ _) Hna).
    replace (len pre + 4 + len a.2 + padding (len a.2)) with (len (pre ++ attr_bytes a)) by (rewrite len_app; lia).
    rewrite app_assoc, IH by (done || (rewrite len_app; lia)). f_equal. rewrite len_app. lia.
Qed.

Lemma verify_finished t tid attrs key fp k' :
  fits 16 t -> len tid = 12 -> Forall attr_ok attrs ->
  Forall (fun a => a.1 <> ATTR_MESSAGE_INTEGRITY) attrs ->
  len (attrs_bytes attrs) + 24 + fp_len fp < 2 ^ 16 ->
  verify_message_integrity (stun_bytes t tid (finished_attrs t tid attrs (Some key) fp)) k' =
  Ok (bool_decide (hmac_sha1 key (stun_header t (len (attrs_bytes attrs) + 24) tid ++ attrs_bytes attrs) =
                   hmac_sha1 k' (stun_header t (len (attrs_bytes attrs) + 24) tid ++ attrs_bytes attrs))).
Proof.
  intros Ht Hl Hok Hne Hmax. pose proof (len_nonneg (attrs_bytes attrs)).
  assert (0 <= fp_len fp) by (unfold fp_len; destruct fp; lia).
  pose proof (len_finished t tid attrs (Some key) fp) as Hlf. cbn [mi_len] in Hlf.
  set (mi := mi_attr t tid attrs key).
  assert (exists rest, attrs_bytes (finished_attrs t tid attrs (Some key) fp) = attrs_bytes attrs ++ attr_bytes mi ++ rest)
    as [rest Hrest].
  { unfold finished_attrs, with_integrity, with_fingerprint. fold mi.
    destruct fp; rewrite !attrs_bytes_app, ?attrs_bytes_one, <- ?app_assoc; eauto using app_nil_r. }
  unfold verify_message_integrity, HEADER_LEN, stun_bytes. set (N := len (attrs_bytes (finished_attrs _ _ _ _ _))) in *.
  pose proof (len_stun_header t N tid Hl) as Hh.
  destruct (@header_fields StunError t N tid (attrs_bytes (finished_attrs t tid attrs (Some key) fp))) as (_ & H2 & H3 & _);
    [done|unfold fits; lia|done|].
  rewrite H2, H3, !len_app, Hh. fold N. rewrite (proj2 (Z.ltb_ge _ _)) by lia. rewrite !bind_Ok, Z.eqb_refl. cbn [negb]. cbv zeta.
  rewrite (proj2 (Z.ltb_ge _ _)) by lia. rewrite Hrest. rewrite <- Hh.
  pose proof (len_mi_attr t tid attrs key) as Hlm. fold mi in Hlm.
  pose proof (len_nonneg rest). assert (N = len (attrs_bytes attrs) + 24 + len rest) as HN.
  { unfold N. rewrite Hrest, !len_app. lia. }
  set (raw := stun_header t N tid ++ attrs_bytes attrs ++ attr_bytes mi ++ rest).
  assert (exists fuel, S (length raw) = length attrs + S fuel)%nat as [fuel ->].
  { exists (length raw - length attrs)%nat. assert (length attrs <= length raw)%nat; [|lia].
    unfold raw. rewrite !length_app. assert (length attrs <= length (attrs_bytes attrs))%nat; [|lia].
    clear. induction attrs as [|a attrs IH]; [done|].
    change (attrs_bytes (a :: attrs)) with (attr_bytes a ++ attrs_bytes attrs). rewrite length_app.
    pose proof (len_attr_bytes a). pose proof (padding_bound (len a.2)). unfold len in *. simpl length. lia. }
  unfold raw. rewrite verify_loop_skip by (done || lia).
  assert (attr_ok mi) as Hmi by apply mi_attr_ok.
  assert (len mi.2 = 20) as Hm20 by apply len_hmac_sha1.
  rewrite <- len_app, (app_assoc (stun_header t N tid)). cbn [verify_loop].
  destruct (@attr_fields StunError (stun_header t N tid ++ attrs_bytes attrs) mi rest Hmi) as (H4 & H5 & H6).
  rewrite Hm20 in H5, H6. rewrite len_app in *. rewrite (proj2 (Z.leb_le _ _)) by lia.
  rewrite H4, H5, !bind_Ok. change (mi.1 =? ATTR_MESSAGE_INTEGRITY) with true. rewrite Z.eqb_refl. cbn [negb orb].
  rewrite (proj2 (Z.ltb_ge _ _)) by (rewrite !len_app; lia).
  rewrite !slice_Ok, !bind_Ok by (rewrite ?len_app; lia).
  replace (len (stun_header t N tid) + len (attrs_bytes attrs) + 24)
    with (len (stun_header t N tid) + len (attrs_bytes attrs) + 4 + 20) by lia. rewrite H6.
  rewrite sub_app_begin by (rewrite len_app; lia).
  unfold HEADER_LEN. rewrite usub_Ok, bind_Ok by lia.
  replace (len (stun_header t N tid) + len (attrs_bytes attrs) - 20 + 24) with (len (attrs_bytes attrs) + 24) by lia.
  rewrite set_length_header, bind_Ok by (unfold fits; lia). rewrite constant_time_eq_spec. done.
Qed.

(** ** XOR-MAPPED-ADDRESS *)

Definition addr_ok (a : SocketAddr) : Prop :=
  fits 16 (sa_port a) /\ match sa_ip a with V4 ip => fits 32 ip | V6 o => bytes_ok o /\ len o = 16 end.

Lemma xor_mapped_roundtrip addr tid : addr_ok addr -> len tid = 12 ->
  decode_xor_mapped_address (encode_xor_mapped_address addr tid) tid = Ok (Some addr).
Proof.
  intros [Hp Hip] Ht. destruct addr as [ip port]. cbn [sa_ip sa_port] in *.
  unfold decode_xor_mapped_address, encode_xor_mapped_address. cbn [sa_ip sa_port].
  set (k := wrap 16 (Z.shiftr MAGIC_COOKIE 16)).
  assert (fits 16 k) as Hk by (vm_compute; split; congruence).
  assert (fits 16 (Z.lxor port k)) as Hx by (by apply lxor_fits).
  destruct ip as [ip|o].
  - assert (fits 32 (Z.lxor ip MAGIC_COOKIE)) as Hi by (apply lxor_fits; [lia|done|vm_compute; split; congruence]).
    set (v := [0] ++ [1] ++ be_enc 2 (Z.lxor port k) ++ be_enc 4 (Z.lxor ip MAGIC_COOKIE)).
    assert (len v = 8) as Hl by done. rewrite Hl. cbn [Z.ltb Z.compare Pos.compare Pos.compare_cont].
    assert (@be16_at StunError v 2 = Ok (Z.lxor port k)) as -> by (by apply (be16_at_app [0; 1])).
    rewrite bind_Ok. change (idx v 1) with (@Ok StunError Z 1). rewrite bind_Ok. cbn [Z.eqb Pos.eqb].
    rewrite get_range_Some by (rewrite ?Hl; lia). cbv zeta.
    assert (sub v 4 8 = be_enc 4 (Z.lxor ip MAGIC_COOKIE)) as -> by done.
    rewrite be_dec_enc_fits by exact Hi. by rewrite !lxor_cancel.
  - destruct Hip as [Ho Hlo]. set (v := [0] ++ [2] ++ be_enc 2 (Z.lxor port k) ++ zip_with Z.lxor o (xor_key tid)).
    assert (length (xor_key tid) = 16%nat) as Hlk.
    { unfold xor_key. rewrite length_app, be_enc_length. unfold len in Ht. lia. }
    assert (len (zip_with Z.lxor o (xor_key tid)) = 16) as Hlz.
    { unfold len in *. rewrite length_zip_with. lia. }
    assert (len v = 20) as Hl. { unfold v. rewrite !len_app, len_be_enc, Hlz. done. }
    rewrite Hl. cbn [Z.ltb Z.compare Pos.compare Pos.compare_cont].
    assert (@be16_at StunError v 2 = Ok (Z.lxor port k)) as -> by (by apply (be16_at_app [0; 2])).
    rewrite bind_Ok. change (idx v 1) with (@Ok StunError Z 2). rewrite bind_Ok. cbn [Z.eqb Pos.eqb].
    rewrite get_range_Some by (rewrite ?Hl; lia). cbv zeta.
    assert (sub v 4 20 = zip_with Z.lxor o (xor_key tid)) as ->.
    { unfold v. rewrite !app_assoc. apply sub_app_end; rewrite ?Hlz; done. }
    rewrite zip_lxor_cancel by (unfold len in Hlo; lia). by rewrite lxor_cancel.
Qed.

(** ** Arbitrary input *)

Lemma parse_attributes_no_panic fuel : forall data end_ offset acc,
  bytes_ok data -> 0 <= offset -> end_ <= len data -> (0 < fuel)%nat -> len data - offset < Z.of_nat fuel ->
  no_panic (parse_attributes fuel data end_ offset acc).
Proof.
  induction fuel as [|fuel IH]; intros data end_ offset acc Hb Ho He H0 Hf; [lia|]. cbn [parse_attributes].
  destruct (Z.leb_spec (offset + 4) end_); [|done].
  rewrite !be16_at_sub, !bind_Ok by lia.
  pose proof (be_dec_bound (sub data (offset + 2) (offset + 2 + 2)) (bytes_ok_sub _ _ _ Hb)).
  set (n := be_dec (sub data (offset + 2) (offset + 2 + 2))) in *. cbv zeta.
  destruct (Z.ltb_spec end_ (offset + 4 + n)); [done|]. rewrite slice_Ok, bind_Ok by lia.
  pose proof (padding_bound n). apply IH; [done|lia|done|lia|lia].
Qed.

Lemma parse_no_panic data : bytes_ok data -> no_panic (parse data).
Proof.
  intros Hb. unfold parse, HEADER_LEN. destruct (Z.ltb_spec (len data) 20); [done|].
  rewrite !be16_at_sub, !be32_at_sub, !bind_Ok by lia. change (2 + 2) with 4.
  pose proof (be_dec_bound (sub data 2 4) (bytes_ok_sub _ _ _ Hb)).
  set (n := be_dec (sub data 2 4)) in *. destruct (negb _); [done|]. cbv zeta.
  destruct (Z.ltb_spec (len data) (20 + n)); [done|]. rewrite slice_Ok, bind_Ok by lia.
  apply no_panic_bind; [|done]. apply parse_attributes_no_panic; unfold len in *; try done; lia.
Qed.

Lemma verify_loop_total fuel : forall raw key end_ offset,
  bytes_ok raw -> HEADER_LEN <= offset -> end_ <= len raw -> (0 < fuel)%nat -> len raw - offset < Z.of_nat fuel ->
  exists b, verify_loop fuel raw key end_ offset = Ok b.
Proof.
  unfold HEADER_LEN. induction fuel as [|fuel IH]; intros raw key end_ offset Hb Ho He H0 Hf; [lia|]. cbn [verify_loop].
  destruct (Z.leb_spec (offset + 4) end_); [|by eexists].
  rewrite !be16_at_sub, !bind_Ok by lia.
  pose proof (be_dec_bound (sub raw (offset + 2) (offset + 2 + 2)) (bytes_ok_sub _ _ _ Hb)).
  set (n := be_dec (sub raw (offset + 2) (offset + 2 + 2))) in *. pose proof (padding_bound n).
  destruct (_ =? ATTR_MESSAGE_INTEGRITY); [|apply IH; [done|lia|done|lia|lia]].
  destruct (Z.ltb_spec (len raw) (offset + 4 + 20)); [rewrite orb_true_r; by eexists|].
  destruct (negb (n =? 20)); [by eexists|]. cbn [orb]. unfold HEADER_LEN.
  rewrite !slice_Ok, usub_Ok, !bind_Ok by lia. unfold set_length, copy_at.
  rewrite len_be_enc, len_sub, (proj2 (Z.leb_le (2 + Z.of_nat 2) _)) by lia. by eexists.
Qed.

Lemma verify_total raw key : bytes_ok raw -> exists b, verify_message_integrity raw key = Ok b.
Proof.
  intros Hb. unfold verify_message_integrity, HEADER_LEN. destruct (Z.ltb_spec (len raw) 20); [by eexists|].
  rewrite !be16_at_sub, !be32_at_sub, !bind_Ok by lia. change (2 + 2) with 4.
  pose proof (be_dec_bound (sub raw 2 4) (bytes_ok_sub _ _ _ Hb)).
  set (n := be_dec (sub raw 2 4)) in *. destruct (negb _); [by eexists|]. cbv zeta.
  destruct (Z.ltb_spec (len raw) (20 + n)); [by eexists|].
  apply verify_loop_total; unfold len, HEADER_LEN in *; try done; lia.
Qed.

Lemma decode_xor_total v tid : exists o, decode_xor_mapped_address v tid = Ok o.
Proof.
  unfold decode_xor_mapped_address. destruct (Z.ltb_spec (len v) 4); [by eexists|].
  rewrite be16_at_sub, idx_byte_of, !bind_Ok by lia. cbv zeta.
  destruct (_ =? 1); [destruct (get_range v 4 8); by eexists|].
  destruct (_ =? 2); [destruct (get_range v 4 20); by eexists|]. by eexists.
Qed.

Lemma set_length_total message n : 4 <= len message ->
  exists message', set_length message n = Ok message' /\ len message' = len message.
Proof.
  intros Hl. unfold set_length, copy_at. rewrite len_be_enc.
  rewrite (proj2 (Z.leb_le (2 + Z.of_nat 2) _)) by lia. cbn [Z.leb Z.compare andb]. eexists. split; [reflexivity|].
  rewrite !len_app, len_be_enc, len_take, len_drop. lia.
Qed.

(** Finishing a message never panics, whatever it holds. *)
Lemma finish_total message key fp : 20 <= len message -> exists out, MessageBuilder_finish message key fp = Ok out.
Proof.
  intros Hl. unfold MessageBuilder_finish, HEADER_LEN.
  assert (forall m t v, 20 <= len m -> 20 <= len (push_attribute m t v)) as Hp.
  { intros m t v Hm. unfold push_attribute. rewrite len_app. pose proof (len_nonneg
      (be_enc 2 t ++ be_enc 2 (wrap 16 (len v)) ++ v ++ replicate (Z.to_nat (padding (len v))) 0)). lia. }
  assert (forall (m : res StunError bytes) f, (exists x, m = Ok x /\ 20 <= len x) ->
    (forall x, 20 <= len x -> exists out, f x = Ok out) -> exists out : bytes, (x ← m; f x) = Ok out) as Hseq.
  { intros m f (x & -> & Hx) Hf. rewrite bind_Ok. by apply Hf. }
  apply Hseq.
  - destruct key as [k|]; [|by exists message]. rewrite usub_Ok, bind_Ok by lia.
    destruct (set_length_total message (len message - 20 + 24)) as (m & -> & Hm); [lia|]. rewrite bind_Ok.
    eexists. split; [done|]. apply Hp. lia.
  - intros m1 H1. apply Hseq.
    + destruct fp; [|by exists m1]. rewrite usub_Ok, bind_Ok by lia.
      destruct (set_length_total m1 (len m1 - 20 + 8)) as (m & -> & Hm); [lia|]. rewrite bind_Ok.
      eexists. split; [done|]. apply Hp. lia.
    + intros m2 H2. rewrite usub_Ok, bind_Ok by lia.
      destruct (set_length_total m2 (len m2 - 20)) as (m & -> & _); [lia|]. by eexists.
Qed.

(** The pieces of a message under construction. *)
Lemma len_builder_new t tid : len tid = 12 -> len (MessageBuilder_new t tid) = 20.
Proof. intros H. unfold MessageBuilder_new. rewrite !len_app, ?len_be_enc, H. reflexivity. Qed.

Lemma len_builder_attribute m t v : len m <= len (MessageBuilder_attribute m t v).
Proof.
  unfold MessageBuilder_attribute, push_attribute. rewrite len_app.
  match goal with |- _ <= _ + len ?x => pose proof (len_nonneg x) end. lia.
Qed.

Lemma parse_tid data m : parse data = Ok m -> len (sm_transaction_id m) = 12.
Proof.
  unfold parse, HEADER_LEN. destruct (Z.ltb_spec (len data) 20); [done|]. intros Hp.
  bind_inv Hp t Ht. bind_inv Hp l Hl. bind_inv Hp c Hc. destruct (negb _); [done|].
  destruct (_ <? _); [done|]. bind_inv Hp tid Htid. bind_inv Hp attrs Hattrs. injection Hp as <-.
  rewrite slice_Ok in Htid by lia. injection Htid as <-. cbn [sm_transaction_id]. rewrite len_sub by lia. lia.
Qed.

Lemma xor_value_ok mapped tid : bytes_ok tid -> addr_ok mapped ->
  bytes_ok (encode_xor_mapped_address mapped tid) /\ len (encode_xor_mapped_address mapped tid) <= 20.
Proof.
  intros Htb Ha. unfold encode_xor_mapped_address. destruct Ha as [_ Hip]. destruct (sa_ip mapped) as [ip|o].
  - rewrite !bytes_ok_app. split; [|done]. split_and!; auto using be_enc_bytes; unfold bytes_ok; forall_list; unfold is_byte; lia.
  - destruct Hip as [Ho Hlo]. rewrite !bytes_ok_app. split.
    + split_and!; auto using be_enc_bytes; [unfold bytes_ok; forall_list; unfold is_byte; lia..|].
      assert (bytes_ok (xor_key tid)) as Hk by (apply bytes_ok_app; auto using be_enc_bytes).
      revert Hk. generalize (xor_key tid) as ks. clear - Ho. unfold bytes_ok.
      induction Ho as [|x o Hx Ho IH]; intros [|y ks] Hk; try constructor.
      * apply Forall_cons_1 in Hk as [Hy _]. by apply (lxor_fits 8).
      * apply Forall_cons_1 in Hk as [_ Hk]. by apply IH.
    + rewrite !len_app, len_be_enc. unfold len at 3. rewrite length_zip_with. unfold len in *. simpl. lia.
Qed.

(** A built message: its bytes, what the parser reads in it, and its signature. *)
Lemma built t tid attrs key fp : fits 16 t -> len tid = 12 -> Forall attr_ok attrs ->
  Forall (fun a => a.1 <> ATTR_MESSAGE_INTEGRITY) attrs -> len (attrs_bytes attrs) + 32 < 2 ^ 16 ->
  exists raw tail,
    MessageBuilder_finish
      (foldl (fun m (a : Z * bytes) => MessageBuilder_attribute m a.1 a.2) (MessageBuilder_new t tid) attrs) key fp = Ok raw /\
    (exists rest, raw = be_enc 2 t ++ rest) /\ parse raw = Ok (mkStunMessage t tid (attrs ++ tail)) /\
    (fst <$> tail) = match key with Some _ => [ATTR_MESSAGE_INTEGRITY] | None => [] end ++ (if fp then [ATTR_FINGERPRINT] else []) /\
    match key with Some k => verify_message_integrity raw k = Ok true | None => True end.
Proof.
  intros Ht Hl Hok Hne Hmax. assert (len (attrs_bytes attrs) + mi_len key + fp_len fp < 2 ^ 16) as Hm by (destruct key, fp; cbn; lia).
  rewrite builder_header, finish_bytes by done.
  assert (exists tail, finished_attrs t tid attrs key fp = attrs ++ tail /\
    (fst <$> tail) = match key with Some _ => [ATTR_MESSAGE_INTEGRITY] | None => [] end ++ (if fp then [ATTR_FINGERPRINT] else []))
    as (tail & Htail & Hf).
  { unfold finished_attrs, with_integrity, with_fingerprint. destruct key, fp; rewrite <- ?app_assoc; eexists; (split; [reflexivity || by rewrite app_nil_r|done]). }
  eexists _, tail. split; [reflexivity|]. split; [|split; [|split; [done|]]].
  - unfold stun_bytes, stun_header. rewrite <- !app_assoc. by eexists.
  - rewrite <- (app_nil_r (stun_bytes _ _ _)). rewrite parse_stun_bytes; [by rewrite Htail|done|done|by apply finished_ok|]. rewrite len_finished. done.
  - destruct key as [k|]; [|done]. rewrite verify_finished by (done || (destruct fp; cbn; lia)). by rewrite bool_decide_eq_true_2.
Qed.

(** ** Theorems *)

(** A message assembled by the builder from any attributes, with or
    without MESSAGE-INTEGRITY and FINGERPRINT, parses back to its type,
    transaction id and those attributes, in order and unpadded, followed by the
    trailing ones. *)
Lemma stun_build_parse t tid attrs key fp :
  fits 16 t -> len tid = 12 -> Forall attr_ok attrs ->
  len (attrs_bytes attrs) + mi_len key + fp_len fp < 2 ^ 16 ->
  exists raw,
    MessageBuilder_finish
      (foldl (fun m (a : Z * bytes) => MessageBuilder_attribute m a.1 a.2) (MessageBuilder_new t tid) attrs)
      key fp = Ok raw /\
    parse raw = Ok (mkStunMessage t tid (finished_attrs t tid attrs key fp)) /\
    exists tail, finished_attrs t tid attrs key fp = attrs ++ tail /\
      len tail = b2z (bool_decide (is_Some key)) + b2z fp.
Proof.
  intros Ht Hl Hok Hmax. rewrite builder_header by done. rewrite finish_bytes by done.
  eexists. split; [done|]. split.
  - rewrite <- (app_nil_r (stun_bytes _ _ _)). apply parse_stun_bytes; [done|done|by apply finished_ok|].
    by rewrite len_finished.
  - unfold finished_attrs, with_integrity, with_fingerprint.
    destruct key as [k|], fp; rewrite <- ?app_assoc;
      [eexists [_; _]|eexists [_]|eexists [_]|exists []; rewrite app_nil_r]; split; reflexivity.
Qed.

Lemma stun_build_parse_witness :
  exists raw,
    MessageBuilder_finish
      (foldl (fun m (a : Z * bytes) => MessageBuilder_attribute m a.1 a.2)
        (MessageBuilder_new BINDING_REQUEST (replicate 12 7)) [(ATTR_USERNAME, [65; 66; 67; 68; 69])])
      (Some [1; 2; 3]) true = Ok raw /\ is_ok (parse raw) = true.
Proof.
  destruct (stun_build_parse BINDING_REQUEST (replicate 12 7) [(ATTR_USERNAME, [65; 66; 67; 68; 69])]
    (Some [1; 2; 3]) true) as (raw & H & Hp & _).
  - vm_compute. split; congruence.
  - reflexivity.
  - forall_list. split; [vm_compute; split; congruence|]. split; [|vm_compute; split; congruence].
    unfold bytes_ok. cbn [snd]. forall_list; unfold is_byte; lia.
  - vm_compute. reflexivity.
  - exists raw. rewrite Hp. split; [exact H|reflexivity].
Defined.

(** MESSAGE-INTEGRITY is checked over exactly the bytes it was computed
    over: a message built under [key] verifies under [k'] precisely when the two
    HMACs of those bytes agree, so always under [key] itself, whatever follows
    (FINGERPRINT) and whatever attributes precede it. *)
Lemma stun_integrity_exact t tid attrs key fp k' :
  fits 16 t -> len tid = 12 -> Forall attr_ok attrs ->
  Forall (fun a => a.1 <> ATTR_MESSAGE_INTEGRITY) attrs ->
  len (attrs_bytes attrs) + mi_len (Some key) + fp_len fp < 2 ^ 16 ->
  exists raw,
    MessageBuilder_finish
      (foldl (fun m (a : Z * bytes) => MessageBuilder_attribute m a.1 a.2) (MessageBuilder_new t tid) attrs)
      (Some key) fp = Ok raw /\
    verify_message_integrity raw key = Ok true /\
    verify_message_integrity raw k' =
      Ok (bool_decide (hmac_sha1 key (stun_header t (len (attrs_bytes attrs) + 24) tid ++ attrs_bytes attrs) =
                       hmac_sha1 k' (stun_header t (len (attrs_bytes attrs) + 24) tid ++ attrs_bytes attrs))).
Proof.
  intros Ht Hl Hok Hne Hmax. rewrite builder_header by done. rewrite finish_bytes by done.
  cbn [mi_len] in Hmax. eexists. split; [done|]. rewrite !verify_finished by done.
  by rewrite bool_decide_eq_true_2 by done.
Qed.

Lemma stun_integrity_exact_witness :
  exists raw, binding_request (replicate 12 7) [65; 66] [1; 2; 3] = Ok raw /\
    verify_message_integrity raw [1; 2; 3] = Ok true /\ verify_message_integrity raw [1; 2; 4] = Ok false.
Proof.
  destruct (stun_integrity_exact BINDING_REQUEST (replicate 12 7) [(ATTR_USERNAME, [65; 66])]
    [1; 2; 3] true [1; 2; 4]) as (raw & H & Hv & Hv').
  - vm_compute. split; congruence.
  - reflexivity.
  - forall_list. split; [vm_compute; split; congruence|]. split; [|vm_compute; split; congruence].
    unfold bytes_ok. cbn [snd]. forall_list; unfold is_byte; lia.
  - forall_list. vm_compute. congruence.
  - vm_compute. reflexivity.
  - exists raw. split; [exact H|]. split; [exact Hv|]. rewrite Hv'. vm_compute. reflexivity.
Defined.

(** A Binding success response returns the reflexive address it was built
    with, IPv4 or IPv6, through build, parse and XOR decoding, and carries a
    MESSAGE-INTEGRITY that verifies under the credential. *)
Lemma binding_response_roundtrip tid mapped key :
  len tid = 12 -> bytes_ok tid -> addr_ok mapped ->
  exists raw m,
    binding_success_response tid mapped (Some key) = Ok raw /\
    parse raw = Ok m /\ sm_message_type m = BINDING_SUCCESS /\ sm_transaction_id m = tid /\
    xor_mapped_address m = Ok (Some mapped) /\ verify_message_integrity raw key = Ok true.
Proof.
  intros Hl Htb Ha. set (attrs := [(ATTR_XOR_MAPPED_ADDRESS, encode_xor_mapped_address mapped tid)]).
  destruct (xor_value_ok mapped tid Htb Ha) as [Hb Hle].
  assert (Forall attr_ok attrs) as Hok.
  { unfold attrs. forall_list. split; [vm_compute; split; congruence|]. cbn [snd]. split; [done|].
    pose proof (len_nonneg (encode_xor_mapped_address mapped tid)). unfold fits. lia. }
  assert (len (attrs_bytes attrs) + 24 + 8 < 2 ^ 16) as Hmax.
  { unfold attrs. rewrite attrs_bytes_one, len_attr_bytes. cbn [snd].
    pose proof (padding_bound (len (encode_xor_mapped_address mapped tid))). lia. }
  pose proof (builder_header BINDING_SUCCESS tid attrs Hok) as Hbh. cbn [foldl fst snd attrs] in Hbh.
  unfold binding_success_response. rewrite Hbh, finish_bytes by done. eexists _, _. split; [done|].
  split. { rewrite <- (app_nil_r (stun_bytes _ _ _)). apply parse_stun_bytes; [vm_compute; split; congruence|done| |].
           - by apply finished_ok.
           - by rewrite len_finished. }
  split; [done|]. split; [done|]. split.
  - unfold xor_mapped_address, attribute. cbn [sm_attributes sm_transaction_id finished_attrs with_integrity with_fingerprint].
    unfold finished_attrs, with_integrity, with_fingerprint. cbn [attrs app find_attribute].
    rewrite Z.eqb_refl. by apply xor_mapped_roundtrip.
  - rewrite verify_finished; [by rewrite bool_decide_eq_true_2|vm_compute; split; congruence|done|done| |exact Hmax].
    forall_list. vm_compute. congruence.
Qed.

Lemma binding_response_roundtrip_witness :
  exists raw m,
    binding_success_response (replicate 12 9) (mkSocketAddr (V4 0xC0A80101) 5004) (Some [1; 2]) = Ok raw /\
    parse raw = Ok m /\ xor_mapped_address m = Ok (Some (mkSocketAddr (V4 0xC0A80101) 5004)).
Proof.
  destruct (binding_response_roundtrip (replicate 12 9) (mkSocketAddr (V4 0xC0A80101) 5004) [1; 2])
    as (raw & m & H1 & H2 & _ & _ & H3 & _).
  - reflexivity.
  - unfold bytes_ok. vm_compute. forall_list; vm_compute; split; congruence.
  - vm_compute. repeat split; congruence.
  - exists raw, m. split; [exact H1|]. split; [exact H2|exact H3].
Defined.

(** Parsing and integrity verification never panic and terminate on any
    datagram, whatever lengths its attributes declare. *)
Lemma stun_hostile_input data key :
  bytes_ok data -> no_panic (parse data) /\ no_panic (verify_message_integrity data key).
Proof.
  intros Hb. split; [by apply parse_no_panic|]. by destruct (verify_total data key Hb) as [b ->].
Qed.

Lemma stun_hostile_input_witness :
  no_panic (parse ([0; 1; 0; 8; 0x21; 0x12; 0xA4; 0x42] ++ replicate 12 0 ++ [0; 8; 0xFF; 0xFF; 1; 2; 3; 4])).
Proof.
  apply (stun_hostile_input _ []). unfold bytes_ok. vm_compute. forall_list; vm_compute; split; congruence.
Defined.
