(* ===== verification/Turn.v ===== *)
(** * TURN codec: crates/siphon-rtp-stun/src/turn.rs, and the stream reader of
    crates/siphon-rtp-turn/src/server.rs

    Message types, typed attributes, ChannelData, the framing of a TCP/TLS byte
    stream, MD5 with the long-term key, and the base64 of nonces and passwords.
    The attribute numbers the codec shares with STUN (USERNAME,
    MESSAGE-INTEGRITY, XOR-MAPPED-ADDRESS) are those of Stun.  The reader's
    inner loop takes one more turn of fuel than the buffer has bytes: a complete
    frame is never empty. *)

From S2P Require Import Prelude Utf8 Crypto Stun Base64.
From stdpp Require Import base list numbers option.
From Stdlib Require Import Lia ZArith.

Open Scope Z_scope.

Definition METHOD_BINDING : Z := 0x001.
Definition METHOD_ALLOCATE : Z := 0x003.
Definition METHOD_REFRESH : Z := 0x004.
Definition METHOD_SEND : Z := 0x006.
Definition METHOD_DATA : Z := 0x007.
Definition METHOD_CREATE_PERMISSION : Z := 0x008.
Definition METHOD_CHANNEL_BIND : Z := 0x009.
Definition CLASS_REQUEST : Z := 0.
Definition CLASS_INDICATION : Z := 1.
Definition CLASS_SUCCESS : Z := 2.
Definition CLASS_ERROR : Z := 3.
Definition ATTR_MAPPED_ADDRESS : Z := 0x0001.
Definition ATTR_ERROR_CODE : Z := 0x0009.
Definition ATTR_CHANNEL_NUMBER : Z := 0x000C.
Definition ATTR_LIFETIME : Z := 0x000D.
Definition ATTR_XOR_PEER_ADDRESS : Z := 0x0012.
Definition ATTR_DATA : Z := 0x0013.
Definition ATTR_REALM : Z := 0x0014.
Definition ATTR_NONCE : Z := 0x0015.
Definition ATTR_XOR_RELAYED_ADDRESS : Z := 0x0016.
Definition ATTR_REQUESTED_ADDRESS_FAMILY : Z := 0x0017.
Definition ATTR_EVEN_PORT : Z := 0x0018.
Definition ATTR_REQUESTED_TRANSPORT : Z := 0x0019.
Definition ATTR_DONT_FRAGMENT : Z := 0x001A.
Definition ATTR_RESERVATION_TOKEN : Z := 0x0022.
Definition ATTR_SOFTWARE : Z := 0x8022.
Definition TRANSPORT_UDP : Z := 17.
Definition ERROR_BAD_REQUEST : Z := 400.
Definition ERROR_UNAUTHORIZED : Z := 401.
Definition ERROR_FORBIDDEN : Z := 403.
Definition ERROR_ALLOCATION_MISMATCH : Z := 437.
Definition ERROR_STALE_NONCE : Z := 438.
Definition ERROR_ADDRESS_FAMILY_NOT_SUPPORTED : Z := 440.
Definition ERROR_WRONG_CREDENTIALS : Z := 441.
Definition ERROR_UNSUPPORTED_TRANSPORT : Z := 442.
Definition ERROR_PEER_ADDRESS_FAMILY_MISMATCH : Z := 443.
Definition ERROR_ALLOCATION_QUOTA_REACHED : Z := 486.
Definition ERROR_INSUFFICIENT_CAPACITY : Z := 508.

(** ** Message types *)

Definition message_type (method class : Z) : Z :=
  Z.lor (Z.lor (Z.lor (Z.lor (wrap 16 (Z.shiftl (Z.land method 0x0F80) 2))
                             (wrap 16 (Z.shiftl (Z.land method 0x0070) 1)))
                      (Z.land method 0x000F))
               (wrap 16 (Z.shiftl (Z.land class 2) 7)))
        (wrap 16 (Z.shiftl (Z.land class 1) 4)).

Definition method_of (message_type : Z) : Z :=
  Z.lor (Z.lor (Z.land message_type 0x000F) (Z.shiftr (Z.land message_type 0x00E0) 1))
        (Z.shiftr (Z.land message_type 0x3E00) 2).

Definition class_of (message_type : Z) : Z :=
  Z.lor (Z.shiftr (Z.land message_type 0x0010) 4) (Z.shiftr (Z.land message_type 0x0100) 7).

(** ** Typed attributes *)

Definition xor_address_value (addr : SocketAddr) (transaction_id : bytes) : bytes :=
  encode_xor_mapped_address addr transaction_id.

Definition lifetime_value (seconds : Z) : bytes := be_enc 4 seconds.
Definition requested_transport_value (protocol : Z) : bytes := [protocol; 0; 0; 0].
Definition channel_number_value (channel : Z) : bytes := be_enc 2 channel ++ [0; 0].

Definition error_code_value (code : Z) (reason : bytes) : bytes :=
  [0; 0; wrap 8 (code / 100); wrap 8 (code mod 100)] ++ reason.

Definition requested_transport (message : StunMessage) : option Z :=
  value ← attribute message ATTR_REQUESTED_TRANSPORT; get_at value 0.

Definition lifetime (message : StunMessage) : option Z :=
  value ← attribute message ATTR_LIFETIME; bytes ← get_range value 0 4; Some (be_dec bytes).

Definition channel_number (message : StunMessage) : option Z :=
  value ← attribute message ATTR_CHANNEL_NUMBER; bytes ← get_range value 0 2; Some (be_dec bytes).

(** The address in the first attribute of a type. *)
Definition xor_address (message : StunMessage) (attr_type : Z) : res StunError (option SocketAddr) :=
  match attribute message attr_type with
  | None => mret None
  | Some value => decode_xor_mapped_address value (sm_transaction_id message)
  end.

Definition xor_peer_address (message : StunMessage) : res StunError (option SocketAddr) :=
  xor_address message ATTR_XOR_PEER_ADDRESS.

Definition xor_relayed_address (message : StunMessage) : res StunError (option SocketAddr) :=
  xor_address message ATTR_XOR_RELAYED_ADDRESS.

Fixpoint peer_addresses_of (attributes : list (Z * bytes)) (transaction_id : bytes)
  : res StunError (list SocketAddr) :=
  match attributes with
  | [] => mret []
  | (typ, value) :: rest =>
      if typ =? ATTR_XOR_PEER_ADDRESS then
        addr ← decode_xor_mapped_address value transaction_id;
        rest ← peer_addresses_of rest transaction_id;
        mret (match addr with Some a => a :: rest | None => rest end)
      else peer_addresses_of rest transaction_id
  end.

Definition xor_peer_addresses (message : StunMessage) : res StunError (list SocketAddr) :=
  peer_addresses_of (sm_attributes message) (sm_transaction_id message).

Definition data (message : StunMessage) : option bytes := attribute message ATTR_DATA.

Definition error_code (message : StunMessage) : option Z :=
  value ← attribute message ATTR_ERROR_CODE;
  class ← get_at value 2;
  number ← get_at value 3;
  Some (class * 100 + number).

Definition nonce (message : StunMessage) : option bytes := attribute message ATTR_NONCE.
Definition has_even_port (message : StunMessage) : bool := bool_decide (is_Some (attribute message ATTR_EVEN_PORT)).
Definition has_reservation_token (message : StunMessage) : bool :=
  bool_decide (is_Some (attribute message ATTR_RESERVATION_TOKEN)).

Definition realm (message : StunMessage) : option bytes := value ← attribute message ATTR_REALM; from_utf8 value.

(** [StunMessage::username] of crates/siphon-rtp-stun/src/lib.rs. *)
Definition username (message : StunMessage) : option bytes :=
  value ← attribute message ATTR_USERNAME; from_utf8 value.

(** ** ChannelData *)

Definition MIN_CHANNEL_NUMBER : Z := 0x4000.
Definition MAX_CHANNEL_NUMBER : Z := 0x7FFF.

Definition is_channel_data (first_byte : Z) : bool := Z.land first_byte 0xC0 =? 0x40.

Definition valid_channel_number (channel : Z) : bool :=
  (MIN_CHANNEL_NUMBER <=? channel) && (channel <=? MAX_CHANNEL_NUMBER).

Record ChannelData : Type := mkChannelData { cd_channel : Z; cd_data : bytes }.

Definition parse_channel_data (buffer : bytes) : res StunError (option ChannelData) :=
  if len buffer <? 4 then mret None else
  channel ← be16_at buffer 0;
  if negb (valid_channel_number channel) then mret None else
  length_ ← be16_at buffer 2;
  match get_range buffer 4 (4 + length_) with
  | None => mret None
  | Some data => mret (Some (mkChannelData channel data))
  end.

Definition channel_data_frame_len (data_len : Z) (pad_to_four : bool) : Z :=
  let unpadded := 4 + data_len in
  if pad_to_four then div_ceil unpadded 4 * 4 else unpadded.

(** [while out.len() % 4 != 0 { out.push(0) }]: at most three turns. *)
Fixpoint pad_four (fuel : nat) (out : bytes) : bytes :=
  match fuel with
  | O => out
  | S fuel => if len out mod 4 =? 0 then out else pad_four fuel (out ++ [0])
  end.

Definition encode_channel_data (channel : Z) (data : bytes) (pad_to_four : bool) : bytes :=
  let out := be_enc 2 channel ++ be_enc 2 (wrap 16 (len data)) ++ data in
  if pad_to_four then pad_four 4 out else out.

(** ** Stream framing *)

Inductive StreamFrame : Type := Need | Ready (n : Z) | Invalid.

Definition stream_frame_len (buffer : bytes) : res StunError StreamFrame :=
  match buffer with
  | [] => mret Need
  | first :: _ =>
      if is_channel_data first then
        if len buffer <? 4 then mret Need else
        length_ ← be16_at buffer 2;
        let total := channel_data_frame_len length_ true in
        if len buffer <? total then mret Need else mret (Ready total)
      else if Z.land first 0xC0 =? 0 then
        if len buffer <? 20 then mret Need else
        cookie ← be32_at buffer 4;
        length_ ← be16_at buffer 2;
        if negb (cookie =? MAGIC_COOKIE) || negb (length_ mod 4 =? 0) then mret Invalid else
        let total := 20 + length_ in
        if len buffer <? total then mret Need else mret (Ready total)
      else mret Invalid
  end.

(** The inner loop of [handle_stream_connection]: the frames handed to the
    allocation actor, what stays buffered, and whether the connection stays
    open. *)
Fixpoint drain_frames (fuel : nat) (buffer : bytes) (sent : list bytes)
  : res StunError (list bytes * bytes * bool) :=
  match fuel with
  | O => Panic
  | S fuel =>
      frame ← stream_frame_len buffer;
      match frame with
      | Ready n =>
          datagram ← slice buffer 0 n;
          rest ← slice buffer n (len buffer);
          drain_frames fuel rest (sent ++ [datagram])
      | Need => mret (sent, buffer, true)
      | Invalid => mret (sent, buffer, false)
      end
  end.

(** The outer loop over the chunks the socket yields. *)
Fixpoint read_stream (buffer : bytes) (sent : list bytes) (chunks : list bytes)
  : res StunError (list bytes * bytes * bool) :=
  '(sent, buffer, open) ← drain_frames (S (length buffer)) buffer sent;
  if negb open then mret (sent, buffer, false) else
  match chunks with
  | [] => mret (sent, buffer, true)
  | chunk :: chunks => read_stream (buffer ++ chunk) sent chunks
  end.

(** ** MD5 and the long-term key *)

Definition MD5_SHIFTS : list Z :=
  [7; 12; 17; 22; 7; 12; 17; 22; 7; 12; 17; 22; 7; 12; 17; 22; 5; 9; 14; 20; 5; 9; 14; 20; 5; 9; 14; 20; 5; 9; 14; 20;
   4; 11; 16; 23; 4; 11; 16; 23; 4; 11; 16; 23; 4; 11; 16; 23; 6; 10; 15; 21; 6; 10; 15; 21; 6; 10; 15; 21; 6; 10; 15; 21].

Definition MD5_K : list Z :=
  [0xd76aa478; 0xe8c7b756; 0x242070db; 0xc1bdceee; 0xf57c0faf; 0x4787c62a; 0xa8304613; 0xfd469501;
   0x698098d8; 0x8b44f7af; 0xffff5bb1; 0x895cd7be; 0x6b901122; 0xfd987193; 0xa679438e; 0x49b40821;
   0xf61e2562; 0xc040b340; 0x265e5a51; 0xe9b6c7aa; 0xd62f105d; 0x02441453; 0xd8a1e681; 0xe7d3fbc8;
   0x21e1cde6; 0xc33707d6; 0xf4d50d87; 0x455a14ed; 0xa9e3e905; 0xfcefa3f8; 0x676f02d9; 0x8d2a4c8a;
   0xfffa3942; 0x8771f681; 0x6d9d6122; 0xfde5380c; 0xa4beea44; 0x4bdecfa9; 0xf6bb4b60; 0xbebfbc70;
   0x289b7ec6; 0xeaa127fa; 0xd4ef3085; 0x04881d05; 0xd9d4d039; 0xe6db99e5; 0x1fa27cf8; 0xc4ac5665;
   0xf4292244; 0x432aff97; 0xab9423a7; 0xfc93a039; 0x655b59c3; 0x8f0ccc92; 0xffeff47d; 0x85845dd1;
   0x6fa87e4f; 0xfe2ce6e0; 0xa3014314; 0x4e0811a1; 0xf7537e82; 0xbd3af235; 0x2ad7d2bb; 0xeb86d391].

Fixpoint le_dec (l : bytes) : Z := match l with [] => 0 | b :: l => b + 256 * le_dec l end.
Definition le_enc (n : nat) (x : Z) : bytes := rev (be_enc n x).

Record md5_state : Type := mkMd5 { md_a : Z; md_b : Z; md_c : Z; md_d : Z }.

(** Round [i] of the compression of the sixteen words [m]. *)
Definition md5_round (m : list Z) (s : md5_state) (i : nat) : md5_state :=
  let '(mkMd5 a b c d) := s in
  let '(f, g) :=
    if (i <=? 15)%nat then (Z.lor (Z.land b c) (Z.land (not32 b) d), i)
    else if (i <=? 31)%nat then (Z.lor (Z.land d b) (Z.land (not32 d) c), ((5 * i + 1) mod 16)%nat)
    else if (i <=? 47)%nat then (Z.lxor (Z.lxor b c) d, ((3 * i + 5) mod 16)%nat)
    else (Z.lxor c (Z.lor b (not32 d)), ((7 * i) mod 16)%nat) in
  let f := wrapping_add 32 (wrapping_add 32 (wrapping_add 32 f a) (nth_word MD5_K i)) (nth_word m g) in
  mkMd5 d (wrapping_add 32 b (rotate_left32 f (nth_word MD5_SHIFTS i))) b c.

Definition md5_chunk (h : md5_state) (chunk : bytes) : md5_state :=
  let m := le_dec <$> as_chunks 17 4 chunk in
  let s := foldl (md5_round m) h (seq 0 64) in
  mkMd5 (wrapping_add 32 (md_a h) (md_a s)) (wrapping_add 32 (md_b h) (md_b s))
    (wrapping_add 32 (md_c h) (md_c s)) (wrapping_add 32 (md_d h) (md_d s)).

Definition md5 (input : bytes) : bytes :=
  let bit_len := wrap 64 (len input * 8) in
  let message := pad_zeros 64 (input ++ [0x80]) ++ le_enc 8 bit_len in
  let h := foldl md5_chunk (mkMd5 0x67452301 0xefcdab89 0x98badcfe 0x10325476)
             (as_chunks (S (length message)) 64 message) in
  le_enc 4 (md_a h) ++ le_enc 4 (md_b h) ++ le_enc 4 (md_c h) ++ le_enc 4 (md_d h).

Definition long_term_key (username realm password : bytes) : bytes :=
  md5 (username ++ [58] ++ realm ++ [58] ++ password).

(** ** Base64 of nonces and passwords *)

Definition BASE64_ALPHABET : bytes := ALPHABET.

Definition base64_chunk (chunk : bytes) : res StunError bytes :=
  b0 ← idx chunk 0;
  let b1 := default 0 (get_at chunk 1) in
  let b2 := default 0 (get_at chunk 2) in
  let n := Z.lor (Z.lor (Z.shiftl b0 16) (Z.shiftl b1 8)) b2 in
  s0 ← idx BASE64_ALPHABET (Z.land (Z.shiftr n 18) 63);
  s1 ← idx BASE64_ALPHABET (Z.land (Z.shiftr n 12) 63);
  s2 ← (if 1 <? len chunk then idx BASE64_ALPHABET (Z.land (Z.shiftr n 6) 63) else mret 61);
  s3 ← (if 2 <? len chunk then idx BASE64_ALPHABET (Z.land n 63) else mret 61);
  mret [s0; s1; s2; s3].

Fixpoint base64_encode (input : bytes) : res StunError bytes :=
  match input with
  | [] => mret []
  | a :: b :: c :: rest => s ← base64_chunk [a; b; c]; t ← base64_encode rest; mret (s ++ t)
  | chunk => base64_chunk chunk
  end.

Definition sextet (c : Z) : option Z :=
  if (65 <=? c) && (c <=? 90) then Some (c - 65)
  else if (97 <=? c) && (c <=? 122) then Some (c - 97 + 26)
  else if (48 <=? c) && (c <=? 57) then Some (c - 48 + 52)
  else if c =? 43 then Some 62
  else if c =? 47 then Some 63
  else None.

(** [n |= value << (18 - 6 * i)] over the four symbols of a chunk. *)
Fixpoint base64_bits (i n : Z) (chunk : bytes) : option Z :=
  match chunk with
  | [] => Some n
  | c :: chunk =>
      value ← (if c =? 61 then Some 0 else sextet c);
      base64_bits (i + 1) (Z.lor n (wrap 32 (Z.shiftl value (18 - 6 * i)))) chunk
  end.

Definition base64_decode_chunk (chunk : bytes) : option bytes :=
  let pad := count_leading_pad (rev chunk) in
  if 2 <? pad then None else
  n ← base64_bits 0 0 chunk;
  Some ([wrap 8 (Z.shiftr n 16)] ++ (if pad <? 2 then [wrap 8 (Z.shiftr n 8)] else []) ++
        (if pad <? 1 then [wrap 8 n] else [])).

Fixpoint base64_decode_chunks (input : bytes) : option bytes :=
  match input with
  | a :: b :: c :: d :: rest =>
      bs ← base64_decode_chunk [a; b; c; d]; rest ← base64_decode_chunks rest; Some (bs ++ rest)
  | _ => Some []
  end.

Definition base64_decode (input : bytes) : option bytes :=
  match input with
  | [] => Some []
  | _ => if negb (len input mod 4 =? 0) then None else base64_decode_chunks input
  end.

(** ** Test vectors (RFC 1321 appendix A.5) *)

Example md5_empty : be_dec (md5 []) = 0xd41d8cd98f00b204e9800998ecf8427e.
Proof. vm_compute. reflexivity. Qed.

Example md5_abc : be_dec (md5 [97; 98; 99]) = 0x900150983cd24fb0d6963f7d28e17f72.
Proof. vm_compute. reflexivity. Qed.

(** ** Sizes *)

Lemma len_md5 input : len (md5 input) = 16.
Proof. unfold md5, le_enc. cbv zeta. unfold len. rewrite !length_app, !length_rev, !be_enc_length. done. Qed.

Lemma len_long_term_key u r p : len (long_term_key u r p) = 16.
Proof. apply len_md5. Qed.

(** ** Message types *)

Definition type_of_code (c : Z) : Z := message_type (c / 4) (c mod 4).

Lemma type_of_code_ok c : 0 <= c < 16384 ->
  method_of (type_of_code c) = c / 4 /\ class_of (type_of_code c) = c mod 4 /\ 0 <= type_of_code c < 16384.
Proof.
  intros Hc. pose proof (below_forall (fun c =>
    (method_of (type_of_code c) =? c / 4) && (class_of (type_of_code c) =? c mod 4) &&
    (0 <=? type_of_code c) && (type_of_code c <? 16384)) 16384 c ltac:(vm_compute; reflexivity) Hc) as H.
  rewrite !andb_true_iff, !Z.eqb_eq, Z.leb_le, Z.ltb_lt in H. tauto.
Qed.

Lemma type_split t : 0 <= t < 16384 ->
  message_type (method_of t) (class_of t) = t /\ 0 <= method_of t < 4096 /\ 0 <= class_of t < 4.
Proof.
  intros Ht. pose proof (below_forall (fun t =>
    (message_type (method_of t) (class_of t) =? t) && (0 <=? method_of t) && (method_of t <? 4096) &&
    (0 <=? class_of t) && (class_of t <? 4)) 16384 t ltac:(vm_compute; reflexivity) Ht) as H.
  rewrite !andb_true_iff, !Z.eqb_eq, !Z.leb_le, !Z.ltb_lt in H. lia.
Qed.

(** ** ChannelData *)

Lemma div_ceil_padding n : div_ceil n 4 * 4 = n + padding n.
Proof. unfold div_ceil, padding. Z.to_euclidean_division_equations. lia. Qed.

Lemma pad_four_padding out : pad_four 4 out = out ++ replicate (Z.to_nat (padding (len out))) 0.
Proof.
  assert (forall fuel out, padding (len out) < Z.of_nat fuel ->
    pad_four fuel out = out ++ replicate (Z.to_nat (padding (len out))) 0) as H.
  { induction fuel as [|fuel IH]; intros o Ho; cbn [pad_four].
    - pose proof (padding_bound (len o)). lia.
    - destruct (Z.eqb_spec (len o mod 4) 0) as [Hz|Hz].
      + unfold padding. rewrite Hz. by rewrite app_nil_r.
      + assert (padding (len o) = 1 + padding (len (o ++ [0]))) as Hp.
        { rewrite len_app. change (len [0]) with 1. unfold padding in *.
          Z.to_euclidean_division_equations. lia. }
        pose proof (padding_bound (len (o ++ [0]))).
        rewrite IH, Hp, Z2Nat.inj_add, <- app_assoc by lia. done. }
  apply H. pose proof (padding_bound (len out)). lia.
Qed.

Definition channel_header (channel n : Z) : bytes := be_enc 2 channel ++ be_enc 2 n.

Lemma encode_channel_data_bytes channel d pad : fits 16 (len d) ->
  encode_channel_data channel d pad =
  channel_header channel (len d) ++ d ++
    replicate (if pad then Z.to_nat (padding (4 + len d)) else O) 0.
Proof.
  intros Hd. unfold encode_channel_data, channel_header, wrap. rewrite Z.mod_small by exact Hd.
  cbv zeta. destruct pad.
  - rewrite pad_four_padding, !len_app, !len_be_enc. change (Z.of_nat 2) with 2.
    replace (2 + (2 + len d)) with (4 + len d) by lia. by rewrite <- !app_assoc.
  - by rewrite app_nil_r, <- app_assoc.
Qed.

Lemma len_encode_channel_data channel d pad : fits 16 (len d) ->
  len (encode_channel_data channel d pad) = channel_data_frame_len (len d) pad.
Proof.
  intros Hd. rewrite encode_channel_data_bytes by done. unfold channel_header, channel_data_frame_len.
  rewrite !len_app, !len_be_enc, len_replicate. change (Z.of_nat 2) with 2. destruct pad.
  - pose proof (padding_bound (4 + len d)). rewrite div_ceil_padding, Z2Nat.id by lia. lia.
  - lia.
Qed.

Lemma channel_header_fields {E} channel n rest : fits 16 channel -> fits 16 n ->
  @be16_at E (channel_header channel n ++ rest) 0 = Ok channel /\
  @be16_at E (channel_header channel n ++ rest) 2 = Ok n.
Proof.
  unfold channel_header. intros Hc Hn. rewrite <- app_assoc. split.
  - apply (be16_at_app []); [done|exact Hc].
  - apply (be16_at_app (be_enc 2 channel)); [by rewrite len_be_enc|exact Hn].
Qed.

(** What the ChannelData parser accepts: a header with a valid channel, the
    declared payload, and anything after it. *)
Lemma parse_channel_data_wire channel d tail :
  valid_channel_number channel = true -> fits 16 (len d) ->
  parse_channel_data (channel_header channel (len d) ++ d ++ tail) = Ok (Some (mkChannelData channel d)).
Proof.
  intros Hv Hd. assert (fits 16 channel) as Hc.
  { unfold valid_channel_number, MIN_CHANNEL_NUMBER, MAX_CHANNEL_NUMBER in Hv. unfold fits. lia. }
  destruct (@channel_header_fields StunError channel (len d) (d ++ tail) Hc Hd) as [H0 H2].
  unfold parse_channel_data. rewrite H0, H2, !bind_Ok, Hv. cbn [negb].
  assert (len (channel_header channel (len d)) = 4) as Hh.
  { unfold channel_header. rewrite len_app, !len_be_enc. done. }
  pose proof (len_nonneg d). pose proof (len_nonneg tail).
  rewrite (proj2 (Z.ltb_ge _ _)) by (rewrite !len_app; lia).
  rewrite get_range_Some by (rewrite ?len_app; lia).
  rewrite (sub_app_mid _ d tail) by lia. done.
Qed.

Lemma parse_channel_data_inv buffer cd : bytes_ok buffer ->
  parse_channel_data buffer = Ok (Some cd) ->
  valid_channel_number (cd_channel cd) = true /\ fits 16 (len (cd_data cd)) /\
  exists tail, buffer = channel_header (cd_channel cd) (len (cd_data cd)) ++ cd_data cd ++ tail.
Proof.
  intros Hb H. unfold parse_channel_data in H. destruct (Z.ltb_spec (len buffer) 4); [done|].
  bind_inv H channel Hc. destruct (valid_channel_number channel) eqn:Hv; [|done]. cbn [negb] in H.
  bind_inv H n Hn. destruct (get_range buffer 4 (4 + n)) as [d|] eqn:Hd; [|done]. injection H as <-.
  cbn [cd_channel cd_data]. apply get_range_Some_iff in Hd as (? & ->).
  apply be16_at_inv in Hc as (_ & _ & Hcs & ?); [|done]. apply be16_at_inv in Hn as (_ & _ & Hns & ?); [|done].
  rewrite len_sub by lia. replace (4 + n - 4) with n by lia. split_and!; [done|assumption|].
  exists (sub buffer (4 + n) (len buffer)). unfold channel_header.
  rewrite <- Hcs, <- Hns, <- (sub_full buffer) at 1.
  rewrite (sub_split buffer 0 (0 + 2) (len buffer)), (sub_split buffer (0 + 2) (2 + 2) (len buffer)),
    (sub_split buffer (2 + 2) (4 + n) (len buffer)) by lia.
  by rewrite <- !app_assoc.
Qed.

(** ** Frames of a byte stream *)

(** A STUN message as a stream carries it: fixed header with the cookie, then
    the declared, four-byte aligned, length. *)
Definition stun_frame (f : bytes) : Prop :=
  exists mtype n tid body, 0 <= mtype < 0x4000 /\ fits 16 n /\ n mod 4 = 0 /\ len body = n /\ len tid = 12 /\
    f = stun_header mtype n tid ++ body.

(** ChannelData as a stream carries it: header, payload, padding to four. *)
Definition channel_frame (f : bytes) : Prop :=
  exists channel d, valid_channel_number channel = true /\ fits 16 (len d) /\
    f = encode_channel_data channel d true.

Definition stream_frame (f : bytes) : Prop := stun_frame f \/ channel_frame f.

Lemma be_enc_two x : be_enc 2 x = [x / 256 mod 256; x mod 256].
Proof. cbn [be_enc]. change (256 ^ Z.of_nat 1) with 256. change (256 ^ Z.of_nat 0) with 1. by rewrite Z.div_1_r. Qed.

Lemma high_bits_stun t : 0 <= t < 0x4000 ->
  exists b r, be_enc 2 t = b :: r /\ is_channel_data b = false /\ (Z.land b 0xC0 =? 0) = true.
Proof.
  intros Ht. exists (t / 256 mod 256), [t mod 256]. split.
  { apply be_enc_two. }
  assert (0 <= t / 256 mod 256 < 64) as Hb by (Z.to_euclidean_division_equations; lia).
  pose proof (below_forall (fun b => negb (is_channel_data b) && (Z.land b 0xC0 =? 0)) 64 _
    ltac:(vm_compute; reflexivity) Hb) as H. cbv beta in H.
  apply andb_true_iff in H as [H1 H2]. split; [by apply negb_true_iff|done].
Qed.

Lemma high_bits_channel c : valid_channel_number c = true ->
  exists b r, be_enc 2 c = b :: r /\ is_channel_data b = true.
Proof.
  intros Hc. unfold valid_channel_number, MIN_CHANNEL_NUMBER, MAX_CHANNEL_NUMBER in Hc.
  exists (c / 256 mod 256), [c mod 256]. split; [apply be_enc_two|].
  assert (0 <= c / 256 mod 256 - 64 < 64) as Hb by (Z.to_euclidean_division_equations; lia).
  pose proof (below_forall (fun b => is_channel_data (b + 64)) 64 _ ltac:(vm_compute; reflexivity) Hb) as H.
  cbv beta in H. by replace (c / 256 mod 256 - 64 + 64) with (c / 256 mod 256) in H by lia.
Qed.

Lemma be16_at_prefix {E} b c i : 0 <= i -> i + 2 <= len b -> @be16_at E b i = be16_at (b ++ c) i.
Proof. intros. unfold be16_at. by rewrite !(idx_app_l b c) by lia. Qed.

Lemma be32_at_prefix {E} b c i : 0 <= i -> i + 4 <= len b -> @be32_at E b i = be32_at (b ++ c) i.
Proof. intros. unfold be32_at. by rewrite !(idx_app_l b c) by lia. Qed.

(** What a frame of the stream looks like to the framer once [b], a prefix of
    it and of whatever follows it, has arrived. *)
Lemma frame_len_stun b c f rest : b ++ c = f ++ rest -> stun_frame f ->
  stream_frame_len b = Ok (if len f <=? len b then Ready (len f) else Need).
Proof.
  intros Hbc (t & n & tid & body & Ht & Hn & Hmod & Hbody & Htid & ->).
  assert (fits 16 t) as Ht' by (unfold fits; lia).
  destruct (@header_fields StunError t n tid (body ++ rest) Ht' Hn Htid) as (_ & H2 & H4 & _).
  rewrite <- app_assoc in Hbc. rewrite <- Hbc in H2, H4.
  rewrite len_app, (len_stun_header _ _ _ Htid), Hbody. pose proof (len_nonneg body).
  destruct b as [|b0 b]; [rewrite len_nil, (proj2 (Z.leb_gt _ _)) by lia; done|].
  destruct (high_bits_stun t Ht) as (x & r & Hx & Hch & Hst).
  assert (b0 = x) as ->.
  { unfold stun_header in Hbc. rewrite Hx in Hbc. by injection Hbc. }
  unfold stream_frame_len. rewrite Hch, Hst.
  destruct (Z.ltb_spec (len (x :: b)) 20); [rewrite (proj2 (Z.leb_gt _ _)) by lia; done|].
  rewrite (be32_at_prefix _ c), (be16_at_prefix _ c), H4, H2, !bind_Ok by lia.
  rewrite Z.eqb_refl, Hmod. cbn [Z.eqb negb orb].
  destruct (Z.ltb_spec (len (x :: b)) (20 + n)), (Z.leb_spec (20 + n) (len (x :: b))); done || lia.
Qed.

Lemma frame_len_channel b c f rest : b ++ c = f ++ rest -> channel_frame f ->
  stream_frame_len b = Ok (if len f <=? len b then Ready (len f) else Need).
Proof.
  intros Hbc (ch & d & Hv & Hd & ->).
  assert (fits 16 ch) as Hc.
  { unfold valid_channel_number, MIN_CHANNEL_NUMBER, MAX_CHANNEL_NUMBER in Hv. unfold fits. lia. }
  rewrite len_encode_channel_data by done. rewrite encode_channel_data_bytes, <- app_assoc in Hbc by done.
  destruct (@channel_header_fields StunError ch (len d) ((d ++ replicate (Z.to_nat (padding (4 + len d))) 0) ++ rest)
    Hc Hd) as (_ & H2). rewrite <- Hbc in H2. pose proof (len_nonneg d).
  assert (4 <= channel_data_frame_len (len d) true) as H4.
  { unfold channel_data_frame_len. rewrite div_ceil_padding. pose proof (padding_bound (4 + len d)). lia. }
  destruct b as [|b0 b]; [rewrite len_nil, (proj2 (Z.leb_gt _ _)) by lia; done|].
  destruct (high_bits_channel ch Hv) as (x & r & Hx & Hch).
  assert (b0 = x) as ->.
  { unfold channel_header in Hbc. rewrite Hx in Hbc. by injection Hbc. }
  unfold stream_frame_len. rewrite Hch.
  destruct (Z.ltb_spec (len (x :: b)) 4); [rewrite (proj2 (Z.leb_gt _ _)) by lia; done|].
  rewrite (be16_at_prefix _ c), H2, bind_Ok by lia.
  destruct (Z.ltb_spec (len (x :: b)) (channel_data_frame_len (len d) true)),
    (Z.leb_spec (channel_data_frame_len (len d) true) (len (x :: b))); done || lia.
Qed.

Lemma frame_len_prefix b c f rest : b ++ c = f ++ rest -> stream_frame f ->
  stream_frame_len b = Ok (if len f <=? len b then Ready (len f) else Need).
Proof. intros Hbc [H|H]; [eapply frame_len_stun|eapply frame_len_channel]; eassumption. Qed.

Lemma stream_frame_nonempty f : stream_frame f -> 0 < len f.
Proof.
  intros [(t & n & tid & body & _ & _ & _ & _ & Htid & ->)|(ch & d & _ & Hd & ->)].
  - rewrite len_app, (len_stun_header _ _ _ Htid). pose proof (len_nonneg body). lia.
  - rewrite len_encode_channel_data by done. unfold channel_data_frame_len. rewrite div_ceil_padding.
    pose proof (padding_bound (4 + len d)). pose proof (len_nonneg d). lia.
Qed.

(** The inner loop hands over every frame that is complete and keeps a proper
    prefix of the next one. *)
Lemma drain_frames_spec fs : forall fuel b c sent,
  Forall stream_frame fs -> b ++ c = concat fs -> len b < Z.of_nat fuel ->
  exists done_ rest b', fs = done_ ++ rest /\ drain_frames fuel b sent = Ok (sent ++ done_, b', true) /\
    b = concat done_ ++ b' /\ b' ++ c = concat rest /\ (c = [] -> b' = [] /\ rest = []).
Proof.
  induction fs as [|f fs IH]; intros [|fuel] b c sent Hf Hbc Hfuel;
    try (pose proof (len_nonneg b); lia); cbn [drain_frames].
  - apply app_eq_nil in Hbc as [-> ->]. exists [], [], []. rewrite (app_nil_r sent). split_and!; done.
  - apply Forall_cons_1 in Hf as [Hf Hfs]. cbn [concat] in Hbc.
    rewrite (frame_len_prefix b c f _ Hbc Hf), bind_Ok. destruct (Z.leb_spec (len f) (len b)) as [Hl|Hl].
    + assert ((b = f ++ sub b (len f) (len b)) /\ (sub b (len f) (len b) ++ c = concat fs)) as [Hb Hrest].
      { assert (f = take (length f) b) as Hft.
        { apply (f_equal (take (length f))) in Hbc. rewrite take_app_length, take_app_le in Hbc; [done|].
          unfold len in Hl. lia. }
        assert (sub b (len f) (len b) = drop (length f) b) as Hs.
        { unfold sub. rewrite to_nat_len, firstn_all2; [done|]. rewrite length_drop. unfold len in *. lia. }
        rewrite Hs. split; [rewrite Hft at 1; by rewrite take_drop|].
        apply (app_inv_head f). rewrite app_assoc. rewrite Hft at 1. rewrite take_drop. exact Hbc. }
      pose proof (len_nonneg f). pose proof (stream_frame_nonempty f Hf).
      assert (sub b 0 (len f) = f) as Hsf by (rewrite Hb at 1; by apply sub_app_begin).
      rewrite !slice_Ok, !bind_Ok, Hsf by lia.
      destruct (IH fuel (sub b (len f) (len b)) c (sent ++ [f]) Hfs Hrest) as (dn & rest & b' & -> & Hd & Hb' & Hc & He).
      { rewrite len_sub by lia. lia. }
      exists (f :: dn), rest, b'.
      split_and!; [done| |rewrite Hb, Hb'; cbn [concat]; by rewrite app_assoc|done|done].
      rewrite Hd. by rewrite <- app_assoc.
    + exists [], (f :: fs), b. rewrite (app_nil_r sent). split_and!; try done.
      intros ->. exfalso. rewrite app_nil_r in Hbc. rewrite Hbc, len_app in Hl. pose proof (len_nonneg (concat fs)). lia.
Qed.

Lemma read_stream_spec chunks : forall fs b sent,
  Forall stream_frame fs -> b ++ concat chunks = concat fs ->
  read_stream b sent chunks = Ok (sent ++ fs, [], true).
Proof.
  induction chunks as [|chunk chunks IH]; intros fs b sent Hf Hbc; cbn [read_stream].
  - destruct (drain_frames_spec fs (S (length b)) b [] sent Hf Hbc) as (dn & rest & b' & -> & -> & _ & _ & He);
      [unfold len; lia|]. destruct He as [-> ->]; [done|]. rewrite bind_Ok, app_nil_r. done.
  - destruct (drain_frames_spec fs (S (length b)) b _ sent Hf Hbc) as (dn & rest & b' & -> & -> & _ & Hc & _);
      [unfold len; lia|]. rewrite bind_Ok. cbn [negb]. rewrite (IH rest).
    + by rewrite <- app_assoc.
    + by apply Forall_app in Hf as [_ Hf].
    + rewrite <- app_assoc. exact Hc.
Qed.

(** ** Base64 *)

Lemma base64_chunk_symbols b0 b1 b2 chunk :
  is_byte b0 -> is_byte b1 -> is_byte b2 -> get_at chunk 0 = Some b0 ->
  default 0 (get_at chunk 1) = b1 -> default 0 (get_at chunk 2) = b2 ->
  base64_chunk chunk = Ok (symbols (len chunk) (b0 * 65536 + b1 * 256 + b2)).
Proof.
  intros H0 H1 H2 Hg H1' H2'. unfold base64_chunk. rewrite (idx_lookup chunk 0 b0) by done.
  rewrite bind_Ok, H1', H2', group_bytes by done. cbv zeta. set (g := _ + _ + _).
  assert (forall k i, k = 18 - 6 * i -> 0 <= i <= 3 ->
    @idx StunError Z BASE64_ALPHABET (Z.land (Z.shiftr g k) 63) = Ok (sym (field g i))) as Hi.
  { intros k i -> Hi. unfold BASE64_ALPHABET, field. change 63 with (Z.ones 6).
    rewrite Z.land_ones, Z.shiftr_div_pow2 by lia. apply idx_sym. apply Z.mod_pos_bound. lia. }
  rewrite (Hi 18 0), (Hi 12 1), (Hi 6 2), <- (Z.shiftr_0_r g), (Hi 0 3), !bind_Ok, Z.shiftr_0_r by lia.
  unfold symbols. destruct (Z.ltb_spec 1 (len chunk)), (Z.leb_spec 2 (len chunk)); try lia;
    destruct (Z.ltb_spec 2 (len chunk)), (Z.leb_spec 3 (len chunk)); try lia; done.
Qed.

Lemma base64_bits_step i x c rest v :
  (if c =? 61 then Some 0 else sextet c) = Some v -> 0 <= i <= 3 -> 0 <= x -> 0 <= v < 64 ->
  base64_bits i (Z.shiftl x (24 - 6 * i)) (c :: rest) =
  base64_bits (i + 1) (Z.shiftl (x * 64 + v) (24 - 6 * (i + 1))) rest.
Proof.
  intros Hv Hi Hx Hb. cbn [base64_bits]. rewrite Hv. cbn [mbind option_bind]. f_equal.
  replace (24 - 6 * (i + 1)) with (18 - 6 * i) by lia. replace (24 - 6 * i) with (6 + (18 - 6 * i)) by lia.
  assert (wrap 32 (Z.shiftl v (18 - 6 * i)) = Z.shiftl v (18 - 6 * i)) as ->.
  { unfold wrap. apply Z.mod_small. rewrite Z.shiftl_mul_pow2 by lia.
    pose proof (Z.pow_le_mono_r 2 (18 - 6 * i) 18 ltac:(lia) ltac:(lia)).
    pose proof (Z.pow_pos_nonneg 2 (18 - 6 * i) ltac:(lia) ltac:(lia)). nia. }
  rewrite <- Z.shiftl_shiftl, <- Z.shiftl_lor, lor_shiftl_add by lia. done.
Qed.

Lemma sextet_value c : sextet c = Base64.value c.
Proof. done. Qed.

(** A group of one to three bytes comes back from its four symbols. *)
Lemma base64_decode_chunk_symbols n b0 b1 b2 :
  is_byte b0 -> is_byte b1 -> is_byte b2 -> 1 <= n <= 3 -> (n < 3 -> b2 = 0) -> (n < 2 -> b1 = 0) ->
  base64_decode_chunk (symbols n (b0 * 65536 + b1 * 256 + b2)) = Some (sub [b0; b1; b2] 0 n).
Proof.
  intros H0 H1 H2 Hn Hb2 Hb1. unfold is_byte in *. set (g := b0 * 65536 + b1 * 256 + b2).
  assert (0 <= g < 2 ^ 24) as Hg by (unfold g; lia).
  assert (forall i, (if sym (field g i) =? 61 then Some 0 else sextet (sym (field g i))) = Some (field g i) /\
    sym (field g i) <> 61 /\ 0 <= field g i < 64) as Hf.
  { intros i. pose proof (field_bound g i) as Hb. destruct (value_sym _ Hb) as (Hv & Hne & _).
    rewrite (proj2 (Z.eqb_neq _ 61) Hne), sextet_value. done. }
  destruct (Hf 0) as (Hv0 & Hn0 & ?), (Hf 1) as (Hv1 & Hn1 & ?), (Hf 2) as (Hv2 & Hn2 & ?),
    (Hf 3) as (Hv3 & Hn3 & ?).
  assert ((n < 2 -> field g 2 = 0) /\ (n < 3 -> field g 3 = 0)) as [Hf2 Hf3].
  { unfold field, g. change (2 ^ (18 - 6 * 3)) with 1. change (2 ^ (18 - 6 * 2)) with 64.
    rewrite Z.div_1_r. split; intros Hlt.
    - rewrite Hb1, Hb2 by lia. replace (b0 * 65536 + 0 * 256 + 0) with (b0 * 16 * 64 * 64) by lia.
      by rewrite Z.div_mul, Z.mod_mul.
    - rewrite Hb2 by lia. replace (b0 * 65536 + b1 * 256 + 0) with ((b0 * 1024 + b1 * 4) * 64) by lia.
      by rewrite Z.mod_mul. }
  assert (base64_bits 0 0 (symbols n g) = Some g) as Hbits.
  { unfold symbols. change 0 with (Z.shiftl 0 (24 - 6 * 0)) at 2.
    rewrite (base64_bits_step _ _ _ _ _ Hv0), (base64_bits_step _ _ _ _ _ Hv1) by lia.
    rewrite (base64_bits_step _ _ _ _ (field g 2)); [| |lia|lia|lia].
    2: { destruct (Z.leb_spec 2 n); [exact Hv2|]. rewrite Z.eqb_refl. by rewrite Hf2. }
    rewrite (base64_bits_step _ _ _ _ (field g 3)); [| |lia|lia|lia].
    2: { destruct (Z.leb_spec 3 n); [exact Hv3|]. rewrite Z.eqb_refl. by rewrite Hf3. }
    cbn [base64_bits]. change (24 - 6 * (0 + 1 + 1 + 1 + 1)) with 0. rewrite Z.shiftl_0_r.
    pose proof (fields_join g Hg). f_equal. lia. }
  assert (count_leading_pad (rev (symbols n g)) = 3 - n) as Hpad.
  { unfold symbols. cbn [rev app count_leading_pad].
    assert (n = 1 \/ n = 2 \/ n = 3) as [->|[->| ->]] by lia; cbn [Z.leb Z.compare Pos.compare Pos.compare_cont];
      rewrite ?Z.eqb_refl, ?(proj2 (Z.eqb_neq _ 61) Hn1), ?(proj2 (Z.eqb_neq _ 61) Hn2), ?(proj2 (Z.eqb_neq _ 61) Hn3); done. }
  unfold base64_decode_chunk. rewrite Hpad, Hbits, (proj2 (Z.ltb_ge 2 _)) by lia. cbn [mbind option_bind].
  assert (wrap 8 (Z.shiftr g 16) = b0 /\ wrap 8 (Z.shiftr g 8) = b1 /\ wrap 8 g = b2) as (-> & -> & ->).
  { unfold wrap, g. rewrite !Z.shiftr_div_pow2 by lia. Z.to_euclidean_division_equations. lia. }
  assert (n = 1 \/ n = 2 \/ n = 3) as [->|[->| ->]] by lia; done.
Qed.

(** Both base64 encoders of the program produce the same text, and this file's
    decoder inverts it. *)
Lemma base64_encode_decode input : bytes_ok input ->
  exists text, base64_encode input = Ok text /\ Base64.encode input = Ok text /\
    len text = encoded_len (len input) /\ base64_decode_chunks text = Some input /\ bytes_ok text.
Proof.
  assert (forall n g, bytes_ok (symbols n g)) as Hsym.
  { intros n g. assert (forall i, is_byte (sym (field g i))) as H
      by (intros i; apply value_sym, field_bound).
    unfold symbols. assert (is_byte 61) by (unfold is_byte; lia).
    repeat (constructor; [destruct (_ <=? _) || idtac; auto|]). constructor. }
  induction input as [|a|a b|a b c l IH] using list_ind3; intros Hb.
  - exists []. done.
  - apply bytes_ok_cons in Hb as [Ha _]. eexists. split; [by apply (base64_chunk_symbols a 0 0 [a])|].
    split; [by apply (encode_chunk_symbols a 0 0 [a])|]. split; [done|]. split; [|apply Hsym].
    change (len [a]) with 1. cbn [base64_decode_chunks symbols].
    change [sym _; _; _; _] with (symbols 1 (a * 65536 + 0 * 256 + 0)).
    by rewrite base64_decode_chunk_symbols by (done || lia).
  - apply bytes_ok_cons in Hb as [Ha Hb]. apply bytes_ok_cons in Hb as [Hb _].
    eexists. split; [by apply (base64_chunk_symbols a b 0 [a; b])|].
    split; [by apply (encode_chunk_symbols a b 0 [a; b])|]. split; [done|]. split; [|apply Hsym].
    change (len [a; b]) with 2. cbn [base64_decode_chunks symbols].
    change [sym _; _; _; _] with (symbols 2 (a * 65536 + b * 256 + 0)).
    by rewrite base64_decode_chunk_symbols by (done || lia).
  - apply bytes_ok_cons in Hb as [Ha Hb]. apply bytes_ok_cons in Hb as [Hbb Hb].
    apply bytes_ok_cons in Hb as [Hc Hb]. destruct (IH Hb) as (text & Henc & Henc' & Hlen & Hdec & Hok).
    exists (symbols 3 (a * 65536 + b * 256 + c) ++ text). split.
    { cbn [base64_encode]. by rewrite (base64_chunk_symbols a b c [a; b; c]), bind_Ok, Henc, bind_Ok by done. }
    split.
    { cbn [encode]. by rewrite (encode_chunk_symbols a b c [a; b; c]), bind_Ok, Henc', bind_Ok by done. }
    split.
    { rewrite len_app, len_symbols, Hlen, !len_cons. unfold encoded_len, div_ceil.
      replace (1 + (1 + (1 + len l)) + 3 - 1) with (len l + 3 - 1 + 1 * 3) by lia. rewrite Z.div_add by lia. lia. }
    split; [|apply bytes_ok_app; split; [apply Hsym|done]].
    unfold symbols. cbn [app base64_decode_chunks].
    change [sym _; _; _; _] with (symbols 3 (a * 65536 + b * 256 + c)).
    by rewrite base64_decode_chunk_symbols, Hdec by (done || lia).
Qed.

Lemma base64_decode_encode input : bytes_ok input ->
  exists text, base64_encode input = Ok text /\ Base64.encode input = Ok text /\ base64_decode text = Some input /\
    bytes_ok text.
Proof.
  intros Hb. destruct (base64_encode_decode input Hb) as (text & He & He' & Hl & Hd & Hok). exists text.
  split_and!; [done..| |done]. unfold base64_decode. destruct text; [by rewrite <- Hd|].
  assert (len (z :: text) mod 4 = 0) as -> by (rewrite Hl; apply Z.mod_mul; lia). exact Hd.
Qed.

(** ** Theorems *)

(** The 14-bit message type and its (method, class) pair determine each
    other: splitting undoes joining on every 12-bit method and 2-bit class, the
    joined value keeps the two top bits clear that tell STUN from ChannelData,
    and joining undoes splitting on every such value. *)
Lemma turn_message_type_exact method class t :
  0 <= method < 4096 -> 0 <= class < 4 -> 0 <= t < 0x4000 ->
  method_of (message_type method class) = method /\ class_of (message_type method class) = class /\
  0 <= message_type method class < 0x4000 /\ message_type (method_of t) (class_of t) = t.
Proof.
  intros Hm Hc Ht. destruct (type_split t Ht) as (Hs & _).
  destruct (type_of_code_ok (method * 4 + class) ltac:(lia)) as (H1 & H2 & H3). unfold type_of_code in *.
  assert ((method * 4 + class) / 4 = method /\ (method * 4 + class) mod 4 = class) as [Hd Hmo]
    by (Z.to_euclidean_division_equations; lia).
  rewrite Hd, Hmo in *. done.
Qed.

Lemma turn_message_type_exact_witness :
  method_of (message_type METHOD_ALLOCATE CLASS_ERROR) = METHOD_ALLOCATE /\
  class_of (message_type METHOD_ALLOCATE CLASS_ERROR) = CLASS_ERROR /\
  0 <= message_type METHOD_ALLOCATE CLASS_ERROR < 0x4000 /\ message_type (method_of 0x0113) (class_of 0x0113) = 0x0113.
Proof. apply (turn_message_type_exact METHOD_ALLOCATE CLASS_ERROR 0x0113); vm_compute; split; congruence. Defined.

(** ChannelData is parsed exactly: the parser never panics, it accepts a
    datagram precisely when it is a header with a channel in 0x4000..0x7FFF, the
    declared payload and any tail, and it returns that channel and payload; what
    the encoder writes, padded or not, has the advertised length and parses back
    whatever follows it. *)
Lemma channel_data_exact buffer channel d pad tail :
  bytes_ok buffer -> valid_channel_number channel = true -> fits 16 (len d) ->
  no_panic (parse_channel_data buffer) /\
  (forall cd, parse_channel_data buffer = Ok (Some cd) <->
    valid_channel_number (cd_channel cd) = true /\ fits 16 (len (cd_data cd)) /\
    exists rest, buffer = channel_header (cd_channel cd) (len (cd_data cd)) ++ cd_data cd ++ rest) /\
  len (encode_channel_data channel d pad) = channel_data_frame_len (len d) pad /\
  parse_channel_data (encode_channel_data channel d pad ++ tail) = Ok (Some (mkChannelData channel d)).
Proof.
  intros Hb Hv Hd. split_and!.
  - unfold parse_channel_data. destruct (Z.ltb_spec (len buffer) 4); [done|].
    apply no_panic_bind; [apply be16_at_no_panic; lia|]. intros c _.
    destruct (valid_channel_number c); [|done]. cbn [negb].
    apply no_panic_bind; [apply be16_at_no_panic; lia|]. intros n _. by destruct (get_range _ _ _).
  - intros [c e]. split; [by apply parse_channel_data_inv|]. cbn [cd_channel cd_data].
    intros (? & ? & rest & ->). by apply parse_channel_data_wire.
  - by apply len_encode_channel_data.
  - rewrite encode_channel_data_bytes, <- !app_assoc by done. by apply parse_channel_data_wire.
Qed.

Lemma channel_data_exact_witness :
  parse_channel_data (encode_channel_data 0x4001 [1; 2; 3] true ++ [9]) = Ok (Some (mkChannelData 0x4001 [1; 2; 3])).
Proof.
  apply (channel_data_exact [] 0x4001 [1; 2; 3] true [9]).
  - constructor.
  - reflexivity.
  - vm_compute. split; congruence.
Defined.

(** Stream reassembly does not depend on how TCP or TLS cuts the bytes:
    for every sequence of STUN and padded ChannelData frames and every way of
    splitting their concatenation into reads, the reader hands over exactly those
    frames, in order, keeps nothing, never panics and keeps the connection open. *)
Lemma turn_stream_reassembly fs chunks :
  Forall stream_frame fs -> concat chunks = concat fs -> read_stream [] [] chunks = Ok (fs, [], true).
Proof. intros Hf Hc. apply (read_stream_spec chunks fs [] [] Hf Hc). Qed.

Lemma turn_stream_reassembly_witness :
  let f1 := encode_channel_data 0x4001 [1; 2; 3] true in
  let f2 := stun_header 0x0001 0 (replicate 12 7) in
  read_stream [] [] [take 3 f1; drop 3 f1 ++ take 10 f2; drop 10 f2] = Ok ([f1; f2], [], true).
Proof.
  apply turn_stream_reassembly; [|vm_compute; reflexivity].
  constructor; [right|constructor; [left|constructor]].
  - exists 0x4001, [1; 2; 3]. split_and!; [reflexivity|vm_compute; split; congruence|reflexivity].
  - exists 0x0001, 0, (replicate 12 7), []. split_and!; try reflexivity; vm_compute; try split; congruence.
Defined.
