(* ===== verification/StunClient.v ===== *)
(** * The STUN client side of ICE: crates/siphon-rtp-stun/src/client.rs

    Retransmission schedule and transactions on a logical clock, the connectivity
    check request, the error response and the ICE attributes.  Ticks and offsets
    are 64-bit and saturate as in the source. *)

From S2P Require Import Prelude Crypto Stun Utf8 Turn.
From stdpp Require Import base list numbers option.
From Stdlib Require Import Lia ZArith.

Open Scope Z_scope.

Definition ATTR_PRIORITY : Z := 0x0024.
Definition ATTR_USE_CANDIDATE : Z := 0x0025.
Definition ATTR_ICE_CONTROLLED : Z := 0x8029.
Definition ATTR_ICE_CONTROLLING : Z := 0x802A.
Definition BINDING_ERROR : Z := 0x0111.
Definition DEFAULT_RC : Z := 7.
Definition DEFAULT_RM : Z := 16.

Inductive IceRole : Type := Controlling (tie : Z) | Controlled (tie : Z).

(** ** The schedule *)

Record RetransmitSchedule : Type := mkRetransmitSchedule { rs_rto_ticks : Z; rs_rc : Z; rs_rm : Z }.

Definition RetransmitSchedule_new (rto_ticks : Z) : RetransmitSchedule :=
  mkRetransmitSchedule rto_ticks DEFAULT_RC DEFAULT_RM.
Definition RetransmitSchedule_reliable (timeout_ticks : Z) : RetransmitSchedule := mkRetransmitSchedule timeout_ticks 1 1.
Definition RetransmitSchedule_with_limits (rto_ticks rc rm : Z) : RetransmitSchedule :=
  mkRetransmitSchedule rto_ticks rc rm.

(** [1u64.checked_shl(attempt)] is defined below 64. *)
Definition send_offset (s : RetransmitSchedule) (attempt : Z) : option Z :=
  if rs_rc s <=? attempt then None else
  let factor := if attempt <? 64 then Z.shiftl 1 attempt - 1 else 2 ^ 64 - 1 in
  Some (saturating_mul 64 factor (rs_rto_ticks s)).

Definition timeout_offset (s : RetransmitSchedule) : Z :=
  let last := default 0 (send_offset s (saturating_sub (rs_rc s) 1)) in
  saturating_add 64 last (saturating_mul 64 (rs_rm s) (rs_rto_ticks s)).

(** ** Transactions *)

Inductive TransactionState : Type := Pending | Succeeded | FailedTimeout.
Inductive TransactionAction : Type := Wait | Retransmit (requests : Z) | Failed.

Record Transaction : Type := mkTransaction {
  tx_id : bytes;
  tx_schedule : RetransmitSchedule;
  tx_started_tick : Z;
  tx_requests_sent : Z;
  tx_state : TransactionState
}.

Definition Transaction_start (id : bytes) (schedule : RetransmitSchedule) (now_tick : Z) : Transaction :=
  mkTransaction id schedule now_tick 1 Pending.

Definition is_pending (t : Transaction) : bool := match tx_state t with Pending => true | _ => false end.

Definition set_tx_state (t : Transaction) (state : TransactionState) : Transaction :=
  mkTransaction (tx_id t) (tx_schedule t) (tx_started_tick t) (tx_requests_sent t) state.

Definition on_response (t : Transaction) (response_id : bytes) : bool * Transaction :=
  if is_pending t && bool_decide (response_id = tx_id t) then (true, set_tx_state t Succeeded) else (false, t).

Definition Transaction_poll (t : Transaction) (now_tick : Z) : TransactionAction * Transaction :=
  if negb (is_pending t) then (Wait, t) else
  let elapsed := saturating_sub now_tick (tx_started_tick t) in
  if timeout_offset (tx_schedule t) <=? elapsed then (Failed, set_tx_state t FailedTimeout) else
  match send_offset (tx_schedule t) (tx_requests_sent t) with
  | Some due =>
      if due <=? elapsed then
        let requests := tx_requests_sent t + 1 in
        (Retransmit requests, mkTransaction (tx_id t) (tx_schedule t) (tx_started_tick t) requests (tx_state t))
      else (Wait, t)
  | None => (Wait, t)
  end.

(** ** Messages *)

Definition binding_request_ice (transaction_id username integrity_key : bytes) (priority : Z) (role : IceRole)
  (use_candidate : bool) : res StunError bytes :=
  let '(role_attr, tie_breaker) :=
    match role with Controlling tie => (ATTR_ICE_CONTROLLING, tie) | Controlled tie => (ATTR_ICE_CONTROLLED, tie) end in
  let builder := MessageBuilder_attribute (MessageBuilder_new BINDING_REQUEST transaction_id) ATTR_PRIORITY (be_enc 4 priority) in
  let builder := MessageBuilder_attribute builder role_attr (be_enc 8 tie_breaker) in
  let builder := if use_candidate then MessageBuilder_attribute builder ATTR_USE_CANDIDATE [] else builder in
  MessageBuilder_finish (MessageBuilder_attribute builder ATTR_USERNAME username) (Some integrity_key) true.

Definition binding_error_response (transaction_id : bytes) (code : Z) (reason : bytes) (integrity_key : option bytes)
  : res StunError bytes :=
  MessageBuilder_finish
    (MessageBuilder_attribute (MessageBuilder_new BINDING_ERROR transaction_id) ATTR_ERROR_CODE (error_code_value code reason))
    integrity_key true.

Definition ice_priority (message : StunMessage) : option Z :=
  value ← attribute message ATTR_PRIORITY; bytes ← get_range value 0 4; Some (be_dec bytes).

Definition tie_breaker (message : StunMessage) (attr : Z) : option Z :=
  value ← attribute message attr; bytes ← get_range value 0 8; Some (be_dec bytes).

Definition ice_controlling (message : StunMessage) : option Z := tie_breaker message ATTR_ICE_CONTROLLING.
Definition ice_controlled (message : StunMessage) : option Z := tie_breaker message ATTR_ICE_CONTROLLED.
Definition has_use_candidate (message : StunMessage) : bool :=
  bool_decide (is_Some (attribute message ATTR_USE_CANDIDATE)).

(** ** The timetable *)

(** Limits that make sense and do not saturate 64 bits. *)
Definition schedule_ok (s : RetransmitSchedule) : Prop :=
  1 <= rs_rto_ticks s /\ 1 <= rs_rc s <= 63 /\ 1 <= rs_rm s /\ (2 ^ rs_rc s + rs_rm s) * rs_rto_ticks s < 2 ^ 64.

(** Request [k] is due [(2^k - 1)] RTOs after the first. *)
Definition due (s : RetransmitSchedule) (k : Z) : Z := (2 ^ k - 1) * rs_rto_ticks s.
Definition gives_up (s : RetransmitSchedule) : Z := due s (rs_rc s - 1) + rs_rm s * rs_rto_ticks s.

Lemma pow_lt_pow k n : 0 <= k < n -> 2 ^ k * 2 <= 2 ^ n.
Proof. intros H. replace (2 ^ k * 2) with (2 ^ (k + 1)) by (rewrite Z.pow_add_r; lia). apply Z.pow_le_mono_r; lia. Qed.

Lemma due_mono s j k : schedule_ok s -> 0 <= j < k -> due s j < due s k.
Proof. intros (Hr & _) H. unfold due. pose proof (pow_lt_pow j k H). pose proof (Z.pow_pos_nonneg 2 j). nia. Qed.

Lemma send_offset_due s k : schedule_ok s -> 0 <= k ->
  send_offset s k = if k <? rs_rc s then Some (due s k) else None.
Proof.
  intros (Hr & Hc & Hm & Hmax) Hk. unfold send_offset. destruct (Z.leb_spec (rs_rc s) k), (Z.ltb_spec k (rs_rc s)); try lia; [done|].
  rewrite (proj2 (Z.ltb_lt k 64)), Z.shiftl_1_l by lia. unfold saturating_mul, due. f_equal. apply Z.min_l.
  pose proof (pow_lt_pow k (rs_rc s)). nia.
Qed.

Lemma timeout_gives_up s : schedule_ok s -> timeout_offset s = gives_up s.
Proof.
  intros Hs. pose proof Hs as (Hr & Hc & Hm & Hmax). unfold timeout_offset, gives_up, saturating_sub.
  rewrite Z.max_r, send_offset_due, (proj2 (Z.ltb_lt _ _)) by (done || lia). cbn [default]. unfold id.
  unfold saturating_add, saturating_mul, due. pose proof (pow_lt_pow (rs_rc s - 1) (rs_rc s)). rewrite !Z.min_l; nia.
Qed.

(** Polls at [n] consecutive ticks from [t]. *)
Fixpoint poll_ticks (tx : Transaction) (t : Z) (n : nat) : list TransactionAction * Transaction :=
  match n with
  | O => ([], tx)
  | S n =>
      let '(action, tx) := Transaction_poll tx t in
      let '(actions, tx) := poll_ticks tx (t + 1) n in
      (action :: actions, tx)
  end.

(** What the timetable has [e] ticks after the start: the request due then, the
    end of the transaction, or nothing. *)
Fixpoint request_due (s : RetransmitSchedule) (e : Z) (n : nat) : option Z :=
  match n with
  | O => None
  | S n => if (0 <? Z.of_nat n) && (due s (Z.of_nat n) =? e) then Some (Z.of_nat n) else request_due s e n
  end.

Definition timetable (s : RetransmitSchedule) (e : Z) : TransactionAction :=
  if e =? gives_up s then Failed else
  match request_due s e (Z.to_nat (rs_rc s)) with Some k => Retransmit (k + 1) | None => Wait end.

Lemma request_due_spec s e n : schedule_ok s ->
  match request_due s e n with
  | Some k => 1 <= k < Z.of_nat n /\ due s k = e
  | None => forall k, 1 <= k < Z.of_nat n -> due s k <> e
  end.
Proof.
  intros Hs. induction n as [|n IH]; cbn [request_due]; [lia|].
  destruct (Z.ltb_spec 0 (Z.of_nat n)); cbn [andb].
  - destruct (Z.eqb_spec (due s (Z.of_nat n)) e); [lia|]. destruct (request_due s e n); [lia|].
    intros k Hk. destruct (Z.eq_dec k (Z.of_nat n)) as [->|]; [done|]. apply IH. lia.
  - destruct (request_due s e n); [lia|]. intros k Hk. apply IH. lia.
Qed.

(** The transaction [e] ticks after its start, having kept to the timetable. *)
Definition on_time (s : RetransmitSchedule) (t0 e : Z) (tx : Transaction) : Prop :=
  tx_schedule tx = s /\ tx_started_tick tx = t0 /\
  if e <? gives_up s
  then tx_state tx = Pending /\ 1 <= tx_requests_sent tx <= rs_rc s /\ due s (tx_requests_sent tx - 1) <= e /\
       (tx_requests_sent tx < rs_rc s -> e < due s (tx_requests_sent tx))
  else tx_state tx = FailedTimeout.

Lemma poll_on_time s t0 e tx : schedule_ok s -> 0 <= e -> on_time s t0 e tx ->
  exists tx', Transaction_poll tx (t0 + (e + 1)) = (timetable s (e + 1), tx') /\ on_time s t0 (e + 1) tx'.
Proof.
  intros Hs He (Hsch & Ht0 & Hst). pose proof Hs as (Hr & Hc & Hm & _).
  assert (due s (rs_rc s - 1) < gives_up s) as Hlast by (unfold gives_up; nia).
  pose proof (request_due_spec s (e + 1) (Z.to_nat (rs_rc s)) Hs) as Hreq. rewrite Z2Nat.id in Hreq by lia.
  assert (forall k, 1 <= k < rs_rc s -> due s k <= due s (rs_rc s - 1)) as Hle.
  { intros k Hk. destruct (Z.eq_dec k (rs_rc s - 1)) as [->|]; [lia|]. pose proof (due_mono s k (rs_rc s - 1) Hs). lia. }
  unfold Transaction_poll, timetable, on_time, is_pending. rewrite Hsch, Ht0. unfold saturating_sub.
  replace (Z.max 0 (t0 + (e + 1) - t0)) with (e + 1) by lia. rewrite timeout_gives_up by done.
  destruct (Z.ltb_spec e (gives_up s)) as [Hlt|Hge].
  2: { rewrite Hst. cbn [negb]. rewrite (proj2 (Z.eqb_neq (e + 1) (gives_up s))), (proj2 (Z.ltb_ge (e + 1) (gives_up s))) by lia.
       exists tx. split; [|done]. destruct (request_due s (e + 1) _) as [k|]; [|done]. pose proof (Hle k ltac:(lia)). lia. }
  destruct Hst as (Hp & Hn & Hd & Hnext). rewrite Hp. cbn [negb].
  destruct (Z.leb_spec (gives_up s) (e + 1)).
  { rewrite (proj2 (Z.eqb_eq (e + 1) (gives_up s))), (proj2 (Z.ltb_ge (e + 1) (gives_up s))) by lia. eexists. split; [done|]. done. }
  rewrite (proj2 (Z.eqb_neq (e + 1) (gives_up s))), (proj2 (Z.ltb_lt (e + 1) (gives_up s))) by lia.
  rewrite send_offset_due by (done || lia). set (n := tx_requests_sent tx) in *.
  assert (forall k, 1 <= k < n -> due s k <= e) as Hpast.
  { intros k Hk. destruct (Z.eq_dec k (n - 1)) as [->|]; [done|]. pose proof (due_mono s k (n - 1) Hs). lia. }
  assert (forall k, n < k < rs_rc s -> due s n < due s k) as Hfut by (intros; apply due_mono; [done|lia]).
  destruct (Z.ltb_spec n (rs_rc s)) as [Hmore|Hall].
  - specialize (Hnext Hmore). destruct (Z.leb_spec (due s n) (e + 1)).
    + destruct (request_due s (e + 1) _) as [k|].
      * destruct Hreq as [Hk Hdk]. assert (k = n) as ->.
        { destruct (Z.lt_trichotomy k n) as [?|[?|?]]; [pose proof (Hpast k); lia|done|pose proof (Hfut k); lia]. }
        eexists. split; [done|]. cbn. split_and!; try done; try lia.
        -- by replace (n + 1 - 1) with n by lia.
        -- intros ?. pose proof (due_mono s n (n + 1) Hs). lia.
      * exfalso. apply (Hreq n); lia.
    + exists tx. destruct (request_due s (e + 1) _) as [k|].
      * exfalso. destruct Hreq as [Hk Hdk].
        destruct (Z.lt_trichotomy k n) as [?|[->|?]]; [pose proof (Hpast k); lia|lia|pose proof (Hfut k); lia].
      * fold n. split; [done|]. split_and!; try done; lia.
  - exists tx. destruct (request_due s (e + 1) _) as [k|].
    + exfalso. destruct Hreq as [Hk Hdk]. pose proof (Hpast k). lia.
    + fold n. split; [done|]. split_and!; try done; lia.
Qed.

(** C14. A STUN transaction keeps to its timetable and ends.  Polled at every tick
    after its start, it asks for request number [k + 1] exactly at the tick [(2^k -
    1)] RTOs after the start, for every [k] below the request limit, gives up
    exactly [Rm] RTOs after the last request, and is silent at every other tick,
    before and after: one action per due time, none early, none lost. *)
Theorem stun_transaction_timetable s id t0 n : schedule_ok s ->
  let '(actions, tx) := poll_ticks (Transaction_start id s t0) (t0 + 1) n in
  actions = (fun e => timetable s (Z.of_nat e)) <$> seq 1 n /\
  (gives_up s <= Z.of_nat n <-> tx_state tx = FailedTimeout).
Proof.
  intros Hs. pose proof Hs as (Hr & Hc & Hm & _).
  assert (forall m e tx, 0 <= Z.of_nat e -> on_time s t0 (Z.of_nat e) tx ->
    fst (poll_ticks tx (t0 + (Z.of_nat e + 1)) m) = (fun e => timetable s (Z.of_nat e)) <$> seq (S e) m /\
    on_time s t0 (Z.of_nat (e + m)) (snd (poll_ticks tx (t0 + (Z.of_nat e + 1)) m))) as Hrun.
  { induction m as [|m IH]; intros e tx He Ht; [by rewrite Nat.add_0_r|].
    destruct (poll_on_time s t0 (Z.of_nat e) tx Hs He Ht) as (tx' & Hpoll & Ht'). cbn [poll_ticks]. rewrite Hpoll.
    replace (Z.of_nat e + 1) with (Z.of_nat (S e)) in * by lia.
    destruct (IH (S e) tx') as [Ha Ho]; [lia|done|].
    replace (t0 + (Z.of_nat (S e) + 1)) with (t0 + Z.of_nat (S e) + 1) in * by lia.
    destruct (poll_ticks tx' _ m) as [actions tx'']. cbn [fst snd] in *. split; [|by replace (e + S m)%nat with (S e + m)%nat by lia].
    cbn [seq]. by rewrite fmap_cons, Ha. }
  destruct (Hrun n 0%nat (Transaction_start id s t0)) as [Ha Ho]; [lia| |].
  { split_and!; [done|done|]. change (Z.of_nat 0) with 0. rewrite (proj2 (Z.ltb_lt _ _)).
    - pose proof (due_mono s 0 1 Hs). cbn. split_and!; try done; try lia; unfold due in *; lia.
    - unfold gives_up. assert (0 <= due s (rs_rc s - 1)); [|nia]. unfold due. pose proof (Z.pow_pos_nonneg 2 (rs_rc s - 1)). nia. }
  change (Z.of_nat 0 + 1) with 1 in *. destruct (poll_ticks _ _ n) as [actions tx]. cbn [fst snd] in *. split; [done|].
  destruct Ho as (_ & _ & Ho). change (0 + n)%nat with n in Ho. destruct (Z.ltb_spec (Z.of_nat n) (gives_up s)).
  - destruct Ho as [Ho _]. rewrite Ho. split; [lia|done].
  - split; [done|lia].
Qed.

Lemma stun_transaction_timetable_witness :
  fst (poll_ticks (Transaction_start [] (RetransmitSchedule_with_limits 1 3 2) 10) 11 6) =
  [Retransmit 2; Wait; Retransmit 3; Wait; Failed; Wait].
Proof.
  pose proof (stun_transaction_timetable (RetransmitSchedule_with_limits 1 3 2) [] 10 6) as H.
  change (10 + 1) with 11 in H. destruct (poll_ticks _ 11 6) as [actions tx].
  rewrite (proj1 (H ltac:(vm_compute; intuition congruence))). reflexivity.
Defined.

(** The default limits: seven requests, given up 79 RTOs after the first. *)
Example default_gives_up rto : gives_up (RetransmitSchedule_new rto) = 79 * rto.
Proof. unfold gives_up, due. change (2 ^ (rs_rc (RetransmitSchedule_new rto) - 1)) with 64. cbn [rs_rto_ticks rs_rm RetransmitSchedule_new]. unfold DEFAULT_RM. lia. Qed.

(** ** Checks on the wire *)

(** A signed and fingerprinted message, parsed and verified. *)
Lemma built_message t tid attrs key :
  fits 16 t -> len tid = 12 -> Forall attr_ok attrs -> Forall (fun a => a.1 <> ATTR_MESSAGE_INTEGRITY) attrs ->
  len (attrs_bytes attrs) + 32 < 2 ^ 16 ->
  exists raw tail,
    MessageBuilder_finish
      (foldl (fun m (a : Z * bytes) => MessageBuilder_attribute m a.1 a.2) (MessageBuilder_new t tid) attrs) (Some key) true = Ok raw /\
    parse raw = Ok (mkStunMessage t tid (attrs ++ tail)) /\ verify_message_integrity raw key = Ok true /\
    (fst <$> tail) = [ATTR_MESSAGE_INTEGRITY; ATTR_FINGERPRINT].
Proof.
  intros Ht Hl Hok Hne Hmax. destruct (built t tid attrs (Some key) true) as (raw & tail & H1 & _ & H2 & H3 & H4); [done..|]. by exists raw, tail.
Qed.

(** The attributes of a connectivity check. *)
Definition check_attrs (username : bytes) (priority : Z) (role : IceRole) (use_candidate : bool) : list (Z * bytes) :=
  [(ATTR_PRIORITY, be_enc 4 priority);
   match role with Controlling tie => (ATTR_ICE_CONTROLLING, be_enc 8 tie) | Controlled tie => (ATTR_ICE_CONTROLLED, be_enc 8 tie) end]
  ++ (if use_candidate then [(ATTR_USE_CANDIDATE, [])] else []) ++ [(ATTR_USERNAME, username)].

Definition role_tie (role : IceRole) : Z := match role with Controlling tie | Controlled tie => tie end.

(** What the other agent reads in a check. *)
Record check_view (m : StunMessage) (tid username : bytes) (priority : Z) (role : IceRole) (use_candidate : bool) : Prop := {
  cv_type : sm_message_type m = BINDING_REQUEST;
  cv_tid : sm_transaction_id m = tid;
  cv_username : attribute m ATTR_USERNAME = Some username;
  cv_priority : ice_priority m = Some priority;
  cv_controlling : ice_controlling m = match role with Controlling tie => Some tie | _ => None end;
  cv_controlled : ice_controlled m = match role with Controlled tie => Some tie | _ => None end;
  cv_use : has_use_candidate m = use_candidate
}.

Lemma be_enc_range (n : nat) x : 0 <= x < 256 ^ Z.of_nat n ->
  (bytes ← get_range (be_enc n x) 0 (Z.of_nat n); Some (be_dec bytes)) = Some x.
Proof.
  intros Hx. rewrite get_range_Some by (rewrite ?len_be_enc; lia). rewrite <- (len_be_enc n x) at 1. rewrite sub_full.
  cbn. by rewrite be_dec_enc_fits.
Qed.

Lemma check_request_view tid username key priority role use_candidate :
  len tid = 12 -> bytes_ok username -> len username <= 1024 -> fits 32 priority -> fits 64 (role_tie role) ->
  exists raw m, binding_request_ice tid username key priority role use_candidate = Ok raw /\ parse raw = Ok m /\
    verify_message_integrity raw key = Ok true /\ check_view m tid username priority role use_candidate.
Proof.
  intros Hl Hu Hlu Hp Ht. pose proof (len_nonneg username). set (attrs := check_attrs username priority role use_candidate).
  assert (Forall attr_ok attrs) as Hok.
  { unfold attrs, check_attrs. assert (attr_ok (ATTR_PRIORITY, be_enc 4 priority)) by (split_and!; [vm_compute; split; congruence|apply be_enc_bytes|vm_compute; split; congruence]).
    assert (attr_ok (ATTR_USERNAME, username)) by (split_and!; [vm_compute; split; congruence|done|unfold fits; cbn; lia]).
    apply Forall_app. split; [|apply Forall_app; split].
    - forall_list; [done|]. destruct role; (split_and!; [vm_compute; split; congruence|apply be_enc_bytes|vm_compute; split; congruence]).
    - destruct use_candidate; [|constructor]. forall_list. split_and!; [vm_compute; split; congruence|constructor|vm_compute; split; congruence].
    - by forall_list. }
  destruct (built_message BINDING_REQUEST tid attrs key) as (raw & tail & Hraw & Hparse & Hver & Htail).
  - vm_compute. split; congruence.
  - done.
  - done.
  - unfold attrs, check_attrs. destruct role, use_candidate; forall_list; vm_compute; congruence.
  - unfold attrs, check_attrs. rewrite !attrs_bytes_app, !len_app. rewrite (attrs_bytes_one (ATTR_USERNAME, username)), len_attr_bytes.
    pose proof (padding_bound (len username)). cbn [snd]. match goal with |- len ?a + (len ?b + _) + _ < _ =>
      assert (len a = 20) as -> by (by destruct role); assert (len b <= 4) by (by destruct use_candidate) end. lia.
  - exists raw, (mkStunMessage BINDING_REQUEST tid (attrs ++ tail)). split.
    { rewrite <- Hraw. unfold binding_request_ice, attrs, check_attrs. by destruct role, use_candidate. }
    split; [done|]. split; [done|].
    destruct tail as [|[t1 v1] [|[t2 v2] [|]]]; try discriminate Htail. injection Htail as -> ->.
    pose proof (be_enc_range 4 priority Hp) as Hpr. unfold attrs, check_attrs. constructor.
    + done.
    + done.
    + by destruct role, use_candidate.
    + destruct role, use_candidate; exact Hpr.
    + destruct role, use_candidate; cbn [role_tie] in Ht; try done; by apply (be_enc_range 8).
    + destruct role, use_candidate; cbn [role_tie] in Ht; try done; by apply (be_enc_range 8).
    + by destruct role, use_candidate.
Qed.

(** The role-conflict answer. *)
Lemma error_response_view tid code reason key :
  len tid = 12 -> 0 <= code < 25600 -> bytes_ok reason -> len reason <= 1024 ->
  exists raw m, binding_error_response tid code reason (Some key) = Ok raw /\ parse raw = Ok m /\
    verify_message_integrity raw key = Ok true /\ sm_message_type m = BINDING_ERROR /\ sm_transaction_id m = tid /\
    error_code m = Some code.
Proof.
  intros Hl Hc Hr Hlr. pose proof (len_nonneg reason). set (attrs := [(ATTR_ERROR_CODE, error_code_value code reason)]).
  assert (bytes_ok (error_code_value code reason) /\ len (error_code_value code reason) = 4 + len reason) as [Hb Hlv].
  { unfold error_code_value. split; [|by rewrite len_app]. apply bytes_ok_app. split; [|done]. unfold bytes_ok, wrap. forall_list; unfold is_byte; try lia;
      apply Z.mod_pos_bound; lia. }
  destruct (built_message BINDING_ERROR tid attrs key) as (raw & tail & Hraw & Hparse & Hver & Htail).
  - vm_compute. split; congruence.
  - done.
  - unfold attrs. forall_list. split_and!; [vm_compute; split; congruence|done|]. unfold fits. cbn [snd]. lia.
  - unfold attrs. forall_list. vm_compute. congruence.
  - unfold attrs. rewrite attrs_bytes_one, len_attr_bytes. cbn [snd]. pose proof (padding_bound (len (error_code_value code reason))). lia.
  - eexists raw, _. split; [exact Hraw|]. split; [exact Hparse|]. split; [done|]. split; [done|]. split; [done|].
    change (error_code _) with (Some (wrap 8 (code / 100) * 100 + wrap 8 (code mod 100))). f_equal. unfold wrap.
    rewrite (Z.mod_small (code / 100)), (Z.mod_small (code mod 100)); Z.to_euclidean_division_equations; lia.
Qed.
