(* ===== verification/Net.v ===== *)
(** * Addresses and numbers as text

    How the Rust standard library displays IP and socket addresses ([Display] of
    [Ipv4Addr], [Ipv6Addr] and [SocketAddr]) and parses IP addresses and unsigned
    integers ([FromStr]), for the components that put them in strings.  Text is its
    UTF-8 bytes.  A parser returns its value and the text left, or [None] with the
    text untouched.  Socket addresses carry no IPv6 scope. *)

From S2P Require Import Prelude Bencode Stun.
From stdpp Require Import base list numbers option.
From Stdlib Require Import Lia ZArith.

Open Scope Z_scope.

Definition ipv4_octets (ip : Z) : bytes := be_enc 4 ip.

(** [a.b.c.d] *)
Definition ipv4_to_string (ip : Z) : bytes :=
  match ipv4_octets ip with
  | [a; b; c; d] => digits a ++ [46] ++ digits b ++ [46] ++ digits c ++ [46] ++ digits d
  | _ => []
  end.

Definition hex_digit (n : Z) : Z := if n <? 10 then 48 + n else 87 + n.

(** [{:x}] of a 16-bit segment: no leading zeros. *)
Definition hex16 (n : Z) : bytes :=
  if n <? 16 then [hex_digit n]
  else if n <? 256 then [hex_digit (n / 16); hex_digit (n mod 16)]
  else if n <? 4096 then [hex_digit (n / 256); hex_digit (n / 16 mod 16); hex_digit (n mod 16)]
  else [hex_digit (n / 4096); hex_digit (n / 256 mod 16); hex_digit (n / 16 mod 16); hex_digit (n mod 16)].

Fixpoint segments (octets : bytes) : list Z :=
  match octets with high :: low :: rest => be_dec [high; low] :: segments rest | _ => [] end.

(** The longest run of zero segments, the first among equals: (start, length). *)
Fixpoint zero_span (i : Z) (segs : list Z) (current longest : Z * Z) : Z * Z :=
  match segs with
  | [] => longest
  | segment :: segs =>
      if segment =? 0 then
        let current := (if snd current =? 0 then i else fst current, snd current + 1) in
        zero_span (i + 1) segs current (if snd longest <? snd current then current else longest)
      else zero_span (i + 1) segs (0, 0) longest
  end.

Fixpoint fmt_subslice (chunk : list Z) : bytes :=
  match chunk with
  | [] => []
  | [segment] => hex16 segment
  | segment :: chunk => hex16 segment ++ [58] ++ fmt_subslice chunk
  end.

Definition to_ipv4_mapped (octets : bytes) : option Z :=
  if bool_decide (take 12 octets = replicate 10 0 ++ [0xFF; 0xFF]) then Some (be_dec (drop 12 octets)) else None.

Definition ipv6_to_string (octets : bytes) : bytes :=
  match to_ipv4_mapped octets with
  | Some ip => [58; 58; 102; 102; 102; 102; 58] ++ ipv4_to_string ip
  | None =>
      let segs := segments octets in
      let '(start, length_) := zero_span 0 segs (0, 0) (0, 0) in
      if 1 <? length_ then fmt_subslice (sub segs 0 start) ++ [58; 58] ++ fmt_subslice (sub segs (start + length_) 8)
      else fmt_subslice segs
  end.

Definition ip_to_string (ip : IpAddr) : bytes :=
  match ip with V4 ip => ipv4_to_string ip | V6 octets => ipv6_to_string octets end.

Definition socket_to_string (a : SocketAddr) : bytes :=
  match sa_ip a with
  | V4 ip => ipv4_to_string ip ++ [58] ++ digits (sa_port a)
  | V6 octets => [91] ++ ipv6_to_string octets ++ [93; 58] ++ digits (sa_port a)
  end.

(** ** Parsing *)

(** [str::parse] of an unsigned integer: an optional plus sign, then digits. *)
Definition uint_from_str (width : Z) (text : bytes) : option Z :=
  let ds := match text with 43 :: ds => ds | _ => text end in
  match ds with
  | [] => None
  | _ => if forallb is_digit ds && (digits_value 0 ds <? 2 ^ width) then Some (digits_value 0 ds) else None
  end.

(** [char::to_digit] *)
Definition to_digit (radix b : Z) : option Z :=
  let d := if is_digit b then b - 48
           else if (97 <=? b) && (b <=? 122) then b - 87
           else if (65 <=? b) && (b <=? 90) then b - 55 else radix in
  if d <? radix then Some d else None.

Definition read_given_char (c : Z) (text : bytes) : option bytes :=
  match text with b :: text => if b =? c then Some text else None | [] => None end.

(** The digits of [read_number]: value, how many, and the text left. *)
Fixpoint read_digits (radix max_digits limit : Z) (result count : Z) (text : bytes) : option (Z * Z * bytes) :=
  match text with
  | [] => Some (result, count, [])
  | b :: rest =>
      match to_digit radix b with
      | None => Some (result, count, text)
      | Some digit =>
          let result := result * radix + digit in
          if (limit <? result) || (max_digits <? count + 1) then None
          else read_digits radix max_digits limit result (count + 1) rest
      end
  end.

Definition read_number (radix max_digits limit : Z) (allow_zero_prefix : bool) (text : bytes) : option (Z * bytes) :=
  '(result, count, rest) ← read_digits radix max_digits limit 0 0 text;
  if count =? 0 then None
  else if negb allow_zero_prefix && match text with 48 :: _ => true | _ => false end && (1 <? count) then None
  else Some (result, rest).

(** [read_separator]: the separator before every item but the first. *)
Definition read_separator {A} (sep : Z) (index : nat) (inner : bytes -> option (A * bytes)) (text : bytes) : option (A * bytes) :=
  match index with O => inner text | S _ => text ← read_given_char sep text; inner text end.

Definition read_octet (text : bytes) : option (Z * bytes) := read_number 10 3 255 false text.

Definition read_ipv4_addr (text : bytes) : option (Z * bytes) :=
  '(a, text) ← read_separator 46 0 read_octet text;
  '(b, text) ← read_separator 46 1 read_octet text;
  '(c, text) ← read_separator 46 2 read_octet text;
  '(d, text) ← read_separator 46 3 read_octet text;
  Some (be_dec [a; b; c; d], text).

Definition read_group (text : bytes) : option (Z * bytes) := read_number 16 4 65535 true text.

(** [read_groups] from index [i] with [left] slots to go: the groups read, whether
    they end in an IPv4 address, and the text left. *)
Fixpoint read_groups (left i : nat) (text : bytes) : list Z * bool * bytes :=
  match left with
  | O => ([], false, text)
  | S left' =>
      match match left' with O => None | S _ => read_separator 58 i read_ipv4_addr text end with
      | Some (ip, text) => ([ip / 65536; ip mod 65536], true, text)
      | None =>
          match read_separator 58 i read_group text with
          | Some (group, text) => let '(groups, v4, text) := read_groups left' (S i) text in (group :: groups, v4, text)
          | None => ([], false, text)
          end
      end
  end.

Definition segments_to_octets (segs : list Z) : bytes := concat (map (be_enc 2) segs).

Definition read_ipv6_addr (text : bytes) : option (bytes * bytes) :=
  let '(head, head_ipv4, text) := read_groups 8 0 text in
  if (length head =? 8)%nat then Some (segments_to_octets head, text) else
  if head_ipv4 then None else
  text ← read_given_char 58 text;
  text ← read_given_char 58 text;
  let limit := (8 - (length head + 1))%nat in
  let '(tail, _, text) := read_groups limit 0 text in
  Some (segments_to_octets (head ++ replicate (8 - length head - length tail) 0 ++ tail), text).

Definition read_ip_addr (text : bytes) : option (IpAddr * bytes) :=
  match read_ipv4_addr text with
  | Some (ip, text) => Some (V4 ip, text)
  | None => '(octets, text) ← read_ipv6_addr text; Some (V6 octets, text)
  end.

(** [IpAddr::from_str]: the whole text. *)
Definition ip_from_str (text : bytes) : option IpAddr :=
  match read_ip_addr text with Some (ip, []) => Some ip | _ => None end.

(** 203.0.113.7:30000, ::1, 2001:db8::8:800:200c:417a, ::ffff:192.0.2.1 *)
Example display_v4 :
  socket_to_string (mkSocketAddr (V4 0xCB007107) 30000) =
  [50; 48; 51; 46; 48; 46; 49; 49; 51; 46; 55; 58; 51; 48; 48; 48; 48].
Proof. vm_compute. reflexivity. Qed.
Example display_loopback : ipv6_to_string (replicate 15 0 ++ [1]) = [58; 58; 49].
Proof. vm_compute. reflexivity. Qed.
Example display_v6 :
  ipv6_to_string [0x20; 0x01; 0x0d; 0xb8; 0; 0; 0; 0; 0; 8; 8; 0; 0x20; 0x0c; 0x41; 0x7a] =
  [50; 48; 48; 49; 58; 100; 98; 56; 58; 58; 56; 58; 56; 48; 48; 58; 50; 48; 48; 99; 58; 52; 49; 55; 97].
Proof. vm_compute. reflexivity. Qed.
Example display_mapped :
  ipv6_to_string (replicate 10 0 ++ [0xFF; 0xFF; 192; 0; 2; 1]) =
  [58; 58; 102; 102; 102; 102; 58; 49; 57; 50; 46; 48; 46; 50; 46; 49].
Proof. vm_compute. reflexivity. Qed.

(** * Proofs *)

(** ** Numbers *)

Lemma uint_digits width n : 0 <= n < 2 ^ width -> uint_from_str width (digits n) = Some n.
Proof.
  intros Hn. destruct (digits_spec n) as (Hc & Hv & _); [lia|]. destruct (canonical_first _ Hc) as (b & r & E & Hb & _).
  destruct Hc as (_ & Hall & _). unfold uint_from_str. rewrite E in *.
  assert (match b :: r with 43 :: ds => ds | _ => b :: r end = b :: r) as ->.
  { repeat case_match; done. }
  rewrite Hall, Hv, (proj2 (Z.ltb_lt _ _)) by lia. done.
Qed.

Lemma uint_range width text n : uint_from_str width text = Some n -> 0 <= n < 2 ^ width.
Proof.
  unfold uint_from_str. set (ds := match text with 43 :: ds => ds | _ => text end). destruct ds as [|b r] eqn:E; [done|]. rewrite <- E.
  destruct (forallb is_digit ds) eqn:Hd; [|done]. cbn [andb]. destruct (Z.ltb_spec (digits_value 0 ds) (2 ^ width)); [|done].
  intros [= <-]. split; [|done]. clear -Hd. assert (forall acc, 0 <= acc -> 0 <= digits_value acc ds) as H; [|by apply H].
  induction ds as [|b ds IH]; intros acc Ha; [done|]. cbn in *. apply andb_true_iff in Hd as [Hb Hd]. unfold is_digit in Hb. apply IH; [done|lia].
Qed.

Definition digits_in (radix : Z) (ds : bytes) : Prop := Forall (fun b => is_Some (to_digit radix b)) ds.
Definition radix_value (radix : Z) (acc : Z) (ds : bytes) : Z :=
  foldl (fun a b => a * radix + default 0 (to_digit radix b)) acc ds.

(** The text after a number does not continue it. *)
Definition ends_number (radix : Z) (rest : bytes) : Prop := match rest with [] => True | b :: _ => to_digit radix b = None end.

Lemma to_digit_bound radix b d : to_digit radix b = Some d -> 0 <= d < radix.
Proof.
  unfold to_digit, is_digit. destruct (Z.ltb_spec (if (48 <=? b) && (b <=? 57) then b - 48
    else if (97 <=? b) && (b <=? 122) then b - 87 else if (65 <=? b) && (b <=? 90) then b - 55 else radix) radix); [|done].
  intros [= <-]. split; [|done]. destruct (Z.leb_spec 48 b), (Z.leb_spec b 57), (Z.leb_spec 97 b), (Z.leb_spec b 122), (Z.leb_spec 65 b), (Z.leb_spec b 90);
    cbn [andb] in *; lia.
Qed.

Lemma radix_value_mono radix ds : forall acc, 1 <= radix -> 0 <= acc -> acc <= radix_value radix acc ds.
Proof.
  induction ds as [|b ds IH]; intros acc Hr Ha; cbn; [lia|].
  assert (0 <= default 0 (to_digit radix b)) by (destruct (to_digit radix b) eqn:E; [apply to_digit_bound in E; cbn; lia|done]).
  etransitivity; [|apply IH]; [nia|done|nia].
Qed.

Lemma read_digits_app radix max limit ds : forall acc count rest, 1 <= radix -> 0 <= acc -> digits_in radix ds -> ends_number radix rest ->
  count + len ds <= max -> radix_value radix acc ds <= limit ->
  read_digits radix max limit acc count (ds ++ rest) = Some (radix_value radix acc ds, count + len ds, rest).
Proof.
  induction ds as [|b ds IH]; intros acc count rest Hr Ha Hd He Hm Hv; cbn [app].
  - change (len []) with 0. rewrite Z.add_0_r. destruct rest as [|b rest]; [done|]. cbn [read_digits]. by rewrite He.
  - apply Forall_cons_1 in Hd as [[d Hb] Hd]. cbn [read_digits]. rewrite Hb. cbv zeta. rewrite len_cons in Hm. pose proof (len_nonneg ds).
    pose proof (to_digit_bound _ _ _ Hb).
    assert (radix_value radix acc (b :: ds) = radix_value radix (acc * radix + d) ds) as E by (unfold radix_value; cbn; by rewrite Hb).
    rewrite E in Hv |- *. pose proof (radix_value_mono radix ds (acc * radix + d) Hr ltac:(nia)).
    rewrite (proj2 (Z.ltb_ge limit _)), (proj2 (Z.ltb_ge max _)) by lia. cbn [orb].
    rewrite IH by (done || lia || nia). rewrite len_cons. do 2 f_equal. f_equal. lia.
Qed.

Lemma read_number_app radix max limit zero ds rest : 1 <= radix -> digits_in radix ds -> ends_number radix rest ->
  0 < len ds <= max -> radix_value radix 0 ds <= limit -> (zero = true \/ match ds with 48 :: _ :: _ => False | _ => True end) ->
  read_number radix max limit zero (ds ++ rest) = Some (radix_value radix 0 ds, rest).
Proof.
  intros Hr Hd He Hl Hv Hz. unfold read_number. rewrite read_digits_app by (done || lia). cbn. rewrite (proj2 (Z.eqb_neq _ _)) by lia.
  destruct Hz as [->|Hz]; [done|]. destruct zero; [done|]. cbn [negb andb]. destruct ds as [|b [|b2 ds]]; [change (len []) with 0 in Hl; lia| |].
  - rewrite andb_false_r. done.
  - cbn [app]. assert (match b :: b2 :: ds ++ rest with 48 :: _ => true | _ => false end = false) as ->; [|done].
    repeat case_match; try done; by subst.
Qed.

Lemma decimal_value ds : forall acc, forallb is_digit ds = true -> radix_value 10 acc ds = digits_value acc ds.
Proof.
  induction ds as [|b ds IH]; intros acc Hd; [done|]. cbn in Hd. apply andb_true_iff in Hd as [Hb Hd]. cbn. unfold to_digit. rewrite Hb.
  unfold is_digit in Hb. rewrite (proj2 (Z.ltb_lt _ _)) by lia. by apply IH.
Qed.

Lemma decimal_digits ds : forallb is_digit ds = true -> digits_in 10 ds.
Proof.
  intros Hd. apply Forall_forall. intros b Hb. rewrite forallb_forall in Hd. specialize (Hd b Hb). unfold to_digit. rewrite Hd. unfold is_digit in Hd.
  rewrite (proj2 (Z.ltb_lt _ _)) by lia. by eexists.
Qed.

Lemma octet_len n : 0 <= n < 256 -> 0 < len (digits n) <= 3.
Proof.
  intros Hn. pose proof (below_forall (fun n => (0 <? len (digits n)) && (len (digits n) <=? 3)) 256 n ltac:(vm_compute; reflexivity) Hn) as H.
  cbv beta in H. lia.
Qed.

Lemma read_octet_app n rest : 0 <= n < 256 -> ends_number 10 rest -> read_octet (digits n ++ rest) = Some (n, rest).
Proof.
  intros Hn He. destruct (digits_spec n) as ((Hne & Hall & Hz) & Hv & _); [lia|]. unfold read_octet.
  rewrite read_number_app; [|lia|by apply decimal_digits|done|by apply octet_len|rewrite decimal_value by done; lia|by right].
  by rewrite decimal_value, Hv by done.
Qed.

Lemma read_ipv4_app ip rest : fits 32 ip -> ends_number 10 rest -> read_ipv4_addr (ipv4_to_string ip ++ rest) = Some (ip, rest).
Proof.
  intros Hip He. unfold ipv4_to_string, ipv4_octets. pose proof (be_enc_bytes 4 ip) as Hb. pose proof (be_enc_length 4 ip) as Hl.
  pose proof (be_dec_enc_fits 4 ip Hip) as Hd. destruct (be_enc 4 ip) as [|a [|b [|c [|d [|]]]]]; try discriminate Hl.
  apply bytes_ok_cons in Hb as [Ha Hb]. apply bytes_ok_cons in Hb as [Hbb Hb]. apply bytes_ok_cons in Hb as [Hc Hb]. apply bytes_ok_cons in Hb as [Hdd _].
  unfold read_ipv4_addr, read_separator. rewrite <- !app_assoc. rewrite read_octet_app by done. cbn [app read_given_char mbind option_bind Z.eqb Pos.eqb].
  rewrite read_octet_app by done. cbn [app read_given_char mbind option_bind Z.eqb Pos.eqb]. rewrite read_octet_app by done.
  cbn [app read_given_char mbind option_bind Z.eqb Pos.eqb]. rewrite read_octet_app by done. cbn [mbind option_bind]. by rewrite Hd.
Qed.

(** ** Groups of an IPv6 address *)

Lemma hex_digit_value k : 0 <= k < 16 -> to_digit 16 (hex_digit k) = Some k /\ hex_digit k <> 46.
Proof.
  intros Hk. pose proof (below_forall (fun k => match to_digit 16 (hex_digit k) with Some d => d =? k | None => false end && negb (hex_digit k =? 46)) 16 k
    ltac:(vm_compute; reflexivity) Hk) as H. cbv beta in H. apply andb_true_iff in H as [H1 H2]. destruct (to_digit 16 (hex_digit k)) as [d|]; [|done].
  apply Z.eqb_eq in H1 as ->. split; [done|lia].
Qed.

Lemma hex16_spec n : fits 16 n -> digits_in 16 (hex16 n) /\ 0 < len (hex16 n) <= 4 /\ radix_value 16 0 (hex16 n) = n /\ 46 ∉ hex16 n.
Proof.
  unfold fits. intros Hn. assert (forall k, is_Some (to_digit 16 (hex_digit (k mod 16)))) as Hd.
  { intros k. destruct (hex_digit_value (k mod 16)) as [E _]; [apply Z.mod_pos_bound; lia|]. rewrite E. by eexists. }
  assert (forall k, 0 <= k < 16 -> is_Some (to_digit 16 (hex_digit k))) as Hd'.
  { intros k Hk. destruct (hex_digit_value k Hk) as [E _]. rewrite E. by eexists. }
  assert (forall k, 0 <= k < 16 -> default 0 (to_digit 16 (hex_digit k)) = k) as Hv.
  { intros k Hk. by destruct (hex_digit_value k Hk) as [-> _]. }
  assert (forall k, 0 <= k < 16 -> 46 <> hex_digit k) as H46. { intros k Hk E. by destruct (hex_digit_value k Hk). }
  unfold hex16, digits_in, radix_value.
  destruct (Z.ltb_spec n 16), (Z.ltb_spec n 256), (Z.ltb_spec n 4096); try lia; cbn [foldl];
    rewrite ?Hv by (Z.to_euclidean_division_equations; lia);
    (split_and!; [forall_list; apply Hd'; Z.to_euclidean_division_equations; lia|done|done|Z.to_euclidean_division_equations; lia|]);
    rewrite ?not_elem_of_cons; split_and!; try apply not_elem_of_nil; apply H46; Z.to_euclidean_division_equations; lia.
Qed.

(** What may follow a group: nothing, or a colon. *)
Definition after_group (rest : bytes) : Prop := rest = [] \/ exists r, rest = 58 :: r.

Lemma after_group_ends radix rest : radix = 10 \/ radix = 16 -> after_group rest -> ends_number radix rest.
Proof. by intros [-> | ->] [-> | [r ->]]. Qed.

Lemma read_group_app n rest : fits 16 n -> after_group rest -> read_group (hex16 n ++ rest) = Some (n, rest).
Proof.
  intros Hn Hr. destruct (hex16_spec n Hn) as (H1 & H2 & H3 & _). unfold read_group.
  rewrite read_number_app; [by rewrite H3|lia|done|apply after_group_ends; [by right|done]|done|unfold fits in Hn; lia|by left].
Qed.

Lemma read_digits_prefix radix max limit text : forall acc count v n rest,
  read_digits radix max limit acc count text = Some (v, n, rest) -> exists ds, text = ds ++ rest /\ digits_in radix ds /\ n = count + len ds.
Proof.
  induction text as [|b text IH]; intros acc count v n rest; cbn [read_digits].
  - intros [= <- <- <-]. exists []. split; [done|]. split; [constructor|]. change (len []) with 0. lia.
  - destruct (to_digit radix b) eqn:Hb.
    + cbv zeta. destruct (_ || _); [done|]. intros (ds & -> & Hd & Hn)%IH. exists (b :: ds). split; [done|]. rewrite len_cons.
      split; [constructor; [by eexists|done]|lia].
    + intros [= <- <- <-]. exists []. split; [done|]. split; [constructor|]. change (len []) with 0. lia.
Qed.

(** A group is not the start of an IPv4 address. *)
Lemma no_ipv4 text rest : 46 ∉ text -> after_group rest -> read_ipv4_addr (text ++ rest) = None.
Proof.
  intros Ht Hr. unfold read_ipv4_addr, read_separator. destruct (read_octet (text ++ rest)) as [[v r]|] eqn:E; [|done]. cbn [mbind option_bind].
  assert (read_given_char 46 r = None) as ->; [|done]. unfold read_octet, read_number in E.
  destruct (read_digits 10 3 255 0 0 (text ++ rest)) as [[[v' n] r']|] eqn:Ed; [|done]. cbn in E.
  destruct (n =? 0); [done|]. destruct (_ && _); [done|]. injection E as -> ->.
  destruct (read_digits_prefix _ _ _ _ _ _ _ _ _ Ed) as (ds & Eq & Hd & _). destruct r as [|c r]; [done|]. cbn.
  destruct (Z.eqb_spec c 46) as [->|]; [|done]. exfalso.
  assert (46 ∈ text ++ rest) as Hin by (rewrite Eq; apply elem_of_app; right; by left).
  destruct Hr as [-> | [r' ->]]; [by rewrite app_nil_r in Hin|]. clear Hin. apply app_eq_app in Eq as [l [[E1 E2]|[E1 E2]]].
  - destruct l as [|x l]; [discriminate E2|]. injection E2 as <- E2. apply Ht. rewrite E1. apply elem_of_app. right. by left.
  - destruct l as [|x l]; [discriminate E2|]. injection E2 as <- E2. rewrite E1 in Hd. apply Forall_app in Hd as [_ Hd].
    apply Forall_cons_1 in Hd as [[d Hd] _]. discriminate Hd.
Qed.

Lemma no_group rest : rest = [] \/ (exists r, rest = 58 :: r) -> read_group rest = None /\ read_ipv4_addr rest = None.
Proof. by intros [-> | [r ->]]. Qed.

(** Groups as the address displays them, read back from index [i]. *)
Definition groups_from (i : nat) (segs : list Z) : bytes :=
  match i, segs with O, _ => fmt_subslice segs | _, [] => [] | _, _ => 58 :: fmt_subslice segs end.

Lemma fmt_cons n segs : fmt_subslice (n :: segs) = hex16 n ++ groups_from 1 segs.
Proof. destruct segs; cbn [fmt_subslice groups_from]; [by rewrite app_nil_r|done]. Qed.

Definition stops (rest : bytes) : Prop := rest = [] \/ exists r, rest = 58 :: 58 :: r.

Lemma stops_after i segs rest : stops rest -> after_group (groups_from (S i) segs ++ rest).
Proof. intros Hs. destruct segs; cbn; [|right; by eexists]. destruct Hs as [-> | [r ->]]; [by left|right; by eexists]. Qed.

Lemma read_groups_fmt segs : forall left i rest, Forall (fits 16) segs -> stops rest -> (length segs <= left)%nat ->
  read_groups left i (groups_from i segs ++ rest) = (segs, false, rest).
Proof.
  induction segs as [|n segs IH]; intros left i rest Hf Hs Hl.
  - destruct left as [|left]; [by destruct i|]. cbn [read_groups].
    assert (forall A (inner : bytes -> option (A * bytes)), (forall r, r = [] \/ (exists r', r = 58 :: r') -> inner r = None) ->
      read_separator 58 i inner (groups_from i [] ++ rest) = None) as Hno.
    { intros A inner Hi. destruct i; cbn; destruct Hs as [-> | [r ->]]; cbn; try done; try (apply Hi; eauto). }
    rewrite !Hno by (intros r Hr; by apply no_group). destruct left; by destruct i.
  - apply Forall_cons_1 in Hf as [Hn Hf]. destruct left as [|left]; [cbn in Hl; lia|]. destruct (hex16_spec n Hn) as (_ & _ & _ & H46).
    assert (forall A (inner : bytes -> option (A * bytes)), read_separator 58 i inner (groups_from i (n :: segs) ++ rest) =
      inner (hex16 n ++ groups_from 1 segs ++ rest)) as Hsep.
    { intros A inner. destruct i; cbn [groups_from read_separator app]; rewrite fmt_cons, <- app_assoc; done. }
    cbn [read_groups]. rewrite !Hsep, no_ipv4 by (done || by apply stops_after). rewrite read_group_app by (done || by apply stops_after).
    assert (groups_from 1 segs = groups_from (S i) segs) as -> by (by destruct segs).
    rewrite IH by (done || (cbn in Hl; lia)). by destruct left.
Qed.

(** ** The compressed run *)

(** A run of zeros of the list: its start and length. *)
Definition zero_run (segs : list Z) (span : Z * Z) : Prop :=
  0 <= span.1 /\ 0 <= span.2 /\ span.1 + span.2 <= len segs /\ sub segs span.1 (span.1 + span.2) = replicate (Z.to_nat span.2) 0.

Lemma zero_run_app pre post span : zero_run pre span -> zero_run (pre ++ post) span.
Proof.
  intros (H1 & H2 & H3 & H4). pose proof (len_nonneg post). unfold zero_run. rewrite len_app. split_and!; [done|done|lia|].
  by rewrite sub_app_l by lia.
Qed.

Lemma zero_span_run post : forall pre current longest,
  zero_run pre longest -> (current = (0, 0) \/ (zero_run pre current /\ 0 < current.2 /\ current.1 + current.2 = len pre)) ->
  zero_run (pre ++ post) (zero_span (len pre) post current longest).
Proof.
  induction post as [|s post IH]; intros pre [cs cl] longest Hl Hc; cbn [zero_span].
  - by rewrite app_nil_r.
  - assert (pre ++ s :: post = (pre ++ [s]) ++ post) as -> by (by rewrite <- app_assoc).
    assert (len (pre ++ [s]) = len pre + 1) as Hlen by (by rewrite len_app).
    destruct (Z.eqb_spec s 0) as [->|Hs].
    + cbn [fst snd]. set (cur := (if cl =? 0 then len pre else cs, cl + 1)).
      assert (zero_run (pre ++ [0]) cur /\ 0 < cur.2 /\ cur.1 + cur.2 = len (pre ++ [0])) as Hcur.
      { pose proof (len_nonneg pre). rewrite Hlen. destruct Hc as [E|(Hr & Hp & Hsum)].
        - injection E as -> ->. unfold cur. cbn [fst snd Z.eqb]. split_and!; try (cbn; lia). unfold zero_run. cbn [fst snd]. rewrite Hlen. split_and!; try lia.
          change (0 + 1) with 1. by rewrite sub_app_end.
        - cbn [fst snd] in Hp, Hsum. unfold cur. rewrite (proj2 (Z.eqb_neq cl 0)) by lia. cbn [fst snd]. split_and!; try lia.
          destruct Hr as (G1 & G2 & G3 & G4). cbn [fst snd] in *. unfold zero_run. cbn [fst snd]. rewrite Hlen. split_and!; try lia.
          rewrite (sub_split _ cs (cs + cl) (cs + (cl + 1))) by lia. rewrite sub_app_l by lia. rewrite G4.
          replace (cs + cl) with (len pre) by lia. replace (cs + (cl + 1)) with (len pre + 1) by lia. rewrite sub_app_end by done.
          rewrite Z2Nat.inj_add by lia. change (Z.to_nat 1) with 1%nat. rewrite replicate_add. done. }
      rewrite <- Hlen. apply IH; [|by right]. destruct (_ <? _); [by apply Hcur|by apply zero_run_app].
    + rewrite <- Hlen. apply IH; [by apply zero_run_app|by left].
Qed.

Lemma zero_span_ok segs : zero_run segs (zero_span 0 segs (0, 0) (0, 0)).
Proof.
  pose proof (zero_span_run segs [] (0, 0) (0, 0)) as H. cbn [app] in H. change (len []) with 0 in H. apply H; [|by left].
  unfold zero_run. change (len []) with 0. cbn [fst snd]. split_and!; done.
Qed.

(** ** Addresses *)

Lemma segments_octets o : len o = 16 -> bytes_ok o ->
  segments_to_octets (segments o) = o /\ length (segments o) = 8%nat /\ Forall (fits 16) (segments o).
Proof.
  intros Hl Hb. assert (forall n o, length o = (2 * n)%nat -> bytes_ok o ->
    segments_to_octets (segments o) = o /\ length (segments o) = n /\ Forall (fits 16) (segments o)) as H; [|apply (H 8%nat o); [unfold len in Hl; lia|done]].
  clear. induction n as [|n IH]; intros o Hl Hb; [by destruct o|]. destruct o as [|a [|b o]]; try (cbn in Hl; lia).
  apply bytes_ok_cons in Hb as [Ha Hb]. apply bytes_ok_cons in Hb as [Hbb Hb]. destruct (IH o) as (H1 & H2 & H3); [cbn in Hl; lia|done|].
  cbn [segments]. split; [|split; [cbn; lia|]].
  - change (segments_to_octets (be_dec [a; b] :: segments o)) with (be_enc 2 (be_dec [a; b]) ++ segments_to_octets (segments o)). rewrite H1.
    assert (bytes_ok [a; b]) as Hab by (unfold bytes_ok; by forall_list). pose proof (be_enc_dec [a; b] Hab) as E. change (length [a; b]) with 2%nat in E. by rewrite E.
  - constructor; [|done]. assert (bytes_ok [a; b]) as Hab by (unfold bytes_ok; by forall_list). exact (be_dec_bound [a; b] Hab).
Qed.

Lemma groups_from_0 segs : groups_from 0 segs = fmt_subslice segs.
Proof. done. Qed.

(** The text of an IPv6 address starts with a group or a colon. *)
Lemma fmt_no_ipv4 segs rest : Forall (fits 16) segs -> stops rest -> read_ipv4_addr (fmt_subslice segs ++ rest) = None.
Proof.
  intros Hf Hs. destruct segs as [|n segs].
  - apply no_group. cbn. destruct Hs as [-> | [r ->]]; eauto.
  - apply Forall_cons_1 in Hf as [Hn _]. destruct (hex16_spec n Hn) as (_ & _ & _ & H46). rewrite fmt_cons, <- app_assoc.
    apply no_ipv4; [done|by apply stops_after].
Qed.

Lemma read_ipv6_app o : len o = 16 -> bytes_ok o ->
  read_ipv4_addr (ipv6_to_string o) = None /\ read_ipv6_addr (ipv6_to_string o) = Some (o, []).
Proof.
  intros Hl Hb. destruct (segments_octets o Hl Hb) as (Hso & Hls & Hfs). unfold ipv6_to_string, to_ipv4_mapped. case_bool_decide as Hm.
  - split; [done|]. set (ip := be_dec (drop 12 o)).
    assert (len (drop 12 o) = 4) as Hl4 by (rewrite len_drop; lia).
    assert (bytes_ok (drop 12 o)) as Hb4 by (by apply Forall_drop).
    assert (fits 32 ip) as Hip. { pose proof (be_dec_bound _ Hb4) as Hx. rewrite Hl4 in Hx. exact Hx. }
    unfold read_ipv6_addr. cbn [app].
    assert (read_groups 8 0 (58 :: 58 :: 102 :: 102 :: 102 :: 102 :: 58 :: ipv4_to_string ip) = ([], false, 58 :: 58 :: 102 :: 102 :: 102 :: 102 :: 58 :: ipv4_to_string ip)) as ->.
    { apply (read_groups_fmt [] 8 0); [constructor|right; by eexists|cbn; lia]. }
    cbn [length Nat.eqb read_given_char Z.eqb Pos.eqb mbind option_bind Nat.sub Nat.add].
    assert (read_groups 7 0 (102 :: 102 :: 102 :: 102 :: 58 :: ipv4_to_string ip) = ([65535; ip / 65536; ip mod 65536], true, [])) as ->.
    { change (102 :: 102 :: 102 :: 102 :: 58 :: ipv4_to_string ip) with (hex16 65535 ++ 58 :: ipv4_to_string ip). cbn [read_groups read_separator].
      assert (fits 16 65535) as Hff by (vm_compute; split; congruence). destruct (hex16_spec _ Hff) as (_ & _ & _ & H46).
      assert (after_group (58 :: ipv4_to_string ip)) as Hag by (right; by eexists). rewrite (no_ipv4 _ _ H46 Hag), (read_group_app _ _ Hff Hag).
      change (read_given_char 58 (58 :: ipv4_to_string ip)) with (Some (ipv4_to_string ip)). cbn [mbind option_bind].
      pose proof (read_ipv4_app ip [] Hip I) as Hr. rewrite app_nil_r in Hr. by rewrite Hr. }
    cbn [app length Nat.sub replicate]. f_equal. f_equal. rewrite <- (take_drop 12 o) at 1. rewrite Hm.
    change (segments_to_octets [0; 0; 0; 0; 0; 65535; ip / 65536; ip mod 65536]) with
      ((replicate 10 0 ++ [255; 255]) ++ be_enc 2 (ip / 65536) ++ be_enc 2 (ip mod 65536) ++ []).
    f_equal. rewrite app_nil_r. rewrite <- (be_enc_dec (drop 12 o)) by done. assert (length (drop 12 o) = 4%nat) as -> by (unfold len in Hl4; lia). fold ip.
    change (be_enc 4 ip) with (be_enc (2 + 2) ip). rewrite be_enc_split. f_equal.
    pose proof (be_enc_add_high 2 2 (ip mod 65536) (ip / 65536) ltac:(lia)) as E. change (256 ^ 2) with 65536 in E. rewrite <- E. f_equal.
    pose proof (Z.div_mod ip 65536 ltac:(lia)). lia.
  - pose proof (zero_span_ok (segments o)) as Hz. destruct (zero_span 0 (segments o) (0, 0) (0, 0)) as [st ln].
    destruct Hz as (Z1 & Z2 & Z3 & Z4). cbn [fst snd] in *. assert (len (segments o) = 8) as Hl8 by (unfold len; lia). destruct (Z.ltb_spec 1 ln).
    + set (head := sub (segments o) 0 st). set (tail := sub (segments o) (st + ln) 8).
      assert (length head = Z.to_nat st) as Hlh by (pose proof (len_sub (segments o) 0 st); unfold len, head in *; lia).
      assert (length tail = Z.to_nat (8 - st - ln)) as Hlt by (pose proof (len_sub (segments o) (st + ln) 8); unfold len, tail in *; lia).
      assert (Forall (fits 16) head) as Hfh by (by apply Forall_take, Forall_drop). assert (Forall (fits 16) tail) as Hft by (by apply Forall_take, Forall_drop).
      assert (head ++ replicate (8 - length head - length tail) 0 ++ tail = segments o) as Hback.
      { rewrite <- (sub_full (segments o)) at 1. rewrite Hl8. rewrite (sub_split _ 0 st 8), (sub_split _ st (st + ln) 8) by lia. rewrite Z4.
        by replace (8 - length head - length tail)%nat with (Z.to_nat ln) by lia. }
      assert (stops ([58; 58] ++ fmt_subslice tail)) as Hst by (right; by eexists).
      split; [by apply fmt_no_ipv4|]. unfold read_ipv6_addr. rewrite <- (groups_from_0 head), read_groups_fmt by (done || lia).
      rewrite (proj2 (Nat.eqb_neq _ _)) by lia. cbn [app read_given_char Z.eqb Pos.eqb mbind option_bind].
      rewrite <- (groups_from_0 tail). rewrite <- (app_nil_r (groups_from 0 tail)).
      rewrite read_groups_fmt by (done || (by left) || lia). by rewrite Hback, Hso.
    + rewrite <- (app_nil_r (fmt_subslice (segments o))). split; [apply fmt_no_ipv4; [done|by left]|].
      unfold read_ipv6_addr. rewrite <- (groups_from_0 (segments o)), read_groups_fmt by (done || (by left) || lia). rewrite Hls, Nat.eqb_refl. by rewrite Hso.
Qed.

Definition ip_ok (ip : IpAddr) : Prop := match ip with V4 ip => fits 32 ip | V6 o => bytes_ok o /\ len o = 16 end.

(** Every address is read back from its text. *)
Lemma ip_text_roundtrip ip : ip_ok ip -> ip_from_str (ip_to_string ip) = Some ip.
Proof.
  unfold ip_from_str, read_ip_addr. destruct ip as [ip|o]; cbn [ip_ok ip_to_string].
  - intros Hip. pose proof (read_ipv4_app ip [] Hip I) as H. rewrite app_nil_r in H. by rewrite H.
  - intros [Hb Hl]. destruct (read_ipv6_app o Hl Hb) as [-> ->]. done.
Qed.
