(* ===== verification/Sdes.v ===== *)
(** * Security descriptions: crates/siphon-rtp-srtp/src/sdes.rs

    The [a=crypto] line that carries SRTP keys in SDP: the MKI of a key
    parameter, the crypto suites, the key material, parsing and rendering.
    Standard base64 comes from the base64 crate: [Base64Engine] names its two
    calls and [Base64Laws] what its documentation promises; the operating
    system's random bytes are an argument. *)

From Stdlib Require Import Lia ZArith String Ascii List.
From stdpp Require Import base list numbers option sets.
From S2P Require Import Prelude Base64 Replay Srtp Bencode Text Net.

Open Scope Z_scope.

Definition INLINE_KEY_LEN : Z := MASTER_KEY_LEN + MASTER_SALT_LEN.

Inductive SdesError : Type :=
| NotCrypto
| Malformed (field : bytes)
| UnsupportedSuite (name : bytes)
| BadKey
| KeyLength (length : Z)
| Random
| SdesBadMki.

Definition of_mki_error (e : MkiError) : SdesError := match e with BadMki => SdesBadMki end.

(** [str::split_once] at the first occurrence of a character. *)
Fixpoint split_once (sep : Z) (text : bytes) : option (bytes * bytes) :=
  match text with
  | [] => None
  | b :: rest =>
      if b =? sep then Some ([], rest) else
      match split_once sep rest with Some (l, r) => Some (b :: l, r) | None => None end
  end.

(** [str::split] at a character: at least one part. *)
Fixpoint split_at_char (sep : Z) (text : bytes) : list bytes :=
  match text with
  | [] => [[]]
  | b :: rest =>
      match split_at_char sep rest with
      | part :: parts => if b =? sep then [] :: part :: parts else (b :: part) :: parts
      | [] => []
      end
  end.

Definition decimal_u64 (ds : bytes) : res SdesError Z :=
  if forallb is_digit ds then ok_or (uint_from_str 64 ds) SdesBadMki else Err SdesBadMki.

Definition Mki_parse (text : bytes) : res SdesError Mki :=
  '(value, length) ← ok_or (split_once 58 text) SdesBadMki;
  length ← decimal_u64 length;
  value ← decimal_u64 value;
  map_err of_mki_error (Mki_new value length).

Inductive CryptoSuite : Type := AesCm128HmacSha1_80 | AesCm128HmacSha1_32.

#[export] Instance CryptoSuite_eq_dec : EqDecision CryptoSuite.
Proof. solve_decision. Defined.

Definition suite_name (s : CryptoSuite) : bytes :=
  match s with
  | AesCm128HmacSha1_80 => str "AES_CM_128_HMAC_SHA1_80"
  | AesCm128HmacSha1_32 => str "AES_CM_128_HMAC_SHA1_32"
  end.

Definition suite_from_name (name : bytes) : option CryptoSuite :=
  if bool_decide (name = str "AES_CM_128_HMAC_SHA1_80") then Some AesCm128HmacSha1_80
  else if bool_decide (name = str "AES_CM_128_HMAC_SHA1_32") then Some AesCm128HmacSha1_32
  else None.

Definition auth_tag_len (s : CryptoSuite) : Z :=
  match s with AesCm128HmacSha1_80 => 10 | AesCm128HmacSha1_32 => 4 end.

Record SrtpKeyMaterial : Type := mkSrtpKeyMaterial {
  km_master_key : bytes;
  km_master_salt : bytes;
  km_mki : option Mki
}.

Definition set_mki (k : SrtpKeyMaterial) (mki : Mki) : SrtpKeyMaterial :=
  mkSrtpKeyMaterial (km_master_key k) (km_master_salt k) (Some mki).

Definition from_inline_bytes (raw : bytes) : res SdesError SrtpKeyMaterial :=
  if negb (len raw =? INLINE_KEY_LEN) then Err (KeyLength (len raw)) else
  master_key ← slice raw 0 MASTER_KEY_LEN;
  master_salt ← slice raw MASTER_KEY_LEN (len raw);
  mret (mkSrtpKeyMaterial master_key master_salt None).

Definition to_inline_bytes (k : SrtpKeyMaterial) : bytes := km_master_key k ++ km_master_salt k.

(** [random] is what the operating system's generator filled the buffer with. *)
Definition SrtpKeyMaterial_generate (random : option bytes) : res SdesError SrtpKeyMaterial :=
  raw ← ok_or random Random; from_inline_bytes raw.

Record CryptoAttribute : Type := mkCryptoAttribute {
  ca_tag : Z;
  ca_suite : CryptoSuite;
  ca_key : SrtpKeyMaterial
}.

Definition CryptoAttribute_generate (tag : Z) (suite : CryptoSuite) (random : option bytes)
  : res SdesError CryptoAttribute :=
  key ← SrtpKeyMaterial_generate random; mret (mkCryptoAttribute tag suite key).

Definition answer_to (offered : CryptoAttribute) (random : option bytes) : res SdesError CryptoAttribute :=
  CryptoAttribute_generate (ca_tag offered) (ca_suite offered) random.

Definition is_keyable (a : CryptoAttribute) : bool := auth_tag_len (ca_suite a) =? AUTH_TAG_LEN.

(** The standard engine of the base64 crate: padded, canonical. *)
Class Base64Engine : Type := {
  b64_encode : bytes -> bytes;
  b64_decode : bytes -> option bytes
}.

(** Decoding undoes encoding, and the text is of the alphabet: letters, digits,
    plus, slash and the padding sign. *)
Class Base64Laws (B : Base64Engine) : Prop := {
  b64_decode_encode : forall raw, bytes_ok raw -> b64_decode (b64_encode raw) = Some raw;
  b64_alphabet : forall raw, bytes_ok raw ->
    Forall (fun b => is_ascii_alphanumeric b = true \/ b = 43 \/ b = 47 \/ b = 61) (b64_encode raw);
  b64_decode_bytes : forall text raw, b64_decode text = Some raw -> bytes_ok raw
}.

Section sdes.
Context `{B : Base64Engine}.

(** The parts after the key: the one with a colon is the MKI, any other the lifetime. *)
Fixpoint read_mki (key : SrtpKeyMaterial) (parts : list bytes) : res SdesError SrtpKeyMaterial :=
  match parts with
  | [] => mret key
  | part :: parts =>
      if existsb (Z.eqb 58) part then
        match km_mki key with
        | Some _ => Err SdesBadMki
        | None => mki ← Mki_parse part; read_mki (set_mki key mki) parts
        end
      else read_mki key parts
  end.

Definition read_key_params (key_params : bytes) : res SdesError SrtpKeyMaterial :=
  let first := default key_params (head (split_at_char 59 key_params)) in
  inline ← ok_or (strip_prefix (str "inline:") first) BadKey;
  let parts := split_at_char 124 inline in
  let encoded := default inline (head parts) in
  raw ← ok_or (b64_decode encoded) BadKey;
  key ← from_inline_bytes raw;
  read_mki key (tail parts).

Definition CryptoAttribute_parse (attribute_value : bytes) : res SdesError CryptoAttribute :=
  body ← ok_or (strip_prefix (str "crypto:") attribute_value) NotCrypto;
  let fields := split_whitespace body in
  tag ← ok_or (fields !! 0%nat) (Malformed (str "tag"));
  tag ← ok_or (uint_from_str 32 tag) (Malformed (str "tag"));
  name ← ok_or (fields !! 1%nat) (Malformed (str "suite"));
  suite ← ok_or (suite_from_name name) (UnsupportedSuite name);
  key_params ← ok_or (fields !! 2%nat) (Malformed (str "key-params"));
  key ← read_key_params key_params;
  mret (mkCryptoAttribute tag suite key).

Definition parse_keyable (attribute_value : bytes) : option CryptoAttribute :=
  match CryptoAttribute_parse attribute_value with
  | Ok a => if is_keyable a then Some a else None
  | _ => None
  end.

Definition mki_text (mki : option Mki) : bytes :=
  match mki with
  | Some m => [124] ++ digits (mki_value m) ++ [58] ++ digits (Mki_len m)
  | None => []
  end.

Definition to_attribute_value (a : CryptoAttribute) : bytes :=
  str "crypto:" ++ digits (ca_tag a) ++ [32] ++ suite_name (ca_suite a) ++ [32] ++
  str "inline:" ++ b64_encode (to_inline_bytes (ca_key a)) ++ mki_text (km_mki (ca_key a)).
End sdes.

(** * Proofs *)

Definition free_of (sep : Z) (text : bytes) : Prop := Forall (fun b => b <> sep) text.

Lemma split_once_app sep l r : free_of sep l -> split_once sep (l ++ sep :: r) = Some (l, r).
Proof.
  induction 1 as [|b l Hb Hl IH]; cbn; [by rewrite Z.eqb_refl|].
  by rewrite (proj2 (Z.eqb_neq _ _) Hb), IH.
Qed.

Lemma split_free sep text : free_of sep text -> split_at_char sep text = [text].
Proof.
  induction 1 as [|b l Hb Hl IH]; cbn; [done|]. by rewrite IH, (proj2 (Z.eqb_neq _ _) Hb).
Qed.

Lemma split_nonempty sep text : exists part parts, split_at_char sep text = part :: parts.
Proof.
  induction text as [|b text (part & parts & IH)]; cbn; [eauto|]. rewrite IH. destruct (_ =? _); eauto.
Qed.

Lemma split_app sep l r : free_of sep l -> split_at_char sep (l ++ sep :: r) = l :: split_at_char sep r.
Proof.
  induction 1 as [|b l Hb Hl IH]; cbn.
  - destruct (split_nonempty sep r) as (part & parts & ->). by rewrite Z.eqb_refl.
  - by rewrite IH, (proj2 (Z.eqb_neq _ _) Hb).
Qed.

(** A separator that is not a digit does not occur in a number. *)
Lemma digits_free sep n : 0 <= n -> is_digit sep = false -> free_of sep (digits n).
Proof.
  intros Hn Hs. destruct (digits_spec n Hn) as ((_ & Hd & _) & _). apply Forall_forall.
  intros b Hb%list_elem_of_In ->. rewrite forallb_forall in Hd. by rewrite (Hd sep Hb) in Hs.
Qed.

Lemma decimal_digits_u64 n : fits 64 n -> decimal_u64 (digits n) = Ok n.
Proof.
  intros Hn. unfold decimal_u64, fits in *. destruct (digits_spec n) as ((_ & -> & _) & _); [lia|].
  by rewrite uint_digits by lia.
Qed.

(** An MKI as RFC 4568 admits it, with a value of 64 bits. *)
Definition mki_admitted (m : Mki) : Prop :=
  1 <= mki_length m <= MKI_MAX_LENGTH /\ fits 64 (mki_value m) /\ mki_value m < 2 ^ (8 * mki_length m).

Lemma Mki_new_admitted m : mki_admitted m -> Mki_new (mki_value m) (mki_length m) = Ok m.
Proof.
  intros (Hl & Hv & Hfit). unfold Mki_new, MKI_MAX_LENGTH, fits in *.
  rewrite (proj2 (Z.leb_le 1 _)), !(proj2 (Z.leb_le (mki_length m) _)) by lia.
  rewrite Z.shiftr_div_pow2, Z.div_small by lia. rewrite orb_true_r. by destruct m.
Qed.

Lemma Mki_new_ok value length m : fits 64 value -> 0 <= length -> Mki_new value length = Ok m -> mki_admitted m.
Proof.
  unfold Mki_new, mki_admitted, MKI_MAX_LENGTH, fits. intros Hv Hl.
  destruct (Z.leb_spec 1 length), (Z.leb_spec length 128); cbn [andb negb orb]; try done.
  destruct (Z.leb_spec 8 length); cbn [orb negb].
  - rewrite (proj2 (Z.leb_le length 255)) by lia. intros [= <-]. cbn. split_and!; try lia.
    apply Z.lt_le_trans with (2 ^ 64); [lia|]. apply Z.pow_le_mono_r; lia.
  - destruct (Z.eqb_spec (Z.shiftr value (8 * length)) 0) as [Hs|]; cbn [negb]; [|done].
    rewrite (proj2 (Z.leb_le length 255)) by lia. intros [= <-]. cbn. split_and!; try lia.
    rewrite Z.shiftr_div_pow2 in Hs by lia. apply Z.div_small_iff in Hs; lia.
Qed.

Lemma Mki_parse_text m : mki_admitted m ->
  Mki_parse (digits (mki_value m) ++ [58] ++ digits (Mki_len m)) = Ok m.
Proof.
  intros Hm. pose proof Hm as (Hl & Hv & _). unfold Mki_parse, Mki_len, MKI_MAX_LENGTH, fits in *. cbn [app].
  rewrite split_once_app by (apply digits_free; [lia|done]). cbn [ok_or]. rewrite bind_Ok.
  rewrite !decimal_digits_u64, !bind_Ok, Mki_new_admitted by (unfold fits; done || lia). done.
Qed.

Lemma decimal_u64_range ds n : decimal_u64 ds = Ok n -> fits 64 n.
Proof.
  unfold decimal_u64. destruct (forallb is_digit ds); [|done].
  destruct (uint_from_str 64 ds) eqn:E; [|done]. intros [= <-]. by eapply uint_range.
Qed.

Lemma Mki_parse_admitted text m : Mki_parse text = Ok m -> mki_admitted m.
Proof.
  unfold Mki_parse. destruct (split_once 58 text) as [[v l]|]; [|done]. cbn [ok_or]. rewrite bind_Ok.
  intros (length & Hl & (value & Hv & H)%bind_Ok_inv)%bind_Ok_inv.
  apply decimal_u64_range in Hl, Hv. destruct (Mki_new value length) as [m'| |] eqn:E; try done.
  injection H as <-. eapply Mki_new_ok; [done| |done]. by destruct Hl.
Qed.

(** ** Lines *)

(** [Forall is_plain] of a literal. *)
Ltac solve_plain := vm_compute; forall_list; split; discriminate.

Definition key_ok (k : SrtpKeyMaterial) : Prop :=
  bytes_ok (km_master_key k) /\ len (km_master_key k) = 16 /\
  bytes_ok (km_master_salt k) /\ len (km_master_salt k) = 14 /\
  match km_mki k with Some m => mki_admitted m | None => True end.

Definition attribute_ok (a : CryptoAttribute) : Prop := fits 32 (ca_tag a) /\ key_ok (ca_key a).

(** A lifetime field: printable, without the separators of a key parameter. *)
Definition lifetime_ok (text : bytes) : Prop :=
  Forall (fun b => is_plain b /\ b <> 58 /\ b <> 59 /\ b <> 124) text.

Section sdes_proofs.
Context `{BL : Base64Laws}.

(** Any line a peer may write for the attribute: an optional lifetime before the
    MKI, further key parameters after the first, session parameters at the end. *)
Definition key_params (k : SrtpKeyMaterial) (lifetime more : option bytes) : bytes :=
  str "inline:" ++ b64_encode (to_inline_bytes k) ++ from_option (fun l => 124 :: l) [] lifetime ++
  mki_text (km_mki k) ++ from_option (fun m => 59 :: m) [] more.

Definition crypto_line (a : CryptoAttribute) (lifetime more : option bytes) (session : list bytes) : bytes :=
  str "crypto:" ++ join ([digits (ca_tag a); suite_name (ca_suite a); key_params (ca_key a) lifetime more] ++ session).

Lemma to_attribute_value_line a : to_attribute_value a = crypto_line a None None [].
Proof. unfold to_attribute_value, crypto_line, key_params. cbn [from_option app join]. by rewrite app_nil_r. Qed.

Lemma free_app sep l r : free_of sep (l ++ r) <-> free_of sep l /\ free_of sep r.
Proof. apply Forall_app. Qed.

Lemma inline_bytes_ok k : key_ok k -> bytes_ok (to_inline_bytes k).
Proof. intros (H1 & _ & H2 & _). by apply bytes_ok_app. Qed.

(** The base64 text holds neither separators nor white space. *)
Lemma b64_clean k : key_ok k ->
  Forall is_plain (b64_encode (to_inline_bytes k)) /\
  forall sep, sep = 58 \/ sep = 59 \/ sep = 124 -> free_of sep (b64_encode (to_inline_bytes k)).
Proof.
  intros Hk. pose proof (b64_alphabet _ (inline_bytes_ok k Hk)) as Ha. split.
  - eapply Forall_impl; [exact Ha|]. intros b Hb. unfold is_ascii_alphanumeric, is_digit, is_plain in *. lia.
  - intros sep Hs. eapply Forall_impl; [exact Ha|]. intros b Hb ->. unfold is_ascii_alphanumeric, is_digit in Hb. lia.
Qed.

Lemma mki_text_clean k : key_ok k -> Forall is_plain (mki_text (km_mki k)) /\ free_of 59 (mki_text (km_mki k)).
Proof.
  intros (_ & _ & _ & _ & Hm). destruct (km_mki k) as [m|]; [|split; constructor].
  destruct Hm as (Hl & Hv & _). unfold mki_text, Mki_len, MKI_MAX_LENGTH, fits in *.
  assert (forall n, 0 <= n -> Forall is_plain (digits n)) as Hd by (intros n Hn; by apply digits_word).
  rewrite !Forall_app, !free_app. split; (split_and!; [..|]);
    first [by apply Hd; lia | apply digits_free; [lia|done] | repeat constructor; (done || unfold is_plain; lia)].
Qed.

Lemma lifetime_clean (l : option bytes) : from_option lifetime_ok True l ->
  Forall is_plain (from_option (fun l => 124 :: l) [] l) /\ free_of 59 (from_option (fun l => 124 :: l) [] l).
Proof.
  destruct l as [l|]; cbn; [|split; constructor]. intros Hl.
  split; (constructor; [done || (unfold is_plain; lia)|]); (eapply Forall_impl; [exact Hl|]); by intros b (? & ? & ? & ?).
Qed.

Lemma from_inline_Ok k : key_ok k ->
  from_inline_bytes (to_inline_bytes k) = Ok (mkSrtpKeyMaterial (km_master_key k) (km_master_salt k) None).
Proof.
  intros (_ & H1 & _ & H2 & _). unfold from_inline_bytes, to_inline_bytes, INLINE_KEY_LEN, MASTER_KEY_LEN, MASTER_SALT_LEN.
  rewrite len_app, H1, H2. cbn [Z.add Z.eqb Pos.eqb Pos.add negb].
  rewrite !slice_Ok, !bind_Ok by (rewrite ?len_app; lia).
  rewrite sub_app_begin, sub_app_end by (rewrite ?len_app; lia). done.
Qed.

Lemma colon_absent text : free_of 58 text -> existsb (Z.eqb 58) text = false.
Proof.
  induction 1 as [|b l Hb Hl IH]; [done|]. cbn [existsb]. by rewrite IH, (proj2 (Z.eqb_neq 58 b)) by done.
Qed.

Lemma colon_present l r : existsb (Z.eqb 58) (l ++ 58 :: r) = true.
Proof. rewrite existsb_app. cbn [existsb]. by rewrite Z.eqb_refl, orb_true_r. Qed.

(** The parts after the key give the MKI back, the lifetime is passed over. *)
Lemma read_mki_parts k enc lifetime :
  key_ok k -> from_option lifetime_ok True lifetime -> free_of 124 enc ->
  exists parts,
    split_at_char 124 (enc ++ from_option (fun l => 124 :: l) [] lifetime ++ mki_text (km_mki k)) = enc :: parts /\
    read_mki (mkSrtpKeyMaterial (km_master_key k) (km_master_salt k) None) parts = Ok k.
Proof.
  intros (_ & _ & _ & _ & Hm) Hl Hf. set (k0 := mkSrtpKeyMaterial _ _ _).
  assert (exists parts, (forall t, free_of 124 t -> split_at_char 124 (t ++ mki_text (km_mki k)) = t :: parts) /\
    read_mki k0 parts = Ok k) as (parts & Hsplit & Hread).
  { destruct k as [mk ms [m|]]; cbn [km_mki mki_text] in *; cycle 1.
    { exists []. split; [|done]. intros t Ht. by rewrite app_nil_r, split_free. }
    exists [digits (mki_value m) ++ [58] ++ digits (Mki_len m)]. pose proof Hm as (Hlen & Hv & _).
    unfold Mki_len, MKI_MAX_LENGTH, fits in *. split.
    - intros t Ht. cbn [app]. rewrite split_app by done. f_equal. apply split_free.
      apply Forall_app. split; [apply digits_free; [lia|done]|].
      constructor; [done|]. apply digits_free; [lia|done].
    - cbn [read_mki]. rewrite (colon_present (digits (mki_value m)) (digits (mki_length m)) : existsb _ (_ ++ [58] ++ _) = true).
      cbn [k0 km_mki]. fold (Mki_len m). by rewrite Mki_parse_text, bind_Ok. }
  destruct lifetime as [l|]; cbn [from_option] in *.
  - exists (l :: parts).
    assert (free_of 124 l /\ free_of 58 l) as [H124 H58].
    { split; (eapply Forall_impl; [exact Hl|]); by intros b (? & ? & ? & ?). }
    split; [change ((124 :: l) ++ mki_text (km_mki k)) with (124 :: l ++ mki_text (km_mki k)); by rewrite split_app, Hsplit|].
    cbn [read_mki]. by rewrite colon_absent.
  - exists parts. by rewrite app_nil_l, Hsplit.
Qed.

Lemma read_key_params_line k lifetime more :
  key_ok k -> from_option lifetime_ok True lifetime -> read_key_params (key_params k lifetime more) = Ok k.
Proof.
  intros Hk Hlt. destruct (b64_clean k Hk) as [_ Hfree]. destruct (mki_text_clean k Hk) as [_ Hm].
  destruct (lifetime_clean lifetime Hlt) as [_ Hl].
  unfold read_key_params, key_params. set (enc := b64_encode (to_inline_bytes k)) in *.
  set (params := str "inline:" ++ enc ++ from_option (fun l => 124 :: l) [] lifetime ++ mki_text (km_mki k)).
  assert (free_of 59 params) as Hp.
  { unfold params. rewrite !free_app. split_and!; [repeat constructor; done|apply Hfree; auto|done|done]. }
  assert (forall kp, kp = params ++ from_option (fun m => 59 :: m) [] more ->
    head (split_at_char 59 kp) = Some params) as Hhead.
  { intros kp ->. destruct more as [m|]; cbn [from_option]; [by rewrite split_app|]. by rewrite app_nil_r, split_free. }
  rewrite (Hhead _ ltac:(unfold params; by rewrite <- !app_assoc)). cbn [from_option id].
  unfold params. rewrite strip_prefix_app. cbn [ok_or]. rewrite bind_Ok.
  assert (free_of 124 enc) as Hf by (apply Hfree; auto).
  destruct (read_mki_parts k enc lifetime Hk Hlt Hf) as (parts & -> & Hread).
  cbn [head from_option id tail]. unfold enc. rewrite b64_decode_encode by (by apply inline_bytes_ok).
  cbn [ok_or]. by rewrite bind_Ok, from_inline_Ok, bind_Ok.
Qed.

Lemma suite_name_plain s : plain_word (suite_name s) /\ suite_from_name (suite_name s) = Some s.
Proof. destruct s; (split; [split; [done|solve_plain]|done]). Qed.

Lemma key_params_plain k lifetime more : key_ok k -> from_option lifetime_ok True lifetime ->
  from_option (Forall is_plain) True more -> plain_word (key_params k lifetime more).
Proof.
  intros Hk Hl Hm. split; [done|]. unfold key_params. rewrite !Forall_app.
  split_and!; [solve_plain|by apply b64_clean|by apply lifetime_clean|by apply mki_text_clean|].
  destruct more as [m|]; cbn in *; [constructor; [unfold is_plain; lia|done]|constructor].
Qed.

(** What the parser reads as key material is well formed. *)
Lemma read_mki_ok parts : forall k k', key_ok k -> read_mki k parts = Ok k' -> key_ok k'.
Proof.
  induction parts as [|part parts IH]; intros k k' Hk; cbn [read_mki]; [by intros [= <-]|].
  destruct (existsb _ part); [|by apply IH]. destruct (km_mki k) eqn:E; [done|].
  intros (m & Hm%Mki_parse_admitted & H)%bind_Ok_inv. eapply IH; [|exact H].
  destruct Hk as (? & ? & ? & ? & _). by repeat split; try apply Hm.
Qed.

Lemma read_key_params_ok text k : read_key_params text = Ok k -> key_ok k.
Proof.
  unfold read_key_params. intros (inline & _ & (raw & Hraw & (k0 & Hk0 & H)%bind_Ok_inv)%bind_Ok_inv)%bind_Ok_inv.
  eapply read_mki_ok; [|exact H]. destruct (b64_decode _) as [r|] eqn:Hd; [|done]. injection Hraw as ->.
  apply b64_decode_bytes in Hd. unfold from_inline_bytes, INLINE_KEY_LEN, MASTER_KEY_LEN, MASTER_SALT_LEN in Hk0.
  destruct (Z.eqb_spec (len raw) (16 + 14)) as [Hl|]; [|done]. cbn [negb] in Hk0.
  rewrite !slice_Ok, !bind_Ok in Hk0 by lia. injection Hk0 as <-. unfold key_ok. cbn.
  rewrite !len_sub by lia. split_and!; try done; try (by apply bytes_ok_sub); lia.
Qed.

Lemma no_panic_ok_or_bind {E A X} (o : option X) (e : E) (f : X -> res E A) :
  (forall x, no_panic (f x)) -> no_panic (x ← ok_or o e; f x).
Proof. intros Hf. destruct o; [apply Hf|done]. Qed.

Lemma decimal_u64_no_panic ds : no_panic (decimal_u64 ds).
Proof. unfold decimal_u64. destruct (forallb _ _); [by destruct (uint_from_str _ _)|done]. Qed.

Lemma Mki_parse_no_panic text : no_panic (Mki_parse text).
Proof.
  unfold Mki_parse. apply no_panic_ok_or_bind. intros [v l].
  apply no_panic_bind; [apply decimal_u64_no_panic|]. intros length _.
  apply no_panic_bind; [apply decimal_u64_no_panic|]. intros value _.
  unfold Mki_new. destruct (negb _ || _); [done|]. by destruct (_ <=? _).
Qed.

Lemma read_mki_no_panic parts : forall k, no_panic (read_mki k parts).
Proof.
  induction parts as [|part parts IH]; intros k; cbn [read_mki]; [done|].
  destruct (existsb _ part); [|done]. destruct (km_mki k); [done|].
  apply no_panic_bind; [apply Mki_parse_no_panic|]. intros m _. apply IH.
Qed.

Lemma crypto_parse_no_panic text : no_panic (CryptoAttribute_parse text).
Proof.
  unfold CryptoAttribute_parse. do 6 (apply no_panic_ok_or_bind; intros ?).
  apply no_panic_bind; [|done]. unfold read_key_params. do 2 (apply no_panic_ok_or_bind; intros ?).
  apply no_panic_bind; [|intros; apply read_mki_no_panic]. unfold from_inline_bytes, INLINE_KEY_LEN, MASTER_KEY_LEN, MASTER_SALT_LEN.
  destruct (Z.eqb_spec (len x6) (16 + 14)); [|done]. cbn [negb]. by rewrite !slice_Ok, !bind_Ok by lia.
Qed.

(** ** Theorems *)

(** An [a=crypto] line is read exactly.  Every line a peer may write for
    well-formed key material (any tag, either suite, an MKI or none, with a
    lifetime, further key parameters and session parameters added) parses to that
    material, the rendered line among them; what parses is well formed, so that
    parsing and rendering are inverse on it; [parse_keyable] keeps exactly the
    80-bit suite; and no input panics. *)
Lemma sdes_line_exact :
  (forall a lifetime more session, attribute_ok a -> from_option lifetime_ok True lifetime ->
    from_option (Forall is_plain) True more -> Forall word session ->
    CryptoAttribute_parse (crypto_line a lifetime more session) = Ok a) /\
  (forall a, attribute_ok a -> CryptoAttribute_parse (to_attribute_value a) = Ok a) /\
  (forall text a, CryptoAttribute_parse text = Ok a -> attribute_ok a /\
    parse_keyable text = if bool_decide (ca_suite a = AesCm128HmacSha1_80) then Some a else None) /\
  (forall text, no_panic (CryptoAttribute_parse text)).
Proof.
  assert (forall a lifetime more session, attribute_ok a -> from_option lifetime_ok True lifetime ->
    from_option (Forall is_plain) True more -> Forall word session ->
    CryptoAttribute_parse (crypto_line a lifetime more session) = Ok a) as Hline.
  { intros a lifetime more session [Ht Hk] Hl Hm Hs. destruct (suite_name_plain (ca_suite a)) as [Hsw Hsn].
    unfold CryptoAttribute_parse, crypto_line. rewrite strip_prefix_app. cbn [ok_or]. rewrite bind_Ok.
    rewrite split_join.
    2: { unfold fits in Ht. repeat (apply Forall_cons_2); [| | |done]; apply plain_is_word;
         [apply digits_word; lia|done|by apply key_params_plain]. }
    cbn [app lookup list_lookup ok_or]. rewrite bind_Ok, uint_digits by exact Ht. cbn [ok_or]. rewrite !bind_Ok, Hsn.
    cbn [ok_or]. rewrite !bind_Ok, read_key_params_line, bind_Ok by done. by destruct a. }
  split; [exact Hline|]. split; [|split; [|apply crypto_parse_no_panic]].
  { intros a Ha. rewrite to_attribute_value_line. by apply Hline. }
  intros text a Hp. split.
  - unfold CryptoAttribute_parse in Hp.
    apply bind_Ok_inv in Hp as (body & _ & (t & _ & (tag & Htag & (n & _ & (suite & _ & (kp & _ & (key & Hkey & H)
      %bind_Ok_inv)%bind_Ok_inv)%bind_Ok_inv)%bind_Ok_inv)%bind_Ok_inv)%bind_Ok_inv).
    injection H as <-. split; cbn; [|by eapply read_key_params_ok].
    destruct (uint_from_str 32 t) eqn:E; [|done]. injection Htag as ->. by eapply uint_range.
  - unfold parse_keyable. rewrite Hp. unfold is_keyable. by destruct (ca_suite a).
Qed.
End sdes_proofs.

(** The codec of siphon-rtp-proto is such an engine. *)
#[export] Instance proto_base64 : Base64Engine := {|
  b64_encode raw := match Base64.encode raw with Ok text => text | _ => [] end;
  b64_decode text := match Base64.decode text with Ok raw => Some raw | _ => None end
|}.

#[export] Instance proto_base64_laws : Base64Laws proto_base64.
Proof.
  split; cbn [b64_encode b64_decode proto_base64].
  - intros raw Hb. destruct (base64_roundtrip raw Hb) as (text & -> & _ & Hd). by rewrite Hd.
  - intros raw Hb. destruct (Base64.encode raw) as [text| |] eqn:E; [|constructor..].
    eapply Forall_impl; [by eapply encode_chars|]. intros b [Hin|Hb61]; [|by auto].
    assert (Forall (fun b => is_ascii_alphanumeric b = true \/ b = 43 \/ b = 47 \/ b = 61) ALPHABET) as H.
    { vm_compute. forall_list; auto. }
    rewrite Forall_forall in H. by apply H.
  - intros text raw. destruct (Base64.decode text) eqn:E; [|done..]. intros [= <-]. by eapply decode_bytes.
Qed.

Definition example_key (b : Z) : SrtpKeyMaterial := mkSrtpKeyMaterial (replicate 16 b) (replicate 14 (b + 1)) (Some (mkMki 1 4)).
Definition example_attribute : CryptoAttribute := mkCryptoAttribute 1 AesCm128HmacSha1_80 (example_key 0x41).

Lemma example_key_ok b : 0 <= b < 255 -> key_ok (example_key b).
Proof.
  intros Hb. unfold key_ok, example_key. cbn [km_master_key km_master_salt km_mki].
  split_and!; try done; try (apply Forall_replicate; unfold is_byte; lia).
Qed.

(** The line of RFC 4568, section 6.1, with its lifetime and session parameters. *)
Lemma sdes_line_exact_witness :
  CryptoAttribute_parse (str "crypto:1 AES_CM_128_HMAC_SHA1_80 inline:QUFBQUFBQUFBQUFBQUFBQUJCQkJCQkJCQkJCQkJC|2^20|1:4;inline:x KDR=24") =
    Ok example_attribute.
Proof.
  destruct sdes_line_exact as (Hline & _).
  apply (Hline example_attribute (Some (str "2^20")) (Some (str "inline:x")) [str "KDR=24"]).
  - split; [vm_compute; split; congruence|]. apply example_key_ok. lia.
  - vm_compute. forall_list; split_and!; discriminate.
  - solve_plain.
  - constructor; [|constructor]. apply plain_is_word. split; [done|solve_plain].
Defined.
