(* ===== verification/SecureLeg.v ===== *)
(** * Secure legs: crates/siphon-rtp-srtp/src/leg.rs

    One SDES leg: an SRTP and an SRTCP context per direction, keyed from the
    local and the remote key material, with RTP and RTCP told apart by the clear
    header, and the checkpoint that moves the rollover state to a standby.  The
    theorem composes the key exchange of [Sdes] with the contexts of [Srtp] and
    [Srtcp]. *)

From Stdlib Require Import Lia ZArith String.
From stdpp Require Import base list numbers option gmap.
From S2P Require Import Prelude Replay Srtp Srtcp Text Sdes.

Open Scope Z_scope.

Inductive PacketKind : Type := KindRtp | KindRtcp.

Definition is_rtcp (packet : bytes) : bool :=
  (2 <=? len packet) && (let t := Z.land (byte_of packet 1) 0x7F in (64 <=? t) && (t <=? 95)).

Record SecureLeg : Type := mkSecureLeg {
  sl_inbound_rtp : SrtpContext;
  sl_outbound_rtp : SrtpContext;
  sl_inbound_rtcp : SrtcpContext;
  sl_outbound_rtcp : SrtcpContext
}.

Record SecureLegRollover : Type := mkSecureLegRollover {
  lr_inbound_rtp : list StreamRollover;
  lr_outbound_rtp : list StreamRollover;
  lr_outbound_rtcp_index : Z
}.

Section leg.
Context `{C : SrtpCrypto}.

Definition rtp_context (k : SrtpKeyMaterial) : SrtpContext :=
  SrtpContext_from_key_material (km_master_key k) (km_master_salt k) (km_mki k).
Definition rtcp_context (k : SrtpKeyMaterial) : SrtcpContext :=
  SrtcpContext_from_key_material (km_master_key k) (km_master_salt k) (km_mki k).

Definition SecureLeg_new (local remote : SrtpKeyMaterial) : SecureLeg :=
  mkSecureLeg (rtp_context remote) (rtp_context local) (rtcp_context remote) (rtcp_context local).

(** [result?; Ok(kind)] *)
Definition with_kind (r : res SrtpError unit) (kind : PacketKind) : res SrtpError PacketKind := _ ← r; mret kind.

Definition leg_unprotect (leg : SecureLeg) (packet out : bytes) : res SrtpError PacketKind * SecureLeg * bytes :=
  if is_rtcp packet then
    let '(r, ctx, out) := SrtcpContext_unprotect (sl_inbound_rtcp leg) packet out in
    (with_kind r KindRtcp, mkSecureLeg (sl_inbound_rtp leg) (sl_outbound_rtp leg) ctx (sl_outbound_rtcp leg), out)
  else
    let '(r, ctx, out) := SrtpContext_unprotect (sl_inbound_rtp leg) packet out in
    (with_kind r KindRtp, mkSecureLeg ctx (sl_outbound_rtp leg) (sl_inbound_rtcp leg) (sl_outbound_rtcp leg), out).

Definition leg_protect (leg : SecureLeg) (packet out : bytes) : res SrtpError PacketKind * SecureLeg * bytes :=
  if is_rtcp packet then
    let '(r, ctx, out) := SrtcpContext_protect (sl_outbound_rtcp leg) packet out in
    (with_kind r KindRtcp, mkSecureLeg (sl_inbound_rtp leg) (sl_outbound_rtp leg) (sl_inbound_rtcp leg) ctx, out)
  else
    let '(r, ctx, out) := SrtpContext_protect (sl_outbound_rtp leg) packet out in
    (with_kind r KindRtp, mkSecureLeg (sl_inbound_rtp leg) ctx (sl_inbound_rtcp leg) (sl_outbound_rtcp leg), out).

Definition rollover_snapshot (leg : SecureLeg) : SecureLegRollover :=
  mkSecureLegRollover (rollover_state (sl_inbound_rtp leg)) (rollover_state (sl_outbound_rtp leg))
    (send_index (sl_outbound_rtcp leg)).

Definition seed_rollover (leg : SecureLeg) (rollover : SecureLegRollover) : SecureLeg :=
  mkSecureLeg (fold_left seed_stream (lr_inbound_rtp rollover) (sl_inbound_rtp leg))
    (fold_left seed_stream (lr_outbound_rtp rollover) (sl_outbound_rtp leg)) (sl_inbound_rtcp leg)
    (set_send_index (sl_outbound_rtcp leg) (lr_outbound_rtcp_index rollover)).
End leg.

(** ** Classification survives protection *)

Lemma is_rtcp_head p q : 2 <= len p -> 2 <= len q -> byte_of p 1 = byte_of q 1 -> is_rtcp p = is_rtcp q.
Proof.
  intros Hp Hq H. unfold is_rtcp. by rewrite H, (proj2 (Z.leb_le 2 (len p))), (proj2 (Z.leb_le 2 (len q))) by lia.
Qed.

Section leg_proofs.
Context `{L : SrtpCryptoLaws}.

Lemma srtp_wire_kind ctx ssrc p w : ctx_ok ctx -> packet_for ssrc p -> srtp_wire ctx ssrc p w -> is_rtcp w = is_rtcp p.2.
Proof.
  intros _ [Hb _] (hl & tag & Hp & _ & ->). pose proof (parse_rtp_header_spec _ _ _ _ Hb Hp) as (Hhl & _).
  pose proof (len_srtp_body ctx ssrc p.1 hl p.2 ltac:(lia)) as Hl.
  apply is_rtcp_head; [rewrite len_app, Hl; pose proof (len_nonneg (mki_wire (sc_mki ctx) ++ tag)); lia|lia|].
  rewrite byte_of_app_l by lia. unfold srtp_body. rewrite byte_of_app_l by (rewrite len_sub; lia).
  assert (@idx SrtpError Z (sub p.2 0 hl) 1 = idx p.2 1) as H by (by rewrite idx_sub by (rewrite ?len_sub; lia)).
  rewrite !idx_byte_of in H by (rewrite ?len_sub; lia). by injection H.
Qed.

Lemma srtcp_wire_kind ctx i p w : rtcp_ok p -> srtcp_wire ctx i p w -> is_rtcp w = is_rtcp p.
Proof.
  intros (_ & Hl & _) (tag & _ & ->). unfold srtcp_body. set (enc := apply_aes_cm _ _ _).
  assert (len (sub p 0 8) = 8) as H8 by (rewrite len_sub; lia).
  apply is_rtcp_head; [rewrite !len_app, H8; len_lia|lia|].
  rewrite <- !app_assoc, byte_of_app_l by lia.
  assert (@idx SrtpError Z (sub p 0 8) 1 = idx p 1) as H by (by rewrite idx_sub by (rewrite ?len_sub; lia)).
  rewrite !idx_byte_of in H by lia. by injection H.
Qed.

(** ** Seeding a standby *)

Definition seeded (s : StreamState) : StreamState :=
  mkStreamState (ss_roc s) (ss_highest_seq s)
    (match ss_highest_seq s with
     | Some seq => ReplayWindow_anchor ReplayWindow_default (Z.lor (Z.shiftl (ss_roc s) 16) seq)
     | None => ReplayWindow_default
     end).

Lemma seed_fold (l : list (Z * StreamState)) : forall ctx, NoDup l.*1 ->
  same_keys ctx (fold_left seed_stream
    ((fun p => mkStreamRollover p.1 (ss_roc p.2) (ss_highest_seq p.2)) <$> l) ctx) /\
  forall ssrc, sc_streams (fold_left seed_stream
    ((fun p => mkStreamRollover p.1 (ss_roc p.2) (ss_highest_seq p.2)) <$> l) ctx) !! ssrc =
    match (list_to_map l : gmap Z StreamState) !! ssrc with
    | Some s => Some (seeded s) | None => sc_streams ctx !! ssrc
    end.
Proof.
  induction l as [|[k s] l IH]; intros ctx Hn; [by repeat split|].
  cbn [fmap list_fmap fold_left fst snd] in *. apply NoDup_cons in Hn as [Hk Hn].
  destruct (IH (seed_stream ctx (mkStreamRollover k (ss_roc s) (ss_highest_seq s))) Hn) as [Hkeys Hlook].
  split; [exact Hkeys|]. intros ssrc. rewrite Hlook. cbn [list_to_map foldr uncurry].
  destruct (decide (k = ssrc)) as [<-|Hne].
  - rewrite (not_elem_of_list_to_map_1 l k Hk), lookup_insert_eq. unfold seed_stream, with_streams. cbn [sc_streams sro_ssrc].
    by rewrite lookup_insert_eq.
  - rewrite lookup_insert_ne by done. destruct (list_to_map l !! ssrc); [done|].
    unfold seed_stream, with_streams. cbn [sc_streams sro_ssrc]. by rewrite lookup_insert_ne.
Qed.

(** A standby's stream: the primary's counters, a window anchored at its index. *)
Lemma seed_stream_of src fresh ssrc : sc_streams fresh = ∅ ->
  same_keys fresh (fold_left seed_stream (rollover_state src) fresh) /\
  stream_of (fold_left seed_stream (rollover_state src) fresh) ssrc = seeded (stream_of src ssrc).
Proof.
  intros He. unfold rollover_state. destruct (seed_fold (map_to_list (sc_streams src)) fresh) as [Hk Hl].
  { apply NoDup_fst_map_to_list. }
  split; [exact Hk|]. unfold stream_of. rewrite Hl, list_to_map_to_list, He, lookup_empty.
  by destruct (sc_streams src !! ssrc).
Qed.

Lemma seeded_ok s : stream_ok s ->
  stream_ok (seeded s) /\ state_index (seeded s) = state_index s /\
  window_ok (ss_replay (seeded s)) (match state_index s with Some h => {[ h ]} | None => ∅ end).
Proof.
  intros Hs. split; [exact Hs|]. split; [done|]. unfold seeded, state_index. destruct Hs as [Hr Hh].
  destruct (ss_highest_seq s) as [h|]; cbn [ss_replay fmap option_fmap option_map]; [|done].
  unfold fits in *. rewrite lor_shiftl_add by lia. unfold window_ok, ReplayWindow_anchor. cbn [rw_seen rw_mask rw_top].
  split; [lia|]. split; [set_solver|]. split; [set_solver by lia|]. intros j Hj. split.
  - intros Hb. destruct (decide (j = 0)) as [->|]; [rewrite Z.sub_0_r; set_solver|].
    by rewrite (testbit_above 1 1 j) in Hb by lia.
  - intros Hin. assert (j = 0) as -> by set_solver by lia. done.
Qed.

(** ** A call: two legs, a lossy network, and standbys taking over *)

Inductive item : Type :=
| RtpItem (ssrc index : Z) (packet : bytes)
| RtcpItem (packet : bytes).

Definition item_packet (it : item) : bytes := match it with RtpItem _ _ p | RtcpItem p => p end.
Definition item_kind (it : item) : PacketKind := match it with RtpItem _ _ _ => KindRtp | RtcpItem _ => KindRtcp end.

Inductive call_event : Type :=
| Send (it : item) (lost : bool)
| SenderFailover
| ReceiverFailover.

(** The standby of a leg: rebuilt from the keys, seeded from the last checkpoint. *)
Definition standby (local remote : SrtpKeyMaterial) (leg : SecureLeg) : SecureLeg :=
  seed_rollover (SecureLeg_new local remote) (rollover_snapshot leg).

Definition call_step (ka kb : SrtpKeyMaterial) (w : SecureLeg * SecureLeg) (e : call_event)
  : list (res SrtpError PacketKind * res SrtpError PacketKind * bytes) * (SecureLeg * SecureLeg) :=
  match e with
  | Send it lost =>
      let '(r, a, wire) := leg_protect w.1 (item_packet it) [] in
      if (lost : bool) then ([], (a, w.2)) else
      let '(r', b, out) := leg_unprotect w.2 wire [] in ([(r, r', out)], (a, b))
  | SenderFailover => ([], (standby ka kb w.1, w.2))
  | ReceiverFailover => ([], (w.1, standby kb ka w.2))
  end.

Fixpoint call_run (ka kb : SrtpKeyMaterial) (w : SecureLeg * SecureLeg) (events : list call_event)
  : list (res SrtpError PacketKind * res SrtpError PacketKind * bytes) :=
  match events with
  | [] => []
  | e :: events => (call_step ka kb w e).1 ++ call_run ka kb (call_step ka kb w e).2 events
  end.

(** What should arrive: every packet that was not lost, as it was. *)
Fixpoint delivered (events : list call_event) : list (res SrtpError PacketKind * res SrtpError PacketKind * bytes) :=
  match events with
  | [] => []
  | Send it false :: events => (Ok (item_kind it), Ok (item_kind it), item_packet it) :: delivered events
  | _ :: events => delivered events
  end.

(** The sender's true numbering: the last index sent and the last received of
    each SSRC, and the number of RTCP packets sent. *)
Record numbering : Type := mkNumbering { nb_sent : Z -> option Z; nb_received : Z -> option Z; nb_rtcp : Z }.

Definition put (f : Z -> option Z) (ssrc i : Z) : Z -> option Z := fun s => if decide (s = ssrc) then Some i else f s.

Definition count_event (n : numbering) (e : call_event) : numbering :=
  match e with
  | Send (RtpItem ssrc i _) lost =>
      mkNumbering (put (nb_sent n) ssrc i) (if (lost : bool) then nb_received n else put (nb_received n) ssrc i) (nb_rtcp n)
  | Send (RtcpItem _) _ => mkNumbering (nb_sent n) (nb_received n) (nb_rtcp n + 1)
  | _ => n
  end.

Definition after (o : option Z) (i : Z) : Prop := match o with Some h => h < i | None => True end.

(** Each stream counts up, and neither side misses 2^15 packets of it in a row;
    fewer than 2^31 RTCP packets are sent. *)
Definition event_ok (n : numbering) (e : call_event) : Prop :=
  match e with
  | Send (RtpItem ssrc i p) lost =>
      packet_for ssrc (i, p) /\ is_rtcp p = false /\ after (nb_sent n ssrc) i /\ near (nb_sent n ssrc) i /\
      (lost = false -> near (nb_received n ssrc) i)
  | Send (RtcpItem p) _ => rtcp_ok p /\ is_rtcp p = true /\ nb_rtcp n + 1 < 2 ^ 31
  | _ => True
  end.

Fixpoint events_ok (n : numbering) (events : list call_event) : Prop :=
  match events with [] => True | e :: events => event_ok n e /\ events_ok (count_event n e) events end.

(** The legs agree with the numbering. *)
Record call_ok (ka : SrtpKeyMaterial) (a b : SecureLeg) (n : numbering) : Prop := {
  co_order : forall ssrc h, nb_received n ssrc = Some h -> exists s, nb_sent n ssrc = Some s /\ h <= s;
  co_out_keys : same_keys (rtp_context ka) (sl_outbound_rtp a);
  co_out : forall ssrc, stream_ok (stream_of (sl_outbound_rtp a) ssrc) /\
    state_index (stream_of (sl_outbound_rtp a) ssrc) = nb_sent n ssrc;
  co_in_keys : same_keys (rtp_context ka) (sl_inbound_rtp b);
  co_in : forall ssrc, stream_ok (stream_of (sl_inbound_rtp b) ssrc) /\
    state_index (stream_of (sl_inbound_rtp b) ssrc) = nb_received n ssrc /\
    exists R, window_ok (ss_replay (stream_of (sl_inbound_rtp b) ssrc)) R /\
      forall j, j ∈ R -> exists h, nb_received n ssrc = Some h /\ j <= h;
  co_outc_keys : srtcp_same_keys (rtcp_context ka) (sl_outbound_rtcp a);
  co_outc : cc_send_index (sl_outbound_rtcp a) = nb_rtcp n /\ 0 <= nb_rtcp n < 2 ^ 31;
  co_inc_keys : srtcp_same_keys (rtcp_context ka) (sl_inbound_rtcp b);
  co_inc : exists R, window_ok (cc_recv_replay (sl_inbound_rtcp b)) R /\ forall j, j ∈ R -> j < nb_rtcp n
}.

Lemma context_ok k : key_ok k -> ctx_ok (rtp_context k) /\ srtcp_ok (rtcp_context k).
Proof.
  intros (_ & _ & _ & _ & Hm). assert (forall key salt l, len (derive key salt l 20) = 20) as Hl.
  { intros. unfold len, derive, keystream. rewrite apply_length. by rewrite length_replicate. }
  assert (mki_ok (km_mki k)) as Hmk by (destruct (km_mki k); [by destruct Hm|done]).
  split; split; try exact Hmk; apply Hl.
Qed.

Lemma ctx_ok_same a b : same_keys a b -> ctx_ok a -> ctx_ok b.
Proof. intros (_ & _ & H3 & H4) [Ha Hm]. split; congruence. Qed.

Lemma srtcp_ok_same a b : srtcp_same_keys a b -> srtcp_ok a -> srtcp_ok b.
Proof. intros (_ & _ & H3 & H4) [Ha Hm]. split; congruence. Qed.

Lemma srtcp_wire_same_keys a b i p w : srtcp_same_keys a b -> srtcp_wire a i p w -> srtcp_wire b i p w.
Proof.
  intros (H1 & H2 & H3 & H4) (tag & Ht & ->). exists tag. unfold srtcp_body in *. by rewrite <- H1, <- H2, <- H3, <- H4.
Qed.

Lemma srtcp_same_trans a b c : srtcp_same_keys a b -> srtcp_same_keys a c -> srtcp_same_keys b c.
Proof. intros (?&?&?&?) (?&?&?&?). repeat split; congruence. Qed.

Lemma same_keys_trans a b c : same_keys a b -> same_keys a c -> same_keys b c.
Proof. intros (?&?&?&?) (?&?&?&?). repeat split; congruence. Qed.

Lemma stream_of_insert_ne ctx ssrc ssrc' s : ssrc <> ssrc' ->
  stream_of (with_streams ctx (<[ssrc := s]> (sc_streams ctx))) ssrc' = stream_of ctx ssrc'.
Proof. intros H. unfold stream_of. cbn [with_streams sc_streams]. by rewrite lookup_insert_ne. Qed.

Lemma put_eq f ssrc i : put f ssrc i ssrc = Some i.
Proof. unfold put. by rewrite decide_True. Qed.
Lemma put_ne f ssrc ssrc' i : ssrc <> ssrc' -> put f ssrc i ssrc' = f ssrc'.
Proof. intros. unfold put. by rewrite decide_False. Qed.

Lemma highest_after o i : after o i -> highest_of o i = Some i.
Proof. unfold after, highest_of. destruct o; [|done]. intros. f_equal. lia. Qed.

Lemma fresh_above R i : (forall j, j ∈ R -> j < i) -> fresh_index R i.
Proof.
  intros H. split; [intros Hi%H; lia|]. intros t Ht%H. unfold REPLAY_WINDOW. lia.
Qed.

(** ** One event *)

Lemma send_rtp ka kb a b n ssrc i p lost :
  key_ok ka -> call_ok ka a b n -> event_ok n (Send (RtpItem ssrc i p) lost) ->
  let '(out, (a', b')) := call_step ka kb (a, b) (Send (RtpItem ssrc i p) lost) in
  out = delivered [Send (RtpItem ssrc i p) lost] /\
  call_ok ka a' b' (count_event n (Send (RtpItem ssrc i p) lost)).
Proof.
  intros Hka [] (Hp & Hk & Hafter & Hnear & Hnr). destruct (context_ok ka Hka) as [Hcx _].
  destruct (co_out0 ssrc) as [Hs Hidx].
  destruct (protect_wire (sl_outbound_rtp a) ssrc (i, p) []) as (s' & wire & Hprot & Hw & Hs' & Hidx');
    [by eapply ctx_ok_same|done|done|by rewrite Hidx|]. cbn [fst snd] in *. rewrite Hidx in Hidx'.
  assert (is_rtcp wire = false) as Hkw.
  { rewrite (srtp_wire_kind (sl_outbound_rtp a) ssrc (i, p) wire); [done|by eapply ctx_ok_same|done|done]. }
  cbn [call_step item_packet fst snd]. unfold leg_protect. rewrite Hk, Hprot.
  assert (forall ssrc', stream_ok (stream_of (with_streams (sl_outbound_rtp a) (<[ssrc:=s']> (sc_streams (sl_outbound_rtp a)))) ssrc') /\
    state_index (stream_of (with_streams (sl_outbound_rtp a) (<[ssrc:=s']> (sc_streams (sl_outbound_rtp a)))) ssrc') =
      put (nb_sent n) ssrc i ssrc') as Hout.
  { intros ssrc'. destruct (decide (ssrc = ssrc')) as [<-|Hne].
    - rewrite stream_of_insert, put_eq, Hidx'. split; [done|by apply highest_after].
    - rewrite stream_of_insert_ne, put_ne by done. apply co_out0. }
  destruct lost; cbn [delivered count_event].
  - split; [done|]. split; cbn; try done.
    intros ssrc' h Hh. destruct (decide (ssrc = ssrc')) as [<-|Hne].
    + rewrite put_eq. destruct (co_order0 ssrc h Hh) as (s & Hss & Hle). rewrite Hss in Hafter. cbn in Hafter.
      eexists. split; [done|lia].
    + rewrite put_ne by done. by apply co_order0.
  - specialize (Hnr eq_refl). destruct (co_in0 ssrc) as (Hsr & Hir & R & HR & HRle).
    assert (forall h, nb_received n ssrc = Some h -> h < i) as Hlt.
    { intros h Hh. destruct (co_order0 ssrc h Hh) as (s & Hss & Hle). rewrite Hss in Hafter. cbn in Hafter. lia. }
    destruct (unprotect_wire (sl_inbound_rtp b) ssrc (i, p) wire R []) as (s2 & Hun & Hs2 & Hi2 & Hw2);
      [by eapply ctx_ok_same|done| |done|by rewrite Hir|done| |].
    { eapply (srtp_wire_same_keys (sl_outbound_rtp a)); [eapply same_keys_trans; eassumption|done]. }
    { apply fresh_above. intros j Hj. destruct (HRle j Hj) as (h & Hh & Hle). specialize (Hlt h Hh). cbn. lia. }
    cbn [fst snd] in *. unfold leg_unprotect. rewrite Hkw, Hun. split; [done|]. rewrite Hir in Hi2.
    split; cbn; try done.
    + intros ssrc' h. destruct (decide (ssrc = ssrc')) as [<-|Hne].
      * rewrite !put_eq. intros [= <-]. eexists. split; [done|lia].
      * rewrite !put_ne by done. apply co_order0.
    + intros ssrc'. destruct (decide (ssrc = ssrc')) as [<-|Hne].
      * rewrite stream_of_insert, put_eq, Hi2. split; [done|]. split.
        { apply highest_after. destruct (nb_received n ssrc) eqn:E; [|done]. cbn. by apply Hlt. }
        eexists. split; [done|]. intros j [->%elem_of_singleton|Hj]%elem_of_union; [exists i; split; [done|lia]|].
        destruct (HRle j Hj) as (h & Hh & Hle). specialize (Hlt h Hh). exists i. split; [done|lia].
      * rewrite stream_of_insert_ne, put_ne by done. apply co_in0.
Qed.

Lemma send_rtcp ka kb a b n p lost :
  key_ok ka -> call_ok ka a b n -> event_ok n (Send (RtcpItem p) lost) ->
  let '(out, (a', b')) := call_step ka kb (a, b) (Send (RtcpItem p) lost) in
  out = delivered [Send (RtcpItem p) lost] /\ call_ok ka a' b' (count_event n (Send (RtcpItem p) lost)).
Proof.
  intros Hka [] (Hp & Hk & Hmax). destruct (context_ok ka Hka) as [_ Hcx]. destruct co_outc0 as [Hn Hn0].
  destruct (srtcp_protect_wire (sl_outbound_rtcp a) p []) as (wire & Hprot & Hw); [by eapply srtcp_ok_same|done|lia|].
  assert (is_rtcp wire = true) as Hkw by (by rewrite (srtcp_wire_kind _ _ _ _ Hp Hw)).
  cbn [call_step item_packet fst snd]. unfold leg_protect. rewrite Hk, Hprot.
  rewrite Hn, Z.mod_small in * by lia.
  destruct lost; cbn [delivered count_event].
  - split; [done|]. split; cbn; try done; [lia|].
    destruct co_inc0 as (R & HR & HRlt). exists R. split; [done|]. intros j Hj%HRlt. lia.
  - destruct co_inc0 as (R & HR & HRlt).
    destruct (srtcp_unprotect_wire (sl_inbound_rtcp b) (nb_rtcp n) p wire R []) as (w & Hun & Hw2);
      [by eapply srtcp_ok_same|done|unfold fits; lia| |done|by apply fresh_above|].
    { eapply (srtcp_wire_same_keys (sl_outbound_rtcp a)); [eapply srtcp_same_trans; eassumption|done]. }
    unfold leg_unprotect. rewrite Hkw, Hun. split; [done|]. split; cbn; try done; [lia|].
    exists ({[nb_rtcp n]} ∪ R). split; [done|]. intros j [->%elem_of_singleton|Hj%HRlt]%elem_of_union; lia.
Qed.

Lemma failover_ok ka kb a b n :
  call_ok ka a b n -> call_ok ka (standby ka kb a) b n /\ call_ok ka a (standby kb ka b) n.
Proof.
  intros []. split.
  - split; try done; cbn [standby seed_rollover rollover_snapshot SecureLeg_new sl_outbound_rtp sl_outbound_rtcp
      lr_outbound_rtp lr_outbound_rtcp_index]; try done.
    + apply (seed_stream_of (sl_outbound_rtp a) (rtp_context ka) 0 eq_refl).
    + intros ssrc. destruct (seed_stream_of (sl_outbound_rtp a) (rtp_context ka) ssrc eq_refl) as [_ ->].
      destruct (co_out0 ssrc) as [Hs Hi]. destruct (seeded_ok _ Hs) as (? & -> & _). done.
  - split; try done; cbn [standby seed_rollover rollover_snapshot SecureLeg_new sl_inbound_rtp sl_inbound_rtcp
      lr_inbound_rtp]; try done.
    + apply (seed_stream_of (sl_inbound_rtp b) (rtp_context ka) 0 eq_refl).
    + intros ssrc. destruct (seed_stream_of (sl_inbound_rtp b) (rtp_context ka) ssrc eq_refl) as [_ ->].
      destruct (co_in0 ssrc) as (Hs & Hi & _). destruct (seeded_ok _ Hs) as (Hss & -> & Hw). split; [done|]. split; [done|].
      eexists. split; [exact Hw|]. rewrite Hi. intros j. destruct (nb_received n ssrc) as [h|]; [|set_solver].
      intros ->%elem_of_singleton. exists h. split; [done|lia].
    + exists ∅. split; [done|set_solver].
Qed.

Definition no_numbers : numbering := mkNumbering (fun _ => None) (fun _ => None) 0.

Lemma new_stream_of k ssrc : stream_of (rtp_context k) ssrc = StreamState_default.
Proof. unfold stream_of. change (sc_streams (rtp_context k)) with (∅ : gmap Z StreamState). by rewrite lookup_empty. Qed.

Lemma new_call_ok ka kb : call_ok ka (SecureLeg_new ka kb) (SecureLeg_new kb ka) no_numbers.
Proof.
  split; cbn [SecureLeg_new sl_outbound_rtp sl_inbound_rtp no_numbers nb_sent nb_received nb_rtcp]; try done.
  - intros ssrc. rewrite new_stream_of. split_and!; [split; [unfold fits; cbn; lia|done]|done|]. exists ∅. split; [done|set_solver].
  - exists ∅. split; [done|set_solver].
Qed.

Lemma call_run_delivered ka kb events : forall a b n,
  key_ok ka -> call_ok ka a b n -> events_ok n events -> call_run ka kb (a, b) events = delivered events.
Proof.
  induction events as [|e events IH]; intros a b n Hka Hc; [done|]. intros [He Hes]. cbn [call_run].
  assert (exists out a' b', call_step ka kb (a, b) e = (out, (a', b')) /\ out = delivered [e] /\
    call_ok ka a' b' (count_event n e)) as (out & a' & b' & -> & -> & Hc').
  { destruct e as [[ssrc i p|p] lost| |].
    - pose proof (send_rtp ka kb a b n ssrc i p lost Hka Hc He) as H. destruct (call_step _ _ _ _) as [out [a' b']]. naive_solver.
    - pose proof (send_rtcp ka kb a b n p lost Hka Hc He) as H. destruct (call_step _ _ _ _) as [out [a' b']]. naive_solver.
    - eexists _, _, _. split; [done|]. split; [done|]. by apply failover_ok.
    - eexists _, _, _. split; [done|]. split; [done|]. by apply failover_ok. }
  cbn [fst snd]. rewrite (IH a' b' (count_event n e)) by done. destruct e as [it [|]| |]; reflexivity.
Qed.

(** ** Theorem *)

End leg_proofs.

Definition example_events : list call_event :=
  [Send (RtpItem 7 65535 (example_packet 65535)) false; Send (RtcpItem [0x80; 201; 0; 1; 0; 0; 0; 9]) false;
   SenderFailover; Send (RtpItem 7 65536 (example_packet 0)) true; ReceiverFailover;
   Send (RtpItem 7 65537 (example_packet 1)) false; Send (RtcpItem [0x80; 200; 0; 2; 0; 0; 0; 9; 1; 2; 3; 4]) false].


(** * Legs under hostile input *)

Section hostile.
Context `{L : SrtpCryptoLaws}.
Context (keystream_bytes : forall key iv n, bytes_ok (ctr_keystream key iv n)).

Definition leg_inv (leg : SecureLeg) : Prop :=
  (ctx_ok (sl_inbound_rtp leg) /\ ctx_inv (sl_inbound_rtp leg)) /\ (ctx_ok (sl_outbound_rtp leg) /\ ctx_inv (sl_outbound_rtp leg)) /\
  (srtcp_ok (sl_inbound_rtcp leg) /\ exists R, window_ok (cc_recv_replay (sl_inbound_rtcp leg)) R) /\ srtcp_ok (sl_outbound_rtcp leg).

Lemma new_leg_inv local remote : key_ok local -> key_ok remote -> leg_inv (SecureLeg_new local remote).
Proof.
  intros Hl Hr. destruct (context_ok local Hl) as [Hl1 Hl2], (context_ok remote Hr) as [Hr1 Hr2].
  assert (forall k, ctx_inv (rtp_context k)) as Hi. { intros k ssrc. rewrite new_stream_of. split; [split; [unfold fits; cbn; lia|done]|]. by exists ∅. }
  split; [split; [exact Hr1|apply Hi]|]. split; [split; [exact Hl1|apply Hi]|]. split; [|exact Hl2]. split; [exact Hr2|]. by exists ∅.
Qed.

Lemma applied_bytes key iv buf : bytes_ok buf -> bytes_ok (apply_aes_cm key iv buf).
Proof.
  intros Hb. unfold apply_aes_cm. pose proof (keystream_bytes key iv (length buf)) as Hk. revert Hb Hk. generalize (ctr_keystream key iv (length buf)).
  induction buf as [|b buf IH]; intros [|k ks] Hb Hk; cbn [zip_with]; try constructor.
  - apply Forall_cons_1 in Hb as [Hb _], Hk as [Hk _]. unfold is_byte in *. pose proof (Z.lxor_nonneg b k). split; [lia|].
    change 256 with (2 ^ 8). destruct (Z.eq_dec (Z.lxor b k) 0) as [->|]; [lia|]. apply Z.log2_lt_pow2; [lia|].
    pose proof (Z.log2_lxor b k ltac:(lia) ltac:(lia)). assert (forall x, 0 <= x < 256 -> Z.log2 x < 8) as Hx.
    { intros x Hx. destruct (Z.eq_dec x 0) as [->|]; [done|]. apply Z.log2_lt_pow2; lia. }
    pose proof (Hx b ltac:(lia)). pose proof (Hx k ltac:(lia)). lia.
  - apply Forall_cons_1 in Hb as [_ Hb], Hk as [_ Hk]. by apply IH.
Qed.


Lemma crypt_tail_bytes key iv out hl : 0 <= hl <= len out -> bytes_ok out -> exists x, crypt_tail key iv out hl = Ok x /\ bytes_ok x.
Proof.
  intros Hh Hb. rewrite crypt_tail_Ok by done. eexists. split; [done|]. apply bytes_ok_app. split; [by apply bytes_ok_sub|]. by apply applied_bytes, bytes_ok_sub.
Qed.

Lemma rtp_unprotect_safe ctx srtp : ctx_ok ctx -> ctx_inv ctx -> bytes_ok srtp ->
  match SrtpContext_unprotect ctx srtp [] with
  | (Ok _, ctx', out) => ctx_ok ctx' /\ ctx_inv ctx' /\ bytes_ok out
  | (Err _, ctx', _) => ctx' = ctx
  | (Panic, _, _) => False
  end.
Proof.
  intros Hc Hi Hb. pose proof (unprotect_check_cases ctx srtp Hc Hi Hb) as H. unfold SrtpContext_unprotect.
  destruct (unprotect_check ctx srtp) as [[[[[a hl] ssrc] i] s]|e|] eqn:E; [|done|done]. destruct H as (Hhl & Hs & HR & _).
  assert (bytes_ok a) as Ha.
  { unfold unprotect_check in E. destruct (_ <? _); [done|]. bind_inv E at_ Hat. bind_inv E p Hp. bind_inv E tag Htag. bind_inv E x Hx. bind_inv E h Hh. destruct h as [[? ?] ?].
    destruct (index_for _ _) as [[? ?] ?]. bind_inv E r Hr. destruct r; [done|]. bind_inv E t Ht. destruct (negb _); [done|]. bind_inv E w Hw. injection E as <- _ _ _ _.
    eapply strip_mki_bytes; [|done]. unfold slice in Hp. destruct (_ && _) in Hp; [injection Hp as <-|done]. by apply bytes_ok_sub. }
  cbn [with_streams sc_session_key sc_session_salt]. destruct (crypt_tail_bytes (sc_session_key ctx) (cipher_iv (sc_session_salt ctx) ssrc i) a hl Hhl Ha) as (x & -> & Hx).
  split_and!; [done|by apply ctx_inv_insert|done].
Qed.

Lemma rtp_protect_safe ctx rtp : ctx_ok ctx -> ctx_inv ctx -> bytes_ok rtp ->
  match SrtpContext_protect ctx rtp [] with
  | (Ok _, ctx', _) => ctx_ok ctx' /\ ctx_inv ctx'
  | (Err _, ctx', _) => ctx' = ctx
  | (Panic, _, _) => False
  end.
Proof.
  intros Hc Hi Hb. unfold SrtpContext_protect. pose proof (parse_rtp_header_no_panic rtp). destruct (parse_rtp_header rtp) as [[[hl ssrc] seq]|e|] eqn:Hp; [|done|done].
  pose proof (parse_rtp_header_spec _ _ _ _ Hb Hp) as (Hhl & _ & Hseq). destruct (Hi ssrc) as [Hs [R HR]].
  destruct (index_for (stream_of ctx ssrc) seq) as [[i roc] s'] eqn:Hx. destruct (index_for_stable _ _ _ _ _ Hs Hseq Hx) as (Hs' & Hrp & _).
  cbn [with_streams sc_session_key sc_session_salt sc_session_auth]. rewrite crypt_tail_Ok by lia.
  match goal with |- context [auth_tag _ ?d _] => destruct (auth_tag_Ok (sc_session_auth ctx) d roc (proj1 Hc)) as (t & -> & _) end.
  split; [done|]. apply ctx_inv_insert; [done|done|]. exists R. by rewrite Hrp.
Qed.

Lemma srtcp_unprotect_safe ctx srtcp : srtcp_ok ctx -> (exists R, window_ok (cc_recv_replay ctx) R) -> bytes_ok srtcp ->
  match SrtcpContext_unprotect ctx srtcp [] with
  | (Ok _, ctx', out) => srtcp_ok ctx' /\ (exists R, window_ok (cc_recv_replay ctx') R) /\ bytes_ok out
  | (Err _, ctx', _) => ctx' = ctx
  | (Panic, _, _) => False
  end.
Proof.
  intros [Ha Hm] [R HR] Hb. unfold SrtcpContext_unprotect.
  assert (match srtcp_check ctx srtcp with
    | Ok (a, at_, _, _, w) => bytes_ok a /\ 8 <= at_ <= len a /\ exists R, window_ok w R | Err _ => True | Panic => False end) as H.
  { unfold srtcp_check, Srtp.AUTH_TAG_LEN, Srtcp.CLEAR_HEADER_LEN, Srtcp.INDEX_TRAILER_LEN.
    cbv zeta. fold (mki_len_of (cc_mki ctx)). assert (0 <= mki_len_of (cc_mki ctx)) by (destruct (cc_mki ctx) as [m|]; [unfold mki_ok in Hm; unfold mki_len_of, Mki_len; lia|done]).
    destruct (Z.ltb_spec (len srtcp) (8 + 4 + mki_len_of (cc_mki ctx) + 10)); [done|].
    destruct (@idx_in_range SrtpError Z srtcp 0) as (b0 & -> & _); [lia|]. rewrite bind_Ok. destruct (negb _); [done|].
    rewrite usub_Ok, bind_Ok, !slice_Ok, !bind_Ok by lia. pose proof (strip_mki_no_panic (sub srtcp 0 (len srtcp - 10)) (cc_mki ctx)).
    destruct (strip_mki (sub srtcp 0 (len srtcp - 10)) (cc_mki ctx)) as [a|e|] eqn:Hs; [|done|done]. rewrite bind_Ok.
    apply strip_mki_bytes in Hs as Hab; [|by apply bytes_ok_sub].
    assert (12 <= len a) as Hla.
    { unfold strip_mki in Hs. destruct (cc_mki ctx) as [m|]; [|injection Hs as <-; rewrite len_sub; lia]. destruct (_ <? _); [done|]. destruct (negb _); [done|]. injection Hs as <-.
      unfold mki_ok in Hm. unfold mki_len_of, Mki_len in *. rewrite !len_sub by (rewrite ?len_sub; lia). lia. }
    rewrite usub_Ok, bind_Ok by lia. rewrite be32_at_sub, bind_Ok by lia. set (a0 := be_dec _). destruct (is_replay_correct _ _ (Z.land a0 Srtcp.INDEX_MASK) HR) as (r & -> & Hr). rewrite bind_Ok. destruct r; [done|].
    destruct (hmac_80_Ok (cc_session_auth ctx) a Ha) as (t & -> & _). rewrite bind_Ok. destruct (negb _); [done|].
    destruct (record_correct _ _ (Z.land a0 Srtcp.INDEX_MASK) HR ltac:(tauto)) as (w' & -> & Hw' & _). rewrite bind_Ok. split; [done|]. split; [lia|]. by exists ({[ Z.land a0 Srtcp.INDEX_MASK ]} ∪ R). }
  destruct (srtcp_check ctx srtcp) as [[[[[a at_] enc] i] w]|e|]; [|done|done]. destruct H as (Hab & Hat & HRw).
  rewrite be32_at_sub, bind_Ok, slice_Ok, bind_Ok by lia. set (ssrc := be_dec _). cbn [set_recv_replay cc_session_key cc_session_salt].
  assert (bytes_ok (sub a 0 at_)) as Hbs by by apply bytes_ok_sub. destruct enc.
  - destruct (crypt_tail_bytes (cc_session_key ctx) (cipher_iv (cc_session_salt ctx) ssrc i) (sub a 0 at_) Srtcp.CLEAR_HEADER_LEN) as (x & -> & Hx); [rewrite len_sub; unfold Srtcp.CLEAR_HEADER_LEN; lia|done|].
    split; [done|]. split; done.
  - split; [done|]. split; done.
Qed.

Lemma srtcp_protect_safe ctx rtcp : srtcp_ok ctx ->
  match SrtcpContext_protect ctx rtcp [] with
  | (Ok _, ctx', _) => srtcp_ok ctx'
  | (Err _, ctx', _) => ctx' = ctx
  | (Panic, _, _) => False
  end.
Proof.
  intros [Ha Hm]. unfold SrtcpContext_protect. destruct (Z.ltb_spec (len rtcp) Srtcp.CLEAR_HEADER_LEN) as [|Hl]; [done|]. unfold Srtcp.CLEAR_HEADER_LEN in Hl.
  destruct (@idx_in_range SrtpError Z rtcp 0) as (b0 & -> & _); [lia|]. rewrite bind_Ok, be32_at_sub, bind_Ok by lia. set (ssrc := be_dec _). cbn [mret res_ret].
  destruct (negb _); [done|]. cbn [Srtcp.set_send_index cc_session_key cc_session_salt cc_session_auth]. rewrite crypt_tail_Ok by (unfold Srtcp.CLEAR_HEADER_LEN; lia).
  match goal with |- context [hmac_sha1_80 _ ?d] => destruct (hmac_80_Ok (cc_session_auth ctx) d Ha) as (t & -> & _) end. done.
Qed.

Lemma leg_unprotect_safe leg packet : leg_inv leg -> bytes_ok packet ->
  match leg_unprotect leg packet [] with
  | (Ok _, leg', out) => leg_inv leg' /\ bytes_ok out
  | (Err _, leg', _) => leg' = leg
  | (Panic, _, _) => False
  end.
Proof.
  intros ([Hi1 Hi2] & Ho & [Hc1 Hc2] & Hoc) Hb. unfold leg_unprotect. destruct (is_rtcp packet).
  - pose proof (srtcp_unprotect_safe _ packet Hc1 Hc2 Hb) as H. destruct (SrtcpContext_unprotect _ _ _) as [[[u|e|] ctx] out]; cbn [with_kind]; [|by rewrite H; destruct leg|done].
    destruct H as (H1 & H2 & H3). done.
  - pose proof (rtp_unprotect_safe _ packet Hi1 Hi2 Hb) as H. destruct (SrtpContext_unprotect _ _ _) as [[[u|e|] ctx] out]; cbn [with_kind]; [|by rewrite H; destruct leg|done].
    destruct H as (H1 & H2 & H3). done.
Qed.

Lemma leg_protect_safe leg packet : leg_inv leg -> bytes_ok packet ->
  match leg_protect leg packet [] with
  | (Ok _, leg', _) => leg_inv leg'
  | (Err _, leg', _) => leg' = leg
  | (Panic, _, _) => False
  end.
Proof.
  intros (Hi & [Ho1 Ho2] & Hc & Hoc) Hb. unfold leg_protect. destruct (is_rtcp packet).
  - pose proof (srtcp_protect_safe _ packet Hoc) as H. destruct (SrtcpContext_protect _ _ _) as [[[u|e|] ctx] out]; cbn [with_kind]; [done|by rewrite H; destruct leg|done].
  - pose proof (rtp_protect_safe _ packet Ho1 Ho2 Hb) as H. destruct (SrtpContext_protect _ _ _) as [[[u|e|] ctx] out]; cbn [with_kind]; [done|by rewrite H; destruct leg|done].
Qed.

End hostile.

(** The example cipher, its keystream cut to bytes. *)
Definition byte_crypto : SrtpCrypto :=
  {| ctr_keystream := fun key iv n => (fun b => b mod 256) <$> toy_keystream key iv n; hmac_digest := toy_hmac |}.

Lemma byte_crypto_laws : SrtpCryptoLaws byte_crypto.
Proof.
  constructor; [intros key iv n; change (length ((fun b => b mod 256) <$> toy_keystream key iv n) = n); unfold toy_keystream; by rewrite length_fmap, length_replicate|]. intros key data. exact (@hmac_len toy_crypto toy_crypto_laws key data).
Qed.

Lemma byte_crypto_bytes key iv n : bytes_ok (@ctr_keystream byte_crypto key iv n).
Proof. apply Forall_fmap, list.Forall_forall. intros b _. cbn. unfold is_byte. pose proof (Z.mod_pos_bound b 256). lia. Qed.
