(* ===== verification/Ice.v ===== *)
(** * ICE candidates and the checklist

    crates/siphon-rtp-ice/src/candidate.rs (kinds, priorities, foundations, local
    preferences) and checklist.rs (pairs and the ordered list of checks).  Strings
    are their bytes; indices into the list of pairs are natural numbers.  The sorts
    of the source are stable, and so is [sort_by]. *)

From Stdlib Require Import Lia ZArith Sorted.
From S2P Require Import Prelude Bencode Stun Net.
From stdpp Require Import base list numbers option sets.

Open Scope Z_scope.

(** ** Candidates *)

Definition MAX_COMPONENT_ID : Z := 256.

Inductive CandidateKind : Type := Host | ServerReflexive | PeerReflexive | Relayed.

#[export] Instance CandidateKind_eq_dec : EqDecision CandidateKind.
Proof. solve_decision. Defined.

Definition type_preference (kind : CandidateKind) : Z :=
  match kind with Host => 126 | PeerReflexive => 110 | ServerReflexive => 100 | Relayed => 0 end.

(** host, srflx, prflx, relay *)
Definition kind_token (kind : CandidateKind) : bytes :=
  match kind with
  | Host => [104; 111; 115; 116]
  | ServerReflexive => [115; 114; 102; 108; 120]
  | PeerReflexive => [112; 114; 102; 108; 120]
  | Relayed => [114; 101; 108; 97; 121]
  end.

Definition has_related_address (kind : CandidateKind) : bool := match kind with Host => false | _ => true end.

Inductive Transport : Type := Udp | Other (token : bytes).

Definition is_supported (t : Transport) : bool := match t with Udp => true | Other _ => false end.
Definition transport_token (t : Transport) : bytes := match t with Udp => [85; 68; 80] | Other token => token end.

Record Candidate : Type := mkCandidate {
  cd_foundation : bytes;
  cd_component : Z;
  cd_transport : Transport;
  cd_priority : Z;
  cd_address : SocketAddr;
  cd_kind : CandidateKind;
  cd_related : option SocketAddr;
  cd_extensions : list (bytes * bytes)
}.

(** Clamped to what the formula allows. *)
Definition priority (type_preference local_preference component : Z) : Z :=
  let type_preference := Z.min type_preference 126 in
  let component := Z.max 1 (Z.min component MAX_COMPONENT_ID) in
  Z.lor (Z.lor (Z.shiftl type_preference 24) (Z.shiftl local_preference 8)) (256 - component).

Definition Candidate_new (foundation : bytes) (component : Z) (address : SocketAddr) (kind : CandidateKind)
  (local_preference : Z) : Candidate :=
  mkCandidate foundation component Udp (priority (type_preference kind) local_preference component) address kind None [].

Definition with_related (c : Candidate) (related : SocketAddr) : Candidate :=
  mkCandidate (cd_foundation c) (cd_component c) (cd_transport c) (cd_priority c) (cd_address c) (cd_kind c)
    (Some related) (cd_extensions c).

(** FNV-1a over the fields, each closed by a separator. *)
Definition FNV_OFFSET_BASIS : Z := 0xcbf29ce484222325.
Definition FNV_PRIME : Z := 0x100000001b3.

Definition fnv_byte (hash byte : Z) : Z := wrap 64 (Z.lxor hash byte * FNV_PRIME).
Definition absorb (hash : Z) (bytes_ : bytes) : Z := fnv_byte (foldl fnv_byte hash bytes_) 0xff.

Definition compute_foundation (kind : CandidateKind) (base : IpAddr) (transport : Transport) (server : option SocketAddr)
  : bytes :=
  let hash := FNV_OFFSET_BASIS in
  let hash := absorb hash (kind_token kind) in
  let hash := absorb hash (ip_to_string base) in
  let hash := absorb hash (transport_token transport) in
  let hash := absorb hash (match server with Some server => socket_to_string server | None => [] end) in
  digits hash.

Definition is_ice_mismatch (default_destination : SocketAddr) (candidates : list Candidate) : bool :=
  match candidates with [] => false | _ => true end &&
  negb (existsb (fun c => bool_decide (cd_address c = default_destination)) candidates).

Definition is_ipv4 (a : SocketAddr) : bool := match sa_ip a with V4 _ => true | V6 _ => false end.

(** [interleaved_local_preferences]: the rounds take the next index of each family. *)
Fixpoint family_indices (v6 : bool) (i : nat) (addresses : list IpAddr) : list nat :=
  match addresses with
  | [] => []
  | a :: addresses =>
      let rest := family_indices v6 (S i) addresses in
      if Bool.eqb match a with V6 _ => true | V4 _ => false end v6 then i :: rest else rest
  end.

Fixpoint interleave (v6 v4 : list nat) : list nat :=
  match v6, v4 with
  | i :: v6, j :: v4 => i :: j :: interleave v6 v4
  | _, [] => v6
  | [], _ => v4
  end.

Fixpoint assign_preferences (order : list nat) (rank : Z) (preferences : list Z) : list Z :=
  match order with
  | [] => preferences
  | i :: order => assign_preferences order (saturating_add 16 rank 1) (<[i := 0xFFFF - rank]> preferences)
  end.

Definition interleaved_local_preferences (addresses : list IpAddr) : list Z :=
  assign_preferences (interleave (family_indices true 0 addresses) (family_indices false 0 addresses)) 0
    (replicate (length addresses) 0).

(** ** Pairs *)

Inductive PairState : Type := Frozen | Waiting | InProgress | PairSucceeded | PairFailed.

#[export] Instance PairState_eq_dec : EqDecision PairState.
Proof. solve_decision. Defined.

Record CandidatePair : Type := mkCandidatePair {
  cp_local : Candidate;
  cp_remote : Candidate;
  cp_priority : Z;
  cp_state : PairState;
  cp_nominated : bool
}.

Definition pair_priority (local_priority remote_priority : Z) (controlling : bool) : Z :=
  let '(g, d) := if controlling then (local_priority, remote_priority) else (remote_priority, local_priority) in
  saturating_add 64 (saturating_add 64 (saturating_mul 64 (Z.shiftl 1 32) (Z.min g d)) (saturating_mul 64 2 (Z.max g d)))
    (b2z (d <? g)).

Definition CandidatePair_new (local remote : Candidate) (controlling : bool) : CandidatePair :=
  mkCandidatePair local remote (pair_priority (cd_priority local) (cd_priority remote) controlling) Frozen false.

Definition pair_foundation (p : CandidatePair) : bytes * bytes := (cd_foundation (cp_local p), cd_foundation (cp_remote p)).
Definition pair_component (p : CandidatePair) : Z := cd_component (cp_local p).
Definition pair_key (p : CandidatePair) : SocketAddr * SocketAddr := (cd_address (cp_local p), cd_address (cp_remote p)).

Definition set_pair_state (state : PairState) (p : CandidatePair) : CandidatePair :=
  mkCandidatePair (cp_local p) (cp_remote p) (cp_priority p) state (cp_nominated p).
Definition set_nominated (p : CandidatePair) : CandidatePair :=
  mkCandidatePair (cp_local p) (cp_remote p) (cp_priority p) (cp_state p) true.

(** ** The checklist *)

(** A stable sort: [before y x] says [y] must stay in front of a newcomer [x]. *)
Fixpoint insert_by {A} (before : A -> A -> bool) (x : A) (l : list A) : list A :=
  match l with
  | [] => [x]
  | y :: l => if before y x then y :: insert_by before x l else x :: y :: l
  end.

Definition sort_by {A} (before : A -> A -> bool) (l : list A) : list A := foldr (insert_by before) [] l.

(** [sort_by_key(|pair| Reverse(pair.priority))] *)
Definition sort_pairs (pairs : list CandidatePair) : list CandidatePair :=
  sort_by (fun y x => cp_priority x <? cp_priority y) pairs.

Definition compatible (local remote : Candidate) : bool :=
  (cd_component local =? cd_component remote) && Bool.eqb (is_ipv4 (cd_address local)) (is_ipv4 (cd_address remote)) &&
  is_supported (cd_transport local) && is_supported (cd_transport remote).

Definition form_pairs (local remote : list Candidate) (controlling : bool) : list CandidatePair :=
  concat (map (fun l => map (fun r => CandidatePair_new l r controlling) (filter (fun r => compatible l r = true) remote)) local).

(** A server-reflexive local candidate is checked from its base. *)
Definition use_base (p : CandidatePair) : CandidatePair :=
  let local := cp_local p in
  match cd_kind local, cd_related local with
  | ServerReflexive, Some base =>
      mkCandidatePair
        (mkCandidate (cd_foundation local) (cd_component local) (cd_transport local) (cd_priority local) base
           (cd_kind local) (cd_related local) (cd_extensions local))
        (cp_remote p) (cp_priority p) (cp_state p) (cp_nominated p)
  | _, _ => p
  end.

Fixpoint retain_unseen (seen : list (SocketAddr * SocketAddr)) (pairs : list CandidatePair) : list CandidatePair :=
  match pairs with
  | [] => []
  | p :: pairs =>
      if bool_decide (pair_key p ∈ seen) then retain_unseen seen pairs
      else p :: retain_unseen (seen ++ [pair_key p]) pairs
  end.

Definition prune (pairs : list CandidatePair) : list CandidatePair := retain_unseen [] (sort_pairs (map use_base pairs)).

(** The loop of [freeze_initial] over the indices in component order. *)
Fixpoint start_foundations (order : list nat) (started : list (bytes * bytes)) (pairs : list CandidatePair)
  : list CandidatePair :=
  match order with
  | [] => pairs
  | i :: order =>
      match pairs !! i with
      | None => start_foundations order started pairs
      | Some p =>
          if bool_decide (pair_foundation p ∈ started) then start_foundations order started pairs
          else start_foundations order (started ++ [pair_foundation p]) (<[i := set_pair_state Waiting p]> pairs)
      end
  end.

Definition component_at (pairs : list CandidatePair) (i : nat) : Z :=
  match pairs !! i with Some p => pair_component p | None => 0 end.

Definition freeze_initial (pairs : list CandidatePair) : list CandidatePair :=
  start_foundations (sort_by (fun j i => component_at pairs j <? component_at pairs i) (seq 0 (length pairs))) [] pairs.

Definition Checklist_form (local remote : list Candidate) (controlling : bool) : list CandidatePair :=
  freeze_initial (sort_pairs (prune (form_pairs local remote controlling))).

(** [max_by_key]: the last among equals. *)
Fixpoint next_waiting_from (i : nat) (best : option (nat * Z)) (pairs : list CandidatePair) : option nat :=
  match pairs with
  | [] => fst <$> best
  | p :: pairs =>
      let best :=
        if bool_decide (cp_state p = Waiting) then
          match best with
          | Some (_, priority) => if priority <=? cp_priority p then Some (i, cp_priority p) else best
          | None => Some (i, cp_priority p)
          end
        else best in
      next_waiting_from (S i) best pairs
  end.

Definition next_waiting (pairs : list CandidatePair) : option nat := next_waiting_from 0 None pairs.

Fixpoint find_pair_from (i : nat) (local remote : SocketAddr) (pairs : list CandidatePair) : option nat :=
  match pairs with
  | [] => None
  | p :: pairs =>
      if bool_decide (cd_address (cp_local p) = local) && bool_decide (cd_address (cp_remote p) = remote) then Some i
      else find_pair_from (S i) local remote pairs
  end.

Definition find_pair (pairs : list CandidatePair) (local remote : SocketAddr) : option nat :=
  find_pair_from 0 local remote pairs.

Definition unfreeze_foundation (foundation : bytes * bytes) (pairs : list CandidatePair) : list CandidatePair :=
  map (fun p =>
    if bool_decide (cp_state p = Frozen) && bool_decide (pair_foundation p = foundation) then set_pair_state Waiting p
    else p) pairs.

Definition priority_at (pairs : list CandidatePair) (i : nat) : Z :=
  match pairs !! i with Some p => cp_priority p | None => 0 end.

Definition succeeded_at (pairs : list CandidatePair) (i : nat) : bool :=
  match pairs !! i with Some p => bool_decide (cp_state p = PairSucceeded) | None => false end.

Definition valid (pairs : list CandidatePair) : list nat :=
  sort_by (fun j i => priority_at pairs i <? priority_at pairs j)
    (filter (fun i => succeeded_at pairs i = true) (seq 0 (length pairs))).

Definition is_exhausted (pairs : list CandidatePair) : bool :=
  forallb (fun p => bool_decide (cp_state p = PairSucceeded) || bool_decide (cp_state p = PairFailed)) pairs.

(** ** Sorting *)

Section Sorting.
Context {A : Type} (before : A -> A -> bool).

Lemma insert_by_perm x l : insert_by before x l ≡ₚ x :: l.
Proof.
  induction l as [|y l IH]; cbn [insert_by]; [done|]. destruct (before y x); [|done].
  rewrite IH. apply Permutation_swap.
Qed.

Lemma sort_by_perm l : sort_by before l ≡ₚ l.
Proof. induction l as [|x l IH]; [done|]. unfold sort_by. cbn [foldr]. by rewrite insert_by_perm, IH. Qed.

(** The output is ordered by any transitive [R] that agrees with [before]; the
    newcomer may rely on its place [Q] relative to the elements behind it. *)
Lemma sort_by_sorted (R Q : A -> A -> Prop) l : StronglySorted Q l ->
  (forall x y z, R x y -> R y z -> R x z) ->
  (forall x y, Q x y -> before y x = true -> R y x) ->
  (forall x y, Q x y -> before y x = false -> R x y) -> StronglySorted R (sort_by before l).
Proof.
  intros HQ Htrans Hb Ha. induction HQ as [|x l HQ IH Hx]; [constructor|]. unfold sort_by. cbn [foldr].
  change (foldr (insert_by before) [] l) with (sort_by before l).
  assert (Forall (Q x) (sort_by before l)) as Hx' by (by rewrite sort_by_perm). clear Hx HQ.
  induction IH as [|y m Hm IHm Hy]; cbn [insert_by]; [repeat constructor|].
  apply Forall_cons_1 in Hx' as [Hxy Hxm]. destruct (before y x) eqn:Hyx.
  - constructor; [by apply IHm|]. rewrite insert_by_perm. constructor; [by apply Hb|done].
  - assert (R x y) by (by apply Ha). constructor; [by constructor|]. constructor; [done|].
    eapply Forall_impl; [exact Hy|]. eauto.
Qed.
End Sorting.

Definition by_priority (p q : CandidatePair) : Prop := cp_priority q <= cp_priority p.

Lemma sorted_any {A} (l : list A) : StronglySorted (fun _ _ => True) l.
Proof. induction l; constructor; [done|]. by apply Forall_true. Qed.

Lemma sort_pairs_sorted pairs : StronglySorted by_priority (sort_pairs pairs).
Proof.
  apply (sort_by_sorted _ by_priority (fun _ _ => True)); unfold by_priority; [apply sorted_any|lia| |];
    intros x y _ H; [apply Z.ltb_lt in H|apply Z.ltb_ge in H]; lia.
Qed.

Lemma sort_pairs_perm pairs : sort_pairs pairs ≡ₚ pairs.
Proof. apply sort_by_perm. Qed.

(** ** Pruning *)

Lemma retain_unseen_spec pairs : forall seen,
  NoDup (pair_key <$> retain_unseen seen pairs) /\
  Forall (fun p => pair_key p ∉ seen) (retain_unseen seen pairs) /\
  retain_unseen seen pairs `sublist_of` pairs /\
  (StronglySorted by_priority pairs -> forall p, p ∈ pairs -> pair_key p ∈ seen \/
     exists q, q ∈ retain_unseen seen pairs /\ pair_key q = pair_key p /\ by_priority q p).
Proof.
  induction pairs as [|p pairs IH]; intros seen; cbn [retain_unseen].
  { split_and!; [constructor|constructor|constructor|]. intros _ p Hp. by apply elem_of_nil in Hp. }
  case_bool_decide as Hin.
  - destruct (IH seen) as (H1 & H2 & H3 & H4). split_and!; [done|done|by apply sublist_cons|].
    intros Hs q Hq. apply elem_of_cons in Hq as [->|Hq]; [by left|]. inversion Hs; subst. by apply H4.
  - destruct (IH (seen ++ [pair_key p])) as (H1 & H2 & H3 & H4). split_and!.
    + rewrite fmap_cons. constructor; [|done]. intros Hk. apply list_elem_of_fmap in Hk as (q & Hq & Hqin).
      rewrite Forall_forall in H2. apply (H2 q Hqin). rewrite <- Hq. set_solver.
    + constructor; [done|]. eapply Forall_impl; [exact H2|]. intros q Hq. set_solver.
    + by apply sublist_skip.
    + intros Hs q Hq. inversion Hs as [|? ? Hs' Hall]; subst. rewrite Forall_forall in Hall.
      apply elem_of_cons in Hq as [->|Hq].
      * right. exists p. split_and!; [set_solver|done|unfold by_priority; lia].
      * destruct (H4 Hs' q Hq) as [Hk|(q' & Hq' & Hk & Hpr)].
        -- apply elem_of_app in Hk as [Hk|Hk]; [by left|]. apply list_elem_of_singleton in Hk. right. exists p.
           split_and!; [set_solver|done|by apply Hall].
        -- right. exists q'. split_and!; [set_solver|done|done].
Qed.

(** ** Freezing *)

Definition foundation_at (pairs : list CandidatePair) (i : nat) : option (bytes * bytes) := pair_foundation <$> pairs !! i.

Lemma start_foundations_other order : forall started pairs i, i ∉ order ->
  start_foundations order started pairs !! i = pairs !! i.
Proof.
  induction order as [|j order IH]; intros started pairs i Hi; cbn [start_foundations]; [done|].
  apply not_elem_of_cons in Hi as [Hij Hi]. destruct (pairs !! j) as [p|] eqn:Hp; [|by apply IH].
  case_bool_decide; [by apply IH|]. rewrite IH by done. by apply list_lookup_insert_ne.
Qed.

Lemma start_foundations_length order : forall started pairs, length (start_foundations order started pairs) = length pairs.
Proof.
  induction order as [|j order IH]; intros started pairs; cbn [start_foundations]; [done|].
  destruct (pairs !! j); [|done]. case_bool_decide; [done|]. by rewrite IH, length_insert.
Qed.

(** Index [i] of the order is started exactly when no index before it, and no
    foundation started earlier, has its foundation. *)
Lemma start_foundations_at pre : forall i post started pairs p,
  NoDup (pre ++ i :: post) -> pairs !! i = Some p -> (forall j, j ∈ pre ++ i :: post -> (j < length pairs)%nat) ->
  start_foundations (pre ++ i :: post) started pairs !! i =
  Some (if bool_decide (pair_foundation p ∈ started) || existsb (fun j => bool_decide (foundation_at pairs j = Some (pair_foundation p))) pre
        then p else set_pair_state Waiting p).
Proof.
  induction pre as [|k pre IH]; intros i post started pairs p Hnd Hp Hlt; cbn [app start_foundations existsb] in *.
  - apply NoDup_cons in Hnd as [Hi _]. rewrite Hp, orb_false_r. case_bool_decide.
    + by rewrite start_foundations_other.
    + rewrite start_foundations_other by done. rewrite list_lookup_insert_eq; [done|]. by eapply lookup_lt_Some.
  - apply NoDup_cons in Hnd as [Hk Hnd]. assert (k <> i) as Hki by set_solver.
    destruct (lookup_lt_is_Some_2 pairs k) as [q Hq]; [apply Hlt; set_solver|]. rewrite Hq.
    assert (foundation_at pairs k = Some (pair_foundation q)) as Hfk by (unfold foundation_at; by rewrite Hq).
    case_bool_decide as Hst.
    + rewrite (IH i post started pairs p) by (done || set_solver). rewrite Hfk.
      destruct (bool_decide_reflect (pair_foundation p ∈ started)); [done|]. cbn [orb].
      rewrite (bool_decide_eq_false_2 (Some (pair_foundation q) = _)); [done|]. intros Heq. apply (inj Some) in Heq. by rewrite Heq in Hst.
    + rewrite (IH i post (started ++ [pair_foundation q]) _ p); [|done|by rewrite list_lookup_insert_ne|].
      2: { intros j Hj. rewrite length_insert. apply Hlt. set_solver. }
      assert (forall j, foundation_at (<[k:=set_pair_state Waiting q]> pairs) j = foundation_at pairs j) as Hf.
      { intros j. unfold foundation_at. destruct (decide (j = k)) as [->|]; [|by rewrite list_lookup_insert_ne].
        rewrite list_lookup_insert_eq by (by eapply lookup_lt_Some). by rewrite Hq. }
      assert (forall f l, existsb (fun j => bool_decide (foundation_at (<[k:=set_pair_state Waiting q]> pairs) j = f)) l =
                          existsb (fun j => bool_decide (foundation_at pairs j = f)) l) as ->.
      { intros f l. induction l as [|j l IHl]; cbn [existsb]; [done|]. by rewrite Hf, IHl. }
      do 2 f_equal. rewrite Hfk.
      assert (bool_decide (pair_foundation p ∈ started ++ [pair_foundation q]) =
        bool_decide (pair_foundation p ∈ started) || bool_decide (Some (pair_foundation q) = Some (pair_foundation p))) as ->.
      { apply eq_bool_prop_intro. rewrite orb_True, !bool_decide_spec, elem_of_app, list_elem_of_singleton.
        generalize (pair_foundation p), (pair_foundation q). intros f g. split; (intros [?|?]; [by left|right; congruence]). }
      by rewrite orb_assoc.
Qed.

(** The order in which [freeze_initial] visits the indices: by component, then by
    position. *)
Definition visits_before (pairs : list CandidatePair) (i j : nat) : Prop :=
  component_at pairs i < component_at pairs j \/ component_at pairs i = component_at pairs j /\ (i < j)%nat.

Lemma seq_sorted n : forall s, StronglySorted lt (seq s n).
Proof.
  induction n as [|n IH]; intros s; cbn [seq]; constructor; [done|]. apply Forall_forall. intros x Hx. apply elem_of_seq in Hx. lia.
Qed.

Lemma visit_order_sorted pairs :
  StronglySorted (visits_before pairs) (sort_by (fun j i => component_at pairs j <? component_at pairs i) (seq 0 (length pairs))).
Proof.
  apply (sort_by_sorted _ (visits_before pairs) lt); unfold visits_before; [apply seq_sorted|lia| |];
    intros x y Hxy H; [apply Z.ltb_lt in H|apply Z.ltb_ge in H]; lia.
Qed.

Lemma StronglySorted_mid {A} (R : A -> A -> Prop) l1 x l2 :
  StronglySorted R (l1 ++ x :: l2) -> Forall (fun y => R y x) l1 /\ Forall (R x) l2.
Proof.
  induction l1 as [|y l1 IH]; cbn [app]; intros H; inversion H as [|? ? Hs Hall]; subst; [by split|].
  destruct (IH Hs) as [H1 H2]. split; [|done]. constructor; [|done]. rewrite Forall_forall in Hall. apply Hall. set_solver.
Qed.

(** The states [freeze_initial] gives: a pair waits exactly when no pair of its
    foundation is visited before it. *)
Lemma freeze_initial_at pairs i p : pairs !! i = Some p ->
  exists b, freeze_initial pairs !! i = Some (if (b : bool) then p else set_pair_state Waiting p) /\
  (b = true <-> exists j q, pairs !! j = Some q /\ pair_foundation q = pair_foundation p /\ visits_before pairs j i).
Proof.
  intros Hp. unfold freeze_initial. set (order := sort_by _ _). assert (order ≡ₚ seq 0 (length pairs)) as Hperm by apply sort_by_perm.
  assert (forall j, j ∈ order <-> (j < length pairs)%nat) as Hin.
  { intros j. rewrite Hperm, elem_of_seq. lia. }
  assert (NoDup order) as Hnd by (rewrite Hperm; apply NoDup_seq).
  destruct (list_elem_of_split order i) as (pre & post & Ho); [apply Hin; by eapply lookup_lt_Some|].
  pose proof (visit_order_sorted pairs) as Hs. fold order in Hs. rewrite Ho in *. apply StronglySorted_mid in Hs as [Hpre Hpost].
  rewrite Forall_forall in Hpre, Hpost. eexists. split; [apply start_foundations_at; [done|done|]|].
  { intros j Hj. by apply Hin. }
  rewrite bool_decide_eq_false_2 by apply not_elem_of_nil. cbn [orb]. rewrite existsb_exists. split.
  - intros (j & Hj & Hf). apply bool_decide_eq_true in Hf. apply list_elem_of_In in Hj. unfold foundation_at in Hf.
    destruct (pairs !! j) as [q|] eqn:Hq; [|done]. apply (inj Some) in Hf. exists j, q. split_and!; [done|done|by apply Hpre].
  - intros (j & q & Hq & Hf & Hv). exists j. split.
    + apply list_elem_of_In. assert (j ∈ pre ++ i :: post) as Hj by (apply Hin; by eapply lookup_lt_Some).
      apply elem_of_app in Hj as [?|Hj]; [done|]. apply elem_of_cons in Hj as [->|Hj]; [unfold visits_before in Hv; lia|].
      specialize (Hpost j Hj). unfold visits_before in *. lia.
    + apply bool_decide_eq_true. unfold foundation_at. rewrite Hq. cbn. by rewrite Hf.
Qed.

(** ** Formation *)

(** Candidates outside a state: what the states leave untouched. *)
Definition erase_state (p : CandidatePair) : CandidatePair := set_pair_state Frozen p.

Lemma freeze_initial_erase pairs : erase_state <$> freeze_initial pairs = erase_state <$> pairs.
Proof.
  apply list_eq. intros i. rewrite !list_lookup_fmap. destruct (pairs !! i) as [p|] eqn:Hp.
  - destruct (freeze_initial_at pairs i p Hp) as (b & -> & _). by destruct b.
  - assert (freeze_initial pairs !! i = None) as ->; [|done].
    apply lookup_ge_None_2. unfold freeze_initial. rewrite start_foundations_length. by apply lookup_ge_None_1.
Qed.

Lemma elem_form_pairs local remote controlling p :
  p ∈ form_pairs local remote controlling <->
  exists l r, l ∈ local /\ r ∈ remote /\ compatible l r = true /\ p = CandidatePair_new l r controlling.
Proof.
  unfold form_pairs. rewrite list_elem_of_In, in_concat. setoid_rewrite in_map_iff. split.
  - intros (x & (l & <- & Hl) & Hx). apply in_map_iff in Hx as (r & <- & Hr).
    rewrite <- list_elem_of_In in Hl, Hr. apply list_elem_of_filter in Hr as [Hc Hr]. eauto 8.
  - intros (l & r & Hl & Hr & Hc & ->). eexists. split; [exists l; split; [done|by apply list_elem_of_In]|].
    apply (in_map (fun r => CandidatePair_new l r controlling)). apply list_elem_of_In, list_elem_of_filter. done.
Qed.

Lemma use_base_parts p : cp_remote (use_base p) = cp_remote p /\ cp_priority (use_base p) = cp_priority p /\
  cp_state (use_base p) = cp_state p /\ cp_nominated (use_base p) = cp_nominated p /\
  pair_component (use_base p) = pair_component p /\ pair_foundation (use_base p) = pair_foundation p.
Proof. unfold use_base. by destruct (cd_kind (cp_local p)), (cd_related (cp_local p)). Qed.

(** Before freezing. *)
Lemma pruned_spec local remote controlling :
  let pairs := sort_pairs (prune (form_pairs local remote controlling)) in
  StronglySorted by_priority pairs /\ NoDup (pair_key <$> pairs) /\
  (forall p, p ∈ pairs -> exists l r, l ∈ local /\ r ∈ remote /\ compatible l r = true /\
     p = use_base (CandidatePair_new l r controlling)) /\
  (forall l r, l ∈ local -> r ∈ remote -> compatible l r = true -> exists p, p ∈ pairs /\
     pair_key p = pair_key (use_base (CandidatePair_new l r controlling)) /\
     by_priority p (CandidatePair_new l r controlling)).
Proof.
  cbv zeta. set (based := map use_base (form_pairs local remote controlling)). split; [apply sort_pairs_sorted|].
  destruct (retain_unseen_spec (sort_pairs based) []) as (Hnd & _ & Hsub & Hall). fold based. unfold prune. fold based. split_and!.
  - by rewrite sort_pairs_perm.
  - intros p Hp. rewrite sort_pairs_perm in Hp. eapply elem_of_sublist in Hp; [|exact Hsub]. rewrite sort_pairs_perm in Hp.
    unfold based in Hp. apply list_elem_of_fmap in Hp as (q & -> & Hq). apply elem_form_pairs in Hq as (l & r & Hl & Hr & Hc & ->). eauto 8.
  - intros l r Hl Hr Hc. destruct (Hall (sort_pairs_sorted _) (use_base (CandidatePair_new l r controlling))) as [H|(q & Hq & Hk & Hpr)].
    + rewrite sort_pairs_perm. unfold based. apply (list_elem_of_fmap_2 use_base). apply elem_form_pairs. eauto 8.
    + by apply elem_of_nil in H.
    + exists q. rewrite sort_pairs_perm. split_and!; [done|done|]. unfold by_priority in *. by destruct (use_base_parts (CandidatePair_new l r controlling)) as (_ & <- & _).
Qed.

Lemma priority_value tp lp component : 0 <= tp -> fits 16 lp -> 1 <= component <= 256 ->
  priority tp lp component = Z.min tp 126 * 2 ^ 24 + lp * 2 ^ 8 + (256 - component).
Proof.
  intros Ht Hl Hc. unfold priority, MAX_COMPONENT_ID, fits in *. rewrite (Z.min_l component), (Z.max_r 1) by lia.
  assert (Z.lor (Z.shiftl (Z.min tp 126) 24) (Z.shiftl lp 8) = Z.shiftl (Z.min tp 126 * 2 ^ 16 + lp) 8) as ->.
  { change 24 with (16 + 8). rewrite <- Z.shiftl_shiftl, <- Z.shiftl_lor, lor_shiftl_add by lia. done. }
  rewrite lor_shiftl_add by lia. lia.
Qed.

(** Both agents compute the same number, the RFC 8445 formula, as long as the
    candidates carry priorities of the wire range. *)
Lemma pair_priority_value l r (controlling : bool) : 0 <= l < 2 ^ 31 -> 0 <= r < 2 ^ 31 ->
  let '(g, d) := if controlling then (l, r) else (r, l) in
  pair_priority l r controlling = 2 ^ 32 * Z.min g d + 2 * Z.max g d + b2z (d <? g).
Proof.
  intros Hl Hr. unfold pair_priority, saturating_add, saturating_mul. change (Z.shiftl 1 32) with (2 ^ 32).
  destruct controlling; rewrite !(Z.min_l _ (2 ^ 64 - 1)); unfold b2z; try case_match; lia.
Qed.

Lemma pair_priority_symmetric l r : pair_priority l r true = pair_priority r l false.
Proof. done. Qed.

Lemma component_at_erase (pairs : list CandidatePair) i : component_at (erase_state <$> pairs) i = component_at pairs i.
Proof. unfold component_at. rewrite list_lookup_fmap. by destruct (pairs !! i). Qed.

(** Lookups before and after freezing. *)
Lemma freeze_initial_lookup pairs j q : freeze_initial pairs !! j = Some q ->
  exists q0, pairs !! j = Some q0 /\ erase_state q = erase_state q0.
Proof.
  intros Hq. assert ((erase_state <$> freeze_initial pairs) !! j = Some (erase_state q)) as H by (by rewrite list_lookup_fmap, Hq).
  rewrite freeze_initial_erase, list_lookup_fmap in H. destruct (pairs !! j) as [q0|]; [|done].
  change (Some (erase_state q0) = Some (erase_state q)) in H. apply (inj Some) in H. by exists q0.
Qed.

Lemma erase_same p q : erase_state p = erase_state q ->
  pair_foundation p = pair_foundation q /\ pair_key p = pair_key q /\ cp_priority p = cp_priority q.
Proof. destruct p, q. by intros [= -> -> -> ->]. Qed.

Lemma by_priority_erase (l1 l2 : list CandidatePair) : erase_state <$> l1 = erase_state <$> l2 -> StronglySorted by_priority l2 -> StronglySorted by_priority l1.
Proof.
  revert l2. induction l1 as [|p l1 IH]; intros [|q l2] H Hs; try done; try (by constructor). rewrite !fmap_cons in H.
  pose proof (f_equal head H) as He. apply (inj Some) in He. pose proof (f_equal tail H) as Hl. cbn [tail] in Hl. apply erase_same in He as (_ & _ & Hp). inversion Hs as [|? ? Hs' Hall]; subst.
  constructor; [by apply (IH l2)|]. apply Forall_forall. intros x Hx. rewrite Forall_forall in Hall.
  assert (erase_state x ∈ erase_state <$> l2) as Hx2 by (rewrite <- Hl; by apply list_elem_of_fmap_2).
  apply list_elem_of_fmap in Hx2 as (y & Hxy & Hy). apply erase_same in Hxy as (_ & _ & Hxy). specialize (Hall y Hy).
  unfold by_priority in *. lia.
Qed.

(** The checklist is what RFC 8445 prescribes.  It is ordered by pair priority,
    names every (local, remote) address pair at most once, contains only pairs of
    compatible candidates (a server-reflexive one replaced by its base), and for
    every compatible pair keeps one on the same addresses of at least its priority.
    Of the pairs of one foundation exactly the first by component, then by
    priority, waits; the others are frozen. *)
Lemma ice_checklist_formed local remote controlling :
  let pairs := Checklist_form local remote controlling in
  StronglySorted by_priority pairs /\ NoDup (pair_key <$> pairs) /\
  (forall p, p ∈ pairs -> exists l r, l ∈ local /\ r ∈ remote /\ compatible l r = true /\
     erase_state p = use_base (CandidatePair_new l r controlling)) /\
  (forall l r, l ∈ local -> r ∈ remote -> compatible l r = true -> exists p, p ∈ pairs /\
     pair_key p = pair_key (use_base (CandidatePair_new l r controlling)) /\
     pair_priority (cd_priority l) (cd_priority r) controlling <= cp_priority p) /\
  (forall i p, pairs !! i = Some p ->
     (cp_state p = Frozen \/ cp_state p = Waiting) /\
     (cp_state p = Frozen <-> exists j q, pairs !! j = Some q /\ pair_foundation q = pair_foundation p /\ visits_before pairs j i)).
Proof.
  cbv zeta. unfold Checklist_form. destruct (pruned_spec local remote controlling) as (Hs & Hnd & Hsound & Hcomplete).
  set (base := sort_pairs _) in *. pose proof (freeze_initial_erase base) as He. split_and!.
  - by apply (by_priority_erase _ base).
  - assert (forall l : list CandidatePair, pair_key <$> l = pair_key <$> (erase_state <$> l)) as Hk by (intros l; by rewrite <- list_fmap_compose).
    by rewrite Hk, He, <- Hk.
  - intros p Hp. apply list_elem_of_lookup in Hp as [i Hi]. apply freeze_initial_lookup in Hi as (q & Hq & Heq).
    destruct (Hsound q) as (l & r & Hl & Hr & Hc & ->); [by eapply list_elem_of_lookup_2|]. exists l, r. split_and!; try done.
    rewrite Heq. unfold use_base. cbn. by destruct (cd_kind l), (cd_related l).
  - intros l r Hl Hr Hc. destruct (Hcomplete l r Hl Hr Hc) as (p & Hp & Hk & Hpr). apply list_elem_of_lookup in Hp as [i Hi].
    destruct (freeze_initial_at base i p Hi) as (b & Hb & _). eexists. split; [by eapply list_elem_of_lookup_2|]. by destruct b.
  - intros i p Hi. destruct (freeze_initial_lookup _ _ _ Hi) as (p0 & Hp0 & Hep). destruct (freeze_initial_at base i p0 Hp0) as (b & Hb & Hiff).
    rewrite Hb in Hi. injection Hi as <-.
    assert (cp_state p0 = Frozen) as Hfr.
    { destruct (Hsound p0) as (l & r & _ & _ & _ & ->); [by eapply list_elem_of_lookup_2|]. by destruct (use_base_parts (CandidatePair_new l r controlling)) as (_ & _ & -> & _). }
    assert (pair_foundation (if b then p0 else set_pair_state Waiting p0) = pair_foundation p0) as -> by (by destruct b).
    assert (forall j, visits_before (freeze_initial base) j i <-> visits_before base j i) as Hv.
    { intros j. unfold visits_before. by rewrite <- !(component_at_erase (freeze_initial base)), He, !component_at_erase. }
    setoid_rewrite Hv. split; [destruct b; [by left|by right]|]. transitivity (b = true).
    { destruct b; cbn; [done|]. split; [done|done]. }
    rewrite Hiff. split; intros (j & q & Hq & Hf & Hvj).
    + destruct (freeze_initial_at base j q Hq) as (b' & Hb' & _). eexists j, _. split; [exact Hb'|]. split; [by destruct b'|done].
    + destruct (freeze_initial_lookup _ _ _ Hq) as (q0 & Hq0 & Heq). apply erase_same in Heq as (Hf' & _). exists j, q0.
      split; [done|]. split; [congruence|done].
Qed.
