(* ===== verification/IceText.v ===== *)
(** * ICE candidates as text

    The SDP grammar of crates/siphon-rtp-ice/src/candidate.rs: [Candidate::parse],
    [to_attribute_value], [to_attribute_line] and [IceOptions]. *)

From Stdlib Require Import Lia ZArith String Ascii List.
From stdpp Require Import base list numbers option sets.
From S2P Require Import Prelude Bencode Text Stun Net Ice.

Open Scope Z_scope.

(** ** Candidates *)

Inductive CandidateParseError : Type :=
| NotACandidate
| TooFewFields (count : Z)
| MalformedFoundation (text : bytes)
| MalformedComponent (text : bytes)
| MalformedTransport (text : bytes)
| MalformedPriority (text : bytes)
| MalformedAddress (text : bytes)
| MalformedPort (text : bytes)
| MissingTyp
| UnknownCandidateType (text : bytes)
| IncompleteRelatedAddress.

Definition is_unresolved_hostname (e : CandidateParseError) : bool :=
  match e with
  | MalformedAddress address => bool_decide (46 ∈ address) && bool_decide (ip_from_str address = None)
  | _ => false
  end.

Definition MAX_FOUNDATION_LEN : Z := 32.
Definition MAX_PRIORITY : Z := 2 ^ 31 - 1.

Definition is_ice_char (byte : Z) : bool := is_ascii_alphanumeric byte || (byte =? 43) || (byte =? 47).
Definition is_token_byte (byte : Z) : bool :=
  is_ascii_alphanumeric byte || bool_decide (byte ∈ str "-!#$%&'*+.^_`|~").

Definition kind_from_str (token : bytes) : res CandidateParseError CandidateKind :=
  if bool_decide (token = str "host") then mret Host
  else if bool_decide (token = str "srflx") then mret ServerReflexive
  else if bool_decide (token = str "prflx") then mret PeerReflexive
  else if bool_decide (token = str "relay") then mret Relayed
  else Err (UnknownCandidateType token).

Definition transport_from_str (token : bytes) : res CandidateParseError Transport :=
  if bool_decide (to_ascii_lowercase token = str "udp") then mret Udp else
  if bool_decide (token = []) || negb (forallb is_token_byte token) then Err (MalformedTransport token) else
  mret (Other (to_ascii_uppercase token)).

Definition parse_socket_addr (address port : bytes) : res CandidateParseError SocketAddr :=
  ip ← ok_or (ip_from_str address) (MalformedAddress address);
  port ← ok_or (uint_from_str 16 port) (MalformedPort port);
  mret (mkSocketAddr ip port).

(** [raddr], [rport] and the extensions, and whether a name is left without value. *)
Fixpoint read_extensions (rest : list bytes) (related_ip related_port : option bytes) (extensions : list (bytes * bytes))
  : option bytes * option bytes * list (bytes * bytes) * bool :=
  match rest with
  | name :: value :: tail =>
      if bool_decide (name = str "raddr") then read_extensions tail (Some value) related_port extensions
      else if bool_decide (name = str "rport") then read_extensions tail related_ip (Some value) extensions
      else read_extensions tail related_ip related_port (extensions ++ [(name, value)])
  | [] => (related_ip, related_port, extensions, false)
  | [_] => (related_ip, related_port, extensions, true)
  end.

(** [filter((low..=high).contains)] of a parsed integer. *)
Definition in_range (o : option Z) (low high : Z) : option Z :=
  n ← o; if (low <=? n) && (n <=? high) then Some n else None.

Definition Candidate_parse (line : bytes) : res CandidateParseError Candidate :=
  let trimmed := trim line in
  value ← ok_or (strip_prefix (str "candidate:") (default trimmed (strip_prefix (str "a=") trimmed))) NotACandidate;
  let fields := split_whitespace value in
  match fields with
  | foundation :: component :: transport :: priority :: address :: port :: typ :: kind :: rest =>
      if bool_decide (foundation = []) || (MAX_FOUNDATION_LEN <? len foundation) || negb (forallb is_ice_char foundation)
      then Err (MalformedFoundation foundation) else
      component ← ok_or (in_range (uint_from_str 16 component) 1 MAX_COMPONENT_ID) (MalformedComponent component);
      transport ← transport_from_str transport;
      priority ← ok_or (in_range (uint_from_str 32 priority) 1 MAX_PRIORITY) (MalformedPriority priority);
      address ← parse_socket_addr address port;
      if negb (bool_decide (typ = str "typ")) then Err MissingTyp else
      kind ← kind_from_str kind;
      let '(related_ip, related_port, extensions, dangling) := read_extensions rest None None [] in
      if (dangling : bool) then Err (TooFewFields (len fields)) else
      related ← match related_ip, related_port with
                | Some ip, Some port => related ← parse_socket_addr ip port; mret (Some related)
                | None, None => mret None
                | _, _ => Err IncompleteRelatedAddress
                end;
      mret (mkCandidate foundation component transport priority address kind related extensions)
  | _ => Err (TooFewFields (len fields))
  end.

(** The fields in the order they are written, and the line. *)
Definition attribute_fields (c : Candidate) : list bytes :=
  [cd_foundation c; digits (cd_component c); transport_token (cd_transport c); digits (cd_priority c);
   ip_to_string (sa_ip (cd_address c)); digits (sa_port (cd_address c)); str "typ"; kind_token (cd_kind c)]
  ++ match cd_related c with
     | Some related => [str "raddr"; ip_to_string (sa_ip related); str "rport"; digits (sa_port related)]
     | None => []
     end
  ++ concat (map (fun nv => [nv.1; nv.2]) (cd_extensions c)).

Definition to_attribute_value (c : Candidate) : bytes := join (attribute_fields c).
Definition to_attribute_line (c : Candidate) : bytes := str "a=candidate:" ++ to_attribute_value c.

(** ** The option list *)

Record IceOptions : Type := mkIceOptions { io_tokens : list bytes }.

Definition IceOptions_parse (line : bytes) : IceOptions :=
  let trimmed := trim line in
  let value := default [] (strip_prefix (str "ice-options:") (default trimmed (strip_prefix (str "a=") trimmed))) in
  mkIceOptions (map to_ascii_lowercase (split_whitespace value)).

Definition has_option (o : IceOptions) (token : bytes) : bool := existsb (fun have => bool_decide (have = token)) (io_tokens o).
Definition supports_trickle (o : IceOptions) : bool := has_option o (str "trickle").

(** * Proofs *)

(** ** The texts of a candidate are words *)

Lemma ipv4_plain ip : plain_word (ipv4_to_string ip).
Proof.
  unfold ipv4_to_string, ipv4_octets. pose proof (be_enc_bytes 4 ip) as Hb. pose proof (be_enc_length 4 ip) as Hl.
  destruct (be_enc 4 ip) as [|a [|b [|c [|d [|]]]]]; try discriminate Hl.
  unfold bytes_ok in Hb. rewrite !Forall_cons in Hb. destruct Hb as (Ha & Hbb & Hc & Hd & _). unfold is_byte in *.
  destruct (digits_word a) as [A1 A2], (digits_word b) as [B1 B2], (digits_word c) as [C1 C2], (digits_word d) as [D1 D2]; try lia.
  split; [intros E; apply app_eq_nil in E as [? _]; done|]. rewrite !Forall_app. assert (Forall is_plain [46]) by (forall_list; unfold is_plain; lia). by split_and!.
Qed.

Lemma hex16_plain n : fits 16 n -> Forall is_plain (hex16 n).
Proof.
  intros Hn. assert (forall k, 0 <= k < 16 -> is_plain (hex_digit k)) as H.
  { intros k Hk. unfold hex_digit, is_plain. destruct (Z.ltb_spec k 10); lia. }
  unfold fits in Hn. unfold hex16. destruct (Z.ltb_spec n 16), (Z.ltb_spec n 256), (Z.ltb_spec n 4096); try lia; forall_list; apply H;
    Z.to_euclidean_division_equations; lia.
Qed.

Lemma fmt_plain segs : Forall (fits 16) segs -> Forall is_plain (fmt_subslice segs).
Proof.
  induction 1 as [|n segs Hn Hs IH]; [constructor|]. rewrite fmt_cons. apply Forall_app. split; [by apply hex16_plain|].
  destruct segs; cbn [groups_from]; [constructor|]. constructor; [unfold is_plain; lia|done].
Qed.

Lemma ip_plain ip : ip_ok ip -> plain_word (ip_to_string ip).
Proof.
  destruct ip as [ip|o]; intros Hip; [apply ipv4_plain|]. destruct Hip as [Hb Hl]. destruct (segments_octets o Hl Hb) as (_ & Hls & Hfs).
  unfold ip_to_string, ipv6_to_string. destruct (to_ipv4_mapped o) as [ip|].
  - split; [done|]. apply Forall_app. split; [forall_list; unfold is_plain; lia|apply ipv4_plain].
  - destruct (zero_span _ _ _ _) as [st ln]. destruct (1 <? ln).
    + split; [intros E; apply app_eq_nil in E as [_ E]; done|]. rewrite !Forall_app. split_and!; [|forall_list; unfold is_plain; lia|];
        apply fmt_plain; by apply Forall_take, Forall_drop.
    + split; [|by apply fmt_plain]. destruct (segments o) as [|n segs]; [done|]. rewrite fmt_cons. intros E. apply app_eq_nil in E as [E _].
      apply Forall_cons_1 in Hfs as [Hn _]. destruct (hex16_spec n Hn) as (_ & [Hpos _] & _). rewrite E in Hpos. change (len []) with 0 in Hpos. lia.
Qed.

(** ** What the parser accepts *)

Definition transport_ok (t : Transport) : Prop :=
  match t with
  | Udp => True
  | Other token => token <> [] /\ forallb is_token_byte token = true /\ to_ascii_uppercase token = token /\
      to_ascii_lowercase token <> str "udp"
  end.

Definition socket_ok (a : SocketAddr) : Prop := ip_ok (sa_ip a) /\ fits 16 (sa_port a).

Record candidate_ok (c : Candidate) : Prop := {
  ca_foundation : cd_foundation c <> [] /\ len (cd_foundation c) <= MAX_FOUNDATION_LEN /\ forallb is_ice_char (cd_foundation c) = true;
  ca_component : 1 <= cd_component c <= MAX_COMPONENT_ID;
  ca_transport : transport_ok (cd_transport c);
  ca_priority : 1 <= cd_priority c <= MAX_PRIORITY;
  ca_address : socket_ok (cd_address c);
  ca_related : forall a, cd_related c = Some a -> socket_ok a;
  ca_extensions : Forall (fun nv => word nv.1 /\ word nv.2 /\ nv.1 <> str "raddr" /\ nv.1 <> str "rport") (cd_extensions c)
}.

Lemma alphanumeric_plain b : is_ascii_alphanumeric b = true -> is_plain b.
Proof. unfold is_ascii_alphanumeric, is_digit, is_plain. intros H. lia. Qed.

Lemma token_byte_plain b : is_token_byte b = true -> is_plain b.
Proof.
  unfold is_token_byte. intros [H|H]%orb_true_iff; [by apply alphanumeric_plain|]. apply bool_decide_eq_true in H.
  assert (Forall is_plain (str "-!#$%&'*+.^_`|~")) as Hf by (unfold str; vm_compute; forall_list; vm_compute; split; congruence).
  rewrite Forall_forall in Hf. by apply Hf.
Qed.

Lemma forallb_plain f w : (forall b, f b = true -> is_plain b) -> forallb f w = true -> Forall is_plain w.
Proof. intros Hf H. apply Forall_forall. intros b Hb%list_elem_of_In. rewrite forallb_forall in H. auto. Qed.

Lemma ice_char_plain b : is_ice_char b = true -> is_plain b.
Proof. unfold is_ice_char. intros [[H|H]%orb_true_iff|H]%orb_true_iff; [by apply alphanumeric_plain|unfold is_plain; lia..]. Qed.

Lemma kind_word k : plain_word (kind_token k).
Proof. destruct k; (split; [done|]); forall_list; unfold is_plain; lia. Qed.

Lemma fields_words c : candidate_ok c -> Forall word (attribute_fields c).
Proof.
  intros [[Hf1 [_ Hf2]] Hc Ht Hp [Ha1 Ha2] Hr He]. unfold attribute_fields. rewrite !Forall_app.
  assert (forall s, plain_word (str s) -> word (str s)) as Hstr by (intros; by apply plain_is_word).
  unfold fits in *. split_and!.
  - forall_list; apply plain_is_word.
    + split; [done|]. by eapply forallb_plain; [apply ice_char_plain|].
    + apply digits_word. lia.
    + destruct (cd_transport c) as [|token]; cbn [transport_token transport_ok] in *; [split; [done|forall_list; unfold is_plain; lia]|].
      destruct Ht as (H1 & H2 & _). split; [done|]. by eapply forallb_plain; [apply token_byte_plain|].
    + apply digits_word. lia.
    + by apply ip_plain.
    + apply digits_word. lia.
    + split; [done|]. unfold str. vm_compute. forall_list; vm_compute; split; congruence.
    + apply kind_word.
  - destruct (cd_related c) as [a|]; [|constructor]. destruct (Hr a eq_refl) as [H1 H2]. unfold fits in H2. forall_list; apply plain_is_word.
    + split; [done|]. unfold str. vm_compute. forall_list; vm_compute; split; congruence.
    + by apply ip_plain.
    + split; [done|]. unfold str. vm_compute. forall_list; vm_compute; split; congruence.
    + apply digits_word. lia.
  - clear -He. induction He as [|[n v] l (H1 & H2 & _) Hl IH]; [constructor|]. cbn [map concat fst snd app] in *.
    constructor; [done|]. by constructor.
Qed.

Lemma parse_socket_roundtrip a : socket_ok a -> parse_socket_addr (ip_to_string (sa_ip a)) (digits (sa_port a)) = Ok a.
Proof.
  intros [H1 H2]. unfold parse_socket_addr. rewrite ip_text_roundtrip by done. cbn [ok_or]. rewrite bind_Ok.
  rewrite uint_digits by exact H2. cbn [ok_or]. rewrite bind_Ok. by destruct a.
Qed.

Lemma kind_roundtrip k : kind_from_str (kind_token k) = Ok k.
Proof. by destruct k. Qed.

Lemma transport_roundtrip t : transport_ok t -> transport_from_str (transport_token t) = Ok t.
Proof.
  destruct t as [|token]; [done|]. intros (H1 & H2 & H3 & H4). unfold transport_from_str. cbn [transport_token].
  rewrite bool_decide_eq_false_2 by done. rewrite bool_decide_eq_false_2, H2, H3 by done. done.
Qed.

Lemma read_extensions_roundtrip l : forall ip port acc,
  Forall (fun nv : bytes * bytes => word nv.1 /\ word nv.2 /\ nv.1 <> str "raddr" /\ nv.1 <> str "rport") l ->
  read_extensions (concat (map (fun nv : bytes * bytes => [nv.1; nv.2]) l)) ip port acc = (ip, port, acc ++ l, false).
Proof.
  induction l as [|[n v] l IH]; intros ip port acc Hl; cbn [map concat app]; [by rewrite app_nil_r|].
  apply Forall_cons_1 in Hl as [(_ & _ & H1 & H2) Hl]. cbn [fst snd] in *. cbn [read_extensions].
  rewrite !bool_decide_eq_false_2 by done. rewrite IH by done. by rewrite <- app_assoc.
Qed.

Lemma in_range_digits width n low high : 0 <= n < 2 ^ width -> low <= n <= high ->
  in_range (uint_from_str width (digits n)) low high = Some n.
Proof. intros H1 H2. rewrite uint_digits by done. cbn. by rewrite (proj2 (Z.leb_le low n)), (proj2 (Z.leb_le n high)) by lia. Qed.

(** The fields alone. *)
Lemma parse_fields c value : candidate_ok c -> split_whitespace value = attribute_fields c ->
  forall line, trim line = str "candidate:" ++ value \/ trim line = str "a=candidate:" ++ value -> Candidate_parse line = Ok c.
Proof.
  intros Hok Hv line Hl. pose proof Hok as [[Hf1 [Hf2 Hf3]] Hc Ht Hp Ha Hr He]. unfold Candidate_parse. cbv zeta.
  assert (strip_prefix (str "candidate:") (default (trim line) (strip_prefix (str "a=") (trim line))) = Some value) as ->.
  { destruct Hl as [-> | ->]; [|change (str "a=candidate:" ++ value) with (str "a=" ++ str "candidate:" ++ value); rewrite strip_prefix_app; apply strip_prefix_app].
    change (strip_prefix (str "a=") (str "candidate:" ++ value)) with (@None bytes). cbn [default]. apply strip_prefix_app. }
  cbn [ok_or]. rewrite bind_Ok, Hv. unfold attribute_fields. cbn [app].
  rewrite bool_decide_eq_false_2, (proj2 (Z.ltb_ge _ _)), Hf3 by done. cbn [orb negb].
  unfold MAX_COMPONENT_ID, MAX_PRIORITY in *. rewrite (in_range_digits 16) by lia. cbn [ok_or]. rewrite bind_Ok, transport_roundtrip, bind_Ok by done.
  rewrite (in_range_digits 32) by lia. cbn [ok_or]. rewrite bind_Ok, parse_socket_roundtrip, bind_Ok by done.
  rewrite bool_decide_eq_true_2 by done. cbn [negb]. rewrite kind_roundtrip, bind_Ok.
  destruct (cd_related c) as [a|] eqn:Er.
  - cbn [app read_extensions]. rewrite bool_decide_eq_true_2 by done. rewrite (bool_decide_eq_false_2 (str "rport" = str "raddr")) by done.
    rewrite bool_decide_eq_true_2 by done. rewrite read_extensions_roundtrip by done. rewrite parse_socket_roundtrip by (by apply Hr). cbn.
    destruct c. cbn in *. by subst.
  - cbn [app]. rewrite read_extensions_roundtrip by done. cbn. destruct c. cbn in *. by subst.
Qed.

(** ** What the parser yields *)

Lemma read_number_range radix max limit zero text n rest : 1 <= radix -> 0 <= limit ->
  read_number radix max limit zero text = Some (n, rest) -> 0 <= n <= limit.
Proof.
  intros Hr Hlim. unfold read_number. destruct (read_digits radix max limit 0 0 text) as [[[v c] r]|] eqn:E; [|done]. cbn.
  destruct (c =? 0); [done|]. destruct (_ && _); [done|]. intros [= <- <-]. revert E.
  assert (forall l acc count, 0 <= acc <= limit -> read_digits radix max limit acc count l = Some (v, c, r) -> 0 <= v <= limit) as H; [|apply H; lia].
  induction l as [|b l IH]; intros acc count Ha; cbn [read_digits]; [intros E; injection E; lia|].
  destruct (to_digit radix b) as [d|] eqn:Hd; [|intros E; injection E; lia]. cbv zeta. apply to_digit_bound in Hd.
  destruct (Z.ltb_spec limit (acc * radix + d)); [done|]. cbn [orb]. destruct (_ <? _); [done|]. apply IH. nia.
Qed.

Lemma read_ipv4_range text ip rest : read_ipv4_addr text = Some (ip, rest) -> fits 32 ip.
Proof.
  unfold read_ipv4_addr, read_separator. intros H.
  assert (forall t n r, read_octet t = Some (n, r) -> is_byte n) as Ho.
  { intros t n r E. apply read_number_range in E; [|lia..]. unfold is_byte. lia. }
  destruct (read_octet text) as [[a t1]|] eqn:E1; [|done]. cbn in H. destruct (read_given_char 46 t1) as [u1|]; [|done]. cbn in H.
  destruct (read_octet u1) as [[b t2]|] eqn:E2; [|done]. cbn in H. destruct (read_given_char 46 t2) as [u2|]; [|done]. cbn in H.
  destruct (read_octet u2) as [[c t3]|] eqn:E3; [|done]. cbn in H. destruct (read_given_char 46 t3) as [u3|]; [|done]. cbn in H.
  destruct (read_octet u3) as [[d t4]|] eqn:E4; [|done]. cbn in H. injection H as <- <-.
  assert (bytes_ok [a; b; c; d]) as Hb by (unfold bytes_ok; forall_list; eauto). exact (be_dec_bound _ Hb).
Qed.

Lemma read_groups_range left : forall i text groups v4 rest, read_groups left i text = (groups, v4, rest) ->
  Forall (fits 16) groups /\ (length groups <= left)%nat.
Proof.
  induction left as [|left IH]; intros i text groups v4 rest; cbn [read_groups]; [by intros [= <- <- <-]|].
  destruct (match left with O => None | S _ => read_separator 58 i read_ipv4_addr text end) as [[ip t]|] eqn:E.
  - intros [= <- <- <-]. destruct left as [|left]; [done|]. assert (fits 32 ip) as Hip.
    { unfold read_separator in E. destruct i; [by eapply read_ipv4_range|]. destruct (read_given_char 58 text); [|done]. by eapply read_ipv4_range. }
    unfold fits in *. split; [|cbn; lia]. forall_list; unfold fits; Z.to_euclidean_division_equations; lia.
  - destruct (read_separator 58 i read_group text) as [[g t]|] eqn:Eg; [|by intros [= <- <- <-]; split; [constructor|cbn; lia]].
    destruct (read_groups left (S i) t) as [[gs v] r] eqn:Er. intros [= <- <- <-]. destruct (IH _ _ _ _ _ Er) as [H1 H2]. split; [|cbn; lia].
    constructor; [|done]. unfold read_separator in Eg. destruct i.
    + apply read_number_range in Eg; [|lia..]. unfold fits. lia.
    + destruct (read_given_char 58 text); [|done]. apply read_number_range in Eg; [|lia..]. unfold fits. lia.
Qed.

Lemma octets_ok segs : length segs = 8%nat -> bytes_ok (segments_to_octets segs) /\ len (segments_to_octets segs) = 16.
Proof.
  intros Hl. assert (forall l, bytes_ok (segments_to_octets l) /\ len (segments_to_octets l) = 2 * Z.of_nat (length l)) as H.
  { induction l as [|s l [H1 H2]]; [by split; [constructor|]|]. change (segments_to_octets (s :: l)) with (be_enc 2 s ++ segments_to_octets l).
    rewrite bytes_ok_app, len_app, len_be_enc, H2. split; [split; [apply be_enc_bytes|done]|]. cbn [length]. lia. }
  destruct (H segs) as [H1 H2]. split; [done|]. rewrite H2, Hl. done.
Qed.

Lemma ip_parse_ok text ip : ip_from_str text = Some ip -> ip_ok ip.
Proof.
  unfold ip_from_str, read_ip_addr. destruct (read_ipv4_addr text) as [[v t]|] eqn:E.
  - destruct t; [|done]. intros [= <-]. by eapply read_ipv4_range.
  - unfold read_ipv6_addr. destruct (read_groups 8 0 text) as [[head h4] t1] eqn:E1. destruct (read_groups_range _ _ _ _ _ _ E1) as [H1 H2].
    destruct (Nat.eqb_spec (length head) 8) as [Hl|Hl].
    + cbn. destruct t1; [|done]. intros [= <-]. by apply octets_ok.
    + destruct h4; [done|]. destruct (read_given_char 58 t1) as [t2|]; [|done]. cbn [mbind option_bind]. destruct (read_given_char 58 t2) as [t3|]; [|done]. cbn [mbind option_bind].
      destruct (read_groups (8 - (length head + 1)) 0 t3) as [[tail b] t4] eqn:E2. destruct (read_groups_range _ _ _ _ _ _ E2) as [H3 H4].
      cbn [mbind option_bind]. destruct t4; [|done]. intros [= <-]. apply octets_ok. rewrite !length_app, length_replicate. lia.
Qed.

Lemma parse_socket_ok address port a : parse_socket_addr address port = Ok a -> socket_ok a.
Proof.
  unfold parse_socket_addr. destruct (ip_from_str address) as [ip|] eqn:E1; [|done]. cbn [ok_or]. rewrite bind_Ok.
  destruct (uint_from_str 16 port) as [n|] eqn:E2; [|done]. cbn [ok_or]. rewrite bind_Ok. intros [= <-]. split; [by eapply ip_parse_ok|by eapply uint_range].
Qed.

Lemma upper_byte b : let u := if (97 <=? b) && (b <=? 122) then b - 32 else b in
  (is_token_byte b = true -> is_token_byte u = true) /\ (if (97 <=? u) && (u <=? 122) then u - 32 else u) = u /\
  (if (65 <=? u) && (u <=? 90) then u + 32 else u) = (if (65 <=? b) && (b <=? 90) then b + 32 else b).
Proof.
  cbv zeta. destruct (Z.leb_spec 97 b), (Z.leb_spec b 122); cbn [andb].
  - rewrite (proj2 (Z.leb_gt 97 (b - 32))), (proj2 (Z.leb_le 65 (b - 32))), (proj2 (Z.leb_le (b - 32) 90)), (proj2 (Z.leb_gt b 90)), andb_false_r by lia.
    cbn [andb]. split; [|split; [done|lia]]. intros _. unfold is_token_byte, is_ascii_alphanumeric.
    rewrite (proj2 (Z.leb_le 65 (b - 32))), (proj2 (Z.leb_le (b - 32) 90)) by lia. cbn [andb]. by rewrite orb_true_r.
  - rewrite (proj2 (Z.leb_gt b 122)), andb_false_r by lia. done.
  - rewrite (proj2 (Z.leb_gt 97 b)) by lia. done.
  - rewrite (proj2 (Z.leb_gt 97 b)) by lia. done.
Qed.

Lemma transport_parse_ok token t : transport_from_str token = Ok t -> transport_ok t.
Proof.
  unfold transport_from_str. case_bool_decide as Hu; [by intros [= <-]|]. case_bool_decide as He; [done|]. cbn [orb].
  destruct (forallb is_token_byte token) eqn:Hf; [|done]. cbn [negb]. intros [= <-]. cbn [transport_ok]. split_and!.
  - by destruct token.
  - unfold to_ascii_uppercase. apply forallb_forall. intros x (b & <- & Hb)%in_map_iff. rewrite forallb_forall in Hf. by apply upper_byte, Hf.
  - unfold to_ascii_uppercase. rewrite map_map. apply map_ext. intros b. by destruct (upper_byte b) as (_ & -> & _).
  - intros E. apply Hu. rewrite <- E. unfold to_ascii_uppercase, to_ascii_lowercase. rewrite map_map. apply map_ext. intros b.
    by destruct (upper_byte b) as (_ & _ & ->).
Qed.

Lemma read_extensions_ok n : forall rest ip port acc, (length rest <= n)%nat -> Forall word rest ->
  Forall (fun nv : bytes * bytes => word nv.1 /\ word nv.2 /\ nv.1 <> str "raddr" /\ nv.1 <> str "rport") acc ->
  Forall (fun nv : bytes * bytes => word nv.1 /\ word nv.2 /\ nv.1 <> str "raddr" /\ nv.1 <> str "rport") (read_extensions rest ip port acc).1.2.
Proof.
  induction n as [|n IH]; intros rest ip port acc Hl Hw Ha.
  - by destruct rest; [|cbn in Hl; lia].
  - destruct rest as [|name [|value rest]]; [done|done|]. apply Forall_cons_1 in Hw as [H1 Hw]. apply Forall_cons_1 in Hw as [H2 Hw]. cbn in Hl.
    cbn [read_extensions]. case_bool_decide; [by apply IH; [lia|..]|]. case_bool_decide; [by apply IH; [lia|..]|].
    apply IH; [lia|done|]. apply Forall_app. split; [done|]. forall_list. done.
Qed.

Lemma in_range_Some o low high n : in_range o low high = Some n -> low <= n <= high.
Proof. unfold in_range. destruct o as [m|]; [|done]. cbn. destruct (_ && _) eqn:E; [|done]. intros [= <-]. lia. Qed.

Lemma candidate_parse_ok line c : Candidate_parse line = Ok c -> candidate_ok c.
Proof.
  unfold Candidate_parse. cbv zeta. intros H. bind_inv H value Hv. clear Hv. pose proof (split_whitespace_words value) as Hw.
  destruct (split_whitespace value) as [|f [|co [|tr [|pr [|ad [|po [|ty [|ki rest]]]]]]]]; try discriminate H.
  assert (Forall word rest) as Hwr by (do 8 apply Forall_cons_1 in Hw as [_ Hw]; exact Hw).
  destruct (bool_decide (f = []) || _ || _) eqn:Ef; [done|]. apply orb_false_iff in Ef as [[Ef1%bool_decide_eq_false Ef2%Z.ltb_ge]%orb_false_iff Ef3%negb_false_iff].
  bind_inv H component Hc. destruct (in_range (uint_from_str 16 co) 1 MAX_COMPONENT_ID) as [n|] eqn:Ec; [|done]. injection Hc as <-.
  bind_inv H transport Ht. bind_inv H priority_ Hp. destruct (in_range (uint_from_str 32 pr) 1 MAX_PRIORITY) as [m|] eqn:Ep; [|done]. injection Hp as <-.
  bind_inv H address Ha. destruct (negb _); [done|]. bind_inv H kind Hk.
  pose proof (read_extensions_ok (length rest) rest None None [] ltac:(lia) Hwr ltac:(constructor)) as Hx.
  destruct (read_extensions rest None None []) as [[[ip port] ext] dangling]. cbn [fst snd] in Hx. destruct dangling; [done|].
  bind_inv H related Hr. injection H as <-. constructor; cbn.
  - done.
  - by eapply in_range_Some.
  - by eapply transport_parse_ok.
  - by eapply in_range_Some.
  - by eapply parse_socket_ok.
  - intros a ->. destruct ip as [ip|], port as [port|]; try discriminate Hr. bind_inv Hr a' Ha'. injection Hr as <-. by eapply parse_socket_ok.
  - done.
Qed.

(** Candidate lines are read and written exactly.  The parser never panics; what
    it accepts is a well-formed candidate (component 1 to 256, priority 1 to 2^31-1,
    an IP literal and port, a type, paired extensions); and a well-formed candidate,
    in particular any candidate ever parsed, printed as the SDP line or as the bare
    attribute with its prefix, parses back to the same candidate: foundation,
    transport, IPv4 or IPv6 address (compressed, IPv4-mapped or plain), related
    address and extensions in their order. *)
Lemma candidate_text_exact line c :
  no_panic (Candidate_parse line) /\
  (Candidate_parse line = Ok c -> candidate_ok c) /\
  (candidate_ok c -> Candidate_parse (to_attribute_line c) = Ok c /\
    Candidate_parse (str "candidate:" ++ to_attribute_value c) = Ok c).
Proof.
  split; [|split; [apply candidate_parse_ok|]].
  - unfold Candidate_parse. cbv zeta. apply no_panic_bind; [apply ok_or_no_panic|]. intros value _.
    assert (forall a p, no_panic (parse_socket_addr a p)) as Hs.
    { intros a p. unfold parse_socket_addr. apply no_panic_bind; [apply ok_or_no_panic|]. intros ip _. apply no_panic_bind; [apply ok_or_no_panic|done]. }
    destruct (split_whitespace value) as [|f [|co [|tr [|pr [|ad [|po [|ty [|ki rest]]]]]]]]; try done. destruct (_ || _); [done|].
    apply no_panic_bind; [apply ok_or_no_panic|]. intros component _. apply no_panic_bind.
    { unfold transport_from_str. destruct (bool_decide _); [done|]. by destruct (_ || _). }
    intros transport _. apply no_panic_bind; [apply ok_or_no_panic|]. intros pri _. apply no_panic_bind; [apply Hs|]. intros addr _.
    destruct (negb _); [done|]. apply no_panic_bind; [unfold kind_from_str; by repeat destruct (bool_decide _)|]. intros kind _.
    destruct (read_extensions rest None None []) as [[[ip port] ext] dangling]. destruct dangling; [done|].
    apply no_panic_bind; [|done]. destruct ip, port; try done. apply no_panic_bind; [apply Hs|done].
  - intros Hok. pose proof (fields_words c Hok) as Hw. assert (exists init w, attribute_fields c = init ++ [w] /\ init <> [] /\ word w) as (init & w & E & Hne & Hlast).
    { destruct (attribute_fields c) as [|w l _] eqn:E using rev_ind; [done|]. exists l, w. split; [done|]. apply Forall_app in Hw as [_ Hw].
      apply Forall_cons_1 in Hw as [Hw _]. split; [|done]. intros ->. cbn [app] in E. unfold attribute_fields in E. discriminate E. }
    assert (split_whitespace (to_attribute_value c) = attribute_fields c) as Hs by (by apply split_join).
    assert (to_attribute_value c = join init ++ 32 :: w) as Hv by (unfold to_attribute_value; by rewrite E, join_last).
    split; apply (parse_fields c (to_attribute_value c) Hok Hs).
    + right. unfold to_attribute_line. rewrite Hv. apply (trim_line 97 (str "=candidate:" ++ join init) w); [unfold is_plain; lia|done].
    + left. rewrite Hv. apply (trim_line 99 (str "andidate:" ++ join init) w); [unfold is_plain; lia|done].
Qed.

(** The doc comments also promise the bare value; it is refused, and a bare option
    list is read as no options. *)
Example bare_value_refused :
  Candidate_parse (str "1 1 UDP 2130706431 203.0.113.7 30000 typ host") = Err NotACandidate /\
  is_Some (match Candidate_parse (str "candidate:1 1 UDP 2130706431 203.0.113.7 30000 typ host") with Ok c => Some c | _ => None end) /\
  io_tokens (IceOptions_parse (str "trickle")) = [] /\ supports_trickle (IceOptions_parse (str "a=ice-options:trickle ice2")) = true.
Proof. vm_compute. split_and!; try reflexivity. by eexists. Qed.
