(* ===== verification/IceAgent.v ===== *)
(** * The ICE agent: crates/siphon-rtp-ice/src/agent.rs

    Connectivity checks in both roles, peer-reflexive discovery, role conflicts and
    regular nomination.  Every method is a function from the agent's state to its
    result, the actions it asks for and the new state; an index into the list of
    pairs out of range is [Panic].  What the method takes from outside is an
    argument: the clock, the random transaction ids, and the order in which the
    hash map of outstanding checks is walked. *)

From S2P Require Import Prelude Stun Utf8 Turn StunClient Net Ice.
From stdpp Require Import base list numbers option sets gmap.
From Stdlib Require Import Lia ZArith.

Open Scope Z_scope.

Definition DEFAULT_PACING_MS : Z := 50.
Definition DEFAULT_RTO_MS : Z := 500.
Definition ERROR_ROLE_CONFLICT : Z := 487.
(** Role Conflict *)
Definition ROLE_CONFLICT : bytes := [82; 111; 108; 101; 32; 67; 111; 110; 102; 108; 105; 99; 116].

Record Credentials : Type := mkCredentials { cr_ufrag : bytes; cr_pwd : bytes }.

Inductive IceState : Type := Running | Connected | Completed | IceFailed.

#[export] Instance IceState_eq_dec : EqDecision IceState.
Proof. solve_decision. Defined.

Inductive AgentAction : Type :=
| Send (from to : SocketAddr) (datagram : bytes)
| StateChanged (state : IceState)
| Selected (local remote : SocketAddr).

Record AgentConfig : Type := mkAgentConfig {
  ac_local_credentials : Credentials;
  ac_remote_credentials : Credentials;
  ac_local_candidates : list Candidate;
  ac_remote_candidates : list Candidate;
  ac_controlling : bool;
  ac_tie_breaker : Z;
  ac_pacing_ms : Z;
  ac_rto_ms : Z
}.

Record OutstandingCheck : Type := mkOutstandingCheck { oc_transaction : Transaction; oc_nominating : bool }.

Record IceAgent : Type := mkIceAgent {
  ia_config : AgentConfig;
  ia_checklist : list CandidatePair;
  ia_state : IceState;
  ia_checks : gmap nat OutstandingCheck;
  ia_transactions : gmap bytes nat;
  ia_triggered : list nat;
  ia_next_check_ms : Z;
  ia_generated_valid : gmap nat nat;
  ia_selected : option nat;
  ia_nomination_sent : bool
}.

Definition AgentConfig_new (local remote : Credentials) (controlling : bool) (tie_breaker : Z) : AgentConfig :=
  mkAgentConfig local remote [] [] controlling tie_breaker DEFAULT_PACING_MS DEFAULT_RTO_MS.

Definition with_candidates (c : AgentConfig) (local remote : list Candidate) : AgentConfig :=
  mkAgentConfig (ac_local_credentials c) (ac_remote_credentials c) local remote (ac_controlling c) (ac_tie_breaker c)
    (ac_pacing_ms c) (ac_rto_ms c).

Definition IceAgent_new (config : AgentConfig) (now_ms : Z) : IceAgent :=
  let checklist := Checklist_form (ac_local_candidates config) (ac_remote_candidates config) (ac_controlling config) in
  mkIceAgent config checklist (match checklist with [] => IceFailed | _ => Running end) ∅ ∅ [] now_ms ∅ None false.

(** ** Assignments to the agent's fields *)

Definition set_config (a : IceAgent) (config : AgentConfig) : IceAgent :=
  mkIceAgent config (ia_checklist a) (ia_state a) (ia_checks a) (ia_transactions a) (ia_triggered a) (ia_next_check_ms a)
    (ia_generated_valid a) (ia_selected a) (ia_nomination_sent a).
Definition set_checklist (a : IceAgent) (pairs : list CandidatePair) : IceAgent :=
  mkIceAgent (ia_config a) pairs (ia_state a) (ia_checks a) (ia_transactions a) (ia_triggered a) (ia_next_check_ms a)
    (ia_generated_valid a) (ia_selected a) (ia_nomination_sent a).
Definition set_checks (a : IceAgent) (checks : gmap nat OutstandingCheck) (transactions : gmap bytes nat) : IceAgent :=
  mkIceAgent (ia_config a) (ia_checklist a) (ia_state a) checks transactions (ia_triggered a) (ia_next_check_ms a)
    (ia_generated_valid a) (ia_selected a) (ia_nomination_sent a).
Definition set_triggered (a : IceAgent) (triggered : list nat) : IceAgent :=
  mkIceAgent (ia_config a) (ia_checklist a) (ia_state a) (ia_checks a) (ia_transactions a) triggered (ia_next_check_ms a)
    (ia_generated_valid a) (ia_selected a) (ia_nomination_sent a).
Definition set_next_check_ms (a : IceAgent) (ms : Z) : IceAgent :=
  mkIceAgent (ia_config a) (ia_checklist a) (ia_state a) (ia_checks a) (ia_transactions a) (ia_triggered a) ms
    (ia_generated_valid a) (ia_selected a) (ia_nomination_sent a).
Definition set_generated_valid (a : IceAgent) (m : gmap nat nat) : IceAgent :=
  mkIceAgent (ia_config a) (ia_checklist a) (ia_state a) (ia_checks a) (ia_transactions a) (ia_triggered a)
    (ia_next_check_ms a) m (ia_selected a) (ia_nomination_sent a).
Definition set_nomination_sent (a : IceAgent) (b : bool) : IceAgent :=
  mkIceAgent (ia_config a) (ia_checklist a) (ia_state a) (ia_checks a) (ia_transactions a) (ia_triggered a)
    (ia_next_check_ms a) (ia_generated_valid a) (ia_selected a) b.

(** [self.checklist.pairs()[index]] *)
Definition pair_at (a : IceAgent) (index : nat) : res StunError CandidatePair :=
  match ia_checklist a !! index with Some p => Ok p | None => Panic end.

(** An assignment through [pairs_mut()[index]]. *)
Definition update_pair (a : IceAgent) (index : nat) (f : CandidatePair -> CandidatePair) : res StunError IceAgent :=
  match ia_checklist a !! index with
  | Some p => Ok (set_checklist a (<[index := f p]> (ia_checklist a)))
  | None => Panic
  end.

(** ** State *)

Definition set_state (a : IceAgent) (state : IceState) : list AgentAction * IceAgent :=
  if bool_decide (ia_state a = state) then ([], a)
  else ([StateChanged state],
        mkIceAgent (ia_config a) (ia_checklist a) state (ia_checks a) (ia_transactions a) (ia_triggered a)
          (ia_next_check_ms a) (ia_generated_valid a) (ia_selected a) (ia_nomination_sent a)).

Definition recompute_state (a : IceAgent) : list AgentAction * IceAgent :=
  if bool_decide (is_Some (ia_selected a)) then ([], a) else
  if negb (bool_decide (valid (ia_checklist a) = [])) then set_state a Connected else
  if is_exhausted (ia_checklist a) && bool_decide (ia_checks a = ∅) then set_state a IceFailed else ([], a).

Definition select (a : IceAgent) (index : nat) : res StunError (list AgentAction * IceAgent) :=
  if bool_decide (ia_selected a = Some index) then mret ([], a) else
  let a := mkIceAgent (ia_config a) (ia_checklist a) (ia_state a) (ia_checks a) (ia_transactions a) (ia_triggered a)
             (ia_next_check_ms a) (ia_generated_valid a) (Some index) (ia_nomination_sent a) in
  pair ← pair_at a index;
  let '(actions, a) := set_state a Completed in
  mret (Selected (cd_address (cp_local pair)) (cd_address (cp_remote pair)) :: actions, a).

Definition set_controlling (c : AgentConfig) (controlling : bool) : AgentConfig :=
  mkAgentConfig (ac_local_credentials c) (ac_remote_credentials c) (ac_local_candidates c) (ac_remote_candidates c)
    controlling (ac_tie_breaker c) (ac_pacing_ms c) (ac_rto_ms c).

Definition reprice (controlling : bool) (p : CandidatePair) : CandidatePair :=
  mkCandidatePair (cp_local p) (cp_remote p)
    (pair_priority (cd_priority (cp_local p)) (cd_priority (cp_remote p)) controlling) (cp_state p) (cp_nominated p).

Definition switch_role (a : IceAgent) (controlling : bool) : IceAgent :=
  if Bool.eqb (ac_controlling (ia_config a)) controlling then a
  else set_checklist (set_config a (set_controlling (ia_config a) controlling))
         (map (reprice controlling) (ia_checklist a)).

Definition role (a : IceAgent) : IceRole :=
  if ac_controlling (ia_config a) then Controlling (ac_tie_breaker (ia_config a))
  else Controlled (ac_tie_breaker (ia_config a)).

Definition push_triggered (a : IceAgent) (index : nat) : IceAgent :=
  if bool_decide (index ∈ ia_triggered a) then a else set_triggered a (ia_triggered a ++ [index]).

(** ** Checks *)

Definition build_check_action (a : IceAgent) (index : nat) (transaction_id : bytes) (nominating : bool)
  : res StunError AgentAction :=
  pair ← pair_at a index;
  let username := cr_ufrag (ac_remote_credentials (ia_config a)) ++ [58] ++ cr_ufrag (ac_local_credentials (ia_config a)) in
  datagram ← binding_request_ice transaction_id username (cr_pwd (ac_remote_credentials (ia_config a)))
               (cd_priority (cp_local pair)) (role a) nominating;
  mret (Send (cd_address (cp_local pair)) (cd_address (cp_remote pair)) datagram).

(** [random_id]: what [TransactionId::new] draws, [None] when the RNG fails. *)
Definition start_check (a : IceAgent) (index : nat) (now_ms : Z) (nominating : bool) (random_id : option bytes)
  : res StunError (option AgentAction * IceAgent) :=
  match random_id with
  | None => mret (None, a)
  | Some id =>
      let schedule := RetransmitSchedule_new (Z.max (ac_rto_ms (ia_config a)) 1) in
      let check := mkOutstandingCheck (Transaction_start id schedule now_ms) nominating in
      let a := set_checks a (<[index := check]> (ia_checks a)) (<[id := index]> (ia_transactions a)) in
      a ← update_pair a index (set_pair_state InProgress);
      action ← build_check_action a index id nominating;
      mret (Some action, a)
  end.

(** One outstanding check of the retransmission loop. *)
Definition poll_check (a : IceAgent) (index : nat) (now_ms : Z) : res StunError (list AgentAction * IceAgent) :=
  match ia_checks a !! index with
  | None => mret ([], a)
  | Some check =>
      let transaction_id := tx_id (oc_transaction check) in
      let '(action, transaction) := Transaction_poll (oc_transaction check) now_ms in
      let a := set_checks a (<[index := mkOutstandingCheck transaction (oc_nominating check)]> (ia_checks a))
                 (ia_transactions a) in
      match action with
      | Retransmit _ =>
          action ← build_check_action a index transaction_id (oc_nominating check);
          mret ([action], a)
      | Failed =>
          let a := set_checks a (delete index (ia_checks a)) (delete transaction_id (ia_transactions a)) in
          a ← update_pair a index (set_pair_state PairFailed);
          mret (recompute_state a)
      | Wait => mret ([], a)
      end
  end.

Fixpoint poll_checks (a : IceAgent) (order : list nat) (now_ms : Z) : res StunError (list AgentAction * IceAgent) :=
  match order with
  | [] => mret ([], a)
  | index :: order =>
      '(actions, a) ← poll_check a index now_ms;
      '(more, a) ← poll_checks a order now_ms;
      mret (actions ++ more, a)
  end.

(** [take_triggered]: the index taken and the queue left. *)
Fixpoint take_triggered (checks : gmap nat OutstandingCheck) (pairs : nat) (triggered : list nat) : option nat * list nat :=
  match triggered with
  | [] => (None, [])
  | index :: triggered =>
      if bool_decide (is_Some (checks !! index)) then take_triggered checks pairs triggered
      else if (index <? pairs)%nat then (Some index, triggered) else take_triggered checks pairs triggered
  end.

(** The ordinary and triggered checks. *)
Definition poll_paced (a : IceAgent) (now_ms : Z) (random_id : option bytes)
  : res StunError (list AgentAction * IceAgent) :=
  if now_ms <? ia_next_check_ms a then mret ([], a) else
  let '(taken, triggered) := take_triggered (ia_checks a) (length (ia_checklist a)) (ia_triggered a) in
  let a := set_triggered a triggered in
  match match taken with Some index => Some index | None => next_waiting (ia_checklist a) end with
  | None => mret ([], a)
  | Some index =>
      '(action, a) ← start_check a index now_ms false random_id;
      match action with
      | Some action =>
          mret ([action], set_next_check_ms a (saturating_add 64 now_ms (Z.max (ac_pacing_ms (ia_config a)) 1)))
      | None => mret ([], a)
      end
  end.

(** [order]: the keys of [checks] as the hash map yields them; [id1], [id2]: the
    random transaction ids drawn, in order. *)
Definition poll (a : IceAgent) (now_ms : Z) (order : list nat) (id1 id2 : option bytes)
  : res StunError (list AgentAction * IceAgent) :=
  match ia_state a with
  | IceFailed | Completed => mret ([], a)
  | _ =>
      '(actions, a) ← poll_checks a order now_ms;
      if ac_controlling (ia_config a) && negb (ia_nomination_sent a) && bool_decide (ia_selected a = None) then
        match valid (ia_checklist a) with
        | best :: _ =>
            let a := set_nomination_sent a true in
            '(action, a) ← start_check a best now_ms true id1;
            match action with
            | Some action => mret (actions ++ [action], a)
            | None => '(more, a) ← poll_paced a now_ms id2; mret (actions ++ more, a)
            end
        | [] => '(more, a) ← poll_paced a now_ms id1; mret (actions ++ more, a)
        end
      else '(more, a) ← poll_paced a now_ms id1; mret (actions ++ more, a)
  end.

(** ** Trickled candidates *)

Fixpoint add_pairs (a : IceAgent) (locals : list Candidate) (remote : Candidate) (added : nat) : nat * IceAgent :=
  match locals with
  | [] => (added, a)
  | local :: locals =>
      if negb (cd_component local =? cd_component remote)
         || negb (Bool.eqb (is_ipv4 (cd_address local)) (is_ipv4 (cd_address remote)))
         || negb (is_supported (cd_transport local)) then add_pairs a locals remote added
      else if bool_decide (is_Some (find_pair (ia_checklist a) (cd_address local) (cd_address remote)))
      then add_pairs a locals remote added
      else
        let pair := set_pair_state Waiting (CandidatePair_new local remote (ac_controlling (ia_config a))) in
        let index := length (ia_checklist a) in
        let a := set_checklist a (ia_checklist a ++ [pair]) in
        add_pairs (push_triggered a index) locals remote (S added)
  end.

Definition add_remote_candidate (a : IceAgent) (remote : Candidate) : nat * IceAgent :=
  if negb (is_supported (cd_transport remote)) then (0%nat, a) else
  let '(added, a) := add_pairs a (ac_local_candidates (ia_config a)) remote 0 in
  if (0 <? added)%nat && bool_decide (ia_state a = IceFailed) then (added, snd (set_state a Running)) else (added, a).

(** ** Requests *)

Definition local_candidate_for (a : IceAgent) (address : SocketAddr) : option Candidate :=
  match List.find (fun c => bool_decide (cd_address c = address)) (ac_local_candidates (ia_config a)) with
  | Some c => Some c
  | None => cp_local <$> List.find (fun p => bool_decide (cd_address (cp_local p) = address)) (ia_checklist a)
  end.

(** [username.split(':').next()] *)
Fixpoint first_field (text : bytes) : bytes :=
  match text with [] => [] | b :: text => if b =? 58 then [] else b :: first_field text end.

Definition addressed_to_us (a : IceAgent) (message : StunMessage) : bool :=
  match username message with
  | Some name => bool_decide (first_field name = cr_ufrag (ac_local_credentials (ia_config a)))
  | None => false
  end.

(** The role conflict: the agent after it, and whether the check is to be answered
    with 487 instead. *)
Definition resolve_conflict (a : IceAgent) (message : StunMessage) : bool * IceAgent :=
  match ice_controlling message with
  | Some theirs =>
      if ac_controlling (ia_config a) then
        if theirs <=? ac_tie_breaker (ia_config a) then (true, a) else (false, switch_role a false)
      else (false, a)
  | None =>
      match ice_controlled message with
      | Some theirs =>
          if negb (ac_controlling (ia_config a)) then
            if theirs <=? ac_tie_breaker (ia_config a) then (true, a) else (false, switch_role a true)
          else (false, a)
      | None => (false, a)
      end
  end.

(** The peer-reflexive remote candidate a check reveals. *)
Definition reflexive_remote (source : SocketAddr) (priority : Z) : Candidate :=
  let c := Candidate_new [] 1 source PeerReflexive 0 in
  mkCandidate (compute_foundation PeerReflexive (sa_ip source) Udp None) (cd_component c) (cd_transport c) priority
    (cd_address c) (cd_kind c) (cd_related c) (cd_extensions c).

(** The pair the check came in on, [None] when the check is dropped. *)
Definition pair_for_check (a : IceAgent) (local source : SocketAddr) (message : StunMessage) : option (nat * IceAgent) :=
  match find_pair (ia_checklist a) local source with
  | Some index => Some (index, a)
  | None =>
      let remote := reflexive_remote source (default 0 (ice_priority message)) in
      match local_candidate_for a local with
      | None => None
      | Some local_candidate =>
          let pair := set_pair_state Waiting (CandidatePair_new local_candidate remote (ac_controlling (ia_config a))) in
          Some (length (ia_checklist a), set_checklist a (ia_checklist a ++ [pair]))
      end
  end.

Definition honour_use_candidate (a : IceAgent) (index : nat) (message : StunMessage)
  : res StunError (list AgentAction * IceAgent) :=
  if has_use_candidate message && negb (ac_controlling (ia_config a)) then
    let nominate := default index (ia_generated_valid a !! index) in
    a ← update_pair a nominate set_nominated;
    a ← update_pair a index set_nominated;
    pair ← pair_at a nominate;
    if bool_decide (cp_state pair = PairSucceeded) then select a nominate else mret ([], a)
  else mret ([], a).

Definition trigger_check (a : IceAgent) (index : nat) : res StunError IceAgent :=
  pair ← pair_at a index;
  match cp_state pair with
  | Frozen | Waiting | PairFailed =>
      a ← update_pair a index (set_pair_state Waiting);
      mret (push_triggered a index)
  | _ => mret a
  end.

Definition on_request (a : IceAgent) (local source : SocketAddr) (datagram : bytes) (message : StunMessage)
  : res StunError (list AgentAction * IceAgent) :=
  let pwd := cr_pwd (ac_local_credentials (ia_config a)) in
  verified ← (if addressed_to_us a message then verify_message_integrity datagram pwd else mret false);
  if negb verified then mret ([], a) else
  let '(conflict, a) := resolve_conflict a message in
  if (conflict : bool) then
    answer ← binding_error_response (sm_transaction_id message) ERROR_ROLE_CONFLICT ROLE_CONFLICT (Some pwd);
    mret ([Send local source answer], a)
  else
  match pair_for_check a local source message with
  | None => mret ([], a)
  | Some (index, a) =>
      answer ← binding_success_response (sm_transaction_id message) source (Some pwd);
      '(actions, a) ← honour_use_candidate a index message;
      a ← trigger_check a index;
      mret (Send local source answer :: actions, a)
  end.

(** ** Responses *)

Definition discover_local_reflexive (a : IceAgent) (checked : nat) (mapped : SocketAddr) : res StunError (nat * IceAgent) :=
  pair ← pair_at a checked;
  match find_pair (ia_checklist a) mapped (cd_address (cp_remote pair)) with
  | Some existing => mret (existing, a)
  | None =>
      let base := cd_address (cp_local pair) in
      let c := Candidate_new [] (pair_component pair) mapped PeerReflexive 65535 in
      let local := mkCandidate (compute_foundation PeerReflexive (sa_ip base) Udp None) (cd_component c) (cd_transport c)
                     (cd_priority c) (cd_address c) (cd_kind c) (Some base) (cd_extensions c) in
      let pair := CandidatePair_new local (cp_remote pair) (ac_controlling (ia_config a)) in
      mret (length (ia_checklist a), set_checklist a (ia_checklist a ++ [pair]))
  end.

Definition fail_check (a : IceAgent) (index : nat) (message : StunMessage) : res StunError (list AgentAction * IceAgent) :=
  let a := set_checks a (delete index (ia_checks a)) (delete (sm_transaction_id message) (ia_transactions a)) in
  a ← update_pair a index (set_pair_state PairFailed);
  mret (recompute_state a).

(** The valid pair a success produces, its nomination inherited. *)
Definition valid_pair (a : IceAgent) (index : nat) (message : StunMessage) : res StunError (nat * IceAgent) :=
  mapped ← xor_mapped_address message;
  '(valid_index, a) ←
    match mapped with
    | Some mapped =>
        match local_candidate_for a mapped with
        | None => discover_local_reflexive a index mapped
        | Some _ => mret (index, a)
        end
    | None => mret (index, a)
    end;
  if bool_decide (valid_index = index) then mret (valid_index, a) else
  let a := set_generated_valid a (<[index := valid_index]> (ia_generated_valid a)) in
  checked ← pair_at a index;
  if cp_nominated checked then a ← update_pair a valid_index set_nominated; mret (valid_index, a)
  else mret (valid_index, a).

Definition on_success (a : IceAgent) (source : SocketAddr) (datagram : bytes) (message : StunMessage)
  : res StunError (list AgentAction * IceAgent) :=
  match ia_transactions a !! sm_transaction_id message with
  | None => mret ([], a)
  | Some index =>
      verified ← verify_message_integrity datagram (cr_pwd (ac_remote_credentials (ia_config a)));
      if negb verified then mret ([], a) else
      pair ← pair_at a index;
      if negb (bool_decide (cd_address (cp_remote pair) = source)) then fail_check a index message else
      match ia_checks a !! index with
      | None => mret ([], a)
      | Some check =>
          let a := set_checks a (delete index (ia_checks a)) (delete (sm_transaction_id message) (ia_transactions a)) in
          '(valid_index, a) ← valid_pair a index message;
          a ← update_pair a valid_index (set_pair_state PairSucceeded);
          pair ← pair_at a valid_index;
          let a := set_checklist a (unfreeze_foundation (pair_foundation pair) (ia_checklist a)) in
          pair ← pair_at a valid_index;
          if oc_nominating check || cp_nominated pair then
            a ← update_pair a valid_index set_nominated;
            select a valid_index
          else mret (recompute_state a)
      end
  end.

Definition on_error_response (a : IceAgent) (datagram : bytes) (message : StunMessage)
  : res StunError (list AgentAction * IceAgent) :=
  match ia_transactions a !! sm_transaction_id message with
  | None => mret ([], a)
  | Some index =>
      verified ← verify_message_integrity datagram (cr_pwd (ac_remote_credentials (ia_config a)));
      if negb verified then mret ([], a) else
      let a := set_checks a (delete index (ia_checks a)) (delete (sm_transaction_id message) (ia_transactions a)) in
      if bool_decide (error_code message = Some ERROR_ROLE_CONFLICT) then
        let a := switch_role a (negb (ac_controlling (ia_config a))) in
        a ← update_pair a index (set_pair_state Waiting);
        mret ([], set_nomination_sent (push_triggered a index) false)
      else
        a ← update_pair a index (set_pair_state PairFailed);
        mret (recompute_state a)
  end.

Definition on_datagram (a : IceAgent) (local source : SocketAddr) (datagram : bytes)
  : res StunError (list AgentAction * IceAgent) :=
  match parse datagram with
  | Err _ => mret ([], a)
  | Panic => Panic
  | Ok message =>
      if is_binding_request message then on_request a local source datagram message
      else if sm_message_type message =? BINDING_SUCCESS then on_success a source datagram message
      else on_error_response a datagram message
  end.

(** * Proofs *)

(** ** The state of an agent *)

Record agent_ok (a : IceAgent) : Prop := {
  ok_checks : forall i c, ia_checks a !! i = Some c ->
    (i < length (ia_checklist a))%nat /\ len (tx_id (oc_transaction c)) = 12;
  ok_transactions : forall id i, ia_transactions a !! id = Some i -> (i < length (ia_checklist a))%nat;
  ok_generated : forall i j, ia_generated_valid a !! i = Some j -> (j < length (ia_checklist a))%nat;
  ok_selected : forall i, ia_selected a = Some i -> ia_state a = Completed /\
    exists p, ia_checklist a !! i = Some p /\ cp_nominated p = true;
  ok_completed : ia_state a = Completed -> is_Some (ia_selected a)
}.

(** A pair keeps its place, its two candidates and its nomination. *)
Definition grown (l l' : list CandidatePair) : Prop :=
  forall i p, l !! i = Some p -> exists p', l' !! i = Some p' /\ cp_local p' = cp_local p /\ cp_remote p' = cp_remote p /\
    (cp_nominated p = true -> cp_nominated p' = true).

Record grows (a a' : IceAgent) : Prop := {
  gr_pairs : grown (ia_checklist a) (ia_checklist a');
  gr_completed : ia_state a = Completed -> ia_state a' = Completed
}.

#[export] Instance grown_preorder : PreOrder grown.
Proof.
  split.
  - intros l i p H. by exists p.
  - intros l1 l2 l3 H12 H23 i p Hp. destruct (H12 i p Hp) as (q & Hq & Hl & Hr & Hn).
    destruct (H23 i q Hq) as (r & Hr' & Hl' & Hr'' & Hn'). exists r. split_and!; [done|congruence|congruence|auto].
Qed.

#[export] Instance grows_preorder : PreOrder grows.
Proof.
  split.
  - intros a. by split.
  - intros a b c [H1 H2] [H3 H4]. split; [by etransitivity|auto].
Qed.

Lemma grown_length l l' : grown l l' -> (length l <= length l')%nat.
Proof.
  intros H. destruct (decide (length l <= length l')%nat); [done|].
  destruct (lookup_lt_is_Some_2 l (length l')) as [p Hp]; [lia|]. destruct (H _ _ Hp) as (p' & Hp' & _).
  apply lookup_lt_Some in Hp'. lia.
Qed.

Lemma grown_insert (l : list CandidatePair) i p p' : l !! i = Some p -> cp_local p' = cp_local p -> cp_remote p' = cp_remote p ->
  (cp_nominated p = true -> cp_nominated p' = true) -> grown l (<[i := p']> l).
Proof.
  intros Hp Hl Hr Hn j q Hq. destruct (decide (i = j)) as [->|Hij].
  - rewrite list_lookup_insert_eq by (by eapply lookup_lt_Some). exists p'. by simplify_eq.
  - rewrite list_lookup_insert_ne by done. by exists q.
Qed.

Lemma grown_app l l2 : grown l (l ++ l2).
Proof. intros i p Hp. exists p. by rewrite lookup_app_l by (by eapply lookup_lt_Some). Qed.

Lemma grown_map l f : (forall p, cp_local (f p) = cp_local p /\ cp_remote (f p) = cp_remote p /\ cp_nominated (f p) = cp_nominated p) ->
  grown l (map f l).
Proof.
  intros Hf i p Hp. exists (f p). rewrite list_lookup_fmap, Hp. destruct (Hf p) as (-> & -> & ->). by split_and!.
Qed.

(** The invariant after the list of pairs has grown. *)
Lemma ok_set_checklist a l : agent_ok a -> grown (ia_checklist a) l -> agent_ok (set_checklist a l) /\ grows a (set_checklist a l).
Proof.
  intros [H1 H2 H3 H4 H5] Hg. pose proof (grown_length _ _ Hg). split; [|by split]. constructor; cbn.
  - intros i c Hc. destruct (H1 i c Hc). split; [lia|done].
  - intros id i Hi. specialize (H2 _ _ Hi). lia.
  - intros i j Hj. specialize (H3 _ _ Hj). lia.
  - intros i Hi. destruct (H4 i Hi) as [Hs (p & Hp & Hn)]. split; [done|]. destruct (Hg i p Hp) as (p' & Hp' & _ & _ & Hn').
    exists p'. auto.
  - done.
Qed.

Lemma ok_set_checks a checks transactions : agent_ok a ->
  (forall i c, checks !! i = Some c -> (i < length (ia_checklist a))%nat /\ len (tx_id (oc_transaction c)) = 12) ->
  (forall id i, transactions !! id = Some i -> (i < length (ia_checklist a))%nat) ->
  agent_ok (set_checks a checks transactions) /\ grows a (set_checks a checks transactions).
Proof. intros [] ? ?. split; [by constructor|by split]. Qed.

Lemma ok_forget_check a i id : agent_ok a ->
  agent_ok (set_checks a (delete i (ia_checks a)) (delete id (ia_transactions a))) /\
  grows a (set_checks a (delete i (ia_checks a)) (delete id (ia_transactions a))).
Proof.
  intros Hok. apply ok_set_checks; [done|..].
  - intros j c [_ Hj]%lookup_delete_Some. by eapply ok_checks.
  - intros j k [_ Hj]%lookup_delete_Some. by eapply ok_transactions.
Qed.

Lemma ok_set_triggered a l : agent_ok a -> agent_ok (set_triggered a l) /\ grows a (set_triggered a l).
Proof. intros []. split; [by constructor|by split]. Qed.

Lemma ok_set_next a ms : agent_ok a -> agent_ok (set_next_check_ms a ms) /\ grows a (set_next_check_ms a ms).
Proof. intros []. split; [by constructor|by split]. Qed.

Lemma ok_set_nomination a b : agent_ok a -> agent_ok (set_nomination_sent a b) /\ grows a (set_nomination_sent a b).
Proof. intros []. split; [by constructor|by split]. Qed.

Lemma ok_set_config a c : agent_ok a -> agent_ok (set_config a c) /\ grows a (set_config a c).
Proof. intros []. split; [by constructor|by split]. Qed.

Lemma ok_push_triggered a i : agent_ok a -> agent_ok (push_triggered a i) /\ grows a (push_triggered a i).
Proof. intros Hok. unfold push_triggered. case_bool_decide; [by split|]. by apply ok_set_triggered. Qed.

Lemma pair_at_Ok a i : (i < length (ia_checklist a))%nat -> exists p, pair_at a i = Ok p /\ ia_checklist a !! i = Some p.
Proof. intros [p Hp]%lookup_lt_is_Some_2. exists p. unfold pair_at. by rewrite Hp. Qed.

Lemma pair_at_lookup a i p : ia_checklist a !! i = Some p -> pair_at a i = Ok p.
Proof. intros Hp. unfold pair_at. by rewrite Hp. Qed.

(** The assignments to a pair the agent makes. *)
Definition benign (f : CandidatePair -> CandidatePair) : Prop :=
  forall p, cp_local (f p) = cp_local p /\ cp_remote (f p) = cp_remote p /\ (cp_nominated p = true -> cp_nominated (f p) = true).

Lemma benign_state s : benign (set_pair_state s).
Proof. by intros []. Qed.

Lemma benign_nominated : benign set_nominated.
Proof. by intros []. Qed.

#[local] Hint Resolve benign_state benign_nominated : core.

Lemma update_pair_Ok a i f : agent_ok a -> benign f -> (i < length (ia_checklist a))%nat ->
  exists p a', ia_checklist a !! i = Some p /\ update_pair a i f = Ok a' /\
    a' = set_checklist a (<[i := f p]> (ia_checklist a)) /\ agent_ok a' /\ grows a a' /\
    length (ia_checklist a') = length (ia_checklist a) /\ ia_checklist a' !! i = Some (f p).
Proof.
  intros Hok Hf Hi. destruct (lookup_lt_is_Some_2 _ _ Hi) as [p Hp]. unfold update_pair. rewrite Hp.
  exists p, (set_checklist a (<[i := f p]> (ia_checklist a))). split; [done|]. split; [done|]. split; [done|].
  destruct (Hf p) as (Hl & Hr & Hn).
  destruct (ok_set_checklist a (<[i := f p]> (ia_checklist a)) Hok) as [H1 H2]; [by eapply grown_insert|].
  split; [done|]. split; [done|]. cbn. rewrite length_insert. split; [done|]. by apply list_lookup_insert_eq.
Qed.

(** A state that is not [Completed], taken while no pair is selected. *)
Lemma ok_set_state a s : agent_ok a -> ia_selected a = None -> s <> Completed ->
  exists acts a', set_state a s = (acts, a') /\ agent_ok a' /\ grows a a' /\
    Forall (fun act => act = StateChanged s) acts.
Proof.
  intros Hok Hn Hs. unfold set_state. case_bool_decide; [by exists [], a|]. eexists _, _. split; [reflexivity|].
  destruct Hok as [H1 H2 H3 H4 H5]. assert (ia_state a <> Completed).
  { intros Hc. destruct (H5 Hc) as [i Hi]. congruence. }
  split_and!; [constructor; cbn; [done|done|done|congruence|done]|by split|by forall_list].
Qed.

(** What an action says of the state it leaves: a selected pair is one whose check
    succeeded and which is nominated. *)
Definition announced (a : IceAgent) (act : AgentAction) : Prop :=
  match act with
  | Selected local remote => exists i p, ia_selected a = Some i /\ ia_checklist a !! i = Some p /\
      cp_state p = PairSucceeded /\ cp_nominated p = true /\
      local = cd_address (cp_local p) /\ remote = cd_address (cp_remote p)
  | _ => True
  end.

(** The result of an operation: no panic, the invariant kept. *)
Definition keeps (a : IceAgent) (r : res StunError (list AgentAction * IceAgent)) : Prop :=
  exists acts a', r = Ok (acts, a') /\ agent_ok a' /\ grows a a' /\ Forall (announced a') acts.

(** The same of an operation that asks for datagrams and state changes only. *)
Definition quiet (a : IceAgent) (r : res StunError (list AgentAction * IceAgent)) : Prop :=
  exists acts a', r = Ok (acts, a') /\ agent_ok a' /\ grows a a' /\
    Forall (fun act => forall l r, act <> Selected l r) acts.

Lemma quiet_keeps a r : quiet a r -> keeps a r.
Proof.
  intros (acts & a' & H1 & H2 & H3 & H4). exists acts, a'. split_and!; [done..|].
  apply Forall_forall. intros act Ha. assert (forall l r, act <> Selected l r) as H by (by eapply Forall_forall in H4).
  by destruct act as [| |l r']; [| |destruct (H l r')].
Qed.

Lemma quiet_result a a' acts : agent_ok a' -> grows a a' -> Forall (fun act => forall l r, act <> Selected l r) acts ->
  quiet a (mret (acts, a')).
Proof. intros. by exists acts, a'. Qed.

Lemma quiet_nil a : agent_ok a -> quiet a (mret ([], a)).
Proof. intros. by apply quiet_result. Qed.

Lemma quiet_from a b r : grows a b -> quiet b r -> quiet a r.
Proof. intros Hg (acts & a' & H1 & H2 & H3 & H4). exists acts, a'. split_and!; [done|done|by etransitivity|done]. Qed.

Lemma keeps_from a b r : grows a b -> keeps b r -> keeps a r.
Proof. intros Hg (acts & a' & H1 & H2 & H3 & H4). exists acts, a'. split_and!; [done|done|by etransitivity|done]. Qed.

Lemma quiet_app a r (f : IceAgent -> res StunError (list AgentAction * IceAgent)) : quiet a r ->
  (forall b, agent_ok b -> grows a b -> quiet b (f b)) ->
  quiet a ('(actions, b) ← r; '(more, b) ← f b; mret (actions ++ more, b)).
Proof.
  intros (acts & b & -> & Hok & Hg & Hq) Hf. rewrite bind_Ok. destruct (Hf b Hok Hg) as (more & c & -> & Hok' & Hg' & Hq').
  rewrite bind_Ok. apply quiet_result; [done|by etransitivity|by apply Forall_app].
Qed.

Lemma recompute_quiet a : agent_ok a -> quiet a (mret (recompute_state a)).
Proof.
  intros Hok. unfold recompute_state. case_bool_decide as Hsel; [by apply quiet_nil|].
  assert (ia_selected a = None) as Hn by (by apply eq_None_not_Some).
  assert (forall s, s <> Completed -> quiet a (mret (set_state a s))) as Hset.
  { intros s Hs. destruct (ok_set_state a s Hok Hn Hs) as (acts & a' & -> & H1 & H2 & H3).
    apply quiet_result; [done|done|]. eapply Forall_impl; [exact H3|]. by intros act ->. }
  destruct (negb _); [by apply Hset|]. destruct (_ && _); [by apply Hset|by apply quiet_nil].
Qed.

(** ** The messages it builds *)

Lemma check_request_total tid name key priority role use_candidate : len tid = 12 ->
  exists raw, binding_request_ice tid name key priority role use_candidate = Ok raw.
Proof.
  intros H. pose proof (len_builder_new BINDING_REQUEST tid H). unfold binding_request_ice.
  destruct use_candidate, role; apply finish_total; rewrite <- !len_builder_attribute; lia.
Qed.

Lemma error_total tid code reason key : len tid = 12 -> exists raw, binding_error_response tid code reason key = Ok raw.
Proof.
  intros H. pose proof (len_builder_new BINDING_ERROR tid H). apply finish_total.
  etransitivity; [|apply len_builder_attribute]. lia.
Qed.

Lemma success_total tid mapped key : len tid = 12 -> exists raw, binding_success_response tid mapped key = Ok raw.
Proof.
  intros H. pose proof (len_builder_new BINDING_SUCCESS tid H). apply finish_total.
  etransitivity; [|apply len_builder_attribute]. lia.
Qed.

(** ** Checks *)

Definition id_ok (id : option bytes) : Prop := forall b, id = Some b -> len b = 12.

Lemma build_check_Ok a i tid nominating : (i < length (ia_checklist a))%nat -> len tid = 12 ->
  exists from to raw, build_check_action a i tid nominating = Ok (Send from to raw).
Proof.
  intros Hi Ht. unfold build_check_action. destruct (pair_at_Ok a i Hi) as (p & -> & _). rewrite bind_Ok. cbv zeta.
  edestruct check_request_total as [raw ->]; [done|]. rewrite bind_Ok. by eexists _, _, _.
Qed.

Lemma start_check_Ok a i now nominating id : agent_ok a -> id_ok id -> (i < length (ia_checklist a))%nat ->
  exists act a', start_check a i now nominating id = Ok (act, a') /\ agent_ok a' /\ grows a a' /\
    (forall l r, act <> Some (Selected l r)).
Proof.
  intros Hok Hid Hi. unfold start_check. destruct id as [id|]; [|by exists None, a]. specialize (Hid id eq_refl). cbv zeta.
  match goal with |- context [set_checks a ?c ?t] => set (b := set_checks a c t) end.
  destruct (ok_set_checks a (ia_checks b) (ia_transactions b) Hok) as [Hb1 Hb2].
  { intros j c. unfold b. cbn. intros [[<- <-]|[_ Hc]]%lookup_insert_Some; [done|]. by eapply ok_checks. }
  { intros j k. unfold b. cbn. intros [[_ <-]|[_ Hc]]%lookup_insert_Some; [done|]. by eapply ok_transactions. }
  destruct (update_pair_Ok b i (set_pair_state InProgress) Hb1) as (p & c & Hp & Hu & _ & Hc & Hg & Hl & _); [done|done|].
  rewrite Hu, bind_Ok. destruct (build_check_Ok c i id nominating) as (from & to & raw & ->); [by rewrite Hl|done|].
  rewrite bind_Ok. eexists _, c. split; [done|]. split; [done|]. split; [by etransitivity|congruence].
Qed.

Lemma poll_check_quiet a i now : agent_ok a -> quiet a (poll_check a i now).
Proof.
  intros Hok. unfold poll_check. destruct (ia_checks a !! i) as [c|] eqn:Hc; [|by apply quiet_nil].
  destruct (ok_checks a Hok i c Hc) as [Hi Hid]. destruct (Transaction_poll _ _) as [act tx] eqn:Hp. cbv zeta.
  assert (tx_id tx = tx_id (oc_transaction c)) as Htx.
  { revert Hp. unfold Transaction_poll. repeat case_match; intros; simplify_eq; done. }
  match goal with |- context [set_checks a ?c ?t] => set (b := set_checks a c t) end.
  destruct (ok_set_checks a (ia_checks b) (ia_transactions b) Hok) as [Hb1 Hb2].
  { intros j d. unfold b. cbn. intros [[<- <-]|[_ Hd]]%lookup_insert_Some; [|by eapply ok_checks]. cbn. by rewrite Htx. }
  { exact (ok_transactions a Hok). }
  change (set_checks a (ia_checks b) (ia_transactions b)) with b in *. destruct act.
  - apply quiet_result; [exact Hb1|exact Hb2|constructor].
  - destruct (build_check_Ok b i (tx_id (oc_transaction c)) (oc_nominating c)) as (from & to & raw & ->); [done..|].
    rewrite bind_Ok. apply quiet_result; [exact Hb1|exact Hb2|by forall_list].
  - destruct (ok_forget_check b i (tx_id (oc_transaction c)) Hb1) as [Hd1 Hd2].
    match goal with |- context [update_pair ?x] => set (d := x) end. fold d in Hd1, Hd2.
    destruct (update_pair_Ok d i (set_pair_state PairFailed) Hd1) as (p & e & _ & -> & _ & He & Hg & _); [done|done|].
    rewrite bind_Ok. eapply quiet_from; [|by apply recompute_quiet]. etransitivity; [exact Hb2|]. by etransitivity.
Qed.

Lemma poll_checks_quiet order now : forall a, agent_ok a -> quiet a (poll_checks a order now).
Proof.
  induction order as [|i order IH]; intros a Hok; cbn [poll_checks]; [by apply quiet_nil|].
  apply (quiet_app a (poll_check a i now) (fun b => poll_checks b order now)); [by apply poll_check_quiet|auto].
Qed.

Lemma take_triggered_bound checks n l i l' : take_triggered checks n l = (Some i, l') -> (i < n)%nat.
Proof.
  revert l'. induction l as [|j l IH]; intros l'; cbn [take_triggered]; [done|]. case_bool_decide; [apply IH|].
  destruct (Nat.ltb_spec j n); [|apply IH]. intros ?. by simplify_eq.
Qed.

Lemma next_waiting_bound pairs i : next_waiting pairs = Some i -> (i < length pairs)%nat.
Proof.
  unfold next_waiting. assert (forall l k best, (forall j x, best = Some (j, x) -> (j < k)%nat) ->
    next_waiting_from k best l = Some i -> (i < k + length l)%nat) as H.
  { induction l as [|p l IH]; intros k best Hb; cbn.
    - destruct best as [[j x]|]; [|done]. cbn. intros [= ->]. rewrite Nat.add_0_r. by eapply Hb.
    - intros Hi. apply IH in Hi; [lia|]. intros j x Hj. case_bool_decide.
      + destruct best as [[j' x']|]; [destruct (x' <=? _)|]; simplify_eq; try lia. specialize (Hb j x eq_refl). lia.
      + specialize (Hb j x Hj). lia. }
  intros Hi. by apply (H pairs 0%nat None) in Hi.
Qed.

Lemma find_pair_bound pairs l r i : find_pair pairs l r = Some i -> (i < length pairs)%nat.
Proof.
  unfold find_pair. assert (forall ps k, find_pair_from k l r ps = Some i -> (i < k + length ps)%nat) as H.
  { induction ps as [|p ps IH]; intros k; cbn; [done|]. destruct (_ && _); [intros [= ->]; lia|]. intros Hi%IH. lia. }
  apply H.
Qed.

Lemma valid_bound pairs i : i ∈ valid pairs -> (i < length pairs)%nat.
Proof.
  unfold valid. rewrite sort_by_perm. rewrite list_elem_of_filter. intros [_ Hi%elem_of_seq]. lia.
Qed.

Lemma poll_paced_quiet a now id : agent_ok a -> id_ok id -> quiet a (poll_paced a now id).
Proof.
  intros Hok Hid. unfold poll_paced. destruct (_ <? _); [by apply quiet_nil|].
  destruct (take_triggered _ _ _) as [taken queue] eqn:Ht. cbv zeta. destruct (ok_set_triggered a queue Hok) as [Hb1 Hb2].
  set (b := set_triggered a queue) in *.
  assert (forall i, match taken with Some i => Some i | None => next_waiting (ia_checklist b) end = Some i ->
    (i < length (ia_checklist b))%nat) as Hi.
  { intros i. destruct taken; [intros [= ->]; by eapply take_triggered_bound|apply next_waiting_bound]. }
  destruct (match taken with Some i => Some i | None => next_waiting (ia_checklist b) end) as [i|]; [|by apply quiet_result].
  destruct (start_check_Ok b i now false id Hb1 Hid (Hi i eq_refl)) as (act & c & -> & Hc1 & Hc2 & Hs). rewrite bind_Ok.
  destruct act as [act|].
  - destruct (ok_set_next c (saturating_add 64 now (Z.max (ac_pacing_ms (ia_config c)) 1)) Hc1) as [Hd1 Hd2].
    apply quiet_result; [done|by do 2 (etransitivity; [done|])|]. forall_list. intros l r ->. by apply (Hs l r).
  - apply quiet_result; [done|by etransitivity|constructor].
Qed.

Lemma poll_quiet a now order id1 id2 : agent_ok a -> id_ok id1 -> id_ok id2 -> quiet a (poll a now order id1 id2).
Proof.
  intros Hok H1 H2. unfold poll. assert (quiet a (mret ([], a))) by (by apply quiet_nil).
  assert (quiet a ('(actions, a) ← poll_checks a order now;
      if ac_controlling (ia_config a) && negb (ia_nomination_sent a) && bool_decide (ia_selected a = None) then
        match valid (ia_checklist a) with
        | best :: _ =>
            let a := set_nomination_sent a true in
            '(action, a) ← start_check a best now true id1;
            match action with
            | Some action => mret (actions ++ [action], a)
            | None => '(more, a) ← poll_paced a now id2; mret (actions ++ more, a)
            end
        | [] => '(more, a) ← poll_paced a now id1; mret (actions ++ more, a)
        end
      else '(more, a) ← poll_paced a now id1; mret (actions ++ more, a))); [|by destruct (ia_state a)].
  destruct (poll_checks_quiet order now a Hok) as (acts & b & -> & Hb & Hg & Hq). rewrite bind_Ok.
  assert (forall c id, agent_ok c -> id_ok id -> grows b c ->
    quiet a ('(more, c) ← poll_paced c now id; mret (acts ++ more, c))) as Hpaced.
  { intros c id Hc Hid Hgc. destruct (poll_paced_quiet c now id Hc Hid) as (more & d & -> & Hd & Hgd & Hqd). rewrite bind_Ok.
    apply quiet_result; [done|by do 2 (etransitivity; [done|])|by apply Forall_app]. }
  destruct (_ && _); [|by apply Hpaced]. destruct (valid (ia_checklist b)) as [|best l] eqn:Hv; [by apply Hpaced|].
  destruct (ok_set_nomination b true Hb) as [Hn1 Hn2]. cbv zeta.
  destruct (start_check_Ok (set_nomination_sent b true) best now true id1 Hn1 H1) as (act & c & -> & Hc1 & Hc2 & Hs).
  { apply valid_bound. cbn [ia_checklist set_nomination_sent]. rewrite Hv. by left. }
  rewrite bind_Ok. destruct act as [act|].
  - apply quiet_result; [done|by do 2 (etransitivity; [done|])|]. apply Forall_app. split; [done|]. forall_list.
    intros l' r ->. by apply (Hs l' r).
  - apply Hpaced; [done|done|by etransitivity].
Qed.

(** ** Trickled candidates *)

Lemma add_pairs_ok remote locals : forall a added, agent_ok a ->
  agent_ok (snd (add_pairs a locals remote added)) /\ grows a (snd (add_pairs a locals remote added)).
Proof.
  induction locals as [|l locals IH]; intros a added Hok; cbn [add_pairs]; [by split|].
  destruct (_ || _); [by apply IH|]. case_bool_decide; [by apply IH|]. cbv zeta.
  edestruct (ok_set_checklist a) as [Hb1 Hb2]; [exact Hok|apply grown_app|].
  edestruct (ok_push_triggered _ (length (ia_checklist a)) Hb1) as [Hc1 Hc2].
  edestruct (IH _ (S added) Hc1) as [Hd1 Hd2]. split; [exact Hd1|]. by do 2 (etransitivity; [done|]).
Qed.

Lemma ok_failed_unselected a : agent_ok a -> ia_state a <> Completed -> ia_selected a = None.
Proof. intros Hok Hs. destruct (ia_selected a) as [i|] eqn:E; [|done]. by destruct (ok_selected a Hok i E). Qed.

Lemma add_remote_ok a remote : agent_ok a ->
  agent_ok (snd (add_remote_candidate a remote)) /\ grows a (snd (add_remote_candidate a remote)).
Proof.
  intros Hok. unfold add_remote_candidate. destruct (negb _); [by split|].
  destruct (add_pairs_ok remote (ac_local_candidates (ia_config a)) a 0 Hok) as [H1 H2].
  destruct (add_pairs _ _ _ _) as [added b]. cbn [snd] in *. destruct (_ && _) eqn:E; [|by split].
  apply andb_true_iff in E as [_ E%bool_decide_eq_true]. cbn [snd].
  destruct (ok_set_state b Running H1) as (acts & c & -> & Hc & Hg & _); [apply ok_failed_unselected; congruence|done|].
  split; [done|by etransitivity].
Qed.

(** ** Requests and responses *)

Lemma select_keeps a i p : agent_ok a -> ia_checklist a !! i = Some p -> cp_nominated p = true -> cp_state p = PairSucceeded ->
  keeps a (select a i).
Proof.
  intros Hok Hp Hn Hs. unfold select. case_bool_decide; [by apply quiet_keeps, quiet_nil|]. cbv zeta.
  unfold pair_at. cbn [ia_checklist]. rewrite Hp, bind_Ok. destruct Hok as [H1 H2 H3 H4 H5].
  unfold set_state. cbn [ia_state]. case_bool_decide as E.
  - eexists _, _. split; [reflexivity|]. split; [|split; [by split|]].
    + constructor; cbn; [done..| |by eexists]. intros j [= <-]. split; [done|]. by exists p.
    + forall_list. exists i, p. by split_and!.
  - eexists _, _. split; [reflexivity|]. split; [|split; [by split|]].
    + constructor; cbn; [done..| |by eexists]. intros j [= <-]. split; [done|]. by exists p.
    + forall_list; [|done]. exists i, p. by split_and!.
Qed.

Lemma switch_role_ok a c : agent_ok a -> agent_ok (switch_role a c) /\ grows a (switch_role a c).
Proof.
  intros Hok. unfold switch_role. destruct (Bool.eqb _ _); [by split|].
  destruct (ok_set_config a (set_controlling (ia_config a) c) Hok) as [H1 H2].
  destruct (ok_set_checklist _ (map (reprice c) (ia_checklist a)) H1) as [H3 H4]; [by apply grown_map|].
  split; [done|by etransitivity].
Qed.

Lemma resolve_conflict_ok a m b c : agent_ok a -> resolve_conflict a m = (c, b) -> agent_ok b /\ grows a b.
Proof.
  intros Hok. unfold resolve_conflict. repeat case_match; intros; simplify_eq; (by split) || by apply switch_role_ok.
Qed.

Lemma pair_for_check_ok a local source m i b : agent_ok a -> pair_for_check a local source m = Some (i, b) ->
  agent_ok b /\ grows a b /\ (i < length (ia_checklist b))%nat.
Proof.
  intros Hok. unfold pair_for_check. destruct (find_pair _ _ _) as [j|] eqn:E.
  - intros ?. simplify_eq. split_and!; [done|done|by eapply find_pair_bound].
  - cbv zeta. destruct (local_candidate_for _ _) as [lc|]; [|done]. intros H. apply (inj Some) in H.
    apply pair_eq in H as [<- <-]. edestruct (ok_set_checklist a) as [H1 H2]; [exact Hok|apply grown_app|].
    split; [exact H1|]. split; [exact H2|]. cbn. rewrite length_app. cbn. lia.
Qed.

Lemma honour_keeps a i m : agent_ok a -> (i < length (ia_checklist a))%nat -> keeps a (honour_use_candidate a i m).
Proof.
  intros Hok Hi. unfold honour_use_candidate. destruct (_ && _); [|by apply quiet_keeps, quiet_nil]. cbv zeta.
  set (n := default i (ia_generated_valid a !! i)). assert (n < length (ia_checklist a))%nat as Hn.
  { unfold n. destruct (ia_generated_valid a !! i) as [j|] eqn:E; [|done]. by eapply ok_generated. }
  destruct (update_pair_Ok a n set_nominated Hok) as (p & b & Hp & -> & _ & Hb & Hg & Hl & Hbn); [done|done|]. rewrite bind_Ok.
  destruct (update_pair_Ok b i set_nominated Hb) as (q & c & Hq & -> & -> & Hc & Hgc & Hlc & Hci); [done|by rewrite Hl|].
  rewrite bind_Ok. set (c := set_checklist b (<[i := set_nominated q]> (ia_checklist b))) in *.
  destruct (gr_pairs _ _ Hgc n _ Hbn) as (r & Hr & _ & _ & Hrn). rewrite (pair_at_lookup _ _ _ Hr), bind_Ok.
  eapply keeps_from; [by etransitivity|]. case_bool_decide as E; [|by apply quiet_keeps, quiet_nil].
  eapply select_keeps; [done|exact Hr|by apply Hrn|done].
Qed.

Lemma trigger_check_Ok a i : agent_ok a -> (i < length (ia_checklist a))%nat ->
  exists a', trigger_check a i = Ok a' /\ agent_ok a' /\ grows a a' /\ (forall act, announced a act -> announced a' act).
Proof.
  intros Hok Hi. unfold trigger_check. destruct (pair_at_Ok a i Hi) as (p & -> & Hp). rewrite bind_Ok.
  assert (exists a', (b ← update_pair a i (set_pair_state Waiting); mret (push_triggered b i)) = Ok a' /\ agent_ok a' /\ grows a a' /\
    (cp_state p <> PairSucceeded -> forall act, announced a act -> announced a' act)) as (b & Hb & Hok' & Hg & Ha).
  { destruct (update_pair_Ok a i (set_pair_state Waiting) Hok) as (q & b & Hq & -> & -> & Hb & Hg & Hl & _); [done|done|].
    rewrite bind_Ok. edestruct (ok_push_triggered _ i Hb) as [Hc1 Hc2]. eexists. split; [reflexivity|]. split; [exact Hc1|].
    split; [by etransitivity|]. intros Hne [| |l r]; [done|done|]. intros (j & t & H1 & H2 & H3 & H4). exists j, t.
    assert (i <> j) by congruence. unfold push_triggered. destruct (bool_decide _); cbn; rewrite list_lookup_insert_ne by done; done. }
  destruct (cp_state p) eqn:E; try (by exists b; rewrite Hb; split_and!; [done|done|done|apply Ha]); by exists a.
Qed.

Lemma on_request_keeps a local source datagram m : agent_ok a ->
  (exists t, verify_message_integrity datagram (cr_pwd (ac_local_credentials (ia_config a))) = Ok t) ->
  len (sm_transaction_id m) = 12 -> keeps a (on_request a local source datagram m).
Proof.
  intros Hok Hb Ht. unfold on_request. cbv zeta. match goal with |- keeps a (x ← ?v; _) => assert (exists t, v = Ok t) as [t ->] end.
  { destruct (addressed_to_us a m); [done|by eexists]. }
  rewrite bind_Ok. destruct (negb t); [by apply quiet_keeps, quiet_nil|].
  destruct (resolve_conflict a m) as [conflict b] eqn:Hr. destruct (resolve_conflict_ok _ _ _ _ Hok Hr) as [Hb1 Hb2].
  destruct conflict.
  - destruct (error_total (sm_transaction_id m) ERROR_ROLE_CONFLICT ROLE_CONFLICT (Some (cr_pwd (ac_local_credentials (ia_config a)))) Ht) as [raw ->].
    rewrite bind_Ok. apply quiet_keeps, quiet_result; [done|done|by forall_list].
  - destruct (pair_for_check b local source m) as [[i c]|] eqn:Hp; [|by apply quiet_keeps, quiet_result].
    destruct (pair_for_check_ok _ _ _ _ _ _ Hb1 Hp) as (Hc1 & Hc2 & Hi).
    destruct (success_total (sm_transaction_id m) source (Some (cr_pwd (ac_local_credentials (ia_config a)))) Ht) as [raw ->].
    rewrite bind_Ok. destruct (honour_keeps c i m Hc1 Hi) as (acts & d & -> & Hd & Hgd & Had). rewrite bind_Ok.
    destruct (trigger_check_Ok d i Hd) as (e & -> & He & Hge & Hae).
    { pose proof (grown_length _ _ (gr_pairs _ _ Hgd)). lia. }
    rewrite bind_Ok. eexists _, e. split; [reflexivity|]. split; [done|]. split; [by do 3 (etransitivity; [done|])|].
    constructor; [done|]. eapply Forall_impl; [exact Had|done].
Qed.

Lemma discover_Ok a i mapped : agent_ok a -> (i < length (ia_checklist a))%nat ->
  exists v b, discover_local_reflexive a i mapped = Ok (v, b) /\ agent_ok b /\ grows a b /\ (v < length (ia_checklist b))%nat.
Proof.
  intros Hok Hi. unfold discover_local_reflexive. destruct (pair_at_Ok a i Hi) as (p & -> & Hp). rewrite bind_Ok.
  destruct (find_pair _ _ _) as [j|] eqn:E.
  - exists j, a. split_and!; [done|done|done|by eapply find_pair_bound].
  - cbv zeta. edestruct (ok_set_checklist a) as [H1 H2]; [exact Hok|apply grown_app|]. eexists _, _. split; [reflexivity|].
    split; [exact H1|]. split; [exact H2|]. cbn. rewrite length_app. cbn. lia.
Qed.

Lemma valid_pair_Ok a i m : agent_ok a -> (i < length (ia_checklist a))%nat ->
  exists v b, valid_pair a i m = Ok (v, b) /\ agent_ok b /\ grows a b /\ (v < length (ia_checklist b))%nat.
Proof.
  intros Hok Hi. unfold valid_pair. assert (exists o, xor_mapped_address m = Ok o) as [mapped ->].
  { unfold xor_mapped_address. destruct (attribute _ _); [apply decode_xor_total|by eexists]. }
  rewrite bind_Ok. match goal with |- context [mbind _ ?v] => assert (exists n b, v = Ok (n, b) /\ agent_ok b /\ grows a b /\
    (n < length (ia_checklist b))%nat) as (n & b & -> & Hb & Hg & Hn) end.
  { destruct mapped as [mapped|]; [|by exists i, a]. destruct (local_candidate_for _ _); [by exists i, a|by apply discover_Ok]. }
  rewrite bind_Ok. case_bool_decide; [by exists n, b|]. cbv zeta.
  set (c := set_generated_valid b (<[i := n]> (ia_generated_valid b))). assert (agent_ok c /\ grows b c) as [Hc Hgc].
  { destruct Hb as [H1 H2 H3 H4 H5]. split; [|by split]. constructor; cbn; [done|done| |done|done].
    intros j k [[_ <-]|[_ Hk]]%lookup_insert_Some; [done|by eapply H3]. }
  pose proof (grown_length _ _ (gr_pairs _ _ Hg)). destruct (pair_at_Ok c i) as (p & -> & Hp); [cbn; lia|]. rewrite bind_Ok.
  destruct (cp_nominated p); [|exists n, c; split_and!; [done|done|by etransitivity|done]].
  destruct (update_pair_Ok c n set_nominated Hc) as (q & d & _ & -> & _ & Hd & Hgd & Hl & _); [done|done|]. rewrite bind_Ok.
  exists n, d. split_and!; [done|done|by do 2 (etransitivity; [done|])|by rewrite Hl].
Qed.

Lemma failed_check_quiet a i s id : agent_ok a -> (i < length (ia_checklist a))%nat ->
  quiet a (b ← update_pair (set_checks a (delete i (ia_checks a)) (delete id (ia_transactions a))) i (set_pair_state s); mret (recompute_state b)).
Proof.
  intros Hok Hi. destruct (ok_forget_check a i id Hok) as [Hb1 Hb2].
  edestruct (update_pair_Ok _ i (set_pair_state s) Hb1) as (q & d & _ & -> & _ & Hd & Hgd & Hl & _); [done|done|].
  rewrite bind_Ok. eapply quiet_from; [by etransitivity|by apply recompute_quiet].
Qed.

Lemma unfreeze_grown f l : grown l (unfreeze_foundation f l).
Proof. apply grown_map. intros p. destruct (_ && _); by destruct p. Qed.

Lemma unfreeze_succeeded f (l : list CandidatePair) i p : l !! i = Some p -> cp_state p = PairSucceeded ->
  unfreeze_foundation f l !! i = Some p.
Proof.
  intros Hp Hs. unfold unfreeze_foundation. rewrite list_lookup_fmap, Hp. cbn. by rewrite bool_decide_eq_false_2 by congruence.
Qed.

Lemma on_success_keeps a source datagram m : agent_ok a -> bytes_ok datagram -> keeps a (on_success a source datagram m).
Proof.
  intros Hok Hb. unfold on_success. destruct (ia_transactions a !! _) as [i|] eqn:Ht; [|by apply quiet_keeps, quiet_nil].
  pose proof (ok_transactions a Hok _ _ Ht) as Hi.
  destruct (verify_total datagram (cr_pwd (ac_remote_credentials (ia_config a))) Hb) as [t ->]. rewrite bind_Ok.
  destruct (negb t); [by apply quiet_keeps, quiet_nil|]. destruct (pair_at_Ok a i Hi) as (p & -> & Hp). rewrite bind_Ok.
  destruct (negb _); [by apply quiet_keeps, failed_check_quiet|].
  destruct (ia_checks a !! i) as [check|]; [|by apply quiet_keeps, quiet_nil]. cbv zeta.
  destruct (ok_forget_check a i (sm_transaction_id m) Hok) as [Hb1 Hb2].
  destruct (valid_pair_Ok _ i m Hb1 Hi) as (v & c & -> & Hc & Hgc & Hv). rewrite bind_Ok.
  destruct (update_pair_Ok c v (set_pair_state PairSucceeded) Hc) as (q & d & _ & -> & _ & Hd & Hgd & Hld & Hdv); [done|done|].
  rewrite bind_Ok, (pair_at_lookup _ _ _ Hdv), bind_Ok. set (f := pair_foundation _).
  destruct (ok_set_checklist d (unfreeze_foundation f (ia_checklist d)) Hd (unfreeze_grown _ _)) as [He Hge].
  rewrite (pair_at_lookup (set_checklist d _) _ _ (unfreeze_succeeded f _ _ _ Hdv eq_refl)), bind_Ok.
  eapply keeps_from; [etransitivity; [exact Hb2|etransitivity; [exact Hgc|etransitivity; [exact Hgd|exact Hge]]]|].
  destruct (_ || _); [|by apply quiet_keeps, recompute_quiet].
  edestruct (update_pair_Ok _ v set_nominated He) as (r & e & Hr & -> & _ & Hok' & Hg' & _ & Hev); [done| |].
  { cbn. unfold unfreeze_foundation. rewrite length_map, Hld. done. }
  rewrite bind_Ok. eapply keeps_from; [exact Hg'|]. eapply select_keeps; [done|exact Hev|done|].
  cbn [ia_checklist set_checklist] in Hr. rewrite (unfreeze_succeeded f _ _ _ Hdv) in Hr by done. by simplify_eq.
Qed.

Lemma on_error_keeps a datagram m : agent_ok a -> bytes_ok datagram -> keeps a (on_error_response a datagram m).
Proof.
  intros Hok Hb. unfold on_error_response. destruct (ia_transactions a !! _) as [i|] eqn:Ht; [|by apply quiet_keeps, quiet_nil].
  pose proof (ok_transactions a Hok _ _ Ht) as Hi.
  destruct (verify_total datagram (cr_pwd (ac_remote_credentials (ia_config a))) Hb) as [t ->]. rewrite bind_Ok.
  destruct (negb t); [by apply quiet_keeps, quiet_nil|]. cbv zeta. case_bool_decide; [|by apply quiet_keeps, failed_check_quiet].
  destruct (ok_forget_check a i (sm_transaction_id m) Hok) as [Hb1 Hb2].
  match goal with |- context [switch_role ?x ?y] => destruct (switch_role_ok x y Hb1) as [Hc1 Hc2] end.
  edestruct (update_pair_Ok _ i (set_pair_state Waiting) Hc1) as (r & e & Hr & -> & _ & Hok' & Hg' & _); [done| |].
  { eapply Nat.lt_le_trans; [exact Hi|]. apply (grown_length (ia_checklist a)), gr_pairs. by etransitivity. }
  rewrite bind_Ok. destruct (ok_push_triggered e i Hok') as [Hd1 Hd2]. destruct (ok_set_nomination _ false Hd1) as [He1 He2].
  apply quiet_keeps, quiet_result; [done| |constructor]. by do 4 (etransitivity; [done|]).
Qed.

Lemma on_datagram_keeps a local source datagram : agent_ok a -> bytes_ok datagram -> keeps a (on_datagram a local source datagram).
Proof.
  intros Hok Hb. unfold on_datagram. pose proof (parse_no_panic _ Hb) as Hp. destruct (parse datagram) as [m|e|] eqn:E; [| |done].
  - apply parse_tid in E. destruct (is_binding_request m); [apply on_request_keeps; [done|by apply verify_total|done]|].
    destruct (_ =? _); [by apply on_success_keeps|by apply on_error_keeps].
  - by apply quiet_keeps, quiet_nil.
Qed.

(** ** Runs *)

(** What the driver can do: tick the clock, hand in a datagram, trickle a candidate. *)
Inductive agent_op : Type :=
| OpPoll (now_ms : Z) (order : list nat) (id1 id2 : option bytes)
| OpDatagram (local source : SocketAddr) (datagram : bytes)
| OpTrickle (remote : Candidate).

Definition agent_step (a : IceAgent) (o : agent_op) : res StunError (list AgentAction * IceAgent) :=
  match o with
  | OpPoll now order id1 id2 => poll a now order id1 id2
  | OpDatagram local source datagram => on_datagram a local source datagram
  | OpTrickle remote => mret ([], snd (add_remote_candidate a remote))
  end.

(** A transaction id is twelve bytes, a datagram is bytes. *)
Definition op_ok (o : agent_op) : Prop :=
  match o with
  | OpPoll _ _ id1 id2 => id_ok id1 /\ id_ok id2
  | OpDatagram _ _ datagram => bytes_ok datagram
  | OpTrickle _ => True
  end.

Inductive reachable (config : AgentConfig) (start_ms : Z) : IceAgent -> Prop :=
| reach_new : reachable config start_ms (IceAgent_new config start_ms)
| reach_step a o acts a' : reachable config start_ms a -> op_ok o -> agent_step a o = Ok (acts, a') ->
    reachable config start_ms a'.

Lemma agent_step_keeps a o : agent_ok a -> op_ok o -> keeps a (agent_step a o).
Proof.
  intros Hok Ho. destruct o as [now order id1 id2|local source datagram|remote]; cbn [agent_step op_ok] in *.
  - destruct Ho. by apply quiet_keeps, poll_quiet.
  - by apply on_datagram_keeps.
  - destruct (add_remote_ok a remote Hok). by apply quiet_keeps, quiet_result.
Qed.

Lemma agent_new_ok config now : agent_ok (IceAgent_new config now).
Proof. constructor; cbn; try (intros; simplify_eq; done). by destruct (Checklist_form _ _ _). Qed.

Lemma reachable_ok config start_ms a : reachable config start_ms a -> agent_ok a.
Proof.
  induction 1 as [|a o acts a' _ IH Ho Hs]; [apply agent_new_ok|].
  destruct (agent_step_keeps a o IH Ho) as (acts' & b & Hb & Hok & _). rewrite Hb in Hs. by simplify_eq.
Qed.



(** ** Authentication *)

(** A datagram the agent may act on: a check addressed to it and signed with its own
    password, or an answer to a check of its own signed with the peer's. *)
Definition trusted (a : IceAgent) (datagram : bytes) : bool :=
  match parse datagram with
  | Ok m =>
      if is_binding_request m then
        addressed_to_us a m &&
        match verify_message_integrity datagram (cr_pwd (ac_local_credentials (ia_config a))) with Ok b => b | _ => false end
      else
        bool_decide (is_Some (ia_transactions a !! sm_transaction_id m)) &&
        match verify_message_integrity datagram (cr_pwd (ac_remote_credentials (ia_config a))) with Ok b => b | _ => false end
  | _ => false
  end.

(** Nothing unauthenticated moves the agent: a datagram that does not parse, a
    check with another agent's username or no valid MESSAGE-INTEGRITY under the
    agent's own password, an answer to no outstanding check or not signed with the
    peer's password, all leave the state as it was and ask for no action, whatever
    addresses they carry. *)
Lemma ice_unauthenticated_ignored a local source datagram : bytes_ok datagram -> trusted a datagram = false ->
  on_datagram a local source datagram = Ok ([], a).
Proof.
  intros Hb Ht. unfold on_datagram, trusted in *. pose proof (parse_no_panic _ Hb). destruct (parse datagram) as [m| |]; [|done..].
  destruct (is_binding_request m).
  - unfold on_request. cbv zeta. destruct (addressed_to_us a m); [|done].
    destruct (verify_total datagram (cr_pwd (ac_local_credentials (ia_config a))) Hb) as [b Hv]. rewrite Hv in *.
    cbn [andb] in Ht. by subst b.
  - destruct (verify_total datagram (cr_pwd (ac_remote_credentials (ia_config a))) Hb) as [b Hv].
    unfold on_success, on_error_response. rewrite Hv in *. destruct (ia_transactions a !! _).
    + rewrite bool_decide_eq_true_2 in Ht by done. cbn [andb] in Ht. subst b. by destruct (_ =? _).
    + by destruct (_ =? _).
Qed.

(** A check for another agent. *)
Lemma ice_unauthenticated_ignored_witness :
  let config := AgentConfig_new (mkCredentials [65] [66]) (mkCredentials [67] [68]) true 5 in
  let here := mkSocketAddr (V4 0x0A000001) 9000 in
  exists raw, binding_request_ice (replicate 12 7) [90; 58; 67] [66] 1 (Controlling 9) false = Ok raw /\
    on_datagram (IceAgent_new config 0) here here raw = Ok ([], IceAgent_new config 0).
Proof.
  intros config here. eexists. split; [vm_compute; reflexivity|].
  apply ice_unauthenticated_ignored; [|vm_compute; reflexivity]. unfold bytes_ok. forall_list; done.
Defined.

(** ** Role conflicts *)

Definition ufrag_ok (u : bytes) : Prop := utf8_valid u /\ bytes_ok u /\ (58 ∉ u) /\ len u <= 256.

(** Two agents of one session: each holds the other's credentials. *)
Record peers (a b : IceAgent) : Prop := {
  pe_ab : ac_remote_credentials (ia_config a) = ac_local_credentials (ia_config b);
  pe_ba : ac_remote_credentials (ia_config b) = ac_local_credentials (ia_config a);
  pe_a : ufrag_ok (cr_ufrag (ac_local_credentials (ia_config a)));
  pe_b : ufrag_ok (cr_ufrag (ac_local_credentials (ia_config b)));
  pe_tie_a : fits 64 (ac_tie_breaker (ia_config a));
  pe_tie_b : fits 64 (ac_tie_breaker (ia_config b));
  pe_ok_a : agent_ok a;
  pe_ok_b : agent_ok b
}.

Lemma peers_sym a b : peers a b -> peers b a.
Proof. by intros []. Qed.

(** An outstanding check of [b]: on pair [i], under [id]. *)
Definition checking (b : IceAgent) (i : nat) (id : bytes) : Prop :=
  len id = 12 /\ ia_transactions b !! id = Some i /\
  exists p, ia_checklist b !! i = Some p /\ fits 32 (cd_priority (cp_local p)).

Lemma first_field_app u rest : 58 ∉ u -> first_field (u ++ 58 :: rest) = u.
Proof.
  induction u as [|x u IH]; intros Hn; [done|]. cbn. apply not_elem_of_cons in Hn as [Hx Hn].
  rewrite (proj2 (Z.eqb_neq x 58)) by done. f_equal. by apply IH.
Qed.

(** The check as the other agent takes it. *)
Lemma check_arrives a b i id nominating : peers a b -> checking b i id ->
  exists from to raw m, build_check_action b i id nominating = Ok (Send from to raw) /\ parse raw = Ok m /\
    on_datagram a to from raw = on_request a to from raw m /\ sm_transaction_id m = id /\
    addressed_to_us a m = true /\ verify_message_integrity raw (cr_pwd (ac_local_credentials (ia_config a))) = Ok true /\
    ice_controlling m = (if ac_controlling (ia_config b) then Some (ac_tie_breaker (ia_config b)) else None) /\
    ice_controlled m = (if ac_controlling (ia_config b) then None else Some (ac_tie_breaker (ia_config b))).
Proof.
  intros [Hab Hba (Ha1 & Ha2 & Ha3 & Ha4) (Hb1 & Hb2 & Hb3 & Hb4) _ Htb _ _] (Hid & Ht & p & Hp & Hpr).
  unfold build_check_action. rewrite (pair_at_lookup _ _ _ Hp), bind_Ok. cbv zeta. rewrite Hba.
  set (ua := cr_ufrag (ac_local_credentials (ia_config a))) in *. set (ub := cr_ufrag (ac_local_credentials (ia_config b))) in *.
  destruct (check_request_view id (ua ++ [58] ++ ub) (cr_pwd (ac_local_credentials (ia_config a))) (cd_priority (cp_local p)) (role b) nominating)
    as (raw & m & Hraw & Hparse & Hver & Hview).
  - done.
  - apply bytes_ok_app. split; [done|]. apply bytes_ok_app. split; [by forall_list|done].
  - rewrite !len_app. change (len [58]) with 1. lia.
  - done.
  - unfold role. by destruct (ac_controlling _).
  - rewrite Hraw, bind_Ok. eexists _, _, raw, m. split; [reflexivity|]. destruct Hview as [Hty Htid Hu _ Hc1 Hc2 _].
    split_and!; [done| |done| |done|..].
    + unfold on_datagram. rewrite Hparse. unfold is_binding_request. by rewrite Hty.
    + unfold addressed_to_us, username. rewrite Hu. cbn. unfold from_utf8.
      assert (utf8_run 0 (ua ++ [58] ++ ub) = Utf8Ok) as Hrun.
      { apply valid_app; [done|]. apply valid_app; [|done]. by apply valid_ascii; forall_list. }
      cbn [app] in Hrun. rewrite Hrun. apply bool_decide_eq_true_2. by apply first_field_app.
    + rewrite Hc1. unfold role. by destruct (ac_controlling _).
    + rewrite Hc2. unfold role. by destruct (ac_controlling _).
Qed.

(** What a request cannot change. *)
Definition same_session (a a' : IceAgent) : Prop :=
  ia_config a' = ia_config a /\ ia_transactions a' = ia_transactions a.

Lemma update_pair_session a i f a' : update_pair a i f = Ok a' -> same_session a a'.
Proof. unfold update_pair. destruct (_ !! _); [|done]. by intros [= <-]. Qed.

Lemma select_session a i acts a' : select a i = Ok (acts, a') -> same_session a a'.
Proof.
  unfold select. case_bool_decide as E; [by intros [= _ <-]|]. cbv zeta. intros H. bind_inv H p Hp. unfold set_state in H.
  revert H. case_bool_decide; by intros [= _ <-].
Qed.

Lemma honour_session a i m acts a' : honour_use_candidate a i m = Ok (acts, a') -> same_session a a'.
Proof.
  unfold honour_use_candidate. destruct (_ && _); [|by intros [= _ <-]]. cbv zeta. intros H.
  bind_inv H b Hb. bind_inv H c Hc. bind_inv H p Hp. apply update_pair_session in Hb as [Hb1 Hb2], Hc as [Hc1 Hc2].
  revert H. case_bool_decide; [intros [H1 H2]%select_session|intros [= _ <-]]; split; congruence.
Qed.

Lemma trigger_session a i a' : trigger_check a i = Ok a' -> same_session a a'.
Proof.
  unfold trigger_check. intros H. bind_inv H p Hp.
  assert (forall b, update_pair a i (set_pair_state Waiting) = Ok b -> same_session a (push_triggered b i)) as Hw.
  { intros b [H1 H2]%update_pair_session. unfold push_triggered. destruct (bool_decide _); by split. }
  destruct (cp_state p); try (bind_inv H b Hb; injection H as <-; by apply Hw); by injection H as <-.
Qed.

Lemma pair_for_check_session a local source m i b : pair_for_check a local source m = Some (i, b) -> same_session a b.
Proof.
  unfold pair_for_check. destruct (find_pair _ _ _); [by intros ?; simplify_eq|]. cbv zeta.
  destruct (local_candidate_for _ _); [|done]. intros H. apply (inj Some) in H. by apply pair_eq in H as [_ <-].
Qed.

(** A check that claims the receiver's own role. *)
Lemma conflicting_request a b m : fits 64 (ac_tie_breaker (ia_config b)) ->
  ac_controlling (ia_config a) = ac_controlling (ia_config b) ->
  ice_controlling m = (if ac_controlling (ia_config b) then Some (ac_tie_breaker (ia_config b)) else None) ->
  ice_controlled m = (if ac_controlling (ia_config b) then None else Some (ac_tie_breaker (ia_config b))) ->
  resolve_conflict a m =
    if ac_tie_breaker (ia_config b) <=? ac_tie_breaker (ia_config a) then (true, a)
    else (false, switch_role a (negb (ac_controlling (ia_config b)))).
Proof.
  intros Ht Hr H1 H2. unfold resolve_conflict. rewrite H1, H2, Hr. by destruct (ac_controlling (ia_config b)).
Qed.

Lemma switch_role_flips a : let a' := switch_role a (negb (ac_controlling (ia_config a))) in
  ia_config a' = set_controlling (ia_config a) (negb (ac_controlling (ia_config a))) /\ ia_transactions a' = ia_transactions a.
Proof. unfold switch_role. by destruct (ac_controlling (ia_config a)). Qed.

(** The agent with the higher tie-breaker keeps its role and answers 487. *)
Lemma winner_answers a b i id nominating : peers a b -> checking b i id ->
  ac_controlling (ia_config a) = ac_controlling (ia_config b) ->
  ac_tie_breaker (ia_config b) <= ac_tie_breaker (ia_config a) ->
  exists from to raw answer, build_check_action b i id nominating = Ok (Send from to raw) /\
    on_datagram a to from raw = Ok ([Send to from answer], a) /\
    binding_error_response id ERROR_ROLE_CONFLICT ROLE_CONFLICT (Some (cr_pwd (ac_local_credentials (ia_config a)))) = Ok answer.
Proof.
  intros Hp Hc Hr Ht. destruct (check_arrives a b i id nominating Hp Hc) as (from & to & raw & m & H1 & H2 & H3 & H4 & H5 & H6 & H7 & H8).
  destruct Hc as [Hid _]. destruct (error_total id ERROR_ROLE_CONFLICT ROLE_CONFLICT (Some (cr_pwd (ac_local_credentials (ia_config a)))) Hid) as [answer Ha].
  exists from, to, raw, answer. split; [done|]. split; [|done]. rewrite H3. unfold on_request. cbv zeta. rewrite H5, H6, bind_Ok.
  cbn [negb]. rewrite (conflicting_request a b m) by (done || apply Hp). rewrite (proj2 (Z.leb_le _ _)) by done. by rewrite H4, Ha, bind_Ok.
Qed.

(** The agent with the lower one gives its role up. *)
Lemma loser_yields a b i id nominating : peers a b -> checking b i id ->
  ac_controlling (ia_config a) = ac_controlling (ia_config b) ->
  ac_tie_breaker (ia_config a) < ac_tie_breaker (ia_config b) ->
  exists from to raw acts a', build_check_action b i id nominating = Ok (Send from to raw) /\
    on_datagram a to from raw = Ok (acts, a') /\ agent_ok a' /\ grows a a' /\
    ia_config a' = set_controlling (ia_config a) (negb (ac_controlling (ia_config a))) /\ ia_transactions a' = ia_transactions a.
Proof.
  intros Hp Hc Hr Ht. destruct (check_arrives a b i id nominating Hp Hc) as (from & to & raw & m & H1 & H2 & H3 & H4 & H5 & H6 & H7 & H8).
  destruct Hc as [Hid _].
  destruct (on_request_keeps a to from raw m) as (acts & a' & Hon & Hok & Hg & _); [apply Hp|by eexists|by rewrite H4|].
  exists from, to, raw, acts, a'. split; [done|]. split; [by rewrite H3|]. split; [done|]. split; [done|].
  revert Hon. unfold on_request. cbv zeta. rewrite H5, H6, bind_Ok. cbn [negb].
  rewrite (conflicting_request a b m) by (done || apply Hp). rewrite (proj2 (Z.leb_gt _ _)) by done. rewrite <- Hr.
  destruct (switch_role_flips a) as [Hs1 Hs2]. set (s := switch_role a (negb (ac_controlling (ia_config a)))) in *.
  destruct (pair_for_check s to from m) as [[j c]|] eqn:Hpc; [|by intros [= _ <-]].
  intros H. apply bind_Ok_inv in H as (answer & _ & H). apply bind_Ok_inv in H as ([acts' d] & Hd & H).
  apply bind_Ok_inv in H as (e & He & [= _ <-]). apply pair_for_check_session in Hpc as [H9 H10].
  apply honour_session in Hd as [H11 H12]. apply trigger_session in He as [H13 H14]. split; congruence.
Qed.

(** The 487 at the agent whose check it answers. *)
Lemma told_conflict a b i id answer from to : peers a b -> checking b i id ->
  binding_error_response id ERROR_ROLE_CONFLICT ROLE_CONFLICT (Some (cr_pwd (ac_local_credentials (ia_config a)))) = Ok answer ->
  exists b' p, on_datagram b from to answer = Ok ([], b') /\
    ia_config b' = set_controlling (ia_config b) (negb (ac_controlling (ia_config b))) /\
    ia_checklist b' !! i = Some p /\ cp_state p = Waiting /\ i ∈ ia_triggered b' /\ ia_nomination_sent b' = false.
Proof.
  intros Hp (Hid & Htx & p & Hpi & _) Ha.
  destruct (error_response_view id ERROR_ROLE_CONFLICT ROLE_CONFLICT (cr_pwd (ac_local_credentials (ia_config a)))) as
    (raw & m & Hraw & Hparse & Hv & Hty & Htid & Hcode); [done|done|by unfold bytes_ok, ROLE_CONFLICT; forall_list|done|].
  rewrite Hraw in Ha. injection Ha as <-. unfold on_datagram. rewrite Hparse. unfold is_binding_request. rewrite Hty. cbn.
  unfold on_error_response. rewrite Htid, Htx, (pe_ba _ _ Hp), Hv, bind_Ok. cbn [negb]. cbv zeta.
  rewrite bool_decide_eq_true_2 by done.
  destruct (ok_forget_check b i id (pe_ok_b _ _ Hp)) as [Hb1 _]. set (b1 := set_checks _ _ _) in *.
  destruct (switch_role_ok b1 (negb (ac_controlling (ia_config b1))) Hb1) as [Hc1 Hc2].
  destruct (update_pair_Ok _ i (set_pair_state Waiting) Hc1 (benign_state _)) as (q & e & _ & Hu & _ & _ & _ & _ & Hei).
  { eapply Nat.lt_le_trans; [by eapply lookup_lt_Some|apply (grown_length (ia_checklist b1)), gr_pairs; done]. }
  rewrite Hu, bind_Ok. destruct (update_pair_session _ _ _ _ Hu) as [Hu1 Hu2]. destruct (switch_role_flips b1) as [Hf _].
  eexists _, _. split; [reflexivity|]. split; [|split; [|split; [|split; [|reflexivity]]]].
  - unfold push_triggered. destruct (bool_decide _); cbn; by rewrite Hu1, Hf.
  - unfold push_triggered. destruct (bool_decide _); exact Hei.
  - done.
  - unfold push_triggered. case_bool_decide; [done|]. cbn. apply elem_of_app. right. by left.
Qed.

(** A role conflict is resolved by one exchange.  When two agents of a session
    claim the same role and one's check reaches the other, the one with the higher
    tie-breaker keeps its role: the receiver either answers 487 without touching its
    own state, and the sender on that answer takes the other role, puts the pair back
    to waiting and queues it for an immediate retry; or the receiver itself takes the
    other role.  Either way exactly one of them is left controlling. *)
Lemma ice_role_conflict_resolved a b i id nominating : peers a b -> checking b i id ->
  ac_controlling (ia_config a) = ac_controlling (ia_config b) ->
  exists from to raw acts a', build_check_action b i id nominating = Ok (Send from to raw) /\
    on_datagram a to from raw = Ok (acts, a') /\
    if ac_tie_breaker (ia_config b) <=? ac_tie_breaker (ia_config a) then
      a' = a /\ exists answer b' p, acts = [Send to from answer] /\ on_datagram b from to answer = Ok ([], b') /\
        ac_controlling (ia_config b') = negb (ac_controlling (ia_config a)) /\
        ia_checklist b' !! i = Some p /\ cp_state p = Waiting /\ i ∈ ia_triggered b' /\ ia_nomination_sent b' = false
    else ac_controlling (ia_config a') = negb (ac_controlling (ia_config b)).
Proof.
  intros Hp Hc Hr. destruct (Z.leb_spec (ac_tie_breaker (ia_config b)) (ac_tie_breaker (ia_config a))) as [Ht|Ht].
  - destruct (winner_answers a b i id nominating Hp Hc Hr Ht) as (from & to & raw & answer & H1 & H2 & H3).
    exists from, to, raw, [Send to from answer], a. split_and!; [done..|].
    destruct (told_conflict a b i id answer from to Hp Hc H3) as (b' & p & H4 & H5 & H6).
    exists answer, b', p. split; [done|]. split; [done|]. split; [|done]. rewrite H5, Hr. done.
  - destruct (loser_yields a b i id nominating Hp Hc Hr Ht) as (from & to & raw & acts & a' & H1 & H2 & _ & _ & H3 & _).
    exists from, to, raw, acts, a'. split_and!; [done..|]. rewrite H3, <- Hr. done.
Qed.

(** Two checks that cross undo the resolution.  When agents [a] and [b] claim
    the same role, [b] has the lower tie-breaker and each has a check of its own
    under way, [b] takes the other role on [a]'s check and, when the 487 to its own
    earlier check arrives, takes the first role back, since it flips the role it
    holds by then and not the role the check claimed (RFC 8445, 7.2.5.1): both agents
    claim the same role again. *)
Lemma ice_crossing_checks_flip_back a b i id j jd : peers a b -> checking b i id -> checking a j jd ->
  ac_controlling (ia_config a) = ac_controlling (ia_config b) ->
  ac_tie_breaker (ia_config b) < ac_tie_breaker (ia_config a) ->
  exists from to raw from' to' raw' answer acts b1 b2,
    build_check_action b i id false = Ok (Send from to raw) /\
    build_check_action a j jd false = Ok (Send from' to' raw') /\
    on_datagram b to' from' raw' = Ok (acts, b1) /\
    ac_controlling (ia_config b1) = negb (ac_controlling (ia_config a)) /\
    on_datagram a to from raw = Ok ([Send to from answer], a) /\
    on_datagram b1 from to answer = Ok ([], b2) /\
    ac_controlling (ia_config b2) = ac_controlling (ia_config a).
Proof.
  intros Hp Hb Ha Hr Ht.
  destruct (winner_answers a b i id false Hp Hb Hr ltac:(lia)) as (from & to & raw & answer & H1 & H2 & H3).
  destruct (loser_yields b a j jd false (peers_sym _ _ Hp) Ha (eq_sym Hr) Ht) as (from' & to' & raw' & acts & b1 & H4 & H5 & H6 & H7 & H8 & H9).
  assert (peers a b1) as Hp1. { destruct Hp. constructor; rewrite ?H8; done. }
  assert (checking b1 i id) as Hb1.
  { destruct Hb as (Hid & Htx & p & Hpi & Hf). split; [done|]. rewrite H9. split; [done|].
    destruct (gr_pairs _ _ H7 i p Hpi) as (p' & Hp' & Hl & _). exists p'. by rewrite Hl. }
  destruct (told_conflict a b1 i id answer from to Hp1 Hb1 H3) as (b2 & p & H10 & H11 & _).
  exists from, to, raw, from', to', raw', answer, acts, b1, b2. split_and!; try done.
  - rewrite H8, Hr. done.
  - rewrite H11, H8, Hr. cbn. apply negb_involutive.
Qed.

(** Two agents, both controlling, with one check each under way. *)
Definition host_at (ip : Z) : Candidate := mkCandidate [49] 1 Udp 2130706431 (mkSocketAddr (V4 ip) 9000) Host None [].

Definition conflict_agent (ours theirs : Credentials) (local remote tie : Z) : IceAgent :=
  let config := with_candidates (AgentConfig_new ours theirs true tie) [host_at local] [host_at remote] in
  match poll (IceAgent_new config 0) 0 [] (Some (replicate 12 (tie mod 256))) None with Ok (_, a) => a | _ => IceAgent_new config 0 end.

Definition agent_a : IceAgent := conflict_agent (mkCredentials [65] [66]) (mkCredentials [67] [68]) 0x0A000001 0x0A000002 5.
Definition agent_b : IceAgent := conflict_agent (mkCredentials [67] [68]) (mkCredentials [65] [66]) 0x0A000002 0x0A000001 3.

Lemma conflict_agent_ok ours theirs local remote tie : agent_ok (conflict_agent ours theirs local remote tie).
Proof.
  unfold conflict_agent. cbv zeta. set (config := with_candidates _ _ _).
  destruct (poll_quiet (IceAgent_new config 0) 0 [] (Some (replicate 12 (tie mod 256))) None (agent_new_ok _ _)) as (acts & b & -> & Hok & _);
    [by intros ? [= <-]|done|done].
Qed.

Lemma conflict_peers : peers agent_a agent_b /\ checking agent_b 0 (replicate 12 3) /\ checking agent_a 0 (replicate 12 5).
Proof.
  assert (forall x, 0 <= x < 128 -> x <> 58 -> ufrag_ok [x]) as Hu.
  { intros x Hx Hn. split_and!; [by apply valid_ascii; forall_list|unfold bytes_ok, is_byte; forall_list; lia|set_solver|done]. }
  split; [|split].
  - constructor; try (vm_compute; reflexivity); try apply conflict_agent_ok; try (vm_compute; split; congruence); by apply Hu.
  - split; [done|]. split; [vm_compute; reflexivity|]. eexists. split; [vm_compute; reflexivity|]. vm_compute. split; congruence.
  - split; [done|]. split; [vm_compute; reflexivity|]. eexists. split; [vm_compute; reflexivity|]. vm_compute. split; congruence.
Qed.

Lemma ice_role_conflict_resolved_witness :
  exists from to raw acts a', build_check_action agent_b 0 (replicate 12 3) false = Ok (Send from to raw) /\
    on_datagram agent_a to from raw = Ok (acts, a') /\ a' = agent_a.
Proof.
  destruct conflict_peers as (Hp & Hb & _).
  destruct (ice_role_conflict_resolved agent_a agent_b 0 (replicate 12 3) false Hp Hb eq_refl) as (from & to & raw & acts & a' & H1 & H2 & H3).
  exists from, to, raw, acts, a'. split; [exact H1|]. split; [exact H2|].
  change (ac_tie_breaker (ia_config agent_b) <=? ac_tie_breaker (ia_config agent_a)) with true in H3. exact (proj1 H3).
Defined.

Lemma ice_crossing_checks_flip_back_witness :
  exists from to answer acts b1 b2 from' to' raw',
    on_datagram agent_b to' from' raw' = Ok (acts, b1) /\ ac_controlling (ia_config b1) = false /\
    on_datagram b1 from to answer = Ok ([], b2) /\ ac_controlling (ia_config b2) = true.
Proof.
  destruct conflict_peers as (Hp & Hb & Ha).
  destruct (ice_crossing_checks_flip_back agent_a agent_b 0 (replicate 12 3) 0 (replicate 12 5) Hp Hb Ha eq_refl) as
    (from & to & raw & from' & to' & raw' & answer & acts & b1 & b2 & _ & _ & H1 & H2 & _ & H3 & H4); [reflexivity|].
  exists from, to, answer, acts, b1, b2, from', to', raw'. split; [exact H1|]. split; [exact H2|]. split; [exact H3|exact H4].
Defined.
