(* ===== verification/TurnAuth.v ===== *)
(** * TURN credentials and peer policy: crates/siphon-rtp-turn/src/credentials.rs
    and [PeerIpPolicy] of crates/siphon-rtp-turn/src/lib.rs

    The stateless nonce, the coturn REST long-term credential check, and the
    denylist that keeps the relay away from loopback, private, link-local and
    multicast peers.  The predicates of [std::net] on addresses are written out
    as address ranges. *)

From S2P Require Import Prelude Utf8 Bencode Crypto Base64 Stun Turn.
From stdpp Require Import base list numbers option.
From Stdlib Require Import Lia ZArith.

Open Scope Z_scope.

(** ** Nonces *)

Inductive NonceStatus : Type := NonceValid | NonceStale | NonceInvalid.

Record NonceFactory : Type := mkNonceFactory { nf_secret : bytes; nf_lifetime : Z }.

(** [IpAddr::octets] *)
Definition octets (ip : IpAddr) : bytes := match ip with V4 ip => be_enc 4 ip | V6 octets => octets end.

Definition stamp (nf : NonceFactory) (payload : bytes) (client : SocketAddr) : bytes :=
  hmac_sha1 (nf_secret nf) (payload ++ octets (sa_ip client)).

Definition issue (nf : NonceFactory) (client : SocketAddr) (now_tick : Z) : res StunError bytes :=
  let payload := be_enc 8 now_tick in
  let mac := stamp nf payload client in
  mac ← slice mac 0 8;
  base64_encode (payload ++ mac).

Definition check (nf : NonceFactory) (nonce_value : bytes) (client : SocketAddr) (now_tick : Z)
  : res StunError NonceStatus :=
  match from_utf8 nonce_value with
  | None => mret NonceInvalid
  | Some text =>
      match base64_decode text with
      | None => mret NonceInvalid
      | Some raw =>
          if negb (len raw =? 16) then mret NonceInvalid else
          payload ← slice raw 0 8;
          let expected := stamp nf payload client in
          mac ← slice raw 8 16;
          expected ← slice expected 0 8;
          if negb (constant_time_eq mac expected) then mret NonceInvalid else
          let issued := be_dec payload in
          if nf_lifetime nf <? saturating_sub now_tick issued then mret NonceStale else mret NonceValid
      end
  end.

(** ** Long-term credentials *)

Inductive AuthResult : Type :=
| AuthOk (username key : bytes)
| Unauthorized
| StaleNonce.

Record CredentialVerifier : Type := mkVerifier { cv_secret : bytes; cv_realm : bytes }.

(** [text.split(':').next()]: what precedes the first colon. *)
Fixpoint before_colon (text : bytes) : bytes :=
  match text with [] => [] | b :: text => if b =? 58 then [] else b :: before_colon text end.

(** [str::parse::<u64>]: an optional plus sign, then digits, in range. *)
Definition u64_from_str (text : bytes) : option Z :=
  let digits := match text with 43 :: digits => digits | _ => text end in
  match digits with
  | [] => None
  | _ => if forallb is_digit digits then parse_u64 digits else None
  end.

(** [password = base64(HMAC-SHA1(secret, username))] and the key made of it. *)
Definition credential_key (cv : CredentialVerifier) (username : bytes) : res StunError bytes :=
  password ← base64_encode (hmac_sha1 (cv_secret cv) username);
  mret (long_term_key username (cv_realm cv) password).

Definition authenticate (cv : CredentialVerifier) (message : StunMessage) (raw : bytes) (unix_now : Z)
  (nf : NonceFactory) (now_tick : Z) (client : SocketAddr) : res StunError AuthResult :=
  match Turn.username message, Turn.realm message, Turn.nonce message with
  | Some username, Some realm, Some nonce_value =>
      if bool_decide (attribute message ATTR_MESSAGE_INTEGRITY = None) then mret Unauthorized else
      if negb (bool_decide (realm = cv_realm cv)) then mret Unauthorized else
      status ← check nf nonce_value client now_tick;
      match status with
      | NonceInvalid => mret Unauthorized
      | NonceStale => mret StaleNonce
      | NonceValid =>
          match u64_from_str (before_colon username) with
          | None => mret Unauthorized
          | Some expiry =>
              if expiry <? unix_now then mret Unauthorized else
              key ← credential_key cv username;
              verified ← verify_message_integrity raw key;
              if (verified : bool) then mret (AuthOk username key) else mret Unauthorized
          end
      end
  | _, _, _ => mret Unauthorized
  end.

(** ** Peer policy *)

Record PeerIpPolicy : Type := mkPolicy {
  deny_loopback : bool;
  deny_private : bool;
  deny_link_local : bool;
  deny_multicast : bool;
  denied : list IpAddr
}.

Definition PeerIpPolicy_default : PeerIpPolicy := mkPolicy true true true true [].
Definition PeerIpPolicy_permissive : PeerIpPolicy := mkPolicy false false false false [].

(** The address [ip] lies in the network [net/prefix] (32-bit values). *)
Definition in_net (ip net prefix : Z) : bool := Z.shiftr ip (32 - prefix) =? Z.shiftr net (32 - prefix).

(** [Ipv4Addr::is_loopback] and its siblings. *)
Definition v4_is_loopback (ip : Z) : bool := in_net ip 0x7F000000 8.
Definition v4_is_private (ip : Z) : bool :=
  in_net ip 0x0A000000 8 || in_net ip 0xAC100000 12 || in_net ip 0xC0A80000 16.
Definition v4_is_link_local (ip : Z) : bool := in_net ip 0xA9FE0000 16.
Definition v4_is_multicast (ip : Z) : bool := in_net ip 0xE0000000 4.
Definition v4_is_broadcast (ip : Z) : bool := ip =? 0xFFFFFFFF.

Definition is_unspecified (ip : IpAddr) : bool :=
  match ip with V4 ip => ip =? 0 | V6 octets => bool_decide (octets = replicate 16 0) end.

Definition v6_is_loopback (o : bytes) : bool := bool_decide (o = replicate 15 0 ++ [1]).
Definition v6_is_multicast (o : bytes) : bool := byte_of o 0 =? 0xFF.

Definition permits (policy : PeerIpPolicy) (peer : IpAddr) : bool :=
  if bool_decide (peer ∈ denied policy) then false else
  if is_unspecified peer then false else
  match peer with
  | V4 ip =>
      if deny_loopback policy && v4_is_loopback ip then false
      else if deny_private policy && v4_is_private ip then false
      else if deny_link_local policy && v4_is_link_local ip then false
      else if deny_multicast policy && (v4_is_multicast ip || v4_is_broadcast ip) then false
      else true
  | V6 o =>
      if deny_loopback policy && v6_is_loopback o then false
      else if deny_private policy && (Z.land (byte_of o 0) 0xfe =? 0xfc) then false
      else if deny_link_local policy && (Z.land (be_dec (sub o 0 2)) 0xffc0 =? 0xfe80) then false
      else if deny_multicast policy && v6_is_multicast o then false
      else true
  end.

(** ** Lemmas *)

Lemma from_utf8_same v t : from_utf8 v = Some t -> t = v.
Proof. unfold from_utf8. destruct (utf8_run 0 v); congruence. Qed.

Lemma sym_ascii s : 0 <= s < 64 -> 0 <= sym s < 0x80.
Proof.
  intros Hs. pose proof (below_forall (fun s => (0 <=? sym s) && (sym s <? 0x80)) 64 s
    ltac:(vm_compute; reflexivity) Hs) as H. cbv beta in H. lia.
Qed.

Lemma symbols_ascii n g : Forall (fun b => 0 <= b < 0x80) (symbols n g).
Proof.
  pose proof (fun i => sym_ascii _ (field_bound g i)) as H. unfold symbols.
  repeat constructor; try apply H; destruct (_ <=? n); apply H || lia.
Qed.

(** The encoder's text is ASCII, so the nonce check reads it as UTF-8. *)
Lemma base64_encode_ascii input text : bytes_ok input -> base64_encode input = Ok text ->
  Forall (fun b => 0 <= b < 0x80) text.
Proof.
  revert text. induction input as [|a|a b|a b c l IH] using list_ind3; intros text Hb Ht.
  - injection Ht as <-. constructor.
  - apply bytes_ok_cons in Hb as [Ha _]. cbn [base64_encode] in Ht.
    rewrite (base64_chunk_symbols a 0 0 [a]) in Ht by done. injection Ht as <-. apply symbols_ascii.
  - apply bytes_ok_cons in Hb as [Ha Hb]. apply bytes_ok_cons in Hb as [Hb _]. cbn [base64_encode] in Ht.
    rewrite (base64_chunk_symbols a b 0 [a; b]) in Ht by done. injection Ht as <-. apply symbols_ascii.
  - apply bytes_ok_cons in Hb as [Ha Hb]. apply bytes_ok_cons in Hb as [Hbb Hb].
    apply bytes_ok_cons in Hb as [Hc Hb]. cbn [base64_encode] in Ht.
    rewrite (base64_chunk_symbols a b c [a; b; c]), bind_Ok in Ht by done.
    bind_inv Ht rest Hrest. injection Ht as <-.
    change (Forall (fun b => 0 <= b < 0x80) (symbols 3 (a * 65536 + b * 256 + c) ++ rest)).
    apply Forall_app. split; [apply symbols_ascii|by apply IH].
Qed.

Lemma len_stamp nf p c : len (stamp nf p c) = 20.
Proof. apply len_hmac_sha1. Qed.

(** The raw nonce for a tick and a client. *)
Definition raw_nonce (nf : NonceFactory) (client : SocketAddr) (tick : Z) : bytes :=
  be_enc 8 tick ++ sub (stamp nf (be_enc 8 tick) client) 0 8.

Lemma raw_nonce_bytes nf c t : bytes_ok (raw_nonce nf c t).
Proof.
  unfold raw_nonce. apply bytes_ok_app. split; [apply be_enc_bytes|]. apply bytes_ok_sub, hmac_sha1_bytes.
Qed.

Lemma len_raw_nonce nf c t : len (raw_nonce nf c t) = 16.
Proof. unfold raw_nonce. rewrite len_app, len_be_enc, len_sub by (rewrite ?len_stamp; lia). done. Qed.

(** The check on a decoded nonce, with the panicking slices discharged. *)
Lemma check_decoded nf text raw client now :
  from_utf8 text = Some text -> base64_decode text = Some raw ->
  check nf text client now =
  Ok (if negb (len raw =? 16) then NonceInvalid
      else if negb (bool_decide (sub raw 8 16 = sub (stamp nf (sub raw 0 8) client) 0 8)) then NonceInvalid
      else if nf_lifetime nf <? saturating_sub now (be_dec (sub raw 0 8)) then NonceStale else NonceValid).
Proof.
  intros Hu Hd. unfold check. rewrite Hu, Hd.
  destruct (Z.eqb_spec (len raw) 16) as [Hl|Hl]; cbn [negb]; [|done].
  rewrite (slice_Ok raw 0 8), bind_Ok, (slice_Ok raw 8 16), bind_Ok by lia. cbv zeta.
  rewrite slice_Ok, bind_Ok by (rewrite ?len_stamp; lia).
  rewrite constant_time_eq_spec.
  destruct (bool_decide _); cbn [negb]; [|done]. by destruct (_ <? _).
Qed.

Lemma check_total nf v client now : exists s, check nf v client now = Ok s.
Proof.
  destruct (from_utf8 v) as [t|] eqn:Hu.
  - pose proof (from_utf8_same _ _ Hu) as ->.
    destruct (base64_decode v) as [raw|] eqn:Hd.
    + eexists. by apply check_decoded.
    + exists NonceInvalid. unfold check. by rewrite Hu, Hd.
  - exists NonceInvalid. unfold check. by rewrite Hu.
Qed.

(** An authentic nonce is one that decodes to the stamp of some tick for the
    client's address. *)
Definition authentic (nf : NonceFactory) (client : SocketAddr) (v : bytes) (tick : Z) : Prop :=
  fits 64 tick /\ from_utf8 v = Some v /\ base64_decode v = Some (raw_nonce nf client tick).

Lemma check_authentic nf client v tick now : authentic nf client v tick ->
  check nf v client now = Ok (if nf_lifetime nf <? saturating_sub now tick then NonceStale else NonceValid).
Proof.
  intros (Ht & Hu & Hd). rewrite (check_decoded _ _ _ _ _ Hu Hd), len_raw_nonce, Z.eqb_refl. cbn [negb].
  unfold raw_nonce. rewrite sub_app_begin by (by rewrite len_be_enc).
  rewrite (sub_app_end (be_enc 8 tick)); [|by rewrite len_be_enc|].
  2: { rewrite len_be_enc, len_sub by (rewrite ?len_stamp; lia). done. }
  rewrite bool_decide_eq_true_2 by done. cbn [negb]. rewrite be_dec_enc_fits by exact Ht. done.
Qed.

Lemma base64_decode_chunk_bytes c r : base64_decode_chunk c = Some r -> bytes_ok r.
Proof.
  unfold base64_decode_chunk. destruct (2 <? _); [done|]. destruct (base64_bits 0 0 c) as [n|]; [|done].
  assert (forall x, is_byte (wrap 8 x)) as Hw by (intros x; apply Z.mod_pos_bound; lia).
  cbn [mbind option_bind]. intros [= <-]. cbn [app]. constructor; [apply Hw|].
  destruct (_ <? 2), (_ <? 1); cbn [app]; repeat constructor; apply Hw.
Qed.

Lemma base64_decode_bytes v r : base64_decode v = Some r -> bytes_ok r.
Proof.
  assert (forall n v r, (length v <= n)%nat -> base64_decode_chunks v = Some r -> bytes_ok r) as H.
  { induction n as [|n IH]; intros w s Hl Hs.
    - destruct w; [|cbn in Hl; lia]. injection Hs as <-. constructor.
    - destruct w as [|a [|b [|c [|d w]]]]; cbn [base64_decode_chunks] in Hs; try (injection Hs as <-; constructor).
      destruct (base64_decode_chunk [a; b; c; d]) as [x|] eqn:Hx; [|done]. cbn [mbind option_bind] in Hs.
      destruct (base64_decode_chunks w) as [y|] eqn:Hy; [|done]. cbn [mbind option_bind] in Hs. injection Hs as <-.
      apply bytes_ok_app. split; [by eapply base64_decode_chunk_bytes|]. apply (IH w); [cbn in Hl; lia|done]. }
  unfold base64_decode. destruct v as [|b v]; [intros [= <-]; constructor|].
  destruct (negb _); [done|]. by apply (H (length (b :: v))).
Qed.

Lemma check_not_invalid nf client v now s : check nf v client now = Ok s -> s <> NonceInvalid ->
  exists tick, authentic nf client v tick.
Proof.
  intros Hc Hs. destruct (from_utf8 v) as [t|] eqn:Hu; [|unfold check in Hc; rewrite Hu in Hc; by injection Hc as <-].
  pose proof (from_utf8_same _ _ Hu) as ->.
  destruct (base64_decode v) as [raw|] eqn:Hd; [|unfold check in Hc; rewrite Hu, Hd in Hc; by injection Hc as <-].
  rewrite (check_decoded _ _ _ _ _ Hu Hd) in Hc. injection Hc as Hc.
  destruct (Z.eqb_spec (len raw) 16) as [Hl|]; cbn [negb] in Hc; [|by subst].
  case_bool_decide as Hm; cbn [negb] in Hc; [|by subst].
  pose proof (base64_decode_bytes _ _ Hd) as Hb. exists (be_dec (sub raw 0 8)).
  assert (len (sub raw 0 8) = 8) as Hl8 by (rewrite len_sub; lia).
  assert (be_enc 8 (be_dec (sub raw 0 8)) = sub raw 0 8) as He.
  { rewrite <- (be_enc_dec (sub raw 0 8)) at 2 by (by apply bytes_ok_sub). f_equal. unfold len in Hl8. lia. }
  split; [|split; [done|]].
  - pose proof (be_dec_bound (sub raw 0 8) ltac:(by apply bytes_ok_sub)) as Hx. rewrite Hl8 in Hx. exact Hx.
  - rewrite Hd. f_equal. unfold raw_nonce. rewrite He, <- Hm, <- sub_split by lia.
    rewrite <- Hl. by rewrite sub_full.
Qed.

Lemma credential_key_total cv u : exists k, credential_key cv u = Ok k /\ len k = 16.
Proof.
  unfold credential_key. destruct (base64_decode_encode (hmac_sha1 (cv_secret cv) u)) as (t & Ht & _);
    [apply hmac_sha1_bytes|]. rewrite Ht, bind_Ok. eexists. split; [reflexivity|]. apply len_long_term_key.
Qed.

Lemma authenticate_total cv m raw unix nf now client : bytes_ok raw ->
  exists r, authenticate cv m raw unix nf now client = Ok r.
Proof.
  intros Hb. unfold authenticate.
  destruct (Turn.username m) as [u|], (Turn.realm m) as [r|], (Turn.nonce m) as [v|]; try by eexists.
  destruct (bool_decide _); [by eexists|]. destruct (negb _); [by eexists|].
  destruct (check_total nf v client now) as [[] ->]; rewrite bind_Ok; try by eexists.
  destruct (u64_from_str _) as [e|]; [|by eexists]. destruct (e <? unix); [by eexists|].
  destruct (credential_key_total cv u) as (k & -> & _). rewrite bind_Ok.
  destruct (verify_total raw k Hb) as [[] ->]; rewrite bind_Ok; by eexists.
Qed.

Lemma in_net_range ip c p : 0 <= p <= 32 ->
  in_net ip (c * 2 ^ (32 - p)) p = (c * 2 ^ (32 - p) <=? ip) && (ip <? (c + 1) * 2 ^ (32 - p)).
Proof.
  intros Hp. unfold in_net. pose proof (Z.pow_pos_nonneg 2 (32 - p) ltac:(lia) ltac:(lia)) as Hpos.
  rewrite !Z.shiftr_div_pow2, Z.div_mul by lia. apply eq_true_iff_eq.
  rewrite andb_true_iff, Z.leb_le, Z.ltb_lt, Z.eqb_eq. split.
  - intros <-. pose proof (Z.mul_div_le ip _ Hpos). pose proof (Z.mul_succ_div_gt ip _ Hpos). lia.
  - intros Hr. symmetry. apply (Z.div_unique_pos ip _ c (ip - c * 2 ^ (32 - p))); lia.
Qed.

(** What an accepted request carries. *)
Definition credentials_hold (cv : CredentialVerifier) (m : StunMessage) (raw : bytes) (unix : Z)
  (nf : NonceFactory) (now : Z) (client : SocketAddr) (u k : bytes) : Prop :=
  Turn.username m = Some u /\ Turn.realm m = Some (cv_realm cv) /\
  is_Some (attribute m ATTR_MESSAGE_INTEGRITY) /\
  (exists v tick, Turn.nonce m = Some v /\ authentic nf client v tick /\ now - tick <= nf_lifetime nf) /\
  (exists e, u64_from_str (before_colon u) = Some e /\ unix <= e) /\
  credential_key cv u = Ok k /\ verify_message_integrity raw k = Ok true.

Lemma authenticate_sound cv m raw unix nf now client u k :
  authenticate cv m raw unix nf now client = Ok (AuthOk u k) ->
  credentials_hold cv m raw unix nf now client u k.
Proof.
  unfold authenticate, credentials_hold. intros H.
  destruct (Turn.username m) as [u'|], (Turn.realm m) as [r|], (Turn.nonce m) as [v|]; try done.
  case_bool_decide as Hmi; [done|]. case_bool_decide as Hr; cbn [negb] in H; [|done].
  bind_inv H s Hs. destruct s; try done.
  destruct (u64_from_str _) as [e|] eqn:He; [|done]. destruct (Z.ltb_spec e unix); [done|].
  bind_inv H k' Hk. bind_inv H b Hb. destruct b; [|done]. injection H as <- <-.
  destruct (check_not_invalid nf client v now _ Hs) as [tick Ha]; [done|].
  rewrite (check_authentic _ _ _ _ _ Ha) in Hs. destruct (Z.ltb_spec (nf_lifetime nf) (saturating_sub now tick)); [done|].
  split_and!; try done.
  - by subst.
  - destruct (attribute m ATTR_MESSAGE_INTEGRITY); [by eexists|done].
  - exists v, tick. split; [done|]. split; [done|]. unfold saturating_sub in *. lia.
  - by exists e.
Qed.

Lemma authenticate_complete cv m raw unix nf now client u k : 0 <= nf_lifetime nf ->
  credentials_hold cv m raw unix nf now client u k ->
  authenticate cv m raw unix nf now client = Ok (AuthOk u k).
Proof.
  intros Hn (Hu & Hr & [mi Hmi] & (v & tick & Hv & Ha & Hage) & (e & He & Hle) & Hk & Hver).
  unfold authenticate. rewrite Hu, Hr, Hv, Hmi. cbn [bool_decide]. rewrite bool_decide_eq_false_2 by done.
  rewrite bool_decide_eq_true_2 by done. cbn [negb]. rewrite (check_authentic _ _ _ _ _ Ha).
  rewrite (proj2 (Z.ltb_ge _ _)) by (unfold saturating_sub; lia). rewrite bind_Ok, He.
  rewrite (proj2 (Z.ltb_ge _ _)) by lia. rewrite Hk, bind_Ok, Hver. done.
Qed.

(** ** Theorems *)

(** Nonces are stateless yet exact: a nonce issued at a tick is accepted
    from the same address until its lifetime has passed and answered as stale
    after that; and whatever text is presented, the check never panics and calls
    it valid or stale only if it decodes to some tick together with the server's
    own stamp of that tick and of this client's address. *)
Lemma nonce_exact nf client tick now v :
  fits 64 tick ->
  (exists text, issue nf client tick = Ok text /\
    check nf text client now =
    Ok (if nf_lifetime nf <? saturating_sub now tick then NonceStale else NonceValid)) /\
  (exists s, check nf v client now = Ok s /\ (s <> NonceInvalid -> exists issued, authentic nf client v issued)).
Proof.
  intros Ht. split.
  - destruct (base64_decode_encode (raw_nonce nf client tick) (raw_nonce_bytes _ _ _)) as (text & He & _ & Hd & _).
    exists text. split.
    + unfold issue. rewrite slice_Ok, bind_Ok by (rewrite ?len_stamp; lia). exact He.
    + apply check_authentic. split; [done|]. split; [|done].
      unfold from_utf8. rewrite (valid_ascii text); [done|]. eapply base64_encode_ascii; [|exact He]. apply raw_nonce_bytes.
  - destruct (check_total nf v client now) as [s Hs]. exists s. split; [done|].
    intros Hne. by eapply check_not_invalid.
Qed.

Lemma nonce_exact_witness :
  let nf := mkNonceFactory (replicate 32 7) 3600 in
  let client := mkSocketAddr (V4 0xC0000201) 5000 in
  exists text, issue nf client 10 = Ok text /\ check nf text client 4000 = Ok NonceStale.
Proof.
  intros nf client.
  exact (proj1 (nonce_exact nf client 10 4000 [] ltac:(split; vm_compute; congruence))).
Defined.

(** Long-term authentication accepts exactly the requests that carry the
    server's realm, a fresh authentic nonce for their address, a username whose
    embedded expiry has not passed, and a MESSAGE-INTEGRITY that verifies under
    the key the shared secret derives for that username; it returns that username
    and key, and it never panics. *)
Lemma authenticate_exact cv m raw unix nf now client :
  bytes_ok raw -> 0 <= nf_lifetime nf ->
  (exists r, authenticate cv m raw unix nf now client = Ok r) /\
  (forall u k, authenticate cv m raw unix nf now client = Ok (AuthOk u k) <->
    credentials_hold cv m raw unix nf now client u k).
Proof.
  intros Hb Hn. split; [by apply authenticate_total|]. intros u k.
  split; [apply authenticate_sound|by apply authenticate_complete].
Qed.

Lemma authenticate_exact_witness :
  let cv := mkVerifier [1; 2; 3] [101] in
  let nf := mkNonceFactory (replicate 32 7) 3600 in
  exists r, authenticate cv (mkStunMessage 3 (replicate 12 0) []) [0; 3] 5 nf 10 (mkSocketAddr (V4 1) 2) = Ok r.
Proof.
  intros cv nf. apply (authenticate_exact cv (mkStunMessage 3 (replicate 12 0) []) [0; 3] 5 nf 10 (mkSocketAddr (V4 1) 2)).
  - unfold bytes_ok. forall_list; unfold is_byte; lia.
  - vm_compute. congruence.
Defined.

(** Under the default policy an IPv4 peer is relayed to exactly when it is
    none of 0.0.0.0, 127/8, 10/8, 172.16/12, 192.168/16, 169.254/16, 224/4 and
    255.255.255.255; but the same loopback host written as the IPv4-mapped IPv6
    address ::ffff:127.0.0.1 is permitted. *)
Lemma default_policy_exact ip :
  fits 32 ip ->
  (permits PeerIpPolicy_default (V4 ip) = true <->
    ip <> 0 /\ ip <> 0xFFFFFFFF /\ ~ 0x7F000000 <= ip < 0x80000000 /\ ~ 0x0A000000 <= ip < 0x0B000000 /\
    ~ 0xAC100000 <= ip < 0xAC200000 /\ ~ 0xC0A80000 <= ip < 0xC0A90000 /\ ~ 0xA9FE0000 <= ip < 0xA9FF0000 /\
    ~ 0xE0000000 <= ip < 0xF0000000) /\
  permits PeerIpPolicy_default (V6 (replicate 10 0 ++ [0xFF; 0xFF; 127; 0; 0; 1])) = true.
Proof.
  intros Hip. split; [|vm_compute; reflexivity]. unfold fits in Hip. unfold permits, PeerIpPolicy_default.
  cbn [denied deny_loopback deny_private deny_link_local deny_multicast andb is_unspecified].
  rewrite bool_decide_eq_false_2 by (intros []%not_elem_of_nil).
  unfold v4_is_loopback, v4_is_private, v4_is_link_local, v4_is_multicast, v4_is_broadcast.
  change 0x7F000000 with (0x7F * 2 ^ (32 - 8)) at 1. change 0x0A000000 with (0x0A * 2 ^ (32 - 8)) at 1.
  change 0xAC100000 with (0xAC1 * 2 ^ (32 - 12)) at 1. change 0xC0A80000 with (0xC0A8 * 2 ^ (32 - 16)) at 1.
  change 0xA9FE0000 with (0xA9FE * 2 ^ (32 - 16)) at 1. change 0xE0000000 with (0xE * 2 ^ (32 - 4)) at 1.
  rewrite (in_net_range ip 0x7F 8), (in_net_range ip 0x0A 8), (in_net_range ip 0xAC1 12),
    (in_net_range ip 0xC0A8 16), (in_net_range ip 0xA9FE 16), (in_net_range ip 0xE 4) by lia.
  assert (forall b x : bool, (if b then false else x) = negb b && x) as Hif by (by intros []).
  rewrite !Hif. lia.
Qed.

Lemma default_policy_exact_witness : permits PeerIpPolicy_default (V4 0xC0000201) = true.
Proof.
  apply (proj2 (proj1 (default_policy_exact 0xC0000201 ltac:(split; vm_compute; congruence)))). lia.
Defined.
