(* ===== verification/TurnServer.v ===== *)
(** * The TURN allocation actor: crates/siphon-rtp-turn/src/manager.rs

    The single owner of the allocation table, one definition per handler.  The
    actor's collaborators appear as follows.  A handler receives what the
    environment answers while it runs ([Env]: the logical and the wall clock,
    whether the datapath grants an endpoint, accepts the flow and sends) and
    returns the calls it makes as a list of [Effect]s, in order.  The tables are
    finite maps; the list a map enumerates to stands for the iteration order of
    [IndexMap].  Ticks and byte counts are unbounded integers here: a [u64] of
    seconds or bytes is not exhausted. *)

From Stdlib Require Import String Ascii List.
From S2P Require Import Prelude Utf8 Bencode Crypto Base64 Stun Turn TurnAuth.
From stdpp Require Import base list numbers option countable gmap sets fin_maps.
From Stdlib Require Import Lia ZArith.

Open Scope Z_scope.

(** ** Data *)

Inductive TransportProtocol : Type := ProtoUdp | ProtoTcp | ProtoTls.

Record FiveTuple : Type := mkFiveTuple {
  ft_client : SocketAddr;
  ft_server : SocketAddr;
  ft_transport : TransportProtocol
}.

(** The reply path: a shared UDP socket and the client's address, or the mailbox
    of a connection's writer task. *)
Inductive ClientTransport : Type :=
| TransportUdp (socket : Z) (peer : SocketAddr)
| TransportStream (writer : Z).

Definition is_stream (t : ClientTransport) : bool := match t with TransportStream _ => true | _ => false end.

Record Endpoint : Type := mkEndpoint { ep_id : Z; ep_local_addr : SocketAddr }.

Record ChannelRoute : Type := mkRoute {
  cr_channel : Z;
  cr_client : SocketAddr;
  cr_listener : SocketAddr;
  cr_peer : SocketAddr;
  cr_relay : SocketAddr
}.

#[export] Instance IpAddr_countable : Countable IpAddr.
Proof.
  refine (inj_countable' (fun a => match a with V4 x => inl x | V6 o => inr o end)
            (fun s => match s with inl x => V4 x | inr o => V6 o end) _). by intros [].
Defined.

#[export] Instance SocketAddr_countable : Countable SocketAddr.
Proof.
  refine (inj_countable' (fun a => (sa_ip a, sa_port a)) (fun p => mkSocketAddr p.1 p.2) _). by intros [].
Defined.

#[export] Instance TransportProtocol_eq_dec : EqDecision TransportProtocol.
Proof. solve_decision. Defined.

#[export] Instance TransportProtocol_countable : Countable TransportProtocol.
Proof.
  refine (inj_countable' (fun t => match t with ProtoUdp => 0 | ProtoTcp => 1 | ProtoTls => 2 end)
            (fun z => if z =? 0 then ProtoUdp else if z =? 1 then ProtoTcp else ProtoTls) _). by intros [].
Defined.

#[export] Instance FiveTuple_eq_dec : EqDecision FiveTuple.
Proof. solve_decision. Defined.

#[export] Instance FiveTuple_countable : Countable FiveTuple.
Proof.
  refine (inj_countable' (fun f => (ft_client f, ft_server f, ft_transport f))
            (fun p => mkFiveTuple p.1.1 p.1.2 p.2) _). by intros [].
Defined.

#[export] Instance ChannelRoute_eq_dec : EqDecision ChannelRoute.
Proof. solve_decision. Defined.

#[export] Instance ChannelRoute_countable : Countable ChannelRoute.
Proof.
  refine (inj_countable' (fun r => (cr_channel r, cr_client r, cr_listener r, cr_peer r, cr_relay r))
            (fun p => mkRoute p.1.1.1.1 p.1.1.1.2 p.1.1.2 p.1.2 p.2) _). by intros [].
Defined.

Record ChannelBinding : Type := mkBinding { cb_peer : SocketAddr; cb_expires_at : Z }.

Record Allocation : Type := mkAllocation {
  al_transport : ClientTransport;
  al_relay : Endpoint;
  al_username : bytes;
  al_expires_at : Z;
  al_permissions : gmap IpAddr Z;
  al_channels : gmap Z ChannelBinding;
  al_peer_to_channel : gmap SocketAddr Z;
  al_last_allocate : option (bytes * bytes);
  al_bytes_relayed : Z
}.

Record TurnConfig : Type := mkTurnConfig {
  tc_realm : bytes;
  tc_static_auth_secret : bytes;
  tc_software : option bytes;
  tc_relay_address : option IpAddr;
  tc_default_lifetime : Z;
  tc_max_lifetime : Z;
  tc_permission_lifetime : Z;
  tc_channel_lifetime : Z;
  tc_max_allocations_per_user : Z;
  tc_max_bytes_per_allocation : option Z;
  tc_denied_peers : PeerIpPolicy;
  tc_include_fingerprint : bool
}.

Record AllocationManager : Type := mkManager {
  am_allocations : gmap FiveTuple Allocation;
  am_relay_index : gmap Z FiveTuple;
  am_quota : gmap bytes Z;
  am_indication_counter : Z
}.

Definition AllocationManager_new : AllocationManager := mkManager ∅ ∅ ∅ 0.

(** What the actor receives. *)
Inductive Message : Type :=
| Client (five_tuple : FiveTuple) (transport : ClientTransport) (datagram : bytes)
| RelayInbound (endpoint : Z) (peer : SocketAddr) (data : bytes)
| Tick
| Count
| Shutdown.

Record Env : Type := mkEnv {
  now_ticks : Z;
  now_unix : Z;
  alloc_endpoint : option Endpoint;
  install_flow_ok : bool;
  send_ok : bool
}.

(** What the actor does to the outside, in order. *)
Inductive Effect : Type :=
| SendClient (transport : ClientTransport) (message : bytes)
| AllocEndpoint (id : Z)
| RemoveEndpoint (id : Z)
| InstallRedirect (id : Z)
| SendPeer (relay_id : Z) (peer : SocketAddr) (data : bytes)
| InstallChannel (route : ChannelRoute)
| RemoveChannel (route : ChannelRoute)
| ReplyCount (n : Z).

(** ** Field updates *)

Definition set_expires_at (a : Allocation) (t : Z) : Allocation :=
  mkAllocation (al_transport a) (al_relay a) (al_username a) t (al_permissions a) (al_channels a)
    (al_peer_to_channel a) (al_last_allocate a) (al_bytes_relayed a).

Definition set_permissions (a : Allocation) (p : gmap IpAddr Z) : Allocation :=
  mkAllocation (al_transport a) (al_relay a) (al_username a) (al_expires_at a) p (al_channels a)
    (al_peer_to_channel a) (al_last_allocate a) (al_bytes_relayed a).

Definition set_channels (a : Allocation) (c : gmap Z ChannelBinding) (p : gmap SocketAddr Z) : Allocation :=
  mkAllocation (al_transport a) (al_relay a) (al_username a) (al_expires_at a) (al_permissions a) c
    p (al_last_allocate a) (al_bytes_relayed a).

Definition add_bytes_relayed (n : Z) (a : Allocation) : Allocation :=
  mkAllocation (al_transport a) (al_relay a) (al_username a) (al_expires_at a) (al_permissions a) (al_channels a)
    (al_peer_to_channel a) (al_last_allocate a) (al_bytes_relayed a + n).

Definition with_allocations (st : AllocationManager) (m : gmap FiveTuple Allocation) : AllocationManager :=
  mkManager m (am_relay_index st) (am_quota st) (am_indication_counter st).

Definition with_counter (st : AllocationManager) (n : Z) : AllocationManager :=
  mkManager (am_allocations st) (am_relay_index st) (am_quota st) n.

(** The bytes of a reason phrase. *)
Definition text (s : string) : bytes := (fun c => Z.of_nat (nat_of_ascii c)) <$> list_ascii_of_string s.

(** ** Handlers *)

Section Manager.

Context (config : TurnConfig) (nonce_factory : NonceFactory).

Definition verifier : CredentialVerifier := mkVerifier (tc_static_auth_secret config) (tc_realm config).

(** What a handler yields: the new state and its calls. *)
Abbreviation outcome := (res StunError (AllocationManager * list Effect)).

Definition message_builder (mtype : Z) (txid : bytes) : bytes :=
  let builder := MessageBuilder_new mtype txid in
  match tc_software config with
  | Some software => MessageBuilder_attribute builder ATTR_SOFTWARE software
  | None => builder
  end.

Definition send_error (method : Z) (txid : bytes) (transport : ClientTransport) (code : Z) (reason : bytes)
  (key : option bytes) : res StunError (list Effect) :=
  response ← MessageBuilder_finish
    (MessageBuilder_attribute (message_builder (message_type method CLASS_ERROR) txid)
       ATTR_ERROR_CODE (error_code_value code reason)) key (tc_include_fingerprint config);
  mret [SendClient transport response].

Definition send_challenge (env : Env) (method : Z) (txid : bytes) (client : SocketAddr)
  (transport : ClientTransport) (code : Z) (reason : bytes) : res StunError (list Effect) :=
  nonce ← issue nonce_factory client (now_ticks env);
  let b := message_builder (message_type method CLASS_ERROR) txid in
  let b := MessageBuilder_attribute b ATTR_ERROR_CODE (error_code_value code reason) in
  let b := MessageBuilder_attribute b ATTR_REALM (tc_realm config) in
  let b := MessageBuilder_attribute b ATTR_NONCE nonce in
  response ← MessageBuilder_finish b None (tc_include_fingerprint config);
  mret [SendClient transport response].

(** [require_auth], in continuation-passing style: [k] is the rest of the
    handler, reached only with a username and key. *)
Definition require_auth (st : AllocationManager) (env : Env) (method : Z) (client : SocketAddr)
  (transport : ClientTransport) (message : StunMessage) (raw : bytes) (k : bytes -> bytes -> outcome) : outcome :=
  let txid := sm_transaction_id message in
  result ← authenticate verifier message raw (now_unix env) nonce_factory (now_ticks env) client;
  match result with
  | AuthOk username key => k username key
  | Unauthorized =>
      effects ← send_challenge env method txid client transport ERROR_UNAUTHORIZED (text "Unauthorized");
      mret (st, effects)
  | StaleNonce =>
      effects ← send_challenge env method txid client transport ERROR_STALE_NONCE (text "Stale Nonce");
      mret (st, effects)
  end.

(** A failure reply that leaves the state alone. *)
Definition fail (st : AllocationManager) (done_ : list Effect) (method : Z) (message : StunMessage)
  (transport : ClientTransport) (code : Z) (reason : string) (key : bytes) : outcome :=
  effects ← send_error method (sm_transaction_id message) transport code (text reason) (Some key);
  mret (st, (done_ ++ effects)%list).

Definition granted_lifetime (message : StunMessage) : Z :=
  Z.max (Z.min (default (tc_default_lifetime config) (lifetime message)) (tc_max_lifetime config)) 1.

Definition advertised_relay_address (relay : Endpoint) : SocketAddr :=
  match tc_relay_address config with
  | Some ip => mkSocketAddr ip (sa_port (ep_local_addr relay))
  | None => ep_local_addr relay
  end.

Definition within_budget (st : AllocationManager) (five_tuple : FiveTuple) (additional : Z) : bool :=
  match tc_max_bytes_per_allocation config with
  | None => true
  | Some cap =>
      match am_allocations st !! five_tuple with
      | Some a => al_bytes_relayed a + additional <=? cap
      | None => false
      end
  end.

(** [handle_binding]: unauthenticated, and no state change. *)
Definition handle_binding (st : AllocationManager) (five_tuple : FiveTuple) (transport : ClientTransport)
  (message : StunMessage) : outcome :=
  response ← binding_success_response (sm_transaction_id message) (ft_client five_tuple) None;
  mret (st, [SendClient transport response]).

Definition allocate_response (message : StunMessage) (five_tuple : FiveTuple) (relay : Endpoint) (key : bytes)
  : res StunError bytes :=
  let txid := sm_transaction_id message in
  let b := message_builder (message_type METHOD_ALLOCATE CLASS_SUCCESS) txid in
  let b := MessageBuilder_attribute b ATTR_XOR_RELAYED_ADDRESS
             (xor_address_value (advertised_relay_address relay) txid) in
  let b := MessageBuilder_attribute b ATTR_LIFETIME (lifetime_value (granted_lifetime message)) in
  let b := MessageBuilder_attribute b ATTR_XOR_MAPPED_ADDRESS (xor_address_value (ft_client five_tuple) txid) in
  MessageBuilder_finish b (Some key) (tc_include_fingerprint config).

Definition insert_allocation (st : AllocationManager) (five_tuple : FiveTuple) (a : Allocation) : AllocationManager :=
  mkManager (<[five_tuple := a]> (am_allocations st)) (<[ep_id (al_relay a) := five_tuple]> (am_relay_index st))
    (<[al_username a := default 0 (am_quota st !! al_username a) + 1]> (am_quota st)) (am_indication_counter st).

Definition handle_allocate (st : AllocationManager) (env : Env) (five_tuple : FiveTuple)
  (transport : ClientTransport) (message : StunMessage) (raw : bytes) : outcome :=
  let txid := sm_transaction_id message in
  let method := METHOD_ALLOCATE in
  require_auth st env method (ft_client five_tuple) transport message raw (fun username key =>
  match am_allocations st !! five_tuple with
  | Some existing =>
      match al_last_allocate existing with
      | Some (cached_txid, cached) =>
          if bool_decide (cached_txid = txid) then mret (st, [SendClient transport cached])
          else fail st [] method message transport ERROR_ALLOCATION_MISMATCH "Allocation Mismatch" key
      | None => fail st [] method message transport ERROR_ALLOCATION_MISMATCH "Allocation Mismatch" key
      end
  | None =>
      if negb (bool_decide (requested_transport message = Some TRANSPORT_UDP)) then
        fail st [] method message transport ERROR_UNSUPPORTED_TRANSPORT "Unsupported Transport Protocol" key
      else if has_even_port message || has_reservation_token message then
        fail st [] method message transport ERROR_INSUFFICIENT_CAPACITY "Insufficient Capacity" key
      else if tc_max_allocations_per_user config <=? default 0 (am_quota st !! username) then
        fail st [] method message transport ERROR_ALLOCATION_QUOTA_REACHED "Allocation Quota Reached" key
      else
        match alloc_endpoint env with
        | None => fail st [] method message transport ERROR_INSUFFICIENT_CAPACITY "Insufficient Capacity" key
        | Some relay =>
            if negb (install_flow_ok env) then
              fail st [AllocEndpoint (ep_id relay); RemoveEndpoint (ep_id relay)]
                method message transport ERROR_INSUFFICIENT_CAPACITY "Insufficient Capacity" key
            else
              response ← allocate_response message five_tuple relay key;
              let a := mkAllocation transport relay username (now_ticks env + granted_lifetime message)
                         ∅ ∅ ∅ (Some (txid, response)) 0 in
              mret (insert_allocation st five_tuple a,
                    [AllocEndpoint (ep_id relay); InstallRedirect (ep_id relay); SendClient transport response])
        end
  end).

(** The fast-path route of a bound channel. *)
Definition route_of (five_tuple : FiveTuple) (relay : SocketAddr) (channel : Z) (peer : SocketAddr) : ChannelRoute :=
  mkRoute channel (ft_client five_tuple) (ft_server five_tuple) peer relay.

Definition removed_routes (five_tuple : FiveTuple) (relay : SocketAddr) (bindings : list (Z * ChannelBinding))
  : list Effect :=
  if bool_decide (ft_transport five_tuple = ProtoUdp)
  then (fun kb => RemoveChannel (route_of five_tuple relay kb.1 (cb_peer kb.2))) <$> bindings
  else [].

Definition release_quota (quota : gmap bytes Z) (username : bytes) : gmap bytes Z :=
  match quota !! username with
  | Some count =>
      let count := saturating_sub count 1 in
      if count =? 0 then delete username quota else <[username := count]> quota
  | None => quota
  end.

Definition delete_allocation (st : AllocationManager) (five_tuple : FiveTuple) : AllocationManager * list Effect :=
  match am_allocations st !! five_tuple with
  | None => (st, [])
  | Some a =>
      (mkManager (delete five_tuple (am_allocations st)) (delete (ep_id (al_relay a)) (am_relay_index st))
         (release_quota (am_quota st) (al_username a)) (am_indication_counter st),
       RemoveEndpoint (ep_id (al_relay a)) ::
       removed_routes five_tuple (ep_local_addr (al_relay a)) (map_to_list (al_channels a)))
  end.

(** A bare success response, as Refresh, CreatePermission and ChannelBind send. *)
Definition success_response (method : Z) (message : StunMessage) (attributes : list (Z * bytes)) (key : bytes)
  : res StunError bytes :=
  MessageBuilder_finish
    (foldl (fun b tv => MessageBuilder_attribute b tv.1 tv.2)
       (message_builder (message_type method CLASS_SUCCESS) (sm_transaction_id message)) attributes)
    (Some key) (tc_include_fingerprint config).

Definition handle_refresh (st : AllocationManager) (env : Env) (five_tuple : FiveTuple)
  (transport : ClientTransport) (message : StunMessage) (raw : bytes) : outcome :=
  let method := METHOD_REFRESH in
  require_auth st env method (ft_client five_tuple) transport message raw (fun username key =>
  match am_allocations st !! five_tuple with
  | None => fail st [] method message transport ERROR_ALLOCATION_MISMATCH "Allocation Mismatch" key
  | Some a =>
      let requested := default (tc_default_lifetime config) (lifetime message) in
      let '(st, effects, granted) :=
        if requested =? 0 then (delete_allocation st five_tuple, 0)
        else
          let granted := Z.max (Z.min requested (tc_max_lifetime config)) 1 in
          (with_allocations st
             (<[five_tuple := set_expires_at a (now_ticks env + granted)]> (am_allocations st)), [], granted) in
      response ← success_response method message [(ATTR_LIFETIME, lifetime_value granted)] key;
      mret (st, (effects ++ [SendClient transport response])%list)
  end).

Definition handle_create_permission (st : AllocationManager) (env : Env) (five_tuple : FiveTuple)
  (transport : ClientTransport) (message : StunMessage) (raw : bytes) : outcome :=
  let method := METHOD_CREATE_PERMISSION in
  require_auth st env method (ft_client five_tuple) transport message raw (fun username key =>
  match am_allocations st !! five_tuple with
  | None => fail st [] method message transport ERROR_ALLOCATION_MISMATCH "Allocation Mismatch" key
  | Some a =>
      peers ← xor_peer_addresses message;
      match peers with
      | [] => fail st [] method message transport ERROR_BAD_REQUEST "Bad Request" key
      | _ =>
          if existsb (fun peer => negb (permits (tc_denied_peers config) (sa_ip peer))) peers then
            fail st [] method message transport ERROR_FORBIDDEN "Forbidden" key
          else
            let expiry := now_ticks env + tc_permission_lifetime config in
            let permissions := foldl (fun p peer => <[sa_ip peer := expiry]> p) (al_permissions a) peers in
            response ← success_response method message [] key;
            mret (with_allocations st (<[five_tuple := set_permissions a permissions]> (am_allocations st)),
                  [SendClient transport response])
      end
  end).

(** A channel must not rebind to a different peer, nor a peer to a different
    channel. *)
Definition bind_consistent (a : Allocation) (channel : Z) (peer : SocketAddr) : bool :=
  match al_channels a !! channel with None => true | Some b => bool_decide (cb_peer b = peer) end &&
  match al_peer_to_channel a !! peer with None => true | Some bound => bound =? channel end.

Definition bind_channel (a : Allocation) (now : Z) (channel : Z) (peer : SocketAddr) : Allocation :=
  set_permissions
    (set_channels a (<[channel := mkBinding peer (now + tc_channel_lifetime config)]> (al_channels a))
       (<[peer := channel]> (al_peer_to_channel a)))
    (<[sa_ip peer := now + tc_permission_lifetime config]> (al_permissions a)).

Definition handle_channel_bind (st : AllocationManager) (env : Env) (five_tuple : FiveTuple)
  (transport : ClientTransport) (message : StunMessage) (raw : bytes) : outcome :=
  let method := METHOD_CHANNEL_BIND in
  require_auth st env method (ft_client five_tuple) transport message raw (fun username key =>
  match am_allocations st !! five_tuple with
  | None => fail st [] method message transport ERROR_ALLOCATION_MISMATCH "Allocation Mismatch" key
  | Some a =>
      peer ← xor_peer_address message;
      match channel_number message, peer with
      | Some channel, Some peer =>
          if negb (valid_channel_number channel) || negb (bind_consistent a channel peer) then
            fail st [] method message transport ERROR_BAD_REQUEST "Bad Request" key
          else if negb (permits (tc_denied_peers config) (sa_ip peer)) then
            fail st [] method message transport ERROR_FORBIDDEN "Forbidden" key
          else
            let route := route_of five_tuple (ep_local_addr (al_relay a)) channel peer in
            response ← success_response method message [] key;
            mret (with_allocations st
                    (<[five_tuple := bind_channel a (now_ticks env) channel peer]> (am_allocations st)),
                  ((if bool_decide (ft_transport five_tuple = ProtoUdp) then [InstallChannel route] else [])
                   ++ [SendClient transport response])%list)
      | _, _ => fail st [] method message transport ERROR_BAD_REQUEST "Bad Request" key
      end
  end).

(** [self.allocations.get_mut(ft)] followed by [bytes_relayed += n]. *)
Definition account_bytes (st : AllocationManager) (five_tuple : FiveTuple) (n : Z) : AllocationManager :=
  with_allocations st (alter (add_bytes_relayed n) five_tuple (am_allocations st)).

Definition relay_to_peer (st : AllocationManager) (env : Env) (five_tuple : FiveTuple) (relay_id : Z)
  (peer : SocketAddr) (data : bytes) : AllocationManager * list Effect :=
  if negb (within_budget st five_tuple (len data)) then (st, []) else
  let sent := [SendPeer relay_id peer data] in
  if send_ok env then (account_bytes st five_tuple (len data), sent) else (st, sent).

(** A permission for the address that has not expired. *)
Definition permitted (a : Allocation) (now : Z) (ip : IpAddr) : bool :=
  match al_permissions a !! ip with None => false | Some expiry => negb (expiry <=? now) end.

Definition handle_send_indication (st : AllocationManager) (env : Env) (five_tuple : FiveTuple)
  (message : StunMessage) : outcome :=
  peer ← xor_peer_address message;
  match peer, data message with
  | Some peer, Some data =>
      if negb (permits (tc_denied_peers config) (sa_ip peer)) then mret (st, []) else
      match am_allocations st !! five_tuple with
      | None => mret (st, [])
      | Some a =>
          if negb (permitted a (now_ticks env) (sa_ip peer)) then mret (st, []) else
          mret (relay_to_peer st env five_tuple (ep_id (al_relay a)) peer data)
      end
  | _, _ => mret (st, [])
  end.

Definition handle_channel_data (st : AllocationManager) (env : Env) (five_tuple : FiveTuple)
  (datagram : bytes) : outcome :=
  channel_data ← parse_channel_data datagram;
  match channel_data with
  | None => mret (st, [])
  | Some cd =>
      match am_allocations st !! five_tuple with
      | None => mret (st, [])
      | Some a =>
          match al_channels a !! cd_channel cd with
          | Some binding =>
              if cb_expires_at binding <=? now_ticks env then mret (st, []) else
              if negb (permits (tc_denied_peers config) (sa_ip (cb_peer binding))) then mret (st, []) else
              mret (relay_to_peer st env five_tuple (ep_id (al_relay a)) (cb_peer binding) (cd_data cd))
          | None => mret (st, [])
          end
      end
  end.

Definition next_indication_txid (st : AllocationManager) : bytes * AllocationManager :=
  let counter := wrapping_add 64 (am_indication_counter st) 1 in
  ((replicate 4 0 ++ be_enc 8 counter)%list, with_counter st counter).

Definition data_indication (st : AllocationManager) (peer : SocketAddr) (data : bytes)
  : res StunError (bytes * AllocationManager) :=
  let '(txid, st) := next_indication_txid st in
  message ← MessageBuilder_finish
    (MessageBuilder_attribute
       (MessageBuilder_attribute (MessageBuilder_new (message_type METHOD_DATA CLASS_INDICATION) txid)
          ATTR_XOR_PEER_ADDRESS (xor_address_value peer txid))
       ATTR_DATA data) None false;
  mret (message, st).

(** The channel a peer's data goes back on, when it is bound and alive. *)
Definition live_channel (a : Allocation) (now : Z) (peer : SocketAddr) : option Z :=
  channel ← al_peer_to_channel a !! peer;
  binding ← al_channels a !! channel;
  if cb_expires_at binding <=? now then None else Some channel.

Definition handle_relay_inbound (st : AllocationManager) (env : Env) (endpoint : Z) (peer : SocketAddr)
  (data : bytes) : outcome :=
  match am_relay_index st !! endpoint with
  | None => mret (st, [])
  | Some five_tuple =>
      match am_allocations st !! five_tuple with
      | None => mret (st, [])
      | Some a =>
          if negb (permitted a (now_ticks env) (sa_ip peer)) then mret (st, []) else
          if negb (permits (tc_denied_peers config) (sa_ip peer)) then mret (st, []) else
          if negb (within_budget st five_tuple (len data)) then mret (st, []) else
          '(message, st) ←
            match live_channel a (now_ticks env) peer with
            | Some channel => mret (encode_channel_data channel data (is_stream (al_transport a)), st)
            | None => data_indication st peer data
            end;
          mret (account_bytes st five_tuple (len data), [SendClient (al_transport a) message])
      end
  end.

Definition handle_client (st : AllocationManager) (env : Env) (five_tuple : FiveTuple)
  (transport : ClientTransport) (datagram : bytes) : outcome :=
  match datagram with
  | [] => mret (st, [])
  | first :: _ =>
      if is_channel_data first then handle_channel_data st env five_tuple datagram else
      match parse datagram with
      | Panic => Panic
      | Err _ => mret (st, [])
      | Ok message =>
          let method := method_of (sm_message_type message) in
          let class := class_of (sm_message_type message) in
          if (class =? CLASS_INDICATION) && (method =? METHOD_SEND) then
            handle_send_indication st env five_tuple message
          else if class =? CLASS_REQUEST then
            if method =? METHOD_BINDING then handle_binding st five_tuple transport message
            else if method =? METHOD_ALLOCATE then handle_allocate st env five_tuple transport message datagram
            else if method =? METHOD_REFRESH then handle_refresh st env five_tuple transport message datagram
            else if method =? METHOD_CREATE_PERMISSION then
              handle_create_permission st env five_tuple transport message datagram
            else if method =? METHOD_CHANNEL_BIND then
              handle_channel_bind st env five_tuple transport message datagram
            else mret (st, [])
          else mret (st, [])
      end
  end.

(** ** The reaper *)

(** Withdraw the dead channels one by one. *)
Definition remove_dead (a : Allocation) (dead : list Z) : Allocation :=
  foldl (fun a channel =>
    match al_channels a !! channel with
    | Some b => set_channels a (delete channel (al_channels a)) (delete (cb_peer b) (al_peer_to_channel a))
    | None => a
    end) a dead.

Definition dead_channels (now : Z) (a : Allocation) : gmap Z ChannelBinding :=
  filter (fun kb => cb_expires_at kb.2 <= now) (al_channels a).

Definition reap_allocation (now : Z) (a : Allocation) : Allocation :=
  let a := set_permissions a (filter (fun ie => now < ie.2) (al_permissions a)) in
  remove_dead a (map_to_list (dead_channels now a)).*1.

Definition withdrawn (now : Z) (fa : FiveTuple * Allocation) : list Effect :=
  removed_routes fa.1 (ep_local_addr (al_relay fa.2)) (map_to_list (dead_channels now fa.2)).

Fixpoint delete_all (st : AllocationManager) (expired : list FiveTuple) : AllocationManager * list Effect :=
  match expired with
  | [] => (st, [])
  | five_tuple :: expired =>
      let '(st, effects) := delete_allocation st five_tuple in
      let '(st, rest) := delete_all st expired in
      (st, (effects ++ rest)%list)
  end.

Definition reap (st : AllocationManager) (env : Env) : AllocationManager * list Effect :=
  let now := now_ticks env in
  let table := map_to_list (am_allocations st) in
  let withdrawn_channels := concat (withdrawn now <$> table) in
  let expired := (filter (fun fa => al_expires_at fa.2 <= now) table).*1 in
  let '(st, effects) := delete_all (with_allocations st (reap_allocation now <$> am_allocations st)) expired in
  (st, (withdrawn_channels ++ effects)%list).

(** One turn of [run]; [Shutdown] leaves the loop and touches nothing. *)
Definition handle (st : AllocationManager) (env : Env) (message : Message) : outcome :=
  match message with
  | Client five_tuple transport datagram => handle_client st env five_tuple transport datagram
  | RelayInbound endpoint peer data => handle_relay_inbound st env endpoint peer data
  | Tick => mret (reap st env)
  | Count => mret (st, [ReplyCount (Z.of_nat (size (am_allocations st)))])
  | Shutdown => mret (st, [])
  end.

(** [run]: the mailbox drained in order, up to a [Shutdown]. *)
Fixpoint run (st : AllocationManager) (mailbox : list (Message * Env)) : outcome :=
  match mailbox with
  | [] => mret (st, [])
  | (Shutdown, _) :: _ => mret (st, [])
  | (message, env) :: mailbox =>
      '(st, effects) ← handle st env message;
      '(st, rest) ← run st mailbox;
      mret (st, (effects ++ rest)%list)
  end.

End Manager.

(** ** What the outside holds

    The endpoints the datapath keeps open for the actor and the routes the
    kernel fast path keeps installed, as the actor's calls leave them. *)

Record World : Type := mkWorld { w_endpoints : gset Z; w_routes : gset ChannelRoute }.

Definition world_new : World := mkWorld ∅ ∅.

Definition apply_effect (w : World) (e : Effect) : World :=
  match e with
  | AllocEndpoint id => mkWorld ({[id]} ∪ w_endpoints w) (w_routes w)
  | RemoveEndpoint id => mkWorld (w_endpoints w ∖ {[id]}) (w_routes w)
  | InstallChannel r => mkWorld (w_endpoints w) ({[r]} ∪ w_routes w)
  | RemoveChannel r => mkWorld (w_endpoints w) (w_routes w ∖ {[r]})
  | _ => w
  end.

Definition apply_effects (w : World) (es : list Effect) : World := foldl apply_effect w es.

Lemma apply_effects_app w es es' : apply_effects w (es ++ es') = apply_effects (apply_effects w es) es'.
Proof. apply foldl_app. Qed.

(** ** Counting a user's allocations *)

Definition allocations_of (u : bytes) (m : gmap FiveTuple Allocation) : Z :=
  Z.of_nat (size (filter (fun fa => al_username fa.2 = u) m)).

Definition owned (u : bytes) (a : Allocation) : Z := if bool_decide (al_username a = u) then 1 else 0.

Lemma allocations_of_insert u m ft a : m !! ft = None ->
  allocations_of u (<[ft := a]> m) = allocations_of u m + owned u a.
Proof.
  intros Hn. unfold allocations_of, owned. case_bool_decide as Hu.
  - rewrite map_filter_insert_True, map_size_insert_None by (done || by rewrite map_lookup_filter, Hn). lia.
  - rewrite map_filter_insert_False, delete_id by done. lia.
Qed.

Lemma allocations_of_delete u m ft a : m !! ft = Some a ->
  allocations_of u (delete ft m) = allocations_of u m - owned u a.
Proof.
  intros Hs. rewrite <- (insert_delete_id m ft a Hs) at 2.
  rewrite allocations_of_insert by apply lookup_delete_eq. lia.
Qed.

Lemma allocations_of_update u m ft a a' : m !! ft = Some a -> al_username a' = al_username a ->
  allocations_of u (<[ft := a']> m) = allocations_of u m.
Proof.
  intros Hs Hu. rewrite <- insert_delete_eq, allocations_of_insert, (allocations_of_delete u m ft a Hs)
    by apply lookup_delete_eq. unfold owned. rewrite Hu. lia.
Qed.

Lemma allocations_of_fmap u f m : (forall a, al_username (f a) = al_username a) ->
  allocations_of u (f <$> m) = allocations_of u m.
Proof.
  intros Hf. induction m as [|ft a m Hn IH] using map_ind; [done|].
  rewrite fmap_insert, !allocations_of_insert by (done || by rewrite lookup_fmap, Hn).
  unfold owned. by rewrite Hf, IH.
Qed.

Lemma allocations_of_nonneg u m : 0 <= allocations_of u m.
Proof. unfold allocations_of. lia. Qed.

Lemma allocations_of_pos u m ft a : m !! ft = Some a -> al_username a = u -> 1 <= allocations_of u m.
Proof.
  intros Hs Hu. pose proof (allocations_of_nonneg u (delete ft m)). rewrite (allocations_of_delete u m ft a Hs) in *.
  unfold owned in *. rewrite bool_decide_eq_true_2 in * by done. lia.
Qed.

(** ** Invariants *)

Section Invariant.

Context (config : TurnConfig) (nonce_factory : NonceFactory).

(** Channels and peers are in bijection, channel numbers are in range, and the
    policy permits every peer the allocation may exchange data with. *)
Record alloc_inv (a : Allocation) : Prop := {
  ai_forward : forall channel b, al_channels a !! channel = Some b ->
    al_peer_to_channel a !! cb_peer b = Some channel;
  ai_backward : forall peer channel, al_peer_to_channel a !! peer = Some channel ->
    exists b, al_channels a !! channel = Some b /\ cb_peer b = peer;
  ai_channel : forall channel b, al_channels a !! channel = Some b ->
    valid_channel_number channel = true /\ permits (tc_denied_peers config) (sa_ip (cb_peer b)) = true;
  ai_permission : forall ip expiry, al_permissions a !! ip = Some expiry ->
    permits (tc_denied_peers config) ip = true;
  ai_budget : forall cap, tc_max_bytes_per_allocation config = Some cap -> al_bytes_relayed a <= cap
}.

Definition has_route (ft : FiveTuple) (a : Allocation) (r : ChannelRoute) : Prop :=
  ft_transport ft = ProtoUdp /\
  exists channel b, al_channels a !! channel = Some b /\
    r = route_of ft (ep_local_addr (al_relay a)) channel (cb_peer b).

Record manager_inv (st : AllocationManager) (w : World) : Prop := {
  mi_alloc : forall ft a, am_allocations st !! ft = Some a -> alloc_inv a;
  mi_relay : forall id ft, am_relay_index st !! id = Some ft <->
    exists a, am_allocations st !! ft = Some a /\ ep_id (al_relay a) = id;
  mi_quota : forall u, default 0 (am_quota st !! u) = allocations_of u (am_allocations st);
  mi_quota_live : forall u n, am_quota st !! u = Some n -> 0 < n;
  mi_quota_max : forall u, allocations_of u (am_allocations st) <= Z.max 0 (tc_max_allocations_per_user config);
  mi_endpoints : forall id, id ∈ w_endpoints w <-> is_Some (am_relay_index st !! id);
  mi_routes : forall r, r ∈ w_routes w <-> exists ft a, am_allocations st !! ft = Some a /\ has_route ft a r
}.

Lemma has_route_owner ft a ft' a' r : has_route ft a r -> has_route ft' a' r -> ft = ft'.
Proof.
  intros (Hu & ch & b & _ & ->) (Hu' & ch' & b' & _ & [= _ Hc Hs _ _]).
  destruct ft, ft'; cbn in *. by subst.
Qed.

Lemma has_route_same_channels ft a a' r : al_channels a' = al_channels a -> al_relay a' = al_relay a ->
  has_route ft a' r <-> has_route ft a r.
Proof. intros Hc Hr. unfold has_route. by rewrite Hc, Hr. Qed.

Lemma manager_inv_new : manager_inv AllocationManager_new world_new.
Proof.
  split; cbn; intros.
  - by rewrite lookup_empty in *.
  - rewrite lookup_empty. split; [done|]. intros (a & Ha & _). by rewrite lookup_empty in Ha.
  - by rewrite lookup_empty.
  - by rewrite lookup_empty in *.
  - unfold allocations_of. rewrite map_filter_empty, map_size_empty. lia.
  - rewrite lookup_empty, elem_of_empty. split; [done|by intros []].
  - rewrite elem_of_empty. split; [done|]. intros (ft & a & Ha & _). by rewrite lookup_empty in Ha.
Qed.

(** Replacing one allocation by another on the same relay for the same user. *)
Lemma inv_update st w ft a a' w' :
  manager_inv st w -> am_allocations st !! ft = Some a ->
  al_relay a' = al_relay a -> al_username a' = al_username a -> alloc_inv a' ->
  w_endpoints w' = w_endpoints w ->
  (forall r, r ∈ w_routes w' <-> has_route ft a' r \/ (~ has_route ft a r /\ r ∈ w_routes w)) ->
  manager_inv (with_allocations st (<[ft := a']> (am_allocations st))) w'.
Proof.
  intros H Ha Hr Hu Hinv He Hroutes. split; cbn.
  - intros ft' x Hx. apply lookup_insert_Some in Hx as [[_ <-]|[_ Hx]]; [done|]. by apply (mi_alloc _ _ H ft').
  - intros id ft'. rewrite (mi_relay _ _ H). destruct (decide (ft = ft')) as [<-|Hne].
    + rewrite lookup_insert_eq. split; intros (x & Hx & Hid).
      * exists a'. split; [done|]. rewrite Ha in Hx. injection Hx as <-. by rewrite Hr.
      * injection Hx as <-. exists a. by rewrite <- Hr.
    + by rewrite lookup_insert_ne.
  - intros u. rewrite (allocations_of_update u _ _ _ _ Ha Hu). apply (mi_quota _ _ H).
  - apply (mi_quota_live _ _ H).
  - intros u. rewrite (allocations_of_update u _ _ _ _ Ha Hu). apply (mi_quota_max _ _ H).
  - intros id. rewrite He. apply (mi_endpoints _ _ H).
  - intros r. rewrite Hroutes, (mi_routes _ _ H). split.
    + intros [Hr'|(Hn & ft' & x & Hx & Hr')].
      * exists ft, a'. by rewrite lookup_insert_eq.
      * exists ft', x. split; [|done]. rewrite lookup_insert_ne; [done|]. intros <-. congruence.
    + intros (ft' & x & Hx & Hr'). apply lookup_insert_Some in Hx as [[<- <-]|[Hne Hx]]; [by left|]. right.
      split; [|by exists ft', x]. intros Hr''. by apply Hne, (has_route_owner _ _ _ _ _ Hr'' Hr').
Qed.

(** Replacing one allocation without touching its channels. *)
Lemma inv_update_same st w ft a a' :
  manager_inv st w -> am_allocations st !! ft = Some a ->
  al_relay a' = al_relay a -> al_username a' = al_username a -> al_channels a' = al_channels a -> alloc_inv a' ->
  manager_inv (with_allocations st (<[ft := a']> (am_allocations st))) w.
Proof.
  intros H Ha Hr Hu Hc Hinv. apply (inv_update st w ft a a' w); try done.
  intros r. rewrite (has_route_same_channels ft a a' r) by done. split.
  - intros Hin. destruct (mi_routes _ _ H r) as [Hx _]. destruct (Hx Hin) as (ft' & x & Hx' & Hrt).
    destruct (decide (ft' = ft)) as [->|Hne]; [left; congruence|].
    right. split; [|done]. intros Hrt'. by apply Hne, (has_route_owner _ _ _ _ _ Hrt Hrt').
  - intros [Hrt|[_ Hin]]; [|done]. apply (mi_routes _ _ H). by exists ft, a.
Qed.

Lemma inv_insert st w ft a :
  manager_inv st w -> am_allocations st !! ft = None -> ep_id (al_relay a) ∉ w_endpoints w ->
  al_channels a = ∅ -> alloc_inv a ->
  default 0 (am_quota st !! al_username a) < tc_max_allocations_per_user config ->
  manager_inv (insert_allocation st ft a) (mkWorld ({[ep_id (al_relay a)]} ∪ w_endpoints w) (w_routes w)).
Proof.
  intros H Hn Hfresh Hc Hinv Hq.
  assert (am_relay_index st !! ep_id (al_relay a) = None) as Hni.
  { apply eq_None_not_Some. by rewrite <- (mi_endpoints _ _ H). }
  split; cbn.
  - intros ft' x Hx. apply lookup_insert_Some in Hx as [[_ <-]|[_ Hx]]; [done|]. by apply (mi_alloc _ _ H ft').
  - intros id ft'. rewrite lookup_insert_Some, (mi_relay _ _ H). split.
    + intros [[<- <-]|[Hne (x & Hx & Hid)]].
      * exists a. by rewrite lookup_insert_eq.
      * exists x. split; [|done]. rewrite lookup_insert_ne; [done|]. congruence.
    + intros (x & Hx & Hid). apply lookup_insert_Some in Hx as [[<- <-]|[Hne Hx]]; [by left|]. right.
      split; [|by exists x]. intros Heq. assert (am_relay_index st !! id = Some ft') as Hs
        by (apply (mi_relay _ _ H); by exists x). congruence.
  - intros u. rewrite allocations_of_insert by done. unfold owned. case_bool_decide as Hu.
    + subst u. rewrite lookup_insert_eq. cbn [default]. by rewrite (mi_quota _ _ H).
    + rewrite lookup_insert_ne, (mi_quota _ _ H) by done. lia.
  - intros u n Hx. apply lookup_insert_Some in Hx as [[_ <-]|[_ Hx]].
    + rewrite (mi_quota _ _ H). pose proof (allocations_of_nonneg (al_username a) (am_allocations st)). lia.
    + by apply (mi_quota_live _ _ H u).
  - intros u. rewrite allocations_of_insert by done. unfold owned. case_bool_decide as Hu.
    + subst u. rewrite (mi_quota _ _ H) in Hq. lia.
    + pose proof (mi_quota_max _ _ H u). lia.
  - intros id. rewrite elem_of_union, elem_of_singleton, (mi_endpoints _ _ H), lookup_insert_is_Some.
    destruct (decide (ep_id (al_relay a) = id)); naive_solver.
  - intros r. rewrite (mi_routes _ _ H). split.
    + intros (ft' & x & Hx & Hr). exists ft', x. split; [|done]. rewrite lookup_insert_ne; [done|]. congruence.
    + intros (ft' & x & Hx & Hr). apply lookup_insert_Some in Hx as [[<- <-]|[Hne Hx]]; [|by exists ft', x].
      destruct Hr as (_ & ch & b & Hb & _). by rewrite Hc, lookup_empty in Hb.
Qed.

Lemma apply_removed_routes ft relay bindings : forall w,
  w_endpoints (apply_effects w (removed_routes ft relay bindings)) = w_endpoints w /\
  forall r, r ∈ w_routes (apply_effects w (removed_routes ft relay bindings)) <->
    r ∈ w_routes w /\ ~ (ft_transport ft = ProtoUdp /\
      exists channel b, (channel, b) ∈ bindings /\ r = route_of ft relay channel (cb_peer b)).
Proof.
  unfold removed_routes. case_bool_decide as Hudp; [|intros w; split; [done|]; naive_solver].
  induction bindings as [|[ch b] bs IH]; intros w; cbn [fmap list_fmap apply_effects foldl].
  - split; [done|]. intros r. split; [|by intros []]. intros Hr. split; [done|].
    intros (_ & ? & ? & []%not_elem_of_nil & _).
  - destruct (IH (apply_effect w (RemoveChannel (route_of ft relay ch (cb_peer b))))) as [He Hr].
    unfold apply_effects in *. split; [exact He|]. intros r. cbn [fst snd]. rewrite Hr. cbn [apply_effect w_routes].
    rewrite elem_of_difference, elem_of_singleton. split.
    + intros [[Hin Hne] Hno]. split; [done|]. intros (_ & ch' & b' & Hb & ->).
      apply elem_of_cons in Hb as [[= -> ->]|Hb]; [done|]. apply Hno. split; [done|]. by exists ch', b'.
    + intros [Hin Hno]. split; [split; [done|]|].
      * intros ->. apply Hno. split; [done|]. exists ch, b. split; [by left|done].
      * intros (_ & ch' & b' & Hb & ->). apply Hno. split; [done|]. exists ch', b'. split; [by right|done].
Qed.

(** Withdrawing all the routes of one allocation. *)
Lemma has_route_bindings ft a r : has_route ft a r <->
  ft_transport ft = ProtoUdp /\ exists channel b, (channel, b) ∈ map_to_list (al_channels a) /\
    r = route_of ft (ep_local_addr (al_relay a)) channel (cb_peer b).
Proof.
  unfold has_route. split; intros (Hu & ch & b & Hb & Hr); (split; [done|]); exists ch, b; split; try done;
    by apply elem_of_map_to_list.
Qed.

Lemma release_quota_spec q u v n : (forall u n, q !! u = Some n -> 0 < n) -> q !! u = Some n ->
  default 0 (release_quota q u !! v) = default 0 (q !! v) - (if bool_decide (u = v) then 1 else 0) /\
  (forall m, release_quota q u !! v = Some m -> 0 < m).
Proof.
  intros Hpos Hn. unfold release_quota, saturating_sub. rewrite Hn. pose proof (Hpos _ _ Hn).
  destruct (Z.eqb_spec (Z.max 0 (n - 1)) 0) as [Hz|Hz]; case_bool_decide as Hv; try subst v.
  - rewrite lookup_delete_eq, Hn. cbn. split; [lia|done].
  - rewrite lookup_delete_ne by done. split; [lia|]. apply Hpos.
  - rewrite lookup_insert_eq, Hn. cbn. split; [lia|]. intros m [= <-]. lia.
  - rewrite lookup_insert_ne by done. split; [lia|]. apply Hpos.
Qed.

Lemma inv_delete st w ft : manager_inv st w ->
  manager_inv (delete_allocation st ft).1 (apply_effects w (delete_allocation st ft).2).
Proof.
  intros H. unfold delete_allocation. destruct (am_allocations st !! ft) as [a|] eqn:Ha; [|done]. cbn [fst snd].
  change (apply_effects w (RemoveEndpoint ?i :: ?es)) with (apply_effects (apply_effect w (RemoveEndpoint i)) es).
  set (w1 := apply_effect w (RemoveEndpoint _)).
  destruct (apply_removed_routes ft (ep_local_addr (al_relay a)) (map_to_list (al_channels a)) w1) as [He Hr].
  assert (exists n, am_quota st !! al_username a = Some n) as [n Hn].
  { pose proof (allocations_of_pos _ _ _ _ Ha eq_refl) as Hp. rewrite <- (mi_quota _ _ H) in Hp.
    destruct (am_quota st !! al_username a); [by eexists|cbn in Hp; lia]. }
  pose proof (fun v => release_quota_spec _ _ v _ (mi_quota_live _ _ H) Hn) as Hq.
  split; cbn [am_allocations am_relay_index am_quota].
  - intros ft' x [_ Hx]%lookup_delete_Some. by apply (mi_alloc _ _ H ft').
  - intros id ft'. rewrite lookup_delete_Some, (mi_relay _ _ H). split.
    + intros [Hne (x & Hx & Hid)]. exists x. split; [|done]. rewrite lookup_delete_ne; [done|]. congruence.
    + intros (x & [Hne Hx]%lookup_delete_Some & Hid). split; [|by exists x]. intros Heq. apply Hne.
      assert (am_relay_index st !! id = Some ft') as H1 by (apply (mi_relay _ _ H); by exists x).
      assert (am_relay_index st !! id = Some ft) as H2 by (apply (mi_relay _ _ H); by exists a). congruence.
  - intros u. rewrite (proj1 (Hq u)), (mi_quota _ _ H), (allocations_of_delete u _ _ _ Ha). done.
  - intros u m. apply (Hq u).
  - intros u. rewrite (allocations_of_delete u _ _ _ Ha). pose proof (mi_quota_max _ _ H u).
    unfold owned. case_bool_decide; lia.
  - intros id. rewrite He. unfold w1. cbn [apply_effect w_endpoints].
    rewrite elem_of_difference, elem_of_singleton, (mi_endpoints _ _ H), lookup_delete_is_Some. naive_solver.
  - intros r. rewrite Hr, <- has_route_bindings. unfold w1. cbn [apply_effect w_routes]. rewrite (mi_routes _ _ H). split.
    + intros [(ft' & x & Hx & Hrt) Hno]. exists ft', x. split; [|done]. rewrite lookup_delete_ne; [done|]. congruence.
    + intros (ft' & x & [Hne Hx]%lookup_delete_Some & Hrt). split; [by exists ft', x|].
      intros Hrt'. by apply Hne, (has_route_owner _ _ _ _ _ Hrt' Hrt).
Qed.

Lemma inv_delete_all expired : forall st w, manager_inv st w ->
  manager_inv (delete_all st expired).1 (apply_effects w (delete_all st expired).2).
Proof.
  induction expired as [|ft expired IH]; intros st w H; cbn [delete_all]; [done|].
  pose proof (inv_delete st w ft H) as Hd. destruct (delete_allocation st ft) as [st1 es1].
  specialize (IH st1 _ Hd). destruct (delete_all st1 expired) as [st2 es2]. cbn [fst snd] in *.
  by rewrite apply_effects_app.
Qed.

(** ** The reaper *)

(** Equal up to permissions and channels. *)
Definition same_owner (a a' : Allocation) : Prop :=
  al_relay a' = al_relay a /\ al_username a' = al_username a /\ al_transport a' = al_transport a /\
  al_expires_at a' = al_expires_at a /\ al_bytes_relayed a' = al_bytes_relayed a.

Lemma remove_dead_spec dead : forall a, alloc_inv a ->
  alloc_inv (remove_dead a dead) /\ same_owner a (remove_dead a dead) /\
  al_permissions (remove_dead a dead) = al_permissions a /\
  forall ch, al_channels (remove_dead a dead) !! ch = if bool_decide (ch ∈ dead) then None else al_channels a !! ch.
Proof.
  induction dead as [|d dead IH]; intros a Ha; cbn [remove_dead foldl].
  { by split_and!. }
  set (a1 := match al_channels a !! d with Some b => _ | None => a end).
  assert (alloc_inv a1 /\ same_owner a a1 /\ al_permissions a1 = al_permissions a /\
    al_channels a1 = delete d (al_channels a)) as (Hi & Ho & Hp & Hc).
  { unfold a1. destruct (al_channels a !! d) as [b|] eqn:Hd; [|by rewrite delete_id by done].
    split; [|done]. split; cbn.
    - intros ch x [Hne Hx]%lookup_delete_Some. rewrite lookup_delete_ne; [by apply (ai_forward _ Ha)|].
      intros Heq. pose proof (ai_forward _ Ha _ _ Hx). pose proof (ai_forward _ Ha _ _ Hd). congruence.
    - intros p ch [Hne Hx]%lookup_delete_Some. destruct (ai_backward _ Ha _ _ Hx) as (x & Hx' & Hpx).
      exists x. split; [|done]. rewrite lookup_delete_ne; [done|]. intros ->. congruence.
    - intros ch x [_ Hx]%lookup_delete_Some. by apply (ai_channel _ Ha).
    - apply (ai_permission _ Ha).
    - apply (ai_budget _ Ha). }
  destruct (IH a1 Hi) as (Hi' & Ho' & Hp' & Hc'). fold (remove_dead a1 dead). split; [done|]. split.
  { unfold same_owner in *. destruct_and!. split_and!; congruence. }
  split; [by rewrite Hp'|]. intros ch. rewrite Hc', Hc.
  destruct (decide (ch = d)) as [->|Hne].
  - rewrite lookup_delete_eq. rewrite (bool_decide_eq_true_2 (d ∈ d :: dead)) by (by left). by case_bool_decide.
  - rewrite lookup_delete_ne by done. rewrite (bool_decide_ext (ch ∈ dead) (ch ∈ d :: dead)); [done|].
    rewrite elem_of_cons. naive_solver.
Qed.

(** Reaping keeps exactly the live channels and permissions. *)
Lemma reap_allocation_spec now a : alloc_inv a ->
  alloc_inv (reap_allocation now a) /\ same_owner a (reap_allocation now a) /\
  (forall ch b, al_channels (reap_allocation now a) !! ch = Some b <->
    al_channels a !! ch = Some b /\ now < cb_expires_at b).
Proof.
  intros Ha. unfold reap_allocation. set (a1 := set_permissions a _).
  assert (alloc_inv a1) as Hi.
  { split; try apply Ha. cbn. intros ip e [Hx _]%map_lookup_filter_Some. by apply (ai_permission _ Ha _ e). }
  destruct (remove_dead_spec (map_to_list (dead_channels now a1)).*1 a1 Hi) as (Hi' & Ho & _ & Hc).
  split; [done|]. split; [exact Ho|]. intros ch b. rewrite Hc.
  change (al_channels a1) with (al_channels a).
  assert (ch ∈ (map_to_list (dead_channels now a1)).*1 <->
    exists b, al_channels a !! ch = Some b /\ cb_expires_at b <= now) as Hdead.
  { rewrite list_elem_of_fmap. split.
    - intros ([ch' x] & -> & Hx%elem_of_map_to_list). apply map_lookup_filter_Some in Hx. by exists x.
    - intros (x & Hx & Hle). exists (ch, x). split; [done|]. apply elem_of_map_to_list.
      by apply map_lookup_filter_Some. }
  case_bool_decide as Hin; rewrite Hdead in Hin.
  - destruct Hin as (x & Hx & Hle). split; [done|]. intros [Hb Hlt]. assert (b = x) by congruence. subst. lia.
  - split; [|naive_solver]. intros Hb. split; [done|]. destruct (decide (now < cb_expires_at b)); [done|].
    exfalso. apply Hin. exists b. split; [done|lia].
Qed.

Definition dead_route (now : Z) (ft : FiveTuple) (a : Allocation) (r : ChannelRoute) : Prop :=
  ft_transport ft = ProtoUdp /\ exists ch b, al_channels a !! ch = Some b /\ cb_expires_at b <= now /\
    r = route_of ft (ep_local_addr (al_relay a)) ch (cb_peer b).

Lemma apply_withdrawn now table : forall w,
  w_endpoints (apply_effects w (concat (withdrawn now <$> table))) = w_endpoints w /\
  forall r, r ∈ w_routes (apply_effects w (concat (withdrawn now <$> table))) <->
    r ∈ w_routes w /\ ~ exists ft a, (ft, a) ∈ table /\ dead_route now ft a r.
Proof.
  induction table as [|[ft a] table IH]; intros w; cbn [fmap list_fmap concat].
  - split; [done|]. intros r. split; [|by intros []]. intros Hr. split; [done|].
    by intros (? & ? & []%not_elem_of_nil & _).
  - rewrite apply_effects_app. unfold withdrawn at 1 3. cbn [fst snd].
    destruct (apply_removed_routes ft (ep_local_addr (al_relay a)) (map_to_list (dead_channels now a)) w) as [He Hr].
    destruct (IH (apply_effects w (removed_routes ft (ep_local_addr (al_relay a)) (map_to_list (dead_channels now a)))))
      as [He' Hr']. split; [by rewrite He'|]. intros r. rewrite Hr', Hr.
    assert ((ft_transport ft = ProtoUdp /\ exists ch b, (ch, b) ∈ map_to_list (dead_channels now a) /\
      r = route_of ft (ep_local_addr (al_relay a)) ch (cb_peer b)) <-> dead_route now ft a r) as Hd.
    { unfold dead_route. split; intros (Hu & ch & b & Hb); (split; [done|]); exists ch, b.
      - destruct Hb as [Hb%elem_of_map_to_list ->]. by apply map_lookup_filter_Some in Hb as [? ?].
      - destruct Hb as (Hb & Hle & ->). split; [|done]. apply elem_of_map_to_list. by apply map_lookup_filter_Some. }
    rewrite Hd. split.
    + intros [[Hin Hn] Hn']. split; [done|]. intros (ft' & a' & [[= -> ->]|Hin']%elem_of_cons & Hdr); [done|].
      apply Hn'. by exists ft', a'.
    + intros [Hin Hn]. split; [split; [done|]|].
      * intros Hdr. apply Hn. exists ft, a. split; [by left|done].
      * intros (ft' & a' & Hin' & Hdr). apply Hn. exists ft', a'. split; [by right|done].
Qed.

Lemma inv_reap_map st w now : manager_inv st w ->
  manager_inv (with_allocations st (reap_allocation now <$> am_allocations st))
    (apply_effects w (concat (withdrawn now <$> map_to_list (am_allocations st)))).
Proof.
  intros H. destruct (apply_withdrawn now (map_to_list (am_allocations st)) w) as [He Hr].
  assert (forall ft x, (reap_allocation now <$> am_allocations st) !! ft = Some x <->
    exists a, am_allocations st !! ft = Some a /\ x = reap_allocation now a) as Hl.
  { intros ft x. rewrite lookup_fmap_Some. naive_solver. }
  assert (forall a, al_username (reap_allocation now a) = al_username a) as Hu.
  { intros a. unfold reap_allocation, remove_dead.
    set (l := (map_to_list _).*1). set (a1 := set_permissions a _).
    change (al_username a) with (al_username a1). clearbody l a1. revert a1.
    induction l as [|d l IH]; intros a1; cbn [foldl]; [done|]. rewrite IH. by destruct (al_channels a1 !! d). }
  split; cbn [am_allocations am_relay_index am_quota with_allocations].
  - intros ft x (a & Ha & ->)%Hl. apply reap_allocation_spec, (mi_alloc _ _ H ft _ Ha).
  - intros id ft. rewrite (mi_relay _ _ H). split.
    + intros (a & Ha & <-). exists (reap_allocation now a). split; [apply Hl; by exists a|].
      destruct (reap_allocation_spec now a (mi_alloc _ _ H _ _ Ha)) as (_ & (-> & _) & _). done.
    + intros (x & (a & Ha & ->)%Hl & <-). exists a. split; [done|].
      destruct (reap_allocation_spec now a (mi_alloc _ _ H _ _ Ha)) as (_ & (-> & _) & _). done.
  - intros u. rewrite allocations_of_fmap by done. apply (mi_quota _ _ H).
  - apply (mi_quota_live _ _ H).
  - intros u. rewrite allocations_of_fmap by done. apply (mi_quota_max _ _ H).
  - intros id. rewrite He. apply (mi_endpoints _ _ H).
  - intros r. rewrite Hr, (mi_routes _ _ H). split.
    + intros [(ft & a & Ha & Hu' & ch & b & Hb & ->) Hno].
      destruct (reap_allocation_spec now a (mi_alloc _ _ H _ _ Ha)) as (_ & (Hrel & _) & Hch).
      exists ft, (reap_allocation now a). split; [apply Hl; by exists a|]. split; [done|]. exists ch, b.
      rewrite Hrel. split; [|done]. apply Hch. split; [done|]. destruct (decide (now < cb_expires_at b)); [done|].
      exfalso. apply Hno. exists ft, a. split; [by apply elem_of_map_to_list|]. split; [done|]. exists ch, b.
      split_and!; [done|lia|done].
    + intros (ft & x & (a & Ha & ->)%Hl & Hrt).
      destruct (reap_allocation_spec now a (mi_alloc _ _ H _ _ Ha)) as (_ & (Hrel & _) & Hch).
      destruct Hrt as (Hu' & ch & b & [Hb Hlive]%Hch & ->). rewrite Hrel. split.
      * exists ft, a. split; [done|]. split; [done|]. by exists ch, b.
      * intros (ft' & a' & Ha'%elem_of_map_to_list & Hu'' & ch' & b' & Hb' & Hdead & Heq).
        injection Heq as Hc Hcl Hsv Hpeer Hloc.
        assert (ft = ft') as <- by (destruct ft, ft'; cbn in *; congruence).
        assert (a' = a) as -> by congruence. subst ch'. assert (b' = b) as -> by congruence. lia.
Qed.

Lemma inv_reap st w env : manager_inv st w ->
  manager_inv (reap st env).1 (apply_effects w (reap st env).2).
Proof.
  intros H. unfold reap. cbv zeta.
  pose proof (inv_delete_all (filter (fun fa => al_expires_at fa.2 <= now_ticks env) (map_to_list (am_allocations st))).*1
    _ _ (inv_reap_map st w (now_ticks env) H)) as Hd.
  destruct (delete_all _ _) as [st' es]. cbn [fst snd] in *. by rewrite apply_effects_app.
Qed.

(** ** Handlers keep the invariant and never panic *)

Definition good (w : World) (out : res StunError (AllocationManager * list Effect)) : Prop :=
  exists st es, out = Ok (st, es) /\ manager_inv st (apply_effects w es).

Lemma good_ret w st es : manager_inv st (apply_effects w es) -> good w (Ok (st, es)).
Proof. intros H. by exists st, es. Qed.

Lemma manager_inv_world st w w' : manager_inv st w ->
  (forall id, id ∈ w_endpoints w' <-> id ∈ w_endpoints w) -> w_routes w' = w_routes w -> manager_inv st w'.
Proof.
  intros H He Hr. split; try apply H.
  - intros id. by rewrite He, (mi_endpoints _ _ H).
  - intros r. by rewrite Hr, (mi_routes _ _ H).
Qed.

Lemma len_attribute m t v : 20 <= len m -> 20 <= len (MessageBuilder_attribute m t v).
Proof. pose proof (len_builder_attribute m t v). lia. Qed.

Lemma len_builder t txid : len txid = 12 -> 20 <= len (message_builder config t txid).
Proof.
  intros Ht. unfold message_builder.
  assert (20 <= len (MessageBuilder_new t txid)).
  { unfold MessageBuilder_new. rewrite !len_app, !len_be_enc, Ht. change (len [0; 0]) with 2. lia. }
  destruct (tc_software config); [by apply len_attribute|done].
Qed.

Lemma send_error_ok method txid transport code reason key : len txid = 12 ->
  exists r, send_error config method txid transport code reason key = Ok [SendClient transport r].
Proof.
  intros Ht. unfold send_error. edestruct (finish_total) as [r ->]; [by apply len_attribute, len_builder|].
  by exists r.
Qed.

Lemma send_challenge_ok env method txid client transport code reason : len txid = 12 ->
  exists r, send_challenge config nonce_factory env method txid client transport code reason =
    Ok [SendClient transport r].
Proof.
  intros Ht. unfold send_challenge.
  destruct (base64_decode_encode (raw_nonce nonce_factory client (now_ticks env)) (raw_nonce_bytes _ _ _))
    as (nonce & Hn & _).
  assert (issue nonce_factory client (now_ticks env) = Ok nonce) as ->.
  { unfold issue. rewrite slice_Ok, bind_Ok by (rewrite ?len_stamp; lia). exact Hn. }
  rewrite bind_Ok. cbv zeta. edestruct (finish_total) as [r ->]; [by repeat apply len_attribute; apply len_builder|].
  by exists r.
Qed.

Lemma success_response_ok method m attributes key : len (sm_transaction_id m) = 12 ->
  exists r, success_response config method m attributes key = Ok r.
Proof.
  intros Ht. unfold success_response. apply finish_total.
  assert (forall b, 20 <= len b ->
    20 <= len (foldl (fun b tv => MessageBuilder_attribute b tv.1 tv.2) b attributes)) as H.
  { induction attributes as [|tv l IH]; intros b Hb; cbn [foldl]; [done|]. by apply IH, len_attribute. }
  by apply H, len_builder.
Qed.

Lemma fail_good st w es method m transport code reason key : len (sm_transaction_id m) = 12 ->
  manager_inv st (apply_effects w es) -> good w (fail config st es method m transport code reason key).
Proof.
  intros Ht H. unfold fail. destruct (send_error_ok method (sm_transaction_id m) transport code (text reason)
    (Some key) Ht) as [r ->]. rewrite bind_Ok. apply good_ret. rewrite apply_effects_app. exact H.
Qed.

Lemma require_auth_good st w env method client transport m raw k : len (sm_transaction_id m) = 12 ->
  bytes_ok raw -> manager_inv st w -> (forall u key, good w (k u key)) ->
  good w (require_auth config nonce_factory st env method client transport m raw k).
Proof.
  intros Ht Hb H Hk. unfold require_auth.
  destruct (authenticate_total (verifier config) m raw (now_unix env) nonce_factory (now_ticks env) client Hb)
    as [[u key| |] ->]; rewrite bind_Ok; [apply Hk| |].
  - destruct (send_challenge_ok env method _ client transport ERROR_UNAUTHORIZED (text "Unauthorized") Ht) as [r ->].
    by apply good_ret.
  - destruct (send_challenge_ok env method _ client transport ERROR_STALE_NONCE (text "Stale Nonce") Ht) as [r ->].
    by apply good_ret.
Qed.

(** Documented behaviour of the datapath: a granted endpoint is not one that is
    still open.  The cap, a [u64], is not negative. *)
Definition env_ok (w : World) (env : Env) : Prop :=
  forall e, alloc_endpoint env = Some e -> ep_id e ∉ w_endpoints w.

Definition config_ok : Prop := forall cap, tc_max_bytes_per_allocation config = Some cap -> 0 <= cap.

Lemma handle_binding_good st w ft transport m : manager_inv st w -> len (sm_transaction_id m) = 12 ->
  good w (handle_binding st ft transport m).
Proof.
  intros H Ht. unfold handle_binding, binding_success_response.
  edestruct (finish_total) as [r ->]; [apply len_attribute|].
  { unfold MessageBuilder_new. rewrite !len_app, !len_be_enc, Ht. change (len [0; 0]) with 2. lia. }
  by apply good_ret.
Qed.

Lemma handle_allocate_good st w env ft transport m raw : config_ok -> manager_inv st w -> env_ok w env ->
  len (sm_transaction_id m) = 12 -> bytes_ok raw ->
  good w (handle_allocate config nonce_factory st env ft transport m raw).
Proof.
  intros Hcfg H Henv Ht Hb. unfold handle_allocate. cbv zeta. apply require_auth_good; try done. intros u key.
  destruct (am_allocations st !! ft) as [a|] eqn:Ha.
  { destruct (al_last_allocate a) as [[txid cached]|]; [|by apply fail_good].
    case_bool_decide; [by apply good_ret|by apply fail_good]. }
  destruct (negb _); [by apply fail_good|]. destruct (_ || _); [by apply fail_good|].
  destruct (Z.leb_spec (tc_max_allocations_per_user config) (default 0 (am_quota st !! u))) as [|Hq]; [by apply fail_good|].
  destruct (alloc_endpoint env) as [relay|] eqn:Hr; [|by apply fail_good]. pose proof (Henv _ Hr) as Hfresh.
  destruct (negb (install_flow_ok env)).
  - apply fail_good; [done|]. cbn. apply (manager_inv_world st w); [done| |done].
    intros id. cbn. rewrite elem_of_difference, elem_of_union, !elem_of_singleton. naive_solver.
  - unfold allocate_response. edestruct (finish_total) as [r ->]; [by repeat apply len_attribute; apply len_builder|].
    rewrite bind_Ok. apply good_ret. cbn [apply_effects foldl apply_effect].
    apply (inv_insert st w ft (mkAllocation transport relay u _ ∅ ∅ ∅ _ 0)); try done.
Qed.

Lemma alloc_inv_same_data a a' : al_channels a' = al_channels a -> al_peer_to_channel a' = al_peer_to_channel a ->
  al_permissions a' = al_permissions a -> al_bytes_relayed a' = al_bytes_relayed a -> alloc_inv a -> alloc_inv a'.
Proof. intros Hc Hp Hpe Hby H. split; rewrite ?Hc, ?Hp, ?Hpe, ?Hby; apply H. Qed.

Lemma handle_refresh_good st w env ft transport m raw : manager_inv st w ->
  len (sm_transaction_id m) = 12 -> bytes_ok raw ->
  good w (handle_refresh config nonce_factory st env ft transport m raw).
Proof.
  intros H Ht Hb. unfold handle_refresh. cbv zeta. apply require_auth_good; try done. intros u key.
  destruct (am_allocations st !! ft) as [a|] eqn:Ha; [|by apply fail_good].
  destruct (_ =? 0).
  - pose proof (inv_delete st w ft H) as Hd. destruct (delete_allocation st ft) as [st' es].
    destruct (success_response_ok METHOD_REFRESH m [(ATTR_LIFETIME, lifetime_value 0)] key Ht) as [r ->].
    rewrite bind_Ok. apply good_ret. rewrite apply_effects_app. exact Hd.
  - match goal with |- context [lifetime_value ?g] =>
      destruct (success_response_ok METHOD_REFRESH m [(ATTR_LIFETIME, lifetime_value g)] key Ht) as [r ->] end.
    rewrite bind_Ok. apply good_ret. cbn [app apply_effects foldl apply_effect].
    apply (inv_update_same st w ft a); try done.
    apply (alloc_inv_same_data a); try done. apply (mi_alloc _ _ H ft _ Ha).
Qed.

Lemma peer_addresses_total attrs tid : exists l, peer_addresses_of attrs tid = Ok l.
Proof.
  induction attrs as [|[t v] attrs [l IH]]; cbn [peer_addresses_of]; [by eexists|].
  destruct (t =? _); [|by eexists]. destruct (decode_xor_total v tid) as [o ->]. rewrite bind_Ok, IH, bind_Ok.
  by eexists.
Qed.

Lemma permissions_permitted peers expiry : forall p : gmap IpAddr Z,
  existsb (fun peer => negb (permits (tc_denied_peers config) (sa_ip peer))) peers = false ->
  (forall ip e, p !! ip = Some e -> permits (tc_denied_peers config) ip = true) ->
  forall ip e, foldl (fun p peer => <[sa_ip peer := expiry]> p) p peers !! ip = Some e ->
    permits (tc_denied_peers config) ip = true.
Proof.
  induction peers as [|peer peers IH]; intros p Hd Hp; cbn [foldl]; [done|].
  cbn [existsb] in Hd. apply orb_false_iff in Hd as [Hd1 Hd2]. apply (IH _ Hd2).
  intros ip e [[<- _]|[_ Hx]]%lookup_insert_Some; [by apply negb_false_iff|by apply (Hp ip e)].
Qed.

Lemma handle_create_permission_good st w env ft transport m raw : manager_inv st w ->
  len (sm_transaction_id m) = 12 -> bytes_ok raw ->
  good w (handle_create_permission config nonce_factory st env ft transport m raw).
Proof.
  intros H Ht Hb. unfold handle_create_permission. cbv zeta. apply require_auth_good; try done. intros u key.
  destruct (am_allocations st !! ft) as [a|] eqn:Ha; [|by apply fail_good].
  unfold xor_peer_addresses. destruct (peer_addresses_total (sm_attributes m) (sm_transaction_id m)) as [peers ->].
  rewrite bind_Ok. destruct peers as [|p0 peers]; [by apply fail_good|].
  destruct (existsb _ _) eqn:Hd; [by apply fail_good|].
  destruct (success_response_ok METHOD_CREATE_PERMISSION m [] key Ht) as [r ->]. rewrite bind_Ok. apply good_ret.
  pose proof (mi_alloc _ _ H ft _ Ha) as Hi. apply (inv_update_same st w ft a); try done.
  split; try apply Hi. cbn [set_permissions al_permissions].
  apply (permissions_permitted _ _ _ Hd), Hi.
Qed.

Lemma bind_consistent_spec a channel peer : bind_consistent a channel peer = true <->
  (forall b, al_channels a !! channel = Some b -> cb_peer b = peer) /\
  (forall c, al_peer_to_channel a !! peer = Some c -> c = channel).
Proof.
  unfold bind_consistent. rewrite andb_true_iff.
  destruct (al_channels a !! channel) as [b|], (al_peer_to_channel a !! peer) as [c|];
    rewrite ?bool_decide_eq_true, ?Z.eqb_eq; naive_solver.
Qed.

Lemma bind_channel_inv a now channel peer : alloc_inv a -> bind_consistent a channel peer = true ->
  valid_channel_number channel = true -> permits (tc_denied_peers config) (sa_ip peer) = true ->
  alloc_inv (bind_channel config a now channel peer).
Proof.
  intros Ha [Hc Hp]%bind_consistent_spec Hv Hperm. split; cbn.
  - intros ch b [[<- <-]|[Hne Hb]]%lookup_insert_Some; [apply lookup_insert_eq|].
    rewrite lookup_insert_ne; [by apply (ai_forward _ Ha)|]. intros ->.
    apply Hne. symmetry. apply Hp. by apply (ai_forward _ Ha).
  - intros p ch [[<- <-]|[Hne Hb]]%lookup_insert_Some; [eexists; by rewrite lookup_insert_eq|].
    destruct (ai_backward _ Ha _ _ Hb) as (b & Hb' & Hpb). exists b. split; [|done].
    rewrite lookup_insert_ne; [done|]. intros ->. apply Hne. by rewrite <- Hpb, (Hc b).
  - intros ch b [[<- <-]|[Hne Hb]]%lookup_insert_Some; [done|by apply (ai_channel _ Ha)].
  - intros ip e [[<- _]|[_ Hx]]%lookup_insert_Some; [done|by apply (ai_permission _ Ha ip e)].
  - apply (ai_budget _ Ha).
Qed.

Lemma bind_channel_routes ft a now channel peer r : bind_consistent a channel peer = true ->
  has_route ft (bind_channel config a now channel peer) r <->
  (ft_transport ft = ProtoUdp /\ r = route_of ft (ep_local_addr (al_relay a)) channel peer) \/ has_route ft a r.
Proof.
  intros [Hc _]%bind_consistent_spec. unfold has_route. cbn. split.
  - intros (Hu & ch & b & [[<- <-]|[Hne Hb]]%lookup_insert_Some & ->); [by left|right].
    split; [done|]. by exists ch, b.
  - intros [[Hu ->]|(Hu & ch & b & Hb & ->)]; (split; [done|]).
    + eexists channel, _. rewrite lookup_insert_eq. done.
    + destruct (decide (channel = ch)) as [<-|Hne].
      * eexists channel, _. rewrite lookup_insert_eq. split; [done|]. cbn. by rewrite (Hc b).
      * exists ch, b. by rewrite lookup_insert_ne.
Qed.

Lemma route_known st w ft a r : manager_inv st w -> am_allocations st !! ft = Some a -> r ∈ w_routes w ->
  has_route ft a r \/ ~ has_route ft a r.
Proof.
  intros H Ha Hin. apply (mi_routes _ _ H) in Hin as (ft' & x & Hx & Hrt).
  destruct (decide (ft' = ft)) as [->|Hne]; [left; congruence|right].
  intros Hrt'. by apply Hne, (has_route_owner _ _ _ _ _ Hrt Hrt').
Qed.

Lemma handle_channel_bind_good st w env ft transport m raw : manager_inv st w ->
  len (sm_transaction_id m) = 12 -> bytes_ok raw ->
  good w (handle_channel_bind config nonce_factory st env ft transport m raw).
Proof.
  intros H Ht Hb. unfold handle_channel_bind. cbv zeta. apply require_auth_good; try done. intros u key.
  destruct (am_allocations st !! ft) as [a|] eqn:Ha; [|by apply fail_good].
  assert (exists o, xor_peer_address m = Ok o) as [o ->].
  { unfold xor_peer_address, xor_address. destruct (attribute _ _); [apply decode_xor_total|by eexists]. }
  rewrite bind_Ok. destruct (channel_number m) as [ch|]; [|by apply fail_good].
  destruct o as [peer|]; [|by apply fail_good].
  destruct (valid_channel_number ch) eqn:Hv; [|by apply fail_good].
  destruct (bind_consistent a ch peer) eqn:Hc; [|by apply fail_good]. cbn [negb orb].
  destruct (permits _ _) eqn:Hp; [|by apply fail_good]. cbn [negb].
  destruct (success_response_ok METHOD_CHANNEL_BIND m [] key Ht) as [r ->]. rewrite bind_Ok. apply good_ret.
  rewrite apply_effects_app. apply (inv_update st w ft a); try done.
  - by apply bind_channel_inv; [apply (mi_alloc _ _ H ft)| | |].
  - by case_bool_decide.
  - intros x. rewrite bind_channel_routes by done.
    assert (has_route ft a x -> x ∈ w_routes w) as Hin by (intros Hx; apply (mi_routes _ _ H); by exists ft, a).
    pose proof (route_known st w ft a x H Ha) as Hk.
    case_bool_decide as Hu; cbn [apply_effects foldl apply_effect w_routes];
      rewrite ?elem_of_union, ?elem_of_singleton; naive_solver.
Qed.

(** ** The data paths *)

Lemma alter_Some (f : Allocation -> Allocation) ft (m : gmap FiveTuple Allocation) a :
  m !! ft = Some a -> alter f ft m = <[ft := f a]> m.
Proof.
  intros Ha. apply map_eq. intros k. destruct (decide (ft = k)) as [<-|Hne].
  - by rewrite lookup_alter_eq, lookup_insert_eq, Ha.
  - by rewrite lookup_alter_ne, lookup_insert_ne.
Qed.

Lemma within_budget_spec st ft a n cap : am_allocations st !! ft = Some a ->
  tc_max_bytes_per_allocation config = Some cap -> within_budget config st ft n = true -> al_bytes_relayed a + n <= cap.
Proof. intros Ha Hc. unfold within_budget. rewrite Hc, Ha. lia. Qed.

Lemma account_bytes_inv st w ft a n : manager_inv st w -> am_allocations st !! ft = Some a ->
  within_budget config st ft n = true -> manager_inv (account_bytes st ft n) w.
Proof.
  intros H Ha Hw. unfold account_bytes. rewrite (alter_Some _ _ _ _ Ha). apply (inv_update_same st w ft a); try done.
  pose proof (mi_alloc _ _ H ft _ Ha) as Hi. split; try apply Hi. cbn. intros cap Hcap.
  by eapply within_budget_spec.
Qed.

Lemma relay_to_peer_good st w env ft a rid peer d : manager_inv st w -> am_allocations st !! ft = Some a ->
  good w (Ok (relay_to_peer config st env ft rid peer d)).
Proof.
  intros H Ha. unfold relay_to_peer. destruct (within_budget config st ft (len d)) eqn:Hw; cbn [negb]; [|by apply good_ret].
  destruct (send_ok env); apply good_ret; cbn [apply_effects foldl apply_effect]; [|done].
  by eapply account_bytes_inv.
Qed.

Lemma handle_send_indication_good st w env ft m : manager_inv st w ->
  good w (handle_send_indication config st env ft m).
Proof.
  intros H. unfold handle_send_indication.
  assert (exists o, xor_peer_address m = Ok o) as [o ->].
  { unfold xor_peer_address, xor_address. destruct (attribute _ _); [apply decode_xor_total|by eexists]. }
  rewrite bind_Ok. destruct o as [peer|]; [|by apply good_ret]. destruct (data m) as [d|]; [|by apply good_ret].
  destruct (negb _); [by apply good_ret|]. destruct (am_allocations st !! ft) as [a|] eqn:Ha; [|by apply good_ret].
  destruct (negb _); [by apply good_ret|]. by apply (relay_to_peer_good st w env ft a).
Qed.

Lemma parse_channel_data_total buffer : exists o, parse_channel_data buffer = Ok o.
Proof.
  unfold parse_channel_data. destruct (Z.ltb_spec (len buffer) 4); [by eexists|].
  rewrite !be16_at_sub, !bind_Ok by lia. destruct (negb _); [by eexists|]. destruct (get_range _ _ _); by eexists.
Qed.

Lemma handle_channel_data_good st w env ft datagram : manager_inv st w ->
  good w (handle_channel_data config st env ft datagram).
Proof.
  intros H. unfold handle_channel_data. destruct (parse_channel_data_total datagram) as [[cd|] ->]; [|by apply good_ret].
  rewrite bind_Ok. destruct (am_allocations st !! ft) as [a|] eqn:Ha; [|by apply good_ret].
  destruct (al_channels a !! cd_channel cd) as [b|]; [|by apply good_ret].
  destruct (_ <=? _); [by apply good_ret|]. destruct (negb _); [by apply good_ret|].
  by apply (relay_to_peer_good st w env ft a).
Qed.

Lemma with_counter_inv st w n : manager_inv st w -> manager_inv (with_counter st n) w.
Proof. intros H. split; apply H. Qed.

Lemma data_indication_ok st peer d : exists m, data_indication st peer d =
  Ok (m, with_counter st (wrapping_add 64 (am_indication_counter st) 1)).
Proof.
  unfold data_indication, next_indication_txid. edestruct (finish_total) as [m ->].
  { do 2 apply len_attribute. unfold MessageBuilder_new. rewrite !len_app, !len_be_enc, len_replicate.
    change (len [0; 0]) with 2. lia. }
  by exists m.
Qed.

Lemma handle_relay_inbound_good st w env endpoint peer d : manager_inv st w ->
  good w (handle_relay_inbound config st env endpoint peer d).
Proof.
  intros H. unfold handle_relay_inbound. destruct (am_relay_index st !! endpoint) as [ft|]; [|by apply good_ret].
  destruct (am_allocations st !! ft) as [a|] eqn:Ha; [|by apply good_ret].
  destruct (negb _); [by apply good_ret|]. destruct (negb _); [by apply good_ret|].
  destruct (within_budget config st ft (len d)) eqn:Hw; cbn [negb]; [|by apply good_ret].
  destruct (live_channel a (now_ticks env) peer) as [ch|].
  - unfold mret, res_ret. rewrite bind_Ok. apply good_ret. cbn [apply_effects foldl apply_effect].
    by eapply account_bytes_inv.
  - destruct (data_indication_ok st peer d) as [msg ->]. rewrite bind_Ok. apply good_ret.
    cbn [apply_effects foldl apply_effect]. apply (account_bytes_inv _ w ft a); [by apply with_counter_inv|done|done].
Qed.

(** ** Dispatch *)

Definition message_ok (message : Message) : Prop :=
  match message with Client _ _ datagram => bytes_ok datagram | _ => True end.

Lemma handle_good st w env message : config_ok -> manager_inv st w -> env_ok w env -> message_ok message ->
  good w (handle config nonce_factory st env message).
Proof.
  intros Hcfg H Henv Hm. destruct message as [ft transport dg|endpoint peer d| | |]; cbn [handle].
  - unfold handle_client. destruct dg as [|b0 dg]; [by apply good_ret|]. cbn in Hm.
    destruct (is_channel_data b0); [by apply handle_channel_data_good|].
    pose proof (parse_no_panic _ Hm) as Hnp.
    destruct (parse (b0 :: dg)) as [m|e|] eqn:Hp; [|by apply good_ret|done]. pose proof (parse_tid _ _ Hp) as Ht.
    cbv zeta. destruct (_ && _); [by apply handle_send_indication_good|].
    destruct (_ =? CLASS_REQUEST); [|by apply good_ret].
    destruct (_ =? METHOD_BINDING); [by apply handle_binding_good|].
    destruct (_ =? METHOD_ALLOCATE); [by apply handle_allocate_good|].
    destruct (_ =? METHOD_REFRESH); [by apply handle_refresh_good|].
    destruct (_ =? METHOD_CREATE_PERMISSION); [by apply handle_create_permission_good|].
    destruct (_ =? METHOD_CHANNEL_BIND); [by apply handle_channel_bind_good|]. by apply good_ret.
  - by apply handle_relay_inbound_good.
  - pose proof (inv_reap st w env H) as Hr. destruct (reap st env) as [st' es]. by apply good_ret.
  - by apply good_ret.
  - by apply good_ret.
Qed.

(** The states a server can be in, with what it then holds outside. *)
Inductive reachable : AllocationManager -> World -> Prop :=
| reachable_new : reachable AllocationManager_new world_new
| reachable_step st w env message st' es :
    reachable st w -> env_ok w env -> message_ok message ->
    handle config nonce_factory st env message = Ok (st', es) -> reachable st' (apply_effects w es).

Lemma reachable_inv st w : config_ok -> reachable st w -> manager_inv st w.
Proof.
  intros Hcfg Hr. induction Hr as [|st w env message st' es Hr IH Henv Hm Hh]; [apply manager_inv_new|].
  destruct (handle_good st w env message Hcfg IH Henv Hm) as (st2 & es2 & Heq & Hinv).
  rewrite Hh in Heq. by injection Heq as -> ->.
Qed.

End Invariant.

(** ** Gating and authentication *)

Section Gate.

Context (config : TurnConfig) (nonce_factory : NonceFactory).

(** An allocation may send to [peer] at [now]. *)
Definition may_send (a : Allocation) (now : Z) (peer : SocketAddr) : Prop :=
  permits (tc_denied_peers config) (sa_ip peer) = true /\
  (permitted a now (sa_ip peer) = true \/
   exists channel b, al_channels a !! channel = Some b /\ cb_peer b = peer /\ now < cb_expires_at b).

Definition is_send_peer (e : Effect) : bool := match e with SendPeer _ _ _ => true | _ => false end.

Lemma sends_none es rid peer d : forallb (fun e => negb (is_send_peer e)) es = true -> SendPeer rid peer d ∉ es.
Proof.
  induction es as [|e es IH]; intros H; [apply not_elem_of_nil|]. cbn [forallb] in H.
  apply andb_true_iff in H as [He Hes]. rewrite not_elem_of_cons. split; [|by apply IH]. by intros <-.
Qed.

(** A reply-only outcome: whatever it is, nothing goes to a peer. *)
Definition quiet (out : res StunError (AllocationManager * list Effect)) : Prop :=
  forall st es, out = Ok (st, es) -> forallb (fun e => negb (is_send_peer e)) es = true.

Lemma quiet_ret st es : forallb (fun e => negb (is_send_peer e)) es = true -> quiet (Ok (st, es)).
Proof. intros H st' es' [= <- <-]. exact H. Qed.

Lemma quiet_bind {A} (m : res StunError A) f : (forall a, quiet (f a)) -> quiet (a ← m; f a).
Proof. intros H. destruct m; [apply H|by intros ? ?|by intros ? ?]. Qed.

Lemma quiet_error (m : res StunError (list Effect)) st es : (forall l, m = Ok l -> exists t b, l = [SendClient t b]) ->
  forallb (fun e => negb (is_send_peer e)) es = true -> quiet (l ← m; Ok (st, es ++ l)%list).
Proof.
  intros H He. destruct m as [l| |]; try by intros ? ?. rewrite bind_Ok. apply quiet_ret.
  destruct (H l eq_refl) as (t & b & ->). by rewrite forallb_app, He.
Qed.

Lemma send_error_shape method txid transport code reason key l :
  send_error config method txid transport code reason key = Ok l -> exists t b, l = [SendClient t b].
Proof. unfold send_error. intros H. bind_inv H r Hr. injection H as <-. by eexists _, _. Qed.

Lemma send_challenge_shape env method txid client transport code reason l :
  send_challenge config nonce_factory env method txid client transport code reason = Ok l ->
  exists b, l = [SendClient transport b].
Proof. unfold send_challenge. intros H. bind_inv H n Hn. bind_inv H r Hr. injection H as <-. by eexists _. Qed.

Lemma fail_quiet st es method m transport code reason key :
  forallb (fun e => negb (is_send_peer e)) es = true -> quiet (fail config st es method m transport code reason key).
Proof. intros He. unfold fail. apply quiet_error; [apply send_error_shape|done]. Qed.

Lemma require_auth_quiet st env method client transport m raw k : (forall u key, quiet (k u key)) ->
  quiet (require_auth config nonce_factory st env method client transport m raw k).
Proof.
  intros Hk. unfold require_auth. apply quiet_bind. intros [u key| |]; [apply Hk| |].
  - intros st' es H. bind_inv H l Hl. injection H as <- <-. by destruct (send_challenge_shape _ _ _ _ _ _ _ _ Hl) as [b ->].
  - intros st' es H. bind_inv H l Hl. injection H as <- <-. by destruct (send_challenge_shape _ _ _ _ _ _ _ _ Hl) as [b ->].
Qed.

Lemma removed_routes_quiet ft relay bs : forallb (fun e => negb (is_send_peer e)) (removed_routes ft relay bs) = true.
Proof.
  unfold removed_routes. case_bool_decide; [|done]. induction bs as [|kb bs IH]; [done|]. exact IH.
Qed.

Lemma delete_quiet st ft : forallb (fun e => negb (is_send_peer e)) (delete_allocation st ft).2 = true.
Proof.
  unfold delete_allocation. destruct (_ !! ft); [|done]. cbn. apply removed_routes_quiet.
Qed.

Lemma request_quiet st env ft transport m raw :
  quiet (handle_binding st ft transport m) /\
  quiet (handle_allocate config nonce_factory st env ft transport m raw) /\
  quiet (handle_refresh config nonce_factory st env ft transport m raw) /\
  quiet (handle_create_permission config nonce_factory st env ft transport m raw) /\
  quiet (handle_channel_bind config nonce_factory st env ft transport m raw).
Proof.
  split_and!.
  - unfold handle_binding. apply quiet_bind. intros r. by apply quiet_ret.
  - apply require_auth_quiet. intros u key. destruct (_ !! ft) as [a|].
    { destruct (al_last_allocate a) as [[txid cached]|]; [|by apply fail_quiet].
      destruct (bool_decide _); [by apply quiet_ret|by apply fail_quiet]. }
    destruct (negb _); [by apply fail_quiet|]. destruct (_ || _); [by apply fail_quiet|].
    destruct (_ <=? _); [by apply fail_quiet|]. destruct (alloc_endpoint env); [|by apply fail_quiet].
    destruct (negb _); [by apply fail_quiet|]. apply quiet_bind. intros r. by apply quiet_ret.
  - apply require_auth_quiet. intros u key. destruct (am_allocations st !! ft) as [a|] eqn:Ha; [|by apply fail_quiet].
    cbv zeta. destruct (_ =? 0).
    + pose proof (delete_quiet st ft) as Hq. destruct (delete_allocation st ft) as [st' es].
      apply quiet_bind. intros r. apply quiet_ret. rewrite forallb_app. cbn in Hq. by rewrite Hq.
    + apply quiet_bind. intros r. by apply quiet_ret.
  - apply require_auth_quiet. intros u key. destruct (_ !! ft) as [a|]; [|by apply fail_quiet].
    apply quiet_bind. intros [|p l]; [by apply fail_quiet|]. destruct (existsb _ _); [by apply fail_quiet|].
    apply quiet_bind. intros r. by apply quiet_ret.
  - apply require_auth_quiet. intros u key. destruct (_ !! ft) as [a|]; [|by apply fail_quiet].
    apply quiet_bind. intros o. destruct (channel_number m); [|by apply fail_quiet].
    destruct o; [|by apply fail_quiet]. destruct (_ || _); [by apply fail_quiet|].
    destruct (negb _); [by apply fail_quiet|]. apply quiet_bind. intros r. apply quiet_ret.
    rewrite forallb_app. by case_bool_decide.
Qed.

Lemma relay_to_peer_sends st env ft rid peer d st' es rid' peer' d' :
  relay_to_peer config st env ft rid peer d = (st', es) -> SendPeer rid' peer' d' ∈ es ->
  rid' = rid /\ peer' = peer /\ d' = d /\ within_budget config st ft (len d) = true.
Proof.
  unfold relay_to_peer. destruct (within_budget config st ft (len d)) eqn:Hw; cbn [negb].
  - intros H Hin. assert (es = [SendPeer rid peer d]) as -> by (destruct (send_ok env); congruence).
    apply list_elem_of_singleton in Hin. by injection Hin as -> -> ->.
  - intros [= <- <-] []%not_elem_of_nil.
Qed.

(** A branch that made no call cannot have sent anything. *)
Ltac nothing_sent Hh Hin := injection Hh as <- <-; by apply not_elem_of_nil in Hin.

(** What the server sends to a peer on behalf of a client. *)
Lemma client_send_gated st env ft transport dg st' es rid peer d :
  handle_client config nonce_factory st env ft transport dg = Ok (st', es) -> SendPeer rid peer d ∈ es ->
  exists a, am_allocations st !! ft = Some a /\ rid = ep_id (al_relay a) /\ may_send a (now_ticks env) peer /\
    within_budget config st ft (len d) = true.
Proof.
  intros Hh Hin. unfold handle_client in Hh. destruct dg as [|b0 dg]; [nothing_sent Hh Hin|].
  destruct (is_channel_data b0).
  - unfold handle_channel_data in Hh. bind_inv Hh o Ho. destruct o as [cd|]; [|nothing_sent Hh Hin].
    destruct (am_allocations st !! ft) as [a|] eqn:Ha; [|nothing_sent Hh Hin].
    destruct (al_channels a !! cd_channel cd) as [b|] eqn:Hb; [|nothing_sent Hh Hin].
    destruct (Z.leb_spec (cb_expires_at b) (now_ticks env)); [nothing_sent Hh Hin|].
    destruct (permits _ _) eqn:Hp; cbn [negb] in Hh; [|nothing_sent Hh Hin].
    injection Hh as Hh. destruct (relay_to_peer_sends _ _ _ _ _ _ _ _ _ _ _ Hh Hin) as (-> & -> & -> & Hw).
    exists a. split_and!; try done. split; [done|]. right. by exists (cd_channel cd), b.
  - destruct (parse (b0 :: dg)) as [m| |]; [|nothing_sent Hh Hin|done].
    cbv zeta in Hh. destruct (request_quiet st env ft transport m (b0 :: dg)) as (Q1 & Q2 & Q3 & Q4 & Q5).
    assert (forall out, quiet out -> out = Ok (st', es) -> False) as Hq.
    { intros out Q Ho. by apply (sends_none es rid peer d (Q _ _ Ho)). }
    destruct (_ && _).
    + unfold handle_send_indication in Hh. bind_inv Hh o Ho.
      destruct o as [p|]; [|nothing_sent Hh Hin].
      destruct (data m) as [x|]; [|nothing_sent Hh Hin].
      destruct (permits _ _) eqn:Hp; cbn [negb] in Hh; [|nothing_sent Hh Hin].
      destruct (am_allocations st !! ft) as [a|] eqn:Ha; [|nothing_sent Hh Hin].
      destruct (permitted a (now_ticks env) (sa_ip p)) eqn:Hpe; cbn [negb] in Hh; [|nothing_sent Hh Hin].
      injection Hh as Hh. destruct (relay_to_peer_sends _ _ _ _ _ _ _ _ _ _ _ Hh Hin) as (-> & -> & -> & Hw).
      exists a. split_and!; try done. split; [done|]. by left.
    + exfalso. destruct (_ =? CLASS_REQUEST); [|nothing_sent Hh Hin].
      destruct (_ =? METHOD_BINDING); [by apply (Hq _ Q1)|]. destruct (_ =? METHOD_ALLOCATE); [by apply (Hq _ Q2)|].
      destruct (_ =? METHOD_REFRESH); [by apply (Hq _ Q3)|]. destruct (_ =? METHOD_CREATE_PERMISSION); [by apply (Hq _ Q4)|].
      destruct (_ =? METHOD_CHANNEL_BIND); [by apply (Hq _ Q5)|]. nothing_sent Hh Hin.
Qed.

(** How a peer's datagram is framed for the client. *)
Definition delivered (st : AllocationManager) (a : Allocation) (now : Z) (peer : SocketAddr) (d m : bytes) : Prop :=
  (exists channel b, al_peer_to_channel a !! peer = Some channel /\ al_channels a !! channel = Some b /\
     now < cb_expires_at b /\ m = encode_channel_data channel d (is_stream (al_transport a))) \/
  (exists st', data_indication st peer d = Ok (m, st')).

Lemma inbound_gated st env endpoint peer d st' es :
  handle_relay_inbound config st env endpoint peer d = Ok (st', es) -> es <> [] ->
  exists ft a m, am_relay_index st !! endpoint = Some ft /\ am_allocations st !! ft = Some a /\
    es = [SendClient (al_transport a) m] /\ permitted a (now_ticks env) (sa_ip peer) = true /\
    permits (tc_denied_peers config) (sa_ip peer) = true /\ within_budget config st ft (len d) = true /\
    delivered st a (now_ticks env) peer d m.
Proof.
  unfold handle_relay_inbound. intros H Hne. destruct (am_relay_index st !! endpoint) as [ft|] eqn:Hi; [|by injection H as <- <-].
  destruct (am_allocations st !! ft) as [a|] eqn:Ha; [|by injection H as <- <-].
  destruct (permitted a (now_ticks env) (sa_ip peer)) eqn:Hp; cbn [negb] in H; [|by injection H as <- <-].
  destruct (permits _ _) eqn:Hpol; cbn [negb] in H; [|by injection H as <- <-].
  destruct (within_budget config st ft (len d)) eqn:Hw; cbn [negb] in H; [|by injection H as <- <-].
  exists ft, a. destruct (live_channel a (now_ticks env) peer) as [ch|] eqn:Hl.
  - unfold mret, res_ret in H. rewrite bind_Ok in H. injection H as <- <-.
    eexists. split_and!; try done. left. unfold live_channel in Hl.
    destruct (al_peer_to_channel a !! peer) as [ch'|] eqn:Hpc; [|done]. cbn [mbind option_bind] in Hl.
    destruct (al_channels a !! ch') as [b|] eqn:Hb; [|done]. cbn [mbind option_bind] in Hl.
    destruct (Z.leb_spec (cb_expires_at b) (now_ticks env)); [done|]. injection Hl as ->. by exists ch, b.
  - bind_inv H x Hx. destruct x as [m st1]. injection H as <- <-. exists m. split_and!; try done. right. by exists st1.
Qed.

(** ** Nothing without credentials *)

(** An allocation up to its byte counter. *)
Definition forget_bytes (a : Allocation) : Allocation :=
  mkAllocation (al_transport a) (al_relay a) (al_username a) (al_expires_at a) (al_permissions a) (al_channels a)
    (al_peer_to_channel a) (al_last_allocate a) 0.

(** Calls that open, close or route nothing. *)
Definition traffic_only (e : Effect) : bool :=
  match e with SendClient _ _ | SendPeer _ _ _ => true | _ => false end.

(** The tables are as they were, byte counters apart, and only traffic left the
    server. *)
Definition untouched (st st' : AllocationManager) (es : list Effect) : Prop :=
  am_relay_index st' = am_relay_index st /\ am_quota st' = am_quota st /\
  (forall ft, forget_bytes <$> am_allocations st' !! ft = forget_bytes <$> am_allocations st !! ft) /\
  forallb traffic_only es = true.

Lemma untouched_same st es : forallb traffic_only es = true -> untouched st st es.
Proof. intros H. unfold untouched. by split_and!. Qed.

Lemma require_auth_refused st env method client transport m raw k st' es :
  (forall u key, authenticate (verifier config) m raw (now_unix env) nonce_factory (now_ticks env) client <>
    Ok (AuthOk u key)) ->
  require_auth config nonce_factory st env method client transport m raw k = Ok (st', es) -> untouched st st' es.
Proof.
  intros Hn H. unfold require_auth in H. bind_inv H r Hr. destruct r as [u key| |]; [by destruct (Hn u key)| |].
  - bind_inv H l Hl. injection H as <- <-. destruct (send_challenge_shape _ _ _ _ _ _ _ _ Hl) as [b ->].
    by apply untouched_same.
  - bind_inv H l Hl. injection H as <- <-. destruct (send_challenge_shape _ _ _ _ _ _ _ _ Hl) as [b ->].
    by apply untouched_same.
Qed.

Lemma relay_to_peer_untouched st env ft rid peer d st' es :
  relay_to_peer config st env ft rid peer d = (st', es) -> untouched st st' es.
Proof.
  unfold relay_to_peer. destruct (negb _); [intros [= <- <-]; by apply untouched_same|].
  destruct (send_ok env); intros [= <- <-]; [|by apply untouched_same].
  unfold untouched, account_bytes. split_and!; try done. intros ft'. cbn. destruct (decide (ft = ft')) as [<-|Hne].
  - rewrite lookup_alter_eq. by destruct (_ !! ft).
  - by rewrite lookup_alter_ne.
Qed.

(** A branch that returned the state as it was. *)
Ltac unchanged Hh := injection Hh as <- <-; by apply untouched_same.

Lemma client_untouched st env ft transport dg st' es :
  (forall m u key, parse dg = Ok m -> authenticate (verifier config) m dg (now_unix env) nonce_factory
    (now_ticks env) (ft_client ft) <> Ok (AuthOk u key)) ->
  handle_client config nonce_factory st env ft transport dg = Ok (st', es) -> untouched st st' es.
Proof.
  intros Hn Hh. unfold handle_client in Hh. destruct dg as [|b0 dg]; [unchanged Hh|].
  destruct (is_channel_data b0).
  - unfold handle_channel_data in Hh. bind_inv Hh o Ho. destruct o as [cd|]; [|unchanged Hh].
    destruct (_ !! ft) as [a|]; [|unchanged Hh].
    destruct (_ !! cd_channel cd) as [b|]; [|unchanged Hh].
    destruct (_ <=? _); [unchanged Hh|].
    destruct (negb _); [unchanged Hh|]. injection Hh as Hh.
    by eapply relay_to_peer_untouched.
  - destruct (parse (b0 :: dg)) as [m| |] eqn:Hp; [|unchanged Hh|done].
    specialize (fun u key => Hn m u key eq_refl). cbv zeta in Hh. destruct (_ && _).
    + unfold handle_send_indication in Hh. bind_inv Hh o Ho. destruct o as [p|]; [|unchanged Hh].
      destruct (data m) as [x|]; [|unchanged Hh].
      destruct (negb _); [unchanged Hh|].
      destruct (_ !! ft) as [a|]; [|unchanged Hh].
      destruct (negb _); [unchanged Hh|]. injection Hh as Hh.
      by eapply relay_to_peer_untouched.
    + destruct (_ =? CLASS_REQUEST); [|unchanged Hh].
      destruct (_ =? METHOD_BINDING).
      { unfold handle_binding in Hh. bind_inv Hh r Hr. injection Hh as <- <-. by apply untouched_same. }
      destruct (_ =? METHOD_ALLOCATE); [by apply (require_auth_refused _ _ _ _ _ _ _ _ _ _ Hn Hh)|].
      destruct (_ =? METHOD_REFRESH); [by apply (require_auth_refused _ _ _ _ _ _ _ _ _ _ Hn Hh)|].
      destruct (_ =? METHOD_CREATE_PERMISSION); [by apply (require_auth_refused _ _ _ _ _ _ _ _ _ _ Hn Hh)|].
      destruct (_ =? METHOD_CHANNEL_BIND); [by apply (require_auth_refused _ _ _ _ _ _ _ _ _ _ Hn Hh)|].
      unchanged Hh.
Qed.

End Gate.

(** ** A session, evaluated *)

Definition example_config : TurnConfig :=
  mkTurnConfig (text "siphon") (text "secret") (Some (text "siphon-rtp-turn")) None 600 3600 300 600 2 (Some 100)
    PeerIpPolicy_default true.
Definition example_nonces : NonceFactory := mkNonceFactory (replicate 32 7) 3600.
Definition example_client : SocketAddr := mkSocketAddr (V4 0xCB007105) 40000.
Definition example_peer : SocketAddr := mkSocketAddr (V4 0xC6336414) 50000.
Definition example_tuple : FiveTuple := mkFiveTuple example_client (mkSocketAddr (V4 0xC0000201) 3478) ProtoUdp.
Definition example_reply : ClientTransport := TransportUdp 1 example_client.
Definition example_env : Env :=
  mkEnv 10 1000 (Some (mkEndpoint 7 (mkSocketAddr (V4 0xC0000201) 60000))) true true.

(** A request with the long-term credential of user "2000:a", signed. *)
Definition example_request (method : Z) (txid : Z) (attributes : list (Z * bytes)) : bytes :=
  match issue example_nonces example_client 10, credential_key (verifier example_config) (text "2000:a") with
  | Ok nonce, Ok key =>
      match MessageBuilder_finish
        (foldl (fun b tv => MessageBuilder_attribute b tv.1 tv.2)
           (MessageBuilder_new (message_type method CLASS_REQUEST) (replicate 12 txid))
           ([(ATTR_USERNAME, text "2000:a"); (ATTR_REALM, text "siphon"); (ATTR_NONCE, nonce)] ++ attributes)%list)
        (Some key) true with
      | Ok raw => raw
      | _ => []
      end
  | _, _ => []
  end.

Definition example_allocate : bytes :=
  example_request METHOD_ALLOCATE 1 [(ATTR_REQUESTED_TRANSPORT, requested_transport_value TRANSPORT_UDP)].
Definition example_bind : bytes :=
  example_request METHOD_CHANNEL_BIND 2
    [(ATTR_CHANNEL_NUMBER, channel_number_value 0x4001);
     (ATTR_XOR_PEER_ADDRESS, xor_address_value example_peer (replicate 12 2))].

Definition example_session : list (Message * Env) :=
  [(Client example_tuple example_reply example_allocate, example_env);
   (Client example_tuple example_reply example_bind, example_env);
   (Client example_tuple example_reply (encode_channel_data 0x4001 [1; 2; 3] false), example_env);
   (RelayInbound 7 example_peer [4; 5], example_env);
   (Count, example_env);
   (Tick, mkEnv 611 1601 None true true);
   (Count, example_env)].

(** The calls of a session, responses elided. *)
Definition call_of (e : Effect) : Effect := match e with SendClient t m => SendClient t (take 2 m) | e => e end.

(** An authenticated client allocates, binds a channel, exchanges data with its
    peer, and is reaped at the end of its lifetime; the fast-path route and the
    relay endpoint go with it. *)
Example turn_session :
  let route := route_of example_tuple (mkSocketAddr (V4 0xC0000201) 60000) 0x4001 example_peer in
  match run example_config example_nonces AllocationManager_new example_session with
  | Ok (st, es) => call_of <$> es =
      [AllocEndpoint 7; InstallRedirect 7; SendClient example_reply [1; 3]; InstallChannel route;
       SendClient example_reply [1; 9]; SendPeer 7 example_peer [1; 2; 3]; SendClient example_reply [64; 1];
       ReplyCount 1; RemoveChannel route; RemoveEndpoint 7; ReplyCount 0]
  | _ => False
  end.
Proof. vm_compute. reflexivity. Qed.

(** ** Theorems *)

(** C3. In every state the TURN server can reach, whatever clients and peers
    send and however the datapath answers, the next message is handled without a
    panic, and: channels and peers are in bijection per allocation, within the
    legal range and never towards a denied address; no allocation has relayed
    more than the cap; each relay endpoint belongs to exactly one allocation;
    each user's quota counter is the number of that user's live allocations and
    within the limit; the endpoints the datapath holds open are exactly those of
    live allocations; and the kernel fast path holds exactly the routes of the
    live channels of UDP allocations. *)
Theorem turn_server_invariant config nonce_factory st w env message :
  config_ok config -> reachable config nonce_factory st w -> env_ok w env -> message_ok message ->
  manager_inv config st w /\
  exists st' es, handle config nonce_factory st env message = Ok (st', es) /\
    manager_inv config st' (apply_effects w es).
Proof.
  intros Hcfg Hr Henv Hm. pose proof (reachable_inv config nonce_factory st w Hcfg Hr) as Hi.
  split; [done|]. by apply handle_good.
Qed.

Lemma turn_server_invariant_witness :
  exists st' es, handle example_config example_nonces AllocationManager_new example_env
      (Client example_tuple example_reply example_allocate) = Ok (st', es) /\
    manager_inv example_config st' (apply_effects world_new es).
Proof.
  apply (turn_server_invariant example_config example_nonces AllocationManager_new world_new example_env
    (Client example_tuple example_reply example_allocate)).
  - intros cap [= <-]. lia.
  - constructor.
  - intros e _. apply not_elem_of_empty.
  - cbn [message_ok]. unfold bytes_ok. vm_compute. forall_list; vm_compute; split; congruence.
Defined.

(** C8. The relay is never open: a datagram leaves towards a peer only from the
    relay endpoint of the allocation of the client's own five-tuple, only towards
    an address the policy permits, only under an unexpired permission or an
    unexpired channel bound to that very peer, and within the byte cap; a peer's
    datagram reaches a client only through the allocation that owns the endpoint
    it arrived on, under the same conditions, as ChannelData on the peer's live
    channel or as a Data indication. *)
Theorem turn_relay_gated config nonce_factory st env :
  (forall ft transport dg st' es rid peer d,
    handle config nonce_factory st env (Client ft transport dg) = Ok (st', es) -> SendPeer rid peer d ∈ es ->
    exists a, am_allocations st !! ft = Some a /\ rid = ep_id (al_relay a) /\
      may_send config a (now_ticks env) peer /\ within_budget config st ft (len d) = true) /\
  (forall endpoint peer d st' es,
    handle config nonce_factory st env (RelayInbound endpoint peer d) = Ok (st', es) -> es <> [] ->
    exists ft a m, am_relay_index st !! endpoint = Some ft /\ am_allocations st !! ft = Some a /\
      es = [SendClient (al_transport a) m] /\ permitted a (now_ticks env) (sa_ip peer) = true /\
      permits (tc_denied_peers config) (sa_ip peer) = true /\ within_budget config st ft (len d) = true /\
      delivered st a (now_ticks env) peer d m).
Proof.
  split.
  - intros ft transport dg st' es rid peer d Hh Hin. by eapply client_send_gated.
  - intros endpoint peer d st' es Hh Hne. by eapply inbound_gated.
Qed.

(** C10. Nothing is granted without credentials: when a client datagram does not
    carry a request that authenticates, the allocation table, its permissions,
    channels and lifetimes, the relay index and the quotas are as before, byte
    counters of existing allocations apart, and no endpoint, flow or kernel route
    is opened or closed. *)
Theorem turn_needs_credentials config nonce_factory st env ft transport dg st' es :
  (forall m u key, parse dg = Ok m ->
    authenticate (verifier config) m dg (now_unix env) nonce_factory (now_ticks env) (ft_client ft) <>
      Ok (AuthOk u key)) ->
  handle config nonce_factory st env (Client ft transport dg) = Ok (st', es) -> untouched st st' es.
Proof. apply client_untouched. Qed.

(** An Allocate without credentials: challenged, and nothing is allocated. *)
Lemma turn_needs_credentials_witness :
  let dg := stun_header (message_type METHOD_ALLOCATE CLASS_REQUEST) 0 (replicate 12 5) in
  match handle example_config example_nonces AllocationManager_new example_env (Client example_tuple example_reply dg) with
  | Ok (st', es) => untouched AllocationManager_new st' es /\ call_of <$> es = [SendClient example_reply [1; 19]]
  | _ => False
  end.
Proof.
  intros dg. destruct (handle _ _ _ _ _) as [[st' es]| |] eqn:Hh; [|vm_compute in Hh; discriminate Hh..].
  split.
  - apply (turn_needs_credentials example_config example_nonces AllocationManager_new example_env example_tuple
      example_reply dg st' es); [|exact Hh]. intros m u key Hp. vm_compute in Hp. injection Hp as <-.
    vm_compute. discriminate.
  - vm_compute in Hh. injection Hh as <- <-. reflexivity.
Defined.
