(* ===== verification/TurnClient.v ===== *)
(** * The TURN client: crates/siphon-rtp-stun/src/turn_client.rs

    One allocation as a state machine: the unauthenticated probe and the challenge,
    the credentialed Allocate, refreshes, permissions and channels.  [poll] and
    [on_datagram] are functions from the client's state to their result and the new
    state; the clock and the random transaction ids are arguments.  Building a
    request can panic in the model only where [MessageBuilder] could. *)

From Stdlib Require Import String Ascii List.
From S2P Require Import Prelude Utf8 Crypto Stun Turn StunClient TurnAuth TurnServer.
From stdpp Require Import base list numbers option sets gmap.
From Stdlib Require Import Lia ZArith.

Open Scope Z_scope.

Definition DEFAULT_LIFETIME_SECONDS : Z := 600.
Definition STREAM_REQUEST_TIMEOUT_MS : Z := 39500.
Definition REFRESH_AT_PERCENT : Z := 75.
Definition PERMISSION_LIFETIME_SECONDS : Z := 300.
Definition CHANNEL_LIFETIME_SECONDS : Z := 600.
Definition FIRST_CHANNEL : Z := MIN_CHANNEL_NUMBER.
Definition U64_MAX : Z := 2 ^ 64 - 1.

Record TurnCredentials : Type := mkTurnCredentials { tc_username : bytes; tc_password : bytes }.

Inductive TurnAction : Type := Idle | SendServer (datagram : bytes).

Inductive TurnFailure : Type :=
| TimedOut
| Rejected (code : Z) (reason : bytes)
| Malformed (what : bytes)
| TransportClosed
| NoRandomness.

Inductive TurnState : Type :=
| Allocating
| Allocated (relayed : SocketAddr) (mapped : option SocketAddr)
| TurnFailed (failure : TurnFailure)
| Closed.

(** [Pending] *)
Inductive PendingRequest : Type :=
| AllocateProbe
| Allocate
| Refresh (lifetime : Z)
| CreatePermission (peer : SocketAddr)
| ChannelBind (peer : SocketAddr) (channel : Z).

#[export] Instance PendingRequest_eq_dec : EqDecision PendingRequest.
Proof. solve_decision. Defined.

Record InFlight : Type := mkInFlight { if_transaction : Transaction; if_datagram : bytes; if_pending : PendingRequest }.

Record PeerBinding : Type := mkPeerBinding {
  pb_peer : SocketAddr;
  pb_channel : option Z;
  pb_permission_refresh_at_ms : Z;
  pb_channel_refresh_at_ms : Z;
  pb_permitted : bool
}.

Record TurnClient : Type := mkTurnClient {
  tu_server : SocketAddr;
  tu_credentials : TurnCredentials;
  tu_state : TurnState;
  tu_realm : option bytes;
  tu_nonce : option bytes;
  tu_in_flight : option InFlight;
  tu_queue : list PendingRequest;
  tu_peers : list PeerBinding;
  tu_next_channel : Z;
  tu_refresh_at_ms : Z;
  tu_schedule : RetransmitSchedule;
  tu_reliable : bool;
  tu_granted_lifetime : Z;
  tu_stale_nonce_retried : bool
}.

(** ** Assignments to the client's fields *)

Definition set_turn_state (c : TurnClient) (state : TurnState) : TurnClient :=
  mkTurnClient (tu_server c) (tu_credentials c) state (tu_realm c) (tu_nonce c) (tu_in_flight c) (tu_queue c) (tu_peers c)
    (tu_next_channel c) (tu_refresh_at_ms c) (tu_schedule c) (tu_reliable c) (tu_granted_lifetime c) (tu_stale_nonce_retried c).
Definition set_challenge (c : TurnClient) (realm nonce : option bytes) : TurnClient :=
  mkTurnClient (tu_server c) (tu_credentials c) (tu_state c) realm nonce (tu_in_flight c) (tu_queue c) (tu_peers c)
    (tu_next_channel c) (tu_refresh_at_ms c) (tu_schedule c) (tu_reliable c) (tu_granted_lifetime c) (tu_stale_nonce_retried c).
Definition set_in_flight (c : TurnClient) (in_flight : option InFlight) : TurnClient :=
  mkTurnClient (tu_server c) (tu_credentials c) (tu_state c) (tu_realm c) (tu_nonce c) in_flight (tu_queue c) (tu_peers c)
    (tu_next_channel c) (tu_refresh_at_ms c) (tu_schedule c) (tu_reliable c) (tu_granted_lifetime c) (tu_stale_nonce_retried c).
Definition set_queue (c : TurnClient) (queue : list PendingRequest) : TurnClient :=
  mkTurnClient (tu_server c) (tu_credentials c) (tu_state c) (tu_realm c) (tu_nonce c) (tu_in_flight c) queue (tu_peers c)
    (tu_next_channel c) (tu_refresh_at_ms c) (tu_schedule c) (tu_reliable c) (tu_granted_lifetime c) (tu_stale_nonce_retried c).
Definition set_peers (c : TurnClient) (peers : list PeerBinding) : TurnClient :=
  mkTurnClient (tu_server c) (tu_credentials c) (tu_state c) (tu_realm c) (tu_nonce c) (tu_in_flight c) (tu_queue c) peers
    (tu_next_channel c) (tu_refresh_at_ms c) (tu_schedule c) (tu_reliable c) (tu_granted_lifetime c) (tu_stale_nonce_retried c).
Definition set_next_channel (c : TurnClient) (channel : Z) : TurnClient :=
  mkTurnClient (tu_server c) (tu_credentials c) (tu_state c) (tu_realm c) (tu_nonce c) (tu_in_flight c) (tu_queue c) (tu_peers c)
    channel (tu_refresh_at_ms c) (tu_schedule c) (tu_reliable c) (tu_granted_lifetime c) (tu_stale_nonce_retried c).
Definition set_refresh_at (c : TurnClient) (ms : Z) : TurnClient :=
  mkTurnClient (tu_server c) (tu_credentials c) (tu_state c) (tu_realm c) (tu_nonce c) (tu_in_flight c) (tu_queue c) (tu_peers c)
    (tu_next_channel c) ms (tu_schedule c) (tu_reliable c) (tu_granted_lifetime c) (tu_stale_nonce_retried c).
Definition set_granted (c : TurnClient) (seconds : Z) : TurnClient :=
  mkTurnClient (tu_server c) (tu_credentials c) (tu_state c) (tu_realm c) (tu_nonce c) (tu_in_flight c) (tu_queue c) (tu_peers c)
    (tu_next_channel c) (tu_refresh_at_ms c) (tu_schedule c) (tu_reliable c) seconds (tu_stale_nonce_retried c).
Definition set_stale_retried (c : TurnClient) (retried : bool) : TurnClient :=
  mkTurnClient (tu_server c) (tu_credentials c) (tu_state c) (tu_realm c) (tu_nonce c) (tu_in_flight c) (tu_queue c) (tu_peers c)
    (tu_next_channel c) (tu_refresh_at_ms c) (tu_schedule c) (tu_reliable c) (tu_granted_lifetime c) retried.

(** ** Construction and queries *)

Definition TurnClient_new (server : SocketAddr) (credentials : TurnCredentials) (rto_ms : Z) : TurnClient :=
  mkTurnClient server credentials Allocating None None None [AllocateProbe] [] FIRST_CHANNEL U64_MAX
    (RetransmitSchedule_new rto_ms) false DEFAULT_LIFETIME_SECONDS false.

Definition TurnClient_new_reliable (server : SocketAddr) (credentials : TurnCredentials) : TurnClient :=
  let c := TurnClient_new server credentials STREAM_REQUEST_TIMEOUT_MS in
  mkTurnClient (tu_server c) (tu_credentials c) (tu_state c) (tu_realm c) (tu_nonce c) (tu_in_flight c) (tu_queue c) (tu_peers c)
    (tu_next_channel c) (tu_refresh_at_ms c) (RetransmitSchedule_reliable STREAM_REQUEST_TIMEOUT_MS) true (tu_granted_lifetime c)
    (tu_stale_nonce_retried c).

Definition is_terminal (c : TurnClient) : bool := match tu_state c with TurnFailed _ | Closed => true | _ => false end.
Definition is_allocated (c : TurnClient) : bool := match tu_state c with Allocated _ _ => true | _ => false end.
Definition is_challenged (c : TurnClient) : bool := match tu_realm c with Some _ => true | None => false end.

Definition relayed_address (c : TurnClient) : option SocketAddr :=
  match tu_state c with Allocated relayed _ => Some relayed | _ => None end.
Definition mapped_address (c : TurnClient) : option SocketAddr :=
  match tu_state c with Allocated _ mapped => mapped | _ => None end.

Definition channel_for (c : TurnClient) (peer : SocketAddr) : option Z :=
  binding ← List.find (fun b => bool_decide (pb_peer b = peer)) (tu_peers c); pb_channel binding.

Definition peer_for_channel (c : TurnClient) (channel : Z) : option SocketAddr :=
  pb_peer <$> List.find (fun b => bool_decide (pb_channel b = Some channel)) (tu_peers c).

Definition may_send_to (c : TurnClient) (peer : SocketAddr) : bool :=
  existsb (fun b => bool_decide (pb_peer b = peer) && pb_permitted b) (tu_peers c).

Definition on_transport_closed (c : TurnClient) : TurnClient :=
  if is_terminal c then c else set_turn_state (set_in_flight c None) (TurnFailed TransportClosed).

(** ** Requests *)

Definition add_peer (c : TurnClient) (peer : SocketAddr) : TurnClient :=
  if existsb (fun b => bool_decide (pb_peer b = peer)) (tu_peers c) then c else
  let c := set_peers c (tu_peers c ++ [mkPeerBinding peer None U64_MAX U64_MAX false]) in
  set_queue c (tu_queue c ++ [CreatePermission peer]).

Definition is_delete (p : PendingRequest) : bool := bool_decide (p = Refresh 0).

Definition close (c : TurnClient) : TurnClient :=
  if is_terminal c then c else
  let c := match tu_in_flight c with
           | Some in_flight => if negb (is_delete (if_pending in_flight)) then set_in_flight c None else c
           | None => c
           end in
  set_queue c (List.filter is_delete (tu_queue c) ++ [Refresh 0]).

(** One binding of the maintenance walk: the binding left and the request due. *)
Definition maintain (now_ms : Z) (b : PeerBinding) : PeerBinding * list PendingRequest :=
  match pb_channel b with
  | Some channel =>
      if Z.min (pb_permission_refresh_at_ms b) (pb_channel_refresh_at_ms b) <=? now_ms then
        (mkPeerBinding (pb_peer b) (pb_channel b) U64_MAX U64_MAX (pb_permitted b), [ChannelBind (pb_peer b) channel])
      else (b, [])
  | None =>
      if pb_permission_refresh_at_ms b <=? now_ms then
        (mkPeerBinding (pb_peer b) (pb_channel b) U64_MAX (pb_channel_refresh_at_ms b) (pb_permitted b),
         [CreatePermission (pb_peer b)])
      else (b, [])
  end.

Definition enqueue_due_maintenance (c : TurnClient) (now_ms : Z) : TurnClient :=
  if negb (is_allocated c) then c else
  let c := if tu_refresh_at_ms c <=? now_ms
           then set_queue (set_refresh_at c U64_MAX) (tu_queue c ++ [Refresh (tu_granted_lifetime c)]) else c in
  let maintained := map (maintain now_ms) (tu_peers c) in
  set_queue (set_peers c (map fst maintained)) (tu_queue c ++ concat (map snd maintained)).

Definition next_request (c : TurnClient) : option PendingRequest * TurnClient :=
  match tu_queue c with [] => (None, c) | p :: queue => (Some p, set_queue c queue) end.

Definition with_credentials (c : TurnClient) (builder : bytes) : res StunError bytes :=
  match tu_realm c, tu_nonce c with
  | Some realm, Some nonce =>
      let key := long_term_key (tc_username (tu_credentials c)) realm (tc_password (tu_credentials c)) in
      MessageBuilder_finish
        (MessageBuilder_attribute
           (MessageBuilder_attribute
              (MessageBuilder_attribute builder ATTR_USERNAME (tc_username (tu_credentials c)))
              ATTR_REALM realm)
           ATTR_NONCE nonce)
        (Some key) false
  | _, _ => MessageBuilder_finish builder None false
  end.

Definition build (c : TurnClient) (pending : PendingRequest) (id : bytes) : res StunError bytes :=
  let request method := MessageBuilder_new (message_type method CLASS_REQUEST) id in
  let builder :=
    match pending with
    | AllocateProbe | Allocate =>
        MessageBuilder_attribute
          (MessageBuilder_attribute (request METHOD_ALLOCATE) ATTR_REQUESTED_TRANSPORT (requested_transport_value TRANSPORT_UDP))
          ATTR_LIFETIME (lifetime_value DEFAULT_LIFETIME_SECONDS)
    | Refresh lifetime => MessageBuilder_attribute (request METHOD_REFRESH) ATTR_LIFETIME (lifetime_value lifetime)
    | CreatePermission peer =>
        MessageBuilder_attribute (request METHOD_CREATE_PERMISSION) ATTR_XOR_PEER_ADDRESS (xor_address_value peer id)
    | ChannelBind peer channel =>
        MessageBuilder_attribute
          (MessageBuilder_attribute (request METHOD_CHANNEL_BIND) ATTR_CHANNEL_NUMBER (channel_number_value channel))
          ATTR_XOR_PEER_ADDRESS (xor_address_value peer id)
    end in
  match pending with
  | AllocateProbe => MessageBuilder_finish builder None false
  | _ => with_credentials c builder
  end.

(** [random_id]: what [TransactionId::new] draws, [None] when the RNG fails. *)
Definition start (c : TurnClient) (pending : PendingRequest) (now_ms : Z) (random_id : option bytes)
  : res StunError (TurnAction * TurnClient) :=
  match random_id with
  | None => mret (Idle, set_turn_state c (TurnFailed NoRandomness))
  | Some id =>
      datagram ← build c pending id;
      let transaction := Transaction_start id (tu_schedule c) now_ms in
      mret (SendServer datagram, set_in_flight c (Some (mkInFlight transaction datagram pending)))
  end.

Definition poll (c : TurnClient) (now_ms : Z) (random_id : option bytes) : res StunError (TurnAction * TurnClient) :=
  if is_terminal c then mret (Idle, c) else
  match tu_in_flight c with
  | Some in_flight =>
      let '(action, transaction) := Transaction_poll (if_transaction in_flight) now_ms in
      let in_flight := mkInFlight transaction (if_datagram in_flight) (if_pending in_flight) in
      match action with
      | Wait => mret (Idle, set_in_flight c (Some in_flight))
      | Retransmit _ => mret (SendServer (if_datagram in_flight), set_in_flight c (Some in_flight))
      | Failed => mret (Idle, set_turn_state (set_in_flight c None) (TurnFailed TimedOut))
      end
  | None =>
      let c := enqueue_due_maintenance c now_ms in
      match next_request c with
      | (None, c) => mret (Idle, c)
      | (Some pending, c) => start c pending now_ms random_id
      end
  end.

(** ** Responses *)

Definition take_channel_number (c : TurnClient) : Z * TurnClient :=
  (tu_next_channel c, set_next_channel c (Z.min (saturating_add 16 (tu_next_channel c) 1) MAX_CHANNEL_NUMBER)).

Definition refresh_interval_ms (lifetime_seconds : Z) : Z :=
  saturating_mul 64 (saturating_mul 64 lifetime_seconds 1000) REFRESH_AT_PERCENT / 100.

Definition arm_refresh (c : TurnClient) (now_ms : Z) : TurnClient :=
  set_refresh_at c (saturating_add 64 now_ms (refresh_interval_ms (tu_granted_lifetime c))).

Definition error_reason (message : StunMessage) : bytes :=
  default [] (value ← attribute message ATTR_ERROR_CODE; rest ← get_range value 4 (len value); from_utf8 rest).

Definition finish_allocation (c : TurnClient) (message : StunMessage) : res StunError TurnClient :=
  relayed ← xor_relayed_address message;
  match relayed with
  | None => mret (set_turn_state c (TurnFailed (Malformed (text "Allocate success without XOR-RELAYED-ADDRESS"))))
  | Some relayed =>
      let c := match lifetime message with Some granted => set_granted c granted | None => c end in
      mapped ← xor_mapped_address message;
      mret (set_turn_state c (Allocated relayed mapped))
  end.

(** [self.peers.iter_mut().find(..)]: the first binding of the peer, changed. *)
Fixpoint update_peer (peers : list PeerBinding) (peer : SocketAddr) (f : PeerBinding -> PeerBinding) : list PeerBinding :=
  match peers with
  | [] => []
  | b :: peers => if bool_decide (pb_peer b = peer) then f b :: peers else b :: update_peer peers peer f
  end.

Definition find_peer (c : TurnClient) (peer : SocketAddr) : option PeerBinding :=
  List.find (fun b => bool_decide (pb_peer b = peer)) (tu_peers c).

Definition on_success (c : TurnClient) (pending : PendingRequest) (message : StunMessage) (now_ms : Z) : res StunError TurnClient :=
  match pending with
  | AllocateProbe | Allocate => c ← finish_allocation c message; mret (arm_refresh c now_ms)
  | Refresh lifetime_ =>
      if lifetime_ =? 0 then mret (set_turn_state c Closed) else
      let c := match lifetime message with Some granted => set_granted c granted | None => c end in
      mret (arm_refresh c now_ms)
  | CreatePermission peer =>
      let refresh_at := saturating_add 64 now_ms (refresh_interval_ms PERMISSION_LIFETIME_SECONDS) in
      let c' := set_peers c (update_peer (tu_peers c) peer (fun b =>
                  mkPeerBinding (pb_peer b) (pb_channel b) refresh_at (pb_channel_refresh_at_ms b) true)) in
      match find_peer c peer with
      | Some binding =>
          match pb_channel binding with
          | None => let '(channel, c') := take_channel_number c' in
                    mret (set_queue c' (tu_queue c' ++ [ChannelBind peer channel]))
          | Some _ => mret c'
          end
      | None => mret c'
      end
  | ChannelBind peer channel =>
      let refresh_at := saturating_add 64 now_ms (refresh_interval_ms CHANNEL_LIFETIME_SECONDS) in
      mret (set_peers c (update_peer (tu_peers c) peer (fun b =>
        mkPeerBinding (pb_peer b) (Some channel)
          (saturating_add 64 now_ms (refresh_interval_ms PERMISSION_LIFETIME_SECONDS)) refresh_at true)))
  end.

Definition retry (c : TurnClient) (pending : PendingRequest) : TurnClient :=
  let c := set_stale_retried c true in set_queue c (pending :: tu_queue c).

(** The errors that are neither the challenge nor a stale nonce. *)
Definition on_rejection (c : TurnClient) (pending : PendingRequest) (code : Z) (reason : bytes) : TurnClient :=
  match pending with
  | AllocateProbe | Allocate | Refresh _ => set_turn_state c (TurnFailed (Rejected code reason))
  | CreatePermission peer => set_peers c (List.filter (fun b => negb (bool_decide (pb_peer b = peer))) (tu_peers c))
  | ChannelBind peer _ =>
      set_peers c (update_peer (tu_peers c) peer (fun b =>
        mkPeerBinding (pb_peer b) None (pb_permission_refresh_at_ms b) (pb_channel_refresh_at_ms b) (pb_permitted b)))
  end.

Definition on_error (c : TurnClient) (pending : PendingRequest) (message : StunMessage) : TurnClient :=
  let code := default 0 (error_code message) in
  let reason := error_reason message in
  if (code =? ERROR_UNAUTHORIZED) && bool_decide (pending = AllocateProbe) then
    match realm message, nonce message with
    | Some realm, Some nonce =>
        let c := set_challenge c (Some realm) (Some nonce) in set_queue c (Allocate :: tu_queue c)
    | _, _ => set_turn_state c (TurnFailed (Malformed (text "401 challenge without REALM/NONCE")))
    end
  else if (code =? ERROR_STALE_NONCE) && negb (tu_stale_nonce_retried c) then
    match nonce message with
    | None => set_turn_state c (TurnFailed (Malformed (text "438 Stale Nonce without a NONCE")))
    | Some nonce =>
        retry (set_challenge c (match realm message with Some realm => Some realm | None => tu_realm c end) (Some nonce)) pending
    end
  else on_rejection c pending code reason.

Definition on_datagram (c : TurnClient) (datagram : bytes) (now_ms : Z) : res StunError (bool * TurnClient) :=
  if is_terminal c then mret (false, c) else
  match parse datagram with
  | Panic => Panic
  | Err _ => mret (false, c)
  | Ok message =>
      match tu_in_flight c with
      | None => mret (false, c)
      | Some in_flight =>
          if negb (bool_decide (sm_transaction_id message = tx_id (if_transaction in_flight))) then mret (false, c) else
          let class := class_of (sm_message_type message) in
          let pending := if_pending in_flight in
          let c := set_in_flight c None in
          if class =? CLASS_SUCCESS then
            c ← on_success (set_stale_retried c false) pending message now_ms; mret (true, c)
          else if class =? CLASS_ERROR then mret (true, on_error c pending message)
          else mret (true, set_turn_state c (TurnFailed (Malformed (text "unexpected message class"))))
      end
  end.

(** * Proofs *)

(** ** Channels *)

(** The bindings of a peer to a channel the client holds, asks for or will ask for. *)
Definition request_claim (p : PendingRequest) : list (SocketAddr * Z) :=
  match p with ChannelBind peer channel => [(peer, channel)] | _ => [] end.

Definition binding_claim (b : PeerBinding) : list (SocketAddr * Z) :=
  match pb_channel b with Some channel => [(pb_peer b, channel)] | None => [] end.

Definition claims (c : TurnClient) : list (SocketAddr * Z) :=
  concat (map binding_claim (tu_peers c)) ++ concat (map request_claim (tu_queue c)) ++
  match tu_in_flight c with Some f => request_claim (if_pending f) | None => [] end.

(** Until the numbers run out every number handed out belongs to one peer. *)
Record client_ok (c : TurnClient) : Prop := {
  co_peers : NoDup (pb_peer <$> tu_peers c);
  co_next : MIN_CHANNEL_NUMBER <= tu_next_channel c <= MAX_CHANNEL_NUMBER;
  co_range : forall p ch, (p, ch) ∈ claims c -> MIN_CHANNEL_NUMBER <= ch <= MAX_CHANNEL_NUMBER;
  co_fresh : tu_next_channel c < MAX_CHANNEL_NUMBER -> forall p ch, (p, ch) ∈ claims c -> ch < tu_next_channel c;
  co_owner : tu_next_channel c < MAX_CHANNEL_NUMBER -> forall p q ch, (p, ch) ∈ claims c -> (q, ch) ∈ claims c -> p = q;
  co_challenge : is_Some (tu_realm c) -> is_Some (tu_nonce c)
}.

(** A step that asks for nothing new. *)
Lemma ok_fewer_claims c c' : client_ok c -> NoDup (pb_peer <$> tu_peers c') -> tu_next_channel c' = tu_next_channel c ->
  (is_Some (tu_realm c') -> is_Some (tu_nonce c')) -> (forall x, x ∈ claims c' -> x ∈ claims c) -> client_ok c'.
Proof.
  intros [H1 H2 H3 H4 H5 H6] Hd Hn Hch Hsub. constructor; rewrite ?Hn; eauto.
Qed.

Lemma elem_claims c x : x ∈ claims c <->
  (exists b, b ∈ tu_peers c /\ x ∈ binding_claim b) \/ (exists p, p ∈ tu_queue c /\ x ∈ request_claim p) \/
  (exists f, tu_in_flight c = Some f /\ x ∈ request_claim (if_pending f)).
Proof.
  unfold claims. rewrite !elem_of_app. 
  assert (forall A (f : A -> list (SocketAddr * Z)) l, x ∈ concat (map f l) <-> exists a, a ∈ l /\ x ∈ f a) as Hc.
  { intros A f l. rewrite list_elem_of_In, in_concat. setoid_rewrite in_map_iff. split.
    - intros (y & (a & <- & Ha) & Hx). exists a. by rewrite ?list_elem_of_In in *.
    - intros (a & Ha & Hx). exists (f a). rewrite ?list_elem_of_In in *. split; [by exists a|done]. }
  rewrite !Hc. assert (x ∈ match tu_in_flight c with Some f => request_claim (if_pending f) | None => [] end <->
    exists f, tu_in_flight c = Some f /\ x ∈ request_claim (if_pending f)) as ->; [|done].
  destruct (tu_in_flight c) as [f|]; [|set_solver]. split; [by exists f|]. by intros (f' & [= <-] & H).
Qed.

Lemma update_peer_peers peers peer f : (forall b, pb_peer (f b) = pb_peer b) ->
  pb_peer <$> update_peer peers peer f = pb_peer <$> peers.
Proof.
  intros Hf. induction peers as [|b peers IH]; [done|]. cbn [update_peer]. case_bool_decide; rewrite !fmap_cons, ?Hf; [done|].
  by rewrite IH.
Qed.

Lemma elem_update_peer peers peer f b : b ∈ update_peer peers peer f -> b ∈ peers \/ exists b', b' ∈ peers /\ b = f b' /\ pb_peer b' = peer.
Proof.
  induction peers as [|b0 peers IH]; cbn [update_peer]; [by left|]. case_bool_decide; rewrite elem_of_cons.
  - intros [->|H1]; [right; exists b0; set_solver|left; set_solver].
  - intros [->|H1]; [left; set_solver|]. destruct (IH H1) as [?|(b' & ? & ?)]; [left; set_solver|right; exists b'; set_solver].
Qed.

Lemma find_peer_Some c peer b : find_peer c peer = Some b -> b ∈ tu_peers c /\ pb_peer b = peer.
Proof. intros [H1 H2%bool_decide_eq_true]%find_some. by rewrite list_elem_of_In. Qed.

Lemma find_peer_None c peer : find_peer c peer = None -> forall b, b ∈ tu_peers c -> pb_peer b <> peer.
Proof.
  intros H b Hb Hp. apply list_elem_of_In in Hb. by pose proof (find_none _ _ H b Hb) as Hn%bool_decide_eq_false.
Qed.

(** The maintenance walk asks only for what a binding holds. *)
Lemma maintain_spec now b : pb_peer (fst (maintain now b)) = pb_peer b /\ pb_channel (fst (maintain now b)) = pb_channel b /\
  forall p, p ∈ snd (maintain now b) -> forall x, x ∈ request_claim p -> x ∈ binding_claim b.
Proof.
  unfold maintain. destruct (pb_channel b) as [ch|] eqn:E.
  - destruct (_ <=? _); cbn; rewrite ?E; (split; [done|]; split; [done|]); intros p Hp; [|set_solver].
    apply list_elem_of_singleton in Hp as ->. unfold binding_claim. by rewrite E.
  - destruct (_ <=? _); cbn; rewrite ?E; (split; [done|]; split; [done|]); intros p Hp; [|set_solver].
    apply list_elem_of_singleton in Hp as ->. set_solver.
Qed.

Lemma maintain_peers now l : pb_peer <$> map fst (map (maintain now) l) = pb_peer <$> l.
Proof. induction l as [|b l IH]; [done|]. cbn [map]. rewrite !fmap_cons, IH. by destruct (maintain_spec now b) as [-> _]. Qed.

Lemma enqueue_ok c now : client_ok c -> client_ok (enqueue_due_maintenance c now).
Proof.
  intros Hok. unfold enqueue_due_maintenance. destruct (negb _); [done|]. cbv zeta.
  set (c1 := if _ <=? _ then _ else c). assert (client_ok c1) as H1.
  { unfold c1. destruct (_ <=? _); [|done]. apply (ok_fewer_claims c); [done|apply Hok|done|apply Hok|].
    intros x. rewrite !elem_claims. cbn. intros [?|[(p & [?|Hp]%elem_of_app & Hx)|?]]; [by left|right; left; by exists p| |by right; right].
    apply list_elem_of_singleton in Hp as ->. set_solver. }
  apply (ok_fewer_claims c1); [done| |done|apply H1|].
  - cbn [tu_peers set_peers set_queue]. rewrite maintain_peers. apply H1.
  - intros x. rewrite !elem_claims. cbn. intros [(b & Hb & Hx)|[(p & [?|Hp]%elem_of_app & Hx)|?]]; [| | |by right; right].
    + apply list_elem_of_fmap in Hb as (y & -> & (b' & -> & Hb')%list_elem_of_fmap). left. exists b'. split; [done|].
      destruct (maintain_spec now b') as (E1 & E2 & _). unfold binding_claim in *. by rewrite E1, E2 in Hx.
    + right. left. by exists p.
    + left. apply list_elem_of_In, in_concat in Hp as (l & Hl & Hp). apply in_map_iff in Hl as (y & <- & (b & <- & Hb)%in_map_iff).
      exists b. rewrite list_elem_of_In. split; [done|]. destruct (maintain_spec now b) as (_ & _ & Hm). eapply Hm; [|done]. by apply list_elem_of_In.
Qed.

(** ** Requests *)

Lemma build_total c p id : len id = 12 -> exists raw, build c p id = Ok raw.
Proof.
  intros Hid. assert (forall t, len (MessageBuilder_new t id) = 20) as Hn.
  { intros t. unfold MessageBuilder_new. rewrite !len_app, ?len_be_enc, Hid. reflexivity. }
  assert (forall b, 20 <= len b -> exists raw, with_credentials c b = Ok raw) as Hw.
  { intros b Hb. unfold with_credentials. destruct (tu_realm c), (tu_nonce c); apply finish_total; rewrite <- ?len_builder_attribute; lia. }
  unfold build. cbv zeta. destruct p; [apply finish_total|apply Hw..]; rewrite <- ?len_builder_attribute, Hn; lia.
Qed.

Definition turn_id_ok (id : option bytes) : Prop := forall b, id = Some b -> len b = 12.

Lemma poll_ok c now id : client_ok c -> turn_id_ok id ->
  exists act c', poll c now id = Ok (act, c') /\ client_ok c' /\ (is_terminal c = true -> tu_state c' = tu_state c).
Proof.
  intros Hok Hid. unfold poll. destruct (is_terminal c) eqn:Et; [by exists Idle, c|].
  assert (forall o, (forall f, o = Some f -> exists f', tu_in_flight c = Some f' /\ if_pending f' = if_pending f) ->
    forall s, client_ok (set_turn_state (set_in_flight c o) s)) as Hset.
  { intros o Ho s. apply (ok_fewer_claims c); [done|apply Hok|done|apply Hok|]. intros x. rewrite !elem_claims. cbn.
    intros [?|[?|(f & Hf & Hx)]]; [by left|by right; left|]. destruct (Ho f Hf) as (f' & Hf' & E). right; right. exists f'. by rewrite E. }
  destruct (tu_in_flight c) as [f|] eqn:Ef.
  - destruct (Transaction_poll _ _) as [act tx]. cbv zeta.
    assert (forall f', if_pending f = if_pending f' -> client_ok (set_in_flight c (Some f'))) as Hsf.
    { intros f' E. change (set_in_flight c (Some f')) with (set_turn_state (set_in_flight c (Some f')) (tu_state c)).
      apply Hset. intros ? [= <-]. by exists f. }
    destruct act; eexists _, _; (split; [reflexivity|]); (split; [|done]); [by apply Hsf|by apply Hsf|by apply Hset].
  - cbv zeta. pose proof (enqueue_ok c now Hok) as H1. set (c1 := enqueue_due_maintenance c now) in *.
    assert (tu_in_flight c1 = None) as E1. { unfold c1, enqueue_due_maintenance. destruct (negb _); [done|]. by destruct (_ <=? _). }
    unfold next_request. destruct (tu_queue c1) as [|p q] eqn:Eq; [by exists Idle, c1|].
    assert (forall o s, (forall f, o = Some f -> if_pending f = p) -> client_ok (set_turn_state (set_in_flight (set_queue c1 q) o) s)) as Hs.
    { intros o s Ho. apply (ok_fewer_claims c1); [done|apply H1|done|apply H1|]. intros x. rewrite !elem_claims. cbn. rewrite Eq.
      intros [?|[(p' & Hp & ?)|(f & Hf & Hx)]]; [by left|right; left; exists p'; set_solver|]. right; left. exists p. rewrite (Ho f Hf) in Hx. set_solver. }
    unfold start. destruct id as [id|].
    + destruct (build_total (set_queue c1 q) p id (Hid id eq_refl)) as [raw ->]. rewrite bind_Ok. eexists _, _. split; [reflexivity|]. split; [|done].
      match goal with |- client_ok ?x => change x with (set_turn_state x (tu_state c1)) end. apply Hs. by intros f [= <-].
    + eexists _, _. split; [reflexivity|]. split; [|done].
      apply (ok_fewer_claims c1); [done|apply H1|done|apply H1|]. intros x. rewrite !elem_claims. cbn. rewrite Eq, E1. set_solver.
Qed.

Lemma add_peer_ok c peer : client_ok c -> client_ok (add_peer c peer) /\ tu_state (add_peer c peer) = tu_state c.
Proof.
  intros Hok. unfold add_peer. destruct (existsb _ _) eqn:E; [done|]. split; [|done].
  apply (ok_fewer_claims c); [done| |done|apply Hok|].
  - cbn. rewrite fmap_app. apply NoDup_app. split; [apply Hok|]. split; [|by apply NoDup_singleton].
    intros p Hp Hq. apply list_elem_of_singleton in Hq as ->. apply list_elem_of_fmap in Hp as (b & Hb & Hin).
    assert (existsb (fun b => bool_decide (pb_peer b = peer)) (tu_peers c) = true) as E'; [|congruence].
    apply existsb_exists. exists b. rewrite <- list_elem_of_In. split; [done|]. by apply bool_decide_eq_true_2.
  - intros x. rewrite !elem_claims. cbn. intros [(b & [?|Hb]%elem_of_app & Hx)|[(p & [?|Hp]%elem_of_app & Hx)|?]].
    + left. by exists b.
    + apply list_elem_of_singleton in Hb as ->. cbn in Hx. set_solver.
    + right; left. by exists p.
    + apply list_elem_of_singleton in Hp as ->. cbn in Hx. set_solver.
    + by right; right.
Qed.

Lemma close_ok c : client_ok c -> client_ok (close c) /\ (is_terminal c = true -> tu_state (close c) = tu_state c).
Proof.
  intros Hok. unfold close. destruct (is_terminal c); [done|]. split; [|done]. cbv zeta.
  set (c1 := match tu_in_flight c with Some _ => _ | None => c end).
  assert (tu_peers c1 = tu_peers c /\ tu_queue c1 = tu_queue c /\ tu_next_channel c1 = tu_next_channel c /\ tu_realm c1 = tu_realm c /\
    tu_nonce c1 = tu_nonce c /\ (tu_in_flight c1 = None \/ tu_in_flight c1 = tu_in_flight c)) as (E1 & E2 & E3 & E4 & E5 & E6).
  { unfold c1. destruct (tu_in_flight c) as [f|] eqn:E; [destruct (negb _)|]; cbn; rewrite ?E; tauto. }
  clearbody c1. apply (ok_fewer_claims c); [done|cbn; rewrite E1; apply Hok|done|cbn; rewrite E4, E5; apply Hok|].
  intros x. rewrite !elem_claims. cbn. rewrite E1, E2. intros [?|[(p & [Hp|Hp]%elem_of_app & Hx)|(f & Hf & Hx)]]; [by left| | |].
  - right; left. exists p. apply list_elem_of_In, filter_In in Hp as [Hp _]. by rewrite list_elem_of_In.
  - apply list_elem_of_singleton in Hp as ->. cbn in Hx. set_solver.
  - right; right. exists f. rewrite <- Hf. destruct E6 as [E6|E6]; [congruence|]. by rewrite E6, Hf in *.
Qed.

(** ** Responses *)

(** The answered request gives its place to what follows it. *)
Lemma answered_claims c f c' x : tu_in_flight c = Some f -> tu_in_flight c' = None ->
  (forall b, b ∈ tu_peers c' -> forall y, y ∈ binding_claim b -> y ∈ claims c) ->
  (forall p, p ∈ tu_queue c' -> p ∈ tu_queue c \/ p = if_pending f \/ request_claim p = []) ->
  x ∈ claims c' -> x ∈ claims c.
Proof.
  intros Hf Hn Hb Hq. rewrite (elem_claims c'). intros [(b & H1 & H2)|[(p & H1 & H2)|(g & H1 & _)]].
  - by eapply Hb.
  - apply elem_claims. destruct (Hq p H1) as [?|[->|E]].
    + right; left. by exists p.
    + right; right. by exists f.
    + rewrite E in H2. set_solver.
  - congruence.
Qed.

Lemma same_binding c b x : b ∈ tu_peers c -> x ∈ binding_claim b -> x ∈ claims c.
Proof. intros. apply elem_claims. left. by exists b. Qed.

Lemma filter_peers_NoDup (g : PeerBinding -> bool) l : NoDup (pb_peer <$> l) -> NoDup (pb_peer <$> List.filter g l).
Proof.
  induction l as [|b l IH]; [done|]. cbn [List.filter]. rewrite fmap_cons, NoDup_cons. intros [H1 H2].
  destruct (g b); [|by apply IH]. rewrite fmap_cons, NoDup_cons. split; [|by apply IH]. intros Hin. apply H1.
  apply list_elem_of_fmap in Hin as (b' & E & Hb'). apply list_elem_of_fmap. exists b'. split; [done|].
  apply list_elem_of_In, filter_In in Hb' as [Hb' _]. by apply list_elem_of_In.
Qed.

Lemma on_error_ok c f m : client_ok c -> tu_in_flight c = Some f -> client_ok (on_error (set_in_flight c None) (if_pending f) m).
Proof.
  intros Hok Hf. pose proof Hok as [Hd _ _ _ _ Hch]. unfold on_error. cbv zeta.
  assert (forall c', tu_next_channel c' = tu_next_channel c -> tu_in_flight c' = None -> NoDup (pb_peer <$> tu_peers c') ->
    (is_Some (tu_realm c') -> is_Some (tu_nonce c')) ->
    (forall b, b ∈ tu_peers c' -> forall y, y ∈ binding_claim b -> y ∈ claims c) ->
    (forall p, p ∈ tu_queue c' -> p ∈ tu_queue c \/ p = if_pending f \/ request_claim p = []) -> client_ok c') as Hk.
  { intros c' H1 H2 H3 H4 H5 H6. apply (ok_fewer_claims c); [done..|]. intros x. by eapply answered_claims. }
  pose proof (same_binding c) as Hsb.
  destruct (_ && _).
  { destruct (realm m), (nonce m); (apply Hk; cbn; [done|done|done|by eauto|by eauto|]); try (intros p Hp; left; done).
    intros p [->|Hp]%elem_of_cons; [by right; right|by left]. }
  destruct (_ && _).
  { destruct (nonce m) as [n|]; (apply Hk; cbn; [done|done|done|by eauto|by eauto|]); [|intros p Hp; left; done].
    intros p [->|Hp]%elem_of_cons; [by right; left|by left]. }
  unfold on_rejection. destruct (if_pending f); apply Hk; cbn; try done; try (by eauto); try (intros p Hp; left; done).
  - by apply filter_peers_NoDup.
  - intros b Hb y Hy. apply list_elem_of_In, filter_In in Hb as [Hb _]. eapply Hsb; [by apply list_elem_of_In|done].
  - by rewrite update_peer_peers.
  - intros b [?|(b' & Hb' & -> & _)]%elem_update_peer y Hy; [by eauto|]. cbn in Hy. set_solver.
Qed.

Lemma finish_allocation_ok c m : exists c', finish_allocation c m = Ok c' /\ tu_peers c' = tu_peers c /\ tu_queue c' = tu_queue c /\
  tu_in_flight c' = tu_in_flight c /\ tu_next_channel c' = tu_next_channel c /\ tu_realm c' = tu_realm c /\ tu_nonce c' = tu_nonce c.
Proof.
  unfold finish_allocation. assert (forall t, exists o, xor_address m t = Ok o) as Hx.
  { intros t. unfold xor_address. destruct (attribute _ _); [apply decode_xor_total|by eexists]. }
  unfold xor_relayed_address. destruct (Hx ATTR_XOR_RELAYED_ADDRESS) as [[r|] ->]; rewrite bind_Ok; [|by eexists].
  assert (exists o, xor_mapped_address m = Ok o) as [o ->]. { unfold xor_mapped_address. destruct (attribute _ _); [apply decode_xor_total|by eexists]. }
  rewrite bind_Ok. eexists. split; [reflexivity|]. by destruct (lifetime m).
Qed.

Lemma on_success_ok c f m now : client_ok c -> tu_in_flight c = Some f ->
  exists c', on_success (set_stale_retried (set_in_flight c None) false) (if_pending f) m now = Ok c' /\ client_ok c'.
Proof.
  intros Hok Hf. pose proof Hok as [Hd Hnx _ _ _ Hch]. pose proof (same_binding c) as Hsb.
  set (c0 := set_stale_retried (set_in_flight c None) false).
  assert (forall c', tu_next_channel c' = tu_next_channel c -> tu_in_flight c' = None -> NoDup (pb_peer <$> tu_peers c') ->
    tu_realm c' = tu_realm c -> tu_nonce c' = tu_nonce c -> tu_queue c' = tu_queue c ->
    (forall b, b ∈ tu_peers c' -> forall y, y ∈ binding_claim b -> y ∈ claims c) -> client_ok c') as Hk.
  { intros c' H1 H2 H3 H4 H5 H6 H7. apply (ok_fewer_claims c); [done..|by rewrite H4, H5|]. intros x. eapply answered_claims; [done..|].
    rewrite H6. auto. }
  unfold on_success. destruct (if_pending f) as [| |l|peer|peer channel] eqn:Ep.
  - destruct (finish_allocation_ok c0 m) as (c1 & -> & E1 & E2 & E3 & E4 & E5 & E6). rewrite bind_Ok. eexists. split; [reflexivity|].
    apply Hk; cbn; rewrite ?E1, ?E2, ?E3, ?E4, ?E5, ?E6; try done. eauto.
  - destruct (finish_allocation_ok c0 m) as (c1 & -> & E1 & E2 & E3 & E4 & E5 & E6). rewrite bind_Ok. eexists. split; [reflexivity|].
    apply Hk; cbn; rewrite ?E1, ?E2, ?E3, ?E4, ?E5, ?E6; try done. eauto.
  - destruct (_ =? _); [eexists; split; [reflexivity|]; apply Hk; cbn; try done; by eauto|]. cbv zeta. eexists. split; [reflexivity|].
    destruct (lifetime m); apply Hk; cbn; try done; by eauto.
  - cbv zeta. match goal with |- context [set_peers c0 ?l] => set (ps := l) end.
    assert (client_ok (set_peers c0 ps)) as H1.
    { apply Hk; try done; cbn.
      - unfold ps. by rewrite update_peer_peers.
      - unfold ps. intros b [?|(b' & Hb' & -> & _)]%elem_update_peer y Hy; [by eauto|]. by eapply (Hsb b'). }
    destruct (find_peer c0 peer) as [b|]; [|by eexists]. destruct (pb_channel b); [by eexists|]. cbn [take_channel_number].
    eexists. split; [reflexivity|]. clear Hk. destruct H1 as [G1 G2 G3 G4 G5 G6].
    set (c1 := set_peers c0 ps) in *. change (tu_next_channel c1) with (tu_next_channel c) in *.
    assert (Z.min (saturating_add 16 (tu_next_channel c) 1) MAX_CHANNEL_NUMBER = Z.min (tu_next_channel c + 1) MAX_CHANNEL_NUMBER) as En.
    { unfold saturating_add, MAX_CHANNEL_NUMBER, MIN_CHANNEL_NUMBER in *. lia. }
    cbn. rewrite En. match goal with |- client_ok ?x => set (c2 := x) end.
    assert (forall p ch, (p, ch) ∈ claims c2 -> (p, ch) ∈ claims c1 \/ (p = peer /\ ch = tu_next_channel c)) as Hc.
    { intros p ch. rewrite (elem_claims c2). intros [H|[(q & [Hq|Hq]%elem_of_app & Hx)|H]].
      - left. apply elem_claims. by left.
      - left. apply elem_claims. right; left. by exists q.
      - apply list_elem_of_singleton in Hq as ->. cbn in Hx. apply list_elem_of_singleton in Hx as [= -> ->]. by right.
      - left. apply elem_claims. by right; right. }
    constructor.
    + done.
    + cbn. unfold MIN_CHANNEL_NUMBER, MAX_CHANNEL_NUMBER in *. lia.
    + intros p ch [?|[-> ->]]%Hc; [by eauto|lia].
    + cbn. intros Hlt p ch [Hx|[-> ->]]%Hc; [|lia]. specialize (G4 ltac:(lia) p ch Hx). lia.
    + cbn. intros Hlt p q ch Hp Hq. assert (tu_next_channel c < MAX_CHANNEL_NUMBER) as Hlt' by lia.
      apply Hc in Hp as [Hp|[-> ->]], Hq as [Hq|[-> E]]; [by eauto| | |done].
      * specialize (G4 Hlt' p ch Hp). lia.
      * specialize (G4 Hlt' q _ Hq). lia.
    + done.
  - cbv zeta. eexists. split; [reflexivity|]. apply Hk; try done; cbn.
    + by rewrite update_peer_peers.
    + intros b [?|(b' & Hb' & -> & E)]%elem_update_peer y Hy; [by eauto|]. cbn in Hy. apply list_elem_of_singleton in Hy as ->.
      apply elem_claims. right; right. exists f. rewrite Ep, E. set_solver.
Qed.

Lemma on_datagram_ok c datagram now : client_ok c -> bytes_ok datagram ->
  exists b c', on_datagram c datagram now = Ok (b, c') /\ client_ok c' /\ (is_terminal c = true -> tu_state c' = tu_state c).
Proof.
  intros Hok Hb. unfold on_datagram. destruct (is_terminal c); [by exists false, c|].
  pose proof (parse_no_panic _ Hb). destruct (parse datagram) as [m| |]; [|by exists false, c|done].
  destruct (tu_in_flight c) as [f|] eqn:Hf; [|by exists false, c]. destruct (negb _); [by exists false, c|]. cbv zeta.
  destruct (_ =? CLASS_SUCCESS).
  { destruct (on_success_ok c f m now Hok Hf) as (c' & -> & Hc). rewrite bind_Ok. by exists true, c'. }
  destruct (_ =? CLASS_ERROR); (eexists _, _; split; [reflexivity|]; split; [|done]); [by apply on_error_ok|].
  apply (ok_fewer_claims c); [done|apply Hok|done|apply Hok|]. intros x. eapply answered_claims; [done|done| |].
  - intros b Hbin y Hy. by eapply same_binding.
  - cbn. auto.
Qed.

(** ** Runs *)

Inductive client_op : Type :=
| DoPoll (now_ms : Z) (random_id : option bytes)
| DoDatagram (datagram : bytes) (now_ms : Z)
| DoAddPeer (peer : SocketAddr)
| DoClose
| DoTransportClosed.

Definition client_step (c : TurnClient) (o : client_op) : res StunError (TurnAction * TurnClient) :=
  match o with
  | DoPoll now id => poll c now id
  | DoDatagram datagram now => '(_, c) ← on_datagram c datagram now; mret (Idle, c)
  | DoAddPeer peer => mret (Idle, add_peer c peer)
  | DoClose => mret (Idle, close c)
  | DoTransportClosed => mret (Idle, on_transport_closed c)
  end.

Definition client_op_ok (o : client_op) : Prop :=
  match o with
  | DoPoll _ id => turn_id_ok id
  | DoDatagram datagram _ => bytes_ok datagram
  | _ => True
  end.

Inductive client_reachable : TurnClient -> Prop :=
| client_starts server credentials rto_ms : client_reachable (TurnClient_new server credentials rto_ms)
| client_starts_reliable server credentials : client_reachable (TurnClient_new_reliable server credentials)
| client_steps c o act c' : client_reachable c -> client_op_ok o -> client_step c o = Ok (act, c') -> client_reachable c'.

Lemma client_step_ok c o : client_ok c -> client_op_ok o ->
  exists act c', client_step c o = Ok (act, c') /\ client_ok c' /\ (is_terminal c = true -> tu_state c' = tu_state c).
Proof.
  intros Hok Ho. destruct o as [now id|datagram now|peer| |]; cbn [client_step client_op_ok] in *.
  - by apply poll_ok.
  - destruct (on_datagram_ok c datagram now Hok Ho) as (b & c' & -> & Hc). by exists Idle, c'.
  - exists Idle, (add_peer c peer). destruct (add_peer_ok c peer Hok). by split_and!.
  - exists Idle, (close c). destruct (close_ok c Hok). by split_and!.
  - exists Idle, (on_transport_closed c). split; [done|]. unfold on_transport_closed. destruct (is_terminal c); [done|]. split; [|done].
    apply (ok_fewer_claims c); [done|apply Hok|done|apply Hok|]. intros x. rewrite !elem_claims. cbn. set_solver.
Qed.

Lemma client_reachable_ok c : client_reachable c -> client_ok c.
Proof.
  induction 1 as [server cr rto|server cr|c o act c' _ IH Ho Hs].
  - constructor; cbn; try done; try (by intros; set_solver). apply NoDup_nil_2.
  - constructor; cbn; try done; try (by intros; set_solver). apply NoDup_nil_2.
  - destruct (client_step_ok c o IH Ho) as (act' & c'' & E & Hc & _). rewrite E in Hs. by injection Hs as _ <-.
Qed.

Lemma find_peer_unique l b : NoDup (pb_peer <$> l) -> b ∈ l ->
  List.find (fun b' => bool_decide (pb_peer b' = pb_peer b)) l = Some b.
Proof.
  induction l as [|b0 l IH]; [set_solver|]. rewrite fmap_cons, NoDup_cons. intros [H1 H2] [->|Hb]%elem_of_cons; cbn [List.find].
  - by rewrite bool_decide_eq_true_2.
  - rewrite bool_decide_eq_false_2; [by apply IH|]. intros E. apply H1. rewrite E. apply list_elem_of_fmap. by exists b.
Qed.

(** C15. The TURN client never panics, ends for good, and never confuses two peers.
    In every state reached by polls, datagrams of arbitrary bytes, new peers, [close]
    and a lost stream: the next operation succeeds; a failed or closed allocation
    keeps its verdict; a bound channel lies in the range of RFC 5766; and until the
    16384 channel numbers are used up, [channel_for] and [peer_for_channel] are
    inverse to each other, so data on a channel is attributed to the peer it was
    bound for, across refreshes, retries, rejections and rebinding. *)
Theorem turn_client_channels c : client_reachable c ->
  (forall o, client_op_ok o -> exists act c', client_step c o = Ok (act, c') /\
    (is_terminal c = true -> tu_state c' = tu_state c)) /\
  (forall peer ch, channel_for c peer = Some ch -> valid_channel_number ch = true) /\
  (tu_next_channel c < MAX_CHANNEL_NUMBER ->
    forall peer ch, channel_for c peer = Some ch <-> peer_for_channel c ch = Some peer).
Proof.
  intros Hr. pose proof (client_reachable_ok c Hr) as Hok. pose proof Hok as [H1 H2 H3 H4 H5 _].
  assert (forall peer ch, channel_for c peer = Some ch -> exists b, b ∈ tu_peers c /\ pb_peer b = peer /\ pb_channel b = Some ch) as Hfor.
  { intros peer ch. unfold channel_for. destruct (List.find _ _) as [b|] eqn:E; [|done]. cbn. intros Hc.
    apply (find_peer_Some c) in E as [? ?]. by exists b. }
  assert (forall b ch, b ∈ tu_peers c -> pb_channel b = Some ch -> (pb_peer b, ch) ∈ claims c) as Hcl.
  { intros b ch Hb Hc. apply (same_binding c b); [done|]. unfold binding_claim. rewrite Hc. by left. }
  split; [|split].
  - intros o Ho. destruct (client_step_ok c o Hok Ho) as (act & c' & E & _ & Ht). by exists act, c'.
  - intros peer ch (b & Hb & <- & Hc)%Hfor. specialize (H3 _ _ (Hcl b ch Hb Hc)). unfold valid_channel_number.
    apply andb_true_iff. rewrite !Z.leb_le. done.
  - intros Hlt peer ch. split.
    + intros (b & Hb & <- & Hc)%Hfor. unfold peer_for_channel. destruct (List.find _ _) as [b'|] eqn:E.
      * apply find_some in E as [Hb' Hc'%bool_decide_eq_true]. cbn. f_equal. apply (H5 Hlt _ _ ch); apply Hcl; try done. by apply list_elem_of_In.
      * exfalso. apply list_elem_of_In in Hb. pose proof (find_none _ _ E b Hb) as Hn%bool_decide_eq_false. done.
    + unfold peer_for_channel. destruct (List.find _ _) as [b|] eqn:E; [|done]. cbn. intros [= <-].
      apply find_some in E as [Hb Hc%bool_decide_eq_true]. apply list_elem_of_In in Hb. unfold channel_for.
      by rewrite (find_peer_unique _ b).
Qed.

Lemma turn_client_channels_witness :
  let c := TurnClient_new (mkSocketAddr (V4 1) 3478) (mkTurnCredentials [97] [98]) 500 in
  exists act c', client_step c (DoPoll 0 (Some (replicate 12 7))) = Ok (act, c').
Proof.
  intros c. destruct (turn_client_channels c (client_starts _ _ _)) as [H _].
  destruct (H (DoPoll 0 (Some (replicate 12 7)))) as (act & c' & E & _); [by intros b [= <-]|by exists act, c'].
Defined.

(** ** The challenge *)

(** An answer with an error to the request under [id]. *)
Definition error_answer (id raw : bytes) : Prop :=
  exists m, parse raw = Ok m /\ sm_transaction_id m = id /\ class_of (sm_message_type m) = CLASS_ERROR.

(** Poll, then hand in the answer. *)
Fixpoint exchange (c : TurnClient) (rounds : list (Z * bytes * bytes)) : res StunError TurnClient :=
  match rounds with
  | [] => mret c
  | (now, id, raw) :: rounds =>
      '(_, c) ← poll c now (Some id);
      '(_, c) ← on_datagram c raw now;
      exchange c rounds
  end.

(** An allocation not answered yet, and how many more refusals it survives. *)
Definition handshaking (c : TurnClient) (p : PendingRequest) : Prop :=
  tu_state c = Allocating /\ tu_in_flight c = None /\ (p = AllocateProbe \/ p = Allocate) /\ exists q, tu_queue c = p :: q.

Definition patience (c : TurnClient) (p : PendingRequest) : nat :=
  ((if bool_decide (p = AllocateProbe) then 1 else 0) + (if tu_stale_nonce_retried c then 0 else 1))%nat.

Lemma poll_handshaking c p now id : handshaking c p -> len id = 12 ->
  exists raw q, tu_queue c = p :: q /\ build (set_queue c q) p id = Ok raw /\
    poll c now (Some id) = Ok (SendServer raw,
      set_in_flight (set_queue c q) (Some (mkInFlight (Transaction_start id (tu_schedule c) now) raw p))).
Proof.
  intros (Hs & Hf & Hp & q & Hq) Hid. destruct (build_total (set_queue c q) p id Hid) as [raw Hr]. exists raw, q. split; [done|]. split; [done|].
  unfold poll, is_terminal. rewrite Hs, Hf. unfold enqueue_due_maintenance, is_allocated. rewrite Hs. cbn [negb].
  unfold next_request. rewrite Hq. unfold start. by rewrite Hr.
Qed.

Lemma refused_error c p m : tu_state c = Allocating -> tu_in_flight c = None -> p = AllocateProbe \/ p = Allocate ->
  let c' := on_error c p m in
  is_terminal c' = true \/ exists p', handshaking c' p' /\ (patience c' p' < patience c p)%nat.
Proof.
  intros Hs Hf Hp. cbv zeta. unfold on_error. cbv zeta. destruct (_ =? ERROR_UNAUTHORIZED) eqn:E0, (bool_decide (p = AllocateProbe)) eqn:E1; cbn [andb].
  { apply bool_decide_eq_true in E1 as ->. destruct (realm m) as [rm|], (nonce m) as [n|]; [|by left..].
    right. exists Allocate. split; [|unfold patience; rewrite bool_decide_eq_false_2, bool_decide_eq_true_2 by done; cbn; lia].
    split_and!; [done|done|by right|by eexists]. }
  all: destruct (_ =? ERROR_STALE_NONCE), (tu_stale_nonce_retried c) eqn:E2; cbn [andb negb]; try (left; unfold on_rejection; by destruct Hp as [-> | ->]).
  all: destruct (nonce m) as [n|]; [|by left]; right; exists p;
    (split; [split_and!; [done|done|done|by eexists]|]; unfold patience; cbn; rewrite E2; lia).
Qed.

Lemma refused_once c p now id raw : handshaking c p -> len id = 12 -> error_answer id raw ->
  exists c', exchange c [(now, id, raw)] = Ok c' /\
    (is_terminal c' = true \/ exists p', handshaking c' p' /\ (patience c' p' < patience c p)%nat).
Proof.
  intros Hh Hid (m & Hm & Hi & Hcl). destruct (poll_handshaking c p now id Hh Hid) as (r & q & Hq & _ & Hpoll).
  destruct Hh as (Hs & Hf & Hp & _). cbn [exchange]. rewrite Hpoll, bind_Ok. unfold on_datagram, is_terminal. cbn [tu_state set_in_flight set_queue].
  rewrite Hs, Hm. cbn [tu_in_flight set_in_flight set_queue if_transaction Transaction_start tx_id if_pending].
  rewrite bool_decide_eq_true_2, Hcl by done. cbn [negb]. cbv zeta.
  change (CLASS_ERROR =? CLASS_SUCCESS) with false. change (CLASS_ERROR =? CLASS_ERROR) with true. cbv iota.
  eexists. split; [reflexivity|]. by apply (refused_error (set_in_flight (set_queue c q) None) p m).
Qed.

Lemma terminal_stays c now id raw rounds : is_terminal c = true ->
  exchange c ((now, id, raw) :: rounds) = exchange c rounds.
Proof.
  intros Ht. cbn [exchange]. assert (poll c now (Some id) = Ok (Idle, c)) as -> by (unfold poll; by rewrite Ht).
  rewrite bind_Ok. assert (on_datagram c raw now = Ok (false, c)) as -> by (unfold on_datagram; by rewrite Ht). done.
Qed.

Lemma refused_rounds rounds : forall c p, handshaking c p -> (patience c p < length rounds)%nat ->
  Forall (fun r => len r.1.2 = 12 /\ error_answer r.1.2 r.2) rounds ->
  exists c', exchange c rounds = Ok c' /\ is_terminal c' = true.
Proof.
  induction rounds as [|[[now id] raw] rounds IH]; intros c p Hh Hl Hr; [cbn in Hl; lia|].
  apply Forall_cons_1 in Hr as [[Hid Ha] Hr]. cbn [fst snd] in *. destruct (refused_once c p now id raw Hh Hid Ha) as (c1 & E & Hc1).
  assert (exchange c ((now, id, raw) :: rounds) = exchange c1 rounds) as ->.
  { cbn [exchange] in E |- *. destruct (poll c now (Some id)) as [[act c2]| |]; [|done..]. rewrite bind_Ok in E |- *.
    destruct (on_datagram c2 raw now) as [[b c3]| |]; [|done..]. rewrite bind_Ok in E |- *. by injection E as ->. }
  destruct Hc1 as [Ht|(p' & Hh' & Hlt)]; [|apply (IH c1 p'); [done|cbn in Hl; lia|done]].
  exists c1. split; [|done]. clear IH Hl. induction rounds as [|[[now' id'] raw'] rounds IH]; [done|].
  apply Forall_cons_1 in Hr as [[_ Ha'] Hr]. rewrite terminal_stays by done. by apply IH.
Qed.

Lemma add_peers_handshaking peers : forall c p, handshaking c p ->
  handshaking (foldl add_peer c peers) p /\ tu_stale_nonce_retried (foldl add_peer c peers) = tu_stale_nonce_retried c.
Proof.
  induction peers as [|peer peers IH]; intros c p Hh; [done|]. cbn [foldl].
  assert (handshaking (add_peer c peer) p /\ tu_stale_nonce_retried (add_peer c peer) = tu_stale_nonce_retried c) as [H1 H2].
  { unfold add_peer. destruct (existsb _ _); [done|]. split; [|done]. destruct Hh as (Hs & Hf & Hp & q & Hq).
    split_and!; [done|done|done|]. cbn. rewrite Hq. by eexists. }
  destruct (IH _ _ H1) as [H3 H4]. split; [done|congruence].
Qed.

(** C16. A server that keeps refusing cannot make the client loop.  Whatever peers
    were added, if every request of the allocation is answered with some error (any
    code, any attributes: a challenge, a stale nonce, a rejection), three answers are
    enough to end the allocation for good: one challenge is answered with
    credentials, one stale nonce is retried, and the next refusal is final. *)
Theorem turn_refusals_end server credentials rto_ms peers rounds :
  Forall (fun r => len r.1.2 = 12 /\ error_answer r.1.2 r.2) rounds -> (3 <= length rounds)%nat ->
  exists c, exchange (foldl add_peer (TurnClient_new server credentials rto_ms) peers) rounds = Ok c /\ is_terminal c = true.
Proof.
  intros Hr Hl. destruct (add_peers_handshaking peers (TurnClient_new server credentials rto_ms) AllocateProbe) as [Hh Hs].
  { split_and!; [done|done|by left|by eexists]. }
  eapply refused_rounds; [exact Hh| |done]. unfold patience. rewrite Hs, bool_decide_eq_true_2 by done. cbn. lia.
Qed.

(** A concrete server that refuses three times. *)
Definition refusal (id : bytes) (code : Z) : bytes :=
  match MessageBuilder_finish
    (MessageBuilder_attribute
       (MessageBuilder_attribute
          (MessageBuilder_attribute (MessageBuilder_new (message_type METHOD_ALLOCATE CLASS_ERROR) id) ATTR_ERROR_CODE (error_code_value code []))
          ATTR_REALM [114])
       ATTR_NONCE [110]) None false with Ok raw => raw | _ => [] end.

Lemma turn_refusals_end_witness :
  exists c, exchange (TurnClient_new (mkSocketAddr (V4 1) 3478) (mkTurnCredentials [97] [98]) 500)
    [(0, replicate 12 1, refusal (replicate 12 1) 401); (10, replicate 12 2, refusal (replicate 12 2) 438);
     (20, replicate 12 3, refusal (replicate 12 3) 401)] = Ok c /\ tu_state c = TurnFailed (Rejected 401 []).
Proof.
  destruct (turn_refusals_end (mkSocketAddr (V4 1) 3478) (mkTurnCredentials [97] [98]) 500 []
    [(0, replicate 12 1, refusal (replicate 12 1) 401); (10, replicate 12 2, refusal (replicate 12 2) 438);
     (20, replicate 12 3, refusal (replicate 12 3) 401)]) as (c & Hc & Ht).
  - forall_list; (split; [reflexivity|]; eexists; split; [vm_compute; reflexivity|]; split; reflexivity).
  - cbn. lia.
  - exists c. split; [exact Hc|]. cbn [foldl] in Hc. revert Hc. vm_compute. intros [= <-]. reflexivity.
Defined.

(** ** The handshake with the server *)

Lemma issue_authentic nf client tick : fits 64 tick ->
  exists text, issue nf client tick = Ok text /\ authentic nf client text tick /\ bytes_ok text /\ len text = 24.
Proof.
  intros Ht. destruct (base64_encode_decode (raw_nonce nf client tick) (raw_nonce_bytes _ _ _)) as (text & He & He' & Hl & _ & Hok).
  destruct (base64_decode_encode (raw_nonce nf client tick) (raw_nonce_bytes _ _ _)) as (text' & He2 & _ & Hd & _).
  rewrite He in He2. injection He2 as <-. exists text. split_and!.
  - unfold issue. rewrite slice_Ok, bind_Ok by (rewrite ?len_stamp; lia). exact He.
  - split; [done|]. split; [|done]. unfold from_utf8. rewrite (valid_ascii text); [done|]. eapply base64_encode_ascii; [|exact He]. apply raw_nonce_bytes.
  - done.
  - rewrite Hl, len_raw_nonce. reflexivity.
Qed.

(** An attribute of a reasonable size. *)
Lemma small_attr t v : fits 16 t -> bytes_ok v -> len v <= 1024 -> attr_ok (t, v) /\ len (attr_bytes (t, v)) <= 1031.
Proof.
  intros Ht Hv Hl. pose proof (len_nonneg v). rewrite len_attr_bytes. cbn [snd]. pose proof (padding_bound (len v)).
  split; [|lia]. split_and!; [done|done|]. unfold fits. cbn [snd]. lia.
Qed.

Lemma small_attrs attrs : Forall (fun a => fits 16 a.1 /\ bytes_ok a.2 /\ len a.2 <= 1024) attrs -> (length attrs <= 50)%nat ->
  Forall attr_ok attrs /\ len (attrs_bytes attrs) + 32 < 2 ^ 16.
Proof.
  intros Hf Hl. assert (Forall attr_ok attrs /\ len (attrs_bytes attrs) <= 1031 * Z.of_nat (length attrs)) as [H1 H2]; [|split; [done|lia]].
  clear Hl. induction attrs as [|[t v] attrs IH]; [done|]. apply Forall_cons_1 in Hf as [(H1 & H2 & H3) Hf].
  destruct (IH Hf) as [H4 H5]. destruct (small_attr t v H1 H2 H3) as [H6 H7]. split; [by constructor|].
  change (attrs_bytes ((t, v) :: attrs)) with (attr_bytes (t, v) ++ attrs_bytes attrs). rewrite len_app. cbn [length]. lia.
Qed.

(** The attributes of the two Allocate requests and of the two answers. *)
Definition allocate_attrs : list (Z * bytes) :=
  [(ATTR_REQUESTED_TRANSPORT, requested_transport_value TRANSPORT_UDP); (ATTR_LIFETIME, lifetime_value DEFAULT_LIFETIME_SECONDS)].

Definition credential_attrs (username realm nonce : bytes) : list (Z * bytes) :=
  [(ATTR_USERNAME, username); (ATTR_REALM, realm); (ATTR_NONCE, nonce)].

Definition software_attrs (config : TurnConfig) : list (Z * bytes) :=
  match tc_software config with Some software => [(ATTR_SOFTWARE, software)] | None => [] end.

(** What the deployment provides: texts of sane sizes, the REST password of the
    username, and an unexpired username. *)
Record deployment (config : TurnConfig) (nf : NonceFactory) (credentials : TurnCredentials) : Prop := {
  dp_realm : utf8_valid (tc_realm config) /\ bytes_ok (tc_realm config) /\ len (tc_realm config) <= 1024;
  dp_software : forall s, tc_software config = Some s -> bytes_ok s /\ len s <= 1024;
  dp_username : utf8_valid (tc_username credentials) /\ bytes_ok (tc_username credentials) /\ len (tc_username credentials) <= 1024;
  dp_password : base64_encode (hmac_sha1 (tc_static_auth_secret config) (tc_username credentials)) = Ok (tc_password credentials);
  dp_lifetime : 0 <= nf_lifetime nf
}.

Lemma software_ok config nf credentials : deployment config nf credentials ->
  Forall (fun a : Z * bytes => fits 16 a.1 /\ bytes_ok a.2 /\ len a.2 <= 1024) (software_attrs config) /\
  Forall (fun a : Z * bytes => a.1 <> ATTR_MESSAGE_INTEGRITY) (software_attrs config) /\ (length (software_attrs config) <= 1)%nat.
Proof.
  intros Hd. unfold software_attrs. destruct (tc_software config) as [s|] eqn:E; [|split_and!; [constructor|constructor|cbn; lia]].
  destruct (dp_software _ _ _ Hd s E). split_and!; [forall_list|forall_list; vm_compute; congruence|cbn; lia].
  split_and!; [vm_compute; split; congruence|done|done].
Qed.

Lemma message_builder_foldl config t tid attrs :
  foldl (fun m (a : Z * bytes) => MessageBuilder_attribute m a.1 a.2) (message_builder config t tid) attrs =
  foldl (fun m (a : Z * bytes) => MessageBuilder_attribute m a.1 a.2) (MessageBuilder_new t tid) (software_attrs config ++ attrs).
Proof. unfold message_builder, software_attrs. by destruct (tc_software config). Qed.

(** The SOFTWARE attribute in front hides nothing. *)
Lemma find_after_software config t attrs : t <> ATTR_SOFTWARE ->
  find_attribute t (software_attrs config ++ attrs) = find_attribute t attrs.
Proof.
  intros Ht. unfold software_attrs. destruct (tc_software config); [|done]. cbn [app find_attribute].
  by rewrite (proj2 (Z.eqb_neq _ _)) by done.
Qed.

Section Handshake.
Context (config : TurnConfig) (nf : NonceFactory) (credentials : TurnCredentials) (Hdep : deployment config nf credentials).
Context (five_tuple : FiveTuple) (transport : ClientTransport).

Abbreviation client_addr := (ft_client five_tuple).

(** An Allocate request reaches the allocation handler. *)
Lemma allocate_dispatched st env raw rest attrs id : raw = be_enc 2 (message_type METHOD_ALLOCATE CLASS_REQUEST) ++ rest ->
  parse raw = Ok (mkStunMessage (message_type METHOD_ALLOCATE CLASS_REQUEST) id attrs) ->
  handle_client config nf st env five_tuple transport raw =
  handle_allocate config nf st env five_tuple transport (mkStunMessage (message_type METHOD_ALLOCATE CLASS_REQUEST) id attrs) raw.
Proof.
  intros -> Hp. change (be_enc 2 (message_type METHOD_ALLOCATE CLASS_REQUEST) ++ rest) with (0 :: 3 :: rest) in *.
  unfold handle_client. change (is_channel_data 0) with false. cbv iota. by rewrite Hp.
Qed.

(** The probe. *)
Lemma probe_built c id : len id = 12 ->
  exists raw rest, build c AllocateProbe id = Ok raw /\ raw = be_enc 2 (message_type METHOD_ALLOCATE CLASS_REQUEST) ++ rest /\
    parse raw = Ok (mkStunMessage (message_type METHOD_ALLOCATE CLASS_REQUEST) id allocate_attrs).
Proof.
  intros Hid. destruct (small_attrs allocate_attrs) as [Hok Hmax].
  { unfold allocate_attrs. forall_list; (split_and!; [vm_compute; split; congruence| |vm_compute; congruence]);
      unfold bytes_ok; vm_compute; forall_list; vm_compute; split; congruence. }
  { cbn. lia. }
  destruct (built (message_type METHOD_ALLOCATE CLASS_REQUEST) id allocate_attrs None false) as (raw & tail & Hraw & [rest Hrest] & Hparse & Htail & _);
    [vm_compute; split; congruence|done|done|unfold allocate_attrs; forall_list; vm_compute; congruence|done|].
  exists raw, rest. split; [exact Hraw|]. split; [done|]. destruct tail; [|done]. by rewrite app_nil_r in Hparse.
Qed.

(** The server answers it with its challenge. *)
Lemma challenge_sent st env raw id : len id = 12 -> fits 64 (now_ticks env) ->
  exists answer m nonce_value,
    handle_allocate config nf st env five_tuple transport
      (mkStunMessage (message_type METHOD_ALLOCATE CLASS_REQUEST) id allocate_attrs) raw = Ok (st, [SendClient transport answer]) /\
    parse answer = Ok m /\ sm_transaction_id m = id /\ class_of (sm_message_type m) = CLASS_ERROR /\
    error_code m = Some ERROR_UNAUTHORIZED /\ realm m = Some (tc_realm config) /\ nonce m = Some nonce_value /\
    authentic nf client_addr nonce_value (now_ticks env) /\ bytes_ok nonce_value /\ len nonce_value = 24.
Proof.
  intros Hid Hnow. unfold handle_allocate, require_auth, authenticate. cbv zeta.
  change (Turn.username (mkStunMessage (message_type METHOD_ALLOCATE CLASS_REQUEST) id allocate_attrs)) with (@None bytes). cbv iota.
  destruct (issue_authentic nf client_addr (now_ticks env) Hnow) as (nv & Hi & Ha & Hb & Hl).
  set (attrs := [(ATTR_ERROR_CODE, error_code_value ERROR_UNAUTHORIZED (text "Unauthorized")); (ATTR_REALM, tc_realm config); (ATTR_NONCE, nv)]).
  destruct (software_ok _ _ _ Hdep) as (Hs1 & Hs2 & Hs3). destruct (dp_realm _ _ _ Hdep) as (Hr1 & Hr2 & Hr3).
  destruct (small_attrs (software_attrs config ++ attrs)) as [Hok Hmax].
  { apply Forall_app. split; [done|]. unfold attrs. forall_list; (split_and!; [vm_compute; split; congruence| |]); cbn [snd]; try done; try lia.
    unfold bytes_ok. vm_compute. forall_list; vm_compute; split; congruence. }
  { rewrite length_app. cbn. lia. }
  destruct (built (message_type METHOD_ALLOCATE CLASS_ERROR) id (software_attrs config ++ attrs) None (tc_include_fingerprint config))
    as (answer & tail & Hraw & _ & Hparse & _); [vm_compute; split; congruence|done|done| |done|].
  { apply Forall_app. split; [done|]. unfold attrs. forall_list; vm_compute; congruence. }
  rewrite <- message_builder_foldl in Hraw.
  eexists answer, _, nv. split_and!; [|exact Hparse|done|vm_compute; reflexivity|..|done|done|done].
  - change (mbind (M := res StunError) ?f (mret ?x)) with (f x). cbv beta iota. unfold send_challenge. rewrite Hi, bind_Ok. cbv zeta.
    cbn [sm_transaction_id]. cbn [attrs foldl fst snd] in Hraw. by rewrite Hraw.
  - unfold error_code, attribute. cbn [sm_attributes]. rewrite <- app_assoc, find_after_software by (vm_compute; congruence). reflexivity.
  - unfold realm, attribute. cbn [sm_attributes]. rewrite <- app_assoc, find_after_software by (vm_compute; congruence).
    change (find_attribute ATTR_REALM (attrs ++ tail)) with (Some (tc_realm config)). cbn. unfold from_utf8. by rewrite Hr1.
  - unfold nonce, attribute. cbn [sm_attributes]. rewrite <- app_assoc, find_after_software by (vm_compute; congruence). reflexivity.
Qed.

(** The credentialed request authenticates. *)
Lemma allocate_signed c id nonce_value tick unix now :
  len id = 12 -> tu_credentials c = credentials -> tu_realm c = Some (tc_realm config) -> tu_nonce c = Some nonce_value ->
  authentic nf client_addr nonce_value tick -> bytes_ok nonce_value -> len nonce_value = 24 -> now - tick <= nf_lifetime nf ->
  (exists e, u64_from_str (before_colon (tc_username credentials)) = Some e /\ unix <= e) ->
  exists raw rest tail key, build c Allocate id = Ok raw /\ raw = be_enc 2 (message_type METHOD_ALLOCATE CLASS_REQUEST) ++ rest /\
    let m := mkStunMessage (message_type METHOD_ALLOCATE CLASS_REQUEST) id
               ((allocate_attrs ++ credential_attrs (tc_username credentials) (tc_realm config) nonce_value) ++ tail) in
    parse raw = Ok m /\ fst <$> tail = [ATTR_MESSAGE_INTEGRITY] /\
    authenticate (verifier config) m raw unix nf now client_addr = Ok (AuthOk (tc_username credentials) key).
Proof.
  intros Hid Hc Hr Hn Ha Hb Hl Hage Hexp. set (attrs := allocate_attrs ++ credential_attrs (tc_username credentials) (tc_realm config) nonce_value).
  destruct (dp_realm _ _ _ Hdep) as (Hr1 & Hr2 & Hr3). destruct (dp_username _ _ _ Hdep) as (Hu1 & Hu2 & Hu3).
  set (key := long_term_key (tc_username credentials) (tc_realm config) (tc_password credentials)).
  destruct (small_attrs attrs) as [Hok Hmax].
  { unfold attrs, allocate_attrs, credential_attrs. cbn [app]. forall_list; (split_and!; [vm_compute; split; congruence| |]); cbn [snd]; try done; try lia;
      unfold bytes_ok; vm_compute; forall_list; vm_compute; split; congruence. }
  { cbn. lia. }
  destruct (built (message_type METHOD_ALLOCATE CLASS_REQUEST) id attrs (Some key) false) as (raw & tail & Hraw & [rest Hrest] & Hparse & Htail & Hver);
    [vm_compute; split; congruence|done|done|unfold attrs, allocate_attrs, credential_attrs; cbn [app]; forall_list; vm_compute; congruence|done|].
  exists raw, rest, tail, key. split; [|split; [done|]].
  { unfold build, with_credentials. rewrite Hr, Hn, Hc. exact Hraw. }
  cbv zeta. split; [exact Hparse|]. split; [done|]. destruct tail as [|[t v] [|]]; try discriminate Htail. injection Htail as ->.
  apply authenticate_complete; [apply Hdep|]. split_and!.
  - unfold Turn.username. change (attribute _ ATTR_USERNAME) with (Some (tc_username credentials)). cbn. unfold from_utf8. by rewrite Hu1.
  - unfold Turn.realm. change (attribute _ ATTR_REALM) with (Some (tc_realm config)). cbn. unfold from_utf8. by rewrite Hr1.
  - by exists v.
  - exists nonce_value, tick. by split_and!.
  - done.
  - unfold credential_key. cbn [cv_secret cv_realm verifier]. by rewrite (dp_password _ _ _ Hdep), bind_Ok.
  - done.
Qed.

(** The server that has room grants the allocation, and the client reads it. *)
Lemma allocation_granted st env raw id tail nonce_value relay key :
  len id = 12 -> bytes_ok id -> fst <$> tail = [ATTR_MESSAGE_INTEGRITY] ->
  addr_ok (advertised_relay_address config relay) -> addr_ok client_addr ->
  0 < tc_max_lifetime config < 2 ^ 32 ->
  am_allocations st !! five_tuple = None -> default 0 (am_quota st !! tc_username credentials) < tc_max_allocations_per_user config ->
  alloc_endpoint env = Some relay -> install_flow_ok env = true ->
  let m := mkStunMessage (message_type METHOD_ALLOCATE CLASS_REQUEST) id
             ((allocate_attrs ++ credential_attrs (tc_username credentials) (tc_realm config) nonce_value) ++ tail) in
  authenticate (verifier config) m raw (now_unix env) nf (now_ticks env) client_addr = Ok (AuthOk (tc_username credentials) key) ->
  exists st' answer m', handle_allocate config nf st env five_tuple transport m raw =
      Ok (st', [AllocEndpoint (ep_id relay); InstallRedirect (ep_id relay); SendClient transport answer]) /\
    is_Some (am_allocations st' !! five_tuple) /\
    parse answer = Ok m' /\ sm_transaction_id m' = id /\ class_of (sm_message_type m') = CLASS_SUCCESS /\
    xor_relayed_address m' = Ok (Some (advertised_relay_address config relay)) /\ xor_mapped_address m' = Ok (Some client_addr) /\
    lifetime m' = Some (Z.max (Z.min DEFAULT_LIFETIME_SECONDS (tc_max_lifetime config)) 1).
Proof.
  intros Hid Hidb Htail Hrel Hcl Hmaxl Hfree Hq Hep Hfl m Hauth. destruct tail as [|[t v] [|]]; try discriminate Htail. injection Htail as ->.
  unfold handle_allocate, require_auth. rewrite Hauth, bind_Ok, Hfree.
  change (requested_transport m) with (Some TRANSPORT_UDP). rewrite bool_decide_eq_true_2 by done. cbn [negb].
  change (has_even_port m || has_reservation_token m) with false. cbv iota.
  rewrite (proj2 (Z.leb_gt _ _)) by done. rewrite Hep, Hfl. cbn [negb].
  assert (granted_lifetime config m = Z.max (Z.min DEFAULT_LIFETIME_SECONDS (tc_max_lifetime config)) 1) as Hgr by done.
  set (attrs := [(ATTR_XOR_RELAYED_ADDRESS, xor_address_value (advertised_relay_address config relay) id);
                 (ATTR_LIFETIME, lifetime_value (granted_lifetime config m)); (ATTR_XOR_MAPPED_ADDRESS, xor_address_value client_addr id)]).
  destruct (software_ok _ _ _ Hdep) as (Hs1 & Hs2 & Hs3).
  destruct (xor_value_ok _ id Hidb Hrel) as [Hx1 Hx2]. destruct (xor_value_ok _ id Hidb Hcl) as [Hx3 Hx4].
  destruct (small_attrs (software_attrs config ++ attrs)) as [Hok Hmax].
  { apply Forall_app. split; [done|]. unfold attrs, xor_address_value. forall_list; (split_and!; [vm_compute; split; congruence| |]); cbn [snd]; try done; try lia.
    apply be_enc_bytes. }
  { rewrite length_app. cbn. lia. }
  destruct (built (message_type METHOD_ALLOCATE CLASS_SUCCESS) id (software_attrs config ++ attrs) (Some key) (tc_include_fingerprint config))
    as (answer & tl & Hraw & _ & Hparse & _); [vm_compute; split; congruence|done|done| |done|].
  { apply Forall_app. split; [done|]. unfold attrs. forall_list; vm_compute; congruence. }
  rewrite <- message_builder_foldl in Hraw. unfold allocate_response. cbn [attrs foldl fst snd] in Hraw. cbv zeta. cbn [sm_transaction_id m].
  rewrite Hraw, bind_Ok. eexists _, answer, _. split; [reflexivity|]. split_and!; [|exact Hparse|done|vm_compute; reflexivity|..].
  - cbn. rewrite lookup_insert_eq. by eexists.
  - unfold xor_relayed_address, xor_address, attribute. cbn [sm_attributes sm_transaction_id]. rewrite <- app_assoc, find_after_software by (vm_compute; congruence).
    change (find_attribute ATTR_XOR_RELAYED_ADDRESS (attrs ++ tl)) with (Some (xor_address_value (advertised_relay_address config relay) id)).
    by apply xor_mapped_roundtrip.
  - unfold xor_mapped_address, attribute. cbn [sm_attributes sm_transaction_id]. rewrite <- app_assoc, find_after_software by (vm_compute; congruence).
    change (find_attribute ATTR_XOR_MAPPED_ADDRESS (attrs ++ tl)) with (Some (xor_address_value client_addr id)). by apply xor_mapped_roundtrip.
  - unfold lifetime, attribute. cbn [sm_attributes]. rewrite <- app_assoc, find_after_software by (vm_compute; congruence).
    change (find_attribute ATTR_LIFETIME (attrs ++ tl)) with (Some (lifetime_value (granted_lifetime config m))). rewrite Hgr.
    apply (be_enc_range 4). unfold DEFAULT_LIFETIME_SECONDS. change (256 ^ Z.of_nat 4) with (2 ^ 32). lia.
Qed.

End Handshake.

(** C17. The TURN client and the TURN server understand each other.  A client started
    with a REST username that has not expired and the password the shared secret
    gives it sends its probe; the server, whatever else it holds, answers with its
    challenge and changes nothing; the client answers the challenge with a request
    the server authenticates; and a server with room for it grants the allocation,
    from which the client learns the relayed address the server advertises, its own
    address as the server sees it, and the lifetime granted. *)
Theorem turn_client_server_allocate config nf credentials five_tuple transport st env1 env2 server rto_ms id1 id2 t0 t1 t2 t3 relay :
  deployment config nf credentials -> len id1 = 12 -> len id2 = 12 -> bytes_ok id2 ->
  fits 64 (now_ticks env1) -> now_ticks env2 - now_ticks env1 <= nf_lifetime nf ->
  (exists e, u64_from_str (before_colon (tc_username credentials)) = Some e /\ now_unix env2 <= e) ->
  addr_ok (advertised_relay_address config relay) -> addr_ok (ft_client five_tuple) -> 0 < tc_max_lifetime config < 2 ^ 32 ->
  am_allocations st !! five_tuple = None -> default 0 (am_quota st !! tc_username credentials) < tc_max_allocations_per_user config ->
  alloc_endpoint env2 = Some relay -> install_flow_ok env2 = true ->
  exists probe c1 challenge c2 request c3 st' answer c4,
    poll (TurnClient_new server credentials rto_ms) t0 (Some id1) = Ok (SendServer probe, c1) /\
    handle_client config nf st env1 five_tuple transport probe = Ok (st, [SendClient transport challenge]) /\
    on_datagram c1 challenge t1 = Ok (true, c2) /\
    poll c2 t2 (Some id2) = Ok (SendServer request, c3) /\
    handle_client config nf st env2 five_tuple transport request =
      Ok (st', [AllocEndpoint (ep_id relay); InstallRedirect (ep_id relay); SendClient transport answer]) /\
    is_Some (am_allocations st' !! five_tuple) /\
    on_datagram c3 answer t3 = Ok (true, c4) /\
    tu_state c4 = Allocated (advertised_relay_address config relay) (Some (ft_client five_tuple)) /\
    tu_granted_lifetime c4 = Z.max (Z.min DEFAULT_LIFETIME_SECONDS (tc_max_lifetime config)) 1.
Proof.
  intros Hdep Hid1 Hid2 Hidb Hnow Hage Hexp Hrel Hcl Hmaxl Hfree Hq Hep Hfl.
  set (c0 := TurnClient_new server credentials rto_ms).
  destruct (probe_built (set_queue c0 []) id1 Hid1) as (probe & rest1 & Hb1 & Hr1 & Hp1).
  destruct (challenge_sent config nf credentials Hdep five_tuple transport st env1 probe id1 Hid1 Hnow)
    as (challenge & m1 & nv & Hch & Hpm & Htid & Hclass & Hcode & Hrealm & Hnonce & Ha & Hnb & Hnl).
  set (c1 := set_in_flight (set_queue c0 []) (Some (mkInFlight (Transaction_start id1 (tu_schedule c0) t0) probe AllocateProbe))).
  set (c2 := set_queue (set_challenge (set_in_flight c1 None) (Some (tc_realm config)) (Some nv)) [Allocate]).
  destruct (allocate_signed config nf credentials Hdep five_tuple (set_queue c2 []) id2 nv (now_ticks env1) (now_unix env2) (now_ticks env2))
    as (request & rest2 & tail & key & Hb2 & Hr2 & Hp2 & Htail & Hauth); [done..|].
  destruct (allocation_granted config nf credentials Hdep five_tuple transport st env2 request id2 tail nv relay key)
    as (st' & answer & m2 & Hal & Hsome & Hpa & Htid2 & Hclass2 & Hx1 & Hx2 & Hlt); [done..|].
  set (c3 := set_in_flight (set_queue c2 []) (Some (mkInFlight (Transaction_start id2 (tu_schedule c2) t2) request Allocate))).
  eexists probe, c1, challenge, c2, request, c3, st', answer, _.
  split. { unfold poll, start. change (is_terminal c0) with false. cbn [tu_in_flight c0 TurnClient_new].
    change (next_request (enqueue_due_maintenance _ t0)) with (Some AllocateProbe, set_queue c0 []). cbv iota. by rewrite Hb1. }
  split. { by rewrite (allocate_dispatched config nf five_tuple transport st env1 probe rest1 allocate_attrs id1). }
  split. { unfold on_datagram. change (is_terminal c1) with false. rewrite Hpm. cbn [tu_in_flight c1 set_in_flight if_transaction Transaction_start tx_id if_pending].
    rewrite bool_decide_eq_true_2, Hclass by done. change (CLASS_ERROR =? CLASS_SUCCESS) with false. change (CLASS_ERROR =? CLASS_ERROR) with true.
    cbn [negb]. cbv zeta iota. unfold on_error. rewrite Hcode. change (default 0 (Some ERROR_UNAUTHORIZED) =? ERROR_UNAUTHORIZED) with true.
    rewrite bool_decide_eq_true_2, Hrealm, Hnonce by done. reflexivity. }
  split. { unfold poll, start. change (is_terminal c2) with false. change (tu_in_flight c2) with (@None InFlight). cbv iota.
    change (next_request (enqueue_due_maintenance c2 t2)) with (Some Allocate, set_queue c2 []). cbv iota. by rewrite Hb2. }
  split. { by rewrite (allocate_dispatched config nf five_tuple transport st env2 request rest2 _ id2 Hr2 Hp2). }
  split; [done|]. split.
  { unfold on_datagram. change (is_terminal c3) with false. rewrite Hpa. cbn [tu_in_flight c3 set_in_flight if_transaction Transaction_start tx_id if_pending].
    rewrite bool_decide_eq_true_2, Hclass2 by done. change (CLASS_SUCCESS =? CLASS_SUCCESS) with true. cbn [negb]. cbv zeta iota.
    unfold on_success, finish_allocation. rewrite Hx1, bind_Ok, Hlt, Hx2, !bind_Ok. reflexivity. }
  split; reflexivity.
Qed.

Definition example_credentials : TurnCredentials :=
  mkTurnCredentials (text "2000:a")
    match base64_encode (hmac_sha1 (tc_static_auth_secret example_config) (text "2000:a")) with Ok p => p | _ => [] end.

Lemma turn_client_server_allocate_witness :
  exists request c3 st' answer c4,
    handle_client example_config example_nonces AllocationManager_new example_env example_tuple example_reply request =
      Ok (st', [AllocEndpoint 7; InstallRedirect 7; SendClient example_reply answer]) /\
    on_datagram c3 answer 30 = Ok (true, c4) /\
    tu_state c4 = Allocated (mkSocketAddr (V4 0xC0000201) 60000) (Some example_client).
Proof.
  destruct (turn_client_server_allocate example_config example_nonces example_credentials example_tuple example_reply AllocationManager_new
    example_env example_env (mkSocketAddr (V4 1) 3478) 500 (replicate 12 1) (replicate 12 2) 0 10 20 30
    (mkEndpoint 7 (mkSocketAddr (V4 0xC0000201) 60000)))
    as (probe & c1 & challenge & c2 & request & c3 & st' & answer & c4 & _ & _ & _ & _ & H1 & _ & H2 & H3 & _).
  - assert (forall l, forallb (fun b => (0 <=? b) && (b <? 256)) l = true -> bytes_ok l) as Hb.
    { intros l Hl. apply Forall_forall. intros x Hx%list_elem_of_In. apply (proj1 (forallb_forall _ _) Hl) in Hx. unfold is_byte. lia. }
    constructor.
    + split_and!; [vm_compute; reflexivity|apply Hb; vm_compute; reflexivity|vm_compute; congruence].
    + intros s Hs. vm_compute in Hs. injection Hs as <-. split; [apply Hb; vm_compute; reflexivity|vm_compute; congruence].
    + split_and!; [vm_compute; reflexivity|apply Hb; vm_compute; reflexivity|vm_compute; congruence].
    + vm_compute. reflexivity.
    + vm_compute. congruence.
  - reflexivity.
  - reflexivity.
  - unfold bytes_ok. vm_compute. forall_list; vm_compute; split; congruence.
  - vm_compute. split; congruence.
  - vm_compute. congruence.
  - exists 2000. split; vm_compute; congruence.
  - vm_compute. repeat split; congruence.
  - vm_compute. repeat split; congruence.
  - vm_compute. split; congruence.
  - reflexivity.
  - vm_compute. reflexivity.
  - reflexivity.
  - reflexivity.
  - exists request, c3, st', answer, c4. split; [exact H1|]. split; [exact H2|exact H3].
Defined.

(** Past the last number the same channel is handed out again. *)
Example channels_run_out c : tu_next_channel c = MAX_CHANNEL_NUMBER ->
  let '(first, c') := take_channel_number c in fst (take_channel_number c') = first.
Proof. intros H. unfold take_channel_number. cbn. rewrite H. reflexivity. Qed.
