(* ===== verification/CallFloor.v ===== *)
(** * Floor control of a two-party call

    crates/siphon-rtp-engine/src/call_floor.rs with the parts it is built from:
    the signalled-source gate of crates/siphon-rtp-datapath/src/lib.rs, the SRTCP
    protection and admission rule of floor_srtcp.rs, the event queue of
    app_events.rs and the outcome of ingress.rs.  It composes [SrtcpGcm],
    [Relay]'s learn-once latch and [Rtcp]'s APP packets.

    A controller's queue is shared by the legs that hold a handle on it, so the
    queues are a store of their own, from handle to queue.  Operations of the
    actor and of the connection loop that drains a queue interleave as whole
    steps.  Tracing is dropped; what was already warned about is kept. *)

From stdpp Require Import base list numbers option gmap.
From Stdlib Require Import Lia ZArith String.
From S2P Require Import Prelude Rtcp Relay Replay Srtp Srtcp Text Stun TurnAuth SrtcpGcm.

Open Scope Z_scope.

(** ** Layer 2: the signalled source *)

Inductive SourceFilter : Type := Exact (ip : IpAddr) | Subnet (network : IpAddr) (prefix : Z) | Any.

Definition subnet_contains (network : IpAddr) (prefix : Z) (source : IpAddr) : bool :=
  match network, source with
  | V4 network, V4 source =>
      let prefix := Z.min prefix 32 in
      if prefix =? 0 then true else
      let mask := wrap 32 (Z.shiftl (2 ^ 32 - 1) (32 - prefix)) in
      Z.land network mask =? Z.land source mask
  | V6 network, V6 source =>
      let prefix := Z.min prefix 128 in
      if prefix =? 0 then true else
      let mask := wrap 128 (Z.shiftl (2 ^ 128 - 1) (128 - prefix)) in
      Z.land (be_dec network) mask =? Z.land (be_dec source) mask
  | _, _ => false
  end.

Definition accepts (f : SourceFilter) (source : IpAddr) : bool :=
  match f with
  | Any => true
  | Exact addr => bool_decide (addr = source)
  | Subnet network prefix => subnet_contains network prefix source
  end.

Record RxPacket : Type := mkRxPacket { rx_endpoint : Z; rx_source : SocketAddr; rx_data : bytes }.

(** ** Outcomes and refusals (ingress.rs) *)

Inductive Ingress : Type := Accepted | DroppedFromPeer | Refused.

Definition is_live (i : Ingress) : bool := match i with Refused => false | _ => true end.
Definition is_dropped (i : Ingress) : bool := match i with Accepted => false | _ => true end.

Inductive Refusal : Type := UnsignalledSource | NewSource | NotAuthenticated | NotSrtp | RefusedMki.

Definition refusal_bit (r : Refusal) : Z :=
  match r with UnsignalledSource => 1 | NewSource => 2 | NotAuthenticated => 4 | NotSrtp => 8 | RefusedMki => 16 end.

Definition of_unprotect (e : SrtpError) : option Refusal :=
  match e with
  | Replayed | NoKeys | DuplicateMki | IndexExhausted => None
  | SrtpTooShort | SrtpBadVersion => Some NotSrtp
  | UnknownMki => Some RefusedMki
  | AuthFailed => Some NotAuthenticated
  end.

(** [RefusalLog::first]: whether the kind is new on this flow, and the marks after. *)
Definition refusal_first (warned : Z) (r : Refusal) : bool * Z :=
  if negb (Z.land warned (refusal_bit r) =? 0) then (false, warned)
  else (true, Z.lor warned (refusal_bit r)).

Definition refusal_log (warned : Z) (r : Refusal) : Z := (refusal_first warned r).2.

(** ** The controller's event queue (app_events.rs) *)

Inductive RtcpAppStream : Type := StreamFloor | StreamAudio.

Record Event : Type := mkEvent {
  ev_call_id : option bytes;
  ev_conference_id : option bytes;
  ev_from_tag : bytes;
  ev_stream : RtcpAppStream;
  ev_ssrc : Z;
  ev_name : bytes;
  ev_subtype : Z;
  ev_payload : bytes
}.

Definition APP_EVENT_QUEUE_CAPACITY : Z := 4096.
Definition MAX_APP_DATAGRAM : Z := 1500.

Record AppEventQueue : Type := mkAppEventQueue { q_events : list Event; q_capacity : Z; q_dropped : Z }.

Definition AppEventQueue_new (capacity : Z) : AppEventQueue := mkAppEventQueue [] capacity 0.

Definition report_loss (q : AppEventQueue) : AppEventQueue := mkAppEventQueue (q_events q) (q_capacity q) (q_dropped q + 1).

(** The oldest event, taken by the connection loop or evicted by a producer. *)
Definition try_recv (q : AppEventQueue) : option Event * AppEventQueue :=
  match q_events q with
  | [] => (None, q)
  | e :: rest => (Some e, mkAppEventQueue rest (q_capacity q) (q_dropped q))
  end.

Fixpoint push_turns (turns : nat) (q : AppEventQueue) (event : Event) : AppEventQueue :=
  match turns with
  | O => report_loss q
  | S turns =>
      if len (q_events q) <? q_capacity q then mkAppEventQueue (q_events q ++ [event]) (q_capacity q) (q_dropped q)
      else match try_recv q with
           | (Some _, q) => push_turns turns (report_loss q) event
           | (None, q) => push_turns turns q event
           end
  end.

Definition push (q : AppEventQueue) (event : Event) : AppEventQueue := push_turns 4 q event.

Inductive AppScope : Type := ScopeCall (call : bytes) | ScopeRoom (room : bytes).

Definition name_text (name : bytes) : bytes := (fun b => if b <? 128 then b else 63) <$> name.

Definition app_event (scope : AppScope) (tag : bytes) (stream : RtcpAppStream) (app : AppPacket) : Event :=
  let '(call_id, conference_id) := match scope with ScopeCall c => (Some c, None) | ScopeRoom r => (None, Some r) end in
  mkEvent call_id conference_id tag stream (ap_ssrc app) (name_text (ap_name app)) (ap_subtype app) (ap_data app).

(** The events of a datagram, and how many APP packets and breaks were read. *)
Definition surface_app_packets (scope : AppScope) (tag : bytes) (stream : RtcpAppStream) (data : bytes)
  : list Event * Z * Z :=
  let packets := all_app_packets data in
  (omap (fun r => match r with Ok app => Some (app_event scope tag stream app) | _ => None end) packets,
   len (filter (fun r => is_ok r = true) packets), len (filter (fun r => is_ok r = false) packets)).

Abbreviation queues := (gmap Z AppEventQueue).

Definition surface_app_to_queue (scope : AppScope) (tag : bytes) (queue : option Z) (stream : RtcpAppStream) (data : bytes)
  (qs : queues) : queues * Z * Z :=
  let '(events, raised, malformed) := surface_app_packets scope tag stream data in
  (match queue with Some h => alter (fun q => fold_left push events q) h qs | None => qs end, raised, malformed).

(** ** SRTCP protection (floor_srtcp.rs) *)

Record FloorProtection : Type := mkFloorProtection {
  fp_context : SrtcpGcmContext;
  fp_keys : list FloorMasterKey;
  fp_plain : bytes
}.

Inductive FloorDrop : Type := DropLatch | DropUnauthenticated.

Definition kept (keys : list FloorMasterKey) : list FloorMasterKey := kept_keys keys.

Abbreviation latch := (option (SourceLatch SocketAddr)).

Definition FLOOR_KEY_LEN : Z := 16.
Definition FLOOR_SALT_LEN : Z := 12.
Definition FLOOR_SALT_LEN_LONG : Z := 14.

Record FloorKey : Type := mkFloorKey { fk_mki : Z; fk_key : bytes; fk_salt : bytes }.

Inductive FloorKeyError : Type := KeyLength (n : Z) | SaltLength (n : Z) | TooMany (n : Z) | KeyMgmtLineBreak.

Definition FloorKey_validate (k : FloorKey) : res FloorKeyError unit :=
  if negb (len (fk_key k) =? FLOOR_KEY_LEN) then Err (KeyLength (len (fk_key k))) else
  if negb (len (fk_salt k) =? FLOOR_SALT_LEN) && negb (len (fk_salt k) =? FLOOR_SALT_LEN_LONG)
  then Err (SaltLength (len (fk_salt k))) else mret tt.

(** Why [master_keys] refuses a set: the source formats either error as text. *)
Inductive KeysError : Type := BadKey (e : FloorKeyError) | SetRefused (e : SrtpError).

Section floor.
Context `{C : SrtpCrypto} `{G : GcmCrypto}.

(** The controller's keys (siphon-rtp-proto/src/lib.rs) and their conversion. *)
Definition master_key (key : FloorKey) : res KeysError FloorMasterKey :=
  _ ← map_err BadKey (FloorKey_validate key);
  if len (fk_salt key) =? FLOOR_SALT_LEN then map_err SetRefused (from_salt_96 (fk_mki key) (fk_key key) (fk_salt key))
  else mret (mkFloorMasterKey (fk_mki key) (fk_key key) (fk_salt key)).

Definition master_keys (keys : list FloorKey) : res KeysError (list FloorMasterKey) :=
  converted ← mapM master_key keys;
  if bool_decide (converted = []) then mret converted else
  _ ← map_err SetRefused (SrtcpGcmContext_new converted);
  mret converted.

Definition FloorProtection_new (keys : list FloorMasterKey) : option FloorProtection :=
  if bool_decide (keys = []) then None else
  match SrtcpGcmContext_new keys with
  | Ok context => Some (mkFloorProtection context (kept keys) [])
  | _ => None
  end.

Definition floor_replace_keys (p : FloorProtection) (keys : list FloorMasterKey) : res SrtpError unit * FloorProtection :=
  match replace_keys (fp_context p) keys with
  | (Ok _, context) => (Ok tt, mkFloorProtection context (kept keys) (fp_plain p))
  | (r, context) => (r, mkFloorProtection context (fp_keys p) (fp_plain p))
  end.

Definition floor_resume (p : FloorProtection) (index : Z) (received : list (Z * Z)) : FloorProtection :=
  let context := set_send_index (fp_context p) index in
  mkFloorProtection (fold_left (fun c r => resume_received c r.1 r.2) received context) (fp_keys p) (fp_plain p).

Definition floor_open (p : FloorProtection) (wire : bytes) : res SrtpError bytes * FloorProtection :=
  let '(r, context, plain) := gcm_unprotect (fp_context p) wire (fp_plain p) in
  (_ ← r; mret plain, mkFloorProtection context (fp_keys p) plain).

Definition floor_seal (p : FloorProtection) (rtcp out : bytes) : res SrtpError unit * FloorProtection * bytes :=
  let '(r, context, out) := gcm_protect (fp_context p) rtcp true out in
  (r, mkFloorProtection context (fp_keys p) (fp_plain p), out).

(** [admit]: the plaintext and the destination learned, with the protection, the
    latch and the refusals marked. *)
Definition floor_admit (protection : option FloorProtection) (l : latch) (warned : Z) (packet : RxPacket)
  : res FloorDrop (bytes * option SocketAddr) * option FloorProtection * latch * Z :=
  let then_latch data protection :=
    match OpaqueLatch_admit l (rx_source packet) with
    | (ReplyReject, l) => (Err DropLatch, protection, l, refusal_log warned NewSource)
    | (Accept destination, l) => (Ok (data, destination), protection, l, warned)
    end in
  match protection with
  | None => then_latch (rx_data packet) protection
  | Some p =>
      if match OpaqueLatch_latched l with Some s => negb (bool_decide (s = rx_source packet)) | None => false end
      then (Err DropLatch, protection, l, refusal_log warned NewSource) else
      match floor_open p (rx_data packet) with
      | (Ok plain, p) => then_latch plain (Some p)
      | (Err error, p) =>
          (Err DropUnauthenticated, Some p, l, match of_unprotect error with Some r => refusal_log warned r | None => warned end)
      | (Panic, p) => (Panic, Some p, l, warned)
      end
  end.

(** ** Legs (call_floor.rs) *)

Definition MAX_DATAGRAM : Z := 1500.

Record FloorRestore : Type := mkFloorRestore {
  re_latched : option SocketAddr; re_send_index : Z; re_received : list (Z * Z)
}.

Record CallFloorLeg : Type := mkCallFloorLeg {
  cl_call_id : bytes;
  cl_tag : bytes;
  cl_endpoint : Z;
  cl_destination : SocketAddr;
  cl_accepted_source : SourceFilter;
  cl_ssrc : Z;
  cl_events : option Z;
  cl_keys : list FloorMasterKey;
  cl_fmtp : option bytes;
  cl_restore : option FloorRestore
}.

Record Leg : Type := mkLeg {
  lg_config : CallFloorLeg;
  lg_latch : latch;
  lg_warned : Z;
  lg_raised : Z;
  lg_malformed : Z;
  lg_refused : Z;
  lg_protection : option FloorProtection
}.

Record FloorLegState : Type := mkFloorLegState {
  fs_destination : SocketAddr;
  fs_accepted_source : SourceFilter;
  fs_latched : option SocketAddr;
  fs_ssrc : Z;
  fs_keys : list FloorMasterKey;
  fs_send_index : Z;
  fs_received : list (Z * Z)
}.

Inductive CallFloorError : Type :=
| UnknownLeg (call_id tag : bytes)
| BadPacket (e : AppWriteError)
| NoDestination (tag : bytes)
| SendFailed (tag : bytes)
| KeysRefused (e : option SrtpError).

Record AppRequest : Type := mkAppRequest {
  rq_ssrc : option Z; rq_name : bytes; rq_subtype : Z; rq_payload : bytes
}.

Record CallFloors : Type := mkCallFloors { cf_legs : gmap Z Leg; cf_scratch : bytes; cf_protected : bytes }.

Definition CallFloors_default : CallFloors := mkCallFloors ∅ [] [].

Definition with_legs (f : CallFloors) (legs : gmap Z Leg) : CallFloors := mkCallFloors legs (cf_scratch f) (cf_protected f).

Definition set_destination (c : CallFloorLeg) (d : SocketAddr) : CallFloorLeg :=
  mkCallFloorLeg (cl_call_id c) (cl_tag c) (cl_endpoint c) d (cl_accepted_source c) (cl_ssrc c) (cl_events c)
    (cl_keys c) (cl_fmtp c) (cl_restore c).

Definition clear_restore (c : CallFloorLeg) : CallFloorLeg :=
  mkCallFloorLeg (cl_call_id c) (cl_tag c) (cl_endpoint c) (cl_destination c) (cl_accepted_source c) (cl_ssrc c) (cl_events c)
    (cl_keys c) (cl_fmtp c) None.

Definition set_protection (l : Leg) (p : option FloorProtection) : Leg :=
  mkLeg (lg_config l) (lg_latch l) (lg_warned l) (lg_raised l) (lg_malformed l) (lg_refused l) p.

Definition register (f : CallFloors) (config : CallFloorLeg) : CallFloors :=
  let protection := FloorProtection_new (cl_keys config) in
  let '(protection, l) :=
    match cl_restore config with
    | Some r =>
        ((fun p => floor_resume p (re_send_index r) (re_received r)) <$> protection,
         match re_latched r with Some s => OpaqueLatch_pinned s | None => None end)
    | None => (protection, None)
    end in
  with_legs f (<[cl_endpoint config := mkLeg (clear_restore config) l 0 0 0 0 protection]> (cf_legs f)).

(** The leg of a call by its tag: the first one met, in whatever order the hash
    map keeps them. *)
Definition is_leg (call_id tag : bytes) (l : Z * Leg) : Prop :=
  cl_call_id (lg_config l.2) = call_id /\ cl_tag (lg_config l.2) = tag.
#[local] Instance is_leg_dec call_id tag l : Decision (is_leg call_id tag l).
Proof. unfold is_leg. apply _. Defined.

Definition find_leg (f : CallFloors) (call_id tag : bytes) : option (Z * Leg) :=
  snd <$> list_find (is_leg call_id tag) (map_to_list (cf_legs f)).

Definition set_keys (f : CallFloors) (call_id tag : bytes) (keys : list FloorMasterKey) : res CallFloorError unit * CallFloors :=
  match find_leg f call_id tag with
  | None => (Err (UnknownLeg call_id tag), f)
  | Some (ep, leg) =>
      let put p := with_legs f (<[ep := set_protection leg p]> (cf_legs f)) in
      if bool_decide (keys = []) then (Ok tt, put None) else
      match lg_protection leg with
      | Some p =>
          match floor_replace_keys p keys with
          | (Ok _, p) => (Ok tt, put (Some p))
          | (Err e, p) => (Err (KeysRefused (Some e)), put (Some p))
          | (Panic, p) => (Panic, put (Some p))
          end
      | None =>
          match FloorProtection_new keys with
          | Some p => (Ok tt, put (Some p))
          | None => (Err (KeysRefused None), f)
          end
      end
  end.

Definition key_state (f : CallFloors) (call_id tag : bytes) : option (list FloorMasterKey * Z) :=
  l ← find_leg f call_id tag;
  p ← lg_protection l.2;
  Some (fp_keys p, send_index (fp_context p)).

Definition leg_state (f : CallFloors) (call_id tag : bytes) : option FloorLegState :=
  l ← find_leg f call_id tag;
  let '(keys, index, received) :=
    match lg_protection l.2 with
    | Some p => (fp_keys p, send_index (fp_context p), received_indices (fp_context p))
    | None => ([], 0, [])
    end in
  Some (mkFloorLegState (cl_destination (lg_config l.2)) (cl_accepted_source (lg_config l.2))
    (OpaqueLatch_latched (lg_latch l.2)) (cl_ssrc (lg_config l.2)) keys index received).

Definition refused (f : CallFloors) (endpoint : Z) : option Z := lg_refused <$> cf_legs f !! endpoint.
Definition counters (f : CallFloors) (endpoint : Z) : option (Z * Z) :=
  (fun l => (lg_raised l, lg_malformed l)) <$> cf_legs f !! endpoint.

Definition deregister_call (f : CallFloors) (call_id : bytes) : CallFloors :=
  with_legs f (filter (fun l => cl_call_id (lg_config l.2) <> call_id) (cf_legs f)).

Definition ingest (f : CallFloors) (qs : queues) (packet : RxPacket) : res SrtpError Ingress * CallFloors * queues :=
  match cf_legs f !! rx_endpoint packet with
  | None => (Ok Refused, f, qs)
  | Some leg =>
      let put leg := with_legs f (<[rx_endpoint packet := leg]> (cf_legs f)) in
      let config := lg_config leg in
      if negb (accepts (cl_accepted_source config) (sa_ip (rx_source packet))) then
        (Ok Refused, put (mkLeg config (lg_latch leg) (refusal_log (lg_warned leg) UnsignalledSource) (lg_raised leg)
           (lg_malformed leg) (lg_refused leg) (lg_protection leg)), qs)
      else
        let '(r, protection, l, warned) := floor_admit (lg_protection leg) (lg_latch leg) (lg_warned leg) packet in
        match r with
        | Ok (data, learned) =>
            let config := match learned with Some d => set_destination config d | None => config end in
            let '(qs, raised, malformed) :=
              surface_app_to_queue (ScopeCall (cl_call_id config)) (cl_tag config) (cl_events config) StreamFloor data qs in
            (Ok Accepted, put (mkLeg config l warned (lg_raised leg + raised) (lg_malformed leg + malformed)
               (lg_refused leg) protection), qs)
        | Err DropLatch =>
            (Ok Refused, put (mkLeg config l warned (lg_raised leg) (lg_malformed leg) (lg_refused leg) protection), qs)
        | Err DropUnauthenticated =>
            (Ok Refused, put (mkLeg config l warned (lg_raised leg) (lg_malformed leg) (lg_refused leg + 1) protection), qs)
        | Panic => (Panic, f, qs)
        end
  end.

Definition grow (scratch : bytes) : bytes :=
  if len scratch <? MAX_DATAGRAM then scratch ++ replicate (Z.to_nat (MAX_DATAGRAM - len scratch)) 0 else scratch.

(** [build]: where to send what. *)
Definition build (f : CallFloors) (call_id tag : bytes) (request : AppRequest)
  : res CallFloorError (Z * SocketAddr * bytes) * CallFloors :=
  match find_leg f call_id tag with
  | None => (Err (UnknownLeg call_id tag), f)
  | Some (ep, leg) =>
      let config := lg_config leg in
      let destination := cl_destination config in
      let ssrc := default (cl_ssrc config) (rq_ssrc request) in
      let f := mkCallFloors (cf_legs f) (grow (cf_scratch f)) (cf_protected f) in
      match write_app (rq_subtype request) ssrc (rq_name request) (rq_payload request) (cf_scratch f) with
      | Err e => (Err (BadPacket e), f)
      | Panic => (Panic, f)
      | Ok (length, scratch) =>
          let f := mkCallFloors (cf_legs f) scratch (cf_protected f) in
          if is_unspecified (sa_ip destination) || (sa_port destination =? 0) then (Err (NoDestination tag), f) else
          match lg_protection leg with
          | Some p =>
              let '(r, p, protected) := floor_seal p (sub scratch 0 length) (cf_protected f) in
              let f := mkCallFloors (<[ep := set_protection leg (Some p)]> (cf_legs f)) scratch protected in
              match r with
              | Ok _ => (Ok (cl_endpoint config, destination, protected), f)
              | Err e => (Err (KeysRefused (Some e)), f)
              | Panic => (Panic, f)
              end
          | None => (Ok (cl_endpoint config, destination, sub scratch 0 length), f)
          end
      end
  end.

(** ** The actor *)

Inductive Input : Type :=
| InPacket (packet : RxPacket)
| InRegister (leg : CallFloorLeg)
| InDeregister (call_id : bytes)
| InState (call_id tag : bytes)
| InSetKeys (call_id tag : bytes) (keys : list FloorMasterKey)
| InSend (call_id tag : bytes) (request : AppRequest) (datapath_takes : bool).

Inductive Output : Type :=
| NoteActivity (endpoint : Z)
| NoteDropped (endpoint : Z)
| Datagram (endpoint : Z) (destination : SocketAddr) (data : bytes)
| ReplyState (state : option FloorLegState)
| ReplyOutcome (outcome : res CallFloorError unit).

Definition record_ingress (i : Ingress) (endpoint : Z) : list Output :=
  (if is_live i then [NoteActivity endpoint] else []) ++ (if is_dropped i then [NoteDropped endpoint] else []).

(** One turn of [run_call_floors]; [datapath_takes] is the datapath's answer. *)
Definition floor_step (f : CallFloors) (qs : queues) (input : Input) : res SrtpError (list Output) * CallFloors * queues :=
  match input with
  | InPacket packet =>
      let '(r, f, qs) := ingest f qs packet in
      (i ← r; mret (record_ingress i (rx_endpoint packet)), f, qs)
  | InRegister leg => (Ok [], register f leg, qs)
  | InDeregister call_id => (Ok [], deregister_call f call_id, qs)
  | InState call_id tag => (Ok [ReplyState (leg_state f call_id tag)], f, qs)
  | InSetKeys call_id tag keys =>
      let '(r, f) := set_keys f call_id tag keys in (Ok [ReplyOutcome r], f, qs)
  | InSend call_id tag request datapath_takes =>
      match build f call_id tag request with
      | (Ok (ep, destination, data), f) =>
          (Ok [Datagram ep destination data;
               ReplyOutcome (if (datapath_takes : bool) then Ok tt else Err (SendFailed tag))], f, qs)
      | (Err e, f) => (Ok [ReplyOutcome (Err e)], f, qs)
      | (Panic, f) => (Panic, f, qs)
      end
  end.
End floor.

(** * Proofs *)

Section floor_proofs.
Context `{C : SrtpCrypto} `{G : GcmCrypto}.

(** ** Opening hostile datagrams *)

(** The windows of the ring represent these sets of indices. *)
Definition ring_seen (keys : list KeyEntry) (rs : list (gset Z)) : Prop :=
  Forall2 (fun e R => window_ok (ke_replay e) R) keys rs.

Definition gcm_inv (c : SrtcpGcmContext) : Prop := exists rs, ring_seen (gc_keys c) rs.

(** [data] authenticates under the session keys and carries [plain]. *)
Definition authentic (s : GcmSession) (data plain : bytes) : Prop :=
  exists word encrypted index tag ssrc text,
    open_fields (sub data 0 (len data - 4)) ReplayWindow_default = Ok (word, encrypted, index, tag, ssrc, text) /\
    open_cipher s word encrypted index tag ssrc text = Ok plain.

Definition mki_of (data : bytes) : Z := be_dec (sub data (len data - 4) (len data)).
Definition index_of (data : bytes) : Z := Z.land (be_dec (sub data (len data - 8) (len data - 4))) INDEX_MASK.

Lemma open_fields_cases body w R : bytes_ok body -> 28 <= len body -> window_ok w R ->
  let word := be_dec (sub body (len body - 4) (len body)) in
  let index := Z.land word INDEX_MASK in
  open_fields body w =
    if freshb R index then
      Ok (word, negb (Z.land word ENCRYPT_FLAG =? 0), index, sub body (len body - 20) (len body - 4),
          be_dec (sub body 4 8), sub body 0 (len body - 20))
    else Err Replayed.
Proof.
  intros Hb Hl HR word index. unfold open_fields, ESRTCP_LEN, GCM_TAG_LEN.
  rewrite usub_Ok, bind_Ok, (be32_at_sub body (len body - 4)), bind_Ok by lia. replace (len body - 4 + 4) with (len body) by lia.
  fold word. fold index. destruct (is_replay_correct w R index HR) as (b & -> & Hbf). rewrite bind_Ok.
  destruct (freshb R index) eqn:Hf.
  - apply freshb_spec in Hf. rewrite (proj2 Hbf Hf).
    rewrite usub_Ok, bind_Ok, !slice_Ok, bind_Ok, be32_at_sub, !bind_Ok by lia.
    by replace (len body - 4 - 16) with (len body - 20) by lia.
  - destruct b; [done|]. by rewrite (proj2 (freshb_spec R index) (proj1 Hbf eq_refl)) in Hf.
Qed.

Lemma open_cipher_no_panic s word encrypted index tag ssrc text : 8 <= len text ->
  match open_cipher s word encrypted index tag ssrc text with Panic => False | _ => True end.
Proof.
  intros Hl. unfold open_cipher, CLEAR_HEADER_LEN. destruct encrypted.
  - rewrite !slice_Ok, !bind_Ok by lia. by destruct (gcm_decrypt _ _ _ _ _).
  - by destruct (gcm_decrypt _ _ _ _ _).
Qed.

(** What [unprotect] makes of any datagram: an error that changes nothing, or a
    packet of one held key, which is then recorded. *)
Lemma gcm_unprotect_cases c data out rs : bytes_ok data -> ring_seen (gc_keys c) rs ->
  match gcm_unprotect c data out with
  | (Ok _, c', plain) => exists i e w' R,
      list_find (holds_mki (mki_of data)) (gc_keys c) = Some (i, e) /\
      c' = SrtcpGcm.set_keys c (<[i := set_replay e w']> (gc_keys c)) /\ authentic (ke_session e) data plain /\
      rs !! i = Some R /\ fresh_index R (index_of data) /\ window_ok w' ({[ index_of data ]} ∪ R)
  | (Err _, c', _) => c' = c
  | (Panic, _, _) => False
  end.
Proof.
  intros Hb Hinv. unfold gcm_unprotect, MIN_PACKET_LEN.
  change (CLEAR_HEADER_LEN + GCM_TAG_LEN + ESRTCP_LEN + SrtcpGcm.MKI_LEN) with 32.
  destruct (Z.ltb_spec (len data) 32) as [|Hl]; [done|].
  rewrite idx_byte_of, bind_Ok by lia. destruct (negb _); [done|]. unfold MKI_LEN.
  rewrite usub_Ok, bind_Ok, !slice_Ok, !bind_Ok by lia.
  rewrite be32_at_sub, bind_Ok by (rewrite ?len_sub; lia). unfold mret, res_ret.
  rewrite sub_sub by lia. replace (len data - 4 + 0) with (len data - 4) by lia.
  replace (len data - 4 + (0 + 4)) with (len data) by lia.
  fold (mki_of data).
  destruct (list_find _ (gc_keys c)) as [[i e]|] eqn:Hf; [|done].
  pose proof Hf as (Hi & _)%list_find_Some. destruct (Forall2_lookup_l _ _ _ _ _ Hinv Hi) as (R & HRi & HR). set (body := sub data 0 (len data - 4)).
  assert (len body = len data - 4) as Hlb by (unfold body; rewrite len_sub; lia).
  assert (bytes_ok body) as Hbb by (by apply bytes_ok_sub).
  assert (be_dec (sub body (len body - 4) (len body)) = be_dec (sub data (len data - 8) (len data - 4))) as Hw.
  { rewrite Hlb. unfold body. rewrite sub_sub by lia. do 2 f_equal; lia. }
  unfold SrtcpGcm.open. rewrite (open_fields_cases body (ke_replay e) R Hbb ltac:(lia) HR). rewrite Hw. fold (index_of data).
  destruct (freshb R (index_of data)) eqn:Hfr.
  2: { rewrite list_insert_id; [by destruct c|]. by destruct e. }
  apply freshb_spec in Hfr. set (text := sub body 0 (len body - 20)).
  pose proof (open_cipher_no_panic (ke_session e) (be_dec (sub data (len data - 8) (len data - 4)))
    (negb (Z.land (be_dec (sub data (len data - 8) (len data - 4))) ENCRYPT_FLAG =? 0)) (index_of data)
    (sub body (len body - 20) (len body - 4)) (be_dec (sub body 4 8)) text ltac:(unfold text; rewrite len_sub; lia)) as Hnp.
  destruct (open_cipher _ _ _ _ _ _ _) as [plain|err|] eqn:Ho; [|..|done].
  - destruct (record_correct _ _ _ HR Hfr) as (w' & -> & Hw' & _).
    exists i, e, w', R. split; [done|]. split; [done|]. split; [|done].
    eexists _, _, _, _, _, _. split; [|exact Ho]. fold body.
    rewrite (open_fields_cases body ReplayWindow_default ∅ Hbb ltac:(lia) eq_refl), Hw. fold (index_of data).
    assert (freshb ∅ (index_of data) = true) as ->; [|done]. apply freshb_spec. split; set_solver.
  - rewrite list_insert_id; [by destruct c|]. by destruct e.
Qed.

(** ** The invariant of the actor's state *)

Definition leg_ok (ep : Z) (l : Leg) : Prop :=
  cl_endpoint (lg_config l) = ep /\ fits 32 (cl_ssrc (lg_config l)) /\
  forall p, lg_protection l = Some p -> gcm_inv (fp_context p).

(** The keys a leg accepts under, with their replay windows. *)
Definition ring_view (l : Leg) : option (list KeyEntry) := (fun p => gc_keys (fp_context p)) <$> lg_protection l.

Definition floors_ok (f : CallFloors) : Prop := map_Forall leg_ok (cf_legs f).

Definition request_ok (r : AppRequest) : Prop :=
  0 <= rq_subtype r /\ (forall s, rq_ssrc r = Some s -> fits 32 s) /\ len (rq_name r) = 4 /\ bytes_ok (rq_name r) /\
  bytes_ok (rq_payload r).

(** What the types of the messages say. *)
Definition input_ok (i : Input) : Prop :=
  match i with
  | InPacket packet => bytes_ok (rx_data packet)
  | InRegister leg => fits 32 (cl_ssrc leg)
  | InSend _ _ request _ => request_ok request
  | _ => True
  end.

Lemma new_window_ok : window_ok ReplayWindow_default ∅.
Proof. done. Qed.

Lemma gcm_inv_forall c : gcm_inv c <-> Forall (fun e => exists R, window_ok (ke_replay e) R) (gc_keys c).
Proof.
  unfold gcm_inv, ring_seen. induction (gc_keys c) as [|e l IH]; [by split; [constructor|exists []]|].
  rewrite Forall_cons, <- IH. split.
  - intros (rs & H). inversion H; subst. eauto.
  - intros ((R & HR) & rs & H). exists (R :: rs). by constructor.
Qed.

Lemma swap_remove_sub {A} (l : list A) i x : x ∈ swap_remove l i -> x ∈ l.
Proof.
  unfold swap_remove. destruct (last l) as [z|] eqn:Hl; [|done]. intros Hx%elem_of_take.
  destruct Hx as (j & Hx & _). apply last_Some_elem_of in Hl.
  rewrite list_lookup_insert in Hx. case_decide; [by injection Hx as <-|by eapply list_elem_of_lookup_2].
Qed.

Lemma collect_keys_from kept : forall old e,
  e ∈ collect_keys old kept -> e ∈ old \/ ke_replay e = ReplayWindow_default.
Proof.
  induction kept as [|m kept IH]; intros old e; cbn [collect_keys].
  - by intros ?%elem_of_nil.
  - destruct (list_find _ old) as [[i x]|] eqn:Hf; intros [->|He]%elem_of_cons.
    + left. apply list_find_Some in Hf as (Hi & _). by eapply list_elem_of_lookup_2.
    + destruct (IH _ _ He) as [H%swap_remove_sub|H]; auto.
    + by right.
    + destruct (IH _ _ He) as [H|H]; auto.
Qed.

Lemma gcm_inv_replace c keys : gcm_inv c -> gcm_inv (replace_keys c keys).2.
Proof.
  intros H. assert (forall kept, gcm_inv (SrtcpGcm.set_keys c (collect_keys (gc_keys c) kept))) as Hk.
  { intros kept. rewrite gcm_inv_forall, Forall_forall in H |- *. intros e He. cbn in He.
    destruct (collect_keys_from _ _ _ He) as [Ho|He'].
    2: { rewrite He'. exists ∅. apply new_window_ok. }
    by apply H. }
  unfold replace_keys. destruct (kept_keys keys) as [|a [|b [|]]]; [done|apply Hk| |apply Hk].
  by destruct (_ =? _); [|apply Hk].
Qed.

Lemma gcm_inv_new keys c : SrtcpGcmContext_new keys = Ok c -> gcm_inv c.
Proof.
  unfold SrtcpGcmContext_new. pose proof (gcm_inv_replace (mkSrtcpGcmContext [] 0 false) keys) as H.
  destruct (replace_keys _ _) as [[]]; try done. intros [= <-]. apply H. exists []. constructor.
Qed.

Lemma gcm_inv_resume c r : gcm_inv c -> gcm_inv (resume_received c r.1 r.2).
Proof.
  intros H. unfold resume_received. destruct (list_find _ _) as [[i e]|]; [|done].
  rewrite gcm_inv_forall in H |- *. cbn. apply Forall_insert; [done|]. eexists. apply close_at_window.
Qed.

Lemma gcm_inv_resumes rs : forall c, gcm_inv c -> gcm_inv (fold_left (fun c r => resume_received c r.1 r.2) rs c).
Proof. induction rs as [|r rs IH]; [done|]. intros c H. by apply IH, gcm_inv_resume. Qed.

Lemma protection_new_ok keys p : FloorProtection_new keys = Some p -> gcm_inv (fp_context p).
Proof.
  unfold FloorProtection_new. case_bool_decide; [done|]. destruct (SrtcpGcmContext_new keys) eqn:Hn; [|done..].
  intros [= <-]. by eapply gcm_inv_new.
Qed.

Lemma advance_keys c : gc_keys (advance c) = gc_keys c.
Proof. unfold advance. by destruct (_ =? _). Qed.

(** ** Sealing never panics and moves no key *)

Lemma gcm_protect_cases c p encrypt out : 8 <= len p ->
  match gcm_protect c p encrypt out with
  | (Panic, _, _) => False
  | (_, c', _) => gc_keys c' = gc_keys c
  end.
Proof.
  intros Hl. unfold gcm_protect, CLEAR_HEADER_LEN. rewrite (proj2 (Z.ltb_ge (len p) 8)), idx_byte_of by lia.
  destruct (negb _); [done|]. destruct (gc_exhausted c); [done|]. destruct (last (gc_keys c)) as [e|]; [|done].
  unfold seal. rewrite be32_at_sub by lia. set (w := Z.lor _ _).
  assert (match seal_cipher (ke_session e) p encrypt (be_dec (sub p 4 (4 + 4))) (gc_send_index c) w with
    Panic => False | _ => True end) as Hs.
  { unfold seal_cipher, CLEAR_HEADER_LEN. destruct encrypt.
    - rewrite !slice_Ok, !bind_Ok by lia. by destruct (gcm_encrypt _ _ _ _) as [[]|].
    - by destruct (gcm_encrypt _ _ _ _) as [[]|]. }
  destruct (seal_cipher _ _ _ _ _ _) as [[]| |]; [apply advance_keys|done..].
Qed.

#[local] Instance app_ok_dec a : Decision (app_ok a).
Proof. unfold app_ok, fits, bytes_ok, is_byte. apply _. Defined.

(** [write_app] refuses a request or writes the packet it names. *)
Lemma write_app_cases subtype ssrc name data out :
  0 <= subtype -> fits 32 ssrc -> len name = 4 -> bytes_ok name -> bytes_ok data ->
  match write_app subtype ssrc name data out with
  | Ok (n, out') => let a := mkAppPacket subtype ssrc name data in
      app_ok a /\ n = 12 + len data /\ n <= len out /\
      sub out' 0 n = frame_bytes (app_frame a) /\ len (frame_bytes (app_frame a)) = n
  | Err _ => True
  | Panic => False
  end.
Proof.
  intros Hs Hss Hn Hnb Hd. set (a := mkAppPacket subtype ssrc name data).
  destruct (decide (app_ok a /\ 12 + len data <= len out)) as [[Ha Ho]|Hno].
  - pose proof (write_app_Ok a out Ha Ho) as Hw. cbn [ap_subtype ap_ssrc ap_name ap_data a] in Hw. rewrite Hw.
    assert (len (frame_bytes (app_frame a)) = 12 + len data) as Hl
      by (rewrite len_frame_bytes, (app_frame_len a Ha); cbn; lia).
    cbn zeta. unfold APP_HEADER_LEN. rewrite sub_app_begin by done. done.
  - unfold write_app, APP_HEADER_LEN.
    destruct (Z.ltb_spec 0x1F subtype); [done|]. destruct (is_ascii name) eqn:?; [cbn [negb]|done].
    destruct (Z.eqb_spec (len data mod 4) 0); [cbn [negb]|done]. destruct (Z.ltb_spec APP_MAX_DATA_LEN (len data)); [done|].
    destruct (Z.ltb_spec (len out) (12 + len data)); [done|]. destruct Hno.
    repeat split; cbn; try done; unfold fits in *; lia.
Qed.

(** ** One turn of the actor *)

(** Nothing the gate decides by has moved. *)
Definition leg_same (l l' : Leg) : Prop :=
  lg_config l' = lg_config l /\ lg_latch l' = lg_latch l /\ ring_view l' = ring_view l.

(** The leg took the packet: it came from the signalled source, no other source
    was latched, it authenticated under one of the keys with an index not seen
    under it, and the source is now latched and replied to. *)
Record took (rs : list (gset Z)) (keys : list KeyEntry) (l : Leg) (packet : RxPacket) (l' : Leg) : Prop := {
  tk_accepts : accepts (cl_accepted_source (lg_config l)) (sa_ip (rx_source packet)) = true;
  tk_before : OpaqueLatch_latched (lg_latch l) ∈ [None; Some (rx_source packet)];
  tk_after : OpaqueLatch_latched (lg_latch l') = Some (rx_source packet);
  tk_config : lg_config l' = set_destination (lg_config l) (rx_source packet);
  tk_ring : exists i e w' R plain,
    list_find (holds_mki (mki_of (rx_data packet))) keys = Some (i, e) /\
    ring_view l' = Some (<[i := set_replay e w']> keys) /\ authentic (ke_session e) (rx_data packet) plain /\
    rs !! i = Some R /\ fresh_index R (index_of (rx_data packet)) /\
    window_ok w' ({[ index_of (rx_data packet) ]} ∪ R)
}.

Lemma opaque_admit_from (l : latch) s : OpaqueLatch_latched l ∈ [None; Some s] ->
  exists l', OpaqueLatch_admit l s = (Accept (Some s), l') /\ OpaqueLatch_latched l' = Some s.
Proof.
  unfold OpaqueLatch_latched, OpaqueLatch_admit, source_latch_verdict.
  destruct l as [[s' k]|]; cbn; [|eauto]. rewrite !elem_of_cons, elem_of_nil. intros [|[[= ->]|[]]]; [done|].
  rewrite bool_decide_eq_true_2 by done. destruct k; cbn; eauto.
Qed.

Lemma ingest_keyed f qs packet leg p rs :
  cf_legs f !! rx_endpoint packet = Some leg -> lg_protection leg = Some p ->
  ring_seen (gc_keys (fp_context p)) rs -> bytes_ok (rx_data packet) ->
  exists r leg' qs',
    ingest f qs packet = (Ok r, with_legs f (<[rx_endpoint packet := leg']> (cf_legs f)), qs') /\
    (r = Refused /\ qs' = qs /\ leg_same leg leg' \/
     r = Accepted /\ took rs (gc_keys (fp_context p)) leg packet leg').
Proof.
  intros Hleg Hp Hrs Hb. unfold ingest. rewrite Hleg.
  destruct (accepts _ _) eqn:Hacc; cbn [negb].
  2: { eexists _, _, _. split; [reflexivity|]. left. by repeat split. }
  unfold floor_admit. rewrite Hp.
  destruct (match OpaqueLatch_latched (lg_latch leg) with Some s => negb (bool_decide (s = rx_source packet)) | None => false end) eqn:Hl.
  { eexists _, _, _. split; [done|]. left. repeat split. unfold ring_view. cbn. by rewrite Hp. }
  assert (OpaqueLatch_latched (lg_latch leg) ∈ [None; Some (rx_source packet)]) as Hbefore.
  { destruct (OpaqueLatch_latched _); [|left]. apply negb_false_iff, bool_decide_eq_true in Hl as ->. right. left. }
  pose proof (gcm_unprotect_cases (fp_context p) (rx_data packet) (fp_plain p) rs Hb Hrs) as Hu.
  unfold floor_open. destruct (gcm_unprotect _ _ _) as [[[[]|err|] c'] plain]; [..|done]; cbn -[surface_app_to_queue].
  - destruct Hu as (i & e & w' & R & Hf & -> & Hau & HR & Hfr & Hw).
    destruct (opaque_admit_from _ _ Hbefore) as (l' & -> & Hl'). cbn -[surface_app_to_queue].
    destruct (surface_app_to_queue _ _ _ _ _ _) as [[qs' raised] malformed].
    eexists _, _, _. split; [done|]. right. split; [done|]. split; try done.
    by exists i, e, w', R, plain.
  - subst c'. eexists _, _, _. split; [done|]. left. repeat split. unfold ring_view. cbn. by rewrite Hp.
Qed.

Lemma leg_ok_same ep l l' : leg_ok ep l -> leg_same l l' -> leg_ok ep l'.
Proof.
  intros (He & Hs & Hp) (Hc & _ & Hr). unfold leg_ok. rewrite Hc. split; [done|]. split; [done|].
  intros p' Hp'. unfold ring_view in Hr. rewrite Hp' in Hr. cbn in Hr.
  destruct (lg_protection l) as [p|]; [|done]. injection Hr as Hr. destruct (Hp p eq_refl) as (rs & H).
  exists rs. by rewrite Hr.
Qed.

Lemma ring_seen_update keys rs i e w R :
  ring_seen keys rs -> window_ok w R -> ring_seen (<[i := set_replay e w]> keys) (<[i := R]> rs).
Proof. intros. by apply Forall2_insert. Qed.

Lemma leg_ok_took ep rs keys l packet l' : leg_ok ep l -> ring_seen keys rs -> took rs keys l packet l' -> leg_ok ep l'.
Proof.
  intros (He & Hs & _) Hrs [_ _ _ Hc (i & e & w & R & plain & _ & Hv & _ & _ & _ & Hw)].
  unfold leg_ok. rewrite Hc. split; [done|]. split; [done|]. intros p Hp. unfold ring_view in Hv. rewrite Hp in Hv.
  injection Hv as Hv. eexists. rewrite Hv. by apply ring_seen_update.
Qed.

Lemma ingest_unkeyed f qs packet leg :
  cf_legs f !! rx_endpoint packet = Some leg -> lg_protection leg = None ->
  exists r leg' qs',
    ingest f qs packet = (Ok r, with_legs f (<[rx_endpoint packet := leg']> (cf_legs f)), qs') /\
    lg_protection leg' = None /\ cl_endpoint (lg_config leg') = cl_endpoint (lg_config leg) /\
    cl_ssrc (lg_config leg') = cl_ssrc (lg_config leg).
Proof.
  intros Hleg Hp. unfold ingest. rewrite Hleg. destruct (accepts _ _); cbn [negb].
  2: { eexists _, _, _. by rewrite Hp. }
  unfold floor_admit. rewrite Hp. destruct (OpaqueLatch_admit _ _) as [[[d|]|] l']; cbn -[surface_app_to_queue].
  1, 2: destruct (surface_app_to_queue _ _ _ _ _ _) as [[qs' raised] malformed].
  all: eexists _, _, _; by split.
Qed.

Lemma floors_ok_insert f ep leg : floors_ok f -> leg_ok ep leg -> floors_ok (with_legs f (<[ep := leg]> (cf_legs f))).
Proof. intros. by apply map_Forall_insert_2. Qed.

Lemma find_leg_Some f call_id tag ep leg :
  find_leg f call_id tag = Some (ep, leg) -> cf_legs f !! ep = Some leg /\ is_leg call_id tag (ep, leg).
Proof.
  unfold find_leg. destruct (list_find _ _) as [[i x]|] eqn:Hf; [|done]. intros [= ->].
  apply list_find_Some in Hf as (Hi & Hl & _). split; [|done].
  apply elem_of_map_to_list. by eapply list_elem_of_lookup_2.
Qed.

(** The inputs that leave a leg registered with the keys it has. *)
Definition spares (ep : Z) (l : Leg) (i : Input) : Prop :=
  match i with
  | InRegister config => cl_endpoint config <> ep
  | InDeregister call_id => call_id <> cl_call_id (lg_config l)
  | InSetKeys call_id tag _ => ~ is_leg call_id tag (ep, l)
  | _ => True
  end.

(** The datagram a turn accepted on the endpoint, which is one that noted activity. *)
Definition taken (ep : Z) (turn : Input * list Output) : option RxPacket :=
  match turn with
  | (InPacket packet, [NoteActivity e]) => if e =? ep then Some packet else None
  | _ => None
  end.

(** What a turn does to every keyed leg it spares. *)
Definition turn_ok (f : CallFloors) (i : Input) (outs : list Output) (f' : CallFloors) : Prop :=
  forall ep leg keys rs,
    cf_legs f !! ep = Some leg -> ring_view leg = Some keys -> ring_seen keys rs -> spares ep leg i ->
    exists leg', cf_legs f' !! ep = Some leg' /\
      match taken ep (i, outs) with
      | Some packet => took rs keys leg packet leg'
      | None => leg_same leg leg'
      end.

Lemma leg_same_refl l : leg_same l l.
Proof. by repeat split. Qed.
Hint Resolve leg_same_refl : core.

(** A turn that puts one leg back. *)
Lemma turn_insert f i outs f' ep0 leg0 leg' :
  cf_legs f !! ep0 = Some leg0 -> cf_legs f' = <[ep0 := leg']> (cf_legs f) ->
  (forall ep, ep <> ep0 -> taken ep (i, outs) = None) ->
  (forall keys rs, ring_view leg0 = Some keys -> ring_seen keys rs -> spares ep0 leg0 i ->
     match taken ep0 (i, outs) with Some packet => took rs keys leg0 packet leg' | None => leg_same leg0 leg' end) ->
  turn_ok f i outs f'.
Proof.
  intros H0 Hf' Hother Hhere ep leg keys rs Hl Hv Hrs Hsp. rewrite Hf'. destruct (decide (ep = ep0)) as [->|Hne].
  - rewrite H0 in Hl. injection Hl as <-. exists leg'. rewrite lookup_insert_eq. split; [done|]. by apply Hhere.
  - exists leg. rewrite lookup_insert_ne, (Hother _ Hne) by done. done.
Qed.

Lemma turn_same f i outs f' : cf_legs f' = cf_legs f -> (forall ep, taken ep (i, outs) = None) -> turn_ok f i outs f'.
Proof. intros Hf Ht ep leg keys rs Hl _ _ _. rewrite Hf, Ht. eauto. Qed.

Lemma build_cases f call_id tag request : floors_ok f -> request_ok request ->
  match build f call_id tag request with
  | (Panic, _) => False
  | (_, f') => cf_legs f' = cf_legs f \/ exists ep leg leg',
      cf_legs f !! ep = Some leg /\ cf_legs f' = <[ep := leg']> (cf_legs f) /\ leg_same leg leg'
  end.
Proof.
  intros Hok (Hs & Hss & Hn & Hnb & Hd). unfold build.
  destruct (find_leg f call_id tag) as [[ep leg]|] eqn:Hf; [|by left].
  apply find_leg_Some in Hf as (Hl & _). pose proof (Hok _ _ Hl) as (_ & Hfit & _). cbn [cf_scratch cf_legs cf_protected].
  assert (fits 32 (default (cl_ssrc (lg_config leg)) (rq_ssrc request))) as Hssrc.
  { destruct (rq_ssrc request) as [s|]; cbn; auto. }
  pose proof (write_app_cases (rq_subtype request) _ (rq_name request) (rq_payload request) (grow (cf_scratch f))
    Hs Hssrc Hn Hnb Hd) as Hw.
  destruct (write_app _ _ _ _ _) as [[n out]| |]; [|by left|done]. destruct Hw as (_ & -> & Hle & Hsub & Hlen).
  destruct (_ || _); [by left|]. destruct (lg_protection leg) as [p|] eqn:Hp; [|by left].
  unfold floor_seal. pose proof (len_nonneg (rq_payload request)).
  match goal with |- context [gcm_protect ?c ?d true ?o] => pose proof (gcm_protect_cases c d true o) as Hg end.
  destruct (gcm_protect _ _ _ _) as [[[]c'] out']; [| |]; cbn [cf_legs].
  3: { apply Hg. rewrite Hsub, Hlen. lia. }
  all: right; exists ep, leg, (set_protection leg (Some (mkFloorProtection c' (fp_keys p) (fp_plain p)))).
  all: split; [done|]; split; [done|]; repeat split; unfold ring_view; cbn; rewrite Hp; cbn; f_equal; apply Hg; rewrite Hsub, Hlen; lia.
Qed.

Lemma set_keys_cases f call_id tag keys : floors_ok f ->
  exists r f', set_keys f call_id tag keys = (r, f') /\ floors_ok f' /\
    (cf_legs f' = cf_legs f \/ exists ep leg leg',
       cf_legs f !! ep = Some leg /\ is_leg call_id tag (ep, leg) /\ cf_legs f' = <[ep := leg']> (cf_legs f)).
Proof.
  intros Hok. unfold set_keys. destruct (find_leg f call_id tag) as [[ep leg]|] eqn:Hf; [|eauto 10].
  apply find_leg_Some in Hf as (Hl & Hid). pose proof (Hok _ _ Hl) as (He & Hs & Hp).
  assert (forall p, (forall q, p = Some q -> gcm_inv (fp_context q)) ->
    floors_ok (with_legs f (<[ep := set_protection leg p]> (cf_legs f)))) as Hput.
  { intros p Hq. by apply floors_ok_insert. }
  assert (forall p, (forall q, p = Some q -> gcm_inv (fp_context q)) -> forall r : res CallFloorError unit, exists r' f',
    (r, with_legs f (<[ep := set_protection leg p]> (cf_legs f))) = (r', f') /\ floors_ok f' /\
    (cf_legs f' = cf_legs f \/ exists ep leg leg',
       cf_legs f !! ep = Some leg /\ is_leg call_id tag (ep, leg) /\ cf_legs f' = <[ep := leg']> (cf_legs f))) as Hput'.
  { intros p Hq r. eexists _, _. split; [reflexivity|]. split; [by apply Hput|]. right. by exists ep, leg, (set_protection leg p). }
  case_bool_decide; [by apply Hput'|]. destruct (lg_protection leg) as [p|].
  - unfold floor_replace_keys. pose proof (gcm_inv_replace (fp_context p) keys (Hp p eq_refl)) as Hr.
    destruct (replace_keys _ _) as [[] c]; apply Hput'; intros q [= <-]; exact Hr.
  - destruct (FloorProtection_new keys) as [p|] eqn:Hn; [|eauto 10].
    apply Hput'. intros q [= <-]. by eapply protection_new_ok.
Qed.

Lemma register_ok f config : floors_ok f -> fits 32 (cl_ssrc config) ->
  exists leg', register f config = with_legs f (<[cl_endpoint config := leg']> (cf_legs f)) /\
    leg_ok (cl_endpoint config) leg'.
Proof.
  intros Hok Hs. unfold register. destruct (cl_restore config) as [r|].
  - eexists. split; [reflexivity|]. split; [done|]. split; [done|]. cbn.
    intros p Hp. apply fmap_Some in Hp as (p0 & Hn & ->). cbn. apply gcm_inv_resumes, (protection_new_ok _ _ Hn).
  - eexists. split; [reflexivity|]. split; [done|]. split; [done|]. intros p Hp. by eapply protection_new_ok.
Qed.

Lemma packet_step_ok f qs packet : floors_ok f -> bytes_ok (rx_data packet) ->
  exists outs f' qs', floor_step f qs (InPacket packet) = (Ok outs, f', qs') /\ floors_ok f' /\
    turn_ok f (InPacket packet) outs f'.
Proof.
  intros Hok Hb. cbn [floor_step]. destruct (cf_legs f !! rx_endpoint packet) as [leg|] eqn:Hl.
  2: { unfold ingest. rewrite Hl. eexists _, _, _. split; [reflexivity|]. split; [done|]. by apply turn_same. }
  destruct (lg_protection leg) as [p|] eqn:Hp.
  - destruct (proj2 (proj2 (Hok _ _ Hl)) p Hp) as (rs & Hrs).
    destruct (ingest_keyed f qs packet leg p rs Hl Hp Hrs Hb) as (r & leg' & qs' & Hi & Hc).
    rewrite Hi. eexists _, _, _. split; [reflexivity|]. split.
    { apply floors_ok_insert; [done|].
      destruct Hc as [(_ & _ & Hsame)|(_ & Ht)]; [eapply leg_ok_same|eapply leg_ok_took]; eauto using Hok. }
    eapply turn_insert; [done|reflexivity| |].
    + intros ep Hne. destruct Hc as [(-> & _)|(-> & _)]; [done|]. cbn. by destruct (Z.eqb_spec (rx_endpoint packet) ep).
    + intros keys rs' Hv Hrs' _. unfold ring_view in Hv. rewrite Hp in Hv. injection Hv as <-.
      destruct (ingest_keyed f qs packet leg p rs' Hl Hp Hrs' Hb) as (r2 & leg2 & qs2 & Hi2 & Hc2).
      rewrite Hi in Hi2. injection Hi2 as <- Hm <-. apply (f_equal (lookup (rx_endpoint packet))) in Hm.
      rewrite !lookup_insert_eq in Hm. injection Hm as <-.
      destruct Hc2 as [(-> & _ & Hsame)|(-> & Ht)]; cbn; [done|]. by rewrite Z.eqb_refl.
  - destruct (ingest_unkeyed f qs packet leg Hl Hp) as (r & leg' & qs' & -> & Hn & He & Hs).
    eexists _, _, _. split; [reflexivity|]. split.
    { apply floors_ok_insert; [done|]. destruct (Hok _ _ Hl) as (H1 & H2 & _). unfold leg_ok. rewrite He, Hs, Hn. done. }
    eapply turn_insert; [done|reflexivity| |].
    + intros ep Hne. destruct r; cbn; try done. by destruct (Z.eqb_spec (rx_endpoint packet) ep).
    + intros keys rs Hv. unfold ring_view in Hv. by rewrite Hp in Hv.
Qed.

Lemma floor_step_ok f qs i : floors_ok f -> input_ok i ->
  exists outs f' qs', floor_step f qs i = (Ok outs, f', qs') /\ floors_ok f' /\ turn_ok f i outs f'.
Proof.
  intros Hok Hi. destruct i as [packet|config|call_id|call_id tag|call_id tag keys|call_id tag request takes].
  - by apply packet_step_ok.
  - cbn [floor_step]. destruct (register_ok f config Hok Hi) as (leg' & -> & Hleg).
    eexists _, _, _. split; [reflexivity|]. split; [by apply floors_ok_insert|].
    intros ep leg keys rs Hl _ _ Hsp. exists leg. cbn in Hsp. cbn. by rewrite lookup_insert_ne.
  - cbn [floor_step]. eexists _, _, _. split; [reflexivity|]. split.
    { intros k l Hk. apply map_lookup_filter_Some in Hk as [Hk _]. by apply Hok. }
    intros ep leg keys rs Hl _ _ Hsp. exists leg. cbn in Hsp. split; [|done].
    cbn. apply map_lookup_filter_Some. by split.
  - eexists _, _, _. split; [reflexivity|]. split; [done|]. by apply turn_same.
  - cbn [floor_step]. destruct (set_keys_cases f call_id tag keys Hok) as (r & f' & -> & Hok' & Hc).
    eexists _, _, _. split; [reflexivity|]. split; [done|].
    destruct Hc as [Hc|(ep & leg & leg' & Hl & Hid & Hc)]; [by apply turn_same|].
    eapply turn_insert; [done|done|done|]. by intros keys' rs _ _ [].
  - cbn [floor_step]. pose proof (build_cases f call_id tag request Hok Hi) as Hb.
    assert (forall outs f', (cf_legs f' = cf_legs f \/ exists ep leg leg',
      cf_legs f !! ep = Some leg /\ cf_legs f' = <[ep := leg']> (cf_legs f) /\ leg_same leg leg') ->
      floors_ok f' /\ turn_ok f (InSend call_id tag request takes) outs f') as Hgo.
    { intros outs f' [Hc|(ep & leg & leg' & Hl & Hc & Hsame)].
      - split; [by unfold floors_ok; rewrite Hc|]. by apply turn_same.
      - split; [|by eapply turn_insert].
        unfold floors_ok. rewrite Hc. apply map_Forall_insert_2; [|done]. eapply leg_ok_same; [by apply Hok|done]. }
    destruct (build _ _ _ _) as [[[[ep d] data]|e|] f']; [..|done].
    all: eexists _, _, _; split; [reflexivity|]; by apply Hgo.
Qed.

(** ** Runs of the actor *)

Fixpoint floor_run (f : CallFloors) (qs : queues) (inputs : list Input)
  : res SrtpError (list (list Output)) * CallFloors * queues :=
  match inputs with
  | [] => (Ok [], f, qs)
  | i :: inputs =>
      match floor_step f qs i with
      | (Ok outs, f, qs) =>
          let '(r, f, qs) := floor_run f qs inputs in (rest ← r; mret (outs :: rest), f, qs)
      | (Err e, f, qs) => (Err e, f, qs)
      | (Panic, f, qs) => (Panic, f, qs)
      end
  end.

(** The key identifiers and session keys of a ring. *)
Definition creds (keys : list KeyEntry) : list (Z * GcmSession) :=
  (fun e => (fm_mki (ke_master e), ke_session e)) <$> keys.

Definition slot (mki : Z) (cs : list (Z * GcmSession)) : option nat :=
  fst <$> list_find (fun c : Z * GcmSession => c.1 = mki) cs.

(** The datagram's index was received under its key. *)
Definition was_seen (rs : list (gset Z)) (cs : list (Z * GcmSession)) (data : bytes) : Prop :=
  exists i R, slot (mki_of data) cs = Some i /\ rs !! i = Some R /\ index_of data ∈ R.

Lemma slot_find mki keys i e : list_find (holds_mki mki) keys = Some (i, e) -> slot mki (creds keys) = Some i.
Proof.
  intros (Hi & Hm & Hfirst)%list_find_Some. unfold slot, creds.
  assert (list_find (fun c : Z * GcmSession => c.1 = mki) ((fun e => (fm_mki (ke_master e), ke_session e)) <$> keys) =
    Some (i, (fm_mki (ke_master e), ke_session e))) as ->; [|done].
  apply list_find_Some. rewrite list_lookup_fmap, Hi. split; [done|]. split; [done|].
  intros j y Hy Hj. rewrite list_lookup_fmap in Hy. destruct (keys !! j) as [x|] eqn:Hx; [|done].
  injection Hy as <-. apply (Hfirst j x Hx Hj).
Qed.

Lemma creds_update keys i e w : keys !! i = Some e -> creds (<[i := set_replay e w]> keys) = creds keys.
Proof.
  intros Hi. unfold creds. rewrite list_fmap_insert. apply list_insert_id. by rewrite list_lookup_fmap, Hi.
Qed.

(** What is established of one accepted datagram. *)
Definition admissible (filter : SourceFilter) (cs : list (Z * GcmSession)) (packet : RxPacket) : Prop :=
  accepts filter (sa_ip (rx_source packet)) = true /\
  exists s plain, (mki_of (rx_data packet), s) ∈ cs /\ authentic s (rx_data packet) plain.

Lemma took_facts rs keys l packet l' : ring_seen keys rs -> took rs keys l packet l' ->
  exists keys' rs', ring_view l' = Some keys' /\ ring_seen keys' rs' /\ creds keys' = creds keys /\
    admissible (cl_accepted_source (lg_config l)) (creds keys) packet /\
    ~ was_seen rs (creds keys) (rx_data packet) /\ was_seen rs' (creds keys) (rx_data packet) /\
    forall data, was_seen rs (creds keys) data -> was_seen rs' (creds keys) data.
Proof.
  intros Hrs [Hacc _ _ _ (i & e & w & R & plain & Hf & Hv & Hau & HR & Hfr & Hw)].
  pose proof (slot_find _ _ _ _ Hf) as Hslot. pose proof Hf as (Hi & Hm & _)%list_find_Some.
  assert (i < List.length rs)%nat as Hlt by (by eapply lookup_lt_Some).
  exists (<[i := set_replay e w]> keys), (<[i := {[ index_of (rx_data packet) ]} ∪ R]> rs).
  split; [done|]. split; [by apply ring_seen_update|]. split; [by apply creds_update|]. split.
  { split; [done|]. exists (ke_session e), plain. split; [|done]. unfold holds_mki in Hm. rewrite <- Hm.
    apply list_elem_of_fmap. exists e. split; [done|]. by eapply list_elem_of_lookup_2. }
  split.
  { intros (j & R' & Hj & HR' & Hin). rewrite Hslot in Hj. injection Hj as <-. rewrite HR in HR'.
    injection HR' as <-. by apply Hfr. }
  split.
  { exists i, ({[ index_of (rx_data packet) ]} ∪ R). split; [done|]. rewrite list_lookup_insert_eq by done. set_solver. }
  intros data (j & R' & Hj & HR' & Hin). destruct (decide (i = j)) as [->|Hne].
  - exists j, ({[ index_of (rx_data packet) ]} ∪ R). rewrite list_lookup_insert_eq by done.
    rewrite HR in HR'. injection HR' as <-. split; [done|]. split; [done|]. set_solver.
  - exists j, R'. by rewrite list_lookup_insert_ne.
Qed.

(** What a run leaves of a keyed leg it spares, and of the datagrams it took. *)
Record gated (leg : Leg) (rs : list (gset Z)) (keys : list KeyEntry) (ts : list RxPacket) (leg' : Leg) : Prop := {
  gd_admissible : Forall (admissible (cl_accepted_source (lg_config leg)) (creds keys)) ts;
  gd_once : NoDup (rx_data <$> ts);
  gd_fresh : Forall (fun packet => ~ was_seen rs (creds keys) (rx_data packet)) ts;
  gd_source :
    ts = [] /\ leg_same leg leg' \/
    exists src, Forall (fun packet => rx_source packet = src) ts /\
      OpaqueLatch_latched (lg_latch leg) ∈ [None; Some src] /\ OpaqueLatch_latched (lg_latch leg') = Some src /\
      lg_config leg' = set_destination (lg_config leg) src
}.

Lemma gated_same leg leg1 leg' rs keys ts :
  leg_same leg leg1 -> gated leg1 rs keys ts leg' -> gated leg rs keys ts leg'.
Proof.
  intros (Hc & Hl & Hr) [H1 H2 H3 H4]. unfold leg_same in H4. rewrite Hc, Hl, Hr in *. by split.
Qed.

Lemma set_destination_twice c d d' : set_destination (set_destination c d) d' = set_destination c d'.
Proof. done. Qed.

Lemma gated_took leg leg1 leg' rs rs1 keys keys1 packet ts :
  took rs keys leg packet leg1 -> creds keys1 = creds keys ->
  admissible (cl_accepted_source (lg_config leg)) (creds keys) packet ->
  ~ was_seen rs (creds keys) (rx_data packet) -> was_seen rs1 (creds keys) (rx_data packet) ->
  (forall data, was_seen rs (creds keys) data -> was_seen rs1 (creds keys) data) ->
  gated leg1 rs1 keys1 ts leg' -> gated leg rs keys (packet :: ts) leg'.
Proof.
  intros [_ Hbefore Hafter Hcfg _] Hcr Hadm Hnew Hnow Hmono [H1 H2 H3 H4]. rewrite Hcfg, Hcr in H1. rewrite Hcr in H3. rewrite Hcfg in H4. split.
  - by constructor.
  - rewrite fmap_cons. apply NoDup_cons. split; [|done]. intros (q & Heq & Hq)%list_elem_of_fmap.
    rewrite Forall_forall in H3. apply (H3 q Hq). by rewrite <- Heq.
  - constructor; [done|]. eapply Forall_impl; [exact H3|]. cbn. auto.
  - right. exists (rx_source packet). destruct H4 as [(-> & Hs & Hl & _)|(src & Hsrc & Hin & Hl & Hc)].
    + rewrite Hl, Hs, Hcfg. split; [by repeat constructor|]. done.
    + rewrite Hafter in Hin. rewrite !elem_of_cons, elem_of_nil in Hin. destruct Hin as [|[[= <-]|[]]]; [done|].
      split; [by constructor|]. rewrite Hc. done.
Qed.

Lemma spares_config ep l l' i :
  cl_call_id (lg_config l') = cl_call_id (lg_config l) -> cl_tag (lg_config l') = cl_tag (lg_config l) ->
  spares ep l i -> spares ep l' i.
Proof. intros Hc Ht. destruct i; cbn; unfold is_leg; cbn; rewrite ?Hc, ?Ht; done. Qed.

Lemma floor_run_gated inputs : forall f qs ep leg keys rs,
  floors_ok f -> cf_legs f !! ep = Some leg -> ring_view leg = Some keys -> ring_seen keys rs ->
  Forall input_ok inputs -> Forall (spares ep leg) inputs ->
  exists outs f' qs' leg', floor_run f qs inputs = (Ok outs, f', qs') /\ List.length outs = List.length inputs /\
    floors_ok f' /\ cf_legs f' !! ep = Some leg' /\ gated leg rs keys (omap (taken ep) (zip inputs outs)) leg'.
Proof.
  induction inputs as [|i inputs IH]; intros f qs ep leg keys rs Hok Hl Hv Hrs Hi Hsp.
  { exists [], f, qs, leg. do 4 (split; [done|]). split; [constructor|constructor|constructor|by left]. }
  apply Forall_cons in Hi as [Hi His]. apply Forall_cons in Hsp as [Hs Hss].
  destruct (floor_step_ok f qs i Hok Hi) as (outs & f1 & qs1 & Hstep & Hok1 & Hturn). cbn [floor_run]. rewrite Hstep.
  destruct (Hturn ep leg keys rs Hl Hv Hrs Hs) as (leg1 & Hl1 & Hcase).
  destruct (taken ep (i, outs)) as [packet|] eqn:Ht.
  - destruct (took_facts _ _ _ _ _ Hrs Hcase) as (keys1 & rs1 & Hv1 & Hrs1 & Hcr & Hadm & Hnew & Hnow & Hmono).
    assert (Forall (spares ep leg1) inputs) as Hss1.
    { eapply Forall_impl; [exact Hss|]. intros x. by apply spares_config; rewrite (tk_config _ _ _ _ _ Hcase). }
    destruct (IH f1 qs1 ep leg1 keys1 rs1 Hok1 Hl1 Hv1 Hrs1 His Hss1) as (rest & f' & qs' & leg' & -> & Hlen & Hok' & Hl' & Hg).
    exists (outs :: rest), f', qs', leg'. split; [done|]. split; [cbn; lia|]. split; [done|]. split; [done|].
    cbn [zip zip_with omap list_omap]. rewrite Ht. by eapply gated_took.
  - pose proof Hcase as (Hc & _ & Hr). rewrite Hv in Hr.
    assert (Forall (spares ep leg1) inputs) as Hss1.
    { eapply Forall_impl; [exact Hss|]. intros x. by apply spares_config; rewrite Hc. }
    destruct (IH f1 qs1 ep leg1 keys rs Hok1 Hl1 Hr Hrs His Hss1) as (rest & f' & qs' & leg' & -> & Hlen & Hok' & Hl' & Hg).
    exists (outs :: rest), f', qs', leg'. split; [done|]. split; [cbn; lia|]. split; [done|]. split; [done|].
    cbn [zip zip_with omap list_omap]. rewrite Ht. by eapply gated_same.
Qed.

(** C23. On a keyed floor leg the actor takes a datagram only from the signalled
    source, only when it authenticates under a key of the leg's ring with the MKI
    it names, and never the same datagram twice; all it takes over a run come from
    one transport address, the one latched before if any, which is then latched and
    replied to.  A run that takes nothing leaves the latch, the reply address and
    the replay windows as they were.  This holds over any sequence of well-typed
    messages that neither registers, releases nor re-keys the leg, with other legs
    doing anything, and no turn panics. *)
Theorem floor_gate f qs ep leg p inputs :
  floors_ok f -> cf_legs f !! ep = Some leg -> lg_protection leg = Some p ->
  Forall input_ok inputs -> Forall (spares ep leg) inputs ->
  exists outs f' qs' leg', floor_run f qs inputs = (Ok outs, f', qs') /\ floors_ok f' /\ cf_legs f' !! ep = Some leg' /\
    let ts := omap (taken ep) (zip inputs outs) in
    Forall (fun packet =>
      accepts (cl_accepted_source (lg_config leg)) (sa_ip (rx_source packet)) = true /\
      exists s plain, (mki_of (rx_data packet), s) ∈ creds (gc_keys (fp_context p)) /\ authentic s (rx_data packet) plain) ts /\
    NoDup (rx_data <$> ts) /\
    (ts = [] /\ leg_same leg leg' \/
     exists src, Forall (fun packet => rx_source packet = src) ts /\
       OpaqueLatch_latched (lg_latch leg) ∈ [None; Some src] /\ OpaqueLatch_latched (lg_latch leg') = Some src /\
       lg_config leg' = set_destination (lg_config leg) src).
Proof.
  intros Hok Hl Hp Hi Hs. destruct (proj2 (proj2 (Hok _ _ Hl)) p Hp) as (rs & Hrs).
  destruct (floor_run_gated inputs f qs ep leg (gc_keys (fp_context p)) rs) as (outs & f' & qs' & leg' & Hr & _ & Hok' & Hl' & [H1 H2 _ H4]); try done.
  { unfold ring_view. by rewrite Hp. }
  by exists outs, f', qs', leg'.
Qed.
End floor_proofs.

(** ** From a request at one end to an event at the other *)

Section floor_delivery.
Context `{L : SrtpCryptoLaws} `{GL : GcmLaws}.

Abbreviation ring := (list (FloorMasterKey * gset Z)).

(** A leg able to protect under the newest key it holds. *)
Record sends_under (l : Leg) (m : FloorMasterKey) (index : Z) : Prop := {
  su_protection : exists p e, lg_protection l = Some p /\ last (gc_keys (fp_context p)) = Some e /\
    ke_master e = m /\ ke_session e = GcmSession_derive m /\
    gc_send_index (fp_context p) = index /\ gc_exhausted (fp_context p) = false;
  su_mki : fits 32 (fm_mki m);
  su_index : fits 31 index;
  su_destination : is_unspecified (sa_ip (cl_destination (lg_config l))) = false /\
    sa_port (cl_destination (lg_config l)) <> 0
}.

(** A keyed leg listening to [src], whose ring is [r]. *)
Record receives_from (l : Leg) (src : SocketAddr) (ids : Z -> option FloorMasterKey) (r : ring) : Prop := {
  rf_protection : exists p, lg_protection l = Some p /\ ring_rel ids (fp_context p) r;
  rf_accepts : accepts (cl_accepted_source (lg_config l)) (sa_ip src) = true;
  rf_latch : OpaqueLatch_latched (lg_latch l) ∈ [None; Some src]
}.

Lemma app_packet_ok a : app_ok a -> len (ap_data a) <= 1488 -> gcm_packet_ok (frame_bytes (app_frame a)).
Proof.
  intros Ha Hl. pose proof (app_frame_ok a Ha) as Hf. pose proof (app_frame_len a Ha) as Hlen.
  pose proof (len_nonneg (ap_data a)). unfold gcm_packet_ok, rtcp_ok, GCM_MAX. rewrite len_frame_bytes, Hlen.
  split; [|lia]. split; [by apply frame_bytes_ok|]. split; [lia|]. by destruct Hf as (_ & Hv & _).
Qed.

Lemma all_app_packets_one a : app_ok a -> all_app_packets (frame_bytes (app_frame a)) = [Ok a].
Proof.
  intros Ha. destruct (app_roundtrip [inr a]) as [_ H]; [by constructor|].
  change (all_app_packets (frame_bytes (app_frame a) ++ []) = [Ok a]) in H. by rewrite app_nil_r in H.
Qed.

Lemma name_text_ascii name : is_ascii name = true -> name_text name = name.
Proof.
  unfold is_ascii, name_text. induction name as [|b name IH]; [done|]. cbn [forallb fmap list_fmap].
  intros [Hb Hn]%andb_true_iff. rewrite Hb. f_equal. by apply IH.
Qed.

Lemma surface_one scope tag h a qs : app_ok a ->
  surface_app_to_queue scope tag (Some h) StreamFloor (frame_bytes (app_frame a)) qs =
  (alter (fun q => push q (app_event scope tag StreamFloor a)) h qs, 1, 0).
Proof.
  intros Ha. unfold surface_app_to_queue, surface_app_packets. by rewrite all_app_packets_one.
Qed.

(** What [build] puts on the wire for a leg it can send under. *)
Lemma build_sealed f call_id tag ep leg m index a :
  find_leg f call_id tag = Some (ep, leg) -> cl_endpoint (lg_config leg) = ep -> sends_under leg m index ->
  app_ok a -> len (ap_data a) <= 1488 ->
  exists wire f', sealed_ok (mkSealed m index true (frame_bytes (app_frame a)) wire) /\
    build f call_id tag (mkAppRequest (Some (ap_ssrc a)) (ap_name a) (ap_subtype a) (ap_data a)) =
      (Ok (ep, cl_destination (lg_config leg), wire), f').
Proof.
  intros Hf Hep [(p & e & Hp & He & <- & Hs & <- & Hx) Hm Hi (Hd & Hport)] Ha Hl.
  unfold build. rewrite Hf. cbn [cf_scratch cf_legs cf_protected rq_ssrc rq_name rq_subtype rq_payload default].
  rewrite write_app_Ok; [|done|].
  2: { unfold grow, MAX_DATAGRAM, APP_HEADER_LEN. destruct (Z.ltb_spec (len (cf_scratch f)) 1500); [|lia].
    rewrite len_app, len_replicate. lia. }
  rewrite Hd, (proj2 (Z.eqb_neq _ _) Hport), Hp. cbn [orb]. unfold floor_seal.
  rewrite sub_app_begin by (unfold APP_HEADER_LEN; rewrite len_frame_bytes, (app_frame_len a Ha); lia).
  destruct (gcm_protect_sealed (fp_context p) e (frame_bytes (app_frame a)) true (cf_protected f)) as (wire & -> & Hseal);
    try done; [by apply app_packet_ok|].
  rewrite Hep. by eexists _, _.
Qed.

(** What a listening leg makes of a sealed packet, by whether its index is fresh. *)
Lemma ingest_sealed f qs ep leg src ids r x R :
  cf_legs f !! ep = Some leg -> receives_from leg src ids r -> (sl_master x, R) ∈ r -> sealed_ok x ->
  let scope := ScopeCall (cl_call_id (lg_config leg)) in
  if freshb R (sl_index x) then
    exists leg' r' raised malformed,
      (ingest f qs (mkRxPacket ep src (sl_wire x))).1 = (Ok Accepted, with_legs f (<[ep := leg']> (cf_legs f))) /\
      (sl_master x, {[ sl_index x ]} ∪ R) ∈ r' /\ receives_from leg' src ids r' /\
      lg_config leg' = set_destination (lg_config leg) src /\
      OpaqueLatch_latched (lg_latch leg') = Some src /\
      surface_app_to_queue scope (cl_tag (lg_config leg)) (cl_events (lg_config leg)) StreamFloor (sl_packet x) qs =
        ((ingest f qs (mkRxPacket ep src (sl_wire x))).2, raised, malformed)
  else exists f', ingest f qs (mkRxPacket ep src (sl_wire x)) = (Ok Refused, f', qs).
Proof.
  intros Hl [(p & Hp & Hring) Hacc Hlatch] Hin Hx scope. pose proof Hring as [Hent Hnd].
  assert (ids (fm_mki (sl_master x)) = Some (sl_master x)) as Hid.
  { apply list_elem_of_lookup_1 in Hin as (i & Hi). by destruct (Forall2_lookup_r _ _ _ _ _ Hent Hi) as (e & _ & _ & _ & _ & H). }
  destruct (deliver_refines ids (fp_context p) r x Hring Hx Hid) as (H1 & H2 & H3).
  assert (exists k, list_find (fun e : FloorMasterKey * gset Z => e.1 = sl_master x) r = Some (k, (sl_master x, R)) /\
    r !! k = Some (sl_master x, R)) as (k & Hk & Hrk).
  { pose proof (ring_entry_in r _ R Hnd Hin) as H. unfold ring_entry in H.
    destruct (list_find _ r) as [[k [m' R']]|] eqn:Hfind.
    - pose proof Hfind as (Hk & Hm & _)%list_find_Some. cbn in *. subst m'. injection H as ->. eauto.
    - apply list_find_None in Hfind. rewrite Forall_forall in Hfind. by destruct (Hfind _ Hin). }
  unfold spec_deliver in H1, H2, H3. rewrite Hk in H1, H2, H3.
  unfold ingest. cbn [rx_endpoint rx_source rx_data]. rewrite Hl, Hacc. cbn [negb].
  unfold floor_admit. rewrite Hp. cbn [rx_endpoint rx_source rx_data].
  assert (match OpaqueLatch_latched (lg_latch leg) with
    Some s => negb (bool_decide (s = src)) | None => false end = false) as ->.
  { rewrite !elem_of_cons, elem_of_nil in Hlatch. destruct Hlatch as [->|[->|[]]]; [done|]. by rewrite bool_decide_eq_true_2. }
  unfold floor_open. change (gcm_unprotect (fp_context p) (sl_wire x) (fp_plain p)) with (gcm_unprotect (fp_context p) (sl_wire x) []).
  destruct (gcm_unprotect (fp_context p) (sl_wire x) []) as [[res c'] plain]. cbn [fst snd] in H1, H2, H3.
  destruct (freshb R (sl_index x)); cbn [fst snd] in H1, H2, H3; subst res plain; cbn -[surface_app_to_queue].
  - destruct (opaque_admit_from _ _ Hlatch) as (l' & -> & Hl'). cbn -[surface_app_to_queue].
    destruct (surface_app_to_queue _ _ _ _ _ _) as [[qs' raised] malformed] eqn:Hsurf.
    eexists _, (<[k := (sl_master x, {[ sl_index x ]} ∪ R)]> r), raised, malformed. split; [reflexivity|]. split; [|split].
    + apply list_elem_of_lookup. exists k. apply list_lookup_insert_eq. by eapply lookup_lt_Some.
    + split; [eexists; split; [reflexivity|exact H3]|done|]. change (OpaqueLatch_latched l' ∈ [None; Some src]). rewrite Hl'. right. left.
    + done.
  - eauto.
Qed.

(** C24. A floor message asked for at one end of a call is raised at the other,
    once and unchanged.  When the sender's newest key is held by the receiver and
    the send index is fresh there, [build] yields a datagram for the leg's
    destination; fed to the receiving leg from a source it listens to, it is
    accepted, queues exactly one event for that leg's controller with the request's
    SSRC, name, subtype and payload, and makes the source the reply address; fed
    again from anywhere it is refused and queues nothing. *)
Theorem floor_message_delivered f1 call_id tag ep1 leg1 m index a f2 qs ep2 leg2 src ids r R h again :
  find_leg f1 call_id tag = Some (ep1, leg1) -> cl_endpoint (lg_config leg1) = ep1 -> sends_under leg1 m index ->
  app_ok a -> len (ap_data a) <= 1488 ->
  cf_legs f2 !! ep2 = Some leg2 -> receives_from leg2 src ids r -> (m, R) ∈ r -> fresh_index R index ->
  cl_events (lg_config leg2) = Some h ->
  exists wire f1' f2' leg2' f2'',
    build f1 call_id tag (mkAppRequest (Some (ap_ssrc a)) (ap_name a) (ap_subtype a) (ap_data a)) =
      (Ok (ep1, cl_destination (lg_config leg1), wire), f1') /\
    let event := mkEvent (Some (cl_call_id (lg_config leg2))) None (cl_tag (lg_config leg2)) StreamFloor
      (ap_ssrc a) (ap_name a) (ap_subtype a) (ap_data a) in
    let qs' := alter (fun q => push q event) h qs in
    ingest f2 qs (mkRxPacket ep2 src wire) = (Ok Accepted, f2', qs') /\
    cf_legs f2' !! ep2 = Some leg2' /\ cl_destination (lg_config leg2') = src /\
    ingest f2' qs' (mkRxPacket ep2 again wire) = (Ok Refused, f2'', qs').
Proof.
  intros Hf1 Hep Hsend Ha Hlen Hl2 Hrecv HR Hfresh Hh.
  destruct (build_sealed f1 call_id tag ep1 leg1 m index a Hf1 Hep Hsend Ha Hlen) as (wire & f1' & Hseal & Hbuild).
  set (x := mkSealed m index true (frame_bytes (app_frame a)) wire) in Hseal.
  pose proof (ingest_sealed f2 qs ep2 leg2 src ids r x R Hl2 Hrecv HR Hseal) as Hing. cbn [sl_index sl_packet sl_wire sl_master x] in Hing.
  rewrite (proj2 (freshb_spec R index) Hfresh) in Hing.
  destruct Hing as (leg2' & r' & raised & malformed & Hin & HR' & Hrecv' & Hcfg & Hlat & Hsurf).
  rewrite Hh, surface_one in Hsurf by done. unfold app_event in Hsurf.
  rewrite name_text_ascii in Hsurf by apply Ha. injection Hsurf as Hqs _ _.
  destruct (ingest f2 qs (mkRxPacket ep2 src wire)) as [rf qs'] eqn:Hi. cbn [fst snd] in Hin, Hqs. subst rf qs'.
  set (f2' := with_legs f2 (<[ep2 := leg2']> (cf_legs f2))) in *.
  assert (cf_legs f2' !! ep2 = Some leg2') as Hl2' by apply lookup_insert_eq.
  assert (forall qs, exists f2'', ingest f2' qs (mkRxPacket ep2 again wire) = (Ok Refused, f2'', qs)) as Hagain.
  { intros qs0. destruct (decide (again = src)) as [->|Hne].
    - pose proof (ingest_sealed f2' qs0 ep2 leg2' src ids r' x _ Hl2' Hrecv' HR' Hseal) as Hing.
      cbv zeta in Hing. change (sl_index x) with index in Hing.
      destruct (freshb ({[ index ]} ∪ R) index) eqn:Hfr; [|exact Hing].
      apply freshb_spec in Hfr as [Hni _]. set_solver.
    - unfold ingest. cbn [rx_endpoint rx_source rx_data]. rewrite Hl2'. destruct (negb _); [eauto|].
      destruct Hrecv' as [(p & Hp & _) _ _]. unfold floor_admit. rewrite Hp, Hlat. cbn [rx_source].
      rewrite bool_decide_eq_false_2 by congruence. cbn [negb]. eauto. }
  destruct (Hagain (alter (fun q => push q (mkEvent (Some (cl_call_id (lg_config leg2))) None (cl_tag (lg_config leg2)) StreamFloor
      (ap_ssrc a) (ap_name a) (ap_subtype a) (ap_data a))) h qs)) as (f2'' & Hag).
  exists wire, f1', f2', leg2', f2''. split; [done|]. split; [done|]. split; [done|]. split; [by rewrite Hcfg|done].
Qed.
End floor_delivery.

(** ** The event queue *)

Inductive queue_op : Type := Push (event : Event) | Recv.

(** The events received and the queue left. *)
Fixpoint queue_run (q : AppEventQueue) (ops : list queue_op) : list Event * AppEventQueue :=
  match ops with
  | [] => ([], q)
  | Push e :: ops => queue_run (push q e) ops
  | Recv :: ops =>
      let '(e, q) := try_recv q in
      let '(got, q) := queue_run q ops in (option_list e ++ got, q)
  end.

Definition pushed (ops : list queue_op) : list Event := omap (fun o => match o with Push e => Some e | Recv => None end) ops.

Definition queue_ok (q : AppEventQueue) : Prop := 0 < q_capacity q /\ len (q_events q) <= q_capacity q.

(** A push keeps the event, at the cost of the oldest one when the queue is full. *)
Lemma queue_push_spec q e : queue_ok q ->
  exists shed kept, q_events q = shed ++ kept /\ q_events (push q e) = kept ++ [e] /\
    (shed = [] \/ len (q_events q) = q_capacity q) /\
    q_capacity (push q e) = q_capacity q /\ q_dropped (push q e) = q_dropped q + len shed /\ queue_ok (push q e).
Proof.
  intros (Hc & Hl). unfold push. cbn [push_turns]. destruct (Z.ltb_spec (len (q_events q)) (q_capacity q)) as [Hlt|Hge].
  - exists [], (q_events q). unfold queue_ok. cbn. rewrite len_app. change (len [e]) with 1.
    split; [done|]. split; [done|]. split; [by left|]. split; [done|]. split; [|lia]. unfold len. cbn. lia.
  - unfold try_recv. destruct (q_events q) as [|o rest] eqn:Hq; [rewrite len_nil in Hge; lia|].
    rewrite len_cons in Hl, Hge. cbn [report_loss q_events q_capacity q_dropped].
    rewrite (proj2 (Z.ltb_lt (len rest) (q_capacity q))) by lia.
    exists [o], rest. unfold queue_ok. cbn. rewrite len_app. change (len [e]) with 1. rewrite len_cons.
    split; [done|]. split; [done|]. split; [right; lia|]. split; [done|]. split; [|lia]. unfold len. cbn. lia.
Qed.

(** The controller's queue loses nothing silently and nothing recent.  Over
    any interleaving of producers' pushes and the connection loop's receives, the
    queue never exceeds its capacity; what waits is the most recently pushed
    events, in order; what was received is in the order it was pushed; and every
    event pushed was received, is waiting or is counted as dropped. *)
Lemma queue_accounts ops : forall q, queue_ok q ->
  let '(got, q') := queue_run q ops in
  queue_ok q' /\ q_capacity q' = q_capacity q /\
  q_events q' `suffix_of` q_events q ++ pushed ops /\
  got ++ q_events q' `sublist_of` q_events q ++ pushed ops /\
  len (q_events q) + len (pushed ops) = len got + len (q_events q') + (q_dropped q' - q_dropped q).
Proof.
  induction ops as [|[e|] ops IH]; intros q Hq; cbn [queue_run].
  - cbn [pushed omap list_omap]. rewrite app_nil_r, len_nil. split; [done|]. split; [done|]. split; [done|]. split; [done|]. lia.
  - destruct (queue_push_spec q e Hq) as (shed & kept & Hev & Hev' & _ & Hcap & Hdrop & Hok).
    specialize (IH _ Hok). destruct (queue_run (push q e) ops) as [got q']. rewrite Hev', Hcap, Hdrop, len_app in IH.
    change (len [e]) with 1 in IH. rewrite <- app_assoc in IH. change ([e] ++ pushed ops) with (pushed (Push e :: ops)) in IH.
    destruct IH as (H1 & H2 & H3 & H4 & H5). rewrite Hev, <- app_assoc, len_app.
    change (pushed (Push e :: ops)) with (e :: pushed ops) in *. rewrite len_cons. split; [done|]. split; [done|].
    split; [by apply suffix_app_r|]. split; [by apply sublist_inserts_l|]. lia.
  - change (pushed (Recv :: ops)) with (pushed ops). unfold try_recv. destruct (q_events q) as [|o rest] eqn:Hev.
    + specialize (IH q Hq). destruct (queue_run q ops) as [got q']. rewrite Hev in IH. exact IH.
    + assert (queue_ok (mkAppEventQueue rest (q_capacity q) (q_dropped q))) as Hok.
      { destruct Hq as (Hc & Hl). rewrite Hev, len_cons in Hl. split; cbn; lia. }
      specialize (IH _ Hok). cbn [q_events q_capacity q_dropped] in IH. destruct (queue_run _ ops) as [got q'].
      destruct IH as (H1 & H2 & H3 & H4 & H5). change (option_list (Some o) ++ got) with (o :: got). rewrite !len_cons.
      split; [done|]. split; [done|]. split; [by apply suffix_cons_r|]. split; [by apply sublist_skip|]. lia.
Qed.

(** ** Keys *)

(** The master key a controller's key stands for: a 96-bit salt is zero-extended. *)
Definition converted (k : FloorKey) : FloorMasterKey :=
  mkFloorMasterKey (fk_mki k) (fk_key k) (fk_salt k ++ replicate (14 - List.length (fk_salt k)) 0).

Definition key_lengths_ok (k : FloorKey) : Prop := len (fk_key k) = 16 /\ (len (fk_salt k) = 12 \/ len (fk_salt k) = 14).

Lemma master_key_exact `{C : SrtpCrypto} k :
  (key_lengths_ok k -> master_key k = Ok (converted k)) /\ (is_ok (master_key k) = true -> key_lengths_ok k).
Proof.
  unfold master_key, FloorKey_validate, key_lengths_ok, FLOOR_KEY_LEN, FLOOR_SALT_LEN, FLOOR_SALT_LEN_LONG. split.
  - intros (Hk & Hs). rewrite Hk. destruct Hs as [Hs|Hs]; rewrite Hs; cbn [negb andb Z.eqb Pos.eqb map_err].
    + unfold from_salt_96, MASTER_SALT_LEN. rewrite copy_at_first by (rewrite Hs; vm_compute; congruence). cbn.
      unfold converted. do 2 f_equal. unfold len in Hs. replace (List.length (fk_salt k)) with 12%nat by lia. done.
    + cbn. unfold converted. unfold len in Hs. replace (List.length (fk_salt k)) with 14%nat by lia. by rewrite app_nil_r.
  - destruct (Z.eqb_spec (len (fk_key k)) 16); [cbn [negb]|done].
    destruct (Z.eqb_spec (len (fk_salt k)) 12); [auto|]. destruct (Z.eqb_spec (len (fk_salt k)) 14); [auto|done].
Qed.

(** A set [master_keys] lets through is one [FloorProtection_new] applies, so a
    validated leg is never served in the clear. *)
Lemma master_keys_apply `{C : SrtpCrypto} `{G : GcmCrypto} keys ms :
  master_keys keys = Ok ms -> ms <> [] -> exists p, FloorProtection_new ms = Some p /\ fp_keys p = kept ms.
Proof.
  unfold master_keys. intros (ms' & _ & H)%bind_Ok_inv Hne. destruct (decide (ms' = [])) as [->|Hne'].
  - injection H as <-. done.
  - rewrite bool_decide_eq_false_2 in H by done. unfold FloorProtection_new.
    destruct (SrtcpGcmContext_new ms') as [c| |] eqn:Hc; [|done..]. injection H as <-.
    rewrite bool_decide_eq_false_2, Hc by done. eauto.
Qed.

(** ** Running the model *)

Definition host (last port : Z) : SocketAddr := mkSocketAddr (V4 (0xC0000200 + last)) port.

Definition example_leg (tag : bytes) (ep : Z) (destination : SocketAddr) : CallFloorLeg :=
  mkCallFloorLeg [99] tag ep destination (Exact (V4 0xC0000207)) 42 (Some 1) [key_a] None None.

Definition example_floors : CallFloors :=
  register (register CallFloors_default (example_leg [65] 10 (host 9 4000))) (example_leg [66] 20 (host 9 4001)).

Definition example_queues : queues := {[ 1 := AppEventQueue_new 2 ]}.

Definition example_request : AppRequest := mkAppRequest (Some 7) [77; 67; 80; 84] 1 [1; 2; 3; 4].

(** The datagram the first leg sends, for the other leg to receive. *)
Definition example_wire : bytes :=
  match (build example_floors [99] [65] example_request).1 with Ok (_, _, data) => data | _ => [] end.

Definition example_inputs : list Input :=
  [InPacket (mkRxPacket 20 (host 8 5000) example_wire);
   InPacket (mkRxPacket 20 (host 7 5000) [1; 2; 3]);
   InPacket (mkRxPacket 20 (host 7 5001) example_wire);
   InPacket (mkRxPacket 20 (host 7 5000) example_wire);
   InSend [99] [66] example_request true;
   InPacket (mkRxPacket 20 (host 7 5001) example_wire);
   InDeregister [98]].

Lemma example_floors_ok : floors_ok example_floors.
Proof.
  assert (floors_ok CallFloors_default) as H0 by apply map_Forall_empty.
  destruct (register_ok CallFloors_default (example_leg [65] 10 (host 9 4000)) H0) as (l1 & He1 & H1); [vm_compute; split; congruence|].
  assert (floors_ok (register CallFloors_default (example_leg [65] 10 (host 9 4000)))) as Hok1
    by (rewrite He1; by apply floors_ok_insert).
  destruct (register_ok _ (example_leg [66] 20 (host 9 4001)) Hok1) as (l2 & He2 & H2); [vm_compute; split; congruence|].
  unfold example_floors. rewrite He2. by apply floors_ok_insert.
Qed.

Ltac small_bytes := repeat constructor; unfold is_byte; lia.

Lemma example_wire_bytes : bytes_ok example_wire.
Proof.
  assert (forallb (fun b => (0 <=? b) && (b <? 256)) example_wire = true) as H by (vm_compute; reflexivity).
  rewrite forallb_forall in H. apply Forall_forall. intros b Hb%list_elem_of_In%H. unfold is_byte. lia.
Qed.

(** The leg takes the message once, from the source that authenticated first. *)
Lemma floor_gate_witness :
  (omap (taken 20) (zip example_inputs
    (match (floor_run example_floors example_queues example_inputs).1.1 with Ok outs => outs | _ => [] end))) =
    [mkRxPacket 20 (host 7 5001) example_wire] /\
  exists outs f' qs' leg', floor_run example_floors example_queues example_inputs = (Ok outs, f', qs') /\
    cf_legs f' !! 20 = Some leg'.
Proof.
  split; [vm_compute; reflexivity|].
  destruct (cf_legs example_floors !! 20) as [leg|] eqn:Hl; [|vm_compute in Hl; congruence].
  destruct (lg_protection leg) as [p|] eqn:Hp.
  2: { assert ((cf_legs example_floors !! 20) ≫= lg_protection = None) as H by (by rewrite Hl). vm_compute in H. congruence. }
  destruct (floor_gate example_floors example_queues 20 leg p example_inputs) as (outs & f' & qs' & leg' & Hr & _ & Hl' & _).
  - apply example_floors_ok.
  - exact Hl.
  - exact Hp.
  - pose proof example_wire_bytes. unfold example_inputs.
    repeat (apply Forall_cons; split; [first [done|cbn; small_bytes|cbn; unfold request_ok; split_and!; [done|intros s [= <-]; vm_compute; split; congruence|done|small_bytes|small_bytes]]|]).
    constructor.
  - assert ((fun l => cl_call_id (lg_config l)) <$> cf_legs example_floors !! 20 = Some [99]) as Hc by (vm_compute; reflexivity).
    rewrite Hl in Hc. injection Hc as Hc. repeat constructor; cbn; try done. by rewrite Hc.
  - exists outs, f', qs', leg'. exact (conj Hr Hl').
Defined.

Lemma floor_message_delivered_witness :
  exists f f' qs', ingest example_floors example_queues (mkRxPacket 20 (host 7 5001) example_wire) = (Ok Accepted, f, qs') /\
    ingest f qs' (mkRxPacket 20 (host 7 5001) example_wire) = (Ok Refused, f', qs') /\
    (q_events <$> qs' !! 1) = Some [mkEvent (Some [99]) None [66] StreamFloor 7 [77; 67; 80; 84] 1 [1; 2; 3; 4]].
Proof.
  destruct (find_leg example_floors [99] [65]) as [[ep1 leg1]|] eqn:Hf1; [|vm_compute in Hf1; congruence].
  destruct (cf_legs example_floors !! 20) as [leg2|] eqn:Hl2; [|vm_compute in Hl2; congruence].
  destruct (floor_message_delivered example_floors [99] [65] ep1 leg1 key_a 0 (mkAppPacket 1 7 [77; 67; 80; 84] [1; 2; 3; 4])
    example_floors example_queues 20 leg2 (host 7 5001) key_named [(key_a, ∅)] ∅ 1 (host 7 5001))
    as (wire & f1' & f2' & leg2' & f2'' & Hb & H1 & _ & _ & H2).
  - exact Hf1.
  - vm_compute in Hf1. injection Hf1 as <- <-. reflexivity.
  - vm_compute in Hf1. injection Hf1 as <- <-. split; [|vm_compute; split; congruence|vm_compute; split; congruence|vm_compute; split; congruence].
    eexists _, _. split; [reflexivity|]. split; [reflexivity|]. split; [reflexivity|]. split; [reflexivity|]. split; reflexivity.
  - repeat split; try (vm_compute; congruence); repeat constructor; vm_compute; try congruence.
  - vm_compute. congruence.
  - exact Hl2.
  - vm_compute in Hl2. injection Hl2 as <-. split; [|reflexivity|left].
    eexists. split; [reflexivity|]. split; [repeat constructor|]. apply NoDup_singleton.
  - left.
  - split; set_solver.
  - vm_compute in Hl2. injection Hl2 as <-. reflexivity.
  - assert (wire = example_wire) as ->.
    { unfold example_wire, example_request. cbn [ap_ssrc ap_name ap_subtype ap_data] in Hb. by rewrite Hb. }
    eexists _, _, _. split; [exact H1|]. split; [exact H2|].
    vm_compute in Hl2. injection Hl2 as <-. vm_compute. reflexivity.
Defined.

Lemma queue_accounts_witness :
  let e n := mkEvent None None [] StreamFloor n [] 0 [] in
  let '(got, q) := queue_run (AppEventQueue_new 2) [Push (e 1); Push (e 2); Push (e 3); Recv; Push (e 4); Push (e 5)] in
  ev_ssrc <$> got = [2] /\ ev_ssrc <$> q_events q = [4; 5] /\ q_dropped q = 2 /\
  len (q_events (AppEventQueue_new 2)) + 5 = len got + len (q_events q) + (q_dropped q - 0).
Proof.
  set (e n := mkEvent None None [] StreamFloor n [] 0 []).
  set (ops := [Push (e 1); Push (e 2); Push (e 3); Recv; Push (e 4); Push (e 5)]). cbv zeta.
  pose proof (queue_accounts ops (AppEventQueue_new 2) ltac:(vm_compute; split; congruence)) as H.
  destruct (queue_run (AppEventQueue_new 2) ops) as [got q] eqn:Hr. vm_compute in Hr. injection Hr as <- <-.
  split; [reflexivity|]. split; [reflexivity|]. split; [reflexivity|]. apply H.
Defined.

(** Registering a leg again, as the answer to a re-offer does, starts its SRTCP
    state anew under the same keys: two messages with the request's own SSRC go out
    under one index, so under one initialisation vector, and a datagram taken
    before is taken again. *)
Example reregistered_leg_restarts :
  let again := register (build example_floors [99] [65] example_request).2 (example_leg [65] 10 (host 9 4000)) in
  let second := match (build again [99] [65] (mkAppRequest (Some 7) [77; 67; 80; 84] 1 [9; 9; 9; 9])).1 with
    Ok (_, _, data) => data | _ => [] end in
  index_of second = index_of example_wire /\ mki_of second = mki_of example_wire /\
  sub second 4 8 = sub example_wire 4 8 /\ second <> example_wire /\
  let packet := mkRxPacket 20 (host 7 5001) example_wire in
  let '(first, f, qs) := ingest example_floors example_queues packet in
  let '(replayed, _, _) := ingest f qs packet in
  let '(after, _, _) := ingest (register f (example_leg [66] 20 (host 9 4001))) qs packet in
  first = Ok Accepted /\ replayed = Ok Refused /\ after = Ok Accepted.
Proof. vm_compute. repeat split. congruence. Qed.
