(* ===== verification/RangeCoder.v ===== *)
(** * The Opus range coder: crates/siphon-rtp-codec/src/opus/range_coder.rs

    The entropy coder under SILK and CELT (RFC 6716 section 4.1): symbols are
    range coded forward from the front of a buffer, raw bits are written
    backward from its end.  Encoder and decoder are records with the source's
    fields; a buffer is passed and returned.  Unsigned integers are 32 bits wide:
    an operation the source leaves unchecked panics when it leaves the range, a
    [wrapping_] one wraps, a left shift drops the bits shifted out.  The bit
    counters stay far below their width and are plain integers.  The two table
    widths of the inverse-CDF operations share one definition. *)

From stdpp Require Import base list numbers option.
From Stdlib Require Import Lia ZArith.
From S2P Require Import Prelude.

Open Scope Z_scope.

Definition EC_SYM_BITS : Z := 8.
Definition EC_CODE_BITS : Z := 32.
Definition EC_SYM_MAX : Z := 255.
Definition EC_CODE_SHIFT : Z := EC_CODE_BITS - EC_SYM_BITS - 1.
Definition EC_CODE_TOP : Z := 2 ^ (EC_CODE_BITS - 1).
Definition EC_CODE_BOT : Z := Z.shiftr EC_CODE_TOP EC_SYM_BITS.
Definition EC_CODE_EXTRA : Z := (EC_CODE_BITS - 2) mod EC_SYM_BITS + 1.
Definition EC_UINT_BITS : Z := 8.
Definition EC_WINDOW_SIZE : Z := 32.
Definition BITRES : Z := 3.

(** No operation fails with an error: what can go wrong is a panic, or is
    recorded in the coder's [error] field. *)
Abbreviation rc := (res Empty_set).

Definition udiv (a b : Z) : rc Z := if b =? 0 then Panic else Ok (a / b).
Definition uadd (a b : Z) : rc Z := if a + b <? 2 ^ 32 then Ok (a + b) else Panic.
Definition ushr (a n : Z) : rc Z := if (0 <=? n) && (n <? 32) then Ok (Z.shiftr a n) else Panic.
Definition ushl (a n : Z) : rc Z := if (0 <=? n) && (n <? 32) then Ok (wrap 32 (Z.shiftl a n)) else Panic.
Definition unot (a : Z) : Z := 2 ^ 32 - 1 - a.
Definition umul (a b : Z) : Z := wrap 32 (a * b).

(** [v.leading_zeros()] is 32 less the position of the top bit. *)
Definition ec_ilog (v : Z) : Z := if v =? 0 then 0 else Z.log2 v + 1.

Definition ec_tell (nbits_total rng : Z) : Z := nbits_total - ec_ilog rng.

Definition CORRECTION : list Z := [35733; 38967; 42495; 46340; 50535; 55109; 60097; 65535].

Definition ec_tell_frac (nbits_total rng : Z) : rc Z :=
  let nbits := wrap 32 (Z.shiftl (wrap 32 nbits_total) BITRES) in
  let l := ec_ilog rng in
  shift ← usub l 16;
  r ← ushr rng shift;
  b ← usub (Z.shiftr r 12) 8;
  limit ← idx CORRECTION b;
  let b := b + b2z (limit <? r) in
  usub nbits (Z.shiftl l 3 + b).

(** ** Decoder *)

Record RangeDecoder : Type := mkRangeDecoder {
  d_buf : bytes; d_storage : Z; d_offs : Z; d_end_offs : Z; d_end_window : Z; d_nend_bits : Z;
  d_nbits_total : Z; d_rng : Z; d_val : Z; d_ext : Z; d_rem : Z; d_error : Z
}.

(** The fields the range-coded half moves, and those of the raw half. *)
Definition dec_front (d : RangeDecoder) (offs nbits_total rng val ext rem : Z) : RangeDecoder :=
  mkRangeDecoder (d_buf d) (d_storage d) offs (d_end_offs d) (d_end_window d) (d_nend_bits d)
    nbits_total rng val ext rem (d_error d).
Definition dec_back (d : RangeDecoder) (end_offs end_window nend_bits nbits_total : Z) : RangeDecoder :=
  mkRangeDecoder (d_buf d) (d_storage d) (d_offs d) end_offs end_window nend_bits
    nbits_total (d_rng d) (d_val d) (d_ext d) (d_rem d) (d_error d).
Definition dec_fail (d : RangeDecoder) : RangeDecoder :=
  mkRangeDecoder (d_buf d) (d_storage d) (d_offs d) (d_end_offs d) (d_end_window d) (d_nend_bits d)
    (d_nbits_total d) (d_rng d) (d_val d) (d_ext d) (d_rem d) 1.

(** The byte and the offset after it. *)
Definition read_byte (d : RangeDecoder) : rc (Z * Z) :=
  if d_offs d <? d_storage d then b ← idx (d_buf d) (d_offs d); mret (b, d_offs d + 1) else mret (0, d_offs d).

Definition read_byte_from_end (d : RangeDecoder) : rc (Z * Z) :=
  if d_end_offs d <? d_storage d then
    let end_offs := d_end_offs d + 1 in
    b ← idx (d_buf d) (d_storage d - end_offs); mret (b, end_offs)
  else mret (0, d_end_offs d).

Fixpoint dec_normalize (fuel : nat) (d : RangeDecoder) : rc RangeDecoder :=
  match fuel with
  | O => Panic
  | S fuel =>
      if d_rng d <=? EC_CODE_BOT then
        '(rem, offs) ← read_byte d;
        let sym := Z.shiftr (Z.lor (Z.shiftl (d_rem d) EC_SYM_BITS) rem) (EC_SYM_BITS - EC_CODE_EXTRA) in
        let val := Z.land (wrapping_add 32 (wrap 32 (Z.shiftl (d_val d) EC_SYM_BITS)) (Z.land EC_SYM_MAX (unot sym)))
          (EC_CODE_TOP - 1) in
        dec_normalize fuel (dec_front d offs (d_nbits_total d + EC_SYM_BITS) (wrap 32 (Z.shiftl (d_rng d) EC_SYM_BITS))
          val (d_ext d) rem)
      else mret d
  end.

Definition NORMALIZE_TURNS : nat := 4.

Definition RangeDecoder_new (buf : bytes) : rc RangeDecoder :=
  let d := mkRangeDecoder buf (len buf) 0 0 0 0
    (EC_CODE_BITS + 1 - ((EC_CODE_BITS - EC_CODE_EXTRA) / EC_SYM_BITS) * EC_SYM_BITS)
    (Z.shiftl 1 EC_CODE_EXTRA) 0 0 0 0 in
  '(rem, offs) ← read_byte d;
  val ← usub (d_rng d - 1) (Z.shiftr rem (EC_SYM_BITS - EC_CODE_EXTRA));
  dec_normalize NORMALIZE_TURNS (dec_front d offs (d_nbits_total d) (d_rng d) val (d_ext d) rem).

Definition dec_tell (d : RangeDecoder) : Z := ec_tell (d_nbits_total d) (d_rng d).
Definition dec_tell_frac (d : RangeDecoder) : rc Z := ec_tell_frac (d_nbits_total d) (d_rng d).
Definition dec_storage_bits (d : RangeDecoder) : Z := d_storage d * 8.

Definition dec_declare_bits_used (d : RangeDecoder) (total_bits : Z) : RangeDecoder :=
  dec_front d (d_offs d) (d_nbits_total d + (total_bits - dec_tell d)) (d_rng d) (d_val d) (d_ext d) (d_rem d).

Definition shrink_storage (d : RangeDecoder) (n : Z) : RangeDecoder :=
  let floor := Z.max (d_offs d) (d_end_offs d) in
  mkRangeDecoder (d_buf d) (Z.max (saturating_sub (d_storage d) n) floor) (d_offs d) (d_end_offs d) (d_end_window d)
    (d_nend_bits d) (d_nbits_total d) (d_rng d) (d_val d) (d_ext d) (d_rem d) (d_error d).

Definition decode (d : RangeDecoder) (ft : Z) : rc (Z * RangeDecoder) :=
  ext ← udiv (d_rng d) ft;
  s ← udiv (d_val d) ext;
  s1 ← uadd s 1;
  v ← usub ft (Z.min s1 ft);
  mret (v, dec_front d (d_offs d) (d_nbits_total d) (d_rng d) (d_val d) ext (d_rem d)).

Definition decode_bin (d : RangeDecoder) (bits : Z) : rc (Z * RangeDecoder) :=
  ext ← ushr (d_rng d) bits;
  s ← udiv (d_val d) ext;
  ft ← ushl 1 bits;
  s1 ← uadd s 1;
  v ← usub ft (Z.min s1 ft);
  mret (v, dec_front d (d_offs d) (d_nbits_total d) (d_rng d) (d_val d) ext (d_rem d)).

Definition dec_update (d : RangeDecoder) (fl fh ft : Z) : rc RangeDecoder :=
  above ← usub ft fh;
  let s := umul (d_ext d) above in
  let val := wrapping_sub 32 (d_val d) s in
  rng ← (if 0 <? fl then width ← usub fh fl; mret (umul (d_ext d) width) else usub (d_rng d) s);
  dec_normalize NORMALIZE_TURNS (dec_front d (d_offs d) (d_nbits_total d) rng val (d_ext d) (d_rem d)).

Definition dec_bit_logp (d : RangeDecoder) (logp : Z) : rc (bool * RangeDecoder) :=
  s ← ushr (d_rng d) logp;
  let ret := d_val d <? s in
  let val := if ret then d_val d else d_val d - s in
  rng ← (if ret then mret s else usub (d_rng d) s);
  d ← dec_normalize NORMALIZE_TURNS (dec_front d (d_offs d) (d_nbits_total d) rng val (d_ext d) (d_rem d));
  mret (ret, d).

(** The loop of [dec_icdf]: the symbol, with the bounds [s] and [t] around it. *)
Fixpoint icdf_search (fuel : nat) (icdf : list Z) (r d s ret : Z) : rc (Z * Z * Z) :=
  match fuel with
  | O => Panic
  | S fuel =>
      let t := s in
      entry ← idx icdf ret;
      let s := umul r entry in
      if s <=? d then mret (ret, s, t) else icdf_search fuel icdf r d s (ret + 1)
  end.

Definition dec_icdf (d : RangeDecoder) (icdf : list Z) (ftb : Z) : rc (Z * RangeDecoder) :=
  r ← ushr (d_rng d) ftb;
  '(ret, s, t) ← icdf_search (S (length icdf)) icdf r (d_val d) (d_rng d) 0;
  d ← dec_normalize NORMALIZE_TURNS (dec_front d (d_offs d) (d_nbits_total d) (wrapping_sub 32 t s)
    (wrapping_sub 32 (d_val d) s) (d_ext d) (d_rem d));
  mret (ret, d).

Definition dec_icdf16 : RangeDecoder -> list Z -> Z -> rc (Z * RangeDecoder) := dec_icdf.

(** The refill loop of [dec_bits]. *)
Fixpoint dec_refill (fuel : nat) (d : RangeDecoder) (window available : Z) : rc (RangeDecoder * Z * Z) :=
  match fuel with
  | O => Panic
  | S fuel =>
      '(b, end_offs) ← read_byte_from_end d;
      shifted ← ushl b available;
      let d := dec_back d end_offs (d_end_window d) (d_nend_bits d) (d_nbits_total d) in
      let window := Z.lor window shifted in
      let available := available + EC_SYM_BITS in
      if EC_WINDOW_SIZE - EC_SYM_BITS <? available then mret (d, window, available)
      else dec_refill fuel d window available
  end.

Definition dec_bits (d : RangeDecoder) (bits : Z) : rc (Z * RangeDecoder) :=
  '(d, window, available) ←
    (if wrap 32 (d_nend_bits d) <? bits then dec_refill 4 d (d_end_window d) (d_nend_bits d)
     else mret (d, d_end_window d, d_nend_bits d));
  one ← ushl 1 bits;
  mask ← usub one 1;
  rest ← ushr window bits;
  mret (Z.land window mask, dec_back d (d_end_offs d) rest (available - bits) (d_nbits_total d + bits)).

Definition dec_uint (d : RangeDecoder) (ft : Z) : rc (Z * RangeDecoder) :=
  ftn ← usub ft 1;
  let ftb := ec_ilog ftn in
  if EC_UINT_BITS <? ftb then
    let ftb := ftb - EC_UINT_BITS in
    high ← ushr ftn ftb;
    let ftt := high + 1 in
    '(s, d) ← decode d ftt;
    d ← dec_update d s (s + 1) ftt;
    shifted ← ushl s ftb;
    '(low, d) ← dec_bits d ftb;
    let t := Z.lor shifted low in
    mret (if t <=? ftn then (t, d) else (ftn, dec_fail d))
  else
    let ftt := ftn + 1 in
    '(s, d) ← decode d ftt;
    d ← dec_update d s (s + 1) ftt;
    mret (s, d).

(** A rollback point: every field but the buffer, which never changes. *)
Record RangeState : Type := mkRangeState {
  st_storage : Z; st_offs : Z; st_end_offs : Z; st_end_window : Z; st_nend_bits : Z;
  st_nbits_total : Z; st_rng : Z; st_val : Z; st_ext : Z; st_rem : Z; st_error : Z
}.

Definition dec_save_state (d : RangeDecoder) : RangeState :=
  mkRangeState (d_storage d) (d_offs d) (d_end_offs d) (d_end_window d) (d_nend_bits d) (d_nbits_total d) (d_rng d)
    (d_val d) (d_ext d) (d_rem d) (d_error d).
Definition dec_restore_state (d : RangeDecoder) (s : RangeState) : RangeDecoder :=
  mkRangeDecoder (d_buf d) (st_storage s) (st_offs s) (st_end_offs s) (st_end_window s) (st_nend_bits s)
    (st_nbits_total s) (st_rng s) (st_val s) (st_ext s) (st_rem s) (st_error s).

(** ** Encoder *)

Record RangeEncoder : Type := mkRangeEncoder {
  e_buf : bytes; e_storage : Z; e_offs : Z; e_end_offs : Z; e_end_window : Z; e_nend_bits : Z;
  e_nbits_total : Z; e_rng : Z; e_val : Z; e_ext : Z; e_rem : Z; e_error : Z
}.

Definition RangeEncoder_new (buf : bytes) : RangeEncoder :=
  mkRangeEncoder buf (len buf) 0 0 0 0 (EC_CODE_BITS + 1) EC_CODE_TOP 0 0 (-1) 0.

Definition enc_tell (e : RangeEncoder) : Z := ec_tell (e_nbits_total e) (e_rng e).
Definition enc_tell_frac (e : RangeEncoder) : rc Z := ec_tell_frac (e_nbits_total e) (e_rng e).
Definition enc_storage_bits (e : RangeEncoder) : Z := e_storage e * 8.

(** The fields each part of the encoder moves. *)
Definition enc_range (e : RangeEncoder) (nbits_total rng val : Z) : RangeEncoder :=
  mkRangeEncoder (e_buf e) (e_storage e) (e_offs e) (e_end_offs e) (e_end_window e) (e_nend_bits e)
    nbits_total rng val (e_ext e) (e_rem e) (e_error e).
Definition enc_carry (e : RangeEncoder) (ext rem : Z) : RangeEncoder :=
  mkRangeEncoder (e_buf e) (e_storage e) (e_offs e) (e_end_offs e) (e_end_window e) (e_nend_bits e)
    (e_nbits_total e) (e_rng e) (e_val e) ext rem (e_error e).
Definition enc_output (e : RangeEncoder) (buf : bytes) (offs end_offs error : Z) : RangeEncoder :=
  mkRangeEncoder buf (e_storage e) offs end_offs (e_end_window e) (e_nend_bits e)
    (e_nbits_total e) (e_rng e) (e_val e) (e_ext e) (e_rem e) error.
Definition enc_back (e : RangeEncoder) (end_window nend_bits nbits_total : Z) : RangeEncoder :=
  mkRangeEncoder (e_buf e) (e_storage e) (e_offs e) (e_end_offs e) end_window nend_bits
    nbits_total (e_rng e) (e_val e) (e_ext e) (e_rem e) (e_error e).

Definition enc_declare_bits_used (e : RangeEncoder) (total_bits : Z) : RangeEncoder :=
  enc_range e (e_nbits_total e + (total_bits - enc_tell e)) (e_rng e) (e_val e).

Definition enc_save_state (e : RangeEncoder) : RangeState :=
  mkRangeState (e_storage e) (e_offs e) (e_end_offs e) (e_end_window e) (e_nend_bits e) (e_nbits_total e) (e_rng e)
    (e_val e) (e_ext e) (e_rem e) (e_error e).
Definition enc_restore_state (e : RangeEncoder) (s : RangeState) : RangeEncoder :=
  mkRangeEncoder (e_buf e) (st_storage s) (st_offs s) (st_end_offs s) (st_end_window s) (st_nend_bits s)
    (st_nbits_total s) (st_rng s) (st_val s) (st_ext s) (st_rem s) (st_error s).

(** [self.error |= self.write_byte(value)], and the same at the other end. *)
Definition write_byte (e : RangeEncoder) (value : Z) : rc RangeEncoder :=
  if e_storage e <=? e_offs e + e_end_offs e then
    mret (enc_output e (e_buf e) (e_offs e) (e_end_offs e) (Z.lor (e_error e) (-1)))
  else
    buf ← set_at (e_buf e) (e_offs e) (wrap 8 value);
    mret (enc_output e buf (e_offs e + 1) (e_end_offs e) (e_error e)).

Definition write_byte_at_end (e : RangeEncoder) (value : Z) : rc RangeEncoder :=
  if e_storage e <=? e_offs e + e_end_offs e then
    mret (enc_output e (e_buf e) (e_offs e) (e_end_offs e) (Z.lor (e_error e) (-1)))
  else
    let end_offs := e_end_offs e + 1 in
    buf ← set_at (e_buf e) (e_storage e - end_offs) (wrap 8 value);
    mret (enc_output e buf (e_offs e) end_offs (e_error e)).

(** The loop that writes the outstanding 0xFF symbols. *)
Fixpoint write_ext (n : nat) (e : RangeEncoder) (sym : Z) : rc RangeEncoder :=
  match n with
  | O => mret e
  | S n =>
      e ← write_byte e sym;
      write_ext n (enc_carry e (e_ext e - 1) (e_rem e)) sym
  end.

Definition carry_out (e : RangeEncoder) (c : Z) : rc RangeEncoder :=
  if negb (wrap 32 c =? EC_SYM_MAX) then
    let carry := Z.shiftr c EC_SYM_BITS in
    e ← (if 0 <=? e_rem e then write_byte e (wrap 32 (e_rem e + carry)) else mret e);
    e ← (if 0 <? e_ext e then
           write_ext (Z.to_nat (e_ext e)) e (Z.land (wrapping_add 32 EC_SYM_MAX (wrap 32 carry)) EC_SYM_MAX)
         else mret e);
    mret (enc_carry e (e_ext e) (Z.land c EC_SYM_MAX))
  else mret (enc_carry e (e_ext e + 1) (e_rem e)).

Fixpoint enc_normalize (fuel : nat) (e : RangeEncoder) : rc RangeEncoder :=
  match fuel with
  | O => Panic
  | S fuel =>
      if e_rng e <=? EC_CODE_BOT then
        e ← carry_out e (Z.shiftr (e_val e) EC_CODE_SHIFT);
        enc_normalize fuel (enc_range e (e_nbits_total e + EC_SYM_BITS) (wrap 32 (Z.shiftl (e_rng e) EC_SYM_BITS))
          (Z.land (wrap 32 (Z.shiftl (e_val e) EC_SYM_BITS)) (EC_CODE_TOP - 1)))
      else mret e
  end.

Definition encode (e : RangeEncoder) (fl fh ft : Z) : rc RangeEncoder :=
  r ← udiv (e_rng e) ft;
  if 0 <? fl then
    below ← usub ft fl; width ← usub fh fl;
    enc_normalize NORMALIZE_TURNS (enc_range e (e_nbits_total e) (umul r width)
      (wrapping_add 32 (e_val e) (wrapping_sub 32 (e_rng e) (umul r below))))
  else
    above ← usub ft fh; rng ← usub (e_rng e) (umul r above);
    enc_normalize NORMALIZE_TURNS (enc_range e (e_nbits_total e) rng (e_val e)).

Definition encode_bin (e : RangeEncoder) (fl fh bits : Z) : rc RangeEncoder :=
  r ← ushr (e_rng e) bits;
  ft ← ushl 1 bits;
  if 0 <? fl then
    below ← usub ft fl; width ← usub fh fl;
    enc_normalize NORMALIZE_TURNS (enc_range e (e_nbits_total e) (umul r width)
      (wrapping_add 32 (e_val e) (wrapping_sub 32 (e_rng e) (umul r below))))
  else
    above ← usub ft fh; rng ← usub (e_rng e) (umul r above);
    enc_normalize NORMALIZE_TURNS (enc_range e (e_nbits_total e) rng (e_val e)).

Definition enc_bit_logp (e : RangeEncoder) (val : bool) (logp : Z) : rc RangeEncoder :=
  s ← ushr (e_rng e) logp;
  r ← usub (e_rng e) s;
  enc_normalize NORMALIZE_TURNS (enc_range e (e_nbits_total e) (if val then s else r)
    (if val then wrapping_add 32 (e_val e) r else e_val e)).

Definition enc_icdf (e : RangeEncoder) (s : Z) (icdf : list Z) (ftb : Z) : rc RangeEncoder :=
  r ← ushr (e_rng e) ftb;
  if 0 <? s then
    below ← idx icdf (s - 1);
    above ← idx icdf s;
    width ← usub below above;
    enc_normalize NORMALIZE_TURNS (enc_range e (e_nbits_total e) (umul r width)
      (wrapping_add 32 (e_val e) (wrapping_sub 32 (e_rng e) (umul r below))))
  else
    above ← idx icdf s; rng ← usub (e_rng e) (umul r above);
    enc_normalize NORMALIZE_TURNS (enc_range e (e_nbits_total e) rng (e_val e)).

Definition enc_icdf16 : RangeEncoder -> Z -> list Z -> Z -> rc RangeEncoder := enc_icdf.

(** The flush loop of [enc_bits]. *)
Fixpoint enc_flush (fuel : nat) (e : RangeEncoder) (window used : Z) : rc (RangeEncoder * Z * Z) :=
  match fuel with
  | O => Panic
  | S fuel =>
      e ← write_byte_at_end e (Z.land window EC_SYM_MAX);
      let window := Z.shiftr window EC_SYM_BITS in
      let used := used - EC_SYM_BITS in
      if used <? EC_SYM_BITS then mret (e, window, used) else enc_flush fuel e window used
  end.

Definition enc_bits (e : RangeEncoder) (fl bits : Z) : rc RangeEncoder :=
  total ← uadd (wrap 32 (e_nend_bits e)) bits;
  '(e, window, used) ←
    (if EC_WINDOW_SIZE <? total then enc_flush 4 e (e_end_window e) (e_nend_bits e)
     else mret (e, e_end_window e, e_nend_bits e));
  shifted ← ushl fl used;
  mret (enc_back e (Z.lor window shifted) (used + bits) (e_nbits_total e + bits)).

Definition enc_uint (e : RangeEncoder) (fl ft : Z) : rc RangeEncoder :=
  ftn ← usub ft 1;
  let ftb := ec_ilog ftn in
  if EC_UINT_BITS <? ftb then
    let ftb := ftb - EC_UINT_BITS in
    high ← ushr ftn ftb;
    fl_hi ← ushr fl ftb;
    e ← encode e fl_hi (fl_hi + 1) (high + 1);
    one ← ushl 1 ftb;
    enc_bits e (Z.land fl (one - 1)) ftb
  else encode e fl (fl + 1) (ftn + 1).

Definition patch_initial_bits (e : RangeEncoder) (val nbits : Z) : rc RangeEncoder :=
  shift ← usub EC_SYM_BITS nbits;
  one ← ushl 1 nbits;
  wide ← ushl (one - 1) shift;
  let mask := wrap 8 wide in
  moved ← ushl val shift;
  if 0 <? e_offs e then
    b ← idx (e_buf e) 0;
    buf ← set_at (e_buf e) 0 (Z.lor (Z.land b (255 - mask)) (wrap 8 moved));
    mret (enc_output e buf (e_offs e) (e_end_offs e) (e_error e))
  else if 0 <=? e_rem e then mret (enc_carry e (e_ext e) (Z.lor (Z.land (e_rem e) (unot mask)) moved))
  else if e_rng e <=? Z.shiftr EC_CODE_TOP nbits then
    top ← ushl val (EC_CODE_SHIFT + shift);
    mret (enc_range e (e_nbits_total e) (e_rng e)
      (Z.lor (Z.land (e_val e) (unot (wrap 32 (Z.shiftl mask EC_CODE_SHIFT)))) top))
  else mret (enc_output e (e_buf e) (e_offs e) (e_end_offs e) (-1)).

Definition shrink (e : RangeEncoder) (size : Z) : rc RangeEncoder :=
  src ← usub (e_storage e) (e_end_offs e);
  dst ← usub size (e_end_offs e);
  moved ← slice (e_buf e) src (src + e_end_offs e);
  buf ← copy_at (e_buf e) dst moved;
  mret (mkRangeEncoder buf size (e_offs e) (e_end_offs e) (e_end_window e) (e_nend_bits e)
    (e_nbits_total e) (e_rng e) (e_val e) (e_ext e) (e_rem e) (e_error e)).

(** [done]: how many bits to put out and the code they hold. *)
Definition final_code (val rng : Z) : rc (Z * Z) :=
  let l := EC_CODE_BITS - ec_ilog rng in
  msk ← ushr (EC_CODE_TOP - 1) l;
  let code := Z.land (wrapping_add 32 val msk) (unot msk) in
  if wrapping_add 32 val rng <=? Z.lor code msk then
    let msk := Z.shiftr msk 1 in
    mret (l + 1, Z.land (wrapping_add 32 val msk) (unot msk))
  else mret (l, code).

Fixpoint put_code (fuel : nat) (e : RangeEncoder) (l code : Z) : rc (RangeEncoder * Z) :=
  match fuel with
  | O => Panic
  | S fuel =>
      if 0 <? l then
        e ← carry_out e (Z.shiftr code EC_CODE_SHIFT);
        put_code fuel e (l - EC_SYM_BITS) (Z.land (wrap 32 (Z.shiftl code EC_SYM_BITS)) (EC_CODE_TOP - 1))
      else mret (e, l)
  end.

Fixpoint put_raw (fuel : nat) (e : RangeEncoder) (window used : Z) : rc (RangeEncoder * Z * Z) :=
  match fuel with
  | O => Panic
  | S fuel =>
      if EC_SYM_BITS <=? used then
        e ← write_byte_at_end e (Z.land window EC_SYM_MAX);
        put_raw fuel e (Z.shiftr window EC_SYM_BITS) (used - EC_SYM_BITS)
      else mret (e, window, used)
  end.

(** [for b in &mut buf[a..b] { *b = 0; }] *)
Definition clear_range (buf : bytes) (a b : Z) : rc bytes :=
  hole ← slice buf a b;
  copy_at buf a (replicate (length hole) 0).

(** What [done] does with the last raw bits: they go in a byte of their own or in
    the bits the last range-coded byte left free. *)
Definition put_last (e : RangeEncoder) (l window used : Z) : rc RangeEncoder :=
  if negb (e_error e =? 0) then mret e else
  buf ← clear_range (e_buf e) (e_offs e) (e_storage e - e_end_offs e);
  let e := enc_output e buf (e_offs e) (e_end_offs e) (e_error e) in
  if 0 <? used then
    if e_storage e <=? e_end_offs e then mret (enc_output e buf (e_offs e) (e_end_offs e) (-1)) else
    let l := - l in
    '(window, error) ←
      (if (e_storage e <=? e_offs e + e_end_offs e) && (l <? used) then
         one ← ushl 1 l; mret (Z.land window (one - 1), -1)
       else mret (window, e_error e));
    let i := e_storage e - e_end_offs e - 1 in
    b ← idx buf i;
    buf ← set_at buf i (Z.lor b (wrap 8 window));
    mret (enc_output e buf (e_offs e) (e_end_offs e) error)
  else mret e.

(** The front bytes written, and the encoder whose buffer is the packet. *)
Definition done (e : RangeEncoder) : rc (Z * RangeEncoder) :=
  '(l, code) ← final_code (e_val e) (e_rng e);
  '(e, l) ← put_code 6 e l code;
  e ← (if (0 <=? e_rem e) || (0 <? e_ext e) then carry_out e 0 else mret e);
  '(e, window, used) ← put_raw 5 e (e_end_window e) (e_nend_bits e);
  e ← put_last e l window used;
  mret (e_offs e, e).

(** * Proofs *)

(** ** The buffer: what is written at the front, the hole, what is at the back *)

Record layout (e : RangeEncoder) (F M B : bytes) : Prop := {
  ly_buf : e_buf e = F ++ M ++ B;
  ly_storage : e_storage e = len (e_buf e);
  ly_offs : e_offs e = len F;
  ly_end : e_end_offs e = len B
}.

Lemma be_dec_app l1 l2 : be_dec (l1 ++ l2) = be_dec l1 * 256 ^ len l2 + be_dec l2.
Proof. unfold be_dec. rewrite be_dec_acc_app. apply be_dec_acc_shift. Qed.

Lemma be_dec_snoc l b : be_dec (l ++ [b]) = be_dec l * 256 + b.
Proof. rewrite be_dec_app. change (len [b]) with 1. rewrite be_dec_cons, len_nil. change (be_dec []) with 0. lia. Qed.

Lemma layout_room e F M B : layout e F M B -> e_storage e = e_offs e + len M + e_end_offs e.
Proof. intros [-> -> -> ->]. len_lia. Qed.

Lemma write_byte_full e F B v : layout e F [] B ->
  write_byte e v = Ok (enc_output e (e_buf e) (e_offs e) (e_end_offs e) (-1)).
Proof.
  intros H. apply layout_room in H. unfold write_byte. rewrite (proj2 (Z.leb_le _ _)) by (rewrite H; len_lia).
  by rewrite Z.lor_m1_r.
Qed.

Lemma write_byte_put e F m M B v : layout e F (m :: M) B ->
  exists e', write_byte e v = Ok e' /\ layout e' (F ++ [wrap 8 v]) M B /\
    e' = enc_output e (e_buf e') (e_offs e + 1) (e_end_offs e) (e_error e).
Proof.
  intros H. pose proof (layout_room _ _ _ _ H) as Hr. pose proof (len_nonneg M). rewrite len_cons in Hr.
  destruct H as [Hb Hs Ho He]. unfold write_byte. rewrite (proj2 (Z.leb_gt _ _)) by lia.
  unfold set_at. rewrite Hb, (copy_at_mid F [m] [wrap 8 v] (M ++ B)) by done. eexists. split; [done|].
  split; [|done]. split; cbn; [by rewrite <- !app_assoc| |rewrite Ho; len_lia|done].
  rewrite Hs, Hb. len_lia.
Qed.

Lemma write_end_full e F B v : layout e F [] B ->
  write_byte_at_end e v = Ok (enc_output e (e_buf e) (e_offs e) (e_end_offs e) (-1)).
Proof.
  intros H. apply layout_room in H. unfold write_byte_at_end. rewrite (proj2 (Z.leb_le _ _)) by (rewrite H; len_lia).
  by rewrite Z.lor_m1_r.
Qed.

Lemma write_end_put e F M m B v : layout e F (M ++ [m]) B ->
  exists e', write_byte_at_end e v = Ok e' /\ layout e' F M (wrap 8 v :: B) /\
    e' = enc_output e (e_buf e') (e_offs e) (e_end_offs e + 1) (e_error e).
Proof.
  intros H. pose proof (layout_room _ _ _ _ H) as Hr. pose proof (len_nonneg M). rewrite len_app in Hr.
  change (len [m]) with 1 in Hr.
  destruct H as [Hb Hs Ho He]. unfold write_byte_at_end. rewrite (proj2 (Z.leb_gt _ _)) by lia.
  unfold set_at. rewrite Hb. replace (F ++ (M ++ [m]) ++ B) with ((F ++ M) ++ [m] ++ B) by (by rewrite <- !app_assoc).
  rewrite (copy_at_mid (F ++ M) [m] [wrap 8 v] B) by (try done; rewrite len_app; lia). eexists. split; [done|].
  split; [|done]. split; cbn; [by rewrite <- !app_assoc| |done|rewrite He; len_lia].
  rewrite Hs, Hb. len_lia.
Qed.

(** Everything but the output and the carry state is the same. *)
Definition same_code (e e' : RangeEncoder) : Prop :=
  e_nbits_total e' = e_nbits_total e /\ e_rng e' = e_rng e /\ e_val e' = e_val e /\
  e_end_window e' = e_end_window e /\ e_nend_bits e' = e_nend_bits e /\ len (e_buf e') = len (e_buf e).

Lemma same_code_refl e : same_code e e.
Proof. by repeat split. Qed.

Lemma same_code_trans e1 e2 e3 : same_code e1 e2 -> same_code e2 e3 -> same_code e1 e3.
Proof. unfold same_code. intros (? & ? & ? & ? & ? & ?) (? & ? & ? & ? & ? & ?). repeat split; congruence. Qed.

(** [e'] is [e] after putting [vs] at the front, or after failing to for want of
    room, which marks the error for good. *)
Record wrote (e : RangeEncoder) (F M B vs : bytes) (e' : RangeEncoder) (F' M' : bytes) : Prop := {
  wr_layout : layout e' F' M' B;
  wr_same : same_code e e';
  wr_clean : e_error e' = 0 -> e_error e = 0 /\ F' = F ++ vs;
  wr_room : len vs <= len M -> e_error e' = e_error e /\ len M' = len M - len vs;
  wr_shrinks : len M' <= len M
}.

Lemma wrote_nil e F M B : layout e F M B -> wrote e F M B [] e F M.
Proof. intros H. split; [done|apply same_code_refl|by rewrite app_nil_r|rewrite len_nil; lia|lia]. Qed.

Lemma wrote_app e F M B vs e1 F1 M1 ws e2 F2 M2 :
  wrote e F M B vs e1 F1 M1 -> wrote e1 F1 M1 B ws e2 F2 M2 -> wrote e F M B (vs ++ ws) e2 F2 M2.
Proof.
  intros [L1 S1 C1 R1 K1] [L2 S2 C2 R2 K2]. pose proof (len_nonneg ws). pose proof (len_nonneg vs). split.
  - done.
  - by eapply same_code_trans.
  - intros (He & ->)%C2. apply C1 in He as (He & ->). by rewrite app_assoc.
  - rewrite len_app. intros Hr. destruct R1 as (E1 & N1); [lia|]. destruct R2 as (E2 & N2); [lia|].
    split; [congruence|lia].
  - lia.
Qed.

Lemma write_byte_wrote e F M B v : layout e F M B ->
  exists e' F' M', write_byte e v = Ok e' /\ wrote e F M B [wrap 8 v] e' F' M' /\ e_ext e' = e_ext e /\ e_rem e' = e_rem e.
Proof.
  intros H. destruct M as [|m M].
  - rewrite (write_byte_full e F B v H). eexists _, F, []. split; [done|]. split; [|done].
    destruct H. split; [by split|by repeat split|done|rewrite len_cons, !len_nil; lia|lia].
  - destruct (write_byte_put e F m M B v H) as (e' & -> & Hl & He'). exists e', (F ++ [wrap 8 v]), M. split; [done|].
    assert (len (e_buf e') = len (e_buf e)) as Hlen.
    { rewrite (ly_buf _ _ _ _ Hl), (ly_buf _ _ _ _ H). len_lia. }
    rewrite He'. cbn. split; [|done]. rewrite He' in Hl. split; [done|by repeat split|done|rewrite !len_cons, len_nil; cbn; lia|rewrite len_cons; lia].
Qed.

Lemma write_ext_wrote n : forall e F M B v, layout e F M B ->
  exists e' F' M', write_ext n e v = Ok e' /\ wrote e F M B (replicate n (wrap 8 v)) e' F' M' /\
    e_ext e' = e_ext e - Z.of_nat n /\ e_rem e' = e_rem e.
Proof.
  induction n as [|n IH]; intros e F M B v H; cbn [write_ext replicate].
  - exists e, F, M. split; [done|]. split; [by apply wrote_nil|]. split; [lia|done].
  - destruct (write_byte_wrote e F M B v H) as (e1 & F1 & M1 & -> & W1 & Hx & Hr). rewrite bind_Ok.
    set (e1' := enc_carry e1 (e_ext e1 - 1) (e_rem e1)).
    assert (wrote e F M B [wrap 8 v] e1' F1 M1) as W1' by (destruct W1 as [[] S C R K]; split; [by split|exact S|exact C|exact R|exact K]).
    destruct (IH e1' F1 M1 B v (wr_layout _ _ _ _ _ _ _ _ W1')) as (e2 & F2 & M2 & -> & W2 & Hx2 & Hr2).
    exists e2, F2, M2. split; [done|]. split; [apply (wrote_app _ _ _ _ _ _ _ _ _ _ _ _ W1' W2)|].
    cbn in Hx2, Hr2. split; [lia|congruence].
Qed.

(** ** Carry propagation *)

(** The digits put out but not yet written: a carry may still reach them. *)
Definition pend (e : RangeEncoder) : bytes :=
  (if 0 <=? e_rem e then [e_rem e] else []) ++ replicate (Z.to_nat (e_ext e)) 255.

Definition pend_ok (e : RangeEncoder) : Prop := -1 <= e_rem e <= 255 /\ 0 <= e_ext e.

Lemma be_dec_nines n : be_dec (replicate n 255) = 256 ^ Z.of_nat n - 1.
Proof.
  induction n as [|n IH]; [done|]. cbn [replicate]. rewrite be_dec_cons, IH, len_replicate, Nat2Z.inj_succ, Z.pow_succ_r by lia. lia.
Qed.

Lemma be_dec_zeros n : be_dec (replicate n 0) = 0.
Proof. induction n as [|n IH]; [done|]. cbn [replicate]. rewrite be_dec_cons, IH. lia. Qed.

Lemma bytes_ok_pend e : pend_ok e -> bytes_ok (pend e).
Proof.
  intros (Hr & He). unfold pend. apply bytes_ok_app. split.
  - destruct (Z.leb_spec 0 (e_rem e)); [|constructor]. constructor; [unfold is_byte; lia|constructor].
  - apply Forall_replicate. unfold is_byte. lia.
Qed.

(** The digits with a carry added to them. *)
Definition settled (e : RangeEncoder) (carry : Z) : bytes :=
  (if 0 <=? e_rem e then [e_rem e + carry] else []) ++ replicate (Z.to_nat (e_ext e)) (if carry =? 0 then 255 else 0).

Lemma settled_value e F carry : pend_ok e -> carry = 0 \/ carry = 1 /\ 0 <= e_rem e ->
  be_dec (F ++ settled e carry) = be_dec (F ++ pend e) + carry /\ len (settled e carry) = len (pend e).
Proof.
  intros (Hr & He) Hc. unfold settled, pend. rewrite !len_app, !len_replicate. split.
  2: { by destruct (0 <=? e_rem e). }
  destruct Hc as [->|(-> & Hrem)].
  - cbn [Z.eqb]. destruct (0 <=? e_rem e); by rewrite !Z.add_0_r.
  - rewrite (proj2 (Z.leb_le 0 (e_rem e)) Hrem). cbn [Z.eqb]. rewrite !be_dec_app, !len_app, !len_replicate, be_dec_nines, be_dec_zeros.
    rewrite !be_dec_cons, !len_nil, !len_cons, !len_nil, !Z.pow_add_r by lia. change (be_dec []) with 0. ring.
Qed.

Lemma carry_digits c : 0 <= c < 512 -> c <> 255 ->
  let carry := Z.shiftr c EC_SYM_BITS in
  (carry = 0 /\ c < 255 \/ carry = 1 /\ 256 <= c) /\ c = carry * 256 + Z.land c EC_SYM_MAX /\
  0 <= Z.land c EC_SYM_MAX <= 255 /\
  Z.land (wrapping_add 32 EC_SYM_MAX (wrap 32 carry)) EC_SYM_MAX = (if carry =? 0 then 255 else 0).
Proof.
  intros Hc Hne carry. unfold carry, EC_SYM_BITS, EC_SYM_MAX. rewrite Z.shiftr_div_pow2 by lia.
  change 255 with (Z.ones 8). rewrite !Z.land_ones by lia. change (2 ^ 8) with 256. change (Z.ones 8) with 255.
  pose proof (Z.div_mod c 256 ltac:(lia)). pose proof (Z.mod_pos_bound c 256 ltac:(lia)).
  assert (c / 256 = 0 \/ c / 256 = 1) as [Hq|Hq] by (assert (0 <= c / 256 < 2) by (split; [apply Z.div_pos|apply Z.div_lt_upper_bound]; lia); lia);
    rewrite Hq in *; cbn [Z.eqb]; (split; [lia|]); (split; [lia|]); (split; [lia|reflexivity]).
Qed.

(** One digit is put out: the value of all digits is extended by it, whatever
    carry it brings, and the error is marked only when the digits do not fit. *)
Record emitted (e : RangeEncoder) (F M B : bytes) (c : Z) (e' : RangeEncoder) (F' M' : bytes) : Prop := {
  em_layout : layout e' F' M' B;
  em_same : same_code e e';
  em_pend : pend_ok e';
  em_first : e_rem e' = -1 -> e_rem e = -1;
  em_clean : e_error e' = 0 -> e_error e = 0 /\
    be_dec (F' ++ pend e') = be_dec (F ++ pend e) * 256 + c /\
    len (F' ++ pend e') = len (F ++ pend e) + 1 /\ (bytes_ok F -> bytes_ok F');
  em_room : len (pend e) <= len M -> e_error e' = e_error e;
  em_settled : c <> 255 -> e_ext e' = 0 /\ e_rem e' = Z.land c EC_SYM_MAX;
  em_stuck : e_rem e' = -1 \/ e_rem e' = 255 -> c = 511 \/ c = 255 /\ (e_rem e = -1 \/ e_rem e = 255)
}.

Lemma carry_out_emits e F M B c : layout e F M B -> pend_ok e -> 0 <= c < 512 -> (256 <= c -> 0 <= e_rem e <= 254) ->
  exists e' F' M', carry_out e c = Ok e' /\ emitted e F M B c e' F' M'.
Proof.
  intros H Hp Hc Hcar. pose proof Hp as (Hr & He). unfold carry_out.
  assert (wrap 32 c = c) as -> by (apply Z.mod_small; lia). unfold EC_SYM_MAX at 1.
  destruct (Z.eqb_spec c 255) as [->|Hne]; cbn [negb].
  - eexists _, F, M. split; [done|].
    assert (pend (enc_carry e (e_ext e + 1) (e_rem e)) = pend e ++ [255]) as Hpe.
    { unfold pend. cbn. rewrite <- app_assoc. f_equal. replace (Z.to_nat (e_ext e + 1)) with (Z.to_nat (e_ext e) + 1)%nat by lia.
      by rewrite replicate_add. }
    split; [destruct H; by split|by repeat split|split; cbn [e_rem e_ext enc_carry]; lia|done| |done|done|cbn; auto].
    intros Herr. rewrite Hpe, app_assoc, be_dec_snoc, len_app. change (len [255]) with 1. done.
  - destruct (carry_digits c Hc Hne) as (Hcarry & Hcv & Hlow & Hsym). set (carry := Z.shiftr c EC_SYM_BITS) in *.
    assert (carry = 0 \/ carry = 1 /\ 0 <= e_rem e <= 254) as Hcr by lia.
    assert (exists e1 F1 M1, (if 0 <=? e_rem e then write_byte e (wrap 32 (e_rem e + carry)) else mret e) = Ok e1 /\
      wrote e F M B (if 0 <=? e_rem e then [e_rem e + carry] else []) e1 F1 M1 /\ e_ext e1 = e_ext e) as (e1 & F1 & M1 & -> & W1 & Hx1).
    { destruct (Z.leb_spec 0 (e_rem e)).
      - destruct (write_byte_wrote e F M B (wrap 32 (e_rem e + carry)) H) as (e1 & F1 & M1 & H1 & W1 & Hx1 & _).
        exists e1, F1, M1. split; [done|]. split; [|done]. unfold wrap in W1. rewrite (Z.mod_small _ (2 ^ 32)), Z.mod_small in W1 by lia. done.
      - exists e, F, M. split; [done|]. split; [by apply wrote_nil|done]. }
    rewrite bind_Ok, Hsym.
    assert (exists e2 F2 M2, (if 0 <? e_ext e1 then write_ext (Z.to_nat (e_ext e1)) e1 (if carry =? 0 then 255 else 0) else mret e1) = Ok e2 /\
      wrote e1 F1 M1 B (replicate (Z.to_nat (e_ext e1)) (if carry =? 0 then 255 else 0)) e2 F2 M2 /\ e_ext e2 = 0) as (e2 & F2 & M2 & -> & W2 & Hx2).
    { destruct (Z.ltb_spec 0 (e_ext e1)).
      - destruct (write_ext_wrote (Z.to_nat (e_ext e1)) e1 F1 M1 B (if carry =? 0 then 255 else 0) (wr_layout _ _ _ _ _ _ _ _ W1))
          as (e2 & F2 & M2 & H2 & W2 & Hx2 & _).
        exists e2, F2, M2. split; [done|]. split; [|lia]. replace (wrap 8 (if carry =? 0 then 255 else 0)) with (if carry =? 0 then 255 else 0) in W2 by (by destruct (carry =? 0)). done.
      - exists e1, F1, M1. split; [done|]. replace (Z.to_nat (e_ext e1)) with 0%nat by lia.
        split; [apply wrote_nil; by destruct W1|lia]. }
    rewrite bind_Ok, Hx1 in *. pose proof (wrote_app _ _ _ _ _ _ _ _ _ _ _ _ W1 W2) as [L S Cl R K]. fold (settled e carry) in Cl, R.
    destruct (settled_value e F carry Hp ltac:(lia)) as (Hval & Hlen).
    eexists _, F2, M2. split; [done|]. split; [destruct L; by split|exact S|split; cbn [e_rem e_ext enc_carry]; lia|cbn [e_rem enc_carry]; lia| | |done|cbn [e_rem enc_carry]; intros; lia].
    + intros Herr. destruct (Cl Herr) as (He0 & ->). unfold pend at 1 3. cbn [e_rem e_ext enc_carry].
      rewrite (proj2 (Z.leb_le 0 (Z.land c EC_SYM_MAX))), Hx2 by lia. cbn [Z.to_nat replicate]. rewrite app_nil_r.
      split; [done|]. rewrite be_dec_snoc, Hval, !len_app, Hlen. change (len [_]) with 1. split; [lia|]. split; [lia|].
      intros HF. apply bytes_ok_app. split; [done|]. apply bytes_ok_app. split.
      * destruct (Z.leb_spec 0 (e_rem e)); [|constructor]. constructor; [unfold is_byte; lia|constructor].
      * apply Forall_replicate. unfold is_byte. destruct (carry =? 0); lia.
    + cbn. rewrite <- Hlen. intros Hroom. by destruct (R Hroom).
Qed.

(** ** The interval

    All the digits put out and [val] make one number, the bottom of the interval
    at a scale that grows by 256 with each digit; the interval of a state lies in
    that of every state before it. *)

Definition digits (e : RangeEncoder) (F : bytes) : bytes := F ++ pend e.
Definition low (e : RangeEncoder) (F : bytes) : Z := be_dec (digits e F) * 2 ^ 31 + e_val e.

(** No carry can reach a first digit that is missing or already 255. *)
Record code_ok (e : RangeEncoder) : Prop := {
  co_pend : pend_ok e;
  co_rng : 0 < e_rng e <= 2 ^ 31;
  co_val : 0 <= e_val e /\ e_val e + e_rng e < 2 ^ 32;
  co_stuck : e_rem e = -1 \/ e_rem e = 255 -> e_val e + e_rng e <= 2 ^ 31
}.

Record narrowed (e : RangeEncoder) (F M B : bytes) (off w j : Z) (e' : RangeEncoder) (F' M' : bytes) : Prop := {
  na_layout : layout e' F' M' B;
  na_ok : code_ok e';
  na_rng : e_rng e' = w * 256 ^ j /\ 2 ^ 23 < e_rng e';
  na_turns : 0 <= j <= 3;
  na_bits : e_nbits_total e' = e_nbits_total e + 8 * j;
  na_back : e_end_window e' = e_end_window e /\ e_nend_bits e' = e_nend_bits e;
  na_len : len (e_buf e') = len (e_buf e);
  na_clean : e_error e' = 0 -> e_error e = 0 /\ low e' F' = (low e F + off) * 256 ^ j /\
    len (digits e' F') = len (digits e F) + j /\ (bytes_ok F -> bytes_ok F');
  na_room : e_error e = 0 -> len (digits e F) + j + len B <= len (e_buf e) -> e_error e' = 0
}.

Lemma code_split val : 0 <= val < 2 ^ 32 ->
  Z.shiftr val EC_CODE_SHIFT = val / 2 ^ 23 /\
  Z.land (wrap 32 (Z.shiftl val EC_SYM_BITS)) (EC_CODE_TOP - 1) = (val mod 2 ^ 23) * 256.
Proof.
  intros Hv. change EC_CODE_SHIFT with 23. unfold EC_SYM_BITS, wrap. split.
  - by rewrite Z.shiftr_div_pow2.
  - change (EC_CODE_TOP - 1) with (Z.ones 31). rewrite Z.land_ones, Z.shiftl_mul_pow2 by lia.
    rewrite Z.mod_mod_divide by (by exists 2).
    change (2 ^ 31) with (2 ^ 23 * 2 ^ 8). rewrite Z.mul_mod_distr_r by lia. done.
Qed.

(** One turn of the normalisation loop on a state whose range is small. *)
Lemma shift_out e F M B : layout e F M B -> code_ok e -> e_rng e <= 2 ^ 23 ->
  exists e' F' M', carry_out e (Z.shiftr (e_val e) EC_CODE_SHIFT) = Ok e' /\ emitted e F M B (e_val e / 2 ^ 23) e' F' M' /\
    code_ok (enc_range e' (e_nbits_total e' + EC_SYM_BITS) (wrap 32 (Z.shiftl (e_rng e') EC_SYM_BITS))
      (Z.land (wrap 32 (Z.shiftl (e_val e') EC_SYM_BITS)) (EC_CODE_TOP - 1))).
Proof.
  intros HL [Hp Hr (Hv & Hs) Hst] Hsmall. destruct (code_split (e_val e) ltac:(lia)) as (Hc & Hn). rewrite Hc.
  pose proof (Z.div_mod (e_val e) (2 ^ 23) ltac:(lia)) as Hdm. pose proof (Z.mod_pos_bound (e_val e) (2 ^ 23) ltac:(lia)) as Hmb.
  destruct (carry_out_emits e F M B (e_val e / 2 ^ 23) HL Hp) as (e' & F' & M' & He' & Hem).
  { split; [apply Z.div_pos; lia|apply Z.div_lt_upper_bound; lia]. }
  { intros H256. destruct Hp as (Hrem & _). assert (e_rem e <> -1 /\ e_rem e <> 255) by (split; intros Hx; lia). lia. }
  exists e', F', M'. split; [done|]. split; [done|]. destruct Hem as [_ (_ & Sr & Sv & _) Pe _ _ _ _ Hstuck].
  rewrite Sr, Sv, Hn. unfold wrap, EC_SYM_BITS. rewrite Z.shiftl_mul_pow2, Z.mod_small by lia. change (2 ^ 8) with 256.
  split; cbn [e_rng e_val e_rem e_ext enc_range]; [exact Pe|lia|lia|].
  intros [Hx|[Hx Hy]]%Hstuck; [lia|]. specialize (Hst Hy). lia.
Qed.

Lemma enc_normalize_narrows n : forall e F M B, layout e F M B -> code_ok e -> 2 ^ 23 < e_rng e * 256 ^ Z.of_nat n ->
  (n <= 3)%nat ->
  exists j e' F' M', enc_normalize (S n) e = Ok e' /\ narrowed e F M B 0 (e_rng e) j e' F' M' /\ j <= Z.of_nat n.
Proof.
  induction n as [|n IH]; intros e F M B HL Hok Hbig Hn; cbn [enc_normalize]; change EC_CODE_BOT with (2 ^ 23);
    destruct (Z.leb_spec (e_rng e) (2 ^ 23)) as [Hsmall|Hlarge].
  - cbn in Hbig. lia.
  - exists 0, e, F, M. split; [done|]. split; [|lia]. split; try done; [lia|lia|]. intros ?. change (256 ^ 0) with 1. rewrite Z.mul_1_r, !Z.add_0_r. done.
  - destruct (shift_out e F M B HL Hok Hsmall) as (e1 & F1 & M1 & -> & Hem & Hok1). rewrite bind_Ok.
    set (e1' := enc_range e1 _ _ _) in *.
    assert (layout e1' F1 M1 B) as HL1 by (destruct Hem as [[]]; by split).
    pose proof (em_same _ _ _ _ _ _ _ _ Hem) as (Sn & Sr & Sv & Sw & Sb & Sl).
    destruct (code_split (e_val e)) as (_ & Hnv); [destruct Hok as [_ ? ? _]; lia|].
    assert (e_rng e1' = e_rng e * 256) as Hr1.
    { cbn. unfold wrap, EC_SYM_BITS. rewrite Sr, Z.shiftl_mul_pow2, Z.mod_small by (destruct Hok as [_ ? _ _]; lia). done. }
    assert (e_val e1' = (e_val e mod 2 ^ 23) * 256) as Hv1 by (cbn; by rewrite Sv).
    destruct (IH e1' F1 M1 B HL1 Hok1) as (j & e' & F' & M' & Hrun & [N1 N2 N3 N4 N5 N6 N7 N8 N9] & Hj); [|lia|].
    { rewrite Hr1. rewrite Nat2Z.inj_succ, Z.pow_succ_r in Hbig by lia. lia. }
    exists (j + 1), e', F', M'. split; [exact Hrun|]. split; [|lia].
    assert (256 ^ (j + 1) = 256 * 256 ^ j) as Hpow by (rewrite Z.pow_add_r by lia; lia). split.
    + done.
    + done.
    + rewrite Hpow. rewrite Hr1 in N3. split; [|tauto]. destruct N3 as [-> _]. ring.
    + lia.
    + rewrite N5. cbn. rewrite Sn. unfold EC_SYM_BITS. lia.
    + destruct N6. split; [cbn in *; congruence|cbn in *; congruence].
    + rewrite N7. exact Sl.
    + intros Herr. destruct (N8 Herr) as (He1 & Hlow & Hlen & Hby).
      destruct (em_clean _ _ _ _ _ _ _ _ Hem He1) as (He0 & Hbe & Hle & Hby0).
      change (pend e1) with (pend e1') in Hbe, Hle. fold (digits e1' F1) in Hbe, Hle. fold (digits e F) in Hbe, Hle.
      split; [done|]. split; [|split; [lia|auto]]. rewrite Hlow, Hpow. unfold low. rewrite Hbe, Hv1.
      pose proof (Z.div_mod (e_val e) (2 ^ 23) ltac:(lia)) as Hdm. change (2 ^ 31) with (2 ^ 23 * 256). nia.
    + intros He0 Hroom. assert (len (pend e) <= len M) as Hpm.
      { rewrite (ly_buf _ _ _ _ HL) in Hroom. unfold digits in Hroom. rewrite !len_app in Hroom. lia. }
      pose proof (em_room _ _ _ _ _ _ _ _ Hem Hpm) as He1. rewrite He0 in He1.
      destruct (em_clean _ _ _ _ _ _ _ _ Hem He1) as (_ & _ & Hle & _).
      apply N9; [done|]. change (len (e_buf e1')) with (len (e_buf e1)). rewrite Sl. unfold digits.
      change (pend e1') with (pend e1). rewrite Hle. unfold digits in Hroom. lia.
  - exists 0, e, F, M. split; [done|]. split; [|lia]. split; try done; [lia|lia|]. intros ?. change (256 ^ 0) with 1. rewrite Z.mul_1_r, !Z.add_0_r. done.
Qed.

Lemma narrow_to e F M B off w : layout e F M B -> code_ok e -> 0 <= off -> 0 < w -> off + w <= e_rng e ->
  exists j e' F' M',
    enc_normalize NORMALIZE_TURNS (enc_range e (e_nbits_total e) w (e_val e + off)) = Ok e' /\
    narrowed e F M B off w j e' F' M'.
Proof.
  intros HL [Hp Hr Hv Hst] Hoff Hw Hsub. set (e1 := enc_range e (e_nbits_total e) w (e_val e + off)).
  destruct (enc_normalize_narrows 3 e1 F M B) as (j & e' & F' & M' & Hrun & [N1 N2 N3 N4 N5 N6 N7 N8 N9] & Hj).
  - destruct HL. by split.
  - split; cbn [e1 enc_range e_rng e_val e_rem]; [exact Hp|lia|lia|]. intros Hx%Hst. lia.
  - cbn [e1 enc_range e_rng]. lia.
  - lia.
  - exists j, e', F', M'. split; [exact Hrun|]. split; [done..| |done].
    intros Herr. destruct (N8 Herr) as (He0 & Hlow & Hlen & Hby). split; [done|]. split; [|done].
    rewrite Hlow. unfold low. cbn [e1 enc_range e_val]. change (digits e1 F) with (digits e F). f_equal. lia.
Qed.

(** ** The packet as the decoder sees it *)

Definition byte_at (P : bytes) (m : nat) : Z := nth m P 0.

(** The first [m] bytes as a number, zeros past the end. *)
Fixpoint code (P : bytes) (m : nat) : Z :=
  match m with O => 0 | S m => code P m * 256 + byte_at P m end.

(** The 31 bits and the digits read when [K] digits were normalised away. *)
Definition read_code (P : bytes) (K : Z) : Z := code P (4 + Z.to_nat K) / 2.

Lemma byte_at_ok P m : bytes_ok P -> 0 <= byte_at P m < 256.
Proof.
  intros HP. unfold byte_at. destruct (nth_in_or_default m P 0) as [Hin| ->]; [|lia].
  unfold bytes_ok in HP. rewrite Forall_forall in HP. apply HP, Hin.
Qed.

Lemma code_nonneg P m : bytes_ok P -> 0 <= code P m.
Proof. intros HP. induction m as [|m IH]; cbn [code]; [lia|]. pose proof (byte_at_ok P m HP). lia. Qed.

(** The next symbol the decoder shifts in: a bit of the last byte, seven of the next. *)
Definition next_sym (P : bytes) (m : nat) : Z := ((byte_at P m mod 2) * 256 + byte_at P (S m)) / 2.

Lemma next_sym_ok P m : bytes_ok P -> 0 <= next_sym P m < 256.
Proof.
  intros HP. unfold next_sym. pose proof (byte_at_ok P (S m) HP). pose proof (Z.mod_pos_bound (byte_at P m) 2 ltac:(lia)).
  split; [apply Z.div_pos; lia|apply Z.div_lt_upper_bound; lia].
Qed.

Lemma code_next P m : code P (S (S m)) / 2 = code P (S m) / 2 * 256 + next_sym P m.
Proof.
  unfold next_sym. change (code P (S (S m))) with (code P (S m) * 256 + byte_at P (S m)).
  assert (code P (S m) mod 2 = byte_at P m mod 2) as <-.
  { cbn [code]. replace (code P m * 256 + byte_at P m) with (byte_at P m + (code P m * 128) * 2) by lia. by rewrite Z.mod_add. }
  set (c := code P (S m)). pose proof (Z.div_mod c 2 ltac:(lia)) as Hd.
  replace (c * 256 + byte_at P (S m)) with ((c mod 2 * 256 + byte_at P (S m)) + (c / 2 * 256) * 2) by lia.
  rewrite Z.div_add by lia. lia.
Qed.

Lemma sym_bits rem b : 0 <= rem < 256 -> 0 <= b < 256 ->
  Z.land EC_SYM_MAX (unot (Z.shiftr (Z.lor (Z.shiftl rem EC_SYM_BITS) b) (EC_SYM_BITS - EC_CODE_EXTRA))) =
  255 - ((rem mod 2) * 256 + b) / 2.
Proof.
  intros Hr Hb. change EC_CODE_EXTRA with 7. unfold EC_SYM_BITS, EC_SYM_MAX, unot. change (8 - 7) with 1.
  rewrite <- Z.add_nocarry_lor.
  2: { apply Z.bits_inj'. intros n Hn. rewrite Z.land_spec, Z.bits_0. destruct (Z.ltb_spec n 8).
    - by rewrite Z.shiftl_spec_low.
    - rewrite (testbit_above b 8 n) by (try lia; done). apply andb_false_r. }
  rewrite Z.shiftl_mul_pow2, Z.shiftr_div_pow2 by lia. change (2 ^ 8) with 256. change (2 ^ 1) with 2.
  rewrite Z.land_comm. change 255 with (Z.ones 8) at 1. rewrite Z.land_ones by lia. change (2 ^ 8) with 256.
  pose proof (Z.div_mod rem 2 ltac:(lia)) as Hd. pose proof (Z.mod_pos_bound rem 2 ltac:(lia)).
  replace (rem * 256 + b) with ((rem mod 2 * 256 + b) + (rem / 2 * 256) * 2) by lia. rewrite Z.div_add by lia.
  set (s := (rem mod 2 * 256 + b) / 2).
  assert (0 <= s < 256) by (split; [apply Z.div_pos; lia|apply Z.div_lt_upper_bound; lia]).
  change (2 ^ 32 - 1) with (255 + 16777215 * 256).
  replace (255 + 16777215 * 256 - (s + rem / 2 * 256)) with (255 - s + (16777215 - rem / 2) * 256) by lia.
  rewrite Z.mod_add, Z.mod_small by lia. done.
Qed.

(** The decoder after [K] digits, [top] being the top of its interval: what it
    keeps in [val] is the distance from the code it read up to the top. *)
Record dec_at (d : RangeDecoder) (P : bytes) (K top : Z) : Prop := {
  da_buf : d_buf d = P /\ d_storage d = len P;
  da_offs : d_offs d = Z.min (4 + K) (len P);
  da_rem : d_rem d = byte_at P (3 + Z.to_nat K);
  da_val : d_val d = top - 1 - read_code P K;
  da_K : 0 <= K
}.

Definition same_back (d d' : RangeDecoder) : Prop :=
  d_end_offs d' = d_end_offs d /\ d_end_window d' = d_end_window d /\ d_nend_bits d' = d_nend_bits d /\ d_error d' = d_error d.

Lemma read_byte_at d P m : d_buf d = P -> d_storage d = len P -> d_offs d = Z.min (Z.of_nat m) (len P) ->
  read_byte d = Ok (byte_at P m, Z.min (Z.of_nat (S m)) (len P)).
Proof.
  intros Hb Hs Ho. unfold read_byte. rewrite Ho, Hs. destruct (Z.ltb_spec (Z.min (Z.of_nat m) (len P)) (len P)) as [Hlt|Hge].
  - assert (Z.of_nat m < len P) as Hm by lia. rewrite Z.min_l by lia. rewrite Hb.
    destruct (lookup_lt_is_Some_2 P m) as [x Hx]; [unfold len in Hm; lia|].
    rewrite (idx_lookup _ _ x) by (try lia; by rewrite Nat2Z.id). rewrite bind_Ok. unfold byte_at, mret, res_ret.
    rewrite (nth_lookup_Some P m 0 x Hx). do 2 f_equal. lia.
  - unfold byte_at. rewrite nth_overflow by (unfold len in *; lia). unfold mret, res_ret. do 2 f_equal. lia.
Qed.

Lemma read_code_next P K : 0 <= K -> read_code P (K + 1) = read_code P K * 256 + next_sym P (3 + Z.to_nat K).
Proof. intros HK. unfold read_code. replace (Z.to_nat (K + 1)) with (S (Z.to_nat K)) by lia. apply (code_next P (3 + Z.to_nat K)). Qed.

Lemma read_code_back P K n : bytes_ok P -> 0 <= K -> read_code P (K + Z.of_nat n) / 256 ^ Z.of_nat n = read_code P K.
Proof.
  intros HP HK. revert K HK. induction n as [|n IH]; intros K HK.
  - cbn. by rewrite Z.add_0_r, Z.div_1_r.
  - replace (K + Z.of_nat (S n)) with ((K + 1) + Z.of_nat n) by lia. rewrite Nat2Z.inj_succ, Z.pow_succ_r by lia.
    rewrite (Z.mul_comm 256), <- Z.div_div, IH, read_code_next by lia.
    pose proof (next_sym_ok P (3 + Z.to_nat K) HP). rewrite Z.div_add_l, Z.div_small by lia. lia.
Qed.

(** One turn of the decoder's loop. *)
Lemma dec_shift_in n d P m : bytes_ok P -> d_buf d = P -> d_storage d = len P -> d_offs d = Z.min (Z.of_nat (S m)) (len P) ->
  d_rem d = byte_at P m -> 0 <= d_val d < 2 ^ 23 -> 0 <= d_rng d <= 2 ^ 23 ->
  dec_normalize (S n) d = dec_normalize n (dec_front d (Z.min (Z.of_nat (S (S m))) (len P)) (d_nbits_total d + 8) (d_rng d * 256)
    (d_val d * 256 + (255 - next_sym P m)) (d_ext d) (byte_at P (S m))).
Proof.
  intros HP Hb Hs Ho Hrem Hv Hr. cbn [dec_normalize]. change EC_CODE_BOT with (2 ^ 23). rewrite (proj2 (Z.leb_le _ _)) by lia.
  rewrite (read_byte_at d P (S m) Hb Hs Ho), bind_Ok. cbv beta iota zeta.
  rewrite Hrem, sym_bits by (apply byte_at_ok; done). fold (next_sym P m).
  pose proof (next_sym_ok P m HP) as Hsym. set (s := next_sym P m) in *.
  assert (Z.land (wrapping_add 32 (wrap 32 (Z.shiftl (d_val d) EC_SYM_BITS)) (255 - s)) (EC_CODE_TOP - 1) =
    d_val d * 256 + (255 - s)) as ->.
  { unfold wrapping_add, wrap, EC_SYM_BITS. change (EC_CODE_TOP - 1) with (Z.ones 31).
    rewrite Z.land_ones, Z.shiftl_mul_pow2, (Z.mod_small (_ * _)) by lia. rewrite (Z.mod_small _ (2 ^ 32)), Z.mod_small by lia. done. }
  assert (wrap 32 (Z.shiftl (d_rng d) EC_SYM_BITS) = d_rng d * 256) as ->.
  { unfold wrap, EC_SYM_BITS. rewrite Z.shiftl_mul_pow2, Z.mod_small by lia. done. }
  done.
Qed.

Lemma dec_normalize_at n : forall d P K top, bytes_ok P -> dec_at d P K top -> 0 <= d_val d < d_rng d ->
  2 ^ 23 < d_rng d * 256 ^ Z.of_nat n -> (n <= 3)%nat ->
  exists j d', dec_normalize (S n) d = Ok d' /\ dec_at d' P (K + j) (top * 256 ^ j) /\
    d_rng d' = d_rng d * 256 ^ j /\ 2 ^ 23 < d_rng d' /\ (0 < j -> d_rng d' <= 2 ^ 31) /\ 0 <= j <= Z.of_nat n /\
    d_nbits_total d' = d_nbits_total d + 8 * j /\ same_back d d'.
Proof.
  induction n as [|n IH]; intros d P K top HP Hat Hval Hbig Hn;
    destruct (Z.leb_spec (d_rng d) (2 ^ 23)) as [Hsmall|Hlarge].
  - cbn in Hbig. lia.
  - exists 0, d. cbn [dec_normalize]. change EC_CODE_BOT with (2 ^ 23). rewrite (proj2 (Z.leb_gt _ _) Hlarge).
    rewrite Z.add_0_r, !Z.mul_1_r, Z.add_0_r. repeat split; try done; lia || apply Hat.
  - pose proof Hat as [(Hb & Hs) Ho Hrem Hv HK].
    rewrite (dec_shift_in (S n) d P (3 + Z.to_nat K) HP Hb Hs) by (done || lia || (rewrite Ho; f_equal; lia)).
    pose proof (next_sym_ok P (3 + Z.to_nat K) HP) as Hsym. set (s := next_sym P (3 + Z.to_nat K)) in *.
    set (d1 := dec_front d _ _ _ _ _ _).
    destruct (IH d1 P (K + 1) (top * 256) HP) as (j & d' & Hrun & Hat' & Hr' & Hbig' & Htop & Hj & Hnb & Hback).
    + split; cbn; [done| |f_equal; lia| |lia].
      * f_equal. lia.
      * rewrite read_code_next by lia. fold s. lia.
    + cbn [d1 dec_front d_val d_rng]. lia.
    + cbn [d1 dec_front d_rng]. rewrite Nat2Z.inj_succ, Z.pow_succ_r in Hbig by lia. lia.
    + lia.
    + exists (j + 1), d'. assert (256 ^ (j + 1) = 256 * 256 ^ j) as Hpow by (rewrite Z.pow_add_r by lia; lia).
      split; [exact Hrun|]. rewrite Hpow. replace (K + (j + 1)) with (K + 1 + j) by lia.
      replace (top * (256 * 256 ^ j)) with (top * 256 * 256 ^ j) by ring. split; [done|].
      cbn [d1 dec_front d_rng d_nbits_total] in Hr', Hnb. split; [rewrite Hr'; ring|]. split; [done|].
      split; [|split; [lia|split; [rewrite Hnb; lia|done]]].
      intros _. destruct (decide (j = 0)) as [->|]; [|apply Htop; lia]. rewrite Hr'. change (256 ^ 0) with 1. lia.
  - exists 0, d. cbn [dec_normalize]. change EC_CODE_BOT with (2 ^ 23). rewrite (proj2 (Z.leb_gt _ _) Hlarge).
    rewrite Z.add_0_r, !Z.mul_1_r, Z.add_0_r. repeat split; try done; lia || apply Hat.
Qed.

(** ** Encoder and decoder in step *)

(** The code the packet holds lies in the encoder's interval. *)
Definition contains (e : RangeEncoder) (F P : bytes) : Prop :=
  low e F <= read_code P (len (digits e F)) < low e F + e_rng e.

Record synced (e : RangeEncoder) (F P : bytes) (d : RangeDecoder) : Prop := {
  sy_at : dec_at d P (len (digits e F)) (low e F + e_rng e);
  sy_rng : d_rng d = e_rng e;
  sy_bits : d_nbits_total d = e_nbits_total e
}.

Lemma contains_before e F M B off w j e' F' M' P : bytes_ok P ->
  narrowed e F M B off w j e' F' M' -> e_error e' = 0 -> contains e' F' P ->
  low e F + off <= read_code P (len (digits e F)) < low e F + off + w.
Proof.
  intros HP [_ _ (Hr & _) Hj _ _ _ Hcl _] Herr Hc. destruct (Hcl Herr) as (_ & Hlow & Hlen & _).
  unfold contains in Hc. rewrite Hlow, Hlen, Hr in Hc. rewrite <- (read_code_back P (len (digits e F)) (Z.to_nat j) HP) by apply len_nonneg.
  rewrite Z2Nat.id by lia. pose proof (Z.pow_pos_nonneg 256 j ltac:(lia) ltac:(lia)).
  split; [apply Z.div_le_lower_bound; lia|apply Z.div_lt_upper_bound; lia].
Qed.

Lemma turns_unique w i j : 0 < w -> 0 <= i -> 0 <= j ->
  2 ^ 23 < w * 256 ^ i -> (0 < i -> w * 256 ^ i <= 2 ^ 31) -> 2 ^ 23 < w * 256 ^ j -> (0 < j -> w * 256 ^ j <= 2 ^ 31) -> i = j.
Proof.
  intros Hw Hi Hj Hi1 Hi2 Hj1 Hj2.
  assert (forall a b, 0 <= a -> a < b -> 2 ^ 23 < w * 256 ^ a -> w * 256 ^ b <= 2 ^ 31 -> False) as Hno.
  { intros a b Ha Hab H1 H2. replace b with (a + 1 + (b - a - 1)) in H2 by lia. rewrite !Z.pow_add_r in H2 by lia.
    pose proof (Z.pow_pos_nonneg 256 (b - a - 1) ltac:(lia) ltac:(lia)). change (256 ^ 1) with 256 in H2. nia. }
  destruct (Z.lt_trichotomy i j) as [Hlt|[Heq|Hlt]]; [|done|].
  - exfalso. eapply (Hno i j); eauto with lia.
  - exfalso. eapply (Hno j i); eauto with lia.
Qed.

(** Narrowing both sides to the symbol's part of the interval keeps them in step. *)
Lemma narrow_synced e F M B off w j e' F' M' P d ext : bytes_ok P -> synced e F P d -> 0 < w ->
  narrowed e F M B off w j e' F' M' -> e_error e' = 0 -> contains e' F' P -> off + w <= e_rng e <= 2 ^ 31 ->
  exists d', dec_normalize NORMALIZE_TURNS (dec_front d (d_offs d) (d_nbits_total d) w
      (d_val d - (e_rng e - off - w)) ext (d_rem d)) = Ok d' /\ synced e' F' P d' /\ same_back d d'.
Proof.
  intros HP [Hat Hr Hnb] Hw Hna Herr Hc Hsub. pose proof (contains_before _ _ _ _ _ _ _ _ _ _ _ HP Hna Herr Hc) as Hin.
  set (d1 := dec_front d _ _ _ _ _ _). pose proof Hat as [(Hb & Hs) Ho Hrem Hv HK].
  assert (dec_at d1 P (len (digits e F)) (low e F + off + w)) as Hat1.
  { split; cbn; [done|done|done| |done]. rewrite Hv. lia. }
  destruct (dec_normalize_at 3 d1 P _ _ HP Hat1) as (i & d' & Hrun & Hat' & Hr' & Hbig & Htop & Hi & Hnb' & Hback).
  - rewrite (da_val _ _ _ _ Hat1). cbn [d1 dec_front d_rng]. lia.
  - cbn [d1 dec_front d_rng]. lia.
  - lia.
  - exists d'. split; [exact Hrun|]. split; [|exact Hback]. destruct Hna as [_ [_ Hok' _ _] (Hre & Hbe) Hj Hbits _ _ Hcl _].
    destruct (Hcl Herr) as (_ & Hlow & Hlen & _). cbn [d1 dec_front d_rng d_nbits_total] in Hr', Hnb'.
    assert (i = j) as -> by (apply (turns_unique w); try lia; rewrite <- ?Hre, <- ?Hr'; try lia; auto).
    split; [|congruence|lia]. rewrite Hlen, Hlow, Hre.
    replace ((low e F + off) * 256 ^ j + w * 256 ^ j) with ((low e F + off + w) * 256 ^ j) by ring. exact Hat'.
Qed.

(** ** Raw bits at the back

    The bytes at the back and the window make one number, the raw bits written so
    far with the first one lowest. *)

Definition raw (B : bytes) (window : Z) : Z := be_dec B + window * 256 ^ len B.

(** Only the buffer, its back offset and the error moved. *)
Definition same_front (e e' : RangeEncoder) : Prop :=
  e_rng e' = e_rng e /\ e_val e' = e_val e /\ e_ext e' = e_ext e /\ e_rem e' = e_rem e /\
  e_nbits_total e' = e_nbits_total e /\ len (e_buf e') = len (e_buf e).

Lemma same_front_trans e1 e2 e3 : same_front e1 e2 -> same_front e2 e3 -> same_front e1 e3.
Proof. unfold same_front. intros (? & ? & ? & ? & ? & ?) (? & ? & ? & ? & ? & ?). repeat split; congruence. Qed.

Record spilled (e : RangeEncoder) (F M B : bytes) (w u : Z) (e' : RangeEncoder) (M' B' : bytes) (w' u' : Z) : Prop := {
  sp_layout : layout e' F M' B';
  sp_same : same_front e e';
  sp_window : 0 <= w' < 2 ^ u' /\ 0 <= u' <= u;
  sp_clean : e_error e' = 0 -> e_error e = 0 /\ raw B' w' = raw B w /\ 8 * len B' + u' = 8 * len B + u /\
    (bytes_ok B -> bytes_ok B');
  sp_room : 8 * len M >= u - u' -> e_error e' = e_error e
}.

Lemma spilled_refl e F M B w u : layout e F M B -> 0 <= w < 2 ^ u -> 0 <= u -> spilled e F M B w u e M B w u.
Proof. intros HL Hw Hu. by split. Qed.

Lemma spilled_trans e F M B w u e1 M1 B1 w1 u1 e2 M2 B2 w2 u2 :
  spilled e F M B w u e1 M1 B1 w1 u1 -> spilled e1 F M1 B1 w1 u1 e2 M2 B2 w2 u2 ->
  (8 * len M >= u - u2 -> len M1 + len B1 = len M + len B /\ 8 * len B1 + u1 = 8 * len B + u) ->
  spilled e F M B w u e2 M2 B2 w2 u2.
Proof.
  intros [L1 S1 W1 C1 R1] [L2 S2 W2 C2 R2] Hcount. split.
  - done.
  - by eapply same_front_trans.
  - lia.
  - intros He2. destruct (C2 He2) as (He1 & Hr2 & Hu2 & Hb2). destruct (C1 He1) as (He & Hr1 & Hu1 & Hb1).
    split; [done|]. split; [congruence|]. split; [lia|auto].
  - intros Hroom. destruct (Hcount Hroom) as (Hm & Hu). rewrite R2 by lia. apply R1. lia.
Qed.

(** One byte of the window goes to the back. *)
Lemma spill_one e F M B w u : layout e F M B -> 0 <= w < 2 ^ u -> 8 <= u ->
  exists e' M' B', write_byte_at_end e (Z.land w EC_SYM_MAX) = Ok e' /\
    spilled e F M B w u e' M' B' (Z.shiftr w EC_SYM_BITS) (u - EC_SYM_BITS) /\
    (M <> [] -> len M' + len B' = len M + len B /\ len B' = len B + 1).
Proof.
  intros HL Hw Hu. unfold EC_SYM_MAX, EC_SYM_BITS. change 255 with (Z.ones 8).
  rewrite Z.land_ones, Z.shiftr_div_pow2 by lia. change (2 ^ 8) with 256.
  assert (0 <= w / 256 < 2 ^ (u - 8)) as Hw'.
  { split; [apply Z.div_pos; lia|]. apply Z.div_lt_upper_bound; [lia|]. change 256 with (2 ^ 8).
    rewrite <- Z.pow_add_r by lia. replace (8 + (u - 8)) with u by lia. lia. }
  pose proof (Z.mod_pos_bound w 256 ltac:(lia)) as Hm. pose proof (Z.div_mod w 256 ltac:(lia)) as Hd.
  destruct M as [|m M' _] using rev_ind.
  - rewrite (write_end_full e F B _ HL). eexists _, [], B. split; [done|]. split; [|done].
    split; [destruct HL; by split|by repeat split|split; [done|lia]|done|change (len (@nil Z)) with 0; lia].
  - destruct (write_end_put e F M' m B (w mod 256) HL) as (e' & -> & HL' & He'). exists e', M', (w mod 256 :: B). split; [done|].
    assert (len (e_buf e') = len (e_buf e)) as Hlen by (rewrite (ly_buf _ _ _ _ HL'), (ly_buf _ _ _ _ HL); len_lia).
    unfold wrap in HL'. change (2 ^ 8) with 256 in HL'. rewrite Z.mod_mod in HL' by lia.
    split; [|intros _; rewrite len_app, !len_cons, len_nil; lia].
    rewrite He'. rewrite He' in HL'. split; [done|by repeat split|split; [done|lia]| |done].
    intros Herr. split; [done|]. unfold raw. rewrite be_dec_cons, len_cons, Z.pow_add_r by (try apply len_nonneg; lia).
    change (256 ^ 1) with 256. split; [nia|]. split; [lia|]. intros HB. constructor; [unfold is_byte; lia|done].
Qed.

Lemma enc_flush_spills n : forall e F M B w u, layout e F M B -> 0 <= w < 2 ^ u -> 8 <= u < 8 * Z.of_nat n + 8 ->
  exists e' M' B' w' u', enc_flush n e w u = Ok (e', w', u') /\ spilled e F M B w u e' M' B' w' u' /\ u' < 8.
Proof.
  induction n as [|n IH]; intros e F M B w u HL Hw Hu; [lia|]. cbn [enc_flush].
  destruct (spill_one e F M B w u HL Hw ltac:(lia)) as (e1 & M1 & B1 & -> & Hs1 & Hc). rewrite bind_Ok. unfold EC_SYM_BITS at 2.
  destruct (Z.ltb_spec (u - EC_SYM_BITS) 8) as [Hlt|Hge].
  - exists e1, M1, B1, (Z.shiftr w EC_SYM_BITS), (u - EC_SYM_BITS). done.
  - destruct (IH e1 F M1 B1 (Z.shiftr w EC_SYM_BITS) (u - EC_SYM_BITS)) as (e2 & M2 & B2 & w2 & u2 & Hrun & Hs2 & Hu2).
    + apply Hs1.
    + apply Hs1.
    + unfold EC_SYM_BITS in *. lia.
    + exists e2, M2, B2, w2, u2. split; [exact Hrun|]. split; [|done]. eapply spilled_trans; [exact Hs1|exact Hs2|].
      intros Hroom. destruct Hc as (Hc1 & Hc2). { intros ->. change (len (@nil Z)) with 0 in Hroom. unfold EC_SYM_BITS in *. lia. }
      unfold EC_SYM_BITS. lia.
Qed.

Lemma put_raw_spills n : forall e F M B w u, layout e F M B -> 0 <= w < 2 ^ u -> 0 <= u < 8 * Z.of_nat n ->
  exists e' M' B' w' u', put_raw n e w u = Ok (e', w', u') /\ spilled e F M B w u e' M' B' w' u' /\ u' < 8.
Proof.
  induction n as [|n IH]; intros e F M B w u HL Hw Hu; [lia|]. cbn [put_raw]. unfold EC_SYM_BITS at 1.
  destruct (Z.leb_spec 8 u) as [Hge|Hlt].
  - destruct (spill_one e F M B w u HL Hw ltac:(lia)) as (e1 & M1 & B1 & -> & Hs1 & Hc). rewrite bind_Ok.
    destruct (IH e1 F M1 B1 (Z.shiftr w EC_SYM_BITS) (u - EC_SYM_BITS)) as (e2 & M2 & B2 & w2 & u2 & Hrun & Hs2 & Hu2).
    + apply Hs1.
    + apply Hs1.
    + unfold EC_SYM_BITS in *. lia.
    + exists e2, M2, B2, w2, u2. split; [exact Hrun|]. split; [|done]. eapply spilled_trans; [exact Hs1|exact Hs2|].
      intros Hroom. destruct Hc as (Hc1 & Hc2). { intros ->. change (len (@nil Z)) with 0 in Hroom. unfold EC_SYM_BITS in *. lia. }
      unfold EC_SYM_BITS. lia.
  - exists e, M, B, w, u. split; [done|]. split; [|done]. apply spilled_refl; [done|done|lia].
Qed.

(** The encoder's raw half: the window holds what it says. *)
Definition window_ok (e : RangeEncoder) : Prop := 0 <= e_nend_bits e <= 32 /\ 0 <= e_end_window e < 2 ^ e_nend_bits e.

Definition raw_bits (e : RangeEncoder) (B : bytes) : Z := 8 * len B + e_nend_bits e.
Definition raw_value (e : RangeEncoder) (B : bytes) : Z := raw B (e_end_window e).

Lemma raw_nonneg B w : bytes_ok B -> 0 <= w -> 0 <= raw B w.
Proof. intros HB Hw. unfold raw. pose proof (be_dec_bound B HB). pose proof (Z.pow_nonneg 256 (len B)). nia. Qed.

Lemma pow_bytes n : 0 <= n -> 256 ^ n = 2 ^ (8 * n).
Proof. intros. by rewrite Z.pow_mul_r by lia. Qed.

Lemma lor_shifted a b n : 0 <= n -> 0 <= a < 2 ^ n -> Z.lor a (b * 2 ^ n) = a + b * 2 ^ n.
Proof.
  intros Hn Ha. symmetry. apply Z.add_nocarry_lor. apply Z.bits_inj'. intros i Hi. rewrite Z.land_spec, Z.bits_0.
  destruct (Z.ltb_spec i n).
  - rewrite Z.mul_pow2_bits_low by lia. apply andb_false_r.
  - rewrite (testbit_above a n i) by lia. done.
Qed.

Lemma enc_bits_spec e F M B v bits : layout e F M B -> window_ok e -> 1 <= bits <= 25 -> 0 <= v < 2 ^ bits ->
  exists e' M' B', enc_bits e v bits = Ok e' /\ layout e' F M' B' /\ window_ok e' /\
    e_rng e' = e_rng e /\ e_val e' = e_val e /\ e_ext e' = e_ext e /\ e_rem e' = e_rem e /\
    e_nbits_total e' = e_nbits_total e + bits /\ len (e_buf e') = len (e_buf e) /\
    (e_error e' = 0 -> e_error e = 0 /\ raw_value e' B' = raw_value e B + v * 2 ^ raw_bits e B /\
       raw_bits e' B' = raw_bits e B + bits /\ (bytes_ok B -> bytes_ok B')) /\
    (8 * len M >= e_nend_bits e -> e_error e' = e_error e).
Proof.
  intros HL (Hu & Hw) Hbits Hv. unfold enc_bits. assert (wrap 32 (e_nend_bits e) = e_nend_bits e) as -> by (apply Z.mod_small; lia).
  unfold uadd. rewrite (proj2 (Z.ltb_lt _ (2 ^ 32))), bind_Ok by lia. unfold EC_WINDOW_SIZE.
  assert (exists e1 M1 B1 w1 u1, (if 32 <? e_nend_bits e + bits then enc_flush 4 e (e_end_window e) (e_nend_bits e)
     else mret (e, e_end_window e, e_nend_bits e)) = Ok (e1, w1, u1) /\
     spilled e F M B (e_end_window e) (e_nend_bits e) e1 M1 B1 w1 u1 /\ u1 + bits <= 32) as (e1 & M1 & B1 & w1 & u1 & -> & Hs & Hu1).
  { destruct (Z.ltb_spec 32 (e_nend_bits e + bits)).
    - destruct (enc_flush_spills 4 e F M B (e_end_window e) (e_nend_bits e) HL Hw ltac:(lia)) as (e1 & M1 & B1 & w1 & u1 & H1 & H2 & H3).
      exists e1, M1, B1, w1, u1. split; [done|]. split; [done|lia].
    - exists e, M, B, (e_end_window e), (e_nend_bits e). split; [done|]. split; [|lia]. apply spilled_refl; [done|done|lia]. }
  rewrite bind_Ok. destruct Hs as [HL1 (S1 & S2 & S3 & S4 & S5 & S6) (W1 & W2) C R].
  unfold ushl. rewrite (proj2 (Z.leb_le 0 u1)), (proj2 (Z.ltb_lt u1 32)) by lia. cbn [andb]. rewrite bind_Ok.
  assert (v * 2 ^ u1 < 2 ^ 32) as Hfit.
  { assert (2 ^ bits * 2 ^ u1 <= 2 ^ 32) by (rewrite <- Z.pow_add_r by lia; apply Z.pow_le_mono_r; lia).
    pose proof (Z.pow_pos_nonneg 2 u1 ltac:(lia) ltac:(lia)). nia. }
  assert (wrap 32 (Z.shiftl v u1) = v * 2 ^ u1) as ->.
  { unfold wrap. rewrite Z.shiftl_mul_pow2 by lia. apply Z.mod_small. pose proof (Z.pow_pos_nonneg 2 u1 ltac:(lia) ltac:(lia)). nia. }
  rewrite lor_shifted by lia. eexists _, M1, B1. split; [done|].
  assert (window_ok (enc_back e1 (w1 + v * 2 ^ u1) (u1 + bits) (e_nbits_total e1 + bits))) as Hwin.
  { split; cbn [e_nend_bits e_end_window enc_back]; [lia|]. rewrite Z.pow_add_r by lia. nia. }
  split; [destruct HL1; by split|]. split; [exact Hwin|]. cbn [e_rng e_val e_ext e_rem e_nbits_total e_buf e_error enc_back].
  do 4 (split; [done|]). split; [lia|]. split; [done|]. split.
  - intros Herr. destruct (C Herr) as (He & Hraw & Hbt & Hby). split; [done|]. unfold raw_value, raw_bits in *.
    cbn [e_end_window e_nend_bits enc_back]. split; [|split; [lia|done]].
    rewrite <- Hraw. unfold raw. pose proof (len_nonneg B1). rewrite <- Hbt, Z.pow_add_r, pow_bytes by lia. ring.
  - intros Hroom. apply R. lia.
Qed.

(** The decoder's raw half after [pos] bits: [W] is the whole packet as one number. *)
Record dec_raw (d : RangeDecoder) (P : bytes) (pos n : Z) : Prop := {
  dr_buf : d_buf d = P /\ d_storage d = len P;
  dr_count : pos + d_nend_bits d = 8 * n;
  dr_bits : 0 <= pos /\ 0 <= d_nend_bits d <= 32 /\ 0 <= n;
  dr_offs : d_end_offs d = Z.min n (len P);
  dr_window : d_end_window d = (be_dec P / 2 ^ pos) mod 2 ^ d_nend_bits d
}.

Lemma digit_from_end P n : bytes_ok P -> 0 <= n -> n < len P ->
  @idx Empty_set Z P (len P - (n + 1)) = Ok ((be_dec P / 256 ^ n) mod 256).
Proof.
  intros HP Hn Hlt. destruct (@idx_in_range Empty_set Z P (len P - (n + 1)) ltac:(lia)) as (x & -> & Hx).
  f_equal. set (i := Z.to_nat (len P - (n + 1))) in *. pose proof (take_drop_middle P i x Hx) as Hsplit.
  assert (len (drop (S i) P) = n) as Hl by (rewrite len_drop; lia).
  assert (bytes_ok (drop (S i) P)) as Hd by (by apply Forall_drop).
  pose proof (be_dec_bound _ Hd) as Hb. rewrite Hl in Hb.
  assert (is_byte x) as Hxb by (unfold bytes_ok in HP; rewrite Forall_lookup in HP; eauto). unfold is_byte in Hxb.
  rewrite <- Hsplit at 1. rewrite be_dec_app, be_dec_cons, len_cons, Hl, Z.pow_add_r by lia. change (256 ^ 1) with 256.
  replace (be_dec (take i P) * (256 * 256 ^ n) + (x * 256 ^ n + be_dec (drop (S i) P)))
    with ((be_dec (take i P) * 256 + x) * 256 ^ n + be_dec (drop (S i) P)) by ring.
  pose proof (Z.pow_pos_nonneg 256 n ltac:(lia) ltac:(lia)).
  rewrite Z.div_add_l, (Z.div_small (be_dec _)), Z.add_0_r by lia.
  rewrite Z.add_comm, Z.mod_add, Z.mod_small by lia. done.
Qed.

Lemma read_end_at d P n : bytes_ok P -> d_buf d = P -> d_storage d = len P -> d_end_offs d = Z.min n (len P) -> 0 <= n ->
  read_byte_from_end d = Ok ((be_dec P / 256 ^ n) mod 256, Z.min (n + 1) (len P)).
Proof.
  intros HP Hb Hs Ho Hn. unfold read_byte_from_end. rewrite Ho, Hs. destruct (Z.ltb_spec (Z.min n (len P)) (len P)).
  - rewrite Z.min_l by lia. rewrite Hb, digit_from_end by (done || lia). rewrite bind_Ok. unfold mret, res_ret. do 2 f_equal. lia.
  - unfold mret, res_ret. rewrite Z.div_small; [do 2 f_equal; lia|]. pose proof (be_dec_bound P HP).
    assert (256 ^ len P <= 256 ^ n) by (apply Z.pow_le_mono_r; lia). lia.
Qed.

Lemma mod_split x a b : 0 <= a -> 0 <= b -> x mod 2 ^ (a + b) = x mod 2 ^ a + ((x / 2 ^ a) mod 2 ^ b) * 2 ^ a.
Proof.
  intros. rewrite Z.pow_add_r by lia. pose proof (Z.pow_pos_nonneg 2 a). pose proof (Z.pow_pos_nonneg 2 b).
  rewrite Z.rem_mul_r by lia. ring.
Qed.

Lemma dec_refill_at n : forall d P pos w a k, bytes_ok P -> d_buf d = P -> d_storage d = len P ->
  d_end_offs d = Z.min k (len P) -> 0 <= k -> 0 <= pos -> pos + a = 8 * k -> 0 <= a <= 24 -> 24 < a + 8 * Z.of_nat n ->
  w = (be_dec P / 2 ^ pos) mod 2 ^ a ->
  exists d' w' a' k', dec_refill n d w a = Ok (d', w', a') /\ 24 < a' <= 32 /\ pos + a' = 8 * k' /\ 0 <= k' /\
    w' = (be_dec P / 2 ^ pos) mod 2 ^ a' /\
    d' = dec_back d (Z.min k' (len P)) (d_end_window d) (d_nend_bits d) (d_nbits_total d).
Proof.
  induction n as [|n IH]; intros d P pos w a k HP Hb Hs Ho Hk Hpos Hcount Ha Hn Hw; [lia|]. cbn [dec_refill].
  rewrite (read_end_at d P k HP Hb Hs Ho Hk), bind_Ok. cbv beta iota zeta. set (b := (be_dec P / 256 ^ k) mod 256).
  assert (0 <= b < 256) as Hbb by (apply Z.mod_pos_bound; lia).
  unfold ushl. rewrite (proj2 (Z.leb_le 0 a)), (proj2 (Z.ltb_lt a 32)) by lia. cbn [andb]. rewrite bind_Ok.
  assert (wrap 32 (Z.shiftl b a) = b * 2 ^ a) as ->.
  { unfold wrap. rewrite Z.shiftl_mul_pow2 by lia. apply Z.mod_small.
    assert (2 ^ a <= 2 ^ 24) by (apply Z.pow_le_mono_r; lia). pose proof (Z.pow_pos_nonneg 2 a ltac:(lia) ltac:(lia)). nia. }
  assert (0 <= w < 2 ^ a) as Hwb by (rewrite Hw; apply Z.mod_pos_bound; lia).
  rewrite lor_shifted by lia. unfold EC_SYM_BITS, EC_WINDOW_SIZE. change (32 - 8) with 24.
  assert (w + b * 2 ^ a = (be_dec P / 2 ^ pos) mod 2 ^ (a + 8)) as Hw'.
  { rewrite mod_split, Hw by lia. f_equal. f_equal. unfold b. rewrite Z.div_div by lia.
    rewrite <- Z.pow_add_r by lia. rewrite Hcount, pow_bytes by lia. done. }
  destruct (Z.ltb_spec 24 (a + 8)).
  - eexists _, _, _, (k + 1). split; [done|]. split; [lia|]. split; [lia|]. split; [lia|]. split; [exact Hw'|done].
  - set (d1 := dec_back d _ _ _ _).
    destruct (IH d1 P pos (w + b * 2 ^ a) (a + 8) (k + 1)) as (d' & w' & a' & k' & Hrun & R1 & R2 & R3 & R4 & R5); try done; try lia.
    exists d', w', a', k'. split; [exact Hrun|]. do 4 (split; [done|]). rewrite R5. done.
Qed.

Lemma dec_bits_at d P pos n bits : bytes_ok P -> dec_raw d P pos n -> 1 <= bits <= 25 ->
  exists d' n', dec_bits d bits = Ok ((be_dec P / 2 ^ pos) mod 2 ^ bits, d') /\ dec_raw d' P (pos + bits) n' /\
    d_offs d' = d_offs d /\ d_rng d' = d_rng d /\ d_val d' = d_val d /\ d_ext d' = d_ext d /\ d_rem d' = d_rem d /\
    d_error d' = d_error d /\ d_nbits_total d' = d_nbits_total d + bits.
Proof.
  intros HP [(Hb & Hs) Hcount (Hpos & Ha & Hn) Ho Hw] Hbits. unfold dec_bits.
  assert (wrap 32 (d_nend_bits d) = d_nend_bits d) as -> by (apply Z.mod_small; lia).
  assert (exists d1 w1 a1 k1, (if d_nend_bits d <? bits then dec_refill 4 d (d_end_window d) (d_nend_bits d)
      else mret (d, d_end_window d, d_nend_bits d)) = Ok (d1, w1, a1) /\ bits <= a1 <= 32 /\ pos + a1 = 8 * k1 /\ 0 <= k1 /\
      w1 = (be_dec P / 2 ^ pos) mod 2 ^ a1 /\
      d1 = dec_back d (Z.min k1 (len P)) (d_end_window d) (d_nend_bits d) (d_nbits_total d)) as (d1 & w1 & a1 & k1 & -> & R1 & R2 & R3 & R4 & R5).
  { destruct (Z.ltb_spec (d_nend_bits d) bits).
    - destruct (dec_refill_at 4 d P pos (d_end_window d) (d_nend_bits d) n) as (d1 & w1 & a1 & k1 & H1 & H2 & H3 & H4 & H5 & H6); try done; try lia.
      exists d1, w1, a1, k1. split; [done|]. split; [lia|]. done.
    - exists d, (d_end_window d), (d_nend_bits d), n. split; [done|]. split; [lia|]. split; [done|]. split; [done|]. split; [done|].
      rewrite <- Ho. by destruct d. }
  rewrite bind_Ok. cbv beta iota. pose proof (Z.pow_pos_nonneg 2 bits ltac:(lia) ltac:(lia)) as Hp2.
  assert (2 ^ bits < 2 ^ 32) by (apply Z.pow_lt_mono_r; lia).
  unfold ushl, ushr. rewrite (proj2 (Z.leb_le 0 bits)), (proj2 (Z.ltb_lt bits 32)) by lia. cbn [andb]. rewrite bind_Ok.
  unfold wrap. rewrite Z.shiftl_1_l, Z.mod_small, usub_Ok, !bind_Ok by lia.
  rewrite Z.sub_1_r, <- Z.ones_equiv, Z.land_ones, Z.shiftr_div_pow2 by lia.
  assert (w1 = (be_dec P / 2 ^ pos) mod 2 ^ bits + (be_dec P / 2 ^ (pos + bits)) mod 2 ^ (a1 - bits) * 2 ^ bits) as Hw1.
  { rewrite R4. replace a1 with (bits + (a1 - bits)) at 1 by lia. rewrite mod_split, Z.div_div by lia.
    by rewrite <- Z.pow_add_r by lia. }
  pose proof (Z.mod_pos_bound (be_dec P / 2 ^ pos) (2 ^ bits) ltac:(lia)) as Hlo.
  assert (w1 mod 2 ^ bits = (be_dec P / 2 ^ pos) mod 2 ^ bits) as -> by (rewrite Hw1, Z.mod_add, Z.mod_mod by lia; done).
  assert (w1 / 2 ^ bits = (be_dec P / 2 ^ (pos + bits)) mod 2 ^ (a1 - bits)) as ->
    by (rewrite Hw1, Z.div_add, Z.div_small by lia; lia).
  eexists _, k1. split; [done|]. rewrite R5. split; [|done]. split; cbn [d_buf d_storage d_nend_bits d_end_offs d_end_window dec_back]; try done; lia.
Qed.

(** ** One symbol, at both ends *)

Record enc_ok (e : RangeEncoder) (F M B : bytes) : Prop := {
  ek_layout : layout e F M B;
  ek_code : code_ok e;
  ek_normal : 2 ^ 23 < e_rng e;
  ek_window : window_ok e
}.

(** While nothing failed, every bit is accounted for. *)
Record clean_ok (e : RangeEncoder) (F B : bytes) : Prop := {
  ck_error : e_error e = 0;
  ck_bits : e_nbits_total e = 33 + 8 * len (digits e F) + raw_bits e B;
  ck_front : bytes_ok F;
  ck_back : bytes_ok B
}.

(** The packet holds the raw bits written so far. *)
Definition holds_raw (e : RangeEncoder) (B P : bytes) : Prop := be_dec P mod 2 ^ raw_bits e B = raw_value e B.

(** Putting a symbol took [e] to [e']; a decoder in step with [e] reading a packet
    that suits [e'] reads the symbol and stays in step. *)
Record coded {A : Type} (dec : RangeDecoder -> rc (A * RangeDecoder)) (v : A)
  (e : RangeEncoder) (F M B : bytes) (e' : RangeEncoder) (F' M' B' : bytes) : Prop := {
  cd_ok : enc_ok e' F' M' B';
  cd_len : len (e_buf e') = len (e_buf e);
  cd_grows : e_nbits_total e <= e_nbits_total e';
  cd_clean : e_error e' = 0 -> e_error e = 0 /\ (clean_ok e F B -> clean_ok e' F' B' /\
    forall P, bytes_ok P -> contains e' F' P -> holds_raw e' B' P ->
      contains e F P /\ holds_raw e B P /\
      forall d n, synced e F P d -> dec_raw d P (raw_bits e B) n ->
        exists d' n', dec d = Ok (v, d') /\ synced e' F' P d' /\ dec_raw d' P (raw_bits e' B') n' /\ d_error d' = d_error d);
  cd_room : clean_ok e F B -> e_nbits_total e' - 33 <= 8 * len (e_buf e) -> e_error e' = 0
}.

Lemma coded_bind {A1 A2 A : Type} dec1 (v1 : A1) dec2 (v2 : A2) dec (v : A) e F M B e1 F1 M1 B1 e2 F2 M2 B2 :
  coded dec1 v1 e F M B e1 F1 M1 B1 -> coded dec2 v2 e1 F1 M1 B1 e2 F2 M2 B2 ->
  (forall d d1 d2, dec1 d = Ok (v1, d1) -> dec2 d1 = Ok (v2, d2) -> dec d = Ok (v, d2)) ->
  coded dec v e F M B e2 F2 M2 B2.
Proof.
  intros [K1 L1 G1 C1 R1] [K2 L2 G2 C2 R2] Hdec. split; [done|congruence|lia| |].
  - intros He2. destruct (C2 He2) as (He1 & Hc2). destruct (C1 He1) as (He & Hc1). split; [done|]. intros Hcl.
    destruct (Hc1 Hcl) as (Hcl1 & H1). destruct (Hc2 Hcl1) as (Hcl2 & H2). split; [done|].
    intros P HP Hcon Hraw. destruct (H2 P HP Hcon Hraw) as (Hcon1 & Hraw1 & Hd2).
    destruct (H1 P HP Hcon1 Hraw1) as (Hcon0 & Hraw0 & Hd1). split; [done|]. split; [done|]. intros d n Hs Hr.
    destruct (Hd1 d n Hs Hr) as (d1 & n1 & Hr1 & Hs1 & Hra1 & He1'). destruct (Hd2 d1 n1 Hs1 Hra1) as (d2 & n2 & Hr2 & Hs2 & Hra2 & He2').
    exists d2, n2. split; [by eapply Hdec|]. split; [done|]. split; [done|congruence].
  - intros Hcl Hroom. assert (e_error e1 = 0) as He1 by (apply R1; [done|lia]).
    destruct (C1 He1) as (_ & Hc1). destruct (Hc1 Hcl) as (Hcl1 & _). apply R2; [done|]. by rewrite L1.
Qed.

(** Symbols that narrow the interval to [w] above [off]: the decoder has to find
    the symbol from the distance it keeps. *)
Lemma narrow_coded e F M B off w : enc_ok e F M B -> 0 <= off -> 0 < w -> off + w <= e_rng e ->
  exists e' F' M', enc_normalize NORMALIZE_TURNS (enc_range e (e_nbits_total e) w (e_val e + off)) = Ok e' /\
    forall dec (v : Z),
    (forall d, d_rng d = e_rng e -> e_rng e - off - w <= d_val d < e_rng e - off ->
       exists ext, dec d = (d' ← dec_normalize NORMALIZE_TURNS (dec_front d (d_offs d) (d_nbits_total d) w
         (d_val d - (e_rng e - off - w)) ext (d_rem d)); mret (v, d'))) ->
    coded dec v e F M B e' F' M' B.
Proof.
  intros [HL Hcode Hnorm Hwin] Hoff Hw Hsub.
  destruct (narrow_to e F M B off w HL Hcode Hoff Hw Hsub) as (j & e' & F' & M' & Hrun & Hna).
  exists e', F', M'. split; [done|]. intros dec v Hdec. pose proof Hna as [N1 N2 N3 N4 N5 (N6a & N6b) N7 N8 N9]. split.
  - split; [done|done|tauto|]. unfold window_ok. by rewrite N6a, N6b.
  - done.
  - lia.
  - intros Herr. destruct (N8 Herr) as (He & Hlow & Hlen & Hby). split; [done|]. intros [_ Hb HF HB].
    assert (raw_bits e' B = raw_bits e B) as Hrb by (unfold raw_bits; by rewrite N6b).
    split. { split; [done|rewrite Hrb; lia|auto|done]. }
    intros P HP Hcon Hraw. assert (holds_raw e B P) as Hraw0.
    { unfold holds_raw, raw_value in *. by rewrite Hrb, N6a in Hraw. }
    pose proof (contains_before _ _ _ _ _ _ _ _ _ _ _ HP Hna Herr Hcon) as Hin.
    split; [unfold contains; lia|]. split; [done|]. intros d n Hs Hr. pose proof Hs as [Hat Hrd _].
    destruct (Hdec d Hrd) as (ext & Hd). { rewrite (da_val _ _ _ _ Hat). lia. }
    destruct (narrow_synced e F M B off w j e' F' M' P d ext HP Hs Hw Hna Herr Hcon) as (d' & Hrun' & Hs' & (B1 & B2 & B3 & B4)).
    { destruct Hcode as [_ ? _ _]. lia. }
    exists d', n. rewrite Hd, Hrun', bind_Ok. split; [done|]. split; [done|]. split; [|done].
    destruct Hr as [_ R2 R3 R4 R5]. destruct (sy_at _ _ _ _ Hs') as [R1 _ _ _ _]. rewrite Hrb.
    split; rewrite ?B1, ?B2, ?B3; done.
  - intros [He Hb _ _] Hroom. apply N9; [done|]. unfold raw_bits in Hb. destruct Hwin as ((? & ?) & _).
    pose proof (len_nonneg B). lia.
Qed.

Lemma raw_bound e B : bytes_ok B -> window_ok e -> 0 <= raw_value e B < 2 ^ raw_bits e B.
Proof.
  intros HB ((Hn & _) & Hw). unfold raw_value, raw, raw_bits. pose proof (be_dec_bound B HB) as Hb. pose proof (len_nonneg B).
  rewrite Z.pow_add_r, <- pow_bytes by lia. pose proof (Z.pow_pos_nonneg 256 (len B) ltac:(lia) ltac:(lia)). nia.
Qed.

Lemma digit_unique a b x y m : 0 <= a < m -> 0 <= b < m -> a + x * m = b + y * m -> a = b /\ x = y.
Proof. intros Ha Hb H. assert (x = y) as -> by (destruct (Z.lt_trichotomy x y) as [|[|]]; nia). lia. Qed.

Lemma raw_coded e F M B v bits : enc_ok e F M B -> 1 <= bits <= 25 -> 0 <= v < 2 ^ bits ->
  exists e' M' B', enc_bits e v bits = Ok e' /\ coded (fun d => dec_bits d bits) v e F M B e' F M' B'.
Proof.
  intros [HL Hcode Hnorm Hwin] Hbits Hv.
  destruct (enc_bits_spec e F M B v bits HL Hwin Hbits Hv) as (e' & M' & B' & Hrun & HL' & Hwin' & S1 & S2 & S3 & S4 & S5 & S6 & C & R).
  exists e', M', B'. split; [done|].
  assert (pend e' = pend e) as Hpe by (unfold pend; by rewrite S3, S4).
  assert (digits e' F = digits e F) as Hdi by (unfold digits; by rewrite Hpe).
  assert (low e' F = low e F) as Hlo by (unfold low; by rewrite Hdi, S2). split.
  - split; [done| |lia|done]. destruct Hcode as [P1 P2 P3 P4].
    split; [unfold pend_ok; by rewrite S3, S4|by rewrite S1|by rewrite S1, S2|by rewrite S1, S2, S4].
  - done.
  - lia.
  - intros Herr. destruct (C Herr) as (He & Hrv & Hrb & Hby). split; [done|]. intros [_ Hb HF HB].
    split. { split; [done|rewrite Hdi; lia|done|auto]. }
    intros P HP Hcon Hraw. unfold contains in *. rewrite Hdi, Hlo, S1 in Hcon. split; [done|].
    pose proof (raw_bound e B HB Hwin) as Hbound. assert (0 <= raw_bits e B) as Hnn by (unfold raw_bits; pose proof (len_nonneg B); destruct Hwin; lia).
    unfold holds_raw in *. rewrite Hrb, mod_split, Hrv in Hraw by lia.
    pose proof (Z.mod_pos_bound (be_dec P) (2 ^ raw_bits e B) ltac:(lia)) as Hm.
    assert (be_dec P mod 2 ^ raw_bits e B = raw_value e B /\ (be_dec P / 2 ^ raw_bits e B) mod 2 ^ bits = v) as (Hraw0 & Hv0)
      by (by apply (digit_unique _ _ _ _ (2 ^ raw_bits e B))).
    split; [done|]. intros d n [Hat Hr Hnb] Hdr.
    destruct (dec_bits_at d P (raw_bits e B) n bits HP Hdr Hbits) as (d' & n' & Hrun' & Hdr' & D1 & D2 & D3 & D4 & D5 & D6 & D7).
    exists d', n'. rewrite Hrun', Hv0. split; [done|]. rewrite Hrb. split; [|done].
    destruct Hat as [A1 A2 A3 A4 A5]. destruct Hdr' as [R1' _ _ _ _].
    split; [|congruence|lia]. rewrite Hdi, Hlo, S1. split; [done|congruence|congruence|congruence|done].
  - intros [He Hb _ _] Hroom. rewrite R; [done|]. pose proof (ly_buf _ _ _ _ HL) as Hbuf.
    unfold raw_bits, digits in Hb. rewrite len_app in Hb. rewrite Hbuf, !len_app in Hroom. pose proof (len_nonneg (pend e)). lia.
Qed.

(** ** The symbol operations *)

(** Where a symbol with bounds [below] and [above] (counted from the total, in
    units of [r]) lies in a range. *)
Definition part_off (rng r below : Z) (first : bool) : Z := if first then 0 else rng - r * below.
Definition part_width (rng r below above : Z) (first : bool) : Z := if first then rng - r * above else r * (below - above).

Lemma part_ok rng r below above (first : bool) : 0 < r -> 0 <= above -> r * below <= rng -> r * above < rng -> (first = false -> above < below) ->
  0 <= part_off rng r below first /\ 0 < part_width rng r below above first /\
  part_off rng r below first + part_width rng r below above first <= rng /\
  rng - part_off rng r below first - part_width rng r below above first = r * above.
Proof.
  intros Hr Ha Hb Hab Hlt. unfold part_off, part_width. destruct first; [lia|]. specialize (Hlt eq_refl).
  assert (0 < r * (below - above)) by (apply Z.mul_pos_pos; lia). split; [lia|]. split; [lia|]. nia.
Qed.

Lemma umul_small a b : 0 <= a * b < 2 ^ 32 -> umul a b = a * b.
Proof. intros H. by apply Z.mod_small. Qed.

(** The three ways the source writes the update of an encoder. *)
Lemma encode_rest e r below : 0 <= e_val e -> 0 <= r * below -> r * below <= e_rng e -> e_val e + e_rng e < 2 ^ 32 ->
  wrapping_add 32 (e_val e) (wrapping_sub 32 (e_rng e) (umul r below)) = e_val e + (e_rng e - r * below).
Proof.
  intros Hv Hb Hr Hs. unfold wrapping_add, wrapping_sub. rewrite umul_small by lia. unfold wrap.
  rewrite (Z.mod_small (e_rng e - _)), Z.mod_small by lia. done.
Qed.

(** A symbol [fl, fh) of [ft] in a range: the unit, and its part of the range. *)
Record sym_part (rng fl fh ft r off w : Z) : Prop := {
  pa_unit : r = rng / ft /\ 0 < r /\ r * ft <= rng;
  pa_off : off = part_off rng r (ft - fl) (negb (0 <? fl));
  pa_width : w = part_width rng r (ft - fl) (ft - fh) (negb (0 <? fl));
  pa_inside : 0 <= off /\ 0 < w /\ off + w <= rng;
  pa_above : rng - off - w = r * (ft - fh) /\ 0 <= r * (ft - fh) < rng
}.

Lemma sym_part_exists rng fl fh ft : 2 ^ 23 < rng -> 0 <= fl < fh -> fh <= ft <= 2 ^ 23 ->
  exists r off w, sym_part rng fl fh ft r off w.
Proof.
  intros Hnorm Hf Hft. set (r := rng / ft). assert (0 < r) as Hr by (apply Z.div_str_pos; lia).
  assert (r * ft <= rng) as Hrft by (pose proof (Z.mul_div_le rng ft); unfold r; lia).
  assert (r * (ft - fl) <= rng /\ r * (ft - fh) < rng /\ 0 <= r * (ft - fh)) as (Hb1 & Hb2 & Hb3) by nia.
  destruct (part_ok rng r (ft - fl) (ft - fh) (negb (0 <? fl))) as (Hoff & Hw & Hsub & Hab); [done|lia|lia|lia|lia|].
  eexists r, _, _. split; [done|reflexivity|reflexivity|done|done].
Qed.

Lemma encode_part e fl fh ft r off w : sym_part (e_rng e) fl fh ft r off w -> 0 <= fl < fh -> fh <= ft ->
  0 <= e_val e -> e_val e + e_rng e < 2 ^ 32 ->
  encode e fl fh ft = enc_normalize NORMALIZE_TURNS (enc_range e (e_nbits_total e) w (e_val e + off)).
Proof.
  intros [(Hr & Hrp & Hrf) -> -> _ (_ & Hab)] Hf Hft Hv Hs. unfold encode, udiv.
  rewrite (proj2 (Z.eqb_neq ft 0)), bind_Ok, <- Hr by lia. unfold part_off, part_width. destruct (Z.ltb_spec 0 fl); cbn [negb].
  - rewrite !usub_Ok, !bind_Ok by lia. rewrite encode_rest, umul_small by nia.
    replace (ft - fl - (ft - fh)) with (fh - fl) by lia. done.
  - rewrite usub_Ok, bind_Ok by lia. rewrite umul_small, usub_Ok, bind_Ok by nia. by rewrite Z.add_0_r.
Qed.

Lemma decode_part d fl fh ft r off w : sym_part (d_rng d) fl fh ft r off w -> 0 <= fl < fh -> fh <= ft <= 2 ^ 23 -> d_rng d <= 2 ^ 31 ->
  d_rng d - off - w <= d_val d < d_rng d - off ->
  exists fs d1, decode d ft = Ok (fs, d1) /\ fl <= fs < fh /\
    dec_update d1 fl fh ft = dec_normalize NORMALIZE_TURNS (dec_front d (d_offs d) (d_nbits_total d) w
      (d_val d - (d_rng d - off - w)) r (d_rem d)).
Proof.
  intros [(Hr & Hrp & Hrf) Hoff Hw (Hoff0 & _) (Hab & Hab')] Hf Hft Htop HD. unfold decode, udiv.
  rewrite (proj2 (Z.eqb_neq ft 0)), bind_Ok, <- Hr by lia. rewrite (proj2 (Z.eqb_neq r 0)), bind_Ok by lia.
  set (s := d_val d / r). assert (ft - fh <= s) as Hs1 by (apply Z.div_le_lower_bound; lia).
  assert (0 < fl -> s < ft - fl) as Hs2.
  { intros Hfl. apply Z.div_lt_upper_bound; [lia|]. unfold part_off in Hoff. rewrite (proj2 (Z.ltb_lt 0 fl) Hfl) in Hoff. cbn in Hoff. lia. }
  assert (s < 2 ^ 31) as Hs3.
  { apply Z.div_lt_upper_bound; [lia|]. nia. }
  unfold uadd. rewrite (proj2 (Z.ltb_lt (s + 1) (2 ^ 32))), bind_Ok, usub_Ok, bind_Ok by lia.
  eexists _, _. split; [done|]. split; [destruct (decide (0 < fl)) as [Hfl|Hfl]; [specialize (Hs2 Hfl); lia|lia]|].
  unfold dec_update. rewrite (usub_Ok ft fh), bind_Ok by lia. cbn [dec_front d_ext d_val d_rng d_offs d_nbits_total d_rem].
  rewrite (umul_small r (ft - fh)) by lia. unfold wrapping_sub, wrap. rewrite Z.mod_small by lia. rewrite Hab.
  unfold part_width in Hw. destruct (Z.ltb_spec 0 fl); cbn [negb] in Hw.
  - rewrite usub_Ok, bind_Ok by lia. unfold mret at 1, res_ret. rewrite bind_Ok. rewrite umul_small by nia.
    replace (fh - fl) with (ft - fl - (ft - fh)) by lia. rewrite <- Hw. done.
  - rewrite usub_Ok, bind_Ok by lia. rewrite <- Hw. done.
Qed.

Lemma encode_coded e F M B fl fh ft : enc_ok e F M B -> 0 <= fl < fh -> fh <= ft <= 2 ^ 23 ->
  exists e' F' M', encode e fl fh ft = Ok e' /\ forall dec (v : Z),
    (forall d fs d1, decode d ft = Ok (fs, d1) -> fl <= fs < fh ->
       dec d = (d' ← dec_update d1 fl fh ft; mret (v, d'))) ->
    coded dec v e F M B e' F' M' B.
Proof.
  intros Hok Hf Hft. pose proof Hok as [_ [_ Hrng (Hval & Hsum) _] Hnorm _].
  destruct (sym_part_exists (e_rng e) fl fh ft Hnorm Hf Hft) as (r & off & w & Hp).
  destruct (narrow_coded e F M B off w Hok) as (e' & F' & M' & Hrun & Hall); try apply Hp.
  exists e', F', M'. rewrite (encode_part e fl fh ft r off w Hp Hf) by lia. split; [done|].
  intros dec v Hdec. apply Hall. intros d Hr HD. rewrite <- Hr in Hp, HD.
  destruct (decode_part d fl fh ft r off w Hp Hf Hft ltac:(lia) HD) as (fs & d1 & Hd & Hfs & Hup).
  exists r. rewrite (Hdec d fs d1 Hd Hfs), Hup, Hr. done.
Qed.

Lemma encode_bin_eq e fl fh bits : 0 <= bits < 32 -> encode_bin e fl fh bits = encode e fl fh (2 ^ bits).
Proof.
  intros Hb. unfold encode_bin, encode, ushr, ushl, udiv. rewrite (proj2 (Z.leb_le 0 bits)), (proj2 (Z.ltb_lt bits 32)) by lia.
  cbn [andb]. pose proof (Z.pow_pos_nonneg 2 bits ltac:(lia) ltac:(lia)). assert (2 ^ bits < 2 ^ 32) by (apply Z.pow_lt_mono_r; lia).
  rewrite (proj2 (Z.eqb_neq (2 ^ bits) 0)), !bind_Ok by lia. unfold wrap. rewrite Z.shiftl_1_l, Z.mod_small, Z.shiftr_div_pow2 by lia. done.
Qed.

Lemma decode_bin_eq d bits : 0 <= bits < 32 -> decode_bin d bits = decode d (2 ^ bits).
Proof.
  intros Hb. unfold decode_bin, decode, ushr, ushl, udiv. rewrite (proj2 (Z.leb_le 0 bits)), (proj2 (Z.ltb_lt bits 32)) by lia.
  cbn [andb]. pose proof (Z.pow_pos_nonneg 2 bits ltac:(lia) ltac:(lia)). assert (2 ^ bits < 2 ^ 32) by (apply Z.pow_lt_mono_r; lia).
  rewrite (proj2 (Z.eqb_neq (2 ^ bits) 0)), !bind_Ok by lia. unfold wrap. rewrite Z.shiftl_1_l, Z.mod_small, Z.shiftr_div_pow2 by lia. done.
Qed.

Lemma bit_coded e F M B (b : bool) logp : enc_ok e F M B -> 1 <= logp <= 23 ->
  exists e' F' M', enc_bit_logp e b logp = Ok e' /\
    coded (fun d => '(b, d') ← dec_bit_logp d logp; mret (b2z b, d')) (b2z b) e F M B e' F' M' B.
Proof.
  intros Hok Hl. pose proof Hok as [_ [_ Hrng (Hval & Hsum) _] Hnorm _].
  assert (2 <= 2 ^ logp <= 2 ^ 23) as Hp by (split; [change 2 with (2 ^ 1) at 1|]; apply Z.pow_le_mono_r; lia).
  set (s := e_rng e / 2 ^ logp). assert (0 < s) as Hs by (apply Z.div_str_pos; lia).
  assert (s * 2 ^ logp <= e_rng e) as Hs2 by (pose proof (Z.mul_div_le (e_rng e) (2 ^ logp)); unfold s; lia).
  assert (2 * s <= e_rng e) as Hs3 by nia.
  assert (forall rng, ushr rng logp = Ok (rng / 2 ^ logp)) as Hshr.
  { intros rng. unfold ushr. rewrite (proj2 (Z.leb_le 0 logp)), (proj2 (Z.ltb_lt logp 32)) by lia. cbn [andb]. by rewrite Z.shiftr_div_pow2 by lia. }
  destruct (narrow_coded e F M B (if b then e_rng e - s else 0) (if b then s else e_rng e - s) Hok) as (e' & F' & M' & Hrun & Hall);
    [destruct b; lia|destruct b; lia|destruct b; lia|].
  exists e', F', M'. split.
  - rewrite <- Hrun. unfold enc_bit_logp. rewrite Hshr, bind_Ok. fold s. rewrite usub_Ok, bind_Ok by lia. destruct b.
    + unfold wrapping_add, wrap. rewrite Z.mod_small by lia. done.
    + by rewrite Z.add_0_r.
  - apply Hall. intros d Hr HD. exists (d_ext d). unfold dec_bit_logp. rewrite Hshr, bind_Ok, Hr. fold s.
    destruct b; cbn [b2z].
    + rewrite (proj2 (Z.ltb_lt (d_val d) s)) by lia. cbn [mbind res_bind mret res_ret].
      replace (d_val d - (e_rng e - (e_rng e - s) - s)) with (d_val d) by lia. by destruct (dec_normalize _ _).
    + rewrite (proj2 (Z.ltb_ge (d_val d) s)) by lia. rewrite usub_Ok, bind_Ok by lia.
      replace (d_val d - (e_rng e - 0 - (e_rng e - s))) with (d_val d - s) by lia. by destruct (dec_normalize _ _).
Qed.

(** ** Inverse cumulative tables *)

(** The entry before symbol [s], the total standing before the first. *)
Definition icdf_before (icdf : list Z) (ftb s : Z) : Z := if s =? 0 then 2 ^ ftb else nth (Z.to_nat (s - 1)) icdf 0.
Definition icdf_at (icdf : list Z) (s : Z) : Z := nth (Z.to_nat s) icdf 0.

(** A table of at most 2^16, non-increasing from below the total, in which the
    symbol has a share. *)
Record icdf_ok (icdf : list Z) (ftb s : Z) : Prop := {
  ic_bits : 0 <= ftb <= 16;
  ic_index : 0 <= s < len icdf;
  ic_entries : forall i, 0 <= i < len icdf -> 0 <= icdf_at icdf i < 2 ^ ftb;
  ic_falling : forall i, 0 < i < len icdf -> icdf_at icdf i <= icdf_at icdf (i - 1);
  ic_share : icdf_at icdf s < icdf_before icdf ftb s
}.

Lemma icdf_idx icdf i : 0 <= i < len icdf -> @idx Empty_set Z icdf i = Ok (icdf_at icdf i).
Proof.
  intros Hi. destruct (@idx_in_range Empty_set Z icdf i Hi) as (x & -> & Hx). unfold icdf_at.
  by rewrite (nth_lookup_Some _ _ 0 x Hx).
Qed.

Lemma icdf_falls icdf i k : (forall i, 0 < i < len icdf -> icdf_at icdf i <= icdf_at icdf (i - 1)) ->
  0 <= i -> 0 <= k -> i + k < len icdf -> icdf_at icdf (i + k) <= icdf_at icdf i.
Proof.
  intros Hf Hi Hk Hl. revert k Hk Hl. apply (natlike_ind (fun k => i + k < len icdf -> icdf_at icdf (i + k) <= icdf_at icdf i)).
  - rewrite Z.add_0_r. lia.
  - intros k Hk IH Hl. specialize (Hf (i + Z.succ k) ltac:(lia)). replace (i + Z.succ k - 1) with (i + k) in Hf by lia. lia.
Qed.

Lemma icdf_search_finds fuel : forall icdf r d t ret s, 0 < r ->
  (forall i, 0 <= i < len icdf -> 0 <= r * icdf_at icdf i < 2 ^ 32) ->
  0 <= ret <= s -> s < len icdf -> (Z.to_nat (s - ret) < fuel)%nat ->
  (forall i, ret <= i < s -> d < r * icdf_at icdf i) -> r * icdf_at icdf s <= d ->
  icdf_search fuel icdf r d t ret = Ok (s, r * icdf_at icdf s, if ret =? s then t else r * icdf_at icdf (s - 1)).
Proof.
  induction fuel as [|fuel IH]; intros icdf r d t ret s Hr Hfit Hret Hs Hfuel Hbelow Hat; [lia|].
  cbn [icdf_search]. rewrite icdf_idx, bind_Ok, umul_small by (try apply Hfit; lia).
  destruct (Z.eqb_spec ret s) as [->|Hne].
  - rewrite (proj2 (Z.leb_le _ d)) by done. done.
  - rewrite (proj2 (Z.leb_gt _ d)) by (apply Hbelow; lia).
    rewrite (IH icdf r d _ (ret + 1) s) by (try done; try lia; intros; apply Hbelow; lia).
    destruct (Z.eqb_spec (ret + 1) s) as [<-|]; [|done]. by replace (ret + 1 - 1) with ret by lia.
Qed.

Lemma icdf_coded e F M B icdf ftb s : enc_ok e F M B -> icdf_ok icdf ftb s ->
  exists e' F' M', enc_icdf e s icdf ftb = Ok e' /\ coded (fun d => dec_icdf d icdf ftb) s e F M B e' F' M' B.
Proof.
  intros Hok [Hb Hi He Hf Hsh]. pose proof Hok as [_ [_ Hrng (Hval & Hsum) _] Hnorm _].
  assert (1 <= 2 ^ ftb <= 2 ^ 16) as Hp by (split; [change 1 with (2 ^ 0)|]; apply Z.pow_le_mono_r; lia).
  set (r := e_rng e / 2 ^ ftb). assert (0 < r) as Hr by (apply Z.div_str_pos; lia).
  assert (r * 2 ^ ftb <= e_rng e) as Hrft by (pose proof (Z.mul_div_le (e_rng e) (2 ^ ftb)); unfold r; lia).
  assert (forall rng, ushr rng ftb = Ok (rng / 2 ^ ftb)) as Hshr.
  { intros rng. unfold ushr. rewrite (proj2 (Z.leb_le 0 ftb)), (proj2 (Z.ltb_lt ftb 32)) by lia. cbn [andb]. by rewrite Z.shiftr_div_pow2 by lia. }
  assert (forall i, 0 <= i < len icdf -> 0 <= r * icdf_at icdf i < e_rng e) as Hent.
  { intros i Hin. specialize (He i Hin). nia. }
  set (below := icdf_before icdf ftb s). set (above := icdf_at icdf s). set (first := s =? 0).
  assert (r * below <= e_rng e) as Hbelow.
  { unfold below, icdf_before. destruct (Z.eqb_spec s 0); [done|]. specialize (Hent (s - 1) ltac:(lia)). unfold icdf_at in Hent. lia. }
  destruct (part_ok (e_rng e) r below above first) as (Hoff & Hw & Hsub & Hab); [done|apply He; lia|done|apply Hent; lia|done|].
  destruct (narrow_coded e F M B (part_off (e_rng e) r below first) (part_width (e_rng e) r below above first) Hok) as (e' & F' & M' & Hrun & Hall);
    [done|done|done|].
  exists e', F', M'. split.
  - rewrite <- Hrun. unfold enc_icdf. rewrite Hshr, bind_Ok. fold r. unfold part_off, part_width, first.
    pose proof (Hent s ltac:(lia)) as Hes. fold above in Hes. unfold below, icdf_before in *.
    destruct (Z.eqb_spec s 0) as [->|Hne].
    + rewrite (proj2 (Z.ltb_ge 0 0)) by lia. rewrite icdf_idx, bind_Ok by lia. fold above. rewrite umul_small by lia.
      rewrite usub_Ok, bind_Ok by lia. by rewrite Z.add_0_r.
    + rewrite (proj2 (Z.ltb_lt 0 s)) by lia. rewrite (icdf_idx icdf (s - 1)), bind_Ok, icdf_idx, bind_Ok by lia. fold above.
      change (icdf_at icdf (s - 1)) with (nth (Z.to_nat (s - 1)) icdf 0). set (b := nth _ icdf 0) in *.
      pose proof (Hent (s - 1) ltac:(lia)) as Heb. change (icdf_at icdf (s - 1)) with b in Heb.
      rewrite usub_Ok, bind_Ok by lia. rewrite encode_rest, umul_small by nia. done.
  - apply Hall. intros d Hrd HD. exists (d_ext d). unfold dec_icdf. rewrite Hshr, bind_Ok, Hrd. fold r.
    rewrite Hab in HD |- *. fold above. unfold part_off, first in HD.
    rewrite (icdf_search_finds _ icdf r (d_val d) (e_rng e) 0 s); [|done|..].
    + rewrite bind_Ok. cbv beta iota. fold above. unfold wrapping_sub, wrap.
      assert (0 <= r * above < e_rng e) as Hes by (apply Hent; lia).
      assert (d_val d < 2 ^ 32) as Hd32 by (destruct (s =? 0); lia).
      rewrite (Z.mod_small (d_val d - r * above)) by lia.
      assert (((if 0 =? s then e_rng e else r * icdf_at icdf (s - 1)) - r * above) mod 2 ^ 32 = part_width (e_rng e) r below above first) as ->;
        [|by destruct (dec_normalize _ _)].
      unfold part_width, first. rewrite (Z.eqb_sym 0 s). destruct (Z.eqb_spec s 0) as [->|Hne].
      * rewrite Z.mod_small by lia. done.
      * unfold below, icdf_before. rewrite (proj2 (Z.eqb_neq s 0) Hne). change (nth (Z.to_nat (s - 1)) icdf 0) with (icdf_at icdf (s - 1)).
        pose proof (Hent (s - 1) ltac:(lia)). unfold below, icdf_before in Hsh. rewrite (proj2 (Z.eqb_neq s 0) Hne) in Hsh.
        change (nth (Z.to_nat (s - 1)) icdf 0) with (icdf_at icdf (s - 1)) in Hsh. rewrite Z.mod_small by nia. ring.
    + intros i Hin. specialize (Hent i Hin). lia.
    + lia.
    + lia.
    + unfold len in Hi. lia.
    + intros i Hin. destruct (Z.eqb_spec s 0) as [->|Hne]; [lia|].
      pose proof (icdf_falls icdf i (s - 1 - i) Hf ltac:(lia) ltac:(lia) ltac:(lia)) as Hfall.
      replace (i + (s - 1 - i)) with (s - 1) in Hfall by lia. unfold below, icdf_before in HD. rewrite (proj2 (Z.eqb_neq s 0) Hne) in HD.
      change (nth (Z.to_nat (s - 1)) icdf 0) with (icdf_at icdf (s - 1)) in HD. nia.
    + fold above. lia.
Qed.

(** ** Uniform integers *)

(** [decode] then [dec_update] on a symbol one wide. *)
Definition dec_one (ft : Z) (d : RangeDecoder) : rc (Z * RangeDecoder) :=
  '(s, d) ← decode d ft; d ← dec_update d s (s + 1) ft; mret (s, d).

Lemma one_coded e F M B v ft : enc_ok e F M B -> 0 <= v < ft -> ft <= 2 ^ 23 ->
  exists e' F' M', encode e v (v + 1) ft = Ok e' /\ coded (dec_one ft) v e F M B e' F' M' B.
Proof.
  intros Hok Hv Hft. destruct (encode_coded e F M B v (v + 1) ft Hok ltac:(lia) ltac:(lia)) as (e' & F' & M' & Hrun & Hall).
  exists e', F', M'. split; [done|]. apply Hall. intros d fs d1 Hd Hfs. unfold dec_one. rewrite Hd, bind_Ok.
  by replace fs with v by lia.
Qed.

Lemma ilog_bounds x : 0 < x < 2 ^ 32 -> 1 <= ec_ilog x <= 32 /\ 2 ^ (ec_ilog x - 1) <= x < 2 ^ ec_ilog x.
Proof.
  intros Hx. unfold ec_ilog. rewrite (proj2 (Z.eqb_neq x 0)) by lia. pose proof (Z.log2_spec x ltac:(lia)) as Hl.
  assert (Z.log2 x < 32) by (apply Z.log2_lt_pow2; lia). pose proof (Z.log2_nonneg x).
  replace (Z.log2 x + 1 - 1) with (Z.log2 x) by lia. rewrite Z.add_1_r. lia.
Qed.

Lemma uint_coded e F M B v ft : enc_ok e F M B -> 2 <= ft < 2 ^ 32 -> 0 <= v < ft ->
  exists e' F' M' B', enc_uint e v ft = Ok e' /\ coded (fun d => dec_uint d ft) v e F M B e' F' M' B'.
Proof.
  intros Hok Hft Hv. destruct (ilog_bounds (ft - 1) ltac:(lia)) as (Hl & Hlow & Hhigh).
  unfold enc_uint. rewrite usub_Ok, bind_Ok by lia. unfold EC_UINT_BITS. set (l := ec_ilog (ft - 1)) in *.
  destruct (Z.ltb_spec 8 l) as [Hbig|Hsmall].
  - set (b := l - 8). assert (1 <= b <= 24) as Hb by lia. set (high := (ft - 1) / 2 ^ b). set (hi := v / 2 ^ b). set (lo := v mod 2 ^ b).
    pose proof (Z.pow_pos_nonneg 2 b ltac:(lia) ltac:(lia)) as Hp.
    assert (high < 256) as Hh. { apply Z.div_lt_upper_bound; [lia|]. change 256 with (2 ^ 8). rewrite <- Z.pow_add_r by lia. by replace (b + 8) with l by lia. }
    assert (0 <= hi <= high) as Hhi by (split; [apply Z.div_pos; lia|apply Z.div_le_mono; lia]).
    assert (0 <= lo < 2 ^ b) as Hlo by (apply Z.mod_pos_bound; lia).
    assert (v = lo + hi * 2 ^ b) as Hveq by (pose proof (Z.div_mod v (2 ^ b)); unfold lo, hi; lia).
    assert (forall x, ushr x b = Ok (x / 2 ^ b)) as Hshr.
    { intros x. unfold ushr. rewrite (proj2 (Z.leb_le 0 b)), (proj2 (Z.ltb_lt b 32)) by lia. cbn [andb]. by rewrite Z.shiftr_div_pow2 by lia. }
    assert (forall x, 0 <= x * 2 ^ b < 2 ^ 32 -> ushl x b = Ok (x * 2 ^ b)) as Hshl.
    { intros x Hx. unfold ushl. rewrite (proj2 (Z.leb_le 0 b)), (proj2 (Z.ltb_lt b 32)) by lia. cbn [andb].
      unfold wrap. rewrite Z.shiftl_mul_pow2, Z.mod_small by lia. done. }
    assert (2 ^ b < 2 ^ 32) as Hb32 by (apply Z.pow_lt_mono_r; lia).
    rewrite !Hshr, !bind_Ok. fold high hi.
    destruct (one_coded e F M B hi (high + 1) Hok ltac:(lia) ltac:(lia)) as (e1 & F1 & M1 & -> & Hc1). rewrite bind_Ok.
    rewrite (Hshl 1), bind_Ok, Z.mul_1_l by lia.
    assert (Z.land v (2 ^ b - 1) = lo) as -> by (rewrite Z.sub_1_r, <- Z.ones_equiv, Z.land_ones by lia; done).
    destruct (raw_coded e1 F1 M1 B lo b (cd_ok _ _ _ _ _ _ _ _ _ _ Hc1) ltac:(lia) Hlo) as (e2 & M2 & B2 & -> & Hc2).
    exists e2, F1, M2, B2. split; [done|]. eapply coded_bind; [exact Hc1|exact Hc2|].
    intros d d1 d2 H1 H2. unfold dec_uint. rewrite usub_Ok, bind_Ok by lia. fold l. unfold EC_UINT_BITS.
    rewrite (proj2 (Z.ltb_lt 8 l) Hbig). fold b. rewrite Hshr, bind_Ok. fold high.
    unfold dec_one in H1. destruct (decode d (high + 1)) as [[s d0]| |]; [|done..]. rewrite bind_Ok in H1 |- *.
    destruct (dec_update d0 s (s + 1) (high + 1)) as [d1'| |]; [|done..]. rewrite bind_Ok in H1 |- *. injection H1 as -> ->.
    rewrite Hshl, bind_Ok, H2, bind_Ok by nia. rewrite Z.lor_comm, lor_shifted, <- Hveq by lia.
    rewrite (proj2 (Z.leb_le v (ft - 1))) by lia. done.
  - assert (ft <= 256) as Hft2.
    { assert (2 ^ l <= 2 ^ 8) by (apply Z.pow_le_mono_r; lia). lia. }
    replace (ft - 1 + 1) with ft by lia.
    destruct (one_coded e F M B v ft Hok Hv ltac:(lia)) as (e1 & F1 & M1 & -> & Hc1). exists e1, F1, M1, B. split; [done|].
    destruct Hc1 as [K L G Cl R]. split; [done..| |done]. intros He. destruct (Cl He) as (He0 & Hcl). split; [done|].
    intros H. destruct (Hcl H) as (H1 & H2). split; [done|]. intros P HP Hcon Hraw. destruct (H2 P HP Hcon Hraw) as (H3 & H4 & H5).
    split; [done|]. split; [done|]. intros d n Hs Hr. destruct (H5 d n Hs Hr) as (d' & n' & Hd & H6).
    exists d', n'. split; [|done]. rewrite <- Hd. unfold dec_uint, dec_one. rewrite usub_Ok, bind_Ok by lia. fold l.
    unfold EC_UINT_BITS. rewrite (proj2 (Z.ltb_ge 8 l) Hsmall). by replace (ft - 1 + 1) with ft by lia.
Qed.
