(* ===== verification/RangeStream.v ===== *)
(** * Streams of symbols through the range coder

    What a sequence of symbols and raw bits written by the encoder of
    opus/range_coder.rs and closed with [done] looks like to its decoder: the
    whole of a packet's round trip, on the definitions and lemmas of RangeCoder. *)

From stdpp Require Import base list numbers option.
From Stdlib Require Import Lia ZArith.
From S2P Require Import Prelude RangeCoder.

Open Scope Z_scope.

(** ** The two coders at the start *)

Lemma new_encoder_ok buf : enc_ok (RangeEncoder_new buf) [] buf [] /\ clean_ok (RangeEncoder_new buf) [] [].
Proof.
  split.
  - split; [split; cbn; rewrite ?app_nil_r; done| |done|split; cbn; lia].
    split; [split; cbn; lia|done|done|done].
  - split; [done|done|constructor|constructor].
Qed.

Lemma new_decoder_synced buf P : bytes_ok P ->
  exists d, RangeDecoder_new P = Ok d /\ synced (RangeEncoder_new buf) [] P d /\ dec_raw d P 0 0 /\ d_error d = 0.
Proof.
  intros HP. unfold RangeDecoder_new. set (d0 := mkRangeDecoder _ _ _ _ _ _ _ _ _ _ _ _).
  rewrite (read_byte_at d0 P 0) by (try done; cbn; pose proof (len_nonneg P); lia). rewrite bind_Ok. cbv beta iota.
  pose proof (byte_at_ok P 0 HP) as Hb. change (d_rng d0) with 128. change (EC_SYM_BITS - EC_CODE_EXTRA) with 1.
  rewrite Z.shiftr_div_pow2 by lia. change (2 ^ 1) with 2.
  assert (0 <= byte_at P 0 / 2 < 128) as Hh by (split; [apply Z.div_pos; lia|apply Z.div_lt_upper_bound; lia]).
  rewrite usub_Ok, bind_Ok by lia. unfold NORMALIZE_TURNS.
  pose proof (code_next P 0) as C1. pose proof (code_next P 1) as C2. pose proof (code_next P 2) as C3.
  pose proof (next_sym_ok P 0 HP) as S0. pose proof (next_sym_ok P 1 HP) as S1. pose proof (next_sym_ok P 2 HP) as S2.
  assert (code P 1 / 2 = byte_at P 0 / 2) as C0 by (cbn [code]; f_equal; lia).
  rewrite (dec_shift_in 3 _ P 0) by (try done; cbn [dec_front d_val d_rng d0]; lia).
  rewrite (dec_shift_in 2 _ P 1) by (try done; cbn [dec_front d_val d_rng d0]; lia).
  rewrite (dec_shift_in 1 _ P 2) by (try done; cbn [dec_front d_val d_rng d0]; lia).
  cbn [dec_normalize]. match goal with |- context [if ?c then _ else _] => change c with false end.
  eexists. split; [reflexivity|]. split; [|split; [|done]].
  - split; [split|done|done]; try done.
    change (d_val _) with ((((128 - 1 - byte_at P 0 / 2) * 256 + (255 - next_sym P 0)) * 256 + (255 - next_sym P 1)) * 256 + (255 - next_sym P 2)).
    change (low _ _ + _) with (2 ^ 31). change (read_code P _) with (code P 4 / 2). lia.
  - split; [done|done|cbn; lia|cbn; pose proof (len_nonneg P); lia|]. symmetry. apply Z.mod_1_r.
Qed.

(** ** Symbols

    A shape is a way the callers code one symbol, with its parameters.  For the
    frequency coders [look] is the caller's search: the bounds of the symbol a
    cumulative frequency falls in; the symbol is named by its lower bound. *)

Inductive Shape : Type :=
  | Freq (ft : Z) (look : Z -> Z * Z)
  | FreqBin (bits : Z) (look : Z -> Z * Z)
  | Logp (logp : Z)
  | Icdf (icdf : list Z) (ftb : Z)
  | Icdf16 (icdf : list Z) (ftb : Z)
  | Uint (ft : Z)
  | Raw (bits : Z).

Definition enc_sym (e : RangeEncoder) (sh : Shape) (v : Z) : rc RangeEncoder :=
  match sh with
  | Freq ft look => let '(fl, fh) := look v in encode e fl fh ft
  | FreqBin bits look => let '(fl, fh) := look v in encode_bin e fl fh bits
  | Logp logp => enc_bit_logp e (v =? 1) logp
  | Icdf icdf ftb => enc_icdf e v icdf ftb
  | Icdf16 icdf ftb => enc_icdf16 e v icdf ftb
  | Uint ft => enc_uint e v ft
  | Raw bits => enc_bits e v bits
  end.

Definition dec_freq (d : RangeDecoder) (read : RangeDecoder -> rc (Z * RangeDecoder)) (ft : Z) (look : Z -> Z * Z) :
  rc (Z * RangeDecoder) :=
  '(fs, d) ← read d;
  let '(fl, fh) := look fs in
  d ← dec_update d fl fh ft;
  mret (fl, d).

Definition dec_sym (sh : Shape) (d : RangeDecoder) : rc (Z * RangeDecoder) :=
  match sh with
  | Freq ft look => dec_freq d (fun d => decode d ft) ft look
  | FreqBin bits look => dec_freq d (fun d => decode_bin d bits) (2 ^ bits) look
  | Logp logp => '(b, d) ← dec_bit_logp d logp; mret (b2z b, d)
  | Icdf icdf ftb => dec_icdf d icdf ftb
  | Icdf16 icdf ftb => dec_icdf16 d icdf ftb
  | Uint ft => dec_uint d ft
  | Raw bits => dec_bits d bits
  end.

(** The symbol [v] owns the frequencies [v] to [fh] of the total. *)
Definition freq_ok (ft : Z) (look : Z -> Z * Z) (v : Z) : Prop :=
  0 <= v < (look v).2 /\ (look v).2 <= ft <= 2 ^ 23 /\ forall fs, v <= fs < (look v).2 -> look fs = (v, (look v).2).

(** What each operation asks of its arguments. *)
Definition sym_ok (sh : Shape) (v : Z) : Prop :=
  match sh with
  | Freq ft look => freq_ok ft look v
  | FreqBin bits look => 0 <= bits <= 23 /\ freq_ok (2 ^ bits) look v
  | Logp logp => 1 <= logp <= 23 /\ 0 <= v <= 1
  | Icdf icdf ftb | Icdf16 icdf ftb => icdf_ok icdf ftb v
  | Uint ft => 2 <= ft < 2 ^ 32 /\ 0 <= v < ft
  | Raw bits => 1 <= bits <= 25 /\ 0 <= v < 2 ^ bits
  end.

Fixpoint enc_run (e : RangeEncoder) (syms : list (Shape * Z)) : rc RangeEncoder :=
  match syms with
  | [] => mret e
  | (sh, v) :: syms => e ← enc_sym e sh v; enc_run e syms
  end.

Fixpoint dec_run (shapes : list Shape) (d : RangeDecoder) : rc (list Z * RangeDecoder) :=
  match shapes with
  | [] => mret ([], d)
  | sh :: shapes => '(v, d) ← dec_sym sh d; '(vs, d) ← dec_run shapes d; mret (v :: vs, d)
  end.

Lemma freq_coded e F M B ft look v : enc_ok e F M B -> freq_ok ft look v ->
  exists e' F' M', (let '(fl, fh) := look v in encode e fl fh ft) = Ok e' /\
    coded (fun d => dec_freq d (fun d => decode d ft) ft look) v e F M B e' F' M' B.
Proof.
  intros Hok (Hv & Hft & Hlook). set (fh := (look v).2) in *. rewrite (Hlook v) by lia.
  destruct (encode_coded e F M B v fh ft Hok Hv Hft) as (e' & F' & M' & Hrun & Hall). exists e', F', M'. split; [done|].
  apply Hall. intros d fs d1 Hd Hfs. unfold dec_freq. rewrite Hd, bind_Ok. by rewrite (Hlook fs Hfs).
Qed.

Lemma coded_ext {A : Type} dec dec' (v : A) e F M B e' F' M' B' : (forall d, dec' d = dec d) ->
  coded dec v e F M B e' F' M' B' -> coded dec' v e F M B e' F' M' B'.
Proof.
  intros Heq [K L G C R]. split; [done..| |done]. intros He. destruct (C He) as (He0 & Hc). split; [done|]. intros Hcl.
  destruct (Hc Hcl) as (Hcl' & Hp). split; [done|]. intros P HP Hcon Hraw. destruct (Hp P HP Hcon Hraw) as (H1 & H2 & H3).
  split; [done|]. split; [done|]. intros d n Hs Hr. rewrite Heq. eauto.
Qed.

(** Every operation codes its symbol. *)
Lemma sym_coded e F M B sh v : enc_ok e F M B -> sym_ok sh v ->
  exists e' F' M' B', enc_sym e sh v = Ok e' /\ coded (dec_sym sh) v e F M B e' F' M' B'.
Proof.
  intros Hok Hsym. destruct sh as [ft look|bits look|logp|icdf ftb|icdf ftb|ft|bits]; cbn [sym_ok enc_sym] in *.
  - destruct (freq_coded e F M B ft look v Hok Hsym) as (e' & F' & M' & H). by exists e', F', M', B.
  - destruct Hsym as (Hb & Hf). destruct (freq_coded e F M B (2 ^ bits) look v Hok Hf) as (e' & F' & M' & Hrun & Hc).
    exists e', F', M', B. split; [rewrite <- Hrun; destruct (look v); apply encode_bin_eq; lia|].
    refine (coded_ext _ _ _ _ _ _ _ _ _ _ _ _ Hc). intros d. unfold dec_sym, dec_freq. by rewrite decode_bin_eq by lia.
  - destruct Hsym as (Hl & Hv). destruct (bit_coded e F M B (v =? 1) logp Hok Hl) as (e' & F' & M' & Hrun & Hc).
    exists e', F', M', B. split; [done|]. replace (b2z (v =? 1)) with v in Hc by (destruct (Z.eqb_spec v 1); cbn; lia). exact Hc.
  - destruct (icdf_coded e F M B icdf ftb v Hok Hsym) as (e' & F' & M' & H). by exists e', F', M', B.
  - destruct (icdf_coded e F M B icdf ftb v Hok Hsym) as (e' & F' & M' & H). by exists e', F', M', B.
  - destruct Hsym as (Hft & Hv). by apply uint_coded.
  - destruct Hsym as (Hb & Hv). destruct (raw_coded e F M B v bits Hok Hb Hv) as (e' & M' & B' & H). by exists e', F, M', B'.
Qed.

Lemma coded_nil e F M B : enc_ok e F M B -> coded (dec_run []) [] e F M B e F M B.
Proof.
  intros Hok. split; [done|done|lia| |by intros []]. intros He. split; [done|]. intros Hcl. split; [done|].
  intros P _ Hcon Hraw. split; [done|]. split; [done|]. intros d n Hs Hr. by exists d, n.
Qed.

Lemma run_coded syms : forall e F M B, enc_ok e F M B -> Forall (fun s => sym_ok s.1 s.2) syms ->
  exists e' F' M' B', enc_run e syms = Ok e' /\ coded (dec_run syms.*1) syms.*2 e F M B e' F' M' B'.
Proof.
  induction syms as [|[sh v] syms IH]; intros e F M B Hok Hall.
  - exists e, F, M, B. split; [done|]. by apply coded_nil.
  - inversion Hall as [|? ? Hs Hrest]; subst. cbn [enc_run fmap list_fmap fst snd] in *.
    destruct (sym_coded e F M B sh v Hok Hs) as (e1 & F1 & M1 & B1 & -> & Hc1). rewrite bind_Ok.
    destruct (IH e1 F1 M1 B1 (cd_ok _ _ _ _ _ _ _ _ _ _ Hc1) Hrest) as (e2 & F2 & M2 & B2 & Hrun & Hc2).
    exists e2, F2, M2, B2. split; [done|]. eapply coded_bind; [exact Hc1|exact Hc2|].
    intros d d1 d2 H1 H2. cbn [dec_run]. by rewrite H1, bind_Ok, H2, bind_Ok.
Qed.

(** ** Closing the stream: the code *)

Lemma round_up_bits x k : 0 <= k < 32 -> 0 <= x -> x + (2 ^ k - 1) < 2 ^ 32 ->
  exists q, Z.land (wrapping_add 32 x (2 ^ k - 1)) (unot (2 ^ k - 1)) = q * 2 ^ k /\ x <= q * 2 ^ k <= x + (2 ^ k - 1).
Proof.
  intros Hk Hx Hfit. pose proof (Z.pow_pos_nonneg 2 k ltac:(lia) ltac:(lia)) as Hp. set (y := x + (2 ^ k - 1)) in *.
  assert (wrapping_add 32 x (2 ^ k - 1) = y) as -> by (unfold wrapping_add, wrap; apply Z.mod_small; lia).
  assert (unot (2 ^ k - 1) = Z.shiftl (Z.ones (32 - k)) k) as ->.
  { unfold unot. rewrite Z.shiftl_mul_pow2, Z.ones_equiv by lia. rewrite <- Z.sub_1_r, Z.mul_sub_distr_r, <- Z.pow_add_r by lia.
    replace (32 - k + k) with 32 by lia. lia. }
  exists (y / 2 ^ k). split.
  - rewrite <- Z.shiftr_div_pow2, <- Z.shiftl_mul_pow2 by lia. apply Z.bits_inj'. intros i Hi.
    rewrite Z.land_spec, !Z.shiftl_spec, Z.testbit_ones by lia. destruct (Z.ltb_spec i k).
    + rewrite (proj2 (Z.leb_gt 0 (i - k))) by lia. rewrite (Z.testbit_neg_r (Z.shiftr y k)) by lia. apply andb_false_r.
    + rewrite (proj2 (Z.leb_le 0 (i - k))) by lia. rewrite Z.shiftr_spec by lia. replace (i - k + k) with i by lia.
      destruct (Z.ltb_spec (i - k) (32 - k)); cbn [andb]; [apply andb_true_r|].
      rewrite (testbit_above y 32 i) by lia. done.
  - pose proof (Z.div_mod y (2 ^ k) ltac:(lia)). pose proof (Z.mod_pos_bound y (2 ^ k) ltac:(lia)). lia.
Qed.

Lemma final_code_ok val rng : 2 ^ 23 < rng <= 2 ^ 31 -> 0 <= val -> val + rng < 2 ^ 32 ->
  exists l q, final_code val rng = Ok (l, q * 2 ^ (31 - l)) /\ 0 <= l <= 9 /\ l <= 33 - ec_ilog rng /\
    val <= q * 2 ^ (31 - l) /\ q * 2 ^ (31 - l) + 2 ^ (31 - l) <= val + rng.
Proof.
  intros Hr Hv Hs. destruct (ilog_bounds rng ltac:(lia)) as (Hl & Hlo & Hhi).
  assert (24 <= ec_ilog rng) as Hl24.
  { destruct (Z.lt_ge_cases (ec_ilog rng) 24); [|lia]. assert (2 ^ ec_ilog rng <= 2 ^ 23) by (apply Z.pow_le_mono_r; lia). lia. }
  unfold final_code. unfold EC_CODE_BITS. set (l := 32 - ec_ilog rng). replace (ec_ilog rng - 1) with (31 - l) in Hlo by lia.
  assert (2 ^ (31 - l) = 2 * 2 ^ (30 - l)) as Hhalf by (rewrite <- (Z.pow_succ_r 2 (30 - l)) by lia; f_equal; lia).
  pose proof (Z.pow_pos_nonneg 2 (30 - l) ltac:(lia) ltac:(lia)) as Hpp.
  unfold ushr. rewrite (proj2 (Z.leb_le 0 l)), (proj2 (Z.ltb_lt l 32)) by lia. cbn [andb]. rewrite bind_Ok.
  assert (Z.shiftr (EC_CODE_TOP - 1) l = 2 ^ (31 - l) - 1) as ->.
  { change (EC_CODE_TOP - 1) with (Z.ones 31). rewrite Z.shiftr_div_pow2, Z.ones_div_pow2 by lia. rewrite Z.ones_equiv. lia. }
  destruct (round_up_bits val (31 - l)) as (q & -> & Hq); [lia|lia|lia|].
  rewrite (Z.lor_comm (q * _)), lor_shifted by lia.
  assert (wrapping_add 32 val rng = val + rng) as -> by (unfold wrapping_add, wrap; apply Z.mod_small; lia).
  destruct (Z.leb_spec (val + rng) (2 ^ (31 - l) - 1 + q * 2 ^ (31 - l))) as [Hover|Hfits].
  - assert (Z.shiftr (2 ^ (31 - l) - 1) 1 = 2 ^ (30 - l) - 1) as ->.
    { rewrite Z.shiftr_div_pow2 by lia. change (2 ^ 1) with 2. rewrite Hhalf.
      replace (2 * 2 ^ (30 - l) - 1) with (1 + (2 ^ (30 - l) - 1) * 2) by lia. rewrite Z.div_add by lia. done. }
    destruct (round_up_bits val (30 - l)) as (q' & -> & Hq'); [lia|lia|lia|].
    exists (l + 1), q'. replace (31 - (l + 1)) with (30 - l) by lia. split; [done|]. lia.
  - exists l, q. split; [done|]. lia.
Qed.

(** What [put_code] leaves: the digits, with the rest of the code after them. *)
Record put (e : RangeEncoder) (F M B : bytes) (c n : Z) (e' : RangeEncoder) (F' M' : bytes) (c' : Z) : Prop := {
  pu_layout : layout e' F' M' B;
  pu_same : same_code e e';
  pu_pend : pend_ok e';
  pu_clean : e_error e' = 0 -> e_error e = 0 /\
    be_dec (digits e' F') * 2 ^ 31 + c' = (be_dec (digits e F) * 2 ^ 31 + c) * 256 ^ n /\
    len (digits e' F') = len (digits e F) + n /\ (bytes_ok F -> bytes_ok F');
  pu_room : e_error e = 0 -> len (digits e F) + n + len B <= len (e_buf e) -> e_error e' = 0
}.

Lemma emitted_put e F M B c e1 F1 M1 : layout e F M B -> 0 <= c -> emitted e F M B (c / 2 ^ 23) e1 F1 M1 ->
  put e F M B c 1 e1 F1 M1 (c mod 2 ^ 23 * 256).
Proof.
  intros HL Hc [L S P _ C R _ _]. split; [done|done|done| |].
  - intros He. destruct (C He) as (He0 & Hbe & Hlen & Hby). split; [done|]. unfold digits. rewrite Hbe. split; [|done].
    pose proof (Z.div_mod c (2 ^ 23) ltac:(lia)). change (2 ^ 31) with (2 ^ 23 * 256). lia.
  - intros He0 Hroom. rewrite R; [done|]. unfold digits in Hroom. rewrite (ly_buf _ _ _ _ HL), !len_app in Hroom.
    pose proof (len_nonneg M). lia.
Qed.

Lemma put_trans e F M B c n e1 F1 M1 c1 m e2 F2 M2 c2 : 0 <= n -> 0 <= m ->
  put e F M B c n e1 F1 M1 c1 -> put e1 F1 M1 B c1 m e2 F2 M2 c2 -> put e F M B c (n + m) e2 F2 M2 c2.
Proof.
  intros Hn Hm [L1 S1 P1 C1 R1] [L2 S2 P2 C2 R2]. split; [done|by eapply same_code_trans|done| |].
  - intros He2. destruct (C2 He2) as (He1 & Hb2 & Hl2 & Hy2). destruct (C1 He1) as (He & Hb1 & Hl1 & Hy1).
    split; [done|]. split; [rewrite Hb2, Hb1, Z.pow_add_r by lia; ring|]. split; [lia|auto].
  - intros He Hroom. assert (e_error e1 = 0) as He1 by (apply R1; [done|lia]). destruct (C1 He1) as (_ & _ & Hl1 & _).
    apply R2; [done|]. destruct S1 as (_ & _ & _ & _ & _ & ->). lia.
Qed.

Lemma put_code_puts fuel : forall e F M B l c, layout e F M B -> pend_ok e -> 0 <= c < 2 ^ 32 ->
  (e_rem e = -1 \/ e_rem e = 255 -> c < 2 ^ 31) -> -8 < l -> l <= 8 * Z.of_nat fuel ->
  exists n e' F' M' c', put_code (S fuel) e l c = Ok (e', l - 8 * n) /\ put e F M B c n e' F' M' c' /\
    0 <= n /\ -8 < l - 8 * n <= 0 /\ (0 < n -> 0 < l) /\ 0 <= c' /\ (0 < n -> c' < 2 ^ 31) /\ (n = 0 -> c' = c).
Proof.
  induction fuel as [|fuel IH]; intros e F M B l c HL Hp Hc Hst Hl Hf; cbn [put_code].
  { rewrite (proj2 (Z.ltb_ge 0 l)) by lia. exists 0, e, F, M, c. rewrite Z.sub_0_r. split; [done|]. split; [|lia].
    split; [done|apply same_code_refl|done| |done]. intros He. change (256 ^ 0) with 1. rewrite Z.mul_1_r, Z.add_0_r. done. }
  destruct (Z.ltb_spec 0 l) as [Hpos|Hneg].
  - destruct (code_split c Hc) as (Hc1 & Hc2). rewrite Hc1, Hc2.
    pose proof (Z.mod_pos_bound c (2 ^ 23) ltac:(lia)). pose proof (Z.div_mod c (2 ^ 23) ltac:(lia)).
    destruct (carry_out_emits e F M B (c / 2 ^ 23) HL Hp) as (e1 & F1 & M1 & -> & Hem).
    { split; [apply Z.div_pos; lia|apply Z.div_lt_upper_bound; lia]. }
    { intros H256. destruct Hp as (Hrem & _). assert (e_rem e <> -1 /\ e_rem e <> 255) by (split; intros Hx; lia). lia. }
    rewrite bind_Ok. pose proof (emitted_put e F M B c e1 F1 M1 HL ltac:(lia) Hem) as Hput.
    destruct (IH e1 F1 M1 B (l - 8) (c mod 2 ^ 23 * 256)) as (n & e2 & F2 & M2 & c' & Hrun & Hput2 & Hn & Hl2 & Hn0 & Hc0 & Hc3 & Hc4);
      [apply Hem|apply Hem|lia|lia|lia|lia|].
    exists (1 + n), e2, F2, M2, c'. replace (l - 8 * (1 + n)) with (l - 8 - 8 * n) by lia. split; [exact Hrun|].
    split; [eapply put_trans; [lia|done|exact Hput|exact Hput2]|]. split; [lia|]. split; [lia|]. split; [lia|]. split; [done|].
    split; [|lia]. intros _. destruct (decide (n = 0)) as [->|]; [|apply Hc3; lia]. rewrite Hc4 by done. lia.
  - exists 0, e, F, M, c. rewrite Z.sub_0_r. split; [done|]. split; [|lia].
    split; [done|apply same_code_refl|done| |done]. intros He. change (256 ^ 0) with 1. rewrite Z.mul_1_r, Z.add_0_r. done.
Qed.

(** The digits that wait for a carry go out once none can come. *)
Lemma flush_digits e F M B : layout e F M B -> pend_ok e ->
  exists e' F' M', (if (0 <=? e_rem e) || (0 <? e_ext e) then carry_out e 0 else mret e) = Ok e' /\ layout e' F' M' B /\
    same_code e e' /\
    (e_error e' = 0 -> e_error e = 0 /\ be_dec F' = be_dec (digits e F) /\ len F' = len (digits e F) /\ (bytes_ok F -> bytes_ok F')) /\
    (e_error e = 0 -> len (digits e F) + len B <= len (e_buf e) -> e_error e' = 0).
Proof.
  intros HL Hp. destruct ((0 <=? e_rem e) || (0 <? e_ext e)) eqn:Hsome.
  - destruct (carry_out_emits e F M B 0 HL Hp ltac:(lia) ltac:(lia)) as (e' & F' & M' & Hrun & [L S P _ C R T _]).
    exists e', F', M'. split; [done|]. split; [done|]. split; [done|]. destruct T as (Hx & Hr); [done|]. split.
    + intros He. destruct (C He) as (He0 & Hbe & Hlen & Hby). split; [done|]. unfold pend in Hbe, Hlen. rewrite Hx, Hr in Hbe, Hlen.
      change ((if 0 <=? Z.land 0 EC_SYM_MAX then [Z.land 0 EC_SYM_MAX] else []) ++ replicate (Z.to_nat 0) 255) with [0] in Hbe, Hlen.
      rewrite be_dec_snoc in Hbe. rewrite len_app in Hlen. change (len [0]) with 1 in Hlen. split; [|split; [|done]].
      * unfold digits, pend. lia.
      * unfold digits, pend. lia.
    + intros He0 Hroom. rewrite R; [done|]. unfold digits in Hroom. rewrite (ly_buf _ _ _ _ HL), !len_app in Hroom. lia.
  - apply orb_false_iff in Hsome as (Hr & Hx). exists e, F, M. split; [done|]. split; [done|]. split; [apply same_code_refl|].
    assert (digits e F = F) as Hd.
    { unfold digits, pend. rewrite Hr. replace (Z.to_nat (e_ext e)) with 0%nat by lia. apply app_nil_r. }
    rewrite Hd. done.
Qed.

(** The front of the packet after [done]: [front] is a whole number of bytes whose
    first bits hold a code of the interval, with [free] bits left at its end. *)
Record closed (e : RangeEncoder) (F M B : bytes) (n free : Z) (e' : RangeEncoder) (F' M' : bytes) : Prop := {
  cl_layout : layout e' F' M' B;
  cl_same : same_code e e';
  cl_free : 0 <= n <= 2 /\ 0 <= free < 8 /\ free <= 8 * n /\ 8 * n - free <= 33 - ec_ilog (e_rng e);
  cl_clean : e_error e' = 0 -> e_error e = 0 /\ len F' = len (digits e F) + n /\ (bytes_ok F -> bytes_ok F') /\
    exists y k, be_dec F' * 2 ^ 31 = y * 256 ^ n /\ be_dec F' = k * 2 ^ free /\
      low e F <= y /\ y + 2 ^ (31 - 8 * n + free) <= low e F + e_rng e;
  cl_room : e_error e = 0 -> len (digits e F) + n + len B <= len (e_buf e) -> e_error e' = 0
}.

Lemma close_front e F M B : enc_ok e F M B ->
  exists n free e' F' M' e1 l c, final_code (e_val e) (e_rng e) = Ok (l, c) /\ put_code 6 e l c = Ok (e1, - free) /\
    (if (0 <=? e_rem e1) || (0 <? e_ext e1) then carry_out e1 0 else mret e1) = Ok e' /\
    closed e F M B n free e' F' M'.
Proof.
  intros [HL [Hp Hr (Hv & Hs) Hst] Hnorm _].
  destruct (final_code_ok (e_val e) (e_rng e) ltac:(lia) Hv Hs) as (l & q & Hfc & Hl & Hll & Hqv & Hqr).
  pose proof (Z.pow_pos_nonneg 2 (31 - l) ltac:(lia) ltac:(lia)) as Hp2. set (c := q * 2 ^ (31 - l)) in *.
  destruct (put_code_puts 5 e F M B l c HL Hp) as (n & e1 & F1 & M1 & c' & Hrun & [L1 S1 P1 C1 R1] & Hn & Hfree & Hn0 & Hc0 & Hc31 & Hceq);
    [lia|intros Hx%Hst; lia|lia|lia|].
  destruct (flush_digits e1 F1 M1 B L1 P1) as (e2 & F2 & M2 & Hfl & L2 & S2 & C2 & R2).
  exists n, (8 * n - l), e2, F2, M2, e1, l, c. replace (- (8 * n - l)) with (l - 8 * n) by lia.
  split; [done|]. split; [done|]. split; [done|].
  assert (31 - 8 * n + (8 * n - l) = 31 - l) as Hexp by lia. split; rewrite ?Hexp.
  - done.
  - by eapply same_code_trans.
  - lia.
  - intros He2. destruct (C2 He2) as (He1 & Hb2 & Hl2 & Hy2). destruct (C1 He1) as (He & Hb1 & Hl1 & Hy1).
    split; [done|]. split; [lia|]. split; [auto|].
    set (y := be_dec (digits e F) * 2 ^ 31 + c) in *. rewrite <- Hb2 in Hb1.
    assert (2 ^ 31 = 2 ^ l * 2 ^ (31 - l)) as Hsplit by (rewrite <- Z.pow_add_r by lia; f_equal; lia).
    assert (y = (be_dec (digits e F) * 2 ^ l + q) * 2 ^ (31 - l)) as Hy by (unfold y, c; rewrite Hsplit; ring).
    assert (256 ^ n = 2 ^ (8 * n - l) * 2 ^ l) as Hpn by (rewrite pow_bytes, <- Z.pow_add_r by lia; f_equal; lia).
    set (k := (be_dec (digits e F) * 2 ^ l + q) * 2 ^ (8 * n - l)) in *.
    assert (y * 256 ^ n = k * 2 ^ 31) as Hyk by (rewrite Hy, Hpn, Hsplit; unfold k; ring).
    assert (c' = 0 /\ be_dec F2 = k) as (Hc' & Hk).
    { assert (0 <= c' < 2 ^ 31) as Hc'. { destruct (decide (n = 0)) as [->|]; [|specialize (Hc31 ltac:(lia)); lia].
        rewrite Hceq by done. split; [lia|]. assert (l = 0) as -> by lia. change (31 - 0) with 31 in *. lia. }
      rewrite Hyk in Hb1. destruct (digit_unique c' 0 (be_dec F2) k (2 ^ 31)); lia. }
    exists y, (be_dec (digits e F) * 2 ^ l + q). split; [lia|]. split; [done|]. unfold low, y. lia.
  - intros He Hroom. assert (e_error e1 = 0) as He1 by (apply R1; [done|lia]). destruct (C1 He1) as (_ & _ & Hl1 & _).
    apply R2; [done|]. destruct S1 as (_ & _ & _ & _ & _ & ->). lia.
Qed.

(** ** Closing the stream: the raw bits *)

Lemma put_raw_left n : forall e w u e' w' u', put_raw n e w u = Ok (e', w', u') -> 0 <= u -> u' = u mod 8.
Proof.
  induction n as [|n IH]; intros e w u e' w' u' Hrun Hu; [done|]. cbn [put_raw] in Hrun. unfold EC_SYM_BITS in Hrun.
  destruct (Z.leb_spec 8 u).
  - destruct (write_byte_at_end e (Z.land w EC_SYM_MAX)) as [e1| |]; [|done..]. rewrite bind_Ok in Hrun.
    rewrite (IH _ _ _ _ _ _ Hrun) by lia. replace u with (u - 8 + 1 * 8) at 2 by lia. by rewrite Z.mod_add.
  - injection Hrun as -> -> ->. symmetry. apply Z.mod_small. lia.
Qed.

Lemma clear_hole F M B : clear_range (F ++ M ++ B) (len F) (len F + len M) = Ok (F ++ replicate (length M) 0 ++ B).
Proof.
  pose proof (len_nonneg F). pose proof (len_nonneg M). pose proof (len_nonneg B). unfold clear_range.
  rewrite slice_Ok, bind_Ok by (rewrite ?len_app; lia). rewrite (sub_app_mid F M B) by done.
  apply copy_at_mid; [done|]. by rewrite len_replicate.
Qed.

Lemma set_at_mid {E} (F : bytes) x B i v : i = len F -> @set_at E Z (F ++ x :: B) i v = Ok (F ++ v :: B).
Proof. intros ->. apply (copy_at_mid F [x] [v] B); done. Qed.

Lemma idx_at_mid {E} (F : bytes) x B i : i = len F -> @idx E Z (F ++ x :: B) i = Ok x.
Proof.
  intros ->. apply idx_lookup; [apply len_nonneg|]. unfold len. rewrite Nat2Z.id, lookup_app_r, Nat.sub_diag by lia. done.
Qed.

Lemma free_bits k b hi free w u : 0 <= free < 8 -> 0 <= u <= free -> 0 <= w < 2 ^ u -> 0 <= b < 256 ->
  hi * 256 + b = k * 2 ^ free -> Z.lor b w = b + w /\ b + w < 256 /\ (hi * 256 + b + w) mod 2 ^ u = w /\ w < 2 ^ free.
Proof.
  intros Hf Hu Hw Hb Heq. assert (256 = 2 ^ (8 - free) * 2 ^ free) as H256 by (rewrite <- Z.pow_add_r by lia; by replace (8 - free + free) with 8 by lia).
  set (j := k - hi * 2 ^ (8 - free)). assert (b = j * 2 ^ free) as Hbj by (unfold j; rewrite Z.mul_sub_distr_r, <- Z.mul_assoc, <- H256; lia).
  pose proof (Z.pow_pos_nonneg 2 free ltac:(lia) ltac:(lia)) as Hpf. assert (2 ^ u <= 2 ^ free) as Huf by (apply Z.pow_le_mono_r; lia).
  assert (j < 2 ^ (8 - free)) as Hj by nia. assert (Z.lor b w = b + w) as Hor by (rewrite Hbj, Z.lor_comm, (lor_shifted w j free) by lia; ring). split; [done|]. split; [nia|]. split; [|lia].
  rewrite Heq, Z.add_comm. assert (2 ^ free = 2 ^ (free - u) * 2 ^ u) as -> by (rewrite <- Z.pow_add_r by lia; by replace (free - u + u) with free by lia).
  rewrite Z.mul_assoc, Z.mod_add by lia. apply Z.mod_small. lia.
Qed.

(** What [put_last] leaves in front of the back bytes: the front, with at most its
    free bits set, and then the rest of the hole, ending in the last raw bits. *)
Definition topped (F : bytes) (free w u : Z) (Q R : bytes) : Prop :=
  bytes_ok (Q ++ R) /\ len Q = len F /\ (exists x, be_dec Q = be_dec F + x /\ 0 <= x < 2 ^ free) /\ be_dec (Q ++ R) mod 2 ^ u = w.

Lemma topped_hole F free w u m : bytes_ok F -> 0 <= free -> 0 <= u < 8 -> 0 <= w < 2 ^ u ->
  topped F free w u F (replicate m 0 ++ if u =? 0 then [] else [w]).
Proof.
  intros HF Hf Hu Hw. assert (2 ^ u < 2 ^ 8) by (apply Z.pow_lt_mono_r; lia). pose proof (Z.pow_pos_nonneg 2 free). split; [|split; [done|split]].
  - apply bytes_ok_app. split; [done|]. apply bytes_ok_app. split; [apply Forall_replicate; unfold is_byte; lia|].
    destruct (u =? 0); [constructor|]. constructor; [unfold is_byte; lia|constructor].
  - exists 0. lia.
  - destruct (Z.eqb_spec u 0) as [->|Hne].
    + change (2 ^ 0) with 1 in *. rewrite Z.mod_1_r. lia.
    + rewrite !app_assoc, be_dec_snoc. assert (256 = 2 ^ (8 - u) * 2 ^ u) as -> by (rewrite <- Z.pow_add_r by lia; by replace (8 - u + u) with 8 by lia).
      rewrite Z.mul_assoc, Z.add_comm, Z.mod_add by lia. apply Z.mod_small. lia.
Qed.

Lemma topped_front F b free w u k : bytes_ok (F ++ [b]) -> 0 <= free < 8 -> 0 <= u <= free -> 0 <= w < 2 ^ u ->
  be_dec (F ++ [b]) = k * 2 ^ free -> topped (F ++ [b]) free w u (F ++ [Z.lor b w]) [].
Proof.
  intros HF Hf Hu Hw Hk. apply bytes_ok_app in HF as (HF & Hb). inversion Hb as [|? ? Hbb _]; subst. unfold is_byte in Hbb.
  rewrite be_dec_snoc in Hk. destruct (free_bits k b (be_dec F) free w u Hf Hu Hw Hbb Hk) as (-> & Hlt & Hmod & Hwf).
  unfold topped. rewrite app_nil_r, !be_dec_snoc. split.
  - apply bytes_ok_app. split; [done|]. constructor; [unfold is_byte; lia|constructor].
  - split; [rewrite !len_app; done|]. split; [exists w; lia|]. by rewrite Z.add_assoc.
Qed.

Lemma put_last_spec e F M B free w u : layout e F M B -> 0 <= free < 8 -> 0 <= w < 2 ^ u -> 0 <= u < 8 ->
  exists e', put_last e (- free) w u = Ok e' /\ len (e_buf e') = len (e_buf e) /\
    (e_error e' = 0 -> e_error e = 0 /\ (bytes_ok F -> forall k, be_dec F = k * 2 ^ free ->
       exists Q R, e_buf e' = Q ++ R ++ B /\ topped F free w u Q R)) /\
    (e_error e = 0 -> u <= free + 8 * len M -> (F = [] -> free = 0) -> e_error e' = 0).
Proof.
  intros HL Hf Hw Hu. unfold put_last, mret, res_ret. destruct (Z.eqb_spec (e_error e) 0) as [He|He]; cbn [negb].
  2: { exists e. split; [done|]. split; [done|]. split; [done|]. done. }
  pose proof (layout_room _ _ _ _ HL) as Hroom. destruct HL as [Hb Hs Ho Hend]. pose proof (len_nonneg F). pose proof (len_nonneg M). pose proof (len_nonneg B).
  assert (len (e_buf e) = len (F ++ replicate (length M) 0 ++ B)) as Hlen by (rewrite Hb, !len_app, len_replicate; done).
  replace (e_storage e - e_end_offs e) with (len F + len M) by lia. rewrite Hb, Ho, clear_hole, bind_Ok.
  cbn [enc_output e_storage e_end_offs e_offs e_error]. rewrite He, <- Hb.
  destruct (Z.ltb_spec 0 u) as [Hupos|Hu0].
  - destruct (Z.leb_spec (e_storage e) (e_end_offs e)) as [Hnone|Hsome].
    { eexists. split; [done|]. split; [cbn; congruence|]. split; [done|]. intros _ Hx Hy. exfalso. assert (F = []) as HF by (destruct F; [done|rewrite len_cons in *; pose proof (len_nonneg F); lia]).
      specialize (Hy HF). lia. }
    rewrite Z.opp_involutive. destruct M as [|m M _] using rev_ind.
    + change (len (@nil Z)) with 0 in *. destruct F as [|b F _] using rev_ind; [change (len (@nil Z)) with 0 in *; lia|].
      rewrite (proj2 (Z.leb_le (e_storage e) (len (F ++ [b]) + e_end_offs e))) by lia. cbn [andb length replicate app] in *.
      rewrite len_app in *. change (len [b]) with 1 in *. rewrite <- app_assoc. cbn [app].
      destruct (Z.ltb_spec free u) as [Hshort|Hfits].
      * unfold ushl. rewrite (proj2 (Z.leb_le 0 free)), (proj2 (Z.ltb_lt free 32)) by lia. cbn [andb]. rewrite !bind_Ok.
        rewrite idx_at_mid, bind_Ok, set_at_mid, bind_Ok by lia. eexists. split; [done|]. split; [|split; [done|lia]].
        cbn [enc_output e_buf]. rewrite Hb. len_lia.
      * rewrite bind_Ok, idx_at_mid, bind_Ok, set_at_mid, bind_Ok by lia. eexists. split; [done|]. split; [cbn [enc_output e_buf]; rewrite Hb; len_lia|].
        split; [|done]. intros _. split; [done|]. intros HF k Hk. exists (F ++ [Z.lor b (wrap 8 w)]), []. split; [by rewrite <- app_assoc|].
        assert (2 ^ u < 2 ^ 8) by (apply Z.pow_lt_mono_r; lia). unfold wrap. rewrite Z.mod_small by lia.
        apply (topped_front F b free w u k); [done|done|lia|done|done].
    + pose proof (len_nonneg M). rewrite len_app in *. change (len [m]) with 1 in *. rewrite (proj2 (Z.leb_gt (e_storage e) (len F + e_end_offs e))) by lia.
      cbn [andb]. rewrite bind_Ok. rewrite length_app, replicate_add. cbn [length replicate].
      set (Z0 := replicate (length M) 0) in *. assert (len Z0 = len M) as HZ by (unfold Z0; apply len_replicate).
      replace (F ++ (Z0 ++ [0]) ++ B) with ((F ++ Z0) ++ 0 :: B) by (by rewrite <- !app_assoc).
      rewrite idx_at_mid, bind_Ok, set_at_mid, bind_Ok by (rewrite len_app; lia). rewrite Z.lor_0_l.
      assert (2 ^ u < 2 ^ 8) by (apply Z.pow_lt_mono_r; lia). unfold wrap. rewrite Z.mod_small by lia.
      eexists. split; [done|]. split; [cbn [enc_output e_buf]; rewrite Hb, !len_app, len_cons, HZ; change (len [m]) with 1; lia|]. split; [|done].
      intros _. split; [done|]. intros HF k _. exists F, (Z0 ++ [w]). split; [cbn [enc_output e_buf]; by rewrite <- !app_assoc|].
      pose proof (topped_hole F free w u (length M) HF ltac:(lia) ltac:(lia) Hw) as Ht. by rewrite (proj2 (Z.eqb_neq u 0)) in Ht by lia.
  - eexists. split; [done|]. split; [cbn [enc_output e_buf]; done|]. split; [|done]. intros _. split; [done|].
    intros HF k _. exists F, (replicate (length M) 0). split; [done|].
    pose proof (topped_hole F free w u (length M) HF ltac:(lia) ltac:(lia) Hw) as Ht. rewrite (proj2 (Z.eqb_eq u 0)) in Ht by lia.
    by rewrite app_nil_r in Ht.
Qed.

(** ** The packet *)

Lemma byte_at_app Q R k : byte_at (Q ++ R) (length Q + k) = byte_at R k.
Proof. unfold byte_at. rewrite app_nth2 by lia. f_equal. lia. Qed.

Lemma code_of_prefix Q : forall R, code (Q ++ R) (length Q) = be_dec Q.
Proof.
  induction Q as [|b Q IH] using rev_ind; intros R; [done|].
  rewrite length_app, Nat.add_1_r. cbn [code]. rewrite <- app_assoc, IH, be_dec_snoc.
  rewrite <- (Nat.add_0_r (length Q)), byte_at_app. done.
Qed.

Lemma code_app Q R k : code (Q ++ R) (length Q + k) = be_dec Q * 256 ^ Z.of_nat k + code R k.
Proof.
  induction k as [|k IH].
  - rewrite Nat.add_0_r, code_of_prefix. change (code R 0) with 0. change (256 ^ Z.of_nat 0) with 1. lia.
  - rewrite Nat.add_succ_r. cbn [code]. rewrite IH, byte_at_app, Nat2Z.inj_succ, Z.pow_succ_r by lia. ring.
Qed.

Lemma code_bound R k : bytes_ok R -> 0 <= code R k < 256 ^ Z.of_nat k.
Proof.
  intros HR. induction k as [|k IH]; [cbn; lia|]. cbn [code]. pose proof (byte_at_ok R k HR).
  rewrite Nat2Z.inj_succ, Z.pow_succ_r by lia. lia.
Qed.

(** The front the encoder closed, whatever follows it, is in the interval. *)
Lemma closed_contains e F M B n free e1 F1 M1 w u Q R B2 : closed e F M B n free e1 F1 M1 -> e_error e1 = 0 ->
  topped F1 free w u Q R -> bytes_ok B2 -> contains e F (Q ++ R ++ B2).
Proof.
  intros [_ _ (Hn & Hf & Hfn & _) Hcl _] He (Hby & Hlen & (x & HQ & Hx) & _) HB2.
  destruct (Hcl He) as (_ & HF1 & _ & y & k & Hy & _ & Hlow & Hhigh). apply bytes_ok_app in Hby as (_ & HR).
  assert (bytes_ok (R ++ B2)) as HRB by (apply bytes_ok_app; done).
  unfold contains, read_code. set (K := len (digits e F)) in *. pose proof (len_nonneg (digits e F)) as HK. fold K in HK.
  replace (4 + Z.to_nat K)%nat with (length Q + Z.to_nat (4 - n))%nat by (unfold len in Hlen, HF1; lia).
  rewrite code_app, Z2Nat.id by lia. pose proof (code_bound (R ++ B2) (Z.to_nat (4 - n)) HRB) as HT.
  rewrite Z2Nat.id in HT by lia. set (T := code (R ++ B2) _) in *.
  assert (256 ^ (4 - n) * 256 ^ n = 2 * 2 ^ 31) as Hp by (rewrite <- Z.pow_add_r by lia; by replace (4 - n + n) with 4 by lia).
  pose proof (Z.pow_pos_nonneg 256 n ltac:(lia) ltac:(lia)) as Hpn.
  assert (be_dec F1 * 256 ^ (4 - n) = 2 * y) as Hy2.
  { apply (Z.mul_reg_r _ _ (256 ^ n)); [lia|]. rewrite <- Z.mul_assoc, Hp. lia. }
  assert (2 ^ free * 256 ^ (4 - n) = 2 * 2 ^ (31 - 8 * n + free)) as Hroom.
  { rewrite pow_bytes, <- Z.pow_add_r, <- (Z.pow_succ_r 2) by lia. f_equal. lia. }
  rewrite HQ, Z.mul_add_distr_r, Hy2. replace (2 * y + x * 256 ^ (4 - n) + T) with (x * 256 ^ (4 - n) + T + y * 2) by ring.
  rewrite Z.div_add by lia. assert (0 <= x * 256 ^ (4 - n) + T < 2 * 2 ^ (31 - 8 * n + free)) as Hsum by nia.
  assert (0 <= (x * 256 ^ (4 - n) + T) / 2 < 2 ^ (31 - 8 * n + free)) by (split; [apply Z.div_pos; lia|apply Z.div_lt_upper_bound; lia]). lia.
Qed.

Lemma topped_holds F free w u Q R B : topped F free w u Q R -> bytes_ok B -> 0 <= u ->
  be_dec (Q ++ R ++ B) mod 2 ^ (8 * len B + u) = raw B w.
Proof.
  intros (_ & _ & _ & Hw) HB Hu. rewrite app_assoc, be_dec_app. pose proof (be_dec_bound B HB) as Hb. pose proof (len_nonneg B).
  rewrite mod_split, <- pow_bytes by lia. pose proof (Z.pow_pos_nonneg 256 (len B) ltac:(lia) ltac:(lia)).
  rewrite (Z.add_comm (be_dec (Q ++ R) * _)), Z.mod_add, (Z.mod_small (be_dec B)) by lia. rewrite Z.div_add, Z.div_small, Z.add_0_l, Hw by lia. done.
Qed.

(** [done] on any state: it always closes the packet, the packet suits the state
    unless the error is marked, and it is not when the bits told fit. *)
Lemma done_spec e F M B : enc_ok e F M B ->
  exists n e', done e = Ok (n, e') /\ len (e_buf e') = len (e_buf e) /\
    (e_error e' = 0 -> e_error e = 0 /\ (clean_ok e F B ->
       bytes_ok (e_buf e') /\ contains e F (e_buf e') /\ holds_raw e B (e_buf e'))) /\
    (clean_ok e F B -> enc_tell e <= 8 * len (e_buf e) -> e_error e' = 0).
Proof.
  intros Hok. destruct (close_front e F M B Hok) as (n & free & e2 & F2 & M2 & e1 & l & c & Hfc & Hpc & Hfl & Hcl).
  unfold done. rewrite Hfc, bind_Ok, Hpc, bind_Ok, Hfl, bind_Ok. destruct Hok as [_ _ _ ((Hu & Hu32) & Hw)].
  pose proof Hcl as [L2 (S1 & S2 & S3 & S4 & S5 & S6) (Hn & Hfree & Hfn & Hl) C2 R2].
  rewrite S4, S5. destruct (put_raw_spills 5 e2 F2 M2 B (e_end_window e) (e_nend_bits e) L2 Hw ltac:(lia)) as (e3 & M3 & B3 & w & u & Hpr & Hsp & Hu8).
  pose proof (put_raw_left _ _ _ _ _ _ _ Hpr Hu) as Hleft. rewrite Hpr, bind_Ok. destruct Hsp as [L3 S' (Hw3 & Hu3) C3 R3].
  destruct (put_last_spec e3 F2 M3 B3 free w u L3 ltac:(lia) Hw3 ltac:(lia)) as (e4 & -> & Hlen4 & C4 & R4). rewrite bind_Ok.
  destruct S' as (_ & _ & _ & _ & _ & S3'). eexists _, e4. split; [done|]. split; [congruence|]. split.
  - intros He4. destruct (C4 He4) as (He3 & H4). destruct (C3 He3) as (He2 & Hraw & Hbits & HB3). destruct (C2 He2) as (He & HF2 & HbF & y & k & Hy & Hk & Hlow).
    split; [done|]. intros [_ _ HF HB]. destruct (H4 (HbF HF) k Hk) as (Q & R & -> & Ht). specialize (HB3 HB). split; [|split].
    + rewrite app_assoc. apply bytes_ok_app. split; [apply Ht|done].
    + by eapply closed_contains.
    + unfold holds_raw, raw_value, raw_bits. rewrite <- Hraw, <- Hbits. apply (topped_holds F2 free w u); [done|done|lia].
  - intros [He Hb _ _] Htell. unfold enc_tell, ec_tell in Htell. unfold raw_bits in Hb.
    assert (e_error e2 = 0) as He2 by (apply R2; [done|lia]). destruct (C2 He2) as (_ & HF2 & _).
    pose proof (layout_room _ _ _ _ L2) as Hr2. rewrite (ly_storage _ _ _ _ L2), (ly_offs _ _ _ _ L2), (ly_end _ _ _ _ L2), S6 in Hr2.
    pose proof (Z.div_mod (e_nend_bits e) 8 ltac:(lia)) as Hdm. rewrite <- Hleft in Hdm.
    assert (e_error e3 = 0) as He3 by (rewrite R3; [done|lia]). destruct (C3 He3) as (_ & _ & Hbits & _).
    pose proof (layout_room _ _ _ _ L3) as Hr3. rewrite (ly_storage _ _ _ _ L3), (ly_offs _ _ _ _ L3), (ly_end _ _ _ _ L3), S3', S6 in Hr3.
    apply R4; [done|lia|]. intros ->. change (len (@nil Z)) with 0 in HF2. pose proof (len_nonneg (digits e F)). lia.
Qed.

(** What the callers compare at the two ends: the range and the bits used. *)
Definition in_step (e : RangeEncoder) (d : RangeDecoder) : Prop :=
  d_rng d = e_rng e /\ dec_tell d = enc_tell e /\ dec_tell_frac d = enc_tell_frac e.

Lemma synced_in_step e F P d : synced e F P d -> in_step e d.
Proof. intros [_ Hr Hb]. unfold in_step, dec_tell, enc_tell, dec_tell_frac, enc_tell_frac. by rewrite Hr, Hb. Qed.

(** C25. A packet of the range coder round trips.  For any buffer and any two runs of
    symbols and raw bits, each within what its operation asks, the encoder codes
    both and closes the packet without a panic and without changing the buffer's
    length; the error is not marked when the bits it tells before closing fit in
    the buffer; and when it is not marked a decoder over the packet reads back every
    symbol without an error, and at the end of each run agrees with the encoder on
    the range and on the bits used, whole and in eighths. *)
Theorem range_coder_roundtrip buf first rest : Forall (fun s => sym_ok s.1 s.2) (first ++ rest) ->
  exists e1 e2 n e3, enc_run (RangeEncoder_new buf) first = Ok e1 /\ enc_run e1 rest = Ok e2 /\ done e2 = Ok (n, e3) /\
    len (e_buf e3) = len buf /\
    (enc_tell e2 <= 8 * len buf -> e_error e3 = 0) /\
    (e_error e3 = 0 -> exists d d1 d2, RangeDecoder_new (e_buf e3) = Ok d /\
       dec_run first.*1 d = Ok (first.*2, d1) /\ in_step e1 d1 /\
       dec_run rest.*1 d1 = Ok (rest.*2, d2) /\ in_step e2 d2 /\ d_error d2 = 0).
Proof.
  intros (H1 & H2)%Forall_app. destruct (new_encoder_ok buf) as (Hok & Hclean).
  destruct (run_coded first _ _ _ _ Hok H1) as (e1 & F1 & M1 & B1 & Hr1 & [K1 L1 G1 C1 R1]).
  destruct (run_coded rest _ _ _ _ K1 H2) as (e2 & F2 & M2 & B2 & Hr2 & [K2 L2 G2 C2 R2]).
  destruct (done_spec e2 F2 M2 B2 K2) as (n & e3 & Hd & L3 & C3 & R3). exists e1, e2, n, e3.
  split; [done|]. split; [done|]. split; [done|]. split; [rewrite L3, L2, L1; done|]. split.
  - intros Htell. assert (e_nbits_total e2 - 33 <= 8 * len buf) as Hbits.
    { destruct K2 as [_ [_ Hrng _ _] _ _]. destruct (ilog_bounds (e_rng e2) ltac:(lia)). unfold enc_tell, ec_tell in Htell. lia. }
    assert (e_error e1 = 0) as He1 by (apply R1; [done|cbn [RangeEncoder_new e_buf]; lia]).
    destruct (C1 He1) as (_ & Hc1). destruct (Hc1 Hclean) as (Hcl1 & _).
    assert (e_error e2 = 0) as He2 by (apply R2; [done|rewrite L1; done]).
    destruct (C2 He2) as (_ & Hc2). destruct (Hc2 Hcl1) as (Hcl2 & _). apply R3; [done|]. by rewrite L2, L1.
  - intros He3. destruct (C3 He3) as (He2 & H3). destruct (C2 He2) as (He1 & Hc2). destruct (C1 He1) as (_ & Hc1).
    destruct (Hc1 Hclean) as (Hcl1 & Hp1). destruct (Hc2 Hcl1) as (Hcl2 & Hp2). destruct (H3 Hcl2) as (HP & Hcon & Hraw).
    destruct (Hp2 _ HP Hcon Hraw) as (Hcon1 & Hraw1 & Hd2). destruct (Hp1 _ HP Hcon1 Hraw1) as (_ & _ & Hd1).
    destruct (new_decoder_synced buf _ HP) as (d & Hnew & Hs & Hr & Herr).
    destruct (Hd1 d 0 Hs Hr) as (d1 & n1 & Hrun1 & Hs1 & Hra1 & Herr1). destruct (Hd2 d1 n1 Hs1 Hra1) as (d2 & n2 & Hrun2 & Hs2 & _ & Herr2).
    exists d, d1, d2. split; [done|]. split; [done|]. split; [by eapply synced_in_step|]. split; [done|].
    split; [by eapply synced_in_step|congruence].
Qed.

(** ** An example *)

Definition thirds (fs : Z) : Z * Z := if fs <? 3 then (0, 3) else if fs <? 5 then (3, 5) else (5, 10).

Definition example_symbols : list (Shape * Z) :=
  [(Freq 10 thirds, 3); (Logp 3, 1); (Uint 100000, 70000); (Raw 3, 5); (Icdf [200; 100; 50; 0] 8, 2); (FreqBin 4 (fun s => (s, s + 1)), 15)].

Lemma example_symbols_ok : Forall (fun s => sym_ok s.1 s.2) example_symbols.
Proof.
  assert (icdf_ok [200; 100; 50; 0] 8 2) as Hicdf.
  { split; [lia|split; done| | |done].
    - intros i Hi. change (len _) with 4 in Hi. assert (i = 0 \/ i = 1 \/ i = 2 \/ i = 3) as [->|[->|[->| ->]]] by lia; split; done.
    - intros i Hi. change (len _) with 4 in Hi. assert (i = 1 \/ i = 2 \/ i = 3) as [->|[->| ->]] by lia; done. }
  apply Forall_cons; [|apply Forall_cons; [|apply Forall_cons; [|apply Forall_cons; [|apply Forall_cons; [exact Hicdf|apply Forall_cons; [|constructor]]]]]].
  - split; [split; done|]. split; [split; done|]. change (thirds _).2 with 5. intros fs Hfs. cbn [snd] in Hfs. unfold thirds.
    rewrite (proj2 (Z.ltb_ge fs 3)), (proj2 (Z.ltb_lt fs 5)) by lia. done.
  - cbn. lia.
  - cbn. lia.
  - cbn. lia.
  - split; [cbn; lia|]. split; [split; done|]. split; [split; done|]. cbn [fst snd]. intros fs Hfs. f_equal; lia.
Qed.

(** The packet of the example: nine bytes for six symbols, most of them the hole. *)
Lemma range_coder_roundtrip_witness :
  exists e3, e_error e3 = 0 /\ len (e_buf e3) = 9 /\
    exists d d2, RangeDecoder_new (e_buf e3) = Ok d /\ dec_run example_symbols.*1 d = Ok (example_symbols.*2, d2).
Proof.
  destruct (range_coder_roundtrip (replicate 9 7) [] example_symbols example_symbols_ok)
    as (e1 & e2 & n & e3 & H1 & H2 & H3 & Hlen & Hfit & Hdec).
  injection H1 as <-. exists e3. assert (e_error e3 = 0) as He.
  { apply Hfit. change (enc_run (RangeEncoder_new (replicate 9 7)) example_symbols = Ok e2) in H2. vm_compute in H2.
    injection H2 as <-. vm_compute. discriminate. }
  split; [exact He|]. split; [exact Hlen|]. destruct (Hdec He) as (d & d1 & d2 & Hnew & Hrun1 & _ & Hrun2 & _).
  injection Hrun1 as <-. exists d, d2. split; [exact Hnew|exact Hrun2].
Defined.
