(* ===== verification/Codec.v ===== *)
(** * The codec crate's shared part and its trivial codec

    crates/siphon-rtp-codec/src/lib.rs (errors, parameters, the fold to mono) and
    l16.rs.  A PCM buffer is a list of signed 16-bit samples, passed and returned
    where the source writes in place; an operation returns the count it reports
    with the buffer. *)

From stdpp Require Import base list numbers option strings.
From Stdlib Require Import Lia ZArith.
From S2P Require Import Prelude.

Open Scope Z_scope.

Inductive CodecError : Type :=
  | BadFrameSize (expected got : Z)
  | OutputTooSmall (needed have : Z)
  | Malformed (what : string)
  | Unsupported (what : string).

Record CodecParams : Type := mkCodecParams { cp_sample_rate_hz : Z; cp_channels : Z; cp_ptime_ms : Z }.

Definition frame_samples (p : CodecParams) : Z := cp_sample_rate_hz p / 1000 * cp_ptime_ms p.

Definition frame_values (p : CodecParams) : Z :=
  let channels := if cp_channels p =? 0 then 1 else cp_channels p in
  frame_samples p * channels.

Definition is_i16 (x : Z) : Prop := -32768 <= x <= 32767.
Definition pcm_ok (l : list Z) : Prop := Forall is_i16 l.

(** Signed arithmetic, the type named by the first value above it. *)
Definition I32 : Z := 2147483648.
Definition I64 : Z := 9223372036854775808.
Definition I128 : Z := 170141183460469231731687303715884105728.
Definition chk {E} (limit x : Z) : res E Z := if (- limit <=? x) && (x <? limit) then Ok x else Panic.

(** [x as i16]. *)
Definition as_i16 (x : Z) : Z := to_signed 16 (wrap 16 x).

(** [out.iter_mut().zip(values)]: the values replace the first of the buffer, as
    many as both have. *)
Definition fill_first (out values : list Z) : list Z :=
  take (length out) values ++ drop (length values) out.

(** One instant: the sum of the channels at [base]. *)
Fixpoint sum_channels (frame : list Z) (base : Z) (n : nat) : res CodecError Z :=
  match n with
  | O => mret 0
  | S n =>
      sum ← sum_channels frame base n;
      x ← idx frame (base + Z.of_nat n);
      mret (sum + x)
  end.

Fixpoint downmix_loop (n : nat) (sample : Z) (frame : list Z) (channels : Z) : res CodecError (list Z) :=
  match n with
  | O => mret frame
  | S n =>
      sum ← sum_channels frame (sample * channels) (Z.to_nat channels);
      frame ← set_at frame sample (to_signed 16 (wrap 16 (Z.quot sum channels)));
      downmix_loop n (sample + 1) frame channels
  end.

Definition downmix_to_mono (frame : list Z) (channels : Z) : res CodecError (Z * list Z) :=
  if channels <=? 1 then mret (len frame, frame) else
  let samples := len frame / channels in
  frame ← downmix_loop (Z.to_nat samples) 0 frame channels;
  mret (samples, frame).

(** ** L16 *)

Definition L16_new (sample_rate_hz ptime_ms : Z) : CodecParams := mkCodecParams sample_rate_hz 1 ptime_ms.

(** The big-endian words of a payload, two bytes each. *)
Fixpoint be_words (payload : bytes) : list Z :=
  match payload with
  | a :: b :: rest => to_signed 16 (be_dec [a; b]) :: be_words rest
  | _ => []
  end.

Definition l16_decode (payload : bytes) (out : list Z) : res CodecError (Z * list Z) :=
  if negb (len payload mod 2 =? 0) then Err (Malformed "L16 payload length must be even") else
  let samples := len payload / 2 in
  if len out <? samples then Err (OutputTooSmall samples (len out))
  else mret (samples, fill_first out (be_words payload)).

Definition l16_conceal (p : CodecParams) (out : list Z) : Z * list Z :=
  let count := Z.min (frame_samples p) (len out) in
  (count, fill_first out (replicate (Z.to_nat count) 0)).

Definition l16_encode (pcm : list Z) (out : bytes) : res CodecError (Z * bytes) :=
  let needed := len pcm * 2 in
  if len out <? needed then Err (OutputTooSmall needed (len out))
  else mret (needed, fill_first out (flat_map (fun x => be_enc 2 (wrap 16 x)) pcm)).

(** * Proofs *)

Lemma chk_Ok {E} limit x : - limit <= x < limit -> @chk E limit x = Ok x.
Proof. intros H. unfold chk. by rewrite (proj2 (Z.leb_le _ _)), (proj2 (Z.ltb_lt _ _)) by lia. Qed.

Lemma fill_first_app (head tail values : list Z) : length values = length head ->
  fill_first (head ++ tail) values = values ++ tail.
Proof.
  intros H. unfold fill_first. rewrite firstn_all2 by (rewrite length_app; lia). rewrite H, drop_app_length. done.
Qed.

Lemma length_fill_first out values : length (fill_first out values) = length out.
Proof. unfold fill_first. rewrite length_app, length_take, length_drop. lia. Qed.

Lemma fill_first_spec out values : (length values <= length out)%nat ->
  take (length values) (fill_first out values) = values /\ drop (length values) (fill_first out values) = drop (length values) out.
Proof.
  intros H. unfold fill_first. rewrite (firstn_all2 values) by lia. split; [apply take_app_length|apply drop_app_length].
Qed.

Lemma pcm_ok_app l1 l2 : pcm_ok (l1 ++ l2) <-> pcm_ok l1 /\ pcm_ok l2.
Proof. apply Forall_app. Qed.

Lemma to_signed_wrap x : is_i16 x -> to_signed 16 (wrap 16 x) = x.
Proof.
  unfold is_i16, to_signed, wrap. intros H. destruct (Z.ltb_spec x 0).
  - rewrite <- (Z.mod_add x 1), Z.mod_small by lia. destruct (Z.ltb_spec (x + 1 * 2 ^ 16) (2 ^ (16 - 1))); lia.
  - rewrite Z.mod_small by lia. destruct (Z.ltb_spec x (2 ^ (16 - 1))); lia.
Qed.

Lemma to_signed_i16 x : 0 <= x < 2 ^ 16 -> is_i16 (to_signed 16 x).
Proof. unfold is_i16, to_signed. intros H. destruct (Z.ltb_spec x (2 ^ (16 - 1))); lia. Qed.

Lemma be_words_enc pcm : pcm_ok pcm -> be_words (flat_map (fun x => be_enc 2 (wrap 16 x)) pcm) = pcm.
Proof.
  induction pcm as [|x pcm IH]; intros H; [done|]. inversion H; subst.
  assert (exists a b, be_enc 2 (wrap 16 x) = [a; b]) as (a & b & Hab).
  { destruct (be_enc 2 (wrap 16 x)) as [|a [|b [|c r]]] eqn:E; try (apply (f_equal length) in E; rewrite be_enc_length in E; done). eauto. }
  cbn [flat_map]. rewrite Hab. cbn [app be_words]. rewrite <- Hab, be_dec_enc_fits, to_signed_wrap, IH by (try done; apply Z.mod_pos_bound; lia). done.
Qed.

(** L16 is lossless: what the encoder writes for any frame, the decoder of any
    buffer large enough reads back, and neither touches the rest of its buffer. *)
Lemma l16_roundtrip pcm payload tail pcm_out pcm_tail : pcm_ok pcm -> len payload = 2 * len pcm -> len pcm_out = len pcm ->
  exists coded, l16_encode pcm (payload ++ tail) = Ok (2 * len pcm, coded ++ tail) /\ len coded = 2 * len pcm /\
    l16_decode coded (pcm_out ++ pcm_tail) = Ok (len pcm, pcm ++ pcm_tail).
Proof.
  intros Hp Hl Ho. set (coded := flat_map (fun x => be_enc 2 (wrap 16 x)) pcm). exists coded.
  assert (len coded = 2 * len pcm) as Hc.
  { unfold coded. clear. induction pcm as [|x pcm IH]; [done|]. cbn [flat_map]. rewrite len_app, len_be_enc, len_cons, IH. lia. }
  pose proof (len_nonneg tail). pose proof (len_nonneg pcm_tail). split; [|split; [done|]].
  - unfold l16_encode. rewrite (proj2 (Z.ltb_ge _ _)) by (rewrite len_app; lia). fold coded.
    rewrite fill_first_app by (unfold len in *; lia). unfold mret, res_ret. do 2 f_equal. lia.
  - unfold l16_decode. rewrite Hc, (Z.mul_comm 2), Z.mod_mul, Z.div_mul by lia. cbn [Z.eqb negb].
    rewrite (proj2 (Z.ltb_ge _ _)) by (rewrite len_app; lia). unfold coded. rewrite be_words_enc by done.
    by rewrite fill_first_app by (unfold len in *; lia).
Qed.

(** ** The fold to mono *)

Definition total (l : list Z) : Z := foldr Z.add 0 l.

(** The mean of the channels at an instant, rounded towards zero. *)
Definition mean_at (frame : list Z) (channels sample : Z) : Z :=
  Z.quot (total (sub frame (sample * channels) ((sample + 1) * channels))) channels.

Lemma total_snoc l x : total (l ++ [x]) = total l + x.
Proof. unfold total. induction l as [|y l IH]; cbn [app foldr]; lia. Qed.

Lemma total_bound l : pcm_ok l -> - 32768 * len l <= total l <= 32767 * len l.
Proof.
  induction 1 as [|x l Hx Hl IH]; [done|]. rewrite len_cons. unfold total in *. cbn [foldr]. unfold is_i16 in Hx. lia.
Qed.

Lemma sum_channels_total frame base n : 0 <= base -> base + Z.of_nat n <= len frame ->
  sum_channels frame base n = Ok (total (sub frame base (base + Z.of_nat n))).
Proof.
  intros Hb. induction n as [|n IH]; intros Hl.
  - cbn [sum_channels]. by rewrite Z.add_0_r, sub_nil.
  - cbn [sum_channels]. rewrite IH, bind_Ok by lia. destruct (@idx_in_range CodecError Z frame (base + Z.of_nat n) ltac:(lia)) as (x & Hx & _).
    rewrite Hx, bind_Ok. unfold mret, res_ret. f_equal.
    replace (base + Z.of_nat (S n)) with (base + Z.of_nat n + 1) by lia. rewrite (sub_split frame base (base + Z.of_nat n) (base + Z.of_nat n + 1)) by lia. by rewrite (sub_one frame _ x Hx), total_snoc.
Qed.

Lemma mean_i16 frame channels sample : pcm_ok frame -> 2 <= channels -> 0 <= sample -> (sample + 1) * channels <= len frame ->
  is_i16 (mean_at frame channels sample).
Proof.
  intros Hp Hc Hs Hl. unfold mean_at. set (l := sub _ _ _). assert (len l = channels) as Hlen by (unfold l; rewrite len_sub; lia).
  assert (pcm_ok l) as Hpl by (unfold l, sub; apply Forall_take, Forall_drop, Hp).
  pose proof (total_bound l Hpl) as Hb. rewrite Hlen in Hb. split; [apply Z.quot_le_lower_bound|apply Z.quot_le_upper_bound]; lia.
Qed.

Lemma downmix_loop_means n : forall done frame rest orig channels, 2 <= channels ->
  frame = done ++ rest -> len frame = len orig -> rest = drop (length done) orig -> pcm_ok orig ->
  (len done + Z.of_nat n) * channels <= len orig ->
  downmix_loop n (len done) frame channels =
    Ok (done ++ map (fun i => mean_at orig channels (len done + Z.of_nat i)) (seq 0 n) ++ drop (length done + n) orig).
Proof.
  induction n as [|n IH]; intros done frame rest orig channels Hc Hf Hl Hr Hp Hn.
  - cbn [downmix_loop seq map app]. by rewrite Nat.add_0_r, Hf, Hr.
  - pose proof (len_nonneg done). cbn [downmix_loop]. rewrite sum_channels_total, bind_Ok by (rewrite ?Z2Nat.id by lia; nia).
    rewrite Z2Nat.id by lia. replace (len done * channels + channels) with ((len done + 1) * channels) by ring.
    assert (sub frame (len done * channels) ((len done + 1) * channels) = sub orig (len done * channels) ((len done + 1) * channels)) as ->.
    { rewrite Hf, Hr. rewrite sub_app_r by nia. unfold sub. rewrite drop_drop.
      replace (length done + Z.to_nat (len done * channels - len done))%nat with (Z.to_nat (len done * channels)) by (unfold len in *; nia).
      do 2 f_equal. lia. }
    fold (mean_at orig channels (len done)). rewrite to_signed_wrap by (apply mean_i16; (done || nia)).
    assert (len done < len orig) as Hlt by nia. rewrite Hf.
    destruct rest as [|x rest]. { rewrite app_nil_r in Hf. rewrite Hf in Hl. lia. }
    unfold set_at. rewrite (copy_at_mid done [x] [mean_at orig channels (len done)] rest), bind_Ok by done.
    set (done' := done ++ [mean_at orig channels (len done)]).
    assert (len done' = len done + 1) as Hd' by (unfold done'; rewrite len_app; done).
    replace (done ++ [mean_at orig channels (len done)] ++ rest) with (done' ++ rest) by (unfold done'; by rewrite <- app_assoc).
    rewrite <- Hd'. rewrite (IH done' (done' ++ rest) rest orig channels Hc eq_refl).
    + f_equal. unfold done'. rewrite <- app_assoc. f_equal. cbn [seq map app]. rewrite Z.add_0_r. f_equal.
      rewrite <- seq_shift, map_map, length_app. cbn [length]. f_equal; [|f_equal; lia].
      apply map_ext. intros i. f_equal. unfold done' in Hd'. rewrite Hd'. lia.
    + rewrite <- Hl, Hf, !len_app, Hd', len_cons. lia.
    + unfold done'. rewrite length_app. cbn [length]. rewrite <- drop_drop, <- Hr. done.
    + done.
    + lia.
Qed.

(** A frame of interleaved channels folds to the means of its whole instants, each
    a sample of its own right, without a panic; a partial last instant is dropped. *)
Lemma downmix_means frame channels : pcm_ok frame -> 2 <= channels ->
  exists mono rest, downmix_to_mono frame channels = Ok (len frame / channels, mono ++ rest) /\ len mono = len frame / channels /\
    pcm_ok mono /\ forall i, 0 <= i < len frame / channels -> @idx CodecError Z mono i = Ok (mean_at frame channels i).
Proof.
  intros Hp Hc. unfold downmix_to_mono. rewrite (proj2 (Z.leb_gt _ _)) by lia. pose proof (len_nonneg frame).
  set (samples := len frame / channels). assert (0 <= samples) as Hs by (apply Z.div_pos; lia).
  assert (samples * channels <= len frame) as Hsc by (pose proof (Z.mul_div_le (len frame) channels); unfold samples; lia).
  pose proof (downmix_loop_means (Z.to_nat samples) [] frame frame frame channels Hc eq_refl eq_refl eq_refl Hp) as Hloop.
  change (len (@nil Z)) with 0 in Hloop. rewrite Z2Nat.id in Hloop by lia. rewrite Hloop, bind_Ok by lia. cbn [app].
  eexists _, _. split; [done|]. split; [unfold len; rewrite length_map, length_seq; lia|]. split.
  - apply Forall_map, Forall_forall. intros i Hi%elem_of_seq. apply mean_i16; [done|done|lia|nia].
  - intros i Hi. apply idx_lookup; [lia|]. rewrite list_lookup_fmap, lookup_seq_lt by lia. cbn. f_equal. f_equal. lia.
Qed.
