(* ===== verification/OpusPacket.v ===== *)
(** * Opus packet framing: crates/siphon-rtp-codec/src/opus/packet.rs

    The table-of-contents byte and the splitting of an RTP payload into Opus
    frames (RFC 6716 section 3).  [usize] and [i32] values are integers: a packet
    is far shorter than 2^31 bytes.  The array of 48 sizes keeps its length, so
    that writing past it would be a panic. *)

From stdpp Require Import base list numbers option strings.
From Stdlib Require Import Lia ZArith.
From S2P Require Import Prelude Codec.

Open Scope Z_scope.

Definition MAX_FRAME_BYTES : Z := 1275.
Definition MAX_FRAMES : Z := 48.
Definition MAX_PACKET_SAMPLES_48K : Z := 5760.

Definition invalid : CodecError := Malformed "opus: invalid packet framing".

Inductive Mode : Type := Silk | Hybrid | Celt.
Inductive Bandwidth : Type := Narrowband | Mediumband | Wideband | SuperWideband | Fullband.

Record Toc : Type := mkToc { tc_config : Z; tc_stereo : bool; tc_frame_code : Z }.

Definition Toc_parse (byte : Z) : Toc :=
  mkToc (Z.shiftr byte 3) (negb (Z.land byte 0x04 =? 0)) (Z.land byte 0x03).

Definition toc_mode (t : Toc) : Mode :=
  if negb (Z.land (tc_config t) 0x10 =? 0) then Celt else if 12 <=? tc_config t then Hybrid else Silk.

Definition toc_channels (t : Toc) : Z := if tc_stereo t then 2 else 1.

Definition toc_bandwidth (t : Toc) : Bandwidth :=
  let config := tc_config t in
  if negb (Z.land config 0x10 =? 0) then
    match Z.land (Z.shiftr config 2) 0x3 with
    | 0 => Narrowband
    | 1 => Wideband
    | 2 => SuperWideband
    | _ => Fullband
    end
  else if 12 <=? config then if negb (Z.land config 0x2 =? 0) then Fullband else SuperWideband
  else
    match Z.land (Z.shiftr config 2) 0x3 with
    | 0 => Narrowband
    | 1 => Mediumband
    | _ => Wideband
    end.

Definition samples_per_frame (t : Toc) (fs : Z) : Z :=
  let config := tc_config t in
  if negb (Z.land config 0x10 =? 0) then Z.shiftl fs (Z.land config 0x3) / 400
  else if 12 <=? config then if negb (Z.land config 0x1 =? 0) then fs / 50 else fs / 100
  else
    let index := Z.land config 0x3 in
    if index =? 3 then fs * 60 / 1000 else Z.shiftl fs index / 100.

(** [pk_frames] is [frames()], the slots in use. *)
Record OpusPacket : Type := mkOpusPacket { pk_toc : Toc; pk_frames : list bytes; pk_padding : Z }.

Definition frame_count (p : OpusPacket) : Z := len (pk_frames p).

Abbreviation opus := (res CodecError).

Definition parse_size (data : bytes) : option (Z * Z) :=
  match data with
  | [] => None
  | byte :: _ => if byte <? 252 then Some (byte, 1) else second ← get_at data 1; Some (4 * second + byte, 2)
  end.

(** [parse_size(data.get(offset..).ok_or_else(invalid)?).ok_or_else(invalid)?] *)
Definition size_at (data : bytes) (offset : Z) : opus (Z * Z) :=
  rest ← ok_or (get_range data offset (len data)) invalid;
  ok_or (parse_size rest) invalid.

(** The loop over the padding length: the offset, what is left of [len], the padding. *)
Fixpoint padding_loop (fuel : nat) (data : bytes) (offset l padding : Z) : opus (Z * Z * Z) :=
  match fuel with
  | O => Panic
  | S fuel =>
      if (l <=? 0) || (len data <=? offset) then Err invalid else
      p ← idx data offset;
      let tmp := if p =? 255 then 254 else p in
      let l := l - 1 - tmp in
      if p =? 255 then padding_loop fuel data (offset + 1) l (padding + tmp)
      else mret (offset + 1, l, padding + tmp)
  end.

(** The loop over the explicit sizes of a VBR packet: the sizes, the offset and the
    size of the last frame. *)
Fixpoint vbr_loop (n : nat) (data : bytes) (offset l last_size : Z) : opus (list Z * Z * Z) :=
  match n with
  | O => mret ([], offset, last_size)
  | S n =>
      '(sz, used) ← size_at data offset;
      let l := l - used in
      if l <? sz then Err invalid else
      '(sizes, offset, last_size) ← vbr_loop n data (offset + used) l (last_size - (used + sz));
      mret (sz :: sizes, offset, last_size)
  end.

(** What each frame code leaves: the frame count, the sizes array, the offset of
    the frames, the size of the last one and the padding. *)
Record Layout : Type := mkLayout { ly_count : Z; ly_sizes : list Z; ly_offset : Z; ly_last : Z; ly_padding : Z }.

Definition no_sizes : list Z := replicate (Z.to_nat MAX_FRAMES) 0.

(** The first sizes are set, the others keep their value. *)
Definition set_first (sizes : list Z) : list Z := sizes ++ drop (length sizes) no_sizes.

Definition code_one (l : Z) : opus Layout :=
  if negb (Z.land l 0x1 =? 0) then Err invalid
  else mret (mkLayout 2 (set_first [l / 2]) 1 (l / 2) 0).

Definition code_two (data : bytes) (l : Z) : opus Layout :=
  '(size, used) ← size_at data 1;
  let l := l - used in
  if l <? size then Err invalid
  else mret (mkLayout 2 (set_first [size]) (1 + used) (l - size) 0).

Definition code_three (data : bytes) (l framesize : Z) : opus Layout :=
  if (l <? 1) || (len data <=? 1) then Err invalid else
  frame_count_byte ← idx data 1;
  let count := Z.land frame_count_byte 0x3F in
  if (count =? 0) || (MAX_PACKET_SAMPLES_48K <? framesize * count) then Err invalid else
  '(offset, l, padding) ←
    (if negb (Z.land frame_count_byte 0x40 =? 0) then padding_loop (S (length data)) data 2 (l - 1) 0
     else mret (2, l - 1, 0));
  if l <? 0 then Err invalid else
  if Z.land frame_count_byte 0x80 =? 0 then
    let last_size := l / count in
    if negb (last_size * count =? l) then Err invalid
    else mret (mkLayout count (set_first (replicate (Z.to_nat (Z.min (count - 1) MAX_FRAMES)) last_size)) offset last_size padding)
  else
    '(sizes, offset, last_size) ← vbr_loop (Z.to_nat (Z.min (count - 1) MAX_FRAMES)) data offset l l;
    if last_size <? 0 then Err invalid
    else mret (mkLayout count (set_first sizes) offset last_size padding).

(** The loop that lays out the frames: the frames and the offset after them.  A
    negative size would be a huge [usize]. *)
Fixpoint cut_frames (data : bytes) (offset : Z) (sizes : list Z) : opus (list bytes * Z) :=
  match sizes with
  | [] => mret ([], offset)
  | sz :: sizes =>
      let stop := offset + wrap 64 sz in
      if len data <? stop then Err invalid else
      frame ← slice data offset stop;
      '(frames, offset) ← cut_frames data stop sizes;
      mret (frame :: frames, offset)
  end.

Definition parse (data : bytes) : opus OpusPacket :=
  if len data =? 0 then Err invalid else
  b ← idx data 0;
  let toc := Toc_parse b in
  let framesize := samples_per_frame toc 48000 in
  let l := len data - 1 in
  layout ←
    (if tc_frame_code toc =? 0 then mret (mkLayout 1 no_sizes 1 l 0)
     else if tc_frame_code toc =? 1 then code_one l
     else if tc_frame_code toc =? 2 then code_two data l
     else code_three data l framesize);
  if MAX_FRAME_BYTES <? ly_last layout then Err invalid else
  sizes ← set_at (ly_sizes layout) (ly_count layout - 1) (ly_last layout);
  '(frames, offset) ← cut_frames data (ly_offset layout) (take (Z.to_nat (ly_count layout)) sizes);
  if len data <? offset + ly_padding layout then Err invalid
  else mret (mkOpusPacket toc frames (ly_padding layout)).

(** * Proofs *)

(** ** The wire format *)

(** A frame size: one byte below 252, else two. *)
Definition size_bytes (n : Z) : bytes :=
  if n <? 252 then [n] else [252 + n mod 4; (n - (252 + n mod 4)) / 4].

(** A padding length: 255 stands for 254 and another byte. *)
Inductive pad_bytes : bytes -> Z -> Prop :=
  | pad_last p : 0 <= p < 255 -> pad_bytes [p] p
  | pad_more bs n : pad_bytes bs n -> pad_bytes (255 :: bs) (254 + n).

Definition sizes_of (frames : list bytes) : list Z := map len frames.

(** A packet after its first byte, by frame code; [framesize] is the length of a
    frame in samples at 48 kHz. *)
Inductive opus_body (framesize : Z) : Z -> bytes -> list bytes -> Z -> Prop :=
  | body_one f : opus_body framesize 0 f [f] 0
  | body_equal f g : len f = len g -> opus_body framesize 1 (f ++ g) [f; g] 0
  | body_two f g : len f <= MAX_FRAME_BYTES -> opus_body framesize 2 (size_bytes (len f) ++ f ++ g) [f; g] 0
  | body_many c pads sizes frames filler pad :
      0 <= c < 256 -> Z.land c 0x3F = len frames -> 0 < len frames -> framesize * len frames <= MAX_PACKET_SAMPLES_48K ->
      (if Z.land c 0x40 =? 0 then pads = [] /\ pad = 0 else pad_bytes pads pad) -> len filler = pad ->
      (if Z.land c 0x80 =? 0 then sizes = [] /\ (forall f, f ∈ frames -> len f = len (default [] (last frames)))
       else sizes = flat_map size_bytes (sizes_of (removelast frames)) /\ Forall (fun f => len f <= MAX_FRAME_BYTES) frames) ->
      opus_body framesize 3 (c :: pads ++ sizes ++ concat frames ++ filler) frames pad.

Definition opus_wire (data : bytes) (p : OpusPacket) : Prop :=
  exists b body, data = b :: body /\ pk_toc p = Toc_parse b /\
    opus_body (samples_per_frame (Toc_parse b) 48000) (Z.land b 0x03) body (pk_frames p) (pk_padding p) /\
    len (default [] (last (pk_frames p))) <= MAX_FRAME_BYTES.

(** ** Stages that either refuse the packet or satisfy a property *)

Definition outcome {A} (r : opus A) (Q : A -> Prop) : Prop := r = Err invalid \/ exists x, r = Ok x /\ Q x.

Lemma outcome_bind {A B} (r : opus A) (f : A -> opus B) Q R :
  outcome r Q -> (forall x, Q x -> outcome (f x) R) -> outcome (x ← r; f x) R.
Proof. intros [->|(x & -> & Hx)] Hf; [by left|]. rewrite bind_Ok. by apply Hf. Qed.

Lemma outcome_Ok {A} (x : A) (Q : A -> Prop) : Q x -> outcome (Ok x) Q.
Proof. intros H. right. eauto. Qed.

Lemma get_rest (pre rest : bytes) : get_range (pre ++ rest) (len pre) (len (pre ++ rest)) = Some rest.
Proof.
  rewrite get_range_Some by (pose proof (len_nonneg pre); pose proof (len_nonneg rest); rewrite len_app; lia).
  f_equal. apply sub_app_end; [done|by rewrite len_app].
Qed.

Lemma size_bytes_len n : 0 <= n -> len (size_bytes n) = (if n <? 252 then 1 else 2).
Proof. unfold size_bytes. by destruct (n <? 252). Qed.

Lemma parse_size_exact data : bytes_ok data ->
  match parse_size data with
  | Some (sz, used) => 0 <= sz <= MAX_FRAME_BYTES /\ used = len (size_bytes sz) /\ exists rest, data = size_bytes sz ++ rest
  | None => forall sz rest, 0 <= sz -> data <> size_bytes sz ++ rest
  end.
Proof.
  intros Hok. destruct data as [|b data]; cbn [parse_size].
  { intros sz rest _. unfold size_bytes. by destruct (sz <? 252). }
  apply bytes_ok_cons in Hok as (Hb & Hd). unfold is_byte in Hb. destruct (Z.ltb_spec b 252) as [Hlt|Hge].
  - unfold size_bytes, MAX_FRAME_BYTES. rewrite (proj2 (Z.ltb_lt b 252) Hlt). split; [lia|]. split; [done|]. by exists data.
  - destruct data as [|s data].
    + change (get_at [b] 1) with (@None Z). cbn [mbind option_bind]. intros sz rest Hsz Heq. unfold size_bytes in Heq. destruct (Z.ltb_spec sz 252); injection Heq as ->; [lia|done].
    + change (get_at (b :: s :: data) 1) with (Some s). cbn [mbind option_bind].
      apply bytes_ok_cons in Hd as (Hs & _). unfold is_byte in Hs.
      assert ((4 * s + b) mod 4 = b - 252) as Hm.
      { replace (4 * s + b) with (b - 252 + (s + 63) * 4) by lia. rewrite Z.mod_add, Z.mod_small by lia. done. }
      assert (size_bytes (4 * s + b) = [b; s]) as ->.
      { unfold size_bytes. rewrite (proj2 (Z.ltb_ge (4 * s + b) 252)), Hm by lia. f_equal; [lia|]. f_equal.
        replace (4 * s + b - (252 + (b - 252))) with (s * 4) by lia. by rewrite Z.div_mul. }
      unfold MAX_FRAME_BYTES. split; [lia|]. split; [done|]. by exists data.
Qed.

Lemma parse_size_bytes sz rest : 0 <= sz <= MAX_FRAME_BYTES -> parse_size (size_bytes sz ++ rest) = Some (sz, len (size_bytes sz)).
Proof.
  unfold MAX_FRAME_BYTES. intros Hsz. unfold size_bytes. destruct (Z.ltb_spec sz 252) as [Hlt|Hge].
  - cbn. by rewrite (proj2 (Z.ltb_lt sz 252) Hlt).
  - pose proof (Z.mod_pos_bound sz 4 ltac:(lia)) as Hm. cbn [app parse_size].
    rewrite (proj2 (Z.ltb_ge (252 + sz mod 4) 252)) by lia. match goal with |- context [get_at (_ :: ?s :: _) 1] => change (get_at (_ :: s :: _) 1) with (Some s) end. cbn [mbind option_bind]. f_equal. f_equal.
    pose proof (Z.div_mod sz 4 ltac:(lia)) as Hd. replace (sz - (252 + sz mod 4)) with ((sz / 4 - 63) * 4) by lia.
    rewrite Z.div_mul by lia. lia.
Qed.

Lemma size_at_outcome pre rest : bytes_ok (pre ++ rest) ->
  outcome (size_at (pre ++ rest) (len pre)) (fun '(sz, used) =>
    0 <= sz <= MAX_FRAME_BYTES /\ used = len (size_bytes sz) /\ exists rest', rest = size_bytes sz ++ rest').
Proof.
  intros Hok. unfold size_at. rewrite get_rest. cbn [ok_or]. rewrite bind_Ok. apply bytes_ok_app in Hok as (_ & Hr).
  pose proof (parse_size_exact rest Hr) as H. destruct (parse_size rest) as [[sz used]|]; cbn [ok_or]; [by apply outcome_Ok|by left].
Qed.

Lemma size_at_bytes pre sz rest : 0 <= sz <= MAX_FRAME_BYTES ->
  size_at (pre ++ size_bytes sz ++ rest) (len pre) = Ok (sz, len (size_bytes sz)).
Proof. intros Hsz. unfold size_at. rewrite get_rest. cbn [ok_or]. by rewrite bind_Ok, parse_size_bytes. Qed.

Lemma pad_bytes_nonneg bs n : pad_bytes bs n -> 0 <= n /\ bs <> [].
Proof. induction 1 as [p|bs n H (IH & _)]; split; try done; lia. Qed.

Lemma padding_outcome fuel : forall pre rest l pad, bytes_ok (pre ++ rest) -> (length rest < fuel)%nat ->
  outcome (padding_loop fuel (pre ++ rest) (len pre) l pad) (fun '(offset, l', pad') =>
    exists bs n rest', rest = bs ++ rest' /\ pad_bytes bs n /\ offset = len (pre ++ bs) /\ l' = l - len bs - n /\ pad' = pad + n).
Proof.
  induction fuel as [|fuel IH]; intros pre rest l pad Hok Hf; [lia|]. cbn [padding_loop].
  destruct ((l <=? 0) || (len (pre ++ rest) <=? len pre)) eqn:Hend; [by left|]. apply orb_false_iff in Hend as (_ & Hlen).
  destruct rest as [|p rest]. { rewrite app_nil_r in Hlen. lia. }
  rewrite idx_app_mid, bind_Ok by done. pose proof Hok as Hok'. apply bytes_ok_app in Hok' as (_ & Hr). apply bytes_ok_cons in Hr as (Hp & Hr). unfold is_byte in Hp.
  destruct (Z.eqb_spec p 255) as [->|Hne].
  - replace (pre ++ 255 :: rest) with ((pre ++ [255]) ++ rest) by (by rewrite <- app_assoc).
    replace (len pre + 1) with (len (pre ++ [255])) by (rewrite len_app; done).
    destruct (IH (pre ++ [255]) rest (l - 1 - 254) (pad + 254)) as [->|([[off l'] pad'] & -> & bs & n & rest' & -> & Hpad & -> & -> & ->)].
    + by rewrite <- app_assoc.
    + cbn in Hf. lia.
    + by left.
    + apply outcome_Ok. exists (255 :: bs), (254 + n), rest'. split; [done|]. split; [by constructor|].
      rewrite <- app_assoc, len_cons. split; [done|]. lia.
  - apply outcome_Ok. exists [p], p, rest. split; [done|]. split; [constructor; lia|]. rewrite len_app. change (len [p]) with 1. lia.
Qed.

Lemma padding_bytes bs n : pad_bytes bs n -> forall pre rest l pad fuel, (length bs <= fuel)%nat -> len bs + n <= l ->
  padding_loop fuel (pre ++ bs ++ rest) (len pre) l pad = Ok (len (pre ++ bs), l - len bs - n, pad + n).
Proof.
  induction 1 as [p Hp|bs n Hpad IH]; intros pre rest l pad fuel Hf Hl; (destruct fuel as [|fuel]; [cbn in Hf; lia|]); cbn [padding_loop].
  - change (len [p]) with 1 in *. pose proof (len_nonneg rest). rewrite (proj2 (Z.leb_gt l 0)), (proj2 (Z.leb_gt _ (len pre))) by (rewrite ?len_app; change (len [p]) with 1; lia).
    cbn [orb]. change ([p] ++ rest) with (p :: rest). rewrite idx_app_mid, bind_Ok by done. rewrite (proj2 (Z.eqb_neq p 255)) by lia.
    by rewrite len_app.
  - destruct (pad_bytes_nonneg _ _ Hpad) as (Hn & _). rewrite len_cons in *. pose proof (len_nonneg bs). pose proof (len_nonneg rest).
    rewrite (proj2 (Z.leb_gt l 0)), (proj2 (Z.leb_gt _ (len pre))) by (rewrite ?len_app, ?len_cons; lia).
    cbn [orb app]. rewrite idx_app_mid, bind_Ok by done. cbn [Z.eqb Pos.eqb].
    replace (pre ++ 255 :: bs ++ rest) with ((pre ++ [255]) ++ bs ++ rest) by (by rewrite <- app_assoc).
    replace (len pre + 1) with (len (pre ++ [255])) by (rewrite len_app; done).
    rewrite IH by (cbn in Hf; lia). rewrite <- app_assoc. cbn [app].
    replace (l - 1 - 254 - len bs - n) with (l - (1 + len bs) - (254 + n)) by lia. by replace (pad + 254 + n) with (pad + (254 + n)) by lia.
Qed.

Definition frame_size (n : Z) : Prop := 0 <= n <= MAX_FRAME_BYTES.

Lemma total_nonneg sizes : Forall frame_size sizes -> 0 <= total sizes.
Proof. induction 1 as [|x l Hx _ IH]; [done|]. unfold total in *. cbn [foldr]. unfold frame_size in Hx. lia. Qed.

Lemma vbr_outcome n : forall pre rest l last_size, bytes_ok (pre ++ rest) ->
  outcome (vbr_loop n (pre ++ rest) (len pre) l last_size) (fun '(sizes, offset, last') =>
    exists rest', rest = flat_map size_bytes sizes ++ rest' /\ length sizes = n /\ Forall frame_size sizes /\
      offset = len (pre ++ flat_map size_bytes sizes) /\ last' = last_size - len (flat_map size_bytes sizes) - total sizes).
Proof.
  induction n as [|n IH]; intros pre rest l last_size Hok; cbn [vbr_loop].
  { apply outcome_Ok. exists rest. cbn. rewrite app_nil_r. repeat split; try done. change (len (@nil Z)) with 0. lia. }
  eapply outcome_bind; [by apply size_at_outcome|]. intros [sz used] (Hsz & -> & rest' & ->). cbv zeta.
  destruct (l - len (size_bytes sz) <? sz); [by left|]. rewrite app_assoc in Hok |- *. rewrite <- len_app.
  eapply outcome_bind; [by apply IH|]. intros [[sizes offset] last'] (rest2 & -> & Hl & Hs & -> & ->). apply outcome_Ok.
  exists rest2. cbn [flat_map length]. rewrite <- !app_assoc, !len_app. split; [done|]. split; [lia|]. split; [by constructor|]. split; [done|].
  unfold total. cbn [foldr]. lia.
Qed.

Lemma vbr_bytes sizes : forall pre rest l last_size, Forall frame_size sizes -> len (flat_map size_bytes sizes) + total sizes <= l ->
  vbr_loop (length sizes) (pre ++ flat_map size_bytes sizes ++ rest) (len pre) l last_size =
    Ok (sizes, len (pre ++ flat_map size_bytes sizes), last_size - len (flat_map size_bytes sizes) - total sizes).
Proof.
  induction sizes as [|sz sizes IH]; intros pre rest l last_size Hs Hl.
  - cbn. rewrite app_nil_r. change (len (@nil Z)) with 0. unfold mret, res_ret. by rewrite !Z.sub_0_r.
  - inversion Hs as [|? ? Hsz Hrest]; subst. cbn [vbr_loop length flat_map]. cbn [flat_map] in Hl. unfold total in *. cbn [foldr] in *. rewrite len_app in *.
    pose proof (total_nonneg sizes Hrest) as Hn. unfold total in Hn. pose proof Hsz as (Hsz0 & _). pose proof (len_nonneg (flat_map size_bytes sizes)).
    rewrite <- app_assoc, size_at_bytes, bind_Ok by done. cbv beta iota zeta. rewrite (proj2 (Z.ltb_ge _ sz)) by lia.
    rewrite app_assoc, <- len_app, IH, bind_Ok by (done || lia). rewrite <- !app_assoc, !len_app. unfold mret, res_ret. do 2 f_equal. lia.
Qed.

Lemma sizes_concat frames : total (sizes_of frames) = len (concat frames).
Proof. induction frames as [|f frames IH]; [done|]. cbn [sizes_of map concat]. rewrite len_app, <- IH. done. Qed.

Lemma cut_outcome sizes : forall pre rest, Forall frame_size sizes ->
  outcome (cut_frames (pre ++ rest) (len pre) sizes) (fun '(frames, offset) =>
    exists tail, rest = concat frames ++ tail /\ sizes_of frames = sizes /\ offset = len (pre ++ concat frames)).
Proof.
  induction sizes as [|sz sizes IH]; intros pre rest Hs; cbn [cut_frames].
  { apply outcome_Ok. exists rest. cbn. by rewrite app_nil_r. }
  inversion Hs as [|? ? Hsz Hrest]; subst. unfold frame_size, MAX_FRAME_BYTES in Hsz. pose proof (len_nonneg pre).
  assert (wrap 64 sz = sz) as -> by (apply Z.mod_small; lia). destruct (Z.ltb_spec (len (pre ++ rest)) (len pre + sz)) as [|Hfit]; [by left|].
  rewrite slice_Ok, bind_Ok by lia. rewrite len_app in Hfit.
  assert (exists f rest1, rest = f ++ rest1 /\ len f = sz) as (f & rest1 & -> & Hf).
  { exists (take (Z.to_nat sz) rest), (drop (Z.to_nat sz) rest). rewrite take_drop, len_take. split; [done|lia]. }
  rewrite (sub_app_mid pre f rest1) by lia. rewrite app_assoc. replace (len pre + sz) with (len (pre ++ f)) by (rewrite len_app; lia).
  eapply outcome_bind; [by apply IH|]. intros [frames offset] (tail & -> & Hsz' & ->). apply outcome_Ok. exists tail. cbn [concat sizes_of map].
  rewrite <- !app_assoc. split; [done|]. split; [by rewrite Hf, <- Hsz'|done].
Qed.

Lemma cut_bytes frames : forall pre tail, len (pre ++ concat frames ++ tail) < 2 ^ 64 ->
  cut_frames (pre ++ concat frames ++ tail) (len pre) (sizes_of frames) = Ok (frames, len (pre ++ concat frames)).
Proof.
  induction frames as [|f frames IH]; intros pre tail Hl; cbn [sizes_of map cut_frames concat].
  { by rewrite app_nil_r. }
  pose proof (len_nonneg pre). pose proof (len_nonneg f). cbn [concat] in Hl. rewrite <- app_assoc in Hl |- *.
  assert (len (pre ++ f ++ concat frames ++ tail) = len pre + len f + len (concat frames ++ tail)) as Hlen by (rewrite !len_app; lia).
  pose proof (len_nonneg (concat frames ++ tail)). assert (wrap 64 (len f) = len f) as -> by (apply Z.mod_small; lia).
  rewrite (proj2 (Z.ltb_ge _ _)), slice_Ok, bind_Ok by lia. rewrite (sub_app_mid pre f) by lia.
  rewrite (app_assoc pre f) in Hl |- *. rewrite <- len_app. fold (sizes_of frames). rewrite IH, bind_Ok by done. by rewrite <- !app_assoc.
Qed.

Lemma set_first_last first n : len first < MAX_FRAMES ->
  @set_at CodecError Z (set_first first) (len first) n = Ok (first ++ n :: drop (S (length first)) no_sizes) .
Proof.
  intros Hl. unfold set_first. assert (length first < length no_sizes)%nat as Hn.
  { unfold no_sizes. rewrite length_replicate. unfold len, MAX_FRAMES in *. lia. }
  destruct (drop (length first) no_sizes) as [|x rest] eqn:Hd.
  { apply (f_equal length) in Hd. rewrite length_drop in Hd. cbn in Hd. lia. }
  unfold set_at. rewrite (copy_at_mid first [x] [n] rest) by done. cbn [app]. do 3 f_equal.
  change (S (length first)) with (1 + length first)%nat. rewrite Nat.add_comm, <- drop_drop, Hd. done.
Qed.

Lemma framesize_min b : is_byte b -> 120 <= samples_per_frame (Toc_parse b) 48000.
Proof.
  intros Hb. apply Z.leb_le. revert b Hb. intros b Hb. apply (byte_forall (fun b => 120 <=? samples_per_frame (Toc_parse b) 48000)); [|done].
  vm_compute. reflexivity.
Qed.

(** ** What each frame code lays out *)

Section layouts.
Context (framesize b : Z) (body : bytes).

(** The layout leaves, after a prefix, exactly the frames and the padding; cut that
    way, the packet is on the wire. *)
Definition layout_ok (y : Layout) : Prop :=
  exists pre rest first, b :: body = pre ++ rest /\ ly_offset y = len pre /\ ly_sizes y = set_first first /\
    ly_count y = len first + 1 /\ len first < MAX_FRAMES /\ 0 <= ly_last y /\ (ly_last y <= MAX_FRAME_BYTES -> Forall frame_size first) /\
    0 <= ly_padding y /\ len rest = total first + ly_last y + ly_padding y /\
    (ly_last y <= MAX_FRAME_BYTES -> forall frames filler, sizes_of frames = first ++ [ly_last y] -> rest = concat frames ++ filler ->
       len filler = ly_padding y -> opus_body framesize (Z.land b 0x03) body frames (ly_padding y)).

Lemma one_frame frames n : sizes_of frames = [n] -> exists f, frames = [f] /\ len f = n.
Proof. destruct frames as [|f [|g frames]]; intros H; try done. injection H as <-. by exists f. Qed.

Lemma two_frames frames m n : sizes_of frames = [m; n] -> exists f g, frames = [f; g] /\ len f = m /\ len g = n.
Proof. destruct frames as [|f [|g [|h frames]]]; intros H; try done. injection H as <- <-. by exists f, g. Qed.

Lemma code_zero_ok : Z.land b 0x03 = 0 -> layout_ok (mkLayout 1 no_sizes 1 (len body) 0).
Proof.
  intros Hb. exists [b], body, []. cbn [ly_offset ly_sizes ly_count ly_last ly_padding]. pose proof (len_nonneg body).
  do 6 (split; [done|]). split; [intros; constructor|]. split; [done|]. split; [change (total []) with 0; lia|].
  intros _ frames filler (f & -> & Hf)%one_frame Hr Hfill. apply len_zero_iff in Hfill as ->. cbn in Hr. rewrite !app_nil_r in Hr. subst. rewrite Hb. constructor.
Qed.

Lemma code_one_ok : Z.land b 0x03 = 1 -> outcome (code_one (len body)) layout_ok.
Proof.
  intros Hb. unfold code_one. change 1 with (Z.ones 1) at 1. rewrite Z.land_ones by lia. change (2 ^ 1) with 2.
  destruct (Z.eqb_spec (len body mod 2) 0) as [Hm|]; cbn [negb]; [|by left]. apply outcome_Ok.
  pose proof (Z.div_mod (len body) 2 ltac:(lia)) as Hd. pose proof (len_nonneg body). assert (0 <= len body / 2) by (apply Z.div_pos; lia).
  exists [b], body, [len body / 2]. cbn [ly_offset ly_sizes ly_count ly_last ly_padding].
  do 6 (split; [done|]). split; [intros; constructor; [by split|constructor]|]. split; [done|].
  split; [change (total [len body / 2]) with (len body / 2 + 0); lia|].
  intros _ frames filler (f & g & -> & Hf & Hg)%two_frames Hr Hfill. apply len_zero_iff in Hfill as ->. cbn in Hr. rewrite !app_nil_r in Hr. subst. rewrite Hb.
  constructor. congruence.
Qed.

Lemma code_two_ok : bytes_ok (b :: body) -> Z.land b 0x03 = 2 -> outcome (code_two (b :: body) (len body)) layout_ok.
Proof.
  intros Hok Hb. unfold code_two. eapply outcome_bind. { apply (size_at_outcome [b] body). done. }
  intros [size used] (Hs & -> & rest & Hrest). cbv zeta. destruct (Z.ltb_spec (len body - len (size_bytes size)) size) as [|Hfit]; [by left|].
  apply outcome_Ok. exists (b :: size_bytes size), rest, [size]. cbn [ly_offset ly_sizes ly_count ly_last ly_padding].
  rewrite Hrest. cbn [app]. assert (len body = len (size_bytes size) + len rest) as Hl by (by rewrite Hrest, len_app).
  split; [done|]. split; [by rewrite len_cons|]. split; [done|]. split; [done|]. split; [done|]. rewrite len_app. split; [lia|].
  split; [intros _; constructor; [done|constructor]|]. split; [done|]. split; [unfold total; cbn [foldr]; lia|].
  intros _ frames filler (f & g & -> & Hf & Hg)%two_frames Hr Hfill. apply len_zero_iff in Hfill as ->. cbn in Hr. rewrite !app_nil_r in Hr.
  rewrite Hb, Hr, <- Hf. constructor. unfold frame_size in Hs. lia.
Qed.

Lemma sizes_cut frames first n : sizes_of frames = first ++ [n] ->
  exists front f, frames = front ++ [f] /\ sizes_of front = first /\ len f = n /\ removelast frames = front /\ default [] (last frames) = f.
Proof.
  intros H. destruct frames as [|f front _] using rev_ind; [by destruct first|]. unfold sizes_of in *. rewrite map_app in H. cbn [map] in H.
  apply app_inj_tail in H as (<- & <-). exists front, f. by rewrite removelast_last, last_snoc.
Qed.

(** The frame counts a packet of at most 120 ms may have. *)
Lemma count_fits count : 120 <= framesize -> framesize * count <= MAX_PACKET_SAMPLES_48K -> count <= MAX_FRAMES.
Proof. unfold MAX_PACKET_SAMPLES_48K, MAX_FRAMES. nia. Qed.

(** The part of [code_three] after the padding length. *)
Lemma code_three_sizes c pads pad rest l : bytes_ok rest -> bytes_ok (b :: body) -> 0 <= c < 256 -> Z.land b 0x03 = 3 ->
  body = c :: pads ++ rest -> 120 <= framesize ->
  0 < Z.land c 0x3F -> framesize * Z.land c 0x3F <= MAX_PACKET_SAMPLES_48K ->
  (if Z.land c 0x40 =? 0 then pads = [] /\ pad = 0 else pad_bytes pads pad) -> 0 <= pad -> l = len rest - pad -> 0 <= l ->
  outcome (if Z.land c 0x80 =? 0 then
    let last_size := l / Z.land c 0x3F in
    if negb (last_size * Z.land c 0x3F =? l) then Err invalid
    else mret (mkLayout (Z.land c 0x3F) (set_first (replicate (Z.to_nat (Z.min (Z.land c 0x3F - 1) MAX_FRAMES)) last_size)) (len (b :: c :: pads)) last_size pad)
  else
    '(sizes, offset, last_size) ← vbr_loop (Z.to_nat (Z.min (Z.land c 0x3F - 1) MAX_FRAMES)) (b :: body) (len (b :: c :: pads)) l l;
    if last_size <? 0 then Err invalid
    else mret (mkLayout (Z.land c 0x3F) (set_first sizes) offset last_size pad)) layout_ok.
Proof.
  intros Hr Hok Hc Hb Hbody Hfs Hpos Hmax Hpads Hpad Hl Hl0. set (count := Z.land c 0x3F) in *.
  pose proof (count_fits count Hfs Hmax) as H48. rewrite Z.min_l by (unfold MAX_FRAMES in *; lia).
  assert (b :: body = (b :: c :: pads) ++ rest) as Hdata by (rewrite Hbody; done).
  destruct (Z.land c 0x80 =? 0) eqn:Hv.
  - cbv zeta. destruct (Z.eqb_spec (l / count * count) l) as [Heq|]; cbn [negb]; [|by left]. apply outcome_Ok.
    assert (0 <= l / count) as Hq by (apply Z.div_pos; lia). set (size := l / count) in *.
    exists (b :: c :: pads), rest, (replicate (Z.to_nat (count - 1)) size). cbn [ly_offset ly_sizes ly_count ly_last ly_padding].
    rewrite len_replicate, Z2Nat.id by lia.
    assert (total (replicate (Z.to_nat (count - 1)) size) = (count - 1) * size) as Htot.
    { assert (forall n, total (replicate n size) = Z.of_nat n * size) as Hn by (intros n; unfold total; induction n as [|n IH]; cbn [replicate foldr]; lia).
      rewrite Hn, Z2Nat.id by lia. done. }
    split; [done|]. split; [done|]. split; [done|]. split; [lia|]. split; [lia|]. split; [done|].
    split; [intros; by apply Forall_replicate|]. split; [done|]. split; [rewrite Htot; lia|].
    intros _ frames filler Hsz Hrest Hfill. rewrite Hb, Hbody, Hrest. destruct (sizes_cut _ _ _ Hsz) as (front & f & Hfr & Hfront & Hf & Hrem & Hlast).
    assert (len frames = count) as Hlf.
    { rewrite Hfr, len_app. change (len [f]) with 1. apply (f_equal len) in Hfront. unfold sizes_of in Hfront. rewrite len_map, len_replicate in Hfront. lia. }
    rewrite <- (app_nil_l (concat frames ++ filler)). apply body_many; try done; try (rewrite Hlf; done). rewrite Hv. split; [done|].
    intros g Hg. rewrite Hlast, Hf. rewrite Hfr in Hg. apply elem_of_app in Hg as [Hg|Hg%list_elem_of_singleton]; [|by subst].
    assert (len g ∈ sizes_of front) as Hin by (unfold sizes_of; by apply list_elem_of_fmap_2). rewrite Hfront in Hin. by apply elem_of_replicate in Hin as (-> & _).
  - eapply outcome_bind. { rewrite Hdata. apply vbr_outcome. by rewrite <- Hdata. }
    intros [[sizes offset] last_size] (rest' & -> & Hlen & Hsizes & -> & ->). destruct (Z.ltb_spec (l - len (flat_map size_bytes sizes) - total sizes) 0); [by left|].
    apply outcome_Ok. set (last_size := l - _ - _) in *. exists ((b :: c :: pads) ++ flat_map size_bytes sizes), rest', sizes.
    cbn [ly_offset ly_sizes ly_count ly_last ly_padding]. rewrite len_app in Hl.
    assert (len sizes = count - 1) as Hls by (unfold len; lia).
    split; [rewrite Hdata; by rewrite <- app_assoc|]. split; [done|]. split; [done|]. split; [lia|]. split; [lia|]. split; [lia|].
    split; [done|]. split; [done|]. split; [lia|].
    intros Hlast frames filler Hsz Hrest Hfill. rewrite Hb, Hbody, Hrest. destruct (sizes_cut _ _ _ Hsz) as (front & f & Hfr & Hfront & Hf & Hrem & Hld).
    assert (len frames = count) as Hlf.
    { rewrite Hfr, len_app. change (len [f]) with 1. apply (f_equal len) in Hfront. unfold sizes_of in Hfront. rewrite len_map in Hfront. lia. }
    apply body_many; try done; try (rewrite Hlf; done). rewrite Hv, Hrem, Hfront. split; [done|].
    assert (Forall frame_size (sizes_of frames)) as Hall by (rewrite Hsz; apply Forall_app; split; [done|constructor; [split; lia|constructor]]).
    unfold sizes_of in Hall. rewrite Forall_map in Hall. eapply Forall_impl; [exact Hall|]. by intros g (_ & Hg).
Qed.

Lemma code_three_ok : bytes_ok (b :: body) -> Z.land b 0x03 = 3 -> 120 <= framesize ->
  outcome (code_three (b :: body) (len body) framesize) layout_ok.
Proof.
  intros Hok Hb Hfs. unfold code_three. destruct ((len body <? 1) || (len (b :: body) <=? 1)) eqn:Hend; [by left|].
  apply orb_false_iff in Hend as (Hend & _). destruct body as [|c rest] eqn:Hbody; [done|]. rewrite <- Hbody in *.
  assert (@idx CodecError Z (b :: body) 1 = Ok c) as -> by (by rewrite Hbody). rewrite bind_Ok. cbv zeta.
  pose proof Hok as Hok2. rewrite Hbody in Hok2. apply bytes_ok_cons in Hok2 as (_ & Hok2). apply bytes_ok_cons in Hok2 as (Hc & Hr).
  destruct ((Z.land c 63 =? 0) || (MAX_PACKET_SAMPLES_48K <? framesize * Z.land c 63)) eqn:Hcount; [by left|]. apply orb_false_iff in Hcount as (H0 & Hmax).
  assert (0 <= Z.land c 63) by (apply Z.land_nonneg; lia).
  eapply (outcome_bind _ _ (fun '(offset, l, pad) => exists pads rest', rest = pads ++ rest' /\
    (if Z.land c 0x40 =? 0 then pads = [] /\ pad = 0 else pad_bytes pads pad) /\ offset = len (b :: c :: pads) /\ l = len rest' - pad /\ 0 <= pad)).
  - assert (len body - 1 = len rest) as Hlr by (rewrite Hbody, len_cons; lia). rewrite Hlr.
    destruct (Z.land c 64 =? 0) eqn:Hp; cbn [negb].
    + apply outcome_Ok. exists [], rest. split; [done|]. split; [by split|]. split; [done|]. lia.
    + destruct (padding_outcome (S (length (b :: body))) [b; c] rest (len rest) 0) as [H1|([[off l'] pad'] & H1 & bs & n & rest' & Hrr & Hpad & -> & -> & ->)].
      * rewrite Hbody in Hok. done.
      * rewrite Hbody. cbn. lia.
      * left. rewrite Hbody. rewrite Hbody in H1. exact H1.
      * right. eexists. split; [rewrite Hbody; rewrite Hbody in H1; exact H1|]. cbn beta iota. exists bs, rest'. apply (f_equal len) in Hrr as Hrl. rewrite len_app in Hrl.
        split; [done|]. split; [done|]. split; [done|]. split; [lia|]. destruct (pad_bytes_nonneg _ _ Hpad). lia.
  - intros [[offset l] pad] (pads & rest' & Hrr & Hpads & -> & Hl & Hpad). destruct (Z.ltb_spec l 0); [by left|].
    apply (code_three_sizes c pads pad rest' l); try done; try lia.
    + rewrite Hrr in Hr. by apply bytes_ok_app in Hr as (_ & Hr).
    + by rewrite Hbody, Hrr.
Qed.

End layouts.

(** ** The parser *)

(** [parse] once the layout is known. *)
Definition parse_rest (data : bytes) (toc : Toc) (layout : Layout) : opus OpusPacket :=
  if MAX_FRAME_BYTES <? ly_last layout then Err invalid else
  sizes ← set_at (ly_sizes layout) (ly_count layout - 1) (ly_last layout);
  '(frames, offset) ← cut_frames data (ly_offset layout) (take (Z.to_nat (ly_count layout)) sizes);
  if len data <? offset + ly_padding layout then Err invalid
  else mret (mkOpusPacket toc frames (ly_padding layout)).

Lemma take_sizes first n : take (Z.to_nat (len first + 1)) (first ++ n :: drop (S (length first)) no_sizes) = first ++ [n].
Proof.
  replace (Z.to_nat (len first + 1)) with (length (first ++ [n])) by (rewrite length_app; unfold len; cbn; lia).
  change (first ++ n :: drop (S (length first)) no_sizes) with (first ++ [n] ++ drop (S (length first)) no_sizes).
  rewrite app_assoc. apply take_app_length.
Qed.

Lemma parse_rest_outcome b body y : layout_ok (samples_per_frame (Toc_parse b) 48000) b body y ->
  outcome (parse_rest (b :: body) (Toc_parse b) y) (opus_wire (b :: body)).
Proof.
  intros (pre & rest & first & Hd & Ho & Hs & Hc & H48 & H0 & Hfirst & Hp & Hl & Hbody). unfold parse_rest.
  destruct (Z.ltb_spec MAX_FRAME_BYTES (ly_last y)) as [|Hlast]; [by left|]. specialize (Hfirst Hlast).
  rewrite Hs, Hc. replace (len first + 1 - 1) with (len first) by lia. rewrite set_first_last, bind_Ok, take_sizes by done.
  rewrite Hd, Ho. assert (Forall frame_size (first ++ [ly_last y])) as Hall by (apply Forall_app; split; [done|constructor; [by split|constructor]]).
  eapply outcome_bind; [by apply cut_outcome|]. intros [frames offset] (tail & -> & Hsz & ->).
  assert (len tail = ly_padding y) as Ht.
  { rewrite len_app, <- sizes_concat, Hsz in Hl. unfold total in *. rewrite foldr_app in Hl. cbn [foldr] in Hl.
    assert (foldr Z.add (ly_last y + 0) first = foldr Z.add 0 first + ly_last y) as Hfold by (clear; induction first as [|x l IH]; cbn [foldr]; lia). lia. }
  rewrite (proj2 (Z.ltb_ge _ _)) by (rewrite !len_app; lia). apply outcome_Ok. rewrite <- Hd. exists b, body.
  cbn [pk_toc pk_frames pk_padding]. split; [done|]. split; [done|]. split; [by apply (Hbody Hlast frames tail)|].
  destruct (sizes_cut _ _ _ Hsz) as (front & f & -> & _ & Hf & _ & ->). lia.
Qed.

Lemma parse_outcome data : bytes_ok data -> outcome (parse data) (opus_wire data).
Proof.
  intros Hok. unfold parse. destruct data as [|b body]; [by left|]. rewrite len_cons. pose proof (len_nonneg body).
  rewrite (proj2 (Z.eqb_neq _ 0)) by lia. rewrite idx_cons_0, bind_Ok. cbv zeta. replace (1 + len body - 1) with (len body) by lia.
  pose proof Hok as Hb. apply bytes_ok_cons in Hb as (Hb & _). pose proof (framesize_min b Hb) as Hfs.
  assert (0 <= Z.land b 3 < 4) as Hcode by (change 3 with (Z.ones 2); rewrite Z.land_ones by lia; apply Z.mod_pos_bound; lia).
  apply (outcome_bind _ _ (layout_ok (samples_per_frame (Toc_parse b) 48000) b body)).
  2: { intros y Hy. pose proof (parse_rest_outcome b body y Hy) as Hp. unfold parse_rest in Hp. rewrite len_cons in Hp. exact Hp. }
  change (tc_frame_code (Toc_parse b)) with (Z.land b 3).
  destruct (Z.eqb_spec (Z.land b 3) 0); [by apply outcome_Ok, code_zero_ok|]. destruct (Z.eqb_spec (Z.land b 3) 1); [by apply code_one_ok|].
  destruct (Z.eqb_spec (Z.land b 3) 2); [by apply code_two_ok|]. apply code_three_ok; [done|lia|done].
Qed.

(** The layout of a packet on the wire is cut into its frames. *)
Lemma parse_rest_wire data toc pre front f filler count sizes offset lst pad : len data < 2 ^ 64 ->
  data = pre ++ concat (front ++ [f]) ++ filler -> count = len front + 1 -> sizes = set_first (sizes_of front) -> offset = len pre -> lst = len f ->
  pad = len filler -> len front < MAX_FRAMES -> len f <= MAX_FRAME_BYTES ->
  parse_rest data toc (mkLayout count sizes offset lst pad) = Ok (mkOpusPacket toc (front ++ [f]) pad).
Proof.
  intros Hl Hd -> -> -> -> -> H48 Hf. unfold parse_rest. cbn [ly_offset ly_sizes ly_count ly_last ly_padding].
  rewrite (proj2 (Z.ltb_ge _ _)) by done. replace (len front + 1 - 1) with (len (sizes_of front)) by (unfold sizes_of; rewrite len_map; lia).
  rewrite set_first_last, bind_Ok by (unfold sizes_of; by rewrite len_map).
  replace (len front + 1) with (len (sizes_of front) + 1) by (unfold sizes_of; by rewrite len_map). rewrite take_sizes.
  replace (sizes_of front ++ [len f]) with (sizes_of (front ++ [f])) by (unfold sizes_of; by rewrite map_app).
  rewrite Hd in Hl |- *. rewrite cut_bytes, bind_Ok by done. rewrite (proj2 (Z.ltb_ge _ _)) by (rewrite !len_app; lia). done.
Qed.

Lemma frames_split (frames : list bytes) : 0 < len frames -> exists front f, frames = front ++ [f].
Proof. intros H. destruct frames as [|f front _] using rev_ind; [change (0 < 0) in H; lia|]. eauto. Qed.

Lemma concat_uniform frames n : (forall f : bytes, f ∈ frames -> len f = n) -> len (concat frames) = n * len frames.
Proof.
  induction frames as [|f frames IH]; intros H; [change (0 = n * 0); lia|]. cbn [concat]. rewrite len_app, len_cons, (H f), IH; [lia| |by left].
  intros g Hg. apply H. by right.
Qed.

Lemma code_three_wire framesize b c pads sizes frames filler pad : is_byte b -> 0 <= c < 256 -> Z.land c 0x3F = len frames -> 0 < len frames ->
  framesize * len frames <= MAX_PACKET_SAMPLES_48K -> len frames <= MAX_FRAMES ->
  (if Z.land c 0x40 =? 0 then pads = [] /\ pad = 0 else pad_bytes pads pad) -> len filler = pad ->
  (if Z.land c 0x80 =? 0 then sizes = [] /\ (forall f, f ∈ frames -> len f = len (default [] (last frames)))
   else sizes = flat_map size_bytes (sizes_of (removelast frames)) /\ Forall (fun f => len f <= MAX_FRAME_BYTES) frames) ->
  code_three (b :: c :: pads ++ sizes ++ concat frames ++ filler) (len (c :: pads ++ sizes ++ concat frames ++ filler)) framesize =
    Ok (mkLayout (len frames) (set_first (sizes_of (removelast frames))) (len (b :: c :: pads ++ sizes)) (len (default [] (last frames))) pad).
Proof.
  intros Hb Hc Hcount Hpos Hmax H48 Hpads Hfill Hsizes. unfold code_three. set (body := pads ++ sizes ++ concat frames ++ filler).
  pose proof (len_nonneg body). rewrite (proj2 (Z.ltb_ge _ 1)), (proj2 (Z.leb_gt _ 1)) by (rewrite ?len_cons; lia). cbn [orb].
  change (@idx CodecError Z (b :: c :: body) 1) with (@Ok CodecError Z c). rewrite bind_Ok. cbv zeta. rewrite Hcount.
  rewrite (proj2 (Z.eqb_neq (len frames) 0)), (proj2 (Z.ltb_ge MAX_PACKET_SAMPLES_48K _)) by lia. cbn [orb].
  replace (len (c :: body) - 1) with (len body) by (rewrite len_cons; lia).
  assert ((if negb (Z.land c 64 =? 0) then padding_loop (S (length (b :: c :: body))) (b :: c :: body) 2 (len body) 0 else mret (2, len body, 0)) =
    Ok (len (b :: c :: pads), len (sizes ++ concat frames), pad)) as ->.
  { destruct (Z.land c 64 =? 0); cbn [negb].
    - destruct Hpads as (-> & ->). unfold body. cbn [app]. rewrite !len_app, Hfill, Z.add_0_r. done.
    - destruct (pad_bytes_nonneg _ _ Hpads) as (Hn & _).
      pose proof (padding_bytes pads pad Hpads [b; c] (sizes ++ concat frames ++ filler) (len body) 0 (S (length (b :: c :: body)))) as Hrun.
      cbn [app] in Hrun. fold body in Hrun. change (len [b; c]) with 2 in Hrun. rewrite Hrun.
      + do 2 f_equal. f_equal. unfold body. rewrite !len_app. lia.
      + unfold body. cbn [length]. rewrite length_app. lia.
      + unfold body. rewrite !len_app. pose proof (len_nonneg sizes). pose proof (len_nonneg (concat frames)). lia. }
  rewrite bind_Ok. cbv beta iota. rewrite (proj2 (Z.ltb_ge _ 0)) by apply len_nonneg. rewrite Z.min_l by lia.
  destruct (frames_split frames Hpos) as (front & f & Hfr). assert (removelast frames = front) as Hrem by (rewrite Hfr; apply removelast_last).
  assert (default [] (last frames) = f) as Hlast by (by rewrite Hfr, last_snoc).
  assert (len frames = len front + 1) as Hlf by (rewrite Hfr, len_app; done). rewrite Hrem, Hlast in *.
  destruct (Z.land c 128 =? 0).
  - destruct Hsizes as (-> & Hall). cbn [app]. assert (len (concat frames) = len f * len frames) as Hcat by (by apply concat_uniform).
    rewrite Hcat, Z.div_mul by lia. rewrite Z.eqb_refl. cbn [negb]. unfold mret, res_ret. rewrite app_nil_r. do 3 f_equal.
    replace (Z.to_nat (len frames - 1)) with (length front) by (unfold len in *; lia).
    apply replicate_as_elem_of. split; [unfold sizes_of; by rewrite length_map|].
    unfold sizes_of. intros x (g & -> & Hg)%list_elem_of_fmap. apply Hall. rewrite Hfr. apply elem_of_app. by left.
  - destruct Hsizes as (-> & Hall). assert (Forall frame_size (sizes_of front)) as Hfs.
    { unfold sizes_of. rewrite Forall_map. rewrite Hfr in Hall. apply Forall_app in Hall as (Hall & _). eapply Forall_impl; [exact Hall|].
      intros g Hg. split; [apply len_nonneg|done]. }
    replace (Z.to_nat (len frames - 1)) with (length (sizes_of front)) by (unfold sizes_of; rewrite length_map; unfold len in *; lia).
    replace (b :: c :: body) with ((b :: c :: pads) ++ flat_map size_bytes (sizes_of front) ++ concat frames ++ filler) by done.
    assert (len (concat frames) = total (sizes_of front) + len f) as Hcat.
    { rewrite Hfr, concat_app, len_app, sizes_concat. cbn [concat]. by rewrite app_nil_r. }
    rewrite vbr_bytes, bind_Ok by (done || (rewrite len_app, Hcat; pose proof (len_nonneg f); lia)).
    rewrite len_app, Hcat. replace (_ + (total (sizes_of front) + len f) - _ - _) with (len f) by lia.
    rewrite (proj2 (Z.ltb_ge (len f) 0)) by apply len_nonneg. done.
Qed.

Lemma wire_parse data p : bytes_ok data -> len data < 2 ^ 64 -> opus_wire data p -> parse data = Ok p.
Proof.
  intros Hok Hl (b & body & -> & Htoc & Hbody & Hlast). destruct p as [toc frames pad]. cbn [pk_toc pk_frames pk_padding] in *. subst toc.
  unfold parse. rewrite len_cons. pose proof (len_nonneg body). rewrite (proj2 (Z.eqb_neq _ 0)) by lia. rewrite idx_cons_0, bind_Ok. cbv zeta.
  change (tc_frame_code (Toc_parse b)) with (Z.land b 3). replace (1 + len body - 1) with (len body) by lia. rewrite <- (len_cons b).
  pose proof Hok as Hb. apply bytes_ok_cons in Hb as (Hb & _). pose proof (framesize_min b Hb) as Hfs.
  remember (samples_per_frame (Toc_parse b) 48000) as fs eqn:Hfseq. remember (Z.land b 3) as code eqn:Hcode.
  destruct Hbody as [f|f g Hfg|f g Hf|c pads sizes frames filler pad Hc Hcount Hpos Hmax Hpads Hfill Hsizes]; cbn [Z.eqb Pos.eqb]; cbn [last default from_option] in Hlast.
  - unfold mret, res_ret. rewrite bind_Ok. apply (parse_rest_wire _ _ [b] [] f []); try done. cbn. by rewrite !app_nil_r.
  - assert (len (f ++ g) = len g * 2) as Hlen by (rewrite len_app; lia). unfold code_one. rewrite Hlen, Z.div_mul by lia.
    assert (Z.land (len g * 2) 1 = 0) as -> by (change 1 with (Z.ones 1); rewrite Z.land_ones by lia; apply Z.mod_mul; lia). cbn [Z.eqb negb]. unfold mret, res_ret. rewrite bind_Ok.
    apply (parse_rest_wire _ _ [b] [f] g []); try done; [cbn; by rewrite !app_nil_r|cbn [sizes_of map]; congruence].
  - unfold code_two. pose proof (size_at_bytes [b] (len f) (f ++ g)) as Hsz. cbn [app] in Hsz. change (len [b]) with 1 in Hsz.
    rewrite Hsz, bind_Ok by (split; [apply len_nonneg|done]). cbv beta iota zeta. rewrite !len_app. pose proof (len_nonneg g).
    rewrite (proj2 (Z.ltb_ge _ (len f))) by lia. unfold mret, res_ret. rewrite bind_Ok. rewrite <- !len_app.
    apply (parse_rest_wire _ _ (b :: size_bytes (len f)) [f] g []); try done; [cbn; by rewrite !app_nil_r|by rewrite len_cons|rewrite !len_app; lia].
  - assert (len frames <= MAX_FRAMES) as H48 by (eapply count_fits; [exact Hfs|done]).
    rewrite (code_three_wire fs b c pads sizes frames filler pad Hb Hc Hcount Hpos Hmax H48 Hpads Hfill Hsizes), bind_Ok.
    destruct (frames_split frames Hpos) as (front & f & ->). rewrite removelast_last, last_snoc in *. cbn [default from_option] in *.
    rewrite len_app in H48. change (len [f]) with 1 in H48.
    apply (parse_rest_wire _ _ (b :: c :: pads ++ sizes) front f filler); try done; [cbn [app]; by rewrite <- app_assoc|by rewrite len_app|lia].
Qed.

Lemma wire_frames data p : bytes_ok data -> opus_wire data p ->
  1 <= frame_count p <= MAX_FRAMES /\ Forall (fun f => len f <= MAX_FRAME_BYTES) (pk_frames p).
Proof.
  intros Hok (b & body & -> & _ & Hbody & Hlast). unfold frame_count. apply bytes_ok_cons in Hok as (Hb & _). pose proof (framesize_min b Hb) as Hfs.
  destruct Hbody as [f|f g Hfg|f g Hf|c pads sizes frames filler pad Hc Hcount Hpos Hmax Hpads Hfill Hsizes]; cbn [last default from_option] in Hlast.
  - split; [done|]. by repeat constructor.
  - split; [done|]. repeat constructor; [by rewrite Hfg|done].
  - split; [done|]. by repeat constructor.
  - split; [split; [lia|]; eapply count_fits; [exact Hfs|done]|]. destruct (Z.land c 128 =? 0); [|tauto].
    destruct Hsizes as (_ & Hall). apply Forall_forall. intros f Hf. by rewrite (Hall f Hf).
Qed.

(** Opus packets are read exactly.  On any datagram the parser returns, a packet
    or the framing error; it returns a packet precisely when the datagram is one on
    the wire of RFC 6716 section 3: the table-of-contents byte, then by frame code
    one frame, two of one size, two with a size before the first, or a count byte
    with optional padding lengths, the sizes of all but the last frame when they
    vary, the frames, and exactly the padding announced; and then it has 1 to 48
    frames of at most 1275 bytes. *)
Lemma opus_packet_exact data : bytes_ok data -> len data < 2 ^ 31 ->
  (parse data = Err invalid \/ exists p, parse data = Ok p) /\
  (forall p, parse data = Ok p <-> opus_wire data p) /\
  (forall p, parse data = Ok p -> 1 <= frame_count p <= MAX_FRAMES /\ Forall (fun f => len f <= MAX_FRAME_BYTES) (pk_frames p)).
Proof.
  intros Hok Hl. assert (forall p, parse data = Ok p <-> opus_wire data p) as Hiff.
  { intros p. split; [|apply wire_parse; (done || lia)]. destruct (parse_outcome data Hok) as [->|(q & -> & Hq)]; [done|]. by intros [= <-]. }
  split; [|split; [done|]].
  - destruct (parse_outcome data Hok) as [->|(q & -> & Hq)]; eauto.
  - intros p Hp%Hiff. by apply (wire_frames data).
Qed.

(** Two frames of different sizes with padding, in code 3. *)
Lemma opus_packet_exact_witness : exists p, parse [3; 0xC2; 3; 1; 10; 20; 21; 0; 0; 0] = Ok p /\ pk_frames p = [[10]; [20; 21]] /\ pk_padding p = 3.
Proof.
  destruct (opus_packet_exact [3; 0xC2; 3; 1; 10; 20; 21; 0; 0; 0]) as ([H|(p & Hp)] & _).
  - repeat constructor; lia.
  - vm_compute. reflexivity.
  - vm_compute in H. discriminate H.
  - exists p. split; [exact Hp|]. vm_compute in Hp. injection Hp as <-. split; reflexivity.
Defined.
