(* ===== verification/AmrPayload.v ===== *)
(** * AMR payloads: crates/siphon-rtp-codec/src/amr/mod.rs, payload.rs and rtp.rs

    RFC 4867 framing in both formats, twice: payload.rs reads and writes bit by bit
    into fresh vectors, rtp.rs works octet by octet in place on the packet path.
    [usize] positions are integers; octets keep their width, a left shift drops
    the bits shifted out. *)

From stdpp Require Import base list numbers option strings.
From Stdlib Require Import Lia ZArith.
From S2P Require Import Prelude Codec.

Open Scope Z_scope.

Abbreviation amr := (res CodecError).

(** ** amr/mod.rs: frame sizes and the octet-aligned table of contents *)

Definition AMRNB_SPEECH_BITS : list Z := [95; 103; 118; 134; 148; 159; 204; 244].
Definition AMRNB_SID_BITS : Z := 39.
Definition AMRWB_SPEECH_BITS : list Z := [132; 177; 253; 285; 317; 365; 397; 461; 477].
Definition AMRWB_SID_BITS : Z := 40.

Record Toc : Type := mkToc { to_follow : bool; to_frame_type : Z; to_quality_ok : bool }.

Definition from_octet (byte : Z) : Toc :=
  mkToc (negb (Z.land byte 0x80 =? 0)) (Z.land (Z.shiftr byte 3) 0x0F) (negb (Z.land byte 0x04 =? 0)).

Definition to_octet (t : Toc) : Z :=
  Z.lor (Z.lor (Z.shiftl (b2z (to_follow t)) 7) (Z.shiftl (Z.land (to_frame_type t) 0x0F) 3))
    (Z.shiftl (b2z (to_quality_ok t)) 2).

Record OctetAlignedHeader : Type := mkOctetAlignedHeader { oh_cmr : Z; oh_entries : list Toc; oh_data_offset : Z }.

(** The loop over table-of-contents octets: the entries and the index after them. *)
Fixpoint octet_tocs (fuel : nat) (payload : bytes) (index : Z) : amr (list Toc * Z) :=
  match fuel with
  | O => Panic
  | S fuel =>
      byte ← ok_or (get_at payload index) (Malformed "truncated AMR ToC");
      let toc := from_octet byte in
      if to_follow toc then
        '(tocs, index) ← octet_tocs fuel payload (index + 1);
        mret (toc :: tocs, index)
      else mret ([toc], index + 1)
  end.

Definition parse_octet_aligned (payload : bytes) : amr OctetAlignedHeader :=
  if len payload =? 0 then Err (Malformed "empty AMR payload") else
  b ← idx payload 0;
  '(entries, index) ← octet_tocs (S (length payload)) payload 1;
  mret (mkOctetAlignedHeader (Z.shiftr b 4) entries index).

(** ** amr/payload.rs: the bitwise codec *)

Definition amrwb_frame_bits (frame_type : Z) : option Z :=
  if (0 <=? frame_type) && (frame_type <=? 8) then get_at AMRWB_SPEECH_BITS frame_type
  else if frame_type =? 9 then Some AMRWB_SID_BITS
  else if (frame_type =? 14) || (frame_type =? 15) then Some 0
  else None.

Definition amrnb_frame_bits (frame_type : Z) : option Z :=
  if (0 <=? frame_type) && (frame_type <=? 7) then get_at AMRNB_SPEECH_BITS frame_type
  else if frame_type =? 8 then Some AMRNB_SID_BITS
  else if frame_type =? 15 then Some 0
  else None.

Record AmrFrame : Type := mkAmrFrame { af_frame_type : Z; af_quality_ok : bool; af_data : bytes }.
Record AmrPayload : Type := mkAmrPayload { pl_cmr : Z; pl_frames : list AmrFrame }.

Record BitReader : Type := mkBitReader { br_bytes : bytes; br_position : Z }.

(** One bit, and the reader after it. *)
Definition next_bit (r : BitReader) : amr (Z * BitReader) :=
  byte ← idx (br_bytes r) (br_position r / 8);
  mret (Z.land (Z.shiftr byte (7 - br_position r mod 8)) 1, mkBitReader (br_bytes r) (br_position r + 1)).

Fixpoint read_bits (count : nat) (r : BitReader) (value : Z) : amr (Z * BitReader) :=
  match count with
  | O => mret (value, r)
  | S count => '(b, r) ← next_bit r; read_bits count r (Z.lor (wrap 32 (Z.shiftl value 1)) b)
  end.

Definition read (r : BitReader) (count : Z) : amr (option (Z * BitReader)) :=
  if len (br_bytes r) * 8 <? br_position r + count then mret None
  else '(value, r) ← read_bits (Z.to_nat count) r 0; mret (Some (value, r)).

(** [out[index / 8] |= 1 << (7 - index % 8)] when the bit is set. *)
Definition or_bit (out : bytes) (index bit : Z) : amr bytes :=
  if bit =? 0 then mret out else
  b ← idx out (index / 8);
  set_at out (index / 8) (Z.lor b (Z.shiftl 1 (7 - index mod 8))).

Fixpoint read_into (count : nat) (r : BitReader) (out : bytes) (index : Z) : amr (bytes * BitReader) :=
  match count with
  | O => mret (out, r)
  | S count =>
      '(b, r) ← next_bit r;
      out ← or_bit out index b;
      read_into count r out (index + 1)
  end.

Definition read_to_bytes (r : BitReader) (count : Z) : amr (option (bytes * BitReader)) :=
  if len (br_bytes r) * 8 <? br_position r + count then mret None
  else '(out, r) ← read_into (Z.to_nat count) r (replicate (Z.to_nat (div_ceil count 8)) 0) 0; mret (Some (out, r)).

(** [reader.read(n).ok_or(..)?] *)
Definition read_or (r : BitReader) (count : Z) (e : CodecError) : amr (Z * BitReader) :=
  o ← read r count; ok_or o e.

Fixpoint reader_tocs (fuel : nat) (r : BitReader) : amr (list Toc * BitReader) :=
  match fuel with
  | O => Panic
  | S fuel =>
      '(follow, r) ← read_or r 1 (Malformed "truncated AMR ToC");
      '(frame_type, r) ← read_or r 4 (Malformed "truncated AMR ToC");
      '(quality_ok, r) ← read_or r 1 (Malformed "truncated AMR ToC");
      let toc := mkToc (negb (follow =? 0)) (wrap 8 frame_type) (negb (quality_ok =? 0)) in
      if to_follow toc then
        '(tocs, r) ← reader_tocs fuel r;
        mret (toc :: tocs, r)
      else mret ([toc], r)
  end.

Section bitwise.
Context (frame_bits : Z -> option Z).

Fixpoint octet_frames (payload : bytes) (tocs : list Toc) (index : Z) : amr (list AmrFrame) :=
  match tocs with
  | [] => mret []
  | toc :: tocs =>
      bits ← ok_or (frame_bits (to_frame_type toc)) (Malformed "reserved AMR frame type");
      let octets := div_ceil bits 8 in
      data ← ok_or (get_range payload index (index + octets)) (Malformed "truncated AMR frame data");
      frames ← octet_frames payload tocs (index + octets);
      mret (mkAmrFrame (to_frame_type toc) (to_quality_ok toc) data :: frames)
  end.

Definition parse_octet (payload : bytes) : amr AmrPayload :=
  if len payload =? 0 then Err (Malformed "empty AMR payload") else
  b ← idx payload 0;
  '(tocs, index) ← octet_tocs (S (length payload)) payload 1;
  frames ← octet_frames payload tocs index;
  mret (mkAmrPayload (Z.shiftr b 4) frames).

Fixpoint reader_frames (r : BitReader) (tocs : list Toc) : amr (list AmrFrame) :=
  match tocs with
  | [] => mret []
  | toc :: tocs =>
      bits ← ok_or (frame_bits (to_frame_type toc)) (Malformed "reserved AMR frame type");
      o ← read_to_bytes r bits;
      '(data, r) ← ok_or o (Malformed "truncated AMR frame data");
      frames ← reader_frames r tocs;
      mret (mkAmrFrame (to_frame_type toc) (to_quality_ok toc) data :: frames)
  end.

Definition parse_bandwidth_efficient (payload : bytes) : amr AmrPayload :=
  '(cmr, r) ← read_or (mkBitReader payload 0) 4 (Malformed "truncated AMR CMR");
  '(tocs, r) ← reader_tocs (S (8 * length payload)) r;
  frames ← reader_frames r tocs;
  mret (mkAmrPayload (wrap 8 cmr) frames).

Definition AmrPayload_parse (payload : bytes) (octet_aligned : bool) : amr AmrPayload :=
  if octet_aligned then parse_octet payload else parse_bandwidth_efficient payload.

(** [BitWriter]: the bytes written and the bits in them. *)
Record BitWriter : Type := mkBitWriter { bw_bytes : bytes; bw_position : Z }.

Definition write_bit (w : BitWriter) (bit : Z) : amr BitWriter :=
  let out := if bw_position w mod 8 =? 0 then bw_bytes w ++ [0] else bw_bytes w in
  out ← or_bit out (bw_position w) bit;
  mret (mkBitWriter out (bw_position w + 1)).

(** [for shift in (0..count).rev()] *)
Fixpoint write (w : BitWriter) (value : Z) (count : nat) : amr BitWriter :=
  match count with
  | O => mret w
  | S shift =>
      w ← write_bit w (Z.land (Z.shiftr value (Z.of_nat shift)) 1);
      write w value shift
  end.

Fixpoint write_from (w : BitWriter) (data : bytes) (index : Z) (count : nat) : amr BitWriter :=
  match count with
  | O => mret w
  | S count =>
      byte ← idx data (index / 8);
      w ← write_bit w (Z.land (Z.shiftr byte (7 - index mod 8)) 1);
      write_from w data (index + 1) count
  end.

Definition write_bits_from_bytes (w : BitWriter) (data : bytes) (count : Z) : amr BitWriter :=
  write_from w data 0 (Z.to_nat count).

Definition frame_data_len (frame : AmrFrame) : amr Z :=
  bits ← ok_or (frame_bits (af_frame_type frame)) (Malformed "reserved AMR frame type");
  let octets := div_ceil bits 8 in
  if len (af_data frame) <? octets then Err (Malformed "AMR frame data shorter than its mode") else mret octets.

(** The frames left, the last one without the follow bit. *)
Fixpoint toc_octets (frames : list AmrFrame) : bytes :=
  match frames with
  | [] => []
  | f :: rest => to_octet (mkToc (negb (len rest =? 0)) (af_frame_type f) (af_quality_ok f)) :: toc_octets rest
  end.

Fixpoint frame_octets (frames : list AmrFrame) : amr bytes :=
  match frames with
  | [] => mret []
  | f :: rest =>
      octets ← frame_data_len f;
      data ← slice (af_data f) 0 octets;
      more ← frame_octets rest;
      mret (data ++ more)
  end.

Fixpoint write_tocs (w : BitWriter) (frames : list AmrFrame) : amr BitWriter :=
  match frames with
  | [] => mret w
  | f :: rest =>
      w ← write w (b2z (negb (len rest =? 0))) 1;
      w ← write w (Z.land (af_frame_type f) 0x0F) 4;
      w ← write w (b2z (af_quality_ok f)) 1;
      write_tocs w rest
  end.

Fixpoint write_frames (w : BitWriter) (frames : list AmrFrame) : amr BitWriter :=
  match frames with
  | [] => mret w
  | f :: rest =>
      bits ← ok_or (frame_bits (af_frame_type f)) (Malformed "reserved AMR frame type");
      _ ← frame_data_len f;
      w ← write_bits_from_bytes w (af_data f) bits;
      write_frames w rest
  end.

Definition serialize (p : AmrPayload) (octet_aligned : bool) : amr bytes :=
  if octet_aligned then
    data ← frame_octets (pl_frames p);
    mret ((wrap 8 (Z.shiftl (Z.land (pl_cmr p) 0x0F) 4) :: toc_octets (pl_frames p)) ++ data)
  else
    w ← write (mkBitWriter [] 0) (Z.land (pl_cmr p) 0x0F) 4;
    w ← write_tocs w (pl_frames p);
    w ← write_frames w (pl_frames p);
    mret (bw_bytes w).

End bitwise.

(** ** amr/rtp.rs: the codec of the packet path *)

Inductive PayloadFormat : Type := BandwidthEfficient | OctetAligned.

Definition header_bits (f : PayloadFormat) : Z := match f with BandwidthEfficient => 4 | OctetAligned => 8 end.
Definition toc_entry_bits (f : PayloadFormat) : Z := match f with BandwidthEfficient => 6 | OctetAligned => 8 end.
Definition frame_span (f : PayloadFormat) (bits : Z) : Z :=
  match f with BandwidthEfficient => bits | OctetAligned => div_ceil bits 8 * 8 end.

Inductive Variant : Type := Narrowband | Wideband.

Definition highest_mode (v : Variant) : Z := match v with Narrowband => 7 | Wideband => 8 end.
Definition frame_bits (v : Variant) (frame_type : Z) : option Z :=
  match v with Narrowband => amrnb_frame_bits frame_type | Wideband => amrwb_frame_bits frame_type end.
Definition variant_samples (v : Variant) : Z := match v with Narrowband => 160 | Wideband => 320 end.

Definition NO_MODE_REQUEST : Z := 15.
Definition NO_DATA : Z := 15.
Definition SPEECH_LOST : Z := 14.
Definition MAX_FRAMES : Z := 12.
Definition MAX_FRAME_OCTETS : Z := 60.

Record FrameSlot : Type := mkFrameSlot { sl_frame_type : Z; sl_quality_ok : bool; sl_bits : Z; sl_bit_offset : Z }.

(** The loop of [copy_bits]: [index] counts the octets written. *)
Fixpoint copy_octets (n : nat) (payload : bytes) (first shift index : Z) (out : bytes) : amr bytes :=
  match n with
  | O => mret out
  | S n =>
      b ← idx payload (first + index);
      let high := wrap 8 (Z.shiftl b shift) in
      let low := match get_at payload (first + index + 1) with
                 | Some next => if negb (shift =? 0) then Z.shiftr next (8 - shift) else 0
                 | None => 0
                 end in
      out ← set_at out index (Z.lor high low);
      copy_octets n payload first shift (index + 1) out
  end.

Definition copy_bits (slot : FrameSlot) (payload out : bytes) : amr (Z * bytes) :=
  let bits := sl_bits slot in
  let octets := div_ceil bits 8 in
  let start := sl_bit_offset slot in
  if (len out <? octets) || (len payload * 8 <? start + bits) then mret (0, out) else
  out ← copy_octets (Z.to_nat octets) payload (start / 8) (start mod 8) 0 out;
  out ← (if negb (bits mod 8 =? 0) then
           b ← idx out (octets - 1);
           set_at out (octets - 1) (Z.land b (wrap 8 (Z.shiftl 0xFF (8 - bits mod 8))))
         else mret out);
  mret (octets, out).

Record PayloadLayout : Type := mkPayloadLayout { la_cmr : Z; la_frames : list FrameSlot }.

Definition bit (payload : bytes) (index : Z) : option bool :=
  octet ← get_at payload (index / 8);
  Some (negb (Z.land octet (Z.shiftr 0x80 (index mod 8)) =? 0)).

(** [field]: the bits from [start], [n] of them left. *)
Fixpoint field_from (payload : bytes) (start : Z) (n : nat) (value : Z) : option Z :=
  match n with
  | O => Some value
  | S n =>
      b ← bit payload start;
      field_from payload (start + 1) n (Z.lor (wrap 8 (Z.shiftl value 1)) (b2z b))
  end.

Definition field (payload : bytes) (start width : Z) : option Z := field_from payload start (Z.to_nat width) 0.

(** The loop over the table of contents: the slots and the position after them. *)
Fixpoint read_tocs (fuel : nat) (payload : bytes) (format : PayloadFormat) (variant : Variant) (position count : Z) :
  amr (list FrameSlot * Z) :=
  match fuel with
  | O => Panic
  | S fuel =>
      entry ← ok_or (field payload position 6) (Malformed "truncated AMR ToC");
      let position := position + toc_entry_bits format in
      if len payload * 8 <? position then Err (Malformed "truncated AMR ToC") else
      let frame_type := Z.land (Z.shiftr entry 1) 0x0F in
      bits ← ok_or (frame_bits variant frame_type) (Malformed "reserved AMR frame type");
      if MAX_FRAMES <=? count then Err (Malformed "more AMR frames in one payload than the 12 a receiver accepts") else
      let slot := mkFrameSlot frame_type (negb (Z.land entry 0x01 =? 0)) bits 0 in
      if Z.land entry 0x20 =? 0 then mret ([slot], position)
      else
        '(slots, position) ← read_tocs fuel payload format variant position (count + 1);
        mret (slot :: slots, position)
  end.

(** [slot.bit_offset = position]: the slots and the position after the frames. *)
Fixpoint place_slots (format : PayloadFormat) (slots : list FrameSlot) (position : Z) : list FrameSlot * Z :=
  match slots with
  | [] => ([], position)
  | s :: slots =>
      let '(placed, stop) := place_slots format slots (position + frame_span format (sl_bits s)) in
      (mkFrameSlot (sl_frame_type s) (sl_quality_ok s) (sl_bits s) (wrap 32 position) :: placed, stop)
  end.

Definition read_payload (payload : bytes) (format : PayloadFormat) (variant : Variant) : amr PayloadLayout :=
  if len payload =? 0 then Err (Malformed "empty AMR payload") else
  let total := len payload * 8 in
  cmr ← ok_or (field payload 0 4) (Malformed "truncated AMR CMR");
  '(slots, position) ← read_tocs (S (Z.to_nat MAX_FRAMES)) payload format variant (header_bits format) 0;
  let '(slots, position) := place_slots format slots position in
  if total <? position then Err (Malformed "truncated AMR frame data") else
  if 7 <? total - position then Err (Malformed "AMR payload longer than its table of contents describes") else
  mret (mkPayloadLayout cmr slots).

(** [FrameSource] is the frame of payload.rs with borrowed data. *)
Abbreviation FrameSource := AmrFrame.

Fixpoint payload_bits (format : PayloadFormat) (variant : Variant) (frame_types : list Z) (bits : Z) : option Z :=
  match frame_types with
  | [] => Some bits
  | t :: frame_types =>
      b ← frame_bits variant t;
      payload_bits format variant frame_types (bits + (toc_entry_bits format + frame_span format b))
  end.

Definition payload_len (format : PayloadFormat) (variant : Variant) (frame_types : list Z) : option Z :=
  bits ← payload_bits format variant frame_types (header_bits format);
  Some (div_ceil bits 8).

(** The loop of [put_bits] over the octets of the source; [left] of them remain. *)
Fixpoint put_octets (out : bytes) (first shift bits index : Z) (source : bytes) : amr bytes :=
  match source with
  | [] => mret out
  | octet :: rest =>
      let octet := if (index + 1 =? div_ceil bits 8) && negb (bits mod 8 =? 0)
                   then Z.land octet (wrap 8 (Z.shiftl 0xFF (8 - bits mod 8))) else octet in
      b ← idx out (first + index);
      out ← set_at out (first + index) (Z.lor b (Z.shiftr octet shift));
      out ← (if negb (shift =? 0) then
               match get_at out (first + index + 1) with
               | Some next => set_at out (first + index + 1) (Z.lor next (wrap 8 (Z.shiftl octet (8 - shift))))
               | None => mret out
               end
             else mret out);
      put_octets out first shift bits (index + 1) rest
  end.

Definition put_bits (out : bytes) (start : Z) (source : bytes) (bits : Z) : amr bytes :=
  octets ← slice source 0 (div_ceil bits 8);
  put_octets out (start / 8) (start mod 8) bits 0 octets.

Definition toc_entry (follow : bool) (frame : FrameSource) : Z :=
  Z.lor (Z.lor (Z.shiftl (b2z follow) 5) (Z.shiftl (Z.land (af_frame_type frame) 0x0F) 1)) (b2z (af_quality_ok frame)).

Fixpoint put_tocs (out : bytes) (format : PayloadFormat) (position : Z) (frames : list FrameSource) : amr (bytes * Z) :=
  match frames with
  | [] => mret (out, position)
  | f :: rest =>
      out ← put_bits out position [wrap 8 (Z.shiftl (toc_entry (negb (len rest =? 0)) f) 2)] 6;
      put_tocs out format (position + toc_entry_bits format) rest
  end.

Fixpoint put_frames (out : bytes) (format : PayloadFormat) (variant : Variant) (position : Z) (frames : list FrameSource) : amr bytes :=
  match frames with
  | [] => mret out
  | f :: rest =>
      bits ← ok_or (frame_bits variant (af_frame_type f)) (Malformed "reserved AMR frame type");
      if len (af_data f) <? div_ceil bits 8 then Err (Malformed "AMR frame data shorter than its mode") else
      out ← put_bits out position (af_data f) bits;
      put_frames out format variant (position + frame_span format bits) rest
  end.

(** The length in octets and the buffer; an error leaves the buffer half written, and
    no caller reads it. *)
Definition write_payload (format : PayloadFormat) (variant : Variant) (cmr : Z) (frames : list FrameSource) (out : bytes) :
  amr (Z * bytes) :=
  if (len frames =? 0) || (MAX_FRAMES <? len frames) then Err (Malformed "an AMR payload carries 1 to 12 frames") else
  needed ← ok_or (payload_len format variant (map af_frame_type frames)) (Malformed "reserved AMR frame type");
  if len out <? needed then Err (OutputTooSmall needed (len out)) else
  let rest := drop (Z.to_nat needed) out in
  w ← set_at (replicate (Z.to_nat needed) 0) 0 (wrap 8 (Z.shiftl (Z.land cmr 0x0F) 4));
  '(w, position) ← put_tocs w format (header_bits format) frames;
  w ← put_frames w format variant position frames;
  mret (needed, w ++ rest).

(** * Proofs *)

(** ** Bits of a byte string, most significant first *)

Definition tb (l : bytes) (i : Z) : bool := Z.testbit (byte_of l (i / 8)) (7 - i mod 8).

Lemma bit_index i : i = 8 * (i / 8) + i mod 8 /\ 0 <= i mod 8 < 8.
Proof. pose proof (Z.div_mod i 8 ltac:(lia)). pose proof (Z.mod_pos_bound i 8 ltac:(lia)). lia. Qed.

Lemma byte_of_range l k : 0 <= k -> bytes_ok l -> is_byte (byte_of l k).
Proof.
  intros Hk Hl. destruct (Z.lt_ge_cases k (len l)); [apply byte_of_is_byte; (done || lia)|]. unfold byte_of.
  rewrite nth_overflow by (unfold len in *; lia). unfold is_byte. lia.
Qed.

Lemma byte_of_beyond l k : len l <= k -> byte_of l k = 0.
Proof. intros H. unfold byte_of. apply nth_overflow. unfold len in H. lia. Qed.

Lemma tb_beyond l i : 0 <= i -> 8 * len l <= i -> tb l i = false.
Proof. intros Hi H. unfold tb. rewrite byte_of_beyond; [apply Z.bits_0|]. apply Z.div_le_lower_bound; lia. Qed.

Lemma byte_eq a b : is_byte a -> is_byte b -> (forall k, 0 <= k < 8 -> Z.testbit a (7 - k) = Z.testbit b (7 - k)) -> a = b.
Proof.
  unfold is_byte. intros Ha Hb H. apply Z.bits_inj'. intros n Hn. destruct (Z.lt_ge_cases n 8).
  - specialize (H (7 - n) ltac:(lia)). by replace (7 - (7 - n)) with n in H by lia.
  - by rewrite !(testbit_above _ 8 n) by lia.
Qed.

Lemma tb_ext l1 l2 : bytes_ok l1 -> bytes_ok l2 -> len l1 = len l2 -> (forall i, 0 <= i < 8 * len l1 -> tb l1 i = tb l2 i) -> l1 = l2.
Proof.
  intros H1 H2 Hl H. apply (nth_ext l1 l2 0 0); [unfold len in Hl; lia|]. intros n Hn.
  pose proof (byte_of_range l1 (Z.of_nat n) ltac:(lia) H1) as B1. pose proof (byte_of_range l2 (Z.of_nat n) ltac:(lia) H2) as B2.
  unfold byte_of in B1, B2. rewrite Nat2Z.id in B1, B2. apply byte_eq; [done|done|]. intros k Hk.
  specialize (H (8 * Z.of_nat n + k)). unfold tb, byte_of, len in H.
  replace ((8 * Z.of_nat n + k) / 8) with (Z.of_nat n) in H by (rewrite Z.add_comm, Z.mul_comm, Z.div_add, Z.div_small by lia; lia).
  replace ((8 * Z.of_nat n + k) mod 8) with k in H by (rewrite Z.add_comm, Z.mul_comm, Z.mod_add, Z.mod_small by lia; lia).
  rewrite Nat2Z.id in H. apply H. lia.
Qed.

Lemma set_byte {E} l k v : 0 <= k < len l -> exists l', @set_at E Z l k v = Ok l' /\ len l' = len l /\
  (bytes_ok l -> is_byte v -> bytes_ok l') /\ forall j, 0 <= j -> byte_of l' j = if j =? k then v else byte_of l j.
Proof.
  intros Hk. pose proof (sub_byte_of l k Hk) as Hs. assert (l = take (Z.to_nat k) l ++ byte_of l k :: drop (Z.to_nat (k + 1)) l) as Hsplit.
  { rewrite <- (take_drop (Z.to_nat k) l) at 1. f_equal. unfold sub in Hs. replace (Z.to_nat (k + 1)) with (Z.to_nat k + 1)%nat by lia.
    rewrite <- drop_drop, <- (take_drop 1 (drop (Z.to_nat k) l)) at 1. by replace (Z.to_nat (k + 1 - k)) with 1%nat in Hs by lia; rewrite Hs. }
  set (p := take (Z.to_nat k) l) in *. set (q := drop (Z.to_nat (k + 1)) l) in *. set (b := byte_of l k) in *.
  assert (len p = k) as Hp by (unfold p; rewrite len_take; lia). exists (p ++ v :: q).
  split; [rewrite Hsplit at 1; apply (copy_at_mid p [b] [v] q); done|].
  split; [rewrite Hsplit, !len_app, !len_cons; done|]. split.
  - intros Hok Hv. rewrite Hsplit in Hok. apply bytes_ok_app in Hok as (Hop & Hoq). apply bytes_ok_cons in Hoq as (_ & Hoq).
    apply bytes_ok_app. split; [done|]. by apply bytes_ok_cons.
  - intros j Hj. unfold byte_of. rewrite Hsplit at 1. assert (length p = Z.to_nat k) as Hlp by (unfold len in Hp; lia).
    destruct (Z.eqb_spec j k) as [->|Hne].
    + rewrite app_nth2 by lia. by rewrite Hlp, Nat.sub_diag.
    + destruct (Z.lt_ge_cases j k).
      * by rewrite !app_nth1 by lia.
      * rewrite !app_nth2 by lia. replace (Z.to_nat j - length p)%nat with (S (Z.to_nat (j - k - 1))) by lia. done.
Qed.

Lemma tb_set l l' k v i : (forall j, 0 <= j -> byte_of l' j = if j =? k then v else byte_of l j) -> 0 <= i ->
  tb l' i = if i / 8 =? k then Z.testbit v (7 - i mod 8) else tb l i.
Proof. intros H Hi. unfold tb. rewrite H by (apply Z.div_pos; lia). by destruct (i / 8 =? k). Qed.

(** ** Reading bits *)

Fixpoint bits_val (f : Z -> bool) (s : Z) (n : nat) : Z :=
  match n with O => 0 | S n => 2 * bits_val f s n + b2z (f (s + Z.of_nat n)) end.

Lemma bits_val_bound f s n : 0 <= bits_val f s n < 2 ^ Z.of_nat n.
Proof.
  induction n as [|n IH]; [cbn; lia|]. cbn [bits_val]. rewrite Nat2Z.inj_succ, Z.pow_succ_r by lia. destruct (f _); cbn [b2z]; lia.
Qed.

Lemma bits_val_split f s a b : bits_val f s (a + b) = bits_val f s a * 2 ^ Z.of_nat b + bits_val f (s + Z.of_nat a) b.
Proof.
  induction b as [|b IH]; [rewrite Nat.add_0_r; cbn; lia|]. rewrite Nat.add_succ_r. cbn [bits_val].
  rewrite IH, Nat2Z.inj_succ, Z.pow_succ_r, Nat2Z.inj_add, Z.add_assoc by lia. ring.
Qed.

Lemma bits_val_S f s n : bits_val f s (S n) = b2z (f s) * 2 ^ Z.of_nat n + bits_val f (s + 1) n.
Proof. change (S n) with (1 + n)%nat. rewrite bits_val_split. cbn [bits_val Z.of_nat]. by rewrite Z.add_0_r. Qed.

Lemma bits_val_of f s n v : 0 <= v < 2 ^ Z.of_nat n -> (forall k, 0 <= k < Z.of_nat n -> f (s + k) = Z.testbit v (Z.of_nat n - 1 - k)) ->
  bits_val f s n = v.
Proof.
  revert v. induction n as [|n IH]; intros v Hv H; [cbn in *; lia|]. rewrite Nat2Z.inj_succ, Z.pow_succ_r in Hv by lia.
  cbn [bits_val]. rewrite (IH (v / 2)).
  - rewrite (H (Z.of_nat n)) by lia. replace (Z.of_nat (S n) - 1 - Z.of_nat n) with 0 by lia. pose proof (Z.div_mod v 2 ltac:(lia)) as Hd.
    rewrite Zmod_odd in Hd. rewrite Z.bit0_odd. destruct (Z.odd v); cbn [b2z]; lia.
  - split; [apply Z.div_pos; lia|apply Z.div_lt_upper_bound; lia].
  - intros k Hk. rewrite H by lia. change 2 with (2 ^ 1). rewrite Z.div_pow2_bits by lia. f_equal. lia.
Qed.

Lemma shiftl_lor_bit v b w : 0 <= v -> 2 * v + 1 < 2 ^ w -> Z.lor (wrap w (Z.shiftl v 1)) (b2z b) = 2 * v + b2z b.
Proof.
  intros Hv Hw. unfold wrap. rewrite Z.shiftl_mul_pow2 by lia. change (2 ^ 1) with 2. rewrite Z.mod_small by lia.
  pose proof (lor_shiftl_add (b2z b) v 1 ltac:(lia)) as H. rewrite Z.shiftl_mul_pow2 in H by lia. change (2 ^ 1) with 2 in H.
  rewrite H by (destruct b; cbn [b2z]; lia). lia.
Qed.

Lemma land_bit_at x m : 0 <= m -> Z.land (Z.shiftr x m) 1 = b2z (Z.testbit x m).
Proof.
  intros Hm. change 1 with (Z.ones 1). rewrite Z.land_ones, Z.shiftr_div_pow2 by lia. change (2 ^ 1) with 2.
  rewrite <- (Z.testbit_spec' x m Hm). by destruct (Z.testbit x m).
Qed.

Lemma byte_index i (l : bytes) : 0 <= i < 8 * len l -> 0 <= i / 8 < len l.
Proof. intros H. split; [apply Z.div_pos; lia|apply Z.div_lt_upper_bound; lia]. Qed.

Lemma get_byte (l : bytes) k : 0 <= k < len l -> get_at l k = Some (byte_of l k).
Proof.
  intros Hk. unfold get_at. rewrite (proj2 (Z.leb_le 0 k)) by lia. unfold byte_of.
  destruct (lookup_lt_is_Some_2 l (Z.to_nat k)) as [x Hx]; [unfold len in Hk; lia|]. rewrite Hx. f_equal. symmetry. by apply nth_lookup_Some.
Qed.

Lemma get_beyond (l : bytes) k : len l <= k -> get_at l k = None.
Proof.
  intros Hk. unfold get_at. destruct (0 <=? k); [|done]. apply lookup_ge_None_2. unfold len in Hk. lia.
Qed.

Lemma bit_at payload i : 0 <= i -> bit payload i = if i <? 8 * len payload then Some (tb payload i) else None.
Proof.
  intros Hi. unfold bit. destruct (Z.ltb_spec i (8 * len payload)).
  - rewrite get_byte by (by apply byte_index). cbn [mbind option_bind]. unfold tb. f_equal. pose proof (bit_index i) as (_ & Hm).
    replace (Z.shiftr 128 (i mod 8)) with (2 ^ (7 - i mod 8)); [by apply land_pow2_eqb; lia|].
    rewrite Z.shiftr_div_pow2 by lia. change 128 with (2 ^ 7). rewrite <- Z.pow_sub_r by lia. done.
  - rewrite get_beyond; [done|]. apply Z.div_le_lower_bound; lia.
Qed.

Lemma field_from_at payload n : forall s v, 0 <= s -> 0 <= v -> (n <= 8)%nat -> v < 2 ^ (8 - Z.of_nat n) ->
  field_from payload s n v = if (s + Z.of_nat n <=? 8 * len payload) || (n =? 0)%nat then Some (v * 2 ^ Z.of_nat n + bits_val (tb payload) s n) else None.
Proof.
  induction n as [|n IH]; intros s v Hs Hv Hn Hb.
  - cbn [field_from bits_val]. rewrite orb_true_r. f_equal. cbn. lia.
  - cbn [field_from]. rewrite bit_at by done. rewrite orb_false_r. destruct (Z.ltb_spec s (8 * len payload)).
    + cbn [mbind option_bind]. assert (2 * v + 1 < 2 ^ 8) as Hv8.
      { assert (2 ^ (8 - Z.of_nat (S n)) <= 2 ^ 7) by (apply Z.pow_le_mono_r; lia). change (2 ^ 8) with (2 * 2 ^ 7). lia. }
      rewrite shiftl_lor_bit by lia.
      assert (2 * v + b2z (tb payload s) < 2 ^ (8 - Z.of_nat n)) as Hv'.
      { replace (8 - Z.of_nat n) with (Z.succ (8 - Z.of_nat (S n))) by lia. rewrite Z.pow_succ_r by lia. destruct (tb payload s); cbn [b2z]; lia. }
      rewrite IH by (try lia; destruct (tb payload s); cbn [b2z]; lia). rewrite bits_val_S. rewrite Nat2Z.inj_succ, Z.pow_succ_r by lia.
      replace (s + 1 + Z.of_nat n) with (s + Z.succ (Z.of_nat n)) by lia.
      destruct (Z.leb_spec (s + Z.succ (Z.of_nat n)) (8 * len payload)); cbn [orb]; [f_equal; ring|].
      destruct n as [|n]; [lia|done].
    + rewrite (proj2 (Z.leb_gt _ _)) by lia. done.
Qed.

Lemma field_at payload s w : 0 <= s -> 1 <= w <= 8 ->
  field payload s w = if s + w <=? 8 * len payload then Some (bits_val (tb payload) s (Z.to_nat w)) else None.
Proof.
  intros Hs Hw. unfold field. rewrite field_from_at by (try lia; apply Z.pow_pos_nonneg; lia). rewrite Z2Nat.id by lia.
  destruct (Z.to_nat w) as [|n] eqn:E; [lia|]. rewrite orb_false_r. cbn [Nat.eqb]. by rewrite Z.mul_0_l, Z.add_0_l.
Qed.

Lemma next_bit_at l p : 0 <= p < 8 * len l -> next_bit (mkBitReader l p) = Ok (b2z (tb l p), mkBitReader l (p + 1)).
Proof.
  intros Hp. unfold next_bit. cbn [br_bytes br_position]. rewrite idx_byte_of, bind_Ok by (by apply byte_index).
  pose proof (bit_index p). by rewrite land_bit_at by lia.
Qed.

Lemma read_bits_at l n : forall p v, 0 <= p -> p + Z.of_nat n <= 8 * len l -> 0 <= v -> (n <= 32)%nat -> v < 2 ^ (32 - Z.of_nat n) ->
  read_bits n (mkBitReader l p) v = Ok (v * 2 ^ Z.of_nat n + bits_val (tb l) p n, mkBitReader l (p + Z.of_nat n)).
Proof.
  induction n as [|n IH]; intros p v Hp Hl Hv Hn Hb.
  - cbn [read_bits bits_val Z.of_nat]. rewrite !Z.add_0_r. change (2 ^ 0) with 1. by rewrite Z.mul_1_r.
  - cbn [read_bits]. rewrite next_bit_at, bind_Ok by lia.
    assert (2 * v + 1 < 2 ^ 32) as Hv32.
    { assert (2 ^ (32 - Z.of_nat (S n)) <= 2 ^ 31) by (apply Z.pow_le_mono_r; lia). change (2 ^ 32) with (2 * 2 ^ 31). lia. }
    rewrite shiftl_lor_bit by lia. rewrite IH; [|lia|lia|destruct (tb l p); cbn [b2z]; lia|lia|].
    + rewrite bits_val_S, Nat2Z.inj_succ, Z.pow_succ_r by lia. replace (p + 1 + Z.of_nat n) with (p + Z.succ (Z.of_nat n)) by lia. do 2 f_equal. ring.
    + replace (32 - Z.of_nat n) with (Z.succ (32 - Z.of_nat (S n))) by lia. rewrite Z.pow_succ_r by lia. destruct (tb l p); cbn [b2z]; lia.
Qed.

Lemma read_at l p w : 0 <= p -> 0 <= w <= 32 -> read (mkBitReader l p) w =
  Ok (if p + w <=? 8 * len l then Some (bits_val (tb l) p (Z.to_nat w), mkBitReader l (p + w)) else None).
Proof.
  intros Hp Hw. unfold read. cbn [br_bytes br_position]. rewrite (Z.mul_comm (len l) 8). destruct (Z.ltb_spec (8 * len l) (p + w)).
  - by rewrite (proj2 (Z.leb_gt _ _)) by lia.
  - rewrite (proj2 (Z.leb_le _ _)) by lia. rewrite read_bits_at by (try lia; apply Z.pow_pos_nonneg; lia). rewrite bind_Ok, Z2Nat.id by lia. by rewrite Z.mul_0_l.
Qed.

(** ** Bit strings cut out into octets *)

Definition cut_byte (f : Z -> bool) (start count j : Z) : Z :=
  bits_val (fun i => (i <? start + count) && f i) (start + 8 * j) 8.
Definition cut_bits (f : Z -> bool) (start count : Z) : bytes :=
  map (fun j => cut_byte f start count (Z.of_nat j)) (seq 0 (Z.to_nat (div_ceil count 8))).

Lemma bits_val_testbit f s n : forall k, 0 <= k < Z.of_nat n -> Z.testbit (bits_val f s n) (Z.of_nat n - 1 - k) = f (s + k).
Proof.
  induction n as [|n IH]; intros k Hk; [lia|]. cbn [bits_val]. destruct (Z.eq_dec k (Z.of_nat n)) as [->|Hne].
  - replace (Z.of_nat (S n) - 1 - Z.of_nat n) with 0 by lia. rewrite Z.bit0_odd, Z.odd_add, Z.odd_mul. cbn [Z.odd andb xorb]. by destruct (f _).
  - replace (Z.of_nat (S n) - 1 - k) with (Z.succ (Z.of_nat n - 1 - k)) by lia. destruct (f (s + Z.of_nat n)); cbn [b2z].
    + rewrite Z.testbit_odd_succ by lia. apply IH. lia.
    + rewrite Z.add_0_r, Z.testbit_even_succ by lia. apply IH. lia.
Qed.

Lemma div_ceil_8 n : 0 <= n -> 8 * div_ceil n 8 - 8 < n <= 8 * div_ceil n 8 /\ 0 <= div_ceil n 8.
Proof.
  intros Hn. unfold div_ceil. pose proof (Z.div_mod (n + 8 - 1) 8 ltac:(lia)). pose proof (Z.mod_pos_bound (n + 8 - 1) 8 ltac:(lia)).
  assert (0 <= (n + 8 - 1) / 8) by (apply Z.div_pos; lia). lia.
Qed.

Lemma cut_bits_ok f start count : 0 <= count -> bytes_ok (cut_bits f start count) /\ len (cut_bits f start count) = div_ceil count 8.
Proof.
  intros Hc. destruct (div_ceil_8 count Hc) as (_ & Hd). unfold cut_bits. split.
  - apply Forall_map, Forall_true. intros j. apply (bits_val_bound _ _ 8).
  - unfold len. rewrite length_map, length_seq. lia.
Qed.

Lemma tb_cut f start count i : 0 <= count -> 0 <= i -> tb (cut_bits f start count) i = (i <? count) && f (start + i).
Proof.
  intros Hc Hi. destruct (cut_bits_ok f start count Hc) as (_ & Hlen). destruct (div_ceil_8 count Hc) as (Hd & Hd0).
  destruct (Z.lt_ge_cases i (8 * div_ceil count 8)).
  - unfold tb, byte_of. pose proof (bit_index i) as (Hi8 & Hm). assert (0 <= i / 8 < div_ceil count 8) as Hk by (split; [apply Z.div_pos; lia|apply Z.div_lt_upper_bound; lia]).
    unfold cut_bits. rewrite (nth_indep _ 0 (cut_byte f start count (Z.of_nat 0))) by (rewrite length_map, length_seq; lia).
    rewrite (map_nth (fun j => cut_byte f start count (Z.of_nat j))), seq_nth by lia. cbn [Nat.add]. rewrite Z2Nat.id by lia.
    unfold cut_byte. replace (7 - i mod 8) with (Z.of_nat 8 - 1 - i mod 8) by lia. rewrite bits_val_testbit by lia.
    replace (start + 8 * (i / 8) + i mod 8) with (start + i) by lia. f_equal. destruct (Z.ltb_spec (start + i) (start + count)), (Z.ltb_spec i count); (done || lia).
  - rewrite tb_beyond by lia. by rewrite (proj2 (Z.ltb_ge i count)) by lia.
Qed.

(** A byte string whose bits are those is it. *)
Lemma cut_unique f start count out : 0 <= count -> bytes_ok out -> len out = div_ceil count 8 ->
  (forall i, 0 <= i < 8 * len out -> tb out i = (i <? count) && f (start + i)) -> out = cut_bits f start count.
Proof.
  intros Hc Hok Hl H. destruct (cut_bits_ok f start count Hc) as (Hok' & Hl'). apply tb_ext; [done|done|congruence|].
  intros i Hi. rewrite H, tb_cut by (done || lia). done.
Qed.

(** ** Octets moved by bits *)

Lemma testbit_neg x n : n < 0 -> Z.testbit x n = false.
Proof. intros H. by apply Z.testbit_neg_r. Qed.

Lemma shr_bits o s k : is_byte o -> 0 <= s < 8 -> 0 <= k < 8 ->
  Z.testbit (Z.shiftr o s) (7 - k) = (s <=? k) && Z.testbit o (7 - (k - s)).
Proof.
  intros Ho Hs Hk. rewrite Z.shiftr_spec by lia. destruct (Z.leb_spec s k); cbn [andb]; [f_equal; lia|].
  apply (testbit_above o 8); [done|lia].
Qed.

Lemma shl_bits o s k : 0 <= s <= 8 -> 0 <= k < 8 ->
  Z.testbit (wrap 8 (Z.shiftl o s)) (7 - k) = (k + s <? 8) && Z.testbit o (7 - (k + s)).
Proof.
  intros Hs Hk. unfold wrap. rewrite Z.mod_pow2_bits_low, Z.shiftl_spec by lia. destruct (Z.ltb_spec (k + s) 8); cbn [andb].
  - f_equal. lia.
  - apply testbit_neg. lia.
Qed.

Lemma mask_bits o r k : 0 < r < 8 -> 0 <= k < 8 ->
  Z.testbit (Z.land o (wrap 8 (Z.shiftl 0xFF (8 - r)))) (7 - k) = (k <? r) && Z.testbit o (7 - k).
Proof.
  intros Hr Hk. rewrite Z.land_spec, shl_bits by lia. rewrite andb_comm. f_equal. change 255 with (Z.ones 8).
  destruct (Z.ltb_spec k r).
  - rewrite (proj2 (Z.ltb_lt _ 8)), Z.testbit_ones by lia. rewrite (proj2 (Z.leb_le 0 _)), (proj2 (Z.ltb_lt _ 8)) by lia. done.
  - rewrite (proj2 (Z.ltb_ge _ 8)) by lia. done.
Qed.

Lemma land_byte o m : is_byte o -> is_byte (Z.land o m).
Proof.
  unfold is_byte. intros Ho. split; [apply Z.land_nonneg; lia|]. destruct (Z.eq_dec (Z.land o m) 0) as [->|Hne]; [lia|].
  assert (0 <= Z.land o m) by (apply Z.land_nonneg; lia). apply Z.log2_lt_cancel. change (Z.log2 256) with 8.
  destruct (Z.lt_ge_cases (Z.log2 (Z.land o m)) 8); [done|]. exfalso. pose proof (Z.bit_log2 (Z.land o m) ltac:(lia)) as Hb.
  rewrite Z.land_spec, (testbit_above o 8) in Hb by lia. done.
Qed.

Lemma lor_byte a b : is_byte a -> is_byte b -> is_byte (Z.lor a b).
Proof.
  unfold is_byte. intros Ha Hb. assert (0 <= Z.lor a b) by (apply Z.lor_nonneg; lia). split; [done|].
  destruct (Z.eq_dec (Z.lor a b) 0) as [->|Hne]; [lia|]. apply Z.log2_lt_cancel. change (Z.log2 256) with 8.
  destruct (Z.lt_ge_cases (Z.log2 (Z.lor a b)) 8); [done|]. exfalso. pose proof (Z.bit_log2 (Z.lor a b) ltac:(lia)) as Hbit.
  rewrite Z.lor_spec, (testbit_above a 8), (testbit_above b 8) in Hbit by lia. done.
Qed.

Lemma wrap_byte x : is_byte (wrap 8 x).
Proof. apply Z.mod_pos_bound. lia. Qed.

Lemma shiftr_byte o s : is_byte o -> 0 <= s -> is_byte (Z.shiftr o s).
Proof.
  unfold is_byte. intros Ho Hs. rewrite Z.shiftr_div_pow2 by lia. pose proof (Z.pow_pos_nonneg 2 s ltac:(lia) Hs).
  split; [apply Z.div_pos; lia|apply Z.div_lt_upper_bound; nia].
Qed.

(** OR into a byte of the string. *)
Lemma or_byte_at {E} l k v : bytes_ok l -> 0 <= k < len l -> is_byte v ->
  exists l', (b ← @idx E Z l k; set_at l k (Z.lor b v)) = Ok l' /\ len l' = len l /\ bytes_ok l' /\
    forall i, 0 <= i -> tb l' i = tb l i || ((i / 8 =? k) && Z.testbit v (7 - i mod 8)).
Proof.
  intros Hok Hk Hv. rewrite idx_byte_of, bind_Ok by done. destruct (@set_byte E l k (Z.lor (byte_of l k) v) Hk) as (l' & -> & Hl & Hok' & Hb).
  exists l'. split; [done|]. split; [done|]. split; [apply Hok'; [done|apply lor_byte; [apply byte_of_range; (done || lia)|done]]|].
  intros i Hi. rewrite (tb_set l l' k _ i Hb Hi). destruct (Z.eqb_spec (i / 8) k) as [<-|]; cbn [andb]; [|by rewrite orb_false_r].
  by rewrite Z.lor_spec.
Qed.

Lemma or_bit_at out index (b : bool) : bytes_ok out -> 0 <= index < 8 * len out ->
  exists out', or_bit out index (b2z b) = Ok out' /\ len out' = len out /\ bytes_ok out' /\
    forall i, 0 <= i -> tb out' i = tb out i || ((i =? index) && b).
Proof.
  intros Hok Hi. unfold or_bit. destruct b; cbn [b2z Z.eqb].
  - pose proof (bit_index index) as (Hi8 & Hm). rewrite Z.shiftl_1_l.
    assert (is_byte (2 ^ (7 - index mod 8))) as Hv.
    { split; [apply Z.pow_nonneg; lia|]. change 256 with (2 ^ 8). apply Z.pow_lt_mono_r; lia. }
    destruct (@or_byte_at CodecError out (index / 8) _ Hok (byte_index _ _ Hi) Hv) as (out' & -> & Hl & Hok' & Hb). exists out'.
    split; [done|]. split; [done|]. split; [done|]. intros i Hi0. rewrite Hb, andb_true_r by done. f_equal.
    pose proof (bit_index i) as (Hii & Him). rewrite Z.pow2_bits_eqb by lia.
    destruct (Z.eqb_spec (i / 8) (index / 8)), (Z.eqb_spec i index), (Z.eqb_spec (7 - index mod 8) (7 - i mod 8)); cbn [andb]; (done || lia).
  - exists out. split; [done|]. split; [done|]. split; [done|]. intros i _. by rewrite andb_false_r, orb_false_r.
Qed.

(** ** The frames' bits: read into fresh octets, copied, put *)

Lemma read_into_at l n : forall p out index, bytes_ok out -> 0 <= p -> p + Z.of_nat n <= 8 * len l -> 0 <= index -> index + Z.of_nat n <= 8 * len out ->
  exists out', read_into n (mkBitReader l p) out index = Ok (out', mkBitReader l (p + Z.of_nat n)) /\ len out' = len out /\ bytes_ok out' /\
    forall i, 0 <= i -> tb out' i = tb out i || ((index <=? i) && (i <? index + Z.of_nat n) && tb l (p + (i - index))).
Proof.
  induction n as [|n IH]; intros p out index Hok Hp Hl Hi Ho; cbn [read_into].
  - exists out. rewrite Z.add_0_r. split; [done|]. split; [done|]. split; [done|]. intros i _.
    destruct (Z.leb_spec index i), (Z.ltb_spec i (index + Z.of_nat 0)); cbn [andb]; try lia; by rewrite orb_false_r.
  - rewrite next_bit_at, bind_Ok by lia. destruct (or_bit_at out index (tb l p) Hok ltac:(lia)) as (o1 & -> & Hl1 & Hok1 & Hb1). rewrite bind_Ok.
    destruct (IH (p + 1) o1 (index + 1)) as (o2 & -> & Hl2 & Hok2 & Hb2); [done|lia|lia|lia|lia|].
    exists o2. replace (p + 1 + Z.of_nat n) with (p + Z.of_nat (S n)) by lia. split; [done|]. split; [congruence|]. split; [done|].
    intros i Hi0. rewrite Hb2, Hb1, <- orb_assoc by done. f_equal. replace (p + 1 + (i - (index + 1))) with (p + (i - index)) by lia.
    destruct (Z.eqb_spec i index) as [->|Hne].
    + rewrite (proj2 (Z.leb_gt (index + 1) index)), (proj2 (Z.leb_le index index)), (proj2 (Z.ltb_lt index (index + Z.of_nat (S n)))) by lia.
      cbn [andb orb]. rewrite orb_false_r. by replace (p + (index - index)) with p by lia.
    + cbn [andb orb]. f_equal. destruct (Z.leb_spec (index + 1) i), (Z.leb_spec index i), (Z.ltb_spec i (index + 1 + Z.of_nat n)), (Z.ltb_spec i (index + Z.of_nat (S n))); (done || lia).
Qed.

Lemma tb_zeros n i : tb (replicate n 0) i = false.
Proof.
  unfold tb, byte_of. assert (nth (Z.to_nat (i / 8)) (replicate n 0) 0 = 0) as ->; [|apply Z.bits_0].
  destruct (nth_in_or_default (Z.to_nat (i / 8)) (replicate n 0) 0) as [Hin| ->]; [|done]. by apply list_elem_of_In, elem_of_replicate in Hin as (-> & _).
Qed.

Lemma zeros_ok n : bytes_ok (replicate n 0).
Proof. apply Forall_replicate. unfold is_byte. lia. Qed.

Lemma read_to_bytes_at l p count : 0 <= p -> 0 <= count ->
  read_to_bytes (mkBitReader l p) count =
    Ok (if p + count <=? 8 * len l then Some (cut_bits (tb l) p count, mkBitReader l (p + count)) else None).
Proof.
  intros Hp Hc. unfold read_to_bytes. cbn [br_bytes br_position]. rewrite (Z.mul_comm (len l)). destruct (div_ceil_8 count Hc) as (Hd & Hd0).
  destruct (Z.ltb_spec (8 * len l) (p + count)); [by rewrite (proj2 (Z.leb_gt _ _)) by lia|]. rewrite (proj2 (Z.leb_le _ _)) by lia.
  destruct (read_into_at l (Z.to_nat count) p (replicate (Z.to_nat (div_ceil count 8)) 0) 0) as (out & -> & Hl & Hok & Hb);
    [apply zeros_ok|done|lia|lia|rewrite len_replicate; lia|].
  rewrite bind_Ok, Z2Nat.id by lia. rewrite len_replicate, Z2Nat.id in Hl by lia.
  rewrite <- (cut_unique (tb l) p count out Hc Hok Hl); [done|]. intros i Hi. rewrite Hb, tb_zeros by lia. cbn [orb].
  rewrite (proj2 (Z.leb_le 0 i)), Z2Nat.id, Z.add_0_l, Z.sub_0_r by lia. done.
Qed.

Lemma copy_octets_at n : forall payload first shift index out, bytes_ok payload -> bytes_ok out -> 0 <= first -> 0 <= shift < 8 -> 0 <= index ->
  first + index + Z.of_nat n <= len payload -> index + Z.of_nat n <= len out ->
  exists out', copy_octets n payload first shift index out = Ok out' /\ len out' = len out /\ bytes_ok out' /\
    (forall j, 0 <= j -> j < index \/ index + Z.of_nat n <= j -> byte_of out' j = byte_of out j) /\
    forall i, 8 * index <= i < 8 * (index + Z.of_nat n) -> tb out' i = tb payload (8 * first + shift + i).
Proof.
  induction n as [|n IH]; intros payload first shift index out Hp Ho Hf Hs Hi Hl Hlo; cbn [copy_octets].
  { exists out. split; [done|]. split; [done|]. split; [done|]. split; [done|]. intros i Hx. lia. }
  rewrite idx_byte_of, bind_Ok by lia. set (a := byte_of payload (first + index)). set (b := byte_of payload (first + index + 1)).
  assert (match get_at payload (first + index + 1) with Some next => if negb (shift =? 0) then Z.shiftr next (8 - shift) else 0 | None => 0 end =
    if shift =? 0 then 0 else Z.shiftr b (8 - shift)) as ->.
  { unfold b. destruct (Z.lt_ge_cases (first + index + 1) (len payload)).
    - rewrite get_byte by lia. by destruct (shift =? 0).
    - rewrite get_beyond, byte_of_beyond, Z.shiftr_0_l by lia. by destruct (shift =? 0). }
  assert (is_byte a /\ is_byte b) as (Ha & Hb) by (split; apply byte_of_range; (done || lia)).
  set (v := Z.lor _ _). assert (is_byte v) as Hv.
  { apply lor_byte; [apply wrap_byte|]. destruct (shift =? 0); [unfold is_byte; lia|apply shiftr_byte; (done || lia)]. }
  destruct (@set_byte CodecError out index v ltac:(lia)) as (o1 & -> & Hl1 & Hok1 & Hb1). rewrite bind_Ok.
  destruct (IH payload first shift (index + 1) o1) as (o2 & -> & Hl2 & Hok2 & Hout & Hin); [done|by apply Hok1|done|done|lia|lia|lia|].
  exists o2. split; [done|]. split; [congruence|]. split; [done|]. split.
  - intros j Hj Hjx. rewrite Hout by lia. rewrite Hb1 by done. by rewrite (proj2 (Z.eqb_neq j index)) by lia.
  - intros i Hix. destruct (Z.lt_ge_cases i (8 * (index + 1))) as [Hlt|]; [|apply Hin; lia].
    pose proof (bit_index i) as (Hi8 & Hm). assert (i / 8 = index) as Hq by lia. unfold tb at 1. rewrite Hq.
    rewrite Hout by lia. rewrite Hb1, Z.eqb_refl by lia. set (k := i mod 8) in *. unfold v. rewrite Z.lor_spec, shl_bits by lia.
    unfold tb. assert ((8 * first + shift + i) = (k + shift) + (first + index) * 8) as -> by lia. destruct (Z.ltb_spec (k + shift) 8) as [Hk|Hk]; cbn [andb].
    + rewrite Z.div_add, Z.mod_add, Z.div_small, Z.mod_small, Z.add_0_l by lia. fold a.
      destruct (Z.eqb_spec shift 0); [by rewrite Z.bits_0, orb_false_r|]. rewrite shr_bits by (done || lia).
      rewrite (proj2 (Z.leb_gt _ _)) by lia. cbn [andb]. by rewrite orb_false_r.
    + rewrite Z.div_add, Z.mod_add by lia. assert ((k + shift) / 8 = 1 /\ (k + shift) mod 8 = k + shift - 8) as (-> & ->).
      { replace (k + shift) with (k + shift - 8 + 1 * 8) by lia. rewrite Z.div_add, Z.mod_add, Z.div_small, Z.mod_small by lia. lia. }
      replace (1 + (first + index)) with (first + index + 1) by lia. fold b. rewrite (proj2 (Z.eqb_neq shift 0)) by lia. cbn [orb].
      rewrite shr_bits by (done || lia). rewrite (proj2 (Z.leb_le _ _)) by lia. cbn [andb]. f_equal. lia.
Qed.

Lemma tb_take l n i : 0 <= i < 8 * n -> tb (take (Z.to_nat n) l) i = tb l i.
Proof.
  intros Hi. unfold tb, byte_of. assert (0 <= i / 8 < n) by (split; [apply Z.div_pos; lia|apply Z.div_lt_upper_bound; lia]).
  rewrite !nth_lookup, lookup_take_lt by lia. done.
Qed.

Lemma drop_ext (l1 l2 : bytes) n : length l1 = length l2 -> (forall j, n <= j -> byte_of l1 j = byte_of l2 j) -> 0 <= n ->
  drop (Z.to_nat n) l1 = drop (Z.to_nat n) l2.
Proof.
  intros Hl H Hn. apply (nth_ext _ _ 0 0); [by rewrite !length_drop, Hl|]. intros k Hk. rewrite !nth_lookup, !lookup_drop, <- !nth_lookup.
  specialize (H (n + Z.of_nat k) ltac:(lia)). unfold byte_of in H. by replace (Z.to_nat (n + Z.of_nat k)) with (Z.to_nat n + k)%nat in H by lia.
Qed.

Lemma copy_bits_at slot payload out : bytes_ok payload -> bytes_ok out -> 0 <= sl_bits slot -> 0 <= sl_bit_offset slot ->
  div_ceil (sl_bits slot) 8 <= len out -> sl_bit_offset slot + sl_bits slot <= 8 * len payload ->
  copy_bits slot payload out = Ok (div_ceil (sl_bits slot) 8,
    cut_bits (tb payload) (sl_bit_offset slot) (sl_bits slot) ++ drop (Z.to_nat (div_ceil (sl_bits slot) 8)) out).
Proof.
  destruct slot as [ft q bits start]. cbn [sl_bits sl_bit_offset]. intros Hp Ho Hb Hs Hlo Hlp. unfold copy_bits. cbn [sl_bits sl_bit_offset].
  rewrite (Z.mul_comm (len payload)), (proj2 (Z.ltb_ge (len out) _)), (proj2 (Z.ltb_ge (8 * len payload) _)) by lia. cbn [orb].
  destruct (div_ceil_8 bits Hb) as (Hd & Hd0). set (n := div_ceil bits 8) in *. pose proof (bit_index start) as (Hs8 & Hsm).
  assert (0 <= start / 8) by (apply Z.div_pos; lia).
  destruct (copy_octets_at (Z.to_nat n) payload (start / 8) (start mod 8) 0 out) as (o1 & -> & Hl1 & Hok1 & Hout1 & Hin1);
    [done|done|lia|lia|lia|lia|lia|]. rewrite bind_Ok. rewrite Z2Nat.id in Hin1, Hout1 by lia.
  assert (exists o2, (if negb (bits mod 8 =? 0) then b ← idx o1 (n - 1); set_at o1 (n - 1) (Z.land b (wrap 8 (Z.shiftl 255 (8 - bits mod 8)))) else mret o1) = @Ok CodecError _ o2 /\
    len o2 = len out /\ bytes_ok o2 /\ (forall j, n <= j -> byte_of o2 j = byte_of out j) /\
    forall i, 0 <= i < 8 * n -> tb o2 i = (i <? bits) && tb payload (start + i)) as (o2 & -> & Hl2 & Hok2 & Hout2 & Hin2).
  { pose proof (bit_index bits) as (Hb8 & Hbm). destruct (Z.eqb_spec (bits mod 8) 0) as [Hz|Hz]; cbn [negb].
    - exists o1. split; [done|]. split; [done|]. split; [done|]. split; [intros j Hj; apply Hout1; lia|]. intros i Hi. rewrite Hin1 by lia.
      rewrite (proj2 (Z.ltb_lt i bits)) by lia. cbn [andb]. f_equal. lia.
    - rewrite idx_byte_of, bind_Ok by lia. set (r := bits mod 8) in *.
      destruct (@set_byte CodecError o1 (n - 1) (Z.land (byte_of o1 (n - 1)) (wrap 8 (Z.shiftl 255 (8 - r)))) ltac:(lia)) as (o2 & -> & Hl2 & Hok2 & Hb2).
      exists o2. split; [done|]. split; [congruence|]. split; [apply Hok2; [done|apply land_byte, byte_of_range; (done || lia)]|]. split.
      + intros j Hj. rewrite Hb2 by lia. rewrite (proj2 (Z.eqb_neq j (n - 1))) by lia. apply Hout1; lia.
      + intros i Hi. rewrite (tb_set o1 o2 (n - 1) _ i Hb2) by lia. pose proof (bit_index i) as (Hi8 & Him).
        assert (tb o1 i = tb payload (start + i)) as Hi1 by (rewrite Hin1 by lia; f_equal; lia).
        destruct (Z.eqb_spec (i / 8) (n - 1)) as [Hq|Hq].
        * rewrite mask_bits by lia. rewrite <- Hq. fold (tb o1 i). rewrite Hi1. f_equal.
          destruct (Z.ltb_spec (i mod 8) r), (Z.ltb_spec i bits); (done || lia).
        * rewrite Hi1. by rewrite (proj2 (Z.ltb_lt i bits)) by lia. }
  rewrite bind_Ok. unfold mret, res_ret. do 2 f_equal. rewrite <- (take_drop (Z.to_nat n) o2). f_equal.
  - apply cut_unique; [done|by apply Forall_take|rewrite len_take; lia|]. intros i Hi. rewrite len_take in Hi.
    rewrite tb_take by lia. apply Hin2. lia.
  - apply drop_ext; [unfold len in Hl2; lia|done|done].
Qed.

(** One octet put at a bit position. *)
Lemma put_octet_at out p o shift : bytes_ok out -> is_byte o -> 0 <= p < len out -> 0 <= shift < 8 ->
  exists out', (b ← @idx CodecError Z out p; out ← set_at out p (Z.lor b (Z.shiftr o shift));
     if negb (shift =? 0) then
       match get_at out (p + 1) with
       | Some next => set_at out (p + 1) (Z.lor next (wrap 8 (Z.shiftl o (8 - shift))))
       | None => mret out
       end
     else mret out) = Ok out' /\ len out' = len out /\ bytes_ok out' /\
    forall i, 0 <= i < 8 * len out -> tb out' i = tb out i ||
      ((8 * p + shift <=? i) && (i <? 8 * p + shift + 8) && Z.testbit o (7 - (i - (8 * p + shift)))).
Proof.
  intros Hok Ho Hp Hs. destruct (@or_byte_at CodecError out p (Z.shiftr o shift) Hok Hp) as (o1 & H1 & Hl1 & Hok1 & Hb1); [apply shiftr_byte; (done || lia)|].
  rewrite idx_byte_of, bind_Ok in H1 |- * by done. rewrite H1, bind_Ok.
  assert (forall i, 0 <= i -> tb o1 i = tb out i || ((8 * p + shift <=? i) && (i <? 8 * p + 8) && Z.testbit o (7 - (i - (8 * p + shift))))) as Hfirst.
  { intros i Hi. rewrite Hb1 by done. f_equal. pose proof (bit_index i) as (Hi8 & Him). destruct (Z.eqb_spec (i / 8) p) as [Hq|Hq]; cbn [andb].
    - rewrite shr_bits by (done || lia). rewrite (proj2 (Z.ltb_lt i (8 * p + 8))), andb_true_r by lia.
      destruct (Z.leb_spec shift (i mod 8)), (Z.leb_spec (8 * p + shift) i); cbn [andb]; first [lia | done | f_equal; lia].
    - destruct (Z.leb_spec (8 * p + shift) i), (Z.ltb_spec i (8 * p + 8)); cbn [andb]; (done || lia). }
  destruct (Z.eqb_spec shift 0) as [->|Hz]; cbn [negb].
  { exists o1. split; [done|]. split; [done|]. split; [done|]. intros i Hi. rewrite Hfirst by lia. by rewrite !Z.add_0_r. }
  destruct (Z.lt_ge_cases (p + 1) (len out)) as [Hnext|Hnext].
  - rewrite get_byte by lia. destruct (@or_byte_at CodecError o1 (p + 1) (wrap 8 (Z.shiftl o (8 - shift))) Hok1 ltac:(lia) (wrap_byte _)) as (o2 & H2 & Hl2 & Hok2 & Hb2).
    rewrite idx_byte_of, bind_Ok in H2 by lia. exists o2. split; [done|]. split; [congruence|]. split; [done|].
    intros i Hi. rewrite Hb2, Hfirst, <- orb_assoc by lia. f_equal. pose proof (bit_index i) as (Hi8 & Him).
    destruct (Z.eqb_spec (i / 8) (p + 1)) as [Hq|Hq]; cbn [andb].
    + rewrite shl_bits by lia. rewrite (proj2 (Z.ltb_ge i (8 * p + 8))), andb_false_r by lia. rewrite (proj2 (Z.leb_le (8 * p + shift) i)) by lia. cbn [andb orb].
      destruct (Z.ltb_spec (i mod 8 + (8 - shift)) 8), (Z.ltb_spec i (8 * p + shift + 8)); cbn [andb]; first [lia | done | f_equal; lia].
    + rewrite orb_false_r. destruct (Z.leb_spec (8 * p + shift) i), (Z.ltb_spec i (8 * p + 8)), (Z.ltb_spec i (8 * p + shift + 8)); cbn [andb]; (done || lia).
  - rewrite get_beyond by lia. exists o1. split; [done|]. split; [done|]. split; [done|]. intros i Hi. rewrite Hfirst by lia. f_equal.
    rewrite (proj2 (Z.ltb_lt i (8 * p + 8))), (proj2 (Z.ltb_lt i (8 * p + shift + 8))) by lia. done.
Qed.

Lemma put_octets_at source : forall out first shift bits index, bytes_ok out -> bytes_ok source -> 0 <= first -> 0 <= shift < 8 -> 0 <= index ->
  0 <= bits -> index + len source = div_ceil bits 8 -> first + div_ceil bits 8 <= len out ->
  exists out', put_octets out first shift bits index source = Ok out' /\ len out' = len out /\ bytes_ok out' /\
    forall i, 0 <= i < 8 * len out -> tb out' i = tb out i ||
      ((8 * (first + index) + shift <=? i) && (i <? 8 * first + shift + bits) && tb source (i - (8 * (first + index) + shift))).
Proof.
  induction source as [|o source IH]; intros out first shift bits index Hok Hsrc Hf Hs Hi Hb Hn Hl; cbn [put_octets].
  { exists out. split; [done|]. split; [done|]. split; [done|]. intros i Hx. destruct (Z.leb_spec (8 * (first + index) + shift) i); cbn [andb]; [|by rewrite orb_false_r].
    rewrite (tb_beyond []), andb_false_r, orb_false_r by (change (len (@nil Z)) with 0; lia). done. }
  apply bytes_ok_cons in Hsrc as (Ho & Hsrc). rewrite len_cons in Hn. pose proof (len_nonneg source). destruct (div_ceil_8 bits Hb) as (Hd & Hd0).
  pose proof (bit_index bits) as (Hb8 & Hbm). set (r := bits mod 8) in *.
  set (o' := if (index + 1 =? div_ceil bits 8) && negb (r =? 0) then Z.land o (wrap 8 (Z.shiftl 255 (8 - r))) else o).
  assert (is_byte o') as Ho' by (unfold o'; destruct (_ && _); [by apply land_byte|done]).
  destruct (put_octet_at out (first + index) o' shift Hok Ho' ltac:(lia) Hs) as (o1 & H1 & Hl1 & Hok1 & Hb1).
  destruct (IH o1 first shift bits (index + 1)) as (o2 & H2 & Hl2 & Hok2 & Hb2); [done|done|done|done|lia|done|lia|lia|].
  exists o2. split.
  { rewrite idx_byte_of, bind_Ok in H1 |- * by lia. destruct (set_at out (first + index) _) as [x| |]; [|done..]. rewrite bind_Ok in H1 |- *. rewrite H1, bind_Ok. exact H2. }
  split; [congruence|]. split; [done|]. intros i Hx. rewrite Hb2, Hb1, <- orb_assoc by lia. f_equal.
  set (s := 8 * (first + index) + shift) in *. replace (8 * (first + (index + 1)) + shift) with (s + 8) by lia.
  replace (8 * first + shift + bits) with (s + (bits - 8 * index)) by lia.
  destruct (Z.leb_spec s i); cbn [andb]; [|rewrite (proj2 (Z.leb_gt (s + 8) i)) by lia; done].
  destruct (Z.ltb_spec i (s + 8)) as [Hin|Hout].
  - rewrite (proj2 (Z.leb_gt (s + 8) i)), orb_false_r by lia. cbn [andb]. set (k := i - s) in *.
    assert (tb (o :: source) k = Z.testbit o (7 - k)) as ->.
    { unfold tb, byte_of. rewrite Z.div_small, Z.mod_small by lia. done. }
    unfold o'. destruct (Z.eqb_spec (index + 1) (div_ceil bits 8)) as [Hlast|Hmore]; cbn [andb].
    + destruct (Z.eqb_spec r 0) as [Hz|Hz]; cbn [negb].
      * rewrite (proj2 (Z.ltb_lt i _)) by lia. done.
      * rewrite mask_bits by lia. f_equal. destruct (Z.ltb_spec k r), (Z.ltb_spec i (s + (bits - 8 * index))); (done || lia).
    + rewrite (proj2 (Z.ltb_lt i _)) by lia. done.
  - rewrite (proj2 (Z.leb_le (s + 8) i)) by lia. cbn [andb orb]. f_equal. replace (i - s) with ((i - (s + 8)) + 1 * 8) by lia. unfold tb, byte_of.
    rewrite Z.div_add, Z.mod_add by lia. set (m := i - (s + 8)). assert (0 <= m / 8) by (apply Z.div_pos; lia).
    by replace (Z.to_nat (m / 8 + 1)) with (S (Z.to_nat (m / 8))) by lia.
Qed.

Lemma put_bits_at out start source bits : bytes_ok out -> bytes_ok source -> 0 <= start -> 0 <= bits -> div_ceil bits 8 <= len source ->
  start + bits <= 8 * len out ->
  exists out', put_bits out start source bits = Ok out' /\ len out' = len out /\ bytes_ok out' /\
    forall i, 0 <= i < 8 * len out -> tb out' i = tb out i || ((start <=? i) && (i <? start + bits) && tb source (i - start)).
Proof.
  intros Hok Hsrc Hs Hb Hls Hl. destruct (div_ceil_8 bits Hb) as (Hd & Hd0). unfold put_bits. rewrite slice_Ok, bind_Ok by lia.
  set (src := sub source 0 (div_ceil bits 8)). assert (len src = div_ceil bits 8) as Hlen by (unfold src; rewrite len_sub; lia).
  pose proof (bit_index start) as (Hs8 & Hsm). assert (0 <= start / 8) by (apply Z.div_pos; lia).
  destruct (put_octets_at src out (start / 8) (start mod 8) bits 0) as (o1 & -> & Hl1 & Hok1 & Hb1); [done|by apply bytes_ok_sub|lia|lia|lia|lia|lia|lia|].
  exists o1. split; [done|]. split; [done|]. split; [done|]. intros i Hi. rewrite Hb1 by done. rewrite Z.add_0_r, <- Hs8. f_equal.
  destruct (Z.leb_spec start i), (Z.ltb_spec i (start + bits)); cbn [andb]; try done. unfold src, sub. cbn [Z.to_nat skipn]. rewrite drop_0, Z.sub_0_r. apply tb_take. lia.
Qed.

Lemma cut_bits_ext f s g t count : 0 <= count -> (forall i, 0 <= i < count -> f (s + i) = g (t + i)) -> cut_bits f s count = cut_bits g t count.
Proof.
  intros Hc H. destruct (cut_bits_ok f s count Hc) as (Hok & Hl). apply cut_unique; [done..|]. intros i Hi. rewrite tb_cut by lia.
  destruct (Z.ltb_spec i count); cbn [andb]; [|done]. apply H. lia.
Qed.

(** ** Streams of bits in octets *)

(** The string holds the bits and zeros after them. *)
Record holds (out : bytes) (bs : list bool) : Prop := {
  ho_bytes : bytes_ok out;
  ho_room : len bs <= 8 * len out;
  ho_bits : forall i, 0 <= i < 8 * len out -> tb out i = nth (Z.to_nat i) bs false
}.

Lemma holds_unique a b bs : holds a bs -> holds b bs -> len a = len b -> a = b.
Proof. intros [Ha _ Hba] [Hb _ Hbb] Hl. apply tb_ext; [done..|]. intros i Hi. by rewrite Hba, Hbb by lia. Qed.

Lemma nth_pad bs k i : nth i (bs ++ replicate k false) false = nth i bs false.
Proof.
  rewrite !nth_lookup. destruct (decide (i < length bs)%nat); [by rewrite lookup_app_l|].
  rewrite lookup_app_r, (lookup_ge_None_2 bs) by lia. destruct (decide (i - length bs < k)%nat); [by rewrite lookup_replicate_2|].
  rewrite lookup_ge_None_2; [done|]. rewrite length_replicate. lia.
Qed.

Lemma holds_pad out bs k : holds out bs -> len bs + Z.of_nat k <= 8 * len out -> holds out (bs ++ replicate k false).
Proof.
  intros [H1 H2 H3] Hk. split; [done|rewrite len_app, len_replicate; lia|]. intros i Hi. by rewrite nth_pad, H3.
Qed.

Lemma holds_zeros n : holds (replicate n 0) [].
Proof.
  split; [apply zeros_ok|apply Z.mul_nonneg_nonneg; [lia|apply len_nonneg]|]. intros i _. rewrite tb_zeros. by destruct (Z.to_nat i).
Qed.

(** The bits of a number and the first bits of a byte string. *)
Fixpoint val_bits (v : Z) (n : nat) : list bool :=
  match n with O => [] | S n => Z.testbit v (Z.of_nat n) :: val_bits v n end.
Definition data_bits (data : bytes) (n : Z) : list bool := map (fun i => tb data (Z.of_nat i)) (seq 0 (Z.to_nat n)).

Lemma len_val_bits v n : len (val_bits v n) = Z.of_nat n.
Proof. induction n as [|n IH]; [done|]. cbn [val_bits]. rewrite len_cons, IH. lia. Qed.

Lemma nth_val_bits v n k : (k < n)%nat -> nth k (val_bits v n) false = Z.testbit v (Z.of_nat n - 1 - Z.of_nat k).
Proof.
  revert k. induction n as [|n IH]; intros k Hk; [lia|]. cbn [val_bits]. destruct k as [|k]; cbn [nth].
  - f_equal. lia.
  - rewrite IH by lia. f_equal. lia.
Qed.

Lemma len_data_bits data n : 0 <= n -> len (data_bits data n) = n.
Proof. intros Hn. unfold data_bits, len. rewrite length_map, length_seq. lia. Qed.

Lemma nth_data_bits data n k : 0 <= k < n -> nth (Z.to_nat k) (data_bits data n) false = tb data k.
Proof.
  intros Hk. unfold data_bits. rewrite nth_lookup, list_lookup_fmap, lookup_seq_lt by lia. cbn. f_equal. lia.
Qed.

Lemma put_bits_holds out bs source bits : holds out bs -> bytes_ok source -> 0 <= bits -> div_ceil bits 8 <= len source ->
  len bs + bits <= 8 * len out ->
  exists out', put_bits out (len bs) source bits = Ok out' /\ len out' = len out /\ holds out' (bs ++ data_bits source bits).
Proof.
  intros [H1 H2 H3] Hs Hb Hl Hr. pose proof (len_nonneg bs). destruct (put_bits_at out (len bs) source bits H1 Hs) as (o & -> & Hlo & Hoo & Hbo); [lia|done|done|done|].
  exists o. split; [done|]. split; [done|]. split; [done|rewrite len_app, len_data_bits; lia|]. intros i Hi. rewrite Hlo in Hi. rewrite Hbo, H3 by done.
  destruct (Z.leb_spec (len bs) i); cbn [andb].
  - rewrite (nth_overflow bs) by (unfold len in *; lia). rewrite app_nth2 by (unfold len in *; lia). cbn [orb].
    replace (Z.to_nat i - length bs)%nat with (Z.to_nat (i - len bs)) by (unfold len in *; lia).
    destruct (Z.ltb_spec i (len bs + bits)); cbn [andb]; [by rewrite nth_data_bits by lia|].
    rewrite nth_overflow; [done|]. unfold data_bits. rewrite length_map, length_seq. lia.
  - rewrite orb_false_r, app_nth1 by (unfold len in *; lia). done.
Qed.

(** What the bitwise writer has written. *)
Definition wrote (w : BitWriter) (bs : list bool) : Prop :=
  holds (bw_bytes w) bs /\ bw_position w = len bs /\ len (bw_bytes w) = div_ceil (len bs) 8.

Lemma tb_app_zero l i : 0 <= i -> tb (l ++ [0]) i = tb l i.
Proof.
  intros Hi. unfold tb, byte_of. f_equal. rewrite !nth_lookup. set (k := Z.to_nat (i / 8)). destruct (decide (k < length l)%nat).
  - by rewrite lookup_app_l.
  - rewrite lookup_app_r, (lookup_ge_None_2 l) by lia. by destruct (k - length l)%nat as [|[|?]].
Qed.

Lemma write_bit_wrote w bs (b : bool) : wrote w bs -> exists w', write_bit w (b2z b) = Ok w' /\ wrote w' (bs ++ [b]).
Proof.
  intros ([H1 H2 H3] & Hp & Hl). pose proof (len_nonneg bs) as Hn. destruct (div_ceil_8 (len bs) Hn) as (Hd & _). unfold write_bit. rewrite Hp.
  pose proof (bit_index (len bs)) as (H8 & Hm). destruct (div_ceil_8 (len bs + 1) ltac:(lia)) as (Hd' & _).
  set (out := if len bs mod 8 =? 0 then bw_bytes w ++ [0] else bw_bytes w).
  assert (bytes_ok out /\ len out = div_ceil (len bs + 1) 8 /\ forall i, 0 <= i -> tb out i = tb (bw_bytes w) i) as (Hok & Hlo & Hto).
  { unfold out. destruct (Z.eqb_spec (len bs mod 8) 0).
    - split; [apply bytes_ok_app; split; [done|apply (zeros_ok 1)]|]. split; [rewrite len_app; change (len [0]) with 1; lia|]. intros i Hi. by apply tb_app_zero.
    - split; [done|]. split; [lia|done]. }
  destruct (or_bit_at out (len bs) b Hok ltac:(lia)) as (o & -> & Hl1 & Hok1 & Hb1). rewrite bind_Ok. eexists. split; [done|].
  assert (len (bs ++ [b]) = len bs + 1) as Hlb by (by rewrite len_app). split; [|cbn [bw_bytes bw_position]; rewrite Hlb; split; [done|congruence]].
  split; cbn [bw_bytes]; [done|lia|]. intros i Hi. rewrite Hb1, Hto by lia.
  assert (tb (bw_bytes w) i = nth (Z.to_nat i) bs false) as ->.
  { destruct (Z.lt_ge_cases i (8 * len (bw_bytes w))); [apply H3; lia|]. rewrite tb_beyond, nth_overflow by (unfold len in *; lia). done. }
  destruct (Z.eqb_spec i (len bs)) as [->|Hne]; cbn [andb].
  - rewrite nth_overflow, app_nth2 by (unfold len; lia). unfold len. by rewrite Nat2Z.id, Nat.sub_diag.
  - rewrite orb_false_r, !nth_lookup. destruct (Z.lt_ge_cases i (len bs)).
    + rewrite lookup_app_l by (unfold len in *; lia). done.
    + rewrite !lookup_ge_None_2 by (rewrite ?length_app; cbn [length]; unfold len in *; lia). done.
Qed.

Lemma write_wrote n : forall w bs v, wrote w bs -> exists w', write w v n = Ok w' /\ wrote w' (bs ++ val_bits v n).
Proof.
  induction n as [|n IH]; intros w bs v Hw; cbn [write val_bits].
  - exists w. by rewrite app_nil_r.
  - rewrite land_bit_at by lia. destruct (write_bit_wrote w bs (Z.testbit v (Z.of_nat n)) Hw) as (w1 & -> & Hw1). rewrite bind_Ok.
    destruct (IH w1 _ v Hw1) as (w2 & -> & Hw2). exists w2. split; [done|]. by rewrite <- app_assoc in Hw2.
Qed.

Lemma write_from_wrote n : forall w bs data index, wrote w bs -> 0 <= index -> index + Z.of_nat n <= 8 * len data ->
  exists w', write_from w data index n = Ok w' /\ wrote w' (bs ++ map (fun i => tb data (index + Z.of_nat i)) (seq 0 n)).
Proof.
  induction n as [|n IH]; intros w bs data index Hw Hi Hl; cbn [write_from].
  - exists w. by rewrite app_nil_r.
  - pose proof (bit_index index) as (H8 & Hm). rewrite idx_byte_of, bind_Ok by (apply byte_index; lia). rewrite land_bit_at by lia. fold (tb data index).
    destruct (write_bit_wrote w bs (tb data index) Hw) as (w1 & -> & Hw1). rewrite bind_Ok.
    destruct (IH w1 _ data (index + 1) Hw1) as (w2 & -> & Hw2); [lia|lia|]. exists w2. split; [done|]. rewrite <- app_assoc in Hw2.
    cbn [seq map]. rewrite Z.add_0_r. rewrite <- seq_shift, map_map. cbn [app] in Hw2.
    erewrite map_ext; [exact Hw2|]. intros i. cbn beta. f_equal. lia.
Qed.

Lemma write_bits_wrote w bs data count : wrote w bs -> 0 <= count -> div_ceil count 8 <= len data ->
  exists w', write_bits_from_bytes w data count = Ok w' /\ wrote w' (bs ++ data_bits data count).
Proof.
  intros Hw Hc Hl. destruct (div_ceil_8 count Hc). unfold write_bits_from_bytes.
  destruct (write_from_wrote (Z.to_nat count) w bs data 0 Hw) as (w' & -> & Hw'); [lia|lia|]. exists w'. split; [done|]. exact Hw'.
Qed.

(** ** The payload as a stream of bits *)

Definition entry_of (follow : bool) (t : Z) (q : bool) : Z := Z.lor (Z.lor (Z.shiftl (b2z follow) 5) (Z.shiftl t 1)) (b2z q).

(** Everything the code does with an entry, on its few values. *)
Definition entry_check (follow q : bool) (t : Z) : bool :=
  let e := entry_of follow t q in
  (0 <=? e) && (e <? 64) && (Z.land (Z.shiftr e 1) 15 =? t) && Bool.eqb (negb (Z.land e 1 =? 0)) q && Bool.eqb (Z.land e 32 =? 0) (negb follow) &&
  bool_decide (data_bits [wrap 8 (Z.shiftl e 2)] 6 = val_bits e 6) &&
  bool_decide (val_bits (b2z follow) 1 ++ val_bits t 4 ++ val_bits (b2z q) 1 = val_bits e 6) &&
  bool_decide (to_octet (mkToc follow t q) = wrap 8 (Z.shiftl e 2)) &&
  bool_decide (data_bits [wrap 8 (Z.shiftl e 2)] 8 = val_bits e 6 ++ [false; false]) &&
  (e =? 32 * b2z follow + 2 * t + b2z q).

Lemma entry_facts follow q t : 0 <= t < 16 -> entry_check follow q t = true.
Proof.
  intros Ht. apply (below_forall (entry_check follow q) 16); [|lia]. destruct follow, q; vm_compute; reflexivity.
Qed.

Record entry_ok (follow q : bool) (t e : Z) : Prop := {
  en_range : 0 <= e < 64;
  en_type : Z.land (Z.shiftr e 1) 15 = t;
  en_quality : negb (Z.land e 1 =? 0) = q;
  en_follow : (Z.land e 32 =? 0) = negb follow;
  en_octet : data_bits [wrap 8 (Z.shiftl e 2)] 6 = val_bits e 6;
  en_parts : val_bits (b2z follow) 1 ++ val_bits t 4 ++ val_bits (b2z q) 1 = val_bits e 6;
  en_toc : to_octet (mkToc follow t q) = wrap 8 (Z.shiftl e 2);
  en_whole : data_bits [wrap 8 (Z.shiftl e 2)] 8 = val_bits e 6 ++ [false; false];
  en_value : e = 32 * b2z follow + 2 * t + b2z q
}.

Lemma entry_is_ok follow q t : 0 <= t < 16 -> entry_ok follow q t (entry_of follow t q).
Proof.
  intros Ht. pose proof (entry_facts follow q t Ht) as H. unfold entry_check in H. rewrite !andb_true_iff in H.
  destruct H as (((((((((H1 & H2) & H3) & H4) & H5) & H6) & H7) & H8) & H9) & H10). apply bool_decide_eq_true in H6, H7, H8, H9. apply Bool.eqb_prop in H4, H5.
  split; (done || lia).
Qed.

(** A frame the payload format carries: its type, and the bits it needs. *)
Definition frame_ok (v : Variant) (f : AmrFrame) (bits : Z) : Prop :=
  frame_bits v (af_frame_type f) = Some bits /\ bytes_ok (af_data f) /\ div_ceil bits 8 <= len (af_data f).

Lemma frame_bits_range v t bits : frame_bits v t = Some bits -> 0 <= t < 16 /\ 0 <= bits <= 477.
Proof.
  unfold frame_bits, amrnb_frame_bits, amrwb_frame_bits. intros H.
  assert (0 <= t < 16) as Ht.
  { destruct v; repeat match type of H with (if ?c then _ else _) = _ => destruct c eqn:? end; try done; lia. }
  split; [done|]. assert (match frame_bits v t with Some b => (0 <=? b) && (b <=? 477) | None => true end = true) as Hc.
  { destruct v; [apply (below_forall (fun t => match frame_bits Narrowband t with Some b => (0 <=? b) && (b <=? 477) | None => true end) 16); [vm_compute; reflexivity|lia]|].
    apply (below_forall (fun t => match frame_bits Wideband t with Some b => (0 <=? b) && (b <=? 477) | None => true end) 16); [vm_compute; reflexivity|lia]. }
  unfold frame_bits, amrnb_frame_bits, amrwb_frame_bits in Hc. rewrite H in Hc. lia.
Qed.

Section stream.
Context (fmt : PayloadFormat) (v : Variant).

Definition bits_of (f : AmrFrame) : Z := default 0 (frame_bits v (af_frame_type f)).
Definition entry_for (rest : list AmrFrame) (f : AmrFrame) : Z := toc_entry (negb (len rest =? 0)) f.

Fixpoint toc_stream (frames : list AmrFrame) : list bool :=
  match frames with
  | [] => []
  | f :: rest => (val_bits (entry_for rest f) 6 ++ replicate (Z.to_nat (toc_entry_bits fmt - 6)) false) ++ toc_stream rest
  end.

Definition frame_part (f : AmrFrame) : list bool :=
  data_bits (af_data f) (bits_of f) ++ replicate (Z.to_nat (frame_span fmt (bits_of f) - bits_of f)) false.

Definition frame_stream (frames : list AmrFrame) : list bool := flat_map frame_part frames.

Definition payload_stream (cmr : Z) (frames : list AmrFrame) : list bool :=
  ((val_bits (Z.land cmr 0x0F) 4 ++ replicate (Z.to_nat (header_bits fmt - 4)) false) ++ toc_stream frames) ++ frame_stream frames.

Definition frames_ok (frames : list AmrFrame) : Prop := Forall (fun f => frame_ok v f (bits_of f)) frames.

Lemma frame_ok_bits f bits : frame_ok v f bits -> bits_of f = bits.
Proof. unfold bits_of. by intros (-> & _). Qed.

Lemma span_fits bits : 0 <= bits -> bits <= frame_span fmt bits.
Proof. intros Hb. destruct (div_ceil_8 bits Hb). unfold frame_span. destruct fmt; lia. Qed.

Lemma len_frame_part f : frame_ok v f (bits_of f) -> len (frame_part f) = frame_span fmt (bits_of f).
Proof.
  intros (Hb & _). destruct (frame_bits_range _ _ _ Hb) as (_ & Hr). pose proof (span_fits (bits_of f) ltac:(lia)).
  unfold frame_part. rewrite len_app, len_data_bits, len_replicate by lia. lia.
Qed.

Lemma len_toc_stream frames : len (toc_stream frames) = toc_entry_bits fmt * len frames.
Proof.
  induction frames as [|f rest IH]; [cbn; unfold toc_entry_bits; destruct fmt; done|]. cbn [toc_stream].
  rewrite !len_app, len_val_bits, len_replicate, IH, len_cons. unfold toc_entry_bits. destruct fmt; lia.
Qed.

Lemma payload_bits_len frames n : frames_ok frames ->
  payload_bits fmt v (map af_frame_type frames) n = Some (n + toc_entry_bits fmt * len frames + len (frame_stream frames)).
Proof.
  revert n. induction frames as [|f rest IH]; intros n H.
  - cbn. f_equal. change (len (@nil AmrFrame)) with 0. change (len (@nil bool)) with 0. lia.
  - inversion H as [|? ? Hf Hr]; subst. cbn [map payload_bits]. destruct (Hf) as (Hb & _). rewrite Hb. cbn [mbind option_bind]. rewrite IH by done. f_equal.
    cbn [frame_stream flat_map]. rewrite len_app, len_frame_part, len_cons by done. unfold frame_stream. lia.
Qed.

Lemma toc_entry_ok f bits follow : frame_ok v f bits -> entry_ok follow (af_quality_ok f) (af_frame_type f) (toc_entry follow f).
Proof.
  intros (Hb & _). destruct (frame_bits_range _ _ _ Hb) as (Ht & _). unfold toc_entry.
  assert (Z.land (af_frame_type f) 15 = af_frame_type f) as ->.
  { change 15 with (Z.ones 4). rewrite Z.land_ones by lia. apply Z.mod_small. lia. }
  by apply entry_is_ok.
Qed.

Lemma put_tocs_holds frames : forall out bs, frames_ok frames -> holds out bs -> len bs + len (toc_stream frames) <= 8 * len out ->
  exists out', put_tocs out fmt (len bs) frames = Ok (out', len (bs ++ toc_stream frames)) /\ len out' = len out /\ holds out' (bs ++ toc_stream frames).
Proof.
  induction frames as [|f rest IH]; intros out bs Hf Hh Hl; cbn [put_tocs toc_stream].
  { exists out. by rewrite app_nil_r. }
  inversion Hf as [|? ? Hf1 Hrest]; subst. cbn [toc_stream] in Hl. fold (entry_for rest f). pose proof (len_nonneg (toc_stream rest)).
  pose proof (toc_entry_ok f _ (negb (len rest =? 0)) Hf1) as He. fold (entry_for rest f) in He.
  rewrite !len_app, len_val_bits, len_replicate in Hl.
  destruct (put_bits_holds out bs [wrap 8 (Z.shiftl (entry_for rest f) 2)] 6 Hh) as (o1 & -> & Hl1 & Hh1).
  { constructor; [apply wrap_byte|constructor]. }
  { lia. } { done. } { lia. }
  rewrite bind_Ok. rewrite (en_octet _ _ _ _ He) in Hh1.
  apply (holds_pad _ _ (Z.to_nat (toc_entry_bits fmt - 6))) in Hh1; [|rewrite len_app, len_val_bits; lia]. rewrite <- app_assoc in Hh1.
  set (part := val_bits (entry_for rest f) 6 ++ replicate _ false) in *.
  replace (len bs + toc_entry_bits fmt) with (len (bs ++ part)).
  2: { unfold part. rewrite !len_app, len_val_bits, len_replicate. unfold toc_entry_bits. destruct fmt; lia. }
  destruct (IH o1 (bs ++ part) Hrest Hh1) as (o2 & -> & Hl2 & Hh2).
  { unfold part. rewrite !len_app, len_val_bits, len_replicate. lia. }
  exists o2. rewrite <- app_assoc in Hh2 |- *. split; [done|]. split; [congruence|done].
Qed.

Lemma put_frames_holds frames : forall out bs, frames_ok frames -> holds out bs -> len bs + len (frame_stream frames) <= 8 * len out ->
  exists out', put_frames out fmt v (len bs) frames = Ok out' /\ len out' = len out /\ holds out' (bs ++ frame_stream frames).
Proof.
  induction frames as [|f rest IH]; intros out bs Hf Hh Hl; cbn [put_frames].
  { exists out. cbn. by rewrite app_nil_r. }
  inversion Hf as [|? ? Hf1 Hrest]; subst. pose proof Hf1 as (Hb & Hok & Hd). destruct (frame_bits_range _ _ _ Hb) as (_ & Hr).
  rewrite Hb. cbn [ok_or]. rewrite bind_Ok, (proj2 (Z.ltb_ge _ _)) by lia. cbn [frame_stream flat_map] in Hl. rewrite len_app, len_frame_part in Hl by done.
  pose proof (len_nonneg (flat_map frame_part rest)). pose proof (span_fits (bits_of f) ltac:(lia)) as Hsp.
  destruct (put_bits_holds out bs (af_data f) (bits_of f) Hh Hok) as (o1 & -> & Hl1 & Hh1); [lia|done|lia|]. rewrite bind_Ok.
  apply (holds_pad _ _ (Z.to_nat (frame_span fmt (bits_of f) - bits_of f))) in Hh1; [|rewrite len_app, len_data_bits; lia]. rewrite <- app_assoc in Hh1.
  fold (frame_part f) in Hh1. replace (len bs + frame_span fmt (bits_of f)) with (len (bs ++ frame_part f)) by (rewrite len_app, len_frame_part; done).
  destruct (IH o1 (bs ++ frame_part f) Hrest Hh1) as (o2 & -> & Hl2 & Hh2).
  { rewrite len_app, len_frame_part, Hl1 by done. unfold frame_stream. lia. }
  exists o2. rewrite <- app_assoc in Hh2. split; [done|]. split; [congruence|done].
Qed.

Lemma header_holds needed cmr : 1 <= needed -> header_bits fmt <= 8 * needed ->
  exists w, @set_at CodecError Z (replicate (Z.to_nat needed) 0) 0 (wrap 8 (Z.shiftl (Z.land cmr 0x0F) 4)) = Ok w /\ len w = needed /\
    holds w (val_bits (Z.land cmr 0x0F) 4 ++ replicate (Z.to_nat (header_bits fmt - 4)) false).
Proof.
  intros Hn Hh. set (c := Z.land cmr 15). destruct (@set_byte CodecError (replicate (Z.to_nat needed) 0) 0 (wrap 8 (Z.shiftl c 4))) as (w & -> & Hl & Hok & Hb);
    [rewrite len_replicate; lia|]. rewrite len_replicate in Hl. exists w. split; [done|]. split; [lia|].
  assert (holds w (val_bits c 4)) as Hw.
  { split; [apply Hok; [apply zeros_ok|apply wrap_byte]|rewrite len_val_bits; lia|]. intros i Hi. rewrite (tb_set _ w 0 _ i Hb) by lia.
    pose proof (bit_index i) as (Hi8 & Hm). destruct (Z.eqb_spec (i / 8) 0) as [Hz|Hz].
    - rewrite shl_bits by lia. destruct (Z.ltb_spec (i mod 8 + 4) 8); cbn [andb].
      + rewrite nth_val_bits by lia. f_equal. lia.
      + rewrite nth_overflow; [done|]. pose proof (len_val_bits c 4) as Hlv. unfold len in Hlv. lia.
    - rewrite tb_zeros, nth_overflow; [done|]. pose proof (len_val_bits c 4) as Hlv. unfold len in Hlv. lia. }
  apply holds_pad; [done|]. rewrite len_val_bits. destruct fmt; unfold header_bits in *; lia.
Qed.

Lemma len_payload_stream cmr frames :
  len (payload_stream cmr frames) = header_bits fmt + toc_entry_bits fmt * len frames + len (frame_stream frames).
Proof.
  unfold payload_stream. rewrite !len_app, len_val_bits, len_replicate, len_toc_stream. destruct fmt; unfold header_bits; lia.
Qed.

Lemma write_payload_holds cmr frames out : frames_ok frames -> 1 <= len frames <= MAX_FRAMES ->
  div_ceil (len (payload_stream cmr frames)) 8 <= len out ->
  exists w, write_payload fmt v cmr frames out =
      Ok (div_ceil (len (payload_stream cmr frames)) 8, w ++ drop (Z.to_nat (div_ceil (len (payload_stream cmr frames)) 8)) out) /\
    len w = div_ceil (len (payload_stream cmr frames)) 8 /\ holds w (payload_stream cmr frames).
Proof.
  intros Hf Hn Ho. set (needed := div_ceil (len (payload_stream cmr frames)) 8) in *. unfold MAX_FRAMES in Hn.
  destruct (div_ceil_8 (len (payload_stream cmr frames)) (len_nonneg _)) as (Hd & Hd0). fold needed in Hd, Hd0.
  pose proof (len_payload_stream cmr frames) as Hls. pose proof (len_nonneg (frame_stream frames)).
  unfold write_payload. rewrite (proj2 (Z.eqb_neq _ 0)), (proj2 (Z.ltb_ge MAX_FRAMES _)) by (unfold MAX_FRAMES; lia). cbn [orb].
  assert (payload_len fmt v (map af_frame_type frames) = Some needed) as ->.
  { unfold payload_len. rewrite payload_bits_len by done. cbn [mbind option_bind]. by rewrite <- Hls. }
  cbn [ok_or]. rewrite bind_Ok, (proj2 (Z.ltb_ge _ _)) by lia.
  assert (header_bits fmt + 6 <= len (payload_stream cmr frames)) as Hmin by (rewrite Hls; destruct fmt; unfold header_bits, toc_entry_bits; lia).
  destruct (header_holds needed cmr) as (w0 & -> & Hl0 & H0); [destruct fmt; unfold header_bits in *; lia|lia|]. rewrite bind_Ok.
  unfold payload_stream in Hd. rewrite !len_app in Hd.
  set (head := val_bits (Z.land cmr 15) 4 ++ replicate _ false) in *.
  assert (len head = header_bits fmt) as Hlh by (unfold head; rewrite len_app, len_val_bits, len_replicate; destruct fmt; unfold header_bits; lia).
  rewrite <- Hlh. destruct (put_tocs_holds frames w0 head Hf H0) as (w1 & -> & Hl1 & H1).
  { rewrite Hl0. unfold head. rewrite len_app. lia. }
  rewrite bind_Ok. destruct (put_frames_holds frames w1 (head ++ toc_stream frames) Hf H1) as (w2 & -> & Hl2 & H2).
  { rewrite Hl1, Hl0, len_app. unfold head. rewrite len_app. lia. }
  rewrite bind_Ok. exists w2. split; [done|]. split; [congruence|]. exact H2.
Qed.

(** ** Reading a stream back *)

Lemma stream_val payload pre n x post : holds payload (pre ++ val_bits x n ++ post) -> 0 <= x < 2 ^ Z.of_nat n ->
  bits_val (tb payload) (len pre) n = x /\ len pre + Z.of_nat n <= 8 * len payload.
Proof.
  intros [Hok Hr Hb] Hx. rewrite !len_app, len_val_bits in Hr. pose proof (len_nonneg pre). pose proof (len_nonneg post). split; [|lia].
  apply bits_val_of; [done|]. intros k Hk. rewrite Hb by lia. rewrite app_nth2 by (unfold len in *; lia).
  replace (Z.to_nat (len pre + k) - length pre)%nat with (Z.to_nat k) by (unfold len; lia).
  rewrite app_nth1 by (pose proof (len_val_bits x n) as Hl; unfold len in Hl; lia). rewrite nth_val_bits by lia. f_equal. lia.
Qed.

Lemma stream_cut payload pre data bits post : holds payload (pre ++ data_bits data bits ++ post) -> 0 <= bits ->
  cut_bits (tb payload) (len pre) bits = cut_bits (tb data) 0 bits /\ len pre + bits <= 8 * len payload.
Proof.
  intros [Hok Hr Hb] Hx. rewrite !len_app, len_data_bits in Hr by done. pose proof (len_nonneg pre). pose proof (len_nonneg post). split; [|lia].
  apply cut_bits_ext; [done|]. intros i Hi. rewrite Hb by lia. rewrite app_nth2 by (unfold len in *; lia).
  replace (Z.to_nat (len pre + i) - length pre)%nat with (Z.to_nat i) by (unfold len; lia).
  rewrite app_nth1 by (pose proof (len_data_bits data bits Hx) as Hl; unfold len in Hl; lia). by rewrite nth_data_bits by lia.
Qed.

Definition slot_for (f : AmrFrame) (offset : Z) : FrameSlot := mkFrameSlot (af_frame_type f) (af_quality_ok f) (bits_of f) offset.

Lemma read_tocs_holds frames : forall fuel payload pre post count, frames_ok frames -> frames <> [] -> (length frames <= fuel)%nat ->
  0 <= count -> count + len frames <= MAX_FRAMES -> holds payload (pre ++ toc_stream frames ++ post) ->
  read_tocs fuel payload fmt v (len pre) count = Ok (map (fun f => slot_for f 0) frames, len (pre ++ toc_stream frames)).
Proof.
  induction frames as [|f rest IH]; intros fuel payload pre post count Hf Hne Hfuel Hc Hmax Hh; [done|]. destruct fuel as [|fuel]; [cbn in Hfuel; lia|].
  inversion Hf as [|? ? Hf1 Hrest]; subst. cbn [read_tocs toc_stream map] in *. pose proof (len_nonneg pre) as Hp. rewrite len_cons in Hmax. pose proof (len_nonneg rest).
  pose proof (toc_entry_ok f _ (negb (len rest =? 0)) Hf1) as He. fold (entry_for rest f) in He.
  rewrite <- !app_assoc in Hh. destruct (stream_val payload pre 6 (entry_for rest f) _ Hh) as (Hv & Hin).
  { pose proof (en_range _ _ _ _ He). change (2 ^ Z.of_nat 6) with 64. lia. }
  rewrite field_at, (proj2 (Z.leb_le (len pre + 6) _)) by lia. cbn [ok_or]. rewrite bind_Ok. change (Z.to_nat 6) with 6%nat. rewrite Hv.
  pose proof (ho_room _ _ Hh) as Hroom. rewrite !len_app, len_val_bits, len_replicate in Hroom. pose proof (len_nonneg (toc_stream rest)). pose proof (len_nonneg post).
  rewrite (proj2 (Z.ltb_ge _ _)) by (unfold toc_entry_bits in *; destruct fmt; lia).
  rewrite (en_type _ _ _ _ He), (en_quality _ _ _ _ He), (en_follow _ _ _ _ He). destruct (Hf1) as (Hb & _). rewrite Hb. cbn [ok_or]. rewrite bind_Ok.
  rewrite (proj2 (Z.leb_gt MAX_FRAMES count)) by lia. fold (slot_for f 0). rewrite negb_involutive.
  set (part := val_bits (entry_for rest f) 6 ++ replicate (Z.to_nat (toc_entry_bits fmt - 6)) false).
  assert (len (pre ++ part) = len pre + toc_entry_bits fmt) as Hlp.
  { unfold part. rewrite !len_app, len_val_bits, len_replicate. unfold toc_entry_bits. destruct fmt; lia. }
  destruct rest as [|g rest].
  - cbn [map toc_stream]. rewrite app_nil_r. fold part. rewrite Hlp. done.
  - rewrite (proj2 (Z.eqb_neq (len (g :: rest)) 0)) by (rewrite len_cons; pose proof (len_nonneg rest); lia). rewrite <- Hlp.
    rewrite (IH fuel payload (pre ++ part) post (count + 1)); [|done|done|cbn in Hfuel |- *; lia|lia|lia|].
    + rewrite bind_Ok. unfold part. by rewrite <- !app_assoc.
    + unfold part. rewrite <- !app_assoc. exact Hh.
Qed.

Lemma place_holds frames : forall payload pre post, frames_ok frames -> len pre + len (frame_stream frames) < 2 ^ 32 ->
  holds payload (pre ++ frame_stream frames ++ post) ->
  exists slots, place_slots fmt (map (fun f => slot_for f 0) frames) (len pre) = (slots, len (pre ++ frame_stream frames)) /\
    Forall2 (fun f s => s = slot_for f (sl_bit_offset s) /\ 0 <= sl_bit_offset s /\ sl_bit_offset s + sl_bits s <= 8 * len payload /\
      cut_bits (tb payload) (sl_bit_offset s) (sl_bits s) = cut_bits (tb (af_data f)) 0 (bits_of f)) frames slots.
Proof.
  induction frames as [|f rest IH]; intros payload pre post Hf Hfit Hh; cbn [map place_slots].
  { exists []. cbn. by rewrite app_nil_r. }
  inversion Hf as [|? ? Hf1 Hrest]; subst. destruct (Hf1) as (Hb & _). destruct (frame_bits_range _ _ _ Hb) as (_ & Hr).
  cbn [frame_stream flat_map] in *. rewrite len_app in Hfit. pose proof (len_nonneg pre). fold (frame_stream rest) in *. pose proof (len_nonneg (frame_stream rest)).
  pose proof (len_frame_part f Hf1) as Hlf. pose proof (span_fits (bits_of f) ltac:(lia)).
  change (sl_bits (slot_for f 0)) with (bits_of f). rewrite <- Hlf, <- len_app.
  destruct (IH payload (pre ++ frame_part f) post Hrest) as (slots & -> & Hall); [rewrite len_app; lia|by rewrite <- !app_assoc in Hh |- *|].
  eexists. split; [by rewrite <- app_assoc|]. constructor; [|exact Hall].
  assert (wrap 32 (len pre) = len pre) as -> by (apply Z.mod_small; lia). cbn [sl_bit_offset sl_bits]. split; [done|]. split; [done|].
  unfold frame_part in Hh. rewrite <- !app_assoc in Hh. destruct (stream_cut payload pre _ _ _ Hh ltac:(lia)). done.
Qed.

Lemma read_payload_holds cmr frames w : frames_ok frames -> 1 <= len frames <= MAX_FRAMES -> holds w (payload_stream cmr frames) ->
  len w = div_ceil (len (payload_stream cmr frames)) 8 ->
  exists slots, read_payload w fmt v = Ok (mkPayloadLayout (Z.land cmr 0x0F) slots) /\
    Forall2 (fun f s => s = slot_for f (sl_bit_offset s) /\ 0 <= sl_bit_offset s /\ sl_bit_offset s + sl_bits s <= 8 * len w /\
      cut_bits (tb w) (sl_bit_offset s) (sl_bits s) = cut_bits (tb (af_data f)) 0 (bits_of f)) frames slots.
Proof.
  intros Hf Hn Hh Hl. destruct (div_ceil_8 (len (payload_stream cmr frames)) (len_nonneg _)) as (Hd & _). rewrite <- Hl in Hd.
  pose proof (len_payload_stream cmr frames) as Hls. pose proof (len_nonneg (frame_stream frames)).
  assert (header_bits fmt + 6 <= len (payload_stream cmr frames)) as Hmin by (rewrite Hls; destruct fmt; unfold header_bits, toc_entry_bits; lia).
  unfold read_payload. rewrite (proj2 (Z.eqb_neq _ 0)) by (destruct fmt; unfold header_bits in *; lia).
  unfold payload_stream in Hh. set (head := val_bits (Z.land cmr 15) 4 ++ replicate _ false) in *.
  assert (len head = header_bits fmt) as Hlh by (unfold head; rewrite len_app, len_val_bits, len_replicate; destruct fmt; unfold header_bits; lia).
  assert (holds w ([] ++ val_bits (Z.land cmr 15) 4 ++ (replicate (Z.to_nat (header_bits fmt - 4)) false ++ toc_stream frames ++ frame_stream frames))) as H0.
  { cbn [app]. unfold head in Hh. by rewrite <- !app_assoc in Hh. }
  destruct (stream_val w [] 4 _ _ H0) as (Hv & Hin).
  { change 15 with (Z.ones 4). rewrite Z.land_ones by lia. apply Z.mod_pos_bound. lia. }
  change (len (@nil bool)) with 0 in Hv, Hin. rewrite field_at, (proj2 (Z.leb_le (0 + 4) _)) by lia. cbn [ok_or]. rewrite bind_Ok.
  change (Z.to_nat 4) with 4%nat. rewrite Hv. rewrite <- !app_assoc in Hh. rewrite <- Hlh.
  rewrite (read_tocs_holds frames _ w head (frame_stream frames) 0); [|done|intros ->; change (len (@nil AmrFrame)) with 0 in Hn; lia|unfold MAX_FRAMES, len in *; lia|lia|lia|done]. rewrite bind_Ok. cbv beta iota.
  rewrite app_assoc, <- (app_nil_r (frame_stream frames)) in Hh. pose proof (len_app head (toc_stream frames)) as Hla. rewrite len_toc_stream in Hla.
  assert (len (frame_stream frames) <= 12 * 480) as Hsmall.
  { clear - Hf Hn. assert (forall fs, frames_ok fs -> len (frame_stream fs) <= 480 * len fs) as Hb; [|specialize (Hb frames Hf); unfold MAX_FRAMES in Hn; lia].
    induction fs as [|f fs IH]; intros H; [done|]. inversion H as [|? ? Hf1 Hrest]; subst. cbn [frame_stream flat_map]. fold (frame_stream fs).
    rewrite len_app, len_cons, len_frame_part by done. specialize (IH Hrest). destruct (Hf1) as (Hb & _). destruct (frame_bits_range _ _ _ Hb) as (_ & Hr).
    destruct (div_ceil_8 (bits_of f) ltac:(lia)). unfold frame_span. destruct fmt; lia. }
  unfold MAX_FRAMES in Hn.
  destruct (place_holds frames w (head ++ toc_stream frames) [] Hf) as (slots & -> & Hall); [destruct fmt; unfold header_bits, toc_entry_bits in *; lia|done|].
  rewrite (proj2 (Z.ltb_ge _ _)), (proj2 (Z.ltb_ge 7 _)) by (rewrite len_app, Hla; lia). by exists slots.
Qed.

End stream.

(** ** The two writers agree *)

Definition is_octet (fmt : PayloadFormat) : bool := match fmt with BandwidthEfficient => false | OctetAligned => true end.

(** A frame with the bits past its end cleared. *)
Definition masked (v : Variant) (f : AmrFrame) : AmrFrame :=
  mkAmrFrame (af_frame_type f) (af_quality_ok f) (cut_bits (tb (af_data f)) 0 (bits_of v f)).

Lemma land_type v f bits : frame_ok v f bits -> Z.land (af_frame_type f) 15 = af_frame_type f.
Proof.
  intros (Hb & _). destruct (frame_bits_range _ _ _ Hb) as (Ht & _). change 15 with (Z.ones 4). rewrite Z.land_ones by lia. apply Z.mod_small. lia.
Qed.

Lemma write_tocs_wrote v frames : forall w bs, frames_ok v frames -> wrote w bs ->
  exists w', write_tocs w frames = Ok w' /\ wrote w' (bs ++ toc_stream BandwidthEfficient frames).
Proof.
  induction frames as [|f rest IH]; intros w bs Hf Hw; cbn [write_tocs toc_stream].
  { exists w. by rewrite app_nil_r. }
  inversion Hf as [|? ? Hf1 Hrest]; subst. rewrite (land_type v f _ Hf1).
  destruct (write_wrote 1 w bs (b2z (negb (len rest =? 0))) Hw) as (w1 & -> & H1). rewrite bind_Ok.
  destruct (write_wrote 4 w1 _ (af_frame_type f) H1) as (w2 & -> & H2). rewrite bind_Ok.
  destruct (write_wrote 1 w2 _ (b2z (af_quality_ok f)) H2) as (w3 & -> & H3). rewrite bind_Ok.
  pose proof (toc_entry_ok v f _ (negb (len rest =? 0)) Hf1) as He. rewrite <- !app_assoc, (en_parts _ _ _ _ He) in H3.
  destruct (IH w3 _ Hrest H3) as (w4 & -> & H4). exists w4. split; [done|]. rewrite <- !app_assoc in H4 |- *. exact H4.
Qed.

Lemma frame_data_len_ok v f : frame_ok v f (bits_of v f) -> frame_data_len (frame_bits v) f = Ok (div_ceil (bits_of v f) 8).
Proof. intros (Hb & _ & Hd). unfold frame_data_len. rewrite Hb. cbn [ok_or]. rewrite bind_Ok, (proj2 (Z.ltb_ge _ _)) by done. done. Qed.

Lemma write_frames_wrote v frames : forall w bs, frames_ok v frames -> wrote w bs ->
  exists w', write_frames (frame_bits v) w frames = Ok w' /\ wrote w' (bs ++ frame_stream BandwidthEfficient v frames).
Proof.
  induction frames as [|f rest IH]; intros w bs Hf Hw; cbn [write_frames].
  { exists w. cbn. by rewrite app_nil_r. }
  inversion Hf as [|? ? Hf1 Hrest]; subst. pose proof Hf1 as (Hb & Hok & Hd). rewrite Hb. cbn [ok_or]. rewrite bind_Ok, frame_data_len_ok, bind_Ok by done.
  destruct (frame_bits_range _ _ _ Hb) as (_ & Hr). destruct (write_bits_wrote w bs (af_data f) (bits_of v f) Hw ltac:(lia) Hd) as (w1 & -> & H1). rewrite bind_Ok.
  destruct (IH w1 _ Hrest H1) as (w2 & -> & H2). exists w2. split; [done|]. cbn [frame_stream flat_map]. unfold frame_part. cbn [frame_span].
  rewrite Z.sub_diag. cbn [Z.to_nat replicate]. rewrite app_nil_r. rewrite <- app_assoc in H2. exact H2.
Qed.

Lemma serialize_be v cmr frames : frames_ok v frames ->
  exists w, serialize (frame_bits v) (mkAmrPayload cmr frames) false = Ok w /\ holds w (payload_stream BandwidthEfficient v cmr frames) /\
    len w = div_ceil (len (payload_stream BandwidthEfficient v cmr frames)) 8.
Proof.
  intros Hf. unfold serialize. cbn [pl_cmr pl_frames].
  assert (wrote (mkBitWriter [] 0) []) as H0 by (split; [apply (holds_zeros 0)|done]).
  destruct (write_wrote 4 _ _ (Z.land cmr 15) H0) as (w1 & -> & H1). rewrite bind_Ok.
  destruct (write_tocs_wrote v frames w1 _ Hf H1) as (w2 & -> & H2). rewrite bind_Ok.
  destruct (write_frames_wrote v frames w2 _ Hf H2) as (w3 & -> & H3). rewrite bind_Ok. exists (bw_bytes w3). split; [done|].
  destruct H3 as (H3 & _ & H4). unfold payload_stream. change (Z.to_nat (header_bits BandwidthEfficient - 4)) with 0%nat. cbn [replicate].
  rewrite app_nil_r. by cbn [app] in H3, H4.
Qed.

Lemma byte_of_app l1 l2 k : 0 <= k -> byte_of (l1 ++ l2) k = if k <? len l1 then byte_of l1 k else byte_of l2 (k - len l1).
Proof.
  intros Hk. destruct (Z.ltb_spec k (len l1)); [by apply byte_of_app_l|]. unfold byte_of. rewrite app_nth2 by (unfold len in *; lia). f_equal. unfold len in *. lia.
Qed.

Lemma holds_app a bs b cs : holds a bs -> len bs = 8 * len a -> holds b cs -> holds (a ++ b) (bs ++ cs).
Proof.
  intros [A1 A2 A3] Ha [B1 B2 B3]. pose proof (len_nonneg a). split; [by apply bytes_ok_app|rewrite !len_app; lia|]. intros i Hi. rewrite len_app in Hi.
  pose proof (bit_index i) as (Hi8 & Hm). assert (0 <= i / 8) by (apply Z.div_pos; lia). unfold tb. rewrite byte_of_app by done. destruct (Z.ltb_spec (i / 8) (len a)).
  - fold (tb a i). rewrite A3, app_nth1 by (unfold len in *; lia). done.
  - rewrite app_nth2 by (unfold len in *; lia). assert (i / 8 - len a = (i - 8 * len a) / 8 /\ i mod 8 = (i - 8 * len a) mod 8) as (-> & ->).
    { replace (i - 8 * len a) with (i + - len a * 8) by lia. rewrite Z.div_add, Z.mod_add by lia. lia. }
    fold (tb b (i - 8 * len a)). rewrite B3 by lia. f_equal. unfold len in *. lia.
Qed.

Lemma holds_byte x : is_byte x -> holds [x] (data_bits [x] 8).
Proof.
  intros Hx. split; [constructor; [done|constructor]|rewrite len_data_bits by lia; done|]. change (8 * len [x]) with 8. intros i Hi. by rewrite nth_data_bits by lia.
Qed.

Lemma holds_cut data bits : 0 <= bits -> bytes_ok data ->
  holds (cut_bits (tb data) 0 bits) (data_bits data bits ++ replicate (Z.to_nat (frame_span OctetAligned bits - bits)) false).
Proof.
  intros Hb Hok. destruct (cut_bits_ok (tb data) 0 bits Hb) as (Hc & Hl). destruct (div_ceil_8 bits Hb). cbn [frame_span].
  apply holds_pad; [|rewrite len_data_bits, Z2Nat.id by lia; lia]. split; [done|rewrite len_data_bits by done; lia|].
  intros i Hi. rewrite tb_cut by lia. destruct (Z.ltb_spec i bits); cbn [andb]; [by rewrite Z.add_0_l, nth_data_bits by lia|].
  rewrite nth_overflow; [done|]. pose proof (len_data_bits data bits Hb) as Hd. unfold len in Hd. lia.
Qed.

Lemma toc_octets_hold v frames : frames_ok v frames -> holds (toc_octets (map (masked v) frames)) (toc_stream OctetAligned frames) /\
  len (toc_octets (map (masked v) frames)) = len frames.
Proof.
  induction frames as [|f rest IH]; intros Hf; [split; [apply (holds_zeros 0)|done]|]. inversion Hf as [|? ? Hf1 Hrest]; subst. destruct (IH Hrest) as (H1 & H2).
  cbn [map toc_octets toc_stream]. rewrite len_map, !len_cons, H2. split; [|done]. cbn [masked af_frame_type af_quality_ok].
  pose proof (toc_entry_ok v f _ (negb (len rest =? 0)) Hf1) as He. fold (entry_for rest f) in He. rewrite (en_toc _ _ _ _ He).
  change (?x :: ?l) with ([x] ++ l). set (x := wrap 8 _).
  apply (holds_app [x] _ (toc_octets (map (masked v) rest))); [|rewrite len_app, len_val_bits; done|done].
  change (replicate (Z.to_nat (toc_entry_bits OctetAligned - 6)) false) with [false; false]. rewrite <- (en_whole _ _ _ _ He). apply holds_byte, wrap_byte.
Qed.

Lemma bits_of_masked v f : bits_of v (masked v f) = bits_of v f.
Proof. done. Qed.

Lemma frame_octets_hold v frames : frames_ok v frames ->
  exists data, frame_octets (frame_bits v) (map (masked v) frames) = Ok data /\ holds data (frame_stream OctetAligned v frames) /\
    len (frame_stream OctetAligned v frames) = 8 * len data.
Proof.
  induction frames as [|f rest IH]; intros Hf; [exists []; split; [done|]; split; [apply (holds_zeros 0)|done]|].
  inversion Hf as [|? ? Hf1 Hrest]; subst. destruct (IH Hrest) as (data & Hd & Hh & Hl). pose proof Hf1 as (Hb & Hok & _). destruct (frame_bits_range _ _ _ Hb) as (_ & Hr).
  destruct (cut_bits_ok (tb (af_data f)) 0 (bits_of v f) ltac:(lia)) as (Hc & Hlc).
  cbn [map frame_octets]. rewrite frame_data_len_ok, bind_Ok by (split; [done|split; [done|cbn [masked af_data]; rewrite bits_of_masked; lia]]). rewrite bits_of_masked.
  cbn [masked af_data]. rewrite <- Hlc. rewrite slice_Ok, bind_Ok, sub_full, Hd, bind_Ok by (pose proof (len_nonneg (cut_bits (tb (af_data f)) 0 (bits_of v f))); lia).
  eexists. split; [done|]. cbn [frame_stream flat_map]. fold (frame_stream OctetAligned v rest).
  assert (len (frame_part OctetAligned v f) = 8 * len (cut_bits (tb (af_data f)) 0 (bits_of v f))) as Hlp.
  { rewrite len_frame_part by done. cbn [frame_span]. rewrite Hlc. lia. }
  split; [|rewrite !len_app; lia]. apply holds_app; [by apply holds_cut; [lia|]|done|done].
Qed.

Lemma serialize_oa v cmr frames : frames_ok v frames ->
  exists w, serialize (frame_bits v) (mkAmrPayload cmr (map (masked v) frames)) true = Ok w /\ holds w (payload_stream OctetAligned v cmr frames) /\
    len w = div_ceil (len (payload_stream OctetAligned v cmr frames)) 8.
Proof.
  intros Hf. unfold serialize. cbn [pl_cmr pl_frames]. destruct (frame_octets_hold v frames Hf) as (data & -> & Hh & Hl). rewrite bind_Ok.
  destruct (toc_octets_hold v frames Hf) as (Ht & Htl). destruct (header_holds OctetAligned 1 cmr) as (w & Hw & Hlw & Hhw); [lia|cbn; lia|].
  change (@set_at CodecError Z (replicate (Z.to_nat 1) 0) 0 ?x) with (@Ok CodecError bytes [x]) in Hw. injection Hw as <-.
  eexists. split; [done|]. change (?x :: ?l) with ([x] ++ l). pose proof (len_toc_stream OctetAligned frames) as Hts. cbn [toc_entry_bits] in Hts. split.
  - unfold payload_stream. apply holds_app; [apply holds_app; [done|rewrite len_app, len_val_bits; done|done]| |done].
    rewrite !len_app, Hts, Htl, len_val_bits. change (len [_]) with 1. change (len (replicate _ false)) with 4. lia.
  - rewrite len_payload_stream, !len_app, Htl, Hl. cbn [header_bits toc_entry_bits]. change (len [_]) with 1. unfold div_ceil.
    replace (8 + 8 * len frames + 8 * len data + 8 - 1) with (7 + (1 + len frames + len data) * 8) by lia. rewrite Z.div_add, Z.div_small by lia. lia.
Qed.

Definition to_serialize (fmt : PayloadFormat) (v : Variant) (frames : list AmrFrame) : list AmrFrame :=
  match fmt with BandwidthEfficient => frames | OctetAligned => map (masked v) frames end.

Lemma serialize_holds fmt v cmr frames : frames_ok v frames ->
  exists w, serialize (frame_bits v) (mkAmrPayload cmr (to_serialize fmt v frames)) (is_octet fmt) = Ok w /\
    holds w (payload_stream fmt v cmr frames) /\ len w = div_ceil (len (payload_stream fmt v cmr frames)) 8.
Proof. destruct fmt; [apply serialize_be|apply serialize_oa]. Qed.

(** ** The two readers agree *)

(** A slot and a table-of-contents entry of the other reader. *)
Definition same_toc (v : Variant) (s : FrameSlot) (t : Toc) : Prop :=
  to_frame_type t = sl_frame_type s /\ to_quality_ok t = sl_quality_ok s /\ frame_bits v (sl_frame_type s) = Some (sl_bits s).

Lemma bit_val f s : bits_val f s 1 = b2z (f s).
Proof. cbn [bits_val Z.of_nat]. rewrite Z.add_0_r. lia. Qed.

(** The six bits of an entry in the three fields the bitwise reader takes. *)
Lemma entry_fields f s : let follow := f s in let q := f (s + 5) in let t := bits_val f (s + 1) 4 in
  0 <= t < 16 /\ entry_ok follow q t (bits_val f s 6).
Proof.
  intros follow q t. pose proof (bits_val_bound f (s + 1) 4) as Ht. change (2 ^ Z.of_nat 4) with 16 in Ht. fold t in Ht. split; [done|].
  pose proof (entry_is_ok follow q t Ht) as He. assert (bits_val f s 6 = entry_of follow t q) as ->; [|done].
  rewrite (en_value _ _ _ _ He). change 6%nat with (1 + (4 + 1))%nat. rewrite (bits_val_split f s 1 (4 + 1)), (bits_val_split f (s + Z.of_nat 1) 4 1), !bit_val.
  change (Z.of_nat 1) with 1. change (Z.of_nat 4) with 4. replace (s + 1 + 4) with (s + 5) by lia. fold t follow q. change (2 ^ Z.of_nat (4 + 1)) with 32. change (2 ^ 1) with 2. lia.
Qed.

Lemma read_tocs_inv fuel p fmt v pos count slots pos' : 0 <= pos -> read_tocs (S fuel) p fmt v pos count = Ok (slots, pos') ->
  let e := bits_val (tb p) pos 6 in let t := bits_val (tb p) (pos + 1) 4 in
  pos + toc_entry_bits fmt <= 8 * len p /\ exists bits, frame_bits v t = Some bits /\
    let slot := mkFrameSlot t (tb p (pos + 5)) bits 0 in
    if tb p pos then exists rest, slots = slot :: rest /\ read_tocs fuel p fmt v (pos + toc_entry_bits fmt) (count + 1) = Ok (rest, pos')
    else slots = [slot] /\ pos' = pos + toc_entry_bits fmt.
Proof.
  intros Hp H e t. cbn [read_tocs] in H. rewrite field_at in H by lia. destruct (entry_fields (tb p) pos) as (Ht & He). fold e t in He, Ht.
  destruct (pos + 6 <=? 8 * len p); [|done]. cbn [ok_or] in H. rewrite bind_Ok in H. change (Z.to_nat 6) with 6%nat in H. fold e in H.
  rewrite (Z.mul_comm (len p)) in H. destruct (Z.ltb_spec (8 * len p) (pos + toc_entry_bits fmt)); [done|]. split; [done|].
  rewrite (en_type _ _ _ _ He), (en_quality _ _ _ _ He), (en_follow _ _ _ _ He) in H. destruct (frame_bits v t) as [bits|]; [|done].
  cbn [ok_or] in H. rewrite bind_Ok in H. exists bits. split; [done|]. destruct (MAX_FRAMES <=? count); [done|]. destruct (tb p pos); cbn [negb] in H.
  - apply bind_Ok_inv in H as ([rest pos2] & Hr & [= <- <-]). eauto.
  - by injection H as <- <-.
Qed.

Lemma read_or_at p pos w e : 0 <= pos -> 0 <= w <= 32 -> pos + w <= 8 * len p ->
  read_or (mkBitReader p pos) w e = Ok (bits_val (tb p) pos (Z.to_nat w), mkBitReader p (pos + w)).
Proof. intros Hp Hw Hl. unfold read_or. rewrite read_at, (proj2 (Z.leb_le _ _)), bind_Ok by lia. done. Qed.

Lemma reader_tocs_agree fuel : forall n p v pos count slots pos', 0 <= pos -> (Z.to_nat (8 * len p - pos) < n)%nat ->
  read_tocs fuel p BandwidthEfficient v pos count = Ok (slots, pos') ->
  exists tocs, reader_tocs n (mkBitReader p pos) = Ok (tocs, mkBitReader p pos') /\ Forall2 (same_toc v) slots tocs /\ 0 <= pos'.
Proof.
  induction fuel as [|fuel IH]; intros n p v pos count slots pos' Hp Hn H; [done|]. destruct n as [|n]; [lia|].
  destruct (read_tocs_inv fuel p _ v pos count slots pos' Hp H) as (Hfit & bits & Hb & Hrest). cbn [toc_entry_bits] in *.
  cbn [reader_tocs]. rewrite read_or_at, bind_Ok by lia. rewrite read_or_at, bind_Ok by lia. rewrite read_or_at, bind_Ok by lia.
  change (Z.to_nat 1) with 1%nat. change (Z.to_nat 4) with 4%nat. rewrite !bit_val. replace (pos + 1 + 4) with (pos + 5) by lia.
  assert (wrap 8 (bits_val (tb p) (pos + 1) 4) = bits_val (tb p) (pos + 1) 4) as ->.
  { apply Z.mod_small. pose proof (bits_val_bound (tb p) (pos + 1) 4). change (2 ^ Z.of_nat 4) with 16 in *. lia. }
  assert (forall b, negb (b2z b =? 0) = b) as Hb2z by (by intros []). rewrite !Hb2z. cbn [to_follow]. replace (pos + 5 + 1) with (pos + 6) by lia.
  destruct (tb p pos).
  - destruct Hrest as (rest & -> & Hr). destruct (IH n p v (pos + 6) (count + 1) rest pos') as (tocs & -> & Hall & Hp'); [lia|lia|done|]. rewrite bind_Ok.
    eexists. split; [done|]. split; [|done]. constructor; [|done]. done.
  - destruct Hrest as (-> & ->). eexists. split; [done|]. split; [|lia]. constructor; [done|constructor].
Qed.

(** The frame a slot stands for. *)
Definition slot_frame (p : bytes) (s : FrameSlot) : AmrFrame :=
  mkAmrFrame (sl_frame_type s) (sl_quality_ok s) (cut_bits (tb p) (sl_bit_offset s) (sl_bits s)).

Lemma place_end fmt slots : forall pos placed stop, place_slots fmt slots pos = (placed, stop) -> (forall s, s ∈ slots -> 0 <= sl_bits s) -> pos <= stop.
Proof.
  induction slots as [|s slots IH]; intros pos placed stop H Hb; cbn [place_slots] in H; [by injection H as <- <-|].
  destruct (place_slots fmt slots _) as [placed' stop'] eqn:E. injection H as <- <-. apply IH in E; [|intros s' Hs'; apply Hb; by right].
  pose proof (Hb s ltac:(by left)) as Hs. destruct (div_ceil_8 (sl_bits s) Hs). unfold frame_span in E. destruct fmt; lia.
Qed.

Lemma reader_frames_agree v p slots : forall tocs pos placed stop, Forall2 (same_toc v) slots tocs -> 0 <= pos -> stop <= 8 * len p -> stop < 2 ^ 32 ->
  place_slots BandwidthEfficient slots pos = (placed, stop) ->
  reader_frames (frame_bits v) (mkBitReader p pos) tocs = Ok (map (slot_frame p) placed).
Proof.
  induction slots as [|s slots IH]; intros tocs pos placed stop Hall Hp Hs H32 Hpl; inversion Hall as [|? t ? tocs' Ht Hrest]; subst; cbn [place_slots] in Hpl.
  { by injection Hpl as <- <-. }
  destruct Ht as (H1 & H2 & H3). destruct (frame_bits_range _ _ _ H3) as (_ & Hr).
  destruct (place_slots BandwidthEfficient slots _) as [placed' stop'] eqn:E. injection Hpl as <- <-. cbn [frame_span] in E.
  assert (pos + sl_bits s <= stop') as Hend.
  { apply (place_end _ _ _ _ _ E). intros s' Hs'. apply (Forall2_Forall_l (same_toc v) (fun s => 0 <= sl_bits s)) in Hrest; [rewrite Forall_forall in Hrest; auto|].
    apply Forall_true. intros t' s2 (_ & _ & Hf). destruct (frame_bits_range _ _ _ Hf). lia. }
  cbn [reader_frames]. rewrite H1, H3. cbn [ok_or]. rewrite bind_Ok, read_to_bytes_at, bind_Ok, (proj2 (Z.leb_le _ _)) by lia. cbn [ok_or]. rewrite bind_Ok.
  rewrite (IH tocs' (pos + sl_bits s) placed' stop' Hrest ltac:(lia) Hs H32 E), bind_Ok. cbn [map]. rewrite H2. unfold mret, res_ret, slot_frame at 2. cbn [sl_bit_offset sl_bits sl_frame_type sl_quality_ok].
  assert (wrap 32 pos = pos) as -> by (apply Z.mod_small; lia). done.
Qed.

Lemma tb_in_byte p index k : 0 <= index -> 0 <= k < 8 -> tb p (8 * index + k) = Z.testbit (byte_of p index) (7 - k).
Proof.
  intros Hi Hk. unfold tb. rewrite (Z.add_comm (8 * index)), (Z.mul_comm 8). rewrite Z.div_add, Z.mod_add, Z.div_small, Z.mod_small, Z.add_0_l by lia. done.
Qed.

Lemma from_octet_bits p index : 0 <= index ->
  from_octet (byte_of p index) = mkToc (tb p (8 * index)) (bits_val (tb p) (8 * index + 1) 4) (tb p (8 * index + 5)).
Proof.
  intros Hi. set (b := byte_of p index). unfold from_octet. change 0x80 with (2 ^ 7). change 0x04 with (2 ^ 2). rewrite !land_pow2_eqb by lia.
  assert (tb p (8 * index) = Z.testbit b 7) as -> by (rewrite <- (Z.add_0_r (8 * index)); by rewrite tb_in_byte by lia).
  rewrite (tb_in_byte p index 5) by lia. fold b. change (7 - 5) with 2. f_equal. symmetry.
  change 15 with (Z.ones 4). rewrite Z.land_ones by lia. apply bits_val_of; [apply Z.mod_pos_bound; lia|].
  intros k Hk. change (Z.of_nat 4) with 4 in *. rewrite <- Z.add_assoc, tb_in_byte by lia. fold b.
  rewrite Z.mod_pow2_bits_low, Z.shiftr_spec by lia. f_equal. lia.
Qed.

Lemma octet_tocs_agree fuel : forall n p v index count slots pos', 0 <= index -> (Z.to_nat (len p - index) < n)%nat ->
  read_tocs fuel p OctetAligned v (8 * index) count = Ok (slots, pos') ->
  exists tocs index', octet_tocs n p index = Ok (tocs, index') /\ Forall2 (same_toc v) slots tocs /\ pos' = 8 * index' /\ 0 <= index'.
Proof.
  induction fuel as [|fuel IH]; intros n p v index count slots pos' Hp Hn H; [done|]. destruct n as [|n]; [lia|].
  destruct (read_tocs_inv fuel p _ v (8 * index) count slots pos' ltac:(lia) H) as (Hfit & bits & Hb & Hrest). cbn [toc_entry_bits] in *.
  cbn [octet_tocs]. rewrite get_byte by lia. cbn [ok_or]. rewrite bind_Ok, from_octet_bits by done. cbn [to_follow].
  replace (8 * index + 8) with (8 * (index + 1)) in * by lia. destruct (tb p (8 * index)).
  - destruct Hrest as (rest & -> & Hr). destruct (IH n p v (index + 1) (count + 1) rest pos') as (tocs & i' & -> & Hall & Hp' & Hi'); [lia|lia|done|]. rewrite bind_Ok.
    eexists _, i'. split; [done|]. split; [|done]. by constructor.
  - destruct Hrest as (-> & ->). eexists _, (index + 1). split; [done|]. split; [|split; [done|lia]]. constructor; [done|constructor].
Qed.

Lemma tb_sub p a b i : 0 <= a <= b -> b <= len p -> 0 <= i < 8 * (b - a) -> tb (sub p a b) i = tb p (8 * a + i).
Proof.
  intros Ha Hb Hi. unfold tb. assert ((8 * a + i) / 8 = a + i / 8 /\ (8 * a + i) mod 8 = i mod 8) as (-> & ->).
  { rewrite Z.add_comm, (Z.mul_comm 8). rewrite Z.div_add, Z.mod_add by lia. lia. }
  f_equal. assert (0 <= i / 8 < b - a) by (split; [apply Z.div_pos; lia|apply Z.div_lt_upper_bound; lia]).
  unfold byte_of, sub. rewrite !nth_lookup, lookup_take_lt, lookup_drop by lia. do 2 f_equal. lia.
Qed.

(** A frame of the bitwise reader and the slot of the other: the same entry, and the
    same bits, cleared past the frame's end. *)
Definition same_frame (v : Variant) (p : bytes) (f : AmrFrame) (s : FrameSlot) : Prop :=
  masked v f = slot_frame p s /\ bits_of v f = sl_bits s /\ frame_bits v (af_frame_type f) = Some (sl_bits s) /\
  0 <= sl_bit_offset s /\ sl_bit_offset s + sl_bits s <= 8 * len p.

Lemma slots_bits v slots tocs : Forall2 (same_toc v) slots tocs -> forall s, s ∈ slots -> 0 <= sl_bits s.
Proof.
  intros H s Hs. apply (Forall2_Forall_l (same_toc v) (fun s => 0 <= sl_bits s)) in H; [rewrite Forall_forall in H; auto|].
  apply Forall_true. intros t s2 (_ & _ & Hf). destruct (frame_bits_range _ _ _ Hf). lia.
Qed.

Lemma octet_frames_agree v p slots : forall tocs index placed stop, Forall2 (same_toc v) slots tocs -> 0 <= index -> stop <= 8 * len p -> stop < 2 ^ 32 ->
  place_slots OctetAligned slots (8 * index) = (placed, stop) ->
  exists fs, octet_frames (frame_bits v) p tocs index = Ok fs /\ Forall2 (same_frame v p) fs placed.
Proof.
  induction slots as [|s slots IH]; intros tocs index placed stop Hall Hp Hs H32 Hpl; inversion Hall as [|? t ? tocs' Ht Hrest]; subst; cbn [place_slots] in Hpl.
  { injection Hpl as <- <-. by exists []. }
  destruct Ht as (H1 & H2 & H3). destruct (frame_bits_range _ _ _ H3) as (_ & Hr). destruct (div_ceil_8 (sl_bits s) ltac:(lia)) as (Hd & Hd0).
  destruct (place_slots OctetAligned slots _) as [placed' stop'] eqn:E. injection Hpl as <- <-. cbn [frame_span] in E.
  replace (8 * index + div_ceil (sl_bits s) 8 * 8) with (8 * (index + div_ceil (sl_bits s) 8)) in E by lia.
  pose proof (place_end _ _ _ _ _ E (slots_bits v slots tocs' Hrest)) as Hend.
  cbn [octet_frames]. rewrite H1, H3. cbn [ok_or]. rewrite bind_Ok, get_range_Some by lia. cbn [ok_or]. rewrite bind_Ok.
  destruct (IH tocs' (index + div_ceil (sl_bits s) 8) placed' stop' Hrest ltac:(lia) Hs H32 E) as (fs & -> & Hfs). rewrite bind_Ok.
  eexists. split; [done|]. constructor; [|done]. assert (wrap 32 (8 * index) = 8 * index) as -> by (apply Z.mod_small; lia).
  assert (forall q data, bits_of v (mkAmrFrame (sl_frame_type s) q data) = sl_bits s) as Hbits by (intros; unfold bits_of; cbn [af_frame_type]; by rewrite H3).
  split; [|split; [by rewrite H2|split; [done|cbn [sl_bit_offset sl_bits]; lia]]].
  unfold masked, slot_frame. rewrite Hbits. cbn [af_frame_type af_quality_ok af_data sl_frame_type sl_quality_ok sl_bits sl_bit_offset]. rewrite H2. f_equal.
  apply cut_bits_ext; [lia|]. intros i Hi. rewrite Z.add_0_l. apply tb_sub; lia.
Qed.

Lemma cut_of_cut f s count : 0 <= count -> cut_bits (tb (cut_bits f s count)) 0 count = cut_bits f s count.
Proof.
  intros Hc. apply cut_bits_ext; [done|]. intros i Hi. rewrite Z.add_0_l, tb_cut by lia. by rewrite (proj2 (Z.ltb_lt i count)) by lia.
Qed.

Lemma slot_frames_same v p slots : forall tocs pos placed stop, Forall2 (same_toc v) slots tocs -> 0 <= pos -> stop <= 8 * len p -> stop < 2 ^ 32 ->
  place_slots BandwidthEfficient slots pos = (placed, stop) -> Forall2 (same_frame v p) (map (slot_frame p) placed) placed.
Proof.
  induction slots as [|s slots IH]; intros tocs pos placed stop Hall Hp Hs H32 Hpl; inversion Hall as [|? t ? tocs' Ht Hrest]; subst; cbn [place_slots] in Hpl.
  { injection Hpl as <- <-. constructor. }
  destruct Ht as (H1 & H2 & H3). destruct (frame_bits_range _ _ _ H3) as (_ & Hr).
  destruct (place_slots BandwidthEfficient slots _) as [placed' stop'] eqn:E. injection Hpl as <- <-. cbn [frame_span] in E.
  pose proof (place_end _ _ _ _ _ E (slots_bits v slots tocs' Hrest)) as Hend. cbn [map]. constructor; [|eapply IH; [done| |done|done|done]; lia].
  assert (wrap 32 pos = pos) as -> by (apply Z.mod_small; lia).
  assert (bits_of v (slot_frame p (mkFrameSlot (sl_frame_type s) (sl_quality_ok s) (sl_bits s) pos)) = sl_bits s) as Hbits by (unfold bits_of; cbn; by rewrite H3).
  split; [|split; [done|split; [done|cbn [sl_bit_offset sl_bits]; lia]]]. unfold masked. rewrite Hbits. cbn [slot_frame af_frame_type af_quality_ok af_data sl_bits sl_bit_offset sl_frame_type sl_quality_ok].
  rewrite cut_of_cut by lia. done.
Qed.

Lemma readers_agree fmt v p la : bytes_ok p -> len p < 2 ^ 28 -> read_payload p fmt v = Ok la ->
  exists fs, AmrPayload_parse (frame_bits v) p (is_octet fmt) = Ok (mkAmrPayload (la_cmr la) fs) /\ Forall2 (same_frame v p) fs (la_frames la) /\
    (fmt = BandwidthEfficient -> fs = map (slot_frame p) (la_frames la)).
Proof.
  intros Hok Hsize H. unfold read_payload in H. destruct (Z.eqb_spec (len p) 0) as [|Hne]; [done|]. pose proof (len_nonneg p) as Hlp.
  rewrite field_at, (proj2 (Z.leb_le (0 + 4) _)) in H by lia. cbn [ok_or] in H. rewrite bind_Ok in H. change (Z.to_nat 4) with 4%nat in H.
  apply bind_Ok_inv in H as ([slots pos] & Hread & H).
  destruct (place_slots fmt slots pos) as [placed stop] eqn:Hplace. rewrite (Z.mul_comm (len p)) in H.
  destruct (Z.ltb_spec (8 * len p) stop); [done|]. destruct (Z.ltb_spec 7 (8 * len p - stop)); [done|]. injection H as <-. cbn [la_cmr la_frames].
  assert (stop < 2 ^ 32) as H32 by lia. destruct fmt; cbn [is_octet AmrPayload_parse header_bits] in *.
  - destruct (reader_tocs_agree _ (S (8 * length p)) p v 4 0 slots pos ltac:(lia) ltac:(unfold len in *; lia) Hread) as (tocs & Htocs & Hall & Hpos).
    exists (map (slot_frame p) placed). split; [|split; [by eapply slot_frames_same|done]].
    unfold parse_bandwidth_efficient. rewrite read_or_at, bind_Ok by lia. change (0 + 4) with 4. rewrite Htocs, bind_Ok.
    rewrite (reader_frames_agree v p slots tocs pos placed stop) by (done || lia). rewrite bind_Ok. unfold mret, res_ret. do 2 f_equal. apply Z.mod_small.
    change (0 <= bits_val (tb p) 0 4 < 256). pose proof (bits_val_bound (tb p) 0 4) as Hv. change (2 ^ Z.of_nat 4) with 16 in Hv. lia.
  - destruct (octet_tocs_agree _ (S (length p)) p v 1 0 slots pos ltac:(lia) ltac:(unfold len in *; lia) Hread) as (tocs & index & Htocs & Hall & -> & Hi).
    destruct (octet_frames_agree v p slots tocs index placed stop Hall Hi ltac:(lia) H32 Hplace) as (fs & Hfs & Hsame). exists fs. split; [|done].
    unfold parse_octet. rewrite (proj2 (Z.eqb_neq _ 0)) by lia. rewrite idx_byte_of, bind_Ok, Htocs, bind_Ok, Hfs, bind_Ok by lia. unfold mret, res_ret. do 2 f_equal.
    symmetry. pose proof (byte_of_range p 0 ltac:(lia) Hok) as Hb. unfold is_byte in Hb. change (bits_val (tb p) 0 4 = Z.shiftr (byte_of p 0) 4). apply bits_val_of.
    + rewrite Z.shiftr_div_pow2 by lia. change (2 ^ Z.of_nat 4) with 16. change (2 ^ 4) with 16. split; [apply Z.div_pos; lia|apply Z.div_lt_upper_bound; lia].
    + intros k Hk. change (Z.of_nat 4) with 4 in *. rewrite Z.add_0_l. pose proof (tb_in_byte p 0 k ltac:(lia) ltac:(lia)) as Ht. rewrite Z.mul_0_r, Z.add_0_l in Ht. rewrite Ht.
      rewrite Z.shiftr_spec by lia. f_equal. lia.
Qed.

(** [copy_bits] takes exactly the frame out of the payload, whatever the buffer. *)
Definition copies (v : Variant) (p : bytes) (f : AmrFrame) (s : FrameSlot) : Prop :=
  af_frame_type f = sl_frame_type s /\ af_quality_ok f = sl_quality_ok s /\
  forall out, bytes_ok out -> len (af_data (masked v f)) <= len out ->
    copy_bits s p out = Ok (len (af_data (masked v f)), af_data (masked v f) ++ drop (length (af_data (masked v f))) out).

Lemma same_frame_copies v p f s : bytes_ok p -> same_frame v p f s -> copies v p f s.
Proof.
  intros Hok (Hm & Hb & Hf & H0 & Hfit). destruct (frame_bits_range _ _ _ Hf) as (_ & Hr). unfold masked, slot_frame in Hm. injection Hm as Ht Hq Hd.
  split; [done|]. split; [done|]. intros out Ho Hl. cbn [masked af_data] in *. rewrite Hd in *.
  destruct (cut_bits_ok (tb p) (sl_bit_offset s) (sl_bits s) ltac:(lia)) as (_ & Hlc). rewrite copy_bits_at by (done || lia). rewrite <- Hlc. by rewrite to_nat_len.
Qed.

(** C26. The codec of the packet path and the bitwise codec of RFC 4867 payloads are
    equivalent, in both formats and for both AMR variants.  For 1 to 12 frames of
    types the format carries, with the data they need, [write_payload] puts into
    any buffer long enough exactly the bytes [serialize] returns and leaves the rest
    alone (octet-aligned, [serialize] is given the frames with the bits past their
    end cleared, which [write_payload] does itself).  Every payload [read_payload]
    accepts is parsed by the bitwise reader to the same mode request and the same
    frames: types, quality bits, and the data [copy_bits] copies out, equal bit for
    bit in the bandwidth-efficient format, and with the padding bits cleared in the
    octet-aligned one. *)
Theorem amr_payload_equivalence fmt v :
  (forall cmr frames out, frames_ok v frames -> 1 <= len frames <= MAX_FRAMES ->
     exists w, serialize (frame_bits v) (mkAmrPayload cmr (to_serialize fmt v frames)) (is_octet fmt) = Ok w /\
       (len w <= len out -> write_payload fmt v cmr frames out = Ok (len w, w ++ drop (length w) out))) /\
  (forall p layout, bytes_ok p -> len p < 2 ^ 28 -> read_payload p fmt v = Ok layout ->
     exists fs, AmrPayload_parse (frame_bits v) p (is_octet fmt) = Ok (mkAmrPayload (la_cmr layout) fs) /\
       Forall2 (copies v p) fs (la_frames layout) /\ (fmt = BandwidthEfficient -> map (masked v) fs = fs)).
Proof.
  split.
  - intros cmr frames out Hf Hn. destruct (serialize_holds fmt v cmr frames Hf) as (w & Hw & Hh & Hl). exists w. split; [done|]. intros Ho.
    destruct (write_payload_holds fmt v cmr frames out Hf Hn) as (w' & -> & Hl' & Hh'); [by rewrite <- Hl|]. rewrite <- Hl, to_nat_len.
    by rewrite (holds_unique _ _ _ Hh' Hh) by congruence.
  - intros p la Hok Hs Hr. destruct (readers_agree fmt v p la Hok Hs Hr) as (fs & Hp & Hall & Hbe). exists fs. split; [done|]. split.
    + eapply Forall2_impl; [exact Hall|]. intros f s. by apply same_frame_copies.
    + intros ->. specialize (Hbe eq_refl). rewrite Hbe in Hall |- *. clear - Hall. induction (la_frames la) as [|s slots IH]; [done|].
      cbn [map] in *. inversion Hall as [|? ? ? ? (Hm & _) Hrest]; subst. by rewrite Hm, IH.
Qed.

Definition example_frames : list AmrFrame :=
  [mkAmrFrame 2 true (replicate 15 0xA5); mkAmrFrame 8 false (replicate 5 0x3F); mkAmrFrame 15 true []].

Lemma example_frames_ok : frames_ok Narrowband example_frames.
Proof.
  assert (forall n x, is_byte x -> bytes_ok (replicate n x)) as Hr by (intros; by apply Forall_replicate).
  apply Forall_cons_2; [|apply Forall_cons_2; [|apply Forall_cons_2; [|constructor]]].
  - split; [done|]. split; [apply Hr; split; done|done].
  - split; [done|]. split; [apply Hr; split; done|done].
  - split; [done|]. split; [constructor|done].
Qed.

(** Both codecs on three frames, a speech frame, a damaged SID frame and NO_DATA, in
    23 octets of a longer buffer, and read back. *)
Lemma amr_payload_equivalence_witness :
  exists w, serialize (frame_bits Narrowband) (mkAmrPayload 7 example_frames) false = Ok w /\
    write_payload BandwidthEfficient Narrowband 7 example_frames (replicate 30 9) = Ok (23, w ++ replicate 7 9) /\
    exists layout fs, read_payload w BandwidthEfficient Narrowband = Ok layout /\
      AmrPayload_parse (frame_bits Narrowband) w false = Ok (mkAmrPayload 7 fs) /\ Forall2 (copies Narrowband w) fs (la_frames layout).
Proof.
  destruct (amr_payload_equivalence BandwidthEfficient Narrowband) as (Hw & Hr).
  destruct (Hw 7 example_frames (replicate 30 9) example_frames_ok) as (w & Hs & Hp); [vm_compute; split; discriminate|].
  exists w. split; [exact Hs|]. cbn [to_serialize is_octet] in Hs. vm_compute in Hs. injection Hs as <-. split; [apply Hp; vm_compute; discriminate|].
  match goal with |- exists layout fs, read_payload ?x _ _ = _ /\ _ => set (p := x) end.
  destruct (read_payload p BandwidthEfficient Narrowband) as [layout| |] eqn:Hl; [|vm_compute in Hl; discriminate Hl..].
  assert (bytes_ok p) as Hok by (repeat constructor; unfold is_byte; lia).
  destruct (Hr p layout Hok ltac:(vm_compute; reflexivity) Hl) as (fs & Hf & Hall & _).
  exists layout, fs. split; [reflexivity|]. split; [|exact Hall]. cbn [is_octet] in Hf. rewrite Hf. vm_compute in Hl. injection Hl as <-. reflexivity.
Defined.
