(* ===== verification/AmrStream.v ===== *)
(** * AMR streams: crates/siphon-rtp-codec/src/amr/mode_control.rs and stream.rs

    Which speech mode an encoder sends next, and how a payload becomes PCM and PCM a
    payload.  The speech codecs underneath are behind the trait [FrameCodec], a class
    here: an operation returns the codec's new state with its outcome, so that what
    an error leaves behind is visible.  Modes and counters are small [u8] values. *)

From stdpp Require Import base list numbers option strings.
From Stdlib Require Import Lia ZArith.
From S2P Require Import Prelude Codec AmrPayload.

Open Scope Z_scope.

(** ** amr/mode_control.rs *)

Record ModeControl : Type := mkModeControl {
  mc_highest_mode : Z; mc_allowed : Z; mc_preferred : Z; mc_unrestricted : Z; mc_requested : option Z;
  mc_current : Z; mc_change_period : Z; mc_neighbor_only : bool; mc_frame_count : Z
}.

Definition is_allowed (m : ModeControl) (mode : Z) : bool :=
  (mode <? 16) && negb (Z.land (mc_allowed m) (Z.shiftl 1 mode) =? 0).

(** [(0..=n).rev().find(p)] and [(lo..lo + n).find(p)] *)
Fixpoint find_down (p : Z -> bool) (lo : Z) (n : nat) : option Z :=
  match n with
  | O => None
  | S n => if p (lo + Z.of_nat n) then Some (lo + Z.of_nat n) else find_down p lo n
  end.
Fixpoint find_up (p : Z -> bool) (lo : Z) (n : nat) : option Z :=
  match n with
  | O => None
  | S n => if p lo then Some lo else find_up p (lo + 1) n
  end.

Definition trailing_zeros16 (x : Z) : Z := default 16 (find_up (Z.testbit x) 0 16).

Definition highest_allowed_up_to (m : ModeControl) (ceiling : Z) : Z :=
  match find_down (is_allowed m) 0 (S (Z.to_nat (Z.min ceiling 15))) with
  | Some mode => mode
  | None => trailing_zeros16 (mc_allowed m)
  end.

Definition settle (m : ModeControl) : ModeControl :=
  let unrestricted := highest_allowed_up_to m (mc_preferred m) in
  mkModeControl (mc_highest_mode m) (mc_allowed m) (mc_preferred m) unrestricted None unrestricted
    (mc_change_period m) (mc_neighbor_only m) (mc_frame_count m).

Definition every_mode (highest_mode : Z) : Z := Z.shiftl 1 (highest_mode + 1) - 1.

Definition ModeControl_unrestricted (highest_mode preferred : Z) : ModeControl :=
  let highest_mode := Z.min highest_mode 8 in
  settle (mkModeControl highest_mode (every_mode highest_mode) (Z.min preferred highest_mode) 0 None 0 1 false 0).

(** The fold over the modes of the set the codec has. *)
Fixpoint mode_mask (highest_mode : Z) (mode_set : list Z) (mask : Z) : Z :=
  match mode_set with
  | [] => mask
  | mode :: rest => mode_mask highest_mode rest (if mode <=? highest_mode then Z.lor mask (Z.shiftl 1 mode) else mask)
  end.

Definition restricted_to (m : ModeControl) (mode_set : list Z) : ModeControl :=
  let allowed := mode_mask (mc_highest_mode m) mode_set 0 in
  settle (mkModeControl (mc_highest_mode m) (if allowed =? 0 then every_mode (mc_highest_mode m) else allowed)
    (mc_preferred m) (mc_unrestricted m) (mc_requested m) (mc_current m) (mc_change_period m) (mc_neighbor_only m) (mc_frame_count m)).

Definition ModeControl_new (highest_mode : Z) (mode_set : list Z) (preferred : option Z) : option ModeControl :=
  let preferred := default highest_mode preferred in
  if (highest_mode <? preferred) || existsb (fun mode => highest_mode <? mode) mode_set then None
  else Some (restricted_to (ModeControl_unrestricted highest_mode preferred) mode_set).

Definition preferring (m : ModeControl) (preferred : Z) : ModeControl :=
  settle (mkModeControl (mc_highest_mode m) (mc_allowed m) (Z.min preferred (mc_highest_mode m)) (mc_unrestricted m)
    (mc_requested m) (mc_current m) (mc_change_period m) (mc_neighbor_only m) (mc_frame_count m)).

Definition with_change_restrictions (m : ModeControl) (period : Z) (neighbor_only : bool) : ModeControl :=
  mkModeControl (mc_highest_mode m) (mc_allowed m) (mc_preferred m) (mc_unrestricted m) (mc_requested m) (mc_current m)
    (Z.min (Z.max period 1) 2) neighbor_only (mc_frame_count m).

Definition set_requested (m : ModeControl) (requested : option Z) : ModeControl :=
  mkModeControl (mc_highest_mode m) (mc_allowed m) (mc_preferred m) (mc_unrestricted m) requested (mc_current m)
    (mc_change_period m) (mc_neighbor_only m) (mc_frame_count m).

Definition request (m : ModeControl) (cmr : Z) : ModeControl :=
  if cmr =? NO_MODE_REQUEST then set_requested m None
  else if is_allowed m cmr then set_requested m (Some cmr)
  else m.

Definition target (m : ModeControl) : Z :=
  match mc_requested m with
  | Some requested => highest_allowed_up_to m (Z.min requested (mc_unrestricted m))
  | None => mc_unrestricted m
  end.

Definition neighbor_towards (m : ModeControl) (goal : Z) : Z :=
  let step :=
    if mc_current m <? goal then find_up (is_allowed m) (mc_current m + 1) (Z.to_nat (goal - mc_current m))
    else find_down (is_allowed m) goal (Z.to_nat (mc_current m - goal)) in
  default goal step.

Definition next_frame_mode (m : ModeControl) : Z * ModeControl :=
  let goal := target m in
  let may_change := mc_frame_count m mod mc_change_period m =? 0 in
  let current :=
    if may_change && negb (goal =? mc_current m) then
      if mc_neighbor_only m then neighbor_towards m goal else goal
    else mc_current m in
  (current, mkModeControl (mc_highest_mode m) (mc_allowed m) (mc_preferred m) (mc_unrestricted m) (mc_requested m) current
    (mc_change_period m) (mc_neighbor_only m) ((mc_frame_count m + 1) mod 2)).

(** ** amr/stream.rs *)

Definition MAX_FRAMES_SENT : Z := 4.

Record RtpConfig : Type := mkRtpConfig {
  rc_format : PayloadFormat; rc_mode_set : list Z; rc_preferred_mode : option Z; rc_mode_change_period : Z;
  rc_mode_change_neighbor : bool; rc_mode_request : option Z; rc_frames_per_packet : Z
}.

Definition RtpConfig_default : RtpConfig := mkRtpConfig BandwidthEfficient [] None 1 false None 1.

Definition frames_per_packet (ptime_ms : Z) : Z := Z.min (Z.max (ptime_ms / 20) 1) MAX_FRAMES_SENT.

Record RtpStream : Type := mkRtpStream {
  rs_variant : Variant; rs_format : PayloadFormat; rs_modes : ModeControl; rs_mode_request : Z; rs_frames_per_packet : Z;
  rs_last_request : option Z; rs_in_silence_period : bool; rs_frames_outside_mode_set : Z
}.

Definition RtpStream_bare (variant : Variant) (preferred : Z) : RtpStream :=
  mkRtpStream variant OctetAligned (ModeControl_unrestricted (highest_mode variant) preferred) NO_MODE_REQUEST 1 None false 0.

Definition RtpStream_new (variant : Variant) (config : RtpConfig) : res CodecError RtpStream :=
  modes ← ok_or (ModeControl_new (highest_mode variant) (rc_mode_set config) (rc_preferred_mode config))
    (Unsupported "the AMR mode-set or preferred mode names a mode the codec does not have");
  let modes := with_change_restrictions modes (rc_mode_change_period config) (rc_mode_change_neighbor config) in
  let mode_request :=
    match rc_mode_request config with
    | Some mode => if (mode <=? highest_mode variant) && is_allowed modes mode then mode else NO_MODE_REQUEST
    | None => NO_MODE_REQUEST
    end in
  mret (mkRtpStream variant (rc_format config) modes mode_request
    (Z.min (Z.max (rc_frames_per_packet config) 1) MAX_FRAMES_SENT) None false 0).

Definition set_last_request (s : RtpStream) (last : option Z) : RtpStream :=
  mkRtpStream (rs_variant s) (rs_format s) (rs_modes s) (rs_mode_request s) (rs_frames_per_packet s) last
    (rs_in_silence_period s) (rs_frames_outside_mode_set s).
Definition set_silence (s : RtpStream) (silent : bool) : RtpStream :=
  mkRtpStream (rs_variant s) (rs_format s) (rs_modes s) (rs_mode_request s) (rs_frames_per_packet s) (rs_last_request s)
    silent (rs_frames_outside_mode_set s).
Definition count_outside (s : RtpStream) : RtpStream :=
  mkRtpStream (rs_variant s) (rs_format s) (rs_modes s) (rs_mode_request s) (rs_frames_per_packet s) (rs_last_request s)
    (rs_in_silence_period s) (rs_frames_outside_mode_set s + 1).
Definition set_modes (s : RtpStream) (modes : ModeControl) : RtpStream :=
  mkRtpStream (rs_variant s) (rs_format s) modes (rs_mode_request s) (rs_frames_per_packet s) (rs_last_request s)
    (rs_in_silence_period s) (rs_frames_outside_mode_set s).

Definition note_request (s : RtpStream) (cmr : Z) : RtpStream :=
  if cmr <=? highest_mode (rs_variant s) then set_last_request s (Some cmr)
  else if cmr =? NO_MODE_REQUEST then set_last_request s None
  else s.

(** The trait: the new state with the PCM written, or the frame encoded. *)
Class FrameCodec (C : Type) : Type := {
  decode_speech : C -> Z -> bytes -> list Z -> C * res CodecError (list Z);
  conceal_frame : C -> list Z -> C * list Z;
  decode_damaged : C -> Z -> bytes -> list Z -> C * res CodecError (list Z);
  encode_speech : C -> Z -> list Z -> bytes -> C * res CodecError bytes
}.

(** The trait's default for [decode_damaged]. *)
Definition default_decode_damaged {C : Type} (conceal : C -> list Z -> C * list Z) (c : C) (mode : Z) (frame : bytes) (pcm : list Z) :
  C * res CodecError (list Z) :=
  let '(c, pcm) := conceal c pcm in (c, mret pcm).

Section streams.
Context {C : Type} `{!FrameCodec C}.

(** What one frame of a payload becomes: the codec, the stream, the frame buffer
    and the outcome. *)
Definition decode_slot (c : C) (s : RtpStream) (payload : bytes) (frame : bytes) (slot : FrameSlot) (pcm : list Z) :
  C * RtpStream * bytes * res CodecError (list Z) :=
  if sl_frame_type slot <=? highest_mode (rs_variant s) then
    let s := if is_allowed (rs_modes s) (sl_frame_type slot) then s else count_outside s in
    match copy_bits slot payload frame with
    | Ok (_, frame) =>
        if sl_quality_ok slot then
          let '(c, r) := decode_speech c (sl_frame_type slot) frame pcm in
          (c, (if is_ok r then set_silence s false else s), frame, r)
        else
          let '(c, r) := decode_damaged c (sl_frame_type slot) frame pcm in
          (c, s, frame, r)
    | Err e => (c, s, frame, Err e)
    | Panic => (c, s, frame, Panic)
    end
  else if (sl_frame_type slot =? NO_DATA) && rs_in_silence_period s then (c, s, frame, mret (replicate (length pcm) 0))
  else if negb (sl_bits slot =? 0) then (c, set_silence s true, frame, mret (replicate (length pcm) 0))
  else let '(c, pcm) := conceal_frame c pcm in (c, s, frame, mret pcm).

(** The loop over [layout.frames()] and [out.chunks_mut(frame_samples)]: the PCM
    written so far, the rest of the output still to come. *)
Fixpoint decode_slots (c : C) (s : RtpStream) (payload frame : bytes) (slots : list FrameSlot) (out : list Z) :
  C * RtpStream * res CodecError (list Z) :=
  match slots with
  | [] => (c, s, mret out)
  | slot :: slots =>
      let n := Z.to_nat (variant_samples (rs_variant s)) in
      match out with
      | [] => (c, s, mret [])
      | _ :: _ =>
          let '(c, s, frame, r) := decode_slot c s payload frame slot (take n out) in
          match r with
          | Ok pcm =>
              let '(c, s, r) := decode_slots c s payload frame slots (drop n out) in
              (c, s, rest ← r; mret (pcm ++ rest))
          | Err e => (c, s, Err e)
          | Panic => (c, s, Panic)
          end
      end
  end.

(** The samples written and the output buffer. *)
Definition decode_payload (c : C) (s : RtpStream) (payload : bytes) (out : list Z) : C * RtpStream * res CodecError (Z * list Z) :=
  match read_payload payload (rs_format s) (rs_variant s) with
  | Ok layout =>
      let needed := len (la_frames layout) * variant_samples (rs_variant s) in
      if len out <? needed then (c, s, Err (OutputTooSmall needed (len out))) else
      let s := note_request s (la_cmr layout) in
      let '(c, s, r) := decode_slots c s payload (replicate (Z.to_nat MAX_FRAME_OCTETS) 0) (la_frames layout) (take (Z.to_nat needed) out) in
      (c, s, pcm ← r; mret (needed, pcm ++ drop (Z.to_nat needed) out))
  | Err e => (c, s, Err e)
  | Panic => (c, s, Panic)
  end.

(** The loop over the frames to send: their modes and data, all with Q set.  There
    is room for [MAX_FRAMES_SENT] of them. *)
Fixpoint encode_frames (n : nat) (c : C) (s : RtpStream) (pcm : list Z) : C * RtpStream * res CodecError (list FrameSource) :=
  match n with
  | O => (c, s, mret [])
  | S n =>
      let samples := Z.to_nat (variant_samples (rs_variant s)) in
      let '(mode, modes) := next_frame_mode (rs_modes s) in
      let s := set_modes s modes in
      let '(c, r) := encode_speech c mode (take samples pcm) (replicate (Z.to_nat MAX_FRAME_OCTETS) 0) in
      match r with
      | Ok data =>
          let '(c, s, r) := encode_frames n c s (drop samples pcm) in
          (c, s, rest ← r; mret (mkAmrFrame mode true data :: rest))
      | Err e => (c, s, Err e)
      | Panic => (c, s, Panic)
      end
  end.

Definition encode_payload (c : C) (s : RtpStream) (pcm : list Z) (out : bytes) : C * RtpStream * res CodecError (Z * bytes) :=
  let frames := rs_frames_per_packet s in
  let wanted := frames * variant_samples (rs_variant s) in
  if len pcm <? wanted then (c, s, Err (BadFrameSize wanted (len pcm))) else
  let '(c, s, r) := encode_frames (Z.to_nat (Z.min frames MAX_FRAMES_SENT)) c s (take (Z.to_nat wanted) pcm) in
  (c, s, sources ← r;
         if MAX_FRAMES_SENT <? frames then Panic
         else write_payload (rs_format s) (rs_variant s) (rs_mode_request s) sources out).

End streams.

(** * Proofs *)

(** ** The mode decision *)

Lemma find_down_spec p lo n :
  match find_down p lo n with
  | Some x => lo <= x < lo + Z.of_nat n /\ p x = true /\ forall y, x < y < lo + Z.of_nat n -> p y = false
  | None => forall y, lo <= y < lo + Z.of_nat n -> p y = false
  end.
Proof.
  induction n as [|n IH]; cbn [find_down]; [intros y Hy; lia|]. destruct (p (lo + Z.of_nat n)) eqn:Hp.
  - split; [lia|]. split; [done|]. intros y Hy. lia.
  - destruct (find_down p lo n) as [x|].
    + destruct IH as (Hx & Hpx & Hab). split; [lia|]. split; [done|]. intros y Hy. destruct (Z.eq_dec y (lo + Z.of_nat n)) as [->|]; [done|]. apply Hab. lia.
    + intros y Hy. destruct (Z.eq_dec y (lo + Z.of_nat n)) as [->|]; [done|]. apply IH. lia.
Qed.

Lemma find_up_spec p n : forall lo,
  match find_up p lo n with
  | Some x => lo <= x < lo + Z.of_nat n /\ p x = true /\ forall y, lo <= y < x -> p y = false
  | None => forall y, lo <= y < lo + Z.of_nat n -> p y = false
  end.
Proof.
  induction n as [|n IH]; intros lo; cbn [find_up]; [intros y Hy; lia|]. destruct (p lo) eqn:Hp.
  - split; [lia|]. split; [done|]. intros y Hy. lia.
  - specialize (IH (lo + 1)). destruct (find_up p (lo + 1) n) as [x|].
    + destruct IH as (Hx & Hpx & Hab). split; [lia|]. split; [done|]. intros y Hy. destruct (Z.eq_dec y lo) as [->|]; [done|]. apply Hab. lia.
    + intros y Hy. destruct (Z.eq_dec y lo) as [->|]; [done|]. apply IH. lia.
Qed.

(** The mode a cap allows of a set: the highest at or below it, or the lowest of all
    when the whole set is above. *)
Definition chosen (A : Z -> Prop) (cap x : Z) : Prop :=
  A x /\ (x <= cap /\ (forall y, A y -> y <= cap -> y <= x) \/ forall y, A y -> cap < y /\ x <= y).

Lemma chosen_unique A cap x y : chosen A cap x -> chosen A cap y -> x = y.
Proof.
  intros (Hx & Hcx) (Hy & Hcy). destruct Hcx as [(Hx1 & Hx2)|Hx2], Hcy as [(Hy1 & Hy2)|Hy2].
  - specialize (Hx2 y Hy Hy1). specialize (Hy2 x Hx Hx1). lia.
  - specialize (Hy2 x Hx). lia.
  - specialize (Hx2 y Hy). lia.
  - specialize (Hx2 y Hy). specialize (Hy2 x Hx). lia.
Qed.

Record modes_ok (m : ModeControl) (A : Z -> Prop) : Prop := {
  mo_set : forall x, 0 <= x -> is_allowed m x = true <-> A x;
  mo_range : forall x, A x -> 0 <= x <= 8;
  mo_current : A (mc_current m);
  mo_unrestricted : A (mc_unrestricted m);
  mo_requested : forall r, mc_requested m = Some r -> A r;
  mo_period : mc_change_period m = 1 \/ mc_change_period m = 2;
  mo_count : mc_frame_count m = 0 \/ mc_frame_count m = 1
}.

Lemma highest_allowed_chosen m A cap : (forall x, 0 <= x -> is_allowed m x = true <-> A x) -> (forall x, A x -> 0 <= x <= 8) -> (exists x, A x) -> 0 <= cap ->
  chosen A cap (highest_allowed_up_to m cap).
Proof.
  intros HA Hr (a & Ha) Hc. unfold highest_allowed_up_to. pose proof (find_down_spec (is_allowed m) 0 (S (Z.to_nat (Z.min cap 15)))) as Hd.
  replace (0 + Z.of_nat (S (Z.to_nat (Z.min cap 15)))) with (Z.min cap 15 + 1) in Hd by lia.
  assert (forall y, A y -> is_allowed m y = true) as Hal by (intros y Hy; apply HA; [apply Hr in Hy; lia|done]).
  destruct (find_down (is_allowed m) 0 _) as [x|].
  - destruct Hd as (Hx & Hp & Hab). apply HA in Hp; [|lia]. split; [done|]. left. split; [lia|]. intros y Hy Hyc.
    destruct (Z.lt_ge_cases x y); [|lia]. pose proof (Hr y Hy). specialize (Hab y ltac:(lia)). rewrite (Hal y Hy) in Hab. done.
  - assert (forall y, A y -> cap < y) as Hall.
    { intros y Hy. destruct (Z.lt_ge_cases cap y); [done|]. pose proof (Hr y Hy). specialize (Hd y ltac:(lia)). rewrite (Hal y Hy) in Hd. done. }
    unfold trailing_zeros16. pose proof (find_up_spec (Z.testbit (mc_allowed m)) 16 0) as Hu.
    assert (forall y, 0 <= y < 16 -> Z.testbit (mc_allowed m) y = is_allowed m y) as Hbit.
    { intros y Hy. unfold is_allowed. rewrite shift_bit by lia. by rewrite (proj2 (Z.ltb_lt y 16)) by lia. }
    destruct (find_up (Z.testbit (mc_allowed m)) 0 16) as [x|]; cbn [default from_option]; unfold id.
    + destruct Hu as (Hx & Hp & Hbel). rewrite Hbit in Hp by lia. apply HA in Hp; [|lia]. split; [done|]. right. intros y Hy. split; [auto|].
      destruct (Z.lt_ge_cases y x) as [Hlt|Hge]; [|exact Hge]. pose proof (Hr y Hy). specialize (Hbel y ltac:(lia)). rewrite Hbit, (Hal y Hy) in Hbel by lia. done.
    + pose proof (Hr a Ha). specialize (Hu a ltac:(lia)). rewrite Hbit, (Hal a Ha) in Hu by lia. done.
Qed.

(** The cap in force: the preference, or a request below it. *)
Definition cap_of (m : ModeControl) : Z :=
  match mc_requested m with Some r => Z.min r (mc_unrestricted m) | None => mc_unrestricted m end.

Lemma target_chosen m A : modes_ok m A -> chosen A (cap_of m) (target m).
Proof.
  intros [HA Hr Hc Hu Hq _ _]. unfold target, cap_of. destruct (mc_requested m) as [r|].
  - apply highest_allowed_chosen; [done|done|eauto|]. pose proof (Hr _ Hu). pose proof (Hr _ (Hq r eq_refl)). lia.
  - split; [done|]. left. split; [lia|auto].
Qed.

(** Between two modes, both included. *)
Definition towards (a b x : Z) : Prop := a <= x <= b \/ b <= x <= a.

Lemma neighbor_towards_spec m A goal : modes_ok m A -> A goal -> goal <> mc_current m ->
  let x := neighbor_towards m goal in
  A x /\ x <> mc_current m /\ towards (mc_current m) goal x /\ forall y, A y -> ~ (mc_current m < y < x \/ x < y < mc_current m).
Proof.
  intros [HA Hr Hc Hu Hq _ _] Hg Hne x. assert (forall y, A y -> is_allowed m y = true) as Hal by (intros y Hy; apply HA; [apply Hr in Hy; lia|done]).
  pose proof (Hr _ Hc) as Hc8. pose proof (Hr _ Hg) as Hg8. unfold x, neighbor_towards. destruct (Z.ltb_spec (mc_current m) goal).
  - pose proof (find_up_spec (is_allowed m) (Z.to_nat (goal - mc_current m)) (mc_current m + 1)) as H'. destruct (find_up _ _ _) as [z|]; cbn [default from_option]; unfold id.
    + destruct H' as (Hz & Hp & Hbel). apply HA in Hp; [|lia]. split; [done|]. split; [lia|]. split; [left; lia|]. intros y Hy [Hyz|Hyz]; [|lia].
      specialize (Hbel y ltac:(lia)). rewrite (Hal y Hy) in Hbel. done.
    + specialize (H' goal ltac:(lia)). rewrite (Hal goal Hg) in H'. done.
  - pose proof (find_down_spec (is_allowed m) goal (Z.to_nat (mc_current m - goal))) as H'. destruct (find_down _ _ _) as [z|]; cbn [default from_option]; unfold id.
    + destruct H' as (Hz & Hp & Hab). apply HA in Hp; [|lia]. split; [done|]. split; [lia|]. split; [right; lia|]. intros y Hy [Hyz|Hyz]; [lia|].
      specialize (Hab y ltac:(lia)). rewrite (Hal y Hy) in Hab. done.
    + specialize (H' goal ltac:(lia)). rewrite (Hal goal Hg) in H'. done.
Qed.

Definition may_change (m : ModeControl) : bool := mc_frame_count m mod mc_change_period m =? 0.

(** One frame: the mode is of the set, lies towards the target, and with the two
    restrictions moves only in phase and only to a neighbour. *)
Record stepped (m : ModeControl) (A : Z -> Prop) (x : Z) (m' : ModeControl) : Prop := {
  st_ok : modes_ok m' A;
  st_current : mc_current m' = x;
  st_same : mc_unrestricted m' = mc_unrestricted m /\ mc_requested m' = mc_requested m /\ mc_change_period m' = mc_change_period m /\
    mc_neighbor_only m' = mc_neighbor_only m /\ mc_allowed m' = mc_allowed m;
  st_count : mc_frame_count m' = (mc_frame_count m + 1) mod 2;
  st_towards : towards (mc_current m) (target m) x;
  st_hold : may_change m = false -> x = mc_current m;
  st_move : may_change m = true -> mc_current m <> target m -> x <> mc_current m;
  st_direct : may_change m = true -> mc_neighbor_only m = false -> x = target m;
  st_neighbor : mc_neighbor_only m = true -> forall y, A y -> ~ (mc_current m < y < x \/ x < y < mc_current m)
}.

Lemma next_frame_stepped m A : modes_ok m A -> exists x m', next_frame_mode m = (x, m') /\ stepped m A x m'.
Proof.
  intros Hm. pose proof (target_chosen m A Hm) as (Ht & _). pose proof Hm as [HA Hr Hc Hu Hq Hp Hn]. unfold next_frame_mode. fold (may_change m).
  set (x := if may_change m && negb (target m =? mc_current m) then if mc_neighbor_only m then neighbor_towards m (target m) else target m else mc_current m).
  assert (A x /\ towards (mc_current m) (target m) x /\ (may_change m = false -> x = mc_current m) /\ (may_change m = true -> mc_current m <> target m -> x <> mc_current m) /\
    (may_change m = true -> mc_neighbor_only m = false -> x = target m) /\
    (mc_neighbor_only m = true -> forall y, A y -> ~ (mc_current m < y < x \/ x < y < mc_current m))) as (H1 & H2 & H3 & H4 & H5 & H6).
  { unfold x. destruct (may_change m); cbn [andb].
    - destruct (Z.eqb_spec (target m) (mc_current m)) as [He|He]; cbn [negb].
      + split; [done|]. split; [unfold towards; lia|]. split; [done|]. split; [congruence|]. split; [done|]. intros _ y _. lia.
      + destruct (mc_neighbor_only m).
        * destruct (neighbor_towards_spec m A (target m) Hm Ht He) as (Ha & Hb & Hd & Hf). split; [done|]. split; [done|]. split; [done|]. split; [done|]. done.
        * split; [done|]. split; [unfold towards; lia|]. split; [done|]. split; [congruence|]. done.
    - split; [done|]. split; [unfold towards; lia|]. split; [done|]. split; [done|]. split; [done|]. intros _ y _. lia. }
  eexists x, _. split; [done|]. split; cbn [mc_current mc_unrestricted mc_requested mc_change_period mc_neighbor_only mc_allowed mc_frame_count]; try done.
  split; cbn [mc_current mc_unrestricted mc_requested mc_change_period mc_neighbor_only mc_allowed mc_frame_count]; try done.
  pose proof (Z.mod_pos_bound (mc_frame_count m + 1) 2). lia.
Qed.

Lemma request_ok m A cmr : modes_ok m A -> 0 <= cmr -> modes_ok (request m cmr) A /\ mc_current (request m cmr) = mc_current m /\
  mc_unrestricted (request m cmr) = mc_unrestricted m /\ mc_change_period (request m cmr) = mc_change_period m /\
  mc_neighbor_only (request m cmr) = mc_neighbor_only m /\ mc_frame_count (request m cmr) = mc_frame_count m /\
  (cmr = NO_MODE_REQUEST -> mc_requested (request m cmr) = None) /\
  (cmr <> NO_MODE_REQUEST -> A cmr -> mc_requested (request m cmr) = Some cmr) /\
  (cmr <> NO_MODE_REQUEST -> ~ A cmr -> request m cmr = m).
Proof.
  intros Hm Hc0. pose proof Hm as [HA Hr Hc Hu Hq Hp Hn]. unfold request. destruct (Z.eqb_spec cmr NO_MODE_REQUEST) as [He|He].
  - split; [split; try assumption; done|]. by repeat split.
  - destruct (is_allowed m cmr) eqn:Hal.
    + pose proof (proj1 (HA cmr Hc0) Hal) as Ha. split; [split; try assumption; intros r Hrq; injection Hrq as <-; exact Ha|]. repeat split; done.
    + assert (~ A cmr) as Hna by (intros Ha; apply HA in Ha; [congruence|done]). split; [exact Hm|]. do 5 (split; [reflexivity|]). split; [congruence|]. split; [intros _ Ha; contradiction|done].
Qed.

(** The negotiated set: every mode of the codec when the list is empty. *)
Definition in_mode_set (highest_mode : Z) (mode_set : list Z) (mode : Z) : bool :=
  match mode_set with
  | [] => (0 <=? mode) && (mode <=? highest_mode)
  | _ :: _ => existsb (Z.eqb mode) mode_set
  end.

Lemma testbit_mode_mask h set x : 0 <= x -> Forall (fun mode => 0 <= mode <= h) set -> forall mask,
  Z.testbit (mode_mask h set mask) x = Z.testbit mask x || existsb (Z.eqb x) set.
Proof.
  intros Hx. induction set as [|mode set IH]; intros Hs mask; cbn [mode_mask existsb]; [by rewrite orb_false_r|].
  apply Forall_cons in Hs as (Hm & Hs). rewrite (proj2 (Z.leb_le mode h)), IH by (done || lia). rewrite Z.lor_spec, Z.shiftl_1_l, Z.pow2_bits_eqb by lia.
  rewrite (Z.eqb_sym mode x). by rewrite orb_assoc.
Qed.

Lemma testbit_every h x : 0 <= h -> 0 <= x -> Z.testbit (every_mode h) x = (x <=? h).
Proof.
  intros Hh Hx. unfold every_mode. rewrite Z.shiftl_1_l, Z.sub_1_r, <- Z.ones_equiv, Z.testbit_ones by lia.
  rewrite (proj2 (Z.leb_le 0 x) Hx). cbn [andb]. destruct (Z.ltb_spec x (h + 1)), (Z.leb_spec x h); lia || done.
Qed.

Lemma allowed_testbit m x : 0 <= x -> is_allowed m x = (x <? 16) && Z.testbit (mc_allowed m) x.
Proof. intros Hx. unfold is_allowed. by rewrite shift_bit. Qed.

Lemma new_allowed h set preferred m : 0 <= h <= 8 -> Forall (fun mode => 0 <= mode <= h) set ->
  m = restricted_to (ModeControl_unrestricted h preferred) set -> forall x, 0 <= x -> is_allowed m x = in_mode_set h set x.
Proof.
  intros Hh Hs -> x Hx. rewrite allowed_testbit by done. unfold restricted_to, settle, ModeControl_unrestricted. rewrite (Z.min_l h 8) by lia.
  cbn [mc_allowed mc_highest_mode settle]. unfold in_mode_set. destruct set as [|mode set].
  - cbn [mode_mask]. rewrite Z.eqb_refl, testbit_every, (proj2 (Z.leb_le 0 x) Hx) by lia. cbn [andb].
    destruct (Z.ltb_spec x 16), (Z.leb_spec x h); lia || done.
  - pose proof (testbit_mode_mask h (mode :: set)) as Hb. destruct (Z.eqb_spec (mode_mask h (mode :: set) 0) 0) as [He|_].
    { apply Forall_cons in Hs as Hs'. destruct Hs' as (Hm & _). specialize (Hb mode ltac:(lia) Hs 0). rewrite He, Z.bits_0 in Hb. cbn [existsb] in Hb. by rewrite Z.eqb_refl in Hb. }
    rewrite Hb by done. rewrite Z.bits_0. cbn [orb]. destruct (Z.ltb_spec x 16); [done|]. cbn [andb]. symmetry.
    apply not_true_is_false. rewrite existsb_exists. intros (y & Hy & He). apply Z.eqb_eq in He as <-. rewrite Forall_forall in Hs. apply list_elem_of_In, Hs in Hy. lia.
Qed.

(** What a decision is built from: the codec's modes, a set of them, a preference. *)
Record config_ok (h : Z) (set : list Z) (preferred : option Z) : Prop := {
  co_highest : 0 <= h <= 8;
  co_set : Forall (fun mode => 0 <= mode <= h) set;
  co_preferred : forall p, preferred = Some p -> 0 <= p <= h
}.

Lemma in_set_range h set preferred x : config_ok h set preferred -> in_mode_set h set x = true -> 0 <= x <= h.
Proof.
  intros [Hh Hs _]. unfold in_mode_set. destruct set as [|mode set]; [rewrite andb_true_iff, !Z.leb_le; lia|].
  rewrite existsb_exists. intros (y & Hy & He). apply Z.eqb_eq in He as <-. rewrite Forall_forall in Hs. by apply list_elem_of_In, Hs in Hy.
Qed.

Lemma set_inhabited h set preferred : config_ok h set preferred -> exists x, in_mode_set h set x = true.
Proof.
  intros [Hh Hs _]. destruct set as [|mode set]; cbn [in_mode_set existsb]; [exists 0; rewrite (proj2 (Z.leb_le 0 h)) by lia; done|].
  exists mode. by rewrite Z.eqb_refl.
Qed.

Lemma new_modes_ok h set preferred period nb : config_ok h set preferred ->
  exists m, ModeControl_new h set preferred = Some m /\ let m' := with_change_restrictions m period nb in
    modes_ok m' (fun x => in_mode_set h set x = true) /\ chosen (fun x => in_mode_set h set x = true) (default h preferred) (mc_unrestricted m') /\
    mc_current m' = mc_unrestricted m' /\ mc_requested m' = None /\ mc_frame_count m' = 0 /\ mc_neighbor_only m' = nb /\ mc_change_period m' = Z.min (Z.max period 1) 2.
Proof.
  intros Hco. pose proof Hco as [Hh Hs Hp]. unfold ModeControl_new. assert (0 <= default h preferred <= h) as Hd by (destruct preferred as [p|]; [by apply Hp|cbn; unfold id; lia]).
  rewrite (proj2 (Z.ltb_ge h _)) by lia. cbn [orb]. destruct (existsb _ set) eqn:Hex.
  { apply existsb_exists in Hex as (y & Hy & Hlt). rewrite Forall_forall in Hs. apply list_elem_of_In, Hs in Hy. lia. }
  set (m0 := restricted_to _ _). exists m0. split; [done|]. pose proof (new_allowed h set (default h preferred) m0 Hh Hs eq_refl) as Hal.
  assert (chosen (fun x => in_mode_set h set x = true) (default h preferred) (mc_unrestricted m0)) as Hch.
  { unfold m0, restricted_to, settle. cbn [mc_unrestricted]. set (m1 := mkModeControl _ _ _ _ _ _ _ _ _).
    assert (mc_preferred m1 = default h preferred) as -> by (unfold m1, ModeControl_unrestricted, settle; cbn [mc_preferred mc_highest_mode]; lia).
    apply highest_allowed_chosen; [|intros x Hx; apply (in_set_range h set preferred) in Hx; [lia|done]|by eapply set_inhabited|lia].
    intros x Hx. rewrite <- Hal by done. done. }
  split; [|split; [exact Hch|by repeat split]]. destruct Hch as (Hu & _).
  split; try done.
  - intros x Hx. rewrite <- Hal by done. done.
  - intros x Hx. apply (in_set_range h set preferred) in Hx; [lia|done].
  - cbn [with_change_restrictions mc_change_period]. lia.
  - by left.
Qed.

(** ** Runs: requests taken from the peer, frames sent *)

Inductive mode_op : Type := Request (cmr : Z) | Frame.

Fixpoint mode_run (m : ModeControl) (ops : list mode_op) : list Z * ModeControl :=
  match ops with
  | [] => ([], m)
  | Request cmr :: ops => mode_run (request m cmr) ops
  | Frame :: ops =>
      let '(mode, m) := next_frame_mode m in
      let '(modes, m) := mode_run m ops in (mode :: modes, m)
  end.

(** The request in force after a run: the last that was 15 or of the set. *)
Fixpoint in_force (allowed : Z -> bool) (ops : list mode_op) (requested : option Z) : option Z :=
  match ops with
  | [] => requested
  | Request cmr :: ops =>
      in_force allowed ops (if cmr =? NO_MODE_REQUEST then None else if allowed cmr then Some cmr else requested)
  | Frame :: ops => in_force allowed ops requested
  end.

Definition ops_ok (ops : list mode_op) : Prop := Forall (fun op => match op with Request cmr => 0 <= cmr | Frame => True end) ops.

(** Successive modes, the one before the run first. *)
Definition paced (A : Z -> Prop) (m : ModeControl) (modes : list Z) : Prop :=
  forall i x y, (mc_current m :: modes) !! i = Some x -> (mc_current m :: modes) !! S i = Some y ->
    (mc_neighbor_only m = true -> forall z, A z -> ~ (x < z < y \/ y < z < x)) /\
    (mc_change_period m = 2 -> (Z.of_nat i + mc_frame_count m) mod 2 = 1 -> y = x).

Definition same_limits (m m' : ModeControl) : Prop :=
  mc_unrestricted m' = mc_unrestricted m /\ mc_change_period m' = mc_change_period m /\ mc_neighbor_only m' = mc_neighbor_only m.

Lemma paced_cons A m x m' modes : stepped m A x m' -> modes_ok m A -> paced A m' modes -> paced A m (x :: modes).
Proof.
  intros [_ Hc (_ & _ & Hp & Hn & _) Hcount _ Hhold _ _ Hnb] Hm Hrest i a b Ha Hb. destruct i as [|i].
  - injection Ha as <-. injection Hb as <-. split; [exact Hnb|]. intros Hp2 Hodd. apply Hhold. unfold may_change. rewrite Hp2. change (Z.of_nat 0) with 0 in Hodd. rewrite Z.add_0_l in Hodd. by rewrite Hodd.
  - rewrite <- Hc in Ha, Hb. destruct (Hrest i a b Ha Hb) as (H1 & H2). split; [by rewrite <- Hn|]. intros Hp2 Hodd. apply H2; [congruence|].
    rewrite Hcount. rewrite Zplus_mod_idemp_r. rewrite <- Hodd. f_equal. lia.
Qed.

Lemma paced_request A m cmr modes : modes_ok m A -> 0 <= cmr -> paced A (request m cmr) modes -> paced A m modes.
Proof.
  intros Hm Hc Hp. destruct (request_ok m A cmr Hm Hc) as (_ & Hcur & _ & Hper & Hn & Hf & _). unfold paced in *. by rewrite Hcur, Hper, Hn, Hf in Hp.
Qed.

Lemma run_ok allowed ops : forall m modes m', let A := fun x => allowed x = true in
  modes_ok m A -> ops_ok ops -> mode_run m ops = (modes, m') ->
  modes_ok m' A /\ Forall A modes /\ mc_requested m' = in_force allowed ops (mc_requested m) /\ same_limits m m' /\ paced A m modes.
Proof.
  induction ops as [|[cmr|] ops IH]; intros m modes m' A Hm Ho Hr; cbn [mode_run in_force] in *.
  - injection Hr as <- <-. split; [done|]. split; [constructor|]. split; [done|]. split; [done|]. intros i x y _ Hy. done.
  - apply Forall_cons in Ho as (Hc & Ho). destruct (request_ok m A cmr Hm Hc) as (Hok & _ & Hu & Hper & Hn & _ & H15 & Hyes & Hno).
    destruct (IH _ _ _ Hok Ho Hr) as (Hm' & Hall & Hreq & (Hs1 & Hs2 & Hs3) & Hp). split; [done|]. split; [done|]. split; [|split; [|by eapply paced_request]].
    + rewrite Hreq. f_equal. destruct (Z.eqb_spec cmr NO_MODE_REQUEST) as [He|He]; [by apply H15|]. destruct (allowed cmr) eqn:Hal; [by apply Hyes|]. rewrite Hno; [done|done|]. unfold A. congruence.
    + repeat split; congruence.
  - apply Forall_cons in Ho as (_ & Ho). destruct (next_frame_stepped m A Hm) as (x & m1 & Hx & Hst). rewrite Hx in Hr. pose proof Hst as [Hok Hcur (Hu & Hq & Hper & Hn & _) _ _ _ _ _ _].
    destruct (mode_run m1 ops) as [rest m2] eqn:Hrun. injection Hr as <- <-. destruct (IH _ _ _ Hok Ho Hrun) as (Hm' & Hall & Hreq & (Hs1 & Hs2 & Hs3) & Hp).
    split; [done|]. split; [apply Forall_cons; split; [rewrite <- Hcur; by apply (mo_current _ _ Hok)|done]|]. split; [by rewrite Hreq, Hq|]. split; [repeat split; congruence|by eapply paced_cons].
Qed.

Lemma mode_run_app m a b : mode_run m (a ++ b) =
  let '(xs, m1) := mode_run m a in let '(ys, m2) := mode_run m1 b in (xs ++ ys, m2).
Proof.
  revert m. induction a as [|[cmr|] a IH]; intros m; cbn [app mode_run]; [by destruct (mode_run m b)|apply IH|].
  destruct (next_frame_mode m) as [x m1]. rewrite IH. destruct (mode_run m1 a) as [xs m2]. by destruct (mode_run m2 b).
Qed.

(** ** Reaching the target *)

Definition behind (m : ModeControl) : Z := 2 * Z.abs (mc_current m - target m) + (if may_change m then 0 else 1).

Lemma target_same m A x m' : modes_ok m A -> stepped m A x m' -> target m' = target m.
Proof.
  intros Hm [Hok _ (Hu & Hq & _) _ _ _ _ _ _]. apply (chosen_unique A (cap_of m)); [|by apply target_chosen].
  replace (cap_of m) with (cap_of m') by (unfold cap_of; by rewrite Hu, Hq). by apply target_chosen.
Qed.

Lemma step_closer m A x m' : modes_ok m A -> stepped m A x m' ->
  (mc_current m = target m -> mc_current m' = target m') /\ (mc_current m' = target m' \/ behind m' <= behind m - 1).
Proof.
  intros Hm Hst. pose proof (target_same m A x m' Hm Hst) as Ht. pose proof Hst as [Hok Hc (_ & _ & Hp & _) Hcount Htw Hhold Hmove _ _].
  rewrite Ht, Hc. unfold behind. rewrite Ht, Hc. split; [intros He; unfold towards in Htw; lia|].
  destruct (Z.eq_dec x (target m)) as [|Hne]; [by left|]. right. unfold may_change in *. rewrite Hp, Hcount. unfold towards in Htw.
  pose proof (mo_count _ _ Hm) as H01. pose proof (mo_period _ _ Hm) as H12.
  destruct (Z.eqb_spec (mc_frame_count m mod mc_change_period m) 0) as [He|He].
  - assert (x <> mc_current m) as Hmv by (apply Hmove; [done|]; intros Heq; lia). destruct (_ =? 0); lia.
  - specialize (Hhold eq_refl). destruct H12 as [H1|H1]; rewrite H1 in *; [rewrite Z.mod_1_r in He; lia|].
    destruct H01 as [H0|H0]; rewrite H0 in *; [done|]. change ((1 + 1) mod 2 mod 2 =? 0) with true. cbn [andb]. lia.
Qed.

Lemma frames_stay n : forall m A modes m', modes_ok m A -> mc_current m = target m -> mode_run m (replicate n Frame) = (modes, m') ->
  mc_current m' = target m'.
Proof.
  induction n as [|n IH]; intros m A modes m' Hm He Hr; cbn [replicate mode_run] in Hr; [by injection Hr as <- <-|].
  destruct (next_frame_stepped m A Hm) as (x & m1 & Hx & Hst). rewrite Hx in Hr. destruct (mode_run m1 _) as [rest m2] eqn:Hrun. injection Hr as <- <-.
  eapply (IH m1); [apply Hst|by apply (step_closer _ _ _ _ Hm Hst)|done].
Qed.

Lemma frames_reach n : forall m A modes m', modes_ok m A -> mode_run m (replicate n Frame) = (modes, m') ->
  modes_ok m' A /\ target m' = target m /\ (mc_current m' = target m' \/ behind m' <= behind m - Z.of_nat n) /\
  last (mc_current m :: modes) = Some (mc_current m') /\ length modes = n.
Proof.
  induction n as [|n IH]; intros m A modes m' Hm Hr; cbn [replicate mode_run] in Hr.
  - injection Hr as <- <-. split; [done|]. split; [done|]. split; [right; lia|]. done.
  - destruct (next_frame_stepped m A Hm) as (x & m1 & Hx & Hst). rewrite Hx in Hr. pose proof Hst as [Hok Hcur _ _ _ _ _ _ _].
    pose proof (target_same _ _ _ _ Hm Hst) as Ht. destruct (step_closer _ _ _ _ Hm Hst) as (_ & Hcl).
    destruct (mode_run m1 (replicate n Frame)) as [rest m2] eqn:Hrun. injection Hr as <- <-. destruct (IH m1 A rest m2 Hok Hrun) as (Hm' & Ht' & Hb & Hl & Hlen).
    split; [done|]. split; [congruence|]. split; [|split; [by rewrite <- Hcur|cbn; congruence]].
    destruct Hb as [Hb|Hb]; [by left|]. destruct Hcl as [Hcl|Hcl]; [|right; lia]. left. exact (frames_stay n m1 A rest m2 Hok Hcl Hrun).
Qed.

(** The cap of the peer's request and the local preference. *)
Definition wanted_cap (h : Z) (preferred requested : option Z) : Z :=
  match requested with Some r => Z.min r (default h preferred) | None => default h preferred end.

Lemma chosen_cap A r p u x : chosen A p u -> A r -> chosen A (Z.min r u) x -> chosen A (Z.min r p) x.
Proof.
  intros (Hu & Hcu) Hr (Hx & Hcx). split; [done|]. destruct Hcu as [(Hup & Hmax)|Hlow].
  - destruct (Z.le_gt_cases r p) as [Hrp|Hrp].
    + specialize (Hmax r Hr Hrp). rewrite (Z.min_l r u) in Hcx by done. by rewrite Z.min_l.
    + rewrite (Z.min_r r u) in Hcx by lia. rewrite Z.min_r by lia. destruct Hcx as [(Hxu & Hm)|Hl]; [|specialize (Hl u Hu); lia].
      left. split; [lia|]. intros y Hy Hyp. apply Hm; [done|]. by apply Hmax.
  - pose proof (Hlow r Hr) as Hlr. rewrite (Z.min_r r u) in Hcx by lia. rewrite (Z.min_r r p) by lia. right. intros y Hy. pose proof (Hlow y Hy). split; [lia|].
    destruct Hcx as [(Hxu & Hm)|Hl]; [|specialize (Hl u Hu); lia]. lia.
Qed.

Lemma target_wanted h set preferred m : let A := fun x => in_mode_set h set x = true in
  modes_ok m A -> chosen A (default h preferred) (mc_unrestricted m) -> chosen A (wanted_cap h preferred (mc_requested m)) (target m).
Proof.
  intros A Hm Hu. pose proof (target_chosen m A Hm) as Ht. unfold wanted_cap, cap_of in *. destruct (mc_requested m) as [r|] eqn:Hr.
  - by eapply chosen_cap; [exact Hu|apply (mo_requested _ _ Hm)|].
  - unfold target in Ht |- *. by rewrite Hr in Ht |- *.
Qed.

(** Frames after which the target is sent, whatever the run before. *)
Definition settling (period : Z) (nb : bool) : Z := if (period <=? 1) && negb nb then 1 else 16.

Lemma reach_target m A n modes m' : modes_ok m A -> settling (mc_change_period m) (mc_neighbor_only m) <= Z.of_nat n ->
  mode_run m (replicate n Frame) = (modes, m') -> mc_current m' = target m.
Proof.
  intros Hm Hn Hr. destruct (frames_reach n m A modes m' Hm Hr) as (Hm' & Ht & Hb & _). unfold settling in Hn. rewrite <- Ht.
  destruct (Z.leb_spec (mc_change_period m) 1) as [Hp|Hp]; [destruct (mc_neighbor_only m) eqn:Hnb|]; cbn [andb negb] in Hn.
  2:{ destruct n as [|n]; [lia|]. cbn [replicate mode_run] in Hr. destruct (next_frame_stepped m A Hm) as (x & m1 & Hx & Hst). rewrite Hx in Hr.
      destruct (mode_run m1 _) as [rest m2] eqn:Hrun. injection Hr as <- <-. eapply frames_stay; [apply Hst| |exact Hrun].
      rewrite (st_current _ _ _ _ Hst), (target_same _ _ _ _ Hm Hst). apply (st_direct _ _ _ _ Hst); [|done]. unfold may_change.
      pose proof (mo_period _ _ Hm). replace (mc_change_period m) with 1 by lia. by rewrite Z.mod_1_r. }
  all: destruct Hb as [Hb|Hb]; [done|]; pose proof (mo_range _ _ Hm _ (mo_current _ _ Hm)); pose proof (target_chosen m A Hm) as (Hta & _);
    pose proof (mo_range _ _ Hm _ Hta); unfold behind in Hb; destruct (may_change m), (may_change m'); lia.
Qed.

Lemma last_cons_some {X} (x : X) l : l <> [] -> last (x :: l) = last l.
Proof. by destruct l. Qed.

(** C28. The mode decision of an AMR encoder.  For every negotiated set of the codec's
    modes, every preference and both change restrictions, and every run of codec mode
    requests from the peer and frames sent: every frame is of the negotiated set; with
    mode-change-neighbor a frame's mode is the previous one or next to it in the set;
    with mode-change-period 2 the frames of odd number keep the previous mode.  After
    any run, one further frame without a restriction, and 16 with one, are enough for
    the mode to be the one asked for: the highest of the set at or below both the
    preference and the last valid request (15 withdraws a request, one outside the set
    is ignored), or the lowest of the set when all of it is above. *)
Theorem amr_mode_control h set preferred period nb ops modes m' :
  config_ok h set preferred -> ops_ok ops ->
  exists m, ModeControl_new h set preferred = Some m /\ let m := with_change_restrictions m period nb in
    (mode_run m ops = (modes, m') ->
       Forall (fun x => in_mode_set h set x = true) modes /\
       forall i x y, (mc_current m :: modes) !! i = Some x -> modes !! i = Some y ->
         (nb = true -> forall z, in_mode_set h set z = true -> ~ (x < z < y \/ y < z < x)) /\
         (2 <= period -> Z.of_nat i mod 2 = 1 -> y = x)) /\
    forall n, settling period nb <= Z.of_nat n -> exists mode,
      last (mode_run m (ops ++ replicate n Frame)).1 = Some mode /\
      chosen (fun x => in_mode_set h set x = true) (wanted_cap h preferred (in_force (in_mode_set h set) ops None)) mode.
Proof.
  intros Hco Ho. destruct (new_modes_ok h set preferred period nb Hco) as (m & Hnew & Hm & Hu & Hcur & Hq & Hf & Hn & Hp). exists m. split; [done|].
  set (m1 := with_change_restrictions m period nb) in *. split.
  - intros Hr. destruct (run_ok _ _ _ _ _ Hm Ho Hr) as (_ & Hall & _ & _ & Hpaced). split; [done|]. intros i x y Hx Hy. destruct (Hpaced i x y Hx Hy) as (H1 & H2).
    split; [by rewrite Hn in H1|]. intros Hp2 Hodd. apply H2; [lia|]. by rewrite Hf, Z.add_0_r.
  - intros n Hs. rewrite mode_run_app. destruct (mode_run m1 ops) as [xs m2] eqn:Hr. destruct (run_ok _ _ _ _ _ Hm Ho Hr) as (Hm2 & _ & Hreq & (Hs1 & Hs2 & Hs3) & _).
    destruct (mode_run m2 (replicate n Frame)) as [ys m3] eqn:Hr2. destruct (frames_reach n m2 _ ys m3 Hm2 Hr2) as (_ & _ & _ & Hl & Hlen). cbn [fst].
    assert (ys <> []) as Hys by (intros ->; unfold settling in Hs; cbn in Hlen; subst n; destruct (_ && _); lia).
    exists (mc_current m3). split; [by rewrite last_app, <- (last_cons_some (mc_current m2) ys Hys), Hl|].
    rewrite (reach_target m2 _ n ys m3 Hm2) by (done || (rewrite Hs2, Hs3, Hn, Hp; unfold settling in *; destruct (Z.leb_spec period 1), (Z.leb_spec (Z.min (Z.max period 1) 2) 1), nb; cbn [andb negb] in *; lia)).
    rewrite <- Hq, <- Hreq. apply target_wanted; [done|]. by rewrite Hs1.
Qed.

(** Modes 0, 2, 5 and 7 with both restrictions: a request for mode 0 walks down the
    set on every second frame, one for 3 is ignored, 15 lets the mode climb back. *)
Definition example_ops : list mode_op := Frame :: Request 0 :: replicate 7 Frame ++ [Request 3; Frame; Request 15] ++ replicate 7 Frame.

Lemma amr_mode_control_witness :
  (exists m, ModeControl_new 7 [0; 2; 5; 7] None = Some m /\
     (mode_run (with_change_restrictions m 2 true) example_ops).1 = [7; 7; 5; 5; 2; 2; 0; 0; 0; 0; 2; 2; 5; 5; 7; 7]) /\
  exists mode, chosen (fun x => in_mode_set 7 [0; 2; 5; 7] x = true) 7 mode /\ mode = 7.
Proof.
  assert (config_ok 7 [0; 2; 5; 7] None) as Hco by (split; [lia|repeat constructor; lia|done]).
  assert (ops_ok example_ops) as Ho by (repeat constructor; lia).
  destruct (amr_mode_control 7 [0; 2; 5; 7] None 2 true example_ops [] (with_change_restrictions (ModeControl_unrestricted 7 7) 2 true) Hco Ho) as (m & Hm & _ & Hreach).
  vm_compute in Hm. injection Hm as <-. split; [eexists; split; [reflexivity|vm_compute; reflexivity]|].
  destruct (Hreach 16%nat) as (mode & Hl & Hc); [vm_compute; discriminate|]. vm_compute in Hl. injection Hl as <-. exists 7. split; [exact Hc|reflexivity].
Defined.

(** ** Sending and hearing *)

(** What the types of the trait say: a frame buffer stays [MAX_FRAME_OCTETS] octets. *)
Class FrameCodecLaws (C : Type) `{!FrameCodec C} : Prop :=
  encode_speech_frame : forall (c c' : C) mode pcm frame data, bytes_ok frame -> len frame = MAX_FRAME_OCTETS ->
    encode_speech c mode pcm frame = (c', Ok data) -> bytes_ok data /\ len data = MAX_FRAME_OCTETS.

Record stream_ok (s : RtpStream) (A : Z -> Prop) : Prop := {
  so_modes : modes_ok (rs_modes s) A;
  so_set : forall x, A x -> x <= highest_mode (rs_variant s);
  so_frames : 1 <= rs_frames_per_packet s <= MAX_FRAMES_SENT;
  so_request : 0 <= rs_mode_request s < 16
}.

Lemma stream_new_ok v config : config_ok (highest_mode v) (rc_mode_set config) (rc_preferred_mode config) ->
  (forall r, rc_mode_request config = Some r -> 0 <= r) ->
  exists s, RtpStream_new v config = Ok s /\ rs_variant s = v /\ rs_format s = rc_format config /\
    stream_ok s (fun x => in_mode_set (highest_mode v) (rc_mode_set config) x = true).
Proof.
  intros Hco Hr. destruct (new_modes_ok _ _ _ (rc_mode_change_period config) (rc_mode_change_neighbor config) Hco) as (m & Hm & Hok & _).
  unfold RtpStream_new. rewrite Hm. cbn [ok_or]. rewrite bind_Ok. eexists. split; [done|]. split; [done|]. split; [done|].
  split; cbn [rs_modes rs_variant rs_frames_per_packet rs_mode_request]; [exact Hok|intros x Hx; apply (in_set_range _ _ _ _ Hco) in Hx; exact (proj2 Hx)|unfold MAX_FRAMES_SENT; lia|].
  destruct (rc_mode_request config) as [r|]; [|done]. specialize (Hr r eq_refl). destruct (Z.leb_spec r (highest_mode v)); [|done].
  destruct (is_allowed _ r); cbn [andb]; [|done]. destruct v; cbn [highest_mode] in *; lia.
Qed.

Lemma speech_bits v mode : 0 <= mode <= highest_mode v -> exists bits, frame_bits v mode = Some bits /\ 0 < bits <= 477.
Proof.
  intros H. destruct v; cbn [highest_mode] in H.
  - assert (mode = 0 \/ mode = 1 \/ mode = 2 \/ mode = 3 \/ mode = 4 \/ mode = 5 \/ mode = 6 \/ mode = 7) as Hc by lia.
    repeat destruct Hc as [->|Hc]; try rewrite Hc; eexists; (split; [reflexivity|lia]).
  - assert (mode = 0 \/ mode = 1 \/ mode = 2 \/ mode = 3 \/ mode = 4 \/ mode = 5 \/ mode = 6 \/ mode = 7 \/ mode = 8) as Hc by lia.
    repeat destruct Hc as [->|Hc]; try rewrite Hc; eexists; (split; [reflexivity|lia]).
Qed.

Section delivery.
Context {C : Type} `{!FrameCodec C} `{!FrameCodecLaws C}.

Lemma encode_frames_ok n : forall (c : C) s pcm c' s' frames A, modes_ok (rs_modes s) A -> (forall x, A x -> x <= highest_mode (rs_variant s)) ->
  encode_frames n c s pcm = (c', s', Ok frames) ->
  s' = set_modes s (mode_run (rs_modes s) (replicate n Frame)).2 /\ map af_frame_type frames = (mode_run (rs_modes s) (replicate n Frame)).1 /\
  Forall (fun f => af_frame_type f <= highest_mode (rs_variant s) /\ af_quality_ok f = true) frames /\
  frames_ok (rs_variant s) frames /\ length frames = n /\ modes_ok (rs_modes s') A.
Proof.
  induction n as [|n IH]; intros c s pcm c' s' frames A Hm Hset H; cbn [encode_frames replicate mode_run] in *.
  - injection H as <- <- <-. split; [by destruct s|]. split; [done|]. split; [constructor|]. split; [constructor|done].
  - destruct (next_frame_stepped _ _ Hm) as (mode & m1 & Hx & Hst). rewrite Hx in *. pose proof Hst as [Hok Hcur _ _ _ _ _ _ _].
    destruct (encode_speech c mode _ _) as [c1 r] eqn:He. destruct r as [data|e|]; [|discriminate H..].
    destruct (encode_speech_frame _ _ _ _ _ _ (zeros_ok (Z.to_nat MAX_FRAME_OCTETS)) eq_refl He) as (Hd & Hld).
    destruct (encode_frames n c1 (set_modes s m1) _) as [[c2 s2] r] eqn:Hrest. destruct r as [rest|e|]; [|discriminate H..]. injection H as <- <- <-.
    destruct (IH c1 (set_modes s m1) _ _ _ _ A Hok Hset Hrest) as (-> & Hmodes & Hall & Hf & Hlen & Hm2). change (rs_modes (set_modes s m1)) with m1 in *. change (rs_variant (set_modes s m1)) with (rs_variant s) in *.
    destruct (mode_run m1 (replicate n Frame)) as [ms m2] eqn:Hrun. cbn [fst snd] in *.
    assert (A mode) as Ha by (rewrite <- Hcur; apply (mo_current _ _ Hok)). pose proof (mo_range _ _ Hm _ Ha) as Hr. pose proof (Hset _ Ha) as Hr2.
    destruct (speech_bits (rs_variant s) mode ltac:(lia)) as (bits & Hb & Hb477).
    split; [done|]. split; [cbn [map af_frame_type]; by rewrite Hmodes|]. split; [by apply Forall_cons|]. split; [|split; [cbn; congruence|done]].
    apply Forall_cons. split; [|done]. unfold frame_ok, bits_of. cbn [af_frame_type af_data]. rewrite Hb. cbn [default from_option]. unfold id.
    split; [done|]. split; [done|]. rewrite Hld. unfold MAX_FRAME_OCTETS. destruct (div_ceil_8 bits ltac:(lia)). lia.
Qed.

(** The frames heard straight from their encoder, no payload between: each one's bits
    in the frame buffer, over what the frame before left there. *)
Fixpoint hear (v : Variant) (c : C) (buffer : bytes) (frames : list FrameSource) (out : list Z) : C * res CodecError (list Z) :=
  match frames with
  | [] => (c, mret out)
  | f :: frames =>
      let n := Z.to_nat (variant_samples v) in
      let buffer := af_data (masked v f) ++ drop (length (af_data (masked v f))) buffer in
      let '(c, r) := decode_speech c (af_frame_type f) buffer (take n out) in
      match r with
      | Ok pcm => let '(c, r) := hear v c buffer frames (drop n out) in (c, rest ← r; mret (pcm ++ rest))
      | Err e => (c, Err e)
      | Panic => (c, Panic)
      end
  end.

(** Frames of a mode the receiver did not negotiate. *)
Fixpoint foreign (m : ModeControl) (frames : list FrameSource) : Z :=
  match frames with
  | [] => 0
  | f :: frames => (if is_allowed m (af_frame_type f) then 0 else 1) + foreign m frames
  end.

(** The receiver after the frames. *)
Definition heard (s : RtpStream) (frames : list FrameSource) : RtpStream :=
  mkRtpStream (rs_variant s) (rs_format s) (rs_modes s) (rs_mode_request s) (rs_frames_per_packet s) (rs_last_request s)
    (if len frames =? 0 then rs_in_silence_period s else false) (rs_frames_outside_mode_set s + foreign (rs_modes s) frames).

(** A slot of a payload that holds the frame. *)
Definition slot_holds (v : Variant) (w : bytes) (f : AmrFrame) (s : FrameSlot) : Prop :=
  s = slot_for v f (sl_bit_offset s) /\ 0 <= sl_bit_offset s /\ sl_bit_offset s + sl_bits s <= 8 * len w /\
  cut_bits (tb w) (sl_bit_offset s) (sl_bits s) = cut_bits (tb (af_data f)) 0 (bits_of v f).

Lemma slot_copied v w f s buffer : bytes_ok w -> bytes_ok buffer -> len buffer = MAX_FRAME_OCTETS -> frame_ok v f (bits_of v f) -> slot_holds v w f s ->
  let data := af_data (masked v f) in
  copy_bits s w buffer = Ok (len data, data ++ drop (length data) buffer) /\ bytes_ok (data ++ drop (length data) buffer) /\
  len (data ++ drop (length data) buffer) = MAX_FRAME_OCTETS.
Proof.
  intros Hw Hb Hl (Hfb & _ & _) (Hs & H0 & Hfit & Hcut) data. destruct (frame_bits_range _ _ _ Hfb) as (_ & Hr).
  assert (sl_bits s = bits_of v f) as Hbits by (by rewrite Hs). rewrite Hbits in *. destruct (div_ceil_8 (bits_of v f) ltac:(lia)) as (Hd & _).
  destruct (cut_bits_ok (tb (af_data f)) 0 (bits_of v f) ltac:(lia)) as (Hok & Hlc). change (cut_bits (tb (af_data f)) 0 (bits_of v f)) with data in *.
  unfold MAX_FRAME_OCTETS in *. split; [|split].
  - rewrite copy_bits_at by (try done; rewrite ?Hbits; lia). rewrite Hbits, Hcut, <- Hlc. by rewrite to_nat_len.
  - apply Forall_app. split; [done|by apply Forall_drop].
  - rewrite len_app. unfold len in *. rewrite length_drop. lia.
Qed.

Lemma decode_slot_heard v w f slot (c : C) s buffer pcm : bytes_ok w -> bytes_ok buffer -> len buffer = MAX_FRAME_OCTETS ->
  frame_ok v f (bits_of v f) -> slot_holds v w f slot -> af_frame_type f <= highest_mode v -> af_quality_ok f = true -> rs_variant s = v ->
  let data := af_data (masked v f) ++ drop (length (af_data (masked v f))) buffer in
  let '(c', r) := decode_speech c (af_frame_type f) data pcm in
  exists s', decode_slot c s w buffer slot pcm = (c', s', data, r) /\ (forall pcm', r = Ok pcm' -> s' = heard s [f]).
Proof.
  intros Hw Hb Hl Hf Hs Ht Hq Hv. destruct (slot_copied v w f slot buffer Hw Hb Hl Hf Hs) as (Hc & _). destruct Hs as (Hs & _).
  unfold decode_slot. rewrite Hc. assert (sl_frame_type slot = af_frame_type f) as -> by (by rewrite Hs). assert (sl_quality_ok slot = true) as -> by (by rewrite Hs).
  rewrite Hv, (proj2 (Z.leb_le _ _) Ht). cbn zeta. destruct (decode_speech c _ _ pcm) as [c' r]. eexists. split; [reflexivity|]. intros pcm' ->. cbn [is_ok].
  unfold heard, foreign, set_silence, count_outside. cbn [len length]. change (len [f] =? 0) with false.
  destruct (is_allowed (rs_modes s) (af_frame_type f)); cbn [rs_variant rs_format rs_modes rs_mode_request rs_frames_per_packet rs_last_request rs_frames_outside_mode_set]; f_equal; lia.
Qed.

Lemma heard_cons s f frames : heard (heard s [f]) frames = heard s (f :: frames).
Proof.
  unfold heard. cbn [rs_variant rs_format rs_modes rs_mode_request rs_frames_per_packet rs_last_request rs_in_silence_period rs_frames_outside_mode_set foreign].
  assert ((len (f :: frames) =? 0) = false) as -> by (apply Z.eqb_neq; pose proof (len_nonneg frames); unfold len in *; cbn [length]; lia).
  change (len [f] =? 0) with false. f_equal; [by destruct (_ =? 0)|lia].
Qed.

Lemma decode_slots_heard v w : bytes_ok w -> forall frames slots (c : C) s buffer out, Forall2 (slot_holds v w) frames slots -> frames_ok v frames ->
  Forall (fun f => af_frame_type f <= highest_mode v /\ af_quality_ok f = true) frames -> rs_variant s = v ->
  bytes_ok buffer -> len buffer = MAX_FRAME_OCTETS -> len frames * variant_samples v <= len out ->
  let '(c', r) := hear v c buffer frames out in
  exists s', decode_slots c s w buffer slots out = (c', s', r) /\ (forall pcm, r = Ok pcm -> s' = heard s frames).
Proof.
  intros Hw frames. induction frames as [|f frames IH]; intros slots c s buffer out Hall Hf Hq Hv Hb Hl Ho; inversion Hall as [|? slot ? slots' Hs Hrest]; subst; cbn [hear decode_slots].
  { exists s. split; [done|]. intros _ _. destruct s. unfold heard. cbn. f_equal; lia. }
  apply Forall_cons in Hf as (Hf1 & Hf). apply Forall_cons in Hq as ((Ht & Hq1) & Hq). set (v := rs_variant s) in *.
  pose proof (decode_slot_heard v w f slot c s buffer (take (Z.to_nat (variant_samples v)) out) Hw Hb Hl Hf1 Hs Ht Hq1 eq_refl) as Hone.
  destruct (slot_copied v w f slot buffer Hw Hb Hl Hf1 Hs) as (_ & Hb' & Hl'). cbn zeta in Hone.
  assert (len (f :: frames) = 1 + len frames) as Hcons by (unfold len; cbn [length]; lia). rewrite Hcons in Ho. pose proof (len_nonneg frames).
  assert (0 < variant_samples v) as Hpos by (by destruct v). destruct out as [|o out']; [change (len []) with 0 in Ho; nia|]. set (out := o :: out') in *.
  destruct (decode_speech c _ _ _) as [c1 r]. destruct Hone as (s1 & -> & Hs1). destruct r as [pcm|e|]; [|eexists; split; [reflexivity|discriminate]..].
  specialize (Hs1 pcm eq_refl). assert (rs_variant s1 = v) as Hv1 by (by rewrite Hs1).
  specialize (IH slots' c1 s1 _ (drop (Z.to_nat (variant_samples v)) out) Hrest Hf Hq Hv1 Hb' Hl').
  destruct (hear v c1 _ frames _) as [c2 r]. destruct IH as (s2 & -> & Hs2).
  { unfold len in *. rewrite length_drop. lia. }
  exists s2. split; [done|]. intros pcm2 Hr. destruct r as [rest|e|]; [|discriminate Hr..]. rewrite (Hs2 rest eq_refl), Hs1. apply heard_cons.
Qed.

Lemma stream_size fmt v cmr frames : frames_ok v frames -> len frames <= MAX_FRAMES_SENT -> len (payload_stream fmt v cmr frames) <= 8 * 245.
Proof.
  intros Hf Hn. rewrite len_payload_stream. assert (len (frame_stream fmt v frames) <= 480 * len frames) as Hs.
  { clear Hn. induction frames as [|f frames IH]; [done|]. apply Forall_cons in Hf as (Hf1 & Hf). cbn [frame_stream flat_map]. rewrite len_app, len_frame_part by done.
    fold (frame_stream fmt v frames). specialize (IH Hf). destruct Hf1 as (Hb & _). destruct (frame_bits_range _ _ _ Hb) as (_ & Hr).
    destruct (div_ceil_8 (bits_of v f) ltac:(lia)). unfold frame_span. unfold len in *. cbn [length]. destruct fmt; lia. }
  unfold MAX_FRAMES_SENT in Hn. destruct fmt; unfold header_bits, toc_entry_bits; lia.
Qed.

End delivery.

Lemma land_small_15 x : 0 <= x < 16 -> Z.land x 0x0F = x.
Proof. intros H. change 0x0F with (Z.ones 4). rewrite Z.land_ones by lia. by apply Z.mod_small. Qed.

(** C27. A packet an AMR stream sends is heard as sent.  Whatever the speech codecs
    behind the two ends, for a stream as negotiated and an output of 245 octets:
    when the encoder has coded its frames, of the modes the mode decision gives,
    [encode_payload] writes one payload, and a receiver of the same format and variant
    that decodes it takes note of the mode request, has its codec decode exactly
    those frames in order, in their modes and bit for bit (the bits past a frame's
    end cleared, the buffer after it as the frame before left it), counts the frames
    whose mode it did not negotiate, leaves a silence period, and returns the codec's
    PCM in the first samples of its output, the rest untouched. *)
Theorem amr_stream_delivers {C D : Type} `{!FrameCodec C} `{!FrameCodecLaws C} `{!FrameCodec D} (c c' : C) (d : D) s s' t A pcm frames out heard_out :
  let n := rs_frames_per_packet s in let v := rs_variant s in let samples := Z.to_nat (n * variant_samples v) in
  stream_ok s A -> n * variant_samples v <= len pcm -> n * variant_samples v <= len heard_out -> 245 <= len out ->
  rs_variant t = v -> rs_format t = rs_format s ->
  encode_frames (Z.to_nat n) c s (take samples pcm) = (c', s', Ok frames) ->
  exists packet,
    encode_payload c s pcm out = (c', s', Ok (len packet, packet ++ drop (length packet) out)) /\ bytes_ok packet /\ stream_ok s' A /\
    map af_frame_type frames = (mode_run (rs_modes s) (replicate (Z.to_nat n) Frame)).1 /\
    let '(d', r) := hear v d (replicate (Z.to_nat MAX_FRAME_OCTETS) 0) frames (take samples heard_out) in
    exists t', decode_payload d t packet heard_out = (d', t', x ← r; mret (n * variant_samples v, x ++ drop samples heard_out)) /\
      forall x, r = Ok x -> t' = heard (note_request t (rs_mode_request s)) frames.
Proof.
  intros n v samples [Hm Hset Hn Hreq] Hpcm Hout Hroom Htv Htf Henc. pose proof Hn as Hn'. unfold MAX_FRAMES_SENT in Hn'. fold n in Hn'.
  destruct (encode_frames_ok _ _ _ _ _ _ _ A Hm Hset Henc) as (Hs' & Hmodes & Hall & Hf & Hlen & Hm'). fold v in Hf, Hall.
  assert (len frames = n) as Hfn by (unfold len; lia).
  destruct (div_ceil_8 (len (payload_stream (rs_format s) v (rs_mode_request s) frames)) (len_nonneg _)) as (Hd & _).
  pose proof (stream_size (rs_format s) v (rs_mode_request s) frames Hf ltac:(unfold MAX_FRAMES_SENT; lia)) as Hsize.
  destruct (write_payload_holds (rs_format s) v (rs_mode_request s) frames out Hf) as (w & Hw & Hwl & Hh); [unfold MAX_FRAMES; lia|lia|].
  exists w. split.
  { unfold encode_payload. fold n v. rewrite (proj2 (Z.ltb_ge _ _) Hpcm). rewrite (Z.min_l n) by (unfold MAX_FRAMES_SENT; lia).
    fold samples. rewrite Henc, bind_Ok, (proj2 (Z.ltb_ge MAX_FRAMES_SENT n)) by (unfold MAX_FRAMES_SENT; lia). rewrite Hs'. cbn [set_modes rs_format rs_variant rs_mode_request]. fold v.
    rewrite Hw, <- Hwl. by rewrite to_nat_len. }
  split; [apply Hh|]. split; [rewrite Hs' in Hm' |- *; split; done|]. split; [done|].
  destruct (read_payload_holds (rs_format s) v (rs_mode_request s) frames w Hf) as (slots & Hread & Hslots); [unfold MAX_FRAMES; lia|done|done|].
  pose proof (decode_slots_heard v w (ho_bytes _ _ Hh) frames slots d (note_request t (rs_mode_request s)) (replicate (Z.to_nat MAX_FRAME_OCTETS) 0) (take samples heard_out)
    Hslots Hf Hall) as Hdec.
  assert (rs_variant (note_request t (rs_mode_request s)) = v) as Hv by (unfold note_request; repeat case_match; exact Htv).
  specialize (Hdec Hv (zeros_ok _) eq_refl). destruct (hear v d _ frames _) as [d' r]. destruct Hdec as (t' & Hdec & Ht').
  { unfold samples, len in *. rewrite length_take. lia. }
  exists t'. split; [|done]. unfold decode_payload. rewrite Htv, Htf, Hread. cbn [la_frames la_cmr].
  rewrite land_small_15 by done. pose proof (Forall2_length _ _ _ Hslots) as Hls.
  assert (len slots = n) as -> by (unfold len in *; lia). rewrite (proj2 (Z.ltb_ge (len heard_out) (n * variant_samples v)) Hout). fold samples. by rewrite Hdec.
Qed.

(** A codec that puts the low octets of its samples in a frame and back, and counts. *)
Definition example_encode (c mode : Z) (pcm : list Z) (frame : bytes) : Z * res CodecError bytes :=
  (c + 1, Ok (take (Z.to_nat MAX_FRAME_OCTETS) (map (fun x => x mod 256) pcm ++ frame))).
#[local] Instance example_codec : FrameCodec Z := {|
  decode_speech d mode frame pcm := (d + 1, mret (take (length pcm) (mode :: frame ++ pcm)));
  conceal_frame d pcm := (d, pcm);
  decode_damaged := default_decode_damaged (fun d pcm => (d, pcm));
  encode_speech := example_encode
|}.
#[local] Instance example_codec_laws : FrameCodecLaws Z.
Proof.
  intros c c' mode pcm frame data Hok Hl [= _ <-]. split.
  - apply Forall_take, Forall_app. split; [|done]. apply Forall_map, Forall_forall. intros x _. unfold is_byte. cbn. apply Z.mod_pos_bound. lia.
  - unfold len in *. rewrite length_take, length_app. unfold MAX_FRAME_OCTETS in *. lia.
Qed.

Definition example_config : RtpConfig := mkRtpConfig BandwidthEfficient [0; 2; 5] None 1 false (Some 2) 2.

Definition example_stream : RtpStream :=
  match RtpStream_new Narrowband example_config with Ok s => s | _ => RtpStream_bare Narrowband 7 end.
Definition example_coded : Z * RtpStream * res CodecError (list FrameSource) := encode_frames 2 0 example_stream (replicate 320 77).
Definition example_sources : list FrameSource := match example_coded.2 with Ok frames => frames | _ => [] end.
Definition example_heard : list Z := 5 :: replicate 19 77 ++ [76] ++ replicate 40 0 ++ replicate 99 3.

(** Two AMR frames of mode 5, 159 bits each, in one packet; the receiver's codec gets
    both and the request for mode 2 is noted. *)
Lemma amr_stream_delivers_witness :
  exists packet t', encode_payload 0 example_stream (replicate 320 77) (replicate 250 9) =
      (2, example_coded.1.2, Ok (len packet, packet ++ drop (length packet) (replicate 250 9))) /\
    decode_payload 10 example_stream packet (replicate 400 3) = (12, t', Ok (320, (example_heard ++ example_heard) ++ replicate 80 3)) /\
    rs_last_request t' = Some 2.
Proof.
  assert (config_ok 7 [0; 2; 5] None) as Hco by (split; [lia|repeat constructor; lia|done]).
  destruct (stream_new_ok Narrowband example_config Hco) as (s & Hs & _ & _ & Hok); [by intros r [= <-]|].
  assert (s = example_stream) as -> by (unfold example_stream; by rewrite Hs).
  destruct (amr_stream_delivers 0 2 10 example_stream example_coded.1.2 example_stream _ (replicate 320 77) example_sources (replicate 250 9) (replicate 400 3) Hok)
    as (packet & Hp & _ & _ & _ & Hd); [vm_compute; discriminate..|reflexivity|reflexivity|vm_compute; reflexivity|].
  exists packet. destruct (hear _ _ _ _ _) as [d' r] eqn:Hh. destruct Hd as (t' & Hd & Ht). vm_compute in Hh. injection Hh as <- <-.
  exists t'. split; [exact Hp|]. split; [rewrite Hd; vm_compute; reflexivity|]. rewrite (Ht _ eq_refl). vm_compute. reflexivity.
Defined.
