(* ===== verification/Concealment.v ===== *)
(** * G.711 packet loss concealment: crates/siphon-rtp-codec/src/g711/plc.rs

    While packets are missing the decoder replays the last pitch period of what it
    heard, faded out over 60 ms, and cross-fades into the first frame that arrives
    again.  The fixed arrays of the source are lists of their length.  Signed
    arithmetic is checked: a sum or product outside its width is a [Panic], as in a
    build with overflow checks. *)

From stdpp Require Import base list numbers option.
From Stdlib Require Import Lia ZArith.
From S2P Require Import Prelude Codec.

Open Scope Z_scope.

Abbreviation plc A := (res CodecError A).

Definition FRAME : Z := 80.
Definition PITCH_MIN : Z := 40.
Definition PITCH_MAX : Z := 120.
Definition OVERLAP_MAX : Z := PITCH_MAX / 4.
Definition HISTORY_LEN : Z := PITCH_MAX * 3 + OVERLAP_MAX.
Definition CORRELATION_LEN : Z := 160.
Definition SEARCH_LEN : Z := CORRELATION_LEN + PITCH_MAX.
Definition DECIMATION : Z := 2.
Definition MIN_POWER : Z := 250.
Definition OVERLAP_INCREMENT : Z := 32.
Definition FULL_LEVEL_SAMPLES : Z := FRAME.
Definition MUTE_SAMPLES : Z := 6 * FRAME.
Definition FADE_SAMPLES : Z := MUTE_SAMPLES - FULL_LEVEL_SAMPLES.
Definition CODES_CAPACITY : Z := 2048.

(** ** The pitch search *)

(** The loop of [score_lag]. *)
Fixpoint score_sum (n : nat) (offset : Z) (recent earlier : Z -> plc Z) (correlation energy : Z) : plc (Z * Z) :=
  match n with
  | O => mret (correlation, energy)
  | S n =>
      past ← earlier offset;
      now ← recent offset;
      product ← chk I64 (now * past);
      correlation ← chk I64 (correlation + product);
      square ← chk I64 (past * past);
      energy ← chk I64 (energy + square);
      score_sum n (offset + 1) recent earlier correlation energy
  end.

Definition score_lag (recent earlier : Z -> plc Z) (length : Z) : plc (option (Z * Z)) :=
  '(correlation, energy) ← score_sum (Z.to_nat length) 0 recent earlier 0 0;
  mret (if (0 <? correlation) && (MIN_POWER * length <=? energy) then Some (correlation, energy) else None).

Definition better (best : option (Z * Z * Z)) (score : option (Z * Z)) (lag : Z) : plc (option (Z * Z * Z)) :=
  match score with
  | None => mret best
  | Some (correlation, energy) =>
      match best with
      | Some (best_correlation, best_energy, _) =>
          square ← chk I128 (correlation * correlation);
          mine ← chk I128 (square * best_energy);
          best_square ← chk I128 (best_correlation * best_correlation);
          theirs ← chk I128 (best_square * energy);
          mret (if mine <=? theirs then best else Some (correlation, energy, lag))
      | None => mret (Some (correlation, energy, lag))
      end
  end.

(** [for lag in lag..lag + n] *)
Fixpoint search_lags (n : nat) (lag : Z) (score : Z -> plc (option (Z * Z))) (best : option (Z * Z * Z)) : plc (option (Z * Z * Z)) :=
  match n with
  | O => mret best
  | S n =>
      s ← score lag;
      best ← better best s lag;
      search_lags n (lag + 1) score best
  end.

(** The signal decimated by averaging pairs. *)
Fixpoint decimate (n : nat) (at_ : Z) (history : list Z) : plc (list Z) :=
  match n with
  | O => mret []
  | S n =>
      a ← idx history at_;
      b ← idx history (at_ + 1);
      rest ← decimate n (at_ + DECIMATION) history;
      mret (Z.quot (a + b) 2 :: rest)
  end.

Definition find_pitch (history : list Z) : plc Z :=
  coarse ← decimate (Z.to_nat (SEARCH_LEN / DECIMATION)) (HISTORY_LEN - SEARCH_LEN) history;
  let window := CORRELATION_LEN / DECIMATION in
  let end_ := len coarse in
  let score lag :=
    score_lag (fun offset => idx coarse (end_ - window + offset))
      (fun offset => idx coarse (end_ - window - lag + offset)) window in
  let low := PITCH_MIN / DECIMATION in
  best ← search_lags (Z.to_nat (PITCH_MAX / DECIMATION - low + 1)) low score None;
  match best with
  | None => mret PITCH_MIN
  | Some (_, _, coarse_lag) =>
      let centre := coarse_lag * DECIMATION in
      let low := Z.max (saturating_sub centre DECIMATION) PITCH_MIN in
      let high := Z.min (centre + DECIMATION) PITCH_MAX in
      let score lag :=
        score_lag (fun offset => idx history (HISTORY_LEN - CORRELATION_LEN + offset))
          (fun offset => idx history (HISTORY_LEN - CORRELATION_LEN - lag + offset)) CORRELATION_LEN in
      best ← search_lags (Z.to_nat (high - low + 1)) low score None;
      mret (match best with Some (_, _, lag) => lag | None => Z.min (Z.max centre PITCH_MIN) PITCH_MAX end)
  end.

(** ** The state *)

Record Concealer : Type := mkConcealer {
  cn_codes : list Z; cn_length : Z; cn_period : list Z; cn_pitch : Z; cn_overlap : Z; cn_position : Z;
  cn_join_offset : Z; cn_erased : Z
}.

Definition Concealer_new : Concealer :=
  mkConcealer (replicate (Z.to_nat CODES_CAPACITY) 0) 0 (replicate (Z.to_nat PITCH_MAX) 0) PITCH_MIN (PITCH_MIN / 4) 0 0 0.

Definition attenuate (sample erased : Z) : Z :=
  if erased <? FULL_LEVEL_SAMPLES then sample
  else if MUTE_SAMPLES <=? erased then 0
  else
    let remaining := MUTE_SAMPLES - erased in
    to_signed 16 (wrap 16 (Z.quot (sample * remaining) FADE_SAMPLES)).

Definition clamp (value : Z) : Z := Z.min (Z.max value (-32768)) 32767.

Definition set_codes (c : Concealer) (codes : list Z) (length : Z) : Concealer :=
  mkConcealer codes length (cn_period c) (cn_pitch c) (cn_overlap c) (cn_position c) (cn_join_offset c) (cn_erased c).
Definition set_position (c : Concealer) (position : Z) : Concealer :=
  mkConcealer (cn_codes c) (cn_length c) (cn_period c) (cn_pitch c) (cn_overlap c) position (cn_join_offset c) (cn_erased c).
Definition set_erased (c : Concealer) (erased : Z) : Concealer :=
  mkConcealer (cn_codes c) (cn_length c) (cn_period c) (cn_pitch c) (cn_overlap c) (cn_position c) (cn_join_offset c) erased.

Definition raw_sample (c : Concealer) : plc (Z * Concealer) :=
  sample ← idx (cn_period c) (cn_position c);
  let position := cn_position c + 1 in
  mret (sample, set_position c (if position =? cn_pitch c then 0 else position)).

Definition next_sample (c : Concealer) : plc (Z * Concealer) :=
  '(raw, c) ← raw_sample c;
  let level := attenuate raw (cn_erased c) in
  let overlap := cn_overlap c in
  if cn_erased c <? overlap then
    let remaining := overlap - cn_erased c in
    product ← chk I32 (cn_join_offset c * remaining);
    sum ← chk I32 (level + Z.quot product overlap);
    mret (clamp sum, c)
  else mret (clamp level, c).

(** The loop over the first [window] samples of the good frame. *)
Fixpoint fade_loop (c : Concealer) (decoded : list Z) (index span erased : Z) : plc (list Z * Concealer) :=
  match decoded with
  | [] => mret ([], c)
  | sample :: rest =>
      '(raw, c) ← raw_sample c;
      let continuation := attenuate raw erased in
      let weight := index + 1 in
      faded ← chk I32 (continuation * (span - weight));
      entering ← chk I32 (sample * weight);
      sum ← chk I32 (faded + entering);
      '(rest, c) ← fade_loop c rest (index + 1) span (saturating_add 32 erased 1);
      mret (clamp (Z.quot sum span) :: rest, c)
  end.

Definition fade_into (c : Concealer) (decoded : list Z) : plc (list Z * Concealer) :=
  let frames := div_ceil (cn_erased c) FRAME in
  let window := Z.min (Z.min (cn_overlap c + saturating_sub frames 1 * OVERLAP_INCREMENT) FRAME) (len decoded) in
  head ← slice decoded 0 window;
  '(faded, c) ← fade_loop c head 0 (window + 1) (cn_erased c);
  mret (faded ++ drop (Z.to_nat window) decoded, c).

(** [self.codes.copy_within(start..end, 0)] *)
Definition copy_within (codes : list Z) (start end_ : Z) : plc (list Z) :=
  kept ← slice codes start end_;
  copy_at codes 0 kept.

Definition record (c : Concealer) (payload : bytes) : plc Concealer :=
  let payload := drop (Z.to_nat (saturating_sub (len payload) HISTORY_LEN)) payload in
  '(codes, length) ←
    (if CODES_CAPACITY <? cn_length c + len payload then
       let keep := Z.min HISTORY_LEN (cn_length c) in
       start ← usub (cn_length c) keep;
       codes ← copy_within (cn_codes c) start (cn_length c);
       mret (codes, keep)
     else mret (cn_codes c, cn_length c));
  codes ← copy_at codes length payload;
  mret (set_codes c codes (length + len payload)).

Definition good_frame (c : Concealer) (payload : bytes) (decoded : list Z) : plc (list Z * Concealer) :=
  '(decoded, c) ←
    (if 0 <? cn_erased c then
       '(decoded, c) ← fade_into c decoded;
       mret (decoded, set_erased c 0)
     else mret (decoded, c));
  c ← record c payload;
  mret (decoded, c).

(** Code words expanded through the table. *)
Fixpoint expand (table : list Z) (codes : list Z) : plc (list Z) :=
  match codes with
  | [] => mret []
  | code :: codes => sample ← idx table code; rest ← expand table codes; mret (sample :: rest)
  end.

Definition start_erasure (c : Concealer) (table : list Z) : plc Concealer :=
  let silent := mkConcealer (cn_codes c) (cn_length c) (replicate (Z.to_nat PITCH_MAX) 0) (cn_pitch c) (PITCH_MIN / 4) 0 0 (cn_erased c) in
  if cn_length c <? SEARCH_LEN then mret silent else
  let available := Z.min (cn_length c) HISTORY_LEN in
  start ← usub (cn_length c) available;
  codes ← slice (cn_codes c) start (cn_length c);
  expanded ← expand table codes;
  let history := replicate (Z.to_nat (HISTORY_LEN - available)) 0 ++ expanded in
  pitch ← find_pitch history;
  last_period ← slice history (HISTORY_LEN - pitch) HISTORY_LEN;
  period ← copy_at (replicate (Z.to_nat PITCH_MAX) 0) 0 last_period;
  last ← idx history (HISTORY_LEN - 1);
  before ← idx history (HISTORY_LEN - pitch - 1);
  join_offset ← chk I32 (last - before);
  mret (mkConcealer (cn_codes c) (cn_length c) period pitch (pitch / 4) 0 join_offset (cn_erased c)).

(** The loop over the samples of a lost frame. *)
Fixpoint conceal_loop (n : nat) (c : Concealer) : plc (list Z * Concealer) :=
  match n with
  | O => mret ([], c)
  | S n =>
      '(sample, c) ← next_sample c;
      '(rest, c) ← conceal_loop n (set_erased c (saturating_add 32 (cn_erased c) 1));
      mret (sample :: rest, c)
  end.

Definition conceal (c : Concealer) (table : list Z) (out : list Z) : plc (list Z * Concealer) :=
  c ← (if cn_erased c =? 0 then start_erasure c table else mret c);
  conceal_loop (length out) c.

(** * Proofs *)

(** Accessors that give samples on a range. *)
Definition sampled (f : Z -> plc Z) (lo hi : Z) : Prop := forall i, lo <= i < hi -> exists x, f i = Ok x /\ is_i16 x.

Lemma product_bound a b : is_i16 a -> is_i16 b -> Z.abs (a * b) <= 2 ^ 30.
Proof. unfold is_i16. intros Ha Hb. rewrite Z.abs_mul. change (2 ^ 30) with (32768 * 32768). apply Z.mul_le_mono_nonneg; lia. Qed.

Lemma score_sum_ok n : forall offset recent earlier c e k, sampled recent offset (offset + Z.of_nat n) -> sampled earlier offset (offset + Z.of_nat n) ->
  0 <= k -> k + Z.of_nat n <= 2 ^ 20 -> Z.abs c <= 2 ^ 30 * k -> 0 <= e <= 2 ^ 30 * k ->
  exists c' e', score_sum n offset recent earlier c e = Ok (c', e') /\ Z.abs c' <= 2 ^ 30 * (k + Z.of_nat n) /\ 0 <= e' <= 2 ^ 30 * (k + Z.of_nat n).
Proof.
  induction n as [|n IH]; intros offset recent earlier c e k Hr He Hk Hn Hc Hce; cbn [score_sum].
  - exists c, e. rewrite Z.add_0_r. done.
  - destruct (He offset) as (p & -> & Hp); [lia|]. destruct (Hr offset) as (r & -> & Hri); [lia|]. rewrite !bind_Ok.
    pose proof (product_bound r p Hri Hp) as H1. pose proof (product_bound p p Hp Hp) as H2. pose proof (Z.square_nonneg p) as H3.
    change (2 ^ 30) with 1073741824 in *. change (2 ^ 20) with 1048576 in *.
    assert (I64 = 9223372036854775808) as H64 by done.
    rewrite (chk_Ok I64 (r * p)), bind_Ok by (rewrite H64; lia). rewrite (chk_Ok I64 (c + r * p)), bind_Ok by (rewrite H64; lia).
    rewrite (chk_Ok I64 (p * p)), bind_Ok by (rewrite H64; lia). rewrite (chk_Ok I64 (e + p * p)), bind_Ok by (rewrite H64; lia).
    destruct (IH (offset + 1) recent earlier (c + r * p) (e + p * p) (k + 1)) as (c' & e' & -> & Hc' & He');
      [intros i Hi; apply Hr; lia|intros i Hi; apply He; lia|lia|lia|lia|lia|].
    exists c', e'. split; [done|]. lia.
Qed.

(** A score stays within 38 bits. *)
Definition score_ok (s : option (Z * Z)) : Prop :=
  match s with Some (c, e) => 0 < c <= 2 ^ 38 /\ 0 < e <= 2 ^ 38 | None => True end.

Lemma score_lag_ok recent earlier n : 0 < n <= 160 -> sampled recent 0 n -> sampled earlier 0 n ->
  exists s, score_lag recent earlier n = Ok s /\ score_ok s.
Proof.
  intros Hn Hr He. unfold score_lag. destruct (score_sum_ok (Z.to_nat n) 0 recent earlier 0 0 0) as (c & e & -> & Hc & Hce); rewrite ?Z2Nat.id by lia; try done; try lia.
  rewrite Z2Nat.id in Hc, Hce by lia.
  rewrite bind_Ok. eexists. split; [reflexivity|]. destruct (Z.ltb_spec 0 c); [|done]. destruct (Z.leb_spec (MIN_POWER * n) e); [|done]. cbn [andb score_ok].
  unfold MIN_POWER in *. change (2 ^ 30) with 1073741824 in *. change (2 ^ 38) with 274877906944. lia.
Qed.

(** [a] is at least as good as [b]: [c² / e] compared without a division. *)
Definition as_good (c e c' e' : Z) : Prop := c' * c' * e <= c * c * e'.

Lemma as_good_trans c1 e1 c2 e2 c3 e3 : 0 < e1 -> 0 < e2 -> 0 < e3 -> as_good c1 e1 c2 e2 -> as_good c2 e2 c3 e3 -> as_good c1 e1 c3 e3.
Proof. unfold as_good. intros H1 H2 H3 Ha Hb. pose proof (Z.square_nonneg c1). pose proof (Z.square_nonneg c2). pose proof (Z.square_nonneg c3). nia. Qed.

(** The best of the lags before [hi]: as good as any, and better than any shorter. *)
Definition best_of (score : Z -> plc (option (Z * Z))) (lo hi : Z) (best : option (Z * Z * Z)) : Prop :=
  match best with
  | Some (c, e, lag) => lo <= lag < hi /\ score lag = Ok (Some (c, e)) /\ 0 < c <= 2 ^ 38 /\ 0 < e <= 2 ^ 38 /\
      forall l c' e', lo <= l < hi -> score l = Ok (Some (c', e')) -> 0 < e' /\ as_good c e c' e' /\ (l < lag -> ~ as_good c' e' c e)
  | None => forall l, lo <= l < hi -> score l = Ok None
  end.

Lemma cube_bound a b : 0 <= a <= 2 ^ 38 -> 0 <= b <= 2 ^ 38 -> - I128 <= a * a < I128 /\ - I128 <= a * a * b < I128.
Proof.
  intros Ha Hb. assert (0 <= a * a <= 2 ^ 76) as H2 by (change (2 ^ 76) with (2 ^ 38 * 2 ^ 38); nia).
  assert (0 <= a * a * b <= 2 ^ 114) as H3 by (change (2 ^ 114) with (2 ^ 76 * 2 ^ 38); nia).
  assert (2 ^ 76 < I128) by done. assert (2 ^ 114 < I128) by done. assert (0 < I128) by done. lia.
Qed.

Lemma better_ok score lo lag best s : lo <= lag -> best_of score lo lag best -> score lag = Ok s -> score_ok s ->
  exists best', better best s lag = Ok best' /\ best_of score lo (lag + 1) best'.
Proof.
  intros Hlo Hb Hs Hok. unfold better. destruct s as [[c e]|].
  - destruct Hok as (Hc & He). destruct best as [[[bc be] bl]|].
    + destruct Hb as (Hl & Hsl & Hbc & Hbe & Hall). destruct (cube_bound c be) as (H1 & H2); [lia..|]. destruct (cube_bound bc e) as (H3 & H4); [lia..|].
      rewrite (chk_Ok I128 (c * c)), bind_Ok, (chk_Ok I128 (c * c * be)), bind_Ok, (chk_Ok I128 (bc * bc)), bind_Ok, (chk_Ok I128 (bc * bc * e)), bind_Ok by done. eexists. split; [reflexivity|]. destruct (Z.leb_spec (c * c * be) (bc * bc * e)) as [Hle|Hgt].
      * split; [lia|]. split; [done|]. split; [done|]. split; [done|]. intros l c' e' Hlr Hsc. destruct (Z.eq_dec l lag) as [->|]; [|apply Hall; [lia|done]].
        rewrite Hs in Hsc. injection Hsc as <- <-. split; [lia|]. split; [exact Hle|lia].
      * split; [lia|]. split; [done|]. split; [done|]. split; [done|]. assert (as_good c e bc be) as Hgood by (unfold as_good; lia).
        intros l c' e' Hlr Hsc. destruct (Z.eq_dec l lag) as [->|]; [rewrite Hs in Hsc; injection Hsc as <- <-; split; [lia|]; split; [unfold as_good; lia|lia]|].
        destruct (Hall l c' e' ltac:(lia) Hsc) as (He' & Hg & _). split; [done|].
        split; [apply (as_good_trans c e bc be c' e'); (done || lia)|]. intros _ Hback. assert (as_good bc be c e) as Hx by (apply (as_good_trans bc be c' e' c e); (done || lia)). unfold as_good in Hx. lia.
    + eexists. split; [reflexivity|]. cbn [best_of] in *. split; [lia|]. split; [done|]. split; [done|]. split; [done|]. intros l c' e' Hlr Hsc.
      destruct (Z.eq_dec l lag) as [->|]; [rewrite Hs in Hsc; injection Hsc as <- <-; split; [lia|]; split; [unfold as_good; lia|lia]|]. rewrite Hb in Hsc by lia. done.
  - exists best. split; [done|]. destruct best as [[[bc be] bl]|]; cbn [best_of] in *.
    + destruct Hb as (Hl & Hsl & Hbc & Hbe & Hall). split; [lia|]. split; [done|]. split; [done|]. split; [done|]. intros l c' e' Hlr Hsc.
      destruct (Z.eq_dec l lag) as [->|]; [congruence|]. apply Hall; [lia|done].
    + intros l Hl. destruct (Z.eq_dec l lag) as [->|]; [done|]. apply Hb. lia.
Qed.

Lemma search_lags_ok score lo n : forall lag best, lo <= lag -> (forall l, lag <= l < lag + Z.of_nat n -> exists s, score l = Ok s /\ score_ok s) ->
  best_of score lo lag best -> exists best', search_lags n lag score best = Ok best' /\ best_of score lo (lag + Z.of_nat n) best'.
Proof.
  induction n as [|n IH]; intros lag best Hlo Hs Hb; cbn [search_lags].
  - exists best. by rewrite Z.add_0_r.
  - destruct (Hs lag) as (s & Hsl & Hok); [lia|]. rewrite Hsl, bind_Ok. destruct (better_ok score lo lag best s Hlo Hb Hsl Hok) as (b1 & -> & Hb1). rewrite bind_Ok.
    destruct (IH (lag + 1) b1) as (b2 & -> & Hb2); [lia|intros l Hl; apply Hs; lia|done|]. exists b2. split; [done|]. by replace (lag + Z.of_nat (S n)) with (lag + 1 + Z.of_nat n) by lia.
Qed.

Lemma sampled_idx (l : list Z) base lo hi : pcm_ok l -> 0 <= base + lo -> base + hi <= len l -> sampled (fun offset => idx l (base + offset)) lo hi.
Proof.
  intros Hl Hb Hh i Hi. destruct (@idx_in_range CodecError _ l (base + i)) as (x & Hx & Hlk); [lia|]. exists x. split; [done|].
  unfold pcm_ok in Hl. rewrite Forall_lookup in Hl. by eapply Hl.
Qed.

Lemma quot_half a b : is_i16 a -> is_i16 b -> is_i16 (Z.quot (a + b) 2).
Proof.
  unfold is_i16. intros Ha Hb. pose proof (Z.quot_rem' (a + b) 2). pose proof (Z.rem_bound_abs (a + b) 2). lia.
Qed.

Lemma decimate_ok history n : forall at_, pcm_ok history -> 0 <= at_ -> at_ + 2 * Z.of_nat n <= len history ->
  exists l, decimate n at_ history = Ok l /\ len l = Z.of_nat n /\ pcm_ok l.
Proof.
  induction n as [|n IH]; intros at_ Hp Ha Hn; cbn [decimate].
  { exists []. split; [done|]. split; [done|constructor]. }
  destruct (sampled_idx history at_ 0 2 Hp ltac:(lia) ltac:(lia) 0 ltac:(lia)) as (a & Hxa & Hia). destruct (sampled_idx history at_ 0 2 Hp ltac:(lia) ltac:(lia) 1 ltac:(lia)) as (b & Hxb & Hib).
  rewrite Z.add_0_r in Hxa. cbn beta in Hxb. rewrite Hxa, bind_Ok, Hxb, bind_Ok. destruct (IH (at_ + DECIMATION)) as (l & -> & Hl & Hpl); [done|unfold DECIMATION; lia|unfold DECIMATION; lia|].
  rewrite bind_Ok. eexists. split; [reflexivity|]. rewrite len_cons. split; [lia|]. apply Forall_cons_2; [by apply quot_half|exact Hpl].
Qed.

(** The score of a lag at the full rate. *)
Definition fine_score (history : list Z) (lag : Z) : plc (option (Z * Z)) :=
  score_lag (fun offset => idx history (HISTORY_LEN - CORRELATION_LEN + offset))
    (fun offset => idx history (HISTORY_LEN - CORRELATION_LEN - lag + offset)) CORRELATION_LEN.

(** The search returns a period in range, the best within two samples of the coarse
    winner, the shortest of equals. *)
Lemma find_pitch_ok history : pcm_ok history -> len history = HISTORY_LEN ->
  exists p, find_pitch history = Ok p /\ PITCH_MIN <= p <= PITCH_MAX /\
    (p = PITCH_MIN \/ exists low high, PITCH_MIN <= low <= p /\ p <= high <= PITCH_MAX /\ high <= low + 4 /\
      ((exists c e, best_of (fine_score history) low (high + 1) (Some (c, e, p))) \/ forall l, low <= l <= high -> fine_score history l = Ok None)).
Proof.
  intros Hp Hl. change HISTORY_LEN with 390 in Hl. unfold find_pitch.
  destruct (decimate_ok history (Z.to_nat (SEARCH_LEN / DECIMATION)) (HISTORY_LEN - SEARCH_LEN) Hp) as (coarse & -> & Hlc & Hpc); [done|rewrite Hl; vm_compute; discriminate|].
  change (Z.of_nat _) with 140 in Hlc. rewrite bind_Ok, Hlc. cbn zeta.
  change (CORRELATION_LEN / DECIMATION) with 80. change (PITCH_MIN / DECIMATION) with 20. change (Z.to_nat (PITCH_MAX / DECIMATION - 20 + 1)) with 41%nat.
  match goal with |- context [search_lags 41 20 ?f None] => destruct (search_lags_ok f 20 41 20 None) as (best & -> & Hbest) end; [lia| |by intros l Hlr; lia|].
  { intros l Hlr. apply score_lag_ok; [lia|apply (sampled_idx coarse (140 - 80)); (done || lia)|apply (sampled_idx coarse (140 - 80 - l)); (done || lia)]. }
  rewrite bind_Ok. destruct best as [[[bc be] lag]|]; [|exists PITCH_MIN; split; [done|]; split; [done|by left]].
  destruct Hbest as (Hlag & _). change (Z.of_nat 41) with 41 in Hlag. unfold DECIMATION in *. set (centre := lag * 2).
  set (low := Z.max (saturating_sub centre 2) PITCH_MIN). set (high := Z.min (centre + 2) PITCH_MAX). fold (fine_score history).
  assert (40 <= low <= centre /\ centre <= high <= 120 /\ high <= low + 4) as Hr by (unfold low, high, saturating_sub, PITCH_MIN, PITCH_MAX; lia).
  destruct (search_lags_ok (fine_score history) low (Z.to_nat (high - low + 1)) low None) as (best & Hs & Hbest2); [lia| |by intros l Hlr; lia|].
  { intros l Hlr. unfold fine_score. change HISTORY_LEN with 390. change CORRELATION_LEN with 160.
    apply score_lag_ok; [lia|apply (sampled_idx history (390 - 160)); (done || lia)|apply (sampled_idx history (390 - 160 - l)); (done || lia)]. }
  match goal with |- context [search_lags ?a ?b ?f None] =>
    change (search_lags a b f None) with (search_lags (Z.to_nat (high - low + 1)) low (fine_score history) None) end.
  rewrite Hs, bind_Ok. replace (low + Z.of_nat (Z.to_nat (high - low + 1))) with (high + 1) in Hbest2 by lia.
  change PITCH_MIN with 40. change PITCH_MAX with 120. destruct best as [[[c e] l]|].
  - exists l. split; [done|]. pose proof Hbest2 as (Hl2 & _). split; [lia|]. right. exists low, high. split; [lia|]. split; [lia|]. split; [lia|]. left. eauto.
  - eexists. split; [done|]. rewrite (Z.max_l centre 40), (Z.min_l centre 120) by lia. split; [lia|]. right. exists low, high. split; [lia|]. split; [lia|]. split; [lia|].
    right. intros l Hlr. apply Hbest2. lia.
Qed.

(** ** What is heard, as a function of what was received

    The reference: the code words received since the start and, during a loss, how
    many samples it has lasted. *)

Section reference.
Context (table : list Z).

Definition spec_history (heard : bytes) : list Z :=
  let codes := last_n HISTORY_LEN heard in
  replicate (Z.to_nat (HISTORY_LEN - len codes)) 0 ++ map (byte_of table) codes.

Definition spec_pitch (heard : bytes) : Z := match find_pitch (spec_history heard) with Ok p => p | _ => PITCH_MIN end.
Definition voiced (heard : bytes) : bool := SEARCH_LEN <=? len heard.

(** The last pitch period repeated; silence when too little was received. *)
Definition spec_raw (heard : bytes) (i : Z) : Z :=
  if voiced heard then byte_of (spec_history heard) (HISTORY_LEN - spec_pitch heard + i mod spec_pitch heard) else 0.
Definition spec_level (heard : bytes) (i : Z) : Z := attenuate (spec_raw heard i) i.
Definition spec_overlap (heard : bytes) : Z := if voiced heard then spec_pitch heard / 4 else PITCH_MIN / 4.
Definition spec_join (heard : bytes) : Z :=
  if voiced heard then byte_of (spec_history heard) (HISTORY_LEN - 1) - byte_of (spec_history heard) (HISTORY_LEN - spec_pitch heard - 1) else 0.

(** Sample [i] of a loss. *)
Definition substitute (heard : bytes) (i : Z) : Z :=
  clamp (spec_level heard i +
    (if i <? spec_overlap heard then Z.quot (spec_join heard * (spec_overlap heard - i)) (spec_overlap heard) else 0)).

Definition spec_window (heard : bytes) (lost n : Z) : Z :=
  Z.min (Z.min (spec_overlap heard + Z.max 0 (div_ceil lost FRAME - 1) * OVERLAP_INCREMENT) FRAME) n.

Fixpoint cross_fade (heard : bytes) (lost span index : Z) (decoded : list Z) : list Z :=
  match decoded with
  | [] => []
  | sample :: rest =>
      clamp (Z.quot (spec_level heard (lost + index) * (span - (index + 1)) + sample * (index + 1)) span) ::
      cross_fade heard lost span (index + 1) rest
  end.

(** The first frame after a loss of [lost] samples; with none the frame itself. *)
Definition spec_good (heard : bytes) (lost : Z) (decoded : list Z) : list Z :=
  if lost =? 0 then decoded else
  let window := spec_window heard lost (len decoded) in
  cross_fade heard lost (window + 1) 0 (take (Z.to_nat window) decoded) ++ drop (Z.to_nat window) decoded.

(** ** The state of the source and the reference *)

Context (Htable : len table = 256) (Hpcm : pcm_ok table).

Record codes_ok (heard : bytes) (c : Concealer) : Prop := {
  ck_len : len (cn_codes c) = CODES_CAPACITY;
  ck_length : 0 <= cn_length c <= CODES_CAPACITY;
  ck_codes : last_n HISTORY_LEN (take (Z.to_nat (cn_length c)) (cn_codes c)) = last_n HISTORY_LEN heard;
  ck_bytes : bytes_ok heard
}.

(** The substitute is the reference's, from sample [lost] on. *)
Record started (heard : bytes) (lost : Z) (c : Concealer) : Prop := {
  sa_overlap : cn_overlap c = spec_overlap heard;
  sa_join : cn_join_offset c = spec_join heard;
  sa_raw : forall k, 0 <= k -> byte_of (cn_period c) ((cn_position c + k) mod cn_pitch c) = spec_raw heard (lost + k)
}.

Record voice_ok (heard : bytes) (lost : Z) (c : Concealer) : Prop := {
  vk_period : len (cn_period c) = PITCH_MAX;
  vk_pitch : PITCH_MIN <= cn_pitch c <= PITCH_MAX;
  vk_position : 0 <= cn_position c < cn_pitch c;
  vk_erased : cn_erased c = Z.min lost (2 ^ 32 - 1);
  vk_lost : 0 <= lost;
  vk_started : 0 < lost -> started heard lost c
}.

Definition matches (heard : bytes) (lost : Z) (c : Concealer) : Prop := codes_ok heard c /\ voice_ok heard lost c.

Lemma new_matches : matches [] 0 Concealer_new.
Proof.
  split; split; cbn [Concealer_new cn_codes cn_length cn_period cn_pitch cn_position cn_erased]; try done; try lia; try constructor; try done.
Qed.

(** *** The history *)

Lemma codes_ok_bytes heard c : codes_ok heard c -> bytes_ok (last_n HISTORY_LEN heard).
Proof. intros [_ _ _ Hb]. by apply Forall_drop. Qed.

Lemma spec_history_ok heard : bytes_ok heard -> len (spec_history heard) = HISTORY_LEN /\ pcm_ok (spec_history heard).
Proof.
  intros Hb. pose proof (length_last_n HISTORY_LEN heard ltac:(done)) as Hl. unfold spec_history. split.
  - rewrite len_app, len_replicate, len_map. rewrite Hl. pose proof (len_nonneg heard). lia.
  - apply Forall_app. split; [apply Forall_replicate; unfold is_i16; lia|]. apply Forall_map. apply Forall_drop. eapply Forall_impl; [|exact Hb].
    intros x Hx. unfold is_byte in Hx. destruct (@idx_in_range CodecError _ table x) as (y & Hy & Hlk); [lia|]. rewrite idx_byte_of in Hy by lia. injection Hy as Hy. cbn.
    rewrite Hy. unfold pcm_ok in Hpcm. rewrite Forall_lookup in Hpcm. by eapply Hpcm.
Qed.

Lemma spec_pitch_ok heard : bytes_ok heard -> find_pitch (spec_history heard) = Ok (spec_pitch heard) /\ PITCH_MIN <= spec_pitch heard <= PITCH_MAX.
Proof.
  intros Hb. destruct (spec_history_ok heard Hb) as (Hl & Hp). destruct (find_pitch_ok _ Hp Hl) as (p & Hf & Hr & _). unfold spec_pitch. by rewrite Hf.
Qed.

Lemma history_i16 heard i : bytes_ok heard -> 0 <= i < 390 -> is_i16 (byte_of (spec_history heard) i).
Proof.
  intros Hb Hi. destruct (spec_history_ok heard Hb) as (Hl & Hp). change HISTORY_LEN with 390 in Hl.
  destruct (@idx_in_range CodecError _ (spec_history heard) i) as (y & Hy & Hlk); [lia|]. rewrite idx_byte_of in Hy by lia. injection Hy as ->.
  unfold pcm_ok in Hp. rewrite Forall_lookup in Hp. by eapply Hp.
Qed.

Lemma append_codes (codes : list Z) (size : Z) (heard pl : bytes) : len codes = CODES_CAPACITY -> 0 <= size -> size + len pl <= CODES_CAPACITY ->
  last_n HISTORY_LEN (take (Z.to_nat size) codes) = last_n HISTORY_LEN heard ->
  exists codes', @copy_at CodecError _ codes size pl = Ok codes' /\ len codes' = CODES_CAPACITY /\
    last_n HISTORY_LEN (take (Z.to_nat (size + len pl)) codes') = last_n HISTORY_LEN (heard ++ pl).
Proof.
  intros Hc H0 Hfit Hcodes. pose proof (len_nonneg pl). unfold copy_at. rewrite (proj2 (Z.leb_le 0 size)), (proj2 (Z.leb_le (size + len pl) _)) by lia. cbn [andb].
  eexists. split; [reflexivity|]. split; [rewrite !len_app, len_take, len_drop; lia|].
  rewrite app_assoc, take_app_le by (rewrite length_app, length_take; unfold len in *; lia).
  rewrite firstn_all2 by (rewrite length_app, length_take; unfold len in *; lia).
  rewrite <- last_n_cut, Hcodes by done. by apply last_n_cut.
Qed.

Lemma record_ok heard c payload : codes_ok heard c -> bytes_ok payload ->
  exists codes length, record c payload = Ok (set_codes c codes length) /\ codes_ok (heard ++ payload) (set_codes c codes length).
Proof.
  intros [Hl Hlen Hcodes Hb] Hp. unfold record. change (drop (Z.to_nat (saturating_sub (len payload) HISTORY_LEN)) payload) with (drop (Z.to_nat (Z.max 0 (len payload - HISTORY_LEN))) payload).
  assert (drop (Z.to_nat (Z.max 0 (len payload - HISTORY_LEN))) payload = last_n HISTORY_LEN payload) as -> by (unfold last_n; f_equal; change HISTORY_LEN with 390; unfold len; lia).
  pose proof (length_last_n HISTORY_LEN payload ltac:(done)) as Hpl. set (pl := last_n HISTORY_LEN payload) in *. pose proof (len_nonneg payload). change HISTORY_LEN with 390 in Hpl.
  assert (bytes_ok (heard ++ payload)) as Hall by (by apply Forall_app).
  destruct (Z.ltb_spec CODES_CAPACITY (cn_length c + len pl)) as [Hover|Hfit].
  - rewrite usub_Ok, bind_Ok by lia. unfold copy_within. change HISTORY_LEN with 390 in *. unfold CODES_CAPACITY in *.
    rewrite slice_Ok, bind_Ok by lia. rewrite (Z.min_comm 390), sub_last_n by lia. set (kept := last_n 390 _) in *.
    assert (len kept = Z.min (cn_length c) 390) as Hk by (unfold kept; rewrite length_last_n by done; rewrite len_take; lia).
    pose proof (copy_at_first (E:=CodecError) (cn_codes c) kept) as Hcopy. rewrite Hcopy, bind_Ok by lia. unfold mret, res_ret. rewrite bind_Ok. rewrite <- Hk.
    destruct (append_codes (kept ++ drop (length kept) (cn_codes c)) (len kept) heard pl) as (codes & -> & Hc1 & Hc2); unfold CODES_CAPACITY.
    { rewrite len_app, len_drop. unfold len in *. lia. } { apply len_nonneg. } { lia. }
    { rewrite to_nat_len, take_app_length. unfold kept. change HISTORY_LEN with 390. rewrite last_n_twice by done. exact Hcodes. }
    rewrite bind_Ok. eexists _, _. split; [reflexivity|]. split; cbn [set_codes cn_codes cn_length]; [done| | |done].
    + pose proof (len_nonneg kept). unfold CODES_CAPACITY. lia.
    + rewrite Hc2. unfold pl. by apply last_n_last.
  - unfold mret, res_ret. rewrite bind_Ok. destruct (append_codes (cn_codes c) (cn_length c) heard pl) as (codes & -> & Hc1 & Hc2); [done|lia|lia|done|].
    rewrite bind_Ok. eexists _, _. split; [reflexivity|]. split; cbn [set_codes cn_codes cn_length]; [done|lia| |done]. rewrite Hc2. unfold pl. by apply last_n_last.
Qed.

Lemma expand_ok codes : bytes_ok codes -> expand table codes = Ok (map (byte_of table) codes).
Proof.
  induction codes as [|x codes IH]; intros Hb; [done|]. apply bytes_ok_cons in Hb as (Hx & Hb). unfold is_byte in Hx. cbn [expand map].
  rewrite idx_byte_of, bind_Ok, IH, bind_Ok by (done || lia). done.
Qed.

Lemma byte_of_zeros n i : byte_of (replicate n 0) i = 0.
Proof. unfold byte_of. rewrite nth_lookup. destruct (replicate n 0 !! _) as [x|] eqn:Hx; [|done]. by apply lookup_replicate in Hx as (-> & _). Qed.

Lemma byte_of_sub l a b i : 0 <= a <= b -> b <= len l -> 0 <= i < b - a -> byte_of (sub l a b) i = byte_of l (a + i).
Proof.
  intros Ha Hb Hi. pose proof (len_sub l a b Ha Hb) as Hl. pose proof (@idx_sub CodecError _ l a b i) as H. rewrite !idx_byte_of in H by lia.
  assert (Ok (E:=CodecError) (byte_of (sub l a b) i) = Ok (byte_of l (a + i))) as He by (apply H; lia). by injection He.
Qed.

Lemma codes_count heard c : codes_ok heard c -> Z.min (cn_length c) HISTORY_LEN = Z.min HISTORY_LEN (len heard).
Proof.
  intros [Hl Hlen Hcodes _]. pose proof (f_equal len Hcodes) as H. rewrite !length_last_n, len_take in H by done. unfold CODES_CAPACITY in *. lia.
Qed.

Lemma start_erasure_ok heard c : codes_ok heard c -> voice_ok heard 0 c ->
  exists c', start_erasure c table = Ok c' /\ codes_ok heard c' /\ voice_ok heard 0 c' /\ started heard 0 c'.
Proof.
  intros Hc Hv. pose proof Hc as [Hl Hlen Hcodes Hb]. pose proof Hv as [Hper Hpi Hpos He _ _]. pose proof (codes_count heard c Hc) as Hcount. unfold start_erasure.
  assert ((cn_length c <? SEARCH_LEN) = negb (voiced heard)) as ->.
  { unfold voiced. change SEARCH_LEN with 280. change HISTORY_LEN with 390 in *. destruct (Z.ltb_spec (cn_length c) 280), (Z.leb_spec 280 (len heard)); done || lia. }
  destruct (voiced heard) eqn:Hvo; cbn [negb].
  2:{ eexists. split; [reflexivity|]. split; [by split|]. assert (forall i, spec_raw heard i = 0) as Hraw by (intros i; unfold spec_raw; by rewrite Hvo).
      split; [split; cbn [cn_period cn_pitch cn_position cn_erased]; try done; lia|].
      split; cbn [cn_overlap cn_join_offset cn_period cn_position cn_pitch].
      - unfold spec_overlap. by rewrite Hvo.
      - unfold spec_join. by rewrite Hvo.
      - intros k Hk. by rewrite byte_of_zeros, Hraw. }
  rewrite usub_Ok, bind_Ok by lia. unfold CODES_CAPACITY in *. rewrite slice_Ok, bind_Ok by (change HISTORY_LEN with 390; lia).
  rewrite sub_last_n, Hcodes, expand_ok, bind_Ok by (try done; try lia; by apply Forall_drop).
  assert (replicate (Z.to_nat (HISTORY_LEN - Z.min (cn_length c) HISTORY_LEN)) 0 ++ map (byte_of table) (last_n HISTORY_LEN heard) = spec_history heard) as ->
    by (unfold spec_history; rewrite length_last_n, Hcount by done; done).
  destruct (spec_history_ok heard Hb) as (Hhl & Hhp). destruct (spec_pitch_ok heard Hb) as (Hp & Hpr). rewrite Hp, bind_Ok.
  assert (SEARCH_LEN <= len heard) as Hsearch by (by apply Z.leb_le). set (p := spec_pitch heard) in *. unfold PITCH_MIN, PITCH_MAX in *. change HISTORY_LEN with 390 in *.
  rewrite slice_Ok, bind_Ok by lia. rewrite copy_at_first, bind_Ok by (rewrite len_sub, len_replicate by lia; lia).
  rewrite !idx_byte_of, !bind_Ok by lia.
  pose proof (history_i16 heard (390 - 1) Hb ltac:(lia)) as H1. pose proof (history_i16 heard (390 - p - 1) Hb ltac:(lia)) as H2. unfold is_i16 in H1, H2.
  rewrite (chk_Ok I32), bind_Ok by (change I32 with 2147483648; lia).
  eexists. split; [reflexivity|]. split; [by split|]. pose proof (len_sub (spec_history heard) (390 - p) 390 ltac:(lia) ltac:(lia)) as Hls. split.
  - split; cbn [cn_period cn_pitch cn_position cn_erased]; try done; try lia.
    rewrite len_app, len_drop, len_replicate. unfold PITCH_MAX, len in *. lia.
  - split; cbn [cn_overlap cn_join_offset cn_period cn_position cn_pitch].
    + unfold spec_overlap. by rewrite Hvo.
    + unfold spec_join. by rewrite Hvo.
    + intros k Hk. unfold spec_raw. rewrite Hvo. fold p. rewrite !Z.add_0_l. pose proof (Z.mod_pos_bound k p ltac:(lia)) as Hm.
      rewrite byte_of_app_l by lia. rewrite byte_of_sub by lia. done.
Qed.

(** *** Samples *)

Lemma spec_raw_i16 heard i : bytes_ok heard -> is_i16 (spec_raw heard i).
Proof.
  intros Hb. unfold spec_raw. destruct (voiced heard); [|unfold is_i16; lia]. destruct (spec_history_ok heard Hb) as (Hl & Hp). destruct (spec_pitch_ok heard Hb) as (_ & Hr).
  unfold PITCH_MIN, PITCH_MAX in Hr. pose proof (Z.mod_pos_bound i (spec_pitch heard) ltac:(lia)). change HISTORY_LEN with 390 in *.
  apply history_i16; [done|lia].
Qed.

Lemma to_signed_small x : is_i16 x -> to_signed 16 (wrap 16 x) = x.
Proof.
  unfold is_i16, to_signed, wrap. intros Hx. change (2 ^ 16) with 65536. change (2 ^ (16 - 1)) with 32768.
  destruct (Z.le_gt_cases 0 x) as [H0|H0].
  - rewrite (Z.mod_small x 65536) by lia. by rewrite (proj2 (Z.ltb_lt x 32768)) by lia.
  - assert (x mod 65536 = x + 65536) as -> by (symmetry; apply (Z.mod_unique x 65536 (-1)); lia).
    rewrite (proj2 (Z.ltb_ge (x + 65536) 32768)) by lia. lia.
Qed.

Lemma quot_shrinks x r f : 0 < f -> 0 <= r <= f -> Z.abs (Z.quot (x * r) f) <= Z.abs x.
Proof.
  intros Hf Hr. rewrite <- Z.quot_abs by lia. rewrite Z.abs_mul, (Z.abs_eq r), (Z.abs_eq f) by lia. rewrite Z.quot_div_nonneg by nia.
  apply Z.div_le_upper_bound; nia.
Qed.

(** The fade never raises a sample, and silences it after 60 ms. *)
Lemma attenuate_bound x i : is_i16 x -> 0 <= i -> is_i16 (attenuate x i) /\ Z.abs (attenuate x i) <= Z.abs x /\ (480 <= i -> attenuate x i = 0).
Proof.
  intros Hx Hi. unfold attenuate. change FULL_LEVEL_SAMPLES with 80. change MUTE_SAMPLES with 480. change FADE_SAMPLES with 400.
  destruct (Z.ltb_spec i 80); [split; [done|]; split; [lia|lia]|]. destruct (Z.leb_spec 480 i); [split; [unfold is_i16; lia|]; split; [lia|done]|].
  pose proof (quot_shrinks x (480 - i) 400 ltac:(lia) ltac:(lia)) as Hq.
  assert (is_i16 (Z.quot (x * (480 - i)) 400)) as Hqi.
  { unfold is_i16 in *. destruct (Z.eq_dec (Z.quot (x * (480 - i)) 400) 32768) as [He|]; [|lia]. assert (x = -32768) by lia. subst x.
    pose proof (Z.quot_pos 32768 400). pose proof (Z.quot_opp_l (32768 * (480 - i)) 400 ltac:(lia)) as Ho.
    replace (- (32768 * (480 - i))) with (-32768 * (480 - i)) in Ho by lia. pose proof (Z.quot_pos (32768 * (480 - i)) 400 ltac:(nia) ltac:(lia)). lia. }
  rewrite to_signed_small by done. split; [done|]. split; [done|]. intros; lia.
Qed.

Lemma attenuate_saturated x lost : 0 <= lost -> attenuate x (Z.min lost (2 ^ 32 - 1)) = attenuate x lost.
Proof.
  intros Hl. change (2 ^ 32 - 1) with 4294967295. destruct (Z.le_gt_cases lost 4294967295); [by rewrite Z.min_l|]. rewrite Z.min_r by lia.
  unfold attenuate. change FULL_LEVEL_SAMPLES with 80. change MUTE_SAMPLES with 480. by rewrite !(proj2 (Z.ltb_ge _ 80)), !(proj2 (Z.leb_le 480 _)) by lia.
Qed.

Definition ring_ok (c : Concealer) : Prop :=
  len (cn_period c) = PITCH_MAX /\ PITCH_MIN <= cn_pitch c <= PITCH_MAX /\ 0 <= cn_position c < cn_pitch c.

Lemma voice_ring heard lost c : voice_ok heard lost c -> ring_ok c.
Proof. by intros [? ? ? _ _ _]. Qed.

Lemma raw_sample_ok heard lost c : ring_ok c -> started heard lost c ->
  exists position, raw_sample c = Ok (spec_raw heard lost, set_position c position) /\ 0 <= position < cn_pitch c /\
    (forall k, 0 <= k -> byte_of (cn_period c) ((position + k) mod cn_pitch c) = spec_raw heard (lost + 1 + k)).
Proof.
  intros (Hper & Hpi & Hpos) [_ _ Hraw]. unfold raw_sample, PITCH_MIN, PITCH_MAX in *. rewrite idx_byte_of, bind_Ok by lia.
  pose proof (Hraw 0 ltac:(lia)) as H0. rewrite !Z.add_0_r, Z.mod_small in H0 by lia. rewrite H0.
  exists (if cn_position c + 1 =? cn_pitch c then 0 else cn_position c + 1). split; [done|]. split; [destruct (Z.eqb_spec (cn_position c + 1) (cn_pitch c)); lia|].
  intros k Hk. replace (lost + 1 + k) with (lost + (1 + k)) by lia. rewrite <- Hraw by lia. f_equal.
  destruct (Z.eqb_spec (cn_position c + 1) (cn_pitch c)) as [Heq|]; [|f_equal; lia]. rewrite <- Heq.
  replace (cn_position c + (1 + k)) with (k + 1 * (cn_position c + 1)) by lia. by rewrite Z.mod_add by lia.
Qed.

Lemma spec_bounds heard : bytes_ok heard -> 0 < spec_overlap heard <= 30 /\ Z.abs (spec_join heard) <= 65535.
Proof.
  intros Hb. destruct (spec_pitch_ok heard Hb) as (_ & Hr). unfold spec_overlap, spec_join, PITCH_MIN, PITCH_MAX in *. destruct (voiced heard); [|split; [done|lia]].
  destruct (spec_history_ok heard Hb) as (Hl & Hp). change HISTORY_LEN with 390 in *. split; [pose proof (Z.div_le_mono 40 (spec_pitch heard) 4); pose proof (Z.div_le_mono (spec_pitch heard) 120 4); change (40 / 4) with 10 in *; change (120 / 4) with 30 in *; lia|].
  pose proof (history_i16 heard (390 - 1) Hb ltac:(lia)) as H1. pose proof (history_i16 heard (390 - spec_pitch heard - 1) Hb ltac:(lia)) as H2. unfold is_i16 in *. lia.
Qed.

Lemma next_sample_ok heard lost c : bytes_ok heard -> voice_ok heard lost c -> started heard lost c ->
  exists position, next_sample c = Ok (substitute heard lost, set_position c position) /\
    let c' := set_erased (set_position c position) (saturating_add 32 (cn_erased c) 1) in voice_ok heard (lost + 1) c' /\ started heard (lost + 1) c'.
Proof.
  intros Hb Hv Hs. destruct (raw_sample_ok heard lost c (voice_ring _ _ _ Hv) Hs) as (position & Hr & Hp & Hraw). pose proof Hv as [Hper Hpi Hpos He Hl _]. pose proof Hs as [Hov Hj _].
  exists position. unfold next_sample. rewrite Hr, bind_Ok. cbn [set_position cn_erased cn_overlap cn_join_offset]. rewrite He, attenuate_saturated, Hov, Hj by done.
  destruct (spec_bounds heard Hb) as (Ho & Hjb). pose proof (attenuate_bound (spec_raw heard lost) lost (spec_raw_i16 heard lost Hb) Hl) as (Hi16 & _). fold (spec_level heard lost) in *.
  assert ((Z.min lost (2 ^ 32 - 1) <? spec_overlap heard) = (lost <? spec_overlap heard)) as ->.
  { change (2 ^ 32 - 1) with 4294967295. destruct (Z.ltb_spec (Z.min lost 4294967295) (spec_overlap heard)), (Z.ltb_spec lost (spec_overlap heard)); done || lia. }
  split.
  - unfold substitute. destruct (Z.ltb_spec lost (spec_overlap heard)) as [Hlt|Hge]; [|by rewrite Z.add_0_r].
    change (2 ^ 32 - 1) with 4294967295. rewrite (Z.min_l lost) by lia.
    assert (Z.abs (spec_join heard * (spec_overlap heard - lost)) <= 65535 * 30) as Hprod by (rewrite Z.abs_mul; apply Z.mul_le_mono_nonneg; lia).
    pose proof (quot_shrinks (spec_join heard) (spec_overlap heard - lost) (spec_overlap heard) ltac:(lia) ltac:(lia)). unfold is_i16 in Hi16.
    rewrite (chk_Ok I32), bind_Ok by (change I32 with 2147483648; lia). rewrite (chk_Ok I32), bind_Ok by (change I32 with 2147483648; lia). done.
  - split; [split|]; cbn [set_erased set_position cn_period cn_pitch cn_position cn_erased]; try done; try lia.
    unfold saturating_add. lia.
Qed.

Lemma conceal_loop_ok heard n : forall lost c, bytes_ok heard -> voice_ok heard lost c -> started heard lost c ->
  exists c', conceal_loop n c = Ok (map (fun k => substitute heard (lost + Z.of_nat k)) (seq 0 n), c') /\
    cn_codes c' = cn_codes c /\ cn_length c' = cn_length c /\ voice_ok heard (lost + Z.of_nat n) c'.
Proof.
  induction n as [|n IH]; intros lost c Hb Hv Hs; cbn [conceal_loop].
  - exists c. rewrite Z.add_0_r. done.
  - destruct (next_sample_ok heard lost c Hb Hv Hs) as (position & -> & Hv' & Hs'). rewrite bind_Ok. cbn [set_position cn_erased] in *.
    destruct (IH (lost + 1) _ Hb Hv' Hs') as (c' & Hrun & H1 & H2 & H3). rewrite Hrun, bind_Ok. exists c'. split.
    + unfold mret, res_ret. do 2 f_equal. cbn [seq map]. f_equal; [f_equal; lia|]. rewrite <- seq_shift, map_map. apply map_ext. intros k. f_equal. lia.
    + split; [done|]. split; [done|]. by replace (lost + Z.of_nat (S n)) with (lost + 1 + Z.of_nat n) by lia.
Qed.

Lemma conceal_ok heard lost c out : matches heard lost c ->
  exists c', conceal c table out = Ok (map (fun k => substitute heard (lost + Z.of_nat k)) (seq 0 (length out)), c') /\ matches heard (lost + len out) c'.
Proof.
  intros (Hc & Hv). pose proof (ck_bytes _ _ Hc) as Hb. unfold conceal.
  assert (exists c1, (if cn_erased c =? 0 then start_erasure c table else mret c) = Ok c1 /\ codes_ok heard c1 /\ voice_ok heard lost c1 /\ started heard lost c1) as (c1 & -> & Hc1 & Hv1 & Hs1).
  { pose proof (vk_erased _ _ _ Hv) as He. pose proof (vk_lost _ _ _ Hv) as Hl. change (2 ^ 32 - 1) with 4294967295 in He.
    destruct (Z.eqb_spec (cn_erased c) 0) as [H0|H0]; [|exists c; split; [done|]; split; [done|]; split; [done|]; apply Hv; lia].
    assert (lost = 0) as -> by lia. by apply start_erasure_ok. }
  rewrite bind_Ok. destruct (conceal_loop_ok heard (length out) lost c1 Hb Hv1 Hs1) as (c' & -> & H1 & H2 & H3). exists c'. split; [done|]. split; [|done].
  destruct Hc1 as [Ha Hl Hcodes Hby]. split; rewrite ?H1, ?H2; done.
Qed.

Lemma fade_loop_ok heard decoded : forall lost c index span, bytes_ok heard -> pcm_ok decoded -> 0 <= lost -> 0 <= index -> index + len decoded < span -> span <= 81 ->
  ring_ok c -> started heard (lost + index) c ->
  exists position, fade_loop c decoded index span (Z.min (lost + index) (2 ^ 32 - 1)) = Ok (cross_fade heard lost span index decoded, set_position c position) /\
    0 <= position < cn_pitch c.
Proof.
  induction decoded as [|x rest IH]; intros lost c index span Hb Hp Hl Hi Hspan H81 Hring Hs; cbn [fade_loop cross_fade].
  - exists (cn_position c). split; [by destruct c|apply Hring].
  - rewrite len_cons in Hspan. pose proof (len_nonneg rest). destruct (raw_sample_ok heard (lost + index) c Hring Hs) as (position & -> & Hpos & Hraw). rewrite bind_Ok.
    rewrite attenuate_saturated by lia. fold (spec_level heard (lost + index)).
    destruct (attenuate_bound (spec_raw heard (lost + index)) (lost + index) (spec_raw_i16 heard _ Hb) ltac:(lia)) as (Hi16 & _). fold (spec_level heard (lost + index)) in Hi16.
    inversion Hp as [|? ? Hx Hp']; subst. unfold is_i16 in Hi16, Hx. change (2 ^ 32 - 1) with 4294967295 in *.
    assert (Z.abs (spec_level heard (lost + index) * (span - (index + 1))) <= 32768 * 81) as H1 by (rewrite Z.abs_mul; apply Z.mul_le_mono_nonneg; lia).
    assert (Z.abs (x * (index + 1)) <= 32768 * 81) as H2 by (rewrite Z.abs_mul; apply Z.mul_le_mono_nonneg; lia).
    assert (I32 = 2147483648) as H31 by done.
    rewrite (chk_Ok I32 (spec_level _ _ * _)), bind_Ok by (rewrite H31; lia). rewrite (chk_Ok I32 (x * _)), bind_Ok by (rewrite H31; lia). rewrite (chk_Ok I32), bind_Ok by (rewrite H31; lia).
    assert (saturating_add 32 (Z.min (lost + index) 4294967295) 1 = Z.min (lost + (index + 1)) 4294967295) as ->
      by (unfold saturating_add; change (2 ^ 32 - 1) with 4294967295; lia).
    destruct Hring as (Hper & Hpi & _). destruct Hs as [Hov Hj _].
    destruct (IH lost (set_position c position) (index + 1) span Hb Hp' Hl ltac:(lia) ltac:(lia) H81) as (q & -> & Hq); [done| |].
    { split; [done|done|]. intros k Hk. replace (lost + (index + 1) + k) with (lost + index + 1 + k) by lia. by apply Hraw. }
    exists q. by rewrite bind_Ok.
Qed.

Lemma window_saturated heard lost n : bytes_ok heard -> 0 <= lost ->
  Z.min (Z.min (spec_overlap heard + saturating_sub (div_ceil (Z.min lost (2 ^ 32 - 1)) FRAME) 1 * OVERLAP_INCREMENT) FRAME) n = spec_window heard lost n.
Proof.
  intros Hb Hl. destruct (spec_bounds heard Hb) as (Ho & _). unfold spec_window, saturating_sub. change (2 ^ 32 - 1) with 4294967295.
  destruct (Z.le_gt_cases lost 4294967295) as [Hle|Hgt]; [by rewrite (Z.min_l lost)|]. rewrite (Z.min_r lost) by lia. unfold FRAME, OVERLAP_INCREMENT.
  assert (div_ceil 4294967295 80 <= div_ceil lost 80) as Hm by (unfold div_ceil; apply Z.div_le_mono; lia). change (div_ceil 4294967295 80) with 53687092 in *. lia.
Qed.

Lemma good_frame_ok heard lost c payload decoded : matches heard lost c -> bytes_ok payload -> pcm_ok decoded ->
  exists c', good_frame c payload decoded = Ok (spec_good heard lost decoded, c') /\ matches (heard ++ payload) 0 c'.
Proof.
  intros (Hc & Hv) Hp Hd. pose proof (ck_bytes _ _ Hc) as Hb. pose proof (vk_erased _ _ _ Hv) as He. pose proof (vk_lost _ _ _ Hv) as Hl. change (2 ^ 32 - 1) with 4294967295 in He.
  assert (exists c1, (if 0 <? cn_erased c then '(decoded, c) ← fade_into c decoded; mret (decoded, set_erased c 0) else mret (decoded, c)) = Ok (spec_good heard lost decoded, c1) /\
    codes_ok heard c1 /\ ring_ok c1 /\ cn_erased c1 = 0) as (c1 & Hc1 & Hk1 & Hr1 & He1).
  { unfold spec_good. destruct (Z.ltb_spec 0 (cn_erased c)) as [Hpos|Hzero].
    - rewrite (proj2 (Z.eqb_neq lost 0)) by lia. pose proof (vk_started _ _ _ Hv ltac:(lia)) as Hs. unfold fade_into. rewrite (sa_overlap _ _ _ Hs), (vk_erased _ _ _ Hv), window_saturated by done.
      set (w := spec_window heard lost (len decoded)). destruct (spec_bounds heard Hb) as (Ho & _).
      assert (0 <= w <= len decoded /\ w <= 80) as Hw by (unfold w, spec_window, FRAME, OVERLAP_INCREMENT; pose proof (len_nonneg decoded); lia).
      rewrite slice_Ok, bind_Ok by lia. unfold sub. rewrite drop_0, Z.sub_0_r.
      destruct (fade_loop_ok heard (take (Z.to_nat w) decoded) lost c 0 (w + 1) Hb) as (q & Hf & Hq); [by apply Forall_take|done|lia|rewrite len_take; lia|lia|by eapply voice_ring|by rewrite Z.add_0_r|].
      rewrite Z.add_0_r in Hf. rewrite Hf, bind_Ok. unfold mret, res_ret. rewrite bind_Ok. eexists. split; [reflexivity|]. split; [by destruct Hc; split|].
      destruct (voice_ring _ _ _ Hv) as (H1 & H2 & _). done.
    - assert (lost = 0) as -> by lia. exists c. split; [done|]. split; [done|]. split; [by eapply voice_ring|lia]. }
  unfold good_frame. rewrite Hc1, bind_Ok. destruct (record_ok heard c1 payload Hk1 Hp) as (codes & size & -> & Hk2). rewrite bind_Ok.
  eexists. split; [reflexivity|]. split; [done|]. destruct Hr1 as (H1 & H2 & H3). split; try done; try lia.
Qed.
End reference.

(** ** An odd period

    Pulses 41 samples apart. *)
Definition pulses : list Z := map (fun i => let j := Z.of_nat i mod 41 in if j <? 20 then 400 * (10 - Z.abs (j - 10)) else 0) (seq 0 390).

(** The coarse search sees only even lags, and prefers the exact match at twice an odd
    period to the near misses beside it: a signal that repeats every 41 samples is
    reported as repeating every 82. *)
Lemma odd_period_doubled : (forall i, 0 <= i < 349 -> byte_of pulses i = byte_of pulses (i + 41)) /\ find_pitch pulses = Ok 82.
Proof.
  split; [|vm_compute; reflexivity]. intros i Hi.
  apply Z.eqb_eq, (below_forall (fun i => byte_of pulses i =? byte_of pulses (i + 41)) 349 i); [vm_compute; reflexivity|done].
Qed.
