(* ===== verification/G711.v ===== *)
(** * G.711: crates/siphon-rtp-codec/src/g711.rs

    The µ-law and A-law companding of one sample, and the codec: a decoder that
    expands through a table and, when asked to, conceals what is lost, and an
    encoder. *)

From stdpp Require Import base list numbers option.
From Stdlib Require Import Lia ZArith.
From S2P Require Import Prelude Codec Concealment.

Open Scope Z_scope.

Definition BIAS : Z := 0x84.
Definition ULAW_CLIP : Z := 8159.
Definition SEG_UEND : list Z := [0x3F; 0x7F; 0xFF; 0x1FF; 0x3FF; 0x7FF; 0xFFF; 0x1FFF].
Definition SEG_AEND : list Z := [0x1F; 0x3F; 0x7F; 0xFF; 0x1FF; 0x3FF; 0x7FF; 0xFFF].

Definition ulaw_to_linear (u_val : Z) : Z :=
  let u := Z.lxor u_val 0xFF in
  let t := Z.shiftl (Z.land u 0x0F) 3 + BIAS in
  let t := Z.shiftl t (Z.shiftr (Z.land u 0x70) 4) in
  if negb (Z.land u 0x80 =? 0) then as_i16 (BIAS - t) else as_i16 (t - BIAS).

Definition alaw_to_linear (a_val : Z) : Z :=
  let a := Z.lxor a_val 0x55 in
  let t := Z.shiftl (Z.land a 0x0F) 4 in
  let seg := Z.shiftr (Z.land a 0x70) 4 in
  let t := if seg =? 0 then t + 8 else if seg =? 1 then t + 0x108 else Z.shiftl (t + 0x108) (seg - 1) in
  if negb (Z.land a 0x80 =? 0) then as_i16 t else as_i16 (- t).

(** The index of the first entry not below the value, the table's length when there
    is none. *)
Fixpoint search (val : Z) (table : list Z) : Z :=
  match table with
  | [] => 0
  | entry :: rest => if val <=? entry then 0 else 1 + search val rest
  end.

Definition linear_to_ulaw (pcm : Z) : Z :=
  let pcm_val := Z.shiftr pcm 2 in
  let '(pcm_val, mask) := if pcm_val <? 0 then (- pcm_val, 0x7F) else (pcm_val, 0xFF) in
  let pcm_val := if ULAW_CLIP <? pcm_val then ULAW_CLIP else pcm_val in
  let pcm_val := pcm_val + Z.shiftr BIAS 2 in
  let seg := search pcm_val SEG_UEND in
  if 8 <=? seg then wrap 8 (Z.lxor 0x7F mask)
  else
    let uval := Z.lor (Z.shiftl seg 4) (Z.land (Z.shiftr pcm_val (seg + 1)) 0x0F) in
    wrap 8 (Z.lxor uval mask).

Definition linear_to_alaw (pcm : Z) : Z :=
  let pcm_val := Z.shiftr pcm 3 in
  let '(pcm_val, mask) :=
    if 0 <=? pcm_val then (pcm_val, 0xD5)
    else
      let pcm_val := - pcm_val - 1 in
      (if pcm_val <? 0 then 0 else pcm_val, 0x55) in
  let seg := search pcm_val SEG_AEND in
  if 8 <=? seg then wrap 8 (Z.lxor 0x7F mask)
  else
    let aval := Z.shiftl seg 4 in
    let aval := Z.lor aval (if seg <? 2 then Z.land (Z.shiftr pcm_val 1) 0x0F else Z.land (Z.shiftr pcm_val seg) 0x0F) in
    wrap 8 (Z.lxor aval mask).

Definition build_decode_table (alaw : bool) : list Z :=
  map (fun i => if alaw then alaw_to_linear (Z.of_nat i) else ulaw_to_linear (Z.of_nat i)) (seq 0 256).

Definition ULAW_DECODE : list Z := build_decode_table false.
Definition ALAW_DECODE : list Z := build_decode_table true.

Inductive Variant : Type := Ulaw | Alaw.

Definition decode_table (v : Variant) : list Z := match v with Ulaw => ULAW_DECODE | Alaw => ALAW_DECODE end.
Definition encode_sample (v : Variant) (pcm : Z) : Z := match v with Ulaw => linear_to_ulaw pcm | Alaw => linear_to_alaw pcm end.

Record G711 : Type := mkG711 { g7_variant : Variant; g7_params : CodecParams; g7_plc : option Concealer }.

Definition G711_new (variant : Variant) (ptime_ms : Z) : G711 := mkG711 variant (mkCodecParams 8000 1 ptime_ms) None.
Definition with_concealment (g : G711) : G711 := mkG711 (g7_variant g) (g7_params g) (Some Concealer_new).
Definition G711_ulaw : G711 := G711_new Ulaw 20.
Definition G711_alaw : G711 := G711_new Alaw 20.

Definition set_plc (g : G711) (plc : option Concealer) : G711 := mkG711 (g7_variant g) (g7_params g) plc.

(** The samples decoded, the output buffer and the codec; an error leaves the codec
    and the buffer alone. *)
Definition G711_decode (g : G711) (payload : bytes) (out : list Z) : plc (Z * list Z * G711) :=
  if len out <? len payload then Err (OutputTooSmall (len payload) (len out)) else
  decoded ← expand (decode_table (g7_variant g)) payload;
  let rest := drop (length payload) out in
  match g7_plc g with
  | Some concealer =>
      '(decoded, concealer) ← good_frame concealer payload decoded;
      mret (len payload, decoded ++ rest, set_plc g (Some concealer))
  | None => mret (len payload, decoded ++ rest, g)
  end.

Definition G711_conceal (g : G711) (out : list Z) : plc (Z * list Z * G711) :=
  let count := Z.min (frame_samples (g7_params g)) (len out) in
  let rest := drop (Z.to_nat count) out in
  match g7_plc g with
  | Some concealer =>
      '(samples, concealer) ← conceal concealer (decode_table (g7_variant g)) (take (Z.to_nat count) out);
      mret (count, samples ++ rest, set_plc g (Some concealer))
  | None => mret (count, replicate (Z.to_nat count) 0 ++ rest, g)
  end.

Definition G711_encode (g : G711) (pcm : list Z) (out : bytes) : plc (Z * bytes) :=
  if len out <? len pcm then Err (OutputTooSmall (len pcm) (len out))
  else mret (len pcm, map (encode_sample (g7_variant g)) pcm ++ drop (length pcm) out).

(** * Proofs *)

(** ** Companding *)

(** The error each law allows: a 19th of the magnitude plus 132 for the µ-law, two
    33rds of it for the A-law. *)
Definition error_ok (v : Variant) (x y : Z) : bool :=
  match v with
  | Ulaw => 19 * Z.abs (y - x) <=? Z.abs x + 132
  | Alaw => 33 * Z.abs (y - x) <=? 2 * (Z.abs x + 132)
  end.

Definition companded (v : Variant) (x : Z) : Z := byte_of (decode_table v) (encode_sample v x).

(** An encoder drops the lowest bits first: one check covers the samples that differ
    in them only. *)
Definition low_bits (v : Variant) : Z := match v with Ulaw => 2 | Alaw => 3 end.
Definition cells (v : Variant) : Z := 2 ^ (16 - low_bits v).

Definition cell_check (tbl : list Z) (v : Variant) (j : Z) : bool :=
  let size := 2 ^ low_bits v in
  let x := j * size - 32768 in
  let c := encode_sample v x in
  let y := byte_of tbl c in
  (0 <=? c) && (c <? 256) && all_from (Z.to_nat size) 0 (fun k => error_ok v (x + k) y) &&
  ((j =? cells v - 1) || (y <=? byte_of tbl (encode_sample v (x + size)))).

Lemma cells_checked v : let tbl := decode_table v in all_from (Z.to_nat (cells v)) 0 (cell_check tbl v) = true.
Proof. destruct v; vm_compute; reflexivity. Qed.

Lemma code_check v : forallb (fun c => (encode_sample v (byte_of (decode_table v) c) =? c) || (match v with Ulaw => c =? 0x7F | Alaw => false end)) (seqZ 0 256) = true.
Proof. destruct v; vm_compute; reflexivity. Qed.

Lemma encode_cell v x : encode_sample v x = encode_sample v (x / 2 ^ low_bits v * 2 ^ low_bits v).
Proof.
  assert (forall k, 0 < k -> Z.shiftr (x / 2 ^ k * 2 ^ k) k = Z.shiftr x k) as H
    by (intros k Hk; rewrite !Z.shiftr_div_pow2 by lia; rewrite Z.div_mul by lia; done).
  destruct v; unfold encode_sample, low_bits; [unfold linear_to_ulaw|unfold linear_to_alaw]; by rewrite H by lia.
Qed.

(** The cell of a sample and where in it the sample lies. *)
Lemma sample_cell v x : is_i16 x -> exists j k, x = j * 2 ^ low_bits v - 32768 + k /\ 0 <= j < cells v /\ 0 <= k < 2 ^ low_bits v /\
  encode_sample v x = encode_sample v (j * 2 ^ low_bits v - 32768).
Proof.
  unfold is_i16. intros Hx. pose proof (encode_cell v x) as He.
  assert (exists size half, 2 ^ low_bits v = size /\ cells v = 2 * half /\ (size = 4 /\ half = 8192 \/ size = 8 /\ half = 4096)) as (size & half & Hs & Hc & Hsc)
    by (destruct v; [exists 4, 8192|exists 8, 4096]; repeat split; (reflexivity || lia)).
  rewrite Hs, Hc in *. exists (x / size + half), (x mod size). pose proof (Z.mod_pos_bound x size ltac:(lia)). pose proof (Z.div_mod x size ltac:(lia)).
  assert ((x / size + half) * size - 32768 = x / size * size) as Hj by (destruct Hsc as [(-> & ->)|(-> & ->)]; lia).
  rewrite Hj. split; [lia|]. split; [|done]. destruct Hsc as [(-> & ->)|(-> & ->)]; lia.
Qed.

Lemma cell_facts v j : 0 <= j < cells v -> let x := j * 2 ^ low_bits v - 32768 in
  is_byte (encode_sample v x) /\ (forall k, 0 <= k < 2 ^ low_bits v -> error_ok v (x + k) (companded v x) = true) /\
  (j < cells v - 1 -> companded v x <= companded v (x + 2 ^ low_bits v)).
Proof.
  intros Hj x. pose proof (below_forall (cell_check (decode_table v) v) (cells v) j (cells_checked v) Hj) as H. unfold cell_check in H. fold x in H.
  apply andb_true_iff in H as (H & Hmono). apply andb_true_iff in H as (H & Herr). apply andb_true_iff in H as (Hlo & Hhi). apply Z.leb_le in Hlo. apply Z.ltb_lt in Hhi.
  split; [done|]. split; [intros k Hk; apply (below_forall (fun k => error_ok v (x + k) (companded v x)) _ k Herr Hk)|].
  intros Hlast. apply orb_true_iff in Hmono as [He|He]; [apply Z.eqb_eq in He; lia|]. by apply Z.leb_le in He.
Qed.

Lemma companded_cells v j n : 0 <= j -> j + Z.of_nat n < cells v ->
  companded v (j * 2 ^ low_bits v - 32768) <= companded v ((j + Z.of_nat n) * 2 ^ low_bits v - 32768).
Proof.
  intros Hj. induction n as [|n IH]; intros Hn; [by rewrite Z.add_0_r|]. specialize (IH ltac:(lia)).
  destruct (cell_facts v (j + Z.of_nat n) ltac:(lia)) as (_ & _ & Hm). specialize (Hm ltac:(lia)).
  replace ((j + Z.of_nat (S n)) * 2 ^ low_bits v - 32768) with ((j + Z.of_nat n) * 2 ^ low_bits v - 32768 + 2 ^ low_bits v) by lia. lia.
Qed.

(** C30. G.711 companding, for both laws and every one of the 65536 samples and 256
    code words: a sample is coded in one octet; decoding it again is off by at most
    a 19th (µ-law) or two 33rds (A-law) of its magnitude and 132 together; decoding preserves
    the order of samples; and encoding a decoded code word gives the code word back,
    except that the µ-law's negative zero 0x7F comes back as 0xFF. *)
Theorem g711_companding v :
  (forall x, is_i16 x -> is_byte (encode_sample v x) /\ error_ok v x (companded v x) = true) /\
  (forall x y, is_i16 x -> is_i16 y -> x <= y -> companded v x <= companded v y) /\
  (forall c, is_byte c -> encode_sample v (byte_of (decode_table v) c) = c \/
    v = Ulaw /\ c = 0x7F /\ encode_sample v (byte_of (decode_table v) c) = 0xFF).
Proof.
  split; [|split].
  - intros x Hx. destruct (sample_cell v x Hx) as (j & k & Hxe & Hj & Hk & He). destruct (cell_facts v j Hj) as (Hb & Herr & _).
    unfold companded. rewrite He. split; [done|]. rewrite Hxe. by apply Herr.
  - intros x y Hx Hy Hle. destruct (sample_cell v x Hx) as (j & k & Hxe & Hj & Hk & He). destruct (sample_cell v y Hy) as (j' & k' & Hye & Hj' & Hk' & He').
    unfold companded. rewrite He, He'. assert (j <= j') as Hjj by nia.
    pose proof (companded_cells v j (Z.to_nat (j' - j)) ltac:(lia) ltac:(lia)) as H. by replace (j + Z.of_nat (Z.to_nat (j' - j))) with j' in H by lia.
  - intros c Hc. pose proof (byte_forall _ c (code_check v) Hc) as H. cbn beta in H. apply orb_true_iff in H as [H|H]; [left; by apply Z.eqb_eq|].
    destruct v; [|done]. apply Z.eqb_eq in H as ->. right. split; [done|]. split; [done|]. vm_compute. reflexivity.
Qed.

(** The law at its quietest, its loudest and in between. *)
Lemma g711_companding_witness :
  companded Ulaw (-32768) = -32124 /\ companded Alaw 1000 = 1008 /\
  error_ok Ulaw (-32768) (companded Ulaw (-32768)) = true /\ companded Alaw 1000 <= companded Alaw 32767.
Proof.
  destruct (g711_companding Ulaw) as (Hu & _). destruct (g711_companding Alaw) as (_ & Ha & _).
  split; [vm_compute; reflexivity|]. split; [vm_compute; reflexivity|]. split; [apply (Hu (-32768)); unfold is_i16; lia|].
  apply Ha; unfold is_i16; lia.
Defined.

(** ** Streams with losses *)

Lemma decode_table_ok v : len (decode_table v) = 256 /\ pcm_ok (decode_table v).
Proof.
  split; [by destruct v|]. apply List.Forall_forall.
  assert (forallb (fun x => (-32768 <=? x) && (x <=? 32767)) (decode_table v) = true) as H by (destruct v; vm_compute; reflexivity).
  intros x Hx. rewrite forallb_forall in H. apply H in Hx. unfold is_i16. lia.
Qed.

(** A frame that arrives, with the buffer it is decoded into, or one that is missing,
    with the buffer to fill. *)
Inductive frame : Type := Arrives (payload : bytes) (out : list Z) | Missing (out : list Z).

Fixpoint g711_run (g : G711) (frames : list frame) : plc (list (list Z) * G711) :=
  match frames with
  | [] => mret ([], g)
  | f :: frames =>
      '(_, out, g) ← (match f with Arrives payload out => G711_decode g payload out | Missing out => G711_conceal g out end);
      '(outs, g) ← g711_run g frames;
      mret (out :: outs, g)
  end.

(** What the reference plays. *)
Fixpoint g711_play (v : Variant) (samples : Z) (heard : bytes) (lost : Z) (frames : list frame) : list (list Z) :=
  let table := decode_table v in
  match frames with
  | [] => []
  | Arrives payload out :: frames =>
      (spec_good table heard lost (map (byte_of table) payload) ++ drop (length payload) out) :: g711_play v samples (heard ++ payload) 0 frames
  | Missing out :: frames =>
      let n := Z.to_nat (Z.min samples (len out)) in
      (map (fun k => substitute table heard (lost + Z.of_nat k)) (seq 0 n) ++ drop n out) :: g711_play v samples heard (lost + Z.of_nat n) frames
  end.

Definition frame_ok (f : frame) : Prop :=
  match f with Arrives payload out => bytes_ok payload /\ len payload <= len out | Missing _ => True end.

Lemma run_plays v ptime frames : forall heard lost c, 0 <= ptime -> Forall frame_ok frames -> matches (decode_table v) heard lost c ->
  exists c', g711_run (mkG711 v (mkCodecParams 8000 1 ptime) (Some c)) frames =
    Ok (g711_play v (8 * ptime) heard lost frames, mkG711 v (mkCodecParams 8000 1 ptime) (Some c')).
Proof.
  destruct (decode_table_ok v) as (Ht & Hp). induction frames as [|f frames IH]; intros heard lost c Hpt Hf Hm; cbn [g711_run g711_play]; [by exists c|].
  apply Forall_cons_1 in Hf as (Hf1 & Hf). destruct f as [payload out|out].
  - destruct Hf1 as (Hb & Hl). unfold G711_decode. cbn [g7_variant g7_plc g7_params set_plc]. rewrite (proj2 (Z.ltb_ge _ _)) by done.
    rewrite (expand_ok (decode_table v) Ht) by done. rewrite bind_Ok.
    destruct (good_frame_ok (decode_table v) Ht Hp heard lost c payload (map (byte_of (decode_table v)) payload) Hm Hb) as (c1 & -> & Hm1).
    { apply Forall_map. eapply Forall_impl; [|exact Hb]. intros x Hx. unfold is_byte in Hx. cbn.
      destruct (@idx_in_range CodecError _ (decode_table v) x) as (y & Hy & Hlk); [lia|]. rewrite idx_byte_of in Hy by lia. injection Hy as ->.
      unfold pcm_ok in Hp. rewrite Forall_lookup in Hp. by eapply Hp. }
    rewrite bind_Ok. unfold mret, res_ret. rewrite bind_Ok. destruct (IH _ _ _ Hpt Hf Hm1) as (c' & Hrun). exists c'. unfold set_plc. cbn [g7_variant g7_params]. by rewrite Hrun, bind_Ok.
  - unfold G711_conceal. cbn [g7_variant g7_plc g7_params set_plc frame_samples cp_sample_rate_hz cp_ptime_ms]. unfold frame_samples. cbn [cp_sample_rate_hz cp_ptime_ms].
    change (8000 / 1000) with 8. set (n := Z.min (8 * ptime) (len out)). assert (0 <= n <= len out) as Hn by (unfold n; pose proof (len_nonneg out); lia).
    destruct (conceal_ok (decode_table v) Ht Hp heard lost c (take (Z.to_nat n) out) Hm) as (c1 & -> & Hm1). rewrite bind_Ok. unfold mret, res_ret. rewrite bind_Ok.
    assert (length (take (Z.to_nat n) out) = Z.to_nat n) as Hlen by (rewrite length_take; unfold len in Hn; lia). unfold len in Hm1. rewrite Hlen in *.
    destruct (IH _ _ _ Hpt Hf Hm1) as (c' & Hrun). exists c'. unfold set_plc. cbn [g7_variant g7_params]. by rewrite Hrun, bind_Ok.
Qed.

Lemma substitute_muted table heard i : len table = 256 -> pcm_ok table -> bytes_ok heard -> 480 <= i -> substitute table heard i = 0.
Proof.
  intros Ht Hp Hb Hi. unfold substitute, spec_level. destruct (spec_bounds table Ht Hp heard Hb) as (Ho & _).
  destruct (attenuate_bound (spec_raw table heard i) i (spec_raw_i16 table Ht Hp heard i Hb) ltac:(lia)) as (_ & _ & ->); [|done].
  by rewrite (proj2 (Z.ltb_ge i _)) by lia.
Qed.

(** C29. G.711 decoding with concealment is what the code words received say.  On every
    run of frames that arrive and frames that are missing, whatever their sizes, the
    codec never panics, and its fixed ring of code words, its copied pitch period and
    its phase counter play exactly the reference: after a loss of [lost] samples,
    sample [k] of a missing frame is [substitute] at [lost + k], a function of all
    code words received so far; the first frame to arrive again is cross-faded with
    its continuation; a frame with no loss before it is the plain expansion of its
    code words.  The substitute is silent after 60 ms. *)
Theorem g711_concealment_refines v ptime frames : 0 <= ptime -> Forall frame_ok frames ->
  (exists g, g711_run (with_concealment (G711_new v ptime)) frames = Ok (g711_play v (8 * ptime) [] 0 frames, g)) /\
  (forall heard i, bytes_ok heard -> 480 <= i -> substitute (decode_table v) heard i = 0) /\
  (forall heard decoded, spec_good (decode_table v) heard 0 decoded = decoded).
Proof.
  intros Hp Hf. destruct (decode_table_ok v) as (Ht & Hpcm). split; [|split; [intros heard i; by apply substitute_muted|done]].
  destruct (run_plays v ptime frames [] 0 Concealer_new Hp Hf (new_matches _)) as (c' & Hrun). eexists. exact Hrun.
Qed.

(** 35 ms of a 100 Hz square wave, a gap of 30 ms and the wave again: the gap repeats the wave
    and then fades. *)
Definition example_wave (n : nat) : bytes := map (fun i => if (Z.of_nat i mod 80 <? 40) then 0x90 else 0x10) (seq 0 n).
Definition example_frames : list frame :=
  [Arrives (example_wave 280) (replicate 280 0); Missing (replicate 160 0); Missing (replicate 80 0); Arrives (example_wave 20) (replicate 20 0)].

Definition outs_of (r : plc (list (list Z) * G711)) : list (list Z) := match r with Ok (outs, _) => outs | _ => [] end.
Definition example_outs : list (list Z) := outs_of (g711_run (with_concealment (G711_new Ulaw 20)) example_frames).

Definition outs_ok (outs : list (list Z)) : Prop :=
  match outs with
  | [heard; gap; _; back] => heard = map (byte_of ULAW_DECODE) (example_wave 280) /\ take 81 gap = replicate 40 (-15996) ++ replicate 40 15996 ++ [-15996] /\
      nth 0 back 0 = -8378 /\ nth 19 back 0 = 14813
  | _ => False
  end.

Lemma g711_concealment_refines_witness :
  example_outs = g711_play Ulaw 160 [] 0 example_frames /\ outs_ok example_outs.
Proof.
  destruct (g711_concealment_refines Ulaw 20 example_frames) as ((g & Hrun) & _); [lia| |].
  { assert (forall n, bytes_ok (example_wave n)) as Hb.
    { intros n. apply Forall_map, List.Forall_forall. intros i _. unfold is_byte. cbn. destruct (_ <? _); lia. }
    unfold example_frames. repeat apply Forall_cons_2; try constructor; try apply Hb; vm_compute; discriminate. }
  change (8 * 20) with 160 in Hrun. split; [unfold example_outs, outs_of; rewrite Hrun; reflexivity|].
  vm_compute. split; [reflexivity|]. split; [reflexivity|]. split; reflexivity.
Defined.
