(* ===== verification/Mixer.v ===== *)
(** * The conference mix bus: crates/siphon-rtp-media/src/mixer.rs

    Decoded frames of all participants in, what each participant hears out.  The
    assertions of the source and its slices are [Panic]s, and so is a sum that
    overflows [i32].  The buffers the mixer keeps between ticks are fields, written
    in place as the source does: what an earlier tick left behind them is there. *)

From stdpp Require Import base list numbers option.
From Stdlib Require Import Lia ZArith.
From S2P Require Import Prelude Codec Concealment.

Open Scope Z_scope.

Abbreviation mixed A := (res unit A).

Definition MAX_PARTICIPANTS : Z := 64.
Definition MAX_ACTIVE_SPEAKERS : Z := 8.

Inductive Role : Type := Talker | Listener | Muted.

Record MixInputs : Type := mkMixInputs {
  mi_pcm : list (list Z); mi_roles : list Role; mi_energy : list Z; mi_speaking : list bool; mi_external : option (list Z); mi_frame_len : Z
}.

Definition participant_count (i : MixInputs) : Z := len (mi_pcm i).

Record Whisper : Type := mkWhisper { wh_from : Z; wh_to : Z }.
Record Monitor : Type := mkMonitor { mo_listener : Z; mo_target : Z }.

Record Mixer : Type := mkMixer {
  mx_participant_capacity : Z; mx_frame_capacity : Z; mx_accum : list Z; mx_listener_buf : list Z; mx_participant_buf : list Z;
  mx_own : list (list Z); mx_has_own : list bool; mx_frame_len : Z; mx_participant_count : Z
}.

Definition saturate_i16 (value : Z) : Z := Z.min (Z.max value (-32768)) 32767.

Definition Mixer_new (participant_capacity frame_capacity : Z) : Mixer :=
  let participant_capacity := Z.min participant_capacity MAX_PARTICIPANTS in
  let silence := replicate (Z.to_nat frame_capacity) 0 in
  mkMixer participant_capacity frame_capacity silence silence silence (replicate (Z.to_nat participant_capacity) silence)
    (replicate (Z.to_nat participant_capacity) false) 0 0.

(** ** The active speakers *)

Definition has_bit (mask index : Z) : bool := negb (Z.land mask (Z.shiftl 1 index) =? 0).

Definition is_candidate (inputs : MixInputs) (private_sources index : Z) (role : Role) : mixed bool :=
  match role with
  | Talker => speaking ← idx (mi_speaking inputs) index; mret (speaking && negb (has_bit private_sources index))
  | _ => mret false
  end.

(** [top_m == 0]: every candidate. *)
Fixpoint select_all (inputs : MixInputs) (private_sources index : Z) (roles : list Role) (mask : Z) : mixed Z :=
  match roles with
  | [] => mret mask
  | role :: roles =>
      candidate ← is_candidate inputs private_sources index role;
      select_all inputs private_sources (index + 1) roles (if (candidate : bool) then Z.lor mask (Z.shiftl 1 index) else mask)
  end.

(** [(0..capacity).min_by_key(..)]: the first slot of the least energy. *)
Fixpoint weakest_from (slots : list (Z * Z)) (slot found energy : Z) : Z :=
  match slots with
  | [] => found
  | (e, _) :: slots => if e <? energy then weakest_from slots (slot + 1) slot e else weakest_from slots (slot + 1) found energy
  end.
Definition weakest (best : list (Z * Z)) (capacity : Z) : Z :=
  match take (Z.to_nat capacity) best with
  | [] => 0
  | (e, _) :: slots => weakest_from slots 1 0 e
  end.

Fixpoint select_best (inputs : MixInputs) (private_sources index : Z) (roles : list Role) (capacity : Z) (best : list (Z * Z)) (count : Z) :
  mixed (list (Z * Z) * Z) :=
  match roles with
  | [] => mret (best, count)
  | role :: roles =>
      candidate ← is_candidate inputs private_sources index role;
      '(best, count) ←
        (if negb candidate then mret (best, count) else
         energy ← idx (mi_energy inputs) index;
         if count <? capacity then
           best ← set_at best count (energy, index);
           mret (best, count + 1)
         else
           let w := weakest best capacity in
           '(least, _) ← idx best w;
           if least <? energy then best ← set_at best w (energy, index); mret (best, count)
           else mret (best, count));
      select_best inputs private_sources (index + 1) roles capacity best count
  end.

Fixpoint mask_of (slots : list (Z * Z)) (mask : Z) : Z :=
  match slots with
  | [] => mask
  | (_, index) :: slots => mask_of slots (Z.lor mask (Z.shiftl 1 index))
  end.

Definition select_active_speakers (inputs : MixInputs) (private_sources top_m : Z) : mixed Z :=
  if top_m =? 0 then select_all inputs private_sources 0 (mi_roles inputs) 0
  else
    let capacity := Z.min top_m MAX_ACTIVE_SPEAKERS in
    let best := replicate (Z.to_nat MAX_ACTIVE_SPEAKERS) (- I64, 2 ^ 64 - 1) in
    '(best, count) ← select_best inputs private_sources 0 (mi_roles inputs) capacity best 0;
    mret (mask_of (take (Z.to_nat count) best) 0).

(** ** The tick *)

(** [for (slot, &sample) in accum.iter_mut().zip(row)] *)
Fixpoint add_row (accum row : list Z) : mixed (list Z) :=
  match accum, row with
  | slot :: accum, sample :: row => sum ← chk I32 (slot + sample); rest ← add_row accum row; mret (sum :: rest)
  | _, _ => mret accum
  end.

Fixpoint add_rows (mask index frame_len : Z) (pcm : list (list Z)) (accum : list Z) : mixed (list Z) :=
  match pcm with
  | [] => mret accum
  | row :: pcm =>
      accum ← (if has_bit mask index then row ← slice row 0 frame_len; add_row accum row else mret accum);
      add_rows mask (index + 1) frame_len pcm accum
  end.

(** [saturate(total - own)] over a frame. *)
Fixpoint minus_row (accum row : list Z) : mixed (list Z) :=
  match accum, row with
  | total :: accum, sample :: row => difference ← chk I32 (total - sample); rest ← minus_row accum row; mret (saturate_i16 difference :: rest)
  | _, _ => mret []
  end.

(** A participant's own frame: the first samples of its buffer replaced. *)
Definition set_own (m : Mixer) (index : Z) (frame : list Z) : mixed Mixer :=
  buffer ← idx (mx_own m) index;
  buffer ← copy_at buffer 0 frame;
  own ← set_at (mx_own m) index buffer;
  has_own ← set_at (mx_has_own m) index true;
  mret (mkMixer (mx_participant_capacity m) (mx_frame_capacity m) (mx_accum m) (mx_listener_buf m) (mx_participant_buf m) own has_own
    (mx_frame_len m) (mx_participant_count m)).

Fixpoint own_mixes (mask index frame_len : Z) (accum : list Z) (pcm : list (list Z)) (m : Mixer) : mixed Mixer :=
  match pcm with
  | [] => mret m
  | row :: pcm =>
      m ← (if has_bit mask index then row ← slice row 0 frame_len; frame ← minus_row accum row; set_own m index frame else mret m);
      own_mixes mask (index + 1) frame_len accum pcm m
  end.

Fixpoint apply_monitors (inputs : MixInputs) (monitors : list Monitor) (m : Mixer) : mixed Mixer :=
  match monitors with
  | [] => mret m
  | monitor :: monitors =>
      m ← (if (mo_listener monitor <? participant_count inputs) && (mo_target monitor <? participant_count inputs) then
             target ← idx (mi_pcm inputs) (mo_target monitor);
             target ← slice target 0 (mi_frame_len inputs);
             set_own m (mo_listener monitor) target
           else mret m);
      apply_monitors inputs monitors m
  end.

(** The base of the whisper's target and the whisper, over a frame. *)
Fixpoint whisper_row (to_active : bool) (accum from_pcm to_pcm : list Z) : mixed (list Z) :=
  match accum, from_pcm, to_pcm with
  | total :: accum, whisper :: from_pcm, own :: to_pcm =>
      base ← (if to_active then chk I32 (total - own) else mret total);
      sum ← chk I32 (base + whisper);
      rest ← whisper_row to_active accum from_pcm to_pcm;
      mret (saturate_i16 sum :: rest)
  | _, _, _ => mret []
  end.

Fixpoint apply_whispers (inputs : MixInputs) (mask : Z) (accum : list Z) (whispers : list Whisper) (m : Mixer) : mixed Mixer :=
  match whispers with
  | [] => mret m
  | whisper :: whispers =>
      m ← (if (wh_from whisper <? participant_count inputs) && (wh_to whisper <? participant_count inputs) then
             from_pcm ← idx (mi_pcm inputs) (wh_from whisper);
             from_pcm ← slice from_pcm 0 (mi_frame_len inputs);
             to_pcm ← idx (mi_pcm inputs) (wh_to whisper);
             to_pcm ← slice to_pcm 0 (mi_frame_len inputs);
             frame ← whisper_row (has_bit mask (wh_to whisper)) accum from_pcm to_pcm;
             set_own m (wh_to whisper) frame
           else mret m);
      apply_whispers inputs mask accum whispers m
  end.

Definition private_sources (count : Z) (whispers : list Whisper) : Z :=
  foldl (fun mask whisper => if wh_from whisper <? count then Z.lor mask (Z.shiftl 1 (wh_from whisper)) else mask) 0 whispers.

Definition assert_that (condition : bool) : mixed unit := if condition then mret tt else Panic.

Definition mix (m : Mixer) (inputs : MixInputs) (whispers : list Whisper) (monitors : list Monitor) (top_m : Z) : mixed (Z * Mixer) :=
  let count := participant_count inputs in
  let frame_len := mi_frame_len inputs in
  _ ← assert_that (count <=? mx_participant_capacity m);
  _ ← assert_that ((len (mi_roles inputs) =? count) && (len (mi_energy inputs) =? count) && (len (mi_speaking inputs) =? count));
  _ ← assert_that (frame_len <=? mx_frame_capacity m);
  has_own ← copy_at (mx_has_own m) 0 (replicate (Z.to_nat count) false);
  active_mask ← select_active_speakers inputs (private_sources count whispers) top_m;
  totals ← slice (mx_accum m) 0 frame_len;
  totals ← add_rows active_mask 0 frame_len (mi_pcm inputs) (map (fun _ => 0) totals);
  participant_buf ← copy_at (mx_participant_buf m) 0 (map saturate_i16 totals);
  totals ← (match mi_external inputs with Some external => add_row totals external | None => mret totals end);
  accum ← copy_at (mx_accum m) 0 totals;
  listener_buf ← copy_at (mx_listener_buf m) 0 (map saturate_i16 totals);
  let m := mkMixer (mx_participant_capacity m) (mx_frame_capacity m) accum listener_buf participant_buf (mx_own m) has_own frame_len count in
  m ← own_mixes active_mask 0 frame_len totals (mi_pcm inputs) m;
  m ← apply_monitors inputs monitors m;
  m ← apply_whispers inputs active_mask totals whispers m;
  mret (active_mask, m).

Definition listener_mix (m : Mixer) : mixed (list Z) := slice (mx_listener_buf m) 0 (mx_frame_len m).
Definition participant_mix (m : Mixer) : mixed (list Z) := slice (mx_participant_buf m) 0 (mx_frame_len m).

Definition has_distinct_output (m : Mixer) (participant : Z) : mixed bool :=
  if participant <? mx_participant_count m then idx (mx_has_own m) participant else mret false.

Definition output_for (m : Mixer) (participant : Z) : mixed (list Z) :=
  distinct ← has_distinct_output m participant;
  if (distinct : bool) then buffer ← idx (mx_own m) participant; slice buffer 0 (mx_frame_len m)
  else slice (mx_listener_buf m) 0 (mx_frame_len m).

(** * Proofs *)

(** ** The active speakers *)

Lemma has_bit_testbit mask i : 0 <= i -> has_bit mask i = Z.testbit mask i.
Proof. intros Hi. unfold has_bit. by apply shift_bit. Qed.

Lemma testbit_set mask i j : 0 <= i -> 0 <= j -> Z.testbit (Z.lor mask (Z.shiftl 1 i)) j = Z.testbit mask j || (j =? i).
Proof. intros Hi Hj. rewrite Z.lor_spec, Z.shiftl_1_l, Z.pow2_bits_eqb by lia. by rewrite (Z.eqb_sym i j). Qed.

(** A participant the selection may take. *)
Definition candidate (inputs : MixInputs) (private i : Z) : bool :=
  match mi_roles inputs !! Z.to_nat i, mi_speaking inputs !! Z.to_nat i with
  | Some Talker, Some true => negb (Z.testbit private i)
  | _, _ => false
  end.
Definition energy_of (inputs : MixInputs) (i : Z) : Z := byte_of (mi_energy inputs) i.

Definition inputs_aligned (inputs : MixInputs) : Prop :=
  len (mi_roles inputs) = participant_count inputs /\ len (mi_energy inputs) = participant_count inputs /\ len (mi_speaking inputs) = participant_count inputs.

Lemma is_candidate_ok inputs private i role : inputs_aligned inputs -> 0 <= i -> mi_roles inputs !! Z.to_nat i = Some role ->
  is_candidate inputs private i role = Ok (candidate inputs private i).
Proof.
  intros (Hr & He & Hs) Hi Hrole. unfold is_candidate, candidate. rewrite Hrole. assert (0 <= i < len (mi_speaking inputs)) as Hlt.
  { apply lookup_lt_Some in Hrole. unfold len in *. lia. }
  destruct (@idx_in_range unit _ (mi_speaking inputs) i Hlt) as (s & Hidx & ->). destruct role; try done. rewrite Hidx, bind_Ok, has_bit_testbit by done. by destruct s.
Qed.

(** The roles still to come, from [index] on. *)
Definition remaining (inputs : MixInputs) (index : Z) (roles : list Role) : Prop :=
  0 <= index <= len (mi_roles inputs) /\ roles = drop (Z.to_nat index) (mi_roles inputs).

Lemma remaining_cons inputs index role roles : remaining inputs index (role :: roles) ->
  mi_roles inputs !! Z.to_nat index = Some role /\ remaining inputs (index + 1) roles.
Proof.
  intros (Hi & Hr). assert (index < len (mi_roles inputs)) as Hlt by (apply (f_equal length) in Hr; rewrite length_drop in Hr; cbn in Hr; unfold len; lia). split.
  - replace (Z.to_nat index) with (Z.to_nat index + 0)%nat by lia. rewrite <- lookup_drop, <- Hr. done.
  - split; [lia|]. replace (Z.to_nat (index + 1)) with (Z.to_nat index + 1)%nat by lia. rewrite <- drop_drop, <- Hr. done.
Qed.

Lemma remaining_end inputs index : remaining inputs index [] -> index = len (mi_roles inputs).
Proof. intros (Hi & Hr). symmetry in Hr. apply (f_equal length) in Hr. rewrite length_drop in Hr. cbn in Hr. unfold len in *. lia. Qed.

Lemma select_all_ok inputs private roles : forall index mask, inputs_aligned inputs -> remaining inputs index roles ->
  exists mask', select_all inputs private index roles mask = Ok mask' /\
    forall i, 0 <= i -> Z.testbit mask' i = Z.testbit mask i || (index <=? i) && (i <? len (mi_roles inputs)) && candidate inputs private i.
Proof.
  induction roles as [|role roles IH]; intros index mask Ha Hrem; cbn [select_all].
  - exists mask. split; [done|]. intros i Hi. pose proof (remaining_end _ _ Hrem). destruct (Z.leb_spec index i), (Z.ltb_spec i (len (mi_roles inputs))); cbn; rewrite ?orb_false_r; lia || done.
  - destruct (remaining_cons _ _ _ _ Hrem) as (Hrole & Hrem'). destruct Hrem as ((Hi0 & _) & _). rewrite (is_candidate_ok inputs private index role) by done. rewrite bind_Ok.
    pose proof (lookup_lt_Some _ _ _ Hrole) as Hlt.
    destruct (IH (index + 1) (if candidate inputs private index then Z.lor mask (Z.shiftl 1 index) else mask) Ha Hrem') as (mask' & -> & Hm). exists mask'. split; [done|].
    intros i Hi. rewrite Hm by done. destruct (Z.eq_dec i index) as [->|Hne].
    + rewrite (proj2 (Z.leb_gt (index + 1) index)), (proj2 (Z.leb_le index index)), (proj2 (Z.ltb_lt index _)) by (unfold len; lia). cbn [andb]. rewrite orb_false_r.
      destruct (candidate inputs private index); [by rewrite testbit_set, Z.eqb_refl|by rewrite orb_false_r].
    + assert (Z.testbit (if candidate inputs private index then Z.lor mask (Z.shiftl 1 index) else mask) i = Z.testbit mask i) as ->.
      { destruct (candidate inputs private index); [|done]. by rewrite testbit_set, (proj2 (Z.eqb_neq i index)), orb_false_r by done. }
      f_equal. f_equal. f_equal. destruct (Z.leb_spec (index + 1) i), (Z.leb_spec index i); lia || done.
Qed.

(** The slot of the least energy among the first [capacity]. *)
Lemma weakest_from_spec slots : forall slot found energy, 0 <= found < slot ->
  let w := weakest_from slots slot found energy in
  0 <= w < slot + len slots /\
  exists e, (w = found /\ e = energy \/ exists j k, w = slot + Z.of_nat k /\ slots !! k = Some (e, j)) /\ e <= energy /\ forall e' j, (e', j) ∈ slots -> e <= e'.
Proof.
  induction slots as [|[e0 j0] slots IH]; intros slot found energy Hf; cbn [weakest_from].
  - split; [unfold len; cbn; lia|]. exists energy. split; [by left|]. split; [lia|]. intros e' j Hin. by apply elem_of_nil in Hin.
  - rewrite len_cons. destruct (Z.ltb_spec e0 energy) as [Hlt|Hge].
    + destruct (IH (slot + 1) slot e0 ltac:(lia)) as (Hr & e & Hw & Hle & Hall). split; [lia|]. exists e. split; [|split; [lia|]].
      * right. destruct Hw as [(Hw & ->)|(j & k & Hw & Hk)]; [exists j0, 0%nat; split; [lia|done]|exists j, (S k); split; [lia|done]].
      * intros e' j Hin. apply elem_of_cons in Hin as [[= -> ->]|Hin]; [lia|by eapply Hall].
    + destruct (IH (slot + 1) found energy ltac:(lia)) as (Hr & e & Hw & Hle & Hall). split; [lia|]. exists e. split; [|split; [lia|]].
      * destruct Hw as [Hw|(j & k & Hw & Hk)]; [by left|right; exists j, (S k); split; [lia|done]].
      * intros e' j Hin. apply elem_of_cons in Hin as [[= -> ->]|Hin]; [lia|by eapply Hall].
Qed.

Lemma weakest_spec best capacity : 1 <= capacity <= len best -> let w := weakest best capacity in
  0 <= w < capacity /\ exists e j, best !! Z.to_nat w = Some (e, j) /\ forall k e' j', (k < Z.to_nat capacity)%nat -> best !! k = Some (e', j') -> e <= e'.
Proof.
  intros Hc w. assert (len (take (Z.to_nat capacity) best) = capacity) as Hl by (rewrite len_take; lia). unfold w, weakest.
  assert (forall k, (k < Z.to_nat capacity)%nat -> best !! k = take (Z.to_nat capacity) best !! k) as Hlk by (intros k Hk; by rewrite lookup_take_lt).
  destruct (take (Z.to_nat capacity) best) as [|[e0 j0] slots]; [unfold len in Hl; cbn in Hl; lia|]. rewrite len_cons in Hl.
  destruct (weakest_from_spec slots 1 0 e0 ltac:(lia)) as (Hr & e & Hw & Hle & Hall). set (x := weakest_from slots 1 0 e0) in *.
  split; [lia|]. assert (exists j, best !! Z.to_nat x = Some (e, j)) as (j & Hj).
  { destruct Hw as [(-> & ->)|(j & k & -> & Hk)].
    - exists j0. by rewrite Hlk by lia.
    - exists j. rewrite Hlk by lia. replace (Z.to_nat (1 + Z.of_nat k)) with (S k) by lia. done. }
  exists e, j. split; [done|]. intros k e' j' Hk Hb. rewrite Hlk in Hb by done. destruct k as [|k]; [injection Hb as <- <-; done|]. cbn in Hb. eapply Hall. by eapply list_elem_of_lookup_2.
Qed.

Section selection.
Context (inputs : MixInputs) (private capacity : Z).
Context (Haligned : inputs_aligned inputs) (Hcapacity : 1 <= capacity <= 8).

Definition candidates (n : nat) : list Z := filter (fun i => candidate inputs private i = true) (seqZ 0 (Z.of_nat n)).

(** The slots hold distinct candidates, and every candidate left out is no louder
    than any of them. *)
Record selected (index : Z) (best : list (Z * Z)) (count : Z) : Prop := {
  se_len : len best = MAX_ACTIVE_SPEAKERS;
  se_slot : forall k e i, (k < Z.to_nat count)%nat -> best !! k = Some (e, i) -> e = energy_of inputs i /\ 0 <= i < index /\ candidate inputs private i = true;
  se_inj : forall k k' e e' i, (k < Z.to_nat count)%nat -> (k' < Z.to_nat count)%nat -> best !! k = Some (e, i) -> best !! k' = Some (e', i) -> k = k';
  se_out : forall i, 0 <= i < index -> candidate inputs private i = true -> (exists k e, (k < Z.to_nat count)%nat /\ best !! k = Some (e, i)) \/
    count = capacity /\ (forall k e j, (k < Z.to_nat count)%nat -> best !! k = Some (e, j) -> energy_of inputs i <= e);
  se_count : count = Z.min capacity (len (candidates (Z.to_nat index)))
}.

Lemma candidates_snoc index : 0 <= index ->
  candidates (Z.to_nat (index + 1)) = candidates (Z.to_nat index) ++ (if candidate inputs private index then [index] else []).
Proof.
  intros Hi. unfold candidates. replace (Z.to_nat (index + 1)) with (S (Z.to_nat index)) by lia. rewrite seqZ_S. rewrite list.filter_app. f_equal.
  rewrite Z.add_0_l, Z2Nat.id by lia. unfold filter. cbn [list_filter]. destruct (candidate inputs private index); by case_decide.
Qed.

Lemma selected_skip index best count : 0 <= index -> candidate inputs private index = false -> selected index best count -> selected (index + 1) best count.
Proof.
  intros Hi Hc [Hl Hs Hinj Hout Hn]. split; [done| |done| |].
  - intros k e i Hk Hb. destruct (Hs k e i Hk Hb) as (? & ? & ?). split; [done|]. split; [lia|done].
  - intros i Hir Hci. apply Hout; [|done]. destruct (Z.eq_dec i index) as [->|]; [congruence|lia].
  - rewrite candidates_snoc, Hc, app_nil_r by done. done.
Qed.

Lemma selected_add index best count : 0 <= index -> candidate inputs private index = true -> count < capacity -> selected index best count ->
  selected (index + 1) (<[Z.to_nat count := (energy_of inputs index, index)]> best) (count + 1).
Proof.
  intros Hi Hc Hlt [Hl Hs Hinj Hout Hn]. pose proof (len_nonneg (candidates (Z.to_nat index))) as H0. unfold MAX_ACTIVE_SPEAKERS in *.
  assert ((Z.to_nat count < length best)%nat) as Hin by (unfold len in Hl; lia).
  assert (forall k e i, (k < Z.to_nat (count + 1))%nat -> <[Z.to_nat count := (energy_of inputs index, index)]> best !! k = Some (e, i) ->
    (k = Z.to_nat count /\ e = energy_of inputs index /\ i = index) \/ ((k < Z.to_nat count)%nat /\ best !! k = Some (e, i))) as Hcase.
  { intros k e i Hk Hb. apply list_lookup_insert_Some in Hb as [(-> & [= -> ->] & _)|(Hne & Hb)]; [by left|right; split; [lia|done]]. }
  split.
  - unfold len in *. by rewrite length_insert.
  - intros k e i Hk Hb. destruct (Hcase k e i Hk Hb) as [(-> & -> & ->)|(Hk' & Hb')]; [split; [done|]; split; [lia|done]|].
    destruct (Hs k e i Hk' Hb') as (? & ? & ?). split; [done|]. split; [lia|done].
  - intros k k' e e' i Hk Hk' Hb Hb'. destruct (Hcase k e i Hk Hb) as [(-> & -> & ->)|(H1 & H2)], (Hcase k' e' _ Hk' Hb') as [(-> & -> & Hx)|(H3 & H4)]; [done| | |].
    + destruct (Hs _ _ _ H3 H4) as (_ & ? & _). lia.
    + subst i. destruct (Hs _ _ _ H1 H2) as (_ & ? & _). lia.
    + by eapply Hinj.
  - intros i Hir Hci. destruct (Z.eq_dec i index) as [->|Hne].
    + left. exists (Z.to_nat count), (energy_of inputs index). split; [lia|]. by apply list_lookup_insert_eq.
    + left. destruct (Hout i ltac:(lia) Hci) as [(k & e & Hk & Hb)|(Hfull & _)]; [|lia].
      exists k, e. split; [lia|]. by rewrite list_lookup_insert_ne by lia.
  - rewrite candidates_snoc, Hc, len_app by done. change (len [index]) with 1. lia.
Qed.


Lemma selected_full index best count : 0 <= index -> candidate inputs private index = true -> capacity <= count -> selected index best count ->
  let w := weakest best capacity in
  exists least j, best !! Z.to_nat w = Some (least, j) /\ 0 <= w < 8 /\
    selected (index + 1) (if least <? energy_of inputs index then <[Z.to_nat w := (energy_of inputs index, index)]> best else best) count.
Proof.
  intros Hi Hc Hge [Hl Hs Hinj Hout Hn] w. pose proof (len_nonneg (candidates (Z.to_nat index))) as H0. unfold MAX_ACTIVE_SPEAKERS in *.
  assert (count = capacity) as Hcount by lia. destruct (weakest_spec best capacity ltac:(lia)) as (Hw & least & j & Hb & Hleast). fold w in Hw, Hb.
  exists least, j. split; [done|]. split; [lia|]. destruct (Hs (Z.to_nat w) least j ltac:(lia) Hb) as (Hle & Hj & Hcj).
  assert (count = Z.min capacity (len (candidates (Z.to_nat (index + 1))))) as Hn' by (rewrite candidates_snoc, Hc, len_app by done; change (len [index]) with 1; lia).
  destruct (Z.ltb_spec least (energy_of inputs index)) as [Hlt|Hnot].
  - assert (forall k e i, (k < Z.to_nat count)%nat -> <[Z.to_nat w := (energy_of inputs index, index)]> best !! k = Some (e, i) ->
      (k = Z.to_nat w /\ e = energy_of inputs index /\ i = index) \/ (k <> Z.to_nat w /\ best !! k = Some (e, i))) as Hcase.
    { intros k e i Hk Hbk. apply list_lookup_insert_Some in Hbk as [(-> & [= -> ->] & _)|(Hne & Hbk)]; [by left|by right]. }
    split; [unfold len in *; by rewrite length_insert| | | |done].
    + intros k e i Hk Hbk. destruct (Hcase k e i Hk Hbk) as [(-> & -> & ->)|(_ & Hb')]; [split; [done|]; split; [lia|done]|].
      destruct (Hs k e i Hk Hb') as (? & ? & ?). split; [done|]. split; [lia|done].
    + intros k k' e e' i Hk Hk' Hbk Hbk'. destruct (Hcase k e i Hk Hbk) as [(-> & -> & ->)|(_ & H2)], (Hcase k' e' _ Hk' Hbk') as [(-> & -> & Hx)|(_ & H4)]; [done| | |].
      * destruct (Hs _ _ _ Hk' H4) as (_ & ? & _). lia.
      * subst i. destruct (Hs _ _ _ Hk H2) as (_ & ? & _). lia.
      * by eapply Hinj.
    + assert (forall x, x <= least -> forall k e i, (k < Z.to_nat count)%nat -> <[Z.to_nat w := (energy_of inputs index, index)]> best !! k = Some (e, i) -> x <= e) as Hdom.
      { intros x Hx k e i Hk Hbk. destruct (Hcase k e i Hk Hbk) as [(-> & -> & ->)|(_ & Hb')]; [lia|]. pose proof (Hleast k e i ltac:(lia) Hb'). lia. }
      intros i Hir Hci. destruct (Z.eq_dec i index) as [->|Hne].
      * left. exists (Z.to_nat w), (energy_of inputs index). split; [lia|]. apply list_lookup_insert_eq. unfold len in Hl. lia.
      * destruct (Hout i ltac:(lia) Hci) as [(k & e & Hk & Hbk)|(_ & Hall)].
        -- destruct (decide (k = Z.to_nat w)) as [->|Hkw].
           ++ rewrite Hb in Hbk. injection Hbk as <- <-. right. split; [done|]. intros k e i Hk' Hbk'. rewrite <- Hle. by eapply Hdom.
           ++ left. exists k, e. split; [done|]. by rewrite list_lookup_insert_ne.
        -- right. split; [done|]. apply Hdom. by apply (Hall (Z.to_nat w) least j); [lia|].
  - split; [done| |done| |done].
    + intros k e i Hk Hbk. destruct (Hs k e i Hk Hbk) as (? & ? & ?). split; [done|]. split; [lia|done].
    + intros i Hir Hci. destruct (Z.eq_dec i index) as [->|Hne]; [|apply Hout; [lia|done]].
      right. split; [done|]. intros k e i Hk Hbk. pose proof (Hleast k e i ltac:(lia) Hbk). lia.
Qed.

Lemma select_best_ok roles : forall index best count, remaining inputs index roles -> selected index best count ->
  exists best' count', select_best inputs private index roles capacity best count = Ok (best', count') /\ selected (len (mi_roles inputs)) best' count'.
Proof.
  induction roles as [|role roles IH]; intros index best count Hrem Hsel; cbn [select_best].
  - exists best, count. split; [done|]. by rewrite <- (remaining_end _ _ Hrem).
  - destruct (remaining_cons _ _ _ _ Hrem) as (Hrole & Hrem'). pose proof (proj1 (proj1 Hrem)) as Hi. rewrite (is_candidate_ok inputs private index role) by done. rewrite bind_Ok.
    destruct (candidate inputs private index) eqn:Hc; cbn [negb].
    2:{ unfold mret, res_ret. rewrite bind_Ok. apply IH; [done|by apply selected_skip]. }
    pose proof (lookup_lt_Some _ _ _ Hrole) as Hlt. destruct Haligned as (Hr & He & _). rewrite idx_byte_of, bind_Ok by (unfold len in *; lia). fold (energy_of inputs index).
    pose proof (se_len _ _ _ Hsel) as Hl. unfold MAX_ACTIVE_SPEAKERS in Hl. pose proof (se_count _ _ _ Hsel) as Hn. pose proof (len_nonneg (candidates (Z.to_nat index))).
    destruct (Z.ltb_spec count capacity) as [Hroom|Hfull].
    + rewrite set_at_insert by lia. unfold mret, res_ret. rewrite !bind_Ok. apply IH; [done|by apply selected_add].
    + destruct (selected_full index best count Hi Hc Hfull Hsel) as (least & j & Hb & Hw & Hs'). rewrite (idx_lookup best (weakest best capacity) (least, j)) by (done || lia).
      rewrite !bind_Ok. destruct (Z.ltb_spec least (energy_of inputs index)).
      * rewrite set_at_insert by lia. unfold mret, res_ret. rewrite !bind_Ok. by apply IH.
      * unfold mret, res_ret. rewrite bind_Ok. by apply IH.
Qed.
End selection.

Lemma mask_of_testbit slots : forall mask i, (forall e j, (e, j) ∈ slots -> 0 <= j) -> 0 <= i ->
  Z.testbit (mask_of slots mask) i = Z.testbit mask i || existsb (fun s => i =? s.2) slots.
Proof.
  induction slots as [|[e j] slots IH]; intros mask i Hs Hi; cbn [mask_of existsb snd]; [by rewrite orb_false_r|].
  rewrite IH; [|intros e' j' Hin; eapply Hs; right; exact Hin|done]. rewrite testbit_set by (eauto using list_elem_of_here || (eapply Hs; left)). by rewrite orb_assoc.
Qed.

Definition active_list (mask : Z) (n : Z) : list Z := filter (fun i => Z.testbit mask i = true) (seqZ 0 n).

Lemma elem_active mask n i : i ∈ active_list mask n <-> 0 <= i < n /\ Z.testbit mask i = true.
Proof. unfold active_list. rewrite list_elem_of_filter, elem_of_seqZ. rewrite Z.add_0_l. tauto. Qed.

Lemma NoDup_active mask n : NoDup (active_list mask n).
Proof. apply list.NoDup_filter, NoDup_seqZ. Qed.

(** What the selection promises: speaking talkers that do not whisper; all of them
    without a cap, else the [top_m] loudest. *)
Record speakers (inputs : MixInputs) (private top_m mask : Z) : Prop := {
  sp_in : forall i, 0 <= i -> Z.testbit mask i = true -> i < participant_count inputs /\ candidate inputs private i = true;
  sp_all : top_m = 0 -> forall i, 0 <= i < participant_count inputs -> candidate inputs private i = true -> Z.testbit mask i = true;
  sp_count : 0 < top_m -> len (active_list mask (participant_count inputs)) =
    Z.min (Z.min top_m MAX_ACTIVE_SPEAKERS) (len (candidates inputs private (Z.to_nat (participant_count inputs))));
  sp_loudest : forall i j, 0 <= i < participant_count inputs -> candidate inputs private i = true -> Z.testbit mask i = false ->
    0 <= j -> Z.testbit mask j = true -> energy_of inputs i <= energy_of inputs j
}.

Lemma select_ok inputs private top_m : inputs_aligned inputs -> 0 <= top_m ->
  exists mask, select_active_speakers inputs private top_m = Ok mask /\ speakers inputs private top_m mask.
Proof.
  intros Ha Ht. pose proof Ha as (Hr & _). unfold select_active_speakers. destruct (Z.eqb_spec top_m 0) as [->|Hne].
  - destruct (select_all_ok inputs private (mi_roles inputs) 0 0 Ha) as (mask & -> & Hm); [by split; [pose proof (len_nonneg (mi_roles inputs)); lia|]|].
    exists mask. split; [done|]. rewrite Hr in Hm.
    assert (forall i, 0 <= i -> Z.testbit mask i = (i <? participant_count inputs) && candidate inputs private i) as Hbit.
    { intros i Hi. rewrite Hm, Z.bits_0 by done. by rewrite (proj2 (Z.leb_le 0 i) Hi). }
    split.
    + intros i Hi Hb. rewrite Hbit, andb_true_iff, Z.ltb_lt in Hb by done. done.
    + intros _ i Hi Hc. rewrite Hbit, Hc, (proj2 (Z.ltb_lt i _)) by lia. done.
    + lia.
    + intros i j Hi Hc Hb. rewrite Hbit, Hc, (proj2 (Z.ltb_lt i _)) in Hb by lia. done.
  - set (capacity := Z.min top_m MAX_ACTIVE_SPEAKERS). assert (1 <= capacity <= 8) as Hcap by (unfold capacity, MAX_ACTIVE_SPEAKERS; lia).
    destruct (select_best_ok inputs private capacity Ha Hcap (mi_roles inputs) 0 (replicate (Z.to_nat MAX_ACTIVE_SPEAKERS) (- I64, 2 ^ 64 - 1)) 0) as (best & count & -> & Hsel).
    { split; [pose proof (len_nonneg (mi_roles inputs)); lia|done]. }
    { split; [done|intros; lia|intros; lia|intros; lia|]. change (len (candidates inputs private (Z.to_nat 0))) with 0. lia. }
    rewrite bind_Ok. eexists. split; [reflexivity|]. rewrite Hr in Hsel. destruct Hsel as [Hl Hs Hinj Hout Hn]. set (n := participant_count inputs) in *.
    assert (0 <= count <= 8) as Hc8 by (pose proof (len_nonneg (candidates inputs private (Z.to_nat n))); lia). unfold MAX_ACTIVE_SPEAKERS in Hl.
    set (kept := take (Z.to_nat count) best).
    assert (forall e i, (e, i) ∈ kept <-> exists k, (k < Z.to_nat count)%nat /\ best !! k = Some (e, i)) as Hkept.
    { intros e i. rewrite list_elem_of_lookup. split; intros (k & Hk).
      - apply lookup_take_Some in Hk as (Hk & Hlt). by exists k.
      - exists k. destruct Hk as (Hlt & Hk). apply lookup_take_Some. done. }
    assert (forall i, 0 <= i -> Z.testbit (mask_of kept 0) i = true <-> exists e, (e, i) ∈ kept) as Hbit.
    { intros i Hi. rewrite mask_of_testbit, Z.bits_0 by (try done; intros e j Hin; apply Hkept in Hin as (k & Hk & Hb); destruct (Hs k e j Hk Hb); lia). cbn [orb].
      rewrite existsb_exists. split.
      - intros ([e j] & Hin & He). apply Z.eqb_eq in He. cbn in He. subst j. exists e. by apply list_elem_of_In.
      - intros (e & Hin). exists (e, i). split; [by apply list_elem_of_In|]. cbn. apply Z.eqb_refl. }
    split.
    + intros i Hi Hb. apply Hbit in Hb as (e & Hin); [|done]. apply Hkept in Hin as (k & Hk & Hb). destruct (Hs k e i Hk Hb) as (_ & ? & ?). split; [lia|done].
    + done.
    + intros _. fold n capacity. rewrite <- Hn. assert (active_list (mask_of kept 0) n ≡ₚ map snd kept) as Hperm.
      { apply NoDup_Permutation; [apply NoDup_active| |].
        - apply NoDup_alt. intros k k' i Hk Hk'. rewrite list_lookup_fmap in Hk, Hk'. apply fmap_Some in Hk as ([e1 i1] & Hk & ->). apply fmap_Some in Hk' as ([e2 i2] & Hk' & He). cbn in He. subst i2.
          apply lookup_take_Some in Hk as (Hk & Hlt), Hk' as (Hk' & Hlt'). by eapply Hinj.
        - intros i. rewrite elem_active. split.
          + intros (Hi & Hb). apply Hbit in Hb as (e & Hin); [|lia]. apply list_elem_of_fmap. by exists (e, i).
          + intros Hin. apply list_elem_of_fmap in Hin as ([e j] & -> & Hin). cbn. pose proof Hin as Hin'. apply Hkept in Hin as (k & Hk & Hb). destruct (Hs k e j Hk Hb) as (_ & Hj & _).
            split; [done|]. apply Hbit; [lia|eauto]. }
      apply Permutation_length in Hperm. unfold len at 1. rewrite Hperm, length_map. unfold kept. rewrite length_take. unfold len in Hl. lia.
    + intros i j Hi Hc Hb Hj Hbj. apply Hbit in Hbj as (e & Hin); [|done]. apply Hkept in Hin as (k & Hk & Hbk). destruct (Hs k e j Hk Hbk) as (<- & _ & _).
      destruct (Hout i Hi Hc) as [(k' & e' & Hk' & Hbk')|(_ & Hall)]; [|by eapply Hall].
      assert (Z.testbit (mask_of kept 0) i = true) as Ht1 by (apply Hbit; [lia|]; exists e'; apply Hkept; eauto). congruence.
Qed.

(** ** Frames as functions of time *)

Definition frame_of (n : Z) (f : Z -> Z) : list Z := map f (seqZ 0 n).

Lemma len_frame_of n f : 0 <= n -> len (frame_of n f) = n.
Proof. intros Hn. unfold frame_of, len. rewrite length_map, length_seqZ. lia. Qed.

Lemma byte_of_frame n f t : 0 <= t < n -> byte_of (frame_of n f) t = f t.
Proof.
  intros Ht. unfold byte_of, frame_of. rewrite nth_lookup. rewrite list_lookup_fmap, lookup_seqZ_lt by lia. cbn. f_equal. lia.
Qed.

Lemma byte_of_ext (l1 l2 : list Z) : len l1 = len l2 -> (forall t, 0 <= t < len l1 -> byte_of l1 t = byte_of l2 t) -> l1 = l2.
Proof.
  intros Hl H. apply (nth_ext l1 l2 0 0); [unfold len in Hl; lia|]. intros k Hk. specialize (H (Z.of_nat k) ltac:(unfold len; lia)).
  unfold byte_of in H. by rewrite Nat2Z.id in H.
Qed.

Lemma frame_ext n f g : (forall t, 0 <= t < n -> f t = g t) -> frame_of n f = frame_of n g.
Proof. intros H. unfold frame_of. apply map_ext_in. intros t Ht. apply H. apply list_elem_of_In, elem_of_seqZ in Ht. lia. Qed.

Lemma map_frame n f g : map g (frame_of n f) = frame_of n (fun t => g (f t)).
Proof. unfold frame_of. by rewrite map_map. Qed.

Lemma frame_cons n f : 0 < n -> frame_of n f = f 0 :: frame_of (n - 1) (fun t => f (t + 1)).
Proof.
  intros Hn. unfold frame_of. rewrite seqZ_cons by lia. cbn [map]. f_equal. rewrite Z.sub_1_r, <- (Z.add_1_l 0), <- fmap_add_seqZ.
  change (Z.add 1 <$> seqZ 0 (Z.pred n)) with (map (Z.add 1) (seqZ 0 (Z.pred n))). rewrite map_map. apply map_ext. intros t. f_equal. lia.
Qed.

Lemma frame_nil f : frame_of 0 f = [].
Proof. done. Qed.

(** The first samples of a row. *)
Lemma row_slice {E} row n : 0 <= n <= len row -> @slice E _ row 0 n = Ok (frame_of n (byte_of row)).
Proof.
  intros Hn. rewrite slice_Ok by lia. f_equal. apply byte_of_ext.
  - rewrite len_sub, len_frame_of by lia. lia.
  - rewrite len_sub by lia. intros t Ht. rewrite byte_of_sub, byte_of_frame by lia. f_equal.
Qed.

Lemma add_row_nat n : forall m f g b, 0 <= m <= Z.of_nat n -> (forall t, 0 <= t < Z.of_nat n -> Z.abs (f t) <= b) -> (forall t, 0 <= t < m -> is_i16 (g t)) -> b + 32768 < I32 ->
  add_row (frame_of (Z.of_nat n) f) (frame_of m g) = Ok (frame_of (Z.of_nat n) (fun t => f t + (if t <? m then g t else 0))).
Proof.
  induction n as [|n IH]; intros m f g b Hm Hf Hg Hb.
  - assert (m = 0) as -> by lia. done.
  - rewrite (frame_cons _ f) by lia. destruct (Z.eq_dec m 0) as [->|Hm0].
    { rewrite frame_nil. cbn [add_row]. rewrite <- (frame_cons _ f) by lia. unfold mret, res_ret. f_equal. apply frame_ext. intros t Ht. rewrite (proj2 (Z.ltb_ge t 0)) by lia. lia. }
    rewrite (frame_cons m g) by lia. cbn [add_row]. pose proof (Hf 0 ltac:(lia)) as H0. pose proof (Hg 0 ltac:(lia)) as H1. unfold is_i16 in H1. unfold I32 in *.
    rewrite chk_Ok, bind_Ok by lia. replace (Z.of_nat (S n) - 1) with (Z.of_nat n) by lia.
    rewrite (IH (m - 1) (fun t => f (t + 1)) (fun t => g (t + 1)) b) by (try lia; intros t Ht; (apply Hf || apply Hg); lia). rewrite bind_Ok. unfold mret, res_ret. f_equal.
    rewrite (frame_cons (Z.of_nat (S n))) by lia. replace (Z.of_nat (S n) - 1) with (Z.of_nat n) by lia. rewrite (proj2 (Z.ltb_lt 0 m)) by lia. f_equal.
    apply frame_ext. intros t Ht. f_equal. destruct (Z.ltb_spec t (m - 1)), (Z.ltb_spec (t + 1) m); done || lia.
Qed.

Lemma minus_row_nat n : forall f g b, (forall t, 0 <= t < Z.of_nat n -> Z.abs (f t) <= b) -> (forall t, 0 <= t < Z.of_nat n -> is_i16 (g t)) -> b + 32768 < I32 ->
  minus_row (frame_of (Z.of_nat n) f) (frame_of (Z.of_nat n) g) = Ok (frame_of (Z.of_nat n) (fun t => saturate_i16 (f t - g t))).
Proof.
  induction n as [|n IH]; intros f g b Hf Hg Hb; [done|].
  rewrite (frame_cons _ f), (frame_cons _ g), (frame_cons _ (fun t => saturate_i16 (f t - g t))) by lia. cbn [minus_row].
  pose proof (Hf 0 ltac:(lia)) as H0. pose proof (Hg 0 ltac:(lia)) as H1. unfold is_i16 in H1. unfold I32 in *. rewrite chk_Ok, bind_Ok by lia.
  replace (Z.of_nat (S n) - 1) with (Z.of_nat n) by lia.
  rewrite (IH (fun t => f (t + 1)) (fun t => g (t + 1)) b) by (try lia; intros t Ht; (apply Hf || apply Hg); lia). by rewrite bind_Ok.
Qed.

Lemma whisper_row_nat act n : forall f w g b, (forall t, 0 <= t < Z.of_nat n -> Z.abs (f t) <= b) -> (forall t, 0 <= t < Z.of_nat n -> is_i16 (w t)) ->
  (forall t, 0 <= t < Z.of_nat n -> is_i16 (g t)) -> b + 65536 < I32 ->
  whisper_row act (frame_of (Z.of_nat n) f) (frame_of (Z.of_nat n) w) (frame_of (Z.of_nat n) g) =
    Ok (frame_of (Z.of_nat n) (fun t => saturate_i16 ((if act then f t - g t else f t) + w t))).
Proof.
  induction n as [|n IH]; intros f w g b Hf Hw Hg Hb; [done|].
  rewrite (frame_cons _ f), (frame_cons _ w), (frame_cons _ g), (frame_cons _ (fun t => saturate_i16 _)) by lia. cbn [whisper_row].
  pose proof (Hf 0 ltac:(lia)) as H0. pose proof (Hw 0 ltac:(lia)) as H1. pose proof (Hg 0 ltac:(lia)) as H2. unfold is_i16 in H1, H2. unfold I32 in *.
  assert ((if act then chk 2147483648 (f 0 - g 0) else mret (f 0)) = Ok (E:=unit) (if act then f 0 - g 0 else f 0)) as -> by (destruct act; [by rewrite chk_Ok by lia|done]).
  rewrite bind_Ok. rewrite (chk_Ok 2147483648), bind_Ok by (destruct act; lia). replace (Z.of_nat (S n) - 1) with (Z.of_nat n) by lia.
  rewrite (IH (fun t => f (t + 1)) (fun t => w (t + 1)) (fun t => g (t + 1)) b) by (try lia; intros t Ht; (apply Hf || apply Hw || apply Hg); lia). by rewrite bind_Ok.
Qed.

Lemma add_row_frame n m f g b : 0 <= m <= n -> (forall t, 0 <= t < n -> Z.abs (f t) <= b) -> (forall t, 0 <= t < m -> is_i16 (g t)) -> b + 32768 < I32 ->
  add_row (frame_of n f) (frame_of m g) = Ok (frame_of n (fun t => f t + (if t <? m then g t else 0))).
Proof. intros Hm. rewrite <- (Z2Nat.id n) by lia. apply add_row_nat. lia. Qed.

Lemma minus_row_frame n f g b : 0 <= n -> (forall t, 0 <= t < n -> Z.abs (f t) <= b) -> (forall t, 0 <= t < n -> is_i16 (g t)) -> b + 32768 < I32 ->
  minus_row (frame_of n f) (frame_of n g) = Ok (frame_of n (fun t => saturate_i16 (f t - g t))).
Proof. intros Hn. rewrite <- (Z2Nat.id n) by lia. apply minus_row_nat. Qed.

Lemma whisper_row_frame act n f w g b : 0 <= n -> (forall t, 0 <= t < n -> Z.abs (f t) <= b) -> (forall t, 0 <= t < n -> is_i16 (w t)) ->
  (forall t, 0 <= t < n -> is_i16 (g t)) -> b + 65536 < I32 ->
  whisper_row act (frame_of n f) (frame_of n w) (frame_of n g) = Ok (frame_of n (fun t => saturate_i16 ((if act then f t - g t else f t) + w t))).
Proof. intros Hn. rewrite <- (Z2Nat.id n) by lia. apply whisper_row_nat. Qed.

(** ** The room *)

Section room.
Context (inputs : MixInputs).

Definition row_of (i : Z) : list Z := nth (Z.to_nat i) (mi_pcm inputs) [].
Definition sample (i t : Z) : Z := byte_of (row_of i) t.

(** The sum of some participants, and the bridged room. *)
Definition voices (l : list Z) (t : Z) : Z := foldr (fun i sum => sample i t + sum) 0 l.
Definition bridged (t : Z) : Z := match mi_external inputs with Some external => byte_of external t | None => 0 end.

Record inputs_ok : Prop := {
  io_aligned : inputs_aligned inputs;
  io_count : participant_count inputs <= MAX_PARTICIPANTS;
  io_frame : 0 <= mi_frame_len inputs;
  io_rows : forall i, 0 <= i < participant_count inputs -> mi_frame_len inputs <= len (row_of i) /\ forall t, 0 <= t < mi_frame_len inputs -> is_i16 (sample i t);
  io_external : forall external, mi_external inputs = Some external -> pcm_ok external
}.

Context (Hok : inputs_ok).

Lemma voices_app a b t : voices (a ++ b) t = voices a t + voices b t.
Proof. induction a as [|x a IH]; [done|]. cbn. unfold voices in *. rewrite IH. lia. Qed.

Lemma voices_bound l t : (forall i, i ∈ l -> 0 <= i < participant_count inputs) -> 0 <= t < mi_frame_len inputs -> Z.abs (voices l t) <= 32768 * len l.
Proof.
  intros Hl Ht. induction l as [|i l IH]; [done|]. cbn [voices foldr]. fold (voices l t). rewrite len_cons. specialize (IH ltac:(intros j Hj; apply Hl; by right)).
  destruct (io_rows Hok i ltac:(apply Hl; left)) as (_ & Hs). specialize (Hs t Ht). unfold is_i16 in Hs. lia.
Qed.

Lemma row_at i : 0 <= i < participant_count inputs -> @idx unit _ (mi_pcm inputs) i = Ok (row_of i).
Proof.
  intros Hi. destruct (@idx_in_range unit _ (mi_pcm inputs) i Hi) as (r & Hr & Hlk). rewrite Hr. f_equal. unfold row_of. by rewrite nth_lookup, Hlk.
Qed.

Lemma row_frame i : 0 <= i < participant_count inputs -> @slice unit _ (row_of i) 0 (mi_frame_len inputs) = Ok (frame_of (mi_frame_len inputs) (sample i)).
Proof. intros Hi. destruct (io_rows Hok i Hi) as (Hl & _). pose proof (io_frame Hok). by rewrite row_slice by lia. Qed.

(** The rows still to come, from [index] on. *)
Definition rows_left (index : Z) (rows : list (list Z)) : Prop :=
  0 <= index <= participant_count inputs /\ rows = drop (Z.to_nat index) (mi_pcm inputs).

Lemma rows_left_cons index row rows : rows_left index (row :: rows) -> row = row_of index /\ index < participant_count inputs /\ rows_left (index + 1) rows.
Proof.
  intros (Hi & Hr). assert (index < participant_count inputs) as Hlt by (apply (f_equal length) in Hr; rewrite length_drop in Hr; cbn in Hr; unfold participant_count, len; lia).
  assert (mi_pcm inputs !! Z.to_nat index = Some row) as Hlk by (replace (Z.to_nat index) with (Z.to_nat index + 0)%nat by lia; by rewrite <- lookup_drop, <- Hr).
  split; [unfold row_of; by rewrite nth_lookup, Hlk|]. split; [done|]. split; [lia|].
  replace (Z.to_nat (index + 1)) with (Z.to_nat index + 1)%nat by lia. rewrite <- drop_drop, <- Hr. done.
Qed.

Lemma rows_left_nil index : rows_left index [] -> index = participant_count inputs.
Proof. intros (Hi & Hr). symmetry in Hr. apply (f_equal length) in Hr. rewrite length_drop in Hr. cbn in Hr. unfold participant_count, len in *. lia. Qed.

Context (mask : Z).

(** The active participants from [index] on. *)
Definition active_from (index : Z) : list Z := filter (fun i => Z.testbit mask i = true) (seqZ index (participant_count inputs - index)).

Lemma active_from_cons index : index < participant_count inputs ->
  active_from index = (if Z.testbit mask index then [index] else []) ++ active_from (index + 1).
Proof.
  intros Hi. unfold active_from. rewrite seqZ_cons by lia. rewrite filter_cons. replace (Z.pred (participant_count inputs - index)) with (participant_count inputs - (index + 1)) by lia.
  change (Z.succ index) with (index + 1). destruct (Z.testbit mask index); by case_decide.
Qed.

Lemma len_active_from index : 0 <= index <= participant_count inputs -> len (active_from index) <= participant_count inputs - index.
Proof.
  intros Hi. unfold active_from, len. pose proof (list.length_filter (fun i => Z.testbit mask i = true) (seqZ index (participant_count inputs - index))) as H.
  rewrite length_seqZ in H. lia.
Qed.

Lemma add_rows_frame rows : forall index f, rows_left index rows ->
  (forall t, 0 <= t < mi_frame_len inputs -> Z.abs (f t) <= 32768 * index) ->
  add_rows mask index (mi_frame_len inputs) rows (frame_of (mi_frame_len inputs) f) = Ok (frame_of (mi_frame_len inputs) (fun t => f t + voices (active_from index) t)).
Proof.
  induction rows as [|row rows IH]; intros index f Hleft Hf; cbn [add_rows].
  - rewrite (rows_left_nil _ Hleft). unfold mret, res_ret. f_equal. apply frame_ext. intros t Ht. unfold active_from. rewrite Z.sub_diag. change (voices _ t) with 0. lia.
  - destruct (rows_left_cons _ _ _ Hleft) as (-> & Hlt & Hleft'). pose proof (proj1 (proj1 Hleft)) as Hi. pose proof (io_count Hok) as H64. unfold MAX_PARTICIPANTS in H64. pose proof (io_frame Hok) as Hn.
    rewrite has_bit_testbit by done. rewrite (active_from_cons index Hlt). destruct (Z.testbit mask index).
    + rewrite row_frame, bind_Ok by lia. destruct (io_rows Hok index ltac:(lia)) as (_ & Hs).
      rewrite (add_row_frame _ _ _ _ (32768 * index)) by (try done; unfold I32; lia). rewrite bind_Ok. rewrite IH; [|done|].
      * f_equal. apply frame_ext. intros t Ht. rewrite (proj2 (Z.ltb_lt t _)), voices_app by lia. cbn [voices foldr]. lia.
      * intros t Ht. specialize (Hf t Ht). specialize (Hs t Ht). unfold is_i16 in Hs. rewrite (proj2 (Z.ltb_lt t _)) by lia. lia.
    + unfold mret, res_ret. rewrite bind_Ok. rewrite IH; [done|done|]. intros t Ht. specialize (Hf t Ht). lia.
Qed.

(** What everyone would hear, and what one participant would without itself. *)
Definition room_at (t : Z) : Z := voices (active_from 0) t + bridged t.
Definition others_at (p t : Z) : Z := voices (filter (fun i => i <> p) (active_from 0)) t + bridged t.

Lemma voices_without p l t : NoDup l -> p ∈ l -> voices l t = sample p t + voices (filter (fun i => i <> p) l) t.
Proof.
  induction l as [|i l IH]; intros Hnd Hin; [by apply elem_of_nil in Hin|]. apply list.NoDup_cons in Hnd as (Hni & Hnd). cbn [voices foldr]. fold (voices l t). rewrite filter_cons. case_decide as Hne.
  - apply elem_of_cons in Hin as [->|Hin]; [done|]. rewrite (IH Hnd Hin). cbn [voices foldr]. unfold voices. lia.
  - assert (i = p) as -> by (destruct (Z.eq_dec i p); [done|]; contradiction). f_equal. f_equal. symmetry. clear IH Hnd Hin Hne.
    induction l as [|j l IH]; [done|]. rewrite filter_cons_True; [|intros ->; apply Hni; left]. f_equal. apply IH. intros Hin. apply Hni. by right.
Qed.

Lemma room_minus p t : 0 <= p < participant_count inputs -> Z.testbit mask p = true -> room_at t - sample p t = others_at p t.
Proof.
  intros Hp Hb. unfold room_at, others_at. rewrite (voices_without p (active_from 0)); [lia|apply list.NoDup_filter, NoDup_seqZ|].
  unfold active_from. apply list_elem_of_filter. split; [done|]. apply elem_of_seqZ. lia.
Qed.

Lemma bridged_i16 t : is_i16 (bridged t).
Proof.
  unfold bridged. destruct (mi_external inputs) as [e|] eqn:He; [|unfold is_i16; lia]. pose proof (io_external Hok e He) as Hp. unfold byte_of. rewrite nth_lookup.
  destruct (e !! Z.to_nat t) as [x|] eqn:Hx; cbn; [|unfold is_i16; lia]. unfold pcm_ok in Hp. rewrite Forall_lookup in Hp. by eapply Hp.
Qed.

Lemma room_bound t : 0 <= t < mi_frame_len inputs -> Z.abs (room_at t) <= 32768 * 65.
Proof.
  intros Ht. unfold room_at. pose proof (bridged_i16 t) as Hb. unfold is_i16 in Hb. pose proof (io_count Hok) as H64. unfold MAX_PARTICIPANTS in H64.
  assert (0 <= participant_count inputs) as H0 by apply len_nonneg. pose proof (len_active_from 0 ltac:(lia)).
  assert (Z.abs (voices (active_from 0) t) <= 32768 * len (active_from 0)) as Hv; [|lia].
  apply voices_bound; [|done]. intros i Hi. unfold active_from in Hi. apply list_elem_of_filter in Hi as (_ & Hi). apply elem_of_seqZ in Hi. lia.
Qed.

(** ** The frames of the tick *)

Abbreviation n := (mi_frame_len inputs).

(** The mixer during the tick: whose own frame has been written, and what it is. *)
Record tick_ok (m : Mixer) (own : Z -> option (list Z)) : Prop := {
  tk_own : len (mx_own m) = mx_participant_capacity m;
  tk_buffers : Forall (fun b => len b = mx_frame_capacity m) (mx_own m);
  tk_has : len (mx_has_own m) = mx_participant_capacity m;
  tk_frame : mx_frame_len m = n /\ n <= mx_frame_capacity m;
  tk_count : mx_participant_count m = participant_count inputs /\ participant_count inputs <= mx_participant_capacity m;
  tk_flag : forall p, 0 <= p < participant_count inputs -> mx_has_own m !! Z.to_nat p = Some (bool_decide (is_Some (own p)));
  tk_frames : forall p f, 0 <= p < participant_count inputs -> own p = Some f -> exists b, mx_own m !! Z.to_nat p = Some b /\ take (Z.to_nat n) b = f
}.

(** What stays as the sums left it. *)
Definition same_sums (m m' : Mixer) : Prop :=
  mx_accum m' = mx_accum m /\ mx_listener_buf m' = mx_listener_buf m /\ mx_participant_buf m' = mx_participant_buf m /\
  mx_participant_capacity m' = mx_participant_capacity m /\ mx_frame_capacity m' = mx_frame_capacity m.

Lemma same_sums_trans a b c : same_sums a b -> same_sums b c -> same_sums a c.
Proof. unfold same_sums. intuition congruence. Qed.

Lemma tick_ok_ext m f g : (forall p, 0 <= p < participant_count inputs -> f p = g p) -> tick_ok m f -> tick_ok m g.
Proof.
  intros H [H1 H2 H3 H4 H5 Hf Hfr]. split; try done.
  - intros p Hp. by rewrite <- H, Hf.
  - intros p fr Hp Hg. rewrite <- H in Hg by done. by eapply Hfr.
Qed.

Definition overwrite (own : Z -> option (list Z)) (index : Z) (frame : list Z) (p : Z) : option (list Z) := if p =? index then Some frame else own p.

Lemma set_own_ok m own index frame : tick_ok m own -> 0 <= index < participant_count inputs -> len frame = n ->
  exists m', set_own m index frame = Ok m' /\ tick_ok m' (overwrite own index frame) /\ same_sums m m'.
Proof.
  intros [Ho Hbuf Hh (Hfl & Hcap) (Hcount & Hle) Hflag Hfr] Hi Hf. unfold set_own.
  destruct (@idx_in_range unit _ (mx_own m) index ltac:(lia)) as (b & -> & Hb). rewrite bind_Ok.
  pose proof Hbuf as Hall. rewrite Forall_lookup in Hall. pose proof (Hall _ _ Hb) as Hlb. cbn beta in Hlb. rewrite copy_at_first, bind_Ok by lia.
  rewrite !set_at_insert, !bind_Ok by lia. eexists. split; [reflexivity|]. split; [|done].
  assert ((Z.to_nat index < length (mx_own m))%nat /\ (Z.to_nat index < length (mx_has_own m))%nat) as (Hlt1 & Hlt2) by (unfold len in *; lia).
  split; cbn [mx_own mx_has_own mx_participant_capacity mx_frame_capacity mx_frame_len mx_participant_count]; try done.
  - unfold len in *. by rewrite length_insert.
  - apply Forall_insert; [done|]. rewrite len_app, len_drop. unfold len in *. lia.
  - unfold len in *. by rewrite length_insert.
  - intros p Hp. unfold overwrite. destruct (Z.eqb_spec p index) as [->|Hne]; [by rewrite list_lookup_insert_eq|]. rewrite list_lookup_insert_ne by lia. by apply Hflag.
  - intros p f Hp. unfold overwrite. destruct (Z.eqb_spec p index) as [->|Hne].
    + intros [= <-]. exists (frame ++ drop (length frame) b). split; [by apply list_lookup_insert_eq|]. rewrite take_app_le by (unfold len in Hf; lia).
      apply firstn_all2. unfold len in Hf. lia.
    + intros Hown. rewrite list_lookup_insert_ne by lia. by apply Hfr.
Qed.

(** Each active talker hears the room minus itself. *)
Lemma own_mixes_ok rows : forall index m own, rows_left index rows -> tick_ok m own ->
  exists m', own_mixes mask index n (frame_of n room_at) rows m = Ok m' /\ same_sums m m' /\
    tick_ok m' (fun p => if (index <=? p) && Z.testbit mask p then Some (frame_of n (fun t => saturate_i16 (others_at p t))) else own p).
Proof.
  induction rows as [|row rows IH]; intros index m own Hleft Hm; cbn [own_mixes].
  - exists m. split; [done|]. split; [done|]. eapply tick_ok_ext; [|exact Hm]. intros p Hp. rewrite (rows_left_nil _ Hleft). by rewrite (proj2 (Z.leb_gt _ p)) by lia.
  - destruct (rows_left_cons _ _ _ Hleft) as (-> & Hlt & Hleft'). pose proof (proj1 (proj1 Hleft)) as Hi. rewrite has_bit_testbit by done. destruct (Z.testbit mask index) eqn:Hbit.
    + pose proof (io_frame Hok) as Hn. rewrite row_frame, bind_Ok by lia. destruct (io_rows Hok index ltac:(lia)) as (_ & Hs).
      rewrite (minus_row_frame _ room_at (sample index) (32768 * 65)) by (try done; by apply room_bound).
      rewrite bind_Ok. destruct (set_own_ok m own index (frame_of n (fun t => saturate_i16 (room_at t - sample index t))) Hm ltac:(lia) (len_frame_of n _ Hn)) as (m1 & -> & Hm1 & Hs1). rewrite bind_Ok.
      destruct (IH (index + 1) m1 _ Hleft' Hm1) as (m2 & -> & Hs2 & Hm2). exists m2. split; [done|]. split; [by eapply same_sums_trans|].
      eapply tick_ok_ext; [|exact Hm2]. intros p Hp. cbn beta. unfold overwrite. destruct (Z.eqb_spec p index) as [->|Hne].
      * rewrite (proj2 (Z.leb_gt (index + 1) index)), Z.leb_refl, Hbit by lia. cbn [andb]. f_equal. apply frame_ext. intros t Ht. by rewrite room_minus.
      * assert ((index + 1 <=? p) = (index <=? p)) as -> by (destruct (Z.leb_spec (index + 1) p), (Z.leb_spec index p); done || lia). done.
    + unfold mret, res_ret. rewrite bind_Ok. destruct (IH (index + 1) m own Hleft' Hm) as (m2 & -> & Hs2 & Hm2). exists m2. split; [done|]. split; [done|].
      eapply tick_ok_ext; [|exact Hm2]. intros p Hp. cbn beta. destruct (Z.eq_dec p index) as [->|Hne]; [by rewrite Hbit, !andb_false_r|].
      assert ((index + 1 <=? p) = (index <=? p)) as -> by (destruct (Z.leb_spec (index + 1) p), (Z.leb_spec index p); done || lia). done.
Qed.

(** A routing override for participant [p]: the last one wins. *)
Definition monitored (p : Z) (frame : option (list Z)) (mo : Monitor) : option (list Z) :=
  if (mo_listener mo <? participant_count inputs) && (mo_target mo <? participant_count inputs) && (p =? mo_listener mo)
  then Some (frame_of n (sample (mo_target mo))) else frame.

Lemma apply_monitors_ok monitors : forall m own, Forall (fun mo => 0 <= mo_listener mo /\ 0 <= mo_target mo) monitors -> tick_ok m own ->
  exists m', apply_monitors inputs monitors m = Ok m' /\ same_sums m m' /\ tick_ok m' (fun p => foldl (monitored p) (own p) monitors).
Proof.
  induction monitors as [|mo monitors IH]; intros m own Hpos Hm; cbn [apply_monitors foldl]; [by exists m|].
  apply Forall_cons_1 in Hpos as ((Hl & Ht) & Hpos).
  assert (exists m1, (if (mo_listener mo <? participant_count inputs) && (mo_target mo <? participant_count inputs) then
      target ← idx (mi_pcm inputs) (mo_target mo); target ← slice target 0 n; set_own m (mo_listener mo) target else mret m) = Ok m1 /\
      same_sums m m1 /\ tick_ok m1 (fun p => monitored p (own p) mo)) as (m1 & -> & Hs1 & Hm1).
  { unfold monitored. destruct (Z.ltb_spec (mo_listener mo) (participant_count inputs)), (Z.ltb_spec (mo_target mo) (participant_count inputs)); cbn [andb]; [|by exists m..].
    rewrite row_at, bind_Ok, row_frame, bind_Ok by lia. destruct (set_own_ok m own (mo_listener mo) (frame_of n (sample (mo_target mo))) Hm ltac:(lia)) as (m1 & -> & Hm1 & Hs1).
    { apply len_frame_of, (io_frame Hok). } by exists m1. }
  rewrite bind_Ok. destruct (IH m1 _ Hpos Hm1) as (m2 & -> & Hs2 & Hm2). exists m2. split; [done|]. split; [by eapply same_sums_trans|done].
Qed.

(** A whisper to [p]: what [p] would hear of the room, and the whisper. *)
Definition base_at (p t : Z) : Z := if Z.testbit mask p then others_at p t else room_at t.
Definition whispered (p : Z) (frame : option (list Z)) (w : Whisper) : option (list Z) :=
  if (wh_from w <? participant_count inputs) && (wh_to w <? participant_count inputs) && (p =? wh_to w)
  then Some (frame_of n (fun t => saturate_i16 (base_at p t + sample (wh_from w) t))) else frame.

Lemma apply_whispers_ok whispers : forall m own, Forall (fun w => 0 <= wh_from w /\ 0 <= wh_to w) whispers -> tick_ok m own ->
  exists m', apply_whispers inputs mask (frame_of n room_at) whispers m = Ok m' /\ same_sums m m' /\ tick_ok m' (fun p => foldl (whispered p) (own p) whispers).
Proof.
  induction whispers as [|w whispers IH]; intros m own Hpos Hm; cbn [apply_whispers foldl]; [by exists m|].
  apply Forall_cons_1 in Hpos as ((Hl & Ht) & Hpos). pose proof (io_frame Hok) as Hn.
  assert (exists m1, (if (wh_from w <? participant_count inputs) && (wh_to w <? participant_count inputs) then
      from_pcm ← idx (mi_pcm inputs) (wh_from w); from_pcm ← slice from_pcm 0 n; to_pcm ← idx (mi_pcm inputs) (wh_to w); to_pcm ← slice to_pcm 0 n;
      frame ← whisper_row (has_bit mask (wh_to w)) (frame_of n room_at) from_pcm to_pcm; set_own m (wh_to w) frame else mret m) = Ok m1 /\
      same_sums m m1 /\ tick_ok m1 (fun p => whispered p (own p) w)) as (m1 & -> & Hs1 & Hm1).
  { unfold whispered. destruct (Z.ltb_spec (wh_from w) (participant_count inputs)), (Z.ltb_spec (wh_to w) (participant_count inputs)); cbn [andb]; [|by exists m..].
    rewrite (row_at (wh_from w)), bind_Ok, (row_frame (wh_from w)), bind_Ok, (row_at (wh_to w)), bind_Ok, (row_frame (wh_to w)), bind_Ok by lia. rewrite has_bit_testbit by lia.
    destruct (io_rows Hok (wh_from w) ltac:(lia)) as (_ & Hs1). destruct (io_rows Hok (wh_to w) ltac:(lia)) as (_ & Hs2).
    rewrite (whisper_row_frame _ _ _ _ _ (32768 * 65)) by (try done; by apply room_bound).
    rewrite bind_Ok.
    destruct (set_own_ok m own (wh_to w) _ Hm ltac:(lia) (len_frame_of n (fun t => saturate_i16 ((if Z.testbit mask (wh_to w) then room_at t - sample (wh_to w) t else room_at t) + sample (wh_from w) t)) Hn)) as (m1 & -> & Hm1 & Hs).
    exists m1. split; [done|]. split; [done|]. eapply tick_ok_ext; [|exact Hm1]. intros p Hp. unfold overwrite, base_at. destruct (Z.eqb_spec p (wh_to w)) as [->|]; [|done].
    f_equal. apply frame_ext. intros t Ht2. destruct (Z.testbit mask (wh_to w)) eqn:Hb; [by rewrite room_minus|done]. }
  rewrite bind_Ok. destruct (IH m1 _ Hpos Hm1) as (m2 & -> & Hs2 & Hm2). exists m2. split; [done|]. split; [by eapply same_sums_trans|done].
Qed.

Lemma add_row_take accum : forall row, add_row accum row = add_row accum (take (length accum) row).
Proof.
  induction accum as [|a accum IH]; intros [|r row]; try done. cbn [add_row length take]. destruct (chk I32 (a + r)); [|done..]. rewrite !bind_Ok. by rewrite IH.
Qed.

Lemma take_frame (l : list Z) k : 0 <= k -> take (Z.to_nat k) l = frame_of (Z.min k (len l)) (byte_of l).
Proof.
  intros Hk. pose proof (len_nonneg l). apply byte_of_ext; [rewrite len_take, len_frame_of by lia; lia|]. rewrite len_take. intros t Ht. rewrite byte_of_frame by lia.
  unfold byte_of. rewrite !nth_lookup, lookup_take_lt by lia. done.
Qed.

Lemma add_bridged f : (forall t, 0 <= t < n -> Z.abs (f t) <= 32768 * 64) ->
  (match mi_external inputs with Some external => add_row (frame_of n f) external | None => mret (frame_of n f) end) = Ok (frame_of n (fun t => f t + bridged t)).
Proof.
  intros Hf. pose proof (io_frame Hok) as Hn. unfold bridged. destruct (mi_external inputs) as [e|] eqn:He.
  - rewrite add_row_take. assert (length (frame_of n f) = Z.to_nat n) as -> by (pose proof (len_frame_of n f Hn) as H; unfold len in H; lia).
    rewrite take_frame by done. pose proof (len_nonneg e) as H0. rewrite (add_row_frame _ _ _ _ (32768 * 64)); [|lia|done| |unfold I32; lia].
    + f_equal. apply frame_ext. intros t Ht. f_equal. destruct (Z.ltb_spec t (Z.min n (len e))); [done|]. unfold byte_of. rewrite nth_lookup, lookup_ge_None_2 by (unfold len in *; lia). done.
    + intros t Ht. pose proof (bridged_i16 t) as Hb. unfold bridged in Hb. by rewrite He in Hb.
  - unfold mret, res_ret. f_equal. apply frame_ext. intros t _. lia.
Qed.

(** ** What each participant hears *)

Definition hears (whispers : list Whisper) (monitors : list Monitor) (p : Z) : list Z :=
  default (frame_of n (fun t => saturate_i16 (base_at p t))) (foldl (whispered p) (foldl (monitored p) None monitors) whispers).

Lemma monitored_base p o monitors : foldl (monitored p) o monitors = match foldl (monitored p) None monitors with Some f => Some f | None => o end.
Proof.
  induction monitors as [|mo monitors IH] using rev_ind; [done|]. rewrite !foldl_snoc, IH. destruct (foldl (monitored p) None monitors); unfold monitored; by destruct (_ && _ && _).
Qed.

Lemma whispered_base p o whispers : foldl (whispered p) o whispers = match foldl (whispered p) None whispers with Some f => Some f | None => o end.
Proof.
  induction whispers as [|w whispers IH] using rev_ind; [done|]. rewrite !foldl_snoc, IH. destruct (foldl (whispered p) None whispers); unfold whispered; by destruct (_ && _ && _).
Qed.

Lemma output_ok m own p listener : tick_ok m own -> 0 <= p < participant_count inputs -> listener_mix m = Ok listener ->
  output_for m p = Ok (default listener (own p)).
Proof.
  intros [Ho Hbuf Hh (Hfl & Hcap) (Hcount & Hle) Hflag Hfr] Hp Hl. unfold output_for, has_distinct_output. rewrite Hcount, (proj2 (Z.ltb_lt p _)) by lia.
  rewrite (idx_lookup (mx_has_own m) p (bool_decide (is_Some (own p)))) by (try lia; by apply Hflag). rewrite bind_Ok. destruct (own p) as [f|] eqn:Hown.
  - rewrite bool_decide_true by eauto. destruct (Hfr p f Hp Hown) as (b & Hb & Hf). rewrite (idx_lookup (mx_own m) p b), bind_Ok by (done || lia).
    rewrite Forall_lookup in Hbuf. pose proof (Hbuf _ _ Hb) as Hlb. cbn beta in Hlb. pose proof (io_frame Hok) as Hn. rewrite Hfl, slice_Ok by lia. unfold sub. by rewrite drop_0, Z.sub_0_r, Hf.
  - rewrite bool_decide_false by (intros [? ?]; done). exact Hl.
Qed.

End room.

Lemma private_testbit count whispers i : 0 <= i -> Forall (fun w => 0 <= wh_from w) whispers ->
  Z.testbit (private_sources count whispers) i = existsb (fun w => (wh_from w =? i) && (i <? count)) whispers.
Proof.
  intros Hi. induction whispers as [|w whispers IH] using rev_ind; intros Hpos; [by rewrite Z.bits_0|].
  apply Forall_app in Hpos as (Hpos & Hw). apply Forall_cons_1 in Hw as (Hw & _). unfold private_sources in *. rewrite foldl_snoc, existsb_app. cbn [existsb]. rewrite orb_false_r, <- IH by done.
  destruct (Z.ltb_spec (wh_from w) count).
  - rewrite testbit_set by done. f_equal. destruct (Z.eqb_spec i (wh_from w)), (Z.eqb_spec (wh_from w) i), (Z.ltb_spec i count); done || lia.
  - destruct (Z.eqb_spec (wh_from w) i), (Z.ltb_spec i count); try lia; by rewrite orb_false_r.
Qed.

(** The buffers of a mixer, whatever is in them. *)
Record mixer_ok (m : Mixer) : Prop := {
  mk_capacity : 0 <= mx_participant_capacity m <= MAX_PARTICIPANTS;
  mk_accum : len (mx_accum m) = mx_frame_capacity m;
  mk_listener : len (mx_listener_buf m) = mx_frame_capacity m;
  mk_participant : len (mx_participant_buf m) = mx_frame_capacity m;
  mk_own : len (mx_own m) = mx_participant_capacity m;
  mk_buffers : Forall (fun b => len b = mx_frame_capacity m) (mx_own m);
  mk_has : len (mx_has_own m) = mx_participant_capacity m
}.

Lemma mixer_new_ok participants frames : 0 <= participants -> 0 <= frames -> mixer_ok (Mixer_new participants frames).
Proof.
  intros Hp Hf. unfold Mixer_new. split; cbn [mx_participant_capacity mx_frame_capacity mx_accum mx_listener_buf mx_participant_buf mx_own mx_has_own];
    rewrite ?len_replicate; unfold MAX_PARTICIPANTS; try lia. apply Forall_replicate. rewrite len_replicate. lia.
Qed.

Lemma copy_prefix {E A} (buf values : list A) k : len values = k -> k <= len buf ->
  exists buf', @copy_at E A buf 0 values = Ok buf' /\ len buf' = len buf /\ take (Z.to_nat k) buf' = values.
Proof.
  intros Hv Hk. rewrite copy_at_first by lia. eexists. split; [reflexivity|]. split; [rewrite len_app, len_drop; unfold len in *; lia|].
  rewrite take_app_le by (unfold len in Hv; lia). apply firstn_all2. unfold len in Hv. lia.
Qed.

Lemma slice_prefix {E A} (buf : list A) k : 0 <= k <= len buf -> @slice E A buf 0 k = Ok (take (Z.to_nat k) buf).
Proof. intros Hk. rewrite slice_Ok by lia. unfold sub. by rewrite drop_0, Z.sub_0_r. Qed.

Lemma active_bound inputs mask t : inputs_ok inputs -> 0 <= t < mi_frame_len inputs -> Z.abs (voices inputs (active_from inputs mask 0) t) <= 32768 * 64.
Proof.
  intros Hin Ht. pose proof (io_count _ Hin) as H64. unfold MAX_PARTICIPANTS in H64. assert (0 <= participant_count inputs) as H0 by apply len_nonneg.
  pose proof (len_active_from inputs mask 0 ltac:(lia)). assert (Z.abs (voices inputs (active_from inputs mask 0) t) <= 32768 * len (active_from inputs mask 0)) as Hv; [|lia].
  apply (voices_bound inputs Hin); [|done]. intros i Hi. unfold active_from in Hi. apply list_elem_of_filter in Hi as (_ & Hi). apply elem_of_seqZ in Hi. lia.
Qed.

Lemma whisperer_inactive inputs whispers top_m mask w : speakers inputs (private_sources (participant_count inputs) whispers) top_m mask ->
  Forall (fun w => 0 <= wh_from w) whispers -> w ∈ whispers -> Z.testbit mask (wh_from w) = false.
Proof.
  intros Hsp Hw Hin. pose proof Hw as Hall. rewrite List.Forall_forall in Hall. pose proof (Hall w (proj1 (list_elem_of_In _ _) Hin)) as Hwf. cbn beta in Hwf.
  destruct (Z.testbit mask (wh_from w)) eqn:Hb; [|done]. destruct (sp_in _ _ _ _ Hsp (wh_from w) Hwf Hb) as (Hlt & Hc). unfold candidate in Hc. rewrite private_testbit in Hc by done.
  assert (existsb (fun w0 => (wh_from w0 =? wh_from w) && (wh_from w <? participant_count inputs)) whispers = true) as Hex.
  { apply existsb_exists. exists w. split; [by apply list_elem_of_In|]. rewrite Z.eqb_refl. by apply Z.ltb_lt. }
  rewrite Hex in Hc. by repeat case_match.
Qed.

(** C31. The conference mix bus.  From any mixer whose buffers have their sizes,
    whatever earlier ticks left in them, and for up to 64 participants with full
    frames, one tick does not panic and no sum overflows; the active speakers it
    reports are speaking talkers that do not whisper, all of them without a cap, else
    as many of the loudest as the cap and the 8 slots allow; and each participant
    hears exactly: the saturated sum of the active speakers other than itself and the
    bridged room, or, for the last monitor it has, the monitored participant alone,
    or, for the last whisper to it, its room and the whisperer.  The shared frame is
    the sum of all, the frame for a bridged room leaves the bridged audio out, and a
    whisperer is in no sum. *)
Theorem mixer_hears m inputs whispers monitors top_m :
  mixer_ok m -> inputs_ok inputs -> participant_count inputs <= mx_participant_capacity m -> mi_frame_len inputs <= mx_frame_capacity m ->
  Forall (fun w => 0 <= wh_from w /\ 0 <= wh_to w) whispers -> Forall (fun mo => 0 <= mo_listener mo /\ 0 <= mo_target mo) monitors -> 0 <= top_m ->
  exists mask m', mix m inputs whispers monitors top_m = Ok (mask, m') /\ mixer_ok m' /\
    speakers inputs (private_sources (participant_count inputs) whispers) top_m mask /\
    (forall p, 0 <= p < participant_count inputs -> output_for m' p = Ok (hears inputs mask whispers monitors p)) /\
    listener_mix m' = Ok (frame_of (mi_frame_len inputs) (fun t => saturate_i16 (room_at inputs mask t))) /\
    participant_mix m' = Ok (frame_of (mi_frame_len inputs) (fun t => saturate_i16 (voices inputs (active_from inputs mask 0) t))) /\
    (forall w, w ∈ whispers -> Z.testbit mask (wh_from w) = false).
Proof.
  intros [Hcap Hac Hli Hpa How Hbu Hha] Hin Hcount Hframe Hw Hmo Ht. pose proof Hin as [Hal _ Hn _ _]. pose proof Hal as (Hr & He & Hs). pose proof (len_nonneg (mi_pcm inputs)) as H0.
  unfold mix. unfold assert_that. rewrite (proj2 (Z.leb_le _ _) Hcount), (proj2 (Z.leb_le _ _) Hframe). rewrite (proj2 (Z.eqb_eq _ _) Hr), (proj2 (Z.eqb_eq _ _) He), (proj2 (Z.eqb_eq _ _) Hs).
  cbn [andb]. unfold mret at 1 2 3, res_ret at 1 2 3. rewrite !bind_Ok.
  set (count := participant_count inputs) in *. set (n := mi_frame_len inputs) in *.
  destruct (copy_prefix (E:=unit) (mx_has_own m) (replicate (Z.to_nat count) false) count) as (has & -> & Hhl & Hhas); [rewrite len_replicate; unfold count, participant_count; lia|lia|]. rewrite bind_Ok.
  destruct (select_ok inputs (private_sources count whispers) top_m Hal Ht) as (mask & -> & Hsp). rewrite bind_Ok.
  rewrite slice_prefix, bind_Ok by lia.
  assert (map (fun _ => 0) (take (Z.to_nat n) (mx_accum m)) = frame_of n (fun _ => 0)) as ->.
  { apply byte_of_ext; [rewrite len_map, len_take, len_frame_of by done; lia|]. rewrite len_map, len_take. intros t Htt. rewrite byte_of_frame by lia. unfold byte_of. rewrite nth_lookup, list_lookup_fmap.
    by destruct (take _ _ !! _). }
  rewrite (add_rows_frame inputs Hin mask) by first [intros t _; lia|split; [unfold count, participant_count in *; lia|done]]. rewrite bind_Ok.
  fold n. match goal with |- context [map saturate_i16 (frame_of n ?f)] =>
    rewrite (frame_ext n f (voices inputs (active_from inputs mask 0))) by (intros t _; cbn beta; lia) end. rewrite map_frame.
  destruct (copy_prefix (E:=unit) (mx_participant_buf m) (frame_of n (fun t => saturate_i16 (voices inputs (active_from inputs mask 0) t))) n) as (pbuf & -> & Hpl & Hpb); [by apply len_frame_of|lia|]. rewrite bind_Ok.
  rewrite (add_bridged inputs Hin).
  2:{ intros t Htt. by apply active_bound. }
  rewrite bind_Ok. 
  match goal with |- context [copy_at (mx_accum m) 0 (frame_of ?k ?f)] => change (frame_of k f) with (frame_of n (room_at inputs mask)) end. rewrite map_frame.
  destruct (copy_prefix (E:=unit) (mx_accum m) (frame_of n (room_at inputs mask)) n) as (accum & -> & Hacl & _); [by apply len_frame_of|lia|]. rewrite bind_Ok.
  destruct (copy_prefix (E:=unit) (mx_listener_buf m) (frame_of n (fun t => saturate_i16 (room_at inputs mask t))) n) as (lbuf & -> & Hll & Hlb); [by apply len_frame_of|lia|]. rewrite bind_Ok.
  set (m0 := mkMixer _ _ accum lbuf pbuf _ has n count).
  assert (tick_ok inputs m0 (fun _ => None)) as Hm0.
  { split; cbn [m0 mx_own mx_has_own mx_participant_capacity mx_frame_capacity mx_frame_len mx_participant_count]; try done; [congruence|].
    intros p Hp. rewrite bool_decide_false by (intros [? ?]; done). assert (take (Z.to_nat count) has !! Z.to_nat p = Some false) as Htk.
    { rewrite Hhas. apply lookup_replicate. fold count in Hp. split; [done|lia]. }
    apply lookup_take_Some in Htk. tauto. }
  destruct (own_mixes_ok inputs Hin mask (mi_pcm inputs) 0 m0 _ (conj (conj (Z.le_refl 0) H0) eq_refl) Hm0) as (m1 & Hr1 & Hs1 & Hm1). fold n in Hr1. rewrite Hr1, bind_Ok.
  destruct (apply_monitors_ok inputs Hin monitors m1 _ Hmo Hm1) as (m2 & -> & Hs2 & Hm2). rewrite bind_Ok.
  destruct (apply_whispers_ok inputs Hin mask whispers m2 _ Hw Hm2) as (m3 & Hr3 & Hs3 & Hm3). fold n in Hr3. rewrite Hr3, bind_Ok.
  exists mask, m3. split; [done|]. pose proof (same_sums_trans _ _ _ Hs1 (same_sums_trans _ _ _ Hs2 Hs3)) as (HA & HL & HP & HC & HF). cbn [m0 mx_accum mx_listener_buf mx_participant_buf mx_participant_capacity mx_frame_capacity] in *.
  pose proof Hm3 as [Ho3 Hb3 Hh3 (Hfl3 & _) _ _ _].
  split; [split; congruence|]. split; [done|].
  assert (listener_mix m3 = Ok (frame_of n (fun t => saturate_i16 (room_at inputs mask t)))) as Hlis.
  { unfold listener_mix. rewrite HL, Hfl3. fold n. rewrite slice_prefix by lia. by rewrite Hlb. }
  split; [|split; [done|split]].
  - intros p Hp. rewrite (output_ok inputs Hin m3 _ p _ Hm3 Hp Hlis). f_equal. unfold hears. rewrite whispered_base, monitored_base, (whispered_base _ _ _ (foldl (monitored inputs p) None monitors)).
    destruct (foldl (whispered inputs mask p) None whispers) as [f|]; [done|]. destruct (foldl (monitored inputs p) None monitors) as [f|]; [done|].
    rewrite (proj2 (Z.leb_le 0 p)) by lia. unfold base_at. fold n. by destruct (Z.testbit mask p).
  - unfold participant_mix. rewrite HP, Hfl3. fold n. rewrite slice_prefix by lia. by rewrite Hpb.
  - intros w Hin2. eapply whisperer_inactive; [exact Hsp| |exact Hin2]. eapply Forall_impl; [|exact Hw]. by intros x (Hx & _).
Qed.

(** Four participants: 0 and 1 talk, 2 whispers to 1, 3 listens to 0 alone; a bridged
    room adds 100. *)
Definition example_inputs : MixInputs :=
  mkMixInputs [[1000; 2000; 9]; [300; 30000; 9]; [5; 6; 9]; [7; 8; 9]] [Talker; Talker; Talker; Listener] [500; 400; 900; 0] [true; true; true; false]
    (Some [100; 100]) 2.
Definition example_whispers : list Whisper := [mkWhisper 2 1].
Definition example_monitors : list Monitor := [mkMonitor 3 0].

Lemma example_inputs_ok : inputs_ok example_inputs.
Proof.
  split; [done|done|done| |].
  - intros i Hi. change (participant_count example_inputs) with 4 in Hi. change (mi_frame_len example_inputs) with 2.
    assert (i = 0 \/ i = 1 \/ i = 2 \/ i = 3) as Hc by lia. split; [repeat destruct Hc as [->|Hc]; try rewrite Hc; vm_compute; discriminate|].
    intros t Ht. assert (t = 0 \/ t = 1) as Hc' by lia. unfold is_i16. repeat destruct Hc as [->|Hc]; try rewrite Hc; destruct Hc' as [->| ->]; vm_compute; (split; discriminate).
  - intros e [= <-]. repeat constructor; lia.
Qed.

Lemma mixer_hears_witness :
  exists m', mix (Mixer_new 8 3) example_inputs example_whispers example_monitors 2 = Ok (3, m') /\
    output_for m' 0 = Ok [400; 30100] /\ output_for m' 1 = Ok [1105; 2106] /\ output_for m' 2 = Ok [1400; 32100] /\ output_for m' 3 = Ok [1000; 2000] /\
    participant_mix m' = Ok [1300; 32000] /\ Z.testbit 3 2 = false.
Proof.
  destruct (mixer_hears (Mixer_new 8 3) example_inputs example_whispers example_monitors 2) as (mask & m' & Hmix & _ & _ & Hout & _ & Hp & Hw);
    [apply mixer_new_ok; lia|apply example_inputs_ok|vm_compute; discriminate|vm_compute; discriminate|repeat constructor; cbn; lia|repeat constructor; cbn; lia|lia|].
  pose proof Hmix as Hm. vm_compute in Hm. injection Hm as <- _. exists m'. split; [exact Hmix|].
  split; [rewrite (Hout 0); [reflexivity|vm_compute; split; [discriminate|reflexivity]]|].
  split; [rewrite (Hout 1); [reflexivity|vm_compute; split; [discriminate|reflexivity]]|].
  split; [rewrite (Hout 2); [reflexivity|vm_compute; split; [discriminate|reflexivity]]|].
  split; [rewrite (Hout 3); [reflexivity|vm_compute; split; [discriminate|reflexivity]]|].
  split; [rewrite Hp; reflexivity|]. apply (Hw (mkWhisper 2 1)). left.
Defined.

(** Two participants whisper to a third: only the later of the two is heard, though
    each one's audio is meant for it. *)
Definition two_whisperers : MixInputs :=
  mkMixInputs [[1000]; [20]; [3]] [Talker; Talker; Listener] [9; 9; 0] [true; true; false] None 1.

Lemma second_whisper_replaces_first :
  exists m', mix (Mixer_new 8 1) two_whisperers [mkWhisper 0 2; mkWhisper 1 2] [] 0 = Ok (0, m') /\ output_for m' 2 = Ok [20].
Proof. eexists. split; [vm_compute; reflexivity|vm_compute; reflexivity]. Qed.
