(* ===== verification/TextMixer.v ===== *)
(** * The conference text bus: crates/siphon-rtp-media/src/text_mixer.rs

    Each participant's reassembled T.140 text in, one packet per other participant
    out on every flush.  Participants are indexed as the source's vector; the
    generation ring is its two-slot array, stale slots included, and the payloads
    of a flush lie one behind another in the arena the emits point into.  Indexing,
    slicing and draining out of range are [Panic]s. *)

From stdpp Require Import base list numbers option.
From Stdlib Require Import Lia ZArith.
From S2P Require Import Prelude Utf8 T140.

Open Scope Z_scope.

Definition MAX_TEXT_PARTICIPANTS : Z := 64.
Definition MAX_TEXT_REDUNDANCY : Z := 2.
Definition MAX_PENDING_TEXT_BYTES : Z := 300.

Record TextSourceConfig : Type := mkTextSourceConfig {
  tc_source_id : Z;
  tc_t140_payload_type : Z;
  tc_red_payload_type : option Z
}.

Record Generation : Type := mkGeneration { gn_timestamp : Z; gn_data : bytes }.

Record TextSource : Type := mkTextSource {
  ts_config : option TextSourceConfig;
  ts_pending : bytes;
  ts_generations : list Generation;
  ts_generation_count : Z;
  ts_active_last_flush : bool
}.

Definition TextSource_new (config : option TextSourceConfig) : TextSource :=
  mkTextSource config [] (replicate (Z.to_nat MAX_TEXT_REDUNDANCY) (mkGeneration 0 [])) 0 false.

Record TextEmit : Type := mkTextEmit {
  te_receiver : Z;
  te_source_csrc : Z;
  te_payload_type : Z;
  te_timestamp : Z;
  te_marker : bool;
  te_payload_start : Z;
  te_payload_len : Z
}.

Record TextMixer : Type := mkTextMixer {
  tx_sources : list TextSource;
  tx_flush_interval_ms : Z;
  tx_emits : list TextEmit;
  tx_arena : bytes;
  tx_red_scratch : bytes
}.

(** No operation of the bus returns an error. *)
Notation bus := (res unit).

Definition with_sources (m : TextMixer) (sources : list TextSource) : TextMixer :=
  mkTextMixer sources (tx_flush_interval_ms m) (tx_emits m) (tx_arena m) (tx_red_scratch m).
Definition with_emits (m : TextMixer) (emits : list TextEmit) : TextMixer :=
  mkTextMixer (tx_sources m) (tx_flush_interval_ms m) emits (tx_arena m) (tx_red_scratch m).
Definition with_arena (m : TextMixer) (arena : bytes) : TextMixer :=
  mkTextMixer (tx_sources m) (tx_flush_interval_ms m) (tx_emits m) arena (tx_red_scratch m).
Definition with_scratch (m : TextMixer) (scratch : bytes) : TextMixer :=
  mkTextMixer (tx_sources m) (tx_flush_interval_ms m) (tx_emits m) (tx_arena m) scratch.

Definition with_pending (s : TextSource) (pending : bytes) : TextSource :=
  mkTextSource (ts_config s) pending (ts_generations s) (ts_generation_count s) (ts_active_last_flush s).
Definition with_ring (s : TextSource) (generations : list Generation) (count : Z) : TextSource :=
  mkTextSource (ts_config s) (ts_pending s) generations count (ts_active_last_flush s).
Definition with_active (s : TextSource) (active : bool) : TextSource :=
  mkTextSource (ts_config s) (ts_pending s) (ts_generations s) (ts_generation_count s) active.

(** ** The room *)

Definition TextMixer_new (flush_interval_ms : Z) : TextMixer :=
  mkTextMixer [] (Z.max flush_interval_ms 1) [] [] [].

Definition add_participant (m : TextMixer) (config : option TextSourceConfig) : bool * TextMixer :=
  if MAX_TEXT_PARTICIPANTS <=? len (tx_sources m) then (false, m)
  else (true, with_sources m (tx_sources m ++ [TextSource_new config])).

Definition remove_participant (m : TextMixer) (index : Z) : bool * TextMixer :=
  if len (tx_sources m) <=? index then (false, m)
  else (true, with_sources m (delete (Z.to_nat index) (tx_sources m))).

Definition participant_count (m : TextMixer) : Z := len (tx_sources m).

Definition has_text_leg (m : TextMixer) (index : Z) : bool :=
  match get_at (tx_sources m) index with
  | Some source => match ts_config source with Some _ => true | None => false end
  | None => false
  end.

Definition TextMixer_push_text (m : TextMixer) (index : Z) (text : bytes) : bus TextMixer :=
  match get_at (tx_sources m) index with
  | None => mret m
  | Some source =>
      match ts_config source with
      | None => mret m
      | Some _ =>
          if len text =? 0 then mret m else
          incoming ← (if MAX_PENDING_TEXT_BYTES <? len text
                      then slice text (len text - MAX_PENDING_TEXT_BYTES) (len text) else mret text);
          let overflow := saturating_sub (len (ts_pending source) + len incoming) MAX_PENDING_TEXT_BYTES in
          pending ← (if 0 <? overflow then slice (ts_pending source) overflow (len (ts_pending source))
                     else mret (ts_pending source));
          sources ← set_at (tx_sources m) index (with_pending source (pending ++ incoming));
          mret (with_sources m sources)
      end
  end.

(** ** Payloads *)

(** The generation table of [build_red]: the slots written so far, and how many. *)
Fixpoint fill_generations (t140_pt : Z) (generations : list Generation) (table : list RedGeneration) (count : Z)
  : bus (list RedGeneration * Z) :=
  match generations with
  | [] => mret (table, count)
  | g :: generations =>
      table ← set_at table count (mkRedGeneration t140_pt (gn_timestamp g) (gn_data g));
      fill_generations t140_pt generations table (count + 1)
  end.

Definition build_red (m : TextMixer) (source_index t140_pt now_ts : Z) : bus TextMixer :=
  source ← idx (tx_sources m) source_index;
  history ← slice (ts_generations source) 0 (ts_generation_count source);
  '(table, count) ← fill_generations t140_pt history
                      (replicate (Z.to_nat MAX_TEXT_REDUNDANCY) (mkRedGeneration 0 0 [])) 0;
  redundant ← slice table 0 count;
  match RedBuilder_write_into (mkRedBuilder t140_pt now_ts (ts_pending source) redundant) with
  | (Ok _, out) => mret (with_scratch m out)
  | (Err _, _) =>
      match RedBuilder_write_into (mkRedBuilder t140_pt now_ts (ts_pending source) []) with
      | (Panic, _) => Panic
      | (_, out) => mret (with_scratch m out)
      end
  | (Panic, _) => Panic
  end.

(** The payload type, and where the payload lies in the arena. *)
Definition build_payload (m : TextMixer) (source_index receiver_t140_pt : Z) (receiver_red_pt : option Z) (now_ts : Z)
  : bus (Z * Z * Z * TextMixer) :=
  let start := len (tx_arena m) in
  '(payload_type, m) ←
    match receiver_red_pt with
    | Some red_pt =>
        m ← build_red m source_index receiver_t140_pt now_ts;
        mret (red_pt, with_arena m (tx_arena m ++ tx_red_scratch m))
    | None =>
        source ← idx (tx_sources m) source_index;
        mret (receiver_t140_pt, with_arena m (tx_arena m ++ ts_pending source))
    end;
  size ← usub (len (tx_arena m)) start;
  mret (payload_type, start, size, m).

Definition advance_generation (m : TextMixer) (source_index now_ts : Z) : bus TextMixer :=
  source ← idx (tx_sources m) source_index;
  let '(generations, count, target) :=
    if ts_generation_count source <? MAX_TEXT_REDUNDANCY
    then (ts_generations source, ts_generation_count source + 1, ts_generation_count source)
    else (drop 1 (ts_generations source) ++ take 1 (ts_generations source), ts_generation_count source,
          MAX_TEXT_REDUNDANCY - 1) in
  generations ← set_at generations target (mkGeneration now_ts (ts_pending source));
  sources ← set_at (tx_sources m) source_index (with_active (with_pending (with_ring source generations count) []) true);
  mret (with_sources m sources).

(** ** The flush *)

(** [for receiver in 0..count]. *)
Fixpoint flush_receivers (source_index csrc now_ts : Z) (marker : bool) (receivers : list Z) (m : TextMixer) : bus TextMixer :=
  match receivers with
  | [] => mret m
  | receiver :: receivers =>
      if receiver =? source_index then flush_receivers source_index csrc now_ts marker receivers m else
      target ← idx (tx_sources m) receiver;
      match ts_config target with
      | None => flush_receivers source_index csrc now_ts marker receivers m
      | Some receiver_cfg =>
          '(payload_type, start, size, m) ← build_payload m source_index (tc_t140_payload_type receiver_cfg)
                                              (tc_red_payload_type receiver_cfg) now_ts;
          flush_receivers source_index csrc now_ts marker receivers
            (with_emits m (tx_emits m ++ [mkTextEmit receiver csrc payload_type now_ts marker start size]))
      end
  end.

(** [for source_index in 0..count]. *)
Fixpoint flush_sources (count now_ts : Z) (indices : list Z) (m : TextMixer) : bus TextMixer :=
  match indices with
  | [] => mret m
  | source_index :: indices =>
      source ← idx (tx_sources m) source_index;
      match ts_config source with
      | None => flush_sources count now_ts indices m
      | Some source_cfg =>
          match ts_pending source with
          | [] =>
              sources ← set_at (tx_sources m) source_index (with_active (with_ring source (ts_generations source) 0) false);
              flush_sources count now_ts indices (with_sources m sources)
          | _ :: _ =>
              m ← flush_receivers source_index (tc_source_id source_cfg) now_ts
                    (negb (ts_active_last_flush source)) (seqZ 0 count) m;
              m ← advance_generation m source_index now_ts;
              flush_sources count now_ts indices m
          end
      end
  end.

Definition flush_clock (flush_counter flush_interval_ms : Z) : Z := wrap 32 (wrap 64 (flush_counter * flush_interval_ms)).

Definition TextMixer_flush (m : TextMixer) (flush_counter : Z) : bus (Z * TextMixer) :=
  let m := with_arena (with_emits m []) [] in
  let now_ts := flush_clock flush_counter (tx_flush_interval_ms m) in
  let count := len (tx_sources m) in
  m ← flush_sources count now_ts (seqZ 0 count) m;
  mret (len (tx_emits m), m).

Definition payload_of (m : TextMixer) (emit : TextEmit) : bus bytes :=
  slice (tx_arena m) (te_payload_start emit) (te_payload_start emit + te_payload_len emit).

(** ** A run of the bus

    What the conference calls, and what it gets: the emits of a flush with the
    payloads they point at. *)

Record delivery (C : Type) : Type := mkDelivery {
  dl_receiver : Z;
  dl_source_csrc : Z;
  dl_payload_type : Z;
  dl_timestamp : Z;
  dl_marker : bool;
  dl_content : C
}.
Arguments mkDelivery {C}.
Arguments dl_receiver {C}.
Arguments dl_source_csrc {C}.
Arguments dl_payload_type {C}.
Arguments dl_timestamp {C}.
Arguments dl_marker {C}.
Arguments dl_content {C}.

Inductive text_event : Type :=
| Seat (config : option TextSourceConfig)
| Unseat (index : Z)
| Type_text (index : Z) (text : bytes)
| Flush (flush_counter : Z).

Inductive text_outcome (C : Type) : Type :=
| Seated (accepted : bool)
| Unseated (accepted : bool)
| Queued
| Sent (deliveries : list (delivery C)).
Arguments Seated {C}.
Arguments Unseated {C}.
Arguments Queued {C}.
Arguments Sent {C}.

Fixpoint read_emits (m : TextMixer) (emits : list TextEmit) : bus (list (delivery bytes)) :=
  match emits with
  | [] => mret []
  | e :: emits =>
      payload ← payload_of m e;
      rest ← read_emits m emits;
      mret (mkDelivery (te_receiver e) (te_source_csrc e) (te_payload_type e) (te_timestamp e) (te_marker e) payload :: rest)
  end.

Definition text_handle (m : TextMixer) (e : text_event) : bus (text_outcome bytes * TextMixer) :=
  match e with
  | Seat config => let '(accepted, m) := add_participant m config in mret (Seated accepted, m)
  | Unseat index => let '(accepted, m) := remove_participant m index in mret (Unseated accepted, m)
  | Type_text index text => m ← TextMixer_push_text m index text; mret (Queued, m)
  | Flush counter =>
      '(count, m) ← TextMixer_flush m counter;
      deliveries ← read_emits m (tx_emits m);
      if count =? len deliveries then mret (Sent deliveries, m) else Panic
  end.

Fixpoint text_run (m : TextMixer) (events : list text_event) : bus (list (text_outcome bytes) * TextMixer) :=
  match events with
  | [] => mret ([], m)
  | e :: events =>
      '(out, m) ← text_handle m e;
      '(outs, m) ← text_run m events;
      mret (out :: outs, m)
  end.

(** ** What a room promises

    A seat: what it was given as payload types, all the text typed since the last
    flush, and every generation sent since it was last idle, with no bound on
    either.  A flush sends the newest 300 bytes of what was typed to every other
    text seat, with the last two generations where their offsets fit. *)

Record seat : Type := mkSeat { st_config : option TextSourceConfig; st_queue : bytes; st_log : list (Z * bytes) }.

Inductive content : Type := Bare (text : bytes) | Red (p : RedPacket).

Definition spoken (s : seat) : bytes := last_n MAX_PENDING_TEXT_BYTES (st_queue s).
Definition remembered (s : seat) : list (Z * bytes) := last_n MAX_TEXT_REDUNDANCY (st_log s).
Definition carried (ts : Z) (s : seat) : list (Z * bytes) :=
  if forallb (fun g => wrapping_sub 32 ts (fst g) <? 2 ^ 14) (remembered s) then remembered s else [].

Definition spec_content (s : seat) (receiver : TextSourceConfig) (ts : Z) : content :=
  let pt := Z.land (tc_t140_payload_type receiver) 0x7F in
  match tc_red_payload_type receiver with
  | None => Bare (spoken s)
  | Some _ => Red (mkRedPacket ((fun g => mkRedBlock pt (wrapping_sub 32 ts (fst g)) (snd g)) <$> carried ts s)
                     (mkRedBlock pt 0 (spoken s)))
  end.

Definition spec_delivery (s : seat) (csrc ts receiver : Z) (config : TextSourceConfig) : delivery content :=
  mkDelivery receiver csrc (default (tc_t140_payload_type config) (tc_red_payload_type config)) ts
    (bool_decide (st_log s = [])) (spec_content s config ts).

(** Seat [i]'s text for the seats from [j] on. *)
Fixpoint copies (i : Z) (s : seat) (csrc ts j : Z) (room : list seat) : list (delivery content) :=
  match room with
  | [] => []
  | r :: room =>
      (if j =? i then [] else
       match st_config r with Some config => [spec_delivery s csrc ts j config] | None => [] end) ++
      copies i s csrc ts (j + 1) room
  end.

Definition sent_by (room : list seat) (ts i : Z) (s : seat) : list (delivery content) :=
  match st_config s, st_queue s with
  | Some config, _ :: _ => copies i s (tc_source_id config) ts 0 room
  | _, _ => []
  end.

Fixpoint sent_from (room : list seat) (ts i : Z) (seats : list seat) : list (delivery content) :=
  match seats with
  | [] => []
  | s :: seats => sent_by room ts i s ++ sent_from room ts (i + 1) seats
  end.

Definition after_flush (ts : Z) (s : seat) : seat :=
  match st_config s with
  | None => s
  | Some _ => mkSeat (st_config s) [] (match st_queue s with [] => [] | _ :: _ => st_log s ++ [(ts, spoken s)] end)
  end.

Definition spec_push (text : bytes) (s : seat) : seat :=
  match st_config s with None => s | Some _ => mkSeat (st_config s) (st_queue s ++ text) (st_log s) end.

Definition room_handle (interval : Z) (room : list seat) (e : text_event) : text_outcome content * list seat :=
  match e with
  | Seat config =>
      if len room <? MAX_TEXT_PARTICIPANTS then (Seated true, room ++ [mkSeat config [] []]) else (Seated false, room)
  | Unseat index =>
      if index <? len room then (Unseated true, delete (Z.to_nat index) room) else (Unseated false, room)
  | Type_text index text => (Queued, alter (spec_push text) (Z.to_nat index) room)
  | Flush counter =>
      let ts := flush_clock counter interval in
      (Sent (sent_from room ts 0 room), after_flush ts <$> room)
  end.

Fixpoint room_run (interval : Z) (room : list seat) (events : list text_event)
  : list (text_outcome content) * list seat :=
  match events with
  | [] => ([], room)
  | e :: events =>
      let '(out, room) := room_handle interval room e in
      let '(outs, room) := room_run interval room events in
      (out :: outs, room)
  end.

(** The largest payload: two generations, the text, their headers. *)
Definition MAX_TEXT_PAYLOAD : Z := MAX_TEXT_REDUNDANCY * (4 + MAX_PENDING_TEXT_BYTES) + 1 + MAX_PENDING_TEXT_BYTES.

Definition content_ok (payload : bytes) (c : content) : Prop :=
  len payload <= MAX_TEXT_PAYLOAD /\
  match c with Bare text => payload = text | Red p => RedPacket_parse payload = Ok p end.

Definition delivery_ok (d : delivery bytes) (e : delivery content) : Prop :=
  dl_receiver d = dl_receiver e /\ dl_source_csrc d = dl_source_csrc e /\ dl_payload_type d = dl_payload_type e /\
  dl_timestamp d = dl_timestamp e /\ dl_marker d = dl_marker e /\ content_ok (dl_content d) (dl_content e).

Definition outcome_ok (o : text_outcome bytes) (e : text_outcome content) : Prop :=
  match o, e with
  | Seated a, Seated b => a = b
  | Unseated a, Unseated b => a = b
  | Queued, Queued => True
  | Sent ds, Sent es => Forall2 delivery_ok ds es
  | _, _ => False
  end.

Definition event_ok (e : text_event) : Prop :=
  match e with
  | Type_text index text => 0 <= index /\ bytes_ok text
  | Unseat index => 0 <= index
  | _ => True
  end.

(** ** The refinement *)

Record seat_ok (src : TextSource) (s : seat) : Prop := {
  so_config : ts_config src = st_config s;
  so_pending : ts_pending src = spoken s;
  so_ring : len (ts_generations src) = MAX_TEXT_REDUNDANCY;
  so_count : ts_generation_count src = Z.min MAX_TEXT_REDUNDANCY (len (st_log s));
  so_history : (fun g => (gn_timestamp g, gn_data g)) <$> sub (ts_generations src) 0 (ts_generation_count src) = remembered s;
  so_active : ts_active_last_flush src = negb (bool_decide (st_log s = []));
  so_idle : st_config s = None -> st_queue s = [] /\ st_log s = [];
  so_bytes : bytes_ok (st_queue s);
  so_log : Forall (fun g => bytes_ok (snd g) /\ len (snd g) <= MAX_PENDING_TEXT_BYTES) (st_log s)
}.

Lemma fill_ok pt history : len history <= MAX_TEXT_REDUNDANCY -> exists table,
  fill_generations pt history (replicate (Z.to_nat MAX_TEXT_REDUNDANCY) (mkRedGeneration 0 0 [])) 0 = Ok (table, len history) /\
  @slice unit _ table 0 (len history) = Ok ((fun g => mkRedGeneration pt (gn_timestamp g) (gn_data g)) <$> history).
Proof.
  intros Hl. destruct history as [|g [|h [|k history]]]; [by eexists..|].
  exfalso. rewrite !len_cons in Hl. pose proof (len_nonneg history). unfold MAX_TEXT_REDUNDANCY in Hl. lia.
Qed.

Definition seat_builder (pt ts : Z) (s : seat) (history : list (Z * bytes)) : RedBuilder :=
  mkRedBuilder pt ts (spoken s) ((fun g => mkRedGeneration pt (fst g) (snd g)) <$> history).

Lemma remembered_log (P : Z * bytes -> Prop) s : Forall P (st_log s) -> Forall P (remembered s).
Proof. intros H. unfold remembered, last_n. by apply Forall_drop. Qed.

Lemma len_remembered s : len (remembered s) = Z.min MAX_TEXT_REDUNDANCY (len (st_log s)).
Proof. unfold remembered. by rewrite length_last_n. Qed.

Lemma len_spoken s : 0 <= len (spoken s) <= MAX_PENDING_TEXT_BYTES.
Proof. unfold spoken. rewrite length_last_n by done. pose proof (len_nonneg (st_queue s)). unfold MAX_PENDING_TEXT_BYTES. lia. Qed.

(** A builder of the bus fails exactly when an offset does not fit. *)
Lemma seat_builder_fits pt ts s history : len history <= MAX_TEXT_REDUNDANCY ->
  Forall (fun g => bytes_ok (snd g) /\ len (snd g) <= MAX_PENDING_TEXT_BYTES) history ->
  builder_fits (seat_builder pt ts s history) <-> forallb (fun g => wrapping_sub 32 ts (fst g) <? 2 ^ 14) history = true.
Proof.
  intros Hl Hlog. unfold builder_fits, generation_fits. cbn [seat_builder rbd_redundant rbd_primary_rtp_timestamp].
  rewrite len_fmap, Forall_fmap, forallb_forall. rewrite List.Forall_forall in Hlog |- *. unfold compose. cbn [rg_rtp_timestamp rg_data].
  unfold MAX_TEXT_REDUNDANCY, MAX_PENDING_TEXT_BYTES, MAX_RED_BLOCKS in *. split.
  - intros [_ H] g Hg. apply Z.ltb_lt. by apply H.
  - intros H. split; [lia|]. intros g Hg. specialize (Hlog g Hg) as [_ ?]. specialize (H g Hg). cbv beta in H. apply Z.ltb_lt in H. split; [done|lia].
Qed.

Lemma len_concat_bounded (history : list (Z * bytes)) n :
  Forall (fun g => bytes_ok (snd g) /\ len (snd g) <= n) history -> len (concat (snd <$> history)) <= n * len history.
Proof.
  induction 1 as [|g history [_ Hg] _ IH]; cbn [fmap list_fmap concat]; [unfold len; cbn; lia|].
  rewrite len_app, len_cons. lia.
Qed.

Lemma concat_bytes (history : list (Z * bytes)) n :
  Forall (fun g => bytes_ok (snd g) /\ len (snd g) <= n) history -> bytes_ok (concat (snd <$> history)).
Proof. induction 1 as [|g history [Hg _] _ IH]; cbn [fmap list_fmap concat]; [constructor|]. by apply bytes_ok_app. Qed.

Lemma spoken_bytes s : bytes_ok (st_queue s) -> bytes_ok (spoken s).
Proof. intros H. unfold spoken, last_n. by apply Forall_drop. Qed.

(** What a builder of the bus writes. *)
Lemma seat_builder_writes pt ts s history : len history <= MAX_TEXT_REDUNDANCY -> bytes_ok (st_queue s) ->
  Forall (fun g => bytes_ok (snd g) /\ len (snd g) <= MAX_PENDING_TEXT_BYTES) history ->
  builder_fits (seat_builder pt ts s history) ->
  exists n out, RedBuilder_write_into (seat_builder pt ts s history) = (Ok n, out) /\
    content_ok out (Red (builder_packet (seat_builder pt ts s history))).
Proof.
  intros Hl Hq Hlog Hfit. pose proof (write_into_spec (seat_builder pt ts s history)) as Hw.
  destruct (RedBuilder_write_into _) as [[n|e|] out]; [|by destruct Hw|done]. destruct Hw as (_ & -> & _).
  assert (rg_data <$> rbd_redundant (seat_builder pt ts s history) = snd <$> history) as Hd.
  { cbn [seat_builder rbd_redundant]. by rewrite <- list_fmap_compose. }
  eexists _, _. split; [done|]. split.
  - unfold red_wire, builder_packet. cbn [rp_redundant rp_primary rb_payload_type rb_data].
    rewrite !len_app, len_concat_headers, generation_data, Hd, !len_fmap. cbn [seat_builder rbd_redundant rbd_primary_data]. rewrite len_fmap, len_cons, len_nil.
    pose proof (len_concat_bounded history _ Hlog). pose proof (len_spoken s). pose proof (len_nonneg history).
    unfold MAX_TEXT_PAYLOAD, MAX_TEXT_REDUNDANCY, MAX_PENDING_TEXT_BYTES in *. lia.
  - apply red_parse_wire; [by apply builder_packet_ok| |cbn; by apply spoken_bytes].
    cbn [builder_packet rp_redundant]. rewrite generation_data, Hd. by eapply concat_bytes.
Qed.

Lemma seat_packet pt ts s history :
  builder_packet (seat_builder pt ts s history) =
  mkRedPacket ((fun g => mkRedBlock (Z.land pt 0x7F) (wrapping_sub 32 ts (fst g)) (snd g)) <$> history)
    (mkRedBlock (Z.land pt 0x7F) 0 (spoken s)).
Proof. unfold builder_packet, generation_block. cbn [seat_builder rbd_redundant rbd_primary_payload_type rbd_primary_data]. by rewrite <- list_fmap_compose. Qed.

Lemma build_red_ok m i src s pt red_pt id ts : @idx unit _ (tx_sources m) i = Ok src -> seat_ok src s ->
  exists out, build_red m i pt ts = Ok (with_scratch m out) /\ content_ok out (spec_content s (mkTextSourceConfig id pt (Some red_pt)) ts).
Proof.
  intros Hi Hs. destruct Hs as [Hc Hp Hr Hn Hh Ha Hidle Hb Hlog]. unfold build_red. rewrite Hi, bind_Ok.
  pose proof (len_nonneg (st_log s)). rewrite slice_Ok, bind_Ok by (unfold MAX_TEXT_REDUNDANCY in *; lia).
  set (history := sub _ _ _) in *.
  assert (len history = ts_generation_count src) as Hlh by (unfold history; rewrite len_sub; unfold MAX_TEXT_REDUNDANCY in *; lia).
  destruct (fill_ok pt history) as (table & -> & Ht); [unfold MAX_TEXT_REDUNDANCY in *; lia|]. rewrite bind_Ok. cbv beta iota. rewrite Ht, bind_Ok.
  assert ((fun g => mkRedGeneration pt (gn_timestamp g) (gn_data g)) <$> history =
          (fun g => mkRedGeneration pt (fst g) (snd g)) <$> remembered s) as ->.
  { rewrite <- Hh. by rewrite <- list_fmap_compose. }
  rewrite Hp. change (mkRedBuilder pt ts (spoken s) []) with (seat_builder pt ts s []).
  change (mkRedBuilder pt ts (spoken s) (_ <$> remembered s)) with (seat_builder pt ts s (remembered s)).
  pose proof (remembered_log _ _ Hlog) as Hrem. pose proof (len_remembered s) as Hlr.
  assert (len (remembered s) <= MAX_TEXT_REDUNDANCY) as Hle by lia.
  pose proof (seat_builder_fits pt ts s _ Hle Hrem) as Hfit. unfold spec_content, carried. cbn [tc_red_payload_type tc_t140_payload_type].
  destruct (forallb _ _).
  - destruct (seat_builder_writes pt ts s (remembered s)) as (n & out & -> & Hout); [done..|by apply Hfit|]. exists out. split; [done|]. by rewrite seat_packet in Hout.
  - pose proof (write_into_spec (seat_builder pt ts s (remembered s))) as Hw. destruct (RedBuilder_write_into (seat_builder pt ts s (remembered s))) as [[n|e|] out]; [|clear Hw|done].
    { destruct Hw as [Hw _]. apply Hfit in Hw. done. }
    destruct (seat_builder_writes pt ts s []) as (n & out' & -> & Hout); [done|done|constructor|by apply seat_builder_fits|]. exists out'. split; [done|]. by rewrite seat_packet in Hout.
Qed.

(** ** The loops *)

(** A flush changes nothing of the room until a source is done. *)
Definition emit_ok (arena : bytes) (e : TextEmit) (d : delivery content) : Prop :=
  exists payload, @slice unit _ arena (te_payload_start e) (te_payload_start e + te_payload_len e) = Ok payload /\
    delivery_ok (mkDelivery (te_receiver e) (te_source_csrc e) (te_payload_type e) (te_timestamp e) (te_marker e) payload) d.

Lemma slice_of_prefix {E A} (l m x : list A) a b : @slice E A l a b = Ok x -> @slice E A (l ++ m) a b = Ok x.
Proof.
  unfold slice. destruct (Z.leb_spec 0 a), (Z.leb_spec a b), (Z.leb_spec b (len l)); cbn [andb]; try done. intros [= <-].
  rewrite len_app. pose proof (len_nonneg m). rewrite (proj2 (Z.leb_le _ _)) by lia. f_equal. by apply sub_app_l.
Qed.

Lemma emit_ok_app arena more e d : emit_ok arena e d -> emit_ok (arena ++ more) e d.
Proof. intros (payload & Hp & Hd). exists payload. split; [by apply slice_of_prefix|done]. Qed.

Lemma emits_ok_app arena more es ds : Forall2 (emit_ok arena) es ds -> Forall2 (emit_ok (arena ++ more)) es ds.
Proof. intros H. eapply Forall2_impl; [|exact H]. intros. by apply emit_ok_app. Qed.

Lemma spec_content_eq s c ts : spec_content s c ts = spec_content s (mkTextSourceConfig 0 (tc_t140_payload_type c) (tc_red_payload_type c)) ts.
Proof. done. Qed.

Lemma build_payload_ok m i src s c ts : @idx unit _ (tx_sources m) i = Ok src -> seat_ok src s ->
  exists payload scratch,
    build_payload m i (tc_t140_payload_type c) (tc_red_payload_type c) ts =
    Ok (default (tc_t140_payload_type c) (tc_red_payload_type c), len (tx_arena m), len payload,
        with_scratch (with_arena m (tx_arena m ++ payload)) scratch) /\
    content_ok payload (spec_content s c ts).
Proof.
  intros Hi Hs. unfold build_payload. rewrite (spec_content_eq s c). destruct (tc_red_payload_type c) as [red_pt|].
  - destruct (build_red_ok m i src s (tc_t140_payload_type c) red_pt 0 ts Hi Hs) as (out & -> & Hout). exists out, out. rewrite bind_Ok. cbn [tx_arena with_scratch tx_red_scratch with_arena].
    unfold mret, res_ret. rewrite bind_Ok. cbv beta iota. cbn [tx_arena with_scratch tx_red_scratch with_arena].
    rewrite len_app, usub_Ok by (pose proof (len_nonneg out); lia). rewrite bind_Ok. split; [|done]. do 3 f_equal. lia.
  - exists (ts_pending src), (tx_red_scratch m). rewrite Hi, bind_Ok. unfold mret, res_ret. rewrite bind_Ok. cbv beta iota. cbn [tx_arena with_arena].
    rewrite len_app, usub_Ok by (pose proof (len_nonneg (ts_pending src)); lia). rewrite bind_Ok. split; [do 3 f_equal; lia|].
    rewrite (so_pending _ _ Hs). split; [|done]. pose proof (len_spoken s). unfold MAX_TEXT_PAYLOAD, MAX_TEXT_REDUNDANCY, MAX_PENDING_TEXT_BYTES in *. lia.
Qed.

(** [m'] is [m] with more emits and their payloads. *)
Record extends (m m' : TextMixer) (ds : list (delivery content)) : Prop := {
  ex_interval : tx_flush_interval_ms m' = tx_flush_interval_ms m;
  ex_emits : exists es more, tx_emits m' = tx_emits m ++ es /\ tx_arena m' = tx_arena m ++ more /\
    Forall2 (emit_ok (tx_arena m')) es ds
}.

Lemma extends_refl m : extends m m [].
Proof. split; [done|]. exists [], []. by rewrite !app_nil_r. Qed.

Lemma extends_trans m1 m2 m3 ds es : extends m1 m2 ds -> extends m2 m3 es -> extends m1 m3 (ds ++ es).
Proof.
  intros [Hi1 (e1 & a1 & He1 & Ha1 & H1)] [Hi2 (e2 & a2 & He2 & Ha2 & H2)]. split; [congruence|].
  exists (e1 ++ e2), (a1 ++ a2). rewrite !app_assoc. split_and!; [congruence..|].
  apply Forall2_app; [|done]. rewrite Ha2. by apply emits_ok_app.
Qed.

Definition same_config (src : TextSource) (s : seat) : Prop := ts_config src = st_config s.

Lemma emit_step m i src s c csrc ts receiver : @idx unit _ (tx_sources m) i = Ok src -> seat_ok src s ->
  exists pt start size m1, build_payload m i (tc_t140_payload_type c) (tc_red_payload_type c) ts = Ok (pt, start, size, m1) /\ tx_sources m1 = tx_sources m /\
    extends m (with_emits m1 (tx_emits m1 ++ [mkTextEmit receiver csrc pt ts (bool_decide (st_log s = [])) start size]))
      [spec_delivery s csrc ts receiver c].
Proof.
  intros Hi Hs. destruct (build_payload_ok m i src s c ts Hi Hs) as (payload & scratch & -> & Hok).
  eexists _, _, _, _. split; [done|]. split; [done|]. split; [done|]. cbn [with_emits with_scratch with_arena tx_emits tx_arena].
  eexists _, _. split_and!; [done..|]. apply Forall2_cons_2; [|constructor]. exists payload. split; [|by split_and!].
  cbn [te_payload_start te_payload_len]. pose proof (len_nonneg (tx_arena m)). pose proof (len_nonneg payload).
  rewrite slice_Ok by (rewrite ?len_app; lia). f_equal. by apply sub_app_end.
Qed.

Lemma receivers_ok i csrc ts src s rest : forall done_ m,
  Forall2 same_config (tx_sources m) (done_ ++ rest) -> @idx unit _ (tx_sources m) i = Ok src -> seat_ok src s ->
  exists m', flush_receivers i csrc ts (bool_decide (st_log s = [])) (seqZ (len done_) (len rest)) m = Ok m' /\
    tx_sources m' = tx_sources m /\ extends m m' (copies i s csrc ts (len done_) rest).
Proof.
  induction rest as [|r rest IH]; intros done_ m Hcfg Hi Hs.
  { exists m. split_and!; [done..|apply extends_refl]. }
  rewrite seqZ_cons by (rewrite len_cons; pose proof (len_nonneg rest); lia). rewrite len_cons.
  replace (Z.pred (1 + len rest)) with (len rest) by lia. rewrite <- Z.add_1_r.
  replace (len done_ + 1) with (len (done_ ++ [r])) by (by rewrite len_app).
  rewrite cons_middle, app_assoc in Hcfg. cbn [flush_receivers copies].
  replace (len done_ + 1) with (len (done_ ++ [r])) by (by rewrite len_app).
  destruct (Z.eqb_spec (len done_) i) as [|Hne]; [by apply IH|].
  assert (exists t, @idx unit _ (tx_sources m) (len done_) = Ok t /\ same_config t r) as (t & -> & Ht).
  { apply Forall2_app_inv_r in Hcfg as (k1 & k2 & H1 & _ & ->). apply Forall2_app_inv_r in H1 as (k3 & k4 & H3 & H4 & ->).
    inversion H4 as [|t ? ? ? Ht H5]; subst. inversion H5; subst. exists t. split; [|done].
    rewrite <- app_assoc. apply idx_app_mid. unfold len. by rewrite (Forall2_length H3). }
  rewrite bind_Ok. rewrite Ht. destruct (st_config r) as [c|]; [|by apply IH].
  destruct (emit_step m i src s c csrc ts (len done_) Hi Hs) as (pt & start & size & m1 & -> & Hm1 & He). rewrite bind_Ok. cbv beta iota.
  set (m2 := with_emits m1 _) in *. change (tx_sources m1) with (tx_sources m2) in Hm1. rewrite <- Hm1 in Hcfg, Hi.
  destruct (IH (done_ ++ [r]) m2 Hcfg Hi Hs) as (m' & -> & Hm' & He'). exists m'. split_and!; [done|congruence|]. by eapply extends_trans.
Qed.

Lemma copies_config i s csrc ts room : forall j room', Forall2 (fun r r' => st_config r = st_config r') room room' ->
  copies i s csrc ts j room = copies i s csrc ts j room'.
Proof. intros j room' H. revert j. induction H as [|r r' room room' Hr _ IH]; intros j; [done|]. cbn [copies]. by rewrite Hr, IH. Qed.

Lemma after_config ts s : st_config (after_flush ts s) = st_config s.
Proof. unfold after_flush. by destruct (st_config s) eqn:E. Qed.

Lemma last_n_snoc {A} n (l : list A) x : 0 < n -> last_n n (l ++ [x]) = last_n (n - 1) l ++ [x].
Proof.
  intros Hn. unfold last_n. rewrite length_app. cbn [length]. rewrite drop_app_le by lia. do 2 f_equal. lia.
Qed.

(** The ring after a generation: the last two sent. *)
Lemma seat_advance_ok m i src s ts : @idx unit _ (tx_sources m) i = Ok src -> seat_ok src s -> st_config s <> None -> st_queue s <> [] ->
  exists src', advance_generation m i ts = Ok (with_sources m (<[Z.to_nat i := src']> (tx_sources m))) /\ seat_ok src' (after_flush ts s).
Proof.
  intros Hi Hs Hc Hq. apply idx_Ok_inv in Hi as Hi'. destruct Hi' as [Hr _]. unfold advance_generation. rewrite Hi, bind_Ok.
  destruct Hs as [Hcfg Hp Hring Hn Hh Ha Hidle Hb Hlog]. unfold after_flush. destruct (st_config s) as [c|]; [|done]. destruct (st_queue s) as [|b q] eqn:Eq; [done|].
  assert (exists g0 g1, ts_generations src = [g0; g1]) as (g0 & g1 & Hg).
  { destruct (ts_generations src) as [|g0 [|g1 [|g2 l]]]; try done; [by eexists _, _|]. exfalso. rewrite !len_cons in Hring. pose proof (len_nonneg l). unfold MAX_TEXT_REDUNDANCY in Hring. lia. }
  pose proof (len_remembered s) as Hlr. rewrite <- Hh in Hlr. unfold remembered in Hh. rewrite Hg in *. rewrite Hn in Hh, Hlr |- *. set (k := Z.min _ _) in *.
  assert (forall gens count, len gens = 2 -> count = Z.min 2 (len (st_log s) + 1) ->
    (fun g => (gn_timestamp g, gn_data g)) <$> sub gens 0 count = last_n 1 (st_log s) ++ [(ts, spoken s)] ->
    seat_ok (with_active (with_pending (with_ring src gens count) []) true) (mkSeat (Some c) [] (st_log s ++ [(ts, spoken s)]))) as Hfin.
  { intros gens count Hlg Hcount Hhist. split; cbn [with_active with_pending with_ring ts_config ts_pending ts_generations ts_generation_count ts_active_last_flush st_config st_queue st_log]; try done.
    - by rewrite len_app.
    - unfold remembered. cbn [st_log]. change MAX_TEXT_REDUNDANCY with 2. by rewrite last_n_snoc.
    - destruct (st_log s); by cbn.
    - constructor.
    - apply Forall_app. split; [done|]. apply Forall_cons_2; [|constructor]. cbn [snd]. split; [apply spoken_bytes; rewrite Eq; done|apply len_spoken]. }
  assert (last_n 1 (st_log s) = last_n 1 (last_n 2 (st_log s))) as Hone.
  { unfold last_n. rewrite drop_drop, length_drop. f_equal. lia. }
  change MAX_TEXT_REDUNDANCY with 2 in *. pose proof (len_nonneg (st_log s)).
  assert (k = 0 \/ k = 1 \/ k = 2) as [Hk|[Hk|Hk]] by lia; rewrite Hk in *; cbn [Z.ltb Z.compare Pos.compare Pos.compare_cont];
    rewrite set_at_insert, bind_Ok, (set_at_insert (tx_sources m)), bind_Ok by (try done; lia); rewrite Hp; eexists; (split; [reflexivity|]); apply Hfin; try done; try lia;
    rewrite Hone, <- Hh; done.
Qed.

Lemma seat_ok_config src s : seat_ok src s -> same_config src s.
Proof. by intros [H]. Qed.

Lemma idle_ok src s ts : seat_ok src s -> st_config s <> None -> st_queue s = [] ->
  seat_ok (with_active (with_ring src (ts_generations src) 0) false) (after_flush ts s).
Proof.
  intros [Hcfg Hp Hring Hn Hh Ha Hidle Hb Hlog] Hc Hq. unfold after_flush. rewrite Hq. destruct (st_config s) as [c|]; [|done].
  split; cbn [with_active with_ring ts_config ts_pending ts_generations ts_generation_count ts_active_last_flush st_config st_queue st_log]; try done.
  - rewrite Hp. unfold spoken. by rewrite Hq.
  - constructor.
Qed.

Lemma spoken_nil s : spoken s = [] <-> st_queue s = [].
Proof.
  rewrite <- !len_zero_iff. unfold spoken. rewrite length_last_n by done. pose proof (len_nonneg (st_queue s)). unfold MAX_PENDING_TEXT_BYTES. lia.
Qed.

Lemma insert_mid {A} (l : list A) x m y i : i = len l -> <[Z.to_nat i := y]> (l ++ x :: m) = l ++ y :: m.
Proof. intros ->. rewrite to_nat_len. rewrite insert_app_r_alt, Nat.sub_diag by lia. done. Qed.

(** A source's turn. *)
Lemma source_turn count ts i indices m src s : @idx unit _ (tx_sources m) i = Ok src -> seat_ok src s ->
  forall room, count = len room -> Forall2 same_config (tx_sources m) room ->
  exists m1 src', flush_sources count ts (i :: indices) m = flush_sources count ts indices m1 /\
    tx_sources m1 = <[Z.to_nat i := src']> (tx_sources m) /\ seat_ok src' (after_flush ts s) /\
    extends m m1 (sent_by room ts i s).
Proof.
  intros Hi Hs room -> Hroom. apply idx_Ok_inv in Hi as Hi'. destruct Hi' as [Hr Hl]. pose proof (proj2 (spoken_nil s)) as Hnil.
  cbn [flush_sources]. rewrite Hi, bind_Ok, (so_config _ _ Hs). unfold sent_by. destruct (st_config s) as [c|] eqn:Hc.
  2:{ exists m, src. split_and!; [done|by rewrite list_insert_id|unfold after_flush; by rewrite Hc|apply extends_refl]. }
  rewrite (so_pending _ _ Hs). destruct (st_queue s) as [|b q] eqn:Hq.
  { rewrite Hnil by done. rewrite set_at_insert, bind_Ok by lia. eexists _, _. split; [done|]. cbn [with_sources tx_sources].
    split_and!; [done|apply idle_ok; [done|congruence|done]|]. destruct (extends_refl m). by split. }
  destruct (spoken s) as [|b' q'] eqn:Hsp. { apply spoken_nil in Hsp. congruence. }
  rewrite (so_active _ _ Hs), Bool.negb_involutive.
  destruct (receivers_ok i (tc_source_id c) ts src s room [] m Hroom Hi Hs) as (m1 & Hm1 & Hsrc & He). change (len (@nil seat)) with 0 in Hm1, He.
  rewrite Hm1, bind_Ok. rewrite <- Hsrc in Hi.
  destruct (seat_advance_ok m1 i src s ts Hi Hs) as (src' & Hadv & Hok); [congruence..|]. rewrite Hadv, bind_Ok.
  eexists _, src'. split; [done|]. cbn [with_sources tx_sources]. rewrite Hsrc. split_and!; [done|done|]. destruct He. by split.
Qed.

Lemma sent_by_config ts i s room room' : Forall2 (fun r r' => st_config r = st_config r') room room' ->
  sent_by room ts i s = sent_by room' ts i s.
Proof. intros H. unfold sent_by. destruct (st_config s), (st_queue s); try done. by apply copies_config. Qed.

Lemma seats_config l room : Forall2 seat_ok l room -> Forall2 same_config l room.
Proof. intros H. eapply Forall2_impl; [|exact H]. apply seat_ok_config. Qed.

Lemma sources_ok ts rest : forall done_ m, Forall2 seat_ok (tx_sources m) ((after_flush ts <$> done_) ++ rest) ->
  exists m', flush_sources (len (done_ ++ rest)) ts (seqZ (len done_) (len rest)) m = Ok m' /\
    Forall2 seat_ok (tx_sources m') (after_flush ts <$> done_ ++ rest) /\
    extends m m' (sent_from (done_ ++ rest) ts (len done_) rest).
Proof.
  induction rest as [|s rest IH]; intros done_ m Hm.
  { exists m. rewrite !app_nil_r in *. split_and!; [done..|apply extends_refl]. }
  rewrite seqZ_cons by (rewrite len_cons; pose proof (len_nonneg rest); lia).
  replace (Z.pred (len (s :: rest))) with (len rest) by (rewrite len_cons; lia). rewrite <- Z.add_1_r.
  pose proof (seats_config _ _ Hm) as Hcfg.
  apply Forall2_app_inv_r in Hm as (k1 & k2 & H1 & H2 & Hsrc). inversion H2 as [|src ? k3 ? Hs H3]; subst. symmetry in Hsrc.
  pose proof (Forall2_length H1) as Hlen. rewrite length_fmap in Hlen.
  assert (@idx unit _ (tx_sources m) (len done_) = Ok src) as Hi by (rewrite <- Hsrc; apply idx_app_mid; unfold len; lia).
  destruct (source_turn (len (done_ ++ s :: rest)) ts (len done_) (seqZ (len done_ + 1) (len rest)) m src s Hi Hs _ (eq_trans (len_app _ _) (eq_trans (f_equal2 _ (eq_sym (len_fmap _ _)) eq_refl) (eq_sym (len_app _ _)))) Hcfg) as (m1 & src' & -> & Hm1 & Hs' & He).
  replace (len done_ + 1) with (len (done_ ++ [s])) by (by rewrite len_app). rewrite (cons_middle s done_ rest), app_assoc.
  destruct (IH (done_ ++ [s]) m1) as (m' & -> & Hm' & He').
  { rewrite Hm1, <- Hsrc, insert_mid by (unfold len; lia). rewrite fmap_app, <- app_assoc. apply Forall2_app; [done|]. by constructor. }
  exists m'. split_and!; [done|done|]. cbn [sent_from]. replace (len done_ + 1) with (len (done_ ++ [s])) by (by rewrite len_app).
  eapply extends_trans; [|exact He']. erewrite sent_by_config; [exact He|]. rewrite <- app_assoc. apply Forall2_app.
  - clear. induction done_; constructor; [by rewrite after_config|done].
  - cbn [app]. clear. induction (s :: rest); by constructor.
Qed.

(** ** The handlers *)

Record room_ok (interval : Z) (m : TextMixer) (room : list seat) : Prop := {
  rk_interval : tx_flush_interval_ms m = interval;
  rk_seats : Forall2 seat_ok (tx_sources m) room;
  rk_size : len room <= MAX_TEXT_PARTICIPANTS
}.

Lemma room_len interval m room : room_ok interval m room -> len (tx_sources m) = len room.
Proof. intros [_ H _]. unfold len. by rewrite (Forall2_length H). Qed.

Lemma new_seat_ok config : seat_ok (TextSource_new config) (mkSeat config [] []).
Proof. split; try done; constructor. Qed.

Lemma read_emits_ok m es ds : Forall2 (emit_ok (tx_arena m)) es ds -> exists out, read_emits m es = Ok out /\ Forall2 delivery_ok out ds.
Proof.
  induction 1 as [|e d es ds (payload & Hp & Hd) _ (out & IH & Hout)]; [by exists []|]. cbn [read_emits]. unfold payload_of. rewrite Hp, bind_Ok, IH, bind_Ok.
  eexists. split; [done|]. by constructor.
Qed.

Lemma flush_ok interval m room counter : room_ok interval m room -> exists out m',
  text_handle m (Flush counter) = Ok (Sent out, m') /\ room_ok interval m' (after_flush (flush_clock counter interval) <$> room) /\
  Forall2 delivery_ok out (sent_from room (flush_clock counter interval) 0 room).
Proof.
  intros Hm. pose proof (room_len _ _ _ Hm) as Hl. destruct Hm as [Hi Hs Hz]. unfold text_handle, TextMixer_flush. cbn [with_arena with_emits tx_flush_interval_ms tx_sources].
  rewrite Hi, Hl. set (m0 := with_arena _ _). set (ts := flush_clock _ _).
  destruct (sources_ok ts room [] m0 Hs) as (m' & Hm' & Hs' & [Hi' (es & more & He & Ha & Hes)]). cbn [app] in Hm', Hs'. change (len (@nil seat)) with 0 in Hm', Hes.
  rewrite Hm', bind_Ok. unfold mret, res_ret. rewrite bind_Ok. cbv beta iota. cbn [m0 with_arena with_emits tx_emits app] in He. rewrite He.
  destruct (read_emits_ok m' es _ Hes) as (out & -> & Hout). rewrite bind_Ok.
  assert (len es = len out) as -> by (unfold len; by rewrite (Forall2_length Hes), (Forall2_length Hout)). rewrite Z.eqb_refl.
  exists out, m'. split_and!; [done| |done]. split; [by rewrite Hi'|done|by rewrite len_fmap].
Qed.

Lemma alter_absent {A} (f : A -> A) (l : list A) i : l !! i = None -> alter f i l = l.
Proof. revert i. induction l as [|x l IH]; intros [|i]; try done. cbn. intros H. f_equal. by apply IH. Qed.

(** The queue after a push. *)
Lemma pending_ok (q text : bytes) : exists incoming pending,
  (if MAX_PENDING_TEXT_BYTES <? len text then slice text (len text - MAX_PENDING_TEXT_BYTES) (len text) else mret text : bus bytes) = Ok incoming /\
  (let overflow := saturating_sub (len (last_n MAX_PENDING_TEXT_BYTES q) + len incoming) MAX_PENDING_TEXT_BYTES in
   if 0 <? overflow then slice (last_n MAX_PENDING_TEXT_BYTES q) overflow (len (last_n MAX_PENDING_TEXT_BYTES q))
   else mret (last_n MAX_PENDING_TEXT_BYTES q) : bus bytes) = Ok pending /\
  pending ++ incoming = last_n MAX_PENDING_TEXT_BYTES (q ++ text).
Proof.
  set (n := MAX_PENDING_TEXT_BYTES). assert (n = 300) as Hn by done. clearbody n. pose proof (len_nonneg text). set (p := last_n n q).
  assert (len p <= n) as Hp by (unfold p; rewrite length_last_n; lia). pose proof (len_nonneg p).
  exists (last_n n text), (last_n (n - Z.min n (len text)) p). pose proof (length_last_n n text ltac:(lia)) as Hlt. split_and!.
  - destruct (Z.ltb_spec n (len text)); [|by rewrite last_n_short]. rewrite slice_Ok by lia. f_equal.
    rewrite <- (Z.min_r (len text) n) at 1 by lia. rewrite sub_last_n by lia. by rewrite to_nat_len, firstn_all.
  - cbv zeta. rewrite Hlt. unfold saturating_sub. destruct (Z.ltb_spec 0 (Z.max 0 (len p + Z.min n (len text) - n))).
    + rewrite slice_Ok by lia. f_equal. rewrite <- (firstn_all p) at 4. rewrite <- to_nat_len, <- sub_last_n by lia. f_equal. lia.
    + rewrite last_n_short by lia. done.
  - rewrite <- (last_n_cut n q), <- last_n_last by lia. fold p. set (t := last_n n text) in *. clearbody t p. rewrite <- Hlt.
    unfold last_n. rewrite length_app, drop_app. replace (length p + length t - Z.to_nat n - length p)%nat with 0%nat by (unfold len in *; lia).
    rewrite drop_0. do 2 f_equal. unfold len in *. lia.
Qed.

Lemma push_ok interval m room index text : room_ok interval m room -> 0 <= index -> bytes_ok text -> exists m',
  TextMixer_push_text m index text = Ok m' /\ room_ok interval m' (alter (spec_push text) (Z.to_nat index) room).
Proof.
  intros [Hi Hs Hz] Hidx Hb. unfold TextMixer_push_text, get_at. rewrite (proj2 (Z.leb_le 0 index)) by done.
  assert (forall m', tx_flush_interval_ms m' = interval -> Forall2 seat_ok (tx_sources m') (alter (spec_push text) (Z.to_nat index) room) ->
    room_ok interval m' (alter (spec_push text) (Z.to_nat index) room)) as Hfin.
  { intros m' ? ?. split; [done..|]. unfold len in *. by rewrite length_alter. }
  destruct (tx_sources m !! Z.to_nat index) as [src|] eqn:Esrc.
  2:{ exists m. split; [done|]. apply Hfin; [done|]. rewrite alter_absent; [done|].
      apply lookup_ge_None in Esrc. apply lookup_ge_None. by rewrite <- (Forall2_length Hs). }
  destruct (Forall2_lookup_l _ _ _ _ _ Hs Esrc) as (s & Er & Hok). destruct Hok as [Hcfg Hp Hring Hn Hh Ha Hidle Hbq Hlog].
  assert (spec_push text s = s -> exists m', (Ok m : bus TextMixer) = Ok m' /\ room_ok interval m' (alter (spec_push text) (Z.to_nat index) room)) as Hsame.
  { intros Heq. exists m. split; [done|]. apply Hfin; [done|].
    assert (alter (spec_push text) (Z.to_nat index) room = room) as ->; [|done].
    rewrite <- (list_insert_id room (Z.to_nat index) s Er) at 2. rewrite list_insert_alter. apply list_alter_ext; [|done]. intros x Hx. congruence. }
  rewrite Hcfg. destruct (st_config s) as [c|] eqn:Ec. 2:{ apply Hsame. unfold spec_push. by rewrite Ec. }
  destruct (Z.eqb_spec (len text) 0) as [Ht|Ht].
  { apply len_zero_iff in Ht as ->. apply Hsame. unfold spec_push. rewrite Ec, app_nil_r. by destruct s; cbn in *; subst. }
  destruct (pending_ok (st_queue s) text) as (incoming & pending & -> & Hpend & Hq). rewrite bind_Ok, Hp. cbv zeta in *. unfold spoken. rewrite Hpend, bind_Ok, Hq.
  apply lookup_lt_Some in Esrc as Hlt. rewrite set_at_insert, bind_Ok by (unfold len; lia). eexists. split; [done|]. apply Hfin; [done|]. cbn [with_sources tx_sources].
  assert (alter (spec_push text) (Z.to_nat index) room = <[Z.to_nat index := spec_push text s]> room) as ->.
  { rewrite list_insert_alter. apply list_alter_ext; [|done]. intros x Hx. congruence. }
  apply Forall2_insert; [done|]. unfold spec_push. rewrite Ec. split; try done. by apply bytes_ok_app.
Qed.

Lemma seat_event_ok interval m room config : room_ok interval m room ->
  (if len room <? MAX_TEXT_PARTICIPANTS
   then exists m', add_participant m config = (true, m') /\ room_ok interval m' (room ++ [mkSeat config [] []])
   else add_participant m config = (false, m)).
Proof.
  intros Hm. unfold add_participant. rewrite (room_len _ _ _ Hm). destruct Hm as [Hi Hs Hz].
  destruct (Z.ltb_spec (len room) MAX_TEXT_PARTICIPANTS), (Z.leb_spec MAX_TEXT_PARTICIPANTS (len room)); try lia; [|done].
  eexists. split; [done|]. split; [done| |rewrite len_app; change (len [_]) with 1; lia].
  apply Forall2_app; [done|]. constructor; [apply new_seat_ok|constructor].
Qed.

Lemma unseat_event_ok interval m room index : room_ok interval m room -> 0 <= index ->
  (if index <? len room
   then exists m', remove_participant m index = (true, m') /\ room_ok interval m' (delete (Z.to_nat index) room)
   else remove_participant m index = (false, m)).
Proof.
  intros Hm Hx. unfold remove_participant. rewrite (room_len _ _ _ Hm). destruct Hm as [Hi Hs Hz].
  destruct (Z.ltb_spec index (len room)), (Z.leb_spec (len room) index); try lia; [|done].
  eexists. split; [done|]. split; [done|by apply Forall2_delete|]. unfold len in *.
  rewrite length_delete; [lia|]. apply lookup_lt_is_Some. lia.
Qed.

Lemma handle_ok interval m room e : room_ok interval m room -> event_ok e -> exists out m',
  text_handle m e = Ok (out, m') /\ room_ok interval m' (snd (room_handle interval room e)) /\
  outcome_ok out (fst (room_handle interval room e)).
Proof.
  intros Hm He. destruct e as [config|index|index text|counter]; cbn [text_handle room_handle event_ok] in *.
  - pose proof (seat_event_ok _ _ _ config Hm) as H. destruct (_ <? _); [destruct H as (m' & -> & ?)|rewrite H]; by eexists _, _.
  - pose proof (unseat_event_ok _ _ _ index Hm He) as H. destruct (_ <? _); [destruct H as (m' & -> & ?)|rewrite H]; by eexists _, _.
  - destruct He as [Hi Hb]. destruct (push_ok _ _ _ index text Hm Hi Hb) as (m' & -> & ?). rewrite bind_Ok. by eexists _, _.
  - destruct (flush_ok _ _ _ counter Hm) as (out & m' & H & ? & ?). cbn [text_handle] in H. rewrite H. by eexists _, _.
Qed.

Lemma room_run_ok interval events : forall m room, room_ok interval m room -> Forall event_ok events -> exists outs m',
  text_run m events = Ok (outs, m') /\ room_ok interval m' (snd (room_run interval room events)) /\
  Forall2 outcome_ok outs (fst (room_run interval room events)).
Proof.
  induction events as [|e events IH]; intros m room Hm He; [by eexists _, _|]. apply Forall_cons_1 in He as [He Hes].
  destruct (handle_ok interval m room e Hm He) as (out & m1 & Hh & Hm1 & Ho). cbn [text_run room_run]. rewrite Hh, bind_Ok. cbv beta iota.
  destruct (room_handle interval room e) as [o1 room1]. cbn [fst snd] in *.
  destruct (IH m1 room1 Hm1 Hes) as (outs & m2 & -> & Hm2 & Hos). rewrite bind_Ok. destruct (room_run interval room1 events) as [os room2].
  eexists _, _. split; [done|]. split; [done|]. by constructor.
Qed.

Lemma new_room_ok interval : room_ok (Z.max interval 1) (TextMixer_new interval) [].
Proof. split; [done|constructor|done]. Qed.

(** C32. The conference text bus refines its specification.  In every sequence of
    seats taken and left, text typed and flushes at any counters, nothing panics
    and every flush emits exactly one packet for each text seat with text and each
    other text seat, in order, and none else: labelled with the source's identifier,
    on the receiver's payload types, stamped with the logical clock, with the marker
    exactly when the source was idle before.  The payload carries the newest 300
    bytes typed since the last flush and, in the redundant coding, the last two
    generations sent without an idle flush between, or none when an offset does
    not fit fourteen bits; it parses back to exactly that, and never exceeds 909
    bytes. *)
Theorem text_mixer_distributes interval events : Forall event_ok events -> exists outs m,
  text_run (TextMixer_new interval) events = Ok (outs, m) /\
  Forall2 outcome_ok outs (fst (room_run (Z.max interval 1) [] events)).
Proof.
  intros He. destruct (room_run_ok _ events _ _ (new_room_ok interval) He) as (outs & m & Hr & _ & Ho). by exists outs, m.
Qed.

(** ** From keyboard to screen

    A room with fixed seats in which only [a] and [b] type, flushed at a regular
    pace; the packets for [b] are numbered in order and some of them arrive. *)

Section delivers.
Context (interval base start : Z) (a b : Z) (ca cb : TextSourceConfig).

(** What [a] typed in a round. *)
Definition typed_by (who : Z) (typed : list (Z * bytes)) : bytes :=
  concat (snd <$> filter (fun p : Z * bytes => fst p = who) typed).

Definition round_events (k : Z) (typed : list (Z * bytes)) : list text_event :=
  ((fun '(index, text) => Type_text index text) <$> typed) ++ [Flush (start + k)].

Fixpoint rounds_events (k : Z) (rounds : list (list (Z * bytes))) : list text_event :=
  match rounds with
  | [] => []
  | typed :: rounds => round_events k typed ++ rounds_events (k + 1) rounds
  end.

Definition script (configs : list (option TextSourceConfig)) (rounds : list (list (Z * bytes))) : list text_event :=
  (Seat <$> configs) ++ rounds_events 0 rounds.

(** The packets for [b], in order. *)
Fixpoint sent_to {C} (outs : list (text_outcome C)) : list (delivery C) :=
  match outs with
  | [] => []
  | Sent ds :: outs => filter (fun d => dl_receiver d = b) ds ++ sent_to outs
  | _ :: outs => sent_to outs
  end.

Fixpoint number_from (i : Z) (ds : list (delivery bytes)) : list t140_packet :=
  match ds with
  | [] => []
  | d :: ds =>
      (wrap 16 (base + i), dl_timestamp d, dl_content d, bool_decide (tc_red_payload_type cb <> None)) :: number_from (i + 1) ds
  end.

Definition clock (k : Z) : Z := flush_clock (start + k) interval.

(** The redundancy of each generation: how many rounds with text came just before,
    at most two; none on a stream without redundant coding. *)
Fixpoint plan (run : Z) (texts : list bytes) : list Z :=
  match texts with
  | [] => []
  | [] :: texts => plan 0 texts
  | (_ :: _) :: texts =>
      (if bool_decide (tc_red_payload_type cb <> None) then Z.min MAX_TEXT_REDUNDANCY run else 0) :: plan (run + 1) texts
  end.

(** Packets [received] after generation [next - 1]: each within half the sequence
    space and carrying enough redundancy to reach the next generation owed. *)
Fixpoint reaches (redundancy : list Z) (next : Z) (received : list Z) : Prop :=
  match received with
  | [] => True
  | i :: received =>
      0 <= i < len redundancy /\ -2 ^ 15 <= i - next < 2 ^ 15 /\ i - byte_of redundancy i <= next /\
      reaches redundancy (Z.max next (i + 1)) received
  end.

Fixpoint pick {A} (l : list A) (indices : list Z) : list A :=
  match indices with
  | [] => []
  | i :: indices => match get_at l i with Some x => x :: pick l indices | None => pick l indices end
  end.

(** *** The specification's stream *)

Fixpoint stream_of (log : list (Z * bytes)) (k : Z) (texts : list bytes) : list (delivery content) :=
  match texts with
  | [] => []
  | [] :: texts => stream_of [] (k + 1) texts
  | t :: texts =>
      spec_delivery (mkSeat (Some ca) t log) (tc_source_id ca) (clock k) b cb ::
      stream_of (log ++ [(clock k, spoken (mkSeat (Some ca) t log))]) (k + 1) texts
  end.

Lemma get_at_nil {A} i : get_at (@nil A) i = None.
Proof. unfold get_at. by destruct (0 <=? i); rewrite ?lookup_nil. Qed.

Lemma get_at_shift {A} (x : A) l d j : d <> j -> get_at (x :: l) (d - j) = get_at l (d - (j + 1)).
Proof.
  intros Hne. unfold get_at. destruct (Z.leb_spec 0 (d - j)), (Z.leb_spec 0 (d - (j + 1))); try lia; try done.
  replace (Z.to_nat (d - j)) with (S (Z.to_nat (d - (j + 1)))) by lia. done.
Qed.

Lemma get_at_head {A} (x : A) l d : get_at (x :: l) (d - d) = Some x.
Proof. by rewrite Z.sub_diag. Qed.

Lemma get_at_past {A} (l : list A) d : get_at l (d - (d + 1)) = None.
Proof. unfold get_at. by rewrite (proj2 (Z.leb_gt 0 _)) by lia. Qed.

Definition to_b (ds : list (delivery content)) : list (delivery content) := filter (fun d => dl_receiver d = b) ds.

Lemma to_b_copies i s csrc ts room : forall j, 0 <= j -> b <> i ->
  to_b (copies i s csrc ts j room) =
  match get_at room (b - j) with
  | Some r => match st_config r with Some c => [spec_delivery s csrc ts b c] | None => [] end
  | None => []
  end.
Proof.
  induction room as [|r room IH]; intros j Hj Hb. { by rewrite get_at_nil. }
  cbn [copies]. unfold to_b in *. rewrite list.filter_app, (IH (j + 1)) by lia.
  destruct (Z.eq_dec b j) as [->|Hne].
  - rewrite (proj2 (Z.eqb_neq j i)) by done. rewrite get_at_head, get_at_past.
    rewrite app_nil_r. destruct (st_config r); [|done]. by rewrite filter_cons_True.
  - rewrite get_at_shift by done. destruct (j =? i); [done|]. destruct (st_config r); [|done]. by rewrite filter_cons_False.
Qed.

Lemma to_b_self s csrc ts room : forall j, to_b (copies b s csrc ts j room) = [].
Proof.
  induction room as [|r room IH]; intros j; [done|]. cbn [copies]. unfold to_b in *. rewrite list.filter_app, IH, app_nil_r.
  destruct (Z.eqb_spec j b); [done|]. destruct (st_config r); [|done]. by rewrite filter_cons_False.
Qed.

Lemma to_b_sent room ts seats : forall i, 0 <= i -> a <> b ->
  (forall k s, seats !! k = Some s -> i + Z.of_nat k <> a -> i + Z.of_nat k <> b -> st_queue s = []) ->
  to_b (sent_from room ts i seats) = match get_at seats (a - i) with Some s => to_b (sent_by room ts a s) | None => [] end.
Proof.
  induction seats as [|s seats IH]; intros i Hi Hab Hq. { by rewrite get_at_nil. }
  cbn [sent_from]. unfold to_b in *. rewrite list.filter_app, (IH (i + 1)); [|lia|done|].
  2:{ intros k s' Hk H1 H2. apply (Hq (S k) s'); [done|lia|lia]. }
  destruct (Z.eq_dec a i) as [<-|Hne].
  - rewrite get_at_head, get_at_past. by rewrite app_nil_r.
  - rewrite get_at_shift by done. assert (filter (fun d => dl_receiver d = b) (sent_by room ts i s) = []) as ->; [|done].
    unfold sent_by. destruct (st_config s); [|done]. destruct (st_queue s) eqn:E; [done|].
    destruct (Z.eq_dec i b) as [->|Hib]; [apply to_b_self|]. rewrite (Hq 0%nat s) in E by (done || lia). done.
Qed.

Lemma room_run_app room e1 e2 :
  room_run interval room (e1 ++ e2) =
  (fst (room_run interval room e1) ++ fst (room_run interval (snd (room_run interval room e1)) e2),
   snd (room_run interval (snd (room_run interval room e1)) e2)).
Proof.
  revert room. induction e1 as [|e e1 IH]; intros room; cbn [app room_run fst snd]; [apply surjective_pairing|].
  destruct (room_handle interval room e) as [o room1]. rewrite IH. by destruct (room_run interval room1 e1).
Qed.

Lemma sent_to_app {C} (o1 o2 : list (text_outcome C)) : sent_to (o1 ++ o2) = sent_to o1 ++ sent_to o2.
Proof. induction o1 as [|o o1 IH]; [done|]. destruct o; cbn [app sent_to]; try done. by rewrite IH, app_assoc. Qed.

(** Seat [a] has text [q] queued and sent [log] since it was last idle; no one else
    but [b] has any text. *)
Record holding (q : bytes) (log : list (Z * bytes)) (room : list seat) : Prop := {
  ho_a : get_at room a = Some (mkSeat (Some ca) q log);
  ho_b : exists s, get_at room b = Some s /\ st_config s = Some cb;
  ho_others : forall k s, room !! k = Some s -> Z.of_nat k <> a -> Z.of_nat k <> b -> st_queue s = []
}.

Lemma get_at_alter {A} (f : A -> A) l i j : 0 <= i ->
  get_at (alter f (Z.to_nat i) l) j = if j =? i then f <$> get_at l j else get_at l j.
Proof.
  intros Hi. unfold get_at. destruct (Z.leb_spec 0 j); [|by destruct (j =? i)].
  destruct (Z.eqb_spec j i) as [->|]; [by rewrite list_lookup_alter_eq|]. apply list_lookup_alter_ne. lia.
Qed.

Lemma push_holding q log room index text : 0 <= a -> 0 <= b -> a <> b -> index = a \/ index = b -> holding q log room ->
  holding (if decide (index = a) then q ++ text else q) log (alter (spec_push text) (Z.to_nat index) room).
Proof.
  intros Ha Hb Hab Hi [Hqa (sb & Hsb & Hcb) Hq]. assert (0 <= index) as Hi0 by (destruct Hi; lia). split.
  - rewrite get_at_alter, Hqa by done. destruct (Z.eqb_spec a index) as [He|He]; [rewrite decide_True by done|rewrite decide_False by done]; done.
  - rewrite get_at_alter, Hsb by done. destruct (b =? index); cbn; [|by exists sb]. eexists. split; [done|]. unfold spec_push. rewrite Hcb. done.
  - intros k s Hk H1 H2. apply (Hq k); [|done|done]. rewrite list_lookup_alter_ne in Hk; [done|]. intros ?. destruct Hi; lia.
Qed.

Lemma typing_holding log typed : 0 <= a -> 0 <= b -> a <> b -> Forall (fun p => fst p = a \/ fst p = b) typed ->
  forall q room, holding q log room ->
  let events := (fun '(index, text) => Type_text index text) <$> typed in
  sent_to (fst (room_run interval room events)) = [] /\ holding (q ++ typed_by a typed) log (snd (room_run interval room events)).
Proof.
  intros Ha Hb Hab Htyped. induction Htyped as [|[index text] typed Hi _ IH]; intros q room Hh.
  { cbn. by rewrite app_nil_r. }
  cbn [fmap list_fmap room_run room_handle]. pose proof (push_holding q log room index text Ha Hb Hab Hi Hh) as Hh'.
  destruct (IH _ _ Hh') as [Hs Hr]. destruct (room_run interval _ _) as [outs room']. cbn [fst snd sent_to] in *.
  split; [done|]. assert (q ++ typed_by a ((index, text) :: typed) = (if decide (index = a) then q ++ text else q) ++ typed_by a typed) as ->; [|done].
  unfold typed_by. destruct (decide (index = a)).
  - rewrite filter_cons_True by done. cbn [fmap list_fmap concat snd]. by rewrite app_assoc.
  - by rewrite filter_cons_False by done.
Qed.

Lemma flush_holding q log room k : 0 <= a -> 0 <= b -> a <> b -> holding q log room ->
  to_b (sent_from room (clock k) 0 room) =
    match q with [] => [] | _ :: _ => [spec_delivery (mkSeat (Some ca) q log) (tc_source_id ca) (clock k) b cb] end /\
  holding [] (match q with [] => [] | _ :: _ => log ++ [(clock k, spoken (mkSeat (Some ca) q log))] end)
    (after_flush (clock k) <$> room).
Proof.
  intros Ha Hb Hab [Hqa (sb & Hsb & Hcb) Hq]. assert (forall j, get_at (after_flush (clock k) <$> room) j = after_flush (clock k) <$> get_at room j) as Hmap.
  { intros j. unfold get_at. destruct (0 <=? j); [apply list_lookup_fmap|done]. }
  split; [|split].
  - rewrite to_b_sent by (done || lia). rewrite Z.sub_0_r, Hqa. unfold sent_by. cbn [st_config st_queue]. destruct q; [done|].
    rewrite to_b_copies by (done || lia). by rewrite Z.sub_0_r, Hsb, Hcb.
  - by rewrite Hmap, Hqa.
  - rewrite Hmap, Hsb. eexists. split; [done|]. by rewrite after_config.
  - intros j s Hj H1 H2. rewrite list_lookup_fmap in Hj. destruct (room !! j) as [s0|] eqn:E; [|done]. injection Hj as <-.
    unfold after_flush. specialize (Hq j s0 E H1 H2). by destruct (st_config s0).
Qed.

Lemma rounds_stream rounds : 0 <= a -> 0 <= b -> a <> b -> Forall (Forall (fun p => fst p = a \/ fst p = b)) rounds ->
  forall log k room, holding [] log room ->
  sent_to (fst (room_run interval room (rounds_events k rounds))) = stream_of log k (typed_by a <$> rounds).
Proof.
  intros Ha Hb Hab Hr. induction Hr as [|typed rounds Ht _ IH]; intros log k room Hh; [done|]. cbn [rounds_events fmap list_fmap].
  unfold round_events. rewrite <- app_assoc, room_run_app. cbn [fst]. rewrite sent_to_app.
  destruct (typing_holding log typed Ha Hb Hab Ht [] room Hh) as [-> Hh1]. cbv zeta in Hh1. cbn [app] in Hh1 |- *.
  destruct (room_run interval room (_ <$> typed)) as [o1 room1]. cbn [snd] in *. cbn [room_run room_handle]. fold (clock k).
  destruct (flush_holding _ _ _ k Ha Hb Hab Hh1) as [Hs Hh2]. specialize (IH _ (k + 1) _ Hh2).
  destruct (room_run interval (after_flush (clock k) <$> room1) _) as [o2 room2]. cbn [fst sent_to] in *. unfold to_b in Hs. rewrite Hs, IH.
  by destruct (typed_by a typed).
Qed.

(** *** The stream is a sender's *)

Definition has_red : bool := bool_decide (tc_red_payload_type cb <> None).
Definition red_of (r : Z) : option Z := if has_red then Some r else None.

Fixpoint gens_of (k : Z) (texts : list bytes) : list (Z * bytes) :=
  match texts with
  | [] => []
  | [] :: texts => gens_of (k + 1) texts
  | t :: texts => (clock k, t) :: gens_of (k + 1) texts
  end.

Lemma gens_texts texts : forall k, snd <$> gens_of k texts = filter (fun t => t <> []) texts.
Proof.
  induction texts as [|[|x t] texts IH]; intros k; [done| |]; cbn [gens_of].
  - rewrite filter_cons_False by (intros H; done). apply IH.
  - rewrite filter_cons_True by done. by rewrite fmap_cons, IH.
Qed.

Definition stream_item (s : t140_sender) (d : delivery content) (i r : Z) : Prop :=
  dl_timestamp d = fst (generation s i) /\ sendable s (i, red_of r) /\ redundancy (red_of r) = r /\
  match dl_content d with
  | Bare t => has_red = false /\ t = snd (generation s i)
  | Red p => has_red = true /\ p = builder_packet (sender_builder s i r)
  end.

Fixpoint items (s : t140_sender) (i : Z) (ds : list (delivery content)) (rs : list Z) : Prop :=
  match ds, rs with
  | [], [] => True
  | d :: ds, r :: rs => stream_item s d i r /\ items s (i + 1) ds rs
  | _, _ => False
  end.

(** The generations of a burst were stamped by consecutive flushes. *)
Definition burst (log : list (Z * bytes)) (k : Z) : Prop :=
  forall i g, get_at log i = Some g -> fst g = clock (k - len log + i).

Lemma clock_distance k d : 0 <= d <= 2 -> 1 <= interval < 2 ^ 13 -> wrapping_sub 32 (clock k) (clock (k - d)) < 2 ^ 14.
Proof.
  intros Hd Hi. unfold clock, flush_clock, wrapping_sub, wrap.
  assert (forall x, (x mod 2 ^ 64) mod 2 ^ 32 = x mod 2 ^ 32) as Hm.
  { intros x. apply Z.mod_mod_divide. by exists (2 ^ 32). }
  rewrite !Hm, <- Zminus_mod. replace ((start + k) * interval - (start + (k - d)) * interval) with (d * interval) by lia.
  rewrite Z.mod_small by nia. nia.
Qed.

Lemma burst_fits s k log : 1 <= interval < 2 ^ 13 -> burst log k -> st_log s = log -> carried (clock k) s = remembered s.
Proof.
  intros Hi Hb <-. unfold carried. assert (forallb (fun g => wrapping_sub 32 (clock k) (fst g) <? 2 ^ 14) (remembered s) = true) as ->; [|done].
  apply forallb_forall. intros g Hg. apply Z.ltb_lt. apply list_elem_of_In, list_elem_of_lookup in Hg as [i Hg].
  unfold remembered, last_n in Hg. rewrite lookup_drop in Hg. change (Z.to_nat MAX_TEXT_REDUNDANCY) with 2%nat in Hg.
  apply lookup_lt_Some in Hg as Hlt. set (j := (_ + i)%nat) in *. rewrite (Hb (Z.of_nat j) g) by (unfold get_at; rewrite Nat2Z.id; by rewrite (proj2 (Z.leb_le _ _)) by lia).
  replace (k - len (st_log s) + Z.of_nat j) with (k - (len (st_log s) - Z.of_nat j)) by lia. apply clock_distance; [|done]. unfold len. lia.
Qed.

Lemma burst_snoc log k t : burst log k -> burst (log ++ [(clock k, t)]) (k + 1).
Proof.
  intros Hb i g. unfold get_at. destruct (Z.leb_spec 0 i); [|done]. intros Hg. rewrite len_app. change (len [_]) with 1.
  apply lookup_app_Some in Hg as [Hg|[Hge Hg]].
  - rewrite (Hb i g); [f_equal; lia|]. unfold get_at. by rewrite (proj2 (Z.leb_le 0 i)).
  - apply list_lookup_singleton_Some in Hg as [Hz <-]. cbn [fst]. f_equal. unfold len. lia.
Qed.

Lemma generation_mid s l g r : sd_gens s = l ++ g :: r -> generation s (len l) = g.
Proof. intros H. unfold generation. rewrite H, to_nat_len, app_nth2, Nat.sub_diag by lia. done. Qed.

Lemma last_n_min {A} (l : list A) n : 0 <= n -> last_n n l = last_n (Z.min n (len l)) l.
Proof. intros Hn. unfold last_n, len. f_equal. lia. Qed.

(** One generation of the stream. *)
Lemma item_ok s old log k t rest : 1 <= interval < 2 ^ 13 -> burst log k -> len t <= MAX_PENDING_TEXT_BYTES ->
  Forall (fun g => len (snd g) <= MAX_PENDING_TEXT_BYTES) log ->
  sd_gens s = (old ++ log) ++ (clock k, t) :: rest -> sd_payload_type s = tc_t140_payload_type cb ->
  stream_item s (spec_delivery (mkSeat (Some ca) t log) (tc_source_id ca) (clock k) b cb) (len (old ++ log))
    (if has_red then Z.min MAX_TEXT_REDUNDANCY (len log) else 0).
Proof.
  intros Hint Hb Hlt Hlog Hs Hpt. pose proof (generation_mid s _ _ _ Hs) as Hg. set (q := mkSeat (Some ca) t log).
  assert (spoken q = t) as Hsp by (unfold spoken; by rewrite last_n_short).
  pose proof (burst_fits q k log Hint Hb eq_refl) as Hcar. pose proof (len_nonneg log). pose proof (len_nonneg old).
  set (r := Z.min MAX_TEXT_REDUNDANCY (len log)).
  assert (0 <= r <= len log) as Hr by (unfold r, MAX_TEXT_REDUNDANCY; lia).
  assert (sub (sd_gens s) (len (old ++ log) - r) (len (old ++ log)) = remembered q) as Hsub.
  { rewrite Hs. rewrite sub_app_l by (rewrite len_app; lia). rewrite len_app. rewrite sub_app_r by lia.
    replace (len old + len log - r - len old) with (len log - Z.min (len log) r) by lia. replace (len old + len log - len old) with (len log) by lia.
    rewrite sub_last_n, to_nat_len, firstn_all by lia. unfold remembered. cbn [q st_log]. symmetry. by apply last_n_min. }
  unfold stream_item. rewrite Hg. cbn [fst snd spec_delivery dl_timestamp dl_content]. unfold red_of. split; [done|].
  assert (0 <= len (old ++ log) < len (sd_gens s)) as Hrange by (rewrite Hs, !len_app, len_cons; pose proof (len_nonneg rest); lia).
  destruct has_red eqn:Ered; cbn [redundancy default]; unfold id.
  - split_and!; [|done|].
    + split_and!; [lia|lia|cbn [redundancy default]; unfold id; lia|cbn [redundancy default]; unfold id; rewrite len_app; lia|].
      unfold sender_builder. rewrite Hg, Hsub, Hpt. cbn [fst snd]. rewrite <- Hsp at 1. change (builder_fits (seat_builder (tc_t140_payload_type cb) (clock k) q (remembered q))).
      split.
      * cbn [seat_builder rbd_redundant]. rewrite len_fmap, len_remembered. cbn [q st_log]. unfold MAX_TEXT_REDUNDANCY, MAX_RED_BLOCKS. lia.
      * cbn [seat_builder rbd_redundant]. apply Forall_fmap. unfold carried in Hcar. assert (forallb (fun g => wrapping_sub 32 (clock k) (fst g) <? 2 ^ 14) (remembered q) = true) as Hf.
        { destruct (forallb _ (remembered q)) eqn:E; [done|]. rewrite <- Hcar in E. done. }
        rewrite forallb_forall in Hf. apply remembered_log with (s := q) in Hlog. rewrite List.Forall_forall in Hlog |- *. intros g Hin.
        specialize (Hf g Hin). specialize (Hlog g Hin). cbv beta in Hf, Hlog. apply Z.ltb_lt in Hf. split; [done|]. cbn [rg_data]. unfold MAX_PENDING_TEXT_BYTES in Hlog. lia.
    + unfold spec_content. unfold has_red in Ered. apply bool_decide_eq_true in Ered. destruct (tc_red_payload_type cb); [|done]. split; [done|].
      rewrite Hcar. unfold sender_builder. rewrite Hg, Hsub, Hpt. cbn [fst snd]. rewrite <- (seat_packet _ _ q). unfold seat_builder. by rewrite Hsp.
  - split_and!; [split_and!; cbn [redundancy default]; unfold id; lia || done|done|].
    unfold spec_content. unfold has_red in Ered. apply bool_decide_eq_false in Ered. destruct (tc_red_payload_type cb); [exfalso; by apply Ered|]. by rewrite Hsp.
Qed.

Lemma burst_nil k : burst [] k.
Proof. intros i g Hg. by rewrite get_at_nil in Hg. Qed.

Lemma stream_items s texts : 1 <= interval < 2 ^ 13 -> Forall (fun t => len t <= MAX_PENDING_TEXT_BYTES) texts ->
  sd_payload_type s = tc_t140_payload_type cb ->
  forall old log k, burst log k -> Forall (fun g => len (snd g) <= MAX_PENDING_TEXT_BYTES) log ->
  sd_gens s = (old ++ log) ++ gens_of k texts ->
  items s (len (old ++ log)) (stream_of log k texts) (plan (len log) texts).
Proof.
  intros Hint Hall Hpt. induction Hall as [|t texts Ht _ IH]; intros old log k Hb Hlog Hs; [done|].
  destruct t as [|x t]; cbn [stream_of plan gens_of] in *.
  { specialize (IH (old ++ log) [] (k + 1)). rewrite app_nil_r in IH. apply IH; [apply burst_nil|constructor|done]. }
  assert (spoken (mkSeat (Some ca) (x :: t) log) = x :: t) as Hsp by (unfold spoken; by rewrite last_n_short).
  rewrite Hsp. cbn [items]. split; [by eapply item_ok|].
  specialize (IH old (log ++ [(clock k, x :: t)]) (k + 1)). rewrite !len_app in IH. change (len [_]) with 1 in IH. rewrite len_app.
  replace (len old + len log + 1) with (len old + (len log + 1)) by lia. apply IH.
  - by apply burst_snoc.
  - apply Forall_app. split; [done|]. by apply Forall_cons_2.
  - rewrite Hs. by rewrite <- !app_assoc.
Qed.

Lemma items_get s ds : forall rs i j d, items s i ds rs -> get_at ds j = Some d ->
  exists r, get_at rs j = Some r /\ stream_item s d (i + j) r.
Proof.
  induction ds as [|d0 ds IH]; intros [|r rs] i j d Hi Hg; try done. { by rewrite get_at_nil in Hg. }
  destruct Hi as [H0 Hi]. destruct (Z.eq_dec j 0) as [->|Hj].
  { injection Hg as <-. exists r. rewrite Z.add_0_r. done. }
  rewrite <- (Z.sub_0_r j) in Hg. rewrite get_at_shift in Hg by done. destruct (IH _ _ _ _ Hi Hg) as (r' & Hr & Hit). exists r'.
  rewrite <- (Z.sub_0_r j) at 1. rewrite get_at_shift by done. split; [done|]. by replace (i + 1 + (j - (0 + 1))) with (i + j) in Hit by lia.
Qed.

Lemma items_len s ds : forall rs i, items s i ds rs -> len ds = len rs.
Proof. induction ds as [|d ds IH]; intros [|r rs] i Hi; try done. destruct Hi as [_ Hi]. rewrite !len_cons. f_equal. by eapply IH. Qed.

Lemma number_get ds : forall i j, get_at (number_from i ds) j =
  (fun d => (wrap 16 (base + (i + j)), dl_timestamp d, dl_content d, has_red)) <$> get_at ds j.
Proof.
  induction ds as [|d ds IH]; intros i j; [by rewrite (@get_at_nil t140_packet), (@get_at_nil (delivery bytes))|]. cbn [number_from]. destruct (Z.eq_dec j 0) as [->|Hj].
  { by rewrite Z.add_0_r. }
  pose proof (Z.sub_0_r j) as Hz. assert (forall A (x : A) l, get_at (x :: l) j = get_at l (j - 1)) as Hs.
  { intros A x l. rewrite <- Hz at 1. by rewrite get_at_shift. }
  rewrite !Hs, IH. by replace (i + 1 + (j - 1)) with (i + j) by lia.
Qed.

Lemma len_number ds : forall i, len (number_from i ds) = len ds.
Proof. induction ds as [|d ds IH]; intros i; [done|]. cbn [number_from]. rewrite !len_cons. f_equal. apply IH. Qed.

Lemma sent_to_ok outs spec : Forall2 outcome_ok outs spec -> Forall2 delivery_ok (sent_to outs) (sent_to spec).
Proof.
  induction 1 as [|o e outs spec Ho _ IH]; [constructor|]. destruct o, e; try done. cbn [sent_to]. apply Forall2_app; [|done]. clear IH.
  cbn [outcome_ok] in Ho. induction Ho as [|d e ds es Hd _ IH]; [constructor|]. pose proof Hd as [Hr _]. rewrite !filter_cons, Hr.
  destruct (decide (dl_receiver e = b)); [by constructor|done].
Qed.

Lemma Forall2_get {A B} (P : A -> B -> Prop) l k i x : Forall2 P l k -> get_at l i = Some x -> exists y, get_at k i = Some y /\ P x y.
Proof. intros H Hg. unfold get_at in *. destruct (0 <=? i); [|done]. by eapply Forall2_lookup_l. Qed.

(** A packet and one whose payload says the same are the same to the receiver. *)
Lemma on_packet_parse r sequence timestamp p q : RedPacket_parse p = RedPacket_parse q ->
  on_packet r sequence timestamp p true = on_packet r sequence timestamp q true.
Proof. intros H. unfold on_packet. by rewrite H. Qed.

Lemma packet_as_sent s d e i r : gens_ok s -> sd_base s = base -> stream_item s e i r -> delivery_ok d e ->
  forall R, let '(sequence, timestamp, payload, is_red) := sender_packet s (i, red_of r) in
  on_packet R sequence timestamp payload is_red = on_packet R (wrap 16 (base + i)) (dl_timestamp d) (dl_content d) has_red.
Proof.
  intros Hg Hbase (Hts & Hsend & Hr & Hc) (_ & _ & _ & Ht & _ & _ & Hok) R. unfold sender_packet, red_of in *. rewrite Hbase, Ht, Hts.
  destruct (dl_content e) as [t|p]; destruct Hc as [Hred Hc]; rewrite Hred in *.
  - by rewrite Hok, Hc.
  - apply on_packet_parse. rewrite Hok, Hc. destruct Hsend as (Hi & Hk & Hfit).
    pose proof (write_into_spec (sender_builder s i r)) as Hw. destruct (RedBuilder_write_into _) as [[m|e'|] out]; [|by destruct Hw|done].
    destruct Hw as (_ & -> & _). apply red_parse_wire; [by apply builder_packet_ok| |].
    + change (rp_redundant (builder_packet (sender_builder s i r))) with (sender_blocks s i r). rewrite sender_blocks_data. by apply text_range_bytes.
    + cbn [builder_packet rp_primary rb_data sender_builder rbd_primary_data]. rewrite <- generation_range by done. by apply text_range_bytes.
Qed.

Definition numbered (rs : list Z) (i : Z) : Z * option Z := (i, red_of (byte_of rs i)).

Lemma picked_run s ds es rs received : gens_ok s -> sd_base s = base -> items s 0 es rs -> Forall2 delivery_ok ds es ->
  Forall (fun i => 0 <= i < len rs) received -> forall R,
  t140_run R (pick (number_from 0 ds) received) = t140_run R (sender_packet s <$> (numbered rs <$> received)).
Proof.
  intros Hg Hbase Hit Hds Hr. induction Hr as [|i received Hi _ IH]; intros R; [done|].
  assert (len ds = len rs) as Hl. { rewrite <- (items_len _ _ _ _ Hit). unfold len. by rewrite (Forall2_length Hds). }
  cbn [pick fmap list_fmap]. rewrite number_get. assert (exists d, get_at ds i = Some d) as (d & Hd).
  { unfold get_at. rewrite (proj2 (Z.leb_le 0 i)) by lia. apply lookup_lt_is_Some. unfold len in *. lia. }
  destruct (Forall2_get _ _ _ _ _ Hds Hd) as (e & He & Hde). destruct (items_get _ _ _ _ _ _ Hit He) as (r & Hrs & Hitem).
  assert (byte_of rs i = r) as Hbr. { unfold get_at in Hrs. rewrite (proj2 (Z.leb_le 0 i)) in Hrs by lia. unfold byte_of. by apply nth_lookup_Some. }
  rewrite Hd. cbn [fmap option_fmap option_map]. unfold numbered at 1. rewrite Hbr.
  pose proof (packet_as_sent s d e i r Hg Hbase Hitem Hde R) as Hp.
  cbn [t140_run]. destruct (sender_packet s (i, red_of r)) as [[[sq ts] pl] isr]. rewrite !Z.add_0_l. rewrite <- Hp.
  cbn [t140_run]. destruct (on_packet R sq ts pl isr) as [o R']. by rewrite IH.
Qed.

Lemma items_sendable s ds rs i : items s 0 ds rs -> 0 <= i < len rs ->
  sendable s (numbered rs i) /\ redundancy (red_of (byte_of rs i)) = byte_of rs i.
Proof.
  intros Hit Hi. pose proof (items_len _ _ _ _ Hit) as Hl. assert (exists d, get_at ds i = Some d) as (d & Hd).
  { unfold get_at. rewrite (proj2 (Z.leb_le 0 i)) by lia. apply lookup_lt_is_Some. unfold len in *. lia. }
  destruct (items_get _ _ _ _ _ _ Hit Hd) as (r & Hr & (_ & Hs & Hred & _)).
  assert (byte_of rs i = r) as Hbr. { unfold get_at in Hr. rewrite (proj2 (Z.leb_le 0 i)) in Hr by lia. unfold byte_of. by apply nth_lookup_Some. }
  unfold numbered. by rewrite Hbr.
Qed.

Lemma reaches_covered s ds rs received : items s 0 ds rs -> forall next, reaches rs next received ->
  in_window s (Some next) (numbered rs <$> received) /\ covered s (Some next) (numbered rs <$> received) /\
  Forall (fun i => 0 <= i < len rs) received.
Proof.
  intros Hit. induction received as [|i received IH]; intros next Hr; [done|]. destruct Hr as (Hi & Hw & Hc & Hr).
  destruct (items_sendable _ _ _ _ Hit Hi) as [Hs Hred]. destruct (IH _ Hr) as (H1 & H2 & H3).
  assert (snd (spec_step s (Some next) (numbered rs i)) = Some (Z.max next (i + 1))) as Hstep.
  { unfold spec_step, numbered. destruct (Z.ltb_spec i next); cbn [snd]; f_equal; lia. }
  cbn [fmap list_fmap in_window covered]. rewrite Hstep. split_and!; try done.
  - cbn [numbered fst]. lia.
  - cbn [numbered fst]. lia.
  - cbn [numbered fst snd]. by rewrite Hred.
  - by constructor.
Qed.

Lemma seats_run configs : forall room, len room + len configs <= MAX_TEXT_PARTICIPANTS ->
  sent_to (fst (room_run interval room (Seat <$> configs))) = [] /\
  snd (room_run interval room (Seat <$> configs)) = room ++ ((fun c => mkSeat c [] []) <$> configs).
Proof.
  induction configs as [|c configs IH]; intros room Hl; [by rewrite app_nil_r|]. rewrite len_cons in Hl. pose proof (len_nonneg configs).
  cbn [fmap list_fmap room_run room_handle]. rewrite (proj2 (Z.ltb_lt _ _)) by lia.
  destruct (IH (room ++ [mkSeat c [] []])) as [Hs Hr]; [rewrite len_app; change (len [_]) with 1; lia|].
  unfold fmap in *. destruct (room_run interval _ (list_fmap _ _ Seat configs)) as [outs room']. cbn [fst snd sent_to] in *.
  split; [done|]. rewrite Hr. by rewrite <- app_assoc.
Qed.

Lemma seats_holding configs : get_at configs a = Some (Some ca) -> get_at configs b = Some (Some cb) ->
  holding [] [] ((fun c => mkSeat c [] []) <$> configs).
Proof.
  intros Ha Hb. assert (forall i, get_at ((fun c => mkSeat c [] []) <$> configs) i = (fun c => mkSeat c [] []) <$> get_at configs i) as Hmap.
  { intros i. unfold get_at. destruct (0 <=? i); [apply list_lookup_fmap|done]. }
  split; [by rewrite Hmap, Ha|rewrite Hmap, Hb; by eexists|]. intros k s Hk _ _. rewrite list_lookup_fmap in Hk.
  destruct (configs !! k); [|done]. by injection Hk as <-.
Qed.

Lemma typed_bytes typed : Forall (fun p : Z * bytes => bytes_ok (snd p)) typed -> bytes_ok (typed_by a typed).
Proof.
  intros H. unfold typed_by. induction H as [|p typed Hp _ IH]; [constructor|]. rewrite filter_cons.
  destruct (decide (fst p = a)); [|done]. cbn [fmap list_fmap concat]. by apply bytes_ok_app.
Qed.

Lemma script_events configs rounds : 0 <= a -> 0 <= b ->
  Forall (Forall (fun p => (fst p = a \/ fst p = b) /\ bytes_ok (snd p))) rounds -> Forall event_ok (script configs rounds).
Proof.
  intros Ha Hb Hr. apply Forall_app. split. { apply Forall_fmap. by induction configs; constructor. }
  generalize 0. induction Hr as [|typed rounds Ht _ IH]; intros k; [constructor|]. cbn [rounds_events]. apply Forall_app. split; [|done].
  apply Forall_app. split; [|by repeat constructor]. apply Forall_fmap. eapply Forall_impl; [|exact Ht].
  intros [index text] [Hi Hb']. cbn in *. split; [|done]. by destruct Hi as [-> | ->].
Qed.

(** The stream for [b] is that of a sender with [a]'s generations. *)
Lemma script_stream configs rounds : 1 <= interval < 2 ^ 13 -> len configs <= MAX_TEXT_PARTICIPANTS -> 0 <= a -> 0 <= b -> a <> b ->
  get_at configs a = Some (Some ca) -> get_at configs b = Some (Some cb) ->
  Forall (Forall (fun p => (fst p = a \/ fst p = b) /\ bytes_ok (snd p))) rounds ->
  Forall (fun t => len t <= MAX_PENDING_TEXT_BYTES) (typed_by a <$> rounds) ->
  let s := mkSender base (tc_t140_payload_type cb) (gens_of 0 (typed_by a <$> rounds)) in
  gens_ok s /\ items s 0 (sent_to (fst (room_run interval [] (script configs rounds)))) (plan 0 (typed_by a <$> rounds)).
Proof.
  intros Hint Hl Ha Hb Hab Hca Hcb Hr Hlen. cbv zeta. split.
  - unfold gens_ok. cbn [sd_gens]. apply (Forall_fmap snd bytes_ok). rewrite gens_texts.
    apply list.Forall_forall. intros t Ht. apply list_elem_of_filter in Ht as [_ Ht]. apply list_elem_of_fmap in Ht as (typed & -> & Ht).
    apply typed_bytes. rewrite list.Forall_forall in Hr. specialize (Hr typed Ht). eapply Forall_impl; [|exact Hr]. by intros p [_ ?].
  - unfold script. rewrite room_run_app. cbn [fst]. rewrite sent_to_app. destruct (seats_run configs []) as [-> ->]; [done|]. cbn [app].
    rewrite (rounds_stream rounds Ha Hb Hab) with (log := []); [|eapply Forall_impl; [|exact Hr]; intros ? H; eapply Forall_impl; [|exact H]; by intros ? [? _]|by apply seats_holding].
    pose proof (stream_items (mkSender base (tc_t140_payload_type cb) (gens_of 0 (typed_by a <$> rounds))) _ Hint Hlen eq_refl [] [] 0 (burst_nil 0)) as H.
    apply H; [constructor|done].
Qed.

Lemma len_plan texts : forall run, len (plan run texts) = len (filter (fun t => t <> []) texts).
Proof.
  induction texts as [|[|x t] texts IH]; intros run; [done| |]; cbn [plan].
  - rewrite filter_cons_False by (intros H; done). apply IH.
  - rewrite filter_cons_True by done. by rewrite !len_cons, IH.
Qed.

End delivers.

(** C33. Text typed in a conference reaches the screen whole.  Seats [a] and [b] type
    (at most 300 bytes of [a]'s per flush), the room is flushed at a regular pace of
    at most 8191 milliseconds from any counter on, also across the clock's
    overflows.  The packets for [b], as many as the rounds in which [a] typed, are
    numbered in order; they are then lost, duplicated and reordered, every one that
    arrives carrying enough redundancy to reach the next generation owed.  The
    receiving reassembler accepts every packet, inserts no marker, and the texts it
    emits, followed by the bytes of a character still incomplete, are what [a] typed
    from the first packet received up to the newest: each byte once, in order. *)
Theorem text_mixer_delivers interval base start a b ca cb configs rounds j rest :
  1 <= interval < 2 ^ 13 -> len configs <= MAX_TEXT_PARTICIPANTS -> 0 <= a -> 0 <= b -> a <> b ->
  get_at configs a = Some (Some ca) -> get_at configs b = Some (Some cb) ->
  Forall (Forall (fun p => (fst p = a \/ fst p = b) /\ bytes_ok (snd p))) rounds ->
  Forall (fun t => len t <= MAX_PENDING_TEXT_BYTES) (typed_by a <$> rounds) ->
  let texts := filter (fun t => t <> []) (typed_by a <$> rounds) in
  utf8_valid (concat (sub texts j (len texts))) -> 0 <= j < len texts ->
  reaches (plan cb 0 (typed_by a <$> rounds)) (j + 1) rest ->
  exists outs m outputs r n,
    text_run (TextMixer_new interval) (script start configs rounds) = Ok (outs, m) /\
    len (sent_to b outs) = len texts /\
    t140_run T140Reassembler_new (pick (number_from base cb 0 (sent_to b outs)) (j :: rest)) = (Ok <$> outputs, r) /\
    concat (to_text <$> outputs) ++ tr_partial r = concat (sub texts j n) /\ split_char (tr_partial r) /\
    Forall (fun i => i < n) (j :: rest) /\ Forall (fun out => to_missing_markers out = 0) outputs.
Proof.
  intros Hint Hl Ha Hb Hab Hca Hcb Hr Hlen texts Hv Hj Hreach.
  destruct (script_stream interval base start a b ca cb configs rounds Hint Hl Ha Hb Hab Hca Hcb Hr Hlen) as [Hg Hit].
  set (s := mkSender _ _ _) in *. set (rs := plan cb 0 _) in *.
  destruct (room_run_ok _ (script start configs rounds) _ _ (new_room_ok interval)) as (outs & m & Hrun & _ & Hout); [by apply (script_events start a b)|].
  rewrite Z.max_l in Hout by lia. apply (sent_to_ok b) in Hout. pose proof (items_len cb s _ _ _ Hit) as Hl1.
  assert (snd <$> sd_gens s = texts) as Htexts by apply gens_texts.
  assert (forall i k, text_range s i k = concat (sub texts i k)) as Hrange.
  { intros i k. unfold text_range. rewrite <- Htexts. unfold sub. by rewrite fmap_take, fmap_drop. }
  assert (len (sd_gens s) = len texts) as Hlg by (by rewrite <- Htexts, len_fmap).
  assert (len rs = len texts) as Hlr by apply len_plan. rewrite <- Hlr in Hj.
  destruct (reaches_covered cb s _ _ _ Hit _ Hreach) as (Hw & Hc & Hall). destruct (items_sendable cb s _ _ _ Hit Hj) as [Hsend _].
  pose proof (picked_run base cb s _ _ _ (j :: rest) Hg eq_refl Hit Hout (Forall_cons_2 _ _ _ Hj Hall) T140Reassembler_new) as Hpick.
  destruct (t140_lossless s j (snd (numbered cb rs j)) (numbered cb rs <$> rest) Hg) as (outputs & r & n & Hrun' & Htext & Hsplit & Hnew & Hmark).
  { by rewrite Hlg, Hrange. }
  { done. }
  { done. }
  exists outs, m, outputs, r, n. split_and!; try done.
  - unfold len. rewrite (Forall2_length Hout). fold (len texts). rewrite <- Hlr, <- Hl1. done.
  - rewrite Hpick. exact Hrun'.
  - by rewrite Htext, Hrange.
  - apply Forall_cons_1 in Hnew as [Hj' Hnew]. apply Forall_cons_2; [done|]. by apply (Forall_fmap (numbered cb rs)) in Hnew.
Qed.

(** ** Witnesses *)

Definition red_config (id : Z) : option TextSourceConfig := Some (mkTextSourceConfig id 98 (Some 99)).

(** Seats 0 and 2 have text, seat 1 has not; seat 0 types twice, the second time
    after a flush that leaves its clock far behind. *)
Definition demo_events : list text_event :=
  [Seat (red_config 0xA); Seat None; Seat (Some (mkTextSourceConfig 0xB 97 None)); Type_text 0 [0x48; 0x69]; Flush 1;
   Type_text 2 [0x21]; Type_text 1 [0x3F]; Flush 2].

Lemma text_mixer_distributes_witness :
  (exists outs m, text_run (TextMixer_new 300) demo_events = Ok (outs, m) /\
     Forall2 outcome_ok outs (fst (room_run (Z.max 300 1) [] demo_events))) /\
  fst (room_run (Z.max 300 1) [] demo_events) =
  [Seated true; Seated true; Seated true; Queued; Sent [mkDelivery 2 0xA 97 300 true (Bare [0x48; 0x69])];
   Queued; Queued; Sent [mkDelivery 0 0xB 99 600 true (Red (mkRedPacket [] (mkRedBlock 98 0 [0x21])))]].
Proof.
  split; [|vm_compute; reflexivity]. apply (text_mixer_distributes 300 demo_events).
  unfold demo_events. forall_list; cbn; try done; split; try lia; unfold bytes_ok; forall_list; unfold is_byte; lia.
Defined.

(** Seat 0 types é and € across rounds; the second packet for seat 2 is lost. *)
Definition demo_rounds : list (list (Z * bytes)) :=
  [[(0, [0x48]); (0, [0xC3])]; [(0, [0xA9; 0xE2])]; [(2, [0x3F]); (0, [0x82; 0xAC])]; []; [(0, [0x21])]].

Lemma text_mixer_delivers_witness : exists outs m outputs r n,
  text_run (TextMixer_new 300) (script (2 ^ 64 - 2) [red_config 0xA; None; red_config 0xB] demo_rounds) = Ok (outs, m) /\
  len (sent_to 2 outs) = 4 /\
  t140_run T140Reassembler_new (pick (number_from 65535 (mkTextSourceConfig 0xB 98 (Some 99)) 0 (sent_to 2 outs)) [0; 2; 1; 3]) =
    (Ok <$> outputs, r) /\
  concat (to_text <$> outputs) ++ tr_partial r = concat (sub [[0x48; 0xC3]; [0xA9; 0xE2]; [0x82; 0xAC]; [0x21]] 0 n) /\
  split_char (tr_partial r) /\ Forall (fun i => i < n) [0; 2; 1; 3] /\ Forall (fun out => to_missing_markers out = 0) outputs.
Proof.
  apply (text_mixer_delivers 300 65535 (2 ^ 64 - 2) 0 2 (mkTextSourceConfig 0xA 98 (Some 99)) (mkTextSourceConfig 0xB 98 (Some 99))
           [red_config 0xA; None; red_config 0xB] demo_rounds 0 [2; 1; 3]); try done; try lia.
  - unfold demo_rounds, bytes_ok. forall_list; cbn; (split; [lia|]); forall_list; unfold is_byte; lia.
  - vm_compute. forall_list; done.
Defined.
