(* ===== verification/G726.v ===== *)
(** * G.726: crates/siphon-rtp-codec/src/g726.rs

    The adaptive differential codec at its four rates, and its RTP packing.  The
    arithmetic is the source's: [i32] sums, products and negations that overflow are
    [Panic]s, as are shifts by the width and indices out of range; [as i16] wraps.
    The two-element arrays [a], [pk] and [sr], only ever indexed by constants, are
    two fields each. *)

From stdpp Require Import base list numbers option strings.
From Stdlib Require Import Lia ZArith.
From S2P Require Import Prelude Codec.

Open Scope Z_scope.

Notation adpcm := (res CodecError).

(** [x << n] and [x >> n] on [i32]. *)
Definition shl (x n : Z) : adpcm Z := if (0 <=? n) && (n <? 32) then Ok (to_signed 32 (wrap 32 (Z.shiftl x n))) else Panic.
Definition shr (x n : Z) : adpcm Z := if (0 <=? n) && (n <? 32) then Ok (Z.shiftr x n) else Panic.

(** [x as u32]. *)
Definition as_u32 (x : Z) : Z := wrap 32 x.

(** ** Tables *)

Definition G726_16_DQLNTAB : list Z := [116; 365; 365; 116].
Definition G726_16_WITAB : list Z := [-704; 14048; 14048; -704].
Definition G726_16_FITAB : list Z := [0x000; 0xE00; 0xE00; 0x000].
Definition QTAB_726_16 : list Z := [261].

Definition G726_24_DQLNTAB : list Z := [-2048; 135; 273; 373; 373; 273; 135; -2048].
Definition G726_24_WITAB : list Z := [-128; 960; 4384; 18624; 18624; 4384; 960; -128].
Definition G726_24_FITAB : list Z := [0x000; 0x200; 0x400; 0xE00; 0xE00; 0x400; 0x200; 0x000].
Definition QTAB_726_24 : list Z := [8; 218; 331].

Definition G726_32_DQLNTAB : list Z :=
  [-2048; 4; 135; 213; 273; 323; 373; 425; 425; 373; 323; 273; 213; 135; 4; -2048].
Definition G726_32_WITAB : list Z :=
  [-384; 576; 1312; 2048; 3584; 6336; 11360; 35904; 35904; 11360; 6336; 3584; 2048; 1312; 576; -384].
Definition G726_32_FITAB : list Z :=
  [0x000; 0x000; 0x000; 0x200; 0x200; 0x200; 0x600; 0xE00; 0xE00; 0x600; 0x200; 0x200; 0x200; 0x000; 0x000; 0x000].
Definition QTAB_726_32 : list Z := [-124; 80; 178; 246; 300; 349; 400].

Definition G726_40_DQLNTAB : list Z :=
  [-2048; -66; 28; 104; 169; 224; 274; 318; 358; 395; 429; 459; 488; 514; 539; 566; 566; 539; 514;
   488; 459; 429; 395; 358; 318; 274; 224; 169; 104; 28; -66; -2048].
Definition G726_40_WITAB : list Z :=
  [448; 448; 768; 1248; 1280; 1312; 1856; 3200; 4512; 5728; 7008; 8960; 11456; 14080; 16928; 22272;
   22272; 16928; 14080; 11456; 8960; 7008; 5728; 4512; 3200; 1856; 1312; 1280; 1248; 768; 448; 448].
Definition G726_40_FITAB : list Z :=
  [0x000; 0x000; 0x000; 0x000; 0x000; 0x200; 0x200; 0x200; 0x200; 0x200; 0x400; 0x600; 0x800; 0xA00; 0xC00; 0xC00;
   0xC00; 0xC00; 0xA00; 0x800; 0x600; 0x400; 0x200; 0x200; 0x200; 0x200; 0x200; 0x000; 0x000; 0x000; 0x000; 0x000].
Definition QTAB_726_40 : list Z := [-122; -16; 68; 139; 198; 250; 298; 339; 378; 413; 445; 475; 502; 528; 553].

Inductive Rate : Type := R16 | R24 | R32 | R40.

Definition codeword_bits (r : Rate) : Z := match r with R16 => 2 | R24 => 3 | R32 => 4 | R40 => 5 end.
Definition quantizer_states (r : Rate) : Z := match r with R16 => 4 | R24 => 7 | R32 => 15 | R40 => 31 end.
Definition sign_bit (r : Rate) : Z := Z.shiftl 1 (codeword_bits r - 1).
Definition reconstruct_mask (r : Rate) : Z := match r with R40 => 0x7FFF | _ => 0x3FFF end.
Definition qtab (r : Rate) : list Z := match r with R16 => QTAB_726_16 | R24 => QTAB_726_24 | R32 => QTAB_726_32 | R40 => QTAB_726_40 end.
Definition dqlntab (r : Rate) : list Z :=
  match r with R16 => G726_16_DQLNTAB | R24 => G726_24_DQLNTAB | R32 => G726_32_DQLNTAB | R40 => G726_40_DQLNTAB end.
Definition witab (r : Rate) : list Z :=
  match r with R16 => G726_16_WITAB | R24 => G726_24_WITAB | R32 => G726_32_WITAB | R40 => G726_40_WITAB end.
Definition fitab (r : Rate) : list Z :=
  match r with R16 => G726_16_FITAB | R24 => G726_24_FITAB | R32 => G726_32_FITAB | R40 => G726_40_FITAB end.

(** ** Blocks *)

(** [31 - leading_zeros] of a positive word is its binary logarithm. *)
Definition top_bit (bits : Z) : Z := if bits =? 0 then -1 else Z.log2 bits.

Definition fmult (an srn : Z) : adpcm Z :=
  anmag ← (if 0 <? an then mret an else negated ← chk I32 (- an); mret (Z.land negated 0x1FFF));
  anexp ← chk I32 (top_bit (as_u32 anmag) - 5);
  anmant ← (if anmag =? 0 then mret 32
            else if 0 <=? anexp then shr anmag (as_u32 anexp)
            else up ← chk I32 (- anexp); shl anmag (as_u32 up));
  sum ← chk I32 (anexp + Z.land (Z.shiftr srn 6) 0xF);
  wanexp ← chk I32 (sum - 13);
  product ← chk I32 (anmant * Z.land srn 0x3F);
  rounded ← chk I32 (product + 0x30);
  let wanmant := Z.shiftr rounded 4 in
  retval ← (if 0 <=? wanexp then shifted ← shl wanmant (as_u32 wanexp); mret (Z.land shifted 0x7FFF)
            else down ← chk I32 (- wanexp); shr wanmant (as_u32 down));
  signed ← (if Z.lxor an srn <? 0 then chk I32 (- retval) else mret retval);
  mret (as_i16 signed).

(** [while i < size]: the first entry above [dln], or [size]. *)
Fixpoint search_level (turns : nat) (table : list Z) (dln i : Z) : adpcm Z :=
  match turns with
  | O => mret i
  | S turns =>
      entry ← idx table i;
      if dln <? entry then mret i else search_level turns table dln (i + 1)
  end.

(** [i32::wrapping_abs]. *)
Definition wrapping_abs (x : Z) : Z := to_signed 32 (wrap 32 (Z.abs x)).

(** The base-2 logarithm of [|d|] less the scale factor. *)
Definition log_difference (d y : Z) : adpcm Z :=
  let dqm := as_i16 (wrapping_abs d) in
  exp ← chk I32 (top_bit (as_u32 (Z.shiftr dqm 1)) + 1);
  scaled ← shl dqm 7;
  shifted ← shr scaled (as_u32 (Z.max exp 0));
  let mant := Z.land shifted 0x7F in
  high ← shl exp 7;
  dl ← chk I32 (high + mant);
  chk I32 (dl - Z.shiftr y 2).

Definition quantize (d y : Z) (table : list Z) (quantizer_states : Z) : adpcm Z :=
  dln ← log_difference d y;
  states ← chk I32 (quantizer_states - 1);
  let size := Z.shiftr states 1 in
  i ← search_level (Z.to_nat size) table dln 0;
  if d <? 0 then
    doubled ← shl size 1;
    above ← chk I32 (doubled + 1);
    code ← chk I32 (above - i);
    mret (as_i16 code)
  else if (i =? 0) && negb (Z.land quantizer_states 1 =? 0) then mret (as_i16 quantizer_states)
  else mret (as_i16 i).

Definition signal_estimate_15bit (value : Z) : adpcm Z := shifted ← shl value 17; mret (Z.shiftr shifted 17).

Definition reconstruct (sign dqln y : Z) : adpcm Z :=
  dql ← chk I32 (dqln + Z.shiftr y 2);
  if dql <? 0 then mret (if negb (sign =? 0) then - 0x8000 else 0) else
  let dex := Z.land (Z.shiftr dql 7) 15 in
  dqt ← chk I32 (128 + Z.land dql 127);
  scaled ← shl dqt 7;
  room ← chk I32 (14 - dex);
  dq ← shr scaled (as_u32 (Z.max room 0));
  signed ← (if negb (sign =? 0) then chk I32 (dq - 0x8000) else mret dq);
  mret (as_i16 signed).

(** ** The state *)

Record G726State : Type := mkG726State {
  gs_yl : Z; gs_yu : Z; gs_dms : Z; gs_dml : Z; gs_ap : Z;
  gs_a0 : Z; gs_a1 : Z;
  gs_b : list Z;
  gs_pk0 : Z; gs_pk1 : Z;
  gs_dq : list Z;
  gs_sr0 : Z; gs_sr1 : Z;
  gs_td : bool
}.

Definition G726State_new : G726State :=
  mkG726State 34816 544 0 0 0 0 0 [0; 0; 0; 0; 0; 0] 0 0 [32; 32; 32; 32; 32; 32] 32 32 false.

(** The sum over [b.iter().zip(dq.iter())]. *)
Fixpoint zero_sum (b dq : list Z) (sezi : Z) : adpcm Z :=
  match b, dq with
  | coeff :: b, diff :: dq =>
      term ← fmult (Z.shiftr coeff 2) diff;
      sezi ← chk I32 (sezi + term);
      zero_sum b dq sezi
  | _, _ => mret sezi
  end.

Definition predictor_zero (s : G726State) : adpcm Z := sezi ← zero_sum (gs_b s) (gs_dq s) 0; mret (as_i16 sezi).

Definition predictor_pole (s : G726State) : adpcm Z :=
  second ← fmult (Z.shiftr (gs_a1 s) 2) (gs_sr1 s);
  first ← fmult (Z.shiftr (gs_a0 s) 2) (gs_sr0 s);
  sum ← chk I32 (second + first);
  mret (as_i16 sum).

Definition step_size (s : G726State) : adpcm Z :=
  if 256 <=? gs_ap s then mret (gs_yu s) else
  let y := Z.shiftr (gs_yl s) 6 in
  dif ← chk I32 (gs_yu s - y);
  let al := Z.shiftr (gs_ap s) 2 in
  if 0 <? dif then product ← chk I32 (dif * al); chk I32 (y + Z.shiftr product 6)
  else if dif <? 0 then
    product ← chk I32 (dif * al);
    rounded ← chk I32 (product + 0x3F);
    chk I32 (y + Z.shiftr rounded 6)
  else mret y.

(** *** The blocks of [update] *)

(** TRANS: three quarters of the threshold. *)
Definition transition_threshold (yl : Z) : adpcm Z :=
  let ylint := Z.shiftr yl 15 in
  let ylfrac := Z.land (Z.shiftr yl 10) 0x1F in
  thr ← (if 9 <? ylint then shl 31 10 else base ← chk I32 (32 + ylfrac); shl base (as_u32 (Z.max ylint 0)));
  sum ← chk I32 (thr + Z.shiftr thr 1);
  mret (Z.shiftr sum 1).

(** FUNCTW, FILTD, LIMB. *)
Definition unlocked_scale (y wi : Z) : adpcm Z :=
  difference ← chk I32 (wi - y);
  yu ← chk I32 (y + Z.shiftr difference 5);
  mret (Z.min (Z.max yu 544) 5120).

(** FILTE. *)
Definition locked_scale (yl yu : Z) : adpcm Z :=
  negated ← chk I32 (- yl);
  step ← chk I32 (yu + Z.shiftr negated 6);
  chk I32 (yl + step).

(** LIMC. *)
Definition limc (a2p : Z) (opposite : bool) : adpcm Z :=
  if opposite then
    if a2p <=? -12160 then mret (-12288) else if 12416 <=? a2p then mret 12288 else chk I32 (a2p - 0x80)
  else
    if a2p <=? -12416 then mret (-12288) else if 12160 <=? a2p then mret 12288 else chk I32 (a2p + 0x80).

(** UPA2. *)
Definition upa2 (s : G726State) (pk0 pks1 dqsez : Z) : adpcm Z :=
  a2p ← chk I32 (gs_a1 s - Z.shiftr (gs_a1 s) 7);
  if negb (dqsez =? 0) then
    fa1 ← (if negb (pks1 =? 0) then mret (gs_a0 s) else chk I32 (- gs_a0 s));
    a2p ← (if fa1 <? -8191 then chk I32 (a2p - 0x100)
           else if 8191 <? fa1 then chk I32 (a2p + 0xFF)
           else chk I32 (a2p + Z.shiftr fa1 5));
    limc a2p (negb (Z.lxor pk0 (gs_pk1 s) =? 0))
  else mret a2p.

(** UPA1, LIMD; [clamp] panics on crossed bounds. *)
Definition upa1 (s : G726State) (pks1 dqsez a2p : Z) : adpcm Z :=
  a1 ← chk I32 (gs_a0 s - Z.shiftr (gs_a0 s) 8);
  a1 ← (if negb (dqsez =? 0) then if pks1 =? 0 then chk I32 (a1 + 192) else chk I32 (a1 - 192) else mret a1);
  a1ul ← chk I32 (15360 - a2p);
  low ← chk I32 (- a1ul);
  if low <=? a1ul then mret (as_i16 (Z.min (Z.max a1 low) a1ul)) else Panic.

(** UPB. *)
Fixpoint upb (leak_shift mag dq : Z) (b history : list Z) : adpcm (list Z) :=
  match b, history with
  | bi :: b, past :: history =>
      next ← chk I32 (bi - Z.shiftr bi leak_shift);
      next ← (if negb (mag =? 0) then if 0 <=? Z.lxor dq past then chk I32 (next + 128) else chk I32 (next - 128) else mret next);
      rest ← upb leak_shift mag dq b history;
      mret (as_i16 next :: rest)
  | [], _ => mret []
  | _ :: _, [] => Panic
  end.

(** The float format of a positive magnitude. *)
Definition float_of (mag : Z) : adpcm Z :=
  exp ← chk I32 (top_bit (as_u32 mag) + 1);
  high ← shl exp 6;
  scaled ← shl mag 6;
  low ← shr scaled (as_u32 (Z.max exp 0));
  chk I32 (high + low).

(** [0xFC20u16 as i16]. *)
Definition NEGATIVE_ZERO : Z := as_i16 0xFC20.

(** FLOAT A. *)
Definition float_a (mag dq : Z) : adpcm Z :=
  if mag =? 0 then mret (if 0 <=? dq then 0x20 else NEGATIVE_ZERO) else
  val ← float_of mag;
  signed ← (if 0 <=? dq then mret val else chk I32 (val - 0x400));
  mret (as_i16 signed).

(** FLOAT B. *)
Definition float_b (sr : Z) : adpcm Z :=
  if sr =? 0 then mret 0x20
  else if 0 <? sr then val ← float_of sr; mret (as_i16 val)
  else if -32768 <? sr then
    mag ← chk I32 (- sr);
    val ← float_of mag;
    signed ← chk I32 (val - 0x400);
    mret (as_i16 signed)
  else mret NEGATIVE_ZERO.

(** FILTA, FILTB. *)
Definition short_average (dms fi : Z) : adpcm Z :=
  difference ← chk I32 (fi - dms);
  sum ← chk I32 (dms + Z.shiftr difference 5);
  mret (as_i16 sum).
Definition long_average (dml fi : Z) : adpcm Z :=
  scaled ← shl fi 2;
  difference ← chk I32 (scaled - dml);
  sum ← chk I32 (dml + Z.shiftr difference 7);
  mret (as_i16 sum).

(** SUBTC: the condition is evaluated from the left, and no further than needed. *)
Definition speed_control (ap : Z) (tr : bool) (y : Z) (td : bool) (dms dml : Z) : adpcm Z :=
  if tr then mret 256 else
  fast ← (if (y <? 1536) || td then mret true else
          scaled ← shl dms 2;
          difference ← chk I32 (scaled - dml);
          magnitude ← chk I32 (Z.abs difference);
          mret (Z.shiftr dml 3 <=? magnitude));
  if (fast : bool) then
    difference ← chk I32 (0x200 - ap);
    sum ← chk I32 (ap + Z.shiftr difference 4);
    mret (as_i16 sum)
  else
    negated ← chk I32 (- ap);
    sum ← chk I32 (ap + Z.shiftr negated 4);
    mret (as_i16 sum).

Definition update (s : G726State) (y wi fi dq sr dqsez bits_per_sample : Z) : adpcm G726State :=
  let pk0 := b2z (dqsez <? 0) in
  let mag := Z.land dq 0x7FFF in
  dqthr ← transition_threshold (gs_yl s);
  let tr := gs_td s && (dqthr <? mag) in
  yu ← unlocked_scale y wi;
  yl ← locked_scale (gs_yl s) yu;
  '(a2p, a0, a1, b) ←
    (if (tr : bool) then mret (0, 0, 0, [0; 0; 0; 0; 0; 0])
     else
       let pks1 := Z.lxor pk0 (gs_pk0 s) in
       a2p ← upa2 s pk0 pks1 dqsez;
       a0 ← upa1 s pks1 dqsez a2p;
       b ← upb (if bits_per_sample =? 5 then 9 else 8) mag dq (gs_b s) (gs_dq s);
       mret (a2p, a0, as_i16 a2p, b));
  dq0 ← float_a mag dq;
  sr0 ← float_b sr;
  let td := negb tr && (a2p <? -11776) in
  dms ← short_average (gs_dms s) fi;
  dml ← long_average (gs_dml s) fi;
  ap ← speed_control (gs_ap s) tr y td dms dml;
  mret (mkG726State yl (as_i16 yu) dms dml ap a0 a1 b pk0 (gs_pk0 s) (dq0 :: take 5 (gs_dq s)) sr0 (gs_sr0 s) td).

(** ** The codec *)

Record G726 : Type := mkG726 { g6_params : CodecParams; g6_rate : Rate; g6_state : G726State }.

Definition G726_new (rate : Rate) (ptime_ms : Z) : G726 := mkG726 (mkCodecParams 8000 1 (Z.max ptime_ms 1)) rate G726State_new.

Definition set_state (g : G726) (s : G726State) : G726 := mkG726 (g6_params g) (g6_rate g) s.

(** What both directions do with a code word: the reconstructed sample, and the
    state adapted to it. *)
Definition reconstructed (rate : Rate) (se dq : Z) : adpcm Z :=
  sum ← (if dq <? 0 then chk I32 (se - Z.land dq (reconstruct_mask rate)) else chk I32 (se + dq));
  mret (as_i16 sum).

Definition sign_sum (sr sezi se : Z) : adpcm Z :=
  sum ← chk I32 (sr + Z.shiftr sezi 1);
  difference ← chk I32 (sum - se);
  mret (as_i16 difference).

Definition adapt (g : G726) (y code dq sr dqsez : Z) : adpcm G726 :=
  wi ← idx (witab (g6_rate g)) code;
  fi ← idx (fitab (g6_rate g)) code;
  s ← update (g6_state g) y wi fi dq sr dqsez (codeword_bits (g6_rate g));
  mret (set_state g s).

Definition G726_encode_sample (g : G726) (sample : Z) : adpcm (Z * G726) :=
  let amp := Z.shiftr sample 2 in
  sezi ← predictor_zero (g6_state g);
  pole ← predictor_pole (g6_state g);
  sei ← chk I32 (sezi + pole);
  se ← signal_estimate_15bit (Z.shiftr sei 1);
  d ← chk I32 (amp - se);
  y ← step_size (g6_state g);
  code ← quantize d y (qtab (g6_rate g)) (quantizer_states (g6_rate g));
  dqln ← idx (dqlntab (g6_rate g)) code;
  dq ← reconstruct (Z.land code (sign_bit (g6_rate g))) dqln y;
  sr ← reconstructed (g6_rate g) se dq;
  dqsez ← sign_sum sr sezi se;
  g ← adapt g y code dq sr dqsez;
  mret (wrap 8 code, g).

Definition decode_core (g : G726) (code : Z) : adpcm (Z * Z * Z * G726) :=
  sezi ← predictor_zero (g6_state g);
  pole ← predictor_pole (g6_state g);
  sei ← chk I32 (sezi + pole);
  y ← step_size (g6_state g);
  dqln ← idx (dqlntab (g6_rate g)) code;
  dq ← reconstruct (Z.land code (sign_bit (g6_rate g))) dqln y;
  se ← signal_estimate_15bit (Z.shiftr sei 1);
  sr ← reconstructed (g6_rate g) se dq;
  dqsez ← sign_sum sr sezi se;
  g ← adapt g y code dq sr dqsez;
  mret (sr, se, y, g).

Definition decode_sample (g : G726) (code : Z) : adpcm (Z * G726) :=
  '(sr, _, _, g) ← decode_core g code;
  scaled ← shl sr 2;
  mret (as_i16 scaled, g).

(** ** RTP packing *)

(** [while acc_bits < bits]: at most one octet is needed, being longer than a code
    word. *)
Fixpoint refill (fuel : nat) (bits : Z) (payload : bytes) (acc acc_bits byte_index : Z) : adpcm (Z * Z * Z) :=
  if acc_bits <? bits then
    match fuel with
    | O => Panic
    | S fuel =>
        byte ← idx payload byte_index;
        shifted ← (if acc_bits <? 32 then mret (wrap 32 (Z.shiftl byte acc_bits)) else Panic);
        refill fuel bits payload (Z.lor acc shifted) (acc_bits + 8) (byte_index + 1)
    end
  else mret (acc, acc_bits, byte_index).

Fixpoint decode_loop (samples : nat) (payload : bytes) (g : G726) (acc acc_bits byte_index : Z) : adpcm (list Z * G726) :=
  match samples with
  | O => mret ([], g)
  | S samples =>
      let bits := codeword_bits (g6_rate g) in
      '(acc, acc_bits, byte_index) ← refill 1 bits payload acc acc_bits byte_index;
      let code := wrap 8 (Z.land acc (Z.shiftl 1 bits - 1)) in
      acc_bits ← usub acc_bits bits;
      '(sample, g) ← decode_sample g code;
      '(rest, g) ← decode_loop samples payload g (Z.shiftr acc bits) acc_bits byte_index;
      mret (sample :: rest, g)
  end.

Definition G726_decode (g : G726) (payload : bytes) (out : list Z) : adpcm (Z * list Z * G726) :=
  let bits := codeword_bits (g6_rate g) in
  let samples := len payload * 8 / bits in
  if len out <? samples then Err (OutputTooSmall samples (len out)) else
  '(decoded, g) ← decode_loop (Z.to_nat samples) payload g 0 0 0;
  mret (samples, fill_first out decoded, g).

Definition G726_conceal (g : G726) (out : list Z) : Z * list Z :=
  let count := Z.min (frame_samples (g6_params g)) (len out) in
  (count, fill_first out (replicate (Z.to_nat count) 0)).

(** [while acc_bits >= 8]: at most one octet is complete. *)
Fixpoint drain (fuel : nat) (acc acc_bits byte_index : Z) (out : bytes) : adpcm (Z * Z * Z * bytes) :=
  if 8 <=? acc_bits then
    match fuel with
    | O => Panic
    | S fuel =>
        out ← set_at out byte_index (wrap 8 (Z.land acc 0xFF));
        drain fuel (Z.shiftr acc 8) (acc_bits - 8) (byte_index + 1) out
    end
  else mret (acc, acc_bits, byte_index, out).

Fixpoint encode_loop (pcm : list Z) (g : G726) (acc acc_bits byte_index : Z) (out : bytes)
  : adpcm (Z * Z * Z * bytes * G726) :=
  match pcm with
  | [] => mret (acc, acc_bits, byte_index, out, g)
  | sample :: pcm =>
      '(code, g) ← G726_encode_sample g sample;
      shifted ← (if acc_bits <? 32 then mret (wrap 32 (Z.shiftl code acc_bits)) else Panic);
      '(acc, acc_bits, byte_index, out) ← drain 1 (Z.lor acc shifted) (acc_bits + codeword_bits (g6_rate g)) byte_index out;
      encode_loop pcm g acc acc_bits byte_index out
  end.

Definition G726_encode (g : G726) (pcm : list Z) (out : bytes) : adpcm (Z * bytes * G726) :=
  let bits := codeword_bits (g6_rate g) in
  let needed := div_ceil (len pcm * bits) 8 in
  if len out <? needed then Err (OutputTooSmall needed (len out)) else
  '(acc, acc_bits, byte_index, out, g) ← encode_loop pcm g 0 0 0 out;
  if 0 <? acc_bits then
    out ← set_at out byte_index (wrap 8 (Z.land acc 0xFF));
    mret (byte_index + 1, out, g)
  else mret (byte_index, out, g).

(** * Proofs *)

(** A computation that returns a value with a property. *)
Definition returns {A} (m : adpcm A) (P : A -> Prop) : Prop := exists x, m = Ok x /\ P x.

Lemma returns_ret {A} (x : A) (P : A -> Prop) : P x -> returns (mret x) P.
Proof. intros H. by exists x. Qed.

Lemma returns_bind {A B} (m : adpcm A) (f : A -> adpcm B) (P : A -> Prop) (Q : B -> Prop) :
  returns m P -> (forall x, P x -> returns (f x) Q) -> returns (x ← m; f x) Q.
Proof. intros (x & -> & Hx) Hf. rewrite bind_Ok. by apply Hf. Qed.

Lemma returns_weaken {A} (m : adpcm A) (P Q : A -> Prop) : returns m P -> (forall x, P x -> Q x) -> returns m Q.
Proof. intros (x & -> & Hx) H. exists x. auto. Qed.

Lemma returns_chk x : - I32 <= x < I32 -> returns (chk I32 x) (fun y => y = x).
Proof. intros H. exists x. by rewrite chk_Ok. Qed.

Lemma to_signed_32 x : - I32 <= x < I32 -> to_signed 32 (wrap 32 x) = x.
Proof.
  unfold I32, to_signed, wrap. intros H. change (2 ^ 32) with 4294967296. change (2 ^ (32 - 1)) with 2147483648.
  destruct (Z.ltb_spec (x mod 4294967296) 2147483648); Z.to_euclidean_division_equations; lia.
Qed.

Lemma to_signed_32_range x : - I32 <= to_signed 32 (wrap 32 x) < I32.
Proof.
  unfold I32, to_signed, wrap. change (2 ^ 32) with 4294967296. change (2 ^ (32 - 1)) with 2147483648.
  pose proof (Z.mod_pos_bound x 4294967296 ltac:(done)). destruct (Z.ltb_spec (x mod 4294967296) 2147483648); lia.
Qed.

Lemma returns_shl x n : 0 <= n < 32 -> returns (shl x n) (fun y => - I32 <= y < I32 /\ (- I32 <= x * 2 ^ n < I32 -> y = x * 2 ^ n)).
Proof.
  intros Hn. exists (to_signed 32 (wrap 32 (Z.shiftl x n))). unfold shl.
  rewrite (proj2 (Z.leb_le 0 n)), (proj2 (Z.ltb_lt n 32)) by lia. split; [done|]. split; [apply to_signed_32_range|].
  rewrite Z.shiftl_mul_pow2 by lia. apply to_signed_32.
Qed.

Lemma returns_shr x n : 0 <= n < 32 -> returns (shr x n) (fun y => y = x / 2 ^ n).
Proof.
  intros Hn. exists (Z.shiftr x n). unfold shr. rewrite (proj2 (Z.leb_le 0 n)), (proj2 (Z.ltb_lt n 32)) by lia.
  split; [done|]. by rewrite Z.shiftr_div_pow2 by lia.
Qed.

Lemma returns_idx (l : list Z) i : 0 <= i < len l -> returns (idx l i) (fun y => y = byte_of l i).
Proof. intros H. exists (byte_of l i). split; [by apply idx_byte_of|done]. Qed.

Lemma land_range x m : 0 <= m -> 0 <= Z.land x m <= m.
Proof.
  intros Hm. assert (0 <= Z.land x m) as H0 by (apply Z.land_nonneg; lia). split; [done|].
  apply Z.ldiff_le; [done|]. apply Z.bits_inj'. intros i Hi. rewrite Z.ldiff_spec, Z.land_spec, Z.bits_0.
  by destruct (Z.testbit x i), (Z.testbit m i).
Qed.

Lemma top_bit_range x n : 0 <= n -> 0 <= x < 2 ^ n -> -1 <= top_bit x < Z.max n 1.
Proof.
  intros Hn Hx. unfold top_bit. destruct (Z.eqb_spec x 0); [lia|]. pose proof (Z.log2_nonneg x). assert (Z.log2 x < n) by (apply Z.log2_lt_pow2; lia). lia.
Qed.

Lemma as_u32_id x : 0 <= x < 2 ^ 32 -> as_u32 x = x.
Proof. intros H. unfold as_u32, wrap. by rewrite Z.mod_small. Qed.

Lemma as_i16_range x : is_i16 (as_i16 x).
Proof. unfold as_i16. apply to_signed_i16. unfold wrap. apply Z.mod_pos_bound. lia. Qed.

Lemma as_i16_id x : is_i16 x -> as_i16 x = x.
Proof. apply to_signed_wrap. Qed.

Lemma div_pow_range x n : 0 <= n -> 0 <= x -> 0 <= x / 2 ^ n <= x.
Proof. intros Hn Hx. assert (0 < 2 ^ n) by (apply Z.pow_pos_nonneg; lia). split; [apply Z.div_pos; lia|]. apply Z.div_le_upper_bound; nia. Qed.

(** Run one checked operation whose operands are in range. *)
Ltac ops := unfold I32 in *; rewrite ?Z.shiftr_div_pow2 in * by lia; change (2 ^ 2) with 4 in *; change (2 ^ 4) with 16 in *;
  change (2 ^ 5) with 32 in *; change (2 ^ 6) with 64 in *; change (2 ^ 7) with 128 in *; change (2 ^ 8) with 256 in *;
  change (2 ^ 9) with 512 in *; change (2 ^ 3) with 8 in *; change (2 ^ 1) with 2 in *; change (2 ^ 10) with 1024 in *; change (2 ^ 15) with 32768 in *.
Ltac range := ops; first [lia | Z.to_euclidean_division_equations; lia].
Ltac checked := eapply returns_bind; [apply returns_chk; range|intros ? ->].

Lemma fmult_ok an srn : -8192 <= an <= 8191 -> returns (fmult an srn) is_i16.
Proof.
  intros Ha. unfold fmult.
  eapply (returns_bind _ _ (fun anmag => 0 <= anmag <= 8191)).
  { destruct (Z.ltb_spec 0 an); [apply returns_ret; lia|]. checked. apply returns_ret. pose proof (land_range (- an) 0x1FFF ltac:(done)). lia. }
  intros anmag Hm. rewrite (as_u32_id anmag) by lia. pose proof (top_bit_range anmag 13 ltac:(done) ltac:(lia)) as Ht. checked.
  set (anexp := top_bit anmag - 5) in *. assert (-6 <= anexp <= 7) as Hexp by lia. clearbody anexp.
  eapply (returns_bind _ _ (fun anmant => 0 <= anmant <= 600000)).
  { destruct (anmag =? 0); [apply returns_ret; lia|]. destruct (Z.leb_spec 0 anexp).
    - rewrite as_u32_id by lia. eapply returns_weaken; [apply returns_shr; lia|]. intros x ->. pose proof (div_pow_range anmag anexp ltac:(lia) ltac:(lia)). lia.
    - checked. rewrite as_u32_id by lia. eapply returns_weaken; [apply returns_shl; lia|]. intros x [_ Hx].
      assert (2 ^ (- anexp) <= 2 ^ 6) as Hp by (apply Z.pow_le_mono_r; lia). change (2 ^ 6) with 64 in Hp. assert (0 < 2 ^ (- anexp)) by (apply Z.pow_pos_nonneg; lia).
      rewrite Hx; unfold I32; nia. }
  intros anmant Hmant. pose proof (land_range (Z.shiftr srn 6) 0xF ltac:(done)) as He. pose proof (land_range srn 0x3F ltac:(done)) as Hs.
  checked. checked. eapply returns_bind; [apply returns_chk; unfold I32; nia|intros ? ->]. eapply returns_bind; [apply returns_chk; unfold I32; nia|intros ? ->].
  cbv zeta. set (wanexp := anexp + _ - 13) in *. assert (-19 <= wanexp <= 9) as Hwe by lia. clearbody wanexp. set (wanmant := Z.shiftr _ 4).
  assert (0 <= wanmant <= 3000000) as Hw by (unfold wanmant; rewrite Z.shiftr_div_pow2 by lia; change (2 ^ 4) with 16; split; [apply Z.div_pos; nia|apply Z.div_le_upper_bound; nia]).
  eapply (returns_bind _ _ (fun retval => 0 <= retval <= 3000000)).
  { destruct (Z.leb_spec 0 wanexp).
    - rewrite as_u32_id by lia. eapply returns_bind; [apply returns_shl; lia|]. intros x _. apply returns_ret. pose proof (land_range x 0x7FFF ltac:(done)). lia.
    - checked. rewrite as_u32_id by lia. eapply returns_weaken; [apply returns_shr; lia|]. intros x ->. pose proof (div_pow_range wanmant (- wanexp) ltac:(lia) ltac:(lia)). lia. }
  intros retval Hr. eapply (returns_bind _ _ (fun _ => True)).
  { destruct (_ <? 0); [|by apply returns_ret]. eapply returns_weaken; [apply returns_chk; range|done]. }
  intros signed _. apply returns_ret, as_i16_range.
Qed.

(** ** The state's ranges *)

(** ITU-T G.726's widths: the scale factors between their limits, the averages
    and the speed control in their ranges, the pole coefficients inside the
    stability region, everything else a 16-bit word. *)
Record state_ok (s : G726State) : Prop := {
  ok_yl : 34816 <= gs_yl s <= 327680;
  ok_yu : 544 <= gs_yu s <= 5120;
  ok_dms : 0 <= gs_dms s <= 0xE00;
  ok_dml : 0 <= gs_dml s <= 0x3800;
  ok_ap : 0 <= gs_ap s <= 0x200;
  ok_a1 : -12288 <= gs_a1 s <= 12288;
  ok_a0 : Z.abs (gs_a0 s) <= 15360 - gs_a1 s;
  ok_b : len (gs_b s) = 6 /\ pcm_ok (gs_b s);
  ok_pk0 : 0 <= gs_pk0 s <= 1;
  ok_pk1 : 0 <= gs_pk1 s <= 1;
  ok_dq : len (gs_dq s) = 6 /\ pcm_ok (gs_dq s);
  ok_sr0 : is_i16 (gs_sr0 s);
  ok_sr1 : is_i16 (gs_sr1 s)
}.

Lemma new_state_ok : state_ok G726State_new.
Proof. split; cbn; try lia; (try split); try done; unfold pcm_ok, is_i16; forall_list; lia. Qed.

Lemma zero_sum_ok b : forall dq sezi, pcm_ok b -> Z.abs sezi <= 32768 * (6 - len b) -> len b <= 6 -> returns (zero_sum b dq sezi) (fun _ => True).
Proof.
  induction b as [|c b IH]; intros [|d dq] sezi Hb Hs Hl; try by apply returns_ret. apply Forall_cons_1 in Hb as [Hc Hb]. unfold is_i16 in Hc.
  rewrite len_cons in *. pose proof (len_nonneg b). cbn [zero_sum]. eapply returns_bind; [apply fmult_ok; range|]. intros term Ht. unfold is_i16 in Ht.
  checked. apply IH; [done|lia|lia].
Qed.

Lemma predictor_zero_ok s : state_ok s -> returns (predictor_zero s) is_i16.
Proof.
  intros [? ? ? ? ? ? ? [Hl Hb] ? ? ? ? ?]. unfold predictor_zero. eapply returns_bind; [apply zero_sum_ok; [done|lia|lia]|].
  intros ? _. apply returns_ret, as_i16_range.
Qed.

Lemma predictor_pole_ok s : state_ok s -> returns (predictor_pole s) is_i16.
Proof.
  intros [? ? ? ? ? Ha1 Ha0 ? ? ? ? ? ?]. unfold predictor_pole. eapply returns_bind; [apply fmult_ok; range|]. intros x Hx.
  eapply returns_bind; [apply fmult_ok; range|]. intros y Hy. unfold is_i16 in *. checked. apply returns_ret, as_i16_range.
Qed.

Lemma step_size_ok s : state_ok s -> returns (step_size s) (fun y => 544 <= y <= 5120).
Proof.
  intros [Hyl Hyu ? ? Hap ? ? ? ? ? ? ? ?]. unfold step_size. destruct (Z.leb_spec 256 (gs_ap s)); [apply returns_ret; lia|].
  cbv zeta. assert (544 <= Z.shiftr (gs_yl s) 6 <= 5120) as Hy by range. set (y := Z.shiftr (gs_yl s) 6) in *. clearbody y.
  assert (0 <= Z.shiftr (gs_ap s) 2 <= 63) as Hal by range. set (al := Z.shiftr (gs_ap s) 2) in *. clearbody al. checked.
  set (dif := gs_yu s - y) in *. destruct (Z.ltb_spec 0 dif).
  - eapply returns_bind; [apply returns_chk; unfold I32; nia|intros ? ->]. assert (0 <= Z.shiftr (dif * al) 6 <= dif) as Hp.
    { rewrite Z.shiftr_div_pow2 by lia. change (2 ^ 6) with 64. split; [apply Z.div_pos; nia|apply Z.div_le_upper_bound; nia]. }
    eapply returns_weaken; [apply returns_chk; range|]. intros ? ->. lia.
  - destruct (Z.ltb_spec dif 0); [|apply returns_ret; lia].
    eapply returns_bind; [apply returns_chk; unfold I32; nia|intros ? ->]. eapply returns_bind; [apply returns_chk; unfold I32; nia|intros ? ->].
    assert (dif <= Z.shiftr (dif * al + 63) 6 <= 0) as Hp.
    { rewrite Z.shiftr_div_pow2 by lia. change (2 ^ 6) with 64. split; [apply Z.div_le_lower_bound; nia|]. assert ((dif * al + 63) / 64 < 1); [|lia]. apply Z.div_lt_upper_bound; nia. }
    eapply returns_weaken; [apply returns_chk; range|]. intros ? ->. lia.
Qed.

(** ** The quantizer *)

(** The magnitude a code word stands for. *)
Definition level (r : Rate) (code : Z) : Z := if code <? sign_bit r then code else 2 ^ codeword_bits r - 1 - code.

(** [x] lies in cell [i] of the decision levels. *)
Definition in_cell (r : Rate) (i x : Z) : Prop :=
  (i = 0 \/ byte_of (qtab r) (i - 1) <= x) /\ (i = len (qtab r) \/ x < byte_of (qtab r) i).

Definition in_cellb (r : Rate) (i x : Z) : bool :=
  ((i =? 0) || (byte_of (qtab r) (i - 1) <=? x)) && ((i =? len (qtab r)) || (x <? byte_of (qtab r) i)).

Lemma in_cellb_spec r i x : in_cellb r i x = true -> in_cell r i x.
Proof.
  unfold in_cellb, in_cell. intros [H1 H2]%andb_true_iff. apply orb_true_iff in H1, H2. rewrite Z.eqb_eq, Z.leb_le in H1. rewrite Z.eqb_eq, Z.ltb_lt in H2. done.
Qed.

Lemma search_level_ok table dln turns : forall i, 0 <= i -> i + Z.of_nat turns = len table ->
  (i = 0 \/ byte_of table (i - 1) <= dln) ->
  returns (search_level turns table dln i) (fun j => i <= j <= len table /\ (j = 0 \/ byte_of table (j - 1) <= dln) /\ (j = len table \/ dln < byte_of table j)).
Proof.
  induction turns as [|turns IH]; intros i Hi Hl Hb; cbn [search_level]; [apply returns_ret; split_and!; [lia|lia|done|left; lia]|].
  eapply returns_bind; [apply returns_idx; lia|intros ? ->]. destruct (Z.ltb_spec dln (byte_of table i)); [apply returns_ret; split_and!; try done; try lia; by right|].
  eapply returns_weaken; [apply (IH (i + 1)); [lia|lia|right; by replace (i + 1 - 1) with i by lia]|]. intros j (? & ? & ?). split_and!; try done; lia.
Qed.

Lemma log_difference_ok d y : Z.abs d <= 24576 -> 544 <= y <= 5120 -> returns (log_difference d y) (fun _ => True).
Proof.
  intros Hd Hy. unfold log_difference, wrapping_abs. rewrite to_signed_32 by range. rewrite as_i16_id by (unfold is_i16; lia). cbv zeta.
  set (dqm := Z.abs d) in *. assert (0 <= dqm <= 24576) as Hm by (unfold dqm; lia). clearbody dqm.
  assert (0 <= Z.shiftr dqm 1 < 2 ^ 14) as Hs by (rewrite Z.shiftr_div_pow2 by lia; change (2 ^ 1) with 2; change (2 ^ 14) with 16384; Z.to_euclidean_division_equations; lia).
  rewrite (as_u32_id (Z.shiftr dqm 1)) by lia. pose proof (top_bit_range _ 14 ltac:(done) Hs) as Ht. set (exp := top_bit _) in *. checked.
  eapply returns_bind; [apply returns_shl; lia|]. intros scaled [_ Hsc]. rewrite Hsc by (unfold I32; lia). clear Hsc.
  rewrite (as_u32_id (Z.max (exp + 1) 0)) by lia. eapply returns_bind; [apply returns_shr; lia|]. intros ? ->. cbv zeta.
  pose proof (land_range (dqm * 2 ^ 7 / 2 ^ Z.max (exp + 1) 0) 0x7F ltac:(done)) as Hl. set (mant := Z.land _ 0x7F) in *. clearbody mant.
  eapply returns_bind; [apply returns_shl; lia|]. intros high [_ Hh]. change (2 ^ 7) with 128 in Hh. rewrite Hh by (unfold I32; lia). checked.
  eapply returns_weaken; [apply returns_chk; range|done].
Qed.

Lemma shl_1 x : 0 <= x < 1000 -> shl x 1 = Ok (2 * x).
Proof. intros H. destruct (returns_shl x 1 ltac:(done)) as (z & -> & _ & Hz). rewrite Hz by (unfold I32; lia). f_equal. lia. Qed.

(** The code word is the cell of the difference. *)
Lemma quantize_ok r d y : Z.abs d <= 24576 -> 544 <= y <= 5120 ->
  returns (quantize d y (qtab r) (quantizer_states r))
    (fun code => 0 <= code < 2 ^ codeword_bits r /\ exists dln, log_difference d y = Ok dln /\ in_cell r (level r code) dln).
Proof.
  intros Hd Hy. unfold quantize. destruct (log_difference_ok d y Hd Hy) as (dln & -> & _). rewrite bind_Ok.
  destruct (search_level_ok (qtab r) dln (Z.to_nat (Z.shiftr (quantizer_states r - 1) 1)) 0) as (i & Hs & Hi & H1 & H2); [done|by destruct r|by left|].
  destruct (returns_chk (quantizer_states r - 1)) as (n & -> & ->); [by destruct r|]. rewrite bind_Ok. cbv zeta. rewrite Hs, bind_Ok.
  assert (0 <= Z.shiftr (quantizer_states r - 1) 1 < 1000 /\ len (qtab r) = Z.shiftr (quantizer_states r - 1) 1 /\
          sign_bit r = len (qtab r) + 1 /\ 2 ^ codeword_bits r = 2 * len (qtab r) + 2 /\ len (qtab r) <= 15) as (Hb & Hlen & Hsign & Hbits & H15) by (destruct r; repeat split; done).
  assert (forall code, 0 <= code < 2 ^ codeword_bits r -> level r code = i ->
    returns (mret code) (fun code => 0 <= code < 2 ^ codeword_bits r /\ exists dln0, Ok dln = Ok (E:=CodecError) dln0 /\ in_cell r (level r code) dln0)) as Hfin.
  { intros code Hc Hlv. apply returns_ret. split; [done|]. exists dln. split; [done|]. rewrite Hlv. by split. }
  destruct (d <? 0).
  - rewrite shl_1, bind_Ok by done. rewrite <- Hlen. eapply returns_bind; [apply returns_chk; unfold I32; lia|intros ? ->].
    eapply returns_bind; [apply returns_chk; unfold I32; lia|intros ? ->]. rewrite as_i16_id by (unfold is_i16; lia). apply Hfin; [lia|].
    unfold level. destruct (Z.ltb_spec (2 * len (qtab r) + 1 - i) (sign_bit r)); lia.
  - destruct (_ && _) eqn:E.
    + apply andb_true_iff in E as [E1 E2]. apply Z.eqb_eq in E1 as ->. assert (quantizer_states r = 2 ^ codeword_bits r - 1) as -> by (by destruct r).
      rewrite as_i16_id by (unfold is_i16; lia). apply Hfin; [lia|]. unfold level. destruct (Z.ltb_spec (2 ^ codeword_bits r - 1) (sign_bit r)); lia.
    + rewrite as_i16_id by (unfold is_i16; lia). apply Hfin; [lia|]. unfold level. destruct (Z.ltb_spec i (sign_bit r)); lia.
Qed.

(** Every code word is decoded to a level of its own cell. *)
Lemma level_in_cell r code : 0 <= code < 2 ^ codeword_bits r -> in_cell r (level r code) (byte_of (dqlntab r) code).
Proof.
  intros Hc. apply in_cellb_spec.
  assert (all_from (Z.to_nat (2 ^ codeword_bits r)) 0 (fun code => in_cellb r (level r code) (byte_of (dqlntab r) code)) = true) as H by (destruct r; vm_compute; reflexivity).
  exact (below_forall _ _ code H Hc).
Qed.

Lemma signal_estimate_ok value : is_i16 value -> returns (signal_estimate_15bit value) (fun se => -16384 <= se <= 16383).
Proof.
  intros Hv. unfold signal_estimate_15bit. eapply returns_bind; [apply returns_shl; lia|]. intros x [Hx _]. apply returns_ret.
  rewrite Z.shiftr_div_pow2 by lia. change (2 ^ 17) with 131072. unfold I32 in Hx. Z.to_euclidean_division_equations; lia.
Qed.

Lemma reconstruct_ok sign dqln y : -2048 <= dqln <= 566 -> 544 <= y <= 5120 -> returns (reconstruct sign dqln y) is_i16.
Proof.
  intros Hd Hy. unfold reconstruct. assert (136 <= Z.shiftr y 2 <= 1280) as Hy2 by range. set (y4 := Z.shiftr y 2) in *. clearbody y4. checked.
  set (dql := dqln + y4) in *. destruct (Z.ltb_spec dql 0); [apply returns_ret; destruct (negb _); unfold is_i16; lia|]. cbv zeta.
  pose proof (land_range (Z.shiftr dql 7) 15 ltac:(done)) as Hx. pose proof (land_range dql 127 ltac:(done)) as Hl. checked.
  eapply returns_bind; [apply returns_shl; lia|]. intros scaled [_ Hs]. change (2 ^ 7) with 128 in Hs. rewrite Hs by (unfold I32; lia). checked.
  rewrite as_u32_id by lia. eapply returns_bind; [apply returns_shr; lia|]. intros ? ->.
  match goal with |- context [?x / 2 ^ ?n] => pose proof (div_pow_range x n ltac:(lia) ltac:(lia)) end.
  set (dq := _ / _) in *. eapply (returns_bind _ _ (fun _ => True)).
  { destruct (negb _); [|by apply returns_ret]. eapply returns_weaken; [apply returns_chk; unfold I32; lia|done]. }
  intros ? _. apply returns_ret, as_i16_range.
Qed.

(** ** The adaptation *)

Lemma threshold_ok yl : 34816 <= yl <= 327680 -> returns (transition_threshold yl) (fun _ => True).
Proof.
  intros Hy. unfold transition_threshold. cbv zeta. assert (1 <= Z.shiftr yl 15 <= 10) as Hi by range. set (ylint := Z.shiftr yl 15) in *. clearbody ylint.
  pose proof (land_range (Z.shiftr yl 10) 0x1F ltac:(done)) as Hf. set (ylfrac := Z.land _ 0x1F) in *. clearbody ylfrac.
  eapply (returns_bind _ _ (fun thr => 0 <= thr <= 32256)).
  { destruct (Z.ltb_spec 9 ylint).
    - eapply returns_weaken; [apply returns_shl; lia|]. intros x [_ Hx]. change (2 ^ 10) with 1024 in Hx. rewrite Hx; unfold I32; lia.
    - checked. rewrite as_u32_id by lia. eapply returns_weaken; [apply returns_shl; lia|]. intros x [_ Hx].
      assert (2 ^ Z.max ylint 0 <= 2 ^ 9) as Hp by (apply Z.pow_le_mono_r; lia). change (2 ^ 9) with 512 in Hp. assert (0 < 2 ^ Z.max ylint 0) by (apply Z.pow_pos_nonneg; lia).
      rewrite Hx; unfold I32; nia. }
  intros thr Ht. checked. by apply returns_ret.
Qed.

Lemma unlocked_ok y wi : 544 <= y <= 5120 -> -704 <= wi <= 35904 -> returns (unlocked_scale y wi) (fun yu => 544 <= yu <= 5120).
Proof. intros Hy Hw. unfold unlocked_scale. checked. checked. apply returns_ret. lia. Qed.

Lemma locked_ok yl yu : 34816 <= yl <= 327680 -> 544 <= yu <= 5120 -> returns (locked_scale yl yu) (fun yl => 34816 <= yl <= 327680).
Proof. intros Hl Hu. unfold locked_scale. checked. checked. eapply returns_weaken; [apply returns_chk; range|]. intros ? ->. range. Qed.

Lemma limc_ok a2p opposite : Z.abs a2p <= 13000 -> returns (limc a2p opposite) (fun a2p => -12288 <= a2p <= 12288).
Proof.
  intros Ha. unfold limc.
  destruct opposite; [destruct (Z.leb_spec a2p (-12160)), (Z.leb_spec 12416 a2p)|destruct (Z.leb_spec a2p (-12416)), (Z.leb_spec 12160 a2p)]; try (apply returns_ret; lia);
    (eapply returns_weaken; [apply returns_chk; range|]; intros ? ->; lia).
Qed.

Lemma upa2_ok s pk0 pks1 dqsez : state_ok s -> returns (upa2 s pk0 pks1 dqsez) (fun a2p => -12288 <= a2p <= 12288).
Proof.
  intros [? ? ? ? ? Ha1 Ha0 ? ? ? ? ? ?]. unfold upa2. checked. assert (Z.abs (gs_a1 s - Z.shiftr (gs_a1 s) 7) <= 12288) as Hl by range.
  set (a2p := gs_a1 s - _) in *. clearbody a2p. destruct (negb (dqsez =? 0)); [|apply returns_ret; lia].
  eapply (returns_bind _ _ (fun fa1 => Z.abs fa1 <= 27648)).
  { destruct (negb _); [apply returns_ret; lia|]. eapply returns_weaken; [apply returns_chk; range|]. intros ? ->. lia. }
  intros fa1 Hf. eapply (returns_bind _ _ (fun a2p => Z.abs a2p <= 13000)); [|intros; by apply limc_ok].
  destruct (Z.ltb_spec fa1 (-8191)), (Z.ltb_spec 8191 fa1); try lia; (eapply returns_weaken; [apply returns_chk; range|]; intros ? ->; range).
Qed.

Lemma upa1_ok s pks1 dqsez a2p : state_ok s -> -12288 <= a2p <= 12288 -> returns (upa1 s pks1 dqsez a2p) (fun a0 => Z.abs a0 <= 15360 - a2p).
Proof.
  intros [? ? ? ? ? Ha1 Ha0 ? ? ? ? ? ?] H2. unfold upa1. checked. eapply (returns_bind _ _ (fun _ => True)).
  { destruct (negb _); [|by apply returns_ret]. destruct (pks1 =? 0); (eapply returns_weaken; [apply returns_chk; range|done]). }
  intros a1 _. checked. checked. rewrite (proj2 (Z.leb_le _ _)) by lia. apply returns_ret. rewrite as_i16_id by (unfold is_i16; lia). lia.
Qed.

Lemma upb_ok leak mag dq b : 0 <= leak -> forall history, pcm_ok b -> len b <= len history ->
  returns (upb leak mag dq b history) (fun b' => len b' = len b /\ pcm_ok b').
Proof.
  intros Hk. induction b as [|bi b IH]; intros [|past history] Hb Hl; try (by apply returns_ret); [rewrite len_cons in Hl; change (len (@nil Z)) with 0 in Hl; pose proof (len_nonneg b); lia|].
  apply Forall_cons_1 in Hb as [Hbi Hb]. rewrite !len_cons in Hl. unfold is_i16 in Hbi. cbn [upb].
  assert (-32768 <= Z.shiftr bi leak <= 32767) as Hs.
  { rewrite Z.shiftr_div_pow2 by lia. assert (0 < 2 ^ leak) by (apply Z.pow_pos_nonneg; lia). split; [apply Z.div_le_lower_bound; nia|].
    destruct (Z.le_gt_cases 0 bi); [assert (bi / 2 ^ leak <= bi) by (apply Z.div_le_upper_bound; nia); lia|]. assert (bi / 2 ^ leak < 0); [apply Z.div_lt_upper_bound; lia|lia]. }
  checked. eapply (returns_bind _ _ (fun _ => True)).
  { destruct (negb _); [|by apply returns_ret]. destruct (0 <=? _); (eapply returns_weaken; [apply returns_chk; range|done]). }
  intros next _. eapply returns_bind; [apply IH; [done|lia]|]. intros rest [Hr1 Hr2]. apply returns_ret. rewrite !len_cons. split; [lia|].
  constructor; [apply as_i16_range|done].
Qed.

Lemma float_of_ok mag : 0 <= mag <= 32768 -> returns (float_of mag) (fun val => 0 <= val <= 3000000).
Proof.
  intros Hm. unfold float_of. rewrite (as_u32_id mag) by lia. pose proof (top_bit_range mag 16 ltac:(done) ltac:(lia)) as Ht. checked.
  eapply returns_bind; [apply returns_shl; lia|]. intros high [_ Hh]. change (2 ^ 6) with 64 in Hh. rewrite Hh by (unfold I32; lia). clear Hh.
  eapply returns_bind; [apply returns_shl; lia|]. intros scaled [_ Hs]. change (2 ^ 6) with 64 in Hs. rewrite Hs by (unfold I32; lia). clear Hs.
  rewrite as_u32_id by lia. eapply returns_bind; [apply returns_shr; lia|]. intros ? ->.
  pose proof (div_pow_range (mag * 64) (Z.max (top_bit mag + 1) 0) ltac:(lia) ltac:(lia)). eapply returns_weaken; [apply returns_chk; unfold I32; lia|]. intros ? ->. lia.
Qed.

Lemma float_a_ok mag dq : 0 <= mag <= 32767 -> returns (float_a mag dq) is_i16.
Proof.
  intros Hm. unfold float_a. destruct (mag =? 0); [apply returns_ret; destruct (0 <=? dq); [unfold is_i16; lia|apply as_i16_range]|].
  eapply returns_bind; [apply float_of_ok; lia|]. intros val Hv. eapply (returns_bind _ _ (fun _ => True)).
  { destruct (0 <=? dq); [by apply returns_ret|]. eapply returns_weaken; [apply returns_chk; range|done]. }
  intros ? _. apply returns_ret, as_i16_range.
Qed.

Lemma float_b_ok sr : is_i16 sr -> returns (float_b sr) is_i16.
Proof.
  unfold is_i16 at 1. intros Hs. unfold float_b. destruct (Z.eqb_spec sr 0); [apply returns_ret; unfold is_i16; lia|]. destruct (Z.ltb_spec 0 sr).
  - eapply returns_bind; [apply float_of_ok; lia|]. intros val _. apply returns_ret, as_i16_range.
  - destruct (Z.ltb_spec (-32768) sr); [|apply returns_ret, as_i16_range]. checked. eapply returns_bind; [apply float_of_ok; lia|]. intros val Hv. checked. apply returns_ret, as_i16_range.
Qed.

Lemma short_ok dms fi : 0 <= dms <= 0xE00 -> 0 <= fi <= 0xE00 -> returns (short_average dms fi) (fun dms => 0 <= dms <= 0xE00).
Proof. intros Hd Hf. unfold short_average. checked. checked. apply returns_ret. rewrite as_i16_id by (unfold is_i16; range). range. Qed.

Lemma long_ok dml fi : 0 <= dml <= 0x3800 -> 0 <= fi <= 0xE00 -> returns (long_average dml fi) (fun dml => 0 <= dml <= 0x3800).
Proof.
  intros Hd Hf. unfold long_average. eapply returns_bind; [apply returns_shl; lia|]. intros x [_ Hx]. change (2 ^ 2) with 4 in Hx. rewrite Hx by (unfold I32; lia).
  checked. checked. apply returns_ret. rewrite as_i16_id by (unfold is_i16; range). range.
Qed.

Lemma speed_ok ap tr y td dms dml : 0 <= ap <= 0x200 -> 0 <= dms <= 0xE00 -> 0 <= dml <= 0x3800 ->
  returns (speed_control ap tr y td dms dml) (fun ap => 0 <= ap <= 0x200).
Proof.
  intros Ha Hs Hl. unfold speed_control. destruct tr; [apply returns_ret; lia|]. eapply (returns_bind _ _ (fun _ => True)).
  { destruct (_ || _); [by apply returns_ret|]. eapply returns_bind; [apply returns_shl; lia|]. intros x [_ Hx]. change (2 ^ 2) with 4 in Hx. rewrite Hx by (unfold I32; lia).
    checked. checked. by apply returns_ret. }
  intros [] _; checked; checked; apply returns_ret; rewrite as_i16_id by (unfold is_i16; range); range.
Qed.

Lemma update_ok s y wi fi dq sr dqsez bits : state_ok s -> 544 <= y <= 5120 -> -704 <= wi <= 35904 -> 0 <= fi <= 0xE00 -> is_i16 sr ->
  returns (update s y wi fi dq sr dqsez bits) state_ok.
Proof.
  intros Hok Hy Hw Hf Hsr. pose proof Hok as [Hyl Hyu Hdms Hdml Hap Ha1 Ha0 [Hbl Hb] Hp0 Hp1 [Hql Hq] Hs0 Hs1]. unfold update. cbv zeta.
  pose proof (land_range dq 0x7FFF ltac:(done)) as Hm. set (mag := Z.land dq 0x7FFF) in *. clearbody mag.
  eapply returns_bind; [by apply threshold_ok|]. intros thr _. set (tr := gs_td s && _). clearbody tr.
  eapply returns_bind; [by apply unlocked_ok|]. intros yu Hyu'. eapply returns_bind; [by apply locked_ok|]. intros yl Hyl'.
  eapply (returns_bind _ _ (fun '(a2p, a0, a1, b) => -12288 <= a2p <= 12288 /\ a1 = a2p /\ Z.abs a0 <= 15360 - a1 /\ len b = 6 /\ pcm_ok b)).
  { destruct tr; [apply returns_ret; split_and!; try done; try lia; unfold pcm_ok, is_i16; forall_list; lia|].
    eapply returns_bind; [by apply upa2_ok|]. intros a2p H2. eapply returns_bind; [by apply upa1_ok|]. intros a0 H0. cbv beta in H0, H2.
    eapply returns_bind; [apply upb_ok; [by destruct (bits =? 5)|done|lia]|]. intros b [Hbl' Hb']. apply returns_ret. rewrite as_i16_id by (unfold is_i16; lia). split_and!; (done || lia). }
  intros [[[a2p a0] a1] b] (H2 & -> & H0 & Hbl' & Hb'). eapply returns_bind; [apply float_a_ok; lia|]. intros dq0 Hdq0. eapply returns_bind; [by apply float_b_ok|]. intros sr0 Hsr0.
  eapply returns_bind; [by apply short_ok|]. intros dms Hdms'. eapply returns_bind; [by apply long_ok|]. intros dml Hdml'.
  eapply returns_bind; [by apply speed_ok|]. intros ap Hap'. cbv beta in *. apply returns_ret. rewrite as_i16_id by (unfold is_i16; lia).
  split; cbn [gs_yl gs_yu gs_dms gs_dml gs_ap gs_a0 gs_a1 gs_b gs_pk0 gs_pk1 gs_dq gs_sr0 gs_sr1]; try done; try lia.
  - unfold b2z. destruct (dqsez <? 0); lia.
  - rewrite len_cons, len_take, Hql. split; [done|]. constructor; [done|]. by apply Forall_take.
Qed.

(** ** One sample *)

Definition code_ok (r : Rate) (code : Z) : Prop := 0 <= code < 2 ^ codeword_bits r.
Definition codec_ok (g : G726) : Prop := state_ok (g6_state g).
Definition same_codec (g g' : G726) : Prop := g6_rate g' = g6_rate g /\ g6_params g' = g6_params g.

Definition tables_check (r : Rate) (code : Z) : bool :=
  (-2048 <=? byte_of (dqlntab r) code) && (byte_of (dqlntab r) code <=? 566) && (-704 <=? byte_of (witab r) code) && (byte_of (witab r) code <=? 35904) &&
  (0 <=? byte_of (fitab r) code) && (byte_of (fitab r) code <=? 0xE00).

Lemma tables_ok r code : code_ok r code ->
  len (dqlntab r) = 2 ^ codeword_bits r /\ len (witab r) = 2 ^ codeword_bits r /\ len (fitab r) = 2 ^ codeword_bits r /\
  -2048 <= byte_of (dqlntab r) code <= 566 /\ -704 <= byte_of (witab r) code <= 35904 /\ 0 <= byte_of (fitab r) code <= 0xE00.
Proof.
  intros Hc. assert (all_from (Z.to_nat (2 ^ codeword_bits r)) 0 (tables_check r) = true) as H by (destruct r; vm_compute; reflexivity).
  pose proof (below_forall _ _ code H Hc) as Hb. unfold tables_check in Hb. rewrite !andb_true_iff, !Z.leb_le in Hb. split_and!; try lia; by destruct r.
Qed.

Lemma reconstructed_ok r se dq : -16384 <= se <= 16383 -> is_i16 dq -> returns (reconstructed r se dq) is_i16.
Proof.
  unfold is_i16 at 1. intros Hs Hd. unfold reconstructed. pose proof (land_range dq (reconstruct_mask r) ltac:(by destruct r)) as Hl.
  assert (reconstruct_mask r <= 0x7FFF) by (by destruct r). eapply (returns_bind _ _ (fun _ => True)).
  { destruct (dq <? 0); (eapply returns_weaken; [apply returns_chk; range|done]). }
  intros ? _. apply returns_ret, as_i16_range.
Qed.

Lemma sign_sum_ok sr sezi se : is_i16 sr -> is_i16 sezi -> -16384 <= se <= 16383 -> returns (sign_sum sr sezi se) (fun _ => True).
Proof. unfold is_i16. intros Hr Hz Hs. unfold sign_sum. checked. checked. by apply returns_ret. Qed.

Lemma adapt_ok g y code dq sr dqsez : codec_ok g -> 544 <= y <= 5120 -> code_ok (g6_rate g) code -> is_i16 sr ->
  returns (adapt g y code dq sr dqsez) (fun g' => codec_ok g' /\ same_codec g g').
Proof.
  intros Hg Hy Hc Hsr. destruct (tables_ok _ _ Hc) as (_ & Hlw & Hlf & _ & Hw & Hf). unfold adapt, code_ok in *.
  eapply returns_bind; [apply returns_idx; lia|intros ? ->]. eapply returns_bind; [apply returns_idx; lia|intros ? ->].
  eapply returns_bind; [by apply update_ok|]. intros s Hs. by apply returns_ret.
Qed.

(** What both directions compute first: the estimates and the step. *)
Lemma estimates_ok g : codec_ok g -> exists sezi pole se y, predictor_zero (g6_state g) = Ok sezi /\ predictor_pole (g6_state g) = Ok pole /\
  @chk CodecError I32 (sezi + pole) = Ok (sezi + pole) /\ signal_estimate_15bit (Z.shiftr (sezi + pole) 1) = Ok se /\
  step_size (g6_state g) = Ok y /\ is_i16 sezi /\ -16384 <= se <= 16383 /\ 544 <= y <= 5120.
Proof.
  intros Hg. destruct (predictor_zero_ok _ Hg) as (sezi & -> & Hz). destruct (predictor_pole_ok _ Hg) as (pole & -> & Hp). destruct (step_size_ok _ Hg) as (y & -> & Hy).
  unfold is_i16 in *. destruct (signal_estimate_ok (Z.shiftr (sezi + pole) 1)) as (se & Hse & Hs); [unfold is_i16; range|].
  exists sezi, pole, se, y. rewrite chk_Ok by (unfold I32; lia). split_and!; done || lia.
Qed.

(** The steps from the code word on. *)
Lemma tail_ok g sezi se y code : codec_ok g -> is_i16 sezi -> -16384 <= se <= 16383 -> 544 <= y <= 5120 -> code_ok (g6_rate g) code ->
  exists dq sr dqsez g', @idx CodecError Z (dqlntab (g6_rate g)) code = Ok (byte_of (dqlntab (g6_rate g)) code) /\
  reconstruct (Z.land code (sign_bit (g6_rate g))) (byte_of (dqlntab (g6_rate g)) code) y = Ok dq /\
  reconstructed (g6_rate g) se dq = Ok sr /\ sign_sum sr sezi se = Ok dqsez /\ adapt g y code dq sr dqsez = Ok g' /\
  is_i16 sr /\ codec_ok g' /\ same_codec g g'.
Proof.
  intros Hg Hz Hs Hy Hc. destruct (tables_ok _ _ Hc) as (Hl & _ & _ & Hd & _).
  destruct (reconstruct_ok (Z.land code (sign_bit (g6_rate g))) _ y Hd Hy) as (dq & Hdq & Hdqr). destruct (reconstructed_ok (g6_rate g) se dq Hs Hdqr) as (sr & Hsr & Hsrr).
  destruct (sign_sum_ok sr sezi se Hsrr Hz Hs) as (dqsez & Hq & _). destruct (adapt_ok g y code dq sr dqsez Hg Hy Hc Hsrr) as (g' & Ha & Hg' & Hsame).
  exists dq, sr, dqsez, g'. unfold code_ok in Hc. rewrite idx_byte_of by lia. split_and!; done.
Qed.

Lemma decode_core_ok g code : codec_ok g -> code_ok (g6_rate g) code -> exists sr se y g', decode_core g code = Ok (sr, se, y, g') /\
  is_i16 sr /\ codec_ok g' /\ same_codec g g'.
Proof.
  intros Hg Hc. destruct (estimates_ok g Hg) as (sezi & pole & se & y & H1 & H2 & H3 & H4 & H5 & Hz & Hs & Hy).
  destruct (tail_ok g sezi se y code Hg Hz Hs Hy Hc) as (dq & sr & dqsez & g' & T1 & T2 & T3 & T4 & T5 & Hsr & Hg' & Hsame).
  exists sr, se, y, g'. unfold decode_core. rewrite H1, bind_Ok, H2, bind_Ok, H3, bind_Ok, H5, bind_Ok, T1, bind_Ok, T2, bind_Ok, H4, bind_Ok, T3, bind_Ok, T4, bind_Ok, T5, bind_Ok. done.
Qed.

(** The code word an encoder chooses for a sample is the cell of the difference to
    the estimate a decoder in the same state makes, and the encoder then steps as
    that decoder does. *)
Lemma encode_tracks g x : codec_ok g -> is_i16 x -> exists code sr se y dln g', G726_encode_sample g x = Ok (code, g') /\ code_ok (g6_rate g) code /\
  decode_core g code = Ok (sr, se, y, g') /\ log_difference (Z.shiftr x 2 - se) y = Ok dln /\ in_cell (g6_rate g) (level (g6_rate g) code) dln /\
  is_i16 sr /\ codec_ok g' /\ same_codec g g'.
Proof.
  intros Hg Hx. destruct (estimates_ok g Hg) as (sezi & pole & se & y & H1 & H2 & H3 & H4 & H5 & Hz & Hs & Hy).
  assert (-8192 <= Z.shiftr x 2 <= 8191) as Hamp by (unfold is_i16 in Hx; range).
  destruct (quantize_ok (g6_rate g) (Z.shiftr x 2 - se) y ltac:(lia) Hy) as (code & Hq & Hc & dln & Hln & Hcell).
  destruct (tail_ok g sezi se y code Hg Hz Hs Hy Hc) as (dq & sr & dqsez & g' & T1 & T2 & T3 & T4 & T5 & Hsr & Hg' & Hsame).
  exists code, sr, se, y, dln, g'. unfold G726_encode_sample, decode_core. cbv zeta.
  rewrite H1, !bind_Ok, H2, !bind_Ok, H3, !bind_Ok, H4, !bind_Ok, (chk_Ok I32 (_ - se)), !bind_Ok, H5, !bind_Ok, Hq, !bind_Ok, T1, !bind_Ok, T2, !bind_Ok, T3, !bind_Ok, T4, !bind_Ok, T5, !bind_Ok by (unfold I32; lia).
  unfold wrap. rewrite Z.mod_small; [split_and!; done|]. unfold code_ok in Hc. assert (2 ^ codeword_bits (g6_rate g) <= 32) by (by destruct (g6_rate g)). lia.
Qed.

Lemma decode_sample_core g code sr se y g' : decode_core g code = Ok (sr, se, y, g') -> is_i16 sr -> decode_sample g code = Ok (as_i16 (4 * sr), g').
Proof.
  intros H Hs. unfold decode_sample. rewrite H, bind_Ok. cbv beta iota. unfold is_i16 in Hs. destruct (returns_shl sr 2 ltac:(done)) as (x & -> & _ & Hx).
  change (2 ^ 2) with 4 in Hx. rewrite Hx by (unfold I32; lia). rewrite bind_Ok. unfold mret, res_ret. do 3 f_equal. lia.
Qed.

(** ** Packing *)

(** The number a list of digits writes, the lowest digit first. *)
Fixpoint digits (base : Z) (l : list Z) : Z := match l with [] => 0 | d :: l => d + base * digits base l end.

(** The lowest [n] digits of a number. *)
Fixpoint low_digits (n : nat) (base v : Z) : list Z := match n with O => [] | S n => v mod base :: low_digits n base (v / base) end.

Lemma digits_app base l m : digits base (l ++ m) = digits base l + base ^ len l * digits base m.
Proof.
  induction l as [|d l IH]; cbn [app digits]; [change (len (@nil Z)) with 0; lia|]. rewrite IH, len_cons, Z.pow_add_r, Z.pow_1_r by (pose proof (len_nonneg l); lia). lia.
Qed.

Lemma low_digits_back base l v : 0 < base -> Forall (fun d => 0 <= d < base) l -> low_digits (length l) base (digits base l + base ^ len l * v) = l.
Proof.
  intros Hb Hl. revert v. induction Hl as [|d l Hd _ IH]; intros v; [done|]. cbn [length low_digits digits].
  replace (d + base * digits base l + base ^ len (d :: l) * v) with (d + (digits base l + base ^ len l * v) * base)
    by (rewrite len_cons, Z.pow_add_r, Z.pow_1_r by (pose proof (len_nonneg l); lia); ring).
  rewrite Z.mod_add, Z.mod_small, Z.div_add, Z.div_small, Z.add_0_l by lia. by rewrite IH.
Qed.

Lemma low_digits_range n base : forall v, 0 < base -> Forall (fun d => 0 <= d < base) (low_digits n base v).
Proof. induction n as [|n IH]; intros v Hb; constructor; [by apply Z.mod_pos_bound|by apply IH]. Qed.

Lemma lor_add acc acc_bits d : 0 <= acc_bits -> 0 <= acc < 2 ^ acc_bits -> Z.lor acc (Z.shiftl d acc_bits) = acc + 2 ^ acc_bits * d.
Proof. intros Hb Ha. rewrite Z.lor_comm, lor_shiftl_add by lia. lia. Qed.

Lemma bind_mret {A B} (x : A) (f : A -> adpcm B) : (y ← mret x; f y) = f x.
Proof. done. Qed.

Lemma bits_range r : 2 <= codeword_bits r <= 5.
Proof. destruct r; done. Qed.

(** *** The encoder's side *)

Fixpoint encode_codes (g : G726) (pcm : list Z) : adpcm (list Z * G726) :=
  match pcm with
  | [] => mret ([], g)
  | x :: pcm => '(code, g) ← G726_encode_sample g x; '(codes, g) ← encode_codes g pcm; mret (code :: codes, g)
  end.

Lemma encode_codes_ok pcm : forall g, codec_ok g -> pcm_ok pcm -> exists codes g', encode_codes g pcm = Ok (codes, g') /\
  Forall (code_ok (g6_rate g)) codes /\ len codes = len pcm /\ codec_ok g' /\ same_codec g g'.
Proof.
  induction pcm as [|x pcm IH]; intros g Hg Hp. { exists [], g. split_and!; done. }
  apply Forall_cons_1 in Hp as [Hx Hp]. destruct (encode_tracks g x Hg Hx) as (code & sr & se & y & dln & g1 & He & Hc & _ & _ & _ & _ & Hg1 & [Hr1 Hp1]).
  destruct (IH g1 Hg1 Hp) as (codes & g' & Hcs & Hall & Hl & Hg' & [Hr Hp']). cbn [encode_codes]. rewrite He, bind_Ok. cbv beta iota. rewrite Hcs, bind_Ok.
  eexists _, _. split; [done|]. rewrite Hr1 in *. split_and!; [by constructor|by rewrite !len_cons, Hl|done|]. split; congruence.
Qed.

(** The octet drained, if one is complete. *)
Lemma drain_ok acc acc_bits out_done rest_ : 0 <= acc < 2 ^ acc_bits -> 0 <= acc_bits < 16 -> (8 <= acc_bits -> 1 <= len rest_) ->
  exists w rest', drain 1 acc acc_bits (len out_done) (out_done ++ rest_) =
    Ok (acc / 256 ^ len w, acc_bits - 8 * len w, len (out_done ++ w), (out_done ++ w) ++ rest') /\
    bytes_ok w /\ rest' = drop (length w) rest_ /\ (length w <= length rest_)%nat /\ acc = digits 256 w + 256 ^ len w * (acc / 256 ^ len w) /\
    0 <= acc / 256 ^ len w < 2 ^ (acc_bits - 8 * len w) /\ 0 <= acc_bits - 8 * len w < 8.
Proof.
  intros Ha Hb Hr. cbn [drain]. destruct (Z.leb_spec 8 acc_bits) as [H8|H8].
  - destruct rest_ as [|o rest_]; [change (len (@nil Z)) with 0 in Hr; lia|]. exists [acc mod 256], rest_. change (len [_]) with 1. rewrite Z.pow_1_r.
    assert (wrap 8 (Z.land acc 0xFF) = acc mod 256) as ->.
    { unfold wrap. change 0xFF with (Z.ones 8). rewrite Z.land_ones, Z.mod_mod by lia. done. }
    rewrite set_at_insert, bind_Ok by (rewrite len_app, len_cons; pose proof (len_nonneg out_done); pose proof (len_nonneg rest_); lia).
    rewrite (proj2 (Z.leb_gt 8 (acc_bits - 8))) by lia. rewrite Z.shiftr_div_pow2 by lia. change (2 ^ 8) with 256.
    assert (2 ^ acc_bits = 2 ^ (acc_bits - 8) * 256) as Hp by (change 256 with (2 ^ 8); rewrite <- Z.pow_add_r by lia; f_equal; lia).
    pose proof (Z.mod_pos_bound acc 256 ltac:(done)). cbn [length].
    split_and!; try lia.
    + unfold mret, res_ret. rewrite to_nat_len, insert_app_r_alt, Nat.sub_diag by lia. rewrite len_app. change (len [_]) with 1. by rewrite <- app_assoc.
    + by constructor.
    + done.
    + cbn [digits]. pose proof (Z.div_mod acc 256 ltac:(done)). lia.
    + apply Z.div_pos; lia.
    + rewrite Z.mul_1_r. apply Z.div_lt_upper_bound; lia.
  - exists [], rest_. change (len (@nil Z)) with 0. rewrite Z.mul_0_r, Z.sub_0_r, !app_nil_r. change (256 ^ 0) with 1. rewrite Z.div_1_r.
    split_and!; try done; try lia; [constructor|cbn [length digits]; lia..].
Qed.

Lemma encode_loop_ok pcm : forall g codes g' acc acc_bits out_done rest_, encode_codes g pcm = Ok (codes, g') -> Forall (code_ok (g6_rate g)) codes ->
  codec_ok g -> pcm_ok pcm -> 0 <= acc < 2 ^ acc_bits -> 0 <= acc_bits < 8 -> acc_bits + codeword_bits (g6_rate g) * len pcm <= 8 * len rest_ ->
  exists w acc' acc_bits', encode_loop pcm g acc acc_bits (len out_done) (out_done ++ rest_) =
    Ok (acc', acc_bits', len (out_done ++ w), (out_done ++ w) ++ drop (length w) rest_, g') /\
    bytes_ok w /\ (length w <= length rest_)%nat /\ 0 <= acc' < 2 ^ acc_bits' /\ 0 <= acc_bits' < 8 /\
    acc_bits' = acc_bits + codeword_bits (g6_rate g) * len pcm - 8 * len w /\
    digits 256 w + 256 ^ len w * acc' = acc + 2 ^ acc_bits * digits (2 ^ codeword_bits (g6_rate g)) codes.
Proof.
  induction pcm as [|x pcm IH]; intros g codes g' acc acc_bits out_done rest_ Hcodes Hall Hg Hp Ha Hb Hr.
  { injection Hcodes as <- <-. exists [], acc, acc_bits. cbn [encode_loop digits length]. change (len (@nil Z)) with 0. rewrite !app_nil_r. change (256 ^ 0) with 1.
    split_and!; try done; try lia. constructor. }
  apply Forall_cons_1 in Hp as [Hx Hp]. destruct (encode_tracks g x Hg Hx) as (code & sr & se & y & dln & g1 & He & Hc & _ & _ & _ & _ & Hg1 & [Hr1 _]).
  cbn [encode_codes encode_loop] in *. rewrite He, bind_Ok in Hcodes. rewrite He, bind_Ok. cbv beta iota in Hcodes |- *.
  destruct (encode_codes g1 pcm) as [[codes1 g2]| |] eqn:Hcs; [|done..]. rewrite bind_Ok in Hcodes. injection Hcodes as <- <-. apply Forall_cons_1 in Hall as [_ Hall].
  pose proof (bits_range (g6_rate g)) as Hbits. rewrite len_cons in Hr |- *. pose proof (len_nonneg pcm). set (bits := codeword_bits (g6_rate g)) in *. unfold code_ok in Hc. fold bits in Hc.
  rewrite (proj2 (Z.ltb_lt acc_bits 32)) by lia. rewrite bind_mret.
  assert (acc + 2 ^ acc_bits * code < 2 ^ (acc_bits + bits) /\ 0 <= acc + 2 ^ acc_bits * code) as Hnew.
  { rewrite Z.pow_add_r by lia. assert (0 < 2 ^ acc_bits) by (apply Z.pow_pos_nonneg; lia). nia. }
  assert (2 ^ (acc_bits + bits) <= 2 ^ 12) as H12 by (apply Z.pow_le_mono_r; lia).
  assert (wrap 32 (Z.shiftl code acc_bits) = Z.shiftl code acc_bits) as ->.
  { unfold wrap. rewrite Z.shiftl_mul_pow2 by lia. assert (0 < 2 ^ acc_bits) by (apply Z.pow_pos_nonneg; lia). apply Z.mod_small. split; [nia|]. rewrite Z.mul_comm. lia. }
  rewrite lor_add by lia. rewrite Hr1. fold bits.
  destruct (drain_ok (acc + 2 ^ acc_bits * code) (acc_bits + bits) out_done rest_) as (w & rest' & -> & Hw & -> & Hlw & Hdig & Hq & Hqb); [lia|lia|nia|]. rewrite bind_Ok. cbv beta iota.
  set (q := (acc + 2 ^ acc_bits * code) / 256 ^ len w) in *.
  assert (8 * len w <= 8 * len rest_) as Hlw8 by (unfold len; lia).
  destruct (IH g1 codes1 g2 q (acc_bits + bits - 8 * len w) (out_done ++ w) (drop (length w) rest_) Hcs ltac:(by rewrite Hr1) Hg1 Hp Hq Hqb) as (w' & acc' & ab' & -> & Hw' & Hlw' & Ha' & Hb' & Hab & Hdig').
  { rewrite Hr1. fold bits. rewrite len_drop. fold (len w). lia. }
  rewrite Hr1 in Hab, Hdig'. fold bits in Hab, Hdig'. exists (w ++ w'), acc', ab'. rewrite app_assoc, length_app, drop_drop. rewrite length_drop in Hlw'. split_and!; try done; try lia.
  - by apply bytes_ok_app.
  - rewrite len_app. lia.
  - rewrite digits_app, len_app, Z.pow_add_r by apply len_nonneg.
    assert (2 ^ (acc_bits + bits) = 256 ^ len w * 2 ^ (acc_bits + bits - 8 * len w)) as Hpow.
    { change 256 with (2 ^ 8). rewrite <- Z.pow_mul_r by (pose proof (len_nonneg w); lia). rewrite <- Z.pow_add_r by (pose proof (len_nonneg w); lia). f_equal. lia. }
    cbn [digits]. rewrite Z.pow_add_r in Hpow by lia. set (P := 256 ^ len w) in *. set (E := 2 ^ (acc_bits + bits - 8 * len w)) in *. set (A := 2 ^ acc_bits) in *. set (B := 2 ^ bits) in *.
    replace (digits 256 w + P * digits 256 w' + P * 256 ^ len w' * acc') with (digits 256 w + P * (digits 256 w' + 256 ^ len w' * acc')) by ring. rewrite Hdig'.
    replace (acc + A * (code + B * digits B codes1)) with (acc + A * code + A * B * digits B codes1) by ring. rewrite Hpow, Hdig. ring.
Qed.

Lemma encode_ok g pcm out : codec_ok g -> pcm_ok pcm -> let bits := codeword_bits (g6_rate g) in let needed := div_ceil (len pcm * bits) 8 in
  needed <= len out -> exists payload codes g', G726_encode g pcm out = Ok (needed, payload ++ drop (length payload) out, g') /\
  encode_codes g pcm = Ok (codes, g') /\ Forall (code_ok (g6_rate g)) codes /\ len codes = len pcm /\ bytes_ok payload /\ len payload = needed /\
  digits 256 payload = digits (2 ^ bits) codes /\ codec_ok g' /\ same_codec g g'.
Proof.
  intros Hg Hp bits needed Hl. destruct (encode_codes_ok pcm g Hg Hp) as (codes & g' & Hcs & Hall & Hlc & Hg' & Hsame).
  unfold G726_encode. cbv zeta. fold bits needed. rewrite (proj2 (Z.ltb_ge _ _)) by lia. pose proof (bits_range (g6_rate g)) as Hbits. fold bits in Hbits.
  assert (len pcm * bits <= 8 * needed /\ 8 * needed <= len pcm * bits + 7) as Hn by (unfold needed, div_ceil; Z.to_euclidean_division_equations; lia).
  destruct (encode_loop_ok pcm g codes g' 0 0 [] out Hcs Hall Hg Hp) as (w & acc & ab & Hloop & Hw & Hlw & Ha & Hb & Hab & Hdig); [done|done|fold bits; lia|].
  change (len (@nil Z)) with 0 in Hloop. cbn [app] in Hloop. rewrite Hloop, bind_Ok. cbv beta iota. fold bits in Hab, Hdig. rewrite Z.mul_1_l, Z.add_0_l in Hdig.
  assert (len w <= len out) as Hlw' by (unfold len; lia). destruct (Z.ltb_spec 0 ab) as [Hpos|Hz].
  - assert (needed = len w + 1) as Hnw by lia. assert (2 ^ ab <= 2 ^ 8) as H8 by (apply Z.pow_le_mono_r; lia). change (2 ^ 8) with 256 in H8.
    assert (wrap 8 (Z.land acc 0xFF) = acc) as ->.
    { unfold wrap. change 0xFF with (Z.ones 8). rewrite Z.land_ones, Z.mod_mod by lia. apply Z.mod_small. lia. }
    rewrite set_at_insert, bind_Ok by (rewrite len_app, len_drop; pose proof (len_nonneg w); unfold len in *; lia).
    rewrite to_nat_len, insert_app_r_alt, Nat.sub_diag by lia.
    destruct (drop (length w) out) as [|o rest_] eqn:Ed. { apply (f_equal len) in Ed. rewrite len_drop in Ed. change (len (@nil Z)) with 0 in Ed. unfold len in *. lia. }
    exists (w ++ [acc]), codes, g'. split_and!; try done.
    + unfold mret, res_ret. rewrite Hnw. cbn [insert list_insert]. rewrite length_app. cbn [length]. rewrite <- drop_drop, Ed. cbn [drop skipn]. by rewrite <- app_assoc.
    + apply bytes_ok_app. split; [done|]. constructor; [unfold is_byte; lia|constructor].
    + rewrite len_app. change (len [acc]) with 1. lia.
    + rewrite digits_app. cbn [digits]. rewrite <- Hdig. lia.
  - assert (ab = 0) as -> by lia. change (2 ^ 0) with 1 in Ha. assert (acc = 0) as -> by lia. exists w, codes, g'. split_and!; try done.
    + unfold mret, res_ret. do 3 f_equal. lia.
    + lia.
    + lia.
Qed.

(** *** The decoder's side *)

Fixpoint decode_codes (g : G726) (codes : list Z) : adpcm (list Z * G726) :=
  match codes with
  | [] => mret ([], g)
  | code :: codes => '(sample, g) ← decode_sample g code; '(samples, g) ← decode_codes g codes; mret (sample :: samples, g)
  end.

Lemma refill_ok bits acc acc_bits pre rest_ : 0 <= acc_bits < 8 -> 2 <= bits <= 5 -> 0 <= acc < 2 ^ acc_bits -> bytes_ok rest_ -> bits <= acc_bits + 8 * len rest_ ->
  exists w rest' acc', refill 1 bits (pre ++ rest_) acc acc_bits (len pre) = Ok (acc', acc_bits + 8 * len w, len (pre ++ w)) /\ rest_ = w ++ rest' /\
    0 <= acc' < 2 ^ (acc_bits + 8 * len w) /\ bits <= acc_bits + 8 * len w < bits + 8 /\
    acc' + 2 ^ (acc_bits + 8 * len w) * digits 256 rest' = acc + 2 ^ acc_bits * digits 256 rest_.
Proof.
  intros Hb Hbits Ha Hok Hl. cbn [refill]. destruct (Z.ltb_spec acc_bits bits) as [Hlt|Hge].
  - destruct rest_ as [|o rest_]; [change (len (@nil Z)) with 0 in Hl; lia|]. apply Forall_cons_1 in Hok as [Ho Hok]. unfold is_byte in Ho.
    rewrite idx_app_mid, bind_Ok, (proj2 (Z.ltb_lt acc_bits 32)), bind_mret by lia. rewrite (proj2 (Z.ltb_ge (acc_bits + 8) bits)) by lia.
    assert (0 < 2 ^ acc_bits) by (apply Z.pow_pos_nonneg; lia). assert (2 ^ acc_bits <= 2 ^ 7) as H7 by (apply Z.pow_le_mono_r; lia). change (2 ^ 7) with 128 in H7.
    assert (wrap 32 (Z.shiftl o acc_bits) = Z.shiftl o acc_bits) as -> by (unfold wrap; rewrite Z.shiftl_mul_pow2 by lia; apply Z.mod_small; nia).
    rewrite lor_add by lia. exists [o], rest_, (acc + 2 ^ acc_bits * o). change (len [o]) with 1. rewrite Z.mul_1_r, Z.pow_add_r by lia. change (2 ^ 8) with 256.
    split_and!; try done; try nia.
    + unfold mret, res_ret. rewrite len_app. done.
    + cbn [digits]. ring.
  - exists [], rest_, acc. change (len (@nil Z)) with 0. rewrite Z.mul_0_r, Z.add_0_r, app_nil_r. split_and!; try done; lia.
Qed.

Lemma decode_loop_ok n : forall g pre rest_ acc acc_bits, 0 <= acc_bits < 8 -> 0 <= acc < 2 ^ acc_bits -> bytes_ok rest_ ->
  codeword_bits (g6_rate g) * Z.of_nat n <= acc_bits + 8 * len rest_ -> codec_ok g ->
  decode_loop n (pre ++ rest_) g acc acc_bits (len pre) =
  decode_codes g (low_digits n (2 ^ codeword_bits (g6_rate g)) (acc + 2 ^ acc_bits * digits 256 rest_)).
Proof.
  induction n as [|n IH]; intros g pre rest_ acc acc_bits Hb Ha Hok Hl Hg; [done|]. cbn [decode_loop low_digits decode_codes]. cbv zeta.
  pose proof (bits_range (g6_rate g)) as Hbits. set (bits := codeword_bits (g6_rate g)) in *.
  destruct (refill_ok bits acc acc_bits pre rest_ Hb Hbits Ha Hok ltac:(nia)) as (w & rest' & acc' & -> & -> & Ha' & Hb' & Hv). rewrite bind_Ok. cbv beta iota.
  rewrite <- Hv. set (ab := acc_bits + 8 * len w) in *. assert (0 < 2 ^ bits) as Hpb by (apply Z.pow_pos_nonneg; lia).
  assert (2 ^ ab = 2 ^ bits * 2 ^ (ab - bits)) as Hsplit by (rewrite <- Z.pow_add_r by lia; f_equal; lia).
  assert (2 ^ bits <= 2 ^ 5) as H5 by (apply Z.pow_le_mono_r; lia). change (2 ^ 5) with 32 in H5.
  replace (acc' + 2 ^ ab * digits 256 rest') with (acc' + 2 ^ (ab - bits) * digits 256 rest' * 2 ^ bits) by (rewrite Hsplit; ring).
  rewrite Z.mod_add, Z.div_add by lia.
  assert (wrap 8 (Z.land acc' (Z.shiftl 1 bits - 1)) = acc' mod 2 ^ bits) as ->.
  { rewrite Z.shiftl_1_l. replace (2 ^ bits - 1) with (Z.ones bits) by (rewrite Z.ones_equiv; lia). rewrite Z.land_ones by lia. unfold wrap. apply Z.mod_small.
    pose proof (Z.mod_pos_bound acc' (2 ^ bits) Hpb). lia. }
  rewrite usub_Ok, bind_Ok by lia. destruct (decode_sample g (acc' mod 2 ^ bits)) as [[sample g1]| |] eqn:Hd; [|done..]. rewrite !bind_Ok. cbv beta iota.
  assert (codec_ok g1 /\ g6_rate g1 = g6_rate g) as [Hg1 Hr1].
  { destruct (decode_core_ok g (acc' mod 2 ^ bits) Hg ltac:(by apply Z.mod_pos_bound)) as (sr & se & y & g1' & Hc & Hsr & Hg1 & [Hr _]).
    rewrite (decode_sample_core _ _ _ _ _ _ Hc Hsr) in Hd. injection Hd as _ <-. done. }
  rewrite app_assoc. rewrite Z.shiftr_div_pow2 by lia. rewrite (IH g1 (pre ++ w) rest' (acc' / 2 ^ bits) (ab - bits)).
  - rewrite Hr1. fold bits. done.
  - lia.
  - split; [apply Z.div_pos; lia|]. apply Z.div_lt_upper_bound; [lia|]. rewrite <- Hsplit. lia.
  - by apply bytes_ok_app in Hok as [_ Hok].
  - rewrite Hr1. fold bits. rewrite len_app in Hl. lia.
  - done.
Qed.

Lemma decode_codes_ok codes : forall g, codec_ok g -> Forall (code_ok (g6_rate g)) codes -> exists samples g', decode_codes g codes = Ok (samples, g') /\
  len samples = len codes /\ pcm_ok samples /\ codec_ok g' /\ same_codec g g'.
Proof.
  induction codes as [|code codes IH]; intros g Hg Hall. { exists [], g. split_and!; try done; constructor. }
  apply Forall_cons_1 in Hall as [Hc Hall]. destruct (decode_core_ok g code Hg Hc) as (sr & se & y & g1 & Hcore & Hsr & Hg1 & [Hr1 Hp1]).
  rewrite <- Hr1 in Hall. destruct (IH g1 Hg1 Hall) as (samples & g' & Hd & Hl & Hp & Hg' & [Hr Hp']). cbn [decode_codes].
  rewrite (decode_sample_core _ _ _ _ _ _ Hcore Hsr), bind_Ok. cbv beta iota. rewrite Hd, bind_Ok. eexists _, _. split; [done|].
  split_and!; [by rewrite !len_cons, Hl|constructor; [apply as_i16_range|done]|done|]. split; congruence.
Qed.

Lemma decode_ok g payload out : codec_ok g -> bytes_ok payload -> let bits := codeword_bits (g6_rate g) in let samples := len payload * 8 / bits in
  samples <= len out -> exists decoded g', G726_decode g payload out = Ok (samples, decoded ++ drop (length decoded) out, g') /\
  decode_codes g (low_digits (Z.to_nat samples) (2 ^ bits) (digits 256 payload)) = Ok (decoded, g') /\
  len decoded = samples /\ pcm_ok decoded /\ codec_ok g' /\ same_codec g g'.
Proof.
  intros Hg Hb bits samples Hl. pose proof (bits_range (g6_rate g)) as Hbits. fold bits in Hbits. pose proof (len_nonneg payload).
  assert (0 <= samples) as Hs by (apply Z.div_pos; lia). assert (bits * samples <= len payload * 8) as Hsb by (apply Z.mul_div_le; lia).
  unfold G726_decode. cbv zeta. fold bits samples. rewrite (proj2 (Z.ltb_ge _ _)) by lia.
  pose proof (decode_loop_ok (Z.to_nat samples) g [] payload 0 0 ltac:(done) ltac:(done) Hb ltac:(fold bits; lia) Hg) as Hloop. cbn [app] in Hloop. change (len (@nil Z)) with 0 in Hloop.
  rewrite Hloop. fold bits. rewrite Z.mul_1_l, Z.add_0_l.
  destruct (decode_codes_ok (low_digits (Z.to_nat samples) (2 ^ bits) (digits 256 payload)) g Hg) as (decoded & g' & Hd & Hld & Hp & Hg' & Hsame).
  { apply low_digits_range. apply Z.pow_pos_nonneg; lia. }
  assert (len decoded = samples) as Hlen.
  { rewrite Hld. unfold len. assert (forall n b v, length (low_digits n b v) = n) as -> by (intros n b; induction n as [|n IH]; intros v; [done|]; cbn; by rewrite IH). lia. }
  rewrite Hd, bind_Ok. exists decoded, g'. split_and!; try done. unfold mret, res_ret. do 3 f_equal. unfold fill_first. rewrite firstn_all2 by (unfold len in *; lia). done.
Qed.

(** ** A codec instance under arbitrary use *)

Inductive g726_op : Type :=
| Encode_frame (pcm : list Z) (out : bytes)
| Decode_payload (payload : bytes) (out : list Z)
| Conceal_frame (out : list Z).

(** The count and the buffer; an error leaves the codec alone. *)
Definition op_step (g : G726) (op : g726_op) : adpcm (Z * list Z) * G726 :=
  match (match op with
         | Encode_frame pcm out => G726_encode g pcm out
         | Decode_payload payload out => G726_decode g payload out
         | Conceal_frame out => mret (G726_conceal g out, g)
         end) with
  | Ok (count, out, g) => (Ok (count, out), g)
  | Err e => (Err e, g)
  | Panic => (Panic, g)
  end.

Fixpoint op_run (g : G726) (ops : list g726_op) : list (adpcm (Z * list Z)) * G726 :=
  match ops with
  | [] => ([], g)
  | op :: ops => let '(r, g) := op_step g op in let '(rs, g) := op_run g ops in (r :: rs, g)
  end.

Definition op_ok (op : g726_op) : Prop :=
  match op with Encode_frame pcm out => pcm_ok pcm | Decode_payload payload out => bytes_ok payload | Conceal_frame out => True end.

(** The count a call needs room for, and the buffer it was given. *)
Definition op_needed (rate : Rate) (params : CodecParams) (op : g726_op) : Z :=
  match op with
  | Encode_frame pcm out => div_ceil (len pcm * codeword_bits rate) 8
  | Decode_payload payload out => len payload * 8 / codeword_bits rate
  | Conceal_frame out => Z.min (frame_samples params) (len out)
  end.
Definition op_buffer (op : g726_op) : list Z :=
  match op with Encode_frame pcm out => out | Decode_payload payload out => out | Conceal_frame out => out end.

(** The result of a call, by its arguments alone: the count, and a buffer whose
    first part holds octets or samples and whose rest is untouched; or the error
    of a buffer too small. *)
Definition op_result_ok (rate : Rate) (params : CodecParams) (op : g726_op) (r : adpcm (Z * list Z)) : Prop :=
  let needed := op_needed rate params op in
  if len (op_buffer op) <? needed then r = Err (OutputTooSmall needed (len (op_buffer op))) else
  exists written, r = Ok (needed, written ++ drop (length written) (op_buffer op)) /\ len written = needed /\
    match op with Encode_frame _ _ => bytes_ok written | Decode_payload _ _ => pcm_ok written | Conceal_frame _ => Forall (fun x => x = 0) written end.

Lemma op_step_ok g op : codec_ok g -> op_ok op -> 0 <= frame_samples (g6_params g) -> exists r g', op_step g op = (r, g') /\
  op_result_ok (g6_rate g) (g6_params g) op r /\ codec_ok g' /\ same_codec g g'.
Proof.
  intros Hg Hop Hf. unfold op_step, op_result_ok. destruct op as [pcm out|payload out|out]; cbn [op_needed op_buffer op_ok] in *; cbv zeta.
  - destruct (Z.ltb_spec (len out) (div_ceil (len pcm * codeword_bits (g6_rate g)) 8)) as [Hlt|Hge].
    { unfold G726_encode. cbv zeta. rewrite (proj2 (Z.ltb_lt _ _)) by done. by eexists _, _. }
    destruct (encode_ok g pcm out Hg Hop Hge) as (w & codes & g' & -> & _ & _ & _ & Hb & Hl & _ & Hg' & Hsame). eexists _, g'. split_and!; try done. by exists w.
  - destruct (Z.ltb_spec (len out) (len payload * 8 / codeword_bits (g6_rate g))) as [Hlt|Hge].
    { unfold G726_decode. cbv zeta. rewrite (proj2 (Z.ltb_lt _ _)) by done. by eexists _, _. }
    destruct (decode_ok g payload out Hg Hop Hge) as (w & g' & -> & _ & Hl & Hp & Hg' & Hsame). eexists _, g'. split_and!; try done. by exists w.
  - rewrite (proj2 (Z.ltb_ge _ _)) by lia. eexists _, g. split_and!; try done. pose proof (len_nonneg out).
    set (count := Z.min _ _). exists (replicate (Z.to_nat count) 0). assert (0 <= count <= len out) as Hc by (unfold count; lia). rewrite len_replicate. split_and!.
    + unfold G726_conceal, mret, res_ret. fold count. unfold fill_first. rewrite firstn_all2 by (rewrite length_replicate; unfold len in *; lia). done.
    + lia.
    + by apply Forall_replicate.
Qed.

Lemma op_run_ok ops : forall g, codec_ok g -> Forall op_ok ops -> 0 <= frame_samples (g6_params g) -> exists rs g', op_run g ops = (rs, g') /\
  Forall2 (op_result_ok (g6_rate g) (g6_params g)) ops rs /\ codec_ok g' /\ same_codec g g'.
Proof.
  induction ops as [|op ops IH]; intros g Hg Hops Hf. { exists [], g. split_and!; done || constructor. }
  apply Forall_cons_1 in Hops as [Hop Hops]. destruct (op_step_ok g op Hg Hop Hf) as (r & g1 & Hs & Hr & Hg1 & [Hr1 Hp1]).
  destruct (IH g1 Hg1 Hops ltac:(by rewrite Hp1)) as (rs & g' & Hrun & Hrs & Hg' & [Hr' Hp']). cbn [op_run]. rewrite Hs, Hrun. rewrite Hr1, Hp1 in *.
  eexists _, g'. split_and!; try done. by constructor.
Qed.

(** C34. G.726 is well typed.  Whatever sequence of frames is encoded, payloads decoded
    (any octets at all) and losses concealed on one instance at any rate, no call
    panics: no [i32] operation overflows, no shift reaches the width, no index
    leaves its table, no clamp has crossed bounds.  Every call returns the count
    its arguments determine, octets or 16-bit samples in the first part of the
    buffer and the rest untouched, or the error of a buffer too small; and the
    adaptive state stays in the Recommendation's ranges, the scale factors between
    their limits and the poles in the stability triangle. *)
Theorem g726_well_typed rate ptime_ms ops : Forall op_ok ops ->
  exists rs g, op_run (G726_new rate ptime_ms) ops = (rs, g) /\
    Forall2 (op_result_ok rate (g6_params (G726_new rate ptime_ms))) ops rs /\ state_ok (g6_state g).
Proof.
  intros Hops. destruct (op_run_ok ops (G726_new rate ptime_ms) new_state_ok Hops) as (rs & g & Hrun & Hrs & Hg & _).
  { unfold frame_samples. cbn [g6_params G726_new cp_sample_rate_hz cp_ptime_ms]. change (8000 / 1000) with 8. lia. }
  by exists rs, g.
Qed.

(** ** Both ends of a stream *)

(** Every sample [x] comes out as the reconstruction [o] of a decoder in the state
    the encoder is in: the estimate plus a quantized difference, whose level lies in
    the same quantizer cell as the difference of the sample. *)
Fixpoint tracked (g : G726) (pcm outs : list Z) (g' : G726) : Prop :=
  match pcm, outs with
  | [], [] => g' = g
  | x :: pcm, o :: outs => exists code sr se y dln g1,
      decode_core g code = Ok (sr, se, y, g1) /\ o = as_i16 (4 * sr) /\
      log_difference (Z.shiftr x 2 - se) y = Ok dln /\ in_cell (g6_rate g) (level (g6_rate g) code) dln /\
      in_cell (g6_rate g) (level (g6_rate g) code) (byte_of (dqlntab (g6_rate g)) code) /\
      tracked g1 pcm outs g'
  | _, _ => False
  end.

Lemma codes_tracked pcm : forall g codes g', codec_ok g -> pcm_ok pcm -> encode_codes g pcm = Ok (codes, g') ->
  exists outs, decode_codes g codes = Ok (outs, g') /\ len outs = len pcm /\ tracked g pcm outs g'.
Proof.
  induction pcm as [|x pcm IH]; intros g codes g' Hg Hp Hcs. { injection Hcs as <- <-. by exists []. }
  apply Forall_cons_1 in Hp as [Hx Hp]. destruct (encode_tracks g x Hg Hx) as (code & sr & se & y & dln & g1 & He & Hc & Hcore & Hln & Hcell & Hsr & Hg1 & _).
  cbn [encode_codes] in Hcs. rewrite He, bind_Ok in Hcs. cbv beta iota in Hcs. destruct (encode_codes g1 pcm) as [[codes1 g2]| |] eqn:E; [|done..].
  rewrite bind_Ok in Hcs. injection Hcs as <- <-. destruct (IH g1 codes1 g2 Hg1 Hp E) as (outs & Hd & Hl & Ht). exists (as_i16 (4 * sr) :: outs).
  cbn [decode_codes]. rewrite (decode_sample_core _ _ _ _ _ _ Hcore Hsr), bind_Ok. cbv beta iota. rewrite Hd, bind_Ok. split_and!; [done|by rewrite !len_cons, Hl|].
  cbn [tracked]. exists code, sr, se, y, dln, g1. split_and!; try done. by apply level_in_cell.
Qed.

(** One frame through an encoder and a decoder. *)
Definition pass_frame (e d : G726) (pcm : list Z) : adpcm (list Z * G726 * G726) :=
  '(written, out, e) ← G726_encode e pcm (replicate (Z.to_nat (div_ceil (len pcm * codeword_bits (g6_rate e)) 8)) 0);
  payload ← slice out 0 written;
  '(count, samples, d) ← G726_decode d payload (replicate (length pcm) 0);
  if count =? len pcm then mret (samples, e, d) else Panic.

Fixpoint pass_frames (e d : G726) (frames : list (list Z)) : adpcm (list (list Z) * G726 * G726) :=
  match frames with
  | [] => mret ([], e, d)
  | pcm :: frames =>
      '(samples, e, d) ← pass_frame e d pcm;
      '(rest, e, d) ← pass_frames e d frames;
      mret (samples :: rest, e, d)
  end.

Lemma pass_frame_ok g pcm : codec_ok g -> pcm_ok pcm -> len pcm mod 8 = 0 -> exists samples g', pass_frame g g pcm = Ok (samples, g', g') /\
  len samples = len pcm /\ tracked g pcm samples g' /\ codec_ok g'.
Proof.
  intros Hg Hp Hm. unfold pass_frame. pose proof (bits_range (g6_rate g)) as Hbits. set (bits := codeword_bits (g6_rate g)) in *. set (needed := div_ceil (len pcm * bits) 8).
  pose proof (len_nonneg pcm). assert (8 * needed = len pcm * bits) as Hn.
  { unfold needed, div_ceil. apply Z.div_exact in Hm; [|done]. rewrite Hm. replace (8 * (len pcm / 8) * bits + 8 - 1) with (7 + len pcm / 8 * bits * 8) by ring. rewrite Z.div_add by lia. change (7 / 8) with 0. lia. }
  destruct (encode_ok g pcm (replicate (Z.to_nat needed) 0) Hg Hp) as (w & codes & g' & -> & Hcs & Hall & Hlc & Hb & Hlw & Hdig & Hg' & _); [fold bits needed; rewrite len_replicate; lia|].
  fold bits in Hlw, Hdig, Hall |- *. fold needed in Hlw |- *. rewrite bind_Ok. cbv beta iota. rewrite slice_Ok, bind_Ok by (rewrite ?len_app; pose proof (len_nonneg (drop (length w) (replicate (Z.to_nat needed) 0))); lia).
  rewrite sub_app_begin by done. destruct (codes_tracked pcm g codes g' Hg Hp Hcs) as (outs & Hd & Hlo & Ht).
  assert (len w * 8 / bits = len pcm) as Hs by (rewrite Hlw, (Z.mul_comm needed), Hn, Z.div_mul by lia; done).
  destruct (decode_ok g w (replicate (length pcm) 0) Hg Hb) as (dec & g2 & -> & Hdec & Hld & _); [fold bits; rewrite Hs, len_replicate; unfold len; lia|].
  fold bits in Hdec, Hld |- *. rewrite Hs in *. rewrite bind_Ok. cbv beta iota. rewrite Z.eqb_refl.
  assert (low_digits (Z.to_nat (len pcm)) (2 ^ bits) (digits 256 w) = codes) as Hback.
  { rewrite Hdig, <- Hlc, to_nat_len. rewrite <- (Z.add_0_r (digits _ codes)), <- (Z.mul_0_r ((2 ^ bits) ^ len codes)). apply low_digits_back; [apply Z.pow_pos_nonneg; lia|done]. }
  rewrite Hback, Hd in Hdec. injection Hdec as <- <-. exists outs, g'. split_and!; try done. unfold mret, res_ret.
  rewrite drop_ge by (rewrite length_replicate; unfold len in *; lia). by rewrite app_nil_r.
Qed.

Fixpoint tracked_frames (g : G726) (frames outs : list (list Z)) (g' : G726) : Prop :=
  match frames, outs with
  | [], [] => g' = g
  | pcm :: frames, samples :: outs => exists g1, len samples = len pcm /\ tracked g pcm samples g1 /\ tracked_frames g1 frames outs g'
  | _, _ => False
  end.

Lemma pass_frames_ok frames : forall g, codec_ok g -> Forall (fun pcm => pcm_ok pcm /\ len pcm mod 8 = 0) frames ->
  exists outs g', pass_frames g g frames = Ok (outs, g', g') /\ tracked_frames g frames outs g'.
Proof.
  induction frames as [|pcm frames IH]; intros g Hg Hf; [by exists [], g|]. apply Forall_cons_1 in Hf as [[Hp Hm] Hf].
  destruct (pass_frame_ok g pcm Hg Hp Hm) as (samples & g1 & Hs & Hl & Ht & Hg1). destruct (IH g1 Hg1 Hf) as (outs & g' & Hr & Hts).
  cbn [pass_frames]. rewrite Hs, bind_Ok. cbv beta iota. rewrite Hr, bind_Ok. exists (samples :: outs), g'. split; [done|]. by exists g1.
Qed.

(** C35. A G.726 decoder tracks its encoder.  Frames of a multiple of eight samples,
    any samples at any of the four rates, are encoded, packed into octets, unpacked
    and decoded: after every frame the decoder's adaptive state is the encoder's,
    exactly, so they never drift; a frame comes out with as many samples as went
    in; and every sample is the estimate both ends share plus a difference whose
    level is in the same quantizer cell as the sample's own difference. *)
Theorem g726_decoder_tracks rate ptime_ms frames : Forall (fun pcm => pcm_ok pcm /\ len pcm mod 8 = 0) frames ->
  exists outs g, pass_frames (G726_new rate ptime_ms) (G726_new rate ptime_ms) frames = Ok (outs, g, g) /\
    tracked_frames (G726_new rate ptime_ms) frames outs g.
Proof. intros Hf. apply pass_frames_ok; [apply new_state_ok|done]. Qed.

(** ** Witnesses *)

Lemma g726_well_typed_witness : exists rs g,
  op_run (G726_new R32 20) [Encode_frame [1000; -1000] [7; 7]; Decode_payload [0x00; 0xFF] [1; 1; 1; 1]; Decode_payload [0x12] []; Conceal_frame [5; 6]] = (rs, g) /\
  Forall2 (op_result_ok R32 (g6_params (G726_new R32 20)))
    [Encode_frame [1000; -1000] [7; 7]; Decode_payload [0x00; 0xFF] [1; 1; 1; 1]; Decode_payload [0x12] []; Conceal_frame [5; 6]] rs /\
  state_ok (g6_state g).
Proof. apply g726_well_typed. forall_list; cbn; try done; unfold pcm_ok, bytes_ok, is_i16, is_byte; forall_list; lia. Defined.

Definition demo_pcm : list Z := [0; 3000; 5500; 7000; 7200; -32768; 32767; 12].

Lemma g726_decoder_tracks_witness : exists outs g,
  pass_frames (G726_new R24 20) (G726_new R24 20) [demo_pcm; demo_pcm] = Ok (outs, g, g) /\
  tracked_frames (G726_new R24 20) [demo_pcm; demo_pcm] outs g.
Proof. apply g726_decoder_tracks. unfold demo_pcm, pcm_ok, is_i16. forall_list; (split; [forall_list; lia|done]). Defined.

(** A frame that does not fill its last octet leaves the ends apart: the padding is
    decoded as further samples. *)
Example partial_octet_padding :
  ('(_, out, _) ← G726_encode (G726_new R16 20) [4000] [0];
   '(count, _, _) ← G726_decode (G726_new R16 20) out [0; 0; 0; 0];
   mret count) = Ok 4.
Proof. vm_compute. reflexivity. Qed.
