(* ===== verification/Li.v ===== *)
(** * Lawful-interception framing: crates/siphon-rtp-li

    ETSI TS 103 221-2 X2/X3 PDUs: lib.rs (the encoder), attributes.rs (the TLV
    writer), inbound.rs (the reader of a peer's headers) and clock.rs (absolute
    timestamps).  An array is a list of its length; [usize] has 64 bits. *)

From stdpp Require Import base list numbers option.
From Stdlib Require Import Lia ZArith.
From S2P Require Import Prelude Stun Net.

Open Scope Z_scope.

Definition HEADER_LEN : Z := 40.
Definition VERSION_MAJOR : Z := 0.
Definition VERSION_MINOR : Z := 5.
Definition NIL_CORRELATION_ID : Z := 0.
Definition NIL_XID : bytes := replicate 16 0.

Inductive LiError : Type :=
| ZeroCorrelationId
| HeaderTooLarge (attributes_len : Z)
| PayloadTooLarge (payload_len : Z).

Inductive PduType : Type := X2 | X3 | KeepalivePdu | KeepaliveAcknowledgement.

Definition PduType_to_u16 (t : PduType) : Z :=
  match t with X2 => 1 | X3 => 2 | KeepalivePdu => 3 | KeepaliveAcknowledgement => 4 end.

Definition requires_correlation (t : PduType) : bool := match t with X2 | X3 => true | _ => false end.

Inductive PayloadFormat : Type := KeepaliveFormat | Ipv4Packet | Ipv6Packet | EthernetFrame | RtpPayload | SipMessage.

Definition PayloadFormat_to_u16 (f : PayloadFormat) : Z :=
  match f with KeepaliveFormat => 0 | Ipv4Packet => 5 | Ipv6Packet => 6 | EthernetFrame => 7 | RtpPayload => 8 | SipMessage => 9 end.

Inductive PayloadDirection : Type := KeepaliveDirection | UnknownDirection | ToTarget | FromTarget | MultipleDirection | NotApplicable.

Definition PayloadDirection_to_u16 (d : PayloadDirection) : Z :=
  match d with KeepaliveDirection => 0 | UnknownDirection => 1 | ToTarget => 2 | FromTarget => 3 | MultipleDirection => 4 | NotApplicable => 5 end.

Record PduHeader : Type := mkPduHeader {
  ph_pdu_type : PduType;
  ph_payload_format : PayloadFormat;
  ph_payload_direction : PayloadDirection;
  ph_xid : bytes;
  ph_correlation_id : Z
}.

Definition PduHeader_x3_rtp (xid : bytes) (correlation_id : Z) (payload_direction : PayloadDirection) : PduHeader :=
  mkPduHeader X3 RtpPayload payload_direction xid correlation_id.

Definition PduHeader_keepalive : PduHeader := mkPduHeader KeepalivePdu KeepaliveFormat KeepaliveDirection NIL_XID NIL_CORRELATION_ID.

Definition try_u32 (x : Z) : option Z := if x <? 2 ^ 32 then Some x else None.
Definition checked_add_usize (x y : Z) : option Z := if x + y <? 2 ^ 64 then Some (x + y) else None.

(** The result and the caller's buffer, which an error leaves as it was. *)
Definition li_encode (header : PduHeader) (attributes payload out : bytes) : res LiError unit * bytes :=
  if requires_correlation (ph_pdu_type header) && (ph_correlation_id header =? NIL_CORRELATION_ID) then (Err ZeroCorrelationId, out) else
  match (total ← checked_add_usize HEADER_LEN (len attributes); try_u32 total) with
  | None => (Err (HeaderTooLarge (len attributes)), out)
  | Some header_length =>
      match try_u32 (len payload) with
      | None => (Err (PayloadTooLarge (len payload)), out)
      | Some payload_length =>
          (Ok tt,
           [VERSION_MAJOR; VERSION_MINOR] ++ be_enc 2 (PduType_to_u16 (ph_pdu_type header)) ++ be_enc 4 header_length ++
           be_enc 4 payload_length ++ be_enc 2 (PayloadFormat_to_u16 (ph_payload_format header)) ++
           be_enc 2 (PayloadDirection_to_u16 (ph_payload_direction header)) ++ ph_xid header ++
           be_enc 8 (ph_correlation_id header) ++ attributes ++ payload)
      end
  end.

(** ** Conditional attributes *)

Definition NETWORK_FUNCTION_ID : Z := 6.
Definition INTERCEPTION_POINT_ID : Z := 7.
Definition SEQUENCE_NUMBER : Z := 8.
Definition TIMESTAMP : Z := 9.
Definition SOURCE_IPV4 : Z := 10.
Definition DESTINATION_IPV4 : Z := 11.
Definition SOURCE_IPV6 : Z := 12.
Definition DESTINATION_IPV6 : Z := 13.
Definition SOURCE_PORT : Z := 14.
Definition DESTINATION_PORT : Z := 15.
Definition IP_PROTOCOL : Z := 16.
Definition IP_PROTOCOL_UDP : Z := 17.

(** The writer is the buffer it borrows; each operation appends one attribute. *)
Definition AttributeWriter_new : bytes := [].

Definition attribute_raw (attribute_type : Z) (value out : bytes) : bytes :=
  let value := sub value 0 (Z.min (len value) 0xFFFF) in
  out ++ be_enc 2 attribute_type ++ be_enc 2 (wrap 16 (len value)) ++ value.

Definition attribute_text (attribute_type : Z) (value out : bytes) : bytes := attribute_raw attribute_type value out.
Definition network_function_id (value out : bytes) : bytes := attribute_text NETWORK_FUNCTION_ID value out.
Definition interception_point_id (value out : bytes) : bytes := attribute_text INTERCEPTION_POINT_ID value out.
Definition sequence_number (sequence : Z) (out : bytes) : bytes := attribute_raw SEQUENCE_NUMBER (be_enc 4 sequence) out.
Definition timestamp_attribute (unix_seconds nanoseconds : Z) (out : bytes) : bytes :=
  attribute_raw TIMESTAMP (be_enc 4 unix_seconds ++ be_enc 4 nanoseconds) out.

Definition attribute_address (ip : IpAddr) (ipv4_type ipv6_type : Z) (out : bytes) : bytes :=
  match ip with
  | V4 v4 => attribute_raw ipv4_type (ipv4_octets v4) out
  | V6 v6 => attribute_raw ipv6_type v6 out
  end.
Definition attribute_port (attribute_type port : Z) (out : bytes) : bytes := attribute_raw attribute_type (be_enc 2 port) out.

Definition attribute_source (address : SocketAddr) (out : bytes) : bytes :=
  attribute_port SOURCE_PORT (sa_port address) (attribute_address (sa_ip address) SOURCE_IPV4 SOURCE_IPV6 out).
Definition attribute_destination (address : SocketAddr) (out : bytes) : bytes :=
  attribute_port DESTINATION_PORT (sa_port address) (attribute_address (sa_ip address) DESTINATION_IPV4 DESTINATION_IPV6 out).
Definition ip_protocol (protocol : Z) (out : bytes) : bytes := attribute_raw IP_PROTOCOL [protocol] out.

(** ** A peer's header *)

Inductive ParseError : Type :=
| Incomplete (needed : Z)
| HeaderLengthTooSmall (header_length : Z)
| LengthOverflow.

Record InboundHeader : Type := mkInboundHeader {
  ih_version_major : Z;
  ih_version_minor : Z;
  ih_pdu_type : Z;
  ih_header_length : Z;
  ih_payload_length : Z;
  ih_payload_format : Z;
  ih_payload_direction : Z;
  ih_xid : bytes;
  ih_correlation_id : Z
}.

Definition InboundHeader_parse (bs : bytes) : res ParseError InboundHeader :=
  if len bs <? HEADER_LEN then Err (Incomplete HEADER_LEN) else
  header_length ← be32_at bs 4;
  if header_length <? HEADER_LEN then Err (HeaderLengthTooSmall header_length) else
  xid ← slice bs 16 32;
  correlation ← slice bs 32 40;
  version_major ← idx bs 0;
  version_minor ← idx bs 1;
  pdu_type ← be16_at bs 2;
  payload_length ← be32_at bs 8;
  payload_format ← be16_at bs 12;
  payload_direction ← be16_at bs 14;
  mret (mkInboundHeader version_major version_minor pdu_type header_length payload_length payload_format payload_direction xid
          (be_dec correlation)).

Definition total_len (h : InboundHeader) : res ParseError Z :=
  let total := ih_header_length h + ih_payload_length h in
  if total <? 2 ^ 64 then mret total else Err LengthOverflow.

Definition attributes_len (h : InboundHeader) : res ParseError Z := usub (ih_header_length h) HEADER_LEN.

Definition version_matches (h : InboundHeader) : bool := (ih_version_major h =? VERSION_MAJOR) && (ih_version_minor h =? VERSION_MINOR).

Definition is_keepalive_acknowledgement (h : InboundHeader) : bool := ih_pdu_type h =? PduType_to_u16 KeepaliveAcknowledgement.

(** ** Absolute time *)

Definition NANOS_PER_SECOND : Z := 1000000000.
Definition NANOS_PER_MICROSECOND : Z := 1000.

Record WallClockAnchor : Type := mkWallClockAnchor { wa_wall_unix_nanos : Z; wa_arrival_micros : Z }.

(** [anchored_now] with the clock's reading, zero when it is before the epoch. *)
Definition anchored_now (now arrival_micros : Z) : WallClockAnchor := mkWallClockAnchor (Z.max 0 now) arrival_micros.

Definition WallClockAnchor_timestamp (a : WallClockAnchor) (arrival_micros : Z) : Z * Z :=
  let elapsed_micros := saturating_sub arrival_micros (wa_arrival_micros a) in
  let wall_nanos := saturating_add 128 (wa_wall_unix_nanos a) (saturating_mul 128 elapsed_micros NANOS_PER_MICROSECOND) in
  let seconds := default (2 ^ 32 - 1) (try_u32 (wall_nanos / NANOS_PER_SECOND)) in
  let nanoseconds := wrap 32 (wall_nanos mod NANOS_PER_SECOND) in
  (seconds, nanoseconds).

(** * Proofs *)

(** ** The layout of section 5.2 *)

Definition header_layout (h : InboundHeader) : bytes :=
  [ih_version_major h; ih_version_minor h] ++ be_enc 2 (ih_pdu_type h) ++ be_enc 4 (ih_header_length h) ++ be_enc 4 (ih_payload_length h) ++
  be_enc 2 (ih_payload_format h) ++ be_enc 2 (ih_payload_direction h) ++ ih_xid h ++ be_enc 8 (ih_correlation_id h).

Definition header_ok (h : InboundHeader) : Prop :=
  is_byte (ih_version_major h) /\ is_byte (ih_version_minor h) /\ fits 16 (ih_pdu_type h) /\ 40 <= ih_header_length h < 2 ^ 32 /\
  fits 32 (ih_payload_length h) /\ fits 16 (ih_payload_format h) /\ fits 16 (ih_payload_direction h) /\
  (bytes_ok (ih_xid h) /\ len (ih_xid h) = 16) /\ fits 64 (ih_correlation_id h).

Lemma len_layout h : len (ih_xid h) = 16 -> len (header_layout h) = 40.
Proof. intros Hx. unfold header_layout. rewrite !len_app, !len_be_enc, Hx. done. Qed.

(** Where a field lies in a text. *)
Lemma be16_field {E} l l1 l2 w i : l = l1 ++ be_enc 2 w ++ l2 -> i = len l1 -> fits 16 w -> @be16_at E l i = Ok w.
Proof. intros -> -> Hw. by apply be16_at_app. Qed.
Lemma be32_field {E} l l1 l2 w i : l = l1 ++ be_enc 4 w ++ l2 -> i = len l1 -> fits 32 w -> @be32_at E l i = Ok w.
Proof. intros -> -> Hw. by apply be32_at_app. Qed.
Lemma slice_field {E A} (l l1 m l2 : list A) a b : l = l1 ++ m ++ l2 -> a = len l1 -> b = a + len m -> @slice E A l a b = Ok m.
Proof.
  intros -> -> ->. pose proof (len_nonneg l1). pose proof (len_nonneg m). pose proof (len_nonneg l2). rewrite slice_Ok by (rewrite ?len_app; lia).
  f_equal. by apply sub_app_mid.
Qed.

Lemma parse_layout h rest : header_ok h -> InboundHeader_parse (header_layout h ++ rest) = Ok h.
Proof.
  intros (Hmaj & Hmin & Ht & Hh & Hp & Hf & Hd & [Hxb Hx] & Hc). unfold InboundHeader_parse. pose proof (len_nonneg rest).
  rewrite (proj2 (Z.ltb_ge _ _)) by (rewrite len_app, len_layout by done; unfold HEADER_LEN; lia). set (l := header_layout h ++ rest).
  pose (v := [ih_version_major h; ih_version_minor h]). pose (t := be_enc 2 (ih_pdu_type h)). pose (hl := be_enc 4 (ih_header_length h)).
  pose (pl := be_enc 4 (ih_payload_length h)). pose (f := be_enc 2 (ih_payload_format h)). pose (d := be_enc 2 (ih_payload_direction h)). pose (c := be_enc 8 (ih_correlation_id h)).
  assert (l = v ++ t ++ hl ++ pl ++ f ++ d ++ ih_xid h ++ c ++ rest) as Hl by (unfold l, header_layout; by rewrite <- !app_assoc).
  rewrite (be32_field l (v ++ t) (pl ++ f ++ d ++ ih_xid h ++ c ++ rest) (ih_header_length h) 4), bind_Ok; [|by rewrite Hl, <- !app_assoc|done|unfold fits; lia].
  rewrite (proj2 (Z.ltb_ge _ _)) by (unfold HEADER_LEN; lia).
  rewrite (slice_field l (v ++ t ++ hl ++ pl ++ f ++ d) (ih_xid h) (c ++ rest) 16 32), bind_Ok; [|by rewrite Hl, <- !app_assoc|done|by rewrite Hx].
  rewrite (slice_field l (v ++ t ++ hl ++ pl ++ f ++ d ++ ih_xid h) c rest 32 40), bind_Ok;
    [|by rewrite Hl, <- !app_assoc|rewrite !len_app, Hx; done|unfold c; by rewrite len_be_enc].
  assert (@idx ParseError Z l 0 = Ok (ih_version_major h)) as -> by (by rewrite Hl). assert (@idx ParseError Z l 1 = Ok (ih_version_minor h)) as -> by (by rewrite Hl). rewrite !bind_Ok.
  rewrite (be16_field l v (hl ++ pl ++ f ++ d ++ ih_xid h ++ c ++ rest) (ih_pdu_type h) 2), bind_Ok by done.
  rewrite (be32_field l (v ++ t ++ hl) (f ++ d ++ ih_xid h ++ c ++ rest) (ih_payload_length h) 8), bind_Ok; [|by rewrite Hl, <- !app_assoc|done|done].
  rewrite (be16_field l (v ++ t ++ hl ++ pl) (d ++ ih_xid h ++ c ++ rest) (ih_payload_format h) 12), bind_Ok; [|by rewrite Hl, <- !app_assoc|done|done].
  rewrite (be16_field l (v ++ t ++ hl ++ pl ++ f) (ih_xid h ++ c ++ rest) (ih_payload_direction h) 14), bind_Ok; [|by rewrite Hl, <- !app_assoc|done|done].
  unfold c. rewrite (be_dec_enc_fits 8) by done. by destruct h.
Qed.

Lemma be_enc_sub l a n : bytes_ok l -> 0 <= a -> a + Z.of_nat n <= len l -> be_enc n (be_dec (sub l a (a + Z.of_nat n))) = sub l a (a + Z.of_nat n).
Proof.
  intros Hb Ha Hl. rewrite <- (be_enc_dec (sub l a (a + Z.of_nat n))) at 2 by (by apply bytes_ok_sub). f_equal.
  assert (len (sub l a (a + Z.of_nat n)) = Z.of_nat n) as H by (rewrite len_sub; lia). unfold len in H. lia.
Qed.

Lemma be_dec_sub_fits l a n : bytes_ok l -> 0 <= a -> a + Z.of_nat n <= len l -> 0 <= be_dec (sub l a (a + Z.of_nat n)) < 256 ^ Z.of_nat n.
Proof.
  intros Hb Ha Hl. pose proof (be_dec_bound (sub l a (a + Z.of_nat n)) (bytes_ok_sub l a _ Hb)) as H. rewrite len_sub in H by lia.
  by replace (a + Z.of_nat n - a) with (Z.of_nat n) in H by lia.
Qed.

(** The reader accepts exactly what is long enough and declares at least the fixed
    header, and returns the fields laid out there. *)
Lemma parse_spec bs : bytes_ok bs ->
  match InboundHeader_parse bs with
  | Ok h => header_ok h /\ exists rest, bs = header_layout h ++ rest
  | Err (Incomplete needed) => len bs < 40 /\ needed = 40
  | Err (HeaderLengthTooSmall n) => 40 <= len bs /\ n = be_dec (sub bs 4 8) /\ n < 40
  | Err LengthOverflow | Panic => False
  end.
Proof.
  intros Hb. unfold InboundHeader_parse. destruct (Z.ltb_spec (len bs) HEADER_LEN) as [Hl|Hl]; unfold HEADER_LEN in *; [done|].
  rewrite !be32_at_sub, !be16_at_sub, !idx_byte_of, !slice_Ok by lia. rewrite bind_Ok.
  pose proof (fun a n => be_dec_sub_fits bs a n Hb) as Hfit. pose proof (fun a n => be_enc_sub bs a n Hb) as Henc.
  destruct (Z.ltb_spec (be_dec (sub bs 4 (4 + 4))) 40) as [Hs|Hs]; [done|]. rewrite !bind_Ok. unfold mret, res_ret. split.
  - split_and!; cbn [ih_version_major ih_version_minor ih_pdu_type ih_header_length ih_payload_length ih_payload_format ih_payload_direction ih_xid ih_correlation_id].
    + apply byte_of_is_byte; [done|lia].
    + apply byte_of_is_byte; [done|lia].
    + apply (Hfit 2 2%nat); lia.
    + done.
    + apply (Hfit 4 4%nat); lia.
    + apply (Hfit 8 4%nat); lia.
    + apply (Hfit 12 2%nat); lia.
    + apply (Hfit 14 2%nat); lia.
    + by apply bytes_ok_sub.
    + rewrite len_sub; lia.
    + apply (Hfit 32 8%nat); lia.
  - exists (sub bs 40 (len bs)). unfold header_layout. cbn [ih_version_major ih_version_minor ih_pdu_type ih_header_length ih_payload_length ih_payload_format ih_payload_direction ih_xid ih_correlation_id].
    change (2 + 2) with (2 + Z.of_nat 2). change (4 + 4) with (4 + Z.of_nat 4). change (8 + 4) with (8 + Z.of_nat 4). change (12 + 2) with (12 + Z.of_nat 2).
    change (14 + 2) with (14 + Z.of_nat 2). change (sub bs 32 40) with (sub bs 32 (32 + Z.of_nat 8)). rewrite !Henc by lia. rewrite <- (sub_full bs) at 1.
    rewrite (sub_split bs 0 1 (len bs)), (sub_split bs 1 2 (len bs)), (sub_split bs 2 4 (len bs)), (sub_split bs 4 8 (len bs)), (sub_split bs 8 12 (len bs)), (sub_split bs 12 14 (len bs)),
      (sub_split bs 14 16 (len bs)), (sub_split bs 16 32 (len bs)), (sub_split bs 32 40 (len bs)) by lia.
    change (sub bs 0 1) with (sub bs 0 (0 + 1)). change (sub bs 1 2) with (sub bs 1 (1 + 1)). rewrite !sub_byte_of by lia. by rewrite <- !app_assoc.
Qed.

(** ** A mediation function's side

    What the format lets a receiver read: attributes one behind another, and PDUs
    split by their declared lengths. *)

Fixpoint read_attributes (fuel : nat) (block : bytes) : option (list (Z * bytes)) :=
  match block, fuel with
  | [], _ => Some []
  | _ :: _, O => None
  | _ :: _, S fuel =>
      attribute_type ← get_range block 0 2;
      length_field ← get_range block 2 4;
      let n := be_dec length_field in
      value ← get_range block 4 (4 + n);
      rest ← get_range block (4 + n) (len block);
      attributes ← read_attributes fuel rest;
      Some ((be_dec attribute_type, value) :: attributes)
  end.

Record Pdu : Type := mkPdu { pdu_header : InboundHeader; pdu_attributes : list (Z * bytes); pdu_payload : bytes }.

(** The next PDU of a stream and what follows it, once it is all there. *)
Definition read_pdu (stream : bytes) : option (Pdu * bytes) :=
  match InboundHeader_parse stream with
  | Ok h =>
      match total_len h with
      | Ok n =>
          block ← get_range stream HEADER_LEN (ih_header_length h);
          payload ← get_range stream (ih_header_length h) n;
          rest ← get_range stream n (len stream);
          attributes ← read_attributes (length block) block;
          Some (mkPdu h attributes payload, rest)
      | _ => None
      end
  | _ => None
  end.

Fixpoint read_stream (fuel : nat) (stream : bytes) : list Pdu * bytes :=
  match fuel with
  | O => ([], stream)
  | S fuel =>
      match read_pdu stream with
      | Some (pdu, rest) => let '(pdus, rest) := read_stream fuel rest in (pdu :: pdus, rest)
      | None => ([], stream)
      end
  end.

(** *** Attributes *)

Definition attribute_ok (a : Z * bytes) : Prop := fits 16 (fst a) /\ len (snd a) <= 0xFFFF.
Definition tlv (a : Z * bytes) : bytes := be_enc 2 (fst a) ++ be_enc 2 (len (snd a)) ++ snd a.

Lemma get_field {A} (l l1 m l2 : list A) a b : l = l1 ++ m ++ l2 -> a = len l1 -> b = a + len m -> get_range l a b = Some m.
Proof.
  intros -> -> ->. pose proof (len_nonneg l1). pose proof (len_nonneg m). pose proof (len_nonneg l2). rewrite get_range_Some by (rewrite ?len_app; lia).
  f_equal. by apply sub_app_mid.
Qed.

Lemma len_tlv a : len (tlv a) = 4 + len (snd a).
Proof. unfold tlv. rewrite !len_app, !len_be_enc. lia. Qed.

Lemma read_tlv fuel a block : attribute_ok a -> read_attributes (S fuel) (tlv a ++ block) =
  (attributes ← read_attributes fuel block; Some (a :: attributes)).
Proof.
  intros [Ht Hl]. destruct a as [t v]. cbn [fst snd] in *. pose proof (len_nonneg v). set (l := tlv (t, v) ++ block).
  assert (l = be_enc 2 t ++ be_enc 2 (len v) ++ v ++ block) as Hll by (unfold l, tlv; cbn [fst snd]; by rewrite <- !app_assoc).
  destruct l as [|x l'] eqn:E; [done|]. rewrite <- E in *. clear l' E. cbn [read_attributes]. destruct l as [|y l']; [done|].
  rewrite Hll. rewrite (get_field _ [] (be_enc 2 t) (be_enc 2 (len v) ++ v ++ block) 0 2) by done. cbn [mbind option_bind].
  rewrite (get_field _ (be_enc 2 t) (be_enc 2 (len v)) (v ++ block) 2 4) by done. cbn [mbind option_bind]. cbv zeta.
  rewrite (be_dec_enc_fits 2 (len v)) by (change (256 ^ Z.of_nat 2) with 65536; lia).
  rewrite (get_field _ (be_enc 2 t ++ be_enc 2 (len v)) v block 4 (4 + len v)) by (rewrite <- ?app_assoc; done). cbn [mbind option_bind].
  rewrite (get_field _ (be_enc 2 t ++ be_enc 2 (len v) ++ v) block [] (4 + len v)); [|by rewrite app_nil_r, <- !app_assoc|rewrite !len_app, !len_be_enc; lia|rewrite !len_app, !len_be_enc; lia].
  cbn [mbind option_bind]. by rewrite (be_dec_enc_fits 2) by exact Ht.
Qed.

Lemma read_tlvs attributes : Forall attribute_ok attributes -> forall fuel, (length attributes <= fuel)%nat -> read_attributes fuel (concat (tlv <$> attributes)) = Some attributes.
Proof.
  induction 1 as [|a attributes Ha _ IH]; intros fuel Hf; [by destruct fuel|]. destruct fuel as [|fuel]; cbn [length] in Hf; [lia|].
  rewrite fmap_cons. cbn [concat]. rewrite read_tlv, IH by (done || lia). done.
Qed.

Lemma tlvs_length attributes : (length attributes <= length (concat (tlv <$> attributes)))%nat.
Proof.
  induction attributes as [|a attributes IH]; [done|]. rewrite fmap_cons. cbn [concat length]. rewrite length_app. pose proof (len_tlv a) as Hl. pose proof (len_nonneg (snd a)). unfold len in *. lia.
Qed.

Lemma len_tlvs attributes : len (concat (tlv <$> attributes)) = foldr (fun a n => 4 + len (snd a) + n) 0 attributes.
Proof. induction attributes as [|a attributes IH]; [done|]. rewrite fmap_cons. cbn [concat foldr]. by rewrite len_app, len_tlv, IH. Qed.

Lemma raw_tlv t v out : attribute_raw t v out = out ++ tlv (t, take (Z.to_nat 0xFFFF) v).
Proof.
  unfold attribute_raw, tlv. cbv zeta. cbn [fst snd]. pose proof (len_nonneg v).
  assert (sub v 0 (Z.min (len v) 65535) = take (Z.to_nat 65535) v) as ->.
  { unfold sub. rewrite drop_0, Z.sub_0_r. destruct (Z.le_gt_cases (len v) 65535).
    - rewrite Z.min_l, to_nat_len, !take_ge by (unfold len in *; lia). done.
    - by rewrite Z.min_r by lia. }
  pose proof (len_take v (Z.to_nat 65535)) as Hl. unfold wrap. rewrite Z.mod_small; [done|]. rewrite Hl. rewrite Z2Nat.id by done. change (2 ^ 16) with 65536. lia.
Qed.

(** *** PDUs *)

Definition inbound_of (header : PduHeader) (attributes payload : bytes) : InboundHeader :=
  mkInboundHeader VERSION_MAJOR VERSION_MINOR (PduType_to_u16 (ph_pdu_type header)) (HEADER_LEN + len attributes) (len payload)
    (PayloadFormat_to_u16 (ph_payload_format header)) (PayloadDirection_to_u16 (ph_payload_direction header)) (ph_xid header) (ph_correlation_id header).

Definition pdu_header_ok (h : PduHeader) : Prop := bytes_ok (ph_xid h) /\ len (ph_xid h) = 16 /\ fits 64 (ph_correlation_id h).

(** What the encoder does: the three refusals, and the layout. *)
Definition encodable (header : PduHeader) (attributes payload : bytes) : Prop :=
  (requires_correlation (ph_pdu_type header) = true -> ph_correlation_id header <> 0) /\ HEADER_LEN + len attributes < 2 ^ 32 /\ len payload < 2 ^ 32.

Lemma encode_spec header attributes payload out :
  match li_encode header attributes payload out with
  | (Ok _, pdu) => encodable header attributes payload /\ pdu = header_layout (inbound_of header attributes payload) ++ attributes ++ payload
  | (Err ZeroCorrelationId, out') => requires_correlation (ph_pdu_type header) = true /\ ph_correlation_id header = 0 /\ out' = out
  | (Err (HeaderTooLarge n), out') => n = len attributes /\ 2 ^ 32 <= HEADER_LEN + n /\ out' = out
  | (Err (PayloadTooLarge n), out') => n = len payload /\ 2 ^ 32 <= n /\ out' = out
  | (Panic, _) => False
  end.
Proof.
  unfold li_encode, encodable. destruct (requires_correlation _ && _) eqn:E.
  { apply andb_true_iff in E as [E1 E2]. apply Z.eqb_eq in E2. done. }
  assert (requires_correlation (ph_pdu_type header) = true -> ph_correlation_id header <> 0) as Hc.
  { intros Hr. rewrite Hr in E. cbn in E. by apply Z.eqb_neq in E. }
  unfold checked_add_usize, try_u32. destruct (Z.ltb_spec (HEADER_LEN + len attributes) (2 ^ 64)); cbn [mbind option_bind]; [|split_and!; try done; lia].
  destruct (Z.ltb_spec (HEADER_LEN + len attributes) (2 ^ 32)); [|split_and!; done]. destruct (Z.ltb_spec (len payload) (2 ^ 32)); [|split_and!; done].
  split; [split_and!; done|]. unfold header_layout, inbound_of. cbn [ih_version_major ih_version_minor ih_pdu_type ih_header_length ih_payload_length ih_payload_format ih_payload_direction ih_xid ih_correlation_id].
  by rewrite <- !app_assoc.
Qed.

Lemma inbound_ok header attributes payload : pdu_header_ok header -> encodable header attributes payload -> header_ok (inbound_of header attributes payload).
Proof.
  intros (Hx & Hlx & Hc) (_ & Hh & Hp). pose proof (len_nonneg attributes). pose proof (len_nonneg payload). unfold HEADER_LEN in *.
  split_and!; cbn [inbound_of ih_version_major ih_version_minor ih_pdu_type ih_header_length ih_payload_length ih_payload_format ih_payload_direction ih_xid ih_correlation_id]; try done; unfold HEADER_LEN; try lia.
  - unfold fits. by destruct (ph_pdu_type header).
  - unfold fits. by destruct (ph_payload_format header).
  - unfold fits. by destruct (ph_payload_direction header).
Qed.

(** An item a sender frames. *)
Record Item : Type := mkItem { it_header : PduHeader; it_attributes : list (Z * bytes); it_payload : bytes }.

Definition item_block (i : Item) : bytes := concat (tlv <$> it_attributes i).
Definition item_bytes (i : Item) : bytes := snd (li_encode (it_header i) (item_block i) (it_payload i) []).
Definition item_pdu (i : Item) : Pdu := mkPdu (inbound_of (it_header i) (item_block i) (it_payload i)) (it_attributes i) (it_payload i).
Definition item_ok (i : Item) : Prop :=
  pdu_header_ok (it_header i) /\ Forall attribute_ok (it_attributes i) /\ encodable (it_header i) (item_block i) (it_payload i).

Lemma item_layout i : item_ok i -> item_bytes i = header_layout (pdu_header (item_pdu i)) ++ item_block i ++ it_payload i.
Proof.
  intros (Hh & Ha & He). unfold item_bytes. pose proof (encode_spec (it_header i) (item_block i) (it_payload i) []) as H. destruct He as (H1 & H2 & H3).
  destruct (li_encode _ _ _ _) as [[u|e|] o]; [by destruct H as [_ ->]| |done]. exfalso. destruct e; destruct H as (? & ? & _); subst; lia || tauto.
Qed.

Lemma read_item i rest : item_ok i -> read_pdu (item_bytes i ++ rest) = Some (item_pdu i, rest).
Proof.
  intros Hi. pose proof Hi as (Hh & Ha & He). rewrite item_layout by done. rewrite <- !app_assoc. set (h := pdu_header (item_pdu i)).
  pose proof (inbound_ok _ _ _ Hh He) as Hok. change (inbound_of _ _ _) with h in Hok. unfold read_pdu. rewrite parse_layout by done.
  set (block := item_block i) in *. destruct He as (_ & Hb & Hp). pose proof (len_nonneg block). pose proof (len_nonneg (it_payload i)). pose proof (len_nonneg rest).
  assert (len (header_layout h) = 40) as Hl40 by (apply len_layout; by destruct Hh as (_ & ? & _)).
  unfold total_len. change (ih_header_length h) with (HEADER_LEN + len block). change (ih_payload_length h) with (len (it_payload i)). unfold HEADER_LEN in *.
  rewrite (proj2 (Z.ltb_lt _ _)) by lia. unfold mret, res_ret.
  rewrite (get_field _ (header_layout h) block (it_payload i ++ rest) 40 (40 + len block)) by (done || lia). cbn [mbind option_bind].
  rewrite (get_field _ (header_layout h ++ block) (it_payload i) rest (40 + len block)); [|by rewrite <- !app_assoc|rewrite len_app; lia|lia]. cbn [mbind option_bind].
  rewrite (get_field _ (header_layout h ++ block ++ it_payload i) rest [] (40 + len block + len (it_payload i))); [|by rewrite app_nil_r, <- !app_assoc|rewrite !len_app; lia|rewrite !len_app; lia].
  cbn [mbind option_bind]. unfold block, item_block. rewrite read_tlvs by (done || apply tlvs_length). done.
Qed.

Lemma item_bytes_long i : item_ok i -> 40 <= len (item_bytes i).
Proof.
  intros Hi. rewrite item_layout, !len_app by done. destruct Hi as ((_ & Hx & _) & _). rewrite len_layout by done. pose proof (len_nonneg (item_block i)). pose proof (len_nonneg (it_payload i)). lia.
Qed.

(** A stream of items is read as those items, and what is left over. *)
Lemma read_items items : Forall item_ok items -> forall tail fuel, read_pdu tail = None -> (length items <= fuel)%nat ->
  read_stream fuel (concat (item_bytes <$> items) ++ tail) = (item_pdu <$> items, tail).
Proof.
  induction 1 as [|i items Hi _ IH]; intros tail fuel Ht Hf. { cbn [fmap list_fmap concat app]. destruct fuel; cbn [read_stream]; [done|by rewrite Ht]. }
  destruct fuel as [|fuel]; cbn [length] in Hf; [lia|]. rewrite !fmap_cons. cbn [concat read_stream]. rewrite <- app_assoc, read_item by done. by rewrite (IH tail fuel) by (done || lia).
Qed.

Lemma items_length items tail : Forall item_ok items -> (length items <= length (concat (item_bytes <$> items) ++ tail))%nat.
Proof.
  induction 1 as [|i items Hi _ IH]; [cbn; lia|]. rewrite fmap_cons. cbn [concat length]. rewrite <- app_assoc, length_app. pose proof (item_bytes_long i Hi). unfold len in *. lia.
Qed.

(** A proper prefix of an item is not read. *)
Lemma cut_item i n : item_ok i -> 0 <= n < len (item_bytes i) -> read_pdu (take (Z.to_nat n) (item_bytes i)) = None.
Proof.
  intros Hi Hn. pose proof Hi as (Hh & _ & He). set (cut := take _ _). assert (len cut = n) as Hl by (unfold cut; rewrite len_take; lia).
  unfold read_pdu. destruct (InboundHeader_parse cut) as [h| |] eqn:E; [|done..]. 
  assert (InboundHeader_parse (item_bytes i) = Ok h) as E2.
  { unfold InboundHeader_parse in E |- *. destruct (Z.ltb_spec (len cut) HEADER_LEN) as [|H40]; [done|]. unfold HEADER_LEN in *. rewrite (proj2 (Z.ltb_ge _ _)) by lia.
    assert (forall a b, 0 <= a <= b -> b <= 40 -> sub cut a b = sub (item_bytes i) a b) as Hsub.
    { intros a b Hab Hb. unfold cut. rewrite <- (take_drop (Z.to_nat n) (item_bytes i)) at 2. symmetry. apply sub_app_l; [lia|]. fold cut. lia. }
    assert (forall a, 0 <= a < 40 -> byte_of cut a = byte_of (item_bytes i) a) as Hbyte.
    { intros a Hab. unfold cut. rewrite <- (take_drop (Z.to_nat n) (item_bytes i)) at 2. symmetry. apply byte_of_app_l. fold cut. lia. }
    rewrite !be32_at_sub, !be16_at_sub, !idx_byte_of, !slice_Ok in E |- * by lia. rewrite !Hsub, !Hbyte in E by lia. exact E. }
  rewrite <- (app_nil_r (item_bytes i)), item_layout, <- !app_assoc, parse_layout in E2 by (done || by apply inbound_ok). injection E2 as <-. set (h := inbound_of _ _ _).
  unfold total_len. cbv zeta. destruct (_ <? 2 ^ 64); [|done]. unfold mret, res_ret.
  assert (get_range cut (ih_header_length h) (ih_header_length h + ih_payload_length h) = None) as ->; [|by destruct (get_range cut HEADER_LEN _)].
  apply get_range_None_iff. rewrite Hl. rewrite item_layout, !len_app, len_layout in Hn by (done || by destruct Hh as (_ & ? & _)).
  unfold h. cbn [inbound_of ih_header_length ih_payload_length]. unfold HEADER_LEN. intros [_ H]. lia.
Qed.

(** ** Time *)

(** Until the seconds field runs out in 2106, a timestamp is the anchor's time plus
    the receive clock's advance since. *)
Lemma timestamp_exact a arrival : 0 <= wa_wall_unix_nanos a -> wa_arrival_micros a <= arrival ->
  wa_wall_unix_nanos a + 1000 * (arrival - wa_arrival_micros a) < 2 ^ 32 * 10 ^ 9 ->
  let '(seconds, nanoseconds) := WallClockAnchor_timestamp a arrival in
  0 <= nanoseconds < 10 ^ 9 /\ fits 32 seconds /\ seconds * 10 ^ 9 + nanoseconds = wa_wall_unix_nanos a + 1000 * (arrival - wa_arrival_micros a).
Proof.
  intros Hw Ha Hb. unfold WallClockAnchor_timestamp, saturating_sub, saturating_add, saturating_mul, NANOS_PER_MICROSECOND, NANOS_PER_SECOND, try_u32. cbv zeta.
  change (2 ^ 32) with 4294967296 in *. change (10 ^ 9) with 1000000000 in *. change (2 ^ 128) with 340282366920938463463374607431768211456.
  rewrite (Z.max_r 0) by lia. rewrite !Z.min_l by lia. set (w := wa_wall_unix_nanos a + _). assert (w = wa_wall_unix_nanos a + 1000 * (arrival - wa_arrival_micros a)) as <- by (unfold w; lia).
  assert (0 <= w < 4294967296 * 1000000000) as Hw' by (unfold w; lia). clearbody w. clear - Hw'.
  pose proof (Z.div_mod w 1000000000 ltac:(done)). pose proof (Z.mod_pos_bound w 1000000000 ltac:(done)).
  assert (0 <= w / 1000000000 < 4294967296) as Hd by (split; [apply Z.div_pos|apply Z.div_lt_upper_bound]; lia). rewrite (proj2 (Z.ltb_lt _ _)) by lia. cbn [default from_option]. unfold id.
  unfold wrap. change (2 ^ 32) with 4294967296. rewrite (Z.mod_small (w mod 1000000000)) by lia. unfold fits. change (2 ^ 32) with 4294967296. lia.
Qed.


(** ** Witnesses *)

Definition demo_item : Item :=
  mkItem (PduHeader_x3_rtp (replicate 16 7) 9 FromTarget) [(NETWORK_FUNCTION_ID, [110; 49]); (SEQUENCE_NUMBER, [0; 0; 0; 0]); (IP_PROTOCOL, [17])] [0x80; 0; 0; 1].

Definition demo_stream : bytes := concat (item_bytes <$> [demo_item; demo_item]) ++ take (Z.to_nat 41) (item_bytes demo_item).

Lemma demo_item_ok : item_ok demo_item.
Proof.
  unfold item_ok, pdu_header_ok, encodable. split_and!; try done.
  - apply (Forall_replicate is_byte). unfold is_byte. lia.
  - unfold demo_item. cbn [it_attributes]. forall_list; (split; [unfold fits, NETWORK_FUNCTION_ID, SEQUENCE_NUMBER, IP_PROTOCOL; cbn [fst]; lia|done]).
Qed.

