(* ===== verification/X3.v ===== *)
(** * Delivery of intercepted media: crates/siphon-rtp-engine/src/x3.rs

    The taps on the media path, the bounded buffer between them and the delivery
    task, and that task: connecting, framing, numbering, keeping what a failed
    connection did not take.  The [flume] channels are an interface with their
    documented laws.  The connection is the environment: whether it is made, what
    a write hands over before it fails, what the peer does, the clock's reading and
    which ready arm of the [select!] is taken are inputs of a step. *)

From stdpp Require Import base list numbers option.
From Stdlib Require Import Lia ZArith.
From S2P Require Import Prelude Stun Net Li.

Open Scope Z_scope.

Definition RECONNECT_BACKOFF_MIN : Z := 250.
Definition RECONNECT_BACKOFF_MAX : Z := 30000.

(** ** Bounded channels *)

Class Channel (C : Type -> Type) : Type := {
  bounded : forall A, Z -> C A;
  try_send : forall A, C A -> A -> option (C A);
  try_recv : forall A, C A -> option (A * C A);
  is_empty : forall A, C A -> bool
}.
Arguments bounded {C _} A.
Arguments try_send {C _ A}.
Arguments try_recv {C _ A}.
Arguments is_empty {C _ A}.

(** First in, first out, never more than its capacity. *)
Class ChannelLaws (C : Type -> Type) {channel : Channel C} : Type := {
  view : forall A, C A -> list A;
  capacity : forall A, C A -> Z;
  bounded_law A n : view A (bounded A n) = [] /\ capacity A (bounded A n) = n;
  send_law A (c : C A) x : match try_send c x with
    | Some c' => len (view A c) < capacity A c /\ view A c' = view A c ++ [x] /\ capacity A c' = capacity A c
    | None => capacity A c <= len (view A c)
    end;
  recv_law A (c : C A) : match try_recv c with
    | Some (x, c') => view A c = x :: view A c' /\ capacity A c' = capacity A c
    | None => view A c = []
    end;
  empty_law A (c : C A) : is_empty c = true <-> view A c = []
}.
Arguments view {C _ _ A}.
Arguments capacity {C _ _ A}.

Section delivery.
Context {C : Type -> Type} `{Channel C}.

Record X3Packet : Type := mkX3Packet {
  xp_source : SocketAddr;
  xp_destination : SocketAddr;
  xp_arrival_micros : Z;
  xp_direction : PayloadDirection;
  xp_payload : bytes
}.

Record X3Tap : Type := mkX3Tap { xt_destination : SocketAddr; xt_direction : PayloadDirection }.

(** What taps and task share: both channels, whether either side still exists, the
    counters. *)
Record X3Shared : Type := mkX3Shared {
  sh_packets : C X3Packet;
  sh_recycle : C bytes;
  sh_taps : bool;
  sh_task : bool;
  sh_delivered : Z;
  sh_dropped : Z
}.

Definition set_packets (s : X3Shared) (packets : C X3Packet) : X3Shared :=
  mkX3Shared packets (sh_recycle s) (sh_taps s) (sh_task s) (sh_delivered s) (sh_dropped s).
Definition set_recycle (s : X3Shared) (recycle : C bytes) : X3Shared :=
  mkX3Shared (sh_packets s) recycle (sh_taps s) (sh_task s) (sh_delivered s) (sh_dropped s).
Definition drop_taps (s : X3Shared) : X3Shared := mkX3Shared (sh_packets s) (sh_recycle s) false (sh_task s) (sh_delivered s) (sh_dropped s).
Definition drop_task (s : X3Shared) : X3Shared := mkX3Shared (sh_packets s) (sh_recycle s) (sh_taps s) false (sh_delivered s) (sh_dropped s).
Definition count_delivered (s : X3Shared) : X3Shared :=
  mkX3Shared (sh_packets s) (sh_recycle s) (sh_taps s) (sh_task s) (wrapping_add 64 (sh_delivered s) 1) (sh_dropped s).
Definition count_dropped (s : X3Shared) : X3Shared :=
  mkX3Shared (sh_packets s) (sh_recycle s) (sh_taps s) (sh_task s) (sh_delivered s) (wrapping_add 64 (sh_dropped s) 1).

Definition x3_channel (buffer_packets : Z) : X3Shared :=
  let capacity := Z.max buffer_packets 1 in
  mkX3Shared (bounded X3Packet capacity) (bounded bytes capacity) true true 0 0.

Definition X3TapFactory_tap (destination : SocketAddr) (direction : PayloadDirection) : X3Tap := mkX3Tap destination direction.

Definition ingress_directions (target_is_caller : bool) : PayloadDirection * PayloadDirection :=
  if target_is_caller then (FromTarget, ToTarget) else (ToTarget, FromTarget).

(** [let _ = recycle.try_send(buffer)]: a full pool frees the buffer. *)
Definition give_back (s : X3Shared) (buffer : bytes) : X3Shared :=
  match try_send (sh_recycle s) buffer with Some recycle => set_recycle s recycle | None => s end.

Definition X3Tap_deliver (s : X3Shared) (tap : X3Tap) (source : SocketAddr) (arrival_micros : Z) (data : bytes) : X3Shared :=
  match data with
  | _ :: marker_and_type :: _ =>
      let packet_type := Z.land marker_and_type 0x7F in
      if (64 <=? packet_type) && (packet_type <=? 95) then s else
      let s := match try_recv (sh_recycle s) with Some (_, recycle) => set_recycle s recycle | None => s end in
      let packet := mkX3Packet source (xt_destination tap) arrival_micros (xt_direction tap) data in
      match (if sh_task s then try_send (sh_packets s) packet else None) with
      | Some packets => set_packets s packets
      | None => count_dropped (give_back s data)
      end
  | _ => s
  end.

(** ** The delivery task *)

Record X3DeliveryTask : Type := mkX3DeliveryTask {
  dt_xid : bytes;
  dt_correlation_id : Z;
  dt_network_function_id : bytes;
  dt_interception_point_id : bytes
}.

Inductive x3_phase : Type :=
| Dialing
| Serving (sequence : Z)
| Sleeping
| Ended.

(** The task's variables, and where it is. *)
Record X3Run : Type := mkX3Run {
  xr_shared : X3Shared;
  xr_backoff : Z;
  xr_reported_drops : Z;
  xr_anchor : option WallClockAnchor;
  xr_pending : option X3Packet;
  xr_phase : x3_phase
}.

Inductive x3_output : Type :=
| Opened
| Wrote (pdu : bytes) (cut : option Z)
| Slept (ms : Z)
| Loss (dropped delivered : Z).

Definition with_shared (r : X3Run) (s : X3Shared) : X3Run :=
  mkX3Run s (xr_backoff r) (xr_reported_drops r) (xr_anchor r) (xr_pending r) (xr_phase r).
Definition with_phase (r : X3Run) (p : x3_phase) : X3Run :=
  mkX3Run (xr_shared r) (xr_backoff r) (xr_reported_drops r) (xr_anchor r) (xr_pending r) p.
Definition with_backoff (r : X3Run) (ms : Z) : X3Run :=
  mkX3Run (xr_shared r) ms (xr_reported_drops r) (xr_anchor r) (xr_pending r) (xr_phase r).
Definition with_pending (r : X3Run) (p : option X3Packet) : X3Run :=
  mkX3Run (xr_shared r) (xr_backoff r) (xr_reported_drops r) (xr_anchor r) p (xr_phase r).
Definition with_anchor (r : X3Run) (a : WallClockAnchor) : X3Run :=
  mkX3Run (xr_shared r) (xr_backoff r) (xr_reported_drops r) (Some a) (xr_pending r) (xr_phase r).

Definition report_loss (r : X3Run) : X3Run * list x3_output :=
  let dropped := sh_dropped (xr_shared r) in
  if xr_reported_drops r <? dropped then
    (mkX3Run (xr_shared r) (xr_backoff r) dropped (xr_anchor r) (xr_pending r) (xr_phase r),
     [Loss dropped (sh_delivered (xr_shared r))])
  else (r, []).

(** The top of the task's loop; a task that ends drops its side of the channels. *)
Definition loop_top (r : X3Run) : X3Run :=
  if negb (sh_taps (xr_shared r)) && is_empty (sh_packets (xr_shared r))
  then with_phase (with_shared r (drop_task (xr_shared r))) Ended
  else with_phase r Dialing.

Definition run_x3_delivery (buffer_packets : Z) : X3Run :=
  loop_top (mkX3Run (x3_channel buffer_packets) RECONNECT_BACKOFF_MIN 0 None None Dialing).

(** The sleep before another attempt. *)
Definition go_to_sleep (r : X3Run) : X3Run * list x3_output := (with_phase r Sleeping, [Slept (xr_backoff r)]).
Definition woken (r : X3Run) : X3Run := loop_top (with_backoff r (Z.min (xr_backoff r * 2) RECONNECT_BACKOFF_MAX)).

Definition dialed (r : X3Run) (connected : bool) : X3Run * list x3_output :=
  if connected then
    let r := with_backoff r RECONNECT_BACKOFF_MIN in
    let '(r, loss) := report_loss r in
    (with_phase r (Serving 0), Opened :: loss)
  else
    let '(r, loss) := report_loss r in
    let '(r, slept) := go_to_sleep r in
    (r, loss ++ slept).

Definition packet_attributes (task : X3DeliveryTask) (packet : X3Packet) (sequence seconds nanoseconds : Z) : bytes :=
  ip_protocol IP_PROTOCOL_UDP
    (attribute_destination (xp_destination packet)
       (attribute_source (xp_source packet)
          (timestamp_attribute seconds nanoseconds
             (sequence_number sequence
                (interception_point_id (dt_interception_point_id task)
                   (network_function_id (dt_network_function_id task) AttributeWriter_new)))))).

(** One turn of the connection's loop with a packet in hand; [now] is the clock read
    if there is no anchor yet, [cut] what a failing write handed over. *)
Definition serve_packet (task : X3DeliveryTask) (r : X3Run) (sequence : Z) (packet : X3Packet) (now : Z) (cut : option Z)
  : X3Run * list x3_output :=
  let clock := default (anchored_now now (xp_arrival_micros packet)) (xr_anchor r) in
  let r := with_anchor r clock in
  let '(seconds, nanoseconds) := WallClockAnchor_timestamp clock (xp_arrival_micros packet) in
  let attributes := packet_attributes task packet sequence seconds nanoseconds in
  let header := PduHeader_x3_rtp (dt_xid task) (dt_correlation_id task) (xp_direction packet) in
  match li_encode header attributes (xp_payload packet) [] with
  | (Ok _, pdu) =>
      match cut with
      | Some _ =>
          let '(r, slept) := go_to_sleep (with_pending r (Some packet)) in
          (r, Wrote pdu cut :: slept)
      | None =>
          let s := give_back (count_delivered (xr_shared r)) (xp_payload packet) in
          (with_phase (with_shared r s) (Serving (wrapping_add 32 sequence 1)), [Wrote pdu None])
      end
  | _ => (with_shared r (give_back (xr_shared r) (xp_payload packet)), [])
  end.

Definition serve_keepalive (r : X3Run) (cut : option Z) : X3Run * list x3_output :=
  match li_encode PduHeader_keepalive [] [] [] with
  | (Ok _, pdu) =>
      match cut with
      | Some _ => let '(r, slept) := go_to_sleep r in (r, Wrote pdu cut :: slept)
      | None => (r, [Wrote pdu None])
      end
  | _ => (r, [])
  end.

(** What the peer's end of the socket gives. *)
Inductive x3_read : Type := Read_closed | Read_bytes (inbound : bytes) | Read_failed.

Inductive x3_arm : Type :=
| Arm_packet (now : Z) (cut : option Z)
| Arm_keepalive (cut : option Z)
| Arm_loss_report
| Arm_read (outcome : x3_read).

(** One iteration of [serve_connection]; [None] for an arm that is not ready. *)
Definition serve_turn (task : X3DeliveryTask) (r : X3Run) (sequence : Z) (arm : x3_arm) : option (X3Run * list x3_output) :=
  match xr_pending r with
  | Some packet =>
      match arm with
      | Arm_packet now cut => Some (serve_packet task (with_pending r None) sequence packet now cut)
      | _ => None
      end
  | None =>
      match arm with
      | Arm_packet now cut =>
          match try_recv (sh_packets (xr_shared r)) with
          | Some (packet, packets) =>
              Some (serve_packet task (with_shared r (set_packets (xr_shared r) packets)) sequence packet now cut)
          | None =>
              if sh_taps (xr_shared r) then None
              else Some (with_phase (with_shared r (drop_task (xr_shared r))) Ended, [])
          end
      | Arm_keepalive cut => Some (serve_keepalive r cut)
      | Arm_loss_report => Some (report_loss r)
      | Arm_read (Read_bytes _) => Some (r, [])
      | Arm_read _ => Some (go_to_sleep r)
      end
  end.

Inductive x3_event : Type :=
| Ev_tap (tap : X3Tap) (source : SocketAddr) (arrival_micros : Z) (data : bytes)
| Ev_taps_dropped
| Ev_dialed (connected : bool)
| Ev_woken
| Ev_turn (arm : x3_arm).

Definition x3_step (task : X3DeliveryTask) (r : X3Run) (e : x3_event) : option (X3Run * list x3_output) :=
  match e, xr_phase r with
  | Ev_tap tap source arrival data, _ =>
      if sh_taps (xr_shared r) then Some (with_shared r (X3Tap_deliver (xr_shared r) tap source arrival data), []) else None
  | Ev_taps_dropped, _ => Some (with_shared r (drop_taps (xr_shared r)), [])
  | Ev_dialed connected, Dialing => Some (dialed r connected)
  | Ev_woken, Sleeping => Some (woken r, [])
  | Ev_turn arm, Serving sequence => serve_turn task r sequence arm
  | _, _ => None
  end.

Fixpoint x3_run (task : X3DeliveryTask) (r : X3Run) (events : list x3_event) : option (X3Run * list x3_output) :=
  match events with
  | [] => Some (r, [])
  | e :: events =>
      match x3_step task r e with
      | Some (r, outs) =>
          match x3_run task r events with
          | Some (r, more) => Some (r, outs ++ more)
          | None => None
          end
      | None => None
      end
  end.

End delivery.

(** * Proofs *)

Section proofs.
Context {C : Type -> Type} `{Channel C} `{!ChannelLaws C}.
Context (task : X3DeliveryTask).

(** ** What is intercepted *)

(** The packet a tap makes of a datagram: none for what is too short or RTCP. *)
Definition tapped (tap : X3Tap) (source : SocketAddr) (arrival_micros : Z) (data : bytes) : option X3Packet :=
  match data with
  | _ :: b :: _ =>
      let packet_type := Z.land b 0x7F in
      if (64 <=? packet_type) && (packet_type <=? 95) then None
      else Some (mkX3Packet source (xt_destination tap) arrival_micros (xt_direction tap) data)
  | _ => None
  end.

Definition has_room (r : X3Run (C:=C)) : bool :=
  sh_task (xr_shared r) && (len (view (sh_packets (xr_shared r))) <? capacity (sh_packets (xr_shared r))).

(** What an event puts in the buffer, and what it finds no room for. *)
Definition accepted_by (r : X3Run (C:=C)) (e : x3_event) : list X3Packet :=
  match e with
  | Ev_tap tap source arrival data => if has_room r then option_list (tapped tap source arrival data) else []
  | _ => []
  end.
Definition refused_by (r : X3Run (C:=C)) (e : x3_event) : list X3Packet :=
  match e with
  | Ev_tap tap source arrival data => if has_room r then [] else option_list (tapped tap source arrival data)
  | _ => []
  end.

Fixpoint over_run (f : X3Run (C:=C) -> x3_event -> list X3Packet) (r : X3Run) (events : list x3_event) : list X3Packet :=
  match events with
  | [] => []
  | e :: events => f r e ++ match x3_step task r e with Some (r, _) => over_run f r events | None => [] end
  end.

(** ** What a connection carries *)

(** The writes of every connection, the newest connection first. *)
Abbreviation write := (bytes * option Z)%type.

Definition connection_step (conns : list (list write)) (o : x3_output) : list (list write) :=
  match o, conns with
  | Opened, _ => [] :: conns
  | Wrote pdu cut, writes :: conns => (writes ++ [(pdu, cut)]) :: conns
  | Wrote pdu cut, [] => [[(pdu, cut)]]
  | _, _ => conns
  end.
Definition connections (outs : list x3_output) : list (list write) := foldl connection_step [] outs.

Definition write_bytes (w : write) : bytes := match snd w with None => fst w | Some n => take (Z.to_nat n) (fst w) end.
Definition stream_bytes (writes : list write) : bytes := concat (write_bytes <$> writes).

(** The attributes of a packet's PDU. *)
Definition address_attributes (a : SocketAddr) (ipv4_type ipv6_type port_type : Z) : list (Z * bytes) :=
  [match sa_ip a with V4 v4 => (ipv4_type, ipv4_octets v4) | V6 v6 => (ipv6_type, v6) end; (port_type, be_enc 2 (sa_port a))].

Definition expected_attributes (anchor : WallClockAnchor) (sequence : Z) (p : X3Packet) : list (Z * bytes) :=
  let '(seconds, nanoseconds) := WallClockAnchor_timestamp anchor (xp_arrival_micros p) in
  [(NETWORK_FUNCTION_ID, take (Z.to_nat 0xFFFF) (dt_network_function_id task));
   (INTERCEPTION_POINT_ID, take (Z.to_nat 0xFFFF) (dt_interception_point_id task));
   (SEQUENCE_NUMBER, be_enc 4 sequence);
   (TIMESTAMP, be_enc 4 seconds ++ be_enc 4 nanoseconds)] ++
  address_attributes (xp_source p) SOURCE_IPV4 SOURCE_IPV6 SOURCE_PORT ++
  address_attributes (xp_destination p) DESTINATION_IPV4 DESTINATION_IPV6 DESTINATION_PORT ++
  [(IP_PROTOCOL, [IP_PROTOCOL_UDP])].

Definition packet_item (anchor : WallClockAnchor) (sequence : Z) (p : X3Packet) : Item :=
  mkItem (PduHeader_x3_rtp (dt_xid task) (dt_correlation_id task) (xp_direction p)) (expected_attributes anchor sequence p) (xp_payload p).
Definition keepalive_item : Item := mkItem PduHeader_keepalive [] [].

(** Packets numbered from a sequence number on, 32 bits wide. *)
Fixpoint numbered (anchor : WallClockAnchor) (sequence : Z) (ps : list X3Packet) : list Item :=
  match ps with
  | [] => []
  | p :: ps => packet_item anchor sequence p :: numbered anchor (wrapping_add 32 sequence 1) ps
  end.

Definition is_media (p : Pdu) : bool := ih_pdu_type (pdu_header p) =? PduType_to_u16 X3.

(** ** Preconditions *)

Definition task_ok : Prop :=
  bytes_ok (dt_xid task) /\ len (dt_xid task) = 16 /\ fits 64 (dt_correlation_id task) /\ dt_correlation_id task <> 0.

Definition packet_ok (p : X3Packet) : Prop := ip_ok (sa_ip (xp_source p)) /\ ip_ok (sa_ip (xp_destination p)) /\ len (xp_payload p) < 2 ^ 32.

Definition cut_ok (cut : option Z) : Prop := match cut with Some n => 0 <= n | None => True end.

Definition event_ok (e : x3_event) : Prop :=
  match e with
  | Ev_tap tap source arrival data => ip_ok (sa_ip source) /\ ip_ok (sa_ip (xt_destination tap)) /\ len data < 2 ^ 32
  | Ev_turn (Arm_packet _ cut) => cut_ok cut
  | Ev_turn (Arm_keepalive cut) => cut_ok cut
  | _ => True
  end.

(** ** Framing *)

Lemma ip_value_short ip : ip_ok ip -> len (match ip with V4 v4 => ipv4_octets v4 | V6 v6 => v6 end) <= 16.
Proof. destruct ip; [intros _; unfold ipv4_octets; rewrite len_be_enc; lia|intros [_ Hl]; lia]. Qed.

Lemma short_value (v : bytes) : len v <= 0xFFFF -> take (Z.to_nat 0xFFFF) v = v.
Proof. intros Hv. apply take_ge. unfold len in Hv. lia. Qed.

Lemma concat_snoc_tlv (l : list (Z * bytes)) a : concat (tlv <$> l) ++ tlv a = concat (tlv <$> l ++ [a]).
Proof. rewrite fmap_app, concat_app. cbn. by rewrite app_nil_r. Qed.

Lemma address_written a t4 t6 tp l : ip_ok (sa_ip a) ->
  attribute_port tp (sa_port a) (attribute_address (sa_ip a) t4 t6 (concat (tlv <$> l))) = concat (tlv <$> l ++ address_attributes a t4 t6 tp).
Proof.
  intros Hip. pose proof (ip_value_short _ Hip) as Hs. unfold attribute_port, attribute_address, address_attributes. pose proof (len_be_enc 2 (sa_port a)) as Hp.
  destruct (sa_ip a) as [v4|v6]; rewrite !raw_tlv, !short_value by lia; rewrite !concat_snoc_tlv, <- app_assoc; done.
Qed.

Lemma attributes_written anchor sequence p : packet_ok p ->
  let '(seconds, nanoseconds) := WallClockAnchor_timestamp anchor (xp_arrival_micros p) in
  packet_attributes task p sequence seconds nanoseconds = concat (tlv <$> expected_attributes anchor sequence p).
Proof.
  intros (Hs & Hd & _). unfold expected_attributes. destruct (WallClockAnchor_timestamp _ _) as [seconds nanoseconds].
  unfold packet_attributes, ip_protocol, attribute_destination, attribute_source, timestamp_attribute, sequence_number, interception_point_id, network_function_id, attribute_text.
  rewrite (raw_tlv NETWORK_FUNCTION_ID), (raw_tlv INTERCEPTION_POINT_ID), (raw_tlv SEQUENCE_NUMBER), (raw_tlv TIMESTAMP).
  rewrite (short_value (be_enc 4 sequence)) by (rewrite len_be_enc; lia). rewrite (short_value (be_enc 4 seconds ++ _)) by (rewrite len_app, !len_be_enc; lia).
  change (AttributeWriter_new ++ ?x) with (concat (tlv <$> []) ++ x). rewrite !concat_snoc_tlv.
  rewrite !address_written by done. rewrite raw_tlv, (short_value [_]), concat_snoc_tlv by (change (1 <= 0xFFFF); lia).
  by rewrite <- !app_assoc.
Qed.

Lemma address_attributes_ok a t4 t6 tp : ip_ok (sa_ip a) -> fits 16 t4 -> fits 16 t6 -> fits 16 tp -> Forall attribute_ok (address_attributes a t4 t6 tp) /\
  len (concat (tlv <$> address_attributes a t4 t6 tp)) <= 26.
Proof.
  intros Hip H4 H6 Hp. pose proof (ip_value_short _ Hip) as Hs. unfold address_attributes. split.
  - forall_list; unfold attribute_ok; destruct (sa_ip a); cbn [fst snd]; (split; [done|]); rewrite ?len_be_enc; lia.
  - rewrite len_tlvs. cbn [foldr snd]. rewrite len_be_enc. destruct (sa_ip a); cbn [snd]; lia.
Qed.

Lemma packet_item_ok anchor sequence p : task_ok -> packet_ok p -> item_ok (packet_item anchor sequence p).
Proof.
  intros (Hx & Hlx & Hc & Hc0) (Hs & Hd & Hp). unfold item_ok, packet_item, item_block. cbn [it_header it_attributes it_payload].
  destruct (address_attributes_ok (xp_source p) SOURCE_IPV4 SOURCE_IPV6 SOURCE_PORT Hs) as [Hs1 Hs2]; [done..|].
  destruct (address_attributes_ok (xp_destination p) DESTINATION_IPV4 DESTINATION_IPV6 DESTINATION_PORT Hd) as [Hd1 Hd2]; [done..|].
  assert (forall v : bytes, len (take (Z.to_nat 0xFFFF) v) <= 0xFFFF) as Ht by (intros v; rewrite len_take; lia).
  unfold expected_attributes. destruct (WallClockAnchor_timestamp _ _) as [seconds nanoseconds]. split_and!.
  - done.
  - apply Forall_app. split; [|apply Forall_app; split; [done|apply Forall_app; split; [done|]]].
    + forall_list; (split; [done|]); cbn [snd]; rewrite ?len_app, ?len_be_enc; (done || apply Ht).
    + forall_list. done.
  - split_and!; [done| |done]. rewrite !fmap_app, !concat_app, !len_app. rewrite (len_tlvs [_; _; _; _]), (len_tlvs [_]). cbn [foldr snd]. rewrite len_app, !len_be_enc.
    pose proof (Ht (dt_network_function_id task)). pose proof (Ht (dt_interception_point_id task)). change (len [IP_PROTOCOL_UDP]) with 1. unfold HEADER_LEN. lia.
Qed.

Lemma keepalive_item_ok : item_ok keepalive_item.
Proof. unfold item_ok, pdu_header_ok, encodable. split_and!; (done || (by constructor) || idtac). forall_list; unfold is_byte; lia. Qed.

Lemma item_encoded i : item_ok i -> li_encode (it_header i) (item_block i) (it_payload i) [] = (Ok tt, item_bytes i).
Proof.
  intros Hi. pose proof Hi as (_ & _ & H1 & H2 & H3). pose proof (encode_spec (it_header i) (item_block i) (it_payload i) []) as Hs. unfold item_bytes.
  destruct (li_encode _ _ _ _) as [[[]|e|] o]; [done| |done]. exfalso. destruct e; destruct Hs as (? & ? & _); subst; lia || tauto.
Qed.

(** ** One connection *)

Definition media (i : Item) : bool := PduType_to_u16 (ph_pdu_type (it_header i)) =? PduType_to_u16 X3.

(** Whole items only: the packets, numbered from zero, and keepalives. *)
Definition intact (a : WallClockAnchor) (writes : list write) (sent : list X3Packet) : Prop :=
  exists items, Forall item_ok items /\ writes = (fun i => (item_bytes i, None)) <$> items /\
    filter media items = numbered a 0 sent /\ Forall (fun i => media i = false -> i = keepalive_item) items.

(** Then a failed write: of a keepalive, or of the packet that comes next. *)
Definition broken (a : WallClockAnchor) (writes : list write) (sent : list X3Packet) (next : option X3Packet) : Prop :=
  exists whole n i, intact a whole sent /\ 0 <= n /\ item_ok i /\ writes = whole ++ [(item_bytes i, Some n)] /\
    (i = keepalive_item \/ exists p, next = Some p /\ i = packet_item a (wrap 32 (len sent)) p).

(** What the mediation function reads from a connection. *)
Definition delivers (a : WallClockAnchor) (stream : bytes) (sent : list X3Packet) (next : option X3Packet) : Prop :=
  let '(pdus, rest) := read_stream (length stream) stream in
  (filter is_media pdus = item_pdu <$> numbered a 0 sent \/
   exists p, next = Some p /\ filter is_media pdus = item_pdu <$> numbered a 0 (sent ++ [p])) /\
  Forall (fun p => is_media p = false -> p = item_pdu keepalive_item) pdus /\
  (rest = [] \/ exists i n, item_ok i /\ 0 <= n < len (item_bytes i) /\ rest = take (Z.to_nat n) (item_bytes i)).

Lemma numbered_app a sent : forall sequence p, 0 <= sequence < 2 ^ 32 ->
  numbered a sequence (sent ++ [p]) = numbered a sequence sent ++ [packet_item a (wrap 32 (sequence + len sent)) p].
Proof.
  induction sent as [|q sent IH]; intros sequence p Hs; cbn [numbered app].
  - change (len []) with 0. by rewrite Z.add_0_r, (Z.mod_small sequence (2 ^ 32) Hs : wrap 32 sequence = sequence).
  - f_equal. unfold wrapping_add. rewrite IH by (unfold wrap; apply Z.mod_pos_bound; lia). do 2 f_equal. rewrite len_cons. f_equal. unfold wrap. rewrite Zplus_mod_idemp_l. f_equal. lia.
Qed.

Lemma media_item a sequence p : media (packet_item a sequence p) = true.
Proof. done. Qed.

Lemma intact_nil a : intact a [] [].
Proof. exists []. repeat split; constructor. Qed.

Lemma intact_packet a writes sent p : task_ok -> packet_ok p -> intact a writes sent ->
  intact a (writes ++ [(item_bytes (packet_item a (wrap 32 (len sent)) p), None)]) (sent ++ [p]).
Proof.
  intros Ht Hp (items & Hok & -> & Hm & Hk). exists (items ++ [packet_item a (wrap 32 (len sent)) p]). split_and!.
  - apply Forall_app. split; [done|]. constructor; [by apply packet_item_ok|constructor].
  - by rewrite fmap_app.
  - rewrite list.filter_app, Hm, numbered_app by lia. by rewrite Z.add_0_l.
  - apply Forall_app. split; [done|]. by constructor; [|constructor].
Qed.

Lemma intact_keepalive a writes sent : intact a writes sent -> intact a (writes ++ [(item_bytes keepalive_item, None)]) sent.
Proof.
  intros (items & Hok & -> & Hm & Hk). exists (items ++ [keepalive_item]). split_and!.
  - apply Forall_app. split; [done|]. constructor; [apply keepalive_item_ok|constructor].
  - by rewrite fmap_app.
  - rewrite list.filter_app, Hm. apply app_nil_r.
  - apply Forall_app. split; [done|]. by constructor; [|constructor].
Qed.

Lemma intact_read a writes sent : intact a writes sent -> exists items, Forall item_ok items /\ stream_bytes writes = concat (item_bytes <$> items) /\
  filter media items = numbered a 0 sent /\ Forall (fun i => media i = false -> i = keepalive_item) items.
Proof. intros (items & Hok & -> & Hm & Hk). exists items. split_and!; try done. unfold stream_bytes. by rewrite <- list_fmap_compose. Qed.

Lemma is_media_item i : is_media (item_pdu i) = media i.
Proof. done. Qed.

Lemma filter_media (items : list Item) : filter is_media (item_pdu <$> items) = item_pdu <$> filter media items.
Proof. induction items as [|i items IH]; [done|]. rewrite fmap_cons, !filter_cons, is_media_item, IH. by destruct (decide _). Qed.

(** Whole items, then what no item can be read from. *)
Lemma delivers_items a items tail sent next : Forall item_ok items -> read_pdu tail = None ->
  (filter media items = numbered a 0 sent \/ exists p, next = Some p /\ filter media items = numbered a 0 (sent ++ [p])) ->
  Forall (fun i => media i = false -> i = keepalive_item) items ->
  (tail = [] \/ exists i n, item_ok i /\ 0 <= n < len (item_bytes i) /\ tail = take (Z.to_nat n) (item_bytes i)) ->
  delivers a (concat (item_bytes <$> items) ++ tail) sent next.
Proof.
  intros Hok Ht Hm Hk Htail. unfold delivers. rewrite read_items by (done || by apply items_length). rewrite filter_media. split_and!; [| |done].
  - destruct Hm as [->|(p & -> & ->)]; [by left|right; by exists p].
  - apply Forall_fmap. eapply Forall_impl; [|exact Hk]. intros i Hi Hf. cbn. by rewrite (Hi Hf).
Qed.

Lemma intact_delivers a writes sent next : intact a writes sent -> delivers a (stream_bytes writes) sent next.
Proof.
  intros (items & Hok & -> & Hm & Hk)%intact_read. rewrite <- (app_nil_r (concat _)). apply delivers_items; try done; by left.
Qed.

Lemma broken_delivers a writes sent next : broken a writes sent next -> delivers a (stream_bytes writes) sent next.
Proof.
  intros (whole & n & i & (items & Hok & Hs & Hm & Hk)%intact_read & Hn & Hi & -> & Hnext). unfold stream_bytes. rewrite fmap_app, concat_app. fold (stream_bytes whole). rewrite Hs.
  cbn [fmap list_fmap concat]. rewrite app_nil_r. unfold write_bytes. cbn [fst snd]. destruct (Z_lt_le_dec n (len (item_bytes i))) as [Hlt|Hge].
  - apply delivers_items; try done; [by apply cut_item|by left|right; by exists i, n].
  - rewrite take_ge by (unfold len in Hge; lia). replace (concat _ ++ item_bytes i) with (concat (item_bytes <$> items ++ [i]) ++ []) by (rewrite fmap_app, concat_app; cbn; by rewrite !app_nil_r).
    apply delivers_items; [apply Forall_app; split; [done|by constructor; [|constructor]]|done| | |by left].
    + rewrite list.filter_app, Hm. destruct Hnext as [->|(p & -> & ->)]; [left; apply app_nil_r|right]. exists p. split; [done|]. by rewrite numbered_app, Z.add_0_l by lia.
    + apply Forall_app. split; [done|]. constructor; [|constructor]. intros Hf. by destruct Hnext as [->|(p & _ & ->)].
Qed.


(** ** The invariant of a run *)

Definition carries (a : WallClockAnchor) (writes : list write) (sent : list X3Packet) (next : option X3Packet) : Prop :=
  intact a writes sent \/ broken a writes sent next.

(** Connections, newest first, each followed by what the newer ones sent and by what
    is left. *)
Fixpoint chain (P : list write -> list X3Packet -> option X3Packet -> Prop) (conns : list (list write)) (sents : list (list X3Packet))
    (left : list X3Packet) : Prop :=
  match conns, sents with
  | [], [] => True
  | writes :: conns, sent :: sents => P writes sent (head left) /\ chain P conns sents (sent ++ left)
  | _, _ => False
  end.

Definition queued (r : X3Run (C:=C)) : list X3Packet := view (sh_packets (xr_shared r)).
Definition undelivered (r : X3Run (C:=C)) : list X3Packet := option_list (xr_pending r) ++ queued r.

Definition connected (a : WallClockAnchor) (r : X3Run (C:=C)) (left : list X3Packet) (conns : list (list write)) (sents : list (list X3Packet)) : Prop :=
  match xr_phase r, conns, sents with
  | Serving sequence, writes :: conns, sent :: sents =>
      intact a writes sent /\ sequence = wrap 32 (len sent) /\ chain (carries a) conns sents (sent ++ left)
  | Serving _, _, _ => False
  | _, _, _ => chain (carries a) conns sents left
  end.

Record inv (a : WallClockAnchor) (buffer : Z) (r : X3Run (C:=C)) (left : list X3Packet) (conns : list (list write)) (sents : list (list X3Packet))
    (accepted refused : list X3Packet) : Prop := {
  inv_connected : connected a r left conns sents;
  inv_accepted : accepted = concat (rev sents) ++ left;
  inv_packets : Forall packet_ok left;
  inv_delivered : sh_delivered (xr_shared r) = wrap 64 (len (concat (rev sents)));
  inv_dropped : sh_dropped (xr_shared r) = wrap 64 (len refused);
  inv_backoff : RECONNECT_BACKOFF_MIN <= xr_backoff r <= RECONNECT_BACKOFF_MAX;
  inv_room : len (queued r) <= Z.max buffer 1 /\ capacity (sh_packets (xr_shared r)) = Z.max buffer 1;
  inv_ended : xr_phase r = Ended -> queued r = [] /\ sh_taps (xr_shared r) = false
}.

Definition anchored (r : X3Run (C:=C)) (a : WallClockAnchor) : Prop := xr_anchor r = None \/ xr_anchor r = Some a.

Lemma carries_more a writes sent left more : carries a writes sent (head left) -> carries a writes sent (head (left ++ more)).
Proof.
  intros [Hi|(whole & n & i & Hi & Hn & Hok & Hw & Hnext)]; [by left|right]. exists whole, n, i. split_and!; try done.
  destruct Hnext as [->|(p & Hp & ->)]; [by left|right]. exists p. by destruct left.
Qed.

Lemma chain_more a conns sents left more : chain (carries a) conns sents left -> chain (carries a) conns sents (left ++ more).
Proof.
  revert sents left. induction conns as [|writes conns IH]; intros [|sent sents] left; cbn [chain]; try done.
  intros [Hc Hs]. split; [by apply carries_more|]. rewrite app_assoc. by apply IH.
Qed.

Lemma connected_more a r left conns sents more : connected a r left conns sents -> connected a r (left ++ more) conns sents.
Proof.
  unfold connected. destruct (xr_phase r); try apply chain_more. destruct conns, sents; try done. intros (Hi & Hs & Hc). split_and!; try done.
  rewrite app_assoc. by apply chain_more.
Qed.

Lemma chain_close a r left conns sents : connected a r left conns sents -> chain (carries a) conns sents left.
Proof.
  unfold connected. destruct (xr_phase r); try done. destruct conns, sents; try done. intros (Hi & _ & Hc). split; [by left|done].
Qed.

Lemma rev_concat_cons (sent : list X3Packet) sents : concat (rev (sent :: sents)) = concat (rev sents) ++ sent.
Proof. cbn [rev]. rewrite concat_app. cbn. by rewrite app_nil_r. Qed.

Lemma wrap_count n xs (p : X3Packet) : n = wrap 64 (len xs) -> wrapping_add 64 n 1 = wrap 64 (len (xs ++ [p])).
Proof. intros ->. unfold wrapping_add, wrap. rewrite Zplus_mod_idemp_l. by rewrite len_app. Qed.

(** ** The taps *)

Lemma give_back_same s buffer : sh_packets (give_back (C:=C) s buffer) = sh_packets s /\ sh_taps (give_back s buffer) = sh_taps s /\
  sh_task (give_back s buffer) = sh_task s /\ sh_delivered (give_back s buffer) = sh_delivered s /\ sh_dropped (give_back s buffer) = sh_dropped s.
Proof. unfold give_back. by destruct (try_send _ _). Qed.

Lemma deliver_spec (r : X3Run (C:=C)) tap source arrival data :
  let s := xr_shared r in
  let s' := X3Tap_deliver s tap source arrival data in
  let e := Ev_tap tap source arrival data in
  sh_taps s' = sh_taps s /\ sh_task s' = sh_task s /\ sh_delivered s' = sh_delivered s /\
  view (sh_packets s') = view (sh_packets s) ++ accepted_by r e /\ capacity (sh_packets s') = capacity (sh_packets s) /\
  (refused_by r e = [] /\ sh_dropped s' = sh_dropped s \/ (exists p, refused_by r e = [p]) /\ sh_dropped s' = wrapping_add 64 (sh_dropped s) 1) /\
  (accepted_by r e = [] \/ len (view (sh_packets s)) < capacity (sh_packets s) /\ exists p, accepted_by r e = [p]).
Proof.
  cbv zeta. unfold accepted_by, refused_by, X3Tap_deliver, tapped, has_room. set (s := xr_shared r). destruct data as [|b0 [|b data]]; cbn [option_list]; [destruct (_ && _); rewrite app_nil_r; tauto..|].
  destruct (_ && (_ <=? 95)); cbn [option_list]; [destruct (_ && _); rewrite app_nil_r; tauto|].
  set (s1 := match try_recv (sh_recycle s) with Some _ => _ | None => _ end). assert (sh_packets s1 = sh_packets s /\ sh_taps s1 = sh_taps s /\ sh_task s1 = sh_task s /\ sh_delivered s1 = sh_delivered s /\ sh_dropped s1 = sh_dropped s) as (-> & Ht & -> & Hd & Hx)
    by (unfold s1; by destruct (try_recv _) as [[]|]).
  set (p := mkX3Packet _ _ _ _ _). pose proof (send_law X3Packet (sh_packets s) p) as Hlaw.
  pose proof (give_back_same s1 (b0 :: b :: data)) as (Hg1 & Hg2 & Hg3 & Hg4 & Hg5).
  assert (sh_packets s1 = sh_packets s) as Hp by (unfold s1; by destruct (try_recv _) as [[]|]). assert (sh_task s1 = sh_task s) as Hk by (unfold s1; by destruct (try_recv _) as [[]|]).
  destruct (sh_task s) eqn:Etask; cbn [andb]; [destruct (try_send (sh_packets s) p) as [c'|]|].
  - destruct Hlaw as (Hlt & Hv & Hc). rewrite (proj2 (Z.ltb_lt _ _) Hlt). cbn. rewrite Hk. split_and!; try done; [left; done|right; split; [done|by exists p]].
  - rewrite (proj2 (Z.ltb_ge _ _) Hlaw). cbn. rewrite Hg1, Hg2, Hg3, Hg4, Hg5, Hp, Hk, app_nil_r, Hx. split_and!; try done; [right; split; [by exists p|done]|by left].
  - cbn. rewrite Hg1, Hg2, Hg3, Hg4, Hg5, Hp, Hk, app_nil_r, Hx. split_and!; try done; [right; split; [by exists p|done]|by left].
Qed.

(** ** The task's steps keep the invariant *)

Lemma inv_tap a buffer r conns sents acc ref tap source arrival data :
  event_ok (Ev_tap tap source arrival data) -> inv a buffer r (undelivered r) conns sents acc ref -> sh_taps (xr_shared r) = true ->
  let e := Ev_tap tap source arrival data in
  let r' := with_shared r (X3Tap_deliver (xr_shared r) tap source arrival data) in
  inv a buffer r' (undelivered r') conns sents (acc ++ accepted_by r e) (ref ++ refused_by r e).
Proof.
  intros (Hs & Hd & Hp) [Hc Ha Hk Hde Hdr Hb [Hr1 Hr2] He] Htaps. cbv zeta. pose proof (deliver_spec r tap source arrival data) as H2. cbv zeta in H2. destruct H2 as (H1 & H2 & H3 & H4 & H5 & H6 & H7).
  set (e := Ev_tap _ _ _ _) in *. set (s' := X3Tap_deliver _ _ _ _ _) in *.
  assert (undelivered (with_shared r s') = undelivered r ++ accepted_by r e) as -> by (unfold undelivered, queued; cbn [with_shared xr_pending xr_shared]; by rewrite H4, app_assoc).
  constructor; cbn [with_shared xr_shared xr_phase xr_backoff]; try done.
  - by apply connected_more.
  - by rewrite Ha, app_assoc.
  - apply Forall_app. split; [done|]. unfold accepted_by, e, tapped. destruct (has_room r), data as [|b0 [|b data]]; cbn [option_list]; try constructor.
    destruct (_ && _); cbn [option_list]; by repeat constructor.
  - by rewrite H3.
  - destruct H6 as [[-> ->]|[[p ->] ->]]; [by rewrite app_nil_r|by apply wrap_count].
  - unfold queued in *. cbn [with_shared xr_shared]. rewrite H4, H5, len_app. split; [|done]. destruct H7 as [->|[Hlt [p ->]]]; [change (len []) with 0; lia|change (len [p]) with 1; lia].
  - intros Hend. destruct (He Hend) as [_ Hf]. congruence.
Qed.

(** Neither the phase nor anything counted changes. *)
Lemma inv_same a buffer r r' left conns sents acc ref : inv a buffer r left conns sents acc ref ->
  xr_phase r' = xr_phase r -> xr_backoff r' = xr_backoff r -> sh_packets (xr_shared r') = sh_packets (xr_shared r) ->
  sh_delivered (xr_shared r') = sh_delivered (xr_shared r) -> sh_dropped (xr_shared r') = sh_dropped (xr_shared r) ->
  (sh_taps (xr_shared r) = false -> sh_taps (xr_shared r') = false) -> inv a buffer r' left conns sents acc ref.
Proof.
  intros [Hc Ha Hk Hde Hdr Hb Hr He] E1 E2 E3 E4 E5 E6. constructor; unfold connected, queued in *; rewrite ?E1, ?E2, ?E3, ?E4, ?E5; try done.
  intros Hend. destruct (He Hend). split; [done|by apply E6].
Qed.

(** Leaving the connection, asleep before another or on the way to one. *)
Lemma inv_away a buffer r left conns sents acc ref ms phase : inv a buffer r left conns sents acc ref ->
  chain (carries a) conns sents left -> phase = Sleeping \/ phase = Dialing -> RECONNECT_BACKOFF_MIN <= ms <= RECONNECT_BACKOFF_MAX ->
  inv a buffer (with_phase (with_backoff r ms) phase) left conns sents acc ref.
Proof.
  intros [Hc Ha Hk Hde Hdr Hb Hr He] Hch Hph Hms. constructor; try done; unfold connected; cbn; by destruct Hph as [->| ->].
Qed.

Lemma inv_loop_top a buffer r conns sents acc ref ms : inv a buffer r (undelivered r) conns sents acc ref ->
  RECONNECT_BACKOFF_MIN <= ms <= RECONNECT_BACKOFF_MAX -> chain (carries a) conns sents (undelivered r) ->
  let r' := loop_top (with_backoff r ms) in inv a buffer r' (undelivered r') conns sents acc ref.
Proof.
  intros Hinv Hms Hch. cbv zeta. unfold loop_top. cbn [with_backoff xr_shared].
  destruct (sh_taps (xr_shared r)) eqn:Et; cbn [negb andb]; [apply (inv_away a buffer r); auto|].
  destruct (is_empty (sh_packets (xr_shared r))) eqn:Ee; [|apply (inv_away a buffer r); auto].
  destruct Hinv as [Hc Ha Hk Hde Hdr Hb Hr He]. constructor; try done. intros _. split; [by apply empty_law|done].
Qed.

Lemma report_loss_same (r : X3Run (C:=C)) : let '(r', outs) := report_loss r in
  xr_shared r' = xr_shared r /\ xr_backoff r' = xr_backoff r /\ xr_anchor r' = xr_anchor r /\ xr_pending r' = xr_pending r /\ xr_phase r' = xr_phase r /\
  (forall conns, foldl connection_step conns outs = conns).
Proof. unfold report_loss. by destruct (_ <? _). Qed.

Lemma inv_dialed a buffer r conns sents acc ref up : xr_phase r = Dialing -> inv a buffer r (undelivered r) conns sents acc ref ->
  let '(r', outs) := dialed r up in
  exists sents', inv a buffer r' (undelivered r') (foldl connection_step conns outs) sents' acc ref.
Proof.
  intros Hph Hinv. pose proof (inv_connected _ _ _ _ _ _ _ _ Hinv) as Hch. unfold connected in Hch. rewrite Hph in Hch. unfold dialed. destruct up.
  - pose proof (report_loss_same (with_backoff r RECONNECT_BACKOFF_MIN)) as Hs. destruct (report_loss _) as [r1 loss]. destruct Hs as (E1 & E2 & E3 & E4 & E5 & E6). cbn [with_backoff xr_shared xr_backoff xr_pending xr_phase] in *.
    exists ([] :: sents). cbn [foldl connection_step]. rewrite E6. unfold undelivered, queued in *. cbn [with_phase xr_pending xr_shared]. rewrite E1, E4.
    destruct Hinv as [Hc Ha Hk Hde Hdr Hb Hr He]. constructor; unfold connected, queued in *; cbn [with_phase xr_phase xr_shared xr_backoff]; rewrite ?E1, ?E2; try done.
    + split_and!; [apply intact_nil|done|done].
    + by rewrite rev_concat_cons, app_nil_r.
    + by rewrite rev_concat_cons, app_nil_r.
  - pose proof (report_loss_same r) as Hs. destruct (report_loss r) as [r1 loss]. destruct Hs as (E1 & E2 & E3 & E4 & E5 & E6). unfold go_to_sleep. exists sents.
    rewrite foldl_app, E6. cbn [foldl connection_step]. assert (undelivered (with_phase r1 Sleeping) = undelivered r) as -> by (unfold undelivered, queued; cbn; by rewrite E1, E4).
    pose proof (inv_away a buffer r _ conns sents acc ref (xr_backoff r) Sleeping Hinv Hch (or_introl eq_refl) (inv_backoff _ _ _ _ _ _ _ _ Hinv)) as H2.
    eapply inv_same; [exact H2|..]; cbn; by rewrite ?E1, ?E2.
Qed.

(** A packet in hand. *)
Lemma inv_packet a buffer r conns sents acc ref p sequence now cut : task_ok -> cut_ok cut -> xr_phase r = Serving sequence -> xr_pending r = None ->
  inv a buffer r (p :: queued r) conns sents acc ref ->
  let '(r', outs) := serve_packet task r sequence p now cut in
  anchored r' a -> exists sents', inv a buffer r' (undelivered r') (foldl connection_step conns outs) sents' acc ref.
Proof.
  intros Ht Hcut Hph Hpend Hinv. unfold serve_packet. set (clock := default _ _). pose proof (attributes_written clock sequence p) as Hw. pose proof (item_encoded (packet_item clock sequence p)) as Henc.
  unfold packet_item, item_block, expected_attributes in Henc. cbn [it_header it_attributes it_payload] in Henc. unfold expected_attributes in Hw.
  destruct (WallClockAnchor_timestamp clock (xp_arrival_micros p)) as [seconds nanoseconds] eqn:Ets.
  destruct Hinv as [Hc Ha Hk Hde Hdr Hb Hr He]. pose proof (Forall_inv Hk) as Hp. pose proof (packet_item_ok clock sequence p Ht Hp) as Hitem.
  rewrite Hw, Henc by (done || (unfold packet_item, expected_attributes in Hitem; by rewrite Ets in Hitem)). clear Hw Henc.
  set (i := mkItem _ _ _). assert (i = packet_item clock sequence p) as Ei by (unfold i, packet_item, expected_attributes; by rewrite Ets). rewrite Ei in *. clear i Ei Ets.
  unfold connected in Hc. rewrite Hph in Hc. destruct conns as [|writes conns], sents as [|sent sents]; try done. destruct Hc as (Hi & Hseq & Hch). subst sequence.
  destruct cut as [n|].
  - unfold go_to_sleep. intros [Han|Han]; [done|]. cbn in Han. injection Han as Han. rewrite <- Han in *. exists (sent :: sents). constructor; try done.
    cbn [connected with_phase xr_phase foldl connection_step]. split; [right|done]. exists writes, n, (packet_item clock (wrap 32 (len sent)) p). split_and!; try done. right. by exists p.
  - intros [Han|Han]; [done|]. cbn in Han. injection Han as Han. rewrite <- Han in *. exists ((sent ++ [p]) :: sents).
    pose proof (give_back_same (count_delivered (xr_shared r)) (xp_payload p)) as (Hg1 & Hg2 & Hg3 & Hg4 & Hg5).
    unfold undelivered, queued. cbn [with_phase with_shared with_anchor xr_pending xr_shared]. rewrite Hg1, Hpend. cbn [option_list app count_delivered sh_packets].
    constructor; unfold queued; cbn [with_phase with_shared with_anchor xr_shared xr_phase xr_backoff connection_step foldl]; rewrite ?Hg1, ?Hg2, ?Hg4, ?Hg5; cbn [count_delivered sh_packets sh_taps sh_delivered sh_dropped]; try done.
    + unfold connected. cbn [with_phase xr_phase]. split_and!; [by apply intact_packet|unfold wrapping_add, wrap; rewrite Zplus_mod_idemp_l; by rewrite len_app|by rewrite <- app_assoc].
    + rewrite Ha, !rev_concat_cons, <- !app_assoc. done.
    + by apply (Forall_inv_tail Hk).
    + rewrite rev_concat_cons, app_assoc. apply wrap_count. by rewrite <- rev_concat_cons.
Qed.

Lemma inv_turn a buffer r conns sents acc ref sequence arm r' outs : task_ok -> event_ok (Ev_turn arm) -> xr_phase r = Serving sequence ->
  inv a buffer r (undelivered r) conns sents acc ref -> serve_turn task r sequence arm = Some (r', outs) -> anchored r' a ->
  exists sents', inv a buffer r' (undelivered r') (foldl connection_step conns outs) sents' acc ref.
Proof.
  intros Ht He Hph Hinv Hturn Han. unfold serve_turn in Hturn. pose proof (chain_close _ _ _ _ _ (inv_connected _ _ _ _ _ _ _ _ Hinv)) as Hch.
  destruct (xr_pending r) as [packet|] eqn:Ep; [|destruct arm as [now cut|cut| |[| |]]].
  - destruct arm as [now cut| | |]; try done. injection Hturn as Hturn. unfold undelivered in Hinv. rewrite Ep in Hinv.
    pose proof (inv_packet a buffer (with_pending r None) conns sents acc ref packet sequence now cut Ht He Hph eq_refl) as H2. rewrite Hturn in H2.
    apply H2; [|done]. eapply inv_same; [exact Hinv|done..].
  - pose proof (recv_law X3Packet (sh_packets (xr_shared r))) as Hlaw. destruct (try_recv _) as [[packet packets]|].
    + injection Hturn as Hturn. destruct Hlaw as [Hv Hcap].
      pose proof (inv_packet a buffer (with_shared r (set_packets (xr_shared r) packets)) conns sents acc ref packet sequence now cut Ht He Hph Ep) as H2. rewrite Hturn in H2.
      apply H2; [|done]. unfold undelivered, queued in Hinv |- *. rewrite Ep, Hv in Hinv. destruct Hinv as [Hc Ha Hk Hde Hdr Hb [Hr1 Hr2] Hen]. unfold queued in Hr1. rewrite Hv, len_cons in Hr1.
      constructor; try done; [unfold queued; cbn; split; [lia|congruence]|cbn; by rewrite Hph].
    + destruct (sh_taps _) eqn:Etaps; [done|]. injection Hturn as <- <-. exists sents. unfold undelivered in *. cbn [with_phase with_shared xr_pending]. rewrite Ep in *.
      destruct Hinv as [Hc Ha Hk Hde Hdr Hb Hr Hen]. by constructor.
  - unfold serve_keepalive in Hturn. change (li_encode PduHeader_keepalive [] [] []) with (li_encode (it_header keepalive_item) (item_block keepalive_item) (it_payload keepalive_item) []) in Hturn.
    rewrite (item_encoded _ keepalive_item_ok) in Hturn. pose proof Hinv as [Hc _ _ _ _ _ _ _]. unfold connected in Hc. rewrite Hph in Hc.
    destruct conns as [|writes conns], sents as [|sent sents]; try done. destruct Hc as (Hi & Hseq & Hcs). exists (sent :: sents).
    destruct Hinv as [_ Ha Hk Hde Hdr Hb Hr Hen]. destruct cut as [n|]; injection Hturn as <- <-; constructor; try done; cbn [foldl connection_step go_to_sleep].
    + unfold connected. cbn [with_phase xr_phase]. split; [right|done]. exists writes, n, keepalive_item. split_and!; try done; [apply keepalive_item_ok|by left].
    + unfold connected. rewrite Hph. split_and!; [by apply intact_keepalive|done|done].
  - injection Hturn as Hturn. exists sents. pose proof (report_loss_same r) as Hs. rewrite Hturn in Hs. destruct Hs as (E1 & E2 & E3 & E4 & E5 & ->).
    unfold undelivered, queued in *. rewrite E1, E4. eapply inv_same; [exact Hinv|by rewrite ?E1..].
  - injection Hturn as <- <-. exists sents. by apply (inv_away a buffer r _ _ _ _ _ (xr_backoff r) Sleeping Hinv Hch (or_introl eq_refl) (inv_backoff _ _ _ _ _ _ _ _ Hinv)).
  - injection Hturn as <- <-. by exists sents.
  - injection Hturn as <- <-. exists sents. by apply (inv_away a buffer r _ _ _ _ _ (xr_backoff r) Sleeping Hinv Hch (or_introl eq_refl) (inv_backoff _ _ _ _ _ _ _ _ Hinv)).
Qed.

Lemma backoff_doubles ms : RECONNECT_BACKOFF_MIN <= ms <= RECONNECT_BACKOFF_MAX ->
  RECONNECT_BACKOFF_MIN <= Z.min (ms * 2) RECONNECT_BACKOFF_MAX <= RECONNECT_BACKOFF_MAX.
Proof. unfold RECONNECT_BACKOFF_MIN, RECONNECT_BACKOFF_MAX. lia. Qed.

Lemma inv_step a buffer r conns sents acc ref e r' outs : task_ok -> event_ok e -> inv a buffer r (undelivered r) conns sents acc ref ->
  x3_step task r e = Some (r', outs) -> anchored r' a ->
  exists sents', inv a buffer r' (undelivered r') (foldl connection_step conns outs) sents' (acc ++ accepted_by r e) (ref ++ refused_by r e).
Proof.
  intros Ht He Hinv Hstep Han. destruct e as [tap source arrival data| |up| |arm]; cbn [x3_step] in Hstep.
  { destruct (sh_taps _) eqn:Etaps; [|done]. injection Hstep as <- <-. exists sents. by apply inv_tap. }
  all: cbn [accepted_by refused_by]; rewrite !app_nil_r.
  - injection Hstep as <- <-. exists sents. cbn [foldl]. unfold undelivered, queued in *. by eapply inv_same; [exact Hinv|..].
  - destruct (xr_phase r) eqn:Eph; try done. injection Hstep as Hstep. pose proof (inv_dialed a buffer r conns sents acc ref up Eph Hinv) as H2. by rewrite Hstep in H2.
  - destruct (xr_phase r) eqn:Eph; try done. injection Hstep as <- <-. exists sents. cbn [foldl]. apply inv_loop_top; [done|apply backoff_doubles, (inv_backoff _ _ _ _ _ _ _ _ Hinv)|by eapply chain_close, inv_connected].
  - destruct (xr_phase r) eqn:Eph; try done. by eapply inv_turn.
Qed.

(** An anchor, once taken, stays. *)
Lemma anchor_kept (r : X3Run (C:=C)) e r' outs : x3_step task r e = Some (r', outs) -> xr_anchor r = None \/ xr_anchor r' = xr_anchor r.
Proof.
  intros Hstep.
  assert (forall r sequence p now cut, xr_anchor r = None \/ xr_anchor (fst (serve_packet (C:=C) task r sequence p now cut)) = xr_anchor r) as Hp.
  { intros r0 sequence p now cut. unfold serve_packet. destruct (WallClockAnchor_timestamp _ _), (li_encode _ _ _ _) as [[] ?], cut, (xr_anchor r0); cbn; auto. }
  assert (xr_anchor (fst (report_loss r)) = xr_anchor r) as Hl by (unfold report_loss; by destruct (_ <? _)).
  destruct e as [tap source arrival data| |up| |arm]; cbn [x3_step] in Hstep.
  - destruct (sh_taps _); [|done]. injection Hstep as <- <-. by right.
  - injection Hstep as <- <-. by right.
  - destruct (xr_phase r); try done. injection Hstep as Hstep. right. unfold dialed, report_loss in Hstep. destruct up; destruct (_ <? _); by injection Hstep as <- <-.
  - destruct (xr_phase r); try done. injection Hstep as <- <-. right. unfold woken, loop_top. by destruct (_ && _).
  - destruct (xr_phase r); try done. unfold serve_turn in Hstep. destruct (xr_pending r) as [p|].
    + destruct arm as [now cut| | |]; try done. injection Hstep as Hstep. specialize (Hp (with_pending r None) sequence p now cut). by rewrite Hstep in Hp.
    + destruct arm as [now cut|cut| |[| |]]; try (injection Hstep as <- <-; by right).
      * destruct (try_recv _) as [[p packets]|]; [|destruct (sh_taps _); [done|]; injection Hstep as <- <-; by right].
        injection Hstep as Hstep. specialize (Hp (with_shared r (set_packets (xr_shared r) packets)) sequence p now cut). by rewrite Hstep in Hp.
      * unfold serve_keepalive in Hstep. destruct (li_encode _ _ _ _) as [[] ?], cut; injection Hstep as <- <-; by right.
      * injection Hstep as Hstep. rewrite Hstep in Hl. by right.
Qed.

Lemma anchored_run a events : forall r r' outs, x3_run task r events = Some (r', outs) -> anchored r' a -> anchored r a.
Proof.
  induction events as [|e events IH]; intros r r' outs Hrun Ha; cbn [x3_run] in Hrun; [by injection Hrun as <- <-|].
  destruct (x3_step task r e) as [[r1 outs1]|] eqn:Es; [|done]. destruct (x3_run task r1 events) as [[r2 outs2]|] eqn:Er; [|done]. injection Hrun as <- <-.
  specialize (IH _ _ _ Er Ha). destruct (anchor_kept _ _ _ _ Es) as [Hn|He]; [by left|]. unfold anchored. by rewrite <- He.
Qed.

Lemma inv_run a buffer events : task_ok -> Forall event_ok events -> forall r r' outs conns sents acc ref,
  inv a buffer r (undelivered r) conns sents acc ref -> x3_run task r events = Some (r', outs) -> anchored r' a ->
  exists sents', inv a buffer r' (undelivered r') (foldl connection_step conns outs) sents' (acc ++ over_run accepted_by r events) (ref ++ over_run refused_by r events).
Proof.
  intros Ht. induction 1 as [|e events He _ IH]; intros r r' outs conns sents acc ref Hinv Hrun Ha; cbn [x3_run over_run] in *.
  { injection Hrun as <- <-. exists sents. by rewrite !app_nil_r. }
  destruct (x3_step task r e) as [[r1 outs1]|] eqn:Es; [|done]. destruct (x3_run task r1 events) as [[r2 outs2]|] eqn:Er; [|done]. injection Hrun as <- <-.
  destruct (inv_step _ _ _ _ _ _ _ _ _ _ Ht He Hinv Es (anchored_run _ _ _ _ _ Er Ha)) as [sents1 Hinv1].
  destruct (IH _ _ _ _ _ _ _ Hinv1 Er Ha) as [sents2 Hinv2]. exists sents2. by rewrite foldl_app, !app_assoc.
Qed.

Lemma inv_start a buffer : let r := run_x3_delivery buffer in inv a buffer r (undelivered r) [] [] [] [].
Proof.
  destruct (bounded_law X3Packet (Z.max buffer 1)) as [Hv Hc]. assert (queued (run_x3_delivery buffer) = []) as Hq by apply Hv.
  cbv zeta. unfold undelivered. rewrite Hq. constructor; try done. rewrite Hq. split; [change (len []) with 0; lia|apply Hc].
Qed.

Lemma chain_impl (P Q : list write -> list X3Packet -> option X3Packet -> Prop) conns : (forall writes sent next, P writes sent next -> Q writes sent next) ->
  forall sents left, chain P conns sents left -> chain Q conns sents left.
Proof. intros HPQ. induction conns as [|writes conns IH]; intros [|sent sents] left; cbn [chain]; try done. intros [H1 H2]. split; [by apply HPQ|by apply IH]. Qed.


End proofs.

(** ** Witnesses *)

Record ListChannel (A : Type) : Type := mkListChannel { lc_items : list A; lc_capacity : Z }.
Arguments mkListChannel {A}.
Arguments lc_items {A}.
Arguments lc_capacity {A}.

#[export] Instance list_channel : Channel ListChannel := {
  bounded A n := mkListChannel [] n;
  try_send A c x := if len (lc_items c) <? lc_capacity c then Some (mkListChannel (lc_items c ++ [x]) (lc_capacity c)) else None;
  try_recv A c := match lc_items c with x :: items => Some (x, mkListChannel items (lc_capacity c)) | [] => None end;
  is_empty A c := match lc_items c with [] => true | _ => false end
}.

#[export] Instance list_channel_laws : ChannelLaws ListChannel.
Proof.
  refine {| view := @lc_items; capacity := @lc_capacity |}.
  - done.
  - intros A c x. cbn. by destruct (Z.ltb_spec (len (lc_items c)) (lc_capacity c)).
  - intros A c. cbn. by destruct (lc_items c) eqn:E.
  - intros A c. cbn. by destruct (lc_items c).
Defined.

Definition demo_task : X3DeliveryTask := mkX3DeliveryTask (replicate 16 7) 9 [110; 102] [105; 112].
Definition demo_peer : SocketAddr := mkSocketAddr (V4 0x0A000001) 4000.
Definition demo_tap : X3Tap := X3TapFactory_tap (mkSocketAddr (V4 0x0A000002) 5000) (fst (ingress_directions true)).
Definition demo_media (n : Z) : bytes := [0x80; 0; 0; n].
Definition demo_tapped (n : Z) : x3_event := Ev_tap demo_tap demo_peer (1000 * n) (demo_media n).

(** A refused connection, a torn write, a keepalive, a packet dropped. *)
Definition demo_events : list x3_event :=
  [demo_tapped 0; Ev_dialed false; demo_tapped 1; demo_tapped 2; Ev_woken; Ev_dialed true; Ev_turn (Arm_packet 5 None); Ev_turn (Arm_packet 6 (Some 45));
   Ev_woken; Ev_dialed true; Ev_turn (Arm_packet 7 None); Ev_turn (Arm_keepalive None); Ev_turn Arm_loss_report; Ev_taps_dropped; Ev_turn (Arm_packet 8 None)].

Definition demo_start : X3Run (C:=ListChannel) := run_x3_delivery 2.
Definition demo_end : X3Run (C:=ListChannel) * list x3_output := default (demo_start, []) (x3_run demo_task demo_start demo_events).
Definition demo_anchor : WallClockAnchor := anchored_now 5 0.

(** A packet whose write failed is given up, and counted nowhere, when the taps close
    before the next connection. *)
Example x3_forgets_the_held_packet :
  (fun '(r, _) => (xr_phase r, length (undelivered r), sh_delivered (xr_shared r), sh_dropped (xr_shared r))) <$>
    x3_run demo_task demo_start [demo_tapped 0; Ev_dialed true; Ev_turn (Arm_packet 5 (Some 0)); Ev_taps_dropped; Ev_woken] = Some (Ended, 1%nat, 0, 0).
Proof. vm_compute. reflexivity. Qed.

(** With a slow connection the losses are no single range: the second and the fourth
    of four packets. *)
Example x3_loses_here_and_there :
  let events := [Ev_dialed true; demo_tapped 0; demo_tapped 1; Ev_turn (Arm_packet 5 None); demo_tapped 2; demo_tapped 3; Ev_turn (Arm_packet 6 None)] in
  let start : X3Run (C:=ListChannel) := run_x3_delivery 1 in
  map (map xp_payload) [over_run demo_task accepted_by start events; over_run demo_task refused_by start events] =
  [[demo_media 0; demo_media 2]; [demo_media 1; demo_media 3]].
Proof. vm_compute. reflexivity. Qed.

Lemma demo_task_ok : task_ok demo_task.
Proof. split_and!; try done. apply (Forall_replicate is_byte). unfold is_byte. lia. Qed.

