(* ===== verification/Bridge.v ===== *)
(** * The SRTP bridge: crates/siphon-rtp-engine/src/srtp_bridge.rs

    The userspace relay of a call whose parties do not share a key: each redirected
    endpoint's flow gates the source, decrypts with one party's contexts, encrypts
    with the other's, latches the reply and forwards.  With the taps of
    plain_tap.rs.  It composes [SecureLeg], [Relay]'s latch, [CallFloor]'s gate
    and refusal log and the interception tap of [X3].

    The flows of a call share their parties' legs, so the legs are a store and a flow
    holds handles into it.  Operations run as whole steps: the dispatcher handles one
    datagram at a time, and a step of the control path comes before it or after it.
    A poisoned lock, which needs a panic while it is held, is left out, and so is the
    sibling DTLS bridge, of which only the question whether it owns an endpoint is
    asked.  What the datapath, the taps and the telemetry are told is a list of
    effects. *)

From stdpp Require Import base list numbers option gmap.
From Stdlib Require Import Lia ZArith.
From S2P Require Import Prelude Stun Rtcp Relay Replay Srtp Srtcp Text Sdes SecureLeg TurnAuth SrtcpGcm CallFloor Li X3.

Open Scope Z_scope.

(** ** The plaintext taps of an endpoint (plain_tap.rs) *)

(** Consumers by tag; a consumer is a handle on its channel. *)
Definition PlainTaps : Type := option (list (bytes * Z)).

Definition taps_without (taps : PlainTaps) (tag : bytes) : list (bytes * Z) :=
  filter (fun t => t.1 <> tag) (default [] taps).
Definition taps_add (taps : PlainTaps) (tag : bytes) (tap : Z) : PlainTaps := Some (taps_without taps tag ++ [(tag, tap)]).
Definition taps_remove (taps : PlainTaps) (tag : bytes) : PlainTaps :=
  let taps := taps_without taps tag in
  match taps with [] => None | _ => Some taps end.
Definition taps_is_empty (taps : PlainTaps) : bool := match taps with None => true | Some _ => false end.

Inductive BridgeLeg : Type := Near | Far.

#[export] Instance BridgeLeg_eq_dec : EqDecision BridgeLeg.
Proof. solve_decision. Defined.

Record BridgeFlowPlan : Type := mkBridgeFlowPlan {
  bf_endpoint : Z;
  bf_ingress_leg : option BridgeLeg;
  bf_egress_leg : option BridgeLeg;
  bf_accepted_source : SourceFilter;
  bf_latch : bool;
  bf_out_endpoint : Z;
  bf_out_dst : SocketAddr
}.

Record BridgeCallPlan : Type := mkBridgeCallPlan {
  bp_near_leg : option SecureLeg;
  bp_far_leg : option SecureLeg;
  bp_flows : list BridgeFlowPlan
}.

Record FlowLeg : Type := mkFlowLeg { fg_party : BridgeLeg; fg_leg : nat }.

Record Flow : Type := mkFlow {
  fl_accepted_source : SourceFilter;
  fl_latch : option (option (SourceLatch SocketAddr));
  fl_out_endpoint : Z;
  fl_out_dst : SocketAddr;
  fl_ingress_leg : option FlowLeg;
  fl_egress_leg : option FlowLeg;
  fl_x3 : option X3Tap;
  fl_refusals : Z;
  fl_plain_taps : PlainTaps
}.

Record SrtpBridge : Type := mkSrtpBridge {
  sb_flows : gmap Z Flow;
  sb_latched : gmap Z SocketAddr;
  sb_legs : list SecureLeg
}.

Inductive bridge_effect : Type :=
| NoteDropped (endpoint : Z)
| NoteActivity (endpoint : Z)
| Delivered (tap : X3Tap) (source : SocketAddr) (arrival : Z) (plaintext : bytes)
| Offered (tap : Z) (plaintext : bytes)
| ObservedRtcp (endpoint : Z) (source destination : SocketAddr) (plaintext : bytes)
| Sent (endpoint : Z) (destination : SocketAddr) (data : bytes)
| HandedToDtls (packet : RxPacket).

Definition SrtpBridge_new : SrtpBridge := mkSrtpBridge ∅ ∅ [].

Definition with_flow (b : SrtpBridge) (endpoint : Z) (f : Flow) : SrtpBridge :=
  mkSrtpBridge (<[endpoint := f]> (sb_flows b)) (sb_latched b) (sb_legs b).
Definition with_leg (b : SrtpBridge) (handle : nat) (leg : SecureLeg) : SrtpBridge :=
  mkSrtpBridge (sb_flows b) (sb_latched b) (<[handle := leg]> (sb_legs b)).
Definition adopt (b : SrtpBridge) (endpoint : Z) (source : SocketAddr) : SrtpBridge :=
  mkSrtpBridge (sb_flows b) (<[endpoint := source]> (sb_latched b)) (sb_legs b).

Definition set_x3 (f : Flow) (x3 : option X3Tap) : Flow :=
  mkFlow (fl_accepted_source f) (fl_latch f) (fl_out_endpoint f) (fl_out_dst f) (fl_ingress_leg f) (fl_egress_leg f) x3 (fl_refusals f) (fl_plain_taps f).
Definition set_taps (f : Flow) (taps : PlainTaps) : Flow :=
  mkFlow (fl_accepted_source f) (fl_latch f) (fl_out_endpoint f) (fl_out_dst f) (fl_ingress_leg f) (fl_egress_leg f) (fl_x3 f) (fl_refusals f) taps.
Definition set_latch (f : Flow) (latch : option (SourceLatch SocketAddr)) : Flow :=
  mkFlow (fl_accepted_source f) (Some latch) (fl_out_endpoint f) (fl_out_dst f) (fl_ingress_leg f) (fl_egress_leg f) (fl_x3 f) (fl_refusals f) (fl_plain_taps f).
Definition log_refusal (f : Flow) (r : Refusal) : Flow :=
  mkFlow (fl_accepted_source f) (fl_latch f) (fl_out_endpoint f) (fl_out_dst f) (fl_ingress_leg f) (fl_egress_leg f) (fl_x3 f)
    (refusal_log (fl_refusals f) r) (fl_plain_taps f).

(** ** The control path *)

Definition signalled_peer_moved (previous next : option SocketAddr) : bool :=
  match previous, next with Some previous, Some next => bool_decide (previous <> next) | _, _ => false end.

(** The handle of the party a flow names; the outer [None] is a leg the plan does not
    carry. *)
Definition resolve (near far : option nat) (which : option BridgeLeg) : option (option FlowLeg) :=
  match which with
  | None => Some None
  | Some party => handle ← (match party with Near => near | Far => far end); Some (Some (mkFlowLeg party handle))
  end.

Definition resolve_flow (near far : option nat) (flow : BridgeFlowPlan) : option (BridgeFlowPlan * option FlowLeg * option FlowLeg) :=
  ingress_leg ← resolve near far (bf_ingress_leg flow); egress_leg ← resolve near far (bf_egress_leg flow);
  Some (flow, ingress_leg, egress_leg).

(** The endpoints whose learned source a new flow makes stale. *)
Definition stale_of (b : SrtpBridge) (flow : BridgeFlowPlan) : list Z :=
  (match sb_latched b !! bf_endpoint flow with
   | Some latched => if accepts (bf_accepted_source flow) (sa_ip latched) then [] else [bf_endpoint flow]
   | None => []
   end) ++
  (match sb_flows b !! bf_endpoint flow with
   | Some previous =>
       if (fl_out_endpoint previous =? bf_out_endpoint flow) && signalled_peer_moved (Some (fl_out_dst previous)) (Some (bf_out_dst flow))
       then [bf_out_endpoint flow] else []
   | None => []
   end).

Definition install (flows : gmap Z Flow) (resolved : BridgeFlowPlan * option FlowLeg * option FlowLeg) : gmap Z Flow :=
  let '(flow, ingress_leg, egress_leg) := resolved in
  let '(x3, taps) := match flows !! bf_endpoint flow with Some previous => (fl_x3 previous, fl_plain_taps previous) | None => (None, None) end in
  <[bf_endpoint flow := mkFlow (bf_accepted_source flow) (if bf_latch flow then Some None else None) (bf_out_endpoint flow) (bf_out_dst flow)
      ingress_leg egress_leg x3 0 taps]> flows.

Definition register (b : SrtpBridge) (plan : BridgeCallPlan) : SrtpBridge :=
  let first := length (sb_legs b) in
  let near := (fun _ => first) <$> bp_near_leg plan in
  let far := (fun _ => (first + length (option_list (bp_near_leg plan)))%nat) <$> bp_far_leg plan in
  match mapM (resolve_flow near far) (bp_flows plan) with
  | None => b
  | Some resolved =>
      let stale := concat (stale_of b <$> bp_flows plan) in
      mkSrtpBridge (fold_left install resolved (sb_flows b)) (fold_left (fun m e => delete e m) stale (sb_latched b))
        (sb_legs b ++ option_list (bp_near_leg plan) ++ option_list (bp_far_leg plan))
  end.

Definition deregister (b : SrtpBridge) (endpoints : list Z) : SrtpBridge :=
  mkSrtpBridge (fold_left (fun m e => delete e m) endpoints (sb_flows b)) (fold_left (fun m e => delete e m) endpoints (sb_latched b)) (sb_legs b).

Definition latched_source (b : SrtpBridge) (endpoint : Z) : option SocketAddr := sb_latched b !! endpoint.
Definition accepted_source (b : SrtpBridge) (endpoint : Z) : option SourceFilter := fl_accepted_source <$> sb_flows b !! endpoint.
Definition latched_ssrc (b : SrtpBridge) (endpoint : Z) : option Z :=
  flow ← sb_flows b !! endpoint; latch ← fl_latch flow; SymmetricLatch_ssrc latch.

Definition party_leg (b : SrtpBridge) (endpoint : Z) (party : BridgeLeg) : option nat :=
  flow ← sb_flows b !! endpoint;
  fg_leg <$> head (filter (fun side => fg_party side = party) (option_list (fl_ingress_leg flow) ++ option_list (fl_egress_leg flow))).

Definition rollover_of (b : SrtpBridge) (side : option FlowLeg) : option SecureLegRollover :=
  side ← side; rollover_snapshot <$> sb_legs b !! fg_leg side.
Definition rollover_snapshots (b : SrtpBridge) (near_endpoint : Z) : option SecureLegRollover * option SecureLegRollover :=
  match sb_flows b !! near_endpoint with
  | Some flow => (rollover_of b (fl_ingress_leg flow), rollover_of b (fl_egress_leg flow))
  | None => (None, None)
  end.
Definition bridge_rollover_snapshot (b : SrtpBridge) (endpoint : Z) : option SecureLegRollover :=
  flow ← sb_flows b !! endpoint;
  rollover_of b (match fl_ingress_leg flow with Some side => Some side | None => fl_egress_leg flow end).

Definition plan_of (endpoint : Z) (flow : Flow) : BridgeFlowPlan :=
  mkBridgeFlowPlan endpoint (fg_party <$> fl_ingress_leg flow) (fg_party <$> fl_egress_leg flow) (fl_accepted_source flow)
    (bool_decide (is_Some (fl_latch flow))) (fl_out_endpoint flow) (fl_out_dst flow).
Definition flow_plans (b : SrtpBridge) (endpoints : list Z) : list BridgeFlowPlan :=
  omap (fun endpoint => plan_of endpoint <$> sb_flows b !! endpoint) endpoints.

(** The operations on taps; [None] where the sibling bridge is asked instead. *)
Definition change_flow (b : SrtpBridge) (endpoint : Z) (f : Flow -> Flow) : option SrtpBridge :=
  (fun flow => with_flow b endpoint (f flow)) <$> sb_flows b !! endpoint.
Definition set_x3_tap (b : SrtpBridge) (endpoint : Z) (tap : X3Tap) : option SrtpBridge := change_flow b endpoint (fun flow => set_x3 flow (Some tap)).
Definition clear_x3_tap (b : SrtpBridge) (endpoint : Z) : SrtpBridge := default b (change_flow b endpoint (fun flow => set_x3 flow None)).
Definition add_plain_tap (b : SrtpBridge) (endpoint : Z) (tag : bytes) (tap : Z) : option SrtpBridge :=
  change_flow b endpoint (fun flow => set_taps flow (taps_add (fl_plain_taps flow) tag tap)).
Definition remove_plain_tap (b : SrtpBridge) (endpoint : Z) (tag : bytes) : option SrtpBridge :=
  change_flow b endpoint (fun flow => set_taps flow (taps_remove (fl_plain_taps flow) tag)).

(** ** One redirected datagram *)

Section handle.
Context `{K : SrtpCrypto}.

(** Decrypt what arrived with the side's contexts, or pass it. *)
Definition open_side (b : SrtpBridge) (side : option FlowLeg) (data : bytes) : res SrtpError bytes * SrtpBridge :=
  match side with
  | None => (Ok data, b)
  | Some side =>
      match sb_legs b !! fg_leg side with
      | None => (Panic, b)
      | Some leg => let '(r, leg, plaintext) := leg_unprotect leg data [] in (_ ← r; Ok plaintext, with_leg b (fg_leg side) leg)
      end
  end.

Definition seal_side (b : SrtpBridge) (side : option FlowLeg) (plaintext : bytes) : res SrtpError bytes * SrtpBridge :=
  match side with
  | None => (Ok plaintext, b)
  | Some side =>
      match sb_legs b !! fg_leg side with
      | None => (Panic, b)
      | Some leg => let '(r, leg, sealed) := leg_protect leg plaintext [] in (_ ← r; Ok sealed, with_leg b (fg_leg side) leg)
      end
  end.

(** The reply latch, and the source it adopts. *)
Definition admit_side (b : SrtpBridge) (f : Flow) (endpoint : Z) (source : SocketAddr) (plaintext : bytes) : res unit (option SrtpBridge) :=
  match fl_latch f with
  | None => Ok (Some b)
  | Some latch =>
      ssrc ← rtp_media_ssrc plaintext;
      match SymmetricLatch_admit latch source ssrc with
      | (ReplyReject, _) => Ok None
      | (Accept adopted, latch) =>
          let b := with_flow b endpoint (set_latch f latch) in
          Ok (Some (match adopted with Some a => adopt b endpoint a | None => b end))
      end
  end.

Definition refuse (b : SrtpBridge) (f : Flow) (endpoint : Z) (r : option Refusal) : SrtpBridge * list bridge_effect :=
  (match r with Some r => with_flow b endpoint (log_refusal f r) | None => b end, [NoteDropped endpoint]).

Definition handle (dtls_owns : Z -> bool) (b : SrtpBridge) (packet : RxPacket) (arrival : Z) : res unit (SrtpBridge * list bridge_effect) :=
  let endpoint := rx_endpoint packet in
  let source := rx_source packet in
  if dtls_owns endpoint then Ok (b, [HandedToDtls packet]) else
  match sb_flows b !! endpoint with
  | None => Ok (b, [])
  | Some f =>
      if negb (accepts (fl_accepted_source f) (sa_ip source)) then Ok (refuse b f endpoint (Some UnsignalledSource)) else
      match open_side b (fl_ingress_leg f) (rx_data packet) with
      | (Panic, _) => Panic
      | (Err error, b) => Ok (refuse b f endpoint (of_unprotect error))
      | (Ok plaintext, b) =>
          match seal_side b (fl_egress_leg f) plaintext with
          | (Panic, _) => Panic
          | (Err _, b) => Ok (refuse b f endpoint None)
          | (Ok out, b) =>
              admitted ← admit_side b f endpoint source plaintext;
              match admitted with
              | None => Ok (refuse b f endpoint (Some NewSource))
              | Some b =>
                  let destination := default (fl_out_dst f) (sb_latched b !! fl_out_endpoint f) in
                  Ok (b,
                    [NoteActivity endpoint] ++
                    (match fl_x3 f with Some tap => [Delivered tap source arrival plaintext] | None => [] end) ++
                    (if negb (taps_is_empty (fl_plain_taps f)) && negb (is_rtcp plaintext)
                     then (fun t => Offered t.2 plaintext) <$> default [] (fl_plain_taps f) else []) ++
                    (if is_rtcp plaintext then [ObservedRtcp endpoint source destination plaintext] else []) ++
                    [Sent (fl_out_endpoint f) destination out])
              end
          end
      end
  end.
End handle.

(** * Proofs *)

(** ** Legs under hostile input *)

Section legs.
Context `{L : SrtpCryptoLaws}.
Context (keystream_bytes : forall key iv n, bytes_ok (ctr_keystream key iv n)).


(** ** Histories of a bridge *)

Inductive bridge_event : Type :=
| EvRegister (plan : BridgeCallPlan)
| EvDeregister (endpoints : list Z)
| EvSetX3 (endpoint : Z) (tap : X3Tap)
| EvClearX3 (endpoint : Z)
| EvAddTap (endpoint : Z) (tag : bytes) (tap : Z)
| EvRemoveTap (endpoint : Z) (tag : bytes)
| EvDatagram (packet : RxPacket) (arrival : Z).

Context (dtls_owns : Z -> bool).

Definition bridge_step (b : SrtpBridge) (e : bridge_event) : res unit (SrtpBridge * list bridge_effect) :=
  match e with
  | EvRegister plan => Ok (register b plan, [])
  | EvDeregister endpoints => Ok (deregister b endpoints, [])
  | EvSetX3 endpoint tap => Ok (default b (set_x3_tap b endpoint tap), [])
  | EvClearX3 endpoint => Ok (clear_x3_tap b endpoint, [])
  | EvAddTap endpoint tag tap => Ok (default b (add_plain_tap b endpoint tag tap), [])
  | EvRemoveTap endpoint tag => Ok (default b (remove_plain_tap b endpoint tag), [])
  | EvDatagram packet arrival => handle dtls_owns b packet arrival
  end.

(** The bridge after the events, and what each of them made it do. *)
Fixpoint bridge_run (b : SrtpBridge) (events : list bridge_event) : res unit (SrtpBridge * list (bridge_event * list bridge_effect)) :=
  match events with
  | [] => Ok (b, [])
  | e :: events =>
      r ← bridge_step b e;
      let '(b, es) := r in
      s ← bridge_run b events;
      let '(b, told) := s in Ok (b, (e, es) :: told)
  end.

(** A datagram from this address was relayed out of this endpoint's flow. *)
Definition heard (told : list (bridge_event * list bridge_effect)) (endpoint : Z) (a : SocketAddr) : Prop :=
  exists packet arrival es, (EvDatagram packet arrival, es) ∈ told /\ rx_endpoint packet = endpoint /\ rx_source packet = a /\ NoteActivity endpoint ∈ es.

Definition plan_ok (plan : BridgeCallPlan) : Prop :=
  Forall leg_inv (option_list (bp_near_leg plan) ++ option_list (bp_far_leg plan)).

Definition event_ok (e : bridge_event) : Prop :=
  match e with EvRegister plan => plan_ok plan | EvDatagram packet _ => bytes_ok (rx_data packet) | _ => True end.

Definition side_ok (n : nat) (side : option FlowLeg) : Prop := match side with Some s => (fg_leg s < n)%nat | None => True end.
Definition flow_ok (n : nat) (f : Flow) : Prop := side_ok n (fl_ingress_leg f) /\ side_ok n (fl_egress_leg f).

Record bridge_inv (b : SrtpBridge) (told : list (bridge_event * list bridge_effect)) : Prop := {
  bi_flows : forall e f, sb_flows b !! e = Some f -> flow_ok (length (sb_legs b)) f;
  bi_legs : Forall leg_inv (sb_legs b);
  bi_latched : forall e a, sb_latched b !! e = Some a -> heard told e a /\
    exists f, sb_flows b !! e = Some f /\ accepts (fl_accepted_source f) (sa_ip a) = true
}.

Lemma heard_more told more e a : heard told e a -> heard (told ++ more) e a.
Proof. intros (p & arr & es & Hin & H). exists p, arr, es. split; [|done]. apply elem_of_app. by left. Qed.

Lemma inv_more b told more : bridge_inv b told -> bridge_inv b (told ++ more).
Proof.
  intros [Hf Hl Ha]. constructor; [done|done|]. intros e a He. destruct (Ha e a He) as [Hh Hx]. split; [by apply heard_more|done].
Qed.

(** *** Registration *)

Lemma resolve_ok near far which side n : (match near with Some h => (h < n)%nat | None => True end) -> (match far with Some h => (h < n)%nat | None => True end) ->
  resolve near far which = Some side -> side_ok n side.
Proof. destruct which as [[]|]; cbn; [destruct near|destruct far|]; cbn; intros; simplify_eq; done. Qed.

Lemma install_all n resolved : forall flows, (forall e f, flows !! e = Some f -> flow_ok n f) ->
  Forall (fun r : BridgeFlowPlan * option FlowLeg * option FlowLeg => side_ok n r.1.2 /\ side_ok n r.2) resolved ->
  (forall e f, fold_left install resolved flows !! e = Some f -> flow_ok n f) /\
  (forall e f, flows !! e = Some f -> exists f', fold_left install resolved flows !! e = Some f' /\
    (f' = f \/ exists r, r ∈ resolved /\ bf_endpoint r.1.1 = e /\ fl_accepted_source f' = bf_accepted_source r.1.1)).
Proof.
  induction resolved as [|r resolved IH]; intros flows Hf Hr; cbn [fold_left].
  { split; [done|]. intros e f He. exists f. split; [done|by left]. }
  apply Forall_cons_1 in Hr as [[Hs1 Hs2] Hr]. destruct r as [[p i] o]. cbn [fst snd] in *.
  destruct (IH (install flows (p, i, o))) as [IH1 IH2]; [|done|].
  { intros e f. unfold install. destruct (match flows !! bf_endpoint p with Some _ => _ | None => _ end) as [x3 taps]. intros [[<- <-]|[Hne He]]%lookup_insert_Some; [done|by eapply Hf]. }
  split; [done|]. intros e f He. destruct (decide (bf_endpoint p = e)) as [<-|Hne].
  - unfold install in IH2 at 1. destruct (install flows (p, i, o) !! bf_endpoint p) as [f1|] eqn:E.
    + destruct (IH2 _ _ E) as (f' & Hf' & Hor). exists f'. split; [done|]. right. destruct Hor as [->|(r & Hin & Hr1 & Hr2)].
      * exists (p, i, o). split; [apply elem_of_cons; by left|]. split; [done|]. unfold install in E. rewrite He in E. rewrite lookup_insert_eq in E. by injection E as <-.
      * exists r. split; [apply elem_of_cons; by right|done].
    + unfold install in E. rewrite He, lookup_insert_eq in E. done.
  - destruct (IH2 e f) as (f' & Hf' & Hor).
    { unfold install. destruct (match flows !! bf_endpoint p with Some _ => _ | None => _ end) as [x3 taps]. by rewrite lookup_insert_ne. }
    exists f'. split; [done|]. destruct Hor as [->|(r & Hin & Hr1 & Hr2)]; [by left|right]. exists r. split; [apply elem_of_cons; by right|done].
Qed.

Lemma delete_all {A} (es : list Z) : forall (m : gmap Z A) e a, fold_left (fun m e => delete e m) es m !! e = Some a -> m !! e = Some a /\ e ∉ es.
Proof.
  induction es as [|x es IH]; intros m e a H; cbn [fold_left] in H; [split; [done|set_solver]|].
  destruct (IH _ _ _ H) as [Hd Hn]. apply lookup_delete_Some in Hd as [Hne Hd]. split; [done|set_solver].
Qed.

Lemma resolved_plans near far flows resolved : mapM (resolve_flow near far) flows = Some resolved ->
  (fun r : BridgeFlowPlan * option FlowLeg * option FlowLeg => r.1.1) <$> resolved = flows /\
  Forall (fun r => resolve near far (bf_ingress_leg r.1.1) = Some r.1.2 /\ resolve near far (bf_egress_leg r.1.1) = Some r.2) resolved.
Proof.
  intros H%mapM_Some_1. induction H as [|p [[p' i] o] flows resolved H _ [IH1 IH2]]; [by split|].
  unfold resolve_flow in H. destruct (resolve near far (bf_ingress_leg p)) as [i'|] eqn:Ei; [|done]. destruct (resolve near far (bf_egress_leg p)) as [o'|] eqn:Eo; [|done].
  cbn in H. injection H as -> -> ->. split; [rewrite fmap_cons; by rewrite IH1|]. by constructor.
Qed.

Lemma register_inv b told plan : plan_ok plan -> bridge_inv b told -> bridge_inv (register b plan) told.
Proof.
  intros Hp [Hf Hl Ha]. unfold register. set (near := _ <$> bp_near_leg plan). set (far := _ <$> bp_far_leg plan).
  destruct (mapM _ _) as [resolved|] eqn:Em; [|by constructor]. apply resolved_plans in Em as [Hplans Hres].
  set (legs := sb_legs b ++ _ ++ _). assert (length (sb_legs b) <= length legs)%nat as Hle by (unfold legs; rewrite length_app; lia).
  destruct (install_all (length legs) resolved (sb_flows b)) as [H1 H2].
  - intros e f He. destruct (Hf e f He) as [Hi Ho]. split; [destruct (fl_ingress_leg f)|destruct (fl_egress_leg f)]; cbn in *; lia || done.
  - eapply Forall_impl; [exact Hres|]. intros r [Hi Ho].
    split; (eapply resolve_ok; [| |eassumption]; unfold near, far, legs; rewrite !length_app; destruct (bp_near_leg plan), (bp_far_leg plan); cbn; lia || done).
  - constructor; cbn [sb_flows sb_latched sb_legs]; [done|by apply Forall_app|].
    intros e a [He Hst]%delete_all. destruct (Ha e a He) as (Hh & f & Hfe & Hacc). split; [done|]. destruct (H2 e f Hfe) as (f' & Hf' & Hor). exists f'. split; [done|].
    destruct Hor as [->|(r & Hin & Hr1 & ->)]; [done|]. destruct (accepts (bf_accepted_source r.1.1) (sa_ip a)) eqn:E; [done|]. exfalso. apply Hst.
    apply list_elem_of_In, in_concat. exists (stale_of b r.1.1). split.
    + apply list_elem_of_In, list_elem_of_fmap. exists r.1.1. split; [done|]. rewrite <- Hplans. apply list_elem_of_fmap. by exists r.
    + apply list_elem_of_In. unfold stale_of. rewrite Hr1, He, E. apply elem_of_app. left. apply list_elem_of_singleton. done.
Qed.

Lemma deregister_inv b told endpoints : bridge_inv b told -> bridge_inv (deregister b endpoints) told.
Proof.
  intros [Hf Hl Ha]. constructor; cbn [deregister sb_flows sb_latched sb_legs]; [|done|].
  - intros e f [He _]%delete_all. by eapply Hf.
  - intros e a [He Hn]%delete_all. destruct (Ha e a He) as (Hh & f & Hfe & Hacc). split; [done|]. exists f. split; [|done].
    revert Hfe Hn. generalize (sb_flows b). clear. induction endpoints as [|x es IH]; intros m Hm Hn; cbn [fold_left]; [done|].
    apply IH; [rewrite lookup_delete_ne by set_solver; done|set_solver].
Qed.

(** A change of a flow's taps, refusals or latch. *)
Lemma change_flow_inv b told endpoint f f' : bridge_inv b told -> sb_flows b !! endpoint = Some f ->
  fl_accepted_source f' = fl_accepted_source f -> fl_ingress_leg f' = fl_ingress_leg f -> fl_egress_leg f' = fl_egress_leg f -> bridge_inv (with_flow b endpoint f') told.
Proof.
  intros [Hf Hl Ha] He E1 E2 E3. constructor; cbn [with_flow sb_flows sb_latched sb_legs]; [|done|].
  - intros e g [[<- <-]|[Hne Hg]]%lookup_insert_Some; [|by eapply Hf]. unfold flow_ok. rewrite E2, E3. by eapply Hf.
  - intros e a Hl2. destruct (Ha e a Hl2) as (Hh & g & Hge & Hacc). split; [done|]. destruct (decide (endpoint = e)) as [<-|Hne].
    + exists f'. rewrite lookup_insert_eq. split; [done|]. rewrite E1. congruence.
    + exists g. by rewrite lookup_insert_ne.
Qed.

Lemma change_inv b told endpoint g : bridge_inv b told ->
  (forall f, fl_accepted_source (g f) = fl_accepted_source f /\ fl_ingress_leg (g f) = fl_ingress_leg f /\ fl_egress_leg (g f) = fl_egress_leg f) ->
  bridge_inv (default b (change_flow b endpoint g)) told.
Proof.
  intros Hi Hg. unfold change_flow. destruct (sb_flows b !! endpoint) as [f|] eqn:E; [|done]. cbn. destruct (Hg f) as (E1 & E2 & E3). by eapply change_flow_inv.
Qed.

(** *** One datagram *)

Lemma rtp_media_ssrc_total p : exists o, rtp_media_ssrc p = Ok o.
Proof.
  unfold rtp_media_ssrc. destruct (Z.ltb_spec (len p) 12); [by eexists|].
  rewrite !idx_byte_of by lia. rewrite !bind_Ok. destruct (negb _); [by eexists|]. destruct (_ && _); by eexists.
Qed.

Lemma with_leg_inv b told h leg : bridge_inv b told -> leg_inv leg -> bridge_inv (with_leg b h leg) told.
Proof.
  intros [Hf Hl Ha] Hleg. constructor; cbn [with_leg sb_flows sb_latched sb_legs]; [|by apply Forall_insert|done].
  intros e f He. rewrite length_insert. by eapply Hf.
Qed.

Lemma open_side_safe b told side data : bridge_inv b told -> side_ok (length (sb_legs b)) side -> bytes_ok data ->
  match open_side b side data with
  | (Ok plaintext, b') => bridge_inv b' told /\ bytes_ok plaintext
  | (Err _, b') => b' = b
  | (Panic, _) => False
  end /\ sb_flows (open_side b side data).2 = sb_flows b /\ sb_latched (open_side b side data).2 = sb_latched b /\
  length (sb_legs (open_side b side data).2) = length (sb_legs b).
Proof.
  intros Hi Hs Hd. unfold open_side. destruct side as [s|]; [|done]. destruct (lookup_lt_is_Some_2 (sb_legs b) (fg_leg s) Hs) as [leg Hleg]. rewrite Hleg.
  assert (leg_inv leg) as Hli by (by eapply Forall_lookup_1; [exact (bi_legs _ _ Hi)|]).
  pose proof (leg_unprotect_safe keystream_bytes leg data Hli Hd) as H. destruct (leg_unprotect leg data []) as [[r leg'] plaintext]. cbn [snd]. split; [|split_and!; [done|done|cbn [with_leg sb_legs]; by rewrite length_insert]].
  destruct r as [k|e|]; [destruct H as [H1 H2]; cbn; split; [by apply with_leg_inv|done]|subst leg'|done].
  cbn. unfold with_leg. rewrite list_insert_id by done. by destruct b.
Qed.

Lemma seal_side_safe b told side plaintext : bridge_inv b told -> side_ok (length (sb_legs b)) side -> bytes_ok plaintext ->
  match seal_side b side plaintext with
  | (Ok _, b') => bridge_inv b' told
  | (Err _, b') => b' = b
  | (Panic, _) => False
  end /\ sb_flows (seal_side b side plaintext).2 = sb_flows b /\ sb_latched (seal_side b side plaintext).2 = sb_latched b.
Proof.
  intros Hi Hs Hd. unfold seal_side. destruct side as [s|]; [|done]. destruct (lookup_lt_is_Some_2 (sb_legs b) (fg_leg s) Hs) as [leg Hleg]. rewrite Hleg.
  assert (leg_inv leg) as Hli by (by eapply Forall_lookup_1; [exact (bi_legs _ _ Hi)|]).
  pose proof (leg_protect_safe leg plaintext Hli Hd) as H. destruct (leg_protect leg plaintext []) as [[r leg'] out]. cbn [snd]. split; [|done].
  destruct r as [k|e|]; [cbn; by apply with_leg_inv|subst leg'|done].
  cbn. unfold with_leg. rewrite list_insert_id by done. by destruct b.
Qed.

(** The latch lets the source through: nothing is latched, it is the latched source,
    or it carries the latched stream's SSRC. *)
Definition latch_admits (f : Flow) (source : SocketAddr) (plaintext : bytes) : Prop :=
  forall l, fl_latch f = Some (Some l) ->
    sl_source l = source \/ exists ssrc, sl_ssrc l = Some ssrc /\ rtp_media_ssrc plaintext = Ok (Some ssrc).

Lemma admit_admits (latch : option (SourceLatch SocketAddr)) source ssrc a latch' : SymmetricLatch_admit latch source ssrc = (Accept a, latch') ->
  (forall l, latch = Some l -> sl_source l = source \/ exists n, sl_ssrc l = Some n /\ ssrc = Some n) /\ (a = None \/ a = Some source).
Proof.
  unfold SymmetricLatch_admit, source_latch_verdict. destruct latch as [l|]; [|destruct ssrc; intros [= <- <-]; split; auto; done].
  case_bool_decide as Hsrc.
  - intros H. split; [intros l0 [= ->]; by left|]. destruct (_ && _); [|injection H as <- <-; by right]. destruct ssrc; injection H as <- <-; auto.
  - destruct (sl_ssrc l) as [known|] eqn:Ek; [|done]. destruct ssrc as [seen|]; [|done]. destruct (Z.eqb_spec known seen) as [->|]; [|done]. intros [= <- <-].
    split; [|by right]. intros l0 [= ->]. right. by exists seen.
Qed.

Lemma admit_side_spec b told f endpoint source plaintext : bridge_inv b told -> sb_flows b !! endpoint = Some f -> accepts (fl_accepted_source f) (sa_ip source) = true ->
  exists admitted, admit_side b f endpoint source plaintext = Ok admitted /\
  match admitted with
  | None => True
  | Some b' => latch_admits f source plaintext /\
      (forall told', (forall e a, heard told e a -> heard told' e a) -> heard told' endpoint source -> bridge_inv b' told') /\
      (sb_latched b' = sb_latched b \/ sb_latched b' = <[endpoint := source]> (sb_latched b))
  end.
Proof.
  intros Hi Hf Hacc. unfold admit_side. destruct (fl_latch f) as [latch|] eqn:El.
  2: { eexists. split; [done|]. split; [by intros l; rewrite El|]. split; [|by left]. intros told' Hm _. destruct Hi as [H1 H2 H3]. constructor; [done|done|].
       intros e a He. destruct (H3 e a He) as [Hh Hx]. split; [by apply Hm|done]. }
  destruct (rtp_media_ssrc_total plaintext) as [ssrc Hs]. rewrite Hs, bind_Ok. destruct (SymmetricLatch_admit latch source ssrc) as [[a|] latch'] eqn:Ea; [|by eexists].
  destruct (admit_admits _ _ _ _ _ Ea) as [Hadm Ha]. eexists. split; [done|]. split_and!.
  - intros l Hl. rewrite El in Hl. injection Hl as ->. destruct (Hadm l eq_refl) as [->|(n & Hn & ->)]; [by left|right; by exists n].
  - intros told' Hm Hh. assert (bridge_inv (with_flow b endpoint (set_latch f latch')) told') as [H1 H2 H3].
    { apply (change_flow_inv _ _ _ f); [|done..]. destruct Hi as [H1 H2 H3]. constructor; [done|done|]. intros e a' He. destruct (H3 e a' He) as [Hh' Hx]. split; [by apply Hm|done]. }
    destruct Ha as [->| ->]; [by constructor|]. constructor; cbn [adopt sb_flows sb_latched sb_legs]; [done|done|].
    intros e a' [[<- <-]|[Hne He]]%lookup_insert_Some; [|by apply H3]. split; [done|]. eexists. cbn [with_flow sb_flows]. rewrite lookup_insert_eq. split; [done|exact Hacc].
  - destruct Ha as [->| ->]; [by left|by right].
Qed.

(** What a relayed datagram makes the bridge do. *)
Definition relay_effect (f : Flow) (plaintext out : bytes) (destination : SocketAddr) (x : bridge_effect) : Prop :=
  match x with
  | Sent endpoint dst data => endpoint = fl_out_endpoint f /\ dst = destination /\ data = out
  | Delivered _ _ _ p | Offered _ p | ObservedRtcp _ _ _ p => p = plaintext
  | NoteActivity _ => True
  | NoteDropped _ | HandedToDtls _ => False
  end.

Definition relayed (b : SrtpBridge) (packet : RxPacket) (b' : SrtpBridge) (es : list bridge_effect) : Prop :=
  exists f plaintext out b1 b2,
    sb_flows b !! rx_endpoint packet = Some f /\ accepts (fl_accepted_source f) (sa_ip (rx_source packet)) = true /\
    open_side b (fl_ingress_leg f) (rx_data packet) = (Ok plaintext, b1) /\ seal_side b1 (fl_egress_leg f) plaintext = (Ok out, b2) /\
    latch_admits f (rx_source packet) plaintext /\ NoteActivity (rx_endpoint packet) ∈ es /\
    Sent (fl_out_endpoint f) (default (fl_out_dst f) (sb_latched b' !! fl_out_endpoint f)) out ∈ es /\
    Forall (relay_effect f plaintext out (default (fl_out_dst f) (sb_latched b' !! fl_out_endpoint f))) es /\
    (sb_latched b' = sb_latched b \/ sb_latched b' = <[rx_endpoint packet := rx_source packet]> (sb_latched b)).

(** Not relayed: at most a drop is counted, and no reply is steered. *)
Definition withheld (b : SrtpBridge) (packet : RxPacket) (b' : SrtpBridge) (es : list bridge_effect) : Prop :=
  (es = [] \/ es = [NoteDropped (rx_endpoint packet)] \/ es = [HandedToDtls packet]) /\ sb_latched b' = sb_latched b /\
  (forall e, fl_latch <$> sb_flows b' !! e = fl_latch <$> sb_flows b !! e).

Lemma refuse_withheld b told b0 packet f r : bridge_inv b told -> sb_flows b = sb_flows b0 -> sb_latched b = sb_latched b0 -> sb_flows b0 !! rx_endpoint packet = Some f ->
  let '(b', es) := refuse b f (rx_endpoint packet) r in bridge_inv b' told /\ withheld b0 packet b' es.
Proof.
  intros Hi Ef El Hf. unfold refuse. rewrite <- Ef in Hf. destruct r as [r|].
  - split; [by apply (change_flow_inv _ _ _ f)|]. split; [auto|]. split; [done|]. intros e. cbn [with_flow sb_flows]. rewrite <- Ef.
    destruct (decide (rx_endpoint packet = e)) as [<-|Hne]; [by rewrite lookup_insert_eq, Hf|by rewrite lookup_insert_ne].
  - split; [done|]. split; [auto|]. split; [done|]. intros e. by rewrite Ef.
Qed.

Lemma handle_spec b told packet arrival : bridge_inv b told -> bytes_ok (rx_data packet) ->
  exists b' es, handle dtls_owns b packet arrival = Ok (b', es) /\ bridge_inv b' (told ++ [(EvDatagram packet arrival, es)]) /\
    (withheld b packet b' es \/ relayed b packet b' es).
Proof.
  intros Hi Hb. unfold handle. destruct (dtls_owns _). { eexists b, _. split; [done|]. split; [by apply inv_more|]. left. split; [auto|done]. }
  destruct (sb_flows b !! rx_endpoint packet) as [f|] eqn:Hf. 2: { eexists b, _. split; [done|]. split; [by apply inv_more|]. left. split; [auto|done]. }
  assert (forall b1 r, bridge_inv b1 told -> sb_flows b1 = sb_flows b -> sb_latched b1 = sb_latched b ->
    exists b' es, @Ok unit _ (refuse b1 f (rx_endpoint packet) r) = Ok (b', es) /\ bridge_inv b' (told ++ [(EvDatagram packet arrival, es)]) /\
      (withheld b packet b' es \/ relayed b packet b' es)) as Hrefuse.
  { intros b1 r Hi1 E1 E2. pose proof (refuse_withheld b1 told b packet f r Hi1 E1 E2 Hf) as H. destruct (refuse b1 f _ r) as [b' es]. destruct H as [H1 H2].
    exists b', es. split; [done|]. split; [by apply inv_more|by left]. }
  destruct (accepts _ _) eqn:Hacc; cbn [negb]; [|by apply Hrefuse].
  destruct (bi_flows _ _ Hi _ _ Hf) as [Hs1 Hs2].
  destruct (open_side_safe b told (fl_ingress_leg f) (rx_data packet) Hi Hs1 Hb) as (Ho & Ho1 & Ho2 & Ho3).
  destruct (open_side b (fl_ingress_leg f) (rx_data packet)) as [[plaintext|e|] b1] eqn:Eo; cbn [snd] in *; [|subst b1; by apply Hrefuse|done]. destruct Ho as [Hi1 Hbp].
  rewrite <- Ho3 in Hs2. destruct (seal_side_safe b1 told (fl_egress_leg f) plaintext Hi1 Hs2 Hbp) as (Hse & Hse1 & Hse2).
  destruct (seal_side b1 (fl_egress_leg f) plaintext) as [[out|e|] b2] eqn:Es; cbn [snd] in *; [|subst b2; by apply Hrefuse|done].
  assert (sb_flows b2 = sb_flows b) as Ef by congruence. assert (sb_latched b2 = sb_latched b) as El by congruence.
  destruct (admit_side_spec b2 told f (rx_endpoint packet) (rx_source packet) plaintext Hse ltac:(by rewrite Ef) Hacc) as (admitted & -> & Hadm). rewrite bind_Ok.
  destruct admitted as [b3|]; [|by apply Hrefuse]. destruct Hadm as (Hl & Hinv & Hlat). set (dst := default _ _).
  eexists b3, _. split; [done|]. set (es := [NoteActivity _] ++ _). assert (NoteActivity (rx_endpoint packet) ∈ es) as Hact by (apply elem_of_app; left; by apply list_elem_of_singleton).
  split.
  - apply Hinv; [intros e a; by apply heard_more|]. exists packet, arrival, es. split; [|done]. apply elem_of_app. right. by apply list_elem_of_singleton.
  - right. exists f, plaintext, out, b1, b2. split_and!; try done; [| |by rewrite <- El].
    + unfold es. rewrite !elem_of_app. do 4 right. by apply list_elem_of_singleton.
    + unfold es. repeat (apply Forall_app; split); try (by repeat constructor).
      * destruct (fl_x3 f); by repeat constructor.
      * destruct (_ && _); [|constructor]. apply Forall_fmap, list.Forall_forall. done.
      * destruct (is_rtcp plaintext); by repeat constructor.
Qed.

Lemma empty_inv : bridge_inv SrtpBridge_new [].
Proof. constructor; [|constructor|]; intros e x; cbn; by rewrite lookup_empty. Qed.

Lemma bridge_run_inv events : Forall event_ok events -> forall b told, bridge_inv b told ->
  exists b' more, bridge_run b events = Ok (b', more) /\ bridge_inv b' (told ++ more).
Proof.
  induction 1 as [|e events He _ IH]; intros b told Hi; cbn [bridge_run]. { exists b, []. split; [done|by rewrite app_nil_r]. }
  assert (exists b1 es, bridge_step b e = Ok (b1, es) /\ bridge_inv b1 (told ++ [(e, es)])) as (b1 & es & -> & Hi1).
  { destruct e as [plan|endpoints|endpoint tap|endpoint|endpoint tag tap|endpoint tag|packet arrival]; cbn [bridge_step].
    - eexists _, _. split; [done|]. by apply inv_more, register_inv.
    - eexists _, _. split; [done|]. by apply inv_more, deregister_inv.
    - eexists _, _. split; [done|]. apply inv_more. by apply change_inv.
    - eexists _, _. split; [done|]. apply inv_more. by apply change_inv.
    - eexists _, _. split; [done|]. apply inv_more. by apply change_inv.
    - eexists _, _. split; [done|]. apply inv_more. by apply change_inv.
    - destruct (handle_spec b told packet arrival Hi He) as (b' & es & H1 & H2 & _). by eexists _, _. }
  rewrite bind_Ok. destruct (IH b1 _ Hi1) as (b' & more & -> & Hi'). rewrite bind_Ok. exists b', ((e, es) :: more). split; [done|]. by rewrite <- app_assoc in Hi'.
Qed.


End legs.

(** ** A call through the bridge *)

Section call.
Context `{L : SrtpCryptoLaws}.

(** A party: the keys its transport negotiated, the engine's and its own, if it
    negotiated SRTP; where it sends from; the address it signalled and the gate the
    engine installed for it. *)
Record party : Type := mkParty {
  pt_keys : option (SrtpKeyMaterial * SrtpKeyMaterial);
  pt_address : SocketAddr;
  pt_signalled : SocketAddr;
  pt_gate : SourceFilter
}.

Context (parties : BridgeLeg -> party) (endpoint_of : BridgeLeg -> Z).
Context (endpoints_differ : endpoint_of Near <> endpoint_of Far).
Context (gates_admit : forall s, accepts (pt_gate (parties s)) (sa_ip (pt_address (parties s))) = true).
Context (keys_ok : forall s local remote, pt_keys (parties s) = Some (local, remote) -> key_ok local /\ key_ok remote).

Definition other (s : BridgeLeg) : BridgeLeg := match s with Near => Far | Far => Near end.
Definition secure (s : BridgeLeg) : bool := match pt_keys (parties s) with Some _ => true | None => false end.
Definition leg_name (s : BridgeLeg) : option BridgeLeg := if secure s then Some s else None.

Definition flow_plan (s : BridgeLeg) : BridgeFlowPlan :=
  mkBridgeFlowPlan (endpoint_of s) (leg_name s) (leg_name (other s)) (pt_gate (parties s)) true (endpoint_of (other s)) (pt_signalled (parties (other s))).
Definition engine_leg (s : BridgeLeg) : option SecureLeg := (fun k => SecureLeg_new k.1 k.2) <$> pt_keys (parties s).
Definition party_side (s : BridgeLeg) : option SecureLeg := (fun k => SecureLeg_new k.2 k.1) <$> pt_keys (parties s).
Definition call_plan : BridgeCallPlan := mkBridgeCallPlan (engine_leg Near) (engine_leg Far) [flow_plan Near; flow_plan Far].

(** The bridge and the legs the parties hold. *)
Record world : Type := mkWorld { wd_bridge : SrtpBridge; wd_party : BridgeLeg -> option SecureLeg }.

Definition set_party (p : BridgeLeg -> option SecureLeg) (s : BridgeLeg) (leg : option SecureLeg) : BridgeLeg -> option SecureLeg :=
  fun t => if decide (s = t) then leg else p t.

Definition kind_of (packet : bytes) : PacketKind := if is_rtcp packet then KindRtcp else KindRtp.

Definition party_protect (leg : option SecureLeg) (packet : bytes) : res SrtpError PacketKind * option SecureLeg * bytes :=
  match leg with
  | Some leg => let '(r, leg, wire) := leg_protect leg packet [] in (r, Some leg, wire)
  | None => (Ok (kind_of packet), None, packet)
  end.
Definition party_unprotect (leg : option SecureLeg) (wire : bytes) : res SrtpError PacketKind * option SecureLeg * bytes :=
  match leg with
  | Some leg => let '(r, leg, packet) := leg_unprotect leg wire [] in (r, Some leg, packet)
  | None => (Ok (kind_of wire), None, wire)
  end.

Inductive world_event : Type :=
| Talk (from : BridgeLeg) (it : item) (lost_in lost_out : bool)
| Noise (at_ : BridgeLeg) (source : SocketAddr) (data : bytes).

Definition sent_of (es : list bridge_effect) : list (Z * SocketAddr * bytes) :=
  omap (fun x => match x with Sent e dst data => Some (e, dst, data) | _ => None end) es.

(** What reaches a party: the endpoint it came from, the address it was sent to, and
    what the party's own leg made of it. *)
Definition arrival_at : Type := Z * SocketAddr * res SrtpError PacketKind * bytes.

Definition world_step (w : world) (e : world_event) : list arrival_at * world :=
  match e with
  | Talk s it lost_in lost_out =>
      let '(_, leg, wire) := party_protect (wd_party w s) (item_packet it) in
      let p := set_party (wd_party w) s leg in
      if (lost_in : bool) then ([], mkWorld (wd_bridge w) p) else
      match handle (fun _ => false) (wd_bridge w) (mkRxPacket (endpoint_of s) (pt_address (parties s)) wire) 0 with
      | Ok (b, es) =>
          match sent_of es with
          | [(endpoint, dst, data)] =>
              if (lost_out : bool) then ([], mkWorld b p) else
              let '(r, leg, packet) := party_unprotect (p (other s)) data in
              ([(endpoint, dst, r, packet)], mkWorld b (set_party p (other s) leg))
          | _ => ([], mkWorld b p)
          end
      | _ => ([], w)
      end
  | Noise s source data =>
      match handle (fun _ => false) (wd_bridge w) (mkRxPacket (endpoint_of s) source data) 0 with
      | Ok (b, es) => ((fun x => (x.1.1, x.1.2, Panic, x.2)) <$> sent_of es, mkWorld b (wd_party w))
      | _ => ([], w)
      end
  end.

Fixpoint world_run (w : world) (events : list world_event) : list arrival_at :=
  match events with
  | [] => []
  | e :: events => (world_step w e).1 ++ world_run (world_step w e).2 events
  end.

Definition world_start : world := mkWorld (register SrtpBridge_new call_plan) party_side.

(** What should arrive: every packet that was not lost, as it was, at the party's true
    address as soon as media of its own has reached the bridge, at the signalled one
    before. *)
Definition hears (known : BridgeLeg -> bool) (s : BridgeLeg) (it : item) : BridgeLeg -> bool :=
  fun t => known t || (bool_decide (s = t) && match it with RtpItem _ _ _ => true | RtcpItem _ => false end).

Fixpoint expected (known : BridgeLeg -> bool) (events : list world_event) : list arrival_at :=
  match events with
  | [] => []
  | Talk s it false lost_out :: events =>
      (if (lost_out : bool) then [] else
       [(endpoint_of (other s), (if known (other s) then pt_address (parties (other s)) else pt_signalled (parties (other s))), Ok (item_kind it), item_packet it)]) ++
      expected (hears known s it) events
  | _ :: events => expected known events
  end.

(** Every hop's numbering, as [SecureLeg] counts it: from a party to the bridge and
    from the bridge to a party. *)
Record hops : Type := mkHops { hp_in : BridgeLeg -> numbering; hp_out : BridgeLeg -> numbering }.

Definition put_hop (f : BridgeLeg -> numbering) (s : BridgeLeg) (n : numbering) : BridgeLeg -> numbering := fun t => if decide (s = t) then n else f t.

Definition count_talk (h : hops) (s : BridgeLeg) (it : item) (lost_in lost_out : bool) : hops :=
  mkHops (put_hop (hp_in h) s (count_event (hp_in h s) (Send it lost_in)))
    (if (lost_in : bool) then hp_out h else put_hop (hp_out h) (other s) (count_event (hp_out h (other s)) (Send it lost_out))).

Definition item_ok (it : item) : Prop :=
  match it with
  | RtpItem ssrc i p => packet_for ssrc (i, p) /\ is_rtcp p = false
  | RtcpItem p => rtcp_ok p /\ is_rtcp p = true
  end.

(** A party's packets are well formed and, where a hop is secured, numbered as SRTP
    requires; noise comes from a source the gate refuses, or is not authentic. *)
Definition world_event_ok (w : world) (h : hops) (e : world_event) : Prop :=
  match e with
  | Talk s it lost_in lost_out =>
      item_ok it /\ (secure s = true -> SecureLeg.event_ok (hp_in h s) (Send it lost_in)) /\
      (secure (other s) = true -> lost_in = false -> SecureLeg.event_ok (hp_out h (other s)) (Send it lost_out))
  | Noise s source data =>
      accepts (pt_gate (parties s)) (sa_ip source) = false \/
      exists f error, sb_flows (wd_bridge w) !! endpoint_of s = Some f /\ (open_side (wd_bridge w) (fl_ingress_leg f) data).1 = Err error
  end.

Fixpoint world_events_ok (w : world) (h : hops) (events : list world_event) : Prop :=
  match events with
  | [] => True
  | e :: events =>
      world_event_ok w h e /\
      world_events_ok (world_step w e).2 (match e with Talk s it i o => count_talk h s it i o | Noise _ _ _ => h end) events
  end.

Definition no_hops : hops := mkHops (fun _ => no_numbers) (fun _ => no_numbers).

(** *** Hops *)

Lemma call_ok_frame ka a b n a' b' : call_ok ka a b n -> sl_outbound_rtp a' = sl_outbound_rtp a -> sl_outbound_rtcp a' = sl_outbound_rtcp a ->
  sl_inbound_rtp b' = sl_inbound_rtp b -> sl_inbound_rtcp b' = sl_inbound_rtcp b -> call_ok ka a' b' n.
Proof. intros [] E1 E2 E3 E4. split; rewrite ?E1, ?E2, ?E3, ?E4; done. Qed.

Lemma protect_inbound leg p : let leg' := (leg_protect leg p []).1.2 in sl_inbound_rtp leg' = sl_inbound_rtp leg /\ sl_inbound_rtcp leg' = sl_inbound_rtcp leg.
Proof. unfold leg_protect. destruct (is_rtcp p); [destruct (SrtcpContext_protect _ _ _) as [[? ?] ?]|destruct (SrtpContext_protect _ _ _) as [[? ?] ?]]; done. Qed.

Lemma unprotect_outbound leg p : let leg' := (leg_unprotect leg p []).1.2 in sl_outbound_rtp leg' = sl_outbound_rtp leg /\ sl_outbound_rtcp leg' = sl_outbound_rtcp leg.
Proof. unfold leg_unprotect. destruct (is_rtcp p); [destruct (SrtcpContext_unprotect _ _ _) as [[? ?] ?]|destruct (SrtpContext_unprotect _ _ _) as [[? ?] ?]]; done. Qed.

(** One secured hop of an item. *)
Lemma hop ka a b n it lost : key_ok ka -> call_ok ka a b n -> SecureLeg.event_ok n (Send it lost) ->
  exists a' wire, leg_protect a (item_packet it) [] = (Ok (item_kind it), a', wire) /\
    if (lost : bool) then call_ok ka a' b (count_event n (Send it lost))
    else exists b', leg_unprotect b wire [] = (Ok (item_kind it), b', item_packet it) /\ call_ok ka a' b' (count_event n (Send it lost)).
Proof.
  intros Hka Hc He.
  assert (exists a' wire, leg_protect a (item_packet it) [] = (Ok (item_kind it), a', wire)) as (a' & wire & Hprot).
  { unfold leg_protect. destruct (context_ok ka Hka) as [Hx1 Hx2]. destruct it as [ssrc i p|p]; cbn [item_packet item_kind].
    - destruct He as (Hp & Hk & _ & Hnear & _). destruct (co_out _ _ _ _ Hc ssrc) as [Hs Hidx]. rewrite Hk.
      destruct (protect_wire (sl_outbound_rtp a) ssrc (i, p) []) as (s' & wire & Hprot & _); [by eapply ctx_ok_same, Hx1; apply (co_out_keys _ _ _ _ Hc)|done|done|by rewrite Hidx|]. cbn [fst snd] in Hprot. rewrite Hprot. by eexists _, _.
    - destruct He as (Hp & Hk & Hm). rewrite Hk. destruct (co_outc _ _ _ _ Hc).
      destruct (srtcp_protect_wire (sl_outbound_rtcp a) p []) as (wire & -> & _); [by eapply srtcp_ok_same, Hx2; apply (co_outc_keys _ _ _ _ Hc)|done|lia|]. by eexists _, _. }
  exists a', wire. split; [done|].
  assert (let '(out, (a1, b1)) := call_step ka ka (a, b) (Send it lost) in out = delivered [Send it lost] /\ call_ok ka a1 b1 (count_event n (Send it lost))) as H.
  { destruct it as [ssrc i p|p]; [by apply send_rtp|by apply send_rtcp]. }
  cbn [call_step fst snd] in H. rewrite Hprot in H. destruct lost; [by destruct H|].
  destruct (leg_unprotect b wire []) as [[r b'] out]. destruct H as [Hd Hok]. exists b'. cbn [delivered] in Hd. injection Hd as -> ->. done.
Qed.

Lemma kind_item it : item_ok it -> kind_of (item_packet it) = item_kind it.
Proof. unfold kind_of. destruct it; cbn; intros [_ ->]; done. Qed.

(** The SSRC by which the latch knows an item. *)
Lemma item_ssrc it : item_ok it -> rtp_media_ssrc (item_packet it) = Ok (match it with RtpItem ssrc _ _ => Some ssrc | RtcpItem _ => None end).
Proof.
  unfold rtp_media_ssrc. destruct it as [ssrc i p|p]; cbn [item_packet item_ok].
  - intros [[Hb (hl & Hp)] Hk]. cbn [snd] in *. unfold parse_rtp_header in Hp. destruct (Z.ltb_spec (len p) 12) as [|Hl]; [done|]. rewrite !idx_byte_of in * by lia. rewrite !bind_Ok in *.
    destruct (negb _); [done|]. unfold is_rtcp in Hk. rewrite (proj2 (Z.leb_le 2 _)) in Hk by lia. cbn [andb] in Hk. cbv zeta in Hk. rewrite Hk. bind_inv Hp seq Hs. bind_inv Hp ssrc' Hss.
    unfold be32_at in Hss. rewrite !idx_byte_of, !bind_Ok in Hss by lia. bind_inv Hp h Hh. destruct (_ <? _) in Hp; [done|]. injection Hp as _ <- _. by injection Hss as <-.
  - intros [(Hb & Hl & Hv) Hk]. destruct (Z.ltb_spec (len p) 12) as [|Hl2]; [done|]. rewrite !idx_byte_of, !bind_Ok by lia. destruct (negb _); [done|].
    unfold is_rtcp in Hk. rewrite (proj2 (Z.leb_le 2 _)) in Hk by lia. cbn [andb] in Hk. cbv zeta in Hk. by rewrite Hk.
Qed.

(** *** The invariant of a call *)

Definition handle_of (s : BridgeLeg) : nat := match s with Near => 0 | Far => if secure Near then 1 else 0 end.
Definition side_of (s : BridgeLeg) : option FlowLeg := if secure s then Some (mkFlowLeg s (handle_of s)) else None.

(** The store and the parties agree with the numbering of every hop. *)
Definition legs_ok (legs : list SecureLeg) (pty : BridgeLeg -> option SecureLeg) (h : hops) : Prop :=
  forall s, match pt_keys (parties s) with
  | Some (local, remote) => exists e p, legs !! handle_of s = Some e /\ pty s = Some p /\ call_ok remote p e (hp_in h s) /\ call_ok local e p (hp_out h s)
  | None => pty s = None
  end.

Definition flow_is (s : BridgeLeg) (known : bool) (f : Flow) : Prop :=
  fl_accepted_source f = pt_gate (parties s) /\ fl_out_endpoint f = endpoint_of (other s) /\ fl_out_dst f = pt_signalled (parties (other s)) /\
  fl_ingress_leg f = side_of s /\ fl_egress_leg f = side_of (other s) /\
  exists l, fl_latch f = Some l /\ if (known : bool) then exists n, l = Some (mkSourceLatch (pt_address (parties s)) (Some n)) else l = None.

Definition paths_ok (b : SrtpBridge) (known : BridgeLeg -> bool) : Prop :=
  forall s, (exists f, sb_flows b !! endpoint_of s = Some f /\ flow_is s (known s) f) /\
    sb_latched b !! endpoint_of s = if known s then Some (pt_address (parties s)) else None.

Lemma endpoint_ne s : endpoint_of s <> endpoint_of (other s).
Proof. destruct s; cbn; congruence. Qed.

Lemma other_cases s t : t = s \/ t = other s.
Proof. destruct s, t; auto. Qed.

Lemma handle_ne s t : s <> t -> secure s = true -> secure t = true -> handle_of s <> handle_of t.
Proof. intros Hne Hs Ht. destruct s, t; cbn [handle_of]; try done; rewrite ?Hs, ?Ht; done. Qed.

(** A change of one party's legs on both sides of its hop. *)
Lemma legs_ok_put legs pty h s local remote e' p' n m : legs_ok legs pty h -> pt_keys (parties s) = Some (local, remote) ->
  call_ok remote p' e' n -> call_ok local e' p' m ->
  legs_ok (<[handle_of s := e']> legs) (set_party pty s (Some p')) (mkHops (put_hop (hp_in h) s n) (put_hop (hp_out h) s m)).
Proof.
  intros Hl Hk Hn Hm t. unfold set_party, put_hop. cbn [hp_in hp_out]. destruct (decide (s = t)) as [<-|Hne].
  - rewrite Hk. exists e', p'. rewrite list_lookup_insert_eq; [done|]. specialize (Hl s). rewrite Hk in Hl. destruct Hl as (e & p & He & _). by eapply lookup_lt_Some.
  - specialize (Hl t). destruct (pt_keys (parties t)) as [[local' remote']|] eqn:Ek; [|done]. destruct Hl as (e & p & He & Hrest). exists e, p. split; [|done].
    rewrite list_lookup_insert_ne; [done|]. apply handle_ne; [done|unfold secure; by rewrite Hk|unfold secure; by rewrite Ek].
Qed.

Lemma legs_ok_hops legs pty h h' : legs_ok legs pty h -> (forall s, secure s = true -> hp_in h' s = hp_in h s /\ hp_out h' s = hp_out h s) -> legs_ok legs pty h'.
Proof.
  intros Hl Hh s. specialize (Hl s). destruct (pt_keys (parties s)) as [[local remote]|] eqn:Ek; [|done]. destruct (Hh s) as [-> ->]; [unfold secure; by rewrite Ek|done].
Qed.

Lemma legs_ok_party legs pty pty' h : legs_ok legs pty h -> (forall s, pty' s = pty s) -> legs_ok legs pty' h.
Proof. intros Hl Hp s. specialize (Hl s). by rewrite Hp. Qed.

Lemma put_same f s t : put_hop f s (f s) t = f t.
Proof. unfold put_hop. by destruct (decide (s = t)) as [<-|]. Qed.

(** A party's packet on its way to the bridge. *)
Lemma enter legs pty h s it lost : legs_ok legs pty h -> item_ok it -> (secure s = true -> SecureLeg.event_ok (hp_in h s) (Send it lost)) ->
  exists leg wire, party_protect (pty s) (item_packet it) = (Ok (item_kind it), leg, wire) /\
    let pty' := set_party pty s leg in
    let h' := mkHops (put_hop (hp_in h) s (count_event (hp_in h s) (Send it lost))) (hp_out h) in
    if (lost : bool) then legs_ok legs pty' h'
    else forall b, sb_legs b = legs -> exists b', open_side b (side_of s) wire = (Ok (item_packet it), b') /\
      sb_flows b' = sb_flows b /\ sb_latched b' = sb_latched b /\ legs_ok (sb_legs b') pty' h'.
Proof.
  intros Hl Hit He. pose proof (Hl s) as Hs. unfold side_of, secure in *. destruct (pt_keys (parties s)) as [[local remote]|] eqn:Ek.
  - destruct Hs as (e & p & Hle & Hp & Hin & Hout). rewrite Hp. destruct (keys_ok s local remote Ek) as [_ Hkr].
    destruct (hop remote p e (hp_in h s) it lost Hkr Hin (He eq_refl)) as (p' & wire & Hprot & Hrest). exists (Some p'), wire. cbn [party_protect]. rewrite Hprot. split; [done|].
    pose proof (protect_inbound p (item_packet it)) as [Hpi1 Hpi2]. rewrite Hprot in Hpi1, Hpi2. cbn [fst snd] in Hpi1, Hpi2.
    destruct lost.
    + eapply legs_ok_hops; [|intros t _].
      * rewrite <- (list_insert_id legs (handle_of s) e) by done. eapply legs_ok_put; [exact Hl|exact Ek|exact Hrest|]. eapply call_ok_frame; [exact Hout|done..].
      * cbn [hp_in hp_out]. by rewrite put_same.
    + destruct Hrest as (e' & Hun & Hin'). intros b <-. cbn [open_side fg_leg]. rewrite Hle, Hun. eexists. split; [done|]. split; [done|]. split; [done|]. cbn [with_leg sb_legs fg_leg].
      pose proof (unprotect_outbound e wire) as [Hpo1 Hpo2]. rewrite Hun in Hpo1, Hpo2. cbn [fst snd] in Hpo1, Hpo2.
      eapply legs_ok_hops; [|intros t _].
      * eapply legs_ok_put; [exact Hl|exact Ek|exact Hin'|]. eapply call_ok_frame; [exact Hout|done..].
      * cbn [hp_in hp_out]. by rewrite put_same.
  - rewrite Hs. exists None, (item_packet it). cbn [party_protect]. rewrite kind_item by done. split; [done|].
    assert (legs_ok legs (set_party pty s None) (mkHops (put_hop (hp_in h) s (count_event (hp_in h s) (Send it lost))) (hp_out h))) as H.
    { eapply legs_ok_party; [eapply legs_ok_hops; [exact Hl|]|].
      - intros t Ht. cbn. unfold put_hop. destruct (decide (s = t)) as [<-|]; [|done]. unfold secure in Ht. by rewrite Ek in Ht.
      - intros t. unfold set_party. destruct (decide (s = t)) as [<-|]; [by rewrite Hs|done]. }
    destruct lost; [done|]. intros b <-. exists b. done.
Qed.

(** And from the bridge to the other one. *)
Lemma leave b pty h s it lost : legs_ok (sb_legs b) pty h -> item_ok it -> (secure s = true -> SecureLeg.event_ok (hp_out h s) (Send it lost)) ->
  exists out b', seal_side b (side_of s) (item_packet it) = (Ok out, b') /\ sb_flows b' = sb_flows b /\ sb_latched b' = sb_latched b /\
    let h' := mkHops (hp_in h) (put_hop (hp_out h) s (count_event (hp_out h s) (Send it lost))) in
    if (lost : bool) then legs_ok (sb_legs b') pty h'
    else exists leg, party_unprotect (pty s) out = (Ok (item_kind it), leg, item_packet it) /\ legs_ok (sb_legs b') (set_party pty s leg) h'.
Proof.
  intros Hl Hit He. pose proof (Hl s) as Hs. unfold side_of, secure in *. destruct (pt_keys (parties s)) as [[local remote]|] eqn:Ek.
  - destruct Hs as (e & p & Hle & Hp & Hin & Hout). rewrite Hp. destruct (keys_ok s local remote Ek) as [Hkl _].
    destruct (hop local e p (hp_out h s) it lost Hkl Hout (He eq_refl)) as (e' & wire & Hprot & Hrest). cbn [seal_side fg_leg]. rewrite Hle, Hprot.
    pose proof (protect_inbound e (item_packet it)) as [Hpi1 Hpi2]. rewrite Hprot in Hpi1, Hpi2. cbn [fst snd] in Hpi1, Hpi2.
    eexists _, _. split; [done|]. split; [done|]. split; [done|]. cbn [with_leg sb_legs fg_leg]. destruct lost.
    + eapply legs_ok_party; [eapply legs_ok_hops; [|intros t _]|].
      * eapply legs_ok_put; [exact Hl|exact Ek| |exact Hrest]. eapply call_ok_frame; [exact Hin|done..].
      * cbn [hp_in hp_out]. by rewrite put_same.
      * intros t. unfold set_party. by destruct (decide (s = t)) as [<-|].
    + destruct Hrest as (p' & Hun & Hout'). exists (Some p'). cbn [party_unprotect]. rewrite Hun. split; [done|].
      pose proof (unprotect_outbound p wire) as [Hpo1 Hpo2]. rewrite Hun in Hpo1, Hpo2. cbn [fst snd] in Hpo1, Hpo2.
      eapply legs_ok_hops; [|intros t _].
      * eapply legs_ok_put; [exact Hl|exact Ek| |exact Hout']. eapply call_ok_frame; [exact Hin|done..].
      * cbn [hp_in hp_out]. by rewrite put_same.
  - rewrite Hs. exists (item_packet it), b. split; [done|]. split; [done|]. split; [done|]. cbn [party_unprotect]. rewrite kind_item by done.
    assert (legs_ok (sb_legs b) (set_party pty s None) (mkHops (hp_in h) (put_hop (hp_out h) s (count_event (hp_out h s) (Send it lost))))) as H.
    { eapply legs_ok_party; [eapply legs_ok_hops; [exact Hl|]|].
      - intros t Ht. cbn. unfold put_hop. destruct (decide (s = t)) as [<-|]; [|done]. unfold secure in Ht. by rewrite Ek in Ht.
      - intros t. unfold set_party. destruct (decide (s = t)) as [<-|]; [by rewrite Hs|done]. }
    destruct lost; [|by exists None]. eapply legs_ok_party; [exact H|]. intros t. unfold set_party. destruct (decide (s = t)) as [<-|]; [by rewrite Hs|done].
Qed.

Lemma hears_other known s it : hears known s it (other s) = known (other s).
Proof. unfold hears. rewrite bool_decide_false by (by destruct s). cbn. apply orb_false_r. Qed.

Lemma hears_same known s it : hears known s it s = known s || match it with RtpItem _ _ _ => true | RtcpItem _ => false end.
Proof. unfold hears. by rewrite bool_decide_true. Qed.

Lemma set_latch_flow_is s known f l k' : flow_is s known f -> (if (k' : bool) then exists n, l = Some (mkSourceLatch (pt_address (parties s)) (Some n)) else l = None) -> flow_is s k' (set_latch f l).
Proof. intros (H1 & H2 & H3 & H4 & H5 & _) Hl. split_and!; try done. by exists l. Qed.

(** The latch admits the party itself. *)
Lemma latch_step_ok b known s f it : paths_ok b known -> item_ok it -> sb_flows b !! endpoint_of s = Some f ->
  exists b', admit_side b f (endpoint_of s) (pt_address (parties s)) (item_packet it) = Ok (Some b') /\ sb_legs b' = sb_legs b /\ paths_ok b' (hears known s it).
Proof.
  intros Hp Hit Hf. destruct (Hp s) as [(f' & Hf' & Hfl) Hlat]. rewrite Hf in Hf'. injection Hf' as <-. pose proof Hfl as (_ & _ & _ & _ & _ & l & El & Hl).
  unfold admit_side. rewrite El, item_ssrc by done. rewrite bind_Ok. unfold SymmetricLatch_admit, source_latch_verdict.
  assert (forall l' k', (if (k' : bool) then exists n, l' = Some (mkSourceLatch (pt_address (parties s)) (Some n)) else l' = None) -> k' = hears known s it s ->
    forall b', sb_flows b' = <[endpoint_of s := set_latch f l']> (sb_flows b) -> sb_latched b' !! endpoint_of s = (if k' then Some (pt_address (parties s)) else None) ->
    (sb_latched b' !! endpoint_of (other s) = sb_latched b !! endpoint_of (other s)) -> paths_ok b' (hears known s it)) as Hdone.
  { intros l' k' Hl' Hk b' E1 E2 E3 t. destruct (other_cases s t) as [->| ->].
    - rewrite <- Hk, E1, lookup_insert_eq. split; [|done]. eexists. split; [done|]. by eapply set_latch_flow_is.
    - rewrite hears_other, E1, lookup_insert_ne, E3 by apply endpoint_ne. apply Hp. }
  pose proof (hears_same known s it) as Hh. destruct (known s) eqn:Ek.
  - destruct Hl as [n ->]. cbn [sl_source sl_ssrc]. rewrite bool_decide_true by done. rewrite (bool_decide_true (is_Some _)) by done. cbn [negb andb].
    eexists. split; [done|]. split; [done|]. eapply (Hdone _ true); [by exists n|done|done| |]; cbn [adopt with_flow sb_latched]; [by rewrite lookup_insert_eq|by rewrite lookup_insert_ne by apply endpoint_ne].
  - subst l. destruct it as [ssrc i p|p]; cbn [orb] in Hh; (eexists; split; [done|]; split; [done|]).
    + eapply (Hdone _ true); [by exists ssrc|done|done| |]; cbn [adopt with_flow sb_latched]; [by rewrite lookup_insert_eq|by rewrite lookup_insert_ne by apply endpoint_ne].
    + eapply (Hdone _ false); done.
Qed.

Lemma paths_same b b' known : paths_ok b known -> sb_flows b' = sb_flows b -> sb_latched b' = sb_latched b -> paths_ok b' known.
Proof. intros Hp E1 E2 s. rewrite E1, E2. apply Hp. Qed.

Lemma sent_of_app l1 l2 : sent_of (l1 ++ l2) = sent_of l1 ++ sent_of l2.
Proof. apply omap_app. Qed.

Lemma sent_of_offered taps p : sent_of ((fun t : bytes * Z => Offered t.2 p) <$> taps) = [].
Proof. induction taps as [|t taps IH]; [done|]. rewrite fmap_cons. exact IH. Qed.

(** An item that reaches the bridge is relayed. *)
Lemma talk_relayed w h known s it lost_out wire b1 pty :
  paths_ok (wd_bridge w) known -> item_ok it -> (secure (other s) = true -> SecureLeg.event_ok (hp_out h (other s)) (Send it lost_out)) ->
  open_side (wd_bridge w) (side_of s) wire = (Ok (item_packet it), b1) -> sb_flows b1 = sb_flows (wd_bridge w) -> sb_latched b1 = sb_latched (wd_bridge w) ->
  legs_ok (sb_legs b1) pty h ->
  exists b' es out, handle (fun _ => false) (wd_bridge w) (mkRxPacket (endpoint_of s) (pt_address (parties s)) wire) 0 = Ok (b', es) /\
    sent_of es = [(endpoint_of (other s), (if known (other s) then pt_address (parties (other s)) else pt_signalled (parties (other s))), out)] /\
    paths_ok b' (hears known s it) /\
    let h' := mkHops (hp_in h) (put_hop (hp_out h) (other s) (count_event (hp_out h (other s)) (Send it lost_out))) in
    if (lost_out : bool) then legs_ok (sb_legs b') pty h'
    else exists leg, party_unprotect (pty (other s)) out = (Ok (item_kind it), leg, item_packet it) /\ legs_ok (sb_legs b') (set_party pty (other s) leg) h'.
Proof.
  intros Hp Hit He Hopen Ef El Hlegs. destruct (Hp s) as [(f & Hf & Hfl) _]. pose proof Hfl as (Hg & Hoe & Hod & Hin & Hout & _).
  destruct (leave b1 pty h (other s) it lost_out Hlegs Hit He) as (out & b2 & Hseal & Ef2 & El2 & Hrest).
  assert (paths_ok b2 known) as Hp2 by (eapply paths_same; [exact Hp|congruence..]).
  destruct (latch_step_ok b2 known s f it Hp2 Hit ltac:(congruence)) as (b3 & Hadm & Elegs & Hp3).
  unfold handle. cbn [rx_endpoint rx_source rx_data]. rewrite Hf, Hg, gates_admit. cbn [negb]. rewrite Hin, Hopen, Hout, Hseal, Hadm, bind_Ok.
  eexists b3, _, out. split; [done|]. rewrite Elegs. split_and!; [|done|done].
  rewrite !sent_of_app. destruct (Hp3 (other s)) as [_ Hd]. rewrite hears_other in Hd. rewrite Hoe, Hod, Hd.
  assert (sent_of (match fl_x3 f with Some tap => [Delivered tap (pt_address (parties s)) 0 (item_packet it)] | None => [] end) = []) as -> by (by destruct (fl_x3 f)).
  assert (forall c : bool, sent_of (if c then (fun t : bytes * Z => Offered t.2 (item_packet it)) <$> default [] (fl_plain_taps f) else []) = []) as -> by (intros []; [apply sent_of_offered|done]).
  assert (forall (c : bool) d, sent_of (if c then [ObservedRtcp (endpoint_of s) (pt_address (parties s)) d (item_packet it)] else []) = []) as -> by (by intros []).
  by destruct (known (other s)).
Qed.

(** Reads either succeed or panic. *)
Definition errs_not {A} (r : res SrtpError A) : Prop := forall e, r <> Err e.

Lemma errs_not_bind {A B} (m : res SrtpError A) (k : A -> res SrtpError B) : errs_not m -> (forall a, errs_not (k a)) -> errs_not (x ← m; k x).
Proof. intros Hm Hk. destruct m as [a|e|]; [apply Hk|by destruct (Hm e)|done]. Qed.
Lemma errs_not_slice {A} (l : list A) a b : errs_not (slice l a b).
Proof. unfold slice. by destruct (_ && _). Qed.
Lemma errs_not_be32 l i : errs_not (be32_at l i).
Proof. unfold be32_at. repeat (apply errs_not_bind; [intros e; unfold idx; by repeat case_match|intros ?]). done. Qed.
Lemma errs_not_crypt key iv out hl : errs_not (crypt_tail key iv out hl).
Proof. apply errs_not_bind; [apply errs_not_slice|done]. Qed.

(** A datagram that is not authentic leaves the leg as it was. *)
Lemma unprotect_err leg data e : (leg_unprotect leg data []).1.1 = Err e -> (leg_unprotect leg data []).1.2 = leg.
Proof.
  unfold leg_unprotect. destruct (is_rtcp data).
  - unfold SrtcpContext_unprotect. destruct (srtcp_check _ _) as [[[[[a at_] enc] i] w]|e'|]; cbn; [|by destruct leg|by destruct leg].
    set (r := _ ≫= _). assert (errs_not r) as Hr.
    { apply errs_not_bind; [exact (errs_not_be32 a 4)|intros ssrc]. apply errs_not_bind; [exact (errs_not_slice a 0 at_)|intros body]. destruct enc; [apply errs_not_crypt|done]. }
    destruct r as [?|e'|]; cbn; try done. by destruct (Hr e').
  - unfold SrtpContext_unprotect. destruct (unprotect_check _ _) as [[[[[a hl] ssrc] i] s]|e'|]; cbn; [|by destruct leg|by destruct leg].
    set (r := crypt_tail _ _ _ _). assert (errs_not r) as Hr by apply errs_not_crypt. destruct r as [?|e'|]; cbn; try done. by destruct (Hr e').
Qed.

Lemma open_side_err b side data e : (open_side b side data).1 = Err e -> (open_side b side data).2 = b.
Proof.
  unfold open_side. destruct side as [s|]; [|done]. destruct (sb_legs b !! fg_leg s) as [leg|] eqn:Hl; [|done].
  pose proof (unprotect_err leg data e) as H. destruct (leg_unprotect leg data []) as [[r leg'] out]. cbn [fst snd] in *. destruct r as [k|e'|]; cbn; try done.
  intros [= ->]. rewrite (H eq_refl). unfold with_leg. rewrite list_insert_id by done. by destruct b.
Qed.

Lemma refuse_paths b known s f r : paths_ok b known -> sb_flows b !! endpoint_of s = Some f ->
  let '(b', es) := refuse b f (endpoint_of s) r in paths_ok b' known /\ sb_legs b' = sb_legs b /\ sent_of es = [].
Proof.
  intros Hp Hf. unfold refuse. destruct r as [r|]; [|done]. split; [|done]. intros t. cbn [with_flow sb_flows sb_latched].
  destruct (other_cases s t) as [->| ->]; [|rewrite lookup_insert_ne by apply endpoint_ne; apply Hp].
  rewrite lookup_insert_eq. destruct (Hp s) as [(f' & Hf' & Hfl) Hlat]. split; [|done]. eexists. split; [done|]. rewrite Hf in Hf'. by injection Hf' as <-.
Qed.

Lemma noise_ignored w known s source data : paths_ok (wd_bridge w) known -> world_event_ok w no_hops (Noise s source data) ->
  exists b' es, handle (fun _ => false) (wd_bridge w) (mkRxPacket (endpoint_of s) source data) 0 = Ok (b', es) /\
    paths_ok b' known /\ sb_legs b' = sb_legs (wd_bridge w) /\ sent_of es = [].
Proof.
  intros Hp Hn. destruct (Hp s) as [(f & Hf & Hfl) _]. pose proof Hfl as (Hg & _ & _ & Hin & _).
  assert (forall r, exists b' es, @Ok unit _ (refuse (wd_bridge w) f (endpoint_of s) r) = Ok (b', es) /\ paths_ok b' known /\ sb_legs b' = sb_legs (wd_bridge w) /\ sent_of es = []) as Hr.
  { intros r. pose proof (refuse_paths _ known s f r Hp Hf) as H. destruct (refuse _ _ _ _) as [b' es]. exists b', es. done. }
  unfold handle. cbn [rx_endpoint rx_source rx_data]. rewrite Hf, Hg. destruct (accepts _ _) eqn:Ea; cbn [negb]; [|apply Hr].
  destruct Hn as [Hn|(f' & e & Hf' & Hn)]; [cbn in Hn; congruence|]. rewrite Hf in Hf'. injection Hf' as <-.
  pose proof (open_side_err _ _ _ _ Hn) as He. destruct (open_side _ _ _) as [r b1]. cbn [fst snd] in *. subst r b1. apply Hr.
Qed.

Lemma start_ok : paths_ok (wd_bridge world_start) (fun _ => false) /\ legs_ok (sb_legs (wd_bridge world_start)) (wd_party world_start) no_hops.
Proof.
  assert (forall s, resolve ((fun _ => 0%nat) <$> engine_leg Near) ((fun _ => (0 + length (option_list (engine_leg Near)))%nat) <$> engine_leg Far) (leg_name s) = Some (side_of s)) as Hres.
  { intros s. unfold resolve, leg_name, side_of, handle_of, engine_leg, secure. destruct s; destruct (pt_keys (parties Near)), (pt_keys (parties Far)); done. }
  assert (wd_bridge world_start = mkSrtpBridge
    (fold_left install [(flow_plan Near, side_of Near, side_of Far); (flow_plan Far, side_of Far, side_of Near)] ∅) ∅ (option_list (engine_leg Near) ++ option_list (engine_leg Far))) as ->.
  { cbn [world_start wd_bridge]. unfold register. cbn [call_plan bp_near_leg bp_far_leg bp_flows SrtpBridge_new sb_legs sb_flows sb_latched length mapM list_fmap fmap].
    unfold resolve_flow. cbn [flow_plan bf_ingress_leg bf_egress_leg other]. pose proof (Hres Near) as HN. pose proof (Hres Far) as HF. cbn [Nat.add] in HN, HF |- *. rewrite HN, HF. cbn.
    assert (forall s, stale_of SrtpBridge_new (flow_plan s) = []) as Hst by (intros s; unfold stale_of; cbn; by rewrite !lookup_empty).
    by rewrite !Hst. }
  cbn [fold_left install flow_plan bf_endpoint bf_accepted_source bf_latch bf_out_endpoint bf_out_dst]. rewrite lookup_empty. rewrite lookup_insert_ne, lookup_empty by done. split.
  - intros s. cbn [sb_flows sb_latched]. split; [|by rewrite lookup_empty]. destruct s; [rewrite lookup_insert_ne, lookup_insert_eq by done|rewrite lookup_insert_eq]; (eexists; split; [done|]; split_and!; try done; by exists None).
  - intros s. cbn [sb_legs wd_party world_start]. unfold party_side, handle_of, secure, engine_leg. cbn [no_hops hp_in hp_out].
    assert (forall k1 k2, call_ok k2 (SecureLeg_new k2 k1) (SecureLeg_new k1 k2) no_numbers) as Hnew by (intros; apply new_call_ok).
    destruct s; destruct (pt_keys (parties Near)) as [[l1 r1]|], (pt_keys (parties Far)) as [[l2 r2]|]; try done; cbn; by eexists _, _.
Qed.

(** One event of a call. *)
Lemma world_step_ok w h known e : paths_ok (wd_bridge w) known -> legs_ok (sb_legs (wd_bridge w)) (wd_party w) h -> world_event_ok w h e ->
  let '(out, w') := world_step w e in
  out = expected known [e] /\
  paths_ok (wd_bridge w') (match e with Talk s it false _ => hears known s it | _ => known end) /\
  legs_ok (sb_legs (wd_bridge w')) (wd_party w') (match e with Talk s it i o => count_talk h s it i o | Noise _ _ _ => h end).
Proof.
  intros Hp Hl He. destruct e as [s it lost_in lost_out|s source data]; cbn [world_step expected].
  - destruct He as (Hit & Hin & Hout). destruct (enter _ _ h s it lost_in Hl Hit Hin) as (leg & wire & -> & Hrest). destruct lost_in; [by split_and!|].
    destruct (Hrest (wd_bridge w) eq_refl) as (b1 & Hopen & Ef & El & Hl1).
    destruct (talk_relayed w (mkHops (put_hop (hp_in h) s (count_event (hp_in h s) (Send it false))) (hp_out h)) known s it lost_out wire b1 _ Hp Hit (fun H => Hout H eq_refl) Hopen Ef El Hl1) as (b' & es & out & -> & -> & Hp' & Hfin).
    destruct lost_out; [by split_and!|]. destruct Hfin as (leg' & Hun & Hl'). rewrite Hun. rewrite app_nil_r. by split_and!.
  - destruct (noise_ignored w known s source data Hp He) as (b' & es & -> & Hp' & Elegs & Hs). rewrite Hs. split; [done|]. split; [done|]. cbn [wd_bridge wd_party]. by rewrite Elegs.
Qed.

Lemma expected_cons known e events : expected known (e :: events) = expected known [e] ++ expected (match e with Talk s it false _ => hears known s it | _ => known end) events.
Proof. destruct e as [s it [] lost_out|]; try done. cbn [expected]. by rewrite app_nil_r. Qed.


End call.

(** ** Witnesses *)

Definition addr (host port : Z) : SocketAddr := mkSocketAddr (V4 host) port.

(** A plain caller and a secure callee, both behind a NAT, their gates open. *)
Definition nat_parties (s : BridgeLeg) : party :=
  match s with
  | Near => mkParty None (addr 1 1000) (addr 9 9) Any
  | Far => mkParty (Some (example_key 0x41, example_key 0x51)) (addr 2 2000) (addr 8 8) Any
  end.
Definition demo_endpoint (s : BridgeLeg) : Z := match s with Near => 10 | Far => 20 end.

Definition media (ssrc seq : Z) : bytes := [0x80; 0] ++ be_enc 2 seq ++ [0; 0; 0; 160] ++ be_enc 4 ssrc ++ [0xAA; 0xBB].

Definition demo_history : list bridge_event :=
  [EvDatagram (mkRxPacket 5 (addr 1 1) [1]) 0; EvRegister (@call_plan byte_crypto nat_parties demo_endpoint); EvAddTap 10 [116] 1;
   EvDatagram (mkRxPacket 10 (addr 1 1000) (media 7 1)) 0; EvDatagram (mkRxPacket 30 (addr 1 1000) [1; 2]) 0].

(** A datagram the latch rejects has already been encrypted: the encryption context of
    the other party numbers a stream for it. *)
Example rejected_datagram_is_sealed :
  let events := [EvRegister (@call_plan toy_crypto nat_parties demo_endpoint); EvDatagram (mkRxPacket 10 (addr 1 1000) (media 7 1)) 0;
                 EvDatagram (mkRxPacket 10 (addr 3 3000) (media 66 1)) 0] in
  match bridge_run (fun _ => false) SrtpBridge_new events with
  | Ok (b, told) => (snd <$> drop 2 told, (fun leg => sro_ssrc <$> lr_outbound_rtp (rollover_snapshot leg)) <$> sb_legs b)
  | _ => ([], [])
  end = ([[NoteDropped 10]], [[7; 66]]).
Proof. vm_compute. reflexivity. Qed.

Definition unlatched (f : BridgeFlowPlan) : BridgeFlowPlan :=
  mkBridgeFlowPlan (bf_endpoint f) (bf_ingress_leg f) (bf_egress_leg f) (bf_accepted_source f) false (bf_out_endpoint f) (bf_out_dst f).

(** A renegotiation that hands the legs to ICE keeps the address learned before, and
    goes on sending there. *)
Example learned_address_outlives_latching :
  let plan := @call_plan toy_crypto (fun s => mkParty None (pt_address (nat_parties s)) (pt_signalled (nat_parties s)) Any) demo_endpoint in
  let ice := mkBridgeCallPlan (bp_near_leg plan) (bp_far_leg plan) (unlatched <$> bp_flows plan) in
  let events := [EvRegister plan; EvDatagram (mkRxPacket 20 (addr 2 2000) (media 8 1)) 0; EvRegister ice; EvDatagram (mkRxPacket 10 (addr 1 1000) (media 7 1)) 0] in
  match @bridge_run toy_crypto (fun _ => false) SrtpBridge_new events with
  | Ok (b, told) => (latched_source b 20, concat ((fun t => sent_of t.2) <$> drop 3 told))
  | _ => (None, [])
  end = (Some (addr 2 2000), [(20, addr 2 2000, media 7 1)]).
Proof. vm_compute. reflexivity. Qed.


(** Both parties secure, under different keys. *)
Definition secure_parties (s : BridgeLeg) : party :=
  match s with
  | Near => mkParty (Some (example_key 0x31, example_key 0x21)) (addr 1 1000) (addr 9 9) (Exact (V4 1))
  | Far => mkParty (Some (example_key 0x41, example_key 0x51)) (addr 2 2000) (addr 8 8) (Exact (V4 2))
  end.

Definition demo_talk : list world_event :=
  [Talk Near (RtpItem 7 1 (example_packet 1)) false false; Talk Far (RtcpItem [0x80; 201; 0; 1; 0; 0; 0; 9]) false false;
   Noise Near (addr 6 6) (media 7 3); Talk Near (RtpItem 7 2 (example_packet 2)) true false; Noise Far (addr 2 2000) (media 9 1 ++ replicate 16 0);
   Talk Far (RtpItem 7 5 (example_packet 5)) false true; Talk Near (RtpItem 7 3 (example_packet 3)) false false].

