(* ===== verification/Reception.v ===== *)
(** * Reception statistics: crates/siphon-rtp-media/src/ingress.rs

    The receiver's side of RFC 3550 for one source: extended sequence number, loss,
    interarrival jitter and round-trip time.  The [f64] of the source is the binary64
    of [SpecFloat], which computes with the rounding of IEEE 754.  Every clock reading
    is an argument, as in the source. *)

From stdpp Require Import base list numbers option.
From Stdlib Require Import Lia ZArith SpecFloat.
From S2P Require Import Prelude Rtcp.

Open Scope Z_scope.

(** ** Binary64 *)

Abbreviation f64 := spec_float.

(** [x as f64] of an integer, rounded to nearest even. *)
Definition f64_of (x : Z) : f64 := binary_normalize 53 1024 x 0 false.
Definition f64_add : f64 -> f64 -> f64 := SFadd 53 1024.
Definition f64_sub : f64 -> f64 -> f64 := SFsub 53 1024.
Definition f64_mul : f64 -> f64 -> f64 := SFmul 53 1024.
Definition f64_div : f64 -> f64 -> f64 := SFdiv 53 1024.

(** [x as u32] of a float: truncated, saturating, zero for NaN. *)
Definition u32_of (x : f64) : Z :=
  match x with
  | S754_zero _ | S754_nan => 0
  | S754_infinity negative => if negative then 0 else 2 ^ 32 - 1
  | S754_finite negative m e =>
      if negative then 0 else Z.min (2 ^ 32 - 1) (if 0 <=? e then Z.pos m * 2 ^ e else Z.pos m / 2 ^ (- e))
  end.

Definition f64_clamp (x low high : f64) : f64 :=
  let x := if SFltb x low then low else x in if SFltb high x then high else x.

(** ** The estimator *)

Definition SENT_REPORT_TABLE_LEN : nat := 8.

Record IngressStats : Type := mkIngressStats {
  ig_clock_rate_hz : Z;
  ig_ssrc : option Z;
  ig_max_sequence : Z;
  ig_cycles : Z;
  ig_base_sequence : option Z;
  ig_received : Z;
  ig_last_rtp_timestamp : Z;
  ig_last_transit : option Z;
  ig_jitter : f64;
  ig_expected_prior : Z;
  ig_received_prior : Z;
  ig_sent_reports : list (option (Z * Z));
  ig_sent_reports_next : nat;
  ig_last_rtt_micros : option Z
}.

Definition IngressStats_new (clock_rate_hz : Z) : IngressStats :=
  mkIngressStats clock_rate_hz None 0 0 None 0 0 None (S754_zero false) 0 0
    (replicate SENT_REPORT_TABLE_LEN None) 0 None.

Definition on_rtp (s : IngressStats) (ssrc sequence rtp_timestamp : Z) : IngressStats :=
  let '(source, max, cycles, base) :=
    match ig_ssrc s with
    | None => (Some ssrc, sequence, ig_cycles s, Some sequence)
    | Some _ =>
        if wrapping_sub 16 sequence (ig_max_sequence s) <? 0x8000 then
          (ig_ssrc s, sequence, if sequence <? ig_max_sequence s then wrapping_add 16 (ig_cycles s) 1 else ig_cycles s, ig_base_sequence s)
        else (ig_ssrc s, ig_max_sequence s, ig_cycles s, ig_base_sequence s)
    end in
  mkIngressStats (ig_clock_rate_hz s) source max cycles base (wrapping_add 64 (ig_received s) 1) rtp_timestamp
    (ig_last_transit s) (ig_jitter s) (ig_expected_prior s) (ig_received_prior s) (ig_sent_reports s) (ig_sent_reports_next s) (ig_last_rtt_micros s).

Definition observe_arrival (s : IngressStats) (arrival_micros : Z) : IngressStats :=
  let arrival_rtp := wrap 32 (arrival_micros * ig_clock_rate_hz s / 1000000) in
  let transit := to_signed 32 (wrapping_sub 32 arrival_rtp (ig_last_rtp_timestamp s)) in
  let jitter :=
    match ig_last_transit s with
    | Some previous =>
        let delta := f64_of (Z.abs (transit - previous)) in
        f64_add (ig_jitter s) (f64_div (f64_sub delta (ig_jitter s)) (f64_of 16))
    | None => ig_jitter s
    end in
  mkIngressStats (ig_clock_rate_hz s) (ig_ssrc s) (ig_max_sequence s) (ig_cycles s) (ig_base_sequence s) (ig_received s)
    (ig_last_rtp_timestamp s) (Some transit) jitter (ig_expected_prior s) (ig_received_prior s) (ig_sent_reports s)
    (ig_sent_reports_next s) (ig_last_rtt_micros s).

Definition extended_highest_sequence (s : IngressStats) : Z :=
  Z.lor (Z.shiftl (ig_cycles s) 16) (ig_max_sequence s).

Definition expected (s : IngressStats) : Z :=
  match ig_base_sequence s with
  | Some base => wrapping_add 32 (wrapping_sub 32 (extended_highest_sequence s) base) 1
  | None => 0
  end.

Definition cumulative_lost (s : IngressStats) : Z := wrap 32 (saturating_sub (expected s) (ig_received s)).

Definition loss_percent (s : IngressStats) : f64 :=
  let expected := expected s in
  if expected =? 0 then S754_zero false
  else f64_clamp (f64_mul (f64_div (f64_of (cumulative_lost s)) (f64_of expected)) (f64_of 100)) (S754_zero false) (f64_of 100).

Definition set_priors (s : IngressStats) (expected received : Z) : IngressStats :=
  mkIngressStats (ig_clock_rate_hz s) (ig_ssrc s) (ig_max_sequence s) (ig_cycles s) (ig_base_sequence s) (ig_received s)
    (ig_last_rtp_timestamp s) (ig_last_transit s) (ig_jitter s) expected received (ig_sent_reports s)
    (ig_sent_reports_next s) (ig_last_rtt_micros s).

Definition fraction_lost_since_last_report (s : IngressStats) : Z * IngressStats :=
  match ig_base_sequence s with
  | None => (0, s)
  | Some _ =>
      let expected := expected s in
      let received := ig_received s in
      let expected_interval := wrapping_sub 32 expected (ig_expected_prior s) in
      let received_interval := wrapping_sub 64 received (ig_received_prior s) in
      let s := set_priors s expected received in
      if (expected_interval =? 0) || (expected_interval <=? received_interval) then (0, s) else
      let lost_interval := expected_interval - received_interval in
      (wrap 8 (Z.min (Z.shiftl lost_interval 8 / expected_interval) 255), s)
  end.

Definition jitter_rtp_units (s : IngressStats) : Z := u32_of (ig_jitter s).

Definition jitter_ms (s : IngressStats) : f64 :=
  if ig_clock_rate_hz s =? 0 then S754_zero false
  else f64_div (f64_mul (f64_of (jitter_rtp_units s)) (f64_of 1000)) (f64_of (ig_clock_rate_hz s)).

(** The middle 32 bits of an NTP timestamp, what a peer echoes as LSR. *)
Definition ntp_middle (ntp_timestamp : Z) : Z := Z.land (Z.shiftr ntp_timestamp 16) 0xFFFFFFFF.

Definition record_sent_report (s : IngressStats) (ntp_timestamp send_micros : Z) : IngressStats :=
  mkIngressStats (ig_clock_rate_hz s) (ig_ssrc s) (ig_max_sequence s) (ig_cycles s) (ig_base_sequence s) (ig_received s)
    (ig_last_rtp_timestamp s) (ig_last_transit s) (ig_jitter s) (ig_expected_prior s) (ig_received_prior s)
    (<[ig_sent_reports_next s := Some (ntp_middle ntp_timestamp, send_micros)]> (ig_sent_reports s))
    ((ig_sent_reports_next s + 1) mod SENT_REPORT_TABLE_LEN)%nat (ig_last_rtt_micros s).

Definition checked_sub (a b : Z) : option Z := if b <=? a then Some (a - b) else None.

Definition set_rtt (s : IngressStats) (rtt : Z) : IngressStats :=
  mkIngressStats (ig_clock_rate_hz s) (ig_ssrc s) (ig_max_sequence s) (ig_cycles s) (ig_base_sequence s) (ig_received s)
    (ig_last_rtp_timestamp s) (ig_last_transit s) (ig_jitter s) (ig_expected_prior s) (ig_received_prior s)
    (ig_sent_reports s) (ig_sent_reports_next s) (Some rtt).

Definition record_reception_report (s : IngressStats) (egress_ssrc : Z) (block : ReportBlock) (arrival_micros : Z)
  : option Z * IngressStats :=
  if negb (rb_ssrc block =? egress_ssrc) then (None, s) else
  let last_sender_report := rb_last_sender_report block in
  if last_sender_report =? 0 then (None, s) else
  let round_trip :=
    send_micros ← snd <$> head (filter (fun e : Z * Z => e.1 = last_sender_report) (omap id (ig_sent_reports s)));
    let delay_micros := rb_delay_since_last_sr block * 1000000 / 65536 in
    rest ← checked_sub arrival_micros delay_micros; checked_sub rest send_micros in
  match round_trip with
  | Some round_trip_micros => (Some round_trip_micros, set_rtt s round_trip_micros)
  | None => (None, s)
  end.

Definition rtt_ms (s : IngressStats) : option f64 := (fun micros => f64_div (f64_of micros) (f64_of 1000)) <$> ig_last_rtt_micros s.

(** * Proofs *)

(** ** The source as it really is

    A packet's position is counted without bound, from an origin that puts the first
    one at its own sequence number. *)

Inductive rx_op : Type :=
| Packet (ssrc index rtp_timestamp arrival : Z)
| ReportDue
| ReportSent (ntp_timestamp now : Z)
| BlockRead (egress_ssrc : Z) (block : ReportBlock) (arrival : Z).

Definition rx_step (s : IngressStats) (o : rx_op) : list (option Z) * IngressStats :=
  match o with
  | Packet ssrc index ts arrival => ([], observe_arrival (on_rtp s ssrc (wrap 16 index) ts) arrival)
  | ReportDue => let '(fraction, s) := fraction_lost_since_last_report s in ([Some fraction], s)
  | ReportSent ntp now => ([], record_sent_report s ntp now)
  | BlockRead egress block arrival => let '(rtt, s) := record_reception_report s egress block arrival in ([rtt], s)
  end.

Fixpoint rx_run (s : IngressStats) (ops : list rx_op) : list (option Z) * IngressStats :=
  match ops with
  | [] => ([], s)
  | o :: ops => let '(out, s) := rx_step s o in let '(outs, s) := rx_run s ops in (out ++ outs, s)
  end.

(** RFC 3550 A.3 on a list of positions, in order of arrival. *)
Definition highest (l : list Z) : Z := match l with [] => 0 | i :: l => fold_left Z.max l i end.
Definition span (l : list Z) : Z := match l with [] => 0 | first :: _ => highest l - first + 1 end.

(** The packets of the span that never came. *)
Definition missing (l : list Z) : list Z :=
  match l with [] => [] | first :: _ => filter (fun i => i ∉ l) (seqZ first (span l)) end.

Definition fraction_of (expected received : Z) : Z :=
  if expected <=? received then 0 else Z.min 255 (256 * (expected - received) / expected).

(** What came, what had come at the last report, the reports sent, latest first. *)
Record reception : Type := mkReception {
  rc_ssrc : option Z; rc_came : list Z; rc_reported : list Z; rc_sent : list (Z * Z)
}.

Definition no_reception : reception := mkReception None [] [] [].

Definition spec_rtt (sent : list (Z * Z)) (egress_ssrc : Z) (block : ReportBlock) (arrival : Z) : option Z :=
  if (rb_ssrc block =? egress_ssrc) && negb (rb_last_sender_report block =? 0) then
    sent_at ← snd <$> head (filter (fun e : Z * Z => e.1 = rb_last_sender_report block) (take 8 sent));
    let rtt := arrival - rb_delay_since_last_sr block * 1000000 / 65536 - sent_at in
    if 0 <=? rtt then Some rtt else None
  else None.

Definition spec_step (r : reception) (o : rx_op) : list (option Z) * reception :=
  match o with
  | Packet ssrc index _ _ =>
      ([], mkReception (match rc_ssrc r with Some s => Some s | None => Some ssrc end) (rc_came r ++ [index]) (rc_reported r) (rc_sent r))
  | ReportDue =>
      ([Some (fraction_of (span (rc_came r) - span (rc_reported r)) (len (rc_came r) - len (rc_reported r)))],
       mkReception (rc_ssrc r) (rc_came r) (rc_came r) (rc_sent r))
  | ReportSent ntp now => ([], mkReception (rc_ssrc r) (rc_came r) (rc_reported r) ((ntp_middle ntp, now) :: rc_sent r))
  | BlockRead egress block arrival => ([spec_rtt (rc_sent r) egress block arrival], r)
  end.

Fixpoint spec_run (r : reception) (ops : list rx_op) : list (option Z) * reception :=
  match ops with
  | [] => ([], r)
  | o :: ops => let '(out, r) := spec_step r o in let '(outs, r) := spec_run r ops in (out ++ outs, r)
  end.

(** A packet is less than half the sequence space from the highest, the stream is
    shorter than 2^32 packets, and the last eight reports are told apart by their
    timestamps. *)
Definition rx_op_ok (r : reception) (o : rx_op) : Prop :=
  match o with
  | Packet _ index _ _ =>
      match rc_came r with [] => fits 16 index | _ => - 2 ^ 15 <= index - highest (rc_came r) < 2 ^ 15 end /\
      span (rc_came r ++ [index]) < 2 ^ 32 /\ len (rc_came r) + 1 < 2 ^ 64
  | ReportDue => True
  | ReportSent ntp now => 0 <= now /\ NoDup (fst <$> take 8 ((ntp_middle ntp, now) :: rc_sent r))
  | BlockRead _ block arrival => 0 <= arrival /\ 0 <= rb_delay_since_last_sr block
  end.

Fixpoint rx_ops_ok (r : reception) (ops : list rx_op) : Prop :=
  match ops with [] => True | o :: ops => rx_op_ok r o /\ rx_ops_ok (spec_step r o).2 ops end.

(** ** The ring of sent reports *)

(** Read from the cursor on, the ring is the last eight reports, oldest first. *)
Definition ring_ok (reports : list (option (Z * Z))) (next : nat) (sent : list (Z * Z)) : Prop :=
  length reports = 8%nat /\ (next < 8)%nat /\
  drop next reports ++ take next reports = replicate (8 - length (take 8 sent)) None ++ (Some <$> reverse (take 8 sent)).

Lemma ring_push reports next sent x : ring_ok reports next sent -> ring_ok (<[next := Some x]> reports) ((next + 1) mod 8)%nat (x :: sent).
Proof.
  intros (Hl & Hn & Hr). split; [by rewrite length_insert|]. split; [apply Nat.mod_upper_bound; lia|].
  assert (exists y, drop next reports = y :: drop (S next) reports) as [y Hy].
  { destruct (lookup_lt_is_Some_2 reports next ltac:(lia)) as [y Hy]. exists y. by apply drop_S. }
  assert (drop ((next + 1) mod 8) (<[next:=Some x]> reports) ++ take ((next + 1) mod 8) (<[next:=Some x]> reports) =
    (drop (S next) reports ++ take next reports) ++ [Some x]) as ->.
  { destruct (decide (next = 7)%nat) as [->|Hne].
    - change ((7 + 1) mod 8)%nat with 0%nat. rewrite drop_0, take_0, app_nil_r, insert_take_drop by lia.
      rewrite (drop_ge reports 8) by lia. done.
    - rewrite Nat.mod_small by lia. replace (next + 1)%nat with (S next) by lia.
      rewrite drop_insert_lt by lia. rewrite (take_S_r _ _ (Some x)) by (rewrite list_lookup_insert_eq; [done|lia]).
      rewrite take_insert_ge by lia. by rewrite app_assoc. }
  rewrite Hy in Hr. change ((y :: drop (S next) reports) ++ take next reports) with (y :: (drop (S next) reports ++ take next reports)) in Hr.
  assert (drop (S next) reports ++ take next reports = tail (replicate (8 - length (take 8 sent)) None ++ (Some <$> reverse (take 8 sent)))) as -> by (by rewrite <- Hr).
  rewrite !length_take. change (take 8 (x :: sent)) with (x :: take 7 sent). rewrite reverse_cons, fmap_app. cbn [length fmap list_fmap].
  destruct (decide (length sent < 8)%nat) as [Hs|Hs].
  - rewrite (take_ge sent 7), (take_ge sent 8) by lia. replace (8 - 8 `min` length sent)%nat with (S (8 - 8 `min` S (length sent))) by lia.
    cbn [replicate app tail]. by rewrite <- app_assoc.
  - replace (8 - 8 `min` length sent)%nat with 0%nat by lia. replace (8 - 8 `min` S (length sent))%nat with 0%nat by lia. cbn [replicate app].
    destruct (lookup_lt_is_Some_2 sent 7 ltac:(lia)) as [z Hz]. rewrite (take_S_r sent 7 z Hz), reverse_app. done.
Qed.

Lemma ring_reports reports next sent : ring_ok reports next sent -> omap id reports ≡ₚ take 8 sent.
Proof.
  intros (_ & _ & Hr). rewrite <- (take_drop next reports), omap_app. rewrite Permutation_app_comm, <- omap_app, Hr, omap_app.
  assert (forall n, omap id (replicate n (@None (Z * Z))) = []) as -> by (induction n; done). cbn [app].
  assert (forall l : list (Z * Z), omap id (Some <$> l) = l) as ->; [|apply reverse_Permutation].
  induction l as [|a l IH]; [done|]. by rewrite <- IH at 2.
Qed.

(** Where keys differ, the first match does not depend on the order. *)
Lemma find_permuted (l k : list (Z * Z)) x : l ≡ₚ k -> NoDup (fst <$> k) ->
  head (filter (fun e : Z * Z => e.1 = x) l) = head (filter (fun e : Z * Z => e.1 = x) k).
Proof.
  intros Hp Hn. pose proof (filter_Permutation (fun e : Z * Z => e.1 = x) _ _ Hp) as Hf.
  assert (filter (fun e : Z * Z => e.1 = x) k = [] \/ exists e, filter (fun e : Z * Z => e.1 = x) k = [e]) as [H|[e H]].
  { clear Hp Hf. induction k as [|a k IH]; [by left|]. rewrite fmap_cons in Hn. apply list.NoDup_cons in Hn as [Ha Hn]. rewrite filter_cons.
    destruct (decide (a.1 = x)) as [Hx|]; [|by apply IH]. right. exists a. destruct (filter _ k) as [|b m] eqn:E; [done|]. exfalso.
    assert (b ∈ filter (fun e : Z * Z => e.1 = x) k) as Hb by (rewrite E; left). apply list_elem_of_filter in Hb as [Hbx Hbk].
    apply Ha. rewrite Hx, <- Hbx. by apply list_elem_of_fmap_2. }
  - rewrite H in *. symmetry in Hf. apply Permutation_nil in Hf. by rewrite Hf.
  - rewrite H in *. apply Permutation_singleton_r in Hf. by rewrite Hf.
Qed.

(** ** Counting *)

Lemma highest_app l i : l <> [] -> highest (l ++ [i]) = Z.max (highest l) i.
Proof. destruct l as [|a l]; [done|]. intros _. cbn. by rewrite fold_left_app. Qed.

Lemma highest_ge l i : i ∈ l -> i <= highest l.
Proof.
  induction l as [|j l IH] using rev_ind; [by intros ?%elem_of_nil|]. intros Hi. destruct (decide (l = [])) as [->|Hl].
  - apply list_elem_of_singleton in Hi as ->. done.
  - rewrite highest_app by done. apply elem_of_app in Hi as [Hi|Hi]; [specialize (IH Hi); lia|]. apply list_elem_of_singleton in Hi. lia.
Qed.

Lemma span_mono l i : span l <= span (l ++ [i]).
Proof.
  destruct l as [|a l]; [cbn; lia|]. change ((a :: l) ++ [i]) with (a :: (l ++ [i])). cbn [span]. change (a :: l ++ [i]) with ((a :: l) ++ [i]).
  rewrite highest_app by done. lia.
Qed.

Lemma span_pos l : 0 <= span l.
Proof. induction l as [|i l IH] using rev_ind; [done|]. pose proof (span_mono l i). lia. Qed.

(** Without duplicates, and nothing from before the first, what is missing is the
    span less what came. *)
Lemma missing_count first l : NoDup (first :: l) -> Forall (Z.le first) (first :: l) ->
  len (missing (first :: l)) = span (first :: l) - len (first :: l).
Proof.
  intros Hn Hf. pose proof (span_pos (first :: l)) as Hs. set (all := seqZ first (span (first :: l))).
  assert (filter (fun i => i ∈ first :: l) all ≡ₚ first :: l) as Hp.
  { apply list.NoDup_Permutation; [apply list.NoDup_filter, NoDup_seqZ|done|]. intros i. rewrite list_elem_of_filter. split; [tauto|]. intros Hi. split; [done|].
    apply elem_of_seqZ. rewrite list.Forall_forall in Hf. pose proof (Hf i Hi). pose proof (highest_ge _ _ Hi). cbn [span] in *. lia. }
  pose proof (filter_app_complement (fun i => i ∈ first :: l) all) as Hc. apply Permutation_length in Hc, Hp. rewrite length_app, Hp in Hc.
  unfold missing, len. fold all. assert (length all = Z.to_nat (span (first :: l))) as Hl by apply length_seqZ.
  change (filter (λ i : Z, i ∉ first :: l) all) with (filter (λ i : Z, ¬ i ∈ first :: l) all). lia.
Qed.

(** ** The code counts what it should *)

Record rx_rel (s : IngressStats) (r : reception) : Prop := {
  xr_ssrc : ig_ssrc s = rc_ssrc r;
  xr_started : is_Some (rc_ssrc r) <-> rc_came r <> [];
  xr_base : ig_base_sequence s = head (rc_came r);
  xr_first : forall i, head (rc_came r) = Some i -> fits 16 i;
  xr_max : rc_came r <> [] -> ig_max_sequence s = wrap 16 (highest (rc_came r)) /\ ig_cycles s = wrap 16 (highest (rc_came r) / 2 ^ 16);
  xr_fresh : rc_came r = [] -> ig_cycles s = 0;
  xr_received : ig_received s = len (rc_came r) /\ len (rc_came r) < 2 ^ 64;
  xr_span : span (rc_came r) < 2 ^ 32;
  xr_prior : ig_expected_prior s = span (rc_reported r) /\ ig_received_prior s = len (rc_reported r) /\
    span (rc_reported r) <= span (rc_came r) /\ len (rc_reported r) <= len (rc_came r);
  xr_ring : ring_ok (ig_sent_reports s) (ig_sent_reports_next s) (rc_sent r);
  xr_sent : NoDup (fst <$> take 8 (rc_sent r)) /\ Forall (fun e => 0 <= e.2) (rc_sent r)
}.

Lemma start_rel rate : rx_rel (IngressStats_new rate) no_reception.
Proof.
  constructor; cbn; try done; try lia.
  - split; [done|]. split; [lia|done].
  - split; constructor.
Qed.

Lemma extended_ok s r : rx_rel s r -> rc_came r <> [] -> extended_highest_sequence s = wrap 32 (highest (rc_came r)).
Proof.
  intros H Hn. unfold extended_highest_sequence. destruct (xr_max _ _ H Hn) as [-> ->]. set (h := highest (rc_came r)).
  assert (0 <= wrap 16 h < 2 ^ 16) as Hh by (apply Z.mod_pos_bound; lia).
  assert (Z.land (Z.shiftl (wrap 16 (h / 2 ^ 16)) 16) (wrap 16 h) = 0) as Hd.
  { apply Z.bits_inj'. intros n Hb. rewrite Z.land_spec, Z.bits_0. destruct (decide (n < 16)).
    - by rewrite Z.shiftl_spec_low by lia.
    - unfold wrap at 2. rewrite Z.mod_pow2_bits_high by lia. apply andb_false_r. }
  rewrite <- Z.lxor_lor, <- Z.add_nocarry_lxor, Z.shiftl_mul_pow2 by (done || lia).
  unfold wrap. rewrite (Z.mul_comm _ (2 ^ 16)), Z.add_comm. change (2 ^ 32) with (2 ^ 16 * 2 ^ 16). by rewrite Z.rem_mul_r by lia.
Qed.

Lemma expected_ok s r : rx_rel s r -> expected s = span (rc_came r).
Proof.
  intros H. unfold expected. rewrite (xr_base _ _ H). pose proof (xr_span _ _ H) as Hs. pose proof (span_pos (rc_came r)) as Hp.
  pose proof (extended_ok _ _ H) as He. destruct (rc_came r) as [|first l]; [done|]. cbn [head]. rewrite He by done.
  unfold wrapping_add, wrapping_sub, wrap. rewrite Zminus_mod_idemp_l, Zplus_mod_idemp_l. cbn [span] in *. by apply Z.mod_small.
Qed.

(** The serial comparison and the wrap count against the true positions. *)
Lemma sequence_advance_ok h i : - 2 ^ 15 <= i - h < 2 ^ 15 ->
  (wrapping_sub 16 (wrap 16 i) (wrap 16 h) <? 0x8000) = (h <=? i) /\
  (h <= i -> (if wrap 16 i <? wrap 16 h then wrapping_add 16 (wrap 16 (h / 2 ^ 16)) 1 else wrap 16 (h / 2 ^ 16)) = wrap 16 (i / 2 ^ 16)).
Proof.
  intros Hd. split.
  - unfold wrapping_sub, wrap. rewrite <- Zminus_mod. change (2 ^ 16) with 65536. change (2 ^ 15) with 32768 in Hd. change 0x8000 with 32768.
    destruct (Z.leb_spec h i).
    + rewrite Z.mod_small by lia. apply Z.ltb_lt. lia.
    + assert ((i - h) mod 65536 = i - h + 65536) as -> by (symmetry; apply Z.mod_unique with (-1); lia). apply Z.ltb_ge. lia.
  - intros Hle. unfold wrapping_add, wrap. rewrite Zplus_mod_idemp_l. change (2 ^ 16) with 65536. change (2 ^ 15) with 32768 in Hd.
    pose proof (Z.div_mod h 65536 ltac:(lia)). pose proof (Z.div_mod i 65536 ltac:(lia)).
    pose proof (Z.mod_pos_bound h 65536 ltac:(lia)). pose proof (Z.mod_pos_bound i 65536 ltac:(lia)).
    destruct (Z.ltb_spec (i mod 65536) (h mod 65536)); f_equal; lia.
Qed.

Lemma packet_rel s r ssrc i ts arrival : rx_rel s r -> rx_op_ok r (Packet ssrc i ts arrival) ->
  rx_rel (observe_arrival (on_rtp s ssrc (wrap 16 i) ts) arrival) (spec_step r (Packet ssrc i ts arrival)).2.
Proof.
  intros [H1 H2 H3 H4 H5 H0 [H6 H6'] H7 (H8 & H9 & H10 & H11) H12 H13] (Hi & Hspan & Hcount). cbn [spec_step snd].
  assert (forall o, ig_ssrc (observe_arrival o arrival) = ig_ssrc o /\ ig_base_sequence (observe_arrival o arrival) = ig_base_sequence o /\
    ig_max_sequence (observe_arrival o arrival) = ig_max_sequence o /\ ig_cycles (observe_arrival o arrival) = ig_cycles o /\
    ig_received (observe_arrival o arrival) = ig_received o /\ ig_expected_prior (observe_arrival o arrival) = ig_expected_prior o /\
    ig_received_prior (observe_arrival o arrival) = ig_received_prior o /\ ig_sent_reports (observe_arrival o arrival) = ig_sent_reports o /\
    ig_sent_reports_next (observe_arrival o arrival) = ig_sent_reports_next o) as Ho by done.
  pose proof (span_mono (rc_came r) i) as Hmono.
  assert (len (rc_came r ++ [i]) = len (rc_came r) + 1) as Hl by (rewrite len_app; done). pose proof (len_nonneg (rc_came r)).
  assert (wrapping_add 64 (ig_received s) 1 = len (rc_came r ++ [i])) as Hr by (rewrite Hl, H6; apply Z.mod_small; lia).
  destruct (Ho (on_rtp s ssrc (wrap 16 i) ts)) as (E1 & E2 & E3 & E4 & E5 & E6 & E7 & E8 & E9). clear Ho.
  constructor; cbn [rc_ssrc rc_came rc_reported rc_sent]; rewrite ?E1, ?E2, ?E3, ?E4, ?E5, ?E6, ?E7, ?E8, ?E9; clear E1 E2 E3 E4 E5 E6 E7 E8 E9; unfold on_rtp; rewrite ?H1.
  - destruct (rc_ssrc r); [by destruct (_ <? _)|done].
  - split; [by destruct (rc_came r)|]. by destruct (rc_ssrc r).
  - destruct (rc_ssrc r) eqn:Es.
    + assert (rc_came r <> []) by (by apply H2). destruct (rc_came r); [done|]. by destruct (_ <? _).
    + destruct (rc_came r) as [|a l] eqn:El; [|by destruct (proj2 H2)]. cbn. f_equal. by apply Z.mod_small.
  - intros j. destruct (rc_came r) as [|a l]; cbn; [by intros [= <-]|]. intros [= <-]. by apply H4.
  - intros _. destruct (rc_ssrc r) eqn:Es.
    + assert (rc_came r <> []) as Hn by (by apply H2). destruct (H5 Hn) as [-> ->]. rewrite highest_app by done.
      assert (- 2 ^ 15 <= i - highest (rc_came r) < 2 ^ 15) as Hd by (by destruct (rc_came r)).
      destruct (sequence_advance_ok (highest (rc_came r)) i Hd) as [-> Hc]. destruct (Z.leb_spec (highest (rc_came r)) i); cbn [ig_max_sequence ig_cycles].
      * rewrite Hc, Z.max_r by lia. done.
      * rewrite Z.max_l by lia. done.
    + destruct (rc_came r) as [|a l] eqn:El; [|by destruct (proj2 H2)]. cbn. split; [done|]. rewrite Z.div_small by done.
      by rewrite H0.
  - by destruct (rc_came r).
  - destruct (rc_ssrc r); [destruct (_ <? _)|]; cbn; lia.
  - done.
  - destruct (rc_ssrc r); [destruct (_ <? _)|]; cbn; split_and!; (done || lia).
  - destruct (rc_ssrc r); [by destruct (_ <? _)|done].
  - done.
Qed.

Lemma report_rel s r : rx_rel s r ->
  fraction_lost_since_last_report s =
    (fraction_of (span (rc_came r) - span (rc_reported r)) (len (rc_came r) - len (rc_reported r)), (fraction_lost_since_last_report s).2) /\
  rx_rel (fraction_lost_since_last_report s).2 (mkReception (rc_ssrc r) (rc_came r) (rc_came r) (rc_sent r)).
Proof.
  intros H. pose proof (expected_ok _ _ H) as He. destruct H as [H1 H2 H3 H4 H5 H0 [H6 H6'] H7 (H8 & H9 & H10 & H11) H12 H13].
  unfold fraction_lost_since_last_report. rewrite H3. pose proof (span_pos (rc_reported r)). pose proof (len_nonneg (rc_reported r)).
  destruct (rc_came r) as [|first l] eqn:Ec; cbn [head].
  { assert (rc_reported r = []) as Hr by (apply len_zero_iff; rewrite len_nil in *; lia). rewrite Hr in *. split; [done|].
    constructor; cbn [rc_ssrc rc_came rc_reported rc_sent snd]; try done. }
  rewrite <- Ec in *. rewrite He, H6, H8, H9. unfold wrapping_sub.
  set (ei := span (rc_came r) - span (rc_reported r)) in *. set (ri := len (rc_came r) - len (rc_reported r)) in *.
  assert (wrap 32 ei = ei /\ wrap 64 ri = ri) as [-> ->] by (split; apply Z.mod_small; lia).
  assert (rx_rel (set_priors s (span (rc_came r)) (len (rc_came r))) (mkReception (rc_ssrc r) (rc_came r) (rc_came r) (rc_sent r))) as Hset
    by (constructor; cbn [rc_ssrc rc_came rc_reported rc_sent]; (done || by rewrite Ec)).
  unfold fraction_of. assert (((ei =? 0) || (ei <=? ri)) = (ei <=? ri)) as ->.
  { destruct (Z.eqb_spec ei 0) as [->|]; [|done]. cbn. symmetry. apply Z.leb_le. unfold ri. lia. }
  destruct (Z.leb_spec ei ri); cbn [snd]; (split; [|exact Hset]); [done|]. f_equal. rewrite Z.shiftl_mul_pow2 by lia.
  change (2 ^ 8) with 256. rewrite (Z.mul_comm _ 256), Z.min_comm. apply Z.mod_small.
  assert (0 <= 256 * (ei - ri) / ei) by (apply Z.div_pos; lia). change (2 ^ 8) with 256. lia.
Qed.

Lemma block_rel s r egress block arrival : rx_rel s r -> rx_op_ok r (BlockRead egress block arrival) ->
  (record_reception_report s egress block arrival).1 = spec_rtt (rc_sent r) egress block arrival /\
  rx_rel (record_reception_report s egress block arrival).2 r.
Proof.
  intros H (Ha & Hd). assert (forall rtt, rx_rel (set_rtt s rtt) r) as Hset by (by destruct H; constructor).
  unfold record_reception_report, spec_rtt. destruct (_ =? egress); cbn [negb andb]; [|done]. destruct (_ =? 0); cbn [negb]; [done|].
  destruct (xr_sent _ _ H) as [Hn Hpos]. rewrite (find_permuted _ _ _ (ring_reports _ _ _ (xr_ring _ _ H)) Hn).
  destruct (filter _ (take 8 (rc_sent r))) as [|[m at_] l] eqn:Ef; [done|]. cbn [head fmap option_fmap option_map snd mbind option_bind].
  assert (0 <= at_) as Hat.
  { assert ((m, at_) ∈ filter (fun e : Z * Z => e.1 = rb_last_sender_report block) (take 8 (rc_sent r))) as Hin by (rewrite Ef; left).
    apply list_elem_of_filter in Hin as [_ Hin]. apply elem_of_take in Hin as (j & Hj & _). apply list_elem_of_lookup_2 in Hj.
    rewrite list.Forall_forall in Hpos. apply (Hpos _ Hj). }
  unfold checked_sub. set (d := _ / 65536). destruct (Z.leb_spec d arrival); cbn [mbind option_bind].
  2: { rewrite (proj2 (Z.leb_gt 0 (arrival - d - at_))) by lia. done. }
  destruct (Z.leb_spec at_ (arrival - d)), (Z.leb_spec 0 (arrival - d - at_)); try lia; (split; [done|]); [apply Hset|done].
Qed.

Lemma rx_run_ok ops : forall s r, rx_rel s r -> rx_ops_ok r ops ->
  (rx_run s ops).1 = (spec_run r ops).1 /\ rx_rel (rx_run s ops).2 (spec_run r ops).2.
Proof.
  induction ops as [|o ops IH]; intros s r H Hops; [done|]. destruct Hops as [Ho Hops].
  assert ((rx_step s o).1 = (spec_step r o).1 /\ rx_rel (rx_step s o).2 (spec_step r o).2) as [H1 H2].
  { destruct o as [ssrc i ts arrival| |ntp now|egress block arrival].
    - split; [done|]. by apply packet_rel.
    - destruct (report_rel _ _ H) as [E H']. cbn [rx_step]. rewrite E. done.
    - split; [done|]. destruct Ho as [Hnow Hn]. destruct H. constructor; cbn [spec_step snd rc_ssrc rc_came rc_reported rc_sent]; try done.
      + by apply ring_push.
      + split; [done|]. constructor; [done|tauto].
    - destruct (block_rel _ _ _ _ _ H Ho) as [E H']. cbn [rx_step spec_step]. destruct (record_reception_report _ _ _ _). cbn in *. by rewrite E. }
  cbn [rx_run spec_run]. destruct (rx_step s o) as [o1 s1], (spec_step r o) as [o2 r1]. cbn [fst snd] in *. subst o2.
  destruct (IH s1 r1 H2 Hops) as [E H']. destruct (rx_run s1 ops), (spec_run r1 ops). cbn [fst snd] in *. by subst.
Qed.


(** ** Witness and examples *)

(** Packets 65534, 65535 and 65537 (the wrap crossed, one lost), a report, the echo of
    a report sent. *)
Definition demo_ops : list rx_op :=
  [Packet 7 65534 0 1000; Packet 7 65535 160 21000; ReportSent 0x123456789ABCDEF0 30000; Packet 7 65537 480 61000; ReportDue;
   BlockRead 9 (mkReportBlock 9 0 0 0 0 0x56789ABC 65536) 1050000; ReportDue].


(** The jitter recurrence in binary64: one packet 20 ms late moves the estimate by a
    sixteenth of the 160 ticks. *)
Example jitter_step :
  jitter_rtp_units (rx_run (IngressStats_new 8000) [Packet 7 1 0 1000; Packet 7 2 160 41000]).2 = 10 /\
  jitter_ms (rx_run (IngressStats_new 8000) [Packet 7 1 0 1000; Packet 7 2 160 41000]).2 = f64_div (f64_of 5) (f64_of 4).
Proof. vm_compute. done. Qed.

(** A duplicate hides a loss: the count of RFC 3550 goes by packets, not positions. *)
Example duplicate_hides_loss :
  cumulative_lost (rx_run (IngressStats_new 8000) [Packet 7 1 0 0; Packet 7 1 0 0; Packet 7 3 320 0]).2 = 0 /\
  missing [1; 1; 3] = [2].
Proof. vm_compute. done. Qed.
