(* ===== verification/RoomCodec.v ===== *)
(** * The codec of a forwarding room

    crates/siphon-rtp-engine/src/forward/codec.rs: the one codec a room carries, fixed
    by its first seat, and which of a later seat's offers reads it; with the codec
    descriptions of crates/siphon-rtp-codec/src/factory.rs it compares.  The
    parameters of Opus are never compared here and are left out of [CodecSpec]; a
    seat that needs transcoding is the transcoder's business. *)

From Stdlib Require Import Lia ZArith String Ascii List.
From stdpp Require Import base list numbers option.
From S2P Require Import Prelude Bencode Text Ice IceText.

Open Scope Z_scope.

Record AmrParams : Type := mkAmrParams {
  am_octet_align : option bool;
  am_crc : option bool;
  am_robust_sorting : option bool;
  am_interleaving : option Z;
  am_mode_change_period : option Z;
  am_mode_change_capability : option Z;
  am_mode_change_neighbor : option bool;
  am_max_red : option Z;
  am_malformed : bool;
  am_mode_request : option Z
}.

Definition octet_aligned_params (p : AmrParams) : bool := bool_decide (am_octet_align p = Some true).

Definition unsupported (p : AmrParams) : option bytes :=
  if am_malformed p then Some (str "an AMR fmtp parameter has a value RFC 4867 does not permit")
  else if bool_decide (am_crc p = Some true) then Some (str "AMR frame CRCs (crc=1) are not implemented")
  else if bool_decide (am_robust_sorting p = Some true)
  then Some (str "AMR robust payload sorting (robust-sorting=1) is not implemented")
  else if bool_decide (is_Some (am_interleaving p)) then Some (str "AMR frame interleaving is not implemented")
  else None.

Record CodecSpec : Type := mkCodecSpec {
  cs_payload_type : Z;
  cs_encoding_name : bytes;
  cs_clock_rate_hz : Z;
  cs_channels : Z;
  cs_ptime_ms : Z;
  cs_encode_mode : option Z;
  cs_allowed_modes : list Z;
  cs_amr : option AmrParams;
  cs_annex_b : bool
}.

Definition OPUS_ENCODING_NAME : bytes := str "OPUS".
Definition OPUS_CLOCK_RATE_HZ : Z := 48000.
Definition OPUS_RTPMAP_CHANNELS : Z := 2.

Definition normalise_encoding_name (uppercased : bytes) : bytes :=
  if bool_decide (uppercased = str "G729A") || bool_decide (uppercased = str "G729B") || bool_decide (uppercased = str "G729AB")
  then str "G729" else uppercased.

Definition CodecSpec_new (payload_type : Z) (encoding_name : bytes) (clock_rate_hz channels ptime_ms : Z) : CodecSpec :=
  let encoding_name := normalise_encoding_name (to_ascii_uppercase encoding_name) in
  let is_opus := bool_decide (encoding_name = OPUS_ENCODING_NAME) in
  mkCodecSpec payload_type encoding_name (if is_opus then OPUS_CLOCK_RATE_HZ else clock_rate_hz)
    (if is_opus then OPUS_RTPMAP_CHANNELS else Z.max channels 1) (Z.max ptime_ms 1) None [] None true.

Definition is_amr (s : CodecSpec) : bool :=
  bool_decide (cs_encoding_name s = str "AMR") || bool_decide (cs_encoding_name s = str "AMR-WB").

Definition is_telephone_event (s : CodecSpec) : bool := bool_decide (cs_encoding_name s = str "TELEPHONE-EVENT").

Definition amr_unsupported (s : CodecSpec) : option bytes :=
  if negb (is_amr s) then None else
  if 1 <? cs_channels s then Some (str "multi-channel AMR is not implemented") else
  let highest_mode := if bool_decide (cs_encoding_name s = str "AMR") then 7 else 8 in
  if existsb (fun mode => highest_mode <? mode) (cs_allowed_modes s)
  then Some (str "the AMR mode-set names a mode the codec does not have")
  else cs_amr s ≫= unsupported.

(** ** The room's codec (codec.rs) *)

Inductive ForwardMedia : Type := Translate | Preserve.

#[export] Instance ForwardMedia_eq_dec : EqDecision ForwardMedia.
Proof. solve_decision. Defined.

Record RoomCodec : Type := mkRoomCodec { rc_reference : CodecSpec; rc_media : ForwardMedia }.

Definition forwardable (s : CodecSpec) : res bytes unit :=
  if is_telephone_event s || bool_decide (cs_encoding_name s = str "CN")
  then Err (str "a companion payload, not an audio codec") else
  match amr_unsupported s with Some reason => Err reason | None => Ok tt end.

(** [format!("{}/{} payload type {}: {reason}", ...)] and [join("; ")]. *)
Definition passed_over (s : CodecSpec) (reason : bytes) : bytes :=
  cs_encoding_name s ++ str "/" ++ digits (cs_clock_rate_hz s) ++ str " payload type " ++ digits (cs_payload_type s) ++ str ": " ++ reason.

Fixpoint join_reasons (reasons : list bytes) : bytes :=
  match reasons with [] => [] | [r] => r | r :: rest => r ++ str "; " ++ join_reasons rest end.

Fixpoint from_offer_loop (offered : list CodecSpec) (reasons : list bytes) : res bytes (RoomCodec * CodecSpec) :=
  match offered with
  | [] =>
      if bool_decide (reasons = []) then Err (str "offer has no audio codec")
      else Err (str "no offered codec can be forwarded: " ++ join_reasons reasons)
  | s :: offered =>
      match forwardable s with
      | Ok _ => Ok (mkRoomCodec s Translate, s)
      | Err reason => from_offer_loop offered (reasons ++ [passed_over s reason])
      | Panic => Panic
      end
  end.

Definition from_offer (offered : list CodecSpec) : res bytes (RoomCodec * CodecSpec) := from_offer_loop offered [].

Definition with_media (c : RoomCodec) (media : ForwardMedia) : RoomCodec := mkRoomCodec (rc_reference c) media.

Definition clock_rate_hz (c : RoomCodec) : Z := cs_clock_rate_hz (rc_reference c).

Definition octet_aligned (s : CodecSpec) : bool := match cs_amr s with Some params => octet_aligned_params params | None => false end.

Definition is_g729 (s : CodecSpec) : bool := bool_decide (cs_encoding_name s = str "G729").

Definition describe (c : RoomCodec) : bytes :=
  let s := rc_reference c in
  cs_encoding_name s ++ str "/" ++ digits (cs_clock_rate_hz s) ++
  (if 1 <? cs_channels s then str "/" ++ digits (cs_channels s) else []) ++
  (if is_amr s then (if octet_aligned s then str " (octet-aligned)" else str " (bandwidth-efficient)") else []) ++
  (if is_g729 s && negb (cs_annex_b s) then str " (annexb=no)" else []).

(** Whether every mode the room may send is one the seat offered. *)
Definition room_modes_covered (room offered : CodecSpec) : bool :=
  let seat_allows_every_mode := bool_decide (cs_allowed_modes offered = []) in
  if bool_decide (cs_allowed_modes room = []) then seat_allows_every_mode
  else seat_allows_every_mode || forallb (fun mode => bool_decide (mode ∈ cs_allowed_modes offered)) (cs_allowed_modes room).

Definition mismatch (c : RoomCodec) (offered : CodecSpec) : option bytes :=
  let room := rc_reference c in
  if negb (bool_decide (cs_encoding_name offered = cs_encoding_name room)) || negb (cs_clock_rate_hz offered =? cs_clock_rate_hz room)
     || negb (cs_channels offered =? cs_channels room)
  then Some (str "a different codec") else
  if is_amr room && negb (Bool.eqb (octet_aligned offered) (octet_aligned room)) then
    Some (if octet_aligned room then str "bandwidth-efficient where the room is octet-aligned (RFC 4867 §4.4)"
          else str "octet-aligned where the room is bandwidth-efficient (RFC 4867 §4.4)")
  else if is_amr room && negb (room_modes_covered room offered) then
    Some (str "a mode-set that excludes modes the room may send")
  else if is_g729 room && negb (Bool.eqb (cs_annex_b offered) (cs_annex_b room)) then
    Some (str "a different annexb setting (RFC 3555 §4.1.13)")
  else if bool_decide (rc_media c = Preserve) && negb (cs_payload_type offered =? cs_payload_type room) then
    Some (str "payload type " ++ digits (cs_payload_type offered) ++ str " where the preserve room forwards payload type "
          ++ digits (cs_payload_type room) ++ str " unchanged")
  else None.

Definition set_allowed_modes (s : CodecSpec) (modes : list Z) : CodecSpec :=
  mkCodecSpec (cs_payload_type s) (cs_encoding_name s) (cs_clock_rate_hz s) (cs_channels s) (cs_ptime_ms s) (cs_encode_mode s)
    modes (cs_amr s) (cs_annex_b s).

Fixpoint admit_loop (c : RoomCodec) (offered : list CodecSpec) (reasons : list bytes) : res bytes CodecSpec :=
  match offered with
  | [] =>
      let offer := if bool_decide (reasons = []) then str "the offer has no audio codec" else join_reasons reasons in
      Err (str "the room carries " ++ describe c ++ str " and the seat does not offer it: " ++ offer)
  | s :: offered =>
      match mismatch c s with
      | None => Ok (set_allowed_modes s (cs_allowed_modes (rc_reference c)))
      | Some reason => admit_loop c offered (reasons ++ [passed_over s reason])
      end
  end.

Definition room_admit (c : RoomCodec) (offered : list CodecSpec) : res bytes CodecSpec := admit_loop c offered [].

(** * Proofs *)

(** The seat reads what the room sends: one payload format, and every mode the room
    may send is one the seat asked for. *)
Record reads_room (c : RoomCodec) (s : CodecSpec) : Prop := {
  rd_codec : cs_encoding_name s = cs_encoding_name (rc_reference c) /\ cs_clock_rate_hz s = cs_clock_rate_hz (rc_reference c) /\
    cs_channels s = cs_channels (rc_reference c);
  rd_layout : is_amr (rc_reference c) = true -> octet_aligned s = octet_aligned (rc_reference c);
  rd_modes : is_amr (rc_reference c) = true -> cs_allowed_modes s <> [] ->
    cs_allowed_modes (rc_reference c) <> [] /\ forall mode, mode ∈ cs_allowed_modes (rc_reference c) -> mode ∈ cs_allowed_modes s;
  rd_annex_b : is_g729 (rc_reference c) = true -> cs_annex_b s = cs_annex_b (rc_reference c);
  rd_payload_type : rc_media c = Preserve -> cs_payload_type s = cs_payload_type (rc_reference c)
}.

Lemma room_modes_covered_spec room offered : room_modes_covered room offered = true <->
  (cs_allowed_modes offered <> [] -> cs_allowed_modes room <> [] /\ forall mode, mode ∈ cs_allowed_modes room -> mode ∈ cs_allowed_modes offered).
Proof.
  unfold room_modes_covered. destruct (decide (cs_allowed_modes room = [])) as [Er|Er], (decide (cs_allowed_modes offered = [])) as [Eo|Eo];
    rewrite ?(bool_decide_eq_true_2 (cs_allowed_modes room = [])), ?(bool_decide_eq_false_2 (cs_allowed_modes room = [])),
      ?(bool_decide_eq_true_2 (cs_allowed_modes offered = [])), ?(bool_decide_eq_false_2 (cs_allowed_modes offered = [])) by done; cbn [orb].
  - tauto.
  - split; [done|]. intros H. by destruct (H Eo).
  - tauto.
  - rewrite forallb_forall. split.
    + intros Hall _. split; [done|]. intros mode Hm. apply (bool_decide_eq_true (mode ∈ cs_allowed_modes offered)), Hall. by apply list_elem_of_In.
    + intros Hall mode Hm%list_elem_of_In. apply bool_decide_eq_true. by apply (Hall Eo).
Qed.

Lemma mismatch_exact c s : mismatch c s = None <-> reads_room c s.
Proof.
  unfold mismatch. split.
  - intros H. destruct (negb (bool_decide _) || _ || _) eqn:E1; [done|]. apply orb_false_iff in E1 as [[E1 E2]%orb_false_iff E3].
    apply negb_false_iff in E1, E2, E3. apply bool_decide_eq_true in E1. apply Z.eqb_eq in E2, E3.
    destruct (is_amr _ && negb (Bool.eqb _ _)) eqn:E4; [done|]. destruct (is_amr _ && negb (room_modes_covered _ _)) eqn:E5; [done|].
    destruct (is_g729 _ && _) eqn:E6; [done|]. destruct (bool_decide _ && _) eqn:E7; [done|].
    constructor; [done|..].
    + intros Ha. rewrite Ha in E4. by apply negb_false_iff, Bool.eqb_prop in E4.
    + intros Ha. rewrite Ha in E5. apply negb_false_iff in E5. exact (proj1 (room_modes_covered_spec _ _) E5).
    + intros Ha. rewrite Ha in E6. by apply negb_false_iff, Bool.eqb_prop in E6.
    + intros Ha. rewrite bool_decide_eq_true_2 in E7 by done. by apply negb_false_iff, Z.eqb_eq in E7.
  - intros [(-> & -> & ->) H2 H3 H4 H5]. rewrite bool_decide_eq_true_2, !Z.eqb_refl by done. cbn [negb orb].
    destruct (is_amr (rc_reference c)); cbn [andb].
    + rewrite (H2 eq_refl), Bool.eqb_reflx, (proj2 (room_modes_covered_spec _ _) (H3 eq_refl)). cbn [negb].
      destruct (is_g729 _); cbn [andb]; [rewrite H4, Bool.eqb_reflx by done|]; cbn [negb]; (case_bool_decide; cbn [andb]; [|done]); by rewrite H5, Z.eqb_refl.
    + destruct (is_g729 _); cbn [andb]; [rewrite H4, Bool.eqb_reflx by done|]; cbn [negb]; (case_bool_decide; cbn [andb]; [|done]); by rewrite H5, Z.eqb_refl.
Qed.

(** A seat is admitted with the first of its codecs that reads the room, carrying the
    room's modes; it is refused exactly when none does. *)
Lemma room_admit_exact c offered :
  match room_admit c offered with
  | Ok answer => exists i s, offered !! i = Some s /\ reads_room c s /\ answer = set_allowed_modes s (cs_allowed_modes (rc_reference c)) /\
      Forall (fun s => ~ reads_room c s) (take i offered)
  | Err _ => Forall (fun s => ~ reads_room c s) offered
  | Panic => False
  end.
Proof.
  unfold room_admit. generalize (@nil bytes). induction offered as [|s offered IH]; intros reasons; cbn [admit_loop]; [constructor|].
  destruct (mismatch c s) as [reason|] eqn:E.
  - assert (~ reads_room c s) as Hs by (rewrite <- mismatch_exact, E; done). specialize (IH (reasons ++ [passed_over s reason])).
    destruct (admit_loop _ _ _) as [answer|e|]; [|by constructor|done]. destruct IH as (i & s' & H1 & H2 & H3 & H4). exists (S i), s'. split_and!; try done. by constructor.
  - exists 0%nat, s. split; [done|]. split; [by apply mismatch_exact|]. split; [done|constructor].
Qed.

(** Every two seats of one room read one payload format: what one sends in the modes
    it was answered with, the other accepts. *)
Lemma room_seats_agree c offer1 offer2 a b : room_admit c offer1 = Ok a -> room_admit c offer2 = Ok b ->
  cs_encoding_name a = cs_encoding_name b /\ cs_clock_rate_hz a = cs_clock_rate_hz b /\ cs_channels a = cs_channels b /\
  (is_amr (rc_reference c) = true -> octet_aligned a = octet_aligned b /\ cs_allowed_modes a = cs_allowed_modes b) /\
  (rc_media c = Preserve -> cs_payload_type a = cs_payload_type b).
Proof.
  intros Ha Hb. pose proof (room_admit_exact c offer1) as H1. pose proof (room_admit_exact c offer2) as H2. rewrite Ha in H1. rewrite Hb in H2.
  destruct H1 as (_ & s & _ & [(? & ? & ?) L1 _ _ P1] & -> & _), H2 as (_ & t & _ & [(? & ? & ?) L2 _ _ P2] & -> & _).
  cbn [set_allowed_modes cs_encoding_name cs_clock_rate_hz cs_channels cs_allowed_modes cs_payload_type cs_amr].
  split_and!; try congruence.
  - intros Ham. split; [|done]. specialize (L1 Ham). specialize (L2 Ham). unfold octet_aligned in *. cbn. congruence.
  - intros Hp. rewrite (P1 Hp), (P2 Hp). done.
Qed.

(** A bandwidth-efficient AMR-WB room takes a seat under its own number and refuses an
    octet-aligned offer, naming it. *)
Example amr_room :
  let room := mkRoomCodec (set_allowed_modes (CodecSpec_new 97 (str "amr-wb") 16000 1 20) [0; 2]) Translate in
  let aligned := mkCodecSpec 98 (str "AMR-WB") 16000 1 20 None [] (Some (mkAmrParams (Some true) None None None None None None None false None)) true in
  room_admit room [aligned; CodecSpec_new 99 (str "AMR-WB") 16000 1 20] = Ok (set_allowed_modes (CodecSpec_new 99 (str "AMR-WB") 16000 1 20) [0; 2]) /\
  room_admit room [aligned] =
    Err (str "the room carries AMR-WB/16000 (bandwidth-efficient) and the seat does not offer it: AMR-WB/16000 payload type 98: octet-aligned where the room is bandwidth-efficient (RFC 4867 §4.4)").
Proof. vm_compute. done. Qed.
