(* ===== verification/SeatGate.v ===== *)
(** * The ingress chain of a room's seat: crates/siphon-rtp-engine/src/seat_gate.rs

    What every room that terminates its participants' media asks of a datagram, in
    order: the signalled source, the key and the ICE pair settled, authentication,
    the reply latch; and what it reads out of a seat's RTCP before dropping it.  The
    struct of borrows of the source is a record passed and returned. *)

From stdpp Require Import base list numbers option.
From Stdlib Require Import Lia ZArith.
From S2P Require Import Prelude Rtcp Relay Replay Srtp Srtcp Text Sdes SecureLeg Stun TurnAuth SrtcpGcm CallFloor.

Open Scope Z_scope.

Record SeatGate : Type := mkSeatGate {
  sg_accepted_source : SourceFilter;
  sg_secure_pending : bool;
  sg_ice_pending : bool;
  sg_secure : option SecureLeg;
  sg_latch : bool;
  sg_reverse_latch : latch;
  sg_refusals : Z;
  sg_egress_destination : SocketAddr
}.

Definition gate_log (g : SeatGate) (r : Refusal) : SeatGate :=
  mkSeatGate (sg_accepted_source g) (sg_secure_pending g) (sg_ice_pending g) (sg_secure g) (sg_latch g) (sg_reverse_latch g)
    (refusal_log (sg_refusals g) r) (sg_egress_destination g).
Definition gate_secure (g : SeatGate) (secure : SecureLeg) : SeatGate :=
  mkSeatGate (sg_accepted_source g) (sg_secure_pending g) (sg_ice_pending g) (Some secure) (sg_latch g) (sg_reverse_latch g)
    (sg_refusals g) (sg_egress_destination g).
Definition gate_latched (g : SeatGate) (l : latch) (destination : SocketAddr) : SeatGate :=
  mkSeatGate (sg_accepted_source g) (sg_secure_pending g) (sg_ice_pending g) (sg_secure g) (sg_latch g) l
    (sg_refusals g) destination.

Definition gate_is_rtcp (data : bytes) : res unit bool :=
  if 2 <=? len data then b1 ← idx data 1; let t := Z.land b1 0x7F in mret ((64 <=? t) && (t <=? 95)) else mret false.

Inductive RtcpItem : Type := SenderReportNtp (ntp : Z) | Block (block : ReportBlock).

(** The calls made to [consume], in order. *)
Definition consume_rtcp (data : bytes) : res unit (list RtcpItem) :=
  ntp ← (if 16 <=? len data then
           b0 ← idx data 0; b1 ← idx data 1;
           if (Z.shiftr b0 6 =? 2) && (b1 =? SENDER_REPORT) then
             ntp_bytes ← slice data 8 16; mret [SenderReportNtp (be_dec ntp_bytes)]
           else mret []
         else mret []);
  match parse_compound data with
  | Ok packets =>
      mret (ntp ++ concat ((fun packet =>
        Block <$> match packet with PktSenderReport r => sr_reports r | PktReceiverReport r => rcv_reports r | PktOther _ => [] end) <$> packets))
  | Err _ => mret ntp
  | Panic => Panic
  end.

Section gating.
Context `{K : SrtpCrypto}.

(** [admit]: the cleartext or the outcome to report, with the gate and the decrypt
    buffer after. *)
Definition gate_admit (g : SeatGate) (packet : RxPacket) (clear : bytes) : res Ingress bytes * SeatGate * bytes :=
  if negb (accepts (sg_accepted_source g) (sa_ip (rx_source packet))) then (Err Refused, gate_log g UnsignalledSource, clear) else
  if sg_secure_pending g then (Err Refused, g, clear) else
  if sg_ice_pending g then (Err Refused, g, clear) else
  let '(data, g, clear) :=
    match sg_secure g with
    | Some secure =>
        let '(r, secure, clear) := leg_unprotect secure (rx_data packet) [] in
        (match r with
         | Ok _ => (Ok clear : res Ingress bytes, gate_secure g secure, clear)
         | Err _ => (Err Refused, gate_log (gate_secure g secure) NotAuthenticated, clear)
         | Panic => (Panic, g, clear)
         end)
    | None => (Ok (rx_data packet), g, clear)
    end in
  match data with
  | Ok data =>
      if negb (sg_latch g) then (Ok data, g, clear) else
      match rtp_media_ssrc data with
      | Ok ssrc =>
          match SymmetricLatch_admit (sg_reverse_latch g) (rx_source packet) ssrc with
          | (ReplyReject, l) => (Err Refused, gate_log (gate_latched g l (sg_egress_destination g)) NewSource, clear)
          | (Accept (Some destination), l) => (Ok data, gate_latched g l destination, clear)
          | (Accept None, l) => (Ok data, gate_latched g l (sg_egress_destination g), clear)
          end
      | _ => (Panic, g, clear)
      end
  | refused => (refused, g, clear)
  end.
End gating.

(** * Proofs *)

Lemma gate_is_rtcp_leg data : gate_is_rtcp data = Ok (is_rtcp data).
Proof. unfold gate_is_rtcp, is_rtcp. destruct (Z.leb_spec 2 (len data)); [|done]. by rewrite idx_byte_of, bind_Ok by lia. Qed.

Lemma consume_rtcp_Ok data : bytes_ok data -> exists items, consume_rtcp data = Ok items.
Proof.
  intros Hb. unfold consume_rtcp. match goal with |- context [ntp ← ?m; _] => assert (exists ntp, m = Ok ntp) as [ntp ->] end.
  - destruct (Z.leb_spec 16 (len data)); [|by eexists]. rewrite !idx_byte_of, !bind_Ok by lia. destruct (_ && _); [|by eexists]. rewrite slice_Ok by lia. by eexists.
  - rewrite bind_Ok. pose proof (proj1 (rtcp_parse_exact data Hb)). destruct (parse_compound data); [by eexists|by eexists|done].
Qed.

Section admit_proofs.
Context `{L : SrtpCryptoLaws}.
Context (keystream_bytes : forall key iv n, bytes_ok (ctr_keystream key iv n)).

Definition gate_ok (g : SeatGate) : Prop := forall leg, sg_secure g = Some leg -> leg_inv leg.

(** What the gate demanded of a datagram it passed. *)
Record passed (g : SeatGate) (packet : RxPacket) (data : bytes) (g' : SeatGate) : Prop := {
  ps_source : accepts (sg_accepted_source g) (sa_ip (rx_source packet)) = true;
  ps_settled : sg_secure_pending g = false /\ sg_ice_pending g = false;
  ps_opened : match sg_secure g with
              | Some leg => exists kind leg', leg_unprotect leg (rx_data packet) [] = (Ok kind, leg', data) /\ sg_secure g' = Some leg'
              | None => data = rx_data packet /\ sg_secure g' = None
              end;
  ps_latch : if sg_latch g then
               exists ssrc destination, rtp_media_ssrc data = Ok ssrc /\
                 SymmetricLatch_admit (sg_reverse_latch g) (rx_source packet) ssrc = (Accept destination, sg_reverse_latch g') /\
                 sg_egress_destination g' = default (sg_egress_destination g) destination /\
                 (destination = None \/ destination = Some (rx_source packet))
             else sg_reverse_latch g' = sg_reverse_latch g /\ sg_egress_destination g' = sg_egress_destination g
}.

Lemma rtp_media_ssrc_Ok data : exists ssrc, rtp_media_ssrc data = Ok ssrc.
Proof.
  unfold rtp_media_ssrc. destruct (Z.ltb_spec (len data) 12); [by eexists|]. rewrite !idx_byte_of, !bind_Ok by lia.
  destruct (negb _); [by eexists|]. destruct (_ && _); by eexists.
Qed.

Lemma symmetric_accept (l : latch) source ssrc destination l' : SymmetricLatch_admit l source ssrc = (Accept destination, l') ->
  destination = None \/ destination = Some source.
Proof.
  unfold SymmetricLatch_admit. destruct (source_latch_verdict l source ssrc) as [|[s [k|]]|]; intros [= <- _]; auto.
Qed.

(** The chain never panics; it passes exactly what satisfies every layer, and a
    datagram it refuses moves neither the latch nor the reply address. *)
Lemma gate_admit_exact g packet clear : gate_ok g -> bytes_ok (rx_data packet) ->
  match gate_admit g packet clear with
  | (Ok data, g', clear') => passed g packet data g' /\ bytes_ok data /\ gate_ok g' /\ (is_Some (sg_secure g) -> clear' = data) /\
      sg_refusals g' = sg_refusals g
  | (Err i, g', _) => i = Refused /\ sg_egress_destination g' = sg_egress_destination g /\ sg_reverse_latch g' = sg_reverse_latch g /\
      gate_ok g' /\ (is_Some (sg_secure g') <-> is_Some (sg_secure g))
  | (Panic, _, _) => False
  end.
Proof.
  intros Hg Hb. unfold gate_admit. destruct (accepts _ _) eqn:Ea; cbn [negb]; [|done].
  destruct (sg_secure_pending g) eqn:Es; [done|]. destruct (sg_ice_pending g) eqn:Ei; [done|].
  set (opened := match sg_secure g with Some secure => _ | None => _ end).
  assert (match opened with
    | (Ok data, g1, clear') => bytes_ok data /\ gate_ok g1 /\ (is_Some (sg_secure g) -> clear' = data) /\
        (match sg_secure g with
         | Some leg => exists kind leg', leg_unprotect leg (rx_data packet) [] = (Ok kind, leg', data) /\ g1 = gate_secure g leg'
         | None => data = rx_data packet /\ g1 = g end)
    | (Err i, g1, _) => i = Refused /\ sg_egress_destination g1 = sg_egress_destination g /\ sg_reverse_latch g1 = sg_reverse_latch g /\
        gate_ok g1 /\ (is_Some (sg_secure g1) <-> is_Some (sg_secure g))
    | (Panic, _, _) => False
    end) as Ho.
  { unfold opened. destruct (sg_secure g) as [leg|] eqn:Eg.
    - pose proof (leg_unprotect_safe keystream_bytes leg (rx_data packet) (Hg leg Eg) Hb) as H.
      destruct (leg_unprotect leg (rx_data packet) []) as [[[kind|e|] leg'] out] eqn:El; [| |done].
      + destruct H as [Hi Ho]. split_and!; try done; [by intros l [= <-]|]. by eexists _, _.
      + subst leg'. split_and!; try done. intros l [= <-]. by apply Hg.
    - by split_and!. }
  destruct opened as [[[data|i|] g1] clear']; [|exact Ho|done]. destruct Ho as (Hd & Hg1 & Hc & Ho).
  assert (sg_latch g1 = sg_latch g /\ sg_reverse_latch g1 = sg_reverse_latch g /\ sg_egress_destination g1 = sg_egress_destination g /\ sg_refusals g1 = sg_refusals g /\
    match sg_secure g with Some leg => exists kind leg', leg_unprotect leg (rx_data packet) [] = (Ok kind, leg', data) /\ sg_secure g1 = Some leg'
    | None => data = rx_data packet /\ sg_secure g1 = None end) as (E1 & E2 & E3 & E4 & E5).
  { destruct (sg_secure g) as [leg|] eqn:Eg; [destruct Ho as (kind & leg' & ? & ->)|destruct Ho as [? ->]]; split_and!; try done. by eexists _, _. }
  rewrite E1. destruct (sg_latch g) eqn:El; cbn [negb].
  2: { split_and!; try done. constructor; [done|done|done|]. by rewrite El. }
  destruct (rtp_media_ssrc_Ok data) as [ssrc Hs]. rewrite Hs, E2.
  destruct (SymmetricLatch_admit (sg_reverse_latch g) (rx_source packet) ssrc) as [[[destination|]|] l] eqn:Ev.
  - destruct (symmetric_accept _ _ _ _ _ Ev) as [|[= ->]]; [done|]. split_and!; try done. constructor; [done|done|done|]. rewrite El. exists ssrc, (Some (rx_source packet)). by auto.
  - split_and!; try done. constructor; [done|done|done|]. rewrite El. exists ssrc, None. by auto.
  - split_and!; try done.
    + unfold SymmetricLatch_admit in Ev. cbn. destruct (source_latch_verdict _ _ _) as [|[? []]|]; by simplify_eq.
    + cbn. destruct (sg_secure g) as [leg|]; [destruct E5 as (? & ? & _ & ->)|destruct E5 as [_ ->]]; split; intros [? [=]]; done.
Qed.

End admit_proofs.
