(* ===== verification/ForwardRoom.v ===== *)
(** * A forwarding room: crates/siphon-rtp-engine/src/forward/room.rs and room/app.rs

    The synchronous core of a forwarding room, whose chosen seat's audio goes to every
    other seat, and its actor (forward/registry.rs).  It composes [SeatGate], the
    [Translator] of each receiver, [SecureLeg], [Reception], and the floor-control
    parts of [CallFloor]; the writer side of a floor data channel (floor_channel.rs)
    is modelled too, its driver is the environment.

    Every seat here speaks the room's codec: a seat in another codec brings a
    transcoder into the room, and without one ([self.transcoder] and each seat's
    [cross] are [None]) the branches that ask it are not taken and are left out, with
    the fields of a plan only they read.  Controllers' event queues and the data
    channels are shared with other tasks: two stores, passed and returned. *)

From Stdlib Require Import Lia ZArith String.
From stdpp Require Import base list numbers option gmap.
From S2P Require Import Prelude Rtp Rtcp Translator Relay Replay Srtp Srtcp Text Sdes SecureLeg Stun TurnAuth SrtcpGcm CallFloor Reception RoomCodec SeatGate.

Open Scope Z_scope.

Definition MAX_SEATS : Z := 1000.
Definition ROOM_MAX_DATAGRAM : Z := 1500.

Inductive ForwardError : Type :=
| RoomFull
| DuplicateTag (tag : bytes)
| UnknownTag (tag : bytes).

(** [TelephoneEvent] of sdp/telephone_event.rs. *)
Record EventPayloadType : Type := mkEventPayloadType { ev_payload_type : Z; ev_clock_rate_hz : Z }.

(** ** Floor streams and floor data channels *)

Record FloorConfig : Type := mkFloorConfig {
  fc_endpoint : Z;
  fc_destination : SocketAddr;
  fc_accepted_source : SourceFilter;
  fc_ice_gated : bool;
  fc_keys : list FloorMasterKey
}.

Record FloorStream : Type := mkFloorStream {
  fm_endpoint : Z;
  fm_destination : SocketAddr;
  fm_accepted_source : SourceFilter;
  fm_ice_gated : bool;
  fm_latch : latch;
  fm_refusals : Z;
  fm_protection : option FloorProtection
}.

Definition set_floor_gate (f : FloorStream) (destination : SocketAddr) (latch : latch) (refusals : Z) (protection : option FloorProtection) : FloorStream :=
  mkFloorStream (fm_endpoint f) destination (fm_accepted_source f) (fm_ice_gated f) latch refusals protection.
Definition set_floor_source (f : FloorStream) (accepted_source : SourceFilter) : FloorStream :=
  mkFloorStream (fm_endpoint f) (fm_destination f) accepted_source (fm_ice_gated f) (fm_latch f) (fm_refusals f)
    (fm_protection f).

Definition WRITER_QUEUE_CAPACITY : Z := 64.

(** The writer side shared with the driver: whether the channel is open, the queue of
    messages, whether the driver still holds its end. *)
Record FloorChannel : Type := mkFloorChannel { ch_open : bool; ch_queue : list bytes; ch_connected : bool }.

Inductive FloorChannelError : Type := NotOpen | Congested | Gone.

Definition channel_error_text (e : FloorChannelError) : bytes :=
  match e with
  | NotOpen => str "floor data channel not open yet"
  | Congested => str "floor data channel congested"
  | Gone => str "floor data channel closed"
  end.

(** [FloorChannelHandle::submit]. *)
Definition submit (c : FloorChannel) (message : bytes) : res FloorChannelError FloorChannel :=
  if negb (ch_open c) then Err NotOpen else
  if negb (ch_connected c) then Err Gone else
  if WRITER_QUEUE_CAPACITY <=? len (ch_queue c) then Err Congested
  else Ok (mkFloorChannel (ch_open c) (ch_queue c ++ [message]) (ch_connected c)).

Abbreviation channels := (gmap Z FloorChannel).

(** ** Seats *)

Section room.
Context `{K : SrtpCrypto} `{G : GcmCrypto}.

Definition FloorStream_new (config : FloorConfig) : FloorStream :=
  mkFloorStream (fc_endpoint config) (fc_destination config) (fc_accepted_source config) (fc_ice_gated config) None 0
    (FloorProtection_new (fc_keys config)).

Definition floor_ice_selected (f : FloorStream) (remote : SocketAddr) : FloorStream :=
  if fm_ice_gated f then set_floor_source f (Exact (sa_ip remote)) else f.

End room.

Record ForwardSeatConfig : Type := mkForwardSeatConfig {
  sf_tag : bytes;
  sf_endpoint : Z;
  sf_egress_destination : SocketAddr;
  sf_accepted_source : SourceFilter;
  sf_latch : bool;
  sf_audio_payload_type : Z;
  sf_telephone_event : option EventPayloadType;
  sf_secure : option SecureLeg;
  sf_secure_pending : bool;
  sf_ice_pending : bool;
  sf_egress_ssrc : Z;
  sf_initial_sequence : Z;
  sf_initial_timestamp : Z;
  sf_floor : option FloorConfig;
  sf_app_events : option Z
}.

Record ForwardSeatStats : Type := mkForwardSeatStats {
  st_not_source_dropped : Z;
  st_unknown_payload_type : Z;
  st_forwarded_packets : Z;
  st_forwarded_octets : Z;
  st_app_events : Z;
  st_malformed_app : Z;
  st_floor_refused : Z;
  st_transcode_dropped : Z;
  st_receiver_rtcp_dropped : Z
}.

Definition count_not_source (c : ForwardSeatStats) (not_source_dropped : Z) : ForwardSeatStats :=
  mkForwardSeatStats not_source_dropped (st_unknown_payload_type c) (st_forwarded_packets c) (st_forwarded_octets c)
    (st_app_events c) (st_malformed_app c) (st_floor_refused c) (st_transcode_dropped c) (st_receiver_rtcp_dropped c).
Definition count_unknown (c : ForwardSeatStats) (unknown_payload_type : Z) : ForwardSeatStats :=
  mkForwardSeatStats (st_not_source_dropped c) unknown_payload_type (st_forwarded_packets c) (st_forwarded_octets c)
    (st_app_events c) (st_malformed_app c) (st_floor_refused c) (st_transcode_dropped c) (st_receiver_rtcp_dropped c).
Definition count_forwarded (c : ForwardSeatStats) (forwarded_packets : Z) (forwarded_octets : Z) : ForwardSeatStats :=
  mkForwardSeatStats (st_not_source_dropped c) (st_unknown_payload_type c) forwarded_packets forwarded_octets
    (st_app_events c) (st_malformed_app c) (st_floor_refused c) (st_transcode_dropped c) (st_receiver_rtcp_dropped c).
Definition count_apps (c : ForwardSeatStats) (app_events : Z) (malformed_app : Z) : ForwardSeatStats :=
  mkForwardSeatStats (st_not_source_dropped c) (st_unknown_payload_type c) (st_forwarded_packets c)
    (st_forwarded_octets c) app_events malformed_app (st_floor_refused c) (st_transcode_dropped c)
    (st_receiver_rtcp_dropped c).
Definition count_refused (c : ForwardSeatStats) (floor_refused : Z) : ForwardSeatStats :=
  mkForwardSeatStats (st_not_source_dropped c) (st_unknown_payload_type c) (st_forwarded_packets c)
    (st_forwarded_octets c) (st_app_events c) (st_malformed_app c) floor_refused (st_transcode_dropped c)
    (st_receiver_rtcp_dropped c).
Definition count_rtcp (c : ForwardSeatStats) (receiver_rtcp_dropped : Z) : ForwardSeatStats :=
  mkForwardSeatStats (st_not_source_dropped c) (st_unknown_payload_type c) (st_forwarded_packets c)
    (st_forwarded_octets c) (st_app_events c) (st_malformed_app c) (st_floor_refused c) (st_transcode_dropped c)
    receiver_rtcp_dropped.

Definition no_stats : ForwardSeatStats := mkForwardSeatStats 0 0 0 0 0 0 0 0 0.

Record Seat : Type := mkSeat {
  se_tag : bytes;
  se_endpoint : Z;
  se_egress_destination : SocketAddr;
  se_accepted_source : SourceFilter;
  se_latch : bool;
  se_audio_payload_type : Z;
  se_telephone_event : option EventPayloadType;
  se_secure : option SecureLeg;
  se_secure_pending : bool;
  se_ice_pending : bool;
  se_reverse_latch : latch;
  se_refusals : Z;
  se_translator : Translator;
  se_clock_rate_hz : Z;
  se_floor : option FloorStream;
  se_app_events : option Z;
  se_floor_channel : option Z;
  se_stats : IngressStats;
  se_last_sender_report_ntp_middle : Z;
  se_last_sender_report_arrival : option Z;
  se_last_forward_clock : Z;
  se_counters : ForwardSeatStats
}.

Definition regated (s : Seat) (egress_destination : SocketAddr) (secure : option SecureLeg) (reverse_latch : latch) (refusals : Z) : Seat :=
  mkSeat (se_tag s) (se_endpoint s) egress_destination (se_accepted_source s) (se_latch s) (se_audio_payload_type s)
    (se_telephone_event s) secure (se_secure_pending s) (se_ice_pending s) reverse_latch refusals (se_translator s)
    (se_clock_rate_hz s) (se_floor s) (se_app_events s) (se_floor_channel s) (se_stats s)
    (se_last_sender_report_ntp_middle s) (se_last_sender_report_arrival s) (se_last_forward_clock s) (se_counters s).
Definition set_secure (s : Seat) (secure : option SecureLeg) (secure_pending : bool) : Seat :=
  mkSeat (se_tag s) (se_endpoint s) (se_egress_destination s) (se_accepted_source s) (se_latch s)
    (se_audio_payload_type s) (se_telephone_event s) secure secure_pending (se_ice_pending s) (se_reverse_latch s)
    (se_refusals s) (se_translator s) (se_clock_rate_hz s) (se_floor s) (se_app_events s) (se_floor_channel s)
    (se_stats s) (se_last_sender_report_ntp_middle s) (se_last_sender_report_arrival s) (se_last_forward_clock s)
    (se_counters s).
Definition set_selected (s : Seat) (egress_destination : SocketAddr) (accepted_source : SourceFilter) (ice_pending : bool) (reverse_latch : latch) (refusals : Z) (floor : option FloorStream) : Seat :=
  mkSeat (se_tag s) (se_endpoint s) egress_destination accepted_source (se_latch s) (se_audio_payload_type s)
    (se_telephone_event s) (se_secure s) (se_secure_pending s) ice_pending reverse_latch refusals (se_translator s)
    (se_clock_rate_hz s) floor (se_app_events s) (se_floor_channel s) (se_stats s)
    (se_last_sender_report_ntp_middle s) (se_last_sender_report_arrival s) (se_last_forward_clock s) (se_counters s).
Definition set_forwarded (s : Seat) (translator : Translator) (last_forward_clock : Z) : Seat :=
  mkSeat (se_tag s) (se_endpoint s) (se_egress_destination s) (se_accepted_source s) (se_latch s)
    (se_audio_payload_type s) (se_telephone_event s) (se_secure s) (se_secure_pending s) (se_ice_pending s)
    (se_reverse_latch s) (se_refusals s) translator (se_clock_rate_hz s) (se_floor s) (se_app_events s)
    (se_floor_channel s) (se_stats s) (se_last_sender_report_ntp_middle s) (se_last_sender_report_arrival s)
    last_forward_clock (se_counters s).
Definition set_floor (s : Seat) (floor : option FloorStream) (counters : ForwardSeatStats) : Seat :=
  mkSeat (se_tag s) (se_endpoint s) (se_egress_destination s) (se_accepted_source s) (se_latch s)
    (se_audio_payload_type s) (se_telephone_event s) (se_secure s) (se_secure_pending s) (se_ice_pending s)
    (se_reverse_latch s) (se_refusals s) (se_translator s) (se_clock_rate_hz s) floor (se_app_events s)
    (se_floor_channel s) (se_stats s) (se_last_sender_report_ntp_middle s) (se_last_sender_report_arrival s)
    (se_last_forward_clock s) counters.
Definition set_floor_channel (s : Seat) (floor_channel : option Z) : Seat :=
  mkSeat (se_tag s) (se_endpoint s) (se_egress_destination s) (se_accepted_source s) (se_latch s)
    (se_audio_payload_type s) (se_telephone_event s) (se_secure s) (se_secure_pending s) (se_ice_pending s)
    (se_reverse_latch s) (se_refusals s) (se_translator s) (se_clock_rate_hz s) (se_floor s) (se_app_events s)
    floor_channel (se_stats s) (se_last_sender_report_ntp_middle s) (se_last_sender_report_arrival s)
    (se_last_forward_clock s) (se_counters s).
Definition set_stats (s : Seat) (stats : IngressStats) : Seat :=
  mkSeat (se_tag s) (se_endpoint s) (se_egress_destination s) (se_accepted_source s) (se_latch s)
    (se_audio_payload_type s) (se_telephone_event s) (se_secure s) (se_secure_pending s) (se_ice_pending s)
    (se_reverse_latch s) (se_refusals s) (se_translator s) (se_clock_rate_hz s) (se_floor s) (se_app_events s)
    (se_floor_channel s) stats (se_last_sender_report_ntp_middle s) (se_last_sender_report_arrival s)
    (se_last_forward_clock s) (se_counters s).
Definition set_heard_report (s : Seat) (last_sender_report_ntp_middle : Z) (last_sender_report_arrival : option Z) : Seat :=
  mkSeat (se_tag s) (se_endpoint s) (se_egress_destination s) (se_accepted_source s) (se_latch s)
    (se_audio_payload_type s) (se_telephone_event s) (se_secure s) (se_secure_pending s) (se_ice_pending s)
    (se_reverse_latch s) (se_refusals s) (se_translator s) (se_clock_rate_hz s) (se_floor s) (se_app_events s)
    (se_floor_channel s) (se_stats s) last_sender_report_ntp_middle last_sender_report_arrival
    (se_last_forward_clock s) (se_counters s).
Definition set_counters (s : Seat) (counters : ForwardSeatStats) : Seat :=
  mkSeat (se_tag s) (se_endpoint s) (se_egress_destination s) (se_accepted_source s) (se_latch s)
    (se_audio_payload_type s) (se_telephone_event s) (se_secure s) (se_secure_pending s) (se_ice_pending s)
    (se_reverse_latch s) (se_refusals s) (se_translator s) (se_clock_rate_hz s) (se_floor s) (se_app_events s)
    (se_floor_channel s) (se_stats s) (se_last_sender_report_ntp_middle s) (se_last_sender_report_arrival s)
    (se_last_forward_clock s) counters.

(** [usable] and [reachable]: a resolved destination, the key and the ICE pair settled. *)
Definition usable (destination : SocketAddr) : bool := negb (is_unspecified (sa_ip destination)) && negb (sa_port destination =? 0).
Definition reachable (s : Seat) : bool := negb (se_secure_pending s) && negb (se_ice_pending s) && usable (se_egress_destination s).

(** ** The room *)

Inductive Port : Type := PortAudio | PortFloor.

Inductive PlanKind : Type := PlanAudio | PlanEvent (rate : Z).
Inductive Verbatim : Type := VerbatimNo | VerbatimRtp | VerbatimRtcp.

#[export] Instance Verbatim_eq_dec : EqDecision Verbatim.
Proof. solve_decision. Defined.

Record Plan : Type := mkPlan {
  pl_verbatim : Verbatim;
  pl_source : nat;
  pl_kind : PlanKind;
  pl_in_clear_buffer : bool;
  pl_cursor : nat;
  pl_arrival : Z
}.

Definition advance_cursor (p : Plan) : Plan :=
  mkPlan (pl_verbatim p) (pl_source p) (pl_kind p) (pl_in_clear_buffer p) (S (pl_cursor p)) (pl_arrival p).

(** [Event::ForwardSourceStarted]. *)
Record SourceStarted : Type := mkSourceStarted { ss_conference_id : bytes; ss_from_tag : bytes }.

Record ForwardRoom : Type := mkForwardRoom {
  fr_room_id : bytes;
  fr_codec : RoomCodec;
  fr_seats : list Seat;
  fr_by_endpoint : gmap Z (nat * Port);
  fr_source : option nat;
  fr_announce_pending : bool;
  fr_plan : option Plan;
  fr_events : list SourceStarted;
  fr_clear_in : bytes;
  fr_scratch : bytes;
  fr_pending_channel : list (bytes * Z);
  fr_secure_out : bytes
}.

Definition set_seats (r : ForwardRoom) (seats : list Seat) : ForwardRoom :=
  mkForwardRoom (fr_room_id r) (fr_codec r) seats (fr_by_endpoint r) (fr_source r) (fr_announce_pending r) (fr_plan r)
    (fr_events r) (fr_clear_in r) (fr_scratch r) (fr_pending_channel r) (fr_secure_out r).
Definition set_routes (r : ForwardRoom) (by_endpoint : gmap Z (nat * Port)) : ForwardRoom :=
  mkForwardRoom (fr_room_id r) (fr_codec r) (fr_seats r) by_endpoint (fr_source r) (fr_announce_pending r) (fr_plan r)
    (fr_events r) (fr_clear_in r) (fr_scratch r) (fr_pending_channel r) (fr_secure_out r).
Definition set_choice (r : ForwardRoom) (source : option nat) (announce_pending : bool) : ForwardRoom :=
  mkForwardRoom (fr_room_id r) (fr_codec r) (fr_seats r) (fr_by_endpoint r) source announce_pending (fr_plan r)
    (fr_events r) (fr_clear_in r) (fr_scratch r) (fr_pending_channel r) (fr_secure_out r).
Definition set_plan (r : ForwardRoom) (plan : option Plan) : ForwardRoom :=
  mkForwardRoom (fr_room_id r) (fr_codec r) (fr_seats r) (fr_by_endpoint r) (fr_source r) (fr_announce_pending r) plan
    (fr_events r) (fr_clear_in r) (fr_scratch r) (fr_pending_channel r) (fr_secure_out r).
Definition set_events (r : ForwardRoom) (announce_pending : bool) (events : list SourceStarted) : ForwardRoom :=
  mkForwardRoom (fr_room_id r) (fr_codec r) (fr_seats r) (fr_by_endpoint r) (fr_source r) announce_pending (fr_plan r)
    events (fr_clear_in r) (fr_scratch r) (fr_pending_channel r) (fr_secure_out r).
Definition set_clear_in (r : ForwardRoom) (clear_in : bytes) : ForwardRoom :=
  mkForwardRoom (fr_room_id r) (fr_codec r) (fr_seats r) (fr_by_endpoint r) (fr_source r) (fr_announce_pending r)
    (fr_plan r) (fr_events r) clear_in (fr_scratch r) (fr_pending_channel r) (fr_secure_out r).
Definition set_scratch (r : ForwardRoom) (scratch : bytes) : ForwardRoom :=
  mkForwardRoom (fr_room_id r) (fr_codec r) (fr_seats r) (fr_by_endpoint r) (fr_source r) (fr_announce_pending r)
    (fr_plan r) (fr_events r) (fr_clear_in r) scratch (fr_pending_channel r) (fr_secure_out r).
Definition set_pending (r : ForwardRoom) (pending_channel : list (bytes * Z)) : ForwardRoom :=
  mkForwardRoom (fr_room_id r) (fr_codec r) (fr_seats r) (fr_by_endpoint r) (fr_source r) (fr_announce_pending r)
    (fr_plan r) (fr_events r) (fr_clear_in r) (fr_scratch r) pending_channel (fr_secure_out r).
Definition set_secure_out (r : ForwardRoom) (secure_out : bytes) : ForwardRoom :=
  mkForwardRoom (fr_room_id r) (fr_codec r) (fr_seats r) (fr_by_endpoint r) (fr_source r) (fr_announce_pending r)
    (fr_plan r) (fr_events r) (fr_clear_in r) (fr_scratch r) (fr_pending_channel r) secure_out.

(** [micros] on an RTP clock of [rate_hz]: the product is exact in 128 bits. *)
Definition ticks (micros rate_hz : Z) : Z := wrap 32 (micros * rate_hz / 1000000).

Definition ForwardRoom_new (room_id : bytes) (codec : RoomCodec) : ForwardRoom :=
  mkForwardRoom room_id codec [] ∅ None false None [] [] (replicate (Z.to_nat ROOM_MAX_DATAGRAM) 0) [] [].

Definition index_of_tag (r : ForwardRoom) (tag : bytes) : option nat := fst <$> list_find (fun s => se_tag s = tag) (fr_seats r).

(** [self.seats[index]]. *)
Definition seat_at (r : ForwardRoom) (index : nat) : res unit Seat :=
  match fr_seats r !! index with Some s => Ok s | None => Panic end.

Definition put_seat (r : ForwardRoom) (index : nat) (s : Seat) : ForwardRoom := set_seats r (<[index := s]> (fr_seats r)).

(** The tag of the chosen seat, and of the seat an endpoint belongs to. *)
Definition room_source (r : ForwardRoom) : res unit (option bytes) :=
  match fr_source r with Some index => s ← seat_at r index; mret (Some (se_tag s)) | None => mret None end.
Definition tag_at (r : ForwardRoom) (endpoint : Z) : res unit (option bytes) :=
  match fr_by_endpoint r !! endpoint with Some (index, _) => s ← seat_at r index; mret (Some (se_tag s)) | None => mret None end.

Section operations.
Context `{K : SrtpCrypto} `{G : GcmCrypto}.

Definition check_vacancy (r : ForwardRoom) (tag : bytes) : res ForwardError unit :=
  if MAX_SEATS <=? len (fr_seats r) then Err RoomFull else
  match index_of_tag r tag with Some _ => Err (DuplicateTag tag) | None => Ok tt end.

Definition Seat_new (config : ForwardSeatConfig) (clock_rate_hz now_micros : Z) : Seat :=
  mkSeat (sf_tag config) (sf_endpoint config) (sf_egress_destination config) (sf_accepted_source config) (sf_latch config)
    (sf_audio_payload_type config) (sf_telephone_event config) (sf_secure config) (sf_secure_pending config) (sf_ice_pending config)
    None 0 (Translator_new (sf_egress_ssrc config) (sf_initial_sequence config) (sf_initial_timestamp config)) clock_rate_hz
    (FloorStream_new <$> sf_floor config) (sf_app_events config) None (IngressStats_new clock_rate_hz) 0 None
    (ticks now_micros clock_rate_hz) no_stats.

(** The endpoints of the seat at [position], audio first. *)
Definition route_seat (routes : gmap Z (nat * Port)) (position : nat) (s : Seat) : gmap Z (nat * Port) :=
  let routes := <[se_endpoint s := (position, PortAudio)]> routes in
  match se_floor s with Some floor => <[fm_endpoint floor := (position, PortFloor)]> routes | None => routes end.

Definition insert_seat (r : ForwardRoom) (config : ForwardSeatConfig) (clock_rate_hz now_micros : Z) : ForwardRoom :=
  let s := Seat_new config clock_rate_hz now_micros in
  set_seats (set_routes r (route_seat (fr_by_endpoint r) (length (fr_seats r)) s)) (fr_seats r ++ [s]).

Definition add_seat (r : ForwardRoom) (config : ForwardSeatConfig) (now_micros : Z) : res ForwardError ForwardRoom :=
  _ ← check_vacancy r (sf_tag config);
  mret (insert_seat r config (clock_rate_hz (fr_codec r)) now_micros).

Definition switch_every_translator (r : ForwardRoom) : ForwardRoom :=
  set_seats r ((fun s => set_forwarded s (switch_source (se_translator s)) (se_last_forward_clock s)) <$> fr_seats r).

Fixpoint route_seats (routes : gmap Z (nat * Port)) (position : nat) (seats : list Seat) : gmap Z (nat * Port) :=
  match seats with [] => routes | s :: seats => route_seats (route_seat routes position s) (S position) seats end.

Definition remove_seat (r : ForwardRoom) (tag : bytes) : bool * ForwardRoom :=
  match index_of_tag r tag with
  | None => (false, r)
  | Some index =>
      let seats := delete index (fr_seats r) in
      let r := set_plan (set_routes (set_seats r seats) (route_seats ∅ 0 seats)) None in
      (true,
        match fr_source r with
        | Some source =>
            if bool_decide (source = index) then switch_every_translator (set_choice r None false)
            else if bool_decide (index < source)%nat then set_choice r (Some (source - 1)%nat) (fr_announce_pending r) else r
        | None => r
        end)
  end.

Definition set_source (r : ForwardRoom) (tag : option bytes) : res ForwardError ForwardRoom :=
  chosen ← match tag with Some tag => index ← ok_or (index_of_tag r tag) (UnknownTag tag); mret (Some index) | None => mret None end;
  if bool_decide (chosen = fr_source r) then mret r
  else mret (switch_every_translator (set_plan (set_choice r chosen (bool_decide (is_Some chosen))) None)).

(** An operation on the seat [tag], if it is still there. *)
Definition on_seat (r : ForwardRoom) (tag : bytes) (f : Seat -> Seat) : bool * ForwardRoom :=
  match index_of_tag r tag with
  | Some index => (true, set_seats r (alter f index (fr_seats r)))
  | None => (false, r)
  end.

Definition attach_floor_channel (r : ForwardRoom) (tag : bytes) (channel : Z) : bool * ForwardRoom :=
  on_seat r tag (fun s => set_floor_channel s (Some channel)).
Definition attach_secure_leg (r : ForwardRoom) (tag : bytes) (leg : SecureLeg) : ForwardRoom :=
  (on_seat r tag (fun s => set_secure s (Some leg) false)).2.
Definition ice_selected (r : ForwardRoom) (tag : bytes) (remote : SocketAddr) : ForwardRoom :=
  (on_seat r tag (fun s => set_selected s remote (Exact (sa_ip remote)) false None 0 (flip floor_ice_selected remote <$> se_floor s))).2.

Definition seat_stats (r : ForwardRoom) (tag : bytes) : option ForwardSeatStats :=
  index ← index_of_tag r tag; s ← fr_seats r !! index;
  Some (count_forwarded (se_counters s) (wrapping_add 32 (tr_packets_sent (se_translator s)) (st_forwarded_packets (se_counters s)))
    (wrapping_add 32 (tr_octets_sent (se_translator s)) (st_forwarded_octets (se_counters s)))).

Definition drain_events (r : ForwardRoom) : list SourceStarted * ForwardRoom := (fr_events r, set_events r (fr_announce_pending r) []).

(** ** One datagram in *)

Definition gate_of (s : Seat) : SeatGate :=
  mkSeatGate (se_accepted_source s) (se_secure_pending s) (se_ice_pending s) (se_secure s) (se_latch s) (se_reverse_latch s)
    (se_refusals s) (se_egress_destination s).
Definition ungate (s : Seat) (g : SeatGate) : Seat := regated s (sg_egress_destination g) (sg_secure g) (sg_reverse_latch g) (sg_refusals g).

(** [surface_apps]: the APP packets of a datagram, as events and counts. *)
Definition surface_apps (room_id : bytes) (s : Seat) (stream : RtcpAppStream) (data : bytes) (qs : queues) : Seat * queues :=
  let '(qs, raised, malformed) := surface_app_to_queue (ScopeRoom room_id) (se_tag s) (se_app_events s) stream data qs in
  (set_counters s (count_apps (se_counters s) (st_app_events (se_counters s) + raised) (st_malformed_app (se_counters s) + malformed)), qs).

Definition ingest_floor (r : ForwardRoom) (qs : queues) (index : nat) (packet : RxPacket) : res unit (Ingress * ForwardRoom * queues) :=
  s ← seat_at r index;
  match se_floor s with
  | None => mret (Refused, r, qs)
  | Some floor =>
      if negb (accepts (fm_accepted_source floor) (sa_ip (rx_source packet))) then
        let floor := set_floor_gate floor (fm_destination floor) (fm_latch floor) (refusal_log (fm_refusals floor) UnsignalledSource) (fm_protection floor) in
        mret (Refused, put_seat r index (set_floor s (Some floor) (se_counters s)), qs)
      else if se_secure_pending s || se_ice_pending s then mret (Refused, r, qs) else
      let '(admitted, protection, l, warned) := floor_admit (fm_protection floor) (fm_latch floor) (fm_refusals floor) packet in
      match admitted with
      | Ok (data, learned) =>
          let floor := set_floor_gate floor (default (fm_destination floor) learned) l warned protection in
          let '(s, qs) := surface_apps (fr_room_id r) (set_floor s (Some floor) (se_counters s)) StreamFloor data qs in
          mret (Accepted, put_seat r index s, qs)
      | Err drop =>
          let floor := set_floor_gate floor (fm_destination floor) l warned protection in
          let counters := match drop with
            | DropLatch => se_counters s
            | DropUnauthenticated => count_refused (se_counters s) (st_floor_refused (se_counters s) + 1)
            end in
          mret (Refused, put_seat r index (set_floor s (Some floor) counters), qs)
      | Panic => Panic
      end
  end.

Definition hear_item (egress_ssrc arrival : Z) (s : Seat) (item : RtcpItem) : Seat :=
  match item with
  | SenderReportNtp ntp => set_heard_report s (ntp_middle ntp) (Some arrival)
  | Block block => set_stats s (record_reception_report (se_stats s) egress_ssrc block arrival).2
  end.

Definition note_rtp (s : Seat) (p : RtpPacket) (arrival : Z) : Seat :=
  set_stats s (observe_arrival (on_rtp (se_stats s) (rp_ssrc p) (rp_sequence p) (rp_timestamp p)) arrival).

Definition is_source (r : ForwardRoom) (index : nat) : bool := bool_decide (fr_source r = Some index).

(** A datagram gated in, in a room that hands on the sender's bytes. *)
Definition ingest_preserved (r : ForwardRoom) (index : nat) (packet : RxPacket) (arrival : Z) : res unit (Ingress * ForwardRoom) :=
  s ← seat_at r index;
  let data := rx_data packet in
  let plan verbatim := mkPlan verbatim index PlanAudio false 0 arrival in
  rtcp ← gate_is_rtcp data;
  if rtcp : bool then
    if negb (is_source r index) then
      mret (DroppedFromPeer, put_seat r index (set_counters s (count_rtcp (se_counters s) (st_receiver_rtcp_dropped (se_counters s) + 1))))
    else mret (Accepted, set_plan r (Some (plan VerbatimRtcp)))
  else
    match RtpPacket_parse data with
    | Panic => Panic
    | Err _ => mret (Accepted, r)
    | Ok parsed =>
        let s := note_rtp s parsed arrival in
        if negb (is_source r index) then
          mret (DroppedFromPeer, put_seat r index (set_counters s (count_not_source (se_counters s) (st_not_source_dropped (se_counters s) + 1))))
        else if negb (rp_payload_type parsed =? se_audio_payload_type s)
             && negb (match se_telephone_event s with Some event => ev_payload_type event =? rp_payload_type parsed | None => false end) then
          mret (DroppedFromPeer, put_seat r index (set_counters s (count_unknown (se_counters s) (st_unknown_payload_type (se_counters s) + 1))))
        else mret (Accepted, set_plan (put_seat r index s) (Some (plan VerbatimRtp)))
    end.

(** A datagram gated in, in a translating room: RTCP is read and ends here, RTP of the
    chosen seat arms the fan-out. *)
Definition ingest_translated (r : ForwardRoom) (qs : queues) (index : nat) (data : bytes) (arrival : Z)
  : res unit (Ingress * ForwardRoom * queues) :=
  s ← seat_at r index;
  rtcp ← gate_is_rtcp data;
  if rtcp : bool then
    let egress_ssrc := tr_egress_ssrc (se_translator s) in
    let '(s, qs) := surface_apps (fr_room_id r) s StreamAudio data qs in
    items ← consume_rtcp data;
    mret (Accepted, put_seat r index (fold_left (hear_item egress_ssrc arrival) items s), qs)
  else
    match RtpPacket_parse data with
    | Panic => Panic
    | Err _ => mret (Accepted, r, qs)
    | Ok parsed =>
        let s := note_rtp s parsed arrival in
        if negb (is_source r index) then
          mret (DroppedFromPeer, put_seat r index (set_counters s (count_not_source (se_counters s) (st_not_source_dropped (se_counters s) + 1))), qs)
        else
          let kind :=
            if rp_payload_type parsed =? se_audio_payload_type s then Some PlanAudio
            else match se_telephone_event s with
                 | Some event => if ev_payload_type event =? rp_payload_type parsed then Some (PlanEvent (ev_clock_rate_hz event)) else None
                 | None => None
                 end in
          match kind with
          | None => mret (DroppedFromPeer, put_seat r index (set_counters s (count_unknown (se_counters s) (st_unknown_payload_type (se_counters s) + 1))), qs)
          | Some kind =>
              mret (Accepted, set_plan (put_seat r index s) (Some (mkPlan VerbatimNo index kind (bool_decide (is_Some (se_secure s))) 0 arrival)), qs)
          end
    end.

Definition room_ingest (r : ForwardRoom) (qs : queues) (packet : RxPacket) (arrival : Z) : res unit (Ingress * ForwardRoom * queues) :=
  let r := set_plan r None in
  match fr_by_endpoint r !! rx_endpoint packet with
  | None => mret (Refused, r, qs)
  | Some (index, PortFloor) => ingest_floor r qs index packet
  | Some (index, PortAudio) =>
      s ← seat_at r index;
      let '(admitted, gate, clear) := gate_admit (gate_of s) packet (fr_clear_in r) in
      let r := set_clear_in (put_seat r index (ungate s gate)) clear in
      match admitted with
      | Panic => Panic
      | Err refused => mret (refused, r, qs)
      | Ok data =>
          if len data <? 2 then mret (Accepted, r, qs) else
          if bool_decide (rc_media (fr_codec r) = Preserve) then
            '(outcome, r) ← ingest_preserved r index packet arrival; mret (outcome, r, qs)
          else ingest_translated r qs index data arrival
      end
  end.

(** ** The fan-out *)

Definition datagram : Type := Z * SocketAddr * bytes.

(** The first forwarded packet of a new source announces it. *)
Definition announce (r : ForwardRoom) (source : nat) : res unit ForwardRoom :=
  if fr_announce_pending r then
    s ← seat_at r source;
    mret (set_events r false (fr_events r ++ [mkSourceStarted (fr_room_id r) (se_tag s)]))
  else mret r.

(** [select_feed], without a transcoder: the payload type the receiver reads the
    source's own packet under. *)
Definition select_feed (p : Plan) (receiver : Seat) : option Z :=
  match pl_kind p with
  | PlanAudio => Some (se_audio_payload_type receiver)
  | PlanEvent rate =>
      event ← se_telephone_event receiver;
      if ev_clock_rate_hz event =? rate then Some (ev_payload_type event) else None
  end.

Definition seal_for (r : ForwardRoom) (index : nat) (receiver : Seat) (packet : bytes) : res unit (option bytes * ForwardRoom) :=
  match se_secure receiver with
  | Some secure =>
      let '(sealed, secure, out) := leg_protect secure packet [] in
      let r := set_secure_out (put_seat r index (set_secure receiver (Some secure) (se_secure_pending receiver))) out in
      match sealed with Panic => Panic | Err _ => mret (None, r) | Ok _ => mret (Some out, r) end
  | None => mret (Some packet, r)
  end.

(** What the seat at [index] is sent, if anything. *)
Definition forward_to (r : ForwardRoom) (p : Plan) (index : nat) (packet : RxPacket) : res unit (option datagram * ForwardRoom) :=
  receiver ← seat_at r index;
  if negb (reachable receiver) then mret (None, r) else
  let original := if pl_in_clear_buffer p then fr_clear_in r else rx_data packet in
  match select_feed p receiver with
  | None => mret (None, r)
  | Some payload_type =>
      let clock := ticks (pl_arrival p) (se_clock_rate_hz receiver) in
      let '(outcome, translator, scratch) := translate (se_translator receiver) original payload_type clock (fr_scratch r) in
      let r := set_scratch r scratch in
      match outcome with
      | Panic => Panic
      | Ok (ForwardedPacket length _) =>
          let receiver := set_forwarded receiver translator clock in
          r ← announce (put_seat r index receiver) (pl_source p);
          translated ← slice (fr_scratch r) 0 length;
          '(wire, r) ← seal_for r index receiver translated;
          mret ((fun wire => (se_endpoint receiver, se_egress_destination receiver, wire)) <$> wire, r)
      | _ => mret (None, put_seat r index (set_forwarded receiver translator (se_last_forward_clock receiver)))
      end
  end.

Definition forward_verbatim (r : ForwardRoom) (p : Plan) (index : nat) (packet : RxPacket) : res unit (option datagram * ForwardRoom) :=
  receiver ← seat_at r index;
  if negb (reachable receiver) then mret (None, r) else
  r ← (if bool_decide (pl_verbatim p = VerbatimRtp) then
         let c := se_counters receiver in
         let c := count_forwarded c (wrapping_add 32 (st_forwarded_packets c) 1) (wrapping_add 32 (st_forwarded_octets c) (wrap 32 (len (rx_data packet)))) in
         announce (put_seat r index (set_counters receiver c)) (pl_source p)
       else mret r);
  mret (Some (se_endpoint receiver, se_egress_destination receiver, rx_data packet), r).

(** The loop over the receivers: one turn per seat, and one to find there is none left. *)
Fixpoint next_loop (fuel : nat) (r : ForwardRoom) (p : Plan) (packet : RxPacket) : res unit (option datagram * ForwardRoom) :=
  match fuel with
  | O => Panic
  | S fuel =>
      let index := pl_cursor p in
      if bool_decide (length (fr_seats r) <= index)%nat then mret (None, set_plan r None) else
      let p := advance_cursor p in
      let r := set_plan r (Some p) in
      if bool_decide (index = pl_source p) then next_loop fuel r p packet else
      '(sent, r) ← (if bool_decide (pl_verbatim p = VerbatimNo) then forward_to r p index packet else forward_verbatim r p index packet);
      match sent with Some d => mret (Some d, r) | None => next_loop fuel r p packet end
  end.

Definition next_datagram (r : ForwardRoom) (packet : RxPacket) : res unit (option datagram * ForwardRoom) :=
  match fr_plan r with
  | Some p => next_loop (S (length (fr_seats r) - pl_cursor p)) r p packet
  | None => mret (None, r)
  end.

(** ** Reports *)

Definition delay_since (arrival : option Z) (now_micros : Z) : Z :=
  match arrival with
  | Some arrival => Z.min (saturating_sub now_micros arrival * 65536 / 1000000) (2 ^ 32 - 1)
  | None => 0
  end.

(** The report to one seat; the buffer is shared by the loop over the seats. *)
Definition build_report (r : ForwardRoom) (index : nat) (buffer : bytes) (ntp_timestamp now_micros : Z)
  : res unit (option datagram * ForwardRoom * bytes) :=
  s ← seat_at r index;
  if negb (reachable s) then mret (None, r, buffer) else
  let '(reports, stats) :=
    match ig_ssrc (se_stats s) with
    | Some ssrc =>
        let '(fraction_lost, stats) := fraction_lost_since_last_report (se_stats s) in
        ([mkReceptionReport ssrc fraction_lost (cumulative_lost stats) (extended_highest_sequence stats) (jitter_rtp_units stats)
            (se_last_sender_report_ntp_middle s) (delay_since (se_last_sender_report_arrival s) now_micros)], stats)
    | None => ([], se_stats s)
    end in
  let s := set_stats s stats in
  let now_clock := ticks now_micros (se_clock_rate_hz s) in
  let rtp_timestamp := wrapping_add 32 (tr_last_timestamp (se_translator s)) (wrapping_sub 32 now_clock (se_last_forward_clock s)) in
  let r := put_seat r index s in
  match write_sender_report (tr_egress_ssrc (se_translator s)) ntp_timestamp rtp_timestamp (tr_packets_sent (se_translator s))
          (tr_octets_sent (se_translator s)) reports buffer with
  | Ok (Some (length, buffer)) =>
      report ← slice buffer 0 length;
      '(wire, r) ← seal_for r index s report;
      match wire with
      | Some wire =>
          s ← seat_at r index;
          mret (Some (se_endpoint s, se_egress_destination s, wire),
                put_seat r index (set_stats s (record_sent_report (se_stats s) ntp_timestamp now_micros)), buffer)
      | None => mret (None, r, buffer)
      end
  | Ok None => mret (None, r, buffer)
  | _ => Panic
  end.

Fixpoint build_reports_from (index : nat) (count : nat) (r : ForwardRoom) (buffer : bytes) (ntp_timestamp now_micros : Z)
  : res unit (list datagram * ForwardRoom) :=
  match count with
  | O => mret ([], r)
  | S count =>
      '(d, r, buffer) ← build_report r index buffer ntp_timestamp now_micros;
      '(ds, r) ← build_reports_from (S index) count r buffer ntp_timestamp now_micros;
      mret (option_list d ++ ds, r)
  end.

Definition build_reports (r : ForwardRoom) (ntp_timestamp now_micros : Z) : res unit (list datagram * ForwardRoom) :=
  if bool_decide (rc_media (fr_codec r) = Preserve) then mret ([], r) else
  build_reports_from 0 (length (fr_seats r)) r (replicate (Z.to_nat (SENDER_REPORT_LEN + RECEPTION_REPORT_LEN)) 0) ntp_timestamp now_micros.

Definition round_trip_micros (r : ForwardRoom) (tag : bytes) : option Z :=
  index ← index_of_tag r tag; s ← fr_seats r !! index; ig_last_rtt_micros (se_stats s).

(** ** RTCP APP out *)

Inductive AppTarget : Type := TargetSeat (tag : bytes) | TargetRoom (except : list bytes).

Record RoomAppRequest : Type := mkRoomAppRequest { ra_stream : RtcpAppStream; ra_request : AppRequest }.

Inductive AppSendError : Type :=
| AppPacketError (e : AppWriteError)
| AppUnknownSeat (tag : bytes)
| NotSent (failures : bytes).

#[local] Instance RtcpAppStream_eq_dec : EqDecision RtcpAppStream.
Proof. solve_decision. Defined.

Definition push_failure (failures tag reason : bytes) : bytes :=
  (if bool_decide (failures = []) then [] else failures ++ str ", ") ++ tag ++ str " (" ++ reason ++ str ")".

Definition channel_of (cs : channels) (handle : option Z) : option (Z * FloorChannel) :=
  h ← handle; c ← cs !! h; Some (h, c).

Definition unreachable_reason (s : Seat) (cs : channels) (stream : RtcpAppStream) : option bytes :=
  match stream with
  | StreamFloor =>
      match se_floor s, channel_of cs (se_floor_channel s) with
      | Some floor, _ =>
          if se_secure_pending s || se_ice_pending s then Some (str "floor stream not open yet")
          else if negb (usable (fm_destination floor)) then Some (str "no floor destination yet") else None
      | None, Some (_, channel) => if negb (ch_open channel) then Some (str "floor data channel not open yet") else None
      | None, None => Some (str "no floor stream")
      end
  | StreamAudio => if reachable s then None else Some (str "audio path not open yet")
  end.

Definition addressed (s : Seat) (index : nat) (single : option nat) (target : AppTarget) (stream : RtcpAppStream) : bool :=
  match single, target with
  | Some only, _ => bool_decide (only = index)
  | None, TargetRoom except =>
      negb (bool_decide (se_tag s ∈ except)) &&
      (bool_decide (stream = StreamAudio) || bool_decide (is_Some (se_floor s)) || bool_decide (is_Some (se_floor_channel s)))
  | None, TargetSeat _ => false
  end.

(** One addressed seat: the datagram, if any, or the reason there is none. *)
Definition send_app_to (r : ForwardRoom) (cs : channels) (index : nat) (s : Seat) (request : RoomAppRequest)
  : res AppSendError (option datagram * option bytes * ForwardRoom * channels) :=
  let rq := ra_request request in
  let ssrc := default (tr_egress_ssrc (se_translator s)) (rq_ssrc rq) in
  '(length, scratch) ← map_err AppPacketError (write_app (rq_subtype rq) ssrc (rq_name rq) (rq_payload rq) (fr_scratch r));
  let r := set_scratch r scratch in
  packet ← slice scratch 0 length;
  match ra_stream request with
  | StreamFloor =>
      match se_floor s, channel_of cs (se_floor_channel s) with
      | Some floor, _ =>
          match fm_protection floor with
          | Some protection =>
              let '(sealed, protection, out) := floor_seal protection packet (fr_secure_out r) in
              let floor := set_floor_gate floor (fm_destination floor) (fm_latch floor) (fm_refusals floor) (Some protection) in
              let r := set_secure_out (put_seat r index (set_floor s (Some floor) (se_counters s))) out in
              match sealed with
              | Ok _ => mret (Some (fm_endpoint floor, fm_destination floor, out), None, r, cs)
              | Err _ => mret (None, Some (str "SRTCP protect failed"), r, cs)
              | Panic => Panic
              end
          | None => mret (Some (fm_endpoint floor, fm_destination floor, packet), None, r, cs)
          end
      | None, Some (handle, channel) =>
          match submit channel packet with
          | Ok channel => mret (None, None, set_pending r (fr_pending_channel r ++ [(se_tag s, handle)]), <[handle := channel]> cs)
          | Err error => mret (None, Some (channel_error_text error), r, cs)
          | Panic => Panic
          end
      | None, None => mret (None, None, r, cs)
      end
  | StreamAudio =>
      match seal_for r index s packet with
      | Ok (Some wire, r) => mret (Some (se_endpoint s, se_egress_destination s, wire), None, r, cs)
      | Ok (None, r) => mret (None, Some (str "SRTCP protect failed"), r, cs)
      | _ => Panic
      end
  end.

Fixpoint send_app_from (index count : nat) (r : ForwardRoom) (cs : channels) (single : option nat) (target : AppTarget)
  (request : RoomAppRequest) (failures : bytes) : res AppSendError (list datagram * bytes * ForwardRoom * channels) :=
  match count with
  | O => mret ([], failures, r, cs)
  | S count =>
      match fr_seats r !! index with
      | None => Panic
      | Some s =>
          if negb (addressed s index single target (ra_stream request)) then send_app_from (S index) count r cs single target request failures else
          match unreachable_reason s cs (ra_stream request) with
          | Some reason => send_app_from (S index) count r cs single target request (push_failure failures (se_tag s) reason)
          | None =>
              '(d, reason, r, cs) ← send_app_to r cs index s request;
              let failures := match reason with Some reason => push_failure failures (se_tag s) reason | None => failures end in
              '(ds, failures, r, cs) ← send_app_from (S index) count r cs single target request failures;
              mret (option_list d ++ ds, failures, r, cs)
          end
      end
  end.

(** What was handed to [emit], the failures, and the room after; a bad request sends to
    nobody. *)
Definition room_send_app (r : ForwardRoom) (cs : channels) (target : AppTarget) (request : RoomAppRequest)
  : res AppSendError (list datagram * bytes * ForwardRoom * channels) :=
  let rq := ra_request request in
  '(_, scratch) ← map_err AppPacketError (write_app (rq_subtype rq) 0 (rq_name rq) (rq_payload rq) (fr_scratch r));
  let r := set_scratch r scratch in
  single ← match target with
           | TargetSeat tag => index ← ok_or (index_of_tag r tag) (AppUnknownSeat tag); mret (Some index)
           | TargetRoom _ => mret None
           end;
  send_app_from 0 (length (fr_seats r)) r cs single target request [].

Inductive FloorKeysError : Type := FloorUnknownSeat (tag : bytes) | NoFloorStream (tag : bytes) | FloorKeysRefused (e : SrtpError).

Definition set_floor_keys (r : ForwardRoom) (tag : bytes) (keys : list FloorMasterKey) : res FloorKeysError unit * ForwardRoom :=
  match index_of_tag r tag with
  | None => (Err (FloorUnknownSeat tag), r)
  | Some index =>
      match fr_seats r !! index with
      | None => (Panic, r)
      | Some s =>
          match se_floor s with
          | None => (Err (NoFloorStream tag), r)
          | Some floor =>
              let put protection := put_seat r index (set_floor s (Some
                (set_floor_gate floor (fm_destination floor) (fm_latch floor) (fm_refusals floor) protection)) (se_counters s)) in
              if bool_decide (keys = []) then (Ok tt, put None) else
              match fm_protection floor with
              | Some protection =>
                  let '(outcome, protection) := floor_replace_keys protection keys in
                  (map_err FloorKeysRefused outcome, put (Some protection))
              | None =>
                  match FloorProtection_new keys with
                  | Some protection => (Ok tt, put (Some protection))
                  | None => (Err (FloorKeysRefused NoKeys), r)
                  end
              end
          end
      end
  end.

Definition floor_key_state (r : ForwardRoom) (tag : bytes) : option (list FloorMasterKey * Z) :=
  index ← index_of_tag r tag; s ← fr_seats r !! index; floor ← se_floor s; p ← fm_protection floor;
  Some (fp_keys p, SrtcpGcm.send_index (fp_context p)).

Definition take_pending_channel_sends (r : ForwardRoom) : list (bytes * Z) * ForwardRoom := (fr_pending_channel r, set_pending r []).

(** ** The room's actor (forward/registry.rs) *)

(** A message in the mailbox, or the report interval elapsed.  What others answer
    comes with the message: for each datagram the datapath's error, for each message
    of a data channel why its driver did not confirm it, if it did not. *)
Inductive RoomInput : Type :=
| RoomPacket (packet : RxPacket) (arrival : Z)
| RoomAdd (config : ForwardSeatConfig) (now_micros : Z)
| RoomRemove (tag : bytes)
| RoomSetSource (tag : option bytes) (events : option Z)
| RoomSendApp (target : AppTarget) (request : RoomAppRequest) (refusals : list (option bytes)) (verdicts : list (option bytes))
| RoomSetFloorKeys (tag : bytes) (keys : list FloorMasterKey)
| RoomAttachSecureLeg (tag : bytes) (leg : SecureLeg)
| RoomAttachFloorChannel (tag : bytes) (channel : Z)
| RoomIceSelected (tag : bytes) (remote : SocketAddr)
| RoomStop
| RoomReportsDue (ntp_timestamp now_micros : Z).

Inductive RoomOutput : Type :=
| Recorded (outcome : Ingress) (endpoint : Z)
| RoomSent (d : datagram)
| SeatVerdict (verdict : res ForwardError unit)
| AppVerdict (verdict : res AppSendError unit)
| KeysVerdict (verdict : res FloorKeysError unit)
| SourceEvent (sink : Z) (event : SourceStarted).

Record RoomActor : Type := mkRoomActor { ac_room : ForwardRoom; ac_source_events : option Z; ac_ended : bool }.

Definition run_forward_room (r : ForwardRoom) : RoomActor := mkRoomActor r None false.

(** [while let Some(..) = room.next_datagram(&packet)]: each turn sends one datagram. *)
Fixpoint fan_out (fuel : nat) (r : ForwardRoom) (packet : RxPacket) : res unit (list datagram * ForwardRoom) :=
  match fuel with
  | O => Panic
  | S fuel =>
      '(d, r) ← next_datagram r packet;
      match d with
      | Some d => '(ds, r) ← fan_out fuel r packet; mret (d :: ds, r)
      | None => mret ([], r)
      end
  end.

(** The failures of the sends the datapath refused, then of the channels. *)
Definition send_failures (r : ForwardRoom) (failures : bytes) (ds : list datagram) (refusals : list (option bytes))
  (pending : list (bytes * Z)) (verdicts : list (option bytes)) : res unit bytes :=
  failures ← foldl (fun failures (dr : datagram * option bytes) =>
      failures ← failures;
      match dr.2 with
      | Some error => tag ← tag_at r dr.1.1.1; mret (push_failure failures (default (str "?") tag) (str "send failed: " ++ error))
      | None => mret failures
      end) (mret failures) (zip ds refusals);
  mret (foldl (fun failures (pv : (bytes * Z) * option bytes) =>
      match pv.2 with Some error => push_failure failures pv.1.1 error | None => failures end) failures (zip pending verdicts)).

Definition deliver_events (a : RoomActor) (r : ForwardRoom) : list RoomOutput * RoomActor :=
  let '(events, r) := drain_events r in
  (match ac_source_events a with Some sink => SourceEvent sink <$> events | None => [] end,
   mkRoomActor r (ac_source_events a) (ac_ended a)).

Definition room_control (a : RoomActor) (qs : queues) (cs : channels) (i : RoomInput)
  : res unit (list RoomOutput * RoomActor * queues * channels) :=
  let r := ac_room a in
  let on r := mkRoomActor r (ac_source_events a) (ac_ended a) in
  match i with
  | RoomPacket packet arrival =>
      '(outcome, r, qs) ← room_ingest r qs packet arrival;
      '(ds, r) ← fan_out (S (length (fr_seats r))) r packet;
      mret (Recorded outcome (rx_endpoint packet) :: (RoomSent <$> ds), on r, qs, cs)
  | RoomAdd config now =>
      match add_seat r config now with
      | Ok r => mret ([SeatVerdict (Ok tt)], on r, qs, cs)
      | Err e => mret ([SeatVerdict (Err e)], on r, qs, cs)
      | Panic => Panic
      end
  | RoomRemove tag =>
      let '(removed, r) := remove_seat r tag in
      mret ([], mkRoomActor r (ac_source_events a) (removed && bool_decide (fr_seats r = [])), qs, cs)
  | RoomSetSource tag events =>
      match set_source r tag with
      | Ok r => mret ([SeatVerdict (Ok tt)], mkRoomActor r (match events with Some sink => Some sink | None => ac_source_events a end) (ac_ended a), qs, cs)
      | Err e => mret ([SeatVerdict (Err e)], on r, qs, cs)
      | Panic => Panic
      end
  | RoomSendApp target request refusals verdicts =>
      match room_send_app r cs target request with
      | Ok (ds, failures, r, cs) =>
          let '(pending, r) := take_pending_channel_sends r in
          failures ← send_failures r failures ds refusals pending verdicts;
          mret ((RoomSent <$> ds) ++ [AppVerdict (if bool_decide (failures = []) then Ok tt else Err (NotSent failures))], on r, qs, cs)
      | Err e => mret ([AppVerdict (Err e)], on r, qs, cs)
      | Panic => Panic
      end
  | RoomSetFloorKeys tag keys => let '(outcome, r) := set_floor_keys r tag keys in mret ([KeysVerdict outcome], on r, qs, cs)
  | RoomAttachSecureLeg tag leg => mret ([], on (attach_secure_leg r tag leg), qs, cs)
  | RoomAttachFloorChannel tag channel => mret ([], on (attach_floor_channel r tag channel).2, qs, cs)
  | RoomIceSelected tag remote => mret ([], on (ice_selected r tag remote), qs, cs)
  | RoomStop => mret ([], mkRoomActor r (ac_source_events a) true, qs, cs)
  | RoomReportsDue ntp now =>
      '(ds, r) ← build_reports r ntp now;
      mret (RoomSent <$> ds : list RoomOutput, on r, qs, cs)
  end.

(** One turn of the actor's loop. *)
Definition room_turn (a : RoomActor) (qs : queues) (cs : channels) (i : RoomInput)
  : res unit (list RoomOutput * RoomActor * queues * channels) :=
  '(out, a, qs, cs) ← room_control a qs cs i;
  match i with
  | RoomReportsDue _ _ => mret (out, a, qs, cs)
  | _ => if ac_ended a then mret (out, a, qs, cs) else let '(events, a) := deliver_events a (ac_room a) in mret (out ++ events, a, qs, cs)
  end.
End operations.
