(* ===== verification/RoomSafety.v ===== *)
(** * Safety of a forwarding room

    What a room sends, to whom, and on whose account, over every history of its actor:
    the invariant of its state, the fan-out as a function of each receiver alone, and
    the theorem. *)

From Stdlib Require Import Lia ZArith String.
From stdpp Require Import base list numbers option gmap.
From S2P Require Import Prelude Rtp Rtcp Translator Relay Replay Srtp Srtcp Text Sdes SecureLeg Stun TurnAuth SrtcpGcm CallFloor Reception RoomCodec SeatGate ForwardRoom.

Open Scope Z_scope.

(** ** Translating into any buffer of the room's size *)

Definition translator_ok (t : Translator) : Prop :=
  fits 32 (tr_egress_ssrc t) /\ fits 16 (tr_initial_sequence t) /\ fits 32 (tr_initial_timestamp t).

Lemma translated_header_bytes pad p h : bytes_ok (header_bytes pad false (translated p h)).
Proof.
  pose proof (land_low_bound (rh_payload_type h) 7 ltac:(lia)) as Hpt. change (Z.ones 7) with 0x7F in Hpt.
  unfold header_bytes. rewrite !bytes_ok_app. split_and!; auto using be_enc_bytes.
  unfold translated. cbn [rp_csrc_count rp_marker rp_payload_type]. forall_list; unfold is_byte; destruct pad, (rh_marker h); cbn [b2z]; lia.
Qed.

Lemma write_translated_cases inbound p h : bytes_ok inbound -> RtpPacket_parse inbound = Ok p ->
  fits 16 (rh_sequence h) -> fits 32 (rh_timestamp h) -> fits 32 (rh_ssrc h) ->
  exists n wire, 12 <= n /\ len wire = n /\ bytes_ok wire /\ RtpPacket_parse wire = Ok (translated p h) /\
    forall out, if n <=? len out then exists out', write_translated inbound p h out = Ok (n, out') /\ sub out' 0 n = wire /\ len out' = len out
      else write_translated inbound p h out = Err (OutputTooSmall n (len out)).
Proof.
  intros Hb Hp H1 H2 H3. destruct (RtpPacket_parse_sound _ _ Hb Hp) as (Hok & pad & ext & e & d & He & Hd & Heq).
  pose proof (len_nonneg (rp_payload p)). pose proof (len_nonneg d).
  set (n := 12 + len (rp_payload p) + len d). set (wire := header_bytes pad false (translated p h) ++ rp_payload p ++ d).
  assert (len wire = n) as Hlw by (unfold wire; rewrite !len_app; change (len (header_bytes _ _ _)) with 12; lia).
  assert (bytes_ok (rp_payload p) /\ bytes_ok d) as [Hbp Hbd] by (rewrite Heq, !bytes_ok_app in Hb; tauto).
  exists n, wire. split; [lia|]. split; [done|]. split; [unfold wire; rewrite !bytes_ok_app; auto using translated_header_bytes|].
  destruct (write_translated_Ok inbound p h (replicate (Z.to_nat n) 0) pad ext e d) as (o & _ & Hs & Hparse & _); eauto; [rewrite len_replicate; lia|].
  fold n wire in Hs, Hparse. rewrite Hs in Hparse. split; [done|]. intros buf. destruct (Z.leb_spec n (len buf)) as [Hle|Hgt].
  - destruct (write_translated_Ok inbound p h buf pad ext e d) as (o' & Hw & Hs' & _ & Hdrop); eauto. fold n wire in Hw, Hs', Hdrop.
    exists o'. split; [done|]. split; [done|]. rewrite <- (take_drop (Z.to_nat n) o'), Hdrop, len_app, len_drop.
    change (take (Z.to_nat n) o') with (take (Z.to_nat n) (drop 0 o')). unfold sub in Hs'. rewrite Z.sub_0_r in Hs'. change (Z.to_nat 0) with 0%nat in Hs'. rewrite Hs'. lia.
  - unfold write_translated. rewrite Heq at 1. rewrite (padding_len_wire pad ext p e d) by done. rewrite bind_Ok. unfold FIXED_HEADER_LEN. fold n. by rewrite (proj2 (Z.ltb_lt _ _)) by lia.
Qed.

Lemma translate_cases t inbound payload_type clock : translator_ok t -> bytes_ok inbound ->
  (exists r, match r with Ok (ForwardedPacket _ _) | Panic => False | _ => True end /\
     (forall out, len out = ROOM_MAX_DATAGRAM -> translate t inbound payload_type clock out = (r, t, out))) \/
  (exists n rebased t' wire, 12 <= n <= ROOM_MAX_DATAGRAM /\ len wire = n /\ bytes_ok wire /\ translator_ok t' /\
     is_Some (match RtpPacket_parse wire with Ok p => Some p | _ => None end) /\
     forall out, len out = ROOM_MAX_DATAGRAM -> exists out', translate t inbound payload_type clock out = (Ok (ForwardedPacket n rebased), t', out') /\
       sub out' 0 n = wire /\ len out' = ROOM_MAX_DATAGRAM).
Proof.
  intros (H1 & H2 & H3) Hb. unfold translate. pose proof (RtpPacket_parse_no_panic_aux inbound Hb) as Hnp.
  destruct (RtpPacket_parse inbound) as [p|e|] eqn:Hp; [| |done].
  2: { left. by exists (Err e). }
  set (mapped := mapped_values t p). set (rebase := match mapped with None => true | Some _ => false end).
  destruct (rebase && is_stale t p); [left; by exists (Ok DroppedStale)|].
  set (values := match mapped with Some v => v | None => rebase_values t clock end).
  assert (fits 16 values.1 /\ fits 32 values.2) as [Hv1 Hv2].
  { unfold values, mapped, mapped_values, rebase_values.
    assert (forall w x y, 0 <= w -> fits w (wrapping_add w x y)) as Hw by (intros; unfold wrapping_add; by apply wrap_fits).
    destruct (tr_source t) as [src|]; [destruct (_ =? _); [split; apply Hw; lia|]|]; (destruct (tr_sent_any t); [split; apply Hw; lia|done]). }
  destruct values as [seq ts]. cbn [fst snd] in *. set (h := mkRtpHeader _ _ _ _ _).
  destruct (write_translated_cases inbound p h Hb Hp Hv1 Hv2 H1) as (n & wire & Hn & Hl & Hbw & Hparse & Hall).
  destruct (Z.leb_spec n ROOM_MAX_DATAGRAM) as [Hle|Hgt].
  - right. exists n, rebase, (commit t p rebase seq ts clock), wire. split; [lia|]. split; [done|]. split; [done|]. split; [done|]. rewrite Hparse. split; [by eexists|].
    intros out Ho. specialize (Hall out). rewrite Ho, (proj2 (Z.leb_le _ _) Hle) in Hall. destruct Hall as (out' & -> & Hs & Hlo). exists out'. split; [done|]. split; [done|]. lia.
  - left. exists (Err (OutputTooSmall n ROOM_MAX_DATAGRAM)). split; [done|]. intros out Ho. specialize (Hall out). rewrite Ho, (proj2 (Z.leb_gt _ _) Hgt) in Hall. by rewrite Hall.
Qed.

(** ** What one receiver is sent

    A function of the receiver and the packet alone: the translator writes the same
    bytes whatever is in the buffer it is lent. *)

Section safety.
Context `{L : SrtpCryptoLaws} `{G : GcmCrypto}.
Context (keystream_bytes : forall key iv n, bytes_ok (ctr_keystream key iv n)).

Definition blank : bytes := replicate (Z.to_nat ROOM_MAX_DATAGRAM) 0.

(** The packet in clear for the receiver [s], and the receiver after. *)
Definition clear_for (kind : PlanKind) (arrival : Z) (data : bytes) (s : Seat) : option (bytes * Seat) :=
  if negb (reachable s) then None else
  payload_type ← select_feed (mkPlan VerbatimNo 0 kind false 0 arrival) s;
  let clock := ticks arrival (se_clock_rate_hz s) in
  match translate (se_translator s) data payload_type clock blank with
  | (Ok (ForwardedPacket n _), t, out) => Some (sub out 0 n, set_forwarded s t clock)
  | _ => None
  end.

(** Sealed under the seat's own key, if it has one. *)
Definition sealed_for (s : Seat) (clear : bytes) : option bytes * Seat :=
  match se_secure s with
  | Some leg =>
      let '(r, leg, wire) := leg_protect leg clear [] in
      (match r with Ok _ => Some wire | _ => None end, set_secure s (Some leg) (se_secure_pending s))
  | None => (Some clear, s)
  end.

Definition to_seat (s : Seat) (wire : bytes) : datagram := (se_endpoint s, se_egress_destination s, wire).

Definition seat_output (kind : PlanKind) (arrival : Z) (data : bytes) (s : Seat) : option datagram * Seat :=
  match clear_for kind arrival data s with
  | Some (clear, s) => let '(wire, s) := sealed_for s clear in (to_seat s <$> wire, s)
  | None => (None, s)
  end.

Definition verbatim_output (counted : bool) (data : bytes) (s : Seat) : option datagram * Seat :=
  if negb (reachable s) then (None, s) else
  let c := se_counters s in
  (Some (to_seat s data),
   if counted then set_counters s (count_forwarded c (wrapping_add 32 (st_forwarded_packets c) 1) (wrapping_add 32 (st_forwarded_octets c) (wrap 32 (len data))))
   else s).

(** Every seat but the source, in order. *)
Fixpoint outputs (f : Seat -> option datagram * Seat) (source index : nat) (seats : list Seat) : list datagram * list Seat :=
  match seats with
  | [] => ([], [])
  | s :: seats =>
      let '(d, s) := if bool_decide (index = source) then (None, s) else f s in
      let '(ds, seats) := outputs f source (S index) seats in
      (option_list d ++ ds, s :: seats)
  end.

(** ** The invariant *)

Definition floor_ok (f : FloorStream) : Prop := forall p, fm_protection f = Some p -> gcm_inv (fp_context p).

Definition seat_ok (s : Seat) : Prop :=
  (forall leg, se_secure s = Some leg -> leg_inv leg) /\ translator_ok (se_translator s) /\ (forall f, se_floor s = Some f -> floor_ok f).

(** The routing table names the seat of each of its endpoints. *)
Definition route_ok (seats : list Seat) (endpoint : Z) (target : nat * Port) : Prop :=
  exists s, seats !! target.1 = Some s /\
  match target.2 with PortAudio => se_endpoint s = endpoint | PortFloor => fm_endpoint <$> se_floor s = Some endpoint end.

Record room_inv (r : ForwardRoom) : Prop := {
  ri_seats : Forall seat_ok (fr_seats r);
  ri_routes : map_Forall (route_ok (fr_seats r)) (fr_by_endpoint r);
  ri_source : forall i, fr_source r = Some i -> (i < length (fr_seats r))%nat;
  ri_scratch : len (fr_scratch r) = ROOM_MAX_DATAGRAM
}.

(** What identifies a seat, to its routes and to whoever reads its traffic. *)
Definition same_seat (s s' : Seat) : Prop :=
  se_endpoint s' = se_endpoint s /\ fm_endpoint <$> se_floor s' = fm_endpoint <$> se_floor s /\ se_tag s' = se_tag s.

Lemma routes_same seats seats' (routes : gmap Z (nat * Port)) : Forall2 same_seat seats seats' ->
  map_Forall (route_ok seats) routes -> map_Forall (route_ok seats') routes.
Proof.
  intros Hs Hr e [i port] Hi. destruct (Hr e _ Hi) as (s & Hsi & He). cbn [fst snd] in *.
  destruct (Forall2_lookup_l _ _ _ _ _ Hs Hsi) as (s' & Hs' & E1 & E2 & _). exists s'. split; [done|]. cbn. destruct port; congruence.
Qed.

#[local] Instance same_seat_refl : Reflexive same_seat.
Proof. by intros s. Qed.

#[local] Instance same_seat_trans : Transitive same_seat.
Proof. intros s s' s'' (?&?&?) (?&?&?). split_and!; congruence. Qed.

Lemma put_seat_inv r i s s' : room_inv r -> fr_seats r !! i = Some s -> seat_ok s' -> same_seat s s' -> room_inv (put_seat r i s').
Proof.
  intros [H1 H2 H3 H4] Hi Hok Hsame. constructor; cbn; try done.
  - by apply Forall_insert.
  - eapply routes_same; [|done]. apply Forall2_same_length_lookup_2; [by rewrite length_insert|]. intros j x y Hx Hy.
    destruct (decide (i = j)) as [<-|Hne]; [rewrite list_lookup_insert_eq in Hy by (by eapply lookup_lt_Some)|rewrite list_lookup_insert_ne in Hy by done]; by simplify_eq.
  - by rewrite length_insert.
Qed.

Lemma seat_of r i s : fr_seats r !! i = Some s -> seat_at r i = Ok s.
Proof. unfold seat_at. by intros ->. Qed.

Lemma seat_ok_of r i s : room_inv r -> fr_seats r !! i = Some s -> seat_ok s.
Proof. intros [H _ _ _] Hi. rewrite list.Forall_forall in H. apply H. by eapply list_elem_of_lookup_2. Qed.

Lemma sealed_ok s clear : seat_ok s -> bytes_ok clear ->
  seat_ok (sealed_for s clear).2 /\ same_seat s (sealed_for s clear).2 /\
  (forall leg, se_secure s = Some leg -> match leg_protect leg clear [] with (Panic, _, _) => False | _ => True end).
Proof.
  intros Hs Hb. pose proof Hs as (H1 & H2 & H3). unfold sealed_for. destruct (se_secure s) as [leg|] eqn:E; [|by split_and!].
  pose proof (leg_protect_safe leg clear (H1 leg eq_refl) Hb) as H. destruct (leg_protect leg clear []) as [[[kind|e|] leg'] wire] eqn:El; [| |done].
  - split; [|split; [done|by intros l [= <-]; rewrite El]]. split; [by intros l [= <-]|done].
  - split; [|split; [done|by intros l [= <-]; rewrite El]]. subst leg'. split; [|done]. intros l [= <-]. by apply H1.
Qed.

Lemma clear_ok kind arrival data s clear s' : seat_ok s -> bytes_ok data -> clear_for kind arrival data s = Some (clear, s') ->
  seat_ok s' /\ same_seat s s' /\ bytes_ok clear /\ reachable s = true /\
  se_secure s' = se_secure s /\ se_egress_destination s' = se_egress_destination s /\ is_Some (match RtpPacket_parse clear with Ok p => Some p | _ => None end).
Proof.
  intros (H1 & H2 & H3) Hb. unfold clear_for. destruct (reachable s) eqn:Er; [|done]. cbn [negb].
  destruct (select_feed _ s) as [pt|]; [|done]. cbn [mbind option_bind].
  assert (len blank = ROOM_MAX_DATAGRAM) as Hbl by (unfold blank; rewrite len_replicate; done).
  destruct (translate_cases (se_translator s) data pt (ticks arrival (se_clock_rate_hz s)) H2 Hb) as [(r & Hr & Ht)|(n & rebased & t & wire & Hn & Hl & Hbw & Ht' & Hpa & Ht)].
  - rewrite (Ht _ Hbl). destruct r as [[]| |]; done.
  - destruct (Ht _ Hbl) as (out & -> & -> & _). intros [= <- <-]. done.
Qed.

Lemma outputs_seats f source (P : Seat -> Prop) : (forall s, P s -> P (f s).2 /\ same_seat s (f s).2) ->
  forall seats index, Forall P seats -> Forall P (outputs f source index seats).2 /\ Forall2 same_seat seats (outputs f source index seats).2.
Proof.
  intros Hf. induction seats as [|s seats IH]; intros index Hs; [by split; constructor|]. apply Forall_cons_1 in Hs as [Hs Hss].
  destruct (IH (S index) Hss) as [I1 I2]. destruct (Hf s Hs) as [F1 F2]. cbn [outputs].
  destruct (bool_decide (index = source)); [|destruct (f s)]; (destruct (outputs f source (S index) seats); split; by constructor).
Qed.

Lemma seat_output_ok kind arrival data s : bytes_ok data -> seat_ok s -> seat_ok (seat_output kind arrival data s).2 /\ same_seat s (seat_output kind arrival data s).2.
Proof.
  intros Hb Hs. unfold seat_output. destruct (clear_for kind arrival data s) as [[clear s1]|] eqn:E; [|done].
  destruct (clear_ok _ _ _ _ _ _ Hs Hb E) as (H1 & H2 & H3 & _). destruct (sealed_ok s1 clear H1 H3) as (H4 & H5 & _).
  destruct (sealed_for s1 clear) as [wire s2]. cbn [snd] in *. split; [done|]. by etrans.
Qed.

Lemma verbatim_output_ok counted data s : seat_ok s -> seat_ok (verbatim_output counted data s).2 /\ same_seat s (verbatim_output counted data s).2.
Proof. intros Hs. unfold verbatim_output. destruct (reachable s); [|done]. by destruct counted. Qed.

(** ** The fan-out *)

(** Everything the fan-out does not touch. *)
Record framed (r r' : ForwardRoom) : Prop := {
  fm_codec : fr_codec r' = fr_codec r;
  fm_routes : fr_by_endpoint r' = fr_by_endpoint r;
  fm_source : fr_source r' = fr_source r;
  fm_clear : fr_clear_in r' = fr_clear_in r;
  fm_pending : fr_pending_channel r' = fr_pending_channel r;
  fm_room_id : fr_room_id r' = fr_room_id r;
  fm_scratch : len (fr_scratch r) = ROOM_MAX_DATAGRAM -> len (fr_scratch r') = ROOM_MAX_DATAGRAM
}.

#[local] Instance framed_refl : Reflexive framed.
Proof. by constructor. Qed.
#[local] Instance framed_trans : Transitive framed.
Proof. intros r1 r2 r3 [] []. constructor; try congruence. auto. Qed.

Lemma announce_ok r source : (source < length (fr_seats r))%nat ->
  exists r', announce r source = Ok r' /\ framed r r' /\ fr_seats r' = fr_seats r /\ fr_plan r' = fr_plan r /\ fr_scratch r' = fr_scratch r.
Proof.
  intros Hs. unfold announce. destruct (fr_announce_pending r); [|by exists r].
  destruct (lookup_lt_is_Some_2 _ _ Hs) as [s E]. rewrite (seat_of _ _ _ E), bind_Ok. by eexists.
Qed.

Lemma seal_for_ok r i s clear : fr_seats r !! i = Some s -> seat_ok s -> bytes_ok clear ->
  exists r', seal_for r i s clear = Ok ((sealed_for s clear).1, r') /\ framed r r' /\ fr_plan r' = fr_plan r /\
    fr_seats r' = <[i := (sealed_for s clear).2]> (fr_seats r).
Proof.
  intros Hi Hs Hb. destruct (sealed_ok s clear Hs Hb) as (_ & _ & Hp). unfold seal_for, sealed_for in *.
  destruct (se_secure s) as [leg|].
  - specialize (Hp leg eq_refl). destruct (leg_protect leg clear []) as [[[kind|e|] leg'] wire]; [by eexists|by eexists|done].
  - exists r. split; [done|]. split; [done|]. split; [done|]. by rewrite list_insert_id.
Qed.

Lemma set_forwarded_id s : set_forwarded s (se_translator s) (se_last_forward_clock s) = s.
Proof. by destruct s. Qed.

(** One receiver's turn, as the loop takes it. *)
Definition turn_ok (f : Seat -> option datagram * Seat) (source : nat) (data : bytes)
  (one : ForwardRoom -> nat -> res unit (option datagram * ForwardRoom)) : Prop :=
  forall r index s, fr_seats r !! index = Some s -> seat_ok s -> (source < length (fr_seats r))%nat ->
    len (fr_scratch r) = ROOM_MAX_DATAGRAM -> fr_clear_in r = data ->
    exists r', one r index = Ok ((f s).1, r') /\ framed r r' /\ fr_plan r' = fr_plan r /\ fr_seats r' = <[index := (f s).2]> (fr_seats r).

Lemma forward_to_ok p packet data : pl_verbatim p = VerbatimNo -> bytes_ok (if pl_in_clear_buffer p then data else rx_data packet) ->
  turn_ok (seat_output (pl_kind p) (pl_arrival p) (if pl_in_clear_buffer p then data else rx_data packet)) (pl_source p) data
    (fun r index => forward_to r p index packet).
Proof.
  intros Hv Hb r index s Hi Hs Hsrc Hl Hc. unfold forward_to. rewrite (seat_of _ _ _ Hi), bind_Ok, Hc. unfold seat_output.
  set (d := if pl_in_clear_buffer p then data else rx_data packet) in *. destruct (clear_for (pl_kind p) (pl_arrival p) d s) as [[clear s1]|] eqn:Ecf; unfold clear_for in Ecf.
  - destruct (reachable s) eqn:Er; cbn [negb] in *; [|done].
    change (select_feed (mkPlan VerbatimNo 0 (pl_kind p) false 0 (pl_arrival p)) s) with (select_feed p s) in Ecf.
    destruct (select_feed p s) as [pt|]; [|done]. cbn [mbind option_bind] in Ecf.
    assert (len blank = ROOM_MAX_DATAGRAM) as Hbl by (unfold blank; rewrite len_replicate; done).
    pose proof Hs as (Hleg & Htr & Hfl).
    destruct (translate_cases (se_translator s) d pt (ticks (pl_arrival p) (se_clock_rate_hz s)) Htr Hb) as [(o & Ho & Ht)|(n & rebased & t & wire & Hn & Hlw & Hbw & Ht' & _ & Ht)].
    { rewrite (Ht _ Hbl) in Ecf. destruct o as [[]| |]; done. }
    destruct (Ht _ Hbl) as (ob & Eb & Hsb & _). rewrite Eb, Hsb in Ecf. injection Ecf as <- <-.
    destruct (Ht _ Hl) as (out & -> & Hso & Hlo). set (s1 := set_forwarded s t (ticks (pl_arrival p) (se_clock_rate_hz s))).
    destruct (announce_ok (put_seat (set_scratch r out) index s1) (pl_source p)) as (r1 & -> & Hf1 & Hs1 & Hp1 & Hscr); [cbn; by rewrite length_insert|].
    rewrite bind_Ok, Hscr. cbn [put_seat set_seats set_scratch fr_scratch]. rewrite slice_Ok, bind_Ok, Hso by lia.
    assert (seat_ok s1) as Hok1 by done.
    assert (fr_seats r1 !! index = Some s1) as Hi1 by (rewrite Hs1; cbn; rewrite list_lookup_insert_eq; [done|by eapply lookup_lt_Some]).
    destruct (seal_for_ok r1 index s1 wire Hi1 Hok1 Hbw) as (r2 & -> & Hf2 & Hp2 & Hs2). rewrite bind_Ok.
    exists r2. destruct (sealed_for s1 wire) as [w s2] eqn:Ew. cbn [fst snd] in *.
    assert (se_endpoint s2 = se_endpoint s1 /\ se_egress_destination s2 = se_egress_destination s1) as [E1 E2].
    { unfold sealed_for in Ew. destruct (se_secure s1) as [leg|]; [destruct (leg_protect leg wire []) as [[[] ?] ?]|]; by injection Ew as <- <-. }
    split; [unfold to_seat; by rewrite E1, E2|]. split.
    + transitivity r1; [|done]. transitivity (put_seat (set_scratch r out) index s1); [|done]. constructor; cbn; done.
    + split; [by rewrite Hp2, Hp1|]. rewrite Hs2, Hs1. cbn. by rewrite list_insert_insert_eq.
  - cbn [fst snd]. assert (r = put_seat r index s) as Hid by (destruct r; unfold put_seat; cbn in *; by rewrite list_insert_id).
    destruct (reachable s) eqn:Er; cbn [negb] in *.
    2: { exists r. split; [done|]. split; [done|]. split; [done|]. by rewrite list_insert_id. }
    change (select_feed (mkPlan VerbatimNo 0 (pl_kind p) false 0 (pl_arrival p)) s) with (select_feed p s) in Ecf.
    destruct (select_feed p s) as [pt|]. 2: { exists r. split; [done|]. split; [done|]. split; [done|]. by rewrite list_insert_id. }
    cbn [mbind option_bind] in Ecf. assert (len blank = ROOM_MAX_DATAGRAM) as Hbl by (unfold blank; rewrite len_replicate; done).
    pose proof Hs as (_ & Htr & _).
    destruct (translate_cases (se_translator s) d pt (ticks (pl_arrival p) (se_clock_rate_hz s)) Htr Hb) as [(o & Ho & Ht)|(n & rebased & t & wire & _ & _ & _ & _ & _ & Ht)].
    2: { destruct (Ht _ Hbl) as (ob & Eb & _). by rewrite Eb in Ecf. }
    rewrite (Ht _ Hl), set_forwarded_id. exists (put_seat (set_scratch r (fr_scratch r)) index s). split; [destruct o as [[]| |]; done|].
    split; [by constructor|]. done.
Qed.

Lemma forward_verbatim_ok p packet data : turn_ok (verbatim_output (bool_decide (pl_verbatim p = VerbatimRtp)) (rx_data packet)) (pl_source p) data
  (fun r index => forward_verbatim r p index packet).
Proof.
  intros r index s Hi Hs Hsrc Hl Hc. unfold forward_verbatim, verbatim_output. rewrite (seat_of _ _ _ Hi), bind_Ok.
  destruct (reachable s); cbn [negb].
  2: { exists r. split; [done|]. split; [done|]. split; [done|]. by rewrite list_insert_id. }
  case_bool_decide.
  - set (s1 := set_counters s _). destruct (announce_ok (put_seat r index s1) (pl_source p)) as (r1 & -> & Hf1 & Hs1 & Hp1 & _); [cbn; by rewrite length_insert|].
    rewrite bind_Ok. exists r1. split; [done|]. split; [|by rewrite Hp1]. transitivity (put_seat r index s1); [by constructor|done].
  - exists r. split; [done|]. split; [done|]. split; [done|]. by rewrite list_insert_id.
Qed.

Definition plan_data (p : Plan) (clear : bytes) (packet : RxPacket) : bytes := if pl_in_clear_buffer p then clear else rx_data packet.

(** What a plan gives a receiver. *)
Definition plan_output (p : Plan) (clear : bytes) (packet : RxPacket) (s : Seat) : option datagram * Seat :=
  match pl_verbatim p with
  | VerbatimNo => seat_output (pl_kind p) (pl_arrival p) (plan_data p clear packet) s
  | VerbatimRtp => verbatim_output true (rx_data packet) s
  | VerbatimRtcp => verbatim_output false (rx_data packet) s
  end.

Definition plan_bytes_ok (p : Plan) (clear : bytes) (packet : RxPacket) : Prop :=
  match pl_verbatim p with VerbatimNo => bytes_ok (plan_data p clear packet) | _ => True end.

Definition at_cursor (p : Plan) (n : nat) : Plan :=
  mkPlan (pl_verbatim p) (pl_source p) (pl_kind p) (pl_in_clear_buffer p) n (pl_arrival p).

Lemma plan_turn_ok p packet data : plan_bytes_ok p data packet ->
  turn_ok (plan_output p data packet) (pl_source p) data
    (fun r index => if bool_decide (pl_verbatim p = VerbatimNo) then forward_to r p index packet else forward_verbatim r p index packet).
Proof.
  intros Hb. unfold plan_output, plan_bytes_ok, plan_data in *. destruct (pl_verbatim p) eqn:Ev.
  - apply forward_to_ok; [done|]. done.
  - pose proof (forward_verbatim_ok p packet data) as H. rewrite Ev in H. exact H.
  - pose proof (forward_verbatim_ok p packet data) as H. rewrite Ev in H. exact H.
Qed.

Lemma plan_output_seat p clear packet s : plan_bytes_ok p clear packet -> seat_ok s ->
  seat_ok (plan_output p clear packet s).2 /\ same_seat s (plan_output p clear packet s).2.
Proof.
  unfold plan_output, plan_bytes_ok. destruct (pl_verbatim p); [by apply seat_output_ok|intros _; by apply verbatim_output_ok..].
Qed.

(** The state in which the loop stands before the receivers [rest]. *)
Record poised (data : bytes) (p : Plan) (r : ForwardRoom) (served rest : list Seat) : Prop := {
  po_seats : fr_seats r = served ++ rest;
  po_cursor : pl_cursor p = length served;
  po_source : (pl_source p < length (fr_seats r))%nat;
  po_ok : Forall seat_ok rest;
  po_scratch : len (fr_scratch r) = ROOM_MAX_DATAGRAM;
  po_clear : fr_clear_in r = data
}.

Lemma next_loop_ok packet data p : plan_bytes_ok p data packet -> forall rest fuel r served,
  poised data (at_cursor p (length served)) r served rest -> (length rest < fuel)%nat ->
  let f := plan_output p data packet in
  exists r', framed r r' /\
  ((outputs f (pl_source p) (length served) rest).1 = [] /\ next_loop fuel r (at_cursor p (length served)) packet = Ok (None, r') /\
     fr_plan r' = None /\ fr_seats r' = served ++ (outputs f (pl_source p) (length served) rest).2 \/
   exists d served' rest', next_loop fuel r (at_cursor p (length served)) packet = Ok (Some d, r') /\
     fr_plan r' = Some (at_cursor p (length served')) /\ poised data (at_cursor p (length served')) r' served' rest' /\ (length rest' < length rest)%nat /\
     (outputs f (pl_source p) (length served) rest).1 = d :: (outputs f (pl_source p) (length served') rest').1 /\
     served ++ (outputs f (pl_source p) (length served) rest).2 = served' ++ (outputs f (pl_source p) (length served') rest').2).
Proof.
  intros Hb. induction rest as [|s rest IH]; intros fuel r served Hpo Hfuel f; (destruct fuel as [|fuel]; [cbn in Hfuel; lia|]); cbn [next_loop at_cursor pl_cursor].
  { destruct Hpo as [H1 _ _ _ _ _]. rewrite app_nil_r in H1. rewrite bool_decide_eq_true_2 by (rewrite H1; lia).
    exists (set_plan r None). split; [by constructor|]. left. split_and!; try done. cbn. by rewrite app_nil_r. }
  destruct Hpo as [H1 H2 H3 H4 H5 H6]. apply Forall_cons_1 in H4 as [Hs H4].
  assert (fr_seats r !! length served = Some s) as Hi by (rewrite H1; by apply list_lookup_middle).
  rewrite bool_decide_eq_false_2 by (rewrite H1, length_app; cbn; lia).
  change (advance_cursor (at_cursor p (length served))) with (at_cursor p (S (length served))).
  set (p1 := at_cursor p (S (length served))). change (pl_source p1) with (pl_source p). change (pl_source (at_cursor p (length served))) with (pl_source p) in *.
  cbn [outputs].
  assert (forall s', length (served ++ [s']) = S (length served)) as Hlen by (intros; rewrite length_app; cbn; lia).
  assert (forall r1 s', fr_seats r1 = <[length served := s']> (fr_seats r) -> framed r r1 -> same_seat s s' ->
    poised data (at_cursor p (length (served ++ [s']))) r1 (served ++ [s']) rest) as Hnext.
  { intros r1 s' E Hf Hsame. constructor; try done.
    - rewrite E, H1, insert_app_r_alt, Nat.sub_diag, <- app_assoc by done. done.
    - by rewrite E, length_insert.
    - by apply (fm_scratch _ _ Hf).
    - by rewrite (fm_clear _ _ Hf). }
  destruct (bool_decide (length served = pl_source p)) eqn:Esrc.
  - pose proof (Hnext (set_plan r (Some p1)) s ltac:(by rewrite list_insert_id) ltac:(by constructor) (reflexivity s)) as Hpo'.
    destruct (IH fuel (set_plan r (Some p1)) (served ++ [s]) Hpo' ltac:(cbn in Hfuel; lia)) as (r' & Hf & Hor). rewrite Hlen in Hor. fold f in Hor.
    exists r'. split; [transitivity (set_plan r (Some p1)); [by constructor|done]|].
    destruct (outputs f (pl_source p) (S (length served)) rest) as [ds ss]. cbn [fst snd option_list app] in *.
    replace (served ++ s :: ss) with ((served ++ [s]) ++ ss) by (by rewrite <- app_assoc).
    destruct Hor as [(-> & Hl & Hp & Hss)|(d & served' & rest' & Hl & Hp & Hpo2 & Hlt & Hds & Hss)].
    + left. split_and!; try done.
    + right. exists d, served', rest'. split_and!; try done. cbn. lia.
  - destruct (plan_turn_ok p packet data Hb (set_plan r (Some p1)) (length served) s Hi Hs H3 H5 H6) as (r1 & Ho & Hf1 & Hp1 & Hs1).
    assert ((if bool_decide (pl_verbatim p1 = VerbatimNo) then forward_to (set_plan r (Some p1)) p1 (length served) packet else forward_verbatim (set_plan r (Some p1)) p1 (length served) packet) =
      Ok ((plan_output p data packet s).1, r1)) as Ho1 by exact Ho.
    rewrite Ho1, bind_Ok. clear Ho Ho1. destruct (plan_output_seat p data packet s Hb Hs) as [Hok Hsame]. fold f in Hok, Hsame, Hs1 |- *.
    assert (framed r r1) as Hfr by (transitivity (set_plan r (Some p1)); [by constructor|done]).
    pose proof (Hnext r1 (f s).2 Hs1 Hfr Hsame) as Hpo'. destruct (f s) as [[d|] s']; cbn [fst snd] in *.
    + exists r1. split; [done|]. right. destruct (outputs f (pl_source p) (S (length served)) rest) as [ds ss] eqn:Eo.
      exists d, (served ++ [s']), rest. rewrite Hlen in *. rewrite Eo. split_and!; try done; [cbn; lia|]. cbn. by rewrite <- app_assoc.
    + destruct (IH fuel r1 (served ++ [s']) Hpo' ltac:(cbn in Hfuel; lia)) as (r' & Hf & Hor). rewrite Hlen in Hor. fold f in Hor.
      exists r'. split; [by transitivity r1|]. destruct (outputs f (pl_source p) (S (length served)) rest) as [ds ss]. cbn [fst snd option_list app] in *.
      replace (served ++ s' :: ss) with ((served ++ [s']) ++ ss) by (by rewrite <- app_assoc).
      destruct Hor as [(-> & Hl & Hp & Hss)|(d & served' & rest' & Hl & Hp & Hpo2 & Hlt & Hds & Hss)].
      * left. split_and!; try done.
      * right. exists d, served', rest'. split_and!; try done. cbn. lia.
Qed.

Lemma fan_out_ok packet data p : plan_bytes_ok p data packet -> forall n rest fuel r served, (length rest <= n)%nat ->
  poised data (at_cursor p (length served)) r served rest -> fr_plan r = Some (at_cursor p (length served)) -> (length rest < fuel)%nat ->
  exists r', fan_out fuel r packet = Ok ((outputs (plan_output p data packet) (pl_source p) (length served) rest).1, r') /\ framed r r' /\ fr_plan r' = None /\
    fr_seats r' = served ++ (outputs (plan_output p data packet) (pl_source p) (length served) rest).2.
Proof.
  intros Hb. induction n as [|n IH]; intros rest fuel r served Hn Hpo Hplan Hfuel; (destruct fuel as [|fuel]; [lia|]); cbn [fan_out]; unfold next_datagram; rewrite Hplan;
    (assert (length (fr_seats r) - pl_cursor (at_cursor p (length served)) = length rest)%nat as -> by (rewrite (po_seats _ _ _ _ _ Hpo), length_app; cbn; lia)).
  all: destruct (next_loop_ok packet data p Hb rest (S (length rest)) r served Hpo ltac:(lia)) as (r' & Hf & [(-> & Hl & Hp & Hs)|(d & served' & rest' & Hl & Hp & Hpo' & Hlt & -> & ->)]).
  - rewrite Hl, bind_Ok. by exists r'.
  - lia.
  - rewrite Hl, bind_Ok. by exists r'.
  - rewrite Hl, bind_Ok. destruct (IH rest' fuel r' served' ltac:(lia) Hpo' Hp ltac:(lia)) as (r2 & -> & Hf2 & Hp2 & Hs2). rewrite bind_Ok.
    exists r2. split; [done|]. split; [by transitivity r'|]. done.
Qed.

(** ** One datagram in *)

(** Changes of a seat's bookkeeping: nothing its safety rests on, nor where it is sent to. *)
Definition kept (s s' : Seat) : Prop :=
  se_secure s' = se_secure s /\ se_translator s' = se_translator s /\ se_floor s' = se_floor s /\ se_endpoint s' = se_endpoint s /\ se_tag s' = se_tag s.

Lemma kept_ok s s' : kept s s' -> seat_ok s -> seat_ok s' /\ same_seat s s'.
Proof. intros (E1 & E2 & E3 & E4 & E5) (H1 & H2 & H3). unfold seat_ok, same_seat. rewrite E1, E2, E3, E4, E5. done. Qed.

Lemma surface_apps_kept room_id s stream data qs : kept s (surface_apps room_id s stream data qs).1.
Proof. unfold surface_apps. by destruct (surface_app_to_queue _ _ _ _ _ _) as [[qs' raised] malformed]. Qed.

Lemma hear_items_kept egress arrival items : forall s, kept s (fold_left (hear_item egress arrival) items s).
Proof.
  induction items as [|item items IH]; intros s; [done|]. cbn [fold_left]. destruct (IH (hear_item egress arrival s item)) as (E1 & E2 & E3 & E4 & E5).
  unfold kept. rewrite E1, E2, E3, E4, E5. by destruct item.
Qed.

(** The operation changed seats in place, and nothing else the invariant needs. *)
Record in_place (r r' : ForwardRoom) : Prop := {
  ip_inv : room_inv r';
  ip_seats : Forall2 same_seat (fr_seats r) (fr_seats r');
  ip_codec : fr_codec r' = fr_codec r;
  ip_source : fr_source r' = fr_source r
}.

Lemma in_place_refl r : room_inv r -> in_place r r.
Proof. intros H. by constructor. Qed.

Lemma in_place_put r i s s' : room_inv r -> fr_seats r !! i = Some s -> seat_ok s' -> same_seat s s' -> in_place r (put_seat r i s').
Proof.
  intros Hr Hi Hok Hsame. constructor; [by eapply put_seat_inv| |done|done]. cbn.
  rewrite <- (list_insert_id (fr_seats r) i s Hi) at 1. apply Forall2_insert; [reflexivity|done].
Qed.

Lemma in_place_trans r1 r2 r3 : in_place r1 r2 -> in_place r2 r3 -> in_place r1 r3.
Proof. intros [] []. constructor; try congruence. by etrans. Qed.

Lemma inv_plan r p : room_inv r -> room_inv (set_plan r p).
Proof. by intros []. Qed.
Lemma inv_clear r c : room_inv r -> room_inv (set_clear_in r c).
Proof. by intros []. Qed.

Lemma in_place_set r r' p : in_place r r' -> in_place r (set_plan r' p).
Proof. intros []. constructor; try done. by apply inv_plan. Qed.

Lemma floor_admit_ok protection l warned packet : (forall p, protection = Some p -> gcm_inv (fp_context p)) -> bytes_ok (rx_data packet) ->
  let '(r, protection', l', warned') := floor_admit protection l warned packet in
  no_panic r /\ (forall p, protection' = Some p -> gcm_inv (fp_context p)).
Proof.
  intros Hp Hb. unfold floor_admit. destruct protection as [p|].
  2: { by destruct (OpaqueLatch_admit l (rx_source packet)) as [[?|] ?]. }
  destruct (match OpaqueLatch_latched l with Some s => _ | None => _ end); [by split|].
  destruct (Hp p eq_refl) as [rs Hrs]. unfold floor_open. pose proof (gcm_unprotect_cases (fp_context p) (rx_data packet) (fp_plain p) rs Hb Hrs) as H.
  destruct (gcm_unprotect _ _ _) as [[[u|e|] c] plain]; [| |done]; cbn.
  - destruct H as (i & e & w & R & _ & -> & _ & _ & _ & Hw).
    assert (gcm_inv (fp_context (mkFloorProtection (SrtcpGcm.set_keys (fp_context p) (<[i:=set_replay e w]> (gc_keys (fp_context p)))) (fp_keys p) plain))) as Hg.
    { eexists. by apply ring_seen_update. }
    by destruct (OpaqueLatch_admit l (rx_source packet)) as [[?|] ?]; (split; [done|]); intros ? [= <-].
  - subst c. split; [done|]. intros ? [= <-]. by exists rs.
Qed.

Lemma ingest_floor_ok r qs index packet : room_inv r -> (exists s, fr_seats r !! index = Some s) -> bytes_ok (rx_data packet) ->
  exists outcome r' qs', ingest_floor r qs index packet = Ok (outcome, r', qs') /\ in_place r r' /\ fr_plan r' = fr_plan r.
Proof.
  intros Hr [s Hi] Hb. unfold ingest_floor. rewrite (seat_of _ _ _ Hi), bind_Ok. pose proof (seat_ok_of _ _ _ Hr Hi) as Hok.
  destruct (se_floor s) as [floor|] eqn:Ef; [|eexists _, _, _; split; [done|]; split; [by apply in_place_refl|done]].
  assert (forall floor' counters, floor_ok floor' -> fm_endpoint floor' = fm_endpoint floor ->
    seat_ok (set_floor s (Some floor') counters) /\ same_seat s (set_floor s (Some floor') counters)) as Hput.
  { intros floor' counters Hfl He. destruct Hok as (H1 & H2 & H3). split; [split_and!; try done; by intros f [= <-]|]. split_and!; try done. rewrite Ef. cbn. by rewrite He. }
  assert (floor_ok floor) as Hfl by (by apply Hok). destruct (accepts _ _); cbn [negb].
  2: { eexists _, _, _. split; [done|]. split; [|done]. destruct (Hput (set_floor_gate floor (fm_destination floor) (fm_latch floor) (refusal_log (fm_refusals floor) UnsignalledSource) (fm_protection floor)) (se_counters s)); [done|done|]. by eapply in_place_put. }
  destruct (_ || _); [eexists _, _, _; split; [done|]; split; [by apply in_place_refl|done]|].
  pose proof (floor_admit_ok (fm_protection floor) (fm_latch floor) (fm_refusals floor) packet Hfl Hb) as Hadm.
  destruct (floor_admit _ _ _ _) as [[[adm protection] l] warned]. destruct Hadm as [Hnp Hg]. destruct adm as [[data learned]|drop|]; [| |done].
  - set (floor' := set_floor_gate _ _ _ _ _). destruct (Hput floor' (se_counters s)) as [Hok' Hsame']; [done|done|].
    pose proof (surface_apps_kept (fr_room_id r) (set_floor s (Some floor') (se_counters s)) StreamFloor data qs) as Hk.
    destruct (surface_apps _ _ _ _ _) as [s' qs']. cbn [fst] in Hk. destruct (kept_ok _ _ Hk Hok') as [Hok2 Hsame2].
    eexists _, _, _. split; [done|]. split; [|done]. eapply in_place_put; [done..|]. by etrans.
  - set (floor' := set_floor_gate _ _ _ _ _). eexists _, _, _. split; [done|]. split; [|done].
    match goal with |- in_place r (put_seat r index (set_floor s (Some floor') ?c)) => destruct (Hput floor' c) as [Hok' Hsame'] end; [done|done|]. by eapply in_place_put.
Qed.

(** The kind of media a packet of the seat is. *)
Definition kind_of (s : Seat) (payload_type : Z) : option PlanKind :=
  if payload_type =? se_audio_payload_type s then Some PlanAudio
  else event ← se_telephone_event s; if ev_payload_type event =? payload_type then Some (PlanEvent (ev_clock_rate_hz event)) else None.

(** A datagram armed the fan-out: it came to the audio endpoint of the chosen seat,
    through every layer of its gate, and is media the seat negotiated. *)
Record armed (r : ForwardRoom) (packet : RxPacket) (arrival : Z) (r' : ForwardRoom) (p : Plan) (index : nat) (s : Seat) (data : bytes) : Prop := {
  ar_route : fr_by_endpoint r !! rx_endpoint packet = Some (index, PortAudio);
  ar_seat : fr_seats r !! index = Some s;
  ar_chosen : fr_source r = Some index;
  ar_passed : exists g, passed (gate_of s) packet data g;
  ar_plan : fr_plan r' = Some p /\ pl_source p = index /\ pl_cursor p = 0%nat /\ pl_arrival p = arrival;
  ar_media : match rc_media (fr_codec r) with
    | Translate => pl_verbatim p = VerbatimNo /\ plan_data p (fr_clear_in r') packet = data /\ bytes_ok data /\ is_rtcp data = false /\
        exists parsed, RtpPacket_parse data = Ok parsed /\ kind_of s (rp_payload_type parsed) = Some (pl_kind p)
    | Preserve => pl_verbatim p = (if is_rtcp (rx_data packet) then VerbatimRtcp else VerbatimRtp)
    end;
  ar_others : forall j, j <> index -> fr_seats r' !! j = fr_seats r !! j
}.

Lemma ingest_ok r qs packet arrival : room_inv r -> bytes_ok (rx_data packet) ->
  exists outcome r' qs', room_ingest r qs packet arrival = Ok (outcome, r', qs') /\ in_place r r' /\
    (fr_plan r' = None \/ exists p index s data, armed r packet arrival r' p index s data).
Proof.
  intros Hr Hb. unfold room_ingest. set (r0 := set_plan r None). assert (room_inv r0) as Hr0 by (by apply inv_plan).
  assert (in_place r r0) as Hip0 by (by apply in_place_set, in_place_refl).
  destruct (fr_by_endpoint r0 !! rx_endpoint packet) as [[index port]|] eqn:Er.
  2: { exists Refused, r0, qs. split; [done|]. split; [done|]. by left. }
  destruct (ri_routes _ Hr0 _ _ Er) as (s & Hi & He). cbn [fst snd] in *. destruct port.
  2: { destruct (ingest_floor_ok r0 qs index packet Hr0 ltac:(by exists s) Hb) as (outcome & r' & qs' & -> & Hip & Hp). exists outcome, r', qs'.
       split; [done|]. split; [by eapply in_place_trans|]. left. by rewrite Hp. }
  rewrite (seat_of _ _ _ Hi), bind_Ok. pose proof (seat_ok_of _ _ _ Hr0 Hi) as Hok.
  assert (gate_ok (gate_of s)) as Hg by (intros leg; apply Hok).
  pose proof (gate_admit_exact keystream_bytes (gate_of s) packet (fr_clear_in r0) Hg Hb) as Hadm.
  destruct (gate_admit (gate_of s) packet (fr_clear_in r0)) as [[adm g] clear].
  assert (gate_ok g -> seat_ok (ungate s g) /\ same_seat s (ungate s g)) as Hung by (intros Hg'; destruct Hok as (_ & ? & ?); done).
  set (r1 := set_clear_in (put_seat r0 index (ungate s g)) clear).
  assert (gate_ok g -> in_place r0 r1) as Hip1.
  { intros Hg'. destruct (Hung Hg') as [Ho Hs]. pose proof (in_place_put r0 index s (ungate s g) Hr0 Hi Ho Hs) as [H1 H2 H3 H4]. constructor; try done. by apply inv_clear. }
  destruct adm as [data|i|]; [| |done].
  2: { destruct Hadm as (-> & _ & _ & Hg' & _). exists Refused, r1, qs. split; [done|]. split; [by eapply in_place_trans; [|apply Hip1]|by left]. }
  destruct Hadm as (Hpass & Hbd & Hg' & Hclear & _). specialize (Hip1 Hg'). destruct (Hung Hg') as [Hok1 Hsame1].
  assert (in_place r r1) as Hip by (by eapply in_place_trans). assert (room_inv r1) as Hr1 by apply Hip1.
  assert (fr_seats r1 !! index = Some (ungate s g)) as Hi1 by (cbn; rewrite list_lookup_insert_eq; [done|by eapply lookup_lt_Some]).
  assert (forall s2, kept (ungate s g) s2 -> in_place r (put_seat r1 index s2)) as Hput.
  { intros s2 Hk. destruct (kept_ok _ _ Hk Hok1) as [Ho Hs]. eapply in_place_trans; [exact Hip|]. by eapply in_place_put. }
  assert (forall s2 j, j <> index -> fr_seats (put_seat r1 index s2) !! j = fr_seats r !! j) as Hoth by (intros s2 j Hj; cbn; by rewrite !list_lookup_insert_ne).
  assert (forall j, j <> index -> fr_seats r1 !! j = fr_seats r !! j) as Hoth1 by (intros j Hj; cbn; by rewrite !list_lookup_insert_ne).
  destruct (len data <? 2); [by eexists _, _, _; split; [done|]; split; [done|left]|].
  change (fr_codec r1) with (fr_codec r). destruct (rc_media (fr_codec r)) eqn:Em; cbn [bool_decide].
  - rewrite bool_decide_eq_false_2 by done. unfold ingest_translated. rewrite (seat_of _ _ _ Hi1), bind_Ok, gate_is_rtcp_leg, bind_Ok.
    destruct (is_rtcp data) eqn:Ek.
    + pose proof (surface_apps_kept (fr_room_id r1) (ungate s g) StreamAudio data qs) as Hk1. destruct (surface_apps _ _ _ _ _) as [s2 qs']. cbn [fst] in Hk1.
      destruct (consume_rtcp_Ok data Hbd) as [items ->]. rewrite bind_Ok. eexists _, _, _. split; [done|]. split; [|by left]. apply Hput.
      destruct (hear_items_kept (tr_egress_ssrc (se_translator (ungate s g))) arrival items s2) as (E1 & E2 & E3 & E4 & E5), Hk1 as (F1 & F2 & F3 & F4 & F5). split_and!; congruence.
    + pose proof (RtpPacket_parse_no_panic_aux data Hbd) as Hnp. destruct (RtpPacket_parse data) as [parsed|e|] eqn:Hparse; [|by eexists _, _, _; split; [done|]; split; [done|left]|done].
      assert (is_source r1 index = bool_decide (fr_source r = Some index)) as -> by done. case_bool_decide as Esrc; cbn [negb].
      2: { eexists _, _, _. split; [done|]. split; [|by left]. by apply Hput. }
      assert ((if rp_payload_type parsed =? se_audio_payload_type (note_rtp (ungate s g) parsed arrival) then Some PlanAudio
        else match se_telephone_event (note_rtp (ungate s g) parsed arrival) with
             | Some event => if ev_payload_type event =? rp_payload_type parsed then Some (PlanEvent (ev_clock_rate_hz event)) else None | None => None end)
        = kind_of s (rp_payload_type parsed)) as -> by done.
      destruct (kind_of s (rp_payload_type parsed)) as [kind|] eqn:Eki.
      2: { eexists _, _, _. split; [done|]. split; [|by left]. by apply Hput. }
      eexists _, _, _. split; [done|]. split; [by apply in_place_set, Hput|]. right. eexists _, index, s, data. constructor; [done|done|done|by exists g|done| |by apply Hoth].
      rewrite Em. cbn [pl_verbatim pl_kind]. split; [done|]. split_and!; try done; [|by exists parsed]. unfold plan_data. cbn [pl_in_clear_buffer].
      destruct Hpass as [_ _ Hop _]. cbn [gate_of sg_secure] in *. destruct (se_secure s) as [leg|].
      * destruct Hop as (? & leg' & _ & E). cbn. rewrite E. cbn. by rewrite Hclear.
      * destruct Hop as [-> E]. cbn. by rewrite E.
  - rewrite bool_decide_eq_true_2 by done. unfold ingest_preserved. rewrite (seat_of _ _ _ Hi1), bind_Ok, gate_is_rtcp_leg, bind_Ok.
    assert (is_source r1 index = bool_decide (fr_source r = Some index)) as -> by done.
    destruct (is_rtcp (rx_data packet)) eqn:Ek.
    + case_bool_decide as Esrc; cbn [negb].
      * eexists _, _, _. split; [done|]. split; [by apply in_place_set|]. right. eexists _, index, s, data. constructor; [done|done|done|by exists g|done| |done]. rewrite Em, Ek. done.
      * eexists _, _, _. split; [done|]. split; [|by left]. by apply Hput.
    + pose proof (RtpPacket_parse_no_panic_aux (rx_data packet) Hb) as Hnp. destruct (RtpPacket_parse (rx_data packet)) as [parsed|e|] eqn:Hparse; [|by eexists _, _, _; split; [done|]; split; [done|left]|done].
      case_bool_decide as Esrc; cbn [negb].
      2: { eexists _, _, _. split; [done|]. split; [|by left]. by apply Hput. }
      destruct (negb _ && negb _).
      * eexists _, _, _. split; [done|]. split; [|by left]. by apply Hput.
      * eexists _, _, _. split; [done|]. split; [by apply in_place_set, Hput|]. right. eexists _, index, s, data. constructor; [done|done|done|by exists g|done| |by apply Hoth]. rewrite Em, Ek. done.
Qed.

(** ** The control operations *)

Definition config_ok (c : ForwardSeatConfig) : Prop :=
  (forall leg, sf_secure c = Some leg -> leg_inv leg) /\
  fits 32 (sf_egress_ssrc c) /\ fits 16 (sf_initial_sequence c) /\ fits 32 (sf_initial_timestamp c).

Lemma FloorStream_new_ok c : floor_ok (FloorStream_new c).
Proof. intros p Hp. exact (protection_new_ok _ _ Hp). Qed.

Lemma Seat_new_ok c clock now : config_ok c -> seat_ok (Seat_new c clock now).
Proof.
  intros (H1 & H2 & H3 & H4). split_and!; try done. cbn. intros f Hf. destruct (sf_floor c); [|done]. injection Hf as <-. apply FloorStream_new_ok.
Qed.

(** Routing one more seat keeps the table right. *)
Lemma route_seat_ok (seats : list Seat) routes i s : map_Forall (route_ok seats) routes -> seats !! i = Some s -> map_Forall (route_ok seats) (route_seat routes i s).
Proof.
  intros Hr Hi. unfold route_seat. assert (map_Forall (route_ok seats) (<[se_endpoint s := (i, PortAudio)]> routes)) as Ha.
  { apply map_Forall_insert_2; [by exists s|done]. }
  destruct (se_floor s) as [floor|] eqn:Ef; [|done]. apply map_Forall_insert_2; [|done]. exists s. split; [done|]. cbn. by rewrite Ef.
Qed.

Lemma route_seats_ok all seats : forall routes i, map_Forall (route_ok all) routes -> (forall j s, seats !! j = Some s -> all !! (i + j)%nat = Some s) ->
  map_Forall (route_ok all) (route_seats routes i seats).
Proof.
  induction seats as [|s seats IH]; intros routes i Hr Hs; [done|]. cbn [route_seats]. apply IH.
  - apply route_seat_ok; [done|]. rewrite <- (Nat.add_0_r i). by apply Hs.
  - intros j s' Hj. replace (S i + j)%nat with (i + S j)%nat by lia. by apply Hs.
Qed.

Lemma routes_app seats more (routes : gmap Z (nat * Port)) : map_Forall (route_ok seats) routes -> map_Forall (route_ok (seats ++ more)) routes.
Proof.
  intros Hr e t Ht. destruct (Hr e t Ht) as (s & Hs & He). exists s. split; [by apply lookup_app_l_Some|done].
Qed.

Lemma insert_seat_inv r c clock now : room_inv r -> config_ok c -> room_inv (insert_seat r c clock now).
Proof.
  intros [H1 H2 H3 H4] Hc. constructor; cbn.
  - apply Forall_app. split; [done|]. constructor; [by apply Seat_new_ok|constructor].
  - apply route_seat_ok; [by apply routes_app|]. by apply list_lookup_middle.
  - intros i Hi. specialize (H3 i Hi). rewrite length_app. lia.
  - done.
Qed.

Lemma index_of_tag_Some r tag i : index_of_tag r tag = Some i -> exists s, fr_seats r !! i = Some s /\ se_tag s = tag.
Proof. unfold index_of_tag. destruct (list_find _ _) as [[j s]|] eqn:E; [|done]. intros [= <-]. apply list_find_Some in E as (H & Ht & _). eauto. Qed.

Lemma switch_seat_ok s : seat_ok s -> seat_ok (set_forwarded s (switch_source (se_translator s)) (se_last_forward_clock s)).
Proof. by intros (H1 & H2 & H3). Qed.

Lemma switch_every_inv r : room_inv r -> room_inv (switch_every_translator r).
Proof.
  intros [H1 H2 H3 H4]. constructor; cbn; try done.
  - apply Forall_fmap. eapply Forall_impl; [exact H1|]. apply switch_seat_ok.
  - eapply routes_same; [|done]. apply Forall2_fmap_r. apply Forall_Forall2_diag, Forall_true. done.
  - by rewrite length_fmap.
Qed.

Lemma remove_seat_inv r tag : room_inv r -> room_inv (remove_seat r tag).2.
Proof.
  intros Hr. unfold remove_seat. destruct (index_of_tag r tag) as [i|] eqn:Ei; [|done].
  destruct (index_of_tag_Some _ _ _ Ei) as (s & Hi & _). pose proof (lookup_lt_Some _ _ _ Hi) as Hlt. destruct Hr as [H1 H2 H3 H4].
  assert (forall source, (forall j, source = Some j -> (j < length (delete i (fr_seats r)))%nat) -> forall announce,
    room_inv (set_choice (set_plan (set_routes (set_seats r (delete i (fr_seats r))) (route_seats ∅ 0 (delete i (fr_seats r)))) None) source announce)) as Hgo.
  { intros source Hs announce. constructor; cbn; try done; [by apply Forall_delete|]. apply route_seats_ok; [apply map_Forall_empty|done]. }
  cbv zeta. cbn [snd set_plan set_routes set_seats fr_source fr_announce_pending]. pose proof (length_delete (fr_seats r) i ltac:(by eexists)) as Hl. destruct (fr_source r) as [source|] eqn:Es.
  - specialize (H3 source eq_refl). case_bool_decide; [by apply switch_every_inv, Hgo|]. case_bool_decide; [apply Hgo; intros j [= <-]; lia|].
    specialize (Hgo (Some source) ltac:(intros j [= <-]; lia) (fr_announce_pending r)). destruct Hgo as [G1 G2 G3 G4]. constructor; try done.
    cbn. rewrite Es. intros j [= <-]. lia.
  - specialize (Hgo None ltac:(done) (fr_announce_pending r)). destruct Hgo as [G1 G2 G3 G4]. constructor; try done. cbn. by rewrite Es.
Qed.

Lemma set_source_inv r tag : room_inv r -> match set_source r tag with Ok r' => room_inv r' | Err _ => True | Panic => False end.
Proof.
  intros Hr. unfold set_source. assert (forall chosen, (forall i, chosen = Some i -> (i < length (fr_seats r))%nat) ->
    match (if bool_decide (chosen = fr_source r) then mret r else mret (switch_every_translator (set_plan (set_choice r chosen (bool_decide (is_Some chosen))) None)) : res ForwardError ForwardRoom) with
    | Ok r' => room_inv r' | Err _ => True | Panic => False end) as H.
  { intros chosen Hc. case_bool_decide; [done|]. apply switch_every_inv. destruct Hr as [H1 H2 H3 H4]. by constructor. }
  destruct tag as [tag|]; [|by apply (H None)]. destruct (index_of_tag r tag) as [i|] eqn:Ei; [|done]. apply (H (Some i)). intros j [= <-].
  destruct (index_of_tag_Some _ _ _ Ei) as (s & Hi & _). by eapply lookup_lt_Some.
Qed.

Lemma on_seat_inv r tag f : room_inv r -> (forall s, seat_ok s -> seat_ok (f s) /\ same_seat s (f s)) -> room_inv (on_seat r tag f).2.
Proof.
  intros Hr Hf. unfold on_seat. destruct (index_of_tag r tag) as [i|] eqn:Ei; [|done]. destruct (index_of_tag_Some _ _ _ Ei) as (s & Hi & _). cbn [snd].
  destruct (Hf s (seat_ok_of _ _ _ Hr Hi)) as [H1 H2]. pose proof (put_seat_inv r i s (f s) Hr Hi H1 H2) as H. unfold put_seat in H.
  assert (alter f i (fr_seats r) = <[i := f s]> (fr_seats r)) as ->; [|done].
  apply list_eq. intros j. destruct (decide (i = j)) as [<-|Hn].
  - by rewrite list_lookup_alter_eq, Hi, list_lookup_insert_eq by (by eapply lookup_lt_Some).
  - by rewrite list_lookup_alter_ne, list_lookup_insert_ne.
Qed.

Lemma ice_selected_inv r tag remote : room_inv r -> room_inv (ice_selected r tag remote).
Proof.
  intros Hr. apply on_seat_inv; [done|]. intros s (H1 & H2 & H3). split.
  - split_and!; try done. cbn. intros f. destruct (se_floor s) as [floor|]; [|done]. intros [= <-]. specialize (H3 floor eq_refl). unfold flip, floor_ice_selected. by destruct (fm_ice_gated floor).
  - split_and!; try done. cbn. destruct (se_floor s) as [floor|]; [|done]. cbn. unfold flip, floor_ice_selected. by destruct (fm_ice_gated floor).
Qed.

Lemma set_floor_keys_inv r tag keys : room_inv r -> no_panic (set_floor_keys r tag keys).1 /\ room_inv (set_floor_keys r tag keys).2.
Proof.
  intros Hr. unfold set_floor_keys. destruct (index_of_tag r tag) as [i|] eqn:Ei; [|done]. destruct (index_of_tag_Some _ _ _ Ei) as (s & Hi & _). rewrite Hi.
  destruct (se_floor s) as [floor|] eqn:Ef; [|done]. pose proof (seat_ok_of _ _ _ Hr Hi) as (H1 & H2 & H3).
  assert (forall protection, (forall p, protection = Some p -> gcm_inv (fp_context p)) -> room_inv (put_seat r i (set_floor s (Some
    (set_floor_gate floor (fm_destination floor) (fm_latch floor) (fm_refusals floor) protection)) (se_counters s)))) as Hput.
  { intros protection Hp. eapply put_seat_inv; [done|done| |].
    - split_and!; try done. by intros f [= <-].
    - split_and!; try done. cbn. by rewrite Ef. }
  case_bool_decide; [split; [done|]; by apply Hput|]. destruct (fm_protection floor) as [p|] eqn:Ep.
  - unfold floor_replace_keys. pose proof (gcm_inv_replace (fp_context p) keys (H3 floor Ef p Ep)) as Hg.
    assert (no_panic (replace_keys (fp_context p) keys).1) as Hnp by (unfold replace_keys; destruct (kept_keys keys) as [|a [|b []]]; try done; by destruct (_ =? _)).
    destruct (replace_keys (fp_context p) keys) as [[[]|e|] context]; [| |done]; (split; [done|]); apply Hput; by intros ? [= <-].
  - destruct (FloorProtection_new keys) as [p|] eqn:En; [|done]. split; [done|]. apply Hput. intros ? [= <-]. by eapply protection_new_ok.
Qed.

(** ** Reports and APP packets *)

(** A datagram to the audio endpoint of a reachable seat, sealed under its key if it
    has one. *)
Definition audio_to (s : Seat) (d : datagram) : Prop :=
  reachable s = true /\ exists clear wire, (sealed_for s clear).1 = Some wire /\ d = to_seat s wire.

(** A datagram to the floor endpoint of a seat whose key and ICE pair are settled. *)
Definition floor_to (s : Seat) (d : datagram) : Prop :=
  se_secure_pending s = false /\ se_ice_pending s = false /\ exists floor packet, se_floor s = Some floor /\ usable (fm_destination floor) = true /\
  match fm_protection floor with
  | None => d = (fm_endpoint floor, fm_destination floor, packet)
  | Some p => exists out p' wire, floor_seal p packet out = (Ok tt, p', wire) /\ d = (fm_endpoint floor, fm_destination floor, wire)
  end.

Lemma sealed_same s s' clear : se_secure s' = se_secure s -> (sealed_for s' clear).1 = (sealed_for s clear).1.
Proof. unfold sealed_for. intros ->. by destruct (se_secure s) as [leg|]; [destruct (leg_protect leg clear []) as [[[] ?] ?]|]. Qed.

Lemma sealed_to s clear wire : to_seat (sealed_for s clear).2 wire = to_seat s wire.
Proof. unfold sealed_for. by destruct (se_secure s) as [leg|]; [destruct (leg_protect leg clear []) as [[[] ?] ?]|]. Qed.

Lemma in_place_framed r r' i s s' : room_inv r -> framed r r' -> fr_seats r !! i = Some s -> seat_ok s' -> same_seat s s' ->
  fr_seats r' = <[i := s']> (fr_seats r) -> in_place r r'.
Proof.
  intros Hr Hf Hi Hok Hsame Hs. pose proof (in_place_put r i s s' Hr Hi Hok Hsame) as [[H1 H2 H3 H4] I2 I3 I4]. destruct Hf as [F1 F2 F3 F4 F5 F6 F7].
  cbn in *. constructor; [constructor| |done|done]; rewrite ?Hs, ?F2, ?F3; auto.
Qed.

Lemma report_bytes r rs : len rs <= 31 -> Forall (fun b => is_byte (rr_fraction_lost b)) rs -> bytes_ok (frame_bytes (sender_report_frame r rs)).
Proof.
  intros Hn Hb. pose proof (len_nonneg rs). pose proof (lor_80 (len rs) ltac:(lia)) as (? & _). unfold frame_bytes. cbn [f_h0 f_type f_body sender_report_frame].
  rewrite !bytes_ok_app, !bytes_ok_cons. split_and!; auto using be_enc_bytes, bytes_ok_nil; [by vm_compute|].
  clear Hn H H0. induction Hb as [|b rs' Hx _ IH]; cbn [fmap list_fmap concat]; [apply bytes_ok_nil|]. rewrite bytes_ok_app. split; [|done].
  unfold reception_bytes. rewrite !bytes_ok_app, bytes_ok_cons. split_and!; auto using be_enc_bytes, bytes_ok_nil.
Qed.

Lemma len_over (f b : bytes) : len f <= len b -> len (f ++ drop (length f) b) = len b.
Proof. unfold len. rewrite length_app, length_drop. lia. Qed.

(** Sealing what is written for one seat, and what the seat is then. *)
Lemma seal_for_seat r i s clear : room_inv r -> fr_seats r !! i = Some s -> bytes_ok clear ->
  exists r', seal_for r i s clear = Ok ((sealed_for s clear).1, r') /\ in_place r r' /\ fr_seats r' = <[i := (sealed_for s clear).2]> (fr_seats r).
Proof.
  intros Hr Hi Hb. pose proof (seat_ok_of _ _ _ Hr Hi) as Hok. destruct (seal_for_ok r i s clear Hi Hok Hb) as (r' & H1 & H2 & _ & H4).
  destruct (sealed_ok s clear Hok Hb) as (Hok' & Hsame & _). exists r'. split; [done|]. split; [|done]. by eapply in_place_framed.
Qed.

Lemma build_report_ok r index s buffer ntp now : room_inv r -> fr_seats r !! index = Some s -> len buffer = SENDER_REPORT_LEN + RECEPTION_REPORT_LEN ->
  exists d r' buffer', build_report r index buffer ntp now = Ok (d, r', buffer') /\ len buffer' = len buffer /\ in_place r r' /\
    (forall j, j <> index -> fr_seats r' !! j = fr_seats r !! j) /\ (forall x, d = Some x -> audio_to s x).
Proof.
  intros Hr Hi Hl. unfold build_report. rewrite (seat_of _ _ _ Hi), bind_Ok. pose proof (seat_ok_of _ _ _ Hr Hi) as Hok.
  destruct (reachable s) eqn:Er; cbn [negb].
  2: { exists None, r, buffer. split; [done|]. split; [done|]. split; [by apply in_place_refl|done]. }
  match goal with |- context [let '(_, _) := ?m in _] => assert (len m.1 <= 1 /\ Forall (fun b => is_byte (rr_fraction_lost b)) m.1) as [Hlr Hbr]; [|destruct m as [reports stats]] end.
  { destruct (ig_ssrc (se_stats s)) as [ssrc|]; [|split; [done|constructor]]. unfold fraction_lost_since_last_report.
    destruct (ig_base_sequence (se_stats s)); [destruct (_ || _)|]; (split; [done|]; constructor; [|constructor]); cbn [fst rr_fraction_lost]; try done.
    by apply (wrap_fits 8). }
  cbn [fst] in Hlr, Hbr. pose proof (len_nonneg reports). set (s1 := set_stats s stats). change SENDER_REPORT_LEN with 28 in Hl. change RECEPTION_REPORT_LEN with 24 in Hl.
  match goal with |- context [write_sender_report ?a ?b ?c ?d ?e reports buffer] => set (sr := mkSenderReport a b c d e []);
    change (write_sender_report a b c d e reports buffer) with (write_sender_report (sr_ssrc sr) (sr_ntp_timestamp sr) (sr_rtp_timestamp sr) (sr_packet_count sr) (sr_octet_count sr) reports buffer) end.
  rewrite (write_sender_report_Ok sr reports buffer) by lia. set (f := frame_bytes (sender_report_frame sr reports)).
  assert (len f = 28 + len reports * 24) as Hlf by (unfold f; rewrite len_frame_bytes, len_sender_report_body; lia).
  assert (len (f ++ drop (length f) buffer) = len buffer) as Hlb by (apply len_over; lia).
  cbv zeta. rewrite slice_Ok, bind_Ok, sub_app_begin by lia.
  set (r1 := put_seat r index s1). assert (seat_ok s1 /\ same_seat s s1) as [Hok1 Hsame1] by done.
  assert (in_place r r1) as Hip1 by (by eapply in_place_put). assert (fr_seats r1 !! index = Some s1) as Hi1 by (cbn; rewrite list_lookup_insert_eq; [done|by eapply lookup_lt_Some]).
  destruct (seal_for_seat r1 index s1 f (ip_inv _ _ Hip1) Hi1 (report_bytes sr reports ltac:(lia) Hbr)) as (r2 & -> & Hip2 & Hs2). rewrite bind_Ok.
  assert (forall j, j <> index -> fr_seats r2 !! j = fr_seats r !! j) as Hoth by (intros j Hj; rewrite Hs2; cbn; by rewrite !list_lookup_insert_ne).
  assert (in_place r r2) as Hip by (by eapply in_place_trans).
  pose proof (sealed_to s1 f) as Hto. pose proof (sealed_same s s1 f eq_refl) as Hsw. destruct (sealed_for s1 f) as [[wire|] s2] eqn:Es; cbn [fst snd] in *.
  2: { exists None, r2, (f ++ drop (length f) buffer). done. }
  assert (fr_seats r2 !! index = Some s2) as Hi2 by (rewrite Hs2, list_lookup_insert_eq; [done|by eapply lookup_lt_Some]).
  rewrite (seat_of _ _ _ Hi2), bind_Ok. eexists _, _, _. split; [done|]. split; [done|]. split; [|split].
  - eapply in_place_trans; [exact Hip|]. eapply in_place_put; [apply Hip|exact Hi2|apply (seat_ok_of _ _ _ (ip_inv _ _ Hip) Hi2)|done].
  - intros j Hj. cbn. rewrite list_lookup_insert_ne by done. by apply Hoth.
  - intros x [= <-]. split; [done|]. exists f, wire. split; [done|]. apply (Hto wire).
Qed.

(** A loop over the seats: what it sends goes to the seats it found. *)
Lemma build_reports_from_ok ntp now : forall count index r buffer, room_inv r -> (index + count = length (fr_seats r))%nat ->
  len buffer = SENDER_REPORT_LEN + RECEPTION_REPORT_LEN ->
  exists ds r', build_reports_from index count r buffer ntp now = Ok (ds, r') /\ in_place r r' /\
    Forall (fun d => exists i s, (index <= i)%nat /\ fr_seats r !! i = Some s /\ audio_to s d) ds.
Proof.
  induction count as [|count IH]; intros index r buffer Hr Hn Hl; cbn [build_reports_from].
  { exists [], r. split; [done|]. split; [by apply in_place_refl|constructor]. }
  destruct (lookup_lt_is_Some_2 (fr_seats r) index ltac:(lia)) as [s Hi].
  destruct (build_report_ok r index s buffer ntp now Hr Hi Hl) as (d & r1 & buffer1 & -> & Hl1 & Hip1 & Hoth & Hd). rewrite bind_Ok.
  destruct (IH (S index) r1 buffer1 (ip_inv _ _ Hip1)) as (ds & r2 & -> & Hip2 & Hds); [pose proof (Forall2_length _ _ _ (ip_seats _ _ Hip1)); lia|lia|].
  rewrite bind_Ok. exists (option_list d ++ ds), r2. split; [done|]. split; [by eapply in_place_trans|]. apply Forall_app. split.
  - destruct d as [d|]; [|constructor]. constructor; [|constructor]. exists index, s. auto.
  - eapply Forall_impl; [exact Hds|]. intros x (i & s' & Hle & Hs' & Ha). exists i, s'. split; [lia|]. by rewrite <- Hoth by lia.
Qed.

Lemma build_reports_ok r ntp now : room_inv r ->
  exists ds r', build_reports r ntp now = Ok (ds, r') /\ in_place r r' /\ Forall (fun d => exists i s, fr_seats r !! i = Some s /\ audio_to s d) ds.
Proof.
  intros Hr. unfold build_reports. case_bool_decide; [exists [], r; split; [done|]; split; [by apply in_place_refl|constructor]|].
  destruct (build_reports_from_ok ntp now (length (fr_seats r)) 0 r (replicate (Z.to_nat (SENDER_REPORT_LEN + RECEPTION_REPORT_LEN)) 0) Hr) as (ds & r' & Hb & Hip & Hds); [lia|by rewrite len_replicate|].
  exists ds, r'. split; [done|]. split; [done|]. eapply Forall_impl; [exact Hds|]. intros d (i & s & _ & Hd). eauto.
Qed.

Lemma write_app_len subtype ssrc name data out n out' : 0 <= subtype -> fits 32 ssrc -> len name = 4 -> bytes_ok name -> bytes_ok data ->
  write_app subtype ssrc name data out = Ok (n, out') ->
  12 <= n /\ len out' = len out /\ n <= len out /\ bytes_ok (sub out' 0 n) /\ len (sub out' 0 n) = n.
Proof.
  intros Hs Hss Hn Hnb Hd Hw. pose proof (write_app_cases subtype ssrc name data out Hs Hss Hn Hnb Hd) as H. rewrite Hw in H. destruct H as (Ha & -> & Hle & Hsub & Hl).
  pose proof (len_nonneg data). split; [lia|]. rewrite Hsub. split; [|split; [done|]; split; [by apply frame_bytes_ok, app_frame_ok|done]].
  pose proof (write_app_Ok _ out Ha Hle) as Hw'. cbn [ap_subtype ap_ssrc ap_name ap_data] in Hw'. rewrite Hw in Hw'.
  set (f := frame_bytes _) in *. assert (out' = f ++ drop (length f) out) as -> by congruence. apply len_over. lia.
Qed.

(** [a] seat's floor protection keeps its receive windows through a seal. *)
Lemma floor_seal_ok p packet out : gcm_inv (fp_context p) -> 8 <= len packet ->
  no_panic (floor_seal p packet out).1.1 /\ gcm_inv (fp_context (floor_seal p packet out).1.2).
Proof.
  intros [rs Hp] Hl. unfold floor_seal. pose proof (gcm_protect_cases (fp_context p) packet true out Hl) as H.
  destruct (gcm_protect _ _ _ _) as [[[u|e|] c] o]; [| |done]; (split; [done|]); exists rs; cbn; by rewrite H.
Qed.

Lemma send_app_to_ok r cs index s request : room_inv r -> fr_seats r !! index = Some s -> request_ok (ra_request request) ->
  unreachable_reason s cs (ra_stream request) = None ->
  match send_app_to r cs index s request with
  | Ok (d, _, r', _) => in_place r r' /\ (forall j, j <> index -> fr_seats r' !! j = fr_seats r !! j) /\ (forall x, d = Some x -> audio_to s x \/ floor_to s x)
  | Err _ => True
  | Panic => False
  end.
Proof.
  intros Hr Hi (Hq1 & Hq2 & Hq3 & Hq4 & Hq5) Hu. pose proof (seat_ok_of _ _ _ Hr Hi) as Hok. unfold send_app_to. cbv zeta.
  assert (fits 32 (default (tr_egress_ssrc (se_translator s)) (rq_ssrc (ra_request request)))) as Hss.
  { destruct (rq_ssrc (ra_request request)) as [ssrc|]; cbn; [auto|]. apply Hok. }
  pose proof (write_app_cases _ _ _ _ (fr_scratch r) Hq1 Hss Hq3 Hq4 Hq5) as Hnp.
  destruct (write_app _ _ _ _ _) as [[n scratch]|e|] eqn:Hw; [|done|done]. cbn [map_err]. rewrite bind_Ok. clear Hnp.
  destruct (write_app_len _ _ _ _ _ _ _ Hq1 Hss Hq3 Hq4 Hq5 Hw) as (Hn & Hl & Hle & Hb & Hlp). rewrite slice_Ok, bind_Ok by lia.
  set (packet := sub scratch 0 n) in *. set (r0 := set_scratch r scratch). assert (in_place r r0) as Hip0.
  { destruct Hr as [H1 H2 H3 H4]. constructor; [constructor; try done; cbn; lia|reflexivity|done|done]. }
  assert (fr_seats r0 !! index = Some s) as Hi0 by done. unfold unreachable_reason in Hu.
  assert (forall j, j <> index -> fr_seats r0 !! j = fr_seats r !! j) as Hoth0 by done. destruct (ra_stream request).
  - destruct (se_floor s) as [floor|] eqn:Ef.
    + destruct (se_secure_pending s || se_ice_pending s) eqn:Ep; [done|]. apply orb_false_iff in Ep as [Ep1 Ep2]. destruct (usable (fm_destination floor)) eqn:Ed; [|done].
      destruct (fm_protection floor) as [p|] eqn:Epr.
      2: { split; [done|]. split; [done|]. intros x [= <-]. right. split; [done|]. split; [done|]. exists floor, packet. by rewrite Epr. }
      pose proof (floor_seal_ok p packet (fr_secure_out r0) (proj2 (proj2 Hok) floor Ef p Epr) ltac:(lia)) as [Hnp Hg].
      assert (forall p', gcm_inv (fp_context p') -> forall out, let r' := set_secure_out (put_seat r0 index (set_floor s (Some
          (set_floor_gate floor (fm_destination floor) (fm_latch floor) (fm_refusals floor) (Some p'))) (se_counters s))) out in
        in_place r r' /\ forall j, j <> index -> fr_seats r' !! j = fr_seats r !! j) as Hput.
      { intros p' Hp' out. split; [|intros j Hj; cbn; by rewrite list_lookup_insert_ne]. eapply in_place_trans; [exact Hip0|].
        eapply (in_place_framed r0 _ index s); [apply Hip0|by constructor|done| | |reflexivity].
        - destruct Hok as (H1 & H2 & H3). split_and!; try done. intros f [= <-] q [= <-]. done.
        - split_and!; try done. cbn. by rewrite Ef. }
      destruct (floor_seal p packet (fr_secure_out r0)) as [[[[]|e|] p'] out] eqn:Es; cbn [fst snd] in *; [| |done]; destruct (Hput p' Hg out) as [Hip Hoth]; split; try done; split; try done.
      intros x [= <-]. right. split; [done|]. split; [done|]. exists floor, packet. split; [done|]. split; [done|]. rewrite Epr. by exists (fr_secure_out r0), p', out.
    + destruct (channel_of cs (se_floor_channel s)) as [[handle channel]|]; [|done]. unfold submit.
      destruct (ch_open channel); [|done]. cbn [negb]. assert (in_place r (set_pending r0 (fr_pending_channel r0 ++ [(se_tag s, handle)]))) as Hip.
      { destruct Hip0 as [[] ]. by constructor. }
      destruct (ch_connected channel); [|done]. cbn [negb]. by destruct (_ <=? _).
  - destruct (reachable s) eqn:Er; [|done]. destruct (seal_for_seat r0 index s packet (ip_inv _ _ Hip0) Hi0 Hb) as (r' & -> & Hip & Hs').
    assert (in_place r r') as Hip' by (by eapply in_place_trans). assert (forall j, j <> index -> fr_seats r' !! j = fr_seats r !! j) as Hoth by (intros j Hj; rewrite Hs'; cbn; by rewrite list_lookup_insert_ne).
    destruct (sealed_for s packet).1 as [wire|] eqn:Es; split; try done; split; try done. intros x [= <-]. left. split; [done|]. by exists packet, wire.
Qed.

Lemma send_app_from_ok single target request : request_ok (ra_request request) -> forall count index r cs failures, room_inv r -> (index + count = length (fr_seats r))%nat ->
  match send_app_from index count r cs single target request failures with
  | Ok (ds, _, r', _) => in_place r r' /\ Forall (fun d => exists i s, (index <= i)%nat /\ fr_seats r !! i = Some s /\ (audio_to s d \/ floor_to s d)) ds
  | Err _ => True
  | Panic => False
  end.
Proof.
  intros Hq. induction count as [|count IH]; intros index r cs failures Hr Hn; cbn [send_app_from].
  { split; [by apply in_place_refl|constructor]. }
  destruct (lookup_lt_is_Some_2 (fr_seats r) index ltac:(lia)) as [s Hi]. rewrite Hi.
  assert (forall fs, match send_app_from (S index) count r cs single target request fs with
    | Ok (ds, _, r', _) => in_place r r' /\ Forall (fun d => exists i s, (index <= i)%nat /\ fr_seats r !! i = Some s /\ (audio_to s d \/ floor_to s d)) ds
    | Err _ => True | Panic => False end) as Hskip.
  { intros fs. specialize (IH (S index) r cs fs Hr ltac:(lia)). destruct (send_app_from _ _ _ _ _ _ _ _) as [[[[ds fs'] r'] cs']|e|]; [|done|done]. destruct IH as [H1 H2].
    split; [done|]. eapply Forall_impl; [exact H2|]. intros d (i & s' & Hle & H). exists i, s'. split; [lia|done]. }
  destruct (negb _); [apply Hskip|]. destruct (unreachable_reason s cs (ra_stream request)) eqn:Hu; [apply Hskip|].
  pose proof (send_app_to_ok r cs index s request Hr Hi Hq Hu) as Ht. destruct (send_app_to r cs index s request) as [[[[d reason] r1] cs1]|e|]; [|done|done].
  destruct Ht as (Hip & Hoth & Hd). rewrite bind_Ok. specialize (IH (S index) r1 cs1 (match reason with Some reason => push_failure failures (se_tag s) reason | None => failures end) (ip_inv _ _ Hip)
    ltac:(pose proof (Forall2_length _ _ _ (ip_seats _ _ Hip)); lia)).
  destruct (send_app_from _ _ _ _ _ _ _ _) as [[[[ds fs'] r'] cs']|e|]; [|done|done]. rewrite bind_Ok. destruct IH as [H1 H2].
  split; [by eapply in_place_trans|]. apply Forall_app. split.
  - destruct d as [d|]; [|constructor]. constructor; [|constructor]. exists index, s. auto.
  - eapply Forall_impl; [exact H2|]. intros x (i & s' & Hle & Hs' & Ha). exists i, s'. split; [lia|]. by rewrite <- Hoth by lia.
Qed.

Lemma room_send_app_ok r cs target request : room_inv r -> request_ok (ra_request request) ->
  match room_send_app r cs target request with
  | Ok (ds, _, r', _) => in_place r r' /\ Forall (fun d => exists i s, fr_seats r !! i = Some s /\ (audio_to s d \/ floor_to s d)) ds
  | Err _ => True
  | Panic => False
  end.
Proof.
  intros Hr Hq. pose proof Hq as (Hq1 & Hq2 & Hq3 & Hq4 & Hq5). unfold room_send_app. cbv zeta. assert (fits 32 0) as Hz by (unfold fits; lia).
  pose proof (write_app_cases _ 0 _ _ (fr_scratch r) Hq1 Hz Hq3 Hq4 Hq5) as Hnp.
  destruct (write_app _ _ _ _ _) as [[n scratch]|e|] eqn:Hw; [|done|done]. cbn [map_err]. rewrite bind_Ok. clear Hnp.
  destruct (write_app_len _ _ _ _ _ _ _ Hq1 Hz Hq3 Hq4 Hq5 Hw) as (_ & Hl & _).
  assert (forall single, match send_app_from 0 (length (fr_seats (set_scratch r scratch))) (set_scratch r scratch) cs single target request [] with
    | Ok (ds, _, r', _) => in_place r r' /\ Forall (fun d => exists i s, fr_seats r !! i = Some s /\ (audio_to s d \/ floor_to s d)) ds
    | Err _ => True | Panic => False end) as Hgo.
  { intros single. assert (room_inv (set_scratch r scratch)) as Hr0 by (destruct Hr as [H1 H2 H3 H4]; constructor; try done; cbn; lia).
    pose proof (send_app_from_ok single target request Hq (length (fr_seats r)) 0 (set_scratch r scratch) cs [] Hr0 ltac:(done)) as H.
    cbn [set_scratch fr_seats] in H |- *. destruct (send_app_from _ _ _ _ _ _ _ _) as [[[[ds fs'] r'] cs']|e|]; [|done|done]. destruct H as [[I1 I2 I3 I4] H2].
    split; [by constructor|]. eapply Forall_impl; [exact H2|]. intros d (i & s & _ & Hd). eauto. }
  destruct target as [tag|except]; [|exact (Hgo None)]. destruct (index_of_tag _ tag) as [i|]; [|done]. exact (Hgo (Some i)).
Qed.

(** ** A turn of the room's actor *)

Lemma outputs_except f source : forall seats seats' index, length seats = length seats' ->
  (forall j, (index + j)%nat <> source -> seats !! j = seats' !! j) -> (outputs f source index seats).1 = (outputs f source index seats').1.
Proof.
  induction seats as [|s seats IH]; intros [|s' seats'] index Hl Hs; try done. cbn [outputs].
  assert ((outputs f source (S index) seats).1 = (outputs f source (S index) seats').1) as E.
  { apply IH; [by injection Hl|]. intros j Hj. apply (Hs (S j)). lia. }
  assert ((if bool_decide (index = source) then (None, s) else f s).1 = (if bool_decide (index = source) then (None, s') else f s').1) as E1.
  { case_bool_decide as Hi; [done|]. specialize (Hs 0%nat). rewrite Nat.add_0_r in Hs. by injection (Hs Hi) as ->. }
  destruct (if bool_decide (index = source) then (None, s) else f s), (if bool_decide (index = source) then (None, s') else f s').
  destruct (outputs f source (S index) seats), (outputs f source (S index) seats'). cbn in *. by subst.
Qed.

Lemma outputs_from f source (P : datagram -> Prop) : forall seats index,
  (forall j s d, seats !! j = Some s -> (f s).1 = Some d -> P d) -> Forall P (outputs f source index seats).1.
Proof.
  induction seats as [|s seats IH]; intros index Hp; [constructor|]. cbn [outputs].
  pose proof (IH (S index) (fun j s' d H => Hp (S j) s' d H)) as Hrest. pose proof (Hp 0%nat s) as Hs. destruct (bool_decide (index = source)).
  - by destruct (outputs f source (S index) seats).
  - destruct (f s) as [[d|] s']; destruct (outputs f source (S index) seats); cbn in *; [|done]. constructor; auto.
Qed.

(** What a packet of a room makes it send. *)
Definition fan_of (r : ForwardRoom) (packet : RxPacket) (arrival : Z) (ds : list datagram) : Prop :=
  ds = [] \/ exists index s data g,
    fr_by_endpoint r !! rx_endpoint packet = Some (index, PortAudio) /\ fr_seats r !! index = Some s /\ fr_source r = Some index /\
    passed (gate_of s) packet data g /\
    match rc_media (fr_codec r) with
    | Translate => is_rtcp data = false /\ exists parsed kind, RtpPacket_parse data = Ok parsed /\ kind_of s (rp_payload_type parsed) = Some kind /\
        ds = (outputs (seat_output kind arrival data) index 0 (fr_seats r)).1
    | Preserve => ds = (outputs (verbatim_output (negb (is_rtcp (rx_data packet))) (rx_data packet)) index 0 (fr_seats r)).1
    end.

(** A datagram goes to a seat that can be reached, on its own endpoint and under its
    own key; only a room that hands on the sender's bytes sends them as they came. *)
Definition reaches (r : ForwardRoom) (i : RoomInput) (d : datagram) : Prop :=
  exists k s, fr_seats r !! k = Some s /\
    (audio_to s d \/ floor_to s d \/
     reachable s = true /\ rc_media (fr_codec r) = Preserve /\ exists packet arrival, i = RoomPacket packet arrival /\ d = to_seat s (rx_data packet)).

Lemma seat_output_reaches kind arrival data s d : seat_ok s -> bytes_ok data -> (seat_output kind arrival data s).1 = Some d -> audio_to s d.
Proof.
  intros Hs Hb. unfold seat_output. destruct (clear_for kind arrival data s) as [[clear s1]|] eqn:E; [|done].
  destruct (clear_ok _ _ _ _ _ _ Hs Hb E) as (_ & (Hse & _) & _ & Hr & Hsec & Hdest & _). pose proof (sealed_same s s1 clear Hsec) as Hw. pose proof (sealed_to s1 clear) as Ht.
  destruct (sealed_for s1 clear) as [[wire|] s2]; [|done]. cbn [fst snd fmap option_fmap option_map] in *. intros [= <-].
  split; [done|]. exists clear, wire. split; [done|]. rewrite Ht. unfold to_seat. by rewrite Hse, Hdest.
Qed.

Lemma fan_reaches r packet arrival ds : room_inv r -> bytes_ok (rx_data packet) -> (forall s data g, seat_ok s -> passed (gate_of s) packet data g -> bytes_ok data) ->
  fan_of r packet arrival ds -> Forall (reaches r (RoomPacket packet arrival)) ds.
Proof.
  intros Hr Hb Hp [->|(index & s & data & g & _ & Hi & _ & Hpass & Hm)]; [constructor|]. destruct (rc_media (fr_codec r)) eqn:Em.
  - destruct Hm as (_ & parsed & kind & _ & _ & ->). pose proof (Hp s data g (seat_ok_of _ _ _ Hr Hi) Hpass) as Hbd. apply outputs_from. intros j s' d Hj Hd. exists j, s'. split; [done|]. left.
    eapply seat_output_reaches; [by eapply seat_ok_of|done|done].
  - subst ds. apply outputs_from. intros j s' d Hj Hd. exists j, s'. split; [done|]. right. right. unfold verbatim_output in Hd.
    destruct (reachable s'); [|done]. injection Hd as <-. split; [done|]. split; [done|]. by exists packet, arrival.
Qed.

Lemma packet_turn_ok r qs packet arrival : room_inv r -> bytes_ok (rx_data packet) ->
  exists outcome r1 qs' ds r2, room_ingest r qs packet arrival = Ok (outcome, r1, qs') /\ fan_out (S (length (fr_seats r1))) r1 packet = Ok (ds, r2) /\
    room_inv r2 /\ fan_of r packet arrival ds.
Proof.
  intros Hr Hb. destruct (ingest_ok r qs packet arrival Hr Hb) as (outcome & r1 & qs' & Hi & [I1 I2 I3 I4] & [Hp|(p & index & s & data & [A1 A2 A3 [g A4] (A5 & A6 & A7 & A8) A9 A10])]).
  { exists outcome, r1, qs', [], r1. split; [done|]. split; [|split; [done|by left]]. cbn [fan_out]. unfold next_datagram. by rewrite Hp. }
  destruct p as [verbatim source kind buffered cursor at_]. cbn [pl_verbatim pl_source pl_kind pl_in_clear_buffer pl_cursor pl_arrival] in *. subst source cursor at_.
  set (p := mkPlan verbatim index kind buffered 0 arrival) in *.
  pose proof (Forall2_length _ _ _ I2) as Hlen. assert (index < length (fr_seats r1))%nat as Hlt by (rewrite <- Hlen; by eapply lookup_lt_Some).
  assert (plan_bytes_ok p (fr_clear_in r1) packet) as Hpb.
  { unfold plan_bytes_ok. destruct (rc_media (fr_codec r)); [destruct A9 as (-> & -> & ? & _); done|]. cbn. rewrite A9. by destruct (is_rtcp (rx_data packet)). }
  destruct (fan_out_ok packet (fr_clear_in r1) p Hpb (length (fr_seats r1)) (fr_seats r1) (S (length (fr_seats r1))) r1 []) as (r2 & Hf & Hfr & Hpl & Hs2); [lia| |done|lia|].
  { constructor; try done; [apply I1|apply I1]. }
  cbn [length app] in *. eexists outcome, r1, qs', _, r2. split; [done|]. split; [exact Hf|]. split.
  - destruct (outputs_seats (plan_output p (fr_clear_in r1) packet) index seat_ok) with (seats := fr_seats r1) (index := 0%nat) as [O1 O2]; [by intros; apply plan_output_seat|apply I1|].
    destruct Hfr as [F1 F2 F3 F4 F5 F6 F7]. destruct I1 as [J1 J2 J3 J4]. constructor.
    + by rewrite Hs2.
    + rewrite Hs2, F2. by eapply routes_same.
    + intros k Hk. rewrite F3 in Hk. specialize (J3 k Hk). rewrite Hs2. change (pl_source p) with index. by rewrite <- (Forall2_length _ _ _ O2).
    + auto.
  - right. exists index, s, data, g. do 4 (split; [done|]).
    assert (forall f, (outputs f index 0 (fr_seats r1)).1 = (outputs f index 0 (fr_seats r)).1) as Hsame by (intros f; apply outputs_except; [done|]; intros j Hj; by apply A10).
    destruct (rc_media (fr_codec r)).
    + destruct A9 as (-> & Hd & _ & Hk & parsed & Hpa & Hki). split; [done|]. exists parsed, kind. split; [done|]. split; [done|]. rewrite <- Hsame, <- Hd. done.
    + rewrite <- Hsame. cbn. subst verbatim. by destruct (is_rtcp (rx_data packet)).
Qed.

Lemma passed_bytes s packet data g : seat_ok s -> bytes_ok (rx_data packet) -> passed (gate_of s) packet data g -> bytes_ok data.
Proof.
  intros (H1 & _) Hb [_ _ Ho _]. cbn in Ho. destruct (se_secure s) as [leg|]; [|by destruct Ho as [-> _]]. destruct Ho as (kind & leg' & Hu & _).
  pose proof (leg_unprotect_safe keystream_bytes leg (rx_data packet) (H1 leg eq_refl) Hb) as H2. rewrite Hu in H2. by destruct H2.
Qed.

Lemma tag_at_ok r endpoint : room_inv r -> exists tag, tag_at r endpoint = Ok tag.
Proof.
  intros Hr. unfold tag_at. destruct (fr_by_endpoint r !! endpoint) as [[i port]|] eqn:E; [|by eexists].
  destruct (ri_routes _ Hr _ _ E) as (s & Hi & _). cbn in Hi. rewrite (seat_of _ _ _ Hi), bind_Ok. by eexists.
Qed.

Lemma send_failures_ok r failures ds refusals pending verdicts : room_inv r -> exists text, send_failures r failures ds refusals pending verdicts = Ok text.
Proof.
  intros Hr. unfold send_failures. match goal with |- context [foldl ?f (mret failures) _] => set (step := f) end.
  assert (forall l acc, (exists text, acc = Ok text) -> exists text, foldl step acc l = Ok text) as Hfold.
  { induction l as [|[d [error|]] l IH]; intros acc [text ->]; [by exists text| |].
    - cbn [foldl]. apply IH. unfold step. rewrite bind_Ok. cbn [snd fst]. destruct (tag_at_ok r d.1.1 Hr) as [tag ->]. rewrite bind_Ok. by eexists.
    - cbn [foldl]. apply IH. unfold step. rewrite bind_Ok. by eexists. }
  destruct (Hfold (zip ds refusals) (mret failures) ltac:(by eexists)) as [text ->]. by eexists.
Qed.

(** What the actor hands to the datapath, of what a turn puts out. *)
Definition sent (outs : list RoomOutput) : list datagram := omap (fun o => match o with RoomSent d => Some d | _ => None end) outs.

Lemma sent_all ds : sent (RoomSent <$> ds) = ds.
Proof. induction ds as [|d ds IH]; [done|]. unfold sent in *. cbn. by f_equal. Qed.

Lemma sent_app l1 l2 : sent (l1 ++ l2) = sent l1 ++ sent l2.
Proof. apply omap_app. Qed.

(** What the types of the messages, and whoever builds the keys, say of an input. *)
Definition room_input_ok (i : RoomInput) : Prop :=
  match i with
  | RoomPacket packet _ => bytes_ok (rx_data packet)
  | RoomAdd config _ => config_ok config
  | RoomSendApp _ request _ _ => request_ok (ra_request request)
  | RoomAttachSecureLeg _ leg => leg_inv leg
  | _ => True
  end.

(** What the input makes the room send. *)
Definition sends (r : ForwardRoom) (i : RoomInput) (ds : list datagram) : Prop :=
  match i with
  | RoomPacket packet arrival => fan_of r packet arrival ds
  | RoomSendApp _ _ _ _ | RoomReportsDue _ _ => Forall (reaches r i) ds
  | _ => ds = []
  end.

Lemma control_ok a qs cs i : room_inv (ac_room a) -> room_input_ok i ->
  exists outs a' qs' cs', room_control a qs cs i = Ok (outs, a', qs', cs') /\ room_inv (ac_room a') /\ sends (ac_room a) i (sent outs).
Proof.
  intros Hr Hi. set (r := ac_room a) in *. assert (forall ds i', Forall (fun d => exists k s, fr_seats r !! k = Some s /\ (audio_to s d \/ floor_to s d)) ds -> Forall (reaches r i') ds) as Hreach.
  { intros ds i' Hd. eapply Forall_impl; [exact Hd|]. intros d (k & s & Hk & [H|H]); exists k, s; auto. }
  destruct i; cbn [room_control room_input_ok sends] in *; fold r.
  - destruct (packet_turn_ok r qs packet arrival Hr Hi) as (outcome & r1 & qs' & ds & r2 & -> & H1 & H2 & H3). rewrite bind_Ok, H1, bind_Ok.
    eexists _, _, _, _. split; [done|]. split; [done|]. change (sent (_ :: ?l)) with (sent l). by rewrite sent_all.
  - unfold add_seat, check_vacancy. destruct (_ <=? _); [by eexists _, _, _, _|]. destruct (index_of_tag r (sf_tag config)); [by eexists _, _, _, _|]. rewrite bind_Ok.
    eexists _, _, _, _. split; [done|]. split; [by apply insert_seat_inv|done].
  - pose proof (remove_seat_inv r tag Hr) as H1. destruct (remove_seat r tag) as [removed r']. by eexists _, _, _, _.
  - pose proof (set_source_inv r tag Hr) as H1. destruct (set_source r tag) as [r'|e|]; [| |done]; by eexists _, _, _, _.
  - pose proof (room_send_app_ok r cs target request Hr Hi) as H1. destruct (room_send_app r cs target request) as [[[[ds failures] r'] cs']|e|]; [| |done].
    2: { by eexists _, _, _, _. }
    destruct H1 as [H1 H2]. cbn [take_pending_channel_sends]. assert (room_inv (set_pending r' [])) as Hr' by (destruct H1 as [[] ]; by constructor).
    destruct (send_failures_ok (set_pending r' []) failures ds refusals (fr_pending_channel r') verdicts Hr') as [text ->]. rewrite bind_Ok.
    eexists _, _, _, _. split; [done|]. split; [done|]. rewrite sent_app, sent_all, app_nil_r. by apply Hreach.
  - pose proof (set_floor_keys_inv r tag keys Hr) as [_ H1]. destruct (set_floor_keys r tag keys) as [outcome r']. by eexists _, _, _, _.
  - eexists _, _, _, _. split; [done|]. split; [|done]. apply on_seat_inv; [done|]. intros s (H1 & H2 & H3). split; [|done]. split; [|done]. by intros l [= <-].
  - eexists _, _, _, _. split; [done|]. split; [|done]. by apply on_seat_inv.
  - eexists _, _, _, _. split; [done|]. split; [|done]. by apply ice_selected_inv.
  - by eexists _, _, _, _.
  - destruct (build_reports_ok r ntp_timestamp now_micros Hr) as (ds & r' & -> & H1 & H2). rewrite bind_Ok.
    eexists _, _, _, _. split; [done|]. split; [apply H1|]. rewrite sent_all. apply Hreach. eapply Forall_impl; [exact H2|]. intros d (k & s & Hk & H). eauto.
Qed.

Lemma turn_ok_inv a qs cs i : room_inv (ac_room a) -> room_input_ok i ->
  exists outs a' qs' cs', room_turn a qs cs i = Ok (outs, a', qs', cs') /\ room_inv (ac_room a') /\ sends (ac_room a) i (sent outs).
Proof.
  intros Hr Hi. destruct (control_ok a qs cs i Hr Hi) as (outs & a1 & qs' & cs' & Hc & H1 & H2). unfold room_turn. rewrite Hc, bind_Ok.
  assert (exists outs' a', (if ac_ended a1 then mret (outs, a1, qs', cs') else let '(events, a) := deliver_events a1 (ac_room a1) in mret (outs ++ events, a, qs', cs'))
      = (Ok (outs', a', qs', cs') : res unit _) /\ room_inv (ac_room a') /\ sent outs' = sent outs) as (outs' & a' & E & Hr' & Hs).
  { destruct (ac_ended a1); [by exists outs, a1|]. eexists _, _. split; [done|]. split; [by destruct H1|]. rewrite sent_app.
    destruct (ac_source_events a1) as [sink|]; cbn; [|by rewrite app_nil_r]. induction (fr_events (ac_room a1)) as [|e l IH]; cbn; [by rewrite app_nil_r|exact IH]. }
  destruct i; try (exists outs', a', qs', cs'; rewrite Hs; split; [exact E|done]); by exists outs, a1, qs', cs'.
Qed.

(** Every state a room's actor comes to, whatever it is told and whatever arrives. *)
Inductive room_history : RoomActor -> Prop :=
| room_opens room_id codec : room_history (run_forward_room (ForwardRoom_new room_id codec))
| room_goes_on a qs cs i outs a' qs' cs' : room_history a -> ac_ended a = false -> room_input_ok i ->
    room_turn a qs cs i = Ok (outs, a', qs', cs') -> room_history a'.

Lemma room_history_inv a : room_history a -> room_inv (ac_room a).
Proof.
  induction 1 as [room_id codec|a qs cs i outs a' qs' cs' _ IH _ Hi Ht].
  - constructor; cbn; [constructor|apply map_Forall_empty|done|by rewrite len_replicate].
  - destruct (turn_ok_inv a qs cs i IH Hi) as (outs1 & a1 & qs1 & cs1 & Ht1 & Hr & _). rewrite Ht in Ht1. by injection Ht1 as _ <- _ _.
Qed.

(** The actor, message after message. *)
Fixpoint actor_run (a : RoomActor) (qs : queues) (cs : channels) (inputs : list RoomInput) : res unit (list datagram * RoomActor * queues * channels) :=
  match inputs with
  | [] => mret ([], a, qs, cs)
  | i :: inputs =>
      if ac_ended a then mret ([], a, qs, cs) else
      '(outs, a, qs, cs) ← room_turn a qs cs i;
      '(ds, a, qs, cs) ← actor_run a qs cs inputs;
      mret (sent outs ++ ds, a, qs, cs)
  end.

Lemma actor_run_ok inputs : forall a qs cs, room_history a -> Forall room_input_ok inputs ->
  exists ds a' qs' cs', actor_run a qs cs inputs = Ok (ds, a', qs', cs') /\ room_history a'.
Proof.
  induction inputs as [|i inputs IH]; intros a qs cs Ha Hi; cbn [actor_run]; [by eexists _, _, _, _|]. apply Forall_cons_1 in Hi as [Hi His].
  destruct (ac_ended a) eqn:Ee; [by eexists _, _, _, _|]. destruct (turn_ok_inv a qs cs i (room_history_inv a Ha) Hi) as (outs & a1 & qs1 & cs1 & Ht & _).
  rewrite Ht, bind_Ok. destruct (IH a1 qs1 cs1 ltac:(by eapply room_goes_on) His) as (ds & a2 & qs2 & cs2 & -> & Ha2). rewrite bind_Ok. by eexists _, _, _, _.
Qed.

End safety.

(** ** A room of three *)

Definition at_host (host port : Z) : SocketAddr := mkSocketAddr (V4 host) port.

Definition demo_codec : RoomCodec := mkRoomCodec (CodecSpec_new 0 (str "PCMU") 8000 1 20) Translate.

Definition demo_seat (name : bytes) (endpoint host audio ssrc : Z) (secure : option SecureLeg) : ForwardSeatConfig :=
  mkForwardSeatConfig name endpoint (at_host host 4000) (Exact (V4 host)) true audio (Some (mkEventPayloadType 101 8000)) secure false false ssrc 100 1000 None None.

Definition demo_packet (ssrc seq timestamp : Z) (payload : bytes) : bytes :=
  [0x80; 0] ++ be_enc 2 seq ++ be_enc 4 timestamp ++ be_enc 4 ssrc ++ payload.

Section demo.
Context `{L : SrtpCryptoLaws} `{G : GcmCrypto}.

Definition demo_leg : SecureLeg := SecureLeg_new (example_key 0x41) (example_key 0x51).

(** Ann speaks, Bob listens in the clear, and Cat under a key of her own. *)
Definition demo_inputs : list RoomInput :=
  [RoomAdd (demo_seat (str "ann") 10 1 0 0x111 None) 0; RoomAdd (demo_seat (str "bob") 20 2 0 0x222 None) 0;
   RoomAdd (demo_seat (str "cat") 30 3 8 0x333 (Some demo_leg)) 0; RoomSetSource (Some (str "ann")) None].

Definition demo_room : RoomActor := run_forward_room (ForwardRoom_new (str "room") demo_codec).

Definition demo_speech : RoomInput := RoomPacket (mkRxPacket 10 (at_host 1 7000) (demo_packet 0x51 500 16000 [0xAA; 0xBB])) 20000.

Lemma demo_inputs_ok : Forall room_input_ok demo_inputs.
Proof.
  assert (forall name endpoint host audio ssrc secure, fits 32 ssrc -> (forall leg, secure = Some leg -> leg_inv leg) -> config_ok (demo_seat name endpoint host audio ssrc secure)) as H.
  { intros name endpoint host audio ssrc secure Hf Hs. split; [exact Hs|]. split; [exact Hf|]. unfold fits. cbn. lia. }
  repeat (apply Forall_cons_2 || apply Forall_nil_2); cbn [room_input_ok]; try done; apply H; try (unfold fits; lia); try done.
  intros leg [= <-]. apply new_leg_inv; apply example_key_ok; lia.
Qed.
End demo.

(** Bob is sent Ann's packet under his own stream's numbers, marked as the start of a
    talkspurt, Cat the same payload under
    hers and her payload type, sealed so that her end opens it; a packet from Bob, who
    was not chosen, and one from a stranger are sent to nobody. *)
Example demo_fan_out :
  match @actor_run byte_crypto toy_gcm demo_room ∅ ∅ (@demo_inputs byte_crypto ++ [demo_speech;
          RoomPacket (mkRxPacket 20 (at_host 2 7000) (demo_packet 0x52 1 0 [0xCC])) 20000; RoomPacket (mkRxPacket 10 (at_host 9 7000) (demo_packet 0x51 501 16160 [0xDD])) 40000]) with
  | Ok ([bob; (endpoint, destination, wire)], _, _, _) => Some (bob, endpoint, destination, (@leg_unprotect byte_crypto (@SecureLeg_new byte_crypto (example_key 0x51) (example_key 0x41)) wire []).2)
  | _ => None
  end = Some ((20, at_host 2 4000, [0x80; 0x80] ++ be_enc 2 100 ++ be_enc 4 1000 ++ be_enc 4 0x222 ++ [0xAA; 0xBB]), 30, at_host 3 4000,
    [0x80; 0x88] ++ be_enc 2 100 ++ be_enc 4 1000 ++ be_enc 4 0x333 ++ [0xAA; 0xBB]).
Proof. vm_compute. reflexivity. Qed.


(** A talker whose second packet overtook its first: the late one takes a number the
    talker before has used, and Cat's leg seals both under one index. Their difference
    is the difference of the payloads, whatever the key. *)
Example reordered_start_reuses_keystream :
  let spoken endpoint host seq timestamp payload := RoomPacket (mkRxPacket endpoint (at_host host 7000) (demo_packet (0x50 + host) seq timestamp payload)) 20000 in
  let inputs := @demo_inputs byte_crypto ++
    [spoken 10 1 500 16000 [1; 2]; spoken 10 1 501 16160 [3; 4]; RoomSetSource (Some (str "bob")) None; spoken 20 2 8 900 [5; 6]; spoken 20 2 7 740 [0x70; 0x80]] in
  match @actor_run byte_crypto toy_gcm demo_room ∅ ∅ inputs with
  | Ok (ds, _, _, _) =>
      match snd <$> filter (fun d : datagram => d.1.1 = 30) ds with
      | [_; early; _; late] => Some (sub early 2 4, sub late 2 4, zip_with Z.lxor (sub early 12 14) (sub late 12 14))
      | _ => None
      end
  | _ => None
  end = Some (be_enc 2 101, be_enc 2 101, [Z.lxor 3 0x70; Z.lxor 4 0x80]).
Proof. vm_compute. reflexivity. Qed.
